(* ===== verification/_CoqProject ===== *)
-Q . S2P
Prelude.v
Block.v
FsLayout.v
Partition.v
FsOps.v
FsSpec.v
FsRep.v
FsCow.v
FsRewrite.v
FsPath.v
FsCommit.v
FsRefine.v
FsNames.v
FsMount.v
FsTheorems.v
FsRuns.v
Heap.v
Frame.v
Quota.v
Paging.v
PagingInv.v
PagingSplit.v
PagingUnmap.v
PagingSpace.v
PagingMap.v
PagingRef.v
PagingRuns.v
Userspace.v
Elf.v
ElfSpec.v
ElfTheorems.v
UserLoad.v
Sharing.v
Gbm.v
GbmTheorems.v
GbmRuns.v
Sched.v
SchedInv.v
SchedTheorems.v
Ipc.v
IpcTheorems.v
IpcWait.v
RingChannel.v
Ring.v
RingTheorems.v
RingCases.v
Request.v
RequestTheorems.v
Sync.v
SyncTheorems.v
SyncRuns.v
NetBytes.v
Net.v
NetSafe.v
NetReceive.v
NetCommands.v
NetTheorems.v
NetStream.v
NetWire.v
NetRuns.v
Compositor.v
CompositorOrder.v
CompositorDamage.v
CompositorDraw.v
CompositorPicture.v
CompositorEvents.v
CompositorTheorems.v
CompositorRuns.v
Input.v
InputTheorems.v
InputRuns.v
Timer.v
Sha256.v
Sha256Spec.v
Accounts.v
AccountText.v
AccountTheorems.v
AccountRuns.v
