(* ===== verification/Prelude.v ===== *)
(** * Kernel Panda: a verification library

    Kernel Panda is a small microkernel in Rust with its drivers' users, a network stack
    and a display server as Ring 3 programs.  This library models its core, from the
    source, as executable definitions, and proves what makes it correct.

    ** The program and the files that model it

    The kernel (src/kernel/src) runs threads on several processors ([sched]), gives them
    memory through page tables ([memory], [userspace], [elf], [gbm], [ring]), lets them
    talk through endpoints they hold capabilities for ([ipc], [ring], [timer]) within
    quotas, and keeps a copy-on-write file system ([fs]) on disks ([block]) whose accounts
    ([users]) say who may log in.  In Ring 3 (src/userland/src/bin) a daemon speaks TCP/IP,
    one decodes the keyboard and the mouse, and a compositor owns the screen.

    - [Prelude]: results, the state-and-error monad and its weakest preconditions, bytes
      and little-endian numbers, lists, the tactics and hint databases the rest uses.
    - [Block]: the [BlockDevice] trait as a class, the laws a device is relied on for as
      a second class, and a disk in memory with a write cache and faults as an instance.
    - [FsLayout], [FsOps]: on-disk structures and every operation of fs/mod.rs and
      fs/format.rs, over any device; [FsSpec]: the same as operations on an abstract tree;
      [FsRep], [FsCow], [FsRewrite], [FsPath], [FsCommit], [FsRefine], [FsNames],
      [FsMount]: how a disk represents a tree, that a change touches only free blocks and
      builds the tree the specification computes, commit, recovery and mounting;
      [FsTheorems], [FsRuns]: what callers rely on, and concrete runs.
    - [Partition]: MBR and GPT tables of block/partition.rs, and the partition as a
      device: it satisfies the laws of [Block], so the file system theorems hold on it.
    - [Heap], [Frame]: the allocators (allocator/, memory/frame.rs).
    - [Paging]: memory/paging.rs over physical memory; the crate that edits one entry is
      the class [Mapper] with its laws, and [PagingRef] an implementation that keeps them.
      [PagingInv], [PagingSplit], [PagingUnmap], [PagingMap], [PagingSpace]: well-formed
      tables, and what each operation does to every translation; [PagingRuns]: examples.
    - [Userspace], [Elf], [ElfSpec], [ElfTheorems], [UserLoad]: checks of user pointers,
      the program loader, starting and ending a process.
    - [Sharing], [Gbm], [GbmTheorems], [GbmRuns]: memory shared between processes and the
      registry of graphics buffers (gbm.rs).
    - [Sched], [SchedInv], [SchedTheorems]: the scheduler's critical sections as
      functions; a machine whose processors interleave them; its invariant; its theorems.
    - [Quota], [Ipc], [IpcTheorems], [IpcWait]: limits, the endpoint registry, runs of
      every operation by every thread, and blocking receives with parking and waking.
    - [RingChannel], [Ring], [RingTheorems], [RingCases]: rings, the shared-memory channel
      as the user library runs it, and the kernel's registry of them (ring.rs).
    - [Request], [RequestTheorems]: slots and completions of disk requests
      (block/request.rs), every critical section and atomic access a step.
    - [Sync], [SyncTheorems], [SyncRuns]: the locks of sync.rs, likewise, with interrupts.
    - [NetBytes], [Net]: the network daemon (userland net.rs), every handler of frames,
      commands and ticks; [NetSafe], [NetReceive], [NetCommands], [NetTheorems]: its
      invariant and memory safety; [NetStream], [NetWire]: TCP streams and what travels
      between two machines; [NetRuns]: examples.
    - [Compositor]: compositor.rs; [CompositorOrder], [CompositorDamage],
      [CompositorDraw], [CompositorPicture], [CompositorEvents], [CompositorTheorems],
      [CompositorRuns]: the order of drawing, damage, drawing as sets of pixels, what the
      screen should show, the events that change it, results and examples.
    - [Input], [InputTheorems], [InputRuns]: the input daemon (input.rs), alone and with
      the compositor.
    - [Timer]: one-shot timers and the clock.  [Sha256], [Sha256Spec]: the hash crate and
      the standards.  [Accounts], [AccountText], [AccountTheorems], [AccountRuns]: users.rs
      over the file system and the hash.

    ** How code becomes definitions

    The kernel is built with overflow checks and debug assertions, so its code has three
    ways out: [Ok], [Err] and [Panic], and [Panic] is where an index out of range, an
    overflow or a failed assertion leads.  The programs of Ring 3 are built without
    overflow checks: there sums wrap, and a [Panic] is a bad index or an access to memory
    that is not mapped.  Integers are [Z] at their width.  What a lock protects is a
    record, and each critical section a function on it; where interleaving matters the
    sections, and the accesses to atomics, are separate steps of a machine.  A file system
    operation holds one lock throughout and is one program; so is each operation of the
    registries of buffers and rings.  Loops recurse on the data they walk; the few that
    count are bounded by the count the code has: directory slots by [DIRECT_BLOCKS], a
    bitmap search by the number of frames, page loops by the number of pages, the polls of
    a keyboard controller by [POLLS].  Where the code has no count the bound is a fact
    about it: three rounds split a huge page, a hash absorbs a byte a turn, a checksum
    folds in five turns ([Parsers.parsers_end]), names and options of packets are walked
    in at most as many turns as they have bytes, a row of 128 tiles has at most 128 runs.

    ** What is shown

    - File system: every operation refines the abstract tree on every branch, up to the
      first that fails for lack of room, for its size or because of the device, which
      leaves the tree from before it or from after it; a power cut anywhere in a change of
      a file system on which no earlier change failed, with any subset of unflushed writes
      kept and a torn superblock noticed by its checksum, leaves the old tree or the new
      one; formatting mounts empty.  Runs show what a failed change leaves behind.
    - Partitions: on a disk that records what it is asked, every request is for sectors of
      the partition, reads and unwaited writes too; a written GPT reads back.
    - Memory: nothing handed out twice, exact accounting, alignment, merging; unmapping
      and destroying spaces free exactly what they should, and no other translation
      changes; user pointers pass exactly when Ring 3 could use them; a loaded program is
      what its headers say, the last header deciding where two share a page, and the
      kernel panics only on offsets that overflow; buffers and rings are reachable only by
      their owners' leave, [destroy] of a buffer other spaces map excepted.
    - Scheduler: one processor per stack, no thread lost, no wake lost, no starvation,
      sleepers woken on time.  Locks: one holder, in order of arrival, never interrupted;
      values made once; a sleeping lock forgets nobody, with a run in which it does.
    - Messages: where rights come from, queues in order with true senders, bounds, and no
      message left beside a sleeping receiver.  Rings deliver in order and once.  Disk
      requests: slots are exclusive, and a waiter is told what the device said.
    - Accounts: the hash and key derivation are the standards'; a login succeeds exactly
      with the password, and an account added can be logged in to.
    - Network: whatever arrives and is asked, the daemon does not panic nor touch memory
      that is not its own, one wrapped length excepted; a stream is read in order, and
      completely when its segments come in order to a client that reads; a segment sent is
      the segment received.
    - Screen and input: on a display whose rows are not padded, redrawing the damaged tiles
      is as good as redrawing everything, and the compositor never leaves its buffers;
      clients cannot type; a click raises and focuses what is seen, while no client uses
      the last depth; keys come out as the US layout has them with the modifiers held, if
      a control or alt key is not used with its twin, and movements move the pointer.

    The examples that end in a fault, a leak or a thread left asleep, in the files of runs,
    are each one computation: they show where the conditions above come from.

    ** Assumed, and not modelled

    Memory orderings are taken as sequentially consistent; hints that are read without a
    lock, such as the lengths of queues a processor steals by, may return anything.
    Identifiers of 64 bits and tickets are assumed not to wrap.  Operations on the
    registries of buffers and rings are taken one at a time.  Left out are a client's
    writes to other connections' buffers while one conversation is followed, and a client
    that presents the compositor's own buffers as its surface.

    Hardware and its drivers (ahci, nvme, virtio, pci, acpi, apic, uart, framebuffer) work
    by registers and DMA that nothing here describes; the crash dump, start-up of the
    processors, interrupt entry and the assembly of a context switch likewise.  Device
    grants, memory set-up, the text console, random numbers, the shell and the build tool
    are small and mostly call the parts above.  The code under src/kernel/tests is used
    only as documentation. *)

From stdpp Require Import base list gmap numbers list_numbers.
From Stdlib Require Import Lia.

#[global] Open Scope Z_scope.

(** ** Results and the state-and-error monad *)

(** Rust's [Result], with the kernel's third way out: a panic (an index out of
    range, an arithmetic overflow in the dev profile the kernel is built with,
    a failed assertion). *)
Inductive result (E A : Type) : Type :=
| Ok (a : A)
| Err (e : E)
| Panic.
Arguments Ok {E A} _.
Arguments Err {E A} _.
Arguments Panic {E A}.

#[global] Instance result_ret E : MRet (result E) := fun A a => Ok a.
#[global] Instance result_bind E : MBind (result E) := fun A B k m =>
  match m with Ok a => k a | Err e => Err e | Panic => Panic end.

Definition ok_or {E A} (e : E) (o : option A) : result E A :=
  match o with Some a => Ok a | None => Err e end.

(** Code that threads a state and may leave early.  The state survives an
    error: what was done before the [?] stays done. *)
Definition M (S E A : Type) : Type := S -> result E A * S.

#[global] Instance M_ret S E : MRet (M S E) := fun A a s => (Ok a, s).
#[global] Instance M_bind S E : MBind (M S E) := fun A B k m s =>
  match m s with
  | (Ok a, s') => k a s'
  | (Err e, s') => (Err e, s')
  | (Panic, s') => (Panic, s')
  end.

Definition fail {S E A} (e : E) : M S E A := fun s => (Err e, s).
Definition panic {S E A} : M S E A := fun s => (Panic, s).
Definition get {S E} : M S E S := fun s => (Ok s, s).
Definition put {S E} (s : S) : M S E unit := fun _ => (Ok tt, s).
Definition modify {S E} (f : S -> S) : M S E unit := fun s => (Ok tt, f s).
Definition lift {S E A} (r : result E A) : M S E A := fun s => (r, s).
Definition guard_err {S E} (b : bool) (e : E) : M S E unit :=
  if b then fail e else mret tt.

(** What a run from [s] ends in, whichever way it ends. *)
Definition wp {S E A} (m : M S E A) (Q : result E A -> S -> Prop) (s : S) : Prop :=
  Q (fst (m s)) (snd (m s)).

Section Wp.
Context {S E : Type}.

Lemma wp_mono {A} (m : M S E A) (Q Q' : result E A -> S -> Prop) s :
  (forall r s', Q r s' -> Q' r s') -> wp m Q s -> wp m Q' s.
Proof. unfold wp. eauto. Qed.

Lemma wp_ret {A} (a : A) (Q : result E A -> S -> Prop) s :
  Q (Ok a) s -> wp (mret a) Q s.
Proof. done. Qed.

Lemma wp_fail {A} (e : E) (Q : result E A -> S -> Prop) s :
  Q (Err e) s -> wp (fail e) Q s.
Proof. done. Qed.

Lemma wp_lift {A} (r : result E A) (Q : result E A -> S -> Prop) s :
  Q r s -> wp (lift r) Q s.
Proof. done. Qed.

Lemma wp_bind {A B} (m : M S E A) (k : A -> M S E B) (Q : result E B -> S -> Prop) s :
  wp m (fun r s' => match r with
                    | Ok a => wp (k a) Q s'
                    | Err e => Q (Err e) s'
                    | Panic => Q Panic s'
                    end) s ->
  wp (mbind k m) Q s.
Proof.
  unfold wp, mbind, M_bind. destruct (m s) as [[a|e|] s']; simpl; auto.
Qed.

Lemma wp_guard (b : bool) (e : E) (Q : result E unit -> S -> Prop) s :
  (b = true -> Q (Err e) s) -> (b = false -> Q (Ok tt) s) -> wp (guard_err b e) Q s.
Proof. destruct b; unfold wp, guard_err; simpl; auto. Qed.

(** Two runs of a bind: the first part succeeded, or it decided the outcome. *)
Lemma bind_ok_inv {A B} (m : M S E A) (k : A -> M S E B) s b s'' :
  mbind k m s = (Ok b, s'') -> exists a s', m s = (Ok a, s') /\ k a s' = (Ok b, s'').
Proof.
  unfold mbind, M_bind. destruct (m s) as [[a|e|] s'] eqn:Hm; intros H; try done. eauto.
Qed.

End Wp.

(** ** Machine integers *)

Definition U8_MAX : Z := 255.
Definition U16_MAX : Z := 65535.
Definition U32_MAX : Z := 4294967295.
Definition U64_MAX : Z := 18446744073709551615.

Definition is_byte (b : Z) : Prop := 0 <= b < 256.
Definition u16 (v : Z) : Prop := 0 <= v < 2 ^ 16.
Definition u32 (v : Z) : Prop := 0 <= v < 2 ^ 32.
Definition u64 (v : Z) : Prop := 0 <= v < 2 ^ 64.

(** Rust's [div_ceil] on unsigned integers. *)
Definition div_ceil (a b : Z) : Z := (a + b - 1) / b.

Lemma div_ceil_le a b c : 0 < b -> div_ceil a b <= c <-> a <= c * b.
Proof.
  intros Hb. unfold div_ceil. split; intros H.
  - pose proof (Z.mul_succ_div_gt (a + b - 1) b Hb). nia.
  - apply Z.lt_succ_r. apply Z.div_lt_upper_bound; nia.
Qed.

Lemma div_ceil_nonneg a b : 0 <= a -> 0 < b -> 0 <= div_ceil a b.
Proof. intros. unfold div_ceil. apply Z.div_pos; lia. Qed.

Definition checked_add (limit a b : Z) : option Z :=
  if a + b <=? limit then Some (a + b) else None.
Definition saturating_add (limit a b : Z) : Z := Z.min limit (a + b).
Definition saturating_mul (limit a b : Z) : Z := Z.min limit (a * b).

(** ** Little-endian integers over lists of bytes *)

Fixpoint to_le_bytes (n : nat) (v : Z) : list Z :=
  match n with
  | O => []
  | S n' => (v mod 256) :: to_le_bytes n' (v / 256)
  end.

Fixpoint from_le_bytes (l : list Z) : Z :=
  match l with
  | [] => 0
  | b :: l' => b + 256 * from_le_bytes l'
  end.

Lemma length_to_le_bytes n v : length (to_le_bytes n v) = n.
Proof. revert v. induction n; intros v; simpl; auto. Qed.

Lemma to_le_bytes_bytes n v : Forall is_byte (to_le_bytes n v).
Proof.
  revert v. induction n as [|n IH]; intros v; simpl; constructor; auto.
  apply Z.mod_pos_bound. lia.
Qed.

Lemma from_to_le_bytes n v :
  0 <= v < 256 ^ Z.of_nat n -> from_le_bytes (to_le_bytes n v) = v.
Proof.
  revert v. induction n as [|n IH]; intros v Hv; simpl.
  - simpl in Hv. lia.
  - rewrite IH.
    + pose proof (Z.div_mod v 256). lia.
    + rewrite Nat2Z.inj_succ, Z.pow_succ_r in Hv by lia.
      split; [apply Z.div_pos; lia|]. apply Z.div_lt_upper_bound; lia.
Qed.

Lemma to_from_le_bytes l :
  Forall is_byte l -> to_le_bytes (length l) (from_le_bytes l) = l.
Proof.
  induction 1 as [|b l Hb Hl IH]; simpl; [done|].
  unfold is_byte in Hb. f_equal.
  - rewrite (Z.mul_comm 256), Z.mod_add by lia. apply Z.mod_small. lia.
  - rewrite (Z.mul_comm 256), Z.div_add by lia. rewrite Z.div_small by lia. done.
Qed.

Lemma from_le_bytes_bound l :
  Forall is_byte l -> 0 <= from_le_bytes l < 256 ^ Z.of_nat (length l).
Proof.
  induction 1 as [|b l Hb Hl IH]; simpl length; [simpl; lia|].
  rewrite Nat2Z.inj_succ, Z.pow_succ_r by lia. unfold is_byte in Hb. simpl. lia.
Qed.

(** ** Slices *)

(** [slice l a n] is [&l[a .. a + n]]; it is [n] long only in range. *)
Definition slice {A} (l : list A) (a n : nat) : list A := take n (drop a l).

(** [l[a .. a + new.len()].copy_from_slice(new)].  Every use in the sources has
    a constant or checked range; cutting [new] at the end of [l] makes the length
    lemma unconditional. *)
Definition splice {A} (l : list A) (a : nat) (new : list A) : list A :=
  take a l ++ take (length l - a) new ++ drop (a + length new) l.

Lemma length_splice {A} (l : list A) a new : length (splice l a new) = length l.
Proof. unfold splice. rewrite !length_app, !length_take, length_drop. lia. Qed.

Create HintDb len.
Create HintDb bytes.
#[export] Hint Rewrite @length_app @length_take @length_drop @length_replicate
  @length_fmap @length_insert @length_alter @length_nil @length_cons
  @length_seq @length_seqZ length_to_le_bytes @length_splice : len.
Ltac len := autorewrite with len; simpl; try lia.

Section Slices.
Context {A : Type}.
Implicit Types l new : list A.

Lemma length_slice l a n :
  (a + n <= length l)%nat -> length (slice l a n) = n.
Proof. intros H. unfold slice. len. Qed.

Lemma slice_splice_eq l a n new :
  (a + length new <= length l)%nat -> n = length new -> slice (splice l a new) a n = new.
Proof.
  intros H ->. unfold slice, splice. rewrite (take_ge new) by lia.
  rewrite drop_app_ge by len. rewrite length_take.
  replace (a - a `min` length l)%nat with 0%nat by lia. rewrite drop_0.
  by rewrite take_app_length.
Qed.

Lemma slice_splice_before l a b n new :
  (a + length new <= length l)%nat -> (b + n <= a)%nat ->
  slice (splice l a new) b n = slice l b n.
Proof.
  intros H Hb. unfold slice, splice.
  apply list_eq. intros i.
  destruct (decide (i < n)%nat) as [Hi|Hi].
  - rewrite !lookup_take_lt, !lookup_drop by lia.
    rewrite lookup_app_l by (len). by rewrite lookup_take_lt by lia.
  - rewrite !lookup_take_ge by lia. done.
Qed.

Lemma slice_splice_after l a b n new :
  (a + length new <= length l)%nat -> (a + length new <= b)%nat ->
  slice (splice l a new) b n = slice l b n.
Proof.
  intros H Hb. unfold slice, splice. rewrite (take_ge new) by lia.
  rewrite (app_assoc (take a l)). rewrite drop_app_ge by len.
  rewrite drop_drop. do 2 f_equal. len.
Qed.

Lemma splice_bytes (P : A -> Prop) l a new :
  Forall P l -> Forall P new -> Forall P (splice l a new).
Proof.
  intros Hl Hn. unfold splice.
  apply Forall_app; split; [by apply Forall_take|].
  apply Forall_app; split; [by apply Forall_take|by apply Forall_drop].
Qed.

Lemma slice_forall (P : A -> Prop) l a n : Forall P l -> Forall P (slice l a n).
Proof. intros. by apply Forall_take, Forall_drop. Qed.

End Slices.

#[export] Hint Resolve to_le_bytes_bytes : bytes.

(** Reads through a sequence of writes at constant offsets. *)
Ltac slices :=
  repeat first [ rewrite slice_splice_eq by (len; lia)
               | rewrite slice_splice_before by (len; lia)
               | rewrite slice_splice_after by (len; lia) ].

(** ** Filters *)

Section Filters.
Context {A : Type} (P : A -> Prop) `{!forall x, Decision (P x)}.

Lemma filter_all (l : list A) : Forall P l -> filter P l = l.
Proof.
  induction 1 as [|x l Hx Hl IH]; [done|]. rewrite filter_cons, decide_True by done. by rewrite IH.
Qed.

Lemma filter_none (l : list A) : Forall (fun x => ~ P x) l -> filter P l = [].
Proof.
  induction 1 as [|x l Hx Hl IH]; [done|]. by rewrite filter_cons, decide_False by done.
Qed.

Lemma filter_Forall (l : list A) : Forall P (filter P l).
Proof. apply Forall_forall. intros x Hx. apply list_elem_of_filter in Hx. by destruct Hx. Qed.

Lemma filter_Forall_keep (Q : A -> Prop) (l : list A) : Forall Q l -> Forall Q (filter P l).
Proof.
  intros HQ. apply Forall_forall. intros x Hx. apply list_elem_of_filter in Hx as [_ Hx].
  by eapply Forall_forall.
Qed.

End Filters.

(** ** Chunks *)

(** [slice::chunks] *)
Fixpoint chunks_fuel {A} (fuel n : nat) (l : list A) : list (list A) :=
  match fuel, l with
  | S f, _ :: _ => take n l :: chunks_fuel f n (drop n l)
  | _, _ => []
  end.
Definition chunks {A} (n : nat) (l : list A) : list (list A) := chunks_fuel (length l) n l.

Section Chunks.
Context {A : Type} (n : nat).
Hypothesis Hn : (0 < n)%nat.

Lemma chunks_fuel_concat fuel : forall l : list A,
  (length l <= fuel)%nat -> concat (chunks_fuel fuel n l) = l.
Proof.
  induction fuel as [|fuel IH]; intros [|x l] Hl; simpl in *; try done; [lia|].
  rewrite IH; [|rewrite length_drop; simpl; lia]. apply (take_drop n (x :: l)).
Qed.

Lemma chunks_concat (l : list A) : concat (chunks n l) = l.
Proof. by apply chunks_fuel_concat. Qed.

Lemma chunks_fuel_sizes fuel : forall l : list A,
  Forall (fun c => (length c <= n)%nat) (chunks_fuel fuel n l).
Proof.
  induction fuel as [|fuel IH]; intros [|x l]; cbn [chunks_fuel]; constructor; [|apply IH].
  rewrite length_take. lia.
Qed.

Lemma chunks_Forall (P : A -> Prop) (l : list A) :
  Forall P l -> Forall (fun c => (length c <= n)%nat /\ Forall P c) (chunks n l).
Proof.
  intros HP. apply Forall_and. split; [apply chunks_fuel_sizes|].
  apply Forall_forall. intros c Hc. apply Forall_forall. intros x Hx.
  rewrite <-(chunks_concat l) in HP. eapply Forall_forall in HP; [exact HP|].
  apply list_elem_of_In, in_concat. exists c. by rewrite <-!list_elem_of_In.
Qed.

Lemma chunks_fuel_length fuel : forall l : list A, (length l <= fuel)%nat ->
  Z.of_nat (length (chunks_fuel fuel n l)) = div_ceil (Z.of_nat (length l)) (Z.of_nat n).
Proof.
  induction fuel as [|fuel IH]; intros [|x l] Hl; simpl in Hl; try lia.
  - unfold div_ceil. rewrite Z.div_small; [done|simpl; lia].
  - unfold div_ceil. rewrite Z.div_small; [done|simpl; lia].
  - cbn [chunks_fuel length]. rewrite Nat2Z.inj_succ, IH by (rewrite length_drop; simpl; lia).
    rewrite length_drop. unfold div_ceil. cbn [length].
    destruct (decide (n <= S (length l))%nat).
    + rewrite Nat2Z.inj_sub by lia.
      replace (Z.of_nat (S (length l)) + Z.of_nat n - 1)
        with (Z.of_nat (S (length l)) - Z.of_nat n + Z.of_nat n - 1 + 1 * Z.of_nat n) by lia.
      rewrite Z.div_add by lia. lia.
    + replace (S (length l) - n)%nat with 0%nat by lia. rewrite Z.div_small by lia.
      apply (Z.div_unique _ _ _ (Z.of_nat (S (length l)) - 1)); lia.
Qed.

Lemma chunks_blocks (bs : list (list A)) : Forall (fun b => length b = n) bs -> chunks n (concat bs) = bs.
Proof.
  intros Hbs. unfold chunks.
  assert (forall fuel, (length (concat bs) <= fuel)%nat -> chunks_fuel fuel n (concat bs) = bs) as H; [|by apply H].
  induction Hbs as [|b bs Hb Hbs IH]; intros fuel Hfuel; [by destruct fuel|]. simpl in *. rewrite length_app in Hfuel.
  destruct fuel as [|fuel]; [lia|]. cbn [chunks_fuel].
  destruct (b ++ concat bs) as [|x rest] eqn:Happ; [apply (f_equal length) in Happ; rewrite length_app in Happ; simpl in Happ; lia|].
  rewrite <- Happ. rewrite <- Hb at 1 3. rewrite take_app_length, drop_app_length. f_equal. apply IH. lia.
Qed.

Lemma length_chunks (l : list A) :
  Z.of_nat (length (chunks n l)) = div_ceil (Z.of_nat (length l)) (Z.of_nat n).
Proof. by apply chunks_fuel_length. Qed.

End Chunks.

(** ** Bitmaps: one bit per index, least significant bit first *)

Definition bm_get (bm : list Z) (i : Z) : bool :=
  match bm !! Z.to_nat (i / 8) with
  | Some byte => negb (Z.land byte (Z.shiftl 1 (i mod 8)) =? 0)
  | None => false
  end.

(** [bm[i / 8] |= 1 << (i % 8)] *)
Definition bm_set (bm : list Z) (i : Z) : list Z :=
  alter (fun byte => Z.lor byte (Z.shiftl 1 (i mod 8))) (Z.to_nat (i / 8)) bm.

(** [bm[i / 8] &= !(1 << (i % 8))], the complement taken at eight bits *)
Definition bm_clear (bm : list Z) (i : Z) : list Z :=
  alter (fun byte => Z.land byte (Z.lxor 255 (Z.shiftl 1 (i mod 8)))) (Z.to_nat (i / 8)) bm.

Lemma land_bit_testbit a k :
  0 <= k -> negb (Z.land a (Z.shiftl 1 k) =? 0) = Z.testbit a k.
Proof.
  intros Hk. rewrite Z.shiftl_mul_pow2, Z.mul_1_l by done.
  destruct (Z.testbit a k) eqn:Hb.
  - apply negb_true_iff, Z.eqb_neq. intros H0.
    apply (f_equal (fun x => Z.testbit x k)) in H0.
    rewrite Z.land_spec, Hb, Z.pow2_bits_true, Z.bits_0 in H0 by done. done.
  - apply negb_false_iff, Z.eqb_eq. apply Z.bits_inj'. intros n Hn.
    rewrite Z.land_spec, Z.bits_0. destruct (decide (n = k)) as [->|Hne].
    + by rewrite Hb.
    + rewrite Z.pow2_bits_false by done. apply andb_false_r.
Qed.

Lemma bit1_testbit k j : 0 <= k -> 0 <= j -> Z.testbit (Z.shiftl 1 k) j = bool_decide (j = k).
Proof.
  intros Hk Hj. rewrite Z.shiftl_mul_pow2, Z.mul_1_l by done.
  case_bool_decide as H; subst; [by apply Z.pow2_bits_true|by apply Z.pow2_bits_false].
Qed.

Lemma testbit_255 j : 0 <= j < 8 -> Z.testbit 255 j = true.
Proof. intros H. change 255 with (Z.ones 8). apply Z.ones_spec_low. lia. Qed.

Lemma div_mod_8_eq i j : i / 8 = j / 8 -> i mod 8 = j mod 8 -> i = j.
Proof.
  intros H1 H2. rewrite (Z.div_mod i 8), (Z.div_mod j 8) by lia. congruence.
Qed.

Section Bitmap.
Variable bm : list Z.

Lemma length_bm_set i : length (bm_set bm i) = length bm.
Proof. apply length_alter. Qed.

Lemma length_bm_clear i : length (bm_clear bm i) = length bm.
Proof. apply length_alter. Qed.

Lemma bm_get_testbit i :
  0 <= i -> bm_get bm i = match bm !! Z.to_nat (i / 8) with
                          | Some byte => Z.testbit byte (i mod 8)
                          | None => false
                          end.
Proof.
  intros Hi. unfold bm_get. destruct (bm !! _); [|done].
  apply land_bit_testbit. apply Z.mod_pos_bound. lia.
Qed.

Lemma bm_get_range i : bm_get bm i = true -> 0 <= i -> i < 8 * Z.of_nat (length bm).
Proof.
  unfold bm_get. destruct (bm !! _) as [b|] eqn:Hb; [|done]. intros _ Hi.
  apply lookup_lt_Some in Hb. pose proof (Z.div_pos i 8). pose proof (Z.mul_succ_div_gt i 8). lia.
Qed.

End Bitmap.

Lemma bm_get_set bm i j :
  0 <= i -> 0 <= j -> i < 8 * Z.of_nat (length bm) ->
  bm_get (bm_set bm i) j = bool_decide (i = j) || bm_get bm j.
Proof.
  intros Hi Hj Hlen. rewrite !bm_get_testbit by done. unfold bm_set.
  pose proof (Z.div_pos i 8). pose proof (Z.div_pos j 8).
  pose proof (Z.mod_pos_bound i 8). pose proof (Z.mod_pos_bound j 8).
  destruct (decide (i / 8 = j / 8)) as [He|He].
  - rewrite He, list_lookup_alter_eq.
    destruct (bm !! Z.to_nat (j / 8)) as [byte|] eqn:Hb; simpl.
    + rewrite Z.lor_spec, bit1_testbit by lia.
      rewrite orb_comm. f_equal. apply bool_decide_ext. split; intros Hx; [|by subst].
      by apply div_mod_8_eq.
    + apply lookup_ge_None in Hb. pose proof (Z.mul_div_le j 8).
      assert (8 * (i / 8) <= i) by (apply Z.mul_div_le; lia). lia.
  - rewrite list_lookup_alter_ne by lia.
    rewrite bool_decide_false by (intros ->; done). done.
Qed.

Lemma bm_get_clear bm i j :
  0 <= i -> 0 <= j ->
  bm_get (bm_clear bm i) j = negb (bool_decide (i = j)) && bm_get bm j.
Proof.
  intros Hi Hj. rewrite !bm_get_testbit by done. unfold bm_clear.
  pose proof (Z.div_pos i 8). pose proof (Z.div_pos j 8).
  pose proof (Z.mod_pos_bound i 8). pose proof (Z.mod_pos_bound j 8).
  destruct (decide (i / 8 = j / 8)) as [He|He].
  - rewrite He, list_lookup_alter_eq.
    destruct (bm !! Z.to_nat (j / 8)) as [byte|] eqn:Hb; simpl; [|by rewrite andb_false_r].
    rewrite Z.land_spec, Z.lxor_spec, bit1_testbit, testbit_255 by lia.
    rewrite andb_comm. f_equal. rewrite xorb_true_l. f_equal. apply bool_decide_ext.
    split; intros Hx; [|by subst]. by apply div_mod_8_eq.
  - rewrite list_lookup_alter_ne by lia.
    rewrite bool_decide_false by (intros ->; done). done.
Qed.

Lemma bit_byte k : 0 <= k < 8 -> is_byte (Z.shiftl 1 k).
Proof.
  intros Hk. unfold is_byte. rewrite Z.shiftl_mul_pow2, Z.mul_1_l by lia.
  split; [apply Z.pow_nonneg; lia|]. change 256 with (2 ^ 8). apply Z.pow_lt_mono_r; lia.
Qed.

Lemma byte_bits a : is_byte a <-> 0 <= a /\ Z.land a 255 = a.
Proof.
  unfold is_byte. change 255 with (Z.ones 8). rewrite Z.land_ones by lia. change (2 ^ 8) with 256.
  pose proof (Z.mod_pos_bound a 256). split.
  - intros. rewrite Z.mod_small by lia. lia.
  - intros [? <-]. lia.
Qed.

Lemma lor_byte a b : is_byte a -> is_byte b -> is_byte (Z.lor a b).
Proof.
  rewrite !byte_bits. intros [Ha Ha'] [Hb Hb']. split; [by apply Z.lor_nonneg|].
  by rewrite Z.land_lor_distr_l, Ha', Hb'.
Qed.

Lemma land_byte a b : is_byte a -> 0 <= b -> is_byte (Z.land a b).
Proof.
  rewrite !byte_bits. intros [Ha Ha'] Hb. split; [apply Z.land_nonneg; auto|].
  by rewrite <-Z.land_assoc, (Z.land_comm b), Z.land_assoc, Ha'.
Qed.

Lemma Forall_alter_byte (f : Z -> Z) i (l : list Z) :
  (forall b, is_byte b -> is_byte (f b)) -> Forall is_byte l -> Forall is_byte (alter f i l).
Proof. intros Hf Hl. apply Forall_alter; auto. Qed.

Lemma bm_set_bytes bm i : Forall is_byte bm -> Forall is_byte (bm_set bm i).
Proof.
  intros H. apply Forall_alter_byte; [|done]. intros b Hb.
  apply lor_byte, bit_byte; [done|]. apply Z.mod_pos_bound. lia.
Qed.

Lemma bm_clear_bytes bm i : Forall is_byte bm -> Forall is_byte (bm_clear bm i).
Proof.
  intros H. apply Forall_alter_byte; [|done]. intros b Hb. apply land_byte; [done|].
  apply Z.lxor_nonneg. assert (is_byte (Z.shiftl 1 (i mod 8))) as [? _]; [|lia].
  apply bit_byte, Z.mod_pos_bound. lia.
Qed.
