(* ===== verification/Block.v ===== *)
(** * The block layer (kernel/src/block/mod.rs)

    The [BlockDevice] trait as a class of operations, what the layers above rely
    on as a class of laws, the request check every driver shares, and a
    reference medium with a write cache and injectable faults. *)

From stdpp Require Import base list gmap numbers list_numbers.
From Stdlib Require Import Lia.
From S2P Require Import Prelude.

Definition SECTOR_SIZE : Z := 512.

Inductive BlockError : Type :=
| NotPresent | OutOfRange | Unaligned | DeviceFault | OutOfMemory | ReadOnly | Busy.

#[global] Instance BlockError_eq_dec : EqDecision BlockError.
Proof. solve_decision. Defined.

(** ** The trait *)

(** [read] takes the length of the caller's buffer and returns the bytes that
    fill it. *)
Class BlockDevice (D : Type) : Type := {
  sector_count : D -> Z;
  dev_read : Z -> Z -> M D BlockError (list Z);
  dev_write : Z -> list Z -> M D BlockError unit;
  dev_flush : M D BlockError unit;
  dev_write_now : Z -> list Z -> M D BlockError unit;
}.

(** The default method: bytes it holds. *)
Definition capacity {D} `{BlockDevice D} (d : D) : Z := sector_count d * SECTOR_SIZE.

(** Reject a request before it reaches hardware. *)
Definition validate (device_sectors lba len : Z) : result BlockError Z :=
  if (len =? 0) || negb (len mod SECTOR_SIZE =? 0) then Err Unaligned
  else
    let sectors := len / SECTOR_SIZE in
    match checked_add U64_MAX lba sectors with
    | None => Err OutOfRange
    | Some end_ => if end_ >? device_sectors then Err OutOfRange else Ok sectors
    end.

(** The check is exact: it accepts precisely the whole-sector requests that lie
    inside the device, and says which of the two it was not. *)
Lemma validate_spec device_sectors lba len r :
  0 <= lba -> 0 <= len -> device_sectors <= U64_MAX ->
  validate device_sectors lba len = r ->
  match r with
  | Ok sectors => len = sectors * SECTOR_SIZE /\ 0 < sectors /\ lba + sectors <= device_sectors
  | Err Unaligned => len = 0 \/ len mod SECTOR_SIZE <> 0
  | Err OutOfRange =>
      0 < len /\ len mod SECTOR_SIZE = 0 /\ device_sectors < lba + len / SECTOR_SIZE
  | _ => False
  end.
Proof.
  intros Hlba Hlen Hdev <-. unfold validate, checked_add.
  destruct (len =? 0) eqn:H0; simpl; [lia|].
  destruct (len mod SECTOR_SIZE =? 0) eqn:Hm; simpl; [|lia].
  pose proof (Z.div_mod len SECTOR_SIZE) as Hd. unfold SECTOR_SIZE in *.
  destruct (lba + len / 512 <=? U64_MAX) eqn:Hc.
  - destruct (lba + len / 512 >? device_sectors) eqn:He; repeat split; lia.
  - repeat split; lia.
Qed.

(** ** What the layers above may rely on *)

Definition is_sector (l : list Z) : Prop := length l = 512%nat /\ Forall is_byte l.

(** The [k]-th sector of a buffer. *)
Definition sector_of (data : list Z) (k : Z) : list Z := slice data (Z.to_nat (k * 512)) 512.

(** The laws of a device.  [versions d s] is what sector [s] may hold once power
    is lost: its durable contents first, then every write accepted since the
    last flush, oldest first.  A read returns the newest.  A failed request may
    or may not have reached each of its sectors, and reaches no other. *)
Class BlockLaws (D : Type) `{BlockDevice D} : Type := {
  versions : D -> Z -> list (list Z);
  dev_ok : D -> Prop;

  count_bound : forall d, dev_ok d -> 0 <= sector_count d <= U64_MAX;

  versions_sector : forall d s, dev_ok d -> 0 <= s < sector_count d ->
    versions d s <> [] /\ Forall is_sector (versions d s);

  read_law : forall d lba len r d', dev_ok d -> 0 <= lba -> 0 <= len ->
    dev_read lba len d = (r, d') ->
    dev_ok d' /\ sector_count d' = sector_count d /\
    (forall s, versions d' s = versions d s) /\
    match r with
    | Ok data =>
        exists n, 0 < n /\ len = n * 512 /\ lba + n <= sector_count d /\
        data = concat (map (fun s => List.last (versions d s) []) (seqZ lba n))
    | Err _ => True
    | Panic => False
    end;

  write_law : forall d lba data r d', dev_ok d -> 0 <= lba -> Forall is_byte data ->
    dev_write lba data d = (r, d') ->
    dev_ok d' /\ sector_count d' = sector_count d /\
    (forall s, ~ (lba <= s < lba + Z.of_nat (length data) / 512) ->
       versions d' s = versions d s) /\
    match r with
    | Ok _ =>
        exists n, 0 < n /\ Z.of_nat (length data) = n * 512 /\ lba + n <= sector_count d /\
        forall s, lba <= s < lba + n ->
          versions d' s = versions d s ++ [sector_of data (s - lba)]
    | Err _ =>
        forall s, lba <= s < lba + Z.of_nat (length data) / 512 ->
          versions d' s = versions d s \/
          versions d' s = versions d s ++ [sector_of data (s - lba)]
    | Panic => False
    end;

  flush_law : forall d r d', dev_ok d ->
    dev_flush d = (r, d') ->
    dev_ok d' /\ sector_count d' = sector_count d /\
    match r with
    | Ok _ => forall s, versions d' s = [List.last (versions d s) []]
    | Err _ => forall s, versions d' s = versions d s
    | Panic => False
    end;
}.

(** What a read of one sector returns now. *)
Definition image {D} `{BlockLaws D} (d : D) (s : Z) : list Z := List.last (versions d s) [].

(** A medium found after a power cut: every byte of every sector is the byte of
    one of the versions that sector could hold.  Sectors may be torn. *)
Definition survives {D} `{BlockLaws D} (d : D) (img : Z -> list Z) : Prop :=
  forall s, 0 <= s < sector_count d ->
    is_sector (img s) /\
    forall i, (i < 512)%nat -> exists v, v ∈ versions d s /\ img s !! i = v !! i.

Section Laws.
Context {D : Type} `{BlockLaws D}.
Implicit Types d : D.

Lemma image_sector d s : dev_ok d -> 0 <= s < sector_count d -> is_sector (image d s).
Proof.
  intros Hok Hs. destruct (versions_sector d s Hok Hs) as [Hne Hall].
  unfold image. destruct (exists_last Hne) as (l & a & Hla). rewrite Hla in *.
  rewrite List.last_last. apply Forall_app in Hall as [_ Hall]. by inversion Hall.
Qed.

(** A sector with one version comes back as it was, whatever was being written
    elsewhere. *)
Lemma survives_settled d img s v :
  dev_ok d -> survives d img -> 0 <= s < sector_count d -> versions d s = [v] -> img s = v.
Proof.
  intros Hok Hsv Hs Hv. destruct (Hsv s Hs) as [[Hlen _] Hbytes].
  destruct (versions_sector d s Hok Hs) as [_ Hall]. rewrite Hv in Hall.
  inversion Hall as [|? ? [Hvl _] _]; subst.
  apply list_eq. intros i. destruct (decide (i < 512)%nat) as [Hi|Hi].
  - destruct (Hbytes i Hi) as (v' & Hin & ->). rewrite Hv in Hin.
    apply list_elem_of_singleton in Hin. by subst.
  - rewrite !lookup_ge_None_2 by lia. done.
Qed.

(** ** Buffers and the sectors in them *)

Lemma concat_lookup (f : Z -> list Z) (n : nat) : forall first k,
  (forall s, first <= s < first + Z.of_nat n -> length (f s) = 512%nat) ->
  0 <= k < 512 * Z.of_nat n ->
  concat (map f (seqZ first (Z.of_nat n))) !! Z.to_nat k
  = f (first + k / 512) !! Z.to_nat (k mod 512).
Proof.
  induction n as [|n IH]; intros first k Hl Hk; [lia|].
  rewrite seqZ_cons by lia. simpl map. simpl concat. rewrite Nat2Z.inj_succ, Z.pred_succ.
  assert (Hf : length (f first) = 512%nat) by (apply Hl; lia).
  destruct (decide (k < 512)) as [Hlt|Hge].
  - rewrite lookup_app_l by lia. rewrite Z.div_small, Z.mod_small, Z.add_0_r by lia. done.
  - rewrite lookup_app_r by lia. rewrite Hf.
    replace (Z.to_nat k - 512)%nat with (Z.to_nat (k - 512)) by lia.
    rewrite IH; [|intros; apply Hl; lia|lia].
    replace k with (k - 512 + 1 * 512) at 3 4 by lia. rewrite Z.div_add, Z.mod_add by lia.
    f_equal. f_equal. lia.
Qed.

Lemma concat_length (f : Z -> list Z) (l : list Z) :
  (forall s, s ∈ l -> length (f s) = 512%nat) -> Z.of_nat (length (concat (map f l))) = 512 * Z.of_nat (length l).
Proof.
  induction l as [|x l IH]; intros Hf; [done|]. cbn [map concat]. rewrite length_app, Hf by left.
  rewrite Nat2Z.inj_add, IH by (intros s Hs; apply Hf; by right). simpl length. lia.
Qed.

(** A buffer is its sectors. *)
Lemma sectors_of_buffer (buf : list Z) base n :
  0 <= n -> Z.of_nat (length buf) = 512 * n ->
  concat (map (fun s => sector_of buf (s - base)) (seqZ base n)) = buf.
Proof.
  intros Hn Hl. assert (Hsec : forall s, base <= s < base + n -> length (sector_of buf (s - base)) = 512%nat).
  { intros s Hs. apply length_slice. lia. }
  apply list_eq. intros i. destruct (decide (i < length buf)%nat) as [Hi|Hi].
  - rewrite <-(Z2Nat.id n), <-(Nat2Z.id i) by lia.
    rewrite (concat_lookup (fun s => sector_of buf (s - base))); [|intros; apply Hsec; lia|lia].
    unfold sector_of, slice. pose proof (Z.mod_pos_bound (Z.of_nat i) 512).
    pose proof (Z.div_mod (Z.of_nat i) 512). rewrite lookup_take_lt, lookup_drop by lia.
    f_equal. lia.
  - rewrite !lookup_ge_None_2; [done|lia|].
    apply Nat2Z.inj_le. rewrite concat_length; [rewrite length_seqZ; lia|].
    intros s Hs%elem_of_seqZ. by apply Hsec.
Qed.

Definition same_device (d d' : D) : Prop :=
  dev_ok d' /\ sector_count d' = sector_count d /\ forall s, versions d' s = versions d s.

Lemma same_device_trans d1 d2 d3 : same_device d1 d2 -> same_device d2 d3 -> same_device d1 d3.
Proof. intros (_ & H2 & H3) (G1 & G2 & G3). split; [done|]. split; [congruence|]. intros s. by rewrite G3, H3. Qed.

Lemma image_same_device d d' s : same_device d d' -> image d' s = image d s.
Proof. intros (_ & _ & Hv). unfold image. by rewrite Hv. Qed.

Lemma read_sectors d lba n r d' : dev_ok d -> 0 <= lba -> 0 <= n ->
  dev_read lba (n * 512) d = (r, d') ->
  same_device d d' /\
  match r with Ok data => data = concat (map (image d) (seqZ lba n)) | Err _ => True | Panic => False end.
Proof.
  intros Hok Hlba Hn Hr. apply read_law in Hr as (Hok' & Hc & Hv & Hr); [|done|done|lia].
  split; [done|]. destruct r as [data|e|]; [|done|done]. destruct Hr as (n' & _ & Hl & _ & ->).
  by assert (n' = n) as -> by lia.
Qed.

Lemma read_one d lba r d' : dev_ok d -> 0 <= lba -> dev_read lba SECTOR_SIZE d = (r, d') ->
  same_device d d' /\ match r with Ok data => data = image d lba | Err _ => True | Panic => False end.
Proof.
  intros Hok Hlba Hr. apply (read_sectors d lba 1) in Hr as [Hs Hr]; [|done|done|lia].
  split; [done|]. destruct r; [|done|done]. change (seqZ lba 1) with [0 + lba] in Hr.
  simpl in Hr. by rewrite app_nil_r in Hr.
Qed.

(** What a write that succeeded did to the newest contents. *)
Lemma wrote d lba data d' n :
  dev_ok d -> 0 <= lba -> Forall is_byte data -> Z.of_nat (length data) = n * 512 ->
  dev_write lba data d = (Ok tt, d') ->
  dev_ok d' /\ sector_count d' = sector_count d /\
  (forall s, lba <= s < lba + n -> image d' s = sector_of data (s - lba)) /\
  (forall s, ~ (lba <= s < lba + n) -> image d' s = image d s).
Proof.
  intros Hok Hlba Hb Hl Hw. apply write_law in Hw as (Hok' & Hc & Hout & n' & _ & Hn & _ & Hv); [|done..].
  assert (n' = n) as -> by lia. rewrite Hl, Z.div_mul in Hout by lia. unfold image.
  split; [done|]. split; [done|]. split; intros s Hs; [|by rewrite Hout].
  by rewrite Hv, List.last_last.
Qed.

Lemma wp_dev_write d lba data n (Q : result BlockError unit -> D -> Prop) :
  dev_ok d -> 0 <= lba -> Forall is_byte data -> Z.of_nat (length data) = n * 512 ->
  (forall d', dev_ok d' -> sector_count d' = sector_count d ->
     (forall s, lba <= s < lba + n -> image d' s = sector_of data (s - lba)) ->
     (forall s, ~ (lba <= s < lba + n) -> image d' s = image d s) -> Q (Ok tt) d') ->
  (forall e d', dev_ok d' -> sector_count d' = sector_count d -> Q (Err e) d') ->
  wp (dev_write lba data) Q d.
Proof.
  intros Hok Hlba Hb Hl HQ Herr. unfold wp.
  destruct (dev_write lba data d) as [r d'] eqn:Hw. pose proof Hw as Hw'.
  apply write_law in Hw' as (Hok' & Hc & _ & Hr); [|done..]. destruct r as [[]|e|]; simpl; [|auto|done].
  destruct (wrote d lba data d' n) as (? & ? & ? & ?); auto.
Qed.

Lemma wp_dev_flush d (Q : result BlockError unit -> D -> Prop) :
  dev_ok d ->
  (forall d', dev_ok d' -> sector_count d' = sector_count d ->
     (forall s, versions d' s = [image d s]) -> Q (Ok tt) d') ->
  (forall e d', dev_ok d' -> sector_count d' = sector_count d -> Q (Err e) d') ->
  wp dev_flush Q d.
Proof.
  intros Hok HQ Herr. unfold wp. destruct (dev_flush d) as [r d'] eqn:Hf.
  apply flush_law in Hf as (Hok' & Hc & Hr); [|done]. destruct r as [[]|e|]; simpl; auto; done.
Qed.

Lemma wp_dev_read d lba n (Q : result BlockError (list Z) -> D -> Prop) :
  dev_ok d -> 0 <= lba -> 0 <= n ->
  (forall d', same_device d d' -> Q (Ok (concat (map (image d) (seqZ lba n)))) d') ->
  (forall e d', same_device d d' -> Q (Err e) d') ->
  wp (dev_read lba (n * 512)) Q d.
Proof.
  intros Hok Hlba Hn HQ Herr. unfold wp. destruct (dev_read lba (n * 512) d) as [r d'] eqn:Hr.
  apply read_sectors in Hr as [Hs Hr]; [|done..]. destruct r; simpl; subst; auto; done.
Qed.

End Laws.

(** ** The reference medium *)

(** Sectors with a write cache: each carries its versions, and an unwritten one
    holds zeroes.  Every request consumes one entry of the fault schedule; a
    [true] there makes the request fail without effect.  A schedule that is all
    [true] from some point on is a power cut at that point. *)
Module MemDisk.

Record disk : Type := {
  sectors : gmap Z (list (list Z));
  count : Z;
  faults : list bool;
}.

Definition zero_sector : list Z := replicate 512 0.

Definition held (d : disk) (s : Z) : list (list Z) :=
  match sectors d !! s with Some vs => vs | None => [zero_sector] end.

Definition newest (d : disk) (s : Z) : list Z := List.last (held d s) [].

(** Take the next entry of the schedule. *)
Definition strike : M disk BlockError unit := fun d =>
  match faults d with
  | [] => (Ok tt, d)
  | b :: rest =>
      let d' := {| sectors := sectors d; count := count d; faults := rest |} in
      if b : bool then (Err DeviceFault, d') else (Ok tt, d')
  end.

Definition read (lba len : Z) : M disk BlockError (list Z) :=
  strike ;;
  d ← get;
  n ← lift (validate (count d) lba len);
  mret (concat (map (newest d) (seqZ lba n))).

Fixpoint store (lba : Z) (chunks : list (list Z)) (d : disk) : disk :=
  match chunks with
  | [] => d
  | c :: rest =>
      store (lba + 1) rest
        {| sectors := <[lba := held d lba ++ [c]]> (sectors d);
           count := count d; faults := faults d |}
  end.

Definition write (lba : Z) (data : list Z) : M disk BlockError unit :=
  strike ;;
  d ← get;
  n ← lift (validate (count d) lba (Z.of_nat (length data)));
  modify (store lba (map (sector_of data) (seqZ 0 n))).

Definition flush : M disk BlockError unit :=
  strike ;;
  modify (fun d =>
    {| sectors := (fun vs => [List.last vs []]) <$> sectors d;
       count := count d; faults := faults d |}).

#[global] Instance device : BlockDevice disk := {
  sector_count := count;
  dev_read := read;
  dev_write := write;
  dev_flush := flush;
  dev_write_now := fun lba data => write lba data ;; flush;
}.

Definition ok (d : disk) : Prop :=
  0 <= count d <= U64_MAX /\
  (forall (s : Z) vs, sectors d !! s = Some vs -> vs <> [] /\ Forall is_sector vs).

(** A medium that holds exactly [img], and fails as [faults] says. *)
Definition load (count : Z) (img : list (list Z)) (faults : list bool) : disk :=
  {| sectors := list_to_map (zip (seqZ 0 (Z.of_nat (length img))) (map (fun s => [s]) img));
     count := count; faults := faults |}.

Lemma zero_sector_ok : is_sector zero_sector.
Proof.
  split; [apply length_replicate|]. apply Forall_replicate. unfold is_byte. lia.
Qed.

Lemma held_ok d s : ok d -> held d s <> [] /\ Forall is_sector (held d s).
Proof.
  intros [_ Hall]. unfold held. destruct (sectors d !! s) eqn:Hs; [eauto|].
  split; [done|]. apply Forall_singleton, zero_sector_ok.
Qed.

Lemma strike_inv d r d' :
  strike d = (r, d') ->
  sectors d' = sectors d /\ count d' = count d /\ (r = Ok tt \/ r = Err DeviceFault).
Proof.
  unfold strike. destruct (faults d) as [|[|] ?]; intros [= <- <-]; auto.
Qed.

Lemma held_put d lba c s :
  held {| sectors := <[lba := held d lba ++ [c]]> (sectors d);
          count := count d; faults := faults d |} s =
  if decide (lba = s) then held d s ++ [c] else held d s.
Proof.
  unfold held at 1; simpl. case_decide; subst; [by rewrite lookup_insert_eq|].
  by rewrite lookup_insert_ne.
Qed.

Lemma held_store lba chunks d s :
  held (store lba chunks d) s =
  if decide (lba <= s) then
    match chunks !! Z.to_nat (s - lba) with Some c => held d s ++ [c] | None => held d s end
  else held d s.
Proof.
  revert lba d. induction chunks as [|c chunks IH]; intros lba d; simpl store.
  - by case_decide.
  - rewrite IH, held_put. destruct (decide (lba = s)) as [->|Hne].
    + rewrite decide_False, decide_True by lia.
      by replace (Z.to_nat (s - s)) with 0%nat by lia.
    + destruct (decide (lba <= s)).
      * rewrite decide_True by lia.
        by replace (Z.to_nat (s - lba)) with (S (Z.to_nat (s - (lba + 1)))) by lia.
      * by rewrite decide_False by lia.
Qed.

Lemma store_count lba chunks d : count (store lba chunks d) = count d.
Proof. revert lba d. induction chunks; intros; simpl; [done|]. by rewrite IHchunks. Qed.

Lemma store_ok lba chunks d : ok d -> Forall is_sector chunks -> ok (store lba chunks d).
Proof.
  revert lba d. induction chunks as [|c chunks IH]; intros lba d Hok Hc; [done|].
  inversion Hc; subst. simpl. apply IH; [|done].
  split; [apply Hok|]. simpl. intros s vs. rewrite lookup_insert. case_decide.
  - intros [= <-]. destruct (held_ok d lba Hok) as [_ ?].
    split; [by destruct (held d lba)|]. apply Forall_app. auto.
  - apply Hok.
Qed.

Lemma sector_of_ok data k :
  Forall is_byte data -> 0 <= k -> (k + 1) * 512 <= Z.of_nat (length data) ->
  is_sector (sector_of data k).
Proof.
  intros Hb Hk Hlen. split; [apply length_slice; lia|by apply slice_forall].
Qed.

Lemma held_settle d s :
  held {| sectors := (fun vs => [List.last vs []]) <$> sectors d;
          count := count d; faults := faults d |} s = [List.last (held d s) []].
Proof. unfold held. simpl. rewrite lookup_fmap. by destruct (sectors d !! s). Qed.

Lemma strike_ok d r d' : ok d -> strike d = (r, d') -> ok d'.
Proof.
  intros Hok Hs. apply strike_inv in Hs as (Hsec & Hcnt & _).
  unfold ok in *. by rewrite Hsec, Hcnt.
Qed.

Lemma held_sectors d d' s : sectors d' = sectors d -> held d' s = held d s.
Proof. unfold held. by intros ->. Qed.

Lemma read_laws d lba len r d' :
  ok d -> 0 <= lba -> 0 <= len -> read lba len d = (r, d') ->
  ok d' /\ count d' = count d /\ (forall s, held d' s = held d s) /\
  match r with
  | Ok data => exists n, 0 < n /\ len = n * 512 /\ lba + n <= count d /\
      data = concat (map (newest d) (seqZ lba n))
  | Err _ => True
  | Panic => False
  end.
Proof.
  intros Hok Hlba Hlen. unfold read, mbind, M_bind, get, lift, mret, M_ret.
  destruct (strike d) as [r0 d0] eqn:Hst.
  pose proof (strike_ok _ _ _ Hok Hst) as Hok0.
  apply strike_inv in Hst as (Hsec & Hcnt & Hr0).
  destruct r0 as [[]|e|]; [|intros [= <- <-]; auto using held_sectors|by destruct Hr0].
  pose proof (validate_spec (count d0) lba len _ Hlba Hlen (proj2 (proj1 Hok0)) eq_refl) as Hv.
  destruct (validate (count d0) lba len) as [n|e|]; intros [= <- <-]; [|auto using held_sectors|done].
  destruct Hv as (-> & Hn & Hb). rewrite Hcnt in Hb.
  split; [done|]. split; [done|]. split; [auto using held_sectors|].
  exists n. repeat split; auto. f_equal. apply map_ext. intros s.
  unfold newest. by rewrite (held_sectors d d0).
Qed.

Lemma write_laws d lba data r d' :
  ok d -> 0 <= lba -> Forall is_byte data -> write lba data d = (r, d') ->
  ok d' /\ count d' = count d /\
  (forall s, ~ (lba <= s < lba + Z.of_nat (length data) / 512) -> held d' s = held d s) /\
  match r with
  | Ok _ => exists n, 0 < n /\ Z.of_nat (length data) = n * 512 /\ lba + n <= count d /\
      forall s, lba <= s < lba + n -> held d' s = held d s ++ [sector_of data (s - lba)]
  | Err _ => forall s, held d' s = held d s
  | Panic => False
  end.
Proof.
  intros Hok Hlba Hdata. unfold write, mbind, M_bind, get, lift, modify.
  destruct (strike d) as [r0 d0] eqn:Hst.
  pose proof (strike_ok _ _ _ Hok Hst) as Hok0.
  apply strike_inv in Hst as (Hsec & Hcnt & Hr0).
  destruct r0 as [[]|e|]; [|intros [= <- <-]; auto using held_sectors|by destruct Hr0].
  assert (Hlen : 0 <= Z.of_nat (length data)) by lia.
  pose proof (validate_spec (count d0) lba _ _ Hlba Hlen (proj2 (proj1 Hok0)) eq_refl) as Hv.
  destruct (validate (count d0) lba _) as [n|e|]; intros [= <- <-]; [|auto using held_sectors|done].
  destruct Hv as (Hl & Hn & Hb). rewrite Hcnt in Hb. unfold SECTOR_SIZE in Hl.
  assert (Hheld : forall s, held (store lba (map (sector_of data) (seqZ 0 n)) d0) s =
    if decide (lba <= s < lba + n) then held d s ++ [sector_of data (s - lba)] else held d s).
  { intros s. rewrite held_store, (held_sectors d d0) by done. rewrite list_lookup_fmap.
    destruct (decide (lba <= s < lba + n)); repeat case_decide; try lia; try done.
    - rewrite lookup_seqZ_lt by lia. simpl. do 3 f_equal. lia.
    - by rewrite lookup_seqZ_ge by lia. }
  split; [|split; [by rewrite store_count|]].
  - apply store_ok; [done|]. apply Forall_fmap, Forall_seqZ. intros k Hk.
    apply sector_of_ok; [done|lia..].
  - rewrite Hl, Z.div_mul by lia. split; [|exists n; repeat split; auto]; intros s Hs; rewrite Hheld.
    + by rewrite decide_False.
    + by rewrite decide_True.
Qed.

Lemma flush_laws d r d' :
  ok d -> flush d = (r, d') ->
  ok d' /\ count d' = count d /\
  match r with
  | Ok _ => forall s, held d' s = [List.last (held d s) []]
  | Err _ => forall s, held d' s = held d s
  | Panic => False
  end.
Proof.
  intros Hok. unfold flush, mbind, M_bind, modify.
  destruct (strike d) as [r0 d0] eqn:Hst.
  pose proof (strike_ok _ _ _ Hok Hst) as Hok0.
  apply strike_inv in Hst as (Hsec & Hcnt & Hr0).
  destruct r0 as [[]|e|]; intros [= <- <-]; [|auto using held_sectors|by destruct Hr0].
  split; [|split; [done|]].
  - split; [apply Hok0|]. simpl. intros s vs. rewrite lookup_fmap.
    destruct (sectors d0 !! s) as [vs0|] eqn:Hvs; [|done]. intros [= <-].
    split; [done|]. apply Forall_singleton.
    destruct (proj2 Hok0 _ _ Hvs) as [Hne Hall].
    destruct (exists_last Hne) as (l & a & ->). rewrite List.last_last.
    apply Forall_app in Hall as [_ Hall]. by inversion Hall.
  - intros s. rewrite held_settle, (held_sectors d d0); done.
Qed.

#[global] Instance laws : BlockLaws disk.
Proof.
  refine {| versions := held; dev_ok := ok |}.
  - intros d [Hc _]. apply Hc.
  - intros d s Hok _. by apply held_ok.
  - exact read_laws.
  - intros d lba data r d' Hok Hlba Hb Hw.
    destruct (write_laws d lba data r d' Hok Hlba Hb Hw) as (? & ? & ? & Hr).
    split; [done|]. split; [done|]. split; [done|]. destruct r; auto.
  - exact flush_laws.
Defined.

End MemDisk.
