(* ===== verification/FsLayout.v ===== *)
(** * On-disk structures of the filesystem (kernel/src/fs/mod.rs)

    Superblocks, inodes and directory entries with their encodings, the checksum
    that guards a superblock, and the permission check. *)

From stdpp Require Import base list gmap numbers list_numbers.
From Stdlib Require Import Lia.
From S2P Require Import Prelude Block.

Definition BLOCK_SIZE : Z := SECTOR_SIZE.
Definition MAGIC : Z := 0x5061_6E64_6146_5301.
Definition VERSION : Z := 2.

Definition OWNER_READ : Z := Z.shiftl 1 0.
Definition OWNER_WRITE : Z := Z.shiftl 1 1.
Definition OTHERS_READ : Z := Z.shiftl 1 2.
Definition OTHERS_WRITE : Z := Z.shiftl 1 3.
Definition ALL_PERMISSIONS : Z :=
  Z.lor (Z.lor (Z.lor OWNER_READ OWNER_WRITE) OTHERS_READ) OTHERS_WRITE.
Definition DEFAULT_MODE : Z := Z.lor (Z.lor OWNER_READ OWNER_WRITE) OTHERS_READ.

Definition DIRECT_BLOCKS : nat := 60.
Definition MAX_NAME : nat := 55.

(** The user the system itself runs as (users::SYSTEM). *)
Definition SYSTEM : Z := 0.

Inductive FsError : Type :=
| NotFormatted | WrongVersion | NotFound | Exists | BadName | TooLarge | Full
| WrongType | NotEmpty | Denied | Device (e : BlockError) | Corrupt.

#[global] Instance FsError_eq_dec : EqDecision FsError.
Proof. solve_decision. Defined.

Inductive NodeKind : Type := File | Directory.

#[global] Instance NodeKind_eq_dec : EqDecision NodeKind.
Proof. solve_decision. Defined.

Record SuperBlock : Type := {
  sb_magic : Z;
  sb_version : Z;
  sb_generation : Z;
  sb_total_blocks : Z;
  sb_bitmap_start : Z;
  sb_bitmap_blocks : Z;
  sb_root_inode : Z;
  sb_first_data_block : Z;
  sb_checksum : Z;
}.

Record Inode : Type := {
  i_kind : Z;
  i_owner : Z;
  i_mode : Z;
  i_size : Z;
  i_blocks_used : Z;
  i_direct : list Z;
}.

Record DirEntry : Type := {
  de_inode : Z;
  de_name_length : Z;
  de_name : list Z;
}.

(** [size_of::<DirEntry>()]: eight bytes, one, and [MAX_NAME], unpadded. *)
Definition DIR_ENTRY_SIZE : nat := 64.
Definition ENTRIES_PER_BLOCK : nat := 8.

(** ** The checksum *)

Definition POLYNOMIAL : Z := 0xEDB8_8320.

Definition wrapping_neg_u32 (v : Z) : Z := (- v) mod 2 ^ 32.

Definition crc_bit (crc : Z) : Z :=
  let mask := wrapping_neg_u32 (Z.land crc 1) in
  Z.lxor (Z.shiftr crc 1) (Z.land POLYNOMIAL mask).

Fixpoint crc_bits (n : nat) (crc : Z) : Z :=
  match n with O => crc | S n' => crc_bits n' (crc_bit crc) end.

Definition crc_byte (crc byte : Z) : Z := crc_bits 8 (Z.lxor crc byte).

Definition crc32 (bytes : list Z) : Z :=
  Z.lxor U32_MAX (fold_left crc_byte bytes U32_MAX).

(** ** Superblocks *)

Definition zero_block : list Z := replicate 512 0.

(** Everything but the checksum, which covers these 64 bytes. *)
Definition SuperBlock_fields (sb : SuperBlock) : list Z :=
  let block := zero_block in
  let block := splice block 0 (to_le_bytes 8 (sb_magic sb)) in
  let block := splice block 8 (to_le_bytes 4 (sb_version sb)) in
  let block := splice block 16 (to_le_bytes 8 (sb_generation sb)) in
  let block := splice block 24 (to_le_bytes 8 (sb_total_blocks sb)) in
  let block := splice block 32 (to_le_bytes 8 (sb_bitmap_start sb)) in
  let block := splice block 40 (to_le_bytes 8 (sb_bitmap_blocks sb)) in
  let block := splice block 48 (to_le_bytes 8 (sb_root_inode sb)) in
  splice block 56 (to_le_bytes 8 (sb_first_data_block sb)).

Definition SuperBlock_encode (sb : SuperBlock) : list Z :=
  let block := SuperBlock_fields sb in
  let checksum := crc32 (slice block 0 64) in
  splice block 64 (to_le_bytes 4 checksum).

Definition le_at (block : list Z) (at_ n : nat) : Z := from_le_bytes (slice block at_ n).

Definition SuperBlock_decode (block : list Z) : option SuperBlock :=
  let magic := le_at block 0 8 in
  if negb (magic =? MAGIC) then None
  else
    let stated := le_at block 64 4 in
    if negb (crc32 (slice block 0 64) =? stated) then None
    else Some {|
      sb_magic := magic;
      sb_version := le_at block 8 4;
      sb_generation := le_at block 16 8;
      sb_total_blocks := le_at block 24 8;
      sb_bitmap_start := le_at block 32 8;
      sb_bitmap_blocks := le_at block 40 8;
      sb_root_inode := le_at block 48 8;
      sb_first_data_block := le_at block 56 8;
      sb_checksum := stated;
    |}.

(** ** Inodes *)

Fixpoint put_pointers (block : list Z) (index : nat) (direct : list Z) : list Z :=
  match direct with
  | [] => block
  | pointer :: rest =>
      put_pointers (splice block (24 + index * 8) (to_le_bytes 8 pointer)) (S index) rest
  end.

Definition Inode_encode (inode : Inode) : list Z :=
  let block := zero_block in
  let block := splice block 0 (to_le_bytes 4 (i_kind inode)) in
  let block := splice block 4 (to_le_bytes 4 (i_owner inode)) in
  let block := splice block 8 (to_le_bytes 8 (i_size inode)) in
  let block := splice block 16 (to_le_bytes 4 (i_blocks_used inode)) in
  let block := splice block 20 (to_le_bytes 2 (i_mode inode)) in
  put_pointers block 0 (i_direct inode).

Definition Inode_decode (block : list Z) : result FsError Inode :=
  let kind := le_at block 0 4 in
  if kind >? 1 then Err Corrupt
  else Ok {|
    i_kind := kind;
    i_owner := le_at block 4 4;
    i_mode := Z.land (le_at block 20 2) ALL_PERMISSIONS;
    i_size := le_at block 8 8;
    i_blocks_used := le_at block 16 4;
    i_direct := map (fun index => le_at block (24 + index * 8) 8) (seq 0 DIRECT_BLOCKS);
  |}.

(** [None] is the kernel acting on its own account. *)
Definition permits (inode : Inode) (user : option Z) (write : bool) : bool :=
  match user with
  | None => true
  | Some user =>
      let bit := match (user =? i_owner inode, write) with
                 | (true, false) => OWNER_READ
                 | (true, true) => OWNER_WRITE
                 | (false, false) => OTHERS_READ
                 | (false, true) => OTHERS_WRITE
                 end in
      negb (Z.land (i_mode inode) bit =? 0)
  end.

Definition node_kind (inode : Inode) : NodeKind :=
  if i_kind inode =? 1 then Directory else File.

(** ** Directory entries *)

(** [entry.encode_into(&mut data[at..])] *)
Definition encode_into (entry : DirEntry) (data : list Z) (at_ : nat) : list Z :=
  let data := splice data at_ (to_le_bytes 8 (de_inode entry)) in
  let data := splice data (at_ + 8) [de_name_length entry] in
  splice data (at_ + 9) (de_name entry).

(** [DirEntry::decode(&data[at..])] *)
Definition DirEntry_decode (data : list Z) (at_ : nat) : DirEntry := {|
  de_inode := le_at data at_ 8;
  de_name_length := le_at data (at_ + 8) 1;
  de_name := slice data (at_ + 9) MAX_NAME;
|}.

Definition in_range (lo hi b : Z) : bool := (lo <=? b) && (b <=? hi).
Definition is_cont (b : Z) : bool := in_range 0x80 0xBF b.

(** [core::str::from_utf8], as a test. *)
Fixpoint utf8_valid (l : list Z) : bool :=
  match l with
  | [] => true
  | b0 :: r =>
      if b0 <? 0x80 then utf8_valid r
      else if in_range 0xC2 0xDF b0 then
        match r with b1 :: r1 => is_cont b1 && utf8_valid r1 | _ => false end
      else if in_range 0xE0 0xEF b0 then
        match r with
        | b1 :: b2 :: r2 =>
            in_range (if b0 =? 0xE0 then 0xA0 else 0x80) (if b0 =? 0xED then 0x9F else 0xBF) b1
            && is_cont b2 && utf8_valid r2
        | _ => false
        end
      else if in_range 0xF0 0xF4 b0 then
        match r with
        | b1 :: b2 :: b3 :: r3 =>
            in_range (if b0 =? 0xF0 then 0x90 else 0x80) (if b0 =? 0xF4 then 0x8F else 0xBF) b1
            && is_cont b2 && is_cont b3 && utf8_valid r3
        | _ => false
        end
      else false
  end.

Definition name_str (entry : DirEntry) : option (list Z) :=
  let len := Nat.min (Z.to_nat (de_name_length entry)) MAX_NAME in
  let name := take len (de_name entry) in
  if utf8_valid name then Some name else None.

(** ** The checksum tells one damaged byte *)

Section Crc.

Lemma crc_bit_odd c : crc_bit c = Z.lxor (Z.shiftr c 1) (if Z.odd c then POLYNOMIAL else 0).
Proof.
  unfold crc_bit, wrapping_neg_u32. f_equal.
  change 1 with (Z.ones 1). rewrite Z.land_ones by lia. change (2 ^ 1) with 2.
  rewrite Zmod_odd. destruct (Z.odd c); reflexivity.
Qed.

Lemma shiftr1_bound c : u32 c -> 0 <= Z.shiftr c 1 < 2 ^ 31.
Proof.
  unfold u32. intros H. rewrite Z.shiftr_div_pow2 by lia. change (2 ^ 1) with 2.
  split; [apply Z.div_pos; lia|]. apply Z.div_lt_upper_bound; lia.
Qed.

Lemma bits_bound a n : 0 <= n -> 0 <= a -> (forall i, n <= i -> Z.testbit a i = false) -> a < 2 ^ n.
Proof.
  intros Hn Ha Hbits. destruct (Z.eq_dec a 0) as [->|Hne]; [apply Z.pow_pos_nonneg; lia|].
  apply Z.log2_lt_pow2; [lia|]. apply Z.nle_gt. intros Hle.
  assert (Hb : Z.testbit a (Z.log2 a) = true) by (apply Z.bit_log2; lia).
  by rewrite Hbits in Hb by lia.
Qed.

Lemma testbit_above a n i : 0 <= a < 2 ^ n -> n <= i -> Z.testbit a i = false.
Proof.
  intros Ha Hi. destruct (Z.eq_dec a 0) as [->|Hne]; [apply Z.bits_0|].
  apply Z.bits_above_log2; [lia|]. assert (Z.log2 a < n) by (apply Z.log2_lt_pow2; lia). lia.
Qed.

Lemma lxor_bound a b n : 0 <= n -> 0 <= a < 2 ^ n -> 0 <= b < 2 ^ n -> 0 <= Z.lxor a b < 2 ^ n.
Proof.
  intros Hn Ha Hb. assert (0 <= Z.lxor a b) by (apply Z.lxor_nonneg; lia).
  split; [done|]. apply bits_bound; [lia..|]. intros i Hi.
  by rewrite Z.lxor_spec, (testbit_above a n), (testbit_above b n).
Qed.

Lemma crc_bit_u32 c : u32 c -> u32 (crc_bit c).
Proof.
  intros Hc. rewrite crc_bit_odd. pose proof (shiftr1_bound c Hc). apply lxor_bound; [lia|lia|].
  destruct (Z.odd c); unfold POLYNOMIAL; lia.
Qed.

(** The polynomial's top bit records the bit shifted out, so no step loses
    information. *)
Lemma crc_bit_top c : u32 c -> Z.testbit (crc_bit c) 31 = Z.odd c.
Proof.
  intros Hc. rewrite crc_bit_odd, Z.lxor_spec.
  rewrite (testbit_above _ 31) by (apply shiftr1_bound in Hc; lia).
  destruct (Z.odd c); reflexivity.
Qed.

Lemma crc_bit_inj c c' : u32 c -> u32 c' -> crc_bit c = crc_bit c' -> c = c'.
Proof.
  intros Hc Hc' Heq.
  assert (Hodd : Z.odd c = Z.odd c') by (rewrite <-!crc_bit_top by done; by rewrite Heq).
  rewrite !crc_bit_odd, Hodd in Heq.
  assert (Hsh : Z.shiftr c 1 = Z.shiftr c' 1).
  { rewrite <-(Z.lxor_0_r (Z.shiftr c 1)), <-(Z.lxor_0_r (Z.shiftr c' 1)).
    rewrite <-(Z.lxor_nilpotent (if Z.odd c' then POLYNOMIAL else 0)), <-!Z.lxor_assoc.
    by rewrite Heq. }
  rewrite <-!Z.div2_spec in Hsh. rewrite (Z.div2_odd c), (Z.div2_odd c'). by rewrite Hsh, Hodd.
Qed.

Lemma crc_bits_u32 n c : u32 c -> u32 (crc_bits n c).
Proof. revert c. induction n; simpl; auto using crc_bit_u32. Qed.

Lemma crc_bits_inj n c c' : u32 c -> u32 c' -> crc_bits n c = crc_bits n c' -> c = c'.
Proof.
  revert c c'. induction n as [|n IH]; simpl; [done|]. intros c c' Hc Hc' Heq.
  apply crc_bit_inj; [done..|]. apply IH; auto using crc_bit_u32.
Qed.

Lemma lxor_byte_u32 c b : u32 c -> is_byte b -> u32 (Z.lxor c b).
Proof. intros Hc Hb. apply lxor_bound; unfold u32, is_byte in *; lia. Qed.

(** Rewriting with these keeps conversion from ever comparing a checksum state
    with the next one, which would unfold eight nested steps. *)
Lemma crc_byte_unfold c b : crc_byte c b = crc_bits 8 (Z.lxor c b).
Proof. reflexivity. Qed.

Lemma fold_left_step {A B} (f : A -> B -> A) b l a :
  fold_left f (b :: l) a = fold_left f l (f a b).
Proof. reflexivity. Qed.

Lemma crc_byte_u32 c b : u32 c -> is_byte b -> u32 (crc_byte c b).
Proof. intros. rewrite crc_byte_unfold. by apply crc_bits_u32, lxor_byte_u32. Qed.

Lemma lxor_cancel a b c : Z.lxor a b = Z.lxor a c -> b = c.
Proof.
  intros H. apply (f_equal (Z.lxor a)) in H.
  by rewrite <-!Z.lxor_assoc, Z.lxor_nilpotent, !Z.lxor_0_l in H.
Qed.

Lemma crc_byte_inj_crc c c' b :
  u32 c -> u32 c' -> is_byte b -> crc_byte c b = crc_byte c' b -> c = c'.
Proof.
  intros Hc Hc' Hb. rewrite !crc_byte_unfold. intros Heq.
  apply crc_bits_inj in Heq; [|by apply lxor_byte_u32..].
  rewrite !(Z.lxor_comm _ b) in Heq. by apply lxor_cancel in Heq.
Qed.

Lemma crc_byte_inj_byte c b b' :
  u32 c -> is_byte b -> is_byte b' -> crc_byte c b = crc_byte c b' -> b = b'.
Proof.
  intros Hc Hb Hb'. rewrite !crc_byte_unfold. intros Heq.
  apply crc_bits_inj in Heq; [|by apply lxor_byte_u32..]. by apply lxor_cancel in Heq.
Qed.

Lemma crc_fold_u32 l c : u32 c -> Forall is_byte l -> u32 (fold_left crc_byte l c).
Proof.
  intros Hc Hl. revert c Hc. induction Hl as [|b l Hb Hl IH]; intros c Hc; [done|].
  rewrite fold_left_step. by apply IH, crc_byte_u32.
Qed.

Lemma crc_fold_inj l c c' :
  u32 c -> u32 c' -> Forall is_byte l -> fold_left crc_byte l c = fold_left crc_byte l c' -> c = c'.
Proof.
  intros Hc Hc' Hl. revert c c' Hc Hc'.
  induction Hl as [|b l Hb Hl IH]; intros c c' Hc Hc'; [done|].
  rewrite !fold_left_step. intros Heq.
  apply IH in Heq; [|by apply crc_byte_u32..]. by apply crc_byte_inj_crc in Heq.
Qed.

Lemma crc_fold_one p q x y c :
  u32 c -> Forall is_byte p -> Forall is_byte q -> is_byte x -> is_byte y ->
  fold_left crc_byte (p ++ x :: q) c = fold_left crc_byte (p ++ y :: q) c -> x = y.
Proof.
  intros Hc Hp Hq Hx Hy. rewrite !fold_left_app, !fold_left_step. intros Heq.
  pose proof (crc_fold_u32 p c Hc Hp) as Hu.
  apply crc_fold_inj in Heq; [|by apply crc_byte_u32..|done].
  by apply crc_byte_inj_byte in Heq.
Qed.

Lemma U32_MAX_u32 : u32 U32_MAX.
Proof. unfold u32, U32_MAX. lia. Qed.

Lemma crc32_u32 l : Forall is_byte l -> u32 (crc32 l).
Proof.
  intros Hl. unfold crc32. apply lxor_bound; [lia|unfold U32_MAX; lia|].
  apply crc_fold_u32; [apply U32_MAX_u32|done].
Qed.

Lemma crc32_one_byte l i v x :
  Forall is_byte l -> is_byte v -> l !! i = Some x -> crc32 (<[i := v]> l) = crc32 l -> v = x.
Proof.
  intros Hl Hv Hi Heq. unfold crc32 in Heq. apply lxor_cancel in Heq.
  assert (Hlt := lookup_lt_Some _ _ _ Hi).
  assert (Hx : is_byte x) by (eapply Forall_lookup_1; eauto).
  rewrite insert_take_drop in Heq by done.
  rewrite <-(take_drop_middle l i x) in Heq at 3 by done.
  eapply crc_fold_one; [apply U32_MAX_u32|..|exact Heq]; auto using Forall_take, Forall_drop.
Qed.

End Crc.

(** ** Round trips *)

Lemma length_zero_block : length zero_block = 512%nat.
Proof. reflexivity. Qed.
#[export] Hint Rewrite length_zero_block : len.

Lemma zero_block_bytes : Forall is_byte zero_block.
Proof. apply Forall_replicate. unfold is_byte. lia. Qed.
#[export] Hint Resolve zero_block_bytes : bytes.

Definition with_checksum (sb : SuperBlock) (c : Z) : SuperBlock := {|
  sb_magic := sb_magic sb; sb_version := sb_version sb; sb_generation := sb_generation sb;
  sb_total_blocks := sb_total_blocks sb; sb_bitmap_start := sb_bitmap_start sb;
  sb_bitmap_blocks := sb_bitmap_blocks sb; sb_root_inode := sb_root_inode sb;
  sb_first_data_block := sb_first_data_block sb; sb_checksum := c |}.

(** Every field fits the bytes it is stored in. *)
Definition sb_fits (sb : SuperBlock) : Prop :=
  sb_magic sb = MAGIC /\ u32 (sb_version sb) /\ u64 (sb_generation sb) /\
  u64 (sb_total_blocks sb) /\ u64 (sb_bitmap_start sb) /\ u64 (sb_bitmap_blocks sb) /\
  u64 (sb_root_inode sb) /\ u64 (sb_first_data_block sb).

Lemma le_at_bytes n v : 0 <= v < 256 ^ Z.of_nat n ->
  forall block a, slice block a n = to_le_bytes n v -> le_at block a n = v.
Proof. intros Hv block a Hs. unfold le_at. rewrite Hs. by apply from_to_le_bytes. Qed.

Lemma fields_sector sb : is_sector (SuperBlock_fields sb).
Proof.
  unfold SuperBlock_fields. split; [len|].
  repeat (apply splice_bytes; [|auto with bytes]). apply zero_block_bytes.
Qed.

Lemma encode_sector sb : is_sector (SuperBlock_encode sb).
Proof.
  destruct (fields_sector sb) as [Hl Hb]. unfold SuperBlock_encode. split; [len|].
  apply splice_bytes; auto with bytes.
Qed.

Lemma encode_checksum sb :
  le_at (SuperBlock_encode sb) 64 4 = crc32 (slice (SuperBlock_encode sb) 0 64) /\
  forall a n, (a + n <= 64)%nat ->
    le_at (SuperBlock_encode sb) a n = le_at (SuperBlock_fields sb) a n.
Proof.
  destruct (fields_sector sb) as [Hl Hb]. unfold SuperBlock_encode, le_at. split.
  - rewrite slice_splice_eq, slice_splice_before by (len; lia).
    apply from_to_le_bytes, crc32_u32, slice_forall, Hb.
  - intros a n Han. by rewrite slice_splice_before by (len; lia).
Qed.

Lemma SuperBlock_decode_encode sb :
  sb_fits sb -> exists c, SuperBlock_decode (SuperBlock_encode sb) = Some (with_checksum sb c).
Proof.
  intros (Hm & Hv & Hg & Ht & Hbs & Hbb & Hr & Hf). unfold SuperBlock_decode.
  destruct (encode_checksum sb) as [Hcrc Hat]. rewrite Hcrc, Z.eqb_refl, !Hat by lia.
  unfold u64, u32 in *. assert (HM : 0 <= MAGIC < 256 ^ Z.of_nat 8) by (unfold MAGIC; lia).
  unfold SuperBlock_fields. rewrite Hm.
  rewrite (le_at_bytes 8 MAGIC) by (lia || (slices; done)). rewrite Z.eqb_refl. simpl negb. cbv iota.
  rewrite (le_at_bytes 4 (sb_version sb)) by (lia || (slices; done)).
  rewrite (le_at_bytes 8 (sb_generation sb)) by (lia || (slices; done)).
  rewrite (le_at_bytes 8 (sb_total_blocks sb)) by (lia || (slices; done)).
  rewrite (le_at_bytes 8 (sb_bitmap_start sb)) by (lia || (slices; done)).
  rewrite (le_at_bytes 8 (sb_bitmap_blocks sb)) by (lia || (slices; done)).
  rewrite (le_at_bytes 8 (sb_root_inode sb)) by (lia || (slices; done)).
  rewrite (le_at_bytes 8 (sb_first_data_block sb)) by (lia || (slices; done)).
  eexists. unfold with_checksum. rewrite Hm. reflexivity.
Qed.

Lemma from_le_bytes_inj l l' :
  length l = length l' -> Forall is_byte l -> Forall is_byte l' ->
  from_le_bytes l = from_le_bytes l' -> l = l'.
Proof.
  intros Hlen Hl Hl' Heq.
  rewrite <-(to_from_le_bytes l), <-(to_from_le_bytes l') by done. by rewrite Heq, Hlen.
Qed.

Lemma slice_insert_out {A} (l : list A) i v a n :
  ~ (a <= i < a + n)%nat -> slice (<[i := v]> l) a n = slice l a n.
Proof.
  intros H. unfold slice. apply list_eq. intros j.
  destruct (decide (j < n)%nat); [|by rewrite !lookup_take_ge by lia].
  rewrite !lookup_take_lt, !lookup_drop by lia. apply list_lookup_insert_ne. lia.
Qed.

Lemma slice_insert_in {A} (l : list A) i v a n :
  (a <= i < a + n)%nat -> slice (<[i := v]> l) a n = <[(i - a)%nat := v]> (slice l a n).
Proof.
  intros H. unfold slice. rewrite drop_insert_ge by lia. apply take_insert_lt. lia.
Qed.

(** A sector that decodes as a superblock stops doing so when any one of the 68
    bytes it is read from changes. *)
Lemma SuperBlock_decode_damaged block i v x :
  is_sector block -> is_byte v -> block !! i = Some x -> v <> x -> (i < 68)%nat ->
  SuperBlock_decode block <> None -> SuperBlock_decode (<[i := v]> block) = None.
Proof.
  intros [Hlen Hb] Hv Hi Hne Hlt. unfold SuperBlock_decode.
  destruct (le_at block 0 8 =? MAGIC) eqn:Hmag; [simpl|done].
  destruct (crc32 (slice block 0 64) =? le_at block 64 4) eqn:Hcrc; [simpl|done]. intros _.
  apply Z.eqb_eq in Hcrc.
  destruct (le_at (<[i:=v]> block) 0 8 =? MAGIC); [simpl|done].
  destruct (_ =? le_at (<[i:=v]> block) 64 4) eqn:Hcrc'; [|done]. exfalso.
  apply Z.eqb_eq in Hcrc'. destruct (decide (i < 64)%nat) as [Hin|Hin].
  - rewrite slice_insert_in in Hcrc' by lia. unfold le_at in Hcrc' at 1.
    rewrite slice_insert_out in Hcrc' by lia. fold (le_at block 64 4) in Hcrc'.
    rewrite <-Hcrc in Hcrc'. apply Hne. eapply crc32_one_byte; [..|exact Hcrc'].
    + by apply slice_forall.
    + done.
    + unfold slice. rewrite lookup_take_lt, lookup_drop by lia. rewrite <-Hi. f_equal. lia.
  - rewrite slice_insert_out in Hcrc' by lia. rewrite Hcrc in Hcrc'. unfold le_at in Hcrc'.
    rewrite slice_insert_in in Hcrc' by lia. apply from_le_bytes_inj in Hcrc'.
    + apply (f_equal (fun l => l !! (i - 64)%nat)) in Hcrc'.
      rewrite list_lookup_insert_eq in Hcrc' by (rewrite length_slice; lia).
      unfold slice in Hcrc'. rewrite lookup_take_lt, lookup_drop in Hcrc' by lia.
      replace (64 + (i - 64))%nat with i in Hcrc' by lia. congruence.
    + by rewrite length_insert.
    + by apply slice_forall.
    + apply Forall_insert; [by apply slice_forall|done].
Qed.

(** *** Inodes *)

Lemma length_put_pointers direct block index : length (put_pointers block index direct) = length block.
Proof. revert block index. induction direct; intros; cbn [put_pointers]; [done|]. rewrite IHdirect. len. Qed.

Lemma put_pointers_bytes direct block index :
  Forall is_byte block -> Forall is_byte (put_pointers block index direct).
Proof.
  revert block index. induction direct; intros; cbn [put_pointers]; [done|].
  apply IHdirect, splice_bytes; auto with bytes.
Qed.

Lemma put_pointers_before direct block index a n :
  (a + n <= 24 + index * 8)%nat -> (24 + (index + length direct) * 8 <= length block)%nat ->
  slice (put_pointers block index direct) a n = slice block a n.
Proof.
  revert block index. induction direct as [|p direct IH]; intros block index Ha Hlen; [done|].
  cbn [put_pointers length] in *. rewrite IH by (len; lia). apply slice_splice_before; len; lia.
Qed.

Lemma put_pointers_at direct block index j p :
  direct !! j = Some p -> (24 + (index + length direct) * 8 <= length block)%nat ->
  slice (put_pointers block index direct) (24 + (index + j) * 8) 8 = to_le_bytes 8 p.
Proof.
  revert block index j. induction direct as [|q direct IH]; intros block index j Hj Hlen; [done|].
  cbn [put_pointers length] in *. destruct j as [|j].
  - injection Hj as ->. rewrite put_pointers_before by (len; lia).
    replace (index + 0)%nat with index by lia. apply slice_splice_eq; len; lia.
  - replace (index + S j)%nat with (S index + j)%nat by lia. apply IH; [done|len; lia].
Qed.

(** What an inode held in memory satisfies. *)
Definition inode_fits (i : Inode) : Prop :=
  (i_kind i = 0 \/ i_kind i = 1) /\ u32 (i_owner i) /\ 0 <= i_mode i <= ALL_PERMISSIONS /\
  u64 (i_size i) /\ u32 (i_blocks_used i) /\
  length (i_direct i) = DIRECT_BLOCKS /\ Forall u64 (i_direct i).

Lemma Inode_encode_sector i : length (i_direct i) = DIRECT_BLOCKS -> is_sector (Inode_encode i).
Proof.
  intros Hl. unfold Inode_encode. split; [rewrite length_put_pointers; len|].
  apply put_pointers_bytes. repeat (apply splice_bytes; [|auto with bytes]). apply zero_block_bytes.
Qed.

Lemma land_all_permissions m : 0 <= m <= ALL_PERMISSIONS -> Z.land m ALL_PERMISSIONS = m.
Proof.
  intros H. change ALL_PERMISSIONS with (Z.ones 4). rewrite Z.land_ones by lia.
  apply Z.mod_small. change (2 ^ 4) with 16. change ALL_PERMISSIONS with 15 in H. lia.
Qed.

Lemma Inode_decode_encode i : inode_fits i -> Inode_decode (Inode_encode i) = Ok i.
Proof.
  intros (Hk & Ho & Hm & Hs & Hu & Hl & Hd). unfold Inode_decode, Inode_encode.
  unfold u64, u32 in *. change ALL_PERMISSIONS with 15 in Hm. unfold DIRECT_BLOCKS in *.
  assert (Hhd : forall a n v, (a + n <= 24)%nat -> 0 <= v < 256 ^ Z.of_nat n -> forall block,
    length block = 512%nat -> slice block a n = to_le_bytes n v ->
    le_at (put_pointers block 0 (i_direct i)) a n = v).
  { intros a n v Ha Hv block Hb Hsl. unfold le_at.
    rewrite put_pointers_before by lia. rewrite Hsl. by apply from_to_le_bytes. }
  rewrite (Hhd 0%nat 4%nat (i_kind i)) by (lia || (slices; done) || (len; done)).
  rewrite (Hhd 4%nat 4%nat (i_owner i)) by (lia || (slices; done) || (len; done)).
  rewrite (Hhd 20%nat 2%nat (i_mode i)) by (lia || (slices; done) || (len; done)).
  rewrite (Hhd 8%nat 8%nat (i_size i)) by (lia || (slices; done) || (len; done)).
  rewrite (Hhd 16%nat 4%nat (i_blocks_used i)) by (lia || (slices; done) || (len; done)).
  rewrite land_all_permissions by (change ALL_PERMISSIONS with 15; lia).
  destruct (i_kind i >? 1) eqn:E; [lia|]. f_equal.
  set (B := splice _ 20 _). assert (HB : length B = 512%nat) by (subst B; len). clearbody B.
  assert (Hdir : map (fun index => le_at (put_pointers B 0 (i_direct i)) (24 + index * 8) 8)
                   (seq 0 60) = i_direct i).
  { apply list_eq. intros j. rewrite list_lookup_fmap. destruct (decide (j < 60)%nat).
    - rewrite lookup_seq_lt by lia. simpl.
      destruct (lookup_lt_is_Some_2 (i_direct i) j) as [p Hp]; [lia|]. rewrite Hp. f_equal.
      apply le_at_bytes; [eapply Forall_lookup_1 in Hd; eauto; lia|].
      apply (put_pointers_at _ _ 0 j); [done|lia].
    - rewrite lookup_seq_ge by lia. rewrite lookup_ge_None_2 by lia. done. }
  rewrite Hdir. by destruct i.
Qed.

(** *** Directory blocks *)

(** The inner loop of [rewrite]: the entries of one chunk, one after another. *)
Fixpoint encode_entries (data : list Z) (index : nat) (chunk : list DirEntry) : list Z :=
  match chunk with
  | [] => data
  | entry :: rest => encode_entries (encode_into entry data (index * DIR_ENTRY_SIZE)) (S index) rest
  end.

(** The inner loop of [find_entry], [list_as] and [rewrite]: every slot of a
    directory block. *)
Definition decode_entries (data : list Z) : list DirEntry :=
  map (fun index => DirEntry_decode data (index * DIR_ENTRY_SIZE)) (seq 0 ENTRIES_PER_BLOCK).

Definition used_entries (data : list Z) : list DirEntry :=
  filter (fun e => de_inode e <> 0) (decode_entries data).

Definition entry_fits (e : DirEntry) : Prop :=
  u64 (de_inode e) /\ is_byte (de_name_length e) /\
  length (de_name e) = MAX_NAME /\ Forall is_byte (de_name e).

Definition empty_entry : DirEntry :=
  {| de_inode := 0; de_name_length := 0; de_name := replicate MAX_NAME 0 |}.

Lemma length_encode_into e data a : length (encode_into e data a) = length data.
Proof. unfold encode_into. len. Qed.

Lemma length_encode_entries chunk data index :
  length (encode_entries data index chunk) = length data.
Proof.
  revert data index. induction chunk; intros; simpl; [done|].
  by rewrite IHchunk, length_encode_into.
Qed.
#[export] Hint Rewrite length_encode_into length_encode_entries : len.

Lemma encode_into_bytes e data a :
  entry_fits e -> Forall is_byte data -> Forall is_byte (encode_into e data a).
Proof.
  intros (_ & Hn & _ & Hb) Hd. unfold encode_into.
  repeat apply splice_bytes; auto with bytes.
Qed.

Lemma encode_entries_bytes chunk data index :
  Forall entry_fits chunk -> Forall is_byte data -> Forall is_byte (encode_entries data index chunk).
Proof.
  intros Hc. revert data index. induction Hc; intros; simpl; [done|].
  by apply IHHc, encode_into_bytes.
Qed.

Lemma decode_slices data data' a a' :
  slice data a 64 = slice data' a' 64 -> DirEntry_decode data a = DirEntry_decode data' a'.
Proof.
  intros H. unfold DirEntry_decode, le_at.
  assert (Hsub : forall k n (d : list Z) b, (k + n <= 64)%nat ->
    slice d (b + k) n = slice (slice d b 64) k n).
  { intros k n d b Hk. unfold slice. apply list_eq. intros i.
    destruct (decide (i < n)%nat); [|by rewrite !lookup_take_ge by lia].
    rewrite !lookup_take_lt, !lookup_drop, lookup_take_lt, lookup_drop by lia. f_equal. lia. }
  pose proof (Hsub 0%nat 8%nat) as H0. pose proof (Hsub 8%nat 1%nat) as H8.
  pose proof (Hsub 9%nat 55%nat) as H9. unfold MAX_NAME.
  rewrite <-(Nat.add_0_r a), <-(Nat.add_0_r a'), !H0 by lia. rewrite !Nat.add_0_r.
  rewrite !H8, !H9 by lia. by rewrite H.
Qed.

Lemma decode_encode_into e data a :
  entry_fits e -> (a + 64 <= length data)%nat -> DirEntry_decode (encode_into e data a) a = e.
Proof.
  intros (Hi & Hl & Hn & Hb) Ha. unfold DirEntry_decode, encode_into, MAX_NAME in *.
  unfold u64, is_byte in *.
  assert (Hlen1 : le_at (splice (splice (splice data a (to_le_bytes 8 (de_inode e))) (a + 8)
            [de_name_length e]) (a + 9) (de_name e)) (a + 8) 1 = de_name_length e).
  { unfold le_at. rewrite slice_splice_before, slice_splice_eq by (len; lia). simpl. lia. }
  rewrite Hlen1. rewrite (le_at_bytes 8 (de_inode e)) by (lia || (slices; done)).
  rewrite slice_splice_eq by (len; lia). by destruct e.
Qed.

Lemma encode_into_other e data a b :
  entry_fits e -> (a + 64 <= length data)%nat -> (b + 64 <= a \/ a + 64 <= b)%nat ->
  slice (encode_into e data a) b 64 = slice data b 64.
Proof.
  intros (Hi & Hl & Hn & Hb) Ha Hab. unfold encode_into, MAX_NAME in *.
  destruct Hab.
  - rewrite !slice_splice_before by (len; lia). done.
  - rewrite !slice_splice_after by (len; lia). done.
Qed.

Lemma encode_entries_before chunk data index b :
  Forall entry_fits chunk -> ((index + length chunk) * 64 <= length data)%nat ->
  (b < index)%nat ->
  slice (encode_entries data index chunk) (b * 64) 64 = slice data (b * 64) 64.
Proof.
  intros Hc. revert data index. induction Hc as [|e chunk He Hc IH]; intros data index Hlen Hb; [done|].
  cbn [encode_entries length] in *. unfold DIR_ENTRY_SIZE.
  rewrite IH by (len; lia). apply encode_into_other; [done|lia..].
Qed.

Lemma encode_entries_after chunk data index b :
  Forall entry_fits chunk -> ((index + length chunk) * 64 <= length data)%nat ->
  (index + length chunk <= b)%nat ->
  slice (encode_entries data index chunk) (b * 64) 64 = slice data (b * 64) 64.
Proof.
  intros Hc. revert data index. induction Hc as [|e chunk He Hc IH]; intros data index Hlen Hb; [done|].
  cbn [encode_entries length] in *. unfold DIR_ENTRY_SIZE.
  rewrite IH by (len; lia). apply encode_into_other; [done|lia..].
Qed.

Lemma encode_entries_at chunk data index j e :
  Forall entry_fits chunk -> ((index + length chunk) * 64 <= length data)%nat ->
  chunk !! j = Some e ->
  DirEntry_decode (encode_entries data index chunk) ((index + j) * 64) = e.
Proof.
  intros Hc. revert data index j. induction Hc as [|e0 chunk He Hc IH]; intros data index j Hlen Hj; [done|].
  cbn [encode_entries length] in *. unfold DIR_ENTRY_SIZE. destruct j as [|j].
  - injection Hj as ->. rewrite Nat.add_0_r.
    rewrite (decode_slices _ (encode_into e data (index * 64)) _ (index * 64)).
    + apply decode_encode_into; [done|lia].
    + apply encode_entries_before; [done|len; lia|lia].
  - replace (index + S j)%nat with (S index + j)%nat by lia. apply IH; [len; lia|done].
Qed.

(** A directory block gives back the entries it was made from, and free slots. *)
Lemma decode_encode_entries chunk :
  Forall entry_fits chunk -> (length chunk <= 8)%nat ->
  decode_entries (encode_entries zero_block 0 chunk)
  = chunk ++ replicate (8 - length chunk) empty_entry.
Proof.
  intros Hc Hlen. apply list_eq. intros j. unfold decode_entries, ENTRIES_PER_BLOCK, DIR_ENTRY_SIZE.
  rewrite list_lookup_fmap. destruct (decide (j < 8)%nat) as [Hj|Hj].
  - rewrite lookup_seq_lt by done. simpl fmap. destruct (decide (j < length chunk)%nat) as [Hjl|Hjl].
    + rewrite lookup_app_l by done. destruct (lookup_lt_is_Some_2 chunk j Hjl) as [e He].
      rewrite He. f_equal. apply (encode_entries_at chunk zero_block 0 j); [done|len|done].
    + rewrite lookup_app_r, lookup_replicate_2 by lia. f_equal. simpl.
      rewrite (decode_slices _ zero_block _ (j * 64)); [|apply encode_entries_after; [done|len|len]].
      do 8 (destruct j as [|j]; [vm_compute; reflexivity|]). lia.
  - rewrite lookup_seq_ge by lia. rewrite lookup_ge_None_2; [done|]. len.
Qed.

Lemma used_encode_entries chunk :
  Forall entry_fits chunk -> (length chunk <= 8)%nat -> Forall (fun e => de_inode e <> 0) chunk ->
  used_entries (encode_entries zero_block 0 chunk) = chunk.
Proof.
  intros Hc Hlen Hnz. unfold used_entries. rewrite decode_encode_entries by done.
  rewrite filter_app, filter_all by done.
  rewrite filter_none by (apply Forall_replicate; simpl; auto). apply app_nil_r.
Qed.
