(* ===== verification/Partition.v ===== *)
(** * Partition tables (kernel/src/block/partition.rs)

    Reading an MBR or a GPT, writing a fresh one, and a partition presented as a
    block device: it obeys the laws of its disk, so whatever holds of a
    filesystem on a disk holds of one on a partition, and nothing it is asked to
    do reaches a sector outside it. *)

From stdpp Require Import base list gmap numbers list_numbers.
From Stdlib Require Import Lia.
From S2P Require Import Prelude Block FsLayout.

Definition MBR_SIGNATURE : Z := 0xAA55.
Definition MBR_TYPE_PROTECTIVE : Z := 0xEE.
Definition MBR_TYPE_EMPTY : Z := 0x00.

(** "EFI PART" *)
Definition GPT_SIGNATURE : list Z := [69; 70; 73; 32; 80; 65; 82; 84].
Definition GPT_TYPE_UNUSED : list Z := replicate 16 0.

Inductive Scheme : Type := Gpt | Mbr.

Record Partition : Type := {
  p_index : Z;
  p_start : Z;
  p_sectors : Z;
  p_kind : Z;
  p_type_guid : list Z;
  p_scheme : Scheme;
}.

(** [Partition::end], which overflows like any sum. *)
Definition p_end (p : Partition) : result BlockError Z :=
  if p_start p + p_sectors p >? U64_MAX then Panic else Ok (p_start p + p_sectors p).

Definition read_u16 (bytes : list Z) (offset : nat) : Z := le_at bytes offset 2.
Definition read_u32 (bytes : list Z) (offset : nat) : Z := le_at bytes offset 4.
Definition read_u64 (bytes : list Z) (offset : nat) : Z := le_at bytes offset 8.

(** The four MBR entries. *)
Definition read_mbr_entry (sector : list Z) (index : nat) : option Partition :=
  let entry := (446 + index * 16)%nat in
  let kind := le_at sector (entry + 4) 1 in
  if kind =? MBR_TYPE_EMPTY then None
  else if kind =? MBR_TYPE_PROTECTIVE then None
  else
    let start := read_u32 sector (entry + 8) in
    let sectors := read_u32 sector (entry + 12) in
    if sectors =? 0 then None
    else Some {| p_index := Z.of_nat index; p_start := start; p_sectors := sectors; p_kind := kind;
                 p_type_guid := replicate 16 0; p_scheme := Mbr |}.

Definition read_mbr (sector : list Z) : list Partition := omap (read_mbr_entry sector) (seq 0 4).

(** CRC-32, a bit at a time. *)
Definition gpt_crc32 (bytes : list Z) : Z := Z.lxor U32_MAX (fold_left crc_byte bytes U32_MAX).

Definition header_checksum_ok (header : list Z) (header_size : nat) : bool :=
  let stated := read_u32 header 16 in
  let copy := splice (take header_size header) 16 (replicate 4 0) in
  gpt_crc32 copy =? stated.

(** One entry of the array; [last - first + 1] is computed at 64 bits. *)
Definition read_gpt_entry (table : list Z) (entry_size index : nat)
  : result BlockError (option Partition) :=
  let entry := (index * entry_size)%nat in
  let kind_guid := slice table entry 16 in
  if bool_decide (kind_guid = GPT_TYPE_UNUSED) then Ok None
  else
    let first := read_u64 table (entry + 32) in
    let last := read_u64 table (entry + 40) in
    if last <? first then Ok None
    else if last - first + 1 >? U64_MAX then Panic
    else Ok (Some {| p_index := Z.of_nat index; p_start := first; p_sectors := last - first + 1;
                     p_kind := le_at table entry 1; p_type_guid := kind_guid; p_scheme := Gpt |}).

(** The loop over the entry array, from [index]. *)
Fixpoint read_gpt_entries (table : list Z) (entry_size index n : nat) : result BlockError (list Partition) :=
  match n with
  | O => Ok []
  | S n' =>
      if (length table <? index * entry_size + entry_size)%nat then Ok []
      else
        p ← read_gpt_entry table entry_size index;
        rest ← read_gpt_entries table entry_size (S index) n';
        mret (match p with Some p => p :: rest | None => rest end)
  end.

(** 64-bit [rotate_left] *)
Definition rotate_left (v n : Z) : Z :=
  Z.lor (Z.shiftl v n mod 2 ^ 64) (Z.shiftr v (64 - n)).
Definition not_u64 (v : Z) : Z := U64_MAX - v.

(** "panda", UTF-16LE *)
Definition PANDA : list Z := [112; 0; 97; 0; 110; 0; 100; 0; 97; 0].

Definition ENTRY_SIZE : nat := 128.
Definition ENTRY_COUNT : nat := 128.
Definition ENTRY_SECTORS : Z := 32.
Definition HEADER_SIZE : nat := 92.

Definition protective_mbr (total : Z) : list Z :=
  let mbr := replicate 512 0 in
  let mbr := splice mbr (446 + 4) [MBR_TYPE_PROTECTIVE] in
  let mbr := splice mbr (446 + 8) (to_le_bytes 4 1) in
  let claimed := if total - 1 <=? U32_MAX then total - 1 else U32_MAX in
  let mbr := splice mbr (446 + 12) (to_le_bytes 4 claimed) in
  splice mbr 510 (to_le_bytes 2 MBR_SIGNATURE).

Definition gpt_entries (total first_usable last_usable : Z) (kind : list Z) : list Z :=
  let entries := replicate (Z.to_nat (ENTRY_SECTORS * 512)) 0 in
  let entries := splice entries 0 kind in
  let unique := Z.lxor (rotate_left total 17) 0x5061_6E64_6100_0001 in
  let entries := splice entries 16 (to_le_bytes 8 unique) in
  let entries := splice entries 24 (to_le_bytes 8 (not_u64 unique)) in
  let entries := splice entries 32 (to_le_bytes 8 first_usable) in
  let entries := splice entries 40 (to_le_bytes 8 last_usable) in
  splice entries 56 PANDA.

(** The header with its checksum field still zero. *)
Definition gpt_header_fields (at_ other entries_lba first_usable last_usable entries_crc : Z) : list Z :=
  let header := replicate 512 0 in
  let header := splice header 0 GPT_SIGNATURE in
  let header := splice header 8 (to_le_bytes 4 0x0001_0000) in
  let header := splice header 12 (to_le_bytes 4 (Z.of_nat HEADER_SIZE)) in
  let header := splice header 24 (to_le_bytes 8 at_) in
  let header := splice header 32 (to_le_bytes 8 other) in
  let header := splice header 40 (to_le_bytes 8 first_usable) in
  let header := splice header 48 (to_le_bytes 8 last_usable) in
  let disk_guid := Z.lxor (rotate_left first_usable 29) 0x4B65_726E_656C_5061 in
  let header := splice header 56 (to_le_bytes 8 disk_guid) in
  let header := splice header 64 (to_le_bytes 8 (not_u64 disk_guid)) in
  let header := splice header 72 (to_le_bytes 8 entries_lba) in
  let header := splice header 80 (to_le_bytes 4 128) in
  let header := splice header 84 (to_le_bytes 4 128) in
  splice header 88 (to_le_bytes 4 entries_crc).

Definition gpt_header (at_ other entries_lba first_usable last_usable entries_crc : Z) : list Z :=
  let header := gpt_header_fields at_ other entries_lba first_usable last_usable entries_crc in
  splice header 16 (to_le_bytes 4 (gpt_crc32 (take HEADER_SIZE header))).

Section Tables.
Context {D : Type} `{BlockDevice D}.

Definition read_gpt : M D BlockError (option (list Partition)) :=
  header ← dev_read 1 SECTOR_SIZE;
  if bool_decide (slice header 0 8 <> GPT_SIGNATURE) then mret None
  else
    let header_size := read_u32 header 12 in
    if negb ((92 <=? header_size) && (header_size <=? SECTOR_SIZE)) then mret None
    else if negb (header_checksum_ok header (Z.to_nat header_size)) then mret None
    else
      let entry_lba := read_u64 header 72 in
      let entry_count := read_u32 header 80 in
      let entry_size := read_u32 header 84 in
      if (entry_size <? 128) || (entry_count >? 512) then mret None
      else
        let per_sector := SECTOR_SIZE / entry_size in
        if per_sector =? 0 then mret None
        else
          let sectors_needed := div_ceil entry_count per_sector in
          table ← dev_read entry_lba (sectors_needed * SECTOR_SIZE);
          partitions ← lift (read_gpt_entries table (Z.to_nat entry_size) 0 (Z.to_nat entry_count));
          mret (Some partitions).

Definition read : M D BlockError (list Partition) :=
  sector ← dev_read 0 SECTOR_SIZE;
  if negb (read_u16 sector 510 =? MBR_SIGNATURE) then mret []
  else
    gpt ← read_gpt;
    match gpt with
    | Some partitions => mret partitions
    | None => mret (read_mbr sector)
    end.

Definition write_gpt_header (at_ other entries_lba first_usable last_usable entries_crc : Z)
  : M D BlockError unit :=
  dev_write at_ (gpt_header at_ other entries_lba first_usable last_usable entries_crc).

Definition write_single_partition_gpt (kind : list Z) : M D BlockError Partition :=
  d ← get;
  let total := sector_count d in
  guard_err (total <? 64) OutOfRange ;;
  let first_usable := 2 + ENTRY_SECTORS in
  let last_usable := total - ENTRY_SECTORS - 2 in
  guard_err (last_usable <=? first_usable) OutOfRange ;;
  dev_write 0 (protective_mbr total) ;;
  let entries := gpt_entries total first_usable last_usable kind in
  let entries_crc := gpt_crc32 (take (ENTRY_SIZE * ENTRY_COUNT) entries) in
  dev_write 2 entries ;;
  let backup_entries_lba := total - 1 - ENTRY_SECTORS in
  dev_write backup_entries_lba entries ;;
  write_gpt_header 1 (total - 1) 2 first_usable last_usable entries_crc ;;
  write_gpt_header (total - 1) 1 backup_entries_lba first_usable last_usable entries_crc ;;
  dev_flush ;;
  mret {| p_index := 0; p_start := first_usable; p_sectors := last_usable - first_usable + 1;
          p_kind := le_at kind 0 1; p_type_guid := kind; p_scheme := Gpt |}.

End Tables.

(** ** A partition as a device *)

Record PartitionDevice (D : Type) : Type := {
  pd_disk : D;
  pd_start : Z;
  pd_sectors : Z;
}.
Arguments pd_disk {D} _.
Arguments pd_start {D} _.
Arguments pd_sectors {D} _.

Section Device.
Context {D : Type} `{BlockDevice D}.

(** [PartitionDevice::new] *)
Definition new_partition (disk : D) (p : Partition) : result BlockError (PartitionDevice D) :=
  end_ ← ok_or OutOfRange (checked_add U64_MAX (p_start p) (p_sectors p));
  if end_ >? sector_count disk then Err OutOfRange
  else Ok {| pd_disk := disk; pd_start := p_start p; pd_sectors := p_sectors p |}.

(** [map]: where on the disk a request goes, if it may go anywhere. *)
Definition map_request (p : PartitionDevice D) (lba len : Z) : result BlockError Z :=
  validate (pd_sectors p) lba len ;;
  if pd_start p + lba >? U64_MAX then Panic else Ok (pd_start p + lba).

Definition with_disk (p : PartitionDevice D) (disk : D) : PartitionDevice D :=
  {| pd_disk := disk; pd_start := pd_start p; pd_sectors := pd_sectors p |}.

(** Pass a request on to the disk. *)
Definition on_disk_at {A} (lba len : Z) (request : Z -> M D BlockError A) : M (PartitionDevice D) BlockError A :=
  fun p => match map_request p lba len with
           | Ok absolute => let '(r, disk) := request absolute (pd_disk p) in (r, with_disk p disk)
           | Err e => (Err e, p)
           | Panic => (Panic, p)
           end.

#[global] Instance partition_device : BlockDevice (PartitionDevice D) := {
  sector_count := pd_sectors;
  dev_read := fun lba len => on_disk_at lba len (fun absolute => dev_read absolute len);
  dev_write := fun lba data => on_disk_at lba (Z.of_nat (length data)) (fun absolute => dev_write absolute data);
  dev_flush := fun p => let '(r, disk) := dev_flush (pd_disk p) in (r, with_disk p disk);
  dev_write_now := fun lba data => on_disk_at lba (Z.of_nat (length data)) (fun absolute => dev_write_now absolute data);
}.

End Device.

Section Laws.
Context {D : Type} `{BlockLaws D}.
Implicit Types p : PartitionDevice D.

Definition partition_ok p : Prop :=
  dev_ok (pd_disk p) /\ 0 <= pd_start p /\ 0 <= pd_sectors p /\
  pd_start p + pd_sectors p <= sector_count (pd_disk p).

Lemma map_request_spec p lba len r :
  partition_ok p -> 0 <= lba -> 0 <= len -> map_request p lba len = r ->
  match r with
  | Ok absolute => exists n, absolute = pd_start p + lba /\ len = n * 512 /\ 0 < n /\ lba + n <= pd_sectors p
  | Err _ => True
  | Panic => False
  end.
Proof.
  intros (Hok & Hs & Hn & Hend) Hlba Hlen <-. unfold map_request.
  pose proof (count_bound _ Hok) as Hc.
  pose proof (validate_spec (pd_sectors p) lba len _ Hlba Hlen ltac:(lia) eq_refl) as Hv.
  destruct (validate (pd_sectors p) lba len) as [n|e|]; cbn [mbind result_bind]; [|done|done].
  destruct Hv as (Hl & Hpos & Hin). unfold SECTOR_SIZE in Hl. unfold U64_MAX in *.
  destruct (_ >? _) eqn:Ho; [lia|]. by exists n.
Qed.

Lemma seqZ_shift a lba n : seqZ (a + lba) n = map (Z.add a) (seqZ lba n).
Proof.
  change (map (Z.add a) (seqZ lba n)) with (Z.add a <$> seqZ lba n). unfold seqZ.
  rewrite <-list_fmap_compose. apply list_fmap_ext. intros i x _. simpl. lia.
Qed.

#[global] Instance partition_laws : BlockLaws (PartitionDevice D).
Proof.
  refine {| versions := fun p s => versions (pd_disk p) (pd_start p + s); dev_ok := partition_ok |}.
  - intros p (Hok & ? & ? & ?). pose proof (count_bound _ Hok). simpl. lia.
  - intros p s (Hok & ? & ? & ?) Hs. simpl in Hs. apply versions_sector; [done|lia].
  - intros p lba len r p' Hp Hlba Hlen. simpl. unfold on_disk_at.
    pose proof (map_request_spec p lba len _ Hp Hlba Hlen eq_refl) as Hm.
    destruct (map_request p lba len) as [absolute|e|]; [|intros [= <- <-]; done|done].
    destruct Hm as (n & -> & -> & Hn & Hin). destruct Hp as (Hok & Hs & Hns & Hend).
    destruct (dev_read _ _ (pd_disk p)) as [r' d'] eqn:Hr. intros [= <- <-].
    apply read_law in Hr as (Hok' & Hc & Hv & Hr); [|done|lia|lia].
    split; [by split; [done|]; simpl; rewrite Hc|]. split; [done|]. split; [done|].
    destruct r' as [data|e|]; [|done|done]. destruct Hr as (n' & Hn' & Hl & _ & ->).
    assert (n' = n) as -> by lia. exists n. repeat (split; [done|]).
    rewrite seqZ_shift, map_map. done.
  - intros p lba data r p' Hp Hlba Hb. simpl. unfold on_disk_at.
    pose proof (map_request_spec p lba (Z.of_nat (length data)) _ Hp Hlba ltac:(lia) eq_refl) as Hm.
    destruct (map_request p lba _) as [absolute|e|]; [|intros [= <- <-]; auto|done].
    destruct Hm as (n & -> & Hl & Hn & Hin). destruct Hp as (Hok & Hs & Hns & Hend).
    destruct (dev_write _ _ (pd_disk p)) as [r' d'] eqn:Hw. intros [= <- <-].
    apply write_law in Hw as (Hok' & Hc & Hout & Hr); [|done|lia|done].
    split; [by split; [done|]; simpl; rewrite Hc|]. split; [done|]. simpl. rewrite Hl, Z.div_mul in * by lia.
    split; [intros s Hs'; apply Hout; lia|].
    assert (Hshift : forall s, pd_start p + s - (pd_start p + lba) = s - lba) by (intros; lia).
    destruct r' as [[]|e|]; [|intros s Hs'; rewrite <-Hshift; apply Hr; lia|done].
    destruct Hr as (n' & _ & Hl' & _ & Hv). assert (n' = n) as -> by lia. exists n.
    repeat (split; [done|]). intros s Hs'. rewrite <-Hshift. apply Hv. lia.
  - intros p r p' (Hok & Hs & Hns & Hend). simpl. destruct (dev_flush (pd_disk p)) as [r' d'] eqn:Hf.
    intros [= <- <-]. apply flush_law in Hf as (Hok' & Hc & Hr); [|done].
    split; [by split; [done|]; simpl; rewrite Hc|]. split; [done|]. destruct r'; simpl; auto.
Defined.

(** One request leaves every sector outside the partition as it was. *)
Lemma request_isolated p lba len data s :
  partition_ok p -> 0 <= lba -> 0 <= len -> Forall is_byte data ->
  ~ (pd_start p <= s < pd_start p + pd_sectors p) ->
  versions (pd_disk (snd (dev_read lba len p))) s = versions (pd_disk p) s /\
  versions (pd_disk (snd (dev_write lba data p))) s = versions (pd_disk p) s /\
  image (pd_disk (snd (dev_flush p))) s = image (pd_disk p) s.
Proof.
  intros Hp Hlba Hlen Hb Hs. pose proof Hp as (Hok & Hst & Hns & Hend). simpl. split; [|split].
  - unfold on_disk_at. pose proof (map_request_spec p lba len _ Hp Hlba Hlen eq_refl) as Hm.
    destruct (map_request p lba len) as [absolute|e|]; [|done|done]. destruct Hm as (n & -> & -> & Hn & Hin).
    destruct (dev_read _ _ (pd_disk p)) as [r' d'] eqn:Hr. apply read_law in Hr as (_ & _ & Hv & _); [|done|lia|lia].
    apply Hv.
  - unfold on_disk_at. pose proof (map_request_spec p lba (Z.of_nat (length data)) _ Hp Hlba ltac:(lia) eq_refl) as Hm.
    destruct (map_request p lba _) as [absolute|e|]; [|done|done]. destruct Hm as (n & -> & Hl & Hn & Hin).
    destruct (dev_write _ _ (pd_disk p)) as [r' d'] eqn:Hw. apply write_law in Hw as (_ & _ & Hout & _); [|done|lia|done].
    simpl. apply Hout. rewrite Hl, Z.div_mul by lia. lia.
  - destruct (dev_flush (pd_disk p)) as [r' d'] eqn:Hf. apply flush_law in Hf as (_ & _ & Hr); [|done].
    unfold image. simpl. destruct r' as [[]|e|]; [| |done]; by rewrite Hr.
Qed.

(** What [new] accepts lies on the disk. *)
Lemma new_partition_ok disk part p :
  dev_ok disk -> 0 <= p_start part -> 0 <= p_sectors part ->
  new_partition disk part = Ok p -> partition_ok p.
Proof.
  intros Hok Hs Hn. unfold new_partition, checked_add. destruct (_ <=? _); [|done]. simpl.
  destruct (_ >? _) eqn:Hc; [done|]. intros [= <-]. split; [done|]. simpl. lia.
Qed.

End Laws.

(** ** What reaches the disk *)

(** A request as it arrives at a disk: the first sector, and the bytes it is for. *)
Inductive Reach : Type :=
| ReadAt (lba len : Z)
| WriteAt (lba len : Z)
| WriteNowAt (lba len : Z)
| Flushed.

(** A disk with a record of every request that reached it. *)
Record Recorded (D : Type) : Type := { rec_disk : D; reached : list Reach }.
Arguments rec_disk {D} _.
Arguments reached {D} _.

(** What may be asked of a device. *)
Inductive Asked : Type :=
| AskRead (lba len : Z)
| AskWrite (lba : Z) (data : list Z)
| AskWriteNow (lba : Z) (data : list Z)
| AskFlush.

Definition asked_ok (q : Asked) : Prop :=
  match q with
  | AskRead lba len => 0 <= lba /\ 0 <= len
  | AskWrite lba data | AskWriteNow lba data => 0 <= lba /\ Forall is_byte data
  | AskFlush => True
  end.

(** The device after a request, however it ended. *)
Definition ask {D} `{BlockDevice D} (q : Asked) (d : D) : D :=
  match q with
  | AskRead lba len => snd (dev_read lba len d)
  | AskWrite lba data => snd (dev_write lba data d)
  | AskWriteNow lba data => snd (dev_write_now lba data d)
  | AskFlush => snd (dev_flush d)
  end.

Definition ask_all {D} `{BlockDevice D} (qs : list Asked) (d : D) : D := fold_left (fun d q => ask q d) qs d.

Section Recorder.
Context {D : Type} `{BlockDevice D}.

Definition noting {A} (r : Reach) (request : M D BlockError A) : M (Recorded D) BlockError A :=
  fun d => let '(x, disk) := request (rec_disk d) in (x, {| rec_disk := disk; reached := reached d ++ [r] |}).

#[global] Instance recorded_device : BlockDevice (Recorded D) := {
  sector_count := fun d => sector_count (rec_disk d);
  dev_read := fun lba len => noting (ReadAt lba len) (dev_read lba len);
  dev_write := fun lba data => noting (WriteAt lba (Z.of_nat (length data))) (dev_write lba data);
  dev_flush := noting Flushed dev_flush;
  dev_write_now := fun lba data => noting (WriteNowAt lba (Z.of_nat (length data))) (dev_write_now lba data);
}.

(** Whole sectors, all of them between the partition's first and its last. *)
Definition within (first count : Z) (r : Reach) : Prop :=
  match r with
  | ReadAt lba len | WriteAt lba len | WriteNowAt lba len =>
      exists n, 0 < n /\ len = n * 512 /\ first <= lba /\ lba + n <= first + count
  | Flushed => True
  end.

(** The partition stays where it is. *)
Definition placed (first count : Z) (p : PartitionDevice (Recorded D)) : Prop :=
  pd_start p = first /\ pd_sectors p = count.

Lemma map_request_within first count p lba len absolute :
  placed first count p -> 0 <= first -> 0 <= count -> first + count <= U64_MAX -> 0 <= lba -> 0 <= len ->
  map_request p lba len = Ok absolute ->
  exists n, 0 < n /\ len = n * 512 /\ first <= absolute /\ absolute + n <= first + count.
Proof.
  intros [<- <-] Hf Hc Hend Hlba Hlen. unfold map_request.
  pose proof (validate_spec (pd_sectors p) lba len _ Hlba Hlen ltac:(lia) eq_refl) as Hv.
  destruct (validate (pd_sectors p) lba len) as [n|e|]; cbn [mbind result_bind]; [|done|done].
  destruct Hv as (Hl & Hpos & Hin). destruct (_ >? _); [done|]. intros [= <-]. exists n. unfold SECTOR_SIZE in Hl. lia.
Qed.

Lemma ask_within first count p q :
  placed first count p -> 0 <= first -> 0 <= count -> first + count <= U64_MAX -> asked_ok q ->
  placed first count (ask q p) /\
  exists new, reached (pd_disk (ask q p)) = reached (pd_disk p) ++ new /\ Forall (within first count) new.
Proof.
  intros Hp Hf Hc Hend Hq.
  assert (Hnone : exists new, reached (pd_disk p) = reached (pd_disk p) ++ new /\ Forall (within first count) new)
    by (exists []; by rewrite app_nil_r).
  assert (Hon : forall A lba len (req : Z -> M D BlockError A) (r : Z -> Reach), 0 <= lba -> 0 <= len ->
    (forall a n, 0 < n -> len = n * 512 -> first <= a -> a + n <= first + count -> within first count (r a)) ->
    let p' := snd (on_disk_at lba len (fun a => noting (r a) (req a)) p) in
    placed first count p' /\ exists new, reached (pd_disk p') = reached (pd_disk p) ++ new /\ Forall (within first count) new).
  { intros A lba len req r Hlba Hlen Hr. unfold on_disk_at.
    destruct (map_request p lba len) as [a|e|] eqn:Hm; [|done|done].
    destruct (map_request_within first count p lba len a) as (n & Hn & Hl & Ha & Hin); [done..|].
    unfold noting. destruct (req a (rec_disk (pd_disk p))) as [x d]. split; [done|].
    exists [r a]. split; [done|]. apply Forall_singleton. eauto. }
  destruct q as [lba len|lba data|lba data|]; cbn [ask asked_ok] in *.
  - apply (Hon _ lba len (fun a => dev_read a len) (fun a => ReadAt a len)); [lia|lia|]. intros a n ? ? ? ?. by exists n.
  - apply (Hon _ lba (Z.of_nat (length data)) (fun a => dev_write a data) (fun a => WriteAt a (Z.of_nat (length data)))); [lia|lia|].
    intros a n ? ? ? ?. by exists n.
  - apply (Hon _ lba (Z.of_nat (length data)) (fun a => dev_write_now a data) (fun a => WriteNowAt a (Z.of_nat (length data)))); [lia|lia|].
    intros a n ? ? ? ?. by exists n.
  - simpl. unfold noting. destruct (dev_flush (rec_disk (pd_disk p))) as [x d]. split; [done|].
    exists [Flushed]. split; [done|]. by apply Forall_singleton.
Qed.

Lemma ask_all_within first count qs : 0 <= first -> 0 <= count -> first + count <= U64_MAX -> Forall asked_ok qs ->
  forall p, placed first count p ->
  exists new, reached (pd_disk (ask_all qs p)) = reached (pd_disk p) ++ new /\ Forall (within first count) new.
Proof.
  intros Hf Hc Hend. induction 1 as [|q qs Hq Hqs IH]; intros p Hp; [exists []; by rewrite app_nil_r|].
  destruct (ask_within first count p q) as (Hp1 & new1 & Hr1 & Hw1); [done..|].
  destruct (IH (ask q p) Hp1) as (new2 & Hr2 & Hw2). exists (new1 ++ new2).
  cbn [ask_all fold_left]. unfold ask_all in Hr2. rewrite Hr2, Hr1, app_assoc. split; [done|]. by apply Forall_app.
Qed.

End Recorder.

Section Isolation.
Context {D : Type} `{BlockLaws D}.

#[global] Instance recorded_laws : BlockLaws (Recorded D).
Proof.
  refine {| versions := fun d s => versions (rec_disk d) s; dev_ok := fun d => dev_ok (rec_disk d) |}.
  - intros d. apply (count_bound (rec_disk d)).
  - intros d s. apply (versions_sector (rec_disk d)).
  - intros d lba len r d' Hok Hlba Hlen. simpl. unfold noting. destruct (dev_read lba len (rec_disk d)) as [x e] eqn:Hr.
    intros [= <- <-]. by apply (read_law (rec_disk d) lba len x e) in Hr.
  - intros d lba data r d' Hok Hlba Hb. simpl. unfold noting. destruct (dev_write lba data (rec_disk d)) as [x e] eqn:Hr.
    intros [= <- <-]. by apply (write_law (rec_disk d) lba data x e) in Hr.
  - intros d r d' Hok. simpl. unfold noting. destruct (dev_flush (rec_disk d)) as [x e] eqn:Hr.
    intros [= <- <-]. by apply (flush_law (rec_disk d) x e) in Hr.
Defined.

Definition not_now (q : Asked) : Prop := match q with AskWriteNow _ _ => False | _ => True end.

Lemma ask_kept (p : PartitionDevice (Recorded D)) q : partition_ok p -> asked_ok q -> not_now q ->
  partition_ok (ask q p) /\ pd_start (ask q p) = pd_start p /\ pd_sectors (ask q p) = pd_sectors p /\
  forall s, ~ (pd_start p <= s < pd_start p + pd_sectors p) -> image (pd_disk (ask q p)) s = image (pd_disk p) s.
Proof.
  intros Hp Hq Hn.
  assert (Hplace : pd_start (ask q p) = pd_start p /\ pd_sectors (ask q p) = pd_sectors p).
  { destruct q; simpl; unfold on_disk_at, noting; repeat case_match; done. }
  split; [|split; [apply Hplace|split; [apply Hplace|]]].
  - destruct q as [lba len|lba data|lba data|]; cbn [ask asked_ok] in *; [| |done|].
    + destruct (dev_read lba len p) as [r p'] eqn:Hr. by apply (@read_law _ _ partition_laws p lba len r p' Hp) in Hr as [? _]; [|lia..].
    + destruct (dev_write lba data p) as [r p'] eqn:Hr. by apply (@write_law _ _ partition_laws p lba data r p' Hp) in Hr as [? _]; [|apply Hq..].
    + destruct (dev_flush p) as [r p'] eqn:Hr. by apply (@flush_law _ _ partition_laws p r p' Hp) in Hr as [? _].
  - intros s Hs. destruct q as [lba len|lba data|lba data|]; cbn [ask asked_ok] in *; [| |done|].
    + destruct (request_isolated p lba len [] s Hp) as (Hv & _); [lia|lia|done|done|]. unfold image. by rewrite Hv.
    + destruct (request_isolated p lba 0 data s Hp) as (_ & Hv & _); [lia|lia|apply Hq|done|]. unfold image. by rewrite Hv.
    + by destruct (request_isolated p 0 0 [] s Hp) as (_ & _ & Hv); [lia|lia|done|done|].
Qed.

(** C3: nothing asked of a partition reaches a sector outside it.  Whatever is read,
    written, written without waiting or flushed, in whatever order and however it ends,
    each request that arrives at the disk is for whole sectors of the partition; so on a
    lawful disk every other sector keeps its contents (the laws say nothing of a write
    without waiting, which is left out there). *)
Theorem partition_isolated (p : PartitionDevice (Recorded D)) qs :
  partition_ok p -> Forall asked_ok qs ->
  (exists new, reached (pd_disk (ask_all qs p)) = reached (pd_disk p) ++ new /\
     Forall (within (pd_start p) (pd_sectors p)) new) /\
  (Forall not_now qs -> forall s, ~ (pd_start p <= s < pd_start p + pd_sectors p) ->
     image (rec_disk (pd_disk (ask_all qs p))) s = image (rec_disk (pd_disk p)) s).
Proof.
  intros Hp Hqs. pose proof Hp as (Hok & Hs & Hn & Hend). pose proof (count_bound _ Hok) as Hc. split.
  - apply ask_all_within; [lia|lia|lia|done|done].
  - clear Hok Hs Hn Hend Hc. intros Hnn. revert p Hp.
    induction Hqs as [|q qs Hq Hqs IH]; intros p Hp s Hs; [done|]. apply Forall_cons in Hnn as [Hn Hnn].
    destruct (ask_kept p q Hp Hq Hn) as (Hp1 & Hst & Hse & Hkeep). transitivity (image (rec_disk (pd_disk (ask q p))) s).
    + apply (IH Hnn (ask q p) Hp1 s). by rewrite Hst, Hse.
    + exact (Hkeep s Hs).
Qed.

End Isolation.

(** ** A table that was written reads back *)

#[local] Opaque gpt_crc32.

Lemma gpt_crc32_u32 l : Forall is_byte l -> u32 (gpt_crc32 l).
Proof. exact (crc32_u32 l). Qed.

Lemma slice_replicate {A} (x : A) n a k : (a + k <= n)%nat -> slice (replicate n x) a k = replicate k x.
Proof. intros Hk. unfold slice. rewrite drop_replicate, take_replicate. f_equal. lia. Qed.

Lemma le_at_splice block a n v :
  0 <= v < 256 ^ Z.of_nat n -> (a + n <= length block)%nat ->
  le_at (splice block a (to_le_bytes n v)) a n = v.
Proof. intros Hv Hl. apply le_at_bytes; [done|]. apply slice_splice_eq; len. Qed.

Lemma protective_mbr_sector total : is_sector (protective_mbr total).
Proof.
  unfold protective_mbr. cbv zeta. split; [rewrite !length_splice; apply length_replicate|].
  repeat apply splice_bytes; try apply to_le_bytes_bytes.
  - apply Forall_replicate. unfold is_byte. lia.
  - apply Forall_singleton. unfold is_byte, MBR_TYPE_PROTECTIVE. lia.
Qed.

Lemma protective_mbr_signature total : read_u16 (protective_mbr total) 510 = MBR_SIGNATURE.
Proof.
  unfold read_u16, protective_mbr. cbv zeta. apply le_at_splice; [unfold MBR_SIGNATURE; simpl; lia|].
  rewrite !length_splice, length_replicate. lia.
Qed.

(** Filling in the checksum leaves every other field. *)
Lemma checksum_elsewhere fields c a n :
  length fields = 512%nat -> ~ (16 < a + n /\ a < 20)%nat -> (a + n <= 512)%nat ->
  slice (splice fields 16 (to_le_bytes 4 c)) a n = slice fields a n.
Proof.
  intros Hl Ha Hn. destruct (decide (a + n <= 16)%nat).
  - apply slice_splice_before; rewrite ?length_to_le_bytes, ?Hl; lia.
  - apply slice_splice_after; rewrite ?length_to_le_bytes, ?Hl; lia.
Qed.

(** Zeroing it again gives back the bytes the checksum was taken over. *)
Lemma checksum_zeroed fields c :
  length fields = 512%nat -> slice fields 16 4 = replicate 4 0 ->
  splice (take 92 (splice fields 16 (to_le_bytes 4 c))) 16 (replicate 4 0) = take 92 fields.
Proof.
  intros Hl Hz. pose proof (length_to_le_bytes 4 c) as Hc. revert Hc. generalize (to_le_bytes 4 c) as w.
  intros w Hw. unfold splice. rewrite length_take, !length_app, !length_take, !length_drop, length_replicate.
  rewrite Hl, Hw. rewrite (take_ge w) by lia. rewrite (take_ge (replicate 4 0)) by (simpl; lia).
  replace (take 16 (take 92 (take 16 fields ++ w ++ drop (16 + 4) fields))) with (take 16 fields).
  2:{ rewrite take_take, Nat.min_l by lia. rewrite take_app_le by (rewrite length_take; lia).
      by rewrite take_take. }
  replace (drop (16 + 4) (take 92 (take 16 fields ++ w ++ drop (16 + 4) fields))) with (slice fields 20 72).
  2:{ rewrite skipn_firstn_comm. rewrite app_assoc, drop_app_ge by (rewrite length_app, length_take; lia).
      rewrite length_app, length_take, Hw, Nat.min_l by lia. by rewrite drop_0. }
  rewrite <-Hz. unfold slice.
  rewrite <-(take_drop 16 (take 92 fields)), take_take, Nat.min_l by lia. f_equal.
  rewrite skipn_firstn_comm. rewrite <-(take_drop 4 (take (92 - 16) (drop 16 fields))).
  rewrite take_take, skipn_firstn_comm, drop_drop. done.
Qed.

Lemma gpt_fields_sector at_ other entries_lba first_usable last_usable entries_crc :
  is_sector (gpt_header_fields at_ other entries_lba first_usable last_usable entries_crc).
Proof.
  unfold gpt_header_fields. cbv zeta. split; [rewrite !length_splice; apply length_replicate|].
  repeat apply splice_bytes; try apply to_le_bytes_bytes.
  - apply Forall_replicate. unfold is_byte. lia.
  - repeat constructor; unfold is_byte; lia.
Qed.

Lemma gpt_header_sector at_ other entries_lba first_usable last_usable entries_crc :
  is_sector (gpt_header at_ other entries_lba first_usable last_usable entries_crc).
Proof.
  unfold gpt_header. cbv zeta.
  destruct (gpt_fields_sector at_ other entries_lba first_usable last_usable entries_crc) as [Hl Hb].
  split; [by rewrite length_splice|]. apply splice_bytes; [done|apply to_le_bytes_bytes].
Qed.

(** The header as [read_gpt] sees it. *)
Lemma gpt_header_facts at_ other entries_lba first_usable last_usable entries_crc :
  u64 entries_lba ->
  let header := gpt_header at_ other entries_lba first_usable last_usable entries_crc in
  slice header 0 8 = GPT_SIGNATURE /\ read_u32 header 12 = 92 /\ read_u64 header 72 = entries_lba /\
  read_u32 header 80 = 128 /\ read_u32 header 84 = 128 /\ header_checksum_ok header 92 = true.
Proof.
  intros Hlba header. unfold header, gpt_header. cbv zeta.
  destruct (gpt_fields_sector at_ other entries_lba first_usable last_usable entries_crc) as [Hl Hb].
  remember (gpt_header_fields at_ other entries_lba first_usable last_usable entries_crc) as fields eqn:Hf.
  assert (Hparts : slice fields 0 8 = GPT_SIGNATURE /\ slice fields 12 4 = to_le_bytes 4 92 /\
    slice fields 72 8 = to_le_bytes 8 entries_lba /\ slice fields 80 4 = to_le_bytes 4 128 /\
    slice fields 84 4 = to_le_bytes 4 128 /\ slice fields 16 4 = replicate 4 0).
  { rewrite Hf. clear Hf Hl Hb. unfold gpt_header_fields. cbv zeta.
    unfold GPT_SIGNATURE, HEADER_SIZE. change (Z.of_nat 92) with 92.
    repeat split; slices; reflexivity. }
  clear Hf. destruct Hparts as (H1 & H2 & H3 & H4 & H5 & H6). set (c := gpt_crc32 _).
  assert (Hc : u32 c) by (apply gpt_crc32_u32; by apply Forall_take). unfold u32, u64 in *.
  split; [by rewrite checksum_elsewhere by (done || lia)|].
  split; [|split; [|split; [|split]]];
    try (unfold read_u32, read_u64, le_at; rewrite checksum_elsewhere by (done || lia);
         rewrite ?H2, ?H3, ?H4, ?H5; apply from_to_le_bytes; simpl; lia).
  unfold header_checksum_ok, read_u32. rewrite le_at_splice by (simpl; lia).
  rewrite checksum_zeroed by done. apply Z.eqb_refl.
Qed.

(** The entry array as [read_gpt] sees it. *)
Lemma gpt_entries_facts total first last kind :
  length kind = 16%nat ->
  let entries := gpt_entries total first last kind in
  Z.of_nat (length entries) = 16384 /\ (Forall is_byte kind -> Forall is_byte entries) /\
  slice entries 0 16 = kind /\ slice entries 0 1 = take 1 kind /\
  slice entries 32 8 = to_le_bytes 8 first /\ slice entries 40 8 = to_le_bytes 8 last /\
  forall a, (128 <= a)%nat -> (Z.of_nat a + 16 <= 16384) -> slice entries a 16 = replicate 16 0.
Proof.
  intros Hk entries. unfold entries, gpt_entries. cbv zeta.
  assert (HN : Z.of_nat (Z.to_nat (ENTRY_SECTORS * 512)) = 16384) by (unfold ENTRY_SECTORS; lia).
  revert HN. generalize (Z.to_nat (ENTRY_SECTORS * 512)) as N. intros N HN.
  generalize (Z.lxor (rotate_left total 17) 5791660867434414081) as unique. intros unique.
  assert (Hp : length PANDA = 10%nat) by reflexivity.
  assert (Hpb : Forall is_byte PANDA) by (repeat constructor; unfold is_byte; lia).
  revert Hp Hpb. generalize PANDA as name. intros name Hp Hpb.
  assert (HN' : (200 <= N)%nat) by lia.
  split; [rewrite !length_splice, length_replicate; done|].
  split; [intros Hb; repeat apply splice_bytes; auto using to_le_bytes_bytes;
          apply Forall_replicate; unfold is_byte; lia|].
  split; [slices; done|]. split; [|split; [slices; done|split; [slices; done|]]].
  - rewrite !slice_splice_before by (len; lia). unfold slice, splice.
    rewrite drop_0, take_0, app_nil_l, length_replicate, Nat.sub_0_r.
    rewrite take_app_le by (rewrite length_take; lia). rewrite take_take. f_equal. lia.
  - intros a Ha Hend. slices. apply slice_replicate. lia.
Qed.

Lemma read_gpt_entries_unused table size n : forall index,
  (forall i, (index <= i < index + n)%nat -> slice table (i * size) 16 = GPT_TYPE_UNUSED) ->
  read_gpt_entries table size index n = Ok [].
Proof.
  induction n as [|n IH]; intros index Hi; [done|]. cbn [read_gpt_entries].
  destruct (_ <? _)%nat; [done|]. unfold read_gpt_entry. rewrite Hi, bool_decide_true by (done || lia).
  cbn [mbind result_bind]. rewrite IH; [done|]. intros i Hi'. apply Hi. lia.
Qed.

Lemma read_gpt_entries_step table size index n :
  read_gpt_entries table size index (S n) =
  if (length table <? index * size + size)%nat then Ok []
  else p ← read_gpt_entry table size index; rest ← read_gpt_entries table size (S index) n;
       mret (match p with Some p => p :: rest | None => rest end).
Proof. reflexivity. Qed.

Definition written_partition (total : Z) (kind : list Z) : Partition :=
  {| p_index := 0; p_start := 34; p_sectors := (total - 34) - 34 + 1; p_kind := le_at kind 0 1;
     p_type_guid := kind; p_scheme := Gpt |}.

Lemma gpt_entries_read total kind :
  length kind = 16%nat -> kind <> GPT_TYPE_UNUSED -> 68 < total <= U64_MAX ->
  read_gpt_entries (gpt_entries total 34 (total - 34) kind) 128 0 128 = Ok [written_partition total kind].
Proof.
  intros Hk Hne Ht. destruct (gpt_entries_facts total 34 (total - 34) kind Hk) as (Hl & _ & H0 & H1 & H32 & H40 & Hz).
  revert Hl H0 H1 H32 H40 Hz. generalize (gpt_entries total 34 (total - 34) kind) as entries.
  intros entries Hl H0 H1 H32 H40 Hz. unfold U64_MAX in Ht.
  rewrite (read_gpt_entries_step entries 128 0 127).
  destruct (_ <? _)%nat eqn:Hc; [apply Nat.ltb_lt in Hc; lia|]. clear Hc.
  rewrite read_gpt_entries_unused; [|intros i Hi; apply Hz; lia].
  unfold read_gpt_entry, read_u64, le_at. simpl Nat.mul. simpl Nat.add. rewrite H0, H1, H32, H40.
  rewrite bool_decide_false by done. rewrite !from_to_le_bytes by (simpl; lia).
  destruct (total - 34 <? 34) eqn:Hc; [lia|]. unfold U64_MAX. destruct (_ >? _) eqn:Hc'; [lia|].
  cbn [mbind result_bind]. unfold written_partition, le_at, slice. by rewrite drop_0.
Qed.

Section RoundTrip.
Context {D : Type} `{BlockLaws D}.
Implicit Types d : D.

(** What is on a disk that carries the table. *)
Definition carries d (kind : list Z) : Prop :=
  let total := sector_count d in
  dev_ok d /\ 68 < total /\ image d 0 = protective_mbr total /\
  (exists crc, image d 1 = gpt_header 1 (total - 1) 2 34 (total - 34) crc) /\
  forall s, 2 <= s < 34 -> image d s = sector_of (gpt_entries total 34 (total - 34) kind) (s - 2).

Lemma carries_same d d' kind : same_device d d' -> carries d kind -> carries d' kind.
Proof.
  intros Hs (Hok & Ht & Hm & (crc & Hh) & He). unfold carries.
  pose proof Hs as (Hok' & Hc & _). rewrite Hc, !(image_same_device _ _ _ Hs). split; [done|]. split; [done|].
  split; [done|]. split; [by exists crc|]. intros s Hs'. rewrite (image_same_device _ _ _ Hs). by apply He.
Qed.

Lemma wp_read_sector d lba (Q : result BlockError (list Z) -> D -> Prop) :
  dev_ok d -> 0 <= lba -> (forall d', same_device d d' -> Q (Ok (image d lba)) d') ->
  (forall e d', same_device d d' -> Q (Err e) d') -> wp (dev_read lba SECTOR_SIZE) Q d.
Proof.
  intros Hok Hl HQ Herr. apply (wp_dev_read d lba 1); [done|done|lia| |done].
  intros d' Hs. change (seqZ lba 1) with [0 + lba]. rewrite Z.add_0_l. cbn [map concat]. rewrite app_nil_r. by apply HQ.
Qed.

Lemma wp_read_table d kind :
  length kind = 16%nat -> kind <> GPT_TYPE_UNUSED -> carries d kind ->
  wp read (fun r d' => same_device d d' /\
    (r = Ok [written_partition (sector_count d) kind] \/ exists e, r = Err e)) d.
Proof.
  intros Hk Hne Hcar. pose proof Hcar as (Hok & Ht & Hm & _). pose proof (count_bound _ Hok) as Hcb.
  unfold read. apply wp_bind, wp_read_sector; [done|lia| |eauto 6]. intros d1 Hs1.
  rewrite Hm, protective_mbr_signature. cbn [negb Z.eqb]. rewrite Z.eqb_refl. cbn [negb].
  destruct (carries_same _ _ _ Hs1 Hcar) as (Hok1 & _ & _ & (crc & Hh) & He).
  pose proof (proj1 (proj2 Hs1)) as Hc1. rewrite Hc1 in *.
  unfold read_gpt. apply wp_bind, wp_bind, wp_read_sector; [done|lia| |].
  2:{ intros e d2 Hs2. split; [by eapply same_device_trans|]. right. by exists e. }
  intros d2 Hs2. rewrite Hh. assert (H2 : u64 2) by (unfold u64; lia).
  destruct (gpt_header_facts 1 (sector_count d - 1) 2 34 (sector_count d - 34) crc H2) as (Hsig & Hsz & Hlba & Hcnt & Hes & Hck).
  rewrite Hsig, bool_decide_false by (intros Hx; by apply Hx). rewrite Hsz. unfold SECTOR_SIZE. cbn [Z.leb Z.compare negb andb].
  cbv zeta. change (Z.to_nat 92) with 92%nat. rewrite Hck, Hlba, Hcnt, Hes.
  change (negb true) with false. cbv iota.
  change ((128 <? 128) || (128 >? 512)) with false. cbv iota. change (512 / 128) with 4.
  change (4 =? 0) with false. cbv iota. change (div_ceil 128 4) with 32.
  apply wp_bind, wp_dev_read; [apply Hs2|lia|lia| |].
  2:{ intros e d3 Hs3. split; [by do 2 (eapply same_device_trans; [done|])|]. right. by exists e. }
  intros d3 Hs3. apply wp_bind, wp_lift.
  assert (Htab : concat (map (image d2) (seqZ 2 32)) = gpt_entries (sector_count d) 34 (sector_count d - 34) kind).
  { destruct (gpt_entries_facts (sector_count d) 34 (sector_count d - 34) kind Hk) as (Hl & _).
    rewrite <-(sectors_of_buffer (gpt_entries (sector_count d) 34 (sector_count d - 34) kind) 2 32) by (done || lia).
    f_equal. apply map_ext_in. intros s Hs%list_elem_of_In%elem_of_seqZ.
    rewrite (image_same_device _ _ _ Hs2). apply He. lia. }
  rewrite Htab. change (Z.to_nat 128) with 128%nat.
  rewrite (gpt_entries_read _ kind Hk Hne) by lia.
  apply wp_ret, wp_ret. split; [by do 2 (eapply same_device_trans; [done|])|by left].
Qed.

Lemma gpt_roundtrip_fits d kind :
  dev_ok d -> Forall is_byte kind -> length kind = 16%nat -> kind <> GPT_TYPE_UNUSED ->
  wp (p ← write_single_partition_gpt kind; ps ← read; mret (p, ps))
     (fun r d' => match r with
                  | Ok (p, ps) => ps = [p] /\ p_type_guid p = kind /\ p_start p = 34 /\
                                  p_end p = Ok (sector_count d - 33)
                  | Err _ => True
                  | Panic => False
                  end) d.
Proof.
  intros Hok Hb Hk Hne. pose proof (count_bound _ Hok) as Hcb.
  apply wp_bind. unfold write_single_partition_gpt. apply wp_bind. unfold get, wp at 1. cbn [fst snd].
  apply wp_bind, wp_guard; intros H64; [done|]. apply wp_bind, wp_guard; intros Hroom; [done|].
  change ENTRY_SECTORS with 32 in *. change (2 + 32) with 34 in *.
  replace (sector_count d - 32 - 2) with (sector_count d - 34) in * by lia.
  set (total := sector_count d) in *. assert (Ht : 68 < total) by (apply Z.leb_gt in Hroom; lia).
  destruct (protective_mbr_sector total) as [Hml Hmb].
  apply wp_bind, (wp_dev_write d 0 _ 1); [exact Hok|lia|exact Hmb|rewrite Hml; reflexivity| |done].
  intros d1 Hok1 Hc1 Hin1 Hout1.
  destruct (gpt_entries_facts total 34 (total - 34) kind Hk) as (Hel & Heb & _).
  apply wp_bind, (wp_dev_write d1 2 _ 32); [exact Hok1|lia|exact (Heb Hb)|rewrite Hel; reflexivity| |done].
  intros d2 Hok2 Hc2 Hin2 Hout2.
  apply wp_bind, (wp_dev_write d2 (total - 1 - 32) _ 32); [exact Hok2|lia|exact (Heb Hb)|rewrite Hel; reflexivity| |done].
  intros d3 Hok3 Hc3 Hin3 Hout3. unfold write_gpt_header.
  set (crc := gpt_crc32 _).
  destruct (gpt_header_sector 1 (total - 1) 2 34 (total - 34) crc) as [Hl1 Hb1].
  apply wp_bind, (wp_dev_write d3 1 _ 1); [exact Hok3|lia|exact Hb1|rewrite Hl1; reflexivity| |done].
  intros d4 Hok4 Hc4 Hin4 Hout4.
  destruct (gpt_header_sector (total - 1) 1 (total - 1 - 32) 34 (total - 34) crc) as [Hl2 Hb2].
  apply wp_bind, (wp_dev_write d4 (total - 1) _ 1); [exact Hok4|lia|exact Hb2|rewrite Hl2; reflexivity| |done].
  intros d5 Hok5 Hc5 Hin5 Hout5.
  apply wp_bind, wp_dev_flush; [exact Hok5| |done]. intros d6 Hok6 Hc6 Hv6.
  assert (Hi6 : forall s, image d6 s = image d5 s) by (intros s; unfold image at 1; by rewrite Hv6).
  apply wp_ret. apply wp_bind.
  assert (Hcount : sector_count d6 = total) by (unfold total; congruence).
  assert (Hone : forall x, length x = 512%nat -> forall a, sector_of x (a - a) = x).
  { intros x Hx a. rewrite Z.sub_diag. unfold sector_of, slice. simpl Z.to_nat. rewrite drop_0, take_ge; [done|lia]. }
  assert (Hcar : carries d6 kind).
  { unfold carries. rewrite Hcount. split; [done|]. split; [done|]. split; [|split].
    - rewrite Hi6, Hout5, Hout4, Hout3, Hout2, Hin1 by lia. apply Hone, Hml.
    - exists crc. rewrite Hi6, Hout5, Hin4 by lia. apply Hone, Hl1.
    - intros s Hs. by rewrite Hi6, Hout5, Hout4, Hout3, Hin2 by lia. }
  eapply wp_mono; [|by apply wp_read_table]. intros r d7 [_ [->|[e ->]]]; [|done]. rewrite Hcount.
  apply wp_ret. split; [done|]. split; [done|]. split; [done|]. unfold p_end. simpl.
  destruct (_ >? _) eqn:Ho; [lia|]. f_equal. lia.
Qed.

(** a disk given a single-partition table reads back as that one partition,
    which lies clear of both copies of the table; a disk too small for one is
    refused. *)
Theorem gpt_roundtrip d kind :
  dev_ok d -> Forall is_byte kind -> length kind = 16%nat -> kind <> GPT_TYPE_UNUSED ->
  wp (p ← write_single_partition_gpt kind; ps ← read; mret (p, ps))
     (fun r d' => (sector_count d <= 68 -> r = Err OutOfRange) /\
                  match r with
                  | Ok (p, ps) => ps = [p] /\ p_type_guid p = kind /\ p_start p = 34 /\
                                  p_end p = Ok (sector_count d - 33)
                  | Err _ => True
                  | Panic => False
                  end) d.
Proof.
  intros Hok Hb Hk Hne. destruct (Z.le_gt_cases (sector_count d) 68) as [Hsmall|Hbig].
  - unfold write_single_partition_gpt. apply wp_bind, wp_bind. unfold get, wp at 1. cbn [fst snd].
    apply wp_bind, wp_guard; intros H64; [done|]. apply wp_bind, wp_guard; intros Hroom; [done|].
    apply Z.leb_gt in Hroom. unfold ENTRY_SECTORS in Hroom. lia.
  - eapply wp_mono; [|by apply gpt_roundtrip_fits]. intros r d' Hr. split; [lia|exact Hr].
Qed.

End RoundTrip.

(** ** A small disk *)

Definition blank : MemDisk.disk := {| MemDisk.sectors := ∅; MemDisk.count := 128; MemDisk.faults := [] |}.
Definition PANDA_TYPE : list Z := replicate 16 7.

Lemma blank_ok : dev_ok blank.
Proof. split; [vm_compute; split; discriminate|]. simpl. intros s vs. by rewrite lookup_empty. Qed.

Lemma gpt_roundtrip_witness :
  dev_ok blank /\
  wp (p ← write_single_partition_gpt PANDA_TYPE; ps ← read; mret (p, ps))
     (fun r d' => (sector_count blank <= 68 -> r = Err OutOfRange) /\
                  match r with
                  | Ok (p, ps) => ps = [p] /\ p_type_guid p = PANDA_TYPE /\ p_start p = 34 /\
                                  p_end p = Ok (sector_count blank - 33)
                  | Err _ => True
                  | Panic => False
                  end) blank.
Proof.
  split; [exact blank_ok|]. apply (gpt_roundtrip blank PANDA_TYPE); [exact blank_ok| |reflexivity|discriminate].
  apply Forall_replicate. unfold is_byte. lia.
Defined.

Definition recorded_partition : PartitionDevice (Recorded MemDisk.disk) :=
  {| pd_disk := {| rec_disk := blank; reached := [] |}; pd_start := 34; pd_sectors := 61 |}.

(** A write, a read of the last sector and one past the end. *)
Definition asking : list Asked := [AskWrite 0 (replicate 512 9); AskRead 60 512; AskRead 60 1024; AskFlush].

Lemma partition_isolated_witness :
  reached (pd_disk (ask_all asking recorded_partition)) = [WriteAt 34 512; ReadAt 94 512; Flushed] /\
  Forall (within 34 61) (reached (pd_disk (ask_all asking recorded_partition))) /\
  image (rec_disk (pd_disk (ask_all asking recorded_partition))) 33 = image blank 33.
Proof.
  assert (Hok : partition_ok recorded_partition) by (split; [exact blank_ok|]; vm_compute; repeat split; discriminate).
  assert (Hqs : Forall asked_ok asking).
  { unfold asking. rewrite !Forall_cons. cbn [asked_ok]. split_and!; try lia; try done. apply Forall_replicate. unfold is_byte. lia. }
  destruct (partition_isolated recorded_partition asking Hok Hqs) as [(new & Hr & Hw) Hk].
  split; [vm_compute; reflexivity|]. split; [rewrite Hr; exact Hw|].
  apply Hk; [by repeat constructor|simpl; lia].
Defined.

(** A table whose one entry claims every sector there could be.  Only the header
    is checksummed when a table is read, so the entry is believed. *)
Definition greedy : MemDisk.disk :=
  let d := snd (write_single_partition_gpt PANDA_TYPE blank) in
  snd (dev_write 2 (splice (MemDisk.newest d 2) 32 (to_le_bytes 8 0 ++ to_le_bytes 8 U64_MAX)) d).

(** an entry from sector 0 to the last representable one overflows the count
    of its sectors, and reading the table panics. *)
Theorem gpt_read_overflows : fst (read greedy) = Panic.
Proof. vm_compute. reflexivity. Qed.
