(* ===== verification/FsOps.v ===== *)
(** * Operations of the filesystem (kernel/src/fs/mod.rs, kernel/src/fs/format.rs)

    The allocator, mounting, committing, the copy-on-write rewrite of a path and
    the operations built on it, over any block device.  One lock covers a whole
    operation in the code, so an operation is one sequential program here. *)

From stdpp Require Import base list gmap numbers list_numbers.
From Stdlib Require Import Lia.
From S2P Require Import Prelude Block FsLayout.

(** A [&str] is its bytes. *)
Abbreviation str := (list Z) (only parsing).
Definition SLASH : Z := 47.
Definition DOT : Z := 46.

Record State : Type := {
  st_superblock : SuperBlock;
  st_live_slot : Z;
  st_bitmap : list Z;
  st_retired : list Z;
}.

(** A mounted filesystem: its device and what its lock guards. *)
Record FileSystem (D : Type) : Type := {
  fs_device : D;
  fs_state : State;
}.
Arguments fs_device {D} _.
Arguments fs_state {D} _.

Record Access : Type := {
  acc_user : option Z;
  acc_changes_parent : bool;
}.

Definition changing_parent (user : option Z) : Access :=
  {| acc_user := user; acc_changes_parent := true |}.
Definition within_parent (user : option Z) : Access :=
  {| acc_user := user; acc_changes_parent := false |}.

(** ** The allocator *)

Definition set_bitmap (st : State) (bm : list Z) : State := {|
  st_superblock := st_superblock st; st_live_slot := st_live_slot st;
  st_bitmap := bm; st_retired := st_retired st |}.

Definition set_superblock (st : State) (sb : SuperBlock) : State := {|
  st_superblock := sb; st_live_slot := st_live_slot st;
  st_bitmap := st_bitmap st; st_retired := st_retired st |}.

Definition set_retired (st : State) (l : list Z) : State := {|
  st_superblock := st_superblock st; st_live_slot := st_live_slot st;
  st_bitmap := st_bitmap st; st_retired := l |}.

Definition set_live_slot (st : State) (slot : Z) : State := {|
  st_superblock := st_superblock st; st_live_slot := slot;
  st_bitmap := st_bitmap st; st_retired := st_retired st |}.

Definition retire (st : State) (block : Z) : State := set_retired st (st_retired st ++ [block]).

Definition is_allocated (st : State) (block : Z) : bool := bm_get (st_bitmap st) block.

Definition mark (st : State) (block : Z) (allocated : bool) : State :=
  if negb allocated && (block <? sb_first_data_block (st_superblock st)) then st
  else if allocated then set_bitmap st (bm_set (st_bitmap st) block)
  else set_bitmap st (bm_clear (st_bitmap st) block).

(** The scan of [allocate], over [n] blocks from [block]. *)
Fixpoint scan_free (st : State) (block : Z) (n : nat) : option Z :=
  match n with
  | O => None
  | S n' => if negb (is_allocated st block) then Some block else scan_free st (block + 1) n'
  end.

Definition allocate (st : State) : result FsError (Z * State) :=
  let first := sb_first_data_block (st_superblock st) in
  let total := sb_total_blocks (st_superblock st) in
  match scan_free st first (Z.to_nat (total - first)) with
  | Some block => Ok (block, mark st block true)
  | None => Err Full
  end.

Definition free_blocks (st : State) : Z :=
  let first := sb_first_data_block (st_superblock st) in
  let total := sb_total_blocks (st_superblock st) in
  Z.of_nat (length (filter (fun b => is_allocated st b = false) (seqZ first (total - first)))).

(** ** Names and paths *)

(** [str::split], on one character. *)
Fixpoint split_on (sep : Z) (s : str) : list str :=
  match s with
  | [] => [[]]
  | c :: rest =>
      if c =? sep then [] :: split_on sep rest
      else match split_on sep rest with
           | [] => [[c]]
           | w :: ws => (c :: w) :: ws
           end
  end.

(** [path.split('/').filter(|part| !part.is_empty())] *)
Definition components (path : str) : list str :=
  filter (fun part => part <> []) (split_on SLASH path).

Fixpoint trim_start_matches (c : Z) (s : str) : str :=
  match s with
  | [] => []
  | b :: rest => if b =? c then trim_start_matches c rest else s
  end.

Definition trim_end_matches (c : Z) (s : str) : str :=
  reverse (trim_start_matches c (reverse s)).

(** [str::rfind], on one character. *)
Fixpoint rfind (c : Z) (s : str) : option nat :=
  match s with
  | [] => None
  | b :: rest =>
      match rfind c rest with
      | Some i => Some (S i)
      | None => if b =? c then Some 0%nat else None
      end
  end.

Definition split_path (path : str) : result FsError (str * str) :=
  let trimmed := trim_end_matches SLASH path in
  match rfind SLASH trimmed with
  | Some index => Ok (take index trimmed, drop (S index) trimmed)
  | None => match trimmed with [] => Err BadName | _ => Ok ([], trimmed) end
  end.

Definition check_name (name : str) : result FsError unit :=
  if bool_decide (name = []) || (MAX_NAME <? length name)%nat then Err BadName
  else if bool_decide (SLASH ∈ name) || bool_decide (name = [DOT]) || bool_decide (name = [DOT; DOT])
  then Err BadName
  else Ok tt.

Section Ops.
Context {D : Type} `{BlockDevice D}.

Abbreviation F := (M (FileSystem D) FsError).

Definition with_state (fs : FileSystem D) (st : State) : FileSystem D :=
  {| fs_device := fs_device fs; fs_state := st |}.
Definition with_device (fs : FileSystem D) (d : D) : FileSystem D :=
  {| fs_device := d; fs_state := fs_state fs |}.

(** A device request, its error converted by [From<BlockError> for FsError]. *)
Definition on_device {A} (m : M D BlockError A) : F A := fun fs =>
  match m (fs_device fs) with
  | (Ok a, d) => (Ok a, with_device fs d)
  | (Err e, d) => (Err (Device e), with_device fs d)
  | (Panic, d) => (Panic, with_device fs d)
  end.

Definition get_state : F State := fun fs => (Ok (fs_state fs), fs).
Definition update_state (f : State -> State) : F unit := fun fs =>
  (Ok tt, with_state fs (f (fs_state fs))).

(** [state.allocate()?] *)
Definition alloc_block : F Z := fun fs =>
  match allocate (fs_state fs) with
  | Ok (block, st) => (Ok block, with_state fs st)
  | Err e => (Err e, fs)
  | Panic => (Panic, fs)
  end.

Definition read_block (block : Z) : F (list Z) := on_device (dev_read block BLOCK_SIZE).
Definition write_block (block : Z) (data : list Z) : F unit := on_device (dev_write block data).

Definition read_inode (block : Z) : F Inode :=
  data ← read_block block;
  lift (Inode_decode data).

(** ** Mounting and committing *)

Definition choose (first second : option SuperBlock) : result FsError (SuperBlock * Z) :=
  match first, second with
  | Some a, Some b => if sb_generation a >=? sb_generation b then Ok (a, 0) else Ok (b, 1)
  | Some a, None => Ok (a, 0)
  | None, Some b => Ok (b, 1)
  | None, None => Err NotFormatted
  end.

(** [FileSystem::mount].  The bitmap's size is computed at 64 bits and panics
    when it does not fit. *)
Definition mount : M D FsError State := fun d0 =>
  match dev_read 0 BLOCK_SIZE d0 with
  | (Err e, d1) => (Err (Device e), d1)
  | (Panic, d1) => (Panic, d1)
  | (Ok block0, d1) =>
      let first := SuperBlock_decode block0 in
      match dev_read 1 BLOCK_SIZE d1 with
      | (Err e, d2) => (Err (Device e), d2)
      | (Panic, d2) => (Panic, d2)
      | (Ok block1, d2) =>
          let second := SuperBlock_decode block1 in
          match choose first second with
          | Err e => (Err e, d2)
          | Panic => (Panic, d2)
          | Ok (superblock, live_slot) =>
              if negb (sb_version superblock =? VERSION) then (Err WrongVersion, d2)
              else
                let len := sb_bitmap_blocks superblock * BLOCK_SIZE in
                if len >? U64_MAX then (Panic, d2)
                else
                  match dev_read (sb_bitmap_start superblock) len d2 with
                  | (Err e, d3) => (Err (Device e), d3)
                  | (Panic, d3) => (Panic, d3)
                  | (Ok bitmap, d3) =>
                      (Ok {| st_superblock := superblock; st_live_slot := live_slot;
                             st_bitmap := bitmap; st_retired := [] |}, d3)
                  end
          end
      end
  end.

Definition bump_generation (sb : SuperBlock) : SuperBlock := {|
  sb_magic := sb_magic sb; sb_version := sb_version sb;
  sb_generation := sb_generation sb + 1;
  sb_total_blocks := sb_total_blocks sb; sb_bitmap_start := sb_bitmap_start sb;
  sb_bitmap_blocks := sb_bitmap_blocks sb; sb_root_inode := sb_root_inode sb;
  sb_first_data_block := sb_first_data_block sb; sb_checksum := sb_checksum sb |}.

Definition commit : F unit :=
  st ← get_state;
  on_device (dev_write (sb_bitmap_start (st_superblock st)) (st_bitmap st)) ;;
  on_device dev_flush ;;
  let next_slot := 1 - st_live_slot st in
  (if sb_generation (st_superblock st) =? U64_MAX then panic else mret tt) ;;
  update_state (fun st => set_superblock st (bump_generation (st_superblock st))) ;;
  st ← get_state;
  let encoded := SuperBlock_encode (st_superblock st) in
  on_device (dev_write next_slot encoded) ;;
  on_device dev_flush ;;
  update_state (fun st => set_live_slot st next_slot).

(** ** Looking names up *)

Fixpoint find_named (name : str) (entries : list DirEntry) : option Z :=
  match entries with
  | [] => None
  | e :: rest =>
      if bool_decide (name_str e = Some name) then Some (de_inode e) else find_named name rest
  end.

(** How many iterations a loop over [0..blocks_used] makes before it ends or
    [direct[60]] panics. *)
Definition slot_count (inode : Inode) : nat :=
  Z.to_nat (Z.min (i_blocks_used inode) (Z.of_nat (S DIRECT_BLOCKS))).

(** [inode.direct[slot]] *)
Definition direct_at (inode : Inode) (slot : nat) : F Z :=
  match i_direct inode !! slot with Some block => mret block | None => panic end.

Fixpoint find_entry_from (directory : Inode) (name : str) (slot n : nat) : F (option Z) :=
  match n with
  | O => mret None
  | S n' =>
      block ← direct_at directory slot;
      if block =? 0 then find_entry_from directory name (S slot) n'
      else
        data ← read_block block;
        match find_named name (used_entries data) with
        | Some inode => mret (Some inode)
        | None => find_entry_from directory name (S slot) n'
        end
  end.

Definition find_entry (directory : Inode) (name : str) : F (option Z) :=
  find_entry_from directory name 0 (slot_count directory).

Fixpoint resolve_from (current : Z) (cs : list str) (user : option Z) : F Z :=
  match cs with
  | [] => mret current
  | component :: rest =>
      inode ← read_inode current;
      guard_err (bool_decide (node_kind inode <> Directory)) WrongType ;;
      guard_err (negb (permits inode user false)) Denied ;;
      found ← find_entry inode component;
      next ← lift (ok_or NotFound found);
      resolve_from next rest user
  end.

Definition resolve (path : str) (user : option Z) : F Z :=
  st ← get_state;
  resolve_from (sb_root_inode (st_superblock st)) (components path) user.

(** ** The copy-on-write rewrite *)

(** The entries of a directory other than [name], and the blocks they were in. *)
Fixpoint gather (directory : Inode) (name : str) (slot n : nat)
    (entries : list DirEntry) (garbage : list Z) : F (list DirEntry * list Z) :=
  match n with
  | O => mret (entries, garbage)
  | S n' =>
      block ← direct_at directory slot;
      data ← read_block block;
      gather directory name (S slot) n'
        (entries ++ filter (fun e => name_str e <> Some name) (used_entries data))
        (garbage ++ [block])
  end.

(** [bytes[..name.len()]] panics for a name longer than the field. *)
Definition new_entry (target : Z) (name : str) : F DirEntry :=
  if (MAX_NAME <? length name)%nat then panic
  else mret {| de_inode := target;
               de_name_length := Z.of_nat (length name) mod 256;
               de_name := splice (replicate MAX_NAME 0) 0 name |}.

(** The loop [rewrite] runs over a directory's chunks and [write_file_as] over a
    file's: claim a block, write one buffer to it, note it in [fresh]. *)
Fixpoint store_blocks (buffers : list (list Z)) (slot : nat) (fresh : list Z) : F (list Z) :=
  match buffers with
  | [] => mret fresh
  | buffer :: rest =>
      block ← alloc_block;
      write_block block buffer ;;
      store_blocks rest (S slot) (<[slot := block]> fresh)
  end.

Definition no_pointers : list Z := replicate DIRECT_BLOCKS 0.

Definition with_contents (inode : Inode) (fresh : list Z) (used size : Z) : Inode := {|
  i_kind := i_kind inode; i_owner := i_owner inode; i_mode := i_mode inode;
  i_size := size; i_blocks_used := used; i_direct := fresh |}.

(** The second half of [rewrite]: the directory's entries into fresh blocks and
    a fresh inode. *)
Definition write_directory (directory : Inode) (entries : list DirEntry) : F Z :=
  let needed := Z.max (div_ceil (Z.of_nat (length entries)) (Z.of_nat ENTRIES_PER_BLOCK)) 1 in
  guard_err (needed >? Z.of_nat DIRECT_BLOCKS) TooLarge ;;
  fresh ← store_blocks (map (encode_entries zero_block 0) (chunks ENTRIES_PER_BLOCK entries)) 0 no_pointers;
  '(fresh, used) ←
    (match entries with
     | [] =>
         block ← alloc_block;
         write_block block zero_block ;;
         mret (<[0%nat := block]> fresh, 1)
     | _ => mret (fresh, div_ceil (Z.of_nat (length entries)) (Z.of_nat ENTRIES_PER_BLOCK))
     end);
  let directory := with_contents directory fresh used (Z.of_nat (length entries)) in
  new_inode_block ← alloc_block;
  write_block new_inode_block (Inode_encode directory) ;;
  mret new_inode_block.

Fixpoint rewrite (cs : list str) (directory_block : Z) (access : Access)
    (action : option Z -> F (option Z)) (garbage : list Z) : F (Z * list Z) :=
  directory ← read_inode directory_block;
  guard_err (bool_decide (node_kind directory <> Directory)) WrongType ;;
  guard_err (negb (permits directory (acc_user access) false)) Denied ;;
  match cs with
  | [] => fail BadName
  | name :: rest =>
      existing ← find_entry directory name;
      '(replacement, garbage) ←
        (match rest with
         | [] =>
             guard_err (acc_changes_parent access
                        && negb (permits directory (acc_user access) true)) Denied ;;
             replacement ← action existing;
             mret (replacement, garbage)
         | _ =>
             child ← lift (ok_or NotFound existing);
             '(block, garbage) ← rewrite rest child access action garbage;
             mret (Some block, garbage)
         end);
      '(entries, garbage) ← gather directory name 0 (slot_count directory) [] garbage;
      entries ←
        (match replacement with
         | Some target => e ← new_entry target name; mret (entries ++ [e])
         | None => mret entries
         end);
      block ← write_directory directory entries;
      mret (block, garbage ++ [directory_block])
  end.

Definition set_root (sb : SuperBlock) (root : Z) : SuperBlock := {|
  sb_magic := sb_magic sb; sb_version := sb_version sb; sb_generation := sb_generation sb;
  sb_total_blocks := sb_total_blocks sb; sb_bitmap_start := sb_bitmap_start sb;
  sb_bitmap_blocks := sb_bitmap_blocks sb; sb_root_inode := root;
  sb_first_data_block := sb_first_data_block sb; sb_checksum := sb_checksum sb |}.

Definition release_all (blocks : list Z) (st : State) : State :=
  fold_left (fun st block => mark st block false) blocks st.

Definition transact (path : str) (access : Access) (action : option Z -> F (option Z)) : F unit :=
  guard_err (bool_decide (components path = [])) BadName ;;
  st ← get_state;
  '(new_root, garbage) ←
    rewrite (components path) (sb_root_inode (st_superblock st)) access action [];
  update_state (fun st => set_superblock st (set_root (st_superblock st) new_root)) ;;
  commit ;;
  update_state (fun st => release_all (garbage ++ st_retired st) (set_retired st [])).

(** ** The operations *)

Definition new_inode (kind : NodeKind) (owner : Z) : Inode := {|
  i_kind := match kind with Directory => 1 | File => 0 end;
  i_owner := owner; i_mode := DEFAULT_MODE; i_size := 0; i_blocks_used := 0;
  i_direct := no_pointers |}.

Definition create_action (kind : NodeKind) (owner : Z) (existing : option Z) : F (option Z) :=
  guard_err (bool_decide (existing <> None)) Exists ;;
  let inode := new_inode kind owner in
  inode ←
    (match kind with
     | Directory =>
         block ← alloc_block;
         write_block block zero_block ;;
         mret (with_contents inode (<[0%nat := block]> (i_direct inode)) 1 (i_size inode))
     | File => mret inode
     end);
  block ← alloc_block;
  write_block block (Inode_encode inode) ;;
  mret (Some block).

Definition create_for (path : str) (kind : NodeKind) (user : option Z) (owner : Z) : F unit :=
  '(_, name) ← lift (split_path path);
  lift (check_name name) ;;
  transact path (changing_parent user) (create_action kind owner).

Definition create_as (path : str) (kind : NodeKind) (user : option Z) : F unit :=
  create_for path kind user (match user with Some u => u | None => SYSTEM end).
Definition create (path : str) (kind : NodeKind) : F unit := create_as path kind None.
Definition create_owned_by (path : str) (kind : NodeKind) (owner : Z) : F unit :=
  create_for path kind None owner.

Definition pad_block (chunk : list Z) : list Z := splice zero_block 0 chunk.

(** [for slot in 0..blocks_used { if direct[slot] != 0 { state.retire(..) } }] *)
Fixpoint retire_contents (inode : Inode) (slot n : nat) : F unit :=
  match n with
  | O => mret tt
  | S n' =>
      block ← direct_at inode slot;
      (if block =? 0 then mret tt else update_state (fun st => retire st block)) ;;
      retire_contents inode (S slot) n'
  end.

Definition write_action (data : list Z) (user : option Z) (existing : option Z) : F (option Z) :=
  inode_block ← lift (ok_or NotFound existing);
  inode ← read_inode inode_block;
  guard_err (bool_decide (node_kind inode <> File)) WrongType ;;
  guard_err (negb (permits inode user true)) Denied ;;
  let buffers := map pad_block (chunks 512 data) in
  fresh ← store_blocks buffers 0 no_pointers;
  retire_contents inode 0 (slot_count inode) ;;
  update_state (fun st => retire st inode_block) ;;
  let inode := with_contents inode fresh (Z.of_nat (length buffers)) (Z.of_nat (length data)) in
  new_block ← alloc_block;
  write_block new_block (Inode_encode inode) ;;
  mret (Some new_block).

Definition write_file_as (path : str) (data : list Z) (user : option Z) : F unit :=
  guard_err (div_ceil (Z.of_nat (length data)) BLOCK_SIZE >? Z.of_nat DIRECT_BLOCKS) TooLarge ;;
  transact path (within_parent user) (write_action data user).
Definition write_file (path : str) (data : list Z) : F unit := write_file_as path data None.

Fixpoint read_data (inode : Inode) (slot n : nat) (left : Z) (out : list Z) : F (list Z) :=
  match n with
  | O => mret out
  | S n' =>
      pointer ← direct_at inode slot;
      block ← read_block pointer;
      let take_ := Z.min left BLOCK_SIZE in
      read_data inode (S slot) n' (left - take_) (out ++ take (Z.to_nat take_) block)
  end.

Definition read_file_as (path : str) (user : option Z) : F (list Z) :=
  inode_block ← resolve path user;
  inode ← read_inode inode_block;
  guard_err (bool_decide (node_kind inode <> File)) WrongType ;;
  guard_err (negb (permits inode user false)) Denied ;;
  read_data inode 0 (slot_count inode) (i_size inode) [].
Definition read_file (path : str) : F (list Z) := read_file_as path None.

(** The names of a block's entries that are valid text. *)
Definition names_of (entries : list DirEntry) : list str := omap name_str entries.

Fixpoint list_names (inode : Inode) (slot n : nat) (names : list str) : F (list str) :=
  match n with
  | O => mret names
  | S n' =>
      pointer ← direct_at inode slot;
      data ← read_block pointer;
      list_names inode (S slot) n' (names ++ names_of (used_entries data))
  end.

Definition list_as (path : str) (user : option Z) : F (list str) :=
  inode_block ← resolve path user;
  inode ← read_inode inode_block;
  guard_err (bool_decide (node_kind inode <> Directory)) WrongType ;;
  guard_err (negb (permits inode user false)) Denied ;;
  list_names inode 0 (slot_count inode) [].
Definition list_dir (path : str) : F (list str) := list_as path None.

Definition remove_action (existing : option Z) : F (option Z) :=
  target_block ← lift (ok_or NotFound existing);
  target ← read_inode target_block;
  guard_err (bool_decide (node_kind target = Directory) && (i_size target >? 0)) NotEmpty ;;
  retire_contents target 0 (slot_count target) ;;
  update_state (fun st => retire st target_block) ;;
  mret None.

Definition remove_as (path : str) (user : option Z) : F unit :=
  '(_, name) ← lift (split_path path);
  lift (check_name name) ;;
  transact path (changing_parent user) remove_action.
Definition remove (path : str) : F unit := remove_as path None.

Definition stat_as (path : str) (user : option Z) : F (NodeKind * Z) :=
  inode_block ← resolve path user;
  inode ← read_inode inode_block;
  mret (node_kind inode, i_size inode).
Definition stat (path : str) : F (NodeKind * Z) := stat_as path None.

Definition owner_as (path : str) (user : option Z) : F (Z * Z) :=
  inode_block ← resolve path user;
  inode ← read_inode inode_block;
  mret (i_owner inode, i_mode inode).

Definition with_mode (inode : Inode) (mode : Z) : Inode := {|
  i_kind := i_kind inode; i_owner := i_owner inode; i_mode := mode;
  i_size := i_size inode; i_blocks_used := i_blocks_used inode; i_direct := i_direct inode |}.

Definition set_mode_action (mode : Z) (user : option Z) (existing : option Z) : F (option Z) :=
  inode_block ← lift (ok_or NotFound existing);
  inode ← read_inode inode_block;
  guard_err (match user with Some u => negb (u =? i_owner inode) | None => false end) Denied ;;
  let inode := with_mode inode mode in
  update_state (fun st => retire st inode_block) ;;
  new_block ← alloc_block;
  write_block new_block (Inode_encode inode) ;;
  mret (Some new_block).

(** [mode & !ALL_PERMISSIONS], the complement taken at sixteen bits *)
Definition set_mode_as (path : str) (mode : Z) (user : option Z) : F unit :=
  guard_err (negb (Z.land mode (Z.lxor U16_MAX ALL_PERMISSIONS) =? 0)) BadName ;;
  transact path (within_parent user) (set_mode_action mode user).

(** ** Formatting *)

Definition set_bits (bm : list Z) (first n : Z) : list Z := fold_left bm_set (seqZ first n) bm.

Definition format_superblock (total_blocks bitmap_blocks generation : Z) : SuperBlock := {|
  sb_magic := MAGIC; sb_version := VERSION; sb_generation := generation;
  sb_total_blocks := total_blocks; sb_bitmap_start := 2; sb_bitmap_blocks := bitmap_blocks;
  sb_root_inode := 2 + bitmap_blocks; sb_first_data_block := 2 + bitmap_blocks + 1;
  sb_checksum := 0 |}.

Definition format_bitmap (total_blocks bitmap_blocks : Z) : list Z :=
  let first_data_block := 2 + bitmap_blocks + 1 in
  let bitmap := replicate (Z.to_nat (bitmap_blocks * BLOCK_SIZE)) 0 in
  let bitmap := set_bits bitmap 0 first_data_block in
  set_bits bitmap total_blocks (bitmap_blocks * BLOCK_SIZE * 8 - total_blocks).

Definition dev_op {A} (m : M D BlockError A) : M D FsError A := fun d =>
  match m d with
  | (Ok a, d') => (Ok a, d')
  | (Err e, d') => (Err (Device e), d')
  | (Panic, d') => (Panic, d')
  end.

Definition format : M D FsError State :=
  d ← get;
  let total_blocks := sector_count d in
  guard_err (total_blocks <? 16) Full ;;
  let bitmap_bytes := div_ceil total_blocks 8 in
  let bitmap_blocks := div_ceil bitmap_bytes BLOCK_SIZE in
  let root_inode := 2 + bitmap_blocks in
  let first_data_block := root_inode + 1 in
  guard_err (first_data_block >=? total_blocks) Full ;;
  dev_op (dev_write 2 (format_bitmap total_blocks bitmap_blocks)) ;;
  dev_op (dev_write root_inode (Inode_encode (new_inode Directory SYSTEM))) ;;
  dev_op dev_flush ;;
  dev_op (dev_write 0 (SuperBlock_encode (format_superblock total_blocks bitmap_blocks 1))) ;;
  dev_op (dev_write 1 (SuperBlock_encode (format_superblock total_blocks bitmap_blocks 0))) ;;
  dev_op dev_flush ;;
  mount.

End Ops.
