(* ===== verification/FsSpec.v ===== *)
(** * What the filesystem promises: a tree of owned files and directories

    The abstract specification.  It knows nothing of blocks, sectors, bitmaps or
    superblocks: a node is a file with contents or a directory with an ordered
    list of names, each carrying an owner and permission bits. *)

From stdpp Require Import base list gmap numbers list_numbers.
From Stdlib Require Import Lia.
From S2P Require Import Prelude Block FsLayout FsOps.

Inductive tree : Type :=
| TFile (owner mode : Z) (data : list Z)
| TDir (owner mode : Z) (entries : list (list Z * tree)).

(** Read is bit 0 for the owner and bit 2 for others; write is the next bit. *)
Definition allows (owner mode : Z) (user : option Z) (write : bool) : bool :=
  match user with
  | None => true
  | Some u => Z.testbit mode ((if u =? owner then 0 else 2) + (if write then 1 else 0))
  end.

Definition t_owner (t : tree) : Z := match t with TFile o _ _ | TDir o _ _ => o end.
Definition t_mode (t : tree) : Z := match t with TFile _ m _ | TDir _ m _ => m end.
Definition t_kind (t : tree) : NodeKind := match t with TFile _ _ _ => File | TDir _ _ _ => Directory end.
Definition t_size (t : tree) : Z :=
  match t with
  | TFile _ _ data => Z.of_nat (length data)
  | TDir _ _ entries => Z.of_nat (length entries)
  end.

Fixpoint child (name : list Z) (entries : list (list Z * tree)) : option tree :=
  match entries with
  | [] => None
  | (n, t) :: rest => if bool_decide (n = name) then Some t else child name rest
  end.

(** A name is taken out of the list, and put back at its end when it has a node. *)
Definition bind_name (name : list Z) (node : option tree) (entries : list (list Z * tree))
  : list (list Z * tree) :=
  filter (fun p => fst p <> name) entries
  ++ match node with Some t => [(name, t)] | None => [] end.

(** Sixty blocks of eight names. *)
Definition DIR_CAPACITY : nat := 480.

Fixpoint s_resolve (t : tree) (cs : list (list Z)) (user : option Z) : result FsError tree :=
  match cs with
  | [] => Ok t
  | name :: rest =>
      match t with
      | TFile _ _ _ => Err WrongType
      | TDir o m entries =>
          if negb (allows o m user false) then Err Denied
          else match child name entries with
               | None => Err NotFound
               | Some c => s_resolve c rest user
               end
      end
  end.

(** Change the node a path names: every directory on the way must be readable,
    and the one holding the name writable if the name comes or goes. *)
Fixpoint s_rewrite (cs : list (list Z)) (t : tree) (access : Access)
    (action : option tree -> result FsError (option tree)) : result FsError tree :=
  match t with
  | TFile _ _ _ => Err WrongType
  | TDir o m entries =>
      if negb (allows o m (acc_user access) false) then Err Denied
      else match cs with
      | [] => Err BadName
      | name :: rest =>
          node ←
            (match rest with
             | [] =>
                 if acc_changes_parent access && negb (allows o m (acc_user access) true)
                 then Err Denied
                 else action (child name entries)
             | _ =>
                 c ← ok_or NotFound (child name entries);
                 c' ← s_rewrite rest c access action;
                 mret (Some c')
             end);
          let entries' := bind_name name node entries in
          if (DIR_CAPACITY <? length entries')%nat then Err TooLarge else Ok (TDir o m entries')
      end
  end.

Definition s_transact (t : tree) (path : list Z) (access : Access)
    (action : option tree -> result FsError (option tree)) : result FsError tree :=
  if bool_decide (components path = []) then Err BadName
  else s_rewrite (components path) t access action.

Definition s_create_action (kind : NodeKind) (owner : Z) (existing : option tree)
  : result FsError (option tree) :=
  match existing with
  | Some _ => Err Exists
  | None => Ok (Some match kind with
                     | File => TFile owner DEFAULT_MODE []
                     | Directory => TDir owner DEFAULT_MODE []
                     end)
  end.

Definition s_write_action (data : list Z) (user : option Z) (existing : option tree)
  : result FsError (option tree) :=
  match existing with
  | None => Err NotFound
  | Some (TDir _ _ _) => Err WrongType
  | Some (TFile o m _) =>
      if negb (allows o m user true) then Err Denied else Ok (Some (TFile o m data))
  end.

Definition s_remove_action (existing : option tree) : result FsError (option tree) :=
  match existing with
  | None => Err NotFound
  | Some (TDir _ _ (_ :: _)) => Err NotEmpty
  | Some _ => Ok None
  end.

Definition t_with_mode (t : tree) (mode : Z) : tree :=
  match t with TFile o _ d => TFile o mode d | TDir o _ es => TDir o mode es end.

Definition s_set_mode_action (mode : Z) (user : option Z) (existing : option tree)
  : result FsError (option tree) :=
  match existing with
  | None => Err NotFound
  | Some t =>
      match user with
      | Some u => if negb (u =? t_owner t) then Err Denied else Ok (Some (t_with_mode t mode))
      | None => Ok (Some (t_with_mode t mode))
      end
  end.

Definition s_create (t : tree) (path : list Z) (kind : NodeKind) (user : option Z) (owner : Z)
  : result FsError tree :=
  '(_, name) ← split_path path;
  check_name name ;;
  s_transact t path (changing_parent user) (s_create_action kind owner).

Definition s_write_file (t : tree) (path data : list Z) (user : option Z) : result FsError tree :=
  if 30720 <? Z.of_nat (length data) then Err TooLarge
  else s_transact t path (within_parent user) (s_write_action data user).

Definition s_remove (t : tree) (path : list Z) (user : option Z) : result FsError tree :=
  '(_, name) ← split_path path;
  check_name name ;;
  s_transact t path (changing_parent user) s_remove_action.

Definition s_set_mode (t : tree) (path : list Z) (mode : Z) (user : option Z) : result FsError tree :=
  if negb (mode <=? ALL_PERMISSIONS) then Err BadName
  else s_transact t path (within_parent user) (s_set_mode_action mode user).

Definition s_read_file (t : tree) (path : list Z) (user : option Z) : result FsError (list Z) :=
  node ← s_resolve t (components path) user;
  match node with
  | TDir _ _ _ => Err WrongType
  | TFile o m data => if negb (allows o m user false) then Err Denied else Ok data
  end.

Definition s_list (t : tree) (path : list Z) (user : option Z) : result FsError (list (list Z)) :=
  node ← s_resolve t (components path) user;
  match node with
  | TFile _ _ _ => Err WrongType
  | TDir o m entries => if negb (allows o m user false) then Err Denied else Ok (map fst entries)
  end.

Definition s_stat (t : tree) (path : list Z) (user : option Z) : result FsError (NodeKind * Z) :=
  node ← s_resolve t (components path) user;
  mret (t_kind node, t_size node).

Definition s_owner (t : tree) (path : list Z) (user : option Z) : result FsError (Z * Z) :=
  node ← s_resolve t (components path) user;
  mret (t_owner node, t_mode node).

(** ** Facts of the specification *)

(** Induction over a tree and the trees below it. *)
Lemma tree_rect_nested (P : tree -> Prop) :
  (forall o m data, P (TFile o m data)) ->
  (forall o m entries, Forall (fun p => P (snd p)) entries -> P (TDir o m entries)) ->
  forall t, P t.
Proof.
  intros Hf Hd. fix IH 1. intros [o m data|o m entries]; [apply Hf|]. apply Hd.
  induction entries as [|[n t] rest IHr]; constructor; [apply IH|apply IHr].
Qed.

(** No directory of the tree holds a name twice. *)
Fixpoint unique_names (t : tree) : Prop :=
  match t with
  | TFile _ _ _ => True
  | TDir _ _ entries =>
      NoDup (map fst entries) /\
      (fix all es := match es with [] => True | (_, c) :: rest => unique_names c /\ all rest end) entries
  end.

Lemma unique_names_dir o m entries :
  unique_names (TDir o m entries) <->
  NoDup (map fst entries) /\ Forall (fun p => unique_names (snd p)) entries.
Proof.
  simpl. split; intros [Hn Ha]; (split; [done|]).
  - clear Hn. induction entries as [|[n c] rest IH]; constructor; [apply Ha|apply IH, Ha].
  - clear Hn. induction Ha as [|[n c] rest Hc Ha IH]; [done|]. by split.
Qed.

Lemma child_elem name entries c : child name entries = Some c -> (name, c) ∈ entries.
Proof.
  induction entries as [|[n t] rest IH]; simpl; [done|]. case_bool_decide.
  - intros [= ->]. subst. left.
  - intros H'. right. auto.
Qed.

Lemma child_app name e1 e2 :
  child name (e1 ++ e2) = match child name e1 with Some t => Some t | None => child name e2 end.
Proof.
  induction e1 as [|[n t] rest IH]; simpl; [done|]. by case_bool_decide.
Qed.

Lemma child_filter name name' entries :
  child name' (filter (fun p => fst p <> name) entries)
  = if bool_decide (name' = name) then None else child name' entries.
Proof.
  induction entries as [|[n t] rest IH]; [by case_bool_decide|].
  rewrite filter_cons. simpl. destruct (decide (n = name)) as [->|Hne].
  - rewrite decide_False by auto. rewrite IH. repeat case_bool_decide; congruence.
  - rewrite decide_True by done. simpl. rewrite IH. repeat case_bool_decide; congruence.
Qed.

(** Binding a name is a map update: it decides that name and no other. *)
Lemma child_bind_name name name' node entries :
  child name' (bind_name name node entries)
  = if bool_decide (name' = name) then node else child name' entries.
Proof.
  unfold bind_name. rewrite child_app, child_filter.
  destruct node as [t|]; simpl; repeat case_bool_decide; subst; try done.
  all: by destruct (child name' entries).
Qed.

Lemma map_fst_filter name (entries : list (list Z * tree)) :
  map fst (filter (fun p => fst p <> name) entries) = filter (fun n => n <> name) (map fst entries).
Proof.
  induction entries as [|[n t] rest IH]; [done|]. rewrite filter_cons. simpl map.
  rewrite filter_cons. simpl. repeat case_decide; simpl; congruence.
Qed.

Lemma bind_name_unique name node o m entries :
  unique_names (TDir o m entries) -> (forall t, node = Some t -> unique_names t) ->
  unique_names (TDir o m (bind_name name node entries)).
Proof.
  rewrite !unique_names_dir. intros [Hn Ha] Ht. unfold bind_name. split.
  - rewrite map_app, map_fst_filter. apply NoDup_app. split; [by apply NoDup_filter|].
    split; [|destruct node; simpl; [apply NoDup_singleton|constructor]].
    intros n Hin Hin'. apply list_elem_of_filter in Hin as [Hne _].
    destruct node; simpl in Hin'; [apply list_elem_of_singleton in Hin'; done|].
    by apply elem_of_nil in Hin'.
  - apply Forall_app. split; [by apply filter_Forall_keep|].
    destruct node; simpl; [apply Forall_singleton; auto|constructor].
Qed.

Lemma child_unique name o m entries c :
  unique_names (TDir o m entries) -> child name entries = Some c -> unique_names c.
Proof.
  rewrite unique_names_dir. intros [_ Ha] Hc. apply child_elem in Hc.
  by apply (proj1 (Forall_forall _ _) Ha) in Hc.
Qed.

Lemma s_rewrite_unique action access cs : forall t t',
  unique_names t ->
  (forall node node', (forall t, node = Some t -> unique_names t) ->
     action node = Ok node' -> forall t, node' = Some t -> unique_names t) ->
  s_rewrite cs t access action = Ok t' -> unique_names t'.
Proof.
  induction cs as [|name rest IH]; intros t t' Hu Hact; destruct t as [|o m entries]; simpl; try done;
    destruct (negb _); try done.
  intros Hr. destruct (match rest with [] => _ | _ => _ end) as [node|e|] eqn:Hnode; simpl in Hr; try done.
  destruct (_ <? _)%nat; [done|]. injection Hr as <-.
  apply bind_name_unique; [done|]. intros t ->. destruct rest as [|n2 rest2].
  - destruct (_ && _); [done|]. eapply Hact; [|exact Hnode|done].
    intros c Hc. by eapply child_unique.
  - destruct (child name entries) as [c|] eqn:Hc; [|done].
    cbn [ok_or mbind result_bind] in Hnode.
    destruct (s_rewrite _ c access action) as [c'|e|] eqn:Hrec; simpl in Hnode; try done.
    injection Hnode as <-. eapply IH; [|exact Hact|exact Hrec]. by eapply child_unique.
Qed.

(** ** What a rewrite changes *)

(** The step of [s_rewrite], one name at a time. *)
Lemma s_rewrite_inv cs t access action t' :
  s_rewrite cs t access action = Ok t' ->
  exists o m entries name rest node, t = TDir o m entries /\ cs = name :: rest /\
    t' = TDir o m (bind_name name node entries) /\
    match rest with
    | [] => action (child name entries) = Ok node
    | _ => exists c c', child name entries = Some c /\ node = Some c' /\
                        s_rewrite rest c access action = Ok c'
    end.
Proof.
  destruct t as [|o m entries], cs as [|name rest]; cbn [s_rewrite]; try done; destruct (negb _); try done.
  intros Hr. exists o, m, entries, name, rest. destruct rest as [|n2 rest2].
  - destruct (_ && _); [done|]. destruct (action _) as [node| |]; try done. simpl in Hr.
    destruct (_ <? _)%nat; [done|]. injection Hr as <-. by exists node.
  - destruct (child name entries) as [c|] eqn:Hc; [|done]. cbn [ok_or mbind result_bind] in Hr.
    remember (n2 :: rest2) as rest. destruct (s_rewrite rest c access action) as [c'| |] eqn:Hrec; try done.
    simpl in Hr. destruct (_ <? _)%nat; [done|]. injection Hr as <-. exists (Some c').
    subst rest. split; [done|]. split; [done|]. split; [done|]. by exists c, c'.
Qed.

(** The action saw what the path named before, and its answer is what the path
    names after. *)
Lemma s_rewrite_target access action cs : forall t t', s_rewrite cs t access action = Ok t' ->
  exists before after, action before = Ok after /\
    s_resolve t cs None = ok_or NotFound before /\ s_resolve t' cs None = ok_or NotFound after.
Proof.
  induction cs as [|name rest IH]; intros t t' Hr;
    apply s_rewrite_inv in Hr as (o & m & entries & n & r & node & -> & Hcs & -> & Hact); [done|].
  injection Hcs as <- <-. cbn [s_resolve allows negb]. rewrite child_bind_name, bool_decide_true by done.
  destruct rest as [|n2 rest2].
  - exists (child name entries), node. split; [done|]. split.
    + by destruct (child name entries).
    + by destruct node.
  - destruct Hact as (c & c' & -> & -> & Hrec). by apply IH.
Qed.

(** Reading a file at a path that does not pass through the target reads what it
    read before. *)
Lemma s_rewrite_frame access action cs : forall t t' q user,
  s_rewrite cs t access action = Ok t' -> ~ cs `prefix_of` q ->
  match s_resolve t q user, s_resolve t' q user with
  | Ok (TDir o m _), Ok (TDir o' m' _) => o = o' /\ m = m'
  | r, r' => r = r'
  end.
Proof.
  induction cs as [|name rest IH]; intros t t' q user Hr Hq.
  { exfalso. apply Hq. apply prefix_nil. }
  apply s_rewrite_inv in Hr as (o & m & entries & n & r & node & -> & Hcs & -> & Hact).
  injection Hcs as <- <-. destruct q as [|n q]; simpl; [done|].
  destruct (allows o m user false); [simpl|done]. rewrite child_bind_name.
  case_bool_decide as Hn.
  - subst n. assert (Hq' : ~ rest `prefix_of` q) by (intros ?; apply Hq; by apply prefix_cons).
    destruct rest as [|n2 rest2]; [exfalso; apply Hq'; apply prefix_nil|].
    destruct Hact as (c & c' & -> & -> & Hrec). by apply (IH c c').
  - destruct (child n entries) as [c|]; [|done]. by destruct (s_resolve c q user) as [[]| |].
Qed.

Lemma s_read_file_frame access action t t' path q user :
  s_transact t path access action = Ok t' -> ~ components path `prefix_of` components q ->
  s_read_file t' q user = s_read_file t q user.
Proof.
  unfold s_transact. case_bool_decide; [done|]. intros Hr Hq.
  pose proof (s_rewrite_frame _ _ _ _ _ _ user Hr Hq) as Hf. unfold s_read_file.
  destruct (s_resolve t (components q) user) as [[]| |], (s_resolve t' (components q) user) as [[]| |];
    simpl; try done; by simplify_eq.
Qed.
