(* ===== verification/FsRep.v ===== *)
(** * How a disk represents a tree, and that reading it reads the tree

    [rep img b t bl] says that the sectors [img] hold the tree [t] with its root
    inode in block [b], using exactly the blocks [bl].  The read-only operations
    are shown to return what the specification returns of that tree, unless the
    device fails. *)

From stdpp Require Import base list gmap numbers list_numbers.
From Stdlib Require Import Lia.
From S2P Require Import Prelude Block FsLayout FsOps FsSpec.

(** The blocks an inode points at. *)
Definition ptrs (ino : Inode) : list Z := take (Z.to_nat (i_blocks_used ino)) (i_direct ino).

(** The entries in use of a directory, in disk order. *)
Definition dir_entries (img : Z -> list Z) (ino : Inode) : list DirEntry :=
  concat (map (fun b => used_entries (img b)) (ptrs ino)).

Definition node_at (img : Z -> list Z) (b : Z) (ino : Inode) (kind owner mode : Z) : Prop :=
  Inode_decode (img b) = Ok ino /\ i_kind ino = kind /\ i_owner ino = owner /\
  i_mode ino = mode /\ i_blocks_used ino <= Z.of_nat DIRECT_BLOCKS.

Fixpoint rep (img : Z -> list Z) (b : Z) (t : tree) (bl : list Z) {struct t} : Prop :=
  match t with
  | TFile o m data =>
      exists ino, node_at img b ino 0 o m /\
        i_size ino = Z.of_nat (length data) /\
        i_blocks_used ino = div_ceil (Z.of_nat (length data)) 512 /\
        take (length data) (concat (map img (ptrs ino))) = data /\
        bl = b :: ptrs ino
  | TDir o m entries =>
      exists ino bls, node_at img b ino 1 o m /\
        i_size ino = Z.of_nat (length entries) /\
        (fix children (entries : list (list Z * tree)) (es : list DirEntry) (bls : list (list Z)) :=
           match entries, es, bls with
           | [], [], [] => True
           | (n, c) :: entries', e :: es', bl' :: bls' =>
               (name_str e = Some n /\ rep img (de_inode e) c bl') /\ children entries' es' bls'
           | _, _, _ => False
           end) entries (dir_entries img ino) bls /\
        bl = b :: ptrs ino ++ concat bls
  end.

(** One name, the entry that holds it and the blocks below it. *)
Definition entry_rep (img : Z -> list Z) (p : list Z * tree) (e : DirEntry) (bl : list Z) : Prop :=
  name_str e = Some (fst p) /\ rep img (de_inode e) (snd p) bl.

Lemma rep_dir img b o m entries bl :
  rep img b (TDir o m entries) bl <->
  exists ino bls, node_at img b ino 1 o m /\ i_size ino = Z.of_nat (length entries) /\
    Forall3 (entry_rep img) entries (dir_entries img ino) bls /\
    bl = b :: ptrs ino ++ concat bls.
Proof.
  simpl. split; intros (ino & bls & Hn & Hs & Hc & Hbl); exists ino, bls;
    (split; [done|split; [done|split; [|done]]]); clear Hs Hbl.
  - revert Hc. generalize (dir_entries img ino) as es. revert bls.
    induction entries as [|[n c] entries IH]; intros [|bl' bls] [|e es]; try done; [constructor|].
    intros [He Hc]. constructor; [done|]. by apply IH.
  - induction Hc as [|[n c] e bl' entries es bls He Hc IH]; [done|]. by split.
Qed.

Lemma rep_head img b t bl : rep img b t bl -> exists rest, bl = b :: rest.
Proof. destruct t; simpl; intros; destruct_and?; naive_solver. Qed.

(** Representation only looks at the blocks it uses. *)
Lemma rep_frame img img' : forall t b bl,
  rep img b t bl -> (forall s, s ∈ bl -> img' s = img s) -> rep img' b t bl.
Proof.
  induction t as [o m data|o m entries IH] using tree_rect_nested; intros b bl Hr Himg.
  - destruct Hr as (ino & (Hd & Hrest) & Hsz & Hu & Hdata & ->). exists ino.
    split; [split; [rewrite Himg by left; done|done]|]. do 2 (split; [done|]). split; [|done].
    etrans; [|exact Hdata]. do 2 f_equal. apply map_ext_in. intros s Hs. apply Himg.
    right. by apply list_elem_of_In.
  - apply rep_dir in Hr as (ino & bls & (Hd & Hrest) & Hsz & Hc & ->).
    assert (He : dir_entries img' ino = dir_entries img ino).
    { unfold dir_entries. f_equal. apply map_ext_in. intros s Hs. f_equal. apply Himg.
      right. apply elem_of_app. left. by apply list_elem_of_In. }
    apply rep_dir. exists ino, bls.
    split; [split; [rewrite Himg by left; done|done]|]. split; [done|]. split; [|done].
    rewrite He. assert (Hsub : forall s, s ∈ concat bls -> img' s = img s).
    { intros s Hs. apply Himg. right. apply elem_of_app. by right. }
    clear Hrest Himg He Hsz Hd. revert IH Hsub. induction Hc as [|p e bl entries es bls [Hn Hp] Hc IHc];
      intros IH Hsub; constructor; inversion IH; subst.
    + split; [done|]. apply H1; [done|]. intros s Hs. apply Hsub. simpl. apply elem_of_app. by left.
    + apply IHc; [done|]. intros s Hs. apply Hsub. simpl. apply elem_of_app. by right.
Qed.

(** ** Facts of decoded structures *)

Lemma le_at_bound block a n :
  Forall is_byte block -> (a + n <= length block)%nat -> 0 <= le_at block a n < 256 ^ Z.of_nat n.
Proof.
  intros Hb Hl. unfold le_at. rewrite <-(length_slice block a n Hl) at 3.
  apply from_le_bytes_bound. by apply slice_forall.
Qed.

Lemma Inode_decode_fits block ino : is_sector block -> Inode_decode block = Ok ino -> inode_fits ino.
Proof.
  intros [Hl Hb]. unfold Inode_decode. destruct (_ >? 1) eqn:Hk; [done|]. intros [= <-].
  assert (Hat : forall a n, (a + n <= 512)%nat -> 0 <= le_at block a n < 256 ^ Z.of_nat n).
  { intros. apply le_at_bound; [done|lia]. }
  assert (Hdir : Forall u64 (map (fun index => le_at block (24 + index * 8) 8) (seq 0 DIRECT_BLOCKS))).
  { apply Forall_map, Forall_seq. intros i Hi. unfold u64.
    change (2 ^ 64) with (256 ^ Z.of_nat 8). apply Hat. unfold DIRECT_BLOCKS in *. lia. }
  unfold inode_fits. cbn [i_kind i_owner i_mode i_size i_blocks_used i_direct]. unfold u32, u64 at 1.
  pose proof (Hat 0 4)%nat. pose proof (Hat 4 4)%nat. pose proof (Hat 8 8)%nat.
  pose proof (Hat 16 4)%nat. pose proof (Hat 20 2)%nat.
  repeat split; try (simpl in *; lia).
  - apply Z.land_nonneg. left. simpl in *; lia.
  - change ALL_PERMISSIONS with (Z.ones 4). rewrite Z.land_ones by lia.
    pose proof (Z.mod_pos_bound (le_at block 20 2) (2 ^ 4)). change (Z.ones 4) with 15. lia.
  - exact Hdir.
Qed.

Lemma decode_entries_fit data : is_sector data -> Forall entry_fits (decode_entries data).
Proof.
  intros [Hl Hb]. apply Forall_map, Forall_seq. intros i Hi.
  unfold ENTRIES_PER_BLOCK, DIR_ENTRY_SIZE, MAX_NAME in *. unfold entry_fits, DirEntry_decode; simpl.
  split; [|split; [|split]].
  - unfold u64. change (2 ^ 64) with (256 ^ Z.of_nat 8). apply le_at_bound; [done|lia].
  - unfold is_byte. change 256 with (256 ^ Z.of_nat 1). apply le_at_bound; [done|lia].
  - apply length_slice. unfold MAX_NAME. lia.
  - by apply slice_forall.
Qed.

Lemma used_entries_fit data :
  is_sector data -> Forall (fun e => entry_fits e /\ de_inode e <> 0) (used_entries data).
Proof.
  intros Hs. apply Forall_and. split; [|apply filter_Forall].
  by apply filter_Forall_keep, decode_entries_fit.
Qed.

Lemma permits_allows ino user write :
  permits ino user write = allows (i_owner ino) (i_mode ino) user write.
Proof.
  unfold permits, allows. destruct user as [u|]; [|done].
  destruct (u =? i_owner ino), write; unfold OWNER_READ, OWNER_WRITE, OTHERS_READ, OTHERS_WRITE;
    rewrite land_bit_testbit by lia; done.
Qed.

Lemma slot_count_eq ino :
  i_blocks_used ino <= Z.of_nat DIRECT_BLOCKS -> slot_count ino = Z.to_nat (i_blocks_used ino).
Proof. intros Hu. unfold slot_count. by rewrite Z.min_l by lia. Qed.

Section Reading.
Context {D : Type} `{BlockLaws D}.
Implicit Types fs : FileSystem D.

(** A state that differs in nothing a caller can tell. *)
Definition same (fs fs' : FileSystem D) : Prop :=
  fs_state fs' = fs_state fs /\ dev_ok (fs_device fs') /\
  sector_count (fs_device fs') = sector_count (fs_device fs) /\
  forall s, versions (fs_device fs') s = versions (fs_device fs) s.

Lemma same_refl fs : dev_ok (fs_device fs) -> same fs fs.
Proof. done. Qed.

Lemma same_trans fs1 fs2 fs3 : same fs1 fs2 -> same fs2 fs3 -> same fs1 fs3.
Proof.
  intros (H1 & _ & H3 & H4) (H1' & H2' & H3' & H4'). unfold same.
  split; [congruence|]. split; [done|]. split; [congruence|]. intros s. by rewrite H4', H4.
Qed.

(** The device holds the sectors [img]. *)
Definition holds fs (img : Z -> list Z) : Prop :=
  dev_ok (fs_device fs) /\ forall s, image (fs_device fs) s = img s.

Lemma holds_same fs fs' img : same fs fs' -> holds fs img -> holds fs' img.
Proof.
  intros (_ & Hok & _ & Hv) [_ Hi]. split; [done|]. intros s. rewrite <-Hi.
  unfold image. by rewrite Hv.
Qed.

(** A read-only program that gives [v] unless the device fails. *)
Definition reads {A} (m : M (FileSystem D) FsError A) (v : result FsError A) fs : Prop :=
  wp m (fun r fs' => same fs fs' /\ (r = v \/ exists e, r = Err (Device e))) fs.

Lemma reads_pure {A} (r : result FsError A) fs : dev_ok (fs_device fs) -> reads (lift r) r fs.
Proof. intros Hok. split; [by apply same_refl|by left]. Qed.

Lemma reads_bind {A B} (m : M _ FsError A) (k : A -> M _ FsError B) a v fs :
  reads m (Ok a) fs -> (forall fs', same fs fs' -> reads (k a) v fs') -> reads (mbind k m) v fs.
Proof.
  unfold reads. intros Hm Hk. apply wp_bind. eapply wp_mono; [|exact Hm]. simpl.
  intros r fs' [Hsame [->|[e ->]]].
  - eapply wp_mono; [|apply Hk, Hsame]. simpl. intros r fs'' [Hs Hr].
    split; [by eapply same_trans|done].
  - split; [done|]. right. by exists e.
Qed.

Lemma reads_bind_err {A B} (m : M _ FsError A) (k : A -> M _ FsError B) e fs :
  reads m (Err e) fs -> reads (mbind k m) (Err e) fs.
Proof.
  unfold reads. intros Hm. apply wp_bind. eapply wp_mono; [|exact Hm]. simpl.
  intros r fs' [Hsame [->|[e' ->]]]; (split; [done|]); [by left|right; by exists e'].
Qed.

Lemma reads_guard {A} (b : bool) e (k : unit -> M _ FsError A) v fs :
  dev_ok (fs_device fs) ->
  (b = true -> v = Err e) -> (b = false -> reads (k tt) v fs) ->
  reads (mbind k (guard_err b e)) v fs.
Proof.
  intros Hok Ht Hf. destruct b.
  - rewrite Ht by done. apply reads_bind_err, reads_pure, Hok.
  - by apply Hf.
Qed.

Lemma reads_block fs img b : holds fs img -> 0 <= b -> reads (read_block b) (Ok (img b)) fs.
Proof.
  intros [Hok Himg] Hb. unfold reads, wp, read_block, on_device.
  destruct (dev_read b BLOCK_SIZE (fs_device fs)) as [r d'] eqn:Hr.
  apply read_law in Hr as (Hok' & Hc & Hv & Hr); [|done..].
  assert (Hs : same fs (with_device fs d')) by (split; [done|split; [done|split; [done|exact Hv]]]).
  destruct r as [data|e|]; simpl; [|split; [done|right; by exists e]|done].
  split; [done|]. left. destruct Hr as (n & Hn & Hlen & _ & ->).
  unfold BLOCK_SIZE, SECTOR_SIZE in Hlen. assert (n = 1) as -> by lia.
  change (seqZ b 1) with [0 + b]. rewrite Z.add_0_l. simpl. rewrite app_nil_r.
  rewrite <-Himg. done.
Qed.

Lemma reads_inode fs img b :
  holds fs img -> 0 <= b -> reads (read_inode b) (Inode_decode (img b)) fs.
Proof.
  intros Hh Hb. unfold read_inode. eapply reads_bind; [by apply reads_block|].
  intros fs' Hs. apply reads_pure. apply Hs.
Qed.

Lemma reads_direct fs ino slot b :
  dev_ok (fs_device fs) -> i_direct ino !! slot = Some b -> reads (direct_at ino slot) (Ok b) fs.
Proof. intros Hok Hd. unfold direct_at. rewrite Hd. by apply (reads_pure (Ok b)). Qed.

(** A name found through the entries is the name found in the list. *)
Lemma find_named_app name es1 es2 :
  find_named name (es1 ++ es2) =
  match find_named name es1 with Some b => Some b | None => find_named name es2 end.
Proof. induction es1 as [|e es1 IH]; simpl; [done|]. by case_bool_decide. Qed.

Lemma take_S_drop {A} (l : list A) slot n x :
  l !! slot = Some x -> take (S n) (drop slot l) = x :: take n (drop (S slot) l).
Proof. intros Hx. by rewrite (drop_S _ _ _ Hx). Qed.

Lemma reads_find_entry_from fs img ino name n : forall fs slot,
  holds fs img -> length (i_direct ino) = DIRECT_BLOCKS -> Forall u64 (i_direct ino) ->
  (slot + n <= DIRECT_BLOCKS)%nat -> ~ 0 ∈ take n (drop slot (i_direct ino)) ->
  reads (find_entry_from ino name slot n)
    (Ok (find_named name (concat (map (fun b => used_entries (img b))
                                      (take n (drop slot (i_direct ino))))))) fs.
Proof.
  clear fs. induction n as [|n IH]; intros fs slot Hh Hl Hu Hn Hz.
  - simpl. apply (reads_pure (Ok None)). apply Hh.
  - destruct (lookup_lt_is_Some_2 (i_direct ino) slot) as [b Hb]; [lia|].
    rewrite (take_S_drop _ _ _ b Hb) in *. simpl.
    assert (Hb64 : u64 b) by (eapply Forall_lookup_1; eauto).
    eapply reads_bind; [apply reads_direct; [apply Hh|done]|]. intros fs1 Hs1.
    destruct (b =? 0) eqn:Hb0. { apply Z.eqb_eq in Hb0. subst. exfalso. apply Hz. left. }
    eapply reads_bind; [apply reads_block; [by eapply holds_same|unfold u64 in *; lia]|].
    intros fs2 Hs2. rewrite find_named_app.
    assert (Hh2 : holds fs2 img) by (eapply holds_same; [|exact Hh]; by eapply same_trans).
    destruct (find_named name (used_entries (img b))) as [i|] eqn:Hf.
    + apply (reads_pure (Ok (Some i))). apply Hh2.
    + apply IH; [done..|lia|]. intros Hin. apply Hz. by right.
Qed.

(** What every representation says of its inode. *)
Lemma node_at_fits fs img b ino k o m :
  holds fs img -> 0 <= b < sector_count (fs_device fs) -> node_at img b ino k o m -> inode_fits ino.
Proof.
  intros [Hok Hi] Hb (Hd & _). eapply Inode_decode_fits; [|exact Hd]. rewrite <-Hi.
  by apply image_sector.
Qed.

Lemma reads_find_entry fs img b ino k o m name :
  holds fs img -> 0 <= b < sector_count (fs_device fs) -> node_at img b ino k o m ->
  Forall (fun p => 0 < p) (ptrs ino) ->
  reads (find_entry ino name) (Ok (find_named name (dir_entries img ino))) fs.
Proof.
  intros Hh Hb Hn Hp. pose proof (node_at_fits _ _ _ _ _ _ _ Hh Hb Hn) as Hf.
  destruct Hn as (_ & _ & _ & _ & Hu). destruct Hf as (_ & _ & _ & _ & Hbu & Hl & H64).
  unfold find_entry. rewrite slot_count_eq by done. unfold u32 in Hbu.
  apply (reads_find_entry_from fs); [done..|simpl; lia|].
  intros Hin. simpl in Hin. eapply Forall_forall in Hp; [|exact Hin]. lia.
Qed.

(** Blocks of the device, none of them the first. *)
Definition on_disk fs (bl : list Z) : Prop :=
  Forall (fun s => 0 < s < sector_count (fs_device fs)) bl.

Lemma on_disk_same fs fs' bl : same fs fs' -> on_disk fs bl -> on_disk fs' bl.
Proof. intros (_ & _ & Hc & _). unfold on_disk. by rewrite Hc. Qed.

Lemma on_disk_ptrs fs ino : forall b bl', on_disk fs (b :: ptrs ino ++ bl') ->
  0 <= b < sector_count (fs_device fs) /\ Forall (fun p => 0 < p) (ptrs ino) /\ on_disk fs bl'.
Proof.
  intros b bl' Hd. inversion Hd as [|? ? Hb Hr]; subst. apply Forall_app in Hr as [Hp Hr].
  split; [lia|]. split; [|done]. eapply Forall_impl; [exact Hp|]. simpl. lia.
Qed.

Lemma find_named_child img name entries es bls :
  Forall3 (entry_rep img) entries es bls ->
  match child name entries with
  | None => find_named name es = None
  | Some c => exists b blc, find_named name es = Some b /\ rep img b c blc /\ blc ∈ bls
  end.
Proof.
  induction 1 as [|[n c] e bl entries es bls [Hn Hp] Hc IH]; simpl in *; [done|]. rewrite Hn.
  destruct (decide (n = name)) as [->|Hne].
  - rewrite !bool_decide_true by done. exists (de_inode e), bl. split; [done|]. split; [done|left].
  - rewrite !bool_decide_false by congruence. destruct (child name entries); [|done].
    destruct IH as (b & blc & ? & ? & ?). exists b, blc. split; [done|]. split; [done|by right].
Qed.

Lemma on_disk_child fs bl (bls : list (list Z)) : on_disk fs (concat bls) -> bl ∈ bls -> on_disk fs bl.
Proof.
  intros Hd Hin. apply list_elem_of_split in Hin as (l1 & l2 & ->).
  rewrite concat_app in Hd. simpl in Hd. apply Forall_app in Hd as [_ Hd].
  by apply Forall_app in Hd as [Hd _].
Qed.

Lemma kind_dir ino : i_kind ino = 1 -> node_kind ino = Directory.
Proof. unfold node_kind. intros ->. done. Qed.

Lemma kind_file ino : i_kind ino = 0 -> node_kind ino = File.
Proof. unfold node_kind. intros ->. done. Qed.

Lemma on_disk_sub fs bl bl' : (forall s, s ∈ bl' -> s ∈ bl) -> on_disk fs bl -> on_disk fs bl'.
Proof. intros Hs Hd. apply Forall_forall. intros s Hin. eapply Forall_forall in Hd; eauto. Qed.

Lemma elem_of_concat_sub (bls : list (list Z)) bl s : bl ∈ bls -> s ∈ bl -> s ∈ concat bls.
Proof.
  intros Hb Hs. apply list_elem_of_In, in_concat. exists bl. by rewrite <-!list_elem_of_In.
Qed.

(** The head of a directory walk: the node must be a readable directory. *)
Lemma reads_enter_dir {A} fs img b ino o m user (k : Inode -> M _ FsError A) v :
  holds fs img -> 0 <= b -> node_at img b ino 1 o m ->
  (allows o m user false = false -> v = Err Denied) ->
  (allows o m user false = true -> forall fs', same fs fs' -> reads (k ino) v fs') ->
  reads (inode ← read_inode b;
         guard_err (bool_decide (node_kind inode <> Directory)) WrongType ;;
         guard_err (negb (permits inode user false)) Denied ;;
         k inode) v fs.
Proof.
  intros Hh Hb (Hdec & Hk & <- & <- & _) Hno Hyes.
  eapply reads_bind; [rewrite <-Hdec; by apply reads_inode|]. intros fs1 Hs1.
  apply reads_guard; [apply Hs1| |]; rewrite kind_dir by done; [done|]. intros _.
  apply reads_guard; [apply Hs1| |]; rewrite permits_allows; destruct (allows _ _ _ _); simpl; auto; done.
Qed.

Lemma reads_enter_file {A} fs img b ino o m (k : Inode -> M _ FsError A) :
  holds fs img -> 0 <= b -> node_at img b ino 0 o m ->
  reads (inode ← read_inode b;
         guard_err (bool_decide (node_kind inode <> Directory)) WrongType ;;
         k inode) (Err WrongType) fs.
Proof.
  intros Hh Hb (Hdec & Hk & _). eapply reads_bind; [rewrite <-Hdec; by apply reads_inode|].
  intros fs1 Hs1. apply reads_guard; [apply Hs1|done|]. by rewrite kind_file.
Qed.

(** Walking a path reaches the node the specification reaches. *)
Lemma reads_resolve_from img user cs : forall b t bl, rep img b t bl ->
  exists v : result FsError Z,
    (forall fs, holds fs img -> on_disk fs bl -> reads (resolve_from b cs user) v fs) /\
    match s_resolve t cs user, v with
    | Ok c, Ok b' => exists bl', rep img b' c bl' /\ (forall s, s ∈ bl' -> s ∈ bl)
    | Err e, Err e' => e = e'
    | _, _ => False
    end.
Proof.
  induction cs as [|name rest IH]; intros b t bl Hr; simpl s_resolve.
  { exists (Ok b). split; [|by exists bl]. intros fs Hh _. apply (reads_pure (Ok b)), Hh. }
  destruct t as [o m data|o m entries].
  { destruct Hr as (ino & Hn & _ & _ & _ & ->). exists (Err WrongType). split; [|done].
    intros fs Hh Hd. apply (reads_enter_file fs img b ino o m); [done| |done].
    inversion Hd; subst. lia. }
  apply rep_dir in Hr as (ino & bls & Hn & Hsz & Hc & ->).
  destruct (allows o m user false) eqn:Hal; simpl negb; cbv iota.
  2:{ exists (Err Denied). split; [|done]. intros fs Hh Hd. apply on_disk_ptrs in Hd as (Hb & _ & _).
      apply (reads_enter_dir fs img b ino o m); [done|lia|done|done|by rewrite Hal]. }
  pose proof (find_named_child img name _ _ _ Hc) as Hfind.
  assert (Hwalk : forall v, (forall fs, holds fs img -> on_disk fs (concat bls) ->
      reads (next ← lift (ok_or NotFound (find_named name (dir_entries img ino)));
             resolve_from next rest user) v fs) ->
    forall fs, holds fs img -> on_disk fs (b :: ptrs ino ++ concat bls) ->
      reads (resolve_from b (name :: rest) user) v fs).
  { intros v Hv fs Hh Hd. apply on_disk_ptrs in Hd as (Hb & Hp & Hd).
    apply (reads_enter_dir fs img b ino o m); [done|lia|done|by rewrite Hal|].
    intros _ fs1 Hs1. pose proof (holds_same _ _ _ Hs1 Hh) as Hh1. eapply reads_bind.
    - eapply reads_find_entry; [done| |done|done]. destruct Hs1 as (_ & _ & -> & _). done.
    - intros fs2 Hs2. apply Hv; [by eapply holds_same|].
      eapply on_disk_same; [|exact Hd]. by eapply same_trans. }
  destruct (child name entries) as [c|].
  - destruct Hfind as (b' & blc & Hf & Hrep & Hin). rewrite Hf in Hwalk.
    destruct (IH b' c blc Hrep) as (v & Hv & Hres). exists v. split.
    + apply Hwalk. intros fs Hh Hd. apply Hv; [done|]. by eapply on_disk_child.
    + destruct (s_resolve c rest user), v; try done. destruct Hres as (bl' & ? & Hsub).
      exists bl'. split; [done|]. intros s Hs. right. apply elem_of_app. right.
      eapply elem_of_concat_sub; eauto.
  - exists (Err NotFound). split; [|done]. rewrite Hfind in Hwalk. apply Hwalk.
    intros fs Hh _. apply reads_bind_err, (reads_pure (Err NotFound)), Hh.
Qed.

Lemma reads_data img ino n : forall fs slot left out,
  holds fs img -> length (i_direct ino) = DIRECT_BLOCKS -> (slot + n <= DIRECT_BLOCKS)%nat ->
  0 <= left -> on_disk fs (take n (drop slot (i_direct ino))) ->
  reads (read_data ino slot n left out)
    (Ok (out ++ take (Z.to_nat left) (concat (map img (take n (drop slot (i_direct ino))))))) fs.
Proof.
  induction n as [|n IH]; intros fs slot left out Hh Hl Hn Hleft Hd.
  - simpl. rewrite take_nil, app_nil_r. apply (reads_pure (Ok out)), Hh.
  - destruct (lookup_lt_is_Some_2 (i_direct ino) slot) as [b Hb]; [lia|].
    rewrite (take_S_drop _ _ _ b Hb) in *. inversion Hd as [|? ? Hbd Hd']; subst.
    cbn [read_data]. eapply reads_bind; [apply reads_direct; [apply Hh|done]|]. intros fs1 Hs1.
    eapply reads_bind; [apply reads_block; [by eapply holds_same|lia]|]. intros fs2 Hs2.
    assert (Hs : same fs fs2) by (by eapply same_trans). cbv zeta.
    assert (Hlen : length (img b) = 512%nat).
    { destruct Hh as [Hok Hi]. rewrite <-Hi. apply image_sector; [done|lia]. }
    unfold BLOCK_SIZE, SECTOR_SIZE.
    replace (out ++ take (Z.to_nat left) (concat (map img (b :: take n (drop (S slot) (i_direct ino))))))
      with ((out ++ take (Z.to_nat (Z.min left 512)) (img b)) ++
            take (Z.to_nat (left - Z.min left 512)) (concat (map img (take n (drop (S slot) (i_direct ino)))))).
    + apply IH; [by eapply holds_same|done|lia|lia|by eapply on_disk_same].
    + simpl. rewrite <-app_assoc, take_app, Hlen. f_equal. f_equal.
      * destruct (decide (left <= 512)); [by rewrite Z.min_l by lia|].
        rewrite Z.min_r by lia. rewrite !take_ge; [done|lia|lia].
      * f_equal. lia.
Qed.

Lemma reads_names img ino n : forall fs slot names,
  holds fs img -> length (i_direct ino) = DIRECT_BLOCKS -> (slot + n <= DIRECT_BLOCKS)%nat ->
  on_disk fs (take n (drop slot (i_direct ino))) ->
  reads (list_names ino slot n names)
    (Ok (names ++ names_of (concat (map (fun b => used_entries (img b))
                                        (take n (drop slot (i_direct ino))))))) fs.
Proof.
  induction n as [|n IH]; intros fs slot names Hh Hl Hn Hd.
  - simpl. rewrite app_nil_r. apply (reads_pure (Ok names)), Hh.
  - destruct (lookup_lt_is_Some_2 (i_direct ino) slot) as [b Hb]; [lia|].
    rewrite (take_S_drop _ _ _ b Hb) in *. inversion Hd as [|? ? Hbd Hd']; subst.
    cbn [list_names]. eapply reads_bind; [apply reads_direct; [apply Hh|done]|]. intros fs1 Hs1.
    eapply reads_bind; [apply reads_block; [by eapply holds_same|lia]|]. intros fs2 Hs2.
    assert (Hs : same fs fs2) by (by eapply same_trans).
    simpl map. simpl concat. unfold names_of. rewrite omap_app, app_assoc.
    apply IH; [by eapply holds_same|done|lia|by eapply on_disk_same].
Qed.

Lemma names_of_entries img entries es bls :
  Forall3 (entry_rep img) entries es bls -> names_of es = map fst entries.
Proof.
  unfold names_of. induction 1 as [|[n c] e bl entries es bls [Hn _] Hc IH]; [done|].
  cbn [omap list_omap map]. rewrite Hn. simpl. by f_equal.
Qed.

Lemma entries_count img entries es bls :
  Forall3 (entry_rep img) entries es bls -> length es = length entries /\ length bls = length entries.
Proof. induction 1; simpl; lia. Qed.

End Reading.
