(* ===== verification/FsCow.v ===== *)
(** * Copy-on-write: what a transaction touches, and the tree it builds

    Every block a transaction writes was free when it began, whichever way it
    ends; and when it succeeds the new blocks represent the tree the
    specification computes. *)

From stdpp Require Import base list gmap numbers list_numbers.
From Stdlib Require Import Lia.
From S2P Require Import Prelude Block FsLayout FsOps FsSpec FsRep.

(** What only the environment decides: space and the device. *)
Definition env_error (e : FsError) : Prop := e = Full \/ exists be, e = Device be.

Section Cow.
Context {D : Type} `{BlockLaws D}.
Implicit Types fs : FileSystem D.

Abbreviation sb_of fs := (st_superblock (fs_state fs)).
Abbreviation allocated fs s := (is_allocated (fs_state fs) s).
Abbreviation img_of fs := (image (fs_device fs)).

(** The shape of a mounted filesystem that no operation changes. *)
Record geometry fs : Prop := {
  g_ok : dev_ok (fs_device fs);
  g_total : sb_total_blocks (sb_of fs) = sector_count (fs_device fs);
  g_first : 3 <= sb_first_data_block (sb_of fs) <= sb_total_blocks (sb_of fs);
  g_bits : sb_total_blocks (sb_of fs) <= 8 * Z.of_nat (length (st_bitmap (fs_state fs)));
  g_bytes : Forall is_byte (st_bitmap (fs_state fs));
}.

(** From [fs] to [fs'] blocks were claimed and claimed blocks written, nothing
    else: no block of the metadata area and none that was allocated in [fs] has a
    new version. *)
Record extends fs fs' : Prop := {
  ext_sb : sb_of fs' = sb_of fs;
  ext_slot : st_live_slot (fs_state fs') = st_live_slot (fs_state fs);
  ext_bitmap : length (st_bitmap (fs_state fs')) = length (st_bitmap (fs_state fs));
  ext_bytes : Forall is_byte (st_bitmap (fs_state fs')) ;
  ext_ok : dev_ok (fs_device fs');
  ext_count : sector_count (fs_device fs') = sector_count (fs_device fs);
  ext_alloc : forall s, 0 <= s -> allocated fs s = true -> allocated fs' s = true;
  ext_frame : forall s, 0 <= s ->
    s < sb_first_data_block (sb_of fs) \/ allocated fs s = true ->
    versions (fs_device fs') s = versions (fs_device fs) s;
}.

Lemma extends_refl fs : geometry fs -> extends fs fs.
Proof. intros []. by split. Qed.

Lemma extends_trans fs1 fs2 fs3 : extends fs1 fs2 -> extends fs2 fs3 -> extends fs1 fs3.
Proof.
  intros [] []. split; try congruence; auto. intros s Hs Hor.
  rewrite ext_frame1, ext_frame0; [done..|]. rewrite ext_sb0. destruct Hor; auto.
Qed.

Lemma geometry_extends fs fs' : geometry fs -> extends fs fs' -> geometry fs'.
Proof.
  intros [] []. split; auto; rewrite ?ext_sb0, ?ext_bitmap0, ?ext_count0; done.
Qed.

Lemma same_extends fs fs' : geometry fs -> same fs fs' -> extends fs fs'.
Proof.
  intros [] (Hst & Hok & Hc & Hv). split; rewrite ?Hst; auto.
Qed.

Lemma geometry_same fs fs' : geometry fs -> same fs fs' -> geometry fs'.
Proof. intros Hg Hs. eapply geometry_extends; [done|]. by apply same_extends. Qed.

Lemma extends_image fs fs' s :
  extends fs fs' -> 0 <= s -> s < sb_first_data_block (sb_of fs) \/ allocated fs s = true ->
  img_of fs' s = img_of fs s.
Proof. intros He Hs Ha. unfold image. by rewrite (ext_frame _ _ He). Qed.

(** Changing only the retired list changes nothing the relation speaks of. *)
Lemma extends_retire fs l :
  geometry fs -> extends fs (with_state fs (set_retired (fs_state fs) l)).
Proof. intros []. by split. Qed.

(** ** Claiming a block *)

Lemma scan_free_some st n : forall block b,
  scan_free st block n = Some b ->
  block <= b < block + Z.of_nat n /\ is_allocated st b = false.
Proof.
  induction n as [|n IH]; intros block b; simpl; [done|].
  destruct (is_allocated st block) eqn:Ha; simpl.
  - intros Hs. apply IH in Hs as [? ?]. split; [lia|done].
  - intros [= <-]. split; [lia|done].
Qed.

Lemma scan_free_none st n : forall block,
  scan_free st block n = None ->
  forall b, block <= b < block + Z.of_nat n -> is_allocated st b = true.
Proof.
  induction n as [|n IH]; intros block; simpl; [lia|].
  destruct (is_allocated st block) eqn:Ha; simpl; [|done].
  intros Hs b Hb. destruct (decide (b = block)) as [->|]; [done|]. eapply IH; [exact Hs|lia].
Qed.

(** A block free in [fs] and claimed in [fs']. *)
Definition claimed fs fs' (s : Z) : Prop :=
  sb_first_data_block (sb_of fs) <= s < sb_total_blocks (sb_of fs) /\
  allocated fs s = false /\ allocated fs' s = true.

Lemma wp_alloc fs (Q : result FsError Z -> FileSystem D -> Prop) :
  geometry fs ->
  (forall b fs', extends fs fs' -> claimed fs fs' b ->
     (forall s, 0 <= s -> allocated fs' s = true -> s = b \/ allocated fs s = true) ->
     st_retired (fs_state fs') = st_retired (fs_state fs) ->
     fs_device fs' = fs_device fs -> Q (Ok b) fs') ->
  Q (Err Full) fs -> wp alloc_block Q fs.
Proof.
  intros Hg Hok Herr. unfold wp, alloc_block, allocate.
  destruct (scan_free _ _ _) as [b|] eqn:Hs; [|exact Herr].
  apply scan_free_some in Hs as [Hb Hfree]. simpl.
  assert (Hb0 : 0 <= b < 8 * Z.of_nat (length (st_bitmap (fs_state fs)))).
  { destruct Hg. lia. }
  assert (Hget : forall s, 0 <= s ->
    is_allocated (mark (fs_state fs) b true) s = bool_decide (b = s) || allocated fs s).
  { intros s Hs. unfold is_allocated, mark; simpl. apply bm_get_set; lia. }
  assert (Hext : extends fs (with_state fs (mark (fs_state fs) b true))).
  { destruct Hg. split; simpl; auto.
    - apply length_bm_set.
    - by apply bm_set_bytes.
    - intros s Hs Ha. rewrite Hget by done. rewrite Ha. apply orb_true_r. }
  apply Hok; [done| | |done|done].
  - split; [destruct Hg; lia|]. split; [done|]. simpl. rewrite Hget by lia.
    by rewrite bool_decide_true.
  - simpl. intros s Hs Ha. rewrite Hget in Ha by done. apply orb_true_iff in Ha as [Ha|Ha]; [|auto].
    apply bool_decide_eq_true in Ha. auto.
Qed.

(** ** Writing a claimed block *)

Lemma wp_write fs0 fs b data (Q : result FsError unit -> FileSystem D -> Prop) :
  geometry fs0 -> extends fs0 fs -> claimed fs0 fs b -> is_sector data ->
  (forall fs', extends fs0 fs' -> fs_state fs' = fs_state fs ->
     img_of fs' b = data -> (forall s, s <> b -> versions (fs_device fs') s = versions (fs_device fs) s) ->
     Q (Ok tt) fs') ->
  (forall e fs', extends fs0 fs' -> fs_state fs' = fs_state fs -> Q (Err (Device e)) fs') ->
  wp (write_block b data) Q fs.
Proof.
  intros Hg He Hcl [Hlen Hbytes] Hok Herr. unfold wp, write_block, on_device.
  destruct (dev_write b data (fs_device fs)) as [r d'] eqn:Hw.
  assert (Hb : 0 <= b) by (destruct Hg, Hcl; lia).
  apply write_law in Hw as (Hok' & Hc & Hout & Hr); [|apply He|done|done].
  rewrite Hlen in *. change (Z.of_nat 512 / 512) with 1 in *.
  assert (Hother : forall s, s <> b -> versions d' s = versions (fs_device fs) s).
  { intros s Hs. apply Hout. lia. }
  assert (Hext : extends fs0 (with_device fs d')).
  { destruct He. split; simpl; auto; [by rewrite Hc|]. intros s Hs Hor.
    rewrite Hother; [auto|]. intros ->. destruct Hcl as (Hr1 & Hr2 & _).
    destruct Hor; [lia|congruence]. }
  destruct r as [[]|e|]; simpl; [|by apply Herr|done].
  apply Hok; [done|done| |done]. destruct Hr as (n & Hn & Hl & _ & Hv).
  assert (n = 1) as -> by lia. unfold image; simpl. rewrite Hv by lia. rewrite List.last_last.
  unfold sector_of. rewrite Z.sub_diag. unfold slice. simpl. rewrite drop_0, take_ge; [done|lia].
Qed.

Lemma claimed_more fs0 fs fs' b : extends fs fs' -> 0 <= b -> claimed fs0 fs b -> claimed fs0 fs' b.
Proof. intros He Hb (? & ? & ?). split; [done|]. split; [done|]. by apply (ext_alloc _ _ He). Qed.

Lemma claimed_earlier fs0 fs fs' b : extends fs0 fs -> 0 <= b -> claimed fs fs' b -> claimed fs0 fs' b.
Proof.
  intros He Hb (Hr & Hf & Ha). rewrite (ext_sb _ _ He) in Hr. split; [done|]. split; [|done].
  destruct (allocated fs0 b) eqn:Hx; [|done]. by rewrite (ext_alloc _ _ He) in Hf.
Qed.

Lemma claimed_pos fs0 fs b : geometry fs0 -> claimed fs0 fs b -> 3 <= b.
Proof. intros [] [? _]. lia. Qed.

Lemma claimed_on_disk fs0 fs b :
  geometry fs0 -> claimed fs0 fs b -> 0 < b < sector_count (fs_device fs0).
Proof. intros [] [? _]. lia. Qed.

(** Only the listed blocks became allocated. *)
Definition allocates fs fs' (new : list Z) : Prop :=
  Forall (claimed fs fs') new /\
  forall s, 0 <= s -> allocated fs' s = true -> s ∈ new \/ allocated fs s = true.

(** ** The store loop *)

Lemma wp_store_blocks buffers : forall fs slot fresh (Q : result FsError (list Z) -> FileSystem D -> Prop),
  geometry fs -> Forall is_sector buffers -> (slot + length buffers <= length fresh)%nat ->
  (forall bs fs', extends fs fs' -> allocates fs fs' bs -> NoDup bs -> length bs = length buffers ->
     map (img_of fs') bs = buffers -> st_retired (fs_state fs') = st_retired (fs_state fs) ->
     Q (Ok (take slot fresh ++ bs ++ drop (slot + length buffers) fresh)) fs') ->
  (forall e fs', extends fs fs' -> st_retired (fs_state fs') = st_retired (fs_state fs) ->
     env_error e -> Q (Err e) fs') ->
  wp (store_blocks buffers slot fresh) Q fs.
Proof.
  induction buffers as [|data buffers IH]; intros fs slot fresh Q Hg Hsec Hlen Hok Herr.
  - simpl. apply wp_ret. rewrite <-(take_drop slot fresh) at 1.
    replace (drop slot fresh) with ([] ++ drop (slot + length (@nil (list Z))) fresh)
      by (simpl; by rewrite Nat.add_0_r).
    apply Hok; [by apply extends_refl|split; [constructor|auto]|constructor|done|done|done].
  - inversion Hsec as [|? ? Hd Hsec']; subst. cbn [store_blocks].
    apply wp_bind. apply wp_alloc; [done| |apply Herr; [by apply extends_refl|done|by left]].
    intros b fs1 He1 Hc1 Honly1 Hret1 Hdev1. apply wp_bind.
    eapply wp_write; [exact Hg|exact He1|exact Hc1|exact Hd| |].
    2:{ intros e fs2 He2 Hst2. apply Herr; [done|by rewrite Hst2|]. right. by exists e. }
    intros fs2 He2 Hst2 Himg2 Hoth2. assert (Hg2 := geometry_extends _ _ Hg He2).
    apply IH; [done|done|rewrite length_insert; simpl in *; lia| |].
    2:{ intros e fs3 He3 Hr3 Hee. apply Herr; [by eapply extends_trans|by rewrite Hr3, Hst2|done]. }
    intros bs fs3 He3 [Hcl3 Honly3] Hnd Hlbs Himg3 Hret3. pose proof (claimed_pos _ _ _ Hg Hc1) as Hb3.
    assert (Hb2 : allocated fs2 b = true) by (rewrite Hst2; apply Hc1).
    assert (Hnin : b ∉ bs).
    { intros Hin. eapply Forall_forall in Hcl3; [|exact Hin]. destruct Hcl3 as (_ & ? & _). congruence. }
    replace (take (S slot) (<[slot:=b]> fresh) ++ bs ++ drop (S slot + length buffers) (<[slot:=b]> fresh))
      with (take slot fresh ++ (b :: bs) ++ drop (slot + length (data :: buffers)) fresh).
    + apply Hok; [by eapply extends_trans| |by constructor|simpl; lia| |by rewrite Hret3, Hst2].
      * split.
        -- constructor; [eapply claimed_more; [exact He3|lia|]; rewrite ?Hst2; split; [apply Hc1|]; split; [apply Hc1|done]|].
           eapply Forall_impl; [exact Hcl3|]. intros s Hs. eapply claimed_earlier; [exact He2| |done].
           apply claimed_pos in Hs; [lia|done].
        -- intros s Hs Ha. apply Honly3 in Ha as [Ha|Ha]; [left; by right| |done].
           rewrite Hst2 in Ha. apply Honly1 in Ha as [->|Ha]; [left; left|by right|done].
      * simpl. rewrite Himg3. f_equal. rewrite (extends_image _ _ _ He3); [done|lia|by right].
    + simpl in Hlen. rewrite (take_S_r _ _ b) by (apply list_lookup_insert_eq; lia).
      rewrite take_insert_ge, <-app_assoc by lia.
      rewrite drop_insert_lt by lia. simpl. do 4 f_equal. lia.
Qed.

Lemma allocates_trans fs0 fs1 fs2 l1 l2 :
  geometry fs0 -> extends fs0 fs1 -> extends fs1 fs2 ->
  allocates fs0 fs1 l1 -> allocates fs1 fs2 l2 -> allocates fs0 fs2 (l2 ++ l1).
Proof.
  intros Hg He1 He2 [Hc1 Ho1] [Hc2 Ho2]. assert (Hg1 := geometry_extends _ _ Hg He1). split.
  - apply Forall_app. split.
    + eapply Forall_impl; [exact Hc2|]. intros s Hs. eapply claimed_earlier; [done| |done].
      apply claimed_pos in Hs; [lia|done].
    + eapply Forall_impl; [exact Hc1|]. intros s Hs. eapply claimed_more; [done| |done].
      apply claimed_pos in Hs; [lia|done].
  - intros s Hs Ha. apply Ho2 in Ha as [Ha|Ha]; [left; apply elem_of_app; by left| |done].
    apply Ho1 in Ha as [Ha|Ha]; [left; apply elem_of_app; by right|by right|done].
Qed.

(** What is claimed later was not allocated before. *)
Lemma claimed_fresh fs fs' s l : Forall (claimed fs fs') l -> allocated fs s = true -> s ∉ l.
Proof.
  intros Hc Ha Hin. eapply Forall_forall in Hc; [|exact Hin]. destruct Hc as (_ & ? & _). congruence.
Qed.

Lemma wp_store_one {A} fs data (k : Z -> M (FileSystem D) FsError A) Q :
  geometry fs -> is_sector data ->
  (forall b fs', extends fs fs' -> allocates fs fs' [b] -> img_of fs' b = data ->
     st_retired (fs_state fs') = st_retired (fs_state fs) -> wp (k b) Q fs') ->
  (forall e fs', extends fs fs' -> st_retired (fs_state fs') = st_retired (fs_state fs) ->
     env_error e -> Q (Err e) fs') ->
  wp (b ← alloc_block; write_block b data ;; k b) Q fs.
Proof.
  intros Hg Hd Hok Herr. apply wp_bind.
  apply wp_alloc; [done| |apply Herr; [by apply extends_refl|done|by left]].
  intros b fs1 He1 Hc1 Honly1 Hret1 Hdev1. apply wp_bind.
  eapply wp_write; [exact Hg|exact He1|exact Hc1|exact Hd| |].
  - intros fs2 He2 Hst2 Himg2 _. apply Hok; [done| |done|by rewrite Hst2].
    split; [apply Forall_singleton; unfold claimed; rewrite Hst2; exact Hc1|].
    intros s Hs Ha. rewrite Hst2 in Ha. apply Honly1 in Ha as [->|Ha]; [left; left|by right|done].
  - intros e fs2 He2 Hst2. apply Herr; [done|by rewrite Hst2|]. right. by exists e.
Qed.

(** ** A directory written afresh *)

Lemma inode_fits_contents ino fresh used size :
  inode_fits ino -> length fresh = DIRECT_BLOCKS -> Forall u64 fresh -> u32 used -> u64 size ->
  inode_fits (with_contents ino fresh used size).
Proof. intros (? & ? & ? & _) ? ? ? ?. unfold inode_fits. simpl. auto 10. Qed.

Lemma no_pointers_u64 : Forall u64 no_pointers.
Proof. apply Forall_replicate. unfold u64. lia. Qed.

Lemma claimed_u64 fs fs' l : geometry fs -> Forall (claimed fs fs') l -> Forall u64 l.
Proof.
  intros Hg Hc. eapply Forall_impl; [exact Hc|]. intros s [Hs _]. destruct Hg.
  pose proof (count_bound _ g_ok0). unfold u64, U64_MAX in *. lia.
Qed.

Lemma eight_pos : (0 < ENTRIES_PER_BLOCK)%nat.
Proof. unfold ENTRIES_PER_BLOCK. lia. Qed.

Lemma encode_chunk_sector chunk :
  Forall (fun e => entry_fits e /\ de_inode e <> 0) chunk -> is_sector (encode_entries zero_block 0 chunk).
Proof.
  intros Hc. split; [by rewrite length_encode_entries|]. apply encode_entries_bytes; [|apply zero_block_bytes].
  eapply Forall_impl; [exact Hc|]. simpl. tauto.
Qed.

Lemma used_entries_chunks es :
  Forall (fun e => entry_fits e /\ de_inode e <> 0) es ->
  concat (map used_entries (map (encode_entries zero_block 0) (chunks ENTRIES_PER_BLOCK es))) = es.
Proof.
  intros Hes. rewrite <-(chunks_concat _ eight_pos es) at 2.
  f_equal. rewrite map_map. rewrite <-(map_id (chunks ENTRIES_PER_BLOCK es)) at 2. apply map_ext_in.
  intros c Hc%list_elem_of_In.
  pose proof (chunks_Forall _ eight_pos _ _ Hes) as Hall.
  eapply Forall_forall in Hall as [Hlen Hf]; [|exact Hc].
  apply used_encode_entries; [|done|]; (eapply Forall_impl; [exact Hf|]); simpl; tauto.
Qed.

(** The tail of [write_directory], once its blocks are chosen. *)
Lemma wp_write_inode fs0 fs directory bs es Q :
  geometry fs0 -> extends fs0 fs -> allocates fs0 fs bs -> NoDup bs ->
  inode_fits directory -> (length bs <= DIRECT_BLOCKS)%nat -> (length es <= 480)%nat ->
  concat (map (fun b => used_entries (img_of fs b)) bs) = es ->
  let ino := with_contents directory (bs ++ drop (length bs) no_pointers)
               (Z.of_nat (length bs)) (Z.of_nat (length es)) in
  (forall nb fs', extends fs0 fs' -> allocates fs0 fs' (nb :: ptrs ino) -> NoDup (nb :: ptrs ino) ->
     node_at (img_of fs') nb ino (i_kind directory) (i_owner directory) (i_mode directory) ->
     dir_entries (img_of fs') ino = es ->
     st_retired (fs_state fs') = st_retired (fs_state fs) -> Q (Ok nb) fs') ->
  (forall e fs', extends fs0 fs' -> st_retired (fs_state fs') = st_retired (fs_state fs) ->
     env_error e -> Q (Err e) fs') ->
  wp (new_inode_block ← alloc_block;
      write_block new_inode_block (Inode_encode ino) ;;
      mret new_inode_block) Q fs.
Proof.
  intros Hg He Hal Hnd Hfit Hlen Hes Hent ino Hok Herr. assert (Hg' := geometry_extends _ _ Hg He).
  assert (Hptrs : ptrs ino = bs).
  { unfold ptrs, ino; simpl. rewrite Nat2Z.id. by rewrite take_app_length. }
  assert (Hino : inode_fits ino).
  { apply inode_fits_contents; [done|..].
    - rewrite length_app, length_drop. unfold no_pointers. rewrite length_replicate. lia.
    - apply Forall_app. split; [by eapply claimed_u64, Hal|]. apply Forall_drop, no_pointers_u64.
    - unfold u32, DIRECT_BLOCKS in *. lia.
    - unfold u64. lia. }
  apply wp_store_one; [done|apply Inode_encode_sector; apply Hino|..].
  2:{ intros e fs' He' Hr' Hee. apply Herr; [by eapply extends_trans|done|done]. }
  intros nb fs' He' Hal' Himg Hret. apply wp_ret. rewrite Hptrs in Hok. apply Hok; [| | | | |done].
  - by eapply extends_trans.
  - apply (allocates_trans fs0 fs fs' bs [nb]); done.
  - constructor; [|done]. intros Hin. destruct Hal as [Hal _]. eapply Forall_forall in Hal; [|exact Hin].
    destruct Hal as (_ & _ & Ha). destruct Hal' as [Hal' _].
    eapply claimed_fresh; [exact Hal'|exact Ha|left].
  - split; [rewrite Himg; by apply Inode_decode_encode|]. repeat split.
    unfold ino; simpl. lia.
  - unfold dir_entries. rewrite Hptrs. rewrite <-Hent. f_equal. apply map_ext_in.
    intros s Hs%list_elem_of_In. f_equal. destruct Hal as [Hal _].
    eapply Forall_forall in Hal; [|exact Hs]. pose proof (claimed_pos _ _ _ Hg Hal).
    destruct Hal as (_ & _ & Ha). eapply extends_image; [done|lia|by right].
Qed.

Lemma wp_write_directory fs directory es Q :
  geometry fs -> inode_fits directory ->
  Forall (fun e => entry_fits e /\ de_inode e <> 0) es ->
  (forall nb ino fs', (length es <= DIR_CAPACITY)%nat -> extends fs fs' ->
     allocates fs fs' (nb :: ptrs ino) -> NoDup (nb :: ptrs ino) ->
     node_at (img_of fs') nb ino (i_kind directory) (i_owner directory) (i_mode directory) ->
     i_size ino = Z.of_nat (length es) -> dir_entries (img_of fs') ino = es ->
     st_retired (fs_state fs') = st_retired (fs_state fs) -> Q (Ok nb) fs') ->
  (forall e fs', extends fs fs' -> st_retired (fs_state fs') = st_retired (fs_state fs) ->
     env_error e \/ (e = TooLarge /\ (DIR_CAPACITY < length es)%nat) -> Q (Err e) fs') ->
  wp (write_directory directory es) Q fs.
Proof.
  intros Hg Hfit Hes Hok Herr. unfold write_directory. apply wp_bind.
  assert (Hneed : (Z.max (div_ceil (Z.of_nat (length es)) (Z.of_nat ENTRIES_PER_BLOCK)) 1
                   >? Z.of_nat DIRECT_BLOCKS) = negb (length es <=? DIR_CAPACITY)%nat).
  { pose proof (div_ceil_le (Z.of_nat (length es)) 8 60 ltac:(lia)) as Hd.
    unfold ENTRIES_PER_BLOCK, DIRECT_BLOCKS, DIR_CAPACITY. change (Z.of_nat 8) with 8.
    destruct (length es <=? 480)%nat eqn:Hc; [apply Nat.leb_le in Hc|apply Nat.leb_gt in Hc]; cbn [negb];
    rewrite Z.gtb_ltb; [apply Z.ltb_ge|apply Z.ltb_lt];
    [assert (div_ceil (Z.of_nat (length es)) 8 <= 60) by (apply Hd; lia)
    |assert (~ div_ceil (Z.of_nat (length es)) 8 <= 60) by (rewrite Hd; lia)]; clear Hd; lia. }
  apply wp_guard; intros Hb; rewrite Hneed in Hb.
  { apply Herr; [by apply extends_refl|done|]. right. split; [done|]. by apply negb_true_iff, Nat.leb_gt in Hb. }
  assert (Hcap : (length es <= 480)%nat) by (by apply negb_false_iff, Nat.leb_le in Hb).
  pose proof (length_chunks _ eight_pos es) as Hlc.
  assert (Hlc60 : (length (chunks ENTRIES_PER_BLOCK es) <= 60)%nat).
  { apply Nat2Z.inj_le. rewrite Hlc. apply div_ceil_le; unfold ENTRIES_PER_BLOCK; lia. }
  apply wp_bind. apply wp_store_blocks; [done| | | |].
  { apply Forall_map. pose proof (chunks_Forall _ eight_pos _ _ Hes) as Hall.
    eapply Forall_impl; [exact Hall|]. simpl. intros c [_ Hc]. by apply encode_chunk_sector. }
  { rewrite length_map. unfold no_pointers. rewrite length_replicate. unfold DIRECT_BLOCKS. lia. }
  2:{ intros e fs' He Hr Hee. apply Herr; auto. }
  intros bs fs1 He1 Hal1 Hnd1 Hlbs Himg1 Hret1. rewrite length_map in Hlbs. simpl take. rewrite length_map.
  assert (Hent1 : concat (map (fun b => used_entries (img_of fs1 b)) bs) = es).
  { rewrite <-(map_map (img_of fs1) used_entries), Himg1. by apply used_entries_chunks. }
  destruct es as [|e0 es0] eqn:Hees.
  - destruct bs; [|done]. simpl. apply wp_bind, wp_store_one.
    + by eapply geometry_extends.
    + split; [done|apply zero_block_bytes].
    + intros b fs2 He2 Hal2 Himg2 Hret2. apply wp_ret.
      eapply (wp_write_inode fs fs2 directory [b] []); [done|by eapply extends_trans| | |done| | | | |].
      * apply (allocates_trans fs fs1 fs2 [] [b]); done.
      * apply NoDup_singleton.
      * simpl. unfold DIRECT_BLOCKS. lia.
      * simpl; lia.
      * simpl. rewrite Himg2. vm_compute. done.
      * intros nb fs3 He3 Hal3 Hnd3 Hn3 Hd3 Hr3. eapply Hok; [simpl; lia|done|exact Hal3|done|done|done|done|].
        by rewrite Hr3, Hret2.
      * intros e fs3 He3 Hr3 Hee. apply Herr; [done|by rewrite Hr3, Hret2|by left].
    + intros e fs2 He2 Hr2 Hee. apply Herr; [by eapply extends_trans|by rewrite Hr2|by left].
  - rewrite <-Hees in *. clear e0 es0 Hees. apply wp_bind, wp_ret. rewrite <-Hlbs.
    rewrite <-Hlc, <-Hlbs.
    apply (wp_write_inode fs fs1 directory bs es); [done|done|done|done|done|unfold DIRECT_BLOCKS; lia|done|done| |].
    + intros nb fs3 He3 Hal3 Hnd3 Hn3 Hd3 Hr3. eapply Hok; [done|done|exact Hal3|done|done|done|done|].
      by rewrite Hr3.
    + intros e fs3 He3 Hr3 Hee. apply Herr; [done|by rewrite Hr3|by left].
Qed.

End Cow.
