(* ===== verification/FsRewrite.v ===== *)
(** * The rewrite of a path implements the specification's

    The changes an operation makes at the node it targets, and the copy-on-write
    rewrite of the directories above it, each shown to build the tree the
    specification computes and to account for every block. *)

From stdpp Require Import base list gmap numbers list_numbers.
From Stdlib Require Import Lia.
From S2P Require Import Prelude Block FsLayout FsOps FsSpec FsRep FsCow.

Section Rewrite.
Context {D : Type} `{BlockLaws D}.
Implicit Types fs : FileSystem D.

Abbreviation sb_of fs := (st_superblock (fs_state fs)).
Abbreviation allocated fs s := (is_allocated (fs_state fs) s).
Abbreviation img_of fs := (image (fs_device fs)).
Abbreviation retired_of fs := (st_retired (fs_state fs)).

(** [fs] holds [t] at [b] in the blocks [bl]: allocated, each used once. *)
Record owns fs (b : Z) (t : tree) (bl : list Z) : Prop := {
  o_rep : rep (img_of fs) b t bl;
  o_nodup : NoDup bl;
  o_blocks : Forall (fun s => 3 <= s < sb_total_blocks (sb_of fs) /\ allocated fs s = true) bl;
  o_names : unique_names t;
}.

Lemma owns_extends fs fs' b t bl : extends fs fs' -> owns fs b t bl -> owns fs' b t bl.
Proof.
  intros He [Hr Hn Hb Hu]. split; [|done| |done].
  - eapply rep_frame; [exact Hr|]. intros s Hs. eapply Forall_forall in Hb as [Hs3 Ha]; [|exact Hs].
    eapply extends_image; [done|lia|by right].
  - eapply Forall_impl; [exact Hb|]. simpl. intros s [Hs Ha]. rewrite (ext_sb _ _ He).
    split; [done|]. apply (ext_alloc _ _ He); [lia|done].
Qed.

Lemma owns_on_disk fs b t bl : geometry fs -> owns fs b t bl -> on_disk fs bl.
Proof.
  intros Hg Ho. eapply Forall_impl; [apply Ho|]. simpl. intros s [Hs _]. destruct Hg. lia.
Qed.

(** A name that may or may not have a node. *)
Definition holds_node fs (existing : option Z) (node : option tree) (bl : list Z) : Prop :=
  match existing, node with
  | Some b, Some t => owns fs b t bl
  | None, None => bl = []
  | _, _ => False
  end.

(** How the blocks of a node became the blocks of its replacement. *)
Record replaced fs fs' (bl bl' freed : list Z) : Prop := {
  rp_new : forall s, s ∈ bl' -> s ∈ bl \/ claimed fs fs' s;
  rp_freed : forall s, s ∈ freed -> s ∈ bl /\ s ∉ bl';
  rp_kept : forall s, s ∈ bl -> s ∈ bl' \/ s ∈ freed;
  rp_only : forall s, 0 <= s -> allocated fs' s = true -> s ∈ bl' \/ allocated fs s = true;
}.

(** An action at the target implements a change of the tree. *)
Definition implements (action : option Z -> M (FileSystem D) FsError (option Z))
    (saction : option tree -> result FsError (option tree)) : Prop :=
  forall fs existing node bl Q, geometry fs -> holds_node fs existing node bl ->
  (forall existing' node' bl' freed fs', extends fs fs' -> saction node = Ok node' ->
     holds_node fs' existing' node' bl' -> replaced fs fs' bl bl' freed ->
     retired_of fs' = retired_of fs ++ freed -> Q (Ok existing') fs') ->
  (forall e fs', extends fs fs' -> env_error e \/ (saction node = Err e /\ same fs fs') -> Q (Err e) fs') ->
  wp (action existing) Q fs.

(** ** Reading inside a transaction *)

Lemma wp_reads {A B} fs (m : M _ FsError A) (k : A -> M _ FsError B) a Q :
  reads m (Ok a) fs ->
  (forall fs', same fs fs' -> wp (k a) Q fs') ->
  (forall e fs', same fs fs' -> Q (Err (Device e)) fs') ->
  wp (mbind k m) Q fs.
Proof.
  unfold reads. intros Hm Hok Herr. apply wp_bind. eapply wp_mono; [|exact Hm]. simpl.
  intros r fs' [Hs [->|[e ->]]]; auto.
Qed.

Lemma holds_image fs : geometry fs -> holds fs (img_of fs).
Proof. intros []. by split. Qed.

(** What both kinds of node have in common. *)
Lemma rep_node img b t bl :
  rep img b t bl -> exists ino rest,
    node_at img b ino (match t_kind t with Directory => 1 | File => 0 end) (t_owner t) (t_mode t) /\
    i_size ino = t_size t /\ bl = b :: ptrs ino ++ rest /\
    (t_kind t = File \/ t_size t = 0 -> rest = []).
Proof.
  destruct t as [o m data|o m entries]; intros Hr.
  - destruct Hr as (ino & Hn & Hs & _ & _ & ->). exists ino, []. rewrite app_nil_r. done.
  - apply rep_dir in Hr as (ino & bls & Hn & Hs & Hc & ->). exists ino, (concat bls).
    split; [done|]. split; [done|]. split; [done|]. intros [Hk|Hz]; [done|].
    apply entries_count in Hc as [_ Hc]. simpl in Hz. destruct bls; [done|simpl in Hc; lia].
Qed.

(** Another inode over the same contents. *)
Lemma rep_chmod img b t bl ino nb mode :
  rep img b t (b :: bl) -> Inode_decode (img b) = Ok ino ->
  Inode_decode (img nb) = Ok (with_mode ino mode) -> rep img nb (t_with_mode t mode) (nb :: bl).
Proof.
  intros Hr Hd Hnb. destruct t as [o m data|o m entries].
  - destruct Hr as (ino' & (Hd' & ? & ? & ? & ?) & ? & ? & ? & [= Hbl]). assert (ino' = ino) as -> by congruence.
    exists (with_mode ino mode). by rewrite Hbl.
  - apply rep_dir in Hr as (ino' & bls & (Hd' & ? & ? & ? & ?) & ? & ? & [= Hbl]).
    assert (ino' = ino) as -> by congruence. apply rep_dir. exists (with_mode ino mode), bls.
    by rewrite Hbl.
Qed.

Lemma owns_node fs b t bl :
  geometry fs -> owns fs b t bl -> exists ino rest,
    node_at (img_of fs) b ino (match t_kind t with Directory => 1 | File => 0 end) (t_owner t) (t_mode t) /\
    i_size ino = t_size t /\ bl = b :: ptrs ino ++ rest /\ (t_kind t = File \/ t_size t = 0 -> rest = []) /\
    inode_fits ino /\ 3 <= b < sb_total_blocks (sb_of fs) /\ Forall (fun p => 0 < p) (ptrs ino) /\
    reads (read_inode b) (Ok ino) fs.
Proof.
  intros Hg [Hr Hn Hb Hu]. destruct (rep_node _ _ _ _ Hr) as (ino & rest & Hnode & Hs & -> & Hrest).
  exists ino, rest. assert (Hb3 := Forall_inv Hb). simpl in Hb3. destruct Hb3 as [Hb3 _].
  assert (Hd : 0 <= b < sector_count (fs_device fs)) by (destruct Hg; lia).
  repeat (split; [done|]). split; [eapply node_at_fits; [by apply holds_image|done|exact Hnode]|].
  split; [done|]. split.
  - inversion Hb as [|? ? _ Hp]; subst. apply Forall_app in Hp as [Hp _].
    eapply Forall_impl; [exact Hp|]. simpl. lia.
  - destruct Hnode as (<- & _). apply reads_inode; [by apply holds_image|lia].
Qed.

Lemma wp_retire_contents ino n : forall fs slot Q,
  length (i_direct ino) = DIRECT_BLOCKS -> (slot + n <= DIRECT_BLOCKS)%nat ->
  Forall (fun p => 0 < p) (take n (drop slot (i_direct ino))) ->
  Q (Ok tt) (with_state fs (set_retired (fs_state fs)
               (retired_of fs ++ take n (drop slot (i_direct ino))))) ->
  wp (retire_contents ino slot n) Q fs.
Proof.
  induction n as [|n IH]; intros fs slot Q Hl Hn Hp HQ.
  - simpl in *. rewrite app_nil_r in HQ. apply wp_ret. by destruct fs as [d []].
  - destruct (lookup_lt_is_Some_2 (i_direct ino) slot) as [b Hb]; [lia|].
    rewrite (take_S_drop _ _ _ b Hb) in *. inversion Hp as [|? ? Hb0 Hp']; subst.
    cbn [retire_contents]. apply wp_bind. unfold direct_at. rewrite Hb. apply wp_ret.
    apply wp_bind. destruct (b =? 0) eqn:E; [lia|]. apply (IH _ (S slot)); [done|lia|done|].
    simpl. by rewrite <-app_assoc.
Qed.

Lemma wp_update fs f Q : Q (Ok tt) (with_state fs (f (fs_state fs))) -> wp (update_state f) Q fs.
Proof. done. Qed.

Lemma wp_get fs Q : Q (Ok (fs_state fs)) fs -> wp get_state Q fs.
Proof. done. Qed.

(** ** The four changes *)

Lemma replaced_fresh fs fs' bl bl' :
  geometry fs -> allocates fs fs' bl' ->
  Forall (fun s => 3 <= s < sb_total_blocks (sb_of fs) /\ allocated fs s = true) bl ->
  replaced fs fs' bl bl' bl.
Proof.
  intros Hg [Hc Ho] Hb. split.
  - intros s Hs. right. by eapply Forall_forall in Hc.
  - intros s Hs. split; [done|]. eapply Forall_forall in Hb as [_ Ha]; [|exact Hs].
    by eapply claimed_fresh.
  - auto.
  - auto.
Qed.

Lemma allocates_blocks fs fs' new :
  geometry fs -> extends fs fs' -> allocates fs fs' new ->
  Forall (fun s => 3 <= s < sb_total_blocks (sb_of fs') /\ allocated fs' s = true) new.
Proof.
  intros Hg He [Hc _]. eapply Forall_impl; [exact Hc|]. intros s Hs.
  pose proof (claimed_pos _ _ _ Hg Hs). destruct Hs as (Hr & _ & Ha). rewrite (ext_sb _ _ He).
  split; [lia|done].
Qed.

Lemma replaced_retired fs fs' bl bl' freed freed' :
  (forall s, s ∈ freed <-> s ∈ freed') -> replaced fs fs' bl bl' freed -> replaced fs fs' bl bl' freed'.
Proof.
  intros Hf [Hn Hfr Hk Ho]. split; auto.
  - intros s Hs. apply Hfr. by apply Hf.
  - intros s Hs. destruct (Hk s Hs); [by left|right; by apply Hf].
Qed.

Lemma zero_block_sector : is_sector zero_block.
Proof. split; [done|apply zero_block_bytes]. Qed.

Lemma new_inode_fits kind owner : u32 owner -> inode_fits (new_inode kind owner).
Proof.
  intros Ho. unfold inode_fits, new_inode; simpl. split; [destruct kind; auto|].
  split; [done|]. split; [vm_compute; split; discriminate|]. split; [unfold u64; lia|].
  split; [unfold u32; lia|]. split; [done|]. apply no_pointers_u64.
Qed.

Lemma implements_create kind owner :
  u32 owner -> implements (create_action kind owner) (s_create_action kind owner).
Proof.
  intros Hu fs existing node bl Q Hg Hh Hok Herr. unfold create_action. apply wp_bind.
  apply wp_guard; intros Hex.
  { apply bool_decide_eq_true in Hex. apply Herr; [by apply extends_refl|]. right.
    split; [|apply same_refl, Hg]. destruct existing; [|done]. by destruct node. }
  apply bool_decide_eq_false in Hex. destruct existing; [by destruct Hex|].
  destruct node; [done|]. simpl in Hh. subst bl. destruct kind.
  - apply wp_bind, wp_ret. apply wp_store_one; [done| |..].
    { apply Inode_encode_sector. by destruct (new_inode_fits File owner Hu). }
    2:{ intros e fs' He Hr Hee. apply Herr; auto. }
    intros b fs' He Hal Himg Hret. apply wp_ret.
    eapply (Hok (Some b) (Some (TFile owner DEFAULT_MODE [])) [b] []); [done|done| | |by rewrite app_nil_r].
    + split; [|apply NoDup_singleton|by eapply allocates_blocks|done].
      exists (new_inode File owner). split; [|done].
      split; [rewrite Himg; apply Inode_decode_encode; by apply new_inode_fits|]. done.
    + apply replaced_fresh; [done|done|constructor].
  - apply wp_bind. apply (wp_store_one fs zero_block); [done|apply zero_block_sector|..].
    2:{ intros e fs' He Hr Hee. apply Herr; auto. }
    intros b0 fs0 He0 Hal0 Himg0 Hret0. apply wp_ret. assert (Hg0 := geometry_extends _ _ Hg He0).
    set (ino := with_contents _ _ _ _).
    assert (Hino : inode_fits ino).
    { apply inode_fits_contents; [by apply new_inode_fits|by rewrite length_insert| |unfold u32; lia|unfold u64; simpl; lia].
      apply Forall_insert; [apply no_pointers_u64|]. destruct Hal0 as [Hc0 _].
      pose proof (claimed_u64 _ _ _ Hg Hc0) as Hc64. by inversion Hc64. }
    apply wp_store_one; [done|by apply Inode_encode_sector; destruct Hino as (_ & _ & _ & _ & _ & ? & _)|..].
    2:{ intros e fs' He Hr Hee. apply Herr; [by eapply extends_trans|by left]. }
    intros b fs' He Hal Himg Hret. apply wp_ret.
    assert (Hal' : allocates fs fs' [b; b0]) by (apply (allocates_trans fs fs0 fs' [b0] [b]); done).
    eapply (Hok (Some b) (Some (TDir owner DEFAULT_MODE [])) [b; b0] []); [by eapply extends_trans|done| | |].
    + split; [| |apply (allocates_blocks fs); [done|by eapply extends_trans|done]|by split; [constructor|]].
      * apply rep_dir. exists ino, []. split.
        { split; [rewrite Himg; by apply Inode_decode_encode|]. done. }
        split; [done|]. split; [|done].
        assert (dir_entries (img_of fs') ino = []) as ->; [|constructor].
        unfold dir_entries, ptrs. simpl. rewrite (extends_image fs0 fs' b0 He).
        -- rewrite Himg0. vm_compute. done.
        -- destruct Hal0 as [Hc0 _]. inversion Hc0 as [|? ? Hb0 _]; subst.
           pose proof (claimed_pos _ _ _ Hg Hb0). lia.
        -- right. destruct Hal0 as [Hc0 _]. inversion Hc0 as [|? ? Hb0 _]; subst. apply Hb0.
      * constructor; [|apply NoDup_singleton]. destruct Hal as [Hc _]. destruct Hal0 as [Hc0 _].
        intros Hin%list_elem_of_singleton. subst b. inversion Hc as [|? ? (_ & Hf & _) _]; subst.
        inversion Hc0 as [|? ? (_ & _ & Ha) _]; subst. congruence.
    + apply replaced_fresh; [done|done|constructor].
    + by rewrite app_nil_r, Hret.
Qed.

(** The start of an action on an existing node: its inode, or [NotFound]. *)
Lemma wp_existing {A} fs existing node bl (k : Z -> Inode -> M (FileSystem D) FsError A) Q :
  geometry fs -> holds_node fs existing node bl ->
  (node = None -> Q (Err NotFound) fs) ->
  (forall e fs', extends fs fs' -> env_error e -> Q (Err e) fs') ->
  (forall b t ino rest fs', node = Some t -> same fs fs' -> extends fs fs' -> geometry fs' -> owns fs' b t bl ->
     node_at (img_of fs') b ino (match t_kind t with Directory => 1 | File => 0 end) (t_owner t) (t_mode t) ->
     i_size ino = t_size t -> bl = b :: ptrs ino ++ rest -> (t_kind t = File \/ t_size t = 0 -> rest = []) ->
     inode_fits ino -> Forall (fun p => 0 < p) (ptrs ino) ->
     st_retired (fs_state fs') = st_retired (fs_state fs) ->
     (forall s, allocated fs' s = allocated fs s) -> wp (k b ino) Q fs') ->
  wp (b ← lift (ok_or NotFound existing); ino ← read_inode b; k b ino) Q fs.
Proof.
  intros Hg Hh Hnone Herr Hsome. apply wp_bind, wp_lift.
  destruct existing as [b|], node as [t|]; simpl in Hh; try done; [|by apply Hnone].
  destruct (owns_node fs b t bl Hg Hh) as (ino & rest & Hn & Hs & -> & Hrest & Hf & Hb & Hp & Hread).
  eapply wp_reads; [exact Hread| |].
  - intros fs' Hsame. pose proof (same_extends _ _ Hg Hsame) as He.
    eapply (Hsome b t ino rest fs'); try done.
    + by eapply geometry_same.
    + by eapply owns_extends.
    + eapply owns_node in Hh as _; [|done]. destruct Hsame as (_ & _ & _ & Hv).
      destruct Hn as (Hn & ?). split; [|done]. unfold image. by rewrite Hv.
    + by destruct Hsame as (-> & _).
    + intros s. by destruct Hsame as (-> & _).
  - intros e fs' Hsame. apply Herr; [by apply same_extends|]. right. by exists e.
Qed.

Lemma pad_block_sector chunk :
  (length chunk <= 512)%nat -> Forall is_byte chunk -> is_sector (pad_block chunk).
Proof.
  intros Hl Hb. split; [unfold pad_block; len|]. apply splice_bytes; [apply zero_block_bytes|done].
Qed.

Lemma pad_block_take chunk :
  (length chunk <= 512)%nat -> take (length chunk) (pad_block chunk) = chunk.
Proof.
  intros Hl. unfold pad_block, splice. rewrite take_0, app_nil_l.
  rewrite length_zero_block, Nat.sub_0_r, (take_ge chunk 512) by lia. apply take_app_length.
Qed.

Lemma pad_block_full chunk : length chunk = 512%nat -> pad_block chunk = chunk.
Proof.
  intros Hl. etrans; [|apply (pad_block_take chunk); lia]. symmetry. apply take_ge.
  unfold pad_block. len.
Qed.

(** The padded blocks hold the file, cut at its length. *)
Lemma pad_chunks fuel : forall data : list Z, (length data <= fuel)%nat ->
  take (length data) (concat (map pad_block (chunks_fuel fuel 512 data))) = data.
Proof.
  induction fuel as [|fuel IH]; intros [|x l] Hl; [done|cbn [length] in Hl; lia|done|].
  cbn [chunks_fuel map concat]. remember (x :: l) as data eqn:Hdata.
  assert (Hpos : (0 < length data)%nat) by (subst; simpl; lia). clear Hdata x l.
  destruct (decide (512 <= length data)%nat) as [Hge|Hlt].
  - rewrite pad_block_full by (rewrite length_take; lia).
    rewrite take_app, length_take, Nat.min_l by lia. rewrite take_ge by (rewrite length_take; lia).
    rewrite <-(length_drop data 512), IH by (rewrite length_drop; lia). apply take_drop.
  - rewrite (take_ge data 512), (drop_ge data 512) by lia.
    assert (chunks_fuel fuel 512 (@nil Z) = []) as -> by (by destruct fuel).
    simpl. rewrite app_nil_r. apply pad_block_take. lia.
Qed.

Lemma implements_write data user :
  Forall is_byte data -> Z.of_nat (length data) <= 30720 ->
  implements (write_action data user) (s_write_action data user).
Proof.
  intros Hbytes Hlen fs existing node bl Q Hg Hh Hok Herr. unfold write_action.
  eapply wp_existing; [done|exact Hh|..].
  { intros ->. apply Herr; [by apply extends_refl|right]. split; [done|apply same_refl, Hg]. }
  { intros e fs' He Hee. apply Herr; auto. }
  intros b t ino rest fs1 -> Hsm1 He1 Hg1 Ho1 Hn1 Hs1 -> Hrest Hf Hp Hret1 Hall1.
  apply wp_bind, wp_guard; intros Hk.
  { apply Herr; [done|]. right. split; [|done]. destruct Hn1 as (_ & Hk1 & _). destruct t; [|done].
    apply bool_decide_eq_true in Hk. simpl in Hk1. by rewrite kind_file in Hk. }
  destruct t as [o m old|o m es]; simpl in Hn1.
  2:{ apply bool_decide_eq_false in Hk. destruct Hn1 as (_ & Hk1 & _). rewrite kind_dir in Hk by done.
      exfalso. by apply Hk. }
  rewrite Hrest, app_nil_r in * by (by left). clear Hrest rest.
  destruct Hn1 as (Hdec & Hkind & <- & <- & Hu). apply wp_bind, wp_guard; rewrite permits_allows; intros Hal.
  { apply Herr; [done|]. right. split; [|done]. simpl. by rewrite Hal. }
  set (buffers := map pad_block (chunks 512 data)).
  assert (Hcl : Z.of_nat (length (chunks 512 data)) = div_ceil (Z.of_nat (length data)) 512).
  { apply length_chunks. lia. }
  assert (Hnb : (length buffers <= 60)%nat).
  { unfold buffers. rewrite length_map. apply Nat2Z.inj_le. rewrite Hcl. apply div_ceil_le; lia. }
  apply wp_bind, wp_store_blocks; [done| | | |].
  { apply Forall_map. eapply Forall_impl; [apply (chunks_Forall 512 ltac:(lia) _ data Hbytes)|].
    simpl. intros c [? ?]. by apply pad_block_sector. }
  { unfold no_pointers. rewrite length_replicate. unfold DIRECT_BLOCKS. lia. }
  2:{ intros e fs2 He2 _ Hee. apply Herr; [by eapply extends_trans|by left]. }
  intros bs fs2 He2 Hal2 Hnd2 Hlbs Himg2 Hret2. assert (Hg2 := geometry_extends _ _ Hg1 He2).
  simpl take. rewrite app_nil_l. rewrite <-Hlbs. simpl plus.
  assert (Hlino : length (i_direct ino) = DIRECT_BLOCKS) by apply Hf.
  apply wp_bind. rewrite slot_count_eq by done. apply wp_retire_contents; [done| |by rewrite drop_0|].
  { simpl. destruct Hf as (_ & _ & _ & _ & Hu32 & _). unfold u32 in Hu32. lia. }
  rewrite drop_0. change (take _ (i_direct ino)) with (ptrs ino). apply wp_bind, wp_update.
  set (fs3 := with_state _ _). assert (He3 : extends fs2 fs3) by (by apply (extends_retire fs2)).
  assert (Hg3 := geometry_extends _ _ Hg2 He3). set (ino' := with_contents _ _ _ _).
  assert (Hptrs : ptrs ino' = bs).
  { unfold ptrs, ino'; simpl. rewrite Nat2Z.id. apply take_app_length. }
  assert (Hfit : inode_fits ino').
  { apply inode_fits_contents; [done|..].
    - rewrite length_app, length_drop. unfold no_pointers. rewrite length_replicate. unfold DIRECT_BLOCKS. lia.
    - apply Forall_app. split; [by eapply claimed_u64, Hal2|]. apply Forall_drop, no_pointers_u64.
    - unfold u32. lia.
    - unfold u64. lia. }
  apply wp_store_one; [done|apply Inode_encode_sector; apply Hfit|..].
  2:{ intros e fs4 He4 _ Hee. apply Herr; [|by left]. by do 3 (eapply extends_trans; [done|]). }
  intros nb fs4 He4 Hal4 Himg4 Hret4. apply wp_ret.
  assert (He24 : extends fs2 fs4) by (by eapply extends_trans).
  assert (Hal14 : allocates fs1 fs4 (nb :: bs)).
  { apply (allocates_trans fs1 fs2 fs4 bs [nb]); done. }
  assert (He14 : extends fs1 fs4) by (by eapply extends_trans).
  assert (Hal0 : allocates fs fs4 (nb :: bs)).
  { destruct Hal14 as [Hc Ho]. split; [|intros s Hs Ha; rewrite <-Hall1; auto].
    eapply Forall_impl; [exact Hc|]. intros s Hs. eapply claimed_earlier; [done| |done].
    apply claimed_pos in Hs; [lia|done]. }
  apply (Hok (Some nb) (Some (TFile (i_owner ino) (i_mode ino) data)) (nb :: bs) (ptrs ino ++ [b])).
  - by eapply extends_trans.
  - simpl. by rewrite Hal.
  - split; [| |apply (allocates_blocks fs); [done|by eapply extends_trans|done]|done].
    + exists ino'. rewrite Hptrs. split; [split; [rewrite Himg4; by apply Inode_decode_encode|]|].
      { repeat split; [done|]. simpl. unfold DIRECT_BLOCKS. lia. }
      split; [done|]. split; [simpl; rewrite Hlbs; unfold buffers; by rewrite length_map|].
      split; [|done]. assert (map (img_of fs4) bs = buffers) as ->; [|by apply pad_chunks].
      rewrite <-Himg2. apply map_ext_in. intros s Hs%list_elem_of_In. destruct Hal2 as [Hc2 _].
      eapply Forall_forall in Hc2; [|exact Hs]. pose proof (claimed_pos _ _ _ Hg1 Hc2).
      eapply extends_image; [done|lia|right; apply Hc2].
    + constructor; [|done]. intros Hin. destruct Hal2 as [Hc2 _]. destruct Hal4 as [Hc4 _].
      eapply Forall_forall in Hc2; [|exact Hin]. apply Forall_inv in Hc4 as (_ & Hfree & _).
      destruct Hc2 as (_ & _ & Ha). unfold fs3 in Hfree. simpl in Hfree.
      unfold is_allocated in *. simpl in Hfree. congruence.
  - eapply replaced_retired; [|apply replaced_fresh; [done|done|]].
    + intros s. rewrite elem_of_app, elem_of_cons, list_elem_of_singleton. tauto.
    + destruct Ho1 as [_ _ Hb1 _]. eapply Forall_impl; [exact Hb1|]. simpl. intros s.
      rewrite Hall1, (ext_sb _ _ He1). done.
  - rewrite Hret4. simpl. rewrite Hret2, Hret1. by rewrite app_assoc.
Qed.

Lemma implements_remove : implements remove_action s_remove_action.
Proof.
  intros fs existing node bl Q Hg Hh Hok Herr. unfold remove_action.
  eapply wp_existing; [done|exact Hh|..].
  { intros ->. apply Herr; [by apply extends_refl|right]. split; [done|apply same_refl, Hg]. }
  { intros e fs' He Hee. apply Herr; auto. }
  intros b t ino rest fs1 -> Hsm1 He1 Hg1 Ho1 Hn1 Hs1 -> Hrest Hf Hp Hret1 Hall1.
  destruct Hn1 as (_ & Hk & _ & _ & Hu). apply wp_bind, wp_guard; intros Hne.
  { apply Herr; [done|]. right. split; [|done]. apply andb_true_iff in Hne as [Hd Hsz]. apply bool_decide_eq_true in Hd.
    destruct t as [o m old|o m [|p es]]; simpl in *; [by rewrite kind_file in Hd|lia|done]. }
  assert (Hempty : t_kind t = File \/ t_size t = 0).
  { destruct t as [|o m es]; [by left|right]. simpl in Hk. rewrite kind_dir, bool_decide_true in Hne by done.
    simpl in *. lia. }
  rewrite Hrest, app_nil_r in * by done. clear Hrest rest.
  apply wp_bind. rewrite slot_count_eq by done. apply wp_retire_contents; [apply Hf| |by rewrite drop_0|].
  { simpl. destruct Hf as (_ & _ & _ & _ & Hu32 & _). unfold u32 in Hu32. lia. }
  rewrite drop_0. change (take _ (i_direct ino)) with (ptrs ino). apply wp_bind, wp_update, wp_ret.
  set (fs3 := with_state _ _). assert (He3 : extends fs1 fs3) by (by apply (extends_retire fs1)).
  apply (Hok None None [] (ptrs ino ++ [b])); [by eapply extends_trans| |done| |].
  - destruct t as [|o m es]; [done|]. destruct Hempty as [|Hz]; [done|]. simpl in Hz.
    by destruct es; [|simpl in Hz; lia].
  - split.
    + by intros s Hs%elem_of_nil.
    + set_solver.
    + set_solver.
    + intros s _ Ha. right. rewrite <-Hall1. exact Ha.
  - unfold fs3. simpl. by rewrite Hret1, app_assoc.
Qed.

Lemma implements_set_mode mode user :
  0 <= mode <= ALL_PERMISSIONS ->
  implements (set_mode_action mode user) (s_set_mode_action mode user).
Proof.
  intros Hmode fs existing node bl Q Hg Hh Hok Herr. unfold set_mode_action.
  eapply wp_existing; [done|exact Hh|..].
  { intros ->. apply Herr; [by apply extends_refl|right]. split; [done|apply same_refl, Hg]. }
  { intros e fs' He Hee. apply Herr; auto. }
  intros b t ino rest fs1 -> Hsm1 He1 Hg1 Ho1 Hn1 Hs1 -> _ Hf _ Hret1 Hall1.
  destruct Hn1 as (Hdec & _ & Hown & _ & _). apply wp_bind, wp_guard; intros Hu; rewrite Hown in Hu.
  { apply Herr; [done|]. right. split; [|done]. simpl. destruct user as [u|]; [|done]. by rewrite Hu. }
  assert (Hact : s_set_mode_action mode user (Some t) = Ok (Some (t_with_mode t mode))).
  { simpl. destruct user as [u|]; [|done]. by rewrite Hu. }
  apply wp_bind, wp_update. set (fs2 := with_state _ _).
  assert (He2 : extends fs1 fs2) by (by apply (extends_retire fs1)).
  assert (Hg2 := geometry_extends _ _ Hg1 He2).
  assert (Hfit : inode_fits (with_mode ino mode)).
  { destruct Hf as (? & ? & _ & ? & ? & ? & ?). unfold inode_fits. simpl. auto 10. }
  apply wp_store_one; [done|apply Inode_encode_sector; apply Hfit|..].
  2:{ intros e fs3 He3 _ Hee. apply Herr; [|by left]. by do 2 (eapply extends_trans; [done|]). }
  intros nb fs3 He3 Hal3 Himg3 Hret3. apply wp_ret. assert (Hg3 := geometry_extends _ _ Hg2 He3).
  assert (He13 : extends fs1 fs3) by (by eapply extends_trans).
  destruct (owns_extends _ _ _ _ _ He13 Ho1) as [Hr3 Hn3 Hb3 Hu3].
  assert (Hal : claimed fs1 fs3 nb) by (destruct Hal3 as [Hc _]; by inversion Hc).
  assert (Hnb : nb ∉ b :: ptrs ino ++ rest).
  { intros Hin. destruct Ho1 as [_ _ Hb1 _]. eapply Forall_forall in Hb1 as [_ Ha]; [|exact Hin].
    destruct Hal as (_ & ? & _). congruence. }
  apply (Hok (Some nb) (Some (t_with_mode t mode)) (nb :: ptrs ino ++ rest) [b]).
  - by eapply extends_trans.
  - done.
  - split.
    + eapply rep_chmod; [exact Hr3| |].
      * rewrite (extends_image _ _ b He13); [done| |].
        -- apply Forall_inv in Hb3. simpl in Hb3. lia.
        -- right. destruct Ho1 as [_ _ Hb1 _]. apply Forall_inv in Hb1. apply Hb1.
      * rewrite Himg3. by apply Inode_decode_encode.
    + apply NoDup_cons in Hn3 as [_ Hn3]. apply NoDup_cons. split; [|done].
      intros Hin. apply Hnb. by right.
    + inversion Hb3; subst. constructor; [|done]. rewrite (ext_sb _ _ He13).
      pose proof (claimed_pos _ _ _ Hg1 Hal). destruct Hal as (? & _ & ?). split; [lia|done].
    + by destruct t.
  - apply NoDup_cons in Hn3 as [Hnin _]. split.
    + intros s. rewrite !elem_of_cons. intros [->|Hs]; [right|left; by right].
      eapply claimed_earlier; [done|apply claimed_pos in Hal; [lia|done]|done].
    + intros s ->%list_elem_of_singleton. set_solver.
    + set_solver.
    + intros s Hs Ha. destruct Hal3 as [_ Ho3]. apply Ho3 in Ha as [Ha|Ha]; [| |done].
      * apply list_elem_of_singleton in Ha as ->. left. left.
      * right. rewrite <-Hall1. exact Ha.
  - rewrite Hret3. simpl. by rewrite Hret1.
Qed.

End Rewrite.
