(* ===== verification/FsPath.v ===== *)
(** * The path rewrite

    [FileSystem::rewrite] rebuilds every directory from the target up to the
    root.  One step of it replaces one name of one directory; the whole of it
    computes what the specification computes. *)

From stdpp Require Import base list gmap numbers list_numbers.
From Stdlib Require Import Lia.
From S2P Require Import Prelude Block FsLayout FsOps FsSpec FsRep FsCow FsRewrite.

(** Text that fits the name field of a directory entry. *)
Definition entry_name (name : list Z) : Prop :=
  Forall is_byte name /\ utf8_valid name = true /\ (length name <= MAX_NAME)%nat.

Definition entry_for (target : Z) (name : list Z) : DirEntry :=
  {| de_inode := target; de_name_length := Z.of_nat (length name) mod 256;
     de_name := splice (replicate MAX_NAME 0) 0 name |}.

Lemma entry_for_fits target name : entry_name name -> u64 target -> entry_fits (entry_for target name).
Proof.
  intros (Hb & _ & Hl) Ht. split; [done|]. split; [apply Z.mod_pos_bound; lia|]. cbn [de_name entry_for].
  split; [by rewrite length_splice|]. apply splice_bytes; [|done].
  apply Forall_replicate. unfold is_byte. lia.
Qed.

(** A name comes back from the entry it was put in. *)
Lemma entry_for_name target name : entry_name name -> name_str (entry_for target name) = Some name.
Proof.
  intros (Hb & Hu & Hl). unfold name_str, entry_for, MAX_NAME in *. cbn [de_name_length de_name].
  rewrite Z.mod_small by lia. rewrite Nat2Z.id, Nat.min_l by lia.
  unfold splice. rewrite take_0, app_nil_l, length_replicate, Nat.sub_0_r, (take_ge name) by lia.
  by rewrite take_app_length, Hu.
Qed.

Lemma name_str_entry_name e name : entry_fits e -> name_str e = Some name -> entry_name name.
Proof.
  intros (_ & _ & Hl & Hb). unfold name_str. destruct (utf8_valid _) eqn:Hu; [|done]. intros [= <-].
  split; [by apply Forall_take|]. split; [done|]. rewrite length_take. lia.
Qed.

(** ** One name of a directory against the others *)

Lemma focus img name entries es bls :
  Forall3 (entry_rep img) entries es bls -> NoDup (map fst entries) ->
  exists blc kbls,
    Forall3 (entry_rep img) (filter (fun p => fst p <> name) entries)
            (filter (fun e => name_str e <> Some name) es) kbls /\
    concat bls ≡ₚ blc ++ concat kbls /\
    match child name entries, find_named name es with
    | Some c, Some b => rep img b c blc
    | None, None => blc = []
    | _, _ => False
    end.
Proof.
  induction 1 as [|[n c] e bl entries es bls [Hn Hp] Hc IH]; intros Hnd.
  { exists [], []. repeat split; constructor. }
  simpl in Hn, Hnd. apply NoDup_cons in Hnd as [Hnin Hnd].
  destruct (IH Hnd) as (blc & kbls & Hk & Hperm & Hm). rewrite !filter_cons. simpl child. simpl find_named.
  rewrite Hn. destruct (decide (n = name)) as [->|Hne].
  - rewrite !decide_False by (simpl; auto). rewrite !bool_decide_true by done.
    exists bl, kbls. split; [done|]. split; [|done]. simpl. rewrite Hperm.
    destruct (child name entries) as [c'|] eqn:Hch.
    + exfalso. apply Hnin. apply child_elem in Hch. apply (list_elem_of_fmap_2 fst) in Hch. done.
    + destruct (find_named name es); [done|]. by subst.
  - rewrite !decide_True by (simpl; congruence). rewrite !bool_decide_false by congruence.
    exists blc, (bl :: kbls). split; [by constructor|]. split; [|done].
    simpl. rewrite Hperm, !app_assoc. by rewrite (Permutation_app_comm bl blc).
Qed.

Section Path.
Context {D : Type} `{BlockLaws D}.
Implicit Types fs : FileSystem D.

Abbreviation sb_of fs := (st_superblock (fs_state fs)).
Abbreviation allocated fs s := (is_allocated (fs_state fs) s).
Abbreviation img_of fs := (image (fs_device fs)).
Abbreviation retired_of fs := (st_retired (fs_state fs)).

Lemma reads_gather img ino name n : forall fs slot es g,
  holds fs img -> length (i_direct ino) = DIRECT_BLOCKS -> (slot + n <= DIRECT_BLOCKS)%nat ->
  Forall (fun p => 0 < p) (take n (drop slot (i_direct ino))) ->
  reads (gather ino name slot n es g)
    (Ok (es ++ filter (fun e => name_str e <> Some name)
                 (concat (map (fun b => used_entries (img b)) (take n (drop slot (i_direct ino))))),
         g ++ take n (drop slot (i_direct ino)))) fs.
Proof.
  induction n as [|n IH]; intros fs slot es g Hh Hl Hn Hp.
  - simpl. rewrite filter_nil, !app_nil_r. apply (reads_pure (Ok (es, g))), Hh.
  - destruct (lookup_lt_is_Some_2 (i_direct ino) slot) as [b Hb]; [lia|].
    rewrite (take_S_drop _ _ _ b Hb) in *. apply Forall_cons in Hp as [Hb0 Hp].
    cbn [gather]. eapply reads_bind; [apply reads_direct; [apply Hh|done]|]. intros fs1 Hs1.
    eapply reads_bind; [apply reads_block; [by eapply holds_same|lia]|]. intros fs2 Hs2.
    assert (Hs : same fs fs2) by (by eapply same_trans).
    simpl map. simpl concat. rewrite filter_app, app_assoc.
    replace (g ++ b :: take n (drop (S slot) (i_direct ino)))
      with ((g ++ [b]) ++ take n (drop (S slot) (i_direct ino))) by (by rewrite <-app_assoc).
    apply IH; [by eapply holds_same|done|lia|done].
Qed.

(** Ownership does not care in which order the blocks are listed. *)
Lemma replaced_members fs fs' bl1 bl2 bl' freed :
  (forall s, s ∈ bl1 <-> s ∈ bl2) -> replaced fs fs' bl1 bl' freed -> replaced fs fs' bl2 bl' freed.
Proof.
  intros Hm [Hn Hf Hk Ho]. split; auto.
  - intros s Hs. destruct (Hn s Hs); [left; by apply Hm|by right].
  - intros s Hs. destruct (Hf s Hs). split; [by apply Hm|done].
  - intros s Hs. apply Hk. by apply Hm.
Qed.

(** ** Rebuilding one directory *)

Section Rebuild.
Variables fs fs2 : FileSystem D.
Variables (b o m : Z) (ino : Inode) (entries : list (list Z * tree)) (name : list Z).
Variables (blc : list Z) (kbls : list (list Z)).
Hypothesis Hg : geometry fs.
Hypothesis He : extends fs fs2.
Hypothesis Hnode : node_at (img_of fs) b ino 1 o m.
Hypothesis Hnames : unique_names (TDir o m entries).
Hypothesis Hkept : Forall3 (entry_rep (img_of fs)) (filter (fun p => fst p <> name) entries)
  (filter (fun e => name_str e <> Some name) (dir_entries (img_of fs) ino)) kbls.
Let old : list Z := b :: ptrs ino ++ blc ++ concat kbls.
Hypothesis Hnodup : NoDup old.
Hypothesis Hold : Forall (fun s => 3 <= s < sb_total_blocks (sb_of fs) /\ allocated fs s = true) old.

Variables (replacement : option Z) (node : option tree) (blc' freed : list Z).
Hypothesis Hnew : holds_node fs2 replacement node blc'.
Hypothesis Hrep : replaced fs fs2 blc blc' freed.

Lemma old_allocated s : s ∈ old -> 0 <= s /\ allocated fs s = true.
Proof. intros Hs. eapply Forall_forall in Hold; [|exact Hs]. simpl in Hold. split; [lia|tauto]. Qed.

Lemma kept_not_new s : s ∈ concat kbls -> s ∉ blc'.
Proof.
  intros Hs Hs'. assert (Hso : s ∈ old) by (unfold old; set_solver).
  destruct (rp_new _ _ _ _ _ Hrep s Hs') as [Hin|(_ & Hf & _)].
  - unfold old in Hnodup. apply NoDup_cons in Hnodup as [_ Hnd]. apply NoDup_app in Hnd as (_ & _ & Hnd).
    apply NoDup_app in Hnd as (_ & Hnd & _). by eapply Hnd.
  - apply old_allocated in Hso as [_ Ha]. congruence.
Qed.

Lemma own_not_new s : s ∈ b :: ptrs ino -> s ∉ blc' /\ s ∉ blc /\ s ∉ concat kbls.
Proof.
  intros Hs. assert (Hso : s ∈ old) by (unfold old; set_solver).
  assert (Hsep : s ∉ blc ++ concat kbls).
  { unfold old in Hnodup. rewrite app_comm_cons in Hnodup. apply NoDup_app in Hnodup as (_ & Hnd & _).
    by apply Hnd. }
  rewrite elem_of_app in Hsep. split; [|tauto]. intros Hs'.
  destruct (rp_new _ _ _ _ _ Hrep s Hs') as [Hin|(_ & Hf & _)]; [tauto|].
  apply old_allocated in Hso as [_ Ha]. congruence.
Qed.

Section Fresh.
Variables (nb : Z) (ino' : Inode) (fs' : FileSystem D).
Hypothesis He' : extends fs2 fs'.
Hypothesis Hal' : allocates fs2 fs' (nb :: ptrs ino').
Hypothesis Hnd' : NoDup (nb :: ptrs ino').

Lemma fresh_not_old s : s ∈ nb :: ptrs ino' -> s ∉ old /\ s ∉ blc'.
Proof.
  intros Hs. split; intros Hin.
  - apply old_allocated in Hin as [Hs0 Ha]. destruct Hal' as [Hc _].
    eapply claimed_fresh; [exact Hc| |exact Hs]. by apply (ext_alloc _ _ He).
  - assert (Ha : allocated fs2 s = true).
    { unfold holds_node in Hnew. destruct replacement, node; try done; [|by subst; apply elem_of_nil in Hin].
      destruct Hnew as [_ _ Hb _]. eapply Forall_forall in Hb; [|exact Hin]. apply Hb. }
    destruct Hal' as [Hc _]. by eapply claimed_fresh.
Qed.

Lemma rebuilt_replaced :
  replaced fs fs' old (nb :: ptrs ino' ++ concat kbls ++ blc') (freed ++ ptrs ino ++ [b]).
Proof.
  assert (Hg2 := geometry_extends _ _ Hg He). split.
  - intros s. rewrite app_comm_cons, !elem_of_app. intros [Hs|[Hs|Hs]].
    + right. destruct Hal' as [Hc _]. eapply Forall_forall in Hc; [|exact Hs].
      eapply claimed_earlier; [done|apply claimed_pos in Hc; [lia|done]|done].
    + left. unfold old. set_solver.
    + destruct (rp_new _ _ _ _ _ Hrep s Hs) as [Hin|Hc]; [left; unfold old; set_solver|right].
      eapply claimed_more; [done|apply claimed_pos in Hc; [lia|done]|done].
  - intros s Hs. assert (Hso : s ∈ old /\ s ∉ blc' /\ s ∉ concat kbls).
    { apply elem_of_app in Hs as [Hs|Hs].
      - destruct (rp_freed _ _ _ _ _ Hrep s Hs) as [Hin Hn]. split; [unfold old; set_solver|].
        split; [done|]. unfold old in Hnodup. apply NoDup_cons in Hnodup as [_ Hnd].
        apply NoDup_app in Hnd as (_ & _ & Hnd). apply NoDup_app in Hnd as (_ & Hnd & _). by apply Hnd.
      - destruct (own_not_new s) as (? & ? & ?); [set_solver|]. split; [unfold old; set_solver|done]. }
    destruct Hso as (Hin & Hn1 & Hn2). split; [done|]. intros Hs'.
    rewrite app_comm_cons, !elem_of_app in Hs'. destruct Hs' as [Hs'|[?|?]]; [|done..].
    by apply fresh_not_old in Hs' as [? _].
  - intros s Hs. unfold old in Hs. pose proof (rp_kept _ _ _ _ _ Hrep s). set_solver.
  - intros s Hs Ha. destruct Hal' as [_ Ho]. apply Ho in Ha as [Ha|Ha]; [left; set_solver| |done].
    apply (rp_only _ _ _ _ _ Hrep) in Ha as [Ha|Ha]; [left; set_solver|by right|done].
Qed.

Lemma rebuilt_nodup : NoDup (nb :: ptrs ino' ++ concat kbls ++ blc').
Proof.
  rewrite app_comm_cons. apply NoDup_app. split; [done|]. split.
  - intros s Hs. apply fresh_not_old in Hs as [Ho Hb]. unfold old in Ho. set_solver.
  - apply NoDup_app. split; [|split].
    + unfold old in Hnodup. apply NoDup_cons in Hnodup as [_ Hnd]. by apply NoDup_app in Hnd as (_ & _ & (_ & _ & ?)%NoDup_app).
    + intros s. apply kept_not_new.
    + unfold holds_node in Hnew. destruct replacement, node; try done; [apply Hnew|subst; constructor].
Qed.

Lemma rebuilt_blocks :
  Forall (fun s => 3 <= s < sb_total_blocks (sb_of fs') /\ allocated fs' s = true)
    (nb :: ptrs ino' ++ concat kbls ++ blc').
Proof.
  assert (Hg2 := geometry_extends _ _ Hg He). rewrite app_comm_cons. apply Forall_app. split.
  { by apply (allocates_blocks fs2). }
  apply Forall_app. split.
  - apply Forall_forall. intros s Hs. assert (Hso : s ∈ old) by (unfold old; set_solver).
    eapply Forall_forall in Hold as [Hr Ha]; [|exact Hso].
    rewrite (ext_sb _ _ He'), (ext_sb _ _ He). split; [done|].
    apply (ext_alloc _ _ He'); [lia|]. apply (ext_alloc _ _ He); [lia|done].
  - unfold holds_node in Hnew. destruct replacement, node; try done; [|subst; constructor].
    by apply (owns_extends _ _ _ _ _ He') in Hnew as [_ _ ? _].
Qed.

End Fresh.

Lemma Forall3_frame img img' (es : list (list Z * tree)) ds bls :
  Forall3 (entry_rep img) es ds bls -> (forall s, s ∈ concat bls -> img' s = img s) ->
  Forall3 (entry_rep img') es ds bls.
Proof.
  induction 1 as [|p e bl es ds bls [Hn Hp] Hc IH]; intros Himg; constructor.
  - split; [done|]. eapply rep_frame; [exact Hp|]. intros s Hs. apply Himg. simpl. set_solver.
  - apply IH. intros s Hs. apply Himg. simpl. set_solver.
Qed.

(** The entries the directory will have. *)
Definition rebuilt_entries : list DirEntry :=
  filter (fun e => name_str e <> Some name) (dir_entries (img_of fs) ino)
  ++ match replacement with Some target => [entry_for target name] | None => [] end.

Definition rebuilt_lists : list (list Z) :=
  kbls ++ match replacement with Some _ => [blc'] | None => [] end.

Lemma concat_rebuilt : concat rebuilt_lists = concat kbls ++ blc'.
Proof.
  unfold rebuilt_lists. rewrite concat_app. f_equal. unfold holds_node in Hnew.
  destruct replacement, node; try done; simpl; by rewrite ?app_nil_r, ?Hnew.
Qed.

Lemma rebuilt_rep img' :
  (forall s, s ∈ concat kbls -> img' s = img_of fs s) ->
  (forall s, s ∈ blc' -> img' s = img_of fs2 s) -> (node <> None -> entry_name name) ->
  Forall3 (entry_rep img') (bind_name name node entries) rebuilt_entries rebuilt_lists.
Proof.
  intros Hk Hb Hname. unfold bind_name, rebuilt_entries, rebuilt_lists.
  apply Forall3_app; [by eapply Forall3_frame|]. unfold holds_node in Hnew.
  destruct replacement, node; try done; [|constructor]. constructor; [|constructor]. split.
  - apply entry_for_name. by apply Hname.
  - eapply rep_frame; [apply Hnew|done].
Qed.

Lemma replacement_range target :
  replacement = Some target -> 3 <= target < sb_total_blocks (sb_of fs2).
Proof.
  intros ->. unfold holds_node in Hnew. destruct node; [|done]. destruct Hnew as [Hr _ Hb _].
  destruct (rep_head _ _ _ _ Hr) as [rest ->]. by apply Forall_inv in Hb as [? _].
Qed.

Lemma dir_entries_fit : Forall (fun e => entry_fits e /\ de_inode e <> 0) (dir_entries (img_of fs) ino).
Proof.
  unfold dir_entries. apply Forall_concat, Forall_map, Forall_forall. intros s Hs.
  assert (Hso : s ∈ old) by (right; apply elem_of_app; by left).
  eapply Forall_forall in Hold as [Hr _]; [|exact Hso]. apply used_entries_fit, image_sector; [apply Hg|]. destruct Hg. lia.
Qed.

Lemma rebuilt_entries_fit :
  (node <> None -> entry_name name) ->
  Forall (fun e => entry_fits e /\ de_inode e <> 0) rebuilt_entries.
Proof.
  intros Hname. apply Forall_app. split; [apply filter_Forall_keep, dir_entries_fit|].
  pose proof replacement_range as Hrange. unfold holds_node in Hnew.
  destruct replacement as [target|], node; try done. apply Forall_singleton.
  specialize (Hrange target eq_refl). split; [|simpl; lia]. apply entry_for_fits; [by apply Hname|].
  pose proof (geometry_extends _ _ Hg He) as [Hok Ht _ _ _]. pose proof (count_bound _ Hok).
  unfold u64, U64_MAX in *. lia.
Qed.

Lemma wp_rebuild garbage Q :
  (node <> None -> entry_name name) ->
  (forall nb bl' fs', extends fs fs' -> (length (bind_name name node entries) <= DIR_CAPACITY)%nat ->
     owns fs' nb (TDir o m (bind_name name node entries)) bl' ->
     replaced fs fs' old bl' (freed ++ ptrs ino ++ [b]) ->
     retired_of fs' = retired_of fs2 -> Q (Ok (nb, (garbage ++ ptrs ino) ++ [b])) fs') ->
  (forall e fs', extends fs fs' ->
     env_error e \/ (e = TooLarge /\ (DIR_CAPACITY < length (bind_name name node entries))%nat) ->
     Q (Err e) fs') ->
  wp ('(entries, garbage) ← gather ino name 0 (slot_count ino) [] garbage;
      entries ←
        (match replacement with
         | Some target => e ← new_entry target name; mret (entries ++ [e])
         | None => mret entries
         end);
      block ← write_directory ino entries;
      mret (block, garbage ++ [b])) Q fs2.
Proof.
  intros Hname Hok Herr. assert (Hg2 := geometry_extends _ _ Hg He).
  assert (Hfit : inode_fits ino).
  { eapply (node_at_fits fs); [by apply holds_image| |exact Hnode]. apply Forall_inv in Hold. destruct Hg. lia. }
  assert (Hu : i_blocks_used ino <= Z.of_nat DIRECT_BLOCKS) by apply Hnode.
  assert (Hptr : forall s, s ∈ ptrs ino -> 0 < s /\ img_of fs2 s = img_of fs s).
  { intros s Hs. assert (Hso : s ∈ old) by (unfold old; set_solver).
    eapply Forall_forall in Hold as [Hr Ha]; [|exact Hso]. split; [lia|].
    eapply extends_image; [done|lia|by right]. }
  assert (Hlen : length rebuilt_entries = length (bind_name name node entries)).
  { apply (entries_count (img_of fs2) _ _ rebuilt_lists), rebuilt_rep; [|done|done].
    intros s Hs. assert (Hso : s ∈ old) by (unfold old; set_solver).
    eapply Forall_forall in Hold as [Hr Ha]; [|exact Hso]. eapply extends_image; [done|lia|by right]. }
  eapply wp_reads.
  { rewrite slot_count_eq by done. apply (reads_gather (img_of fs2)); [by apply holds_image|apply Hfit| |].
    - destruct Hfit as (_ & _ & _ & _ & Hu32 & _). unfold u32 in Hu32. lia.
    - rewrite drop_0. apply Forall_forall. intros s Hs. by apply Hptr. }
  2:{ intros e fs3 Hs3. apply Herr; [|left; right; by exists e].
      eapply extends_trans; [done|]. by apply same_extends. }
  intros fs3 Hs3. rewrite drop_0. change (take (Z.to_nat (i_blocks_used ino)) (i_direct ino)) with (ptrs ino).
  assert (Hdir : concat (map (fun b => used_entries (img_of fs2 b)) (ptrs ino)) = dir_entries (img_of fs) ino).
  { unfold dir_entries. f_equal. apply map_ext_in. intros s Hs%list_elem_of_In.
    f_equal. by apply Hptr. }
  rewrite Hdir. assert (He3 := same_extends _ _ Hg2 Hs3). assert (Hg3 := geometry_extends _ _ Hg2 He3).
  apply wp_bind.
  assert (Hent : forall Q', Q' (Ok rebuilt_entries) fs3 ->
    wp (match replacement with
        | Some target => e ← new_entry target name;
            mret (([] ++ filter (fun e => name_str e <> Some name) (dir_entries (img_of fs) ino)) ++ [e])
        | None => mret ([] ++ filter (fun e => name_str e <> Some name) (dir_entries (img_of fs) ino))
        end) Q' fs3).
  { intros Q' HQ. unfold rebuilt_entries, holds_node in *. destruct replacement, node; try done.
    - apply wp_bind. unfold new_entry. destruct Hname as (_ & _ & Hl); [done|].
      destruct (MAX_NAME <? length name)%nat eqn:Hc; [apply Nat.ltb_lt in Hc; lia|]. apply wp_ret, wp_ret.
      exact HQ.
    - apply wp_ret. by rewrite app_nil_r in HQ. }
  apply Hent. clear Hent. apply wp_bind. rewrite <-Hlen in Hok, Herr.
  apply wp_write_directory; [done|done|by apply rebuilt_entries_fit|..].
  - intros nb ino' fs' Hcap He' Hal' Hnd' Hn' Hsz' Hdir' Hret'. apply wp_ret.
    assert (He2' : extends fs2 fs') by (by eapply extends_trans).
    assert (Hst3 : fs_state fs3 = fs_state fs2) by apply Hs3.
    assert (Hal2' : allocates fs2 fs' (nb :: ptrs ino')).
    { unfold allocates, claimed in *. by rewrite Hst3 in Hal'. }
    apply (Hok nb (nb :: ptrs ino' ++ concat kbls ++ blc') fs'); [by eapply extends_trans|done| | |].
    + split.
      * apply rep_dir. exists ino', rebuilt_lists. destruct Hnode as (_ & Hk & Ho & Hm & _).
        rewrite Hk, Ho, Hm in Hn'. rewrite <-Hlen, Hdir', concat_rebuilt. split; [done|]. split; [done|].
        split; [|done]. apply rebuilt_rep; [| |done].
        -- intros s Hs. assert (Hso : s ∈ old) by (unfold old; set_solver).
           eapply Forall_forall in Hold as [Hr Ha]; [|exact Hso].
           eapply (extends_image fs); [by eapply extends_trans|lia|by right].
        -- intros s Hs. pose proof Hnew as Hn2. unfold holds_node in Hn2.
           destruct replacement, node; try done; [|by subst; apply elem_of_nil in Hs].
           destruct Hn2 as [_ _ Hb2 _]. eapply Forall_forall in Hb2 as [Hr Ha]; [|exact Hs].
           eapply extends_image; [done|lia|by right].
      * by apply (rebuilt_nodup nb ino' fs').
      * by apply rebuilt_blocks.
      * apply bind_name_unique; [done|]. intros t ->. unfold holds_node in Hnew.
        destruct replacement; [apply Hnew|done].
    + by apply rebuilt_replaced.
    + by rewrite Hret', Hst3.
  - intros e fs' He' Hr' Hee. apply Herr; [|done]. by do 2 (eapply extends_trans; [done|]).
Qed.

End Rebuild.

(** ** Entering a directory *)

Lemma image_same fs fs' s : same fs fs' -> img_of fs' s = img_of fs s.
Proof. intros (_ & _ & _ & Hv). unfold image. by rewrite Hv. Qed.

Lemma dir_entries_same fs fs' ino :
  same fs fs' -> dir_entries (img_of fs') ino = dir_entries (img_of fs) ino.
Proof.
  intros Hs. unfold dir_entries. f_equal. apply map_ext. intros s. by rewrite (image_same _ _ _ Hs).
Qed.

Lemma replaced_same fs fs1 fs' bl bl' freed :
  same fs fs1 -> replaced fs1 fs' bl bl' freed -> replaced fs fs' bl bl' freed.
Proof.
  intros (Hst & _) [Hn Hf Hk Ho]. unfold claimed in *. rewrite Hst in *. by split.
Qed.

Lemma wp_enter {A} fs b t bl access (k : Inode -> M (FileSystem D) FsError A) Q :
  geometry fs -> owns fs b t bl ->
  (forall e fs', same fs fs' ->
     env_error e \/ (forall cs saction, s_rewrite cs t access saction = Err e) -> Q (Err e) fs') ->
  (forall o m entries ino fs', t = TDir o m entries -> allows o m (acc_user access) false = true ->
     same fs fs' -> Inode_decode (img_of fs b) = Ok ino -> wp (k ino) Q fs') ->
  wp (directory ← read_inode b;
      guard_err (bool_decide (node_kind directory <> Directory)) WrongType ;;
      guard_err (negb (permits directory (acc_user access) false)) Denied ;;
      k directory) Q fs.
Proof.
  intros Hg Ho Herr Hok.
  destruct (owns_node fs b t bl Hg Ho) as (ino & rest & Hn & _ & _ & _ & _ & _ & _ & Hread).
  destruct Hn as (Hdec & Hk & Hown & Hmode & _).
  eapply wp_reads; [exact Hread| |intros e fs' Hs; apply Herr; [done|left; right; by exists e]].
  intros fs1 Hs1. apply wp_bind, wp_guard; intros Hd.
  { apply Herr; [done|]. right. intros cs saction. apply bool_decide_eq_true in Hd.
    destruct t; [by destruct cs|]. by rewrite kind_dir in Hd. }
  apply bool_decide_eq_false in Hd. destruct t as [o m data|o m entries].
  { exfalso. apply Hd. by rewrite kind_file. }
  simpl in *. apply wp_bind, wp_guard; rewrite permits_allows, Hown, Hmode; intros Hal.
  { apply Herr; [done|]. right. intros cs saction. destruct cs; simpl; by rewrite Hal. }
  eapply Hok; [done| |done|done]. by apply negb_false_iff.
Qed.

(** What a directory owns, split at one name. *)
Lemma owns_dir fs b o m entries bl ino name :
  geometry fs -> owns fs b (TDir o m entries) bl -> Inode_decode (img_of fs b) = Ok ino ->
  exists blc kbls, let old := b :: ptrs ino ++ blc ++ concat kbls in
    node_at (img_of fs) b ino 1 o m /\
    Forall3 (entry_rep (img_of fs)) (filter (fun p => fst p <> name) entries)
      (filter (fun e => name_str e <> Some name) (dir_entries (img_of fs) ino)) kbls /\
    NoDup old /\
    Forall (fun s => 3 <= s < sb_total_blocks (sb_of fs) /\ allocated fs s = true) old /\
    (forall s, s ∈ old <-> s ∈ bl) /\
    holds_node fs (find_named name (dir_entries (img_of fs) ino)) (child name entries) blc.
Proof.
  intros Hg [Hr Hnd Hb Hu] Hdec. apply rep_dir in Hr as (ino' & bls & Hn & _ & Hc & ->).
  assert (ino' = ino) as -> by (destruct Hn as (? & _); congruence).
  pose proof (proj1 (unique_names_dir _ _ _) Hu) as [Hnn _].
  destruct (focus (img_of fs) name _ _ _ Hc Hnn) as (blc & kbls & Hk & Hperm & Hm).
  assert (Hold : b :: ptrs ino ++ concat bls ≡ₚ b :: ptrs ino ++ blc ++ concat kbls) by (by rewrite Hperm).
  exists blc, kbls. split; [done|]. split; [done|]. rewrite <-Hold. split; [done|]. split; [done|].
  split; [intros s; by rewrite Hold|].
  unfold holds_node. destruct (child name entries) as [c|] eqn:Hch, (find_named _ _); try done.
  rewrite Hold in Hnd, Hb. apply NoDup_cons in Hnd as [_ (_ & _ & (Hnd & _ & _)%NoDup_app)%NoDup_app].
  apply Forall_cons in Hb as [_ (_ & (Hb & _)%Forall_app)%Forall_app].
  split; [done|done|done|]. by eapply child_unique.
Qed.

(** The name of an existing child fits an entry. *)
Lemma child_entry_name fs b o m entries bl name :
  geometry fs -> owns fs b (TDir o m entries) bl -> child name entries <> None -> entry_name name.
Proof.
  intros Hg [Hr _ Hb _] Hch. apply rep_dir in Hr as (ino & bls & _ & _ & Hc & ->).
  destruct (child name entries) as [c|] eqn:Hcc; [clear Hch|done]. apply child_elem in Hcc.
  assert (Hfit : Forall (fun e => entry_fits e /\ de_inode e <> 0) (dir_entries (img_of fs) ino)).
  { apply (dir_entries_fit fs b ino [] bls); [done|]. eapply Forall_impl; [exact Hb|]. done. }
  revert Hcc Hfit. induction Hc as [|p e bl entries es bls [Hn Hp] Hc IH]; intros Hin Hfit.
  { by apply elem_of_nil in Hin. }
  apply Forall_cons in Hfit as [[He _] Hfit]. apply elem_of_cons in Hin as [<-|Hin].
  - by eapply name_str_entry_name.
  - apply IH; [|done|done]. apply Forall_cons in Hb as [Hbb (Hbp & (_ & Hbc)%Forall_app)%Forall_app].
    constructor; [done|]. apply Forall_app. done.
Qed.

Section Rewrite.
Variables (action : option Z -> M (FileSystem D) FsError (option Z))
          (saction : option tree -> result FsError (option tree)) (access : Access).
Hypothesis Himpl : implements action saction.

(** The name the action is asked to bind fits an entry whenever it can appear. *)
Definition bindable (cs : list (list Z)) : Prop :=
  forall name t, last cs = Some name -> saction None = Ok (Some t) -> entry_name name.

(** What the rewrite of a subtree ends in. *)
Definition rewrites_to fs (cs : list (list Z)) (t : tree) (bl garbage : list Z)
    (r : result FsError (Z * list Z)) fs' : Prop :=
  extends fs fs' /\
  match r with
  | Ok (nb, garbage') => exists t' bl' g freed, garbage' = garbage ++ g /\
      s_rewrite cs t access saction = Ok t' /\ owns fs' nb t' bl' /\
      replaced fs fs' bl bl' (g ++ freed) /\ retired_of fs' = retired_of fs ++ freed
  | Err e => env_error e \/ (s_rewrite cs t access saction = Err e /\ (e = TooLarge \/ same fs fs'))
  | Panic => False
  end.

(** The step for one directory, given the replacement of the name. *)
Lemma wp_rewrite_dir fs fs2 b o m entries bl ino name rest garbage g replacement node blc kbls blc' freed :
  geometry fs -> owns fs b (TDir o m entries) bl ->
  node_at (img_of fs) b ino 1 o m ->
  Forall3 (entry_rep (img_of fs)) (filter (fun p => fst p <> name) entries)
      (filter (fun e => name_str e <> Some name) (dir_entries (img_of fs) ino)) kbls ->
  NoDup (b :: ptrs ino ++ blc ++ concat kbls) ->
  Forall (fun s => 3 <= s < sb_total_blocks (sb_of fs) /\ allocated fs s = true)
    (b :: ptrs ino ++ blc ++ concat kbls) ->
  (forall s, s ∈ b :: ptrs ino ++ blc ++ concat kbls <-> s ∈ bl) ->
  extends fs fs2 -> holds_node fs2 replacement node blc' -> replaced fs fs2 blc blc' (g ++ freed) ->
  retired_of fs2 = retired_of fs ++ freed -> (node <> None -> entry_name name) ->
  s_rewrite (name :: rest) (TDir o m entries) access saction
    = (if (DIR_CAPACITY <? length (bind_name name node entries))%nat then Err TooLarge
       else Ok (TDir o m (bind_name name node entries))) ->
  wp ('(entries, garbage) ← gather ino name 0 (slot_count ino) [] (garbage ++ g);
      entries ←
        (match replacement with
         | Some target => e ← new_entry target name; mret (entries ++ [e])
         | None => mret entries
         end);
      block ← write_directory ino entries;
      mret (block, garbage ++ [b]))
    (rewrites_to fs (name :: rest) (TDir o m entries) bl garbage) fs2.
Proof.
  intros Hg Ho Hn Hk Hnd Hold Hmem He Hnew Hrep Hret Hname Hs.
  eapply (wp_rebuild fs fs2 b o m ino entries name blc kbls); try done; [apply Ho|..].
  - intros nb bl' fs' He' Hcap Ho' Hr' Hret'. split; [done|]. rewrite Hs, <-!app_assoc.
    destruct (DIR_CAPACITY <? _)%nat eqn:Hc; [apply Nat.ltb_lt in Hc; lia|].
    eexists _, bl', (g ++ ptrs ino ++ [b]), freed.
    split; [done|]. split; [done|]. split; [done|].
    split; [|by rewrite Hret'].
    eapply replaced_members; [exact Hmem|]. eapply replaced_retired; [|exact Hr'].
    intros s. rewrite !elem_of_app. tauto.
  - intros e fs' He' Hee. split; [done|]. rewrite Hs. destruct Hee as [?|[-> Hc]]; [by left|right].
    apply Nat.ltb_lt in Hc. rewrite Hc. auto.
Qed.

Lemma rewrites_to_same fs fs1 cs t bl garbage r fs' :
  geometry fs -> same fs fs1 -> rewrites_to fs1 cs t bl garbage r fs' -> rewrites_to fs cs t bl garbage r fs'.
Proof.
  intros Hg Hs [He Hr]. split; [eapply extends_trans; [by apply same_extends|done]|].
  destruct r as [[nb g']|e|]; [|destruct Hr as [?|[? [?|?]]]; eauto using same_trans|done].
  destruct Hr as (t' & bl' & g & freed & ? & ? & ? & ? & Hret). exists t', bl', g, freed.
  repeat (split; [done|]). split; [by eapply replaced_same|]. by destruct Hs as (<- & _).
Qed.

(** The replacement of the last name of the path. *)
Lemma wp_rewrite_last fs b o m entries bl ino name garbage :
  geometry fs -> owns fs b (TDir o m entries) bl -> Inode_decode (img_of fs b) = Ok ino ->
  allows o m (acc_user access) false = true -> bindable [name] ->
  wp ('(replacement, garbage) ←
        (guard_err (acc_changes_parent access && negb (permits ino (acc_user access) true)) Denied ;;
         replacement ← action (find_named name (dir_entries (img_of fs) ino));
         mret (replacement, garbage));
      '(entries, garbage) ← gather ino name 0 (slot_count ino) [] garbage;
      entries ←
        (match replacement with
         | Some target => e ← new_entry target name; mret (entries ++ [e])
         | None => mret entries
         end);
      block ← write_directory ino entries;
      mret (block, garbage ++ [b])) (rewrites_to fs [name] (TDir o m entries) bl garbage) fs.
Proof.
  intros Hg Ho Hdec Hal Hname.
  destruct (owns_dir fs b o m entries bl ino name Hg Ho Hdec)
    as (blc & kbls & Hn & Hk & Hnd & Hold & Hmem & Hex).
  assert (Hperm : permits ino (acc_user access) true = allows o m (acc_user access) true).
  { rewrite permits_allows. by destruct Hn as (_ & _ & -> & -> & _). }
  apply wp_bind, wp_bind, wp_guard; intros Hden; rewrite Hperm in Hden.
  { split; [by apply extends_refl|right]. split; [|right; apply same_refl, Hg].
    cbn [s_rewrite]. by rewrite Hal, Hden. }
  assert (Hspec : forall node, saction (child name entries) = node ->
    s_rewrite [name] (TDir o m entries) access saction
    = match node with
      | Ok node => if (DIR_CAPACITY <? length (bind_name name node entries))%nat then Err TooLarge
                   else Ok (TDir o m (bind_name name node entries))
      | Err e => Err e
      | Panic => Panic
      end).
  { intros r <-. cbn [s_rewrite]. rewrite Hal, Hden. by destruct (saction _). }
  apply wp_bind. eapply Himpl; [done|exact Hex|..].
  - intros replacement node blc' freed fs2 He Hact Hnew Hrep Hret. apply wp_ret.
    pose proof (wp_rewrite_dir fs fs2 b o m entries bl ino name [] garbage []) as Hdir.
    rewrite app_nil_r in Hdir. eapply Hdir; try done; clear Hdir.
    + intros Hne. destruct node as [t|]; [|done]. destruct (child name entries) as [c|] eqn:Hch.
      * eapply child_entry_name; [exact Hg|exact Ho|by rewrite Hch].
      * by eapply Hname.
    + by rewrite (Hspec _ Hact).
  - intros e fs2 He Hee. split; [done|]. destruct Hee as [?|[Hact Hsm]]; [by left|right].
    split; [by rewrite (Hspec _ Hact)|by right].
Qed.

Lemma wp_rewrite cs : forall fs b t bl garbage,
  geometry fs -> owns fs b t bl -> bindable cs ->
  wp (rewrite cs b access action garbage) (rewrites_to fs cs t bl garbage) fs.
Proof.
  induction cs as [|name rest IH]; intros fs b t bl garbage Hg Ho Hname.
  - cbn [rewrite]. apply (wp_enter fs b t bl); [done|done| |].
    + intros e fs' Hs Hee. split; [by apply same_extends|]. destruct Hee as [?|Hr]; [by left|right; auto].
    + intros o m entries ino fs' -> Hal Hs _. split; [by apply same_extends|]. right. split; [|by right]. simpl. by rewrite Hal.
  - cbn [rewrite]. apply (wp_enter fs b t bl); [done|done| |].
    { intros e fs' Hs Hee. split; [by apply same_extends|]. destruct Hee as [?|Hr]; [by left|right; auto]. }
    intros o m entries ino fs1 -> Hal Hs1 Hdec1. assert (Hg1 := geometry_same _ _ Hg Hs1).
    assert (Ho1 := owns_extends _ _ _ _ _ (same_extends _ _ Hg Hs1) Ho).
    rewrite <-(image_same _ _ _ Hs1) in Hdec1.
    destruct (owns_dir fs1 b o m entries bl ino name Hg1 Ho1 Hdec1)
      as (blc & kbls & Hn & Hk & Hnd & Hold & Hmem & Hex).
    assert (Hb : 3 <= b < sb_total_blocks (sb_of fs1)) by (apply Forall_inv in Hold; apply Hold).
    eapply wp_reads.
    { eapply (reads_find_entry fs1 (img_of fs1) b ino); [by apply holds_image| |exact Hn|].
      - destruct Hg1. lia.
      - apply Forall_forall. intros s Hs. assert (Hso : s ∈ b :: ptrs ino ++ blc ++ concat kbls) by set_solver.
        eapply Forall_forall in Hold as [? _]; [|exact Hso]. lia. }
    2:{ intros e fs2 Hs2. split; [|left; right; by exists e]. apply same_extends; [done|]. by eapply same_trans. }
    intros fs2 Hs2. assert (Hs : same fs fs2) by (by eapply same_trans).
    eapply wp_mono; [intros r fs'; by apply (rewrites_to_same fs fs2)|].
    assert (Hg2 := geometry_same _ _ Hg1 Hs2).
    assert (Ho2 := owns_extends _ _ _ _ _ (same_extends _ _ Hg1 Hs2) Ho1).
    rewrite <-(image_same _ _ _ Hs2) in Hdec1. rewrite <-(dir_entries_same _ _ _ Hs2).
    clear blc kbls Hn Hk Hnd Hold Hmem Hex Hb Hs1 Hs2 Hg1 Ho1 fs1 Hg Ho Hs fs.
    destruct rest as [|n2 rest2]; [by apply wp_rewrite_last|].
    destruct (owns_dir fs2 b o m entries bl ino name Hg2 Ho2 Hdec1)
      as (blc & kbls & Hn & Hk & Hnd & Hold & Hmem & Hex).
    apply wp_bind, wp_bind, wp_lift. unfold holds_node in Hex.
    destruct (find_named _ _) as [cb|], (child name entries) as [c|] eqn:Hch; try done.
    2:{ split; [by apply extends_refl|right]. split; [|right; apply same_refl, Hg2].
        cbn [s_rewrite]. by rewrite Hal, Hch. }
    apply wp_bind. eapply wp_mono; [|apply (IH fs2 cb c blc garbage); [done|done|exact Hname]].
    intros r fs3 [He3 Hr3]. cbv beta.
    assert (Hspec : s_rewrite (name :: n2 :: rest2) (TDir o m entries) access saction
      = (c' ← s_rewrite (n2 :: rest2) c access saction;
         if (DIR_CAPACITY <? length (bind_name name (Some c') entries))%nat then Err TooLarge
         else Ok (TDir o m (bind_name name (Some c') entries)))).
    { remember (n2 :: rest2) as rest eqn:Hrest. cbn [s_rewrite]. rewrite Hal, Hch. destruct rest; [done|].
      cbn [negb ok_or mbind result_bind]. by destruct (s_rewrite _ c access saction). }
    destruct r as [[nb g']|e|]; [|split; [done|]|done].
    + destruct Hr3 as (c' & blc' & g & freed & -> & Hc' & Hown' & Hrep' & Hret'). apply wp_ret.
      eapply (wp_rewrite_dir fs2 fs3 b o m entries bl ino name (n2 :: rest2) garbage g (Some nb) (Some c'));
        try done.
      * intros _. eapply child_entry_name; [exact Hg2|exact Ho2|by rewrite Hch].
      * rewrite Hspec, Hc'. done.
    + destruct Hr3 as [?|[Hr3 Hsm]]; [by left|right]. by rewrite Hspec, Hr3.
Qed.

End Rewrite.
End Path.
