(* ===== verification/FsCommit.v ===== *)
(** * Commit and recovery

    What a power cut leaves behind, and that two flushes and two superblock
    slots are enough: at every moment the medium holds the tree from before the
    operation or the one after it, and once the operation has returned [Ok] the
    one after it. *)

From stdpp Require Import base list gmap numbers list_numbers.
From Stdlib Require Import Lia.
From S2P Require Import Prelude Block FsLayout FsOps FsSpec FsRep FsCow FsRewrite.
From S2P Require Import FsPath.

#[local] Opaque SuperBlock_encode SuperBlock_decode Inode_encode Inode_decode.

(** ** Media a mount accepts *)

Record shape (sb : SuperBlock) (count : Z) : Prop := {
  sh_fits : sb_fits sb;
  sh_version : sb_version sb = VERSION;
  sh_total : sb_total_blocks sb = count;
  sh_start : sb_bitmap_start sb = 2;
  sh_blocks : 0 < sb_bitmap_blocks sb;
  sh_first : sb_first_data_block sb = 3 + sb_bitmap_blocks sb;
  sh_room : sb_first_data_block sb <= count;
  sh_bits : count <= 4096 * sb_bitmap_blocks sb;
  sh_tight : 4096 * sb_bitmap_blocks sb < count + 4096;
}.

Lemma shape_checksum sb count c : shape sb count -> shape (with_checksum sb c) count.
Proof. by intros []. Qed.

(** The bitmap as [mount] reads it. *)
Definition disk_bitmap (img : Z -> list Z) (blocks : Z) : list Z := concat (map img (seqZ 2 blocks)).

(** The sectors [img] of a medium of [count] sectors mount as the tree [t]. *)
Definition recoverable (img : Z -> list Z) (count : Z) (t : tree) : Prop :=
  exists sb slot bl,
    choose (SuperBlock_decode (img 0)) (SuperBlock_decode (img 1)) = Ok (sb, slot) /\
    (slot = 0 \/ slot = 1) /\ shape sb count /\
    rep img (sb_root_inode sb) t bl /\ NoDup bl /\ unique_names t /\
    Forall (fun s => 2 + sb_bitmap_blocks sb <= s < count /\
                     bm_get (disk_bitmap img (sb_bitmap_blocks sb)) s = true) bl.

(** Of two slots, the live one wins: [choose] prefers the first on a tie. *)
Definition outranks (slot generation : Z) (other : option SuperBlock) : Prop :=
  forall o, other = Some o ->
    if slot =? 0 then sb_generation o <= generation else sb_generation o < generation.

Lemma choose_live slot (a : SuperBlock) (img : Z -> list Z) :
  slot = 0 \/ slot = 1 -> SuperBlock_decode (img slot) = Some a ->
  outranks slot (sb_generation a) (SuperBlock_decode (img (1 - slot))) ->
  choose (SuperBlock_decode (img 0)) (SuperBlock_decode (img 1)) = Ok (a, slot).
Proof.
  intros [-> | ->] Ha Ho; unfold outranks in Ho; simpl in Ho; rewrite Ha;
    [change (1 - 0) with 1 in Ho|change (1 - 1) with 0 in Ho].
  - destruct (SuperBlock_decode (img 1)) as [o|]; [|done]. simpl. specialize (Ho o eq_refl).
    by rewrite (proj2 (Z.geb_le _ _)).
  - destruct (SuperBlock_decode (img 0)) as [o|]; [|done]. simpl. specialize (Ho o eq_refl).
    destruct (sb_generation o >=? sb_generation a) eqn:Hc; [apply Z.geb_le in Hc; lia|done].
Qed.

(** ** Bits of the bitmap and the sectors that hold them *)

Definition bit_sector (s : Z) : Z := 2 + s / 8 / 512.

Definition marks (s : Z) (v : list Z) : Prop :=
  exists byte, v !! Z.to_nat (s / 8 mod 512) = Some byte /\ Z.testbit byte (s mod 8) = true.

Lemma bit_range s blocks : 0 <= s < 4096 * blocks -> 0 <= s / 8 < 512 * blocks /\ 2 <= bit_sector s < 2 + blocks.
Proof.
  intros Hs. assert (0 <= s / 8 < 512 * blocks).
  { split; [apply Z.div_pos; lia|]. apply Z.div_lt_upper_bound; lia. }
  split; [done|]. unfold bit_sector. split; [assert (0 <= s / 8 / 512) by (apply Z.div_pos; lia); lia|].
  assert (s / 8 / 512 < blocks) by (apply Z.div_lt_upper_bound; lia). lia.
Qed.

Lemma disk_bitmap_marks img blocks s :
  (forall s, 2 <= s < 2 + blocks -> length (img s) = 512%nat) -> 0 <= s < 4096 * blocks ->
  marks s (img (bit_sector s)) -> bm_get (disk_bitmap img blocks) s = true.
Proof.
  intros Hl Hs (byte & Hb & Ht). rewrite bm_get_testbit by lia. unfold disk_bitmap.
  destruct (bit_range s blocks Hs) as [Hr _].
  rewrite <-(Z2Nat.id blocks), concat_lookup; [|intros; apply Hl; lia|lia|lia].
  unfold bit_sector in Hb. rewrite Hb. done.
Qed.

Lemma bm_get_marks bm s blocks :
  Z.of_nat (length bm) = 512 * blocks -> 0 <= s < 4096 * blocks ->
  bm_get bm s = true -> marks s (sector_of bm (bit_sector s - 2)).
Proof.
  intros Hl Hs Hg. rewrite bm_get_testbit in Hg by lia.
  destruct (bit_range s blocks Hs) as [Hr Hb]. unfold bit_sector in *.
  destruct (bm !! Z.to_nat (s / 8)) as [byte|] eqn:Hbm; [|done]. exists byte. split; [|done].
  unfold sector_of, slice. pose proof (Z.mod_pos_bound (s / 8) 512).
  rewrite lookup_take_lt, lookup_drop by lia. rewrite <-Hbm. f_equal.
  pose proof (Z.div_mod (s / 8) 512). lia.
Qed.

Section Commit.
Context {D : Type} `{BlockLaws D}.
Implicit Types fs : FileSystem D.
Implicit Types d : D.

Abbreviation sb_of fs := (st_superblock (fs_state fs)).
Abbreviation allocated fs s := (is_allocated (fs_state fs) s).
Abbreviation img_of fs := (image (fs_device fs)).
Abbreviation retired_of fs := (st_retired (fs_state fs)).

(** A filesystem that serves the tree [t] out of the blocks [bl]. *)
Record mounted fs (t : tree) (bl : list Z) : Prop := {
  m_ok : dev_ok (fs_device fs);
  m_shape : shape (sb_of fs) (sector_count (fs_device fs));
  m_slot : st_live_slot (fs_state fs) = 0 \/ st_live_slot (fs_state fs) = 1;
  m_bitmap : Z.of_nat (length (st_bitmap (fs_state fs))) = 512 * sb_bitmap_blocks (sb_of fs);
  m_bytes : Forall is_byte (st_bitmap (fs_state fs));
  m_owns : owns fs (sb_root_inode (sb_of fs)) t bl;
  m_past : Forall (fun s => 2 + sb_bitmap_blocks (sb_of fs) <= s) bl;
}.

(** Its tree is on the medium, whatever was written since. *)
Record durable d (sb : SuperBlock) (slot : Z) (bl : list Z) : Prop := {
  d_live : exists v c, versions d slot = [v] /\ SuperBlock_decode v = Some (with_checksum sb c);
  d_other : exists w, versions d (1 - slot) = [w] /\ outranks slot (sb_generation sb) (SuperBlock_decode w);
  d_blocks : Forall (fun s => exists v, versions d s = [v]) bl;
  d_bits : Forall (fun s => Forall (marks s) (versions d (bit_sector s))) bl;
}.

(** No data block is taken that the tree does not use. *)
Definition exact fs (bl : list Z) : Prop :=
  forall s, sb_first_data_block (sb_of fs) <= s < sb_total_blocks (sb_of fs) ->
    allocated fs s = true -> s ∈ bl.

Lemma mounted_geometry fs t bl : mounted fs t bl -> geometry fs.
Proof.
  intros [Hok [] _ Hl Hb _ _]. split; [done|done| |lia|done]. lia.
Qed.

(** ** Recovery *)

Lemma survives_marks d img s :
  survives d img -> 0 <= bit_sector s < sector_count d -> Forall (marks s) (versions d (bit_sector s)) ->
  marks s (img (bit_sector s)).
Proof.
  intros Hsv Hs Hm. destruct (Hsv _ Hs) as [_ Hbytes]. pose proof (Z.mod_pos_bound (s / 8) 512).
  destruct (Hbytes (Z.to_nat (s / 8 mod 512))) as (v & Hv & Heq); [lia|].
  eapply Forall_forall in Hm as (byte & Hb & Ht); [|exact Hv]. exists byte. by rewrite Heq.
Qed.

Lemma recovers d img sb slot c t bl :
  dev_ok d -> survives d img -> shape sb (sector_count d) -> slot = 0 \/ slot = 1 ->
  SuperBlock_decode (img slot) = Some (with_checksum sb c) ->
  outranks slot (sb_generation sb) (SuperBlock_decode (img (1 - slot))) ->
  Forall (fun s => exists v, versions d s = [v]) bl ->
  Forall (fun s => Forall (marks s) (versions d (bit_sector s))) bl ->
  rep (image d) (sb_root_inode sb) t bl -> NoDup bl -> unique_names t ->
  Forall (fun s => 2 + sb_bitmap_blocks sb <= s < sector_count d) bl ->
  recoverable img (sector_count d) t.
Proof.
  intros Hok Hsv Hsh Hslot Hlive Hout Hset Hbits Hrep Hnd Hu Hrange.
  exists (with_checksum sb c), slot, bl. split; [by apply choose_live|]. split; [done|].
  split; [by apply shape_checksum|]. split; [|split; [done|split; [done|]]].
  - simpl. eapply rep_frame; [exact Hrep|]. intros s Hs.
    eapply Forall_forall in Hset as [v Hv]; [|exact Hs]. eapply Forall_forall in Hrange; [|exact Hs].
    rewrite (survives_settled d img s v) by (done || (destruct Hsh; lia)). unfold image. by rewrite Hv.
  - apply Forall_forall. intros s Hs. eapply Forall_forall in Hrange; [|exact Hs].
    eapply Forall_forall in Hbits; [|exact Hs]. split; [done|]. destruct Hsh. simpl.
    destruct (bit_range s (sb_bitmap_blocks sb)) as [_ Hb]; [lia|].
    apply disk_bitmap_marks; [|lia|].
    + intros s' Hs'. apply Hsv. lia.
    + apply (survives_marks d); [done|lia|done].
Qed.

Lemma durable_recovers d img sb slot t bl :
  dev_ok d -> survives d img -> shape sb (sector_count d) -> slot = 0 \/ slot = 1 ->
  durable d sb slot bl -> rep (image d) (sb_root_inode sb) t bl -> NoDup bl -> unique_names t ->
  Forall (fun s => 2 + sb_bitmap_blocks sb <= s < sector_count d) bl -> recoverable img (sector_count d) t.
Proof.
  intros Hok Hsv Hsh Hslot [(v & c & Hv & Hdec) (w & Hw & Hout) Hb Hbits] Hrep Hnd Hu Hr.
  assert (Hcnt : 4 <= sector_count d) by (destruct Hsh; lia).
  eapply (recovers d img sb slot c t bl); try done.
  - by rewrite (survives_settled d img slot v) by (done || lia).
  - by rewrite (survives_settled d img (1 - slot) w) by (done || lia).
Qed.

(** ** Mounting a medium *)

Lemma wp_device {A} fs (m : M D BlockError A) Q :
  (forall r d', m (fs_device fs) = (r, d') ->
     Q (match r with Ok a => Ok a | Err e => Err (Device e) | Panic => Panic end) (with_device fs d')) ->
  wp (on_device m) Q fs.
Proof. intros HQ. unfold wp, on_device. 
  destruct (m (fs_device fs)) as [r d'] eqn:Hm. specialize (HQ r d' eq_refl). by destruct r. Qed.

(** ** The commit itself *)

(** A sector nobody wrote: as it was, or settled by a flush. *)
Definition kept d d' (s : Z) : Prop := versions d' s = versions d s \/ versions d' s = [image d s].

Lemma kept_image d d' s : kept d d' s -> image d' s = image d s.
Proof. unfold kept, image. by intros [-> | ->]. Qed.

Lemma kept_settled d d' s v : kept d d' s -> versions d s = [v] -> versions d' s = [v].
Proof. unfold kept, image. intros [-> | ->] ->; done. Qed.

Lemma kept_trans d1 d2 d3 s : kept d1 d2 s -> kept d2 d3 s -> kept d1 d3 s.
Proof.
  intros H12 H23. pose proof (kept_image _ _ _ H12) as Hi. unfold kept in *.
  destruct H23 as [-> | ->]; [done|]. right. by rewrite Hi.
Qed.

Section Outcome.
Variables (fs fs' : FileSystem D).
Let st := fs_state fs.
Let other := 1 - st_live_slot st.
Let is_bitmap s := 2 <= s < 2 + sb_bitmap_blocks (sb_of fs).

(** The bitmap did not reach the medium whole: no superblock was written. *)
Definition commit_early : Prop :=
  fs_state fs' = st /\
  (forall s, ~ is_bitmap s -> kept (fs_device fs) (fs_device fs') s) /\
  (forall s, is_bitmap s ->
     Forall (fun v => v ∈ versions (fs_device fs) s \/ v = sector_of (st_bitmap st) (s - 2))
       (versions (fs_device fs') s)).

(** The bitmap and everything before it settled. *)
Definition settled_but_other : Prop :=
  (forall s, ~ is_bitmap s -> s <> other -> versions (fs_device fs') s = [img_of fs s]) /\
  (forall s, is_bitmap s -> versions (fs_device fs') s = [sector_of (st_bitmap st) (s - 2)]).

(** The superblock may or may not have been written. *)
Definition commit_late : Prop :=
  fs_state fs' = set_superblock st (bump_generation (st_superblock st)) /\ settled_but_other /\
  (versions (fs_device fs') other = [img_of fs other] \/
   versions (fs_device fs') other = [img_of fs other; SuperBlock_encode (sb_of fs')]).

Definition commit_done : Prop :=
  fs_state fs' = set_live_slot (set_superblock st (bump_generation (st_superblock st))) other /\
  settled_but_other /\ versions (fs_device fs') other = [SuperBlock_encode (sb_of fs')].

End Outcome.

Definition committed fs (r : result FsError unit) fs' : Prop :=
  dev_ok (fs_device fs') /\ sector_count (fs_device fs') = sector_count (fs_device fs) /\
  match r with
  | Ok _ => commit_done fs fs'
  | Err e => env_error e /\ (commit_early fs fs' \/ commit_late fs fs')
  | Panic => False
  end.

Lemma wp_commit fs t bl :
  mounted fs t bl -> sb_generation (sb_of fs) < U64_MAX -> wp commit (committed fs) fs.
Proof.
  intros [Hok [Hfit _ Htot Hstart Hbb Hfirst Hroom Hbits _] Hslot Hlen Hbytes _ _] Hgen.
  unfold commit. apply wp_bind, wp_get. apply wp_bind, wp_device. intros r1 d1 Hw1.
  apply write_law in Hw1 as (Hok1 & Hc1 & Hout1 & Hr1); [|done|rewrite Hstart; lia|done].
  rewrite Hstart, Hlen, (Z.mul_comm 512), Z.div_mul in * by lia.
  set (bb := sb_bitmap_blocks (sb_of fs)) in *. set (bm := st_bitmap (fs_state fs)) in *.
  assert (Hearly1 : forall e, r1 = Err e -> commit_early fs (with_device fs d1)).
  { intros e ->. split; [done|]. split; [intros s Hs; left; by apply Hout1|].
    intros s Hs. simpl. destruct (Hr1 s Hs) as [-> | ->].
    - apply Forall_forall. auto.
    - apply Forall_app. split; [apply Forall_forall; auto|by apply Forall_singleton; right]. }
  destruct r1 as [[]|e|]; [|split; [done|split; [done|]]; split; [right; by exists e|left; by apply (Hearly1 e)]|done].
  clear Hearly1. destruct Hr1 as (n & _ & Hn & _ & Hv1). assert (n = bb) as -> by lia. clear Hn.
  apply wp_bind, wp_device. simpl. intros r2 d2 Hf2.
  apply flush_law in Hf2 as (Hok2 & Hc2 & Hr2); [|done]. rewrite Hc1 in Hc2.
  destruct r2 as [[]|e|]; [|split; [done|split; [done|]]; split; [right; by exists e|left]|done].
  2:{ split; [done|]. simpl. split; [intros s Hs; left; by rewrite Hr2, Hout1|].
      intros s Hs. rewrite Hr2, Hv1 by done.
      apply Forall_app. split; [apply Forall_forall; auto|by apply Forall_singleton; right]. }
  assert (Hset : settled_but_other fs (with_device fs d2) /\
                 versions d2 (1 - st_live_slot (fs_state fs)) = [img_of fs (1 - st_live_slot (fs_state fs))]).
  { split; [split|]; intros; simpl; rewrite Hr2; [by rewrite Hout1|rewrite Hv1 by done|].
    - by rewrite List.last_last.
    - rewrite Hout1 by (fold bb; lia). done. }
  destruct Hset as [Hset Hother]. apply wp_bind.
  destruct (sb_generation _ =? U64_MAX) eqn:Hg; [lia|]. apply wp_ret. apply wp_bind, wp_update.
  apply wp_bind, wp_get. simpl. apply wp_bind, wp_device. simpl. intros r3 d3 Hw3.
  set (other := 1 - st_live_slot (fs_state fs)) in *. assert (Hother01 : 0 <= other <= 1) by lia.
  set (sb' := bump_generation (sb_of fs)) in *.
  pose proof (encode_sector sb') as [Hel Heb].
  apply write_law in Hw3 as (Hok3 & Hc3 & Hout3 & Hr3); [|done|lia|done].
  rewrite Hel in *. change (Z.of_nat 512 / 512) with 1 in *. rewrite Hc2 in Hc3.
  assert (Hset3 : forall fs3, fs_device fs3 = d3 -> settled_but_other fs fs3).
  { intros fs3 Hd3. destruct Hset as [Ha Hb].
    split; intros s Hs; [intros Hne|]; rewrite Hd3; simpl in *; rewrite Hout3;
      [by apply Ha|fold other in Hne; lia|by apply Hb|lia]. }
  assert (Henc : sector_of (SuperBlock_encode sb') (other - other) = SuperBlock_encode sb').
  { rewrite Z.sub_diag. unfold sector_of, slice. simpl Z.to_nat. rewrite drop_0, take_ge; [done|lia]. }
  destruct r3 as [[]|e|]; [|split; [exact Hok3|split; [exact Hc3|]]; split; [right; by exists e|right]|by destruct Hr3].
  2:{ split; [done|]. split; [by apply Hset3|]. simpl. fold other sb'.
      destruct (Hr3 other) as [-> | ->]; [lia| |]; rewrite Hother; [by left|right]. by rewrite Henc. }
  destruct Hr3 as (n & _ & Hn & _ & Hv3). assert (n = 1) as -> by lia.
  specialize (Hv3 other ltac:(lia)). rewrite Hother, Henc in Hv3. simpl in Hv3.
  apply wp_bind, wp_device. simpl. intros r4 d4 Hf4.
  apply flush_law in Hf4 as (Hok4 & Hc4 & Hr4); [|done]. rewrite Hc3 in Hc4.
  destruct r4 as [[]|e|]; [|split; [exact Hok4|split; [exact Hc4|]]; split; [right; by exists e|right]|by destruct Hr4].
  - apply wp_update. split; [done|]. split; [done|]. split; [done|]. simpl. fold other sb'.
    split; [|by rewrite Hr4, Hv3]. destruct (Hset3 (with_device fs d3) eq_refl) as [Ha Hb].
    split; intros s Hs; [intros Hne|]; simpl in *; rewrite Hr4; [by rewrite Ha|by rewrite Hb].
  - split; [done|]. simpl. fold other sb'. split; [|right; by rewrite Hr4, Hv3].
    destruct (Hset3 (with_device fs d3) eq_refl) as [Ha Hb].
    split; intros s Hs; [intros Hne|]; simpl in *; rewrite Hr4; auto.
Qed.

End Commit.
