(* ===== verification/FsRefine.v ===== *)
(** * The filesystem refines its specification

    Each operation of kernel/src/fs/mod.rs, on any lawful block device: what it
    returns and the tree it leaves are what the specification says, unless the
    disk is full or the device fails; and a power cut at any point leaves the
    tree from before or the one from after. *)

From stdpp Require Import base list gmap numbers list_numbers.
From Stdlib Require Import Lia.
From S2P Require Import Prelude Block FsLayout FsOps FsSpec FsRep FsCow FsRewrite.
From S2P Require Import FsPath FsCommit.

#[local] Opaque SuperBlock_encode SuperBlock_decode Inode_encode Inode_decode.

(** ** Releasing what a commit made unreachable *)

Lemma release_all_fields l : forall st,
  st_superblock (release_all l st) = st_superblock st /\
  st_live_slot (release_all l st) = st_live_slot st /\
  st_retired (release_all l st) = st_retired st /\
  length (st_bitmap (release_all l st)) = length (st_bitmap st) /\
  (Forall is_byte (st_bitmap st) -> Forall is_byte (st_bitmap (release_all l st))).
Proof.
  induction l as [|b l IH]; intros st; [done|]. unfold release_all in *. simpl.
  destruct (IH (mark st b false)) as (-> & -> & -> & -> & Hb). unfold mark in *. simpl in *.
  destruct (b <? _); simpl in *; [auto|]. rewrite length_bm_clear.
  repeat split; auto. intros. by apply Hb, bm_clear_bytes.
Qed.

Lemma release_all_allocated l : forall st s, Forall (fun b => 0 <= b) l -> 0 <= s ->
  is_allocated (release_all l st) s
  = is_allocated st s && negb (bool_decide (s ∈ l) && (sb_first_data_block (st_superblock st) <=? s)).
Proof.
  induction l as [|b l IH]; intros st s Hl Hs.
  { rewrite bool_decide_false by apply not_elem_of_nil. simpl. by rewrite andb_true_r. }
  apply Forall_cons in Hl as [Hb Hl]. unfold release_all in *. simpl fold_left. rewrite IH by done.
  assert (Hm : is_allocated (mark st b false) s
             = is_allocated st s && negb (bool_decide (s = b) && (sb_first_data_block (st_superblock st) <=? s))).
  { unfold mark. simpl. destruct (b <? _) eqn:Hc.
    - case_bool_decide; subst; simpl; [|by rewrite andb_true_r].
      destruct (_ <=? b) eqn:Hc'; [lia|]. simpl. by rewrite andb_true_r.
    - unfold is_allocated. simpl. rewrite bm_get_clear by done. rewrite andb_comm. f_equal.
      repeat case_bool_decide; subst; simpl; try done. destruct (_ <=? s) eqn:Hc'; [done|lia]. }
  rewrite Hm. assert (Hsb : st_superblock (mark st b false) = st_superblock st).
  { unfold mark. simpl. by destruct (b <? _). }
  rewrite Hsb, <-andb_assoc. f_equal.
  destruct (_ <=? s); rewrite ?andb_false_r, ?andb_true_r; [|done].
  repeat case_bool_decide; simpl; try done; set_solver.
Qed.

Section Transact.
Context {D : Type} `{BlockLaws D}.
Implicit Types fs : FileSystem D.

Abbreviation sb_of fs := (st_superblock (fs_state fs)).
Abbreviation allocated fs s := (is_allocated (fs_state fs) s).
Abbreviation img_of fs := (image (fs_device fs)).
Abbreviation retired_of fs := (st_retired (fs_state fs)).
Abbreviation live_of fs := (st_live_slot (fs_state fs)).

(** A torn superblock is noticed: the sector that was being written holds the
    old contents, the new, or something the checksum rejects. *)
Definition torn_detected fs fs' (img : Z -> list Z) : Prop :=
  let slot := 1 - live_of fs in
  img slot = img_of fs slot \/ img slot = SuperBlock_encode (sb_of fs') \/
  SuperBlock_decode (img slot) = None.

(** A mounted filesystem between two operations. *)
Record ready fs (t : tree) (bl : list Z) : Prop := {
  r_mounted : mounted fs t bl;
  r_durable : durable (fs_device fs) (sb_of fs) (live_of fs) bl;
  r_retired : retired_of fs = [];
}.

(** What an operation that should turn [t] into [spec] ends in. *)
Definition settles fs (t : tree) (bl : list Z) (spec : result FsError tree)
    (r : result FsError unit) fs' : Prop :=
  sector_count (fs_device fs') = sector_count (fs_device fs) /\
  (forall img, survives (fs_device fs') img -> torn_detected fs fs' img ->
     recoverable img (sector_count (fs_device fs)) t \/
     exists t', spec = Ok t' /\ recoverable img (sector_count (fs_device fs)) t') /\
  match r with
  | Ok _ => exists t' bl', spec = Ok t' /\ ready fs' t' bl' /\ (exact fs bl -> exact fs' bl') /\
      sb_generation (sb_of fs') = sb_generation (sb_of fs) + 1
  | Err e =>
      (env_error e /\ exists t' bl', mounted fs' t' bl' /\ (t' = t \/ spec = Ok t')) \/
      (spec = Err e /\ mounted fs' t bl /\ (e = TooLarge \/ same fs fs'))
  | Panic => False
  end.

(** ** Steps of the argument *)

Lemma mounted_rooted fs fs1 t bl nb t' bl' :
  mounted fs t bl -> extends fs fs1 -> owns fs1 nb t' bl' ->
  (forall s, s ∈ bl' -> s ∈ bl \/ claimed fs fs1 s) ->
  mounted (with_state fs1 (set_superblock (fs_state fs1) (set_root (sb_of fs1) nb))) t' bl'.
Proof.
  intros [Hok Hsh Hslot Hlen Hbytes _ Hpast] He Ho Hnew. pose proof (ext_sb _ _ He) as Hsb.
  assert (Hnb : u64 nb).
  { destruct Ho as [Hr _ Hb _]. destruct (rep_head _ _ _ _ Hr) as [rest ->]. apply Forall_inv in Hb as [Hb _].
    pose proof (count_bound _ Hok). destruct Hsh. rewrite Hsb in Hb. unfold u64, U64_MAX in *. lia. }
  split; simpl; [apply He| |by rewrite (ext_slot _ _ He)|by rewrite (ext_bitmap _ _ He), Hsb|apply He| |].
  - rewrite (ext_count _ _ He), Hsb. destruct Hsh. split; simpl; try done.
    match goal with Hf : sb_fits _ |- _ => destruct Hf as (? & ? & ? & ? & ? & ? & _ & ?) end.
    unfold sb_fits. simpl. auto 10.
  - destruct Ho as [? ? Hb ?]. split; simpl; try done.
  - apply Forall_forall. intros s Hs. rewrite Hsb. destruct (Hnew s Hs) as [Hin|[Hc _]].
    + by eapply Forall_forall in Hpast.
    + destruct Hsh. lia.
Qed.

(** Nothing a mounted filesystem relies on depends on how its sectors settled. *)
Lemma mounted_kept fs fs' t bl :
  mounted fs t bl -> dev_ok (fs_device fs') -> sector_count (fs_device fs') = sector_count (fs_device fs) ->
  shape (sb_of fs') (sector_count (fs_device fs)) -> (live_of fs' = 0 \/ live_of fs' = 1) ->
  st_bitmap (fs_state fs') = st_bitmap (fs_state fs) ->
  sb_bitmap_blocks (sb_of fs') = sb_bitmap_blocks (sb_of fs) ->
  sb_root_inode (sb_of fs') = sb_root_inode (sb_of fs) ->
  sb_total_blocks (sb_of fs') = sb_total_blocks (sb_of fs) ->
  (forall s, s ∈ bl -> img_of fs' s = img_of fs s) ->
  mounted fs' t bl.
Proof.
  intros [Hok Hsh Hslot Hlen Hbytes [Hr Hn Hb Hu] Hpast] Hok' Hc' Hsh' Hsl' Hbm Hbb Hroot Htot Himg.
  split; [done|by rewrite Hc'|done|by rewrite Hbm, Hbb|by rewrite Hbm| |by rewrite Hbb].
  split; [|done| |done].
  - rewrite Hroot. by eapply rep_frame.
  - eapply Forall_impl; [exact Hb|]. simpl. intros s. unfold is_allocated. by rewrite Hbm, Htot.
Qed.

Lemma shape_bump sb count : shape sb count -> sb_generation sb < U64_MAX -> shape (bump_generation sb) count.
Proof.
  intros [(? & ? & Hg & ? & ? & ? & ? & ?) ? ? ? ? ? ? ? ?] Hlt. split; simpl; try done.
  unfold sb_fits, u64, U64_MAX in *. simpl. auto 10 with lia.
Qed.

Lemma mounted_range fs t bl :
  mounted fs t bl ->
  Forall (fun s => 2 + sb_bitmap_blocks (sb_of fs) <= s < sector_count (fs_device fs)) bl.
Proof.
  intros [_ Hsh _ _ _ [_ _ Hb _] Hp]. apply Forall_forall. intros s Hs.
  eapply Forall_forall in Hb as [Hb _]; [|exact Hs]. eapply Forall_forall in Hp; [|exact Hs].
  simpl in *. destruct Hsh. lia.
Qed.

(** A mounted tree is recoverable from any image in which one slot shows its
    superblock, the other does not outrank it, and its blocks are settled. *)
Lemma mounted_recovers d img fs t bl slot c :
  mounted fs t bl -> dev_ok d -> sector_count d = sector_count (fs_device fs) -> survives d img ->
  slot = 0 \/ slot = 1 -> SuperBlock_decode (img slot) = Some (with_checksum (sb_of fs) c) ->
  outranks slot (sb_generation (sb_of fs)) (SuperBlock_decode (img (1 - slot))) ->
  Forall (fun s => versions d s = [img_of fs s]) bl ->
  Forall (fun s => Forall (marks s) (versions d (bit_sector s))) bl ->
  recoverable img (sector_count (fs_device fs)) t.
Proof.
  intros Hm Hok Hc Hsv Hslot Hdec Hout Hset Hbits. pose proof (mounted_range _ _ _ Hm) as Hr.
  destruct Hm as [_ Hsh _ _ _ [Hrep Hnd _ Hu] _]. rewrite <-Hc in *.
  eapply (recovers d img (sb_of fs) slot c t bl); try done.
  - eapply Forall_impl; [exact Hset|]. simpl. eauto.
  - eapply rep_frame; [exact Hrep|]. intros s Hs. eapply Forall_forall in Hset; [|exact Hs].
    simpl in Hset. unfold image at 1. by rewrite Hset.
Qed.

Lemma allocated_marks fs t bl s :
  mounted fs t bl -> 0 <= s < sector_count (fs_device fs) -> allocated fs s = true ->
  marks s (sector_of (st_bitmap (fs_state fs)) (bit_sector s - 2)) /\
  2 <= bit_sector s < 2 + sb_bitmap_blocks (sb_of fs).
Proof.
  intros [_ Hsh _ Hl _ _ _] Hs Ha. destruct Hsh.
  assert (Hs' : 0 <= s < 4096 * sb_bitmap_blocks (sb_of fs)) by lia.
  split; [|by apply bit_range]. by apply (bm_get_marks _ _ (sb_bitmap_blocks (sb_of fs))).
Qed.

Section Crash.
Variables (fs fs2 fs' : FileSystem D) (t t' : tree) (bl bl' : list Z).
Hypothesis Hready : ready fs t bl.
Hypothesis Hm2 : mounted fs2 t' bl'.
Hypothesis Hslot2 : live_of fs2 = live_of fs.
Hypothesis Hbb2 : sb_bitmap_blocks (sb_of fs2) = sb_bitmap_blocks (sb_of fs).
Hypothesis Hcount2 : sector_count (fs_device fs2) = sector_count (fs_device fs).
Hypothesis Hgen2 : sb_generation (sb_of fs2) = sb_generation (sb_of fs).
Hypothesis Hmeta2 : forall s, 0 <= s < 2 + sb_bitmap_blocks (sb_of fs) ->
  versions (fs_device fs2) s = versions (fs_device fs) s.
Hypothesis Hold2 : Forall (fun s => versions (fs_device fs2) s = versions (fs_device fs) s /\
                                    allocated fs2 s = true) bl.
Hypothesis Hok' : dev_ok (fs_device fs').
Hypothesis Hcount' : sector_count (fs_device fs') = sector_count (fs_device fs2).
Variable img : Z -> list Z.
Hypothesis Hsv : survives (fs_device fs') img.

Let other := 1 - live_of fs.

Lemma old_settled : Forall (fun s => versions (fs_device fs2) s = [img_of fs s]) bl.
Proof.
  destruct Hready as [_ [_ _ Hb _] _]. apply Forall_forall. intros s Hs.
  eapply Forall_forall in Hb as [v Hv]; [|exact Hs]. eapply Forall_forall in Hold2 as [Hv2 _]; [|exact Hs].
  unfold image. by rewrite Hv2, Hv.
Qed.

Lemma old_marked : Forall (fun s => marks s (sector_of (st_bitmap (fs_state fs2)) (bit_sector s - 2)) /\
  2 <= bit_sector s < 2 + sb_bitmap_blocks (sb_of fs)) bl.
Proof.
  pose proof (mounted_range _ _ _ (r_mounted _ _ _ Hready)) as Hr. apply Forall_forall. intros s Hs.
  eapply Forall_forall in Hr; [|exact Hs]. eapply Forall_forall in Hold2 as [_ Ha]; [|exact Hs].
  rewrite <-Hbb2. eapply allocated_marks; [exact Hm2| |exact Ha].
  destruct (r_mounted _ _ _ Hready) as [_ [] _ _ _ _ _]. lia.
Qed.

(** The live slot is settled; it decides unless the other one outranks it. *)
Lemma old_wins :
  img (live_of fs) = img_of fs (live_of fs) ->
  img other = img_of fs other \/ SuperBlock_decode (img other) = None ->
  Forall (fun s => versions (fs_device fs') s = [img_of fs s]) bl ->
  Forall (fun s => Forall (marks s) (versions (fs_device fs') (bit_sector s))) bl ->
  recoverable img (sector_count (fs_device fs)) t.
Proof.
  intros Hlive Hoth Hset Hbits. destruct Hready as [Hm [(v & c & Hv & Hd) (w & Hw & Hout) _ _] _].
  eapply (mounted_recovers (fs_device fs') img fs t bl (live_of fs) c); try done.
  - by rewrite Hcount', Hcount2.
  - apply Hm.
  - rewrite Hlive. unfold image. by rewrite Hv.
  - fold other. destruct Hoth as [-> | ->]; [|done]. unfold image, other. by rewrite Hw.
Qed.

Lemma slots_small : 0 <= live_of fs <= 1 /\ 0 <= other <= 1 /\ 4 <= sector_count (fs_device fs).
Proof.
  destruct Hready as [[_ [] Hs _ _ _ _] _ _]. unfold other. lia.
Qed.

Lemma crash_early : commit_early fs2 fs' -> recoverable img (sector_count (fs_device fs)) t.
Proof.
  intros (_ & Hkept & Hbits). pose proof slots_small as (Hl & Ho & Hc).
  pose proof (r_mounted _ _ _ Hready) as Hm. pose proof (r_durable _ _ _ Hready) as Hd.
  assert (Hslot : forall s v, 0 <= s <= 1 -> versions (fs_device fs) s = [v] -> img s = img_of fs s).
  { intros s v Hs Hv. rewrite <-Hmeta2 in Hv by (destruct Hm as [_ [] _ _ _ _ _]; lia).
    assert (Hv' : versions (fs_device fs') s = [v]) by (eapply kept_settled; [apply Hkept; lia|done]).
    rewrite (survives_settled _ img s v Hok' Hsv) by (done || lia). unfold image.
    rewrite Hmeta2 in Hv by (destruct Hm as [_ [] _ _ _ _ _]; lia). by rewrite Hv. }
  destruct Hd as [(v & c & Hv & _) (w & Hw & _) _ Hmarks].
  apply old_wins; [by eapply Hslot|left; by eapply Hslot| |].
  - pose proof old_settled as Hs. pose proof (mounted_range _ _ _ Hm) as Hrange.
    apply Forall_forall. intros s Hin. eapply Forall_forall in Hs; [|exact Hin].
    eapply Forall_forall in Hrange; [|exact Hin]. eapply kept_settled; [apply Hkept; lia|done].
  - pose proof old_marked as Hom. apply Forall_forall. intros s Hin.
    eapply Forall_forall in Hom as [Hsec Hbs]; [|exact Hin]. eapply Forall_forall in Hmarks; [|exact Hin].
    eapply Forall_impl; [apply Hbits; lia|]. intros x [Hx| ->]; [|done].
    rewrite Hmeta2 in Hx by lia. by eapply Forall_forall in Hmarks.
Qed.

(** Either tree's blocks once everything but the second slot has settled. *)
Lemma late_blocks l : settled_but_other fs2 fs' ->
  Forall (fun s => 2 + sb_bitmap_blocks (sb_of fs) <= s < sector_count (fs_device fs)) l ->
  Forall (fun s => allocated fs2 s = true) l ->
  Forall (fun s => versions (fs_device fs') s = [img_of fs2 s]) l /\
  Forall (fun s => Forall (marks s) (versions (fs_device fs') (bit_sector s))) l.
Proof.
  intros [Hset Hbits] Hr Ha. pose proof slots_small as (Hl & Ho & Hc).
  assert (Hbb : 0 < sb_bitmap_blocks (sb_of fs)) by (destruct Hready as [[_ [] _ _ _ _ _] _ _]; lia).
  split; apply Forall_forall; intros s Hs; (eapply Forall_forall in Hr; [|exact Hs]).
  - apply Hset; rewrite ?Hbb2, ?Hslot2; fold other; lia.
  - eapply Forall_forall in Ha; [|exact Hs].
    destruct (allocated_marks fs2 t' bl' s Hm2) as [Hmk Hbs]; [lia|done|].
    rewrite Hbits by done. by apply Forall_singleton.
Qed.

Lemma old_blocks_allocated : Forall (fun s => allocated fs2 s = true) bl.
Proof. eapply Forall_impl; [exact Hold2|]. simpl. tauto. Qed.

Lemma new_blocks_allocated : Forall (fun s => allocated fs2 s = true) bl'.
Proof. destruct Hm2 as [_ _ _ _ _ [_ _ Hb _] _]. eapply Forall_impl; [exact Hb|]. simpl. tauto. Qed.

Lemma new_range : Forall (fun s => 2 + sb_bitmap_blocks (sb_of fs) <= s < sector_count (fs_device fs)) bl'.
Proof. rewrite <-Hbb2, <-Hcount2. by apply mounted_range in Hm2. Qed.

Hypothesis Hgen : sb_generation (sb_of fs) < U64_MAX.

Definition bumped : FileSystem D :=
  with_state fs2 (set_superblock (fs_state fs2) (bump_generation (sb_of fs2))).

Lemma mounted_bumped : mounted bumped t' bl'.
Proof.
  pose proof Hm2 as [Hok Hsh Hsl _ _ _ _]. apply (mounted_kept fs2); try done.
  apply shape_bump; [done|]. by rewrite Hgen2.
Qed.

Lemma new_decodes : exists c, SuperBlock_decode (SuperBlock_encode (sb_of bumped)) = Some (with_checksum (sb_of bumped) c).
Proof. apply SuperBlock_decode_encode. apply mounted_bumped. Qed.

(** The old superblock never outranks the new one. *)
Lemma new_outranks :
  outranks other (sb_generation (sb_of bumped)) (SuperBlock_decode (img_of fs (live_of fs))).
Proof.
  destruct Hready as [_ [(v & c & Hv & Hd) _ _ _] _]. unfold image. rewrite Hv. simpl.
  rewrite Hd. intros o [= <-]. simpl. rewrite Hgen2. destruct (other =? 0); lia.
Qed.

Lemma live_settled : settled_but_other fs2 fs' ->
  versions (fs_device fs') (live_of fs) = [img_of fs (live_of fs)].
Proof.
  intros [Hset _]. pose proof slots_small as (Hl & Ho & Hc). unfold other in Ho.
  rewrite Hset by (rewrite ?Hslot2, ?Hbb2; lia). unfold image. rewrite Hmeta2; [done|].
  destruct Hready as [[_ [] _ _ _ _ _] _ _]. lia.
Qed.

Lemma other_before : img_of fs2 other = img_of fs other.
Proof.
  pose proof slots_small as (Hl & Ho & Hc). unfold image. rewrite Hmeta2; [done|].
  destruct Hready as [[_ [] _ _ _ _ _] _ _]. lia.
Qed.

Lemma crash_late : commit_late fs2 fs' -> torn_detected fs fs' img ->
  recoverable img (sector_count (fs_device fs)) t \/ recoverable img (sector_count (fs_device fs)) t'.
Proof.
  intros (Hst & Hset & Hoth) Htorn. pose proof slots_small as (Hl & Ho & Hc).
  rewrite Hslot2 in Hoth. fold other in Hoth. rewrite other_before in Hoth.
  assert (Hlive : img (live_of fs) = img_of fs (live_of fs)).
  { apply (survives_settled (fs_device fs')); [done|done|lia|by apply live_settled]. }
  assert (Hcase : (img other = img_of fs other \/ SuperBlock_decode (img other) = None) \/
                  img other = SuperBlock_encode (sb_of fs')).
  { unfold torn_detected in Htorn. fold other in Htorn. tauto. }
  destruct Hcase as [Hold|Hnew]; [left|right].
  - pose proof (mounted_range _ _ _ (r_mounted _ _ _ Hready)) as Hr.
    destruct (late_blocks bl Hset Hr old_blocks_allocated) as [Hb Hbits].
    apply old_wins; [done|done| |done]. apply Forall_forall. intros s Hs.
    eapply Forall_forall in Hb; [|exact Hs]. pose proof old_settled as Hos.
    eapply Forall_forall in Hos; [|exact Hs]. simpl in *. rewrite Hb. unfold image at 1. by rewrite Hos.
  - destruct (late_blocks bl' Hset new_range new_blocks_allocated) as [Hb Hbits].
    destruct new_decodes as [c Hdec]. rewrite <-Hcount2.
    eapply (mounted_recovers (fs_device fs') img bumped t' bl' other c); try done.
    + apply mounted_bumped.
    + unfold other. lia.
    + rewrite Hnew, Hst. done.
    + replace (1 - other) with (live_of fs) by (unfold other; lia). rewrite Hlive. apply new_outranks.
Qed.

(** After a commit that failed the new tree is the one in memory. *)
Lemma failed_mounted : commit_early fs2 fs' \/ commit_late fs2 fs' -> mounted fs' t' bl'.
Proof.
  pose proof slots_small as (Hl & Ho & Hc). pose proof Hm2 as [_ Hsh2 Hsl2 _ _ _ _].
  intros [(Hst & Hkept & _)|(Hst & Hset & _)].
  - apply (mounted_kept fs2); rewrite ?Hst; try done. intros s Hs. apply kept_image, Hkept.
    pose proof new_range as Hr. eapply Forall_forall in Hr; [|exact Hs]. simpl in Hr. lia.
  - pose proof mounted_bumped as [_ Hsh _ _ _ _ _].
    destruct (late_blocks bl' Hset new_range new_blocks_allocated) as [Hb _].
    apply (mounted_kept fs2); rewrite ?Hst; try done.
    intros s Hs. eapply Forall_forall in Hb; [|exact Hs]. simpl in Hb. unfold image at 1. by rewrite Hb.
Qed.

Lemma done_durable : commit_done fs2 fs' ->
  mounted fs' t' bl' /\ durable (fs_device fs') (sb_of fs') (live_of fs') bl'.
Proof.
  intros (Hst & Hset & Hoth). pose proof slots_small as (Hl & Ho & Hc).
  rewrite Hslot2 in Hoth. fold other in Hoth.
  destruct (late_blocks bl' Hset new_range new_blocks_allocated) as [Hb Hbits]. split.
  - pose proof mounted_bumped as [_ Hsh _ _ _ _ _].
    apply (mounted_kept fs2); rewrite ?Hst; try done; simpl; rewrite ?Hslot2; [unfold other in *; lia|].
    intros s Hs. eapply Forall_forall in Hb; [|exact Hs]. simpl in Hb. unfold image at 1. by rewrite Hb.
  - rewrite Hst. simpl. rewrite Hslot2. fold other. destruct new_decodes as [c Hdec]. split.
    + exists (SuperBlock_encode (sb_of bumped)), c. split; [|done]. by rewrite Hoth, Hst.
    + exists (img_of fs (live_of fs)). replace (1 - other) with (live_of fs) by (unfold other; lia).
      split; [by apply live_settled|apply new_outranks].
    + eapply Forall_impl; [exact Hb|]. simpl. eauto.
    + done.
Qed.

End Crash.
Lemma mounted_extends fs fs' t bl : mounted fs t bl -> extends fs fs' -> mounted fs' t bl.
Proof.
  intros [Hok Hsh Hsl Hl Hb Ho Hp] He. pose proof (ext_sb _ _ He) as Hsb.
  split; rewrite ?Hsb, ?(ext_count _ _ He), ?(ext_slot _ _ He), ?(ext_bitmap _ _ He); try done; try apply He.
  by eapply owns_extends.
Qed.

(** Until the commit, the medium as a mount would see it has not changed. *)
Lemma crash_extends fs fs' t bl img :
  ready fs t bl -> extends fs fs' -> survives (fs_device fs') img ->
  recoverable img (sector_count (fs_device fs)) t.
Proof.
  intros [Hm [(v & c & Hv & Hd) (w & Hw & Hout) Hb Hbits] _] He Hsv.
  pose proof (mounted_range _ _ _ Hm) as Hr. pose proof Hm as [_ Hsh Hsl _ _ [_ _ Ha _] _].
  assert (Hmeta : forall s, 0 <= s < 2 + sb_bitmap_blocks (sb_of fs) ->
    versions (fs_device fs') s = versions (fs_device fs) s).
  { intros s Hs. apply (ext_frame _ _ He); [lia|left]. destruct Hsh. lia. }
  assert (Hok' : dev_ok (fs_device fs')) by apply He.
  assert (Hc : sector_count (fs_device fs') = sector_count (fs_device fs)) by apply He.
  assert (H4 : 4 <= sector_count (fs_device fs) /\ 0 < sb_bitmap_blocks (sb_of fs)) by (destruct Hsh; lia).
  eapply (mounted_recovers (fs_device fs') img fs t bl (st_live_slot (fs_state fs)) c); try done.
  - rewrite <-Hmeta in Hv by lia. by rewrite (survives_settled _ img _ v Hok' Hsv) by (done || lia).
  - rewrite <-Hmeta in Hw by lia. by rewrite (survives_settled _ img _ w Hok' Hsv) by (done || lia).
  - apply Forall_forall. intros s Hs. eapply Forall_forall in Hb as [x Hx]; [|exact Hs].
    eapply Forall_forall in Ha as [Hs3 Ha]; [|exact Hs].
    rewrite (ext_frame _ _ He) by (lia || by right). unfold image. by rewrite Hx.
  - apply Forall_forall. intros s Hs. eapply Forall_forall in Hbits; [|exact Hs].
    eapply Forall_forall in Hr; [|exact Hs]. rewrite Hmeta; [done|].
    destruct (bit_range s (sb_bitmap_blocks (sb_of fs))) as [_ ?]; destruct Hsh; lia.
Qed.

Lemma settles_early fs t bl spec e fs' :
  ready fs t bl -> extends fs fs' ->
  env_error e \/ (spec = Err e /\ (e = TooLarge \/ same fs fs')) -> settles fs t bl spec (Err e) fs'.
Proof.
  intros Hr He Hee. assert (Hm' := mounted_extends _ _ _ _ (r_mounted _ _ _ Hr) He).
  split; [apply He|]. split; [intros img Hsv _; left; by eapply crash_extends|].
  destruct Hee as [Hee|[Hs Hsm]]; [left|right]; [|done]. split; [done|]. exists t, bl. auto.
Qed.

(** The released blocks are exactly those the new tree does not use. *)
Lemma release_mounted fs fs1 fs3 t t' bl bl' garbage :
  mounted fs t bl -> mounted fs3 t' bl' -> replaced fs fs1 bl bl' garbage ->
  sb_first_data_block (sb_of fs3) = sb_first_data_block (sb_of fs) ->
  sb_total_blocks (sb_of fs3) = sb_total_blocks (sb_of fs) ->
  st_bitmap (fs_state fs3) = st_bitmap (fs_state fs1) ->
  let fs' := with_state fs3 (release_all garbage (set_retired (fs_state fs3) [])) in
  mounted fs' t' bl' /\ retired_of fs' = [] /\ sb_of fs' = sb_of fs3 /\ live_of fs' = live_of fs3 /\
  (exact fs bl -> exact fs' bl').
Proof.
  intros Hm Hm3 Hrep Hfirst Htot Hbm fs'. set (st3 := set_retired (fs_state fs3) []) in *.
  destruct (release_all_fields garbage st3) as (Hsb & Hsl & Hret & Hlen & Hbytes).
  assert (Hg0 : Forall (fun b => 0 <= b) garbage).
  { apply Forall_forall. intros s Hs. destruct (rp_freed _ _ _ _ _ Hrep s Hs) as [Hin _].
    apply mounted_range in Hm as Hr. eapply Forall_forall in Hr; [|exact Hin].
    destruct Hm as [_ [] _ _ _ _ _]. simpl in Hr. lia. }
  assert (Hal : forall s, 0 <= s -> is_allocated (release_all garbage st3) s
     = allocated fs1 s && negb (bool_decide (s ∈ garbage) && (sb_first_data_block (sb_of fs) <=? s))).
  { intros s Hs. rewrite release_all_allocated by done. unfold is_allocated. simpl. by rewrite Hbm, Hfirst. }
  pose proof Hm3 as [Hok3 Hsh3 Hsl3 Hl3 Hb3 [Hr3 Hn3 Ha3 Hu3] Hp3].
  split; [|split; [|split; [|split]]]; simpl; rewrite ?Hsb, ?Hsl, ?Hret; try done.
  - split; simpl; rewrite ?Hsb, ?Hsl, ?Hlen; auto. split; [done|done| |done]. simpl. rewrite Hsb.
    apply Forall_forall. intros s Hs. eapply Forall_forall in Ha3 as [Hs3 Ha]; [|exact Hs]. split; [done|].
    rewrite Hal by lia. unfold is_allocated in *. rewrite Hbm in Ha. rewrite Ha. simpl.
    rewrite bool_decide_false; [done|]. intros Hin. by apply (rp_freed _ _ _ _ _ Hrep) in Hin as [_ ?].
  - intros Hex s. simpl. rewrite Hsb. simpl. rewrite Hfirst, Htot. intros Hs Ha.
    assert (Hs0 : 0 <= s) by (apply mounted_geometry in Hm as []; lia).
    rewrite Hal in Ha by done. apply andb_true_iff in Ha as [Ha Hng].
    rewrite (proj2 (Z.leb_le _ _)), andb_true_r in Hng by lia.
    apply negb_true_iff, bool_decide_eq_false in Hng.
    apply (rp_only _ _ _ _ _ Hrep) in Ha as [?|Ha]; [done| |done].
    apply Hex in Ha; [|done]. by apply (rp_kept _ _ _ _ _ Hrep) in Ha as [?|?].
Qed.

Lemma wp_transact path access action saction fs t bl :
  implements action saction -> ready fs t bl -> sb_generation (sb_of fs) < U64_MAX ->
  bindable saction (components path) ->
  wp (transact path access action) (settles fs t bl (s_transact t path access saction)) fs.
Proof.
  intros Himpl Hr Hgen Hname. pose proof (r_mounted _ _ _ Hr) as Hm.
  assert (Hg := mounted_geometry _ _ _ Hm). unfold transact, s_transact.
  apply wp_bind, wp_guard; intros Hc.
  { rewrite Hc. apply settles_early; [done|by apply extends_refl|]. right.
    split; [done|right]. apply same_refl, Hm. }
  rewrite Hc. apply wp_bind, wp_get. apply wp_bind.
  eapply wp_mono; [|apply (wp_rewrite action saction access Himpl); [exact Hg|apply Hm|done]].
  intros r fs1 [He Hr1]. destruct r as [[nb garbage]|e|]; [|by apply settles_early|done].
  destruct Hr1 as (t' & bl' & g & freed & -> & Hspec & Ho1 & Hrep & Hret). simpl.
  rewrite (r_retired _ _ _ Hr) in Hret. simpl in Hret.
  pose proof (mounted_rooted _ _ _ _ _ _ _ Hm He Ho1 (rp_new _ _ _ _ _ Hrep)) as Hm2.
  apply wp_bind, wp_update. set (fs2 := with_state fs1 _) in *.
  pose proof (ext_sb _ _ He) as Hsb. pose proof (ext_slot _ _ He) as Hslot2.
  assert (Hmeta : forall s, 0 <= s < 2 + sb_bitmap_blocks (sb_of fs) ->
    versions (fs_device fs2) s = versions (fs_device fs) s).
  { intros s Hs. apply (ext_frame _ _ He); [lia|left]. destruct Hm as [_ [] _ _ _ _ _]. lia. }
  assert (Hold : Forall (fun s => versions (fs_device fs2) s = versions (fs_device fs) s /\
                                  allocated fs2 s = true) bl).
  { destruct Hm as [_ _ _ _ _ [_ _ Hb _] _]. eapply Forall_impl; [exact Hb|]. simpl. intros s [Hs Ha].
    split; [apply (ext_frame _ _ He); [lia|by right]|apply (ext_alloc _ _ He); [lia|done]]. }
  assert (Hc2 : sector_count (fs_device fs2) = sector_count (fs_device fs)) by apply He.
  assert (Hbb2 : sb_bitmap_blocks (sb_of fs2) = sb_bitmap_blocks (sb_of fs)) by (simpl; by rewrite Hsb).
  assert (Hgen2 : sb_generation (sb_of fs2) = sb_generation (sb_of fs)) by (simpl; by rewrite Hsb).
  apply wp_bind. eapply wp_mono; [|eapply (wp_commit fs2); [exact Hm2|by rewrite Hgen2]].
  intros r fs3 (Hok3 & Hc3 & Hr3). destruct r as [[]|e|]; [|split; [by rewrite Hc3|]|done].
  - pose proof Hr3 as (Hst3 & _).
    destruct (done_durable fs fs2 fs3 t t' bl bl') as [Hm3 Hd3]; try done.
    assert (Hret3 : retired_of fs3 = freed) by (by rewrite Hst3).
    apply wp_update. rewrite Hret3. simpl.
    destruct (release_mounted fs fs1 fs3 t t' bl bl' (g ++ freed)) as (Hm' & Hret' & Hsb' & Hsl' & Hex');
      try done; [by rewrite Hst3; simpl; rewrite Hsb..|by rewrite Hst3|].
    split; [by simpl; rewrite Hc3|]. split.
    + intros img Hsv _. right. exists t'. split; [done|]. rewrite <-Hc2, <-Hc3.
      pose proof (mounted_range _ _ _ Hm3). destruct Hm3 as [_ Hsh3 Hsl3 _ _ [Hr' Hn' _ Hu'] _].
      by eapply (durable_recovers (fs_device fs3) img (sb_of fs3) (live_of fs3) t' bl').
    + exists t', bl'. split; [done|]. split; [|split; [done|]].
      * split; [done| |done]. rewrite Hsb', Hsl'. done.
      * rewrite Hsb', Hst3. simpl. by rewrite Hsb.
  - destruct Hr3 as [Hee Hr3]. split.
    + intros img Hsv Htorn. destruct Hr3 as [Hr3|Hr3].
      * left. by eapply (crash_early fs fs2 fs3).
      * edestruct (crash_late fs fs2 fs3 t t' bl bl'); eauto.
    + left. split; [done|]. exists t', bl'. split; [|by right].
      by eapply (failed_mounted fs fs2 fs3 t t' bl bl').
Qed.

End Transact.
