(* ===== verification/FsNames.v ===== *)
(** * Paths and the names in them

    [split_path], [check_name] and the component split of [transact] look at a
    path separately; they agree on its last name, and every component of valid
    text is valid text. *)

From stdpp Require Import base list gmap numbers list_numbers.
From Stdlib Require Import Lia.
From S2P Require Import Prelude Block FsLayout FsOps FsSpec FsPath.

(** ** Splitting *)

Lemma split_on_nonempty c s : exists w ws, split_on c s = w :: ws.
Proof.
  induction s as [|b s (w & ws & IH)]; simpl; [eauto|]. destruct (b =? c); [eauto|]. rewrite IH. eauto.
Qed.

Lemma split_on_app c a b : split_on c (a ++ c :: b) = split_on c a ++ split_on c b.
Proof.
  induction a as [|x a IH]; simpl.
  - by rewrite Z.eqb_refl.
  - destruct (x =? c); [by rewrite IH|]. rewrite IH.
    destruct (split_on_nonempty c a) as (w & ws & ->). done.
Qed.

Lemma split_on_none c s : c ∉ s -> split_on c s = [s].
Proof.
  induction s as [|x s IH]; intros Hn; [done|]. simpl. destruct (x =? c) eqn:Hx.
  - apply Z.eqb_eq in Hx. subst. exfalso. apply Hn. left.
  - rewrite IH; [done|]. intros Hin. apply Hn. by right.
Qed.

Lemma components_app a b : components (a ++ SLASH :: b) = components a ++ components b.
Proof. unfold components. by rewrite split_on_app, filter_app. Qed.

Lemma components_slashes s n : components (s ++ replicate n SLASH) = components s.
Proof.
  revert s. induction n as [|n IH]; intros s; [by rewrite app_nil_r|].
  simpl. rewrite components_app.
  assert (components (replicate n SLASH) = []) as ->; [|by rewrite app_nil_r].
  etrans; [apply (IH [])|done].
Qed.

Lemma components_one s : SLASH ∉ s -> s <> [] -> components s = [s].
Proof. intros Hn Hne. unfold components. rewrite split_on_none by done. by apply filter_all, Forall_singleton. Qed.

(** ** The last name *)

Lemma trim_start_spec c s : exists n, s = replicate n c ++ trim_start_matches c s.
Proof.
  induction s as [|b s [n IH]]; simpl; [by exists 0%nat|]. destruct (b =? c) eqn:Hb.
  - apply Z.eqb_eq in Hb. subst. exists (S n). simpl. by f_equal.
  - by exists 0%nat.
Qed.

Lemma trim_end_spec c s : exists n, s = trim_end_matches c s ++ replicate n c.
Proof.
  destruct (trim_start_spec c (reverse s)) as [n Hn]. exists n. unfold trim_end_matches.
  rewrite <-(reverse_involutive s) at 1. rewrite Hn at 1. rewrite reverse_app, reverse_replicate. done.
Qed.

Lemma rfind_none c s : rfind c s = None -> c ∉ s.
Proof.
  induction s as [|b s IH]; simpl; [intros _; apply not_elem_of_nil|].
  destruct (rfind c s); [done|]. destruct (b =? c) eqn:Hb; [done|]. intros _ Hin.
  apply elem_of_cons in Hin as [->|Hin]; [lia|by apply IH].
Qed.

Lemma rfind_some c s i : rfind c s = Some i -> s = take i s ++ c :: drop (S i) s /\ c ∉ drop (S i) s.
Proof.
  revert i. induction s as [|b s IH]; intros i; simpl; [done|]. destruct (rfind c s) as [j|] eqn:Hj.
  - intros [= <-]. destruct (IH j eq_refl) as [Hs Hn]. simpl. split; [by f_equal|done].
  - destruct (b =? c) eqn:Hb; [|done]. apply Z.eqb_eq in Hb. subst. intros [= <-]. simpl.
    split; [done|]. rewrite drop_0. by apply rfind_none.
Qed.

(** What [check_name] looked at is the name the rewrite will bind. *)
Lemma split_path_last path parent name :
  split_path path = Ok (parent, name) -> name <> [] ->
  components path = components parent ++ [name].
Proof.
  unfold split_path. destruct (trim_end_spec SLASH path) as [n Hn].
  set (trimmed := trim_end_matches SLASH path) in *. rewrite Hn, components_slashes. clear Hn.
  destruct (rfind SLASH trimmed) as [i|] eqn:Hi.
  - intros [= <- <-] Hne. apply rfind_some in Hi as [Ht Hnin]. rewrite Ht at 1. rewrite components_app. f_equal.
    by apply components_one.
  - apply rfind_none in Hi. destruct trimmed as [|x l] eqn:Hx; [done|]. intros [= <- <-] Hne.
    simpl. by apply components_one.
Qed.

Lemma check_name_ok name :
  check_name name = Ok tt -> name <> [] /\ (length name <= MAX_NAME)%nat /\ SLASH ∉ name.
Proof.
  unfold check_name. case_bool_decide; [done|]. simpl. destruct (MAX_NAME <? length name)%nat eqn:Hl; [done|].
  apply Nat.ltb_ge in Hl. simpl. case_bool_decide; [done|]. done.
Qed.

(** ** Components of valid text *)

Lemma not_cont_slash : is_cont SLASH = false.
Proof. reflexivity. Qed.

Lemma in_range_slash lo hi : SLASH < lo -> in_range lo hi SLASH = false.
Proof. intros Hlo. unfold in_range. by rewrite (proj2 (Z.leb_gt _ _)). Qed.

Lemma utf8_app_slash n : forall a b, (length a <= n)%nat ->
  utf8_valid (a ++ SLASH :: b) = utf8_valid a && utf8_valid b.
Proof.
  induction n as [|n IH]; intros [|b0 r] b Hn; try done; [simpl in Hn; lia|].
  simpl in Hn. cbn [app utf8_valid].
  assert (H3 : forall lo hi, 0x80 <= lo -> in_range lo hi SLASH = false) by (intros; apply in_range_slash; unfold SLASH; lia).
  destruct (b0 <? 128); [apply IH; lia|]. destruct (in_range 194 223 b0).
  { destruct r as [|b1 r1]; [done|]. cbn [app]. rewrite IH by (simpl in Hn; lia). by rewrite andb_assoc. }
  destruct (in_range 224 239 b0).
  { destruct r as [|b1 [|b2 r2]]; cbn [app].
    - destruct b; [done|]. rewrite H3; [done|]. by destruct (b0 =? 224).
    - rewrite not_cont_slash, andb_false_r. done.
    - rewrite IH by (simpl in Hn; lia). by rewrite !andb_assoc. }
  destruct (in_range 240 244 b0); [|done].
  destruct r as [|b1 [|b2 [|b3 r3]]]; cbn [app].
  - destruct b as [|? [|? ?]]; [done|done|]. rewrite H3; [done|]. by destruct (b0 =? 240).
  - destruct b as [|? ?]; [done|]. by rewrite not_cont_slash, andb_false_r.
  - by rewrite not_cont_slash, andb_false_r.
  - rewrite IH by (simpl in Hn; lia). by rewrite !andb_assoc.
Qed.

Lemma split_first c (s : list Z) : c ∈ s -> exists a b, s = a ++ c :: b.
Proof. intros Hin. apply list_elem_of_split in Hin as (a & b & ->). eauto. Qed.

Lemma split_on_text n : forall s, (length s <= n)%nat -> Forall is_byte s -> utf8_valid s = true ->
  Forall (fun w => Forall is_byte w /\ utf8_valid w = true) (split_on SLASH s).
Proof.
  induction n as [|n IH]; intros s Hl Hb Hu.
  { destruct s; [|simpl in Hl; lia]. by apply Forall_singleton. }
  destruct (decide (SLASH ∈ s)) as [Hin|Hn]; [|rewrite split_on_none by done; by apply Forall_singleton].
  apply split_first in Hin as (a & b & ->). rewrite length_app in Hl. simpl in Hl.
  rewrite (utf8_app_slash (length a)) in Hu by lia. apply andb_true_iff in Hu as [Ha Hb'].
  apply Forall_app in Hb as [Hba Hbb]. apply Forall_cons in Hbb as [_ Hbb].
  rewrite split_on_app. apply Forall_app. split; apply IH; auto; lia.
Qed.

Lemma components_text path :
  Forall is_byte path -> utf8_valid path = true ->
  Forall (fun w => Forall is_byte w /\ utf8_valid w = true) (components path).
Proof. intros Hb Hu. apply filter_Forall_keep. by apply (split_on_text (length path)). Qed.

(** A [&str]. *)
Definition text (s : list Z) : Prop := Forall is_byte s /\ utf8_valid s = true.

(** A path that passed the two checks binds a name that fits. *)
Lemma checked_last path parent name :
  text path -> split_path path = Ok (parent, name) -> check_name name = Ok tt ->
  components path <> [] /\ forall n, last (components path) = Some n -> entry_name n.
Proof.
  intros [Hb Hu] Hs Hc. apply check_name_ok in Hc as (Hne & Hl & _).
  pose proof (components_text path Hb Hu) as Ht. rewrite (split_path_last path parent name Hs Hne) in *.
  split; [by destruct (components parent)|]. intros n. rewrite last_snoc. intros [= <-].
  apply Forall_app in Ht as [_ Ht]. apply Forall_singleton in Ht as [? ?]. done.
Qed.
