(* ===== verification/FsMount.v ===== *)
(** * Mounting and formatting

    A recoverable medium mounts as the tree it holds, and a freshly formatted
    one as an empty directory of the system's. *)

From stdpp Require Import base list gmap numbers list_numbers.
From Stdlib Require Import Lia.
From S2P Require Import Prelude Block FsLayout FsOps FsSpec FsRep FsCow FsRewrite.
From S2P Require Import FsPath FsCommit FsRefine.

#[local] Opaque SuperBlock_encode SuperBlock_decode Inode_encode Inode_decode.

Section Mount.
Context {D : Type} `{BlockLaws D}.
Implicit Types d : D.

Definition settled d : Prop := forall s, 0 <= s < sector_count d -> versions d s = [image d s].

(** What a mount of a recoverable medium gives. *)
Definition mounts d (t : tree) (r : result FsError State) d' : Prop :=
  same_device d d' /\
  match r with
  | Ok st => exists bl, let fs := {| fs_device := d'; fs_state := st |} in
      mounted fs t bl /\ st_retired st = [] /\
      st_bitmap st = disk_bitmap (image d) (sb_bitmap_blocks (st_superblock st)) /\
      choose (SuperBlock_decode (image d 0)) (SuperBlock_decode (image d 1))
        = Ok (st_superblock st, st_live_slot st) /\
      (settled d -> ready fs t bl)
  | Err e => exists be, e = Device be
  | Panic => False
  end.

Lemma choose_durable d sb slot bl :
  settled d -> dev_ok d -> shape sb (sector_count d) -> slot = 0 \/ slot = 1 ->
  choose (SuperBlock_decode (image d 0)) (SuperBlock_decode (image d 1)) = Ok (sb, slot) ->
  Forall (fun s => 2 + sb_bitmap_blocks sb <= s < sector_count d /\
                   bm_get (disk_bitmap (image d) (sb_bitmap_blocks sb)) s = true) bl ->
  durable d sb slot bl.
Proof.
  intros Hset Hok Hsh Hslot Hch Hbl. assert (H4 : 4 <= sector_count d) by (destruct Hsh; lia).
  split.
  - exists (image d slot), (sb_checksum sb). split; [apply Hset; lia|].
    replace (with_checksum sb (sb_checksum sb)) with sb by (by destruct sb).
    unfold choose in Hch. destruct (SuperBlock_decode (image d 0)) as [a|] eqn:Ha, (SuperBlock_decode (image d 1)) as [b|] eqn:Hb;
      try destruct (_ >=? _); try done; injection Hch as <- <-; done.
  - exists (image d (1 - slot)). split; [apply Hset; lia|]. intros o Ho. unfold choose in Hch.
    destruct (SuperBlock_decode (image d 0)) as [a|] eqn:Ha, (SuperBlock_decode (image d 1)) as [b|] eqn:Hb;
      try (destruct (sb_generation a >=? sb_generation b) eqn:Hge; [apply Z.geb_le in Hge|]);
      try done; injection Hch as <- <-; simpl in *.
    + change (1 - 0) with 1 in Ho. assert (o = b) as -> by congruence. done.
    + change (1 - 1) with 0 in Ho. assert (o = a) as -> by congruence.
      destruct (Z.lt_ge_cases (sb_generation a) (sb_generation b)); [done|].
      by rewrite (proj2 (Z.geb_le _ _)) in Hge.
    + change (1 - 0) with 1 in Ho. congruence.
    + change (1 - 1) with 0 in Ho. congruence.
  - eapply Forall_impl; [exact Hbl|]. simpl. intros s [Hs _]. exists (image d s). apply Hset.
    destruct Hsh. lia.
  - apply Forall_forall. intros s Hs. eapply Forall_forall in Hbl as [Hr Hbit]; [|exact Hs].
    destruct Hsh. assert (Hs4 : 0 <= s < 4096 * sb_bitmap_blocks sb) by lia.
    destruct (bit_range s (sb_bitmap_blocks sb) Hs4) as [Hb8 Hbs].
    rewrite Hset by lia. apply Forall_singleton. rewrite bm_get_testbit in Hbit by lia.
    unfold disk_bitmap in Hbit. rewrite <-(Z2Nat.id (sb_bitmap_blocks sb)), concat_lookup in Hbit by
      (lia || (intros; apply image_sector; [done|lia])).
    destruct (image d (2 + s / 8 / 512) !! _) as [byte|] eqn:Hbyte; [|done]. by exists byte.
Qed.

Lemma wp_mount d t :
  dev_ok d -> recoverable (image d) (sector_count d) t -> wp mount (mounts d t) d.
Proof.
  intros Hok (sb & slot & bl & Hch & Hslot & Hsh & Hrep & Hnd & Hu & Hbl).
  assert (Hdev : forall e d', same_device d d' -> mounts d t (Err (Device e)) d').
  { intros e d' Hs. split; [done|]. by exists e. }
  unfold wp, mount. destruct (dev_read 0 BLOCK_SIZE d) as [r1 d1] eqn:Hr1.
  apply read_one in Hr1 as [Hs1 Hr1]; [|done|lia]. destruct r1 as [b0|e|]; [subst b0|by apply Hdev|done].
  destruct (dev_read 1 BLOCK_SIZE d1) as [r2 d2] eqn:Hr2.
  apply read_one in Hr2 as [Hs2 Hr2]; [|apply Hs1|lia].
  assert (Hs02 := same_device_trans _ _ _ Hs1 Hs2).
  destruct r2 as [b1|e|]; [subst b1|by apply Hdev|done]. rewrite (image_same_device _ _ 1 Hs1), Hch.
  rewrite (sh_version _ _ Hsh). simpl negb. cbv iota zeta. destruct Hsh as [Hfit Hver Htot Hstart Hbb Hfirst Hroom Hbits Htight].
  assert (Hb64 : u64 (sb_bitmap_blocks sb)) by apply Hfit. pose proof (count_bound _ Hok) as Hcb.
  destruct (_ >? U64_MAX) eqn:Hov.
  { exfalso. unfold BLOCK_SIZE, SECTOR_SIZE, U64_MAX in *. lia. }
  rewrite Hstart. destruct (dev_read 2 _ d2) as [r3 d3] eqn:Hr3.
  apply read_sectors in Hr3 as [Hs3 Hr3]; [|apply Hs02|lia|lia].
  assert (Hs03 := same_device_trans _ _ _ Hs02 Hs3).
  destruct r3 as [bm|e|]; [|by apply Hdev|done]. split; [done|].
  set (blocks := sb_bitmap_blocks sb) in *.
  assert (Hbm : bm = disk_bitmap (image d) blocks).
  { subst bm. unfold disk_bitmap. f_equal. apply map_ext. intros s. by apply image_same_device. }
  exists bl. simpl. set (fs := {| fs_device := d3; fs_state := _ |}).
  assert (Hm : mounted fs t bl).
  { split; simpl; [apply Hs03| |done| | | |].
    - destruct Hs03 as (_ & -> & _). by split.
    - rewrite Hbm. unfold disk_bitmap. rewrite concat_length, length_seqZ; [fold blocks; lia|].
      intros s Hs%elem_of_seqZ. apply image_sector; [done|lia].
    - rewrite Hbm. apply Forall_concat, Forall_map, Forall_seqZ. intros s Hs. apply image_sector; [done|lia].
    - split; [|done| |done].
      + eapply rep_frame; [exact Hrep|]. intros s _. simpl. by apply image_same_device.
      + eapply Forall_impl; [exact Hbl|]. simpl. intros s [Hs Hb]. rewrite Htot.
        split; [lia|]. unfold is_allocated. simpl. by rewrite Hbm.
    - eapply Forall_impl; [exact Hbl|]. simpl. tauto. }
  split; [done|]. split; [done|]. split; [done|]. split; [done|].
  intros Hset. split; [done| |done]. simpl.
  assert (Hd : durable d sb slot bl).
  { by apply choose_durable. }
  destruct Hs03 as (_ & _ & Hv). destruct Hd as [(v & c & Hv1 & Hd1) (w & Hw & Ho) Hb Hbb'].
  split.
  - exists v, c. by rewrite Hv.
  - exists w. by rewrite Hv.
  - eapply Forall_impl; [exact Hb|]. simpl. intros s [x Hx]. exists x. by rewrite Hv.
  - eapply Forall_impl; [exact Hbb'|]. simpl. intros s. by rewrite Hv.
Qed.

(** ** Formatting *)

Lemma bm_get_fold l : forall bm j, 0 <= j ->
  Forall (fun i => 0 <= i < 8 * Z.of_nat (length bm)) l ->
  bm_get (fold_left bm_set l bm) j = bool_decide (j ∈ l) || bm_get bm j.
Proof.
  induction l as [|i l IH]; intros bm j Hj Hl.
  { rewrite bool_decide_false by apply not_elem_of_nil. done. }
  apply Forall_cons in Hl as [Hi Hl]. simpl. rewrite IH; [|done|by rewrite length_bm_set].
  rewrite bm_get_set by lia. rewrite orb_assoc. f_equal.
  repeat case_bool_decide; simpl; try done; set_solver.
Qed.

Lemma length_set_bits first n : forall bm, length (set_bits bm first n) = length bm.
Proof.
  unfold set_bits. generalize (seqZ first n) as l. induction l as [|i l IH]; intros bm; [done|].
  simpl. by rewrite IH, length_bm_set.
Qed.

Lemma set_bits_bytes first n : forall bm, Forall is_byte bm -> Forall is_byte (set_bits bm first n).
Proof.
  unfold set_bits. generalize (seqZ first n) as l. induction l as [|i l IH]; intros bm Hb; [done|].
  simpl. by apply IH, bm_set_bytes.
Qed.

Lemma bm_get_set_bits bm first n j :
  0 <= j -> 0 <= first -> first + n <= 8 * Z.of_nat (length bm) ->
  bm_get (set_bits bm first n) j = bool_decide (first <= j < first + n) || bm_get bm j.
Proof.
  intros Hj Hf Hn. unfold set_bits. rewrite bm_get_fold; [|done|apply Forall_seqZ; lia].
  f_equal. apply bool_decide_ext. apply elem_of_seqZ.
Qed.

Section Bitmap.
Variables total blocks : Z.
Hypothesis Htotal : 0 <= total <= 4096 * blocks.
Hypothesis Hblocks : 0 < blocks.

Lemma length_format_bitmap : Z.of_nat (length (format_bitmap total blocks)) = 512 * blocks.
Proof.
  unfold format_bitmap, BLOCK_SIZE, SECTOR_SIZE. rewrite !length_set_bits, length_replicate. lia.
Qed.

Lemma format_bitmap_bytes : Forall is_byte (format_bitmap total blocks).
Proof. apply set_bits_bytes, set_bits_bytes, Forall_replicate. unfold is_byte. lia. Qed.

(** Exactly the metadata and what lies past the end are taken. *)
Lemma format_bitmap_get j : 0 <= j < 4096 * blocks ->
  bm_get (format_bitmap total blocks) j = bool_decide (j < 3 + blocks \/ total <= j).
Proof.
  intros Hj. unfold format_bitmap, BLOCK_SIZE, SECTOR_SIZE.
  rewrite bm_get_set_bits by (rewrite ?length_set_bits, ?length_replicate; lia).
  rewrite bm_get_set_bits by (rewrite ?length_replicate; lia).
  assert (bm_get (replicate (Z.to_nat (blocks * 512)) 0) j = false) as ->.
  { rewrite bm_get_testbit by lia. destruct (_ !! _) as [x|] eqn:Hx; [|done].
    apply lookup_replicate in Hx as [-> _]. apply Z.bits_0. }
  rewrite orb_false_r. repeat case_bool_decide; simpl; try done; lia.
Qed.

End Bitmap.

(** [dev_op] only renames the error. *)
Lemma wp_dev_op {A} (op : M D BlockError A) d (Q : result FsError A -> D -> Prop) :
  wp op (fun r d' => Q (match r with Ok a => Ok a | Err e => Err (Device e) | Panic => Panic end) d') d ->
  wp (dev_op op) Q d.
Proof. unfold wp, dev_op. by destruct (op d) as [[a|e|] d']. Qed.

Lemma bitmap_size total : 16 <= total ->
  let blocks := div_ceil (div_ceil total 8) 512 in
  0 < blocks /\ total <= 4096 * blocks < total + 4096 /\ 3 + blocks < total.
Proof.
  intros Ht blocks.
  pose proof (div_ceil_le total 8 (div_ceil total 8) ltac:(lia)).
  pose proof (div_ceil_le total 8 (div_ceil total 8 - 1) ltac:(lia)).
  pose proof (div_ceil_le (div_ceil total 8) 512 blocks ltac:(lia)).
  pose proof (div_ceil_le (div_ceil total 8) 512 (blocks - 1) ltac:(lia)).
  unfold blocks in *. lia.
Qed.

Definition empty_root : tree := TDir SYSTEM DEFAULT_MODE [].

Lemma empty_root_rep img b :
  img b = Inode_encode (new_inode Directory SYSTEM) -> rep img b empty_root [b].
Proof.
  intros Himg. apply rep_dir. exists (new_inode Directory SYSTEM), []. split; [|repeat split; constructor].
  split; [rewrite Himg; apply Inode_decode_encode, new_inode_fits; unfold u32, SYSTEM; lia|].
  repeat split. simpl. unfold DIRECT_BLOCKS. lia.
Qed.

Lemma format_shape total blocks generation :
  16 <= total <= U64_MAX -> blocks = div_ceil (div_ceil total 8) 512 -> u64 generation ->
  shape (format_superblock total blocks generation) total.
Proof.
  intros Ht -> Hg. destruct (bitmap_size total) as (Hb & Hbits & Hroom); [lia|].
  unfold U64_MAX in Ht. split; simpl; try lia.
  unfold sb_fits, u32, u64, VERSION in *. simpl. repeat split; try done; lia.
Qed.

(** Once its writes have settled, the medium holds an empty tree. *)
Lemma formatted_recoverable d blocks :
  dev_ok d -> 16 <= sector_count d ->
  blocks = div_ceil (div_ceil (sector_count d) 8) 512 ->
  image d 0 = SuperBlock_encode (format_superblock (sector_count d) blocks 1) ->
  image d 1 = SuperBlock_encode (format_superblock (sector_count d) blocks 0) ->
  (forall s, 2 <= s < 2 + blocks ->
     image d s = sector_of (format_bitmap (sector_count d) blocks) (s - 2)) ->
  image d (2 + blocks) = Inode_encode (new_inode Directory SYSTEM) ->
  disk_bitmap (image d) blocks = format_bitmap (sector_count d) blocks /\
  (exists sb, choose (SuperBlock_decode (image d 0)) (SuperBlock_decode (image d 1)) = Ok (sb, 0) /\
     sb_bitmap_blocks sb = blocks /\ sb_first_data_block sb = 3 + blocks) /\
  recoverable (image d) (sector_count d) empty_root.
Proof.
  intros Hok H16 Hblocks Hs0 Hs1 Hbm Hroot. pose proof (count_bound _ Hok) as Hcb.
  destruct (bitmap_size (sector_count d) H16) as (Hb & Hbits & Hroom). rewrite <-Hblocks in *.
  assert (Hdisk : disk_bitmap (image d) blocks = format_bitmap (sector_count d) blocks).
  { unfold disk_bitmap. rewrite <-(sectors_of_buffer (format_bitmap (sector_count d) blocks) 2 blocks);
      [|lia|apply length_format_bitmap; lia].
    f_equal. apply map_ext_in. intros s Hs%list_elem_of_In%elem_of_seqZ. by apply Hbm. }
  assert (Hshape : forall g, u64 g -> shape (format_superblock (sector_count d) blocks g) (sector_count d)).
  { intros g Hg. apply format_shape; [lia|done|done]. }
  destruct (SuperBlock_decode_encode (format_superblock (sector_count d) blocks 1)) as [c1 Hc1].
  { apply Hshape. unfold u64. lia. }
  destruct (SuperBlock_decode_encode (format_superblock (sector_count d) blocks 0)) as [c0 Hc0].
  { apply Hshape. unfold u64. lia. }
  set (sb := with_checksum (format_superblock (sector_count d) blocks 1) c1) in *.
  assert (Hch : choose (SuperBlock_decode (image d 0)) (SuperBlock_decode (image d 1)) = Ok (sb, 0)).
  { by rewrite Hs0, Hs1, Hc1, Hc0. }
  split; [done|]. split; [exists sb; split; [done|]; split; [done|simpl; lia]|]. exists sb, 0, [2 + blocks].
  split; [done|]. split; [by left|]. split; [apply shape_checksum, Hshape; unfold u64; lia|].
  split; [by apply empty_root_rep|]. split; [apply NoDup_singleton|]. split; [by split; [constructor|]|].
  apply Forall_singleton. simpl. split; [lia|]. rewrite Hdisk, format_bitmap_get by lia.
  apply bool_decide_eq_true. lia.
Qed.

Lemma root_inode_sector : is_sector (Inode_encode (new_inode Directory SYSTEM)).
Proof. apply Inode_encode_sector. unfold new_inode, no_pointers. apply length_replicate. Qed.

(** What [format] ends in. *)
Definition formatted d (r : result FsError State) d' : Prop :=
  dev_ok d' /\ sector_count d' = sector_count d /\
  match r with
  | Ok st => exists bl, let fs := {| fs_device := d'; fs_state := st |} in
      ready fs empty_root bl /\ exact fs bl
  | Err e => (e = Full /\ sector_count d < 16) \/ exists be, e = Device be
  | Panic => False
  end.

Lemma wp_format d : dev_ok d -> wp format (formatted d) d.
Proof.
  intros Hok. unfold format. apply wp_bind. unfold get, wp at 1. cbn [fst snd].
  assert (Herr : forall e d', dev_ok d' -> sector_count d' = sector_count d -> formatted d (Err (Device e)) d').
  { intros e d' ? ?. split; [done|]. split; [done|]. right. by exists e. }
  apply wp_bind, wp_guard; intros H16.
  { split; [done|]. split; [done|]. left. split; [done|lia]. }
  destruct (bitmap_size (sector_count d)) as (Hb & Hbits & Hroom); [lia|].
  unfold BLOCK_SIZE, SECTOR_SIZE in *. set (blocks := div_ceil (div_ceil (sector_count d) 8) 512) in *.
  apply wp_bind, wp_guard; intros Hfull; [rewrite Z.geb_leb in Hfull; lia|].
  apply wp_bind, wp_dev_op, (wp_dev_write d 2 _ blocks); [done|lia|apply format_bitmap_bytes| | |by auto].
  { rewrite length_format_bitmap; lia. }
  intros d1 Hok1 Hc1 Hin1 Hout1.
  destruct root_inode_sector as [Hil Hib].
  apply wp_bind, wp_dev_op, (wp_dev_write d1 (2 + blocks) _ 1); [exact Hok1|lia|exact Hib|rewrite Hil; reflexivity| |].
  2:{ intros e d' ? Hc'. apply Herr; [done|congruence]. }
  intros d2 Hok2 Hc2 Hin2 Hout2. apply wp_bind, wp_dev_op, wp_dev_flush; [done| |].
  2:{ intros e d' ? Hc'. apply Herr; [done|congruence]. }
  intros d3 Hok3 Hc3 Hv3.
  assert (Hi3 : forall s, image d3 s = image d2 s) by (intros s; unfold image at 1; by rewrite Hv3).
  destruct (encode_sector (format_superblock (sector_count d) blocks 1)) as [Hl1 Hb1].
  destruct (encode_sector (format_superblock (sector_count d) blocks 0)) as [Hl0 Hb0].
  apply wp_bind, wp_dev_op, (wp_dev_write d3 0 _ 1); [exact Hok3|lia|exact Hb1|rewrite Hl1; reflexivity| |].
  2:{ intros e d' ? Hc'. apply Herr; [done|congruence]. }
  intros d4 Hok4 Hc4 Hin4 Hout4.
  apply wp_bind, wp_dev_op, (wp_dev_write d4 1 _ 1); [exact Hok4|lia|exact Hb0|rewrite Hl0; reflexivity| |].
  2:{ intros e d' ? Hc'. apply Herr; [done|congruence]. }
  intros d5 Hok5 Hc5 Hin5 Hout5. apply wp_bind, wp_dev_op, wp_dev_flush; [done| |].
  2:{ intros e d' ? Hc'. apply Herr; [done|congruence]. }
  intros d6 Hok6 Hc6 Hv6.
  assert (Hi6 : forall s, image d6 s = image d5 s) by (intros s; unfold image at 1; by rewrite Hv6).
  assert (Hcount : sector_count d6 = sector_count d) by congruence.
  assert (Hone : forall x, length x = 512%nat -> forall a, sector_of x (a - a) = x).
  { intros x Hx a. rewrite Z.sub_diag. unfold sector_of, slice. simpl Z.to_nat. rewrite drop_0, take_ge; [done|lia]. }
  pose proof (formatted_recoverable d6 blocks Hok6) as Hf. rewrite Hcount in Hf.
  destruct Hf as (Hdisk & (sb & Hch & Hsbb & Hfirst) & Hrec); [lia|reflexivity|..].
  { rewrite Hi6, Hout5, Hin4 by lia. apply Hone, Hl1. }
  { rewrite Hi6, Hin5 by lia. apply Hone, Hl0. }
  { intros s Hs. by rewrite Hi6, Hout5, Hout4, Hi3, Hout2, Hin1 by lia. }
  { rewrite Hi6, Hout5, Hout4, Hi3, Hin2 by lia. apply Hone, Hil. }
  rewrite <-Hcount in Hrec.
  assert (Hset : settled d6) by (intros s _; by rewrite Hv6, Hi6).
  eapply wp_mono; [|by apply wp_mount]. intros r d7 [(Hok7 & Hc7 & Hv7) Hr]. split; [done|].
  split; [congruence|]. destruct r as [st|e|]; [|by right|done].
  destruct Hr as (bl & Hm & _ & Hstbm & Hstch & Hready). exists bl. split; [by apply Hready|].
  rewrite Hch in Hstch. injection Hstch as Hsbeq _. subst sb. rewrite Hsbb, Hdisk in Hstbm.
  intros s. simpl. destruct Hm as [_ [_ _ Htot _ _ _ _ _ _] _ _ _ _ _]. simpl in Htot.
  rewrite Htot, Hfirst, Hc7, Hcount. intros Hs Ha. unfold is_allocated in Ha. simpl in Ha.
  rewrite Hstbm, format_bitmap_get in Ha by lia. apply bool_decide_eq_true in Ha. lia.
Qed.

End Mount.
