(* ===== verification/FsTheorems.v ===== *)
(** * What the filesystem guarantees

    The theorems a caller of kernel/src/fs/mod.rs relies on, each with a run on a
    small medium that shows its hypotheses met. *)

From stdpp Require Import base list gmap numbers list_numbers.
From Stdlib Require Import Lia.
From S2P Require Import Prelude Block FsLayout FsOps FsSpec FsRep FsCow FsRewrite.
From S2P Require Import FsPath FsCommit FsRefine FsNames FsMount.

#[local] Opaque SuperBlock_encode SuperBlock_decode Inode_encode Inode_decode.

(** ** Requests *)

(** The changes a caller can ask for. *)
Inductive request : Type :=
| RCreate (path : list Z) (kind : NodeKind) (user : option Z) (owner : Z)
| RWrite (path data : list Z) (user : option Z)
| RRemove (path : list Z) (user : option Z)
| RSetMode (path : list Z) (mode : Z) (user : option Z).

(** Its arguments are values of the parameter types. *)
Definition request_ok (q : request) : Prop :=
  match q with
  | RCreate path _ _ owner => text path /\ u32 owner
  | RWrite path data _ => text path /\ Forall is_byte data
  | RRemove path _ => text path
  | RSetMode path mode _ => text path /\ u16 mode
  end.

Definition s_perform (t : tree) (q : request) : result FsError tree :=
  match q with
  | RCreate path kind user owner => s_create t path kind user owner
  | RWrite path data user => s_write_file t path data user
  | RRemove path user => s_remove t path user
  | RSetMode path mode user => s_set_mode t path mode user
  end.

Lemma mode_guard mode : u16 mode ->
  negb (Z.land mode (Z.lxor U16_MAX ALL_PERMISSIONS) =? 0) = negb (mode <=? ALL_PERMISSIONS).
Proof.
  intros Hm. f_equal. change (Z.lxor U16_MAX ALL_PERMISSIONS) with (Z.shiftl (Z.ones 12) 4).
  change ALL_PERMISSIONS with 15. unfold u16 in Hm.
  assert (Heq : Z.land mode (Z.shiftl (Z.ones 12) 4) = Z.shiftl (Z.shiftr mode 4) 4).
  { apply Z.bits_inj'. intros i Hi. rewrite Z.land_spec. destruct (Z.lt_ge_cases i 4).
    - rewrite !Z.shiftl_spec_low by lia. apply andb_false_r.
    - rewrite !Z.shiftl_spec_high, Z.shiftr_spec, Z.sub_add by lia. destruct (Z.lt_ge_cases i 16).
      + rewrite Z.ones_spec_low by lia. apply andb_true_r.
      + rewrite Z.ones_spec_high, andb_false_r by lia. symmetry. apply (testbit_above mode 16); lia. }
  rewrite Heq, Z.shiftl_mul_pow2, Z.shiftr_div_pow2 by lia. change (2 ^ 4) with 16.
  pose proof (Z.div_mod mode 16). pose proof (Z.mod_pos_bound mode 16).
  destruct (mode <=? 15) eqn:Hc; [apply Z.leb_le in Hc|apply Z.leb_gt in Hc].
  - apply Z.eqb_eq. rewrite Z.div_small by lia. done.
  - apply Z.eqb_neq. lia.
Qed.

Section Requests.
Context {D : Type} `{BlockLaws D}.
Implicit Types fs : FileSystem D.

Abbreviation F := (M (FileSystem D) FsError).
Abbreviation sb_of fs := (st_superblock (fs_state fs)).

Definition perform (q : request) : F unit :=
  match q with
  | RCreate path kind user owner => create_for path kind user owner
  | RWrite path data user => write_file_as path data user
  | RRemove path user => remove_as path user
  | RSetMode path mode user => set_mode_as path mode user
  end.

Lemma settles_refused fs t bl e : ready fs t bl -> settles fs t bl (Err e) (Err e) fs.
Proof.
  intros Hr. pose proof (r_mounted _ _ _ Hr) as Hm. apply settles_early; [done| |].
  - by eapply extends_refl, mounted_geometry.
  - right. split; [done|right]. apply same_refl, Hm.
Qed.

(** The head the two operations that change a directory share. *)
Lemma wp_checked fs t bl path access action saction :
  text path -> ready fs t bl ->
  (forall parent name, split_path path = Ok (parent, name) -> check_name name = Ok tt ->
     wp (transact path access action) (settles fs t bl (s_transact t path access saction)) fs) ->
  wp ('(_, name) ← lift (split_path path); lift (check_name name) ;; transact path access action)
     (settles fs t bl ('(_, name) ← split_path path; check_name name ;; s_transact t path access saction)) fs.
Proof.
  intros Hp Hr Hk. apply wp_bind, wp_lift. destruct (split_path path) as [[parent name]|e|] eqn:Hs; simpl.
  - apply wp_bind, wp_lift. destruct (check_name name) as [[]|e|] eqn:Hc; simpl.
    + by eapply Hk.
    + by apply settles_refused.
    + unfold check_name in Hc. by repeat (destruct (_ || _)).
  - by apply settles_refused.
  - unfold split_path in Hs. destruct (rfind _ _); [done|]. by destruct (trim_end_matches _ _).
Qed.

(** Every change implements its specification. *)
Lemma perform_settles q fs t bl :
  request_ok q -> ready fs t bl -> sb_generation (sb_of fs) < U64_MAX ->
  wp (perform q) (settles fs t bl (s_perform t q)) fs.
Proof.
  intros Hq Hr Hgen. destruct q as [path kind user owner|path data user|path user|path mode user];
    simpl in Hq |- *.
  - destruct Hq as [Hp Ho]. apply wp_checked; [done|done|]. intros parent name Hs Hc.
    apply wp_transact; [by apply implements_create|done|done|]. intros n t' Hl _.
    by apply (checked_last path parent name Hp Hs Hc).
  - destruct Hq as [Hp Hd]. unfold write_file_as, s_write_file. apply wp_bind, wp_guard.
    + intros Hc. destruct (30720 <? _) eqn:Hc'; [by apply settles_refused|]. exfalso.
      rewrite Z.gtb_ltb in Hc. apply Z.ltb_lt, Z.lt_nge in Hc. apply Hc. unfold BLOCK_SIZE, SECTOR_SIZE, DIRECT_BLOCKS.
      apply div_ceil_le; lia.
    + intros Hc. rewrite Z.gtb_ltb in Hc. apply Z.ltb_ge in Hc. unfold BLOCK_SIZE, SECTOR_SIZE, DIRECT_BLOCKS in Hc.
      apply div_ceil_le in Hc; [|lia]. destruct (30720 <? _) eqn:Hc'; [lia|].
      apply wp_transact; [by apply implements_write; [|lia]|done|done|]. by intros n t' _ ?.
  - apply wp_checked; [done|done|]. intros parent name Hs Hc.
    apply wp_transact; [apply implements_remove|done|done|]. by intros n t' _ ?.
  - destruct Hq as [Hp Hm]. unfold set_mode_as, s_set_mode. rewrite (mode_guard mode Hm).
    apply wp_bind, wp_guard; intros Hc; rewrite Hc; [by apply settles_refused|].
    apply wp_transact; [apply implements_set_mode|done|done|by intros n t' _ ?].
    apply negb_false_iff, Z.leb_le in Hc. unfold u16 in Hm. lia.
Qed.

(** ** Reading *)

(** A path is followed to a node, whose inode is then read. *)
Lemma reads_node {A} fs t bl path user (k : Z -> Inode -> F A) v :
  mounted fs t bl ->
  (forall e, s_resolve t (components path) user = Err e -> v = Err e) ->
  (forall c b ino bl' fs', s_resolve t (components path) user = Ok c -> same fs fs' ->
     rep (image (fs_device fs)) b c bl' -> on_disk fs' bl' -> holds fs' (image (fs_device fs)) ->
     Inode_decode (image (fs_device fs) b) = Ok ino -> reads (k b ino) v fs') ->
  reads (b ← resolve path user; ino ← read_inode b; k b ino) v fs.
Proof.
  intros Hm Herr Hok. pose proof (mounted_geometry _ _ _ Hm) as Hg. pose proof (m_owns _ _ _ Hm) as Ho.
  destruct (reads_resolve_from (image (fs_device fs)) user (components path)
    (sb_root_inode (sb_of fs)) t bl (o_rep _ _ _ _ Ho)) as (w & Hw & Hres).
  specialize (Hw fs (holds_image fs Hg) (owns_on_disk _ _ _ _ Hg Ho)).
  destruct (s_resolve t (components path) user) as [c|e|] eqn:Hs, w as [b|e'|]; try done.
  - destruct Hres as (bl' & Hr & Hsub). eapply reads_bind; [exact Hw|]. intros fs1 Hs1.
    assert (Hh1 : holds fs1 (image (fs_device fs))) by (eapply holds_same; [exact Hs1|by apply holds_image]).
    assert (Hd1 : on_disk fs1 bl').
    { eapply on_disk_same; [exact Hs1|]. eapply on_disk_sub; [exact Hsub|by eapply owns_on_disk]. }
    destruct (rep_node _ _ _ _ Hr) as (ino & rest & Hn & _ & Hbl & _).
    assert (Hdec : Inode_decode (image (fs_device fs) b) = Ok ino) by apply Hn.
    eapply reads_bind; [rewrite <-Hdec; apply reads_inode; [done|]|].
    { subst bl'. apply Forall_inv in Hd1. lia. }
    intros fs2 Hs2. eapply Hok; [done|by eapply same_trans|exact Hr|by eapply on_disk_same|by eapply holds_same|done].
  - subst e'. rewrite (Herr e eq_refl). apply reads_bind_err. exact Hw.
Qed.

Lemma read_file_as_reads fs t bl path user :
  mounted fs t bl -> reads (read_file_as path user) (s_read_file t path user) fs.
Proof.
  intros Hm. apply (reads_node fs t bl); [done|by intros e He; unfold s_read_file; rewrite He|].
  intros c b ino bl' fs1 Hres Hs1 Hr Hd Hh Hdec. unfold s_read_file. rewrite Hres. simpl.
  assert (Hok1 : dev_ok (fs_device fs1)) by apply Hs1.
  destruct c as [o m data|o m es].
  - destruct Hr as (ino' & (Hdec' & Hk & <- & <- & Hu) & Hsz & Hbu & Hdata & ->).
    assert (ino' = ino) as -> by congruence.
    apply reads_guard; [done|by rewrite kind_file|intros _]. rewrite permits_allows.
    apply reads_guard; [done|by destruct (allows _ _ _ _)|]. destruct (allows _ _ _ _); [intros _|done].
    assert (Hfit : inode_fits ino).
    { eapply (node_at_fits fs1); [done| |by split; [exact Hdec|]]. apply Forall_inv in Hd. lia. }
    destruct Hfit as (_ & _ & _ & _ & Hu32 & Hl & _). unfold u32 in Hu32.
    rewrite slot_count_eq by done. cbn [negb].
    rewrite <-(Nat2Z.id (length data)), <-Hsz in Hdata. rewrite <-Hdata.
    apply (reads_data (image (fs_device fs)) ino (Z.to_nat (i_blocks_used ino)) fs1 0 (i_size ino) []);
      [done|done|lia|lia|]. by apply Forall_cons in Hd as [_ ?].
  - apply rep_dir in Hr as (ino' & bls & (Hdec' & Hk & _) & _). assert (ino' = ino) as -> by congruence.
    apply reads_guard; [done|done|by rewrite kind_dir].
Qed.

(** reading a file returns what the specification reads, and fails as it says,
    unless the device fails; nothing changes. *)
Theorem read_file_refines fs t bl path user :
  mounted fs t bl -> reads (read_file_as path user) (s_read_file t path user) fs.
Proof. apply read_file_as_reads. Qed.

(** listing a directory returns its names in order. *)
Theorem list_refines fs t bl path user :
  mounted fs t bl -> reads (list_as path user) (s_list t path user) fs.
Proof.
  intros Hm. apply (reads_node fs t bl); [done|by intros e He; unfold s_list; rewrite He|].
  intros c b ino bl' fs1 Hres Hs1 Hr Hd Hh Hdec. unfold s_list. rewrite Hres. simpl.
  assert (Hok1 : dev_ok (fs_device fs1)) by apply Hs1.
  destruct c as [o m data|o m es].
  - destruct Hr as (ino' & (Hdec' & Hk & _) & _). assert (ino' = ino) as -> by congruence.
    apply reads_guard; [done|done|by rewrite kind_file].
  - apply rep_dir in Hr as (ino' & bls & (Hdec' & Hk & <- & <- & Hu) & Hsz & Hc & ->).
    assert (ino' = ino) as -> by congruence.
    apply reads_guard; [done|by rewrite kind_dir|intros _]. rewrite permits_allows.
    apply reads_guard; [done|by destruct (allows _ _ _ _)|]. destruct (allows _ _ _ _); [intros _|done].
    assert (Hfit : inode_fits ino).
    { eapply (node_at_fits fs1); [done| |by split; [exact Hdec|]]. apply Forall_inv in Hd. lia. }
    destruct Hfit as (_ & _ & _ & _ & Hu32 & Hl & _). unfold u32 in Hu32.
    rewrite slot_count_eq by done. rewrite <-(names_of_entries _ _ _ _ Hc).
    apply (reads_names (image (fs_device fs)) ino (Z.to_nat (i_blocks_used ino)) fs1 0 []); [done|done|lia|].
    apply Forall_cons in Hd as [_ Hd]. by apply Forall_app in Hd as [? _].
Qed.

(** asking for a node's kind, size, owner and mode. *)
Theorem stat_refines fs t bl path user :
  mounted fs t bl ->
  reads (stat_as path user) (s_stat t path user) fs /\
  reads (owner_as path user) (s_owner t path user) fs.
Proof.
  intros Hm. split; (apply (reads_node fs t bl); [done| |]);
    try (intros e He; unfold s_stat, s_owner; by rewrite He);
    intros c b ino bl' fs1 Hres Hs1 Hr Hd Hh Hdec; unfold s_stat, s_owner; rewrite Hres; simpl;
    destruct (rep_node _ _ _ _ Hr) as (ino' & rest & (Hdec' & Hk & Ho & Hmo & _) & Hsz & _);
    assert (ino' = ino) as -> by congruence.
  - assert (node_kind ino = t_kind c) as ->.
    { destruct c; [by apply kind_file|by apply kind_dir]. }
    rewrite Hsz. apply (reads_pure (Ok _)), Hs1.
  - rewrite Ho, Hmo. apply (reads_pure (Ok _)), Hs1.
Qed.

(** ** Changing *)

(** creating a file or directory. *)
Theorem create_refines fs t bl path kind user owner :
  text path -> u32 owner -> ready fs t bl -> sb_generation (sb_of fs) < U64_MAX ->
  wp (create_for path kind user owner) (settles fs t bl (s_create t path kind user owner)) fs.
Proof. intros. by apply (perform_settles (RCreate path kind user owner)). Qed.

(** replacing a file's contents. *)
Theorem write_file_refines fs t bl path data user :
  text path -> Forall is_byte data -> ready fs t bl -> sb_generation (sb_of fs) < U64_MAX ->
  wp (write_file_as path data user) (settles fs t bl (s_write_file t path data user)) fs.
Proof. intros. by apply (perform_settles (RWrite path data user)). Qed.

(** removing a file or an empty directory. *)
Theorem remove_refines fs t bl path user :
  text path -> ready fs t bl -> sb_generation (sb_of fs) < U64_MAX ->
  wp (remove_as path user) (settles fs t bl (s_remove t path user)) fs.
Proof. intros. by apply (perform_settles (RRemove path user)). Qed.

(** changing permission bits. *)
Theorem set_mode_refines fs t bl path mode user :
  text path -> u16 mode -> ready fs t bl -> sb_generation (sb_of fs) < U64_MAX ->
  wp (set_mode_as path mode user) (settles fs t bl (s_set_mode t path mode user)) fs.
Proof. intros. by apply (perform_settles (RSetMode path mode user)). Qed.

(** ** Consequences for a caller *)

(** a file that was written reads back as written. *)
Theorem write_then_read fs t bl path data user :
  text path -> Forall is_byte data -> ready fs t bl -> sb_generation (sb_of fs) < U64_MAX ->
  wp (write_file_as path data user ;; read_file_as path None)
     (fun r _ => match r with
                 | Ok out => out = data
                 | Err e => env_error e \/ s_write_file t path data user = Err e
                 | Panic => False
                 end) fs.
Proof.
  intros Hp Hd Hr Hg. apply wp_bind.
  eapply wp_mono; [|by apply (perform_settles (RWrite path data user)); eauto]. cbv beta.
  intros r fs1 (_ & _ & Hres). destruct r as [[]|e|]; [|destruct Hres as [[? _]|[? _]]; auto|done].
  destruct Hres as (t' & bl' & Hs & [Hm _ _] & _). simpl in Hs.
  pose proof (read_file_as_reads fs1 t' bl' path None Hm) as Hread. unfold reads in Hread.
  eapply wp_mono; [|exact Hread]. cbv beta. intros r fs2 [_ Hout]. unfold s_write_file in Hs.
  destruct (30720 <? _); [done|]. unfold s_transact in Hs. case_bool_decide; [done|].
  apply s_rewrite_target in Hs as (before & after & Hact & _ & Haft).
  unfold s_write_action in Hact. destruct before as [[o m old|]|]; try done.
  destruct (negb _); [done|]. injection Hact as <-. unfold s_read_file in Hout. rewrite Haft in Hout.
  simpl in Hout. destruct Hout as [->|[e ->]]; [done|]. left. right. by exists e.
Qed.

(** a change that succeeded leaves every other file as it was. *)
Theorem others_unchanged fs t bl q path other user data :
  request_ok q -> ready fs t bl -> sb_generation (sb_of fs) < U64_MAX ->
  match q with RCreate p _ _ _ | RWrite p _ _ | RRemove p _ | RSetMode p _ _ => p end = path ->
  ~ components path `prefix_of` components other ->
  s_read_file t other user = Ok data ->
  wp (perform q ;; read_file_as other user)
     (fun r _ => match r with
                 | Ok out => out = data
                 | Err e => env_error e \/ s_perform t q = Err e
                 | Panic => False
                 end) fs.
Proof.
  intros Hq Hr Hg Hpath Hother Hdata. apply wp_bind.
  eapply wp_mono; [|by apply perform_settles]. cbv beta.
  intros r fs1 (_ & _ & Hres). destruct r as [[]|e|]; [|destruct Hres as [[? _]|[? _]]; auto|done].
  destruct Hres as (t' & bl' & Hs & [Hm _ _] & _).
  assert (Hsame : s_read_file t' other user = s_read_file t other user).
  { destruct q as [p kind u o|p d u|p u|p m u]; simpl in Hs, Hpath; subst p.
    - unfold s_create in Hs. destruct (split_path path) as [[? name]| |]; try done. simpl in Hs.
      destruct (check_name name) as [[]| |]; try done. by eapply s_read_file_frame.
    - unfold s_write_file in Hs. destruct (_ <? _); [done|]. by eapply s_read_file_frame.
    - unfold s_remove in Hs. destruct (split_path path) as [[? name]| |]; try done. simpl in Hs.
      destruct (check_name name) as [[]| |]; try done. by eapply s_read_file_frame.
    - unfold s_set_mode in Hs. destruct (negb _); [done|]. by eapply s_read_file_frame. }
  pose proof (read_file_as_reads fs1 t' bl' other user Hm) as Hread. unfold reads in Hread.
  eapply wp_mono; [|exact Hread]. cbv beta. rewrite Hsame, Hdata.
  intros r fs2 [_ [->|[e ->]]]; [done|]. left. right. by exists e.
Qed.

(** A sequence of requests, run until the environment fails one of them. *)
Fixpoint run_all (qs : list request) : F unit :=
  match qs with
  | [] => mret tt
  | q :: rest => fun fs =>
      match perform q fs with
      | (Ok _, fs') => run_all rest fs'
      | (Err e, fs') =>
          match e with
          | Full | Device _ | TooLarge => (Err e, fs')
          | _ => run_all rest fs'
          end
      | (Panic, fs') => (Panic, fs')
      end
  end.

Fixpoint s_run_all (qs : list request) (t : tree) : tree :=
  match qs with
  | [] => t
  | q :: rest => match s_perform t q with Ok t' => s_run_all rest t' | _ => s_run_all rest t end
  end.

Lemma ready_same fs fs' t bl : ready fs t bl -> same fs fs' -> ready fs' t bl.
Proof.
  intros [Hm Hd Hr] Hs. pose proof (same_extends _ _ (mounted_geometry _ _ _ Hm) Hs) as He.
  pose proof (mounted_extends _ _ _ _ Hm He) as Hm'. destruct Hs as (Hst & _ & _ & Hv).
  split; [done| |by rewrite Hst]. rewrite Hst. destruct Hd as [(v & c & ? & ?) (w & ? & ?) Hb Hbits]. split.
  - exists v, c. by rewrite Hv.
  - exists w. by rewrite Hv.
  - eapply Forall_impl; [exact Hb|]. simpl. intros s [x Hx]. exists x. by rewrite Hv.
  - eapply Forall_impl; [exact Hbits|]. simpl. intros s. by rewrite Hv.
Qed.

(** A run that stopped at request [k]: the tree is the specification's after the
    requests before it, or after it too. *)
Definition stopped (qs : list request) (t : tree) fs' : Prop :=
  exists k t' bl', (k < length qs)%nat /\ mounted fs' t' bl' /\
    (t' = s_run_all (take k qs) t \/ t' = s_run_all (take (S k) qs) t).

Lemma stopped_later q qs t t1 fs' : s_perform t q = Ok t1 \/ (forall x, s_perform t q <> Ok x) /\ t1 = t ->
  stopped qs t1 fs' -> stopped (q :: qs) t fs'.
Proof.
  intros Hq (k & t' & bl' & Hk & Hm & Ht). exists (S k), t', bl'. split; [simpl; lia|]. split; [done|].
  assert (Hs : forall l, s_run_all (q :: l) t = s_run_all l t1).
  { intros l. cbn [s_run_all]. destruct Hq as [->|[Hno ->]]; [done|]. by destruct (s_perform t q) as [x| |]; [destruct (Hno x)|..]. }
  change (take (S (S k)) (q :: qs)) with (q :: take (S k) qs). change (take (S k) (q :: qs)) with (q :: take k qs).
  by rewrite !Hs.
Qed.

(** C2: requests run one after another, up to the first for which the disk has no room,
    which is too large for a file, or which the device fails.  If there is none the tree
    is the one the specification computes by running the same sequence, requests it
    refuses (by a permission, a missing name, a name taken and so on) leaving the tree as
    it was, and the filesystem is ready for the next one.  If there is one, the tree at
    that moment is the specification's from before that request or from after it.
    Nothing panics.  What happens after such a failure is not claimed. *)
Theorem run_all_refines qs : forall fs t bl,
  Forall request_ok qs -> ready fs t bl ->
  sb_generation (sb_of fs) + Z.of_nat (length qs) <= U64_MAX ->
  wp (run_all qs)
     (fun r fs' => match r with
                   | Ok _ => exists bl', ready fs' (s_run_all qs t) bl'
                   | Err e => (env_error e \/ e = TooLarge) /\ stopped qs t fs'
                   | Panic => False
                   end) fs.
Proof.
  induction qs as [|q qs IH]; intros fs t bl Hq Hr Hg; [by exists bl|].
  apply Forall_cons in Hq as [Hq Hqs]. simpl in Hg.
  pose proof (perform_settles q fs t bl Hq Hr ltac:(lia)) as Hp. unfold wp in Hp |- *. cbn [run_all s_run_all].
  destruct (perform q fs) as [r fs1]. simpl in Hp. destruct Hp as (_ & _ & Hp).
  assert (Hgo : forall t1 bl1, s_perform t q = Ok t1 \/ (forall x, s_perform t q <> Ok x) /\ t1 = t -> ready fs1 t1 bl1 ->
    sb_generation (sb_of fs1) + Z.of_nat (length qs) <= U64_MAX ->
    let '(r', fs2) := run_all qs fs1 in match r' with
    | Ok _ => exists bl', ready fs2 (s_run_all qs t1) bl'
    | Err e => (env_error e \/ e = TooLarge) /\ stopped (q :: qs) t fs2 | Panic => False end).
  { intros t1 bl1 Ht1 Hr1 Hg1. pose proof (IH fs1 t1 bl1 Hqs Hr1 Hg1) as Hi. unfold wp in Hi.
    destruct (run_all qs fs1) as [[]?]; [done| |done]. destruct Hi as [Hi Hst]. split; [done|]. by eapply stopped_later. }
  destruct r as [[]|e|]; [| |done].
  - destruct Hp as (t' & bl' & Ht & Hr' & _ & Hg'). specialize (Hgo t' bl' (or_introl Ht) Hr' ltac:(lia)).
    rewrite Ht. by destruct (run_all qs fs1) as [[]?].
  - destruct Hp as [(Hee & t' & bl' & Hm & Ht)|(Hs & Hm & Hsame)].
    + assert (Hst : stopped (q :: qs) t fs1).
      { exists 0%nat, t', bl'. split; [simpl; lia|]. split; [done|]. destruct Ht as [->|Ht]; [by left|right]. simpl. by rewrite Ht. }
      destruct Hee as [->|[be ->]]; simpl; (split; [left|done]); [by left|right; by exists be].
    + assert (Hst : stopped (q :: qs) t fs1) by (exists 0%nat, t, bl; split; [simpl; lia|]; split; [done|by left]).
      destruct Hsame as [->|Hsame]; [simpl; split; [by right|done]|].
      assert (Hno : forall x, s_perform t q <> Ok x) by (intros x; rewrite Hs; discriminate).
      specialize (Hgo t bl (or_intror (conj Hno eq_refl)) (ready_same _ _ _ _ Hr Hsame)).
      destruct Hsame as (Hst1 & _). rewrite Hst1 in Hgo. specialize (Hgo ltac:(lia)). rewrite Hs.
      assert (Hcont : match run_all qs fs1 with (Ok _, fs2) => exists bl', ready fs2 (s_run_all qs t) bl'
        | (Err e, fs2) => (env_error e \/ e = TooLarge) /\ stopped (q :: qs) t fs2 | (Panic, _) => False end)
        by (by destruct (run_all qs fs1) as [[]?]).
      destruct e; try (by destruct (run_all qs fs1) as [[]?]); simpl; (split; [|done]); auto; left; [by left|right; eauto].
Qed.

(** formatting a device leaves an empty directory of the system's, mounted,
    durable and with every data block free; it fails only for want of space or
    because the device does. *)
Theorem format_ready (d : D) : dev_ok d -> wp format (formatted d) d.
Proof. apply wp_format. Qed.

End Requests.

(** ** Power cuts *)

Lemma recoverable_ext img img' count t :
  (forall s, 0 <= s < count -> img' s = img s) -> recoverable img count t -> recoverable img' count t.
Proof.
  intros Himg (sb & slot & bl & Hch & Hslot & Hsh & Hrep & Hnd & Hu & Hbl).
  assert (H4 : 4 <= count) by (destruct Hsh; lia).
  assert (Hbm : disk_bitmap img' (sb_bitmap_blocks sb) = disk_bitmap img (sb_bitmap_blocks sb)).
  { unfold disk_bitmap. f_equal. apply map_ext_in. intros s Hs%list_elem_of_In%elem_of_seqZ. apply Himg.
    destruct Hsh. lia. }
  exists sb, slot, bl. rewrite !Himg, Hbm by lia. repeat (split; [done|]). split; [|done].
  eapply rep_frame; [exact Hrep|]. intros s Hs. eapply Forall_forall in Hbl as [Hr _]; [|exact Hs].
  apply Himg. destruct Hsh. lia.
Qed.

(** C1: power may fail at any point of a change of a filesystem that is mounted and on
    which no earlier change failed half way ([ready]; see what such a failure leaves in
    [FsRuns]).  Whatever part of the unflushed writes the medium kept, sectors torn or
    not, provided that a torn superblock is noticed ([torn_detected]: the sector being
    written holds the old superblock, the new one, or bytes its checksum rejects),
    mounting it afterwards, on any lawful device that holds what was left, gives the
    tree from before the change or the tree from after it, and the tree from after it
    once the call had returned [Ok]. *)
Theorem power_cut {D D2 : Type} `{BlockLaws D} `{BlockLaws D2} (q : request) (fs fs' : FileSystem D)
    (t : tree) (bl : list Z) (r : result FsError unit) (img : Z -> list Z) (d : D2) :
  request_ok q -> ready fs t bl -> sb_generation (st_superblock (fs_state fs)) < U64_MAX ->
  perform q fs = (r, fs') ->
  survives (fs_device fs') img -> torn_detected fs fs' img ->
  dev_ok d -> sector_count d = sector_count (fs_device fs) ->
  (forall s, 0 <= s < sector_count d -> image d s = img s) ->
  wp mount (fun rm d' =>
    (r <> Ok tt /\ mounts d t rm d') \/
    exists t', s_perform t q = Ok t' /\ mounts d t' rm d') d.
Proof.
  intros Hq Hr Hg Hrun Hsv Htorn Hok Hc Himg.
  pose proof (perform_settles q fs t bl Hq Hr Hg) as Hp. unfold wp in Hp. rewrite Hrun in Hp.
  destruct Hp as (Hc' & Hcrash & Hres). simpl in Hc', Hcrash, Hres.
  assert (Hmount : forall t', recoverable img (sector_count (fs_device fs)) t' -> wp mount (mounts d t') d).
  { intros t' Hrec. apply wp_mount; [done|]. rewrite Hc. eapply recoverable_ext; [|exact Hrec].
    rewrite <-Hc. exact Himg. }
  destruct r as [[]|e|]; [| |done].
  - destruct Hres as (t' & bl' & Hs & Hr' & _). eapply wp_mono; [|apply Hmount].
    + intros rm d' Hm. right. by exists t'.
    + rewrite <-Hc'. eapply (crash_extends fs' fs'); [exact Hr'| |done].
      apply extends_refl. eapply mounted_geometry, Hr'.
  - destruct (Hcrash img Hsv Htorn) as [Hrec|(t' & Hs & Hrec)].
    + eapply wp_mono; [|by apply Hmount]. intros rm d' Hm. by left.
    + eapply wp_mono; [|by apply Hmount]. intros rm d' Hm. right. by exists t'.
Qed.
