(* ===== verification/FsRuns.v ===== *)
(** * Concrete runs of the filesystem

    A 64-sector medium, formatted and used: the theorems of [FsTheorems] applied
    to it, and runs that show what happens after a failure. *)

From stdpp Require Import base list gmap numbers list_numbers.
From Stdlib Require Import Lia.
From S2P Require Import Prelude Block FsLayout FsOps FsSpec FsRep FsCow FsRewrite.
From S2P Require Import FsPath FsCommit FsRefine FsNames FsMount FsTheorems.

Definition small : MemDisk.disk := {| MemDisk.sectors := ∅; MemDisk.count := 64; MemDisk.faults := [] |}.

Lemma small_ok : dev_ok small.
Proof. split; [vm_compute; split; discriminate|]. simpl. intros s vs. by rewrite lookup_empty. Qed.

Definition no_state : State := {|
  st_superblock := format_superblock 0 0 0; st_live_slot := 0; st_bitmap := []; st_retired := [] |}.

Definition started (run : result FsError State * MemDisk.disk) : FileSystem MemDisk.disk :=
  match run with
  | (Ok st, d) => {| fs_device := d; fs_state := st |}
  | (_, d) => {| fs_device := d; fs_state := no_state |}
  end.

(** Just formatted. *)
Definition fresh : FileSystem MemDisk.disk := started (format small).

(** "/a" and "/b" *)
Definition path_a : list Z := [47; 97].
Definition path_b : list Z := [47; 98].
Definition create_a : request := RCreate path_a File None 7.
Definition tree_a : tree := TDir SYSTEM DEFAULT_MODE [([97], TFile 7 DEFAULT_MODE [])].

(** With a file of user 7's in it. *)
Definition with_a : FileSystem MemDisk.disk := snd (perform create_a fresh).

Definition with_faults (faults : list bool) (fs : FileSystem MemDisk.disk) : FileSystem MemDisk.disk :=
  with_device fs {| MemDisk.sectors := MemDisk.sectors (fs_device fs);
                    MemDisk.count := MemDisk.count (fs_device fs); MemDisk.faults := faults |}.

(** The same filesystem on a device that answers [n] more requests. *)
Definition cut (n : nat) (fs : FileSystem MemDisk.disk) : FileSystem MemDisk.disk :=
  with_faults (replicate n false ++ replicate 40 true) fs.

(** The medium that lost every write not yet flushed. *)
Definition oldest (d : MemDisk.disk) (s : Z) : list Z :=
  match MemDisk.held d s with v :: _ => v | [] => [] end.

Definition write_a : request := RWrite path_a [1; 2; 3] (Some 7).

Lemma cut_state n fs : fs_state (cut n fs) = fs_state fs.
Proof. reflexivity. Qed.

(** What the runs below find, computed once. *)
Lemma runs :
  let cut_off := perform write_a (cut 11 with_a) in
  (match fst (format small) with Ok _ => true | _ => false end = true /\
   sb_generation (st_superblock (fs_state fresh)) = 1 /\
   fst (perform create_a fresh) = Ok tt /\
   sb_generation (st_superblock (fs_state with_a)) = 2 /\
   st_live_slot (fs_state with_a) = 1) /\
  (fst cut_off = Err (Device DeviceFault) /\
   length (MemDisk.held (fs_device (snd cut_off)) 0) = 2%nat /\
   oldest (fs_device (snd cut_off)) 0 = image (fs_device (cut 11 with_a)) 0 /\
   MemDisk.count (fs_device (snd cut_off)) = 64 /\ sector_count (fs_device (cut 11 with_a)) = 64).
Proof. vm_compute. repeat split. Qed.

Lemma fresh_ready : exists bl, ready fresh empty_root bl /\ exact fresh bl.
Proof.
  pose proof (wp_format small small_ok) as Hf. unfold wp, fresh in *.
  destruct runs as ((Hok & _) & _). destruct (format small) as [[st| |] d]; [|discriminate Hok..].
  destruct Hf as (_ & _ & bl & Hr & Hx). by exists bl.
Qed.

Lemma paths_text : text path_a /\ text path_b.
Proof. split; (split; [repeat constructor; unfold is_byte; lia|reflexivity]). Qed.

Lemma generations : sb_generation (st_superblock (fs_state fresh)) < U64_MAX /\
  sb_generation (st_superblock (fs_state with_a)) < U64_MAX.
Proof. destruct runs as ((_ & -> & _ & -> & _) & _). split; reflexivity. Qed.

Lemma with_a_ready : exists bl, ready with_a tree_a bl.
Proof.
  destruct fresh_ready as (bl & Hr & _).
  assert (Hq : request_ok create_a) by (split; [apply paths_text|unfold u32; lia]).
  pose proof (perform_settles create_a fresh empty_root bl Hq Hr (proj1 generations)) as Hp.
  unfold wp, with_a in *. destruct runs as ((_ & _ & Hok & _) & _).
  destruct (perform create_a fresh) as [r fs]. simpl in Hok. subst r.
  destruct Hp as (_ & _ & t' & bl' & Ht & Hr' & _).
  assert (Hs : s_perform empty_root create_a = Ok tree_a) by (vm_compute; reflexivity).
  rewrite Hs in Ht. injection Ht as <-. by exists bl'.
Qed.

(** ** The theorems at work *)

Lemma read_file_refines_witness : exists bl,
  mounted with_a tree_a bl /\ reads (read_file_as path_a (Some 7)) (Ok []) with_a.
Proof.
  destruct with_a_ready as (bl & Hr). exists bl. split; [apply Hr|].
  exact (read_file_refines with_a tree_a bl path_a (Some 7) (r_mounted _ _ _ Hr)).
Defined.

Lemma list_refines_witness : exists bl,
  mounted with_a tree_a bl /\ reads (list_as [] None) (Ok [[97]]) with_a.
Proof.
  destruct with_a_ready as (bl & Hr). exists bl. split; [apply Hr|].
  exact (list_refines with_a tree_a bl [] None (r_mounted _ _ _ Hr)).
Defined.

Lemma stat_refines_witness : exists bl, mounted with_a tree_a bl /\
  reads (stat_as path_a None) (Ok (File, 0)) with_a /\
  reads (owner_as path_a None) (Ok (7, DEFAULT_MODE)) with_a.
Proof.
  destruct with_a_ready as (bl & Hr). exists bl. split; [apply Hr|].
  exact (stat_refines with_a tree_a bl path_a None (r_mounted _ _ _ Hr)).
Defined.

Lemma create_refines_witness : exists bl, ready with_a tree_a bl /\
  wp (create_for path_b Directory (Some 0) 0)
     (settles with_a tree_a bl (Ok (TDir SYSTEM DEFAULT_MODE
        [([97], TFile 7 DEFAULT_MODE []); ([98], TDir 0 DEFAULT_MODE [])]))) with_a.
Proof.
  destruct with_a_ready as (bl & Hr). exists bl. split; [exact Hr|].
  refine (create_refines with_a tree_a bl path_b Directory (Some 0) 0 _ _ Hr _).
  - apply paths_text.
  - unfold u32. lia.
  - apply generations.
Defined.

Lemma write_file_refines_witness : exists bl, ready with_a tree_a bl /\
  wp (write_file_as path_a [1; 2; 3] (Some 7))
     (settles with_a tree_a bl (Ok (TDir SYSTEM DEFAULT_MODE [([97], TFile 7 DEFAULT_MODE [1; 2; 3])]))) with_a.
Proof.
  destruct with_a_ready as (bl & Hr). exists bl. split; [exact Hr|].
  refine (write_file_refines with_a tree_a bl path_a [1; 2; 3] (Some 7) _ _ Hr _).
  - apply paths_text.
  - repeat constructor; unfold is_byte; lia.
  - apply generations.
Defined.

Lemma remove_refines_witness : exists bl, ready with_a tree_a bl /\
  wp (remove_as path_a (Some 0)) (settles with_a tree_a bl (Ok empty_root)) with_a.
Proof.
  destruct with_a_ready as (bl & Hr). exists bl. split; [exact Hr|].
  refine (remove_refines with_a tree_a bl path_a (Some 0) _ Hr _).
  - apply paths_text.
  - apply generations.
Defined.

Lemma set_mode_refines_witness : exists bl, ready with_a tree_a bl /\
  wp (set_mode_as path_a 3 (Some 8)) (settles with_a tree_a bl (Err Denied)) with_a.
Proof.
  destruct with_a_ready as (bl & Hr). exists bl. split; [exact Hr|].
  refine (set_mode_refines with_a tree_a bl path_a 3 (Some 8) _ _ Hr _).
  - apply paths_text.
  - unfold u16. lia.
  - apply generations.
Defined.

Lemma write_then_read_witness : exists bl, ready with_a tree_a bl /\
  wp (write_file_as path_a [1; 2; 3] (Some 7) ;; read_file_as path_a None)
     (fun r _ => match r with
                 | Ok out => out = [1; 2; 3]
                 | Err e => env_error e \/ s_write_file tree_a path_a [1; 2; 3] (Some 7) = Err e
                 | Panic => False
                 end) with_a.
Proof.
  destruct with_a_ready as (bl & Hr). exists bl. split; [exact Hr|].
  refine (write_then_read with_a tree_a bl path_a [1; 2; 3] (Some 7) _ _ Hr _).
  - apply paths_text.
  - repeat constructor; unfold is_byte; lia.
  - apply generations.
Defined.

Lemma others_unchanged_witness : exists bl, ready with_a tree_a bl /\
  wp (perform (RCreate path_b File None 0) ;; read_file_as path_a None)
     (fun r _ => match r with
                 | Ok out => out = []
                 | Err e => env_error e \/ s_perform tree_a (RCreate path_b File None 0) = Err e
                 | Panic => False
                 end) with_a.
Proof.
  destruct with_a_ready as (bl & Hr). exists bl. split; [exact Hr|].
  refine (others_unchanged with_a tree_a bl (RCreate path_b File None 0) path_b path_a None [] _ Hr _ eq_refl _ eq_refl).
  - split; [apply paths_text|unfold u32; lia].
  - apply generations.
  - vm_compute. intros [k Hk]. discriminate.
Defined.

Definition run_requests : list request := [RCreate path_a File None 0; RWrite path_a [5] None; RRemove path_b None].

Lemma run_all_refines_witness : exists bl, ready with_a tree_a bl /\
  wp (run_all run_requests)
     (fun r fs' => match r with
                   | Ok _ => exists bl', ready fs' (TDir SYSTEM DEFAULT_MODE [([97], TFile 7 DEFAULT_MODE [5])]) bl'
                   | Err e => (env_error e \/ e = TooLarge) /\ stopped run_requests tree_a fs'
                   | Panic => False
                   end) with_a.
Proof.
  destruct with_a_ready as (bl & Hr). exists bl. split; [exact Hr|].
  refine (run_all_refines run_requests with_a tree_a bl _ Hr _).
  - destruct paths_text as [Ha Hb]. repeat constructor; try apply Ha; try apply Hb; unfold is_byte; lia.
  - destruct runs as ((_ & _ & _ & -> & _) & _). vm_compute. discriminate.
Defined.

Lemma format_ready_witness : dev_ok small /\ wp format (formatted small) small.
Proof. split; [exact small_ok|]. apply (format_ready small). exact small_ok. Defined.

(** ** A power cut *)

Lemma same_with_faults faults fs : dev_ok (fs_device fs) -> same fs (with_faults faults fs).
Proof. intros Hok. split; [done|]. split; [exact Hok|]. by split. Qed.

Definition reloaded (d : MemDisk.disk) : MemDisk.disk :=
  {| MemDisk.sectors := (fun vs => match vs with v :: _ => [v] | [] => [MemDisk.zero_sector] end) <$> MemDisk.sectors d;
     MemDisk.count := MemDisk.count d; MemDisk.faults := [] |}.

Lemma oldest_survives d : MemDisk.ok d -> survives d (oldest d).
Proof.
  intros Hok s Hs. destruct (MemDisk.held_ok d s Hok) as [Hne Hall]. unfold oldest.
  change (versions d s) with (MemDisk.held d s). destruct (MemDisk.held d s) as [|v vs]; [done|].
  apply Forall_cons in Hall as [Hv _]. split; [done|]. intros i _. exists v. split; [left|done].
Qed.

Lemma reloaded_ok d : MemDisk.ok d -> dev_ok (reloaded d).
Proof.
  intros [Hc Hs]. split; [done|]. simpl. intros s vs. rewrite lookup_fmap.
  destruct (MemDisk.sectors d !! s) as [ws|] eqn:Hw; [|done]. simpl. intros [= <-].
  destruct (Hs s ws Hw) as [Hne Hall]. destruct ws as [|v ws]; [done|].
  apply Forall_cons in Hall as [Hv _]. split; [done|]. by apply Forall_singleton.
Qed.

Lemma reloaded_image d s : MemDisk.ok d -> image (reloaded d) s = oldest d s.
Proof.
  intros Hok. destruct (MemDisk.held_ok d s Hok) as [Hne _]. unfold image, oldest. simpl.
  unfold MemDisk.held in *. simpl. rewrite lookup_fmap.
  destruct (MemDisk.sectors d !! s) as [[|v vs]|]; done.
Qed.

Lemma cut_ready : exists bl, ready (cut 11 with_a) tree_a bl.
Proof.
  destruct with_a_ready as (bl & Hr). exists bl. eapply ready_same; [exact Hr|].
  apply same_with_faults, (m_ok _ _ _ (r_mounted _ _ _ Hr)).
Qed.

Lemma write_a_ok : request_ok write_a.
Proof. split; [apply paths_text|]. repeat constructor; unfold is_byte; lia. Qed.

(** Power fails after the new superblock was written and before it was flushed. *)
Lemma power_cut_witness :
  let fs' := snd (perform write_a (cut 11 with_a)) in
  fst (perform write_a (cut 11 with_a)) = Err (Device DeviceFault) /\
  length (MemDisk.held (fs_device fs') 0) = 2%nat /\
  wp mount (fun rm d' =>
    (Err (Device DeviceFault) <> Ok tt /\ mounts (reloaded (fs_device fs')) tree_a rm d') \/
    exists t', s_perform tree_a write_a = Ok t' /\ mounts (reloaded (fs_device fs')) t' rm d')
    (reloaded (fs_device fs')).
Proof.
  cbv zeta. destruct cut_ready as (bl & Hr).
  destruct runs as ((_ & _ & _ & _ & Hslot) & Herr & Hslots & Htorn & Hcount & Hsize).
  assert (Hg : sb_generation (st_superblock (fs_state (cut 11 with_a))) < U64_MAX)
    by (rewrite cut_state; apply generations).
  split; [exact Herr|]. split; [exact Hslots|]. clear Hslots.
  pose proof (perform_settles write_a _ tree_a bl write_a_ok Hr Hg) as Hp. unfold wp in Hp.
  destruct (perform write_a (cut 11 with_a)) as [r fs'] eqn:Hrun. cbn [fst snd] in *. subst r.
  assert (Hok : MemDisk.ok (fs_device fs')).
  { destruct Hp as (_ & _ & [(_ & t' & bl' & Hm & _)|(_ & Hm & _)]); apply (m_ok _ _ _ Hm). }
  refine (power_cut write_a (cut 11 with_a) fs' tree_a bl (Err (Device DeviceFault)) (oldest (fs_device fs'))
    (reloaded (fs_device fs')) write_a_ok Hr Hg Hrun _ _ _ _ _).
  - by apply oldest_survives.
  - unfold torn_detected. rewrite cut_state, Hslot. left. exact Htorn.
  - by apply reloaded_ok.
  - transitivity 64; [exact Hcount|by symmetry].
  - intros s _. by apply reloaded_image.
Defined.

(** ** After a failure *)

Definition path_c : list Z := [47; 99].

(** The device refuses the one write of a permission change, then recovers. *)
Definition after_fault : FileSystem MemDisk.disk :=
  snd (set_mode_as path_a 3 (Some 7) (with_faults [false; false; false; true] with_a)).
Definition after_b : FileSystem MemDisk.disk := snd (create_for path_b File None 0 after_fault).
Definition after_c : FileSystem MemDisk.disk := snd (create_for path_c File None 8 after_b).

(** A run in which an operation fails after retiring blocks: they stay on the retired
    list, the next commit frees them although the tree still uses them, and a file of
    user 7's comes to be a file of user 8's. *)
Example failed_change_frees_live_blocks :
  fst (set_mode_as path_a 3 (Some 7) (with_faults [false; false; false; true] with_a))
    = Err (Device DeviceFault) /\
  fst (owner_as path_a None after_fault) = Ok (7, DEFAULT_MODE) /\
  fst (create_for path_b File None 0 after_fault) = Ok tt /\
  fst (create_for path_c File None 8 after_b) = Ok tt /\
  fst (owner_as path_a None after_c) = Ok (8, DEFAULT_MODE).
Proof. vm_compute. repeat split. Qed.

(** Thirty blocks of data. *)
Definition big : list Z := replicate 15360 1.
Definition with_b : FileSystem MemDisk.disk :=
  snd (write_file_as path_b big None (snd (create_for path_b File None 0 with_a))).
Definition after_full : FileSystem MemDisk.disk := snd (write_file_as path_b big None with_b).

(** A run in which blocks an operation claimed before it failed are not given back: one
    write that finds the disk full takes the space of every later change with it,
    the removal that would have made room included. *)
Example failed_write_keeps_its_blocks :
  free_blocks (fs_state with_b) = 26 /\
  fst (remove_as path_a None with_b) = Ok tt /\
  fst (write_file_as path_b big None with_b) = Err Full /\
  free_blocks (fs_state after_full) = 0 /\
  fst (remove_as path_a None after_full) = Err Full.
Proof. vm_compute. repeat split. Qed.
