(* ===== verification/Heap.v ===== *)
(** * The kernel heap (kernel/src/allocator/)

    The free-list allocator with coalescing and the bump allocator.  Free blocks
    are threaded through the free memory itself in the code; here the list is the
    list of blocks, a node's address being its start.  Addresses and sizes are
    64-bit; an addition that does not fit panics, as it does in the profile the
    kernel is built with. *)

From stdpp Require Import base list gmap numbers list_numbers.
From Stdlib Require Import Lia.
From S2P Require Import Prelude.

(** The only error of these functions is a panic. *)
Abbreviation partial A := (result Empty_set A).

Definition NODE_SIZE : Z := 16.
Definition NODE_ALIGN : Z := 8.

Record ListNode : Type := {
  n_start : Z;
  n_size : Z;
}.
Definition n_end (n : ListNode) : Z := n_start n + n_size n.

Record HeapStats : Type := {
  hs_size : Z;
  hs_allocated : Z;
  hs_peak : Z;
  hs_allocations : Z;
}.

(** ** Rounding *)

Definition is_power_of_two (v : Z) : bool := (0 <? v) && (v =? 2 ^ Z.log2 v).

Definition align_up (addr align : Z) : partial Z :=
  if negb (is_power_of_two align) then Panic
  else if addr + align - 1 >? U64_MAX then Panic
  else Ok (Z.land (addr + align - 1) (U64_MAX - (align - 1))).

(** [Layout::align_to], [pad_to_align] and the minimum size of a node. *)
Definition ISIZE_MAX : Z := 2 ^ 63 - 1.
Definition adjust_layout (size align : Z) : partial (Z * Z) :=
  let align := Z.max align NODE_ALIGN in
  if size >? ISIZE_MAX - (align - 1) then Panic
  else
    let padded := div_ceil size align * align in
    Ok (Z.max padded NODE_SIZE, align).

(** ** The free list *)

Module LinkedList.

Record allocator : Type := {
  free : list ListNode;
  size : Z;
  allocated : Z;
  peak : Z;
  allocations : Z;
}.

Definition new : allocator :=
  {| free := []; size := 0; allocated := 0; peak := 0; allocations := 0 |}.

(** The nodes below [addr], and the rest: where the search of [add_free_region]
    stops. *)
Fixpoint split_below (addr : Z) (l : list ListNode) : list ListNode * list ListNode :=
  match l with
  | [] => ([], [])
  | n :: rest =>
      if n_start n <? addr then
        let '(below, above) := split_below addr rest in (n :: below, above)
      else ([], l)
  end.

(** Absorb the successor if it starts where this block ends. *)
Definition merge_forward (addr new_size : Z) (above : list ListNode) : Z * list ListNode :=
  match above with
  | region :: rest =>
      if addr + new_size =? n_start region then (new_size + n_size region, rest) else (new_size, above)
  | [] => (new_size, [])
  end.

(** Merge into the predecessor, or put a node of its own after it.  The sentinel
    is not a predecessor. *)
Fixpoint merge_backward (below : list ListNode) (node : ListNode) : list ListNode :=
  match below with
  | [] => [node]
  | [current] =>
      if n_end current =? n_start node
      then [{| n_start := n_start current; n_size := n_size current + n_size node |}]
      else [current; node]
  | current :: rest => current :: merge_backward rest node
  end.

Definition add_free_region (addr sz : Z) (l : list ListNode) : partial (list ListNode) :=
  aligned ← align_up addr NODE_ALIGN;
  if negb (aligned =? addr) || (sz <? NODE_SIZE) then Panic
  else
    let '(below, above) := split_below addr l in
    let '(new_size, following) := merge_forward addr sz above in
    Ok (merge_backward below {| n_start := addr; n_size := new_size |} ++ following).

Definition set_free (h : allocator) (l : list ListNode) : allocator :=
  {| free := l; size := size h; allocated := allocated h; peak := peak h; allocations := allocations h |}.

Definition init (heap_start heap_size : Z) (h : allocator) : partial allocator :=
  l ← add_free_region heap_start heap_size (free h);
  mret {| free := l; size := heap_size; allocated := allocated h; peak := peak h; allocations := allocations h |}.

Definition try_carve (region : ListNode) (sz align : Z) : partial (option Z) :=
  alloc_start ← align_up (n_start region) align;
  match checked_add U64_MAX alloc_start sz with
  | None => mret None
  | Some alloc_end =>
      if alloc_end >? n_end region then mret None
      else
        let excess := n_end region - alloc_end in
        if (excess >? 0) && (excess <? NODE_SIZE) then mret None
        else mret (Some alloc_start)
  end.

(** The first block that fits, the list without it and where to start in it. *)
Fixpoint find_region (sz align : Z) (l : list ListNode) : partial (option (ListNode * Z * list ListNode)) :=
  match l with
  | [] => mret None
  | region :: rest =>
      carved ← try_carve region sz align;
      match carved with
      | Some alloc_start => mret (Some (region, alloc_start, rest))
      | None =>
          found ← find_region sz align rest;
          mret (match found with
                | Some (r, s, rest') => Some (r, s, region :: rest')
                | None => None
                end)
      end
  end.

(** The middle of [alloc]: a region that has left the list gives back what is
    before [alloc_start], when that is big enough to be a block, and what is past
    the end of the allocation. *)
Definition carve_back (region : ListNode) (alloc_start sz : Z) (rest : list ListNode) : partial (list ListNode) :=
  let region_start := n_start region in
  let region_end := n_end region in
  let alloc_end := alloc_start + sz in
  let front_padding := alloc_start - region_start in
  l ← (if NODE_SIZE <=? front_padding then add_free_region region_start front_padding rest else mret rest);
  let excess := region_end - alloc_end in
  if excess >? 0 then add_free_region alloc_end excess l else mret l.

(** [GlobalAlloc::alloc]; [None] is the null pointer. *)
Definition alloc (sz0 align0 : Z) (h : allocator) : partial (option Z * allocator) :=
  '(sz, align) ← adjust_layout sz0 align0;
  found ← find_region sz align (free h);
  match found with
  | None => mret (None, h)
  | Some (region, alloc_start, rest) =>
      l ← carve_back region alloc_start sz rest;
      if allocated h + sz >? U64_MAX then Panic
      else
        mret (Some alloc_start,
              {| free := l; size := size h; allocated := allocated h + sz;
                 peak := Z.max (peak h) (allocated h + sz); allocations := allocations h + 1 |})
  end.

Definition dealloc (ptr sz0 align0 : Z) (h : allocator) : partial allocator :=
  '(sz, _) ← adjust_layout sz0 align0;
  l ← add_free_region ptr sz (free h);
  if (allocated h <? sz) || (allocations h <? 1) then Panic
  else
    mret {| free := l; size := size h; allocated := allocated h - sz; peak := peak h;
            allocations := allocations h - 1 |}.

Definition stats (h : allocator) : HeapStats :=
  {| hs_size := size h; hs_allocated := allocated h; hs_peak := peak h; hs_allocations := allocations h |}.

Definition free_region_count (h : allocator) : Z := Z.of_nat (length (free h)).

Definition largest_free_region (h : allocator) : Z :=
  fold_left (fun largest n => Z.max largest (n_size n)) (free h) 0.

End LinkedList.

(** ** The bump allocator *)

Module Bump.

Record allocator : Type := {
  heap_start : Z;
  heap_end : Z;
  next : Z;
  allocations : Z;
  peak : Z;
}.

Definition new : allocator := {| heap_start := 0; heap_end := 0; next := 0; allocations := 0; peak := 0 |}.

Definition init (start sz : Z) (b : allocator) : allocator :=
  {| heap_start := start; heap_end := saturating_add U64_MAX start sz; next := start;
     allocations := allocations b; peak := peak b |}.

Definition alloc (sz align : Z) (b : allocator) : partial (option Z * allocator) :=
  start ← align_up (next b) align;
  match checked_add U64_MAX start sz with
  | None => mret (None, b)
  | Some end_ =>
      if end_ >? heap_end b then mret (None, b)
      else mret (Some start, {| heap_start := heap_start b; heap_end := heap_end b; next := end_;
                                allocations := allocations b + 1; peak := Z.max (peak b) (end_ - heap_start b) |})
  end.

Definition dealloc (b : allocator) : partial allocator :=
  if allocations b <? 1 then Panic
  else
    let n := allocations b - 1 in
    mret {| heap_start := heap_start b; heap_end := heap_end b;
            next := if n =? 0 then heap_start b else next b; allocations := n; peak := peak b |}.

Definition stats (b : allocator) : HeapStats :=
  {| hs_size := heap_end b - heap_start b; hs_allocated := next b - heap_start b;
     hs_peak := peak b; hs_allocations := allocations b |}.

Definition free_region_count (b : allocator) : Z := if next b <? heap_end b then 1 else 0.
Definition largest_free_region (b : allocator) : Z := heap_end b - next b.

End Bump.

(** ** Rounding is what it says *)

Lemma land_high x k : 0 <= k -> 0 <= x -> Z.land x (Z.shiftl (Z.ones (64 - k)) k) = x - x mod 2 ^ k \/ 2 ^ 64 <= x.
Proof.
  intros Hk Hx. destruct (Z.lt_ge_cases x (2 ^ 64)) as [Hlt|]; [left|by right].
  assert (Heq : Z.land x (Z.shiftl (Z.ones (64 - k)) k) = Z.shiftl (Z.shiftr x k) k).
  { apply Z.bits_inj'. intros i Hi. rewrite Z.land_spec. destruct (Z.lt_ge_cases i k).
    - rewrite !Z.shiftl_spec_low by lia. apply andb_false_r.
    - rewrite !Z.shiftl_spec_high, Z.shiftr_spec, Z.sub_add by lia.
      destruct (Z.lt_ge_cases i 64).
      + rewrite Z.ones_spec_low by lia. apply andb_true_r.
      + destruct (decide (x = 0)) as [->|]; [by rewrite Z.bits_0|].
        rewrite (Z.bits_above_log2 x i); [done|lia|].
        assert (Z.log2 x < 64) by (apply Z.log2_lt_pow2; lia). lia. }
  rewrite Heq, Z.shiftl_mul_pow2, Z.shiftr_div_pow2 by lia.
  pose proof (Z.div_mod x (2 ^ k)). lia.
Qed.

Lemma align_up_spec addr align k :
  align = 2 ^ k -> 0 <= k <= 63 -> 0 <= addr -> addr + align <= U64_MAX ->
  exists r, align_up addr align = Ok r /\ r mod align = 0 /\ addr <= r < addr + align.
Proof.
  intros -> Hk Ha Hov. unfold align_up, is_power_of_two. rewrite Z.log2_pow2, Z.eqb_refl by lia.
  assert (Hp : 0 < 2 ^ k) by (apply Z.pow_pos_nonneg; lia). rewrite (proj2 (Z.ltb_lt 0 (2 ^ k)) Hp).
  cbn [andb negb]. destruct (_ >? U64_MAX) eqn:Hc; [lia|]. unfold U64_MAX in *.
  assert (Hmask : 18446744073709551615 - (2 ^ k - 1) = Z.shiftl (Z.ones (64 - k)) k).
  { rewrite Z.shiftl_mul_pow2, Z.ones_equiv by lia.
    assert (2 ^ (64 - k) * 2 ^ k = 2 ^ 64) by (rewrite <-Z.pow_add_r by lia; f_equal; lia). lia. }
  rewrite Hmask. eexists. split; [done|].
  destruct (land_high (addr + 2 ^ k - 1) k) as [->|]; [lia|lia| |lia].
  pose proof (Z.mod_pos_bound (addr + 2 ^ k - 1) (2 ^ k) Hp). split; [|lia].
  rewrite Zminus_mod, Z.mod_mod, Z.sub_diag by lia. apply Z.mod_0_l. lia.
Qed.

Lemma align_up_fixed addr k :
  0 <= k <= 63 -> 0 <= addr -> addr + 2 ^ k <= U64_MAX -> addr mod 2 ^ k = 0 -> align_up addr (2 ^ k) = Ok addr.
Proof.
  intros Hk Ha Hov Hm. destruct (align_up_spec addr (2 ^ k) k) as (r & -> & Hr & Hb); try done.
  f_equal. assert (0 < 2 ^ k) by (apply Z.pow_pos_nonneg; lia).
  pose proof (Z.div_mod addr (2 ^ k)). pose proof (Z.div_mod r (2 ^ k)).
  assert (addr / 2 ^ k = r / 2 ^ k) by (apply (Z.div_unique_pos _ _ _ (r - addr)); lia). lia.
Qed.

(** ** The invariant of the free list *)

Module LinkedListSpec.
Import LinkedList.

(** A block that can carry a node. *)
Definition node_ok (n : ListNode) : Prop :=
  n_start n mod 8 = 0 /\ n_size n mod 8 = 0 /\ NODE_SIZE <= n_size n.

(** Sorted, apart, and never adjacent: neighbours that could merge have. *)
Fixpoint chain (low : Z) (l : list ListNode) : Prop :=
  match l with
  | [] => True
  | n :: rest => low < n_start n /\ node_ok n /\ chain (n_end n) rest
  end.

Definition in_node (n : ListNode) (x : Z) : Prop := n_start n <= x < n_end n.
Definition covers (l : list ListNode) (x : Z) : Prop := exists n, n ∈ l /\ in_node n x.

Lemma covers_nil x : covers [] x <-> False.
Proof. split; [|done]. intros (n & Hn & _). by apply elem_of_nil in Hn. Qed.

Lemma covers_cons n l x : covers (n :: l) x <-> in_node n x \/ covers l x.
Proof.
  split.
  - intros (m & Hm & Hx). apply elem_of_cons in Hm as [->|Hm]; [by left|right; by exists m].
  - intros [Hx|(m & Hm & Hx)]; [exists n; split; [left|done]|exists m; split; [by right|done]].
Qed.

Lemma covers_app l1 l2 x : covers (l1 ++ l2) x <-> covers l1 x \/ covers l2 x.
Proof.
  induction l1 as [|n l1 IH]; simpl; [rewrite covers_nil; tauto|]. rewrite !covers_cons, IH. tauto.
Qed.

Lemma chain_weaken low low' l : low' <= low -> chain low l -> chain low' l.
Proof. destruct l; simpl; [done|]. intros ? (? & ? & ?). split; [lia|done]. Qed.

Lemma chain_covers low l x : chain low l -> covers l x -> low < x.
Proof.
  revert low. induction l as [|n l IH]; intros low Hc; [by rewrite covers_nil|].
  destruct Hc as (Hl & (_ & _ & Hn) & Hc). unfold NODE_SIZE in Hn. rewrite covers_cons. intros [[? ?]|Hx]; [lia|].
  eapply IH in Hx; [|exact Hc]. unfold n_end in Hx. lia.
Qed.

(** The block that is being returned touches nothing that is free. *)
Definition apart (n : ListNode) (l : list ListNode) : Prop := forall x, in_node n x -> ~ covers l x.

Lemma apart_cons n m l : node_ok n -> node_ok m -> apart n (m :: l) ->
  (n_end n <= n_start m \/ n_end m <= n_start n) /\ apart n l.
Proof.
  intros (_ & _ & Hn) (_ & _ & Hm) Ha. unfold NODE_SIZE, n_end in *. split.
  - destruct (Z.le_gt_cases (n_start n + n_size n) (n_start m)); [by left|right].
    destruct (Z.le_gt_cases (n_start m + n_size m) (n_start n)); [done|exfalso].
    apply (Ha (Z.max (n_start n) (n_start m))); [unfold in_node, n_end; lia|].
    apply covers_cons. left. unfold in_node, n_end. lia.
  - intros x Hx Hc. apply (Ha x Hx). apply covers_cons. by right.
Qed.

(** Returning a block, as one pass over the list. *)
Fixpoint insert_node (node : ListNode) (l : list ListNode) : list ListNode :=
  match l with
  | [] => [node]
  | n :: rest =>
      if n_start n <? n_start node then
        if n_end n =? n_start node then
          match rest with
          | m :: rest' =>
              if n_end node =? n_start m
              then {| n_start := n_start n; n_size := n_size n + (n_size node + n_size m) |} :: rest'
              else {| n_start := n_start n; n_size := n_size n + n_size node |} :: rest
          | [] => [{| n_start := n_start n; n_size := n_size n + n_size node |}]
          end
        else n :: insert_node node rest
      else if n_end node =? n_start n
           then {| n_start := n_start node; n_size := n_size node + n_size n |} :: rest
           else node :: l
  end.

Lemma insert_node_chain node : node_ok node -> forall l low,
  chain low l -> low < n_start node -> apart node l ->
  chain low (insert_node node l) /\
  forall x, covers (insert_node node l) x <-> covers l x \/ in_node node x.
Proof.
  intros Hnode. pose proof Hnode as (Hn1 & Hn2 & Hn3). unfold NODE_SIZE in *.
  induction l as [|n l IH]; intros low Hc Hlow Ha.
  { simpl. split; [done|]. intros x. rewrite covers_cons, covers_nil. tauto. }
  destruct Hc as (Hl & Hok & Hc). pose proof Hok as (Ho1 & Ho2 & Ho3). unfold NODE_SIZE in *.
  destruct (apart_cons _ _ _ Hnode Hok Ha) as [Hsep Ha']. simpl.
  destruct (n_start n <? n_start node) eqn:Hlt; [apply Z.ltb_lt in Hlt|apply Z.ltb_ge in Hlt].
  - destruct (n_end n =? n_start node) eqn:Hadj; [apply Z.eqb_eq in Hadj|apply Z.eqb_neq in Hadj].
    + unfold n_end in *. assert (Hmod : (n_size n + n_size node) mod 8 = 0).
      { rewrite Zplus_mod, Ho2, Hn2. done. }
      destruct l as [|m l'].
      { split; [simpl; unfold node_ok; simpl; repeat split; try done; unfold NODE_SIZE; lia|].
        intros x. rewrite !covers_cons, !covers_nil. unfold in_node, n_end. simpl. lia. }
      destruct Hc as (Hml & Hmok & Hmc). pose proof Hmok as (Hm1 & Hm2 & Hm3). unfold NODE_SIZE in *.
      destruct (apart_cons _ _ _ Hnode Hmok Ha') as [Hsepm _]. unfold n_end in *.
      destruct (n_start node + n_size node =? n_start m) eqn:Hf; [apply Z.eqb_eq in Hf|apply Z.eqb_neq in Hf].
      * split.
        -- simpl. unfold node_ok, n_end in *. simpl. replace (n_size n + (n_size node + n_size m)) with
             (n_size n + n_size node + n_size m) by lia.
           repeat split; try done; [rewrite Zplus_mod, Hmod, Hm2; done|unfold NODE_SIZE; lia|].
           eapply chain_weaken; [|exact Hmc]. unfold n_end. lia.
        -- intros x. rewrite !covers_cons. unfold in_node, n_end in *. simpl.
           intuition lia.
      * split.
        -- simpl. unfold node_ok, n_end in *. simpl. repeat split; try done; try lia; unfold NODE_SIZE; lia.
        -- intros x. rewrite !covers_cons. unfold in_node, n_end. simpl. intuition lia.
    + unfold n_end in Hadj. assert (Hle : n_end n < n_start node) by (unfold n_end in *; lia).
      destruct (IH (n_end n) Hc Hle Ha') as [Hc' Hcov]. split; [done|].
      intros x. rewrite !covers_cons, Hcov. tauto.
  - unfold n_end in *. assert (Hne : n_start node < n_start n) by lia.
    destruct (n_start node + n_size node =? n_start n) eqn:Hf; [apply Z.eqb_eq in Hf|apply Z.eqb_neq in Hf].
    + split.
      * simpl. unfold node_ok, n_end. simpl. repeat split; try done; try lia.
        -- rewrite Zplus_mod, Hn2, Ho2. done.
        -- unfold NODE_SIZE. lia.
        -- eapply chain_weaken; [|exact Hc]. unfold n_end. lia.
      * intros x. rewrite !covers_cons. unfold in_node, n_end. simpl. intuition lia.
    + split.
      * simpl. unfold n_end. repeat split; try done; lia.
      * intros x. rewrite !covers_cons. tauto.
Qed.

Lemma split_below_all addr l low : chain low l -> addr <= low -> split_below addr l = ([], l).
Proof.
  destruct l as [|n l]; [done|]. simpl. intros (Hl & _) Ha. destruct (_ <? _) eqn:Hc; [lia|done].
Qed.

(** The code's search and two merges are that one pass. *)
Lemma add_free_region_insert addr sz l low :
  0 <= addr -> addr + 8 <= U64_MAX -> addr mod 8 = 0 -> NODE_SIZE <= sz -> chain low l ->
  add_free_region addr sz l = Ok (insert_node {| n_start := addr; n_size := sz |} l).
Proof.
  intros Ha Hov Hm Hs Hc. unfold add_free_region. change NODE_ALIGN with (2 ^ 3).
  rewrite align_up_fixed by (done || lia). cbn [mbind result_bind]. rewrite Z.eqb_refl. simpl negb.
  rewrite orb_false_l. destruct (sz <? NODE_SIZE) eqn:Hsz; [lia|]. clear Hsz.
  set (node := {| n_start := addr; n_size := sz |}).
  assert (Hgoal : forall low l, chain low l ->
    (let '(below, above) := split_below addr l in
     let '(new_size, following) := merge_forward addr sz above in
     merge_backward below {| n_start := addr; n_size := new_size |} ++ following) = insert_node node l).
  { clear l low Hc. intros low l. revert low. induction l as [|n l IH]; intros low Hc; [done|].
    destruct Hc as (Hl & Hok & Hc). cbn [split_below insert_node]. change (n_start node) with addr.
    destruct (n_start n <? addr) eqn:Hlt.
    - destruct (n_end n =? addr) eqn:Hadj.
      + apply Z.eqb_eq in Hadj. rewrite (split_below_all addr l (n_end n)) by (done || lia).
        destruct l as [|m l]; simpl; [by rewrite Hadj, Z.eqb_refl|].
        change (n_end node) with (addr + sz). destruct (addr + sz =? n_start m); simpl;
          by rewrite Hadj, Z.eqb_refl.
      + specialize (IH _ Hc). destruct (split_below addr l) as [below above].
        destruct (merge_forward addr sz above) as [new_size following]. rewrite <-IH.
        destruct below as [|b below]; [|done]. simpl. by rewrite Hadj.
    - simpl. change (n_end node) with (addr + sz). by destruct (addr + sz =? n_start n). }
  specialize (Hgoal low l Hc). destruct (split_below addr l) as [below above].
  destruct (merge_forward addr sz above) as [new_size following]. by rewrite Hgoal.
Qed.

(** ** Choosing a block *)

Lemma try_carve_spec region sz align k r :
  align = 2 ^ k -> 3 <= k <= 62 -> 0 <= n_start region -> 0 < sz -> sz mod 8 = 0 -> node_ok region ->
  n_end region + align <= U64_MAX -> try_carve region sz align = r ->
  match r with
  | Ok (Some p) =>
      p mod align = 0 /\ n_start region <= p /\ p + sz <= n_end region /\
      (p + sz = n_end region \/ p + sz + NODE_SIZE <= n_end region) /\ p < n_start region + align
  | Ok None => True
  | _ => False
  end.
Proof.
  intros Hal Hk Hs Hsz Hsz8 (Hm & Hz & Hn) Hend <-. unfold try_carve, NODE_SIZE, n_end in *.
  destruct (align_up_spec (n_start region) align k) as (p & -> & Hpm & Hp); [done|lia|lia|lia|].
  cbn [mbind result_bind]. unfold checked_add. destruct (_ <=? U64_MAX) eqn:Hov; [|done].
  destruct (_ >? _) eqn:Hc; [done|]. destruct (_ && _) eqn:He; [done|]. simpl.
  split; [done|]. split; [lia|]. split; [lia|]. split; [|lia].
  apply andb_false_iff in He as [He|He]; lia.
Qed.

Lemma find_region_spec sz align k l r low :
  align = 2 ^ k -> 3 <= k <= 62 -> 0 < sz -> sz mod 8 = 0 -> -1 <= low -> chain low l ->
  Forall (fun n => n_end n + align <= U64_MAX) l -> find_region sz align l = r ->
  match r with
  | Ok (Some (region, p, rest)) => exists l1 l2, l = l1 ++ region :: l2 /\ rest = l1 ++ l2 /\
      try_carve region sz align = Ok (Some p)
  | Ok None => Forall (fun n => try_carve n sz align = Ok None) l
  | _ => False
  end.
Proof.
  intros Hal Hk Hsz Hsz8 Hlow Hc Hb <-. revert low Hlow Hc Hb.
  induction l as [|n l IH]; intros low Hlow Hc Hb; [by constructor|].
  destruct Hc as (Hl & Hok & Hc). apply Forall_cons in Hb as [Hnb Hb]. cbn [find_region].
  pose proof (try_carve_spec n sz align k _ Hal Hk ltac:(lia) Hsz Hsz8 Hok Hnb eq_refl) as Ht.
  destruct (try_carve n sz align) as [[p|]|e|] eqn:Hcv; [by exists [], l|..|done|done].
  cbn [mbind result_bind]. assert (Hlow' : -1 <= n_end n) by (destruct Hok as (_ & _ & ?); unfold n_end, NODE_SIZE in *; lia).
  specialize (IH (n_end n) Hlow' Hc Hb). destruct (find_region sz align l) as [[[[region p] rest]|]|e|]; try done.
  - destruct IH as (l1 & l2 & -> & -> & Hp). by exists (n :: l1), l2.
  - by constructor.
Qed.

Lemma chain_remove l1 n l2 low : chain low (l1 ++ n :: l2) -> chain low (l1 ++ l2) /\
  node_ok n /\ low < n_start n /\ forall x, covers (l1 ++ n :: l2) x <-> covers (l1 ++ l2) x \/ in_node n x.
Proof.
  revert low. induction l1 as [|m l1 IH]; intros low Hc; simpl in *.
  - destruct Hc as (Hl & Hok & Hc). split; [|split; [done|split; [done|]]].
    + eapply chain_weaken; [|exact Hc]. destruct Hok as (_ & _ & ?). unfold n_end, NODE_SIZE in *. lia.
    + intros x. rewrite covers_cons. tauto.
  - destruct Hc as (Hl & Hok & Hc). destruct (IH _ Hc) as (Hc' & Hok' & Hlow & Hcov).
    split; [done|]. split; [done|]. split.
    + destruct Hok as (_ & _ & ?). unfold n_end, NODE_SIZE in *. lia.
    + intros x. rewrite !covers_cons, Hcov. tauto.
Qed.

(** A block of a chain is apart from the others. *)
Lemma chain_apart l1 n l2 low x : chain low (l1 ++ n :: l2) -> in_node n x -> ~ covers (l1 ++ l2) x.
Proof.
  revert low. induction l1 as [|m l1 IH]; intros low Hc Hx; simpl in *.
  - destruct Hc as (_ & _ & Hc). intros Hcov. pose proof (chain_covers _ _ _ Hc Hcov). destruct Hx. lia.
  - destruct Hc as (Hl & Hok & Hc). rewrite covers_cons. intros [Hm|Hcov]; [|by eapply IH].
    assert (Hcn : covers (l1 ++ n :: l2) x) by (apply covers_app; right; apply covers_cons; by left).
    pose proof (chain_covers _ _ _ Hc Hcn). destruct Hm. lia.
Qed.

(** ** The heap and what is allocated in it *)

Fixpoint sum_size (l : list ListNode) : Z :=
  match l with [] => 0 | n :: rest => n_size n + sum_size rest end.

Lemma sum_size_app l1 l2 : sum_size (l1 ++ l2) = sum_size l1 + sum_size l2.
Proof. induction l1; simpl; lia. Qed.

Lemma insert_node_sum node l : sum_size (insert_node node l) = n_size node + sum_size l.
Proof.
  induction l as [|n l IH]; [done|]. simpl. destruct (_ <? _).
  - destruct (_ =? _); [|simpl; lia]. destruct l as [|m l]; simpl; [lia|]. destruct (_ =? _); simpl; lia.
  - destruct (_ =? _); simpl; lia.
Qed.

Definition block (p sz : Z) : ListNode := {| n_start := p; n_size := sz |}.

(** The blocks handed out: where each starts and how long it is. *)
Definition total (live : gmap Z Z) : Z := map_fold (fun _ sz acc => sz + acc) 0 live.

Lemma total_insert live p sz : live !! p = None -> total (<[p := sz]> live) = sz + total live.
Proof. intros Hp. unfold total. rewrite map_fold_insert_L; [done|intros; lia|done]. Qed.

Lemma total_delete live p sz : live !! p = Some sz -> total live = sz + total (delete p live).
Proof.
  intros Hp. rewrite <-(insert_delete_id live p sz Hp) at 1. apply total_insert. apply lookup_delete_eq.
Qed.

(** The heap [lo, hi) with the blocks [live] handed out. *)
Record heap_inv (lo hi : Z) (h : allocator) (live : gmap Z Z) : Prop := {
  hi_bounds : 0 <= lo <= hi;
  hi_chain : chain (lo - 1) (free h);
  hi_free : forall x, covers (free h) x -> x < hi;
  hi_live : forall p sz, live !! p = Some sz ->
    node_ok (block p sz) /\ lo <= p /\ p + sz <= hi /\ apart (block p sz) (free h);
  hi_disjoint : forall p1 sz1 p2 sz2, live !! p1 = Some sz1 -> live !! p2 = Some sz2 -> p1 <> p2 ->
    p1 + sz1 <= p2 \/ p2 + sz2 <= p1;
  hi_allocated : allocated h = total live;
  hi_count : allocations h = Z.of_nat (base.size live);
  hi_total : sum_size (free h) + total live <= hi - lo;
}.

(** Nothing of the heap is neither free nor handed out. *)
Definition no_loss (lo hi : Z) (h : allocator) (live : gmap Z Z) : Prop :=
  forall x, lo <= x < hi -> covers (free h) x \/ exists p sz, live !! p = Some sz /\ p <= x < p + sz.

(** A layout as the allocator uses it. *)
Definition layout (sz0 align0 sz align : Z) : Prop :=
  exists k, 0 <= k <= 61 /\ align0 = 2 ^ k /\ 0 <= sz0 /\ sz0 + Z.max align0 8 <= 2 ^ 62 /\
            align = Z.max align0 8 /\ sz = Z.max (div_ceil sz0 align * align) 16.

Lemma layout_adjust sz0 align0 sz align :
  layout sz0 align0 sz align -> adjust_layout sz0 align0 = Ok (sz, align) /\
  (exists k, 3 <= k <= 61 /\ align = 2 ^ k) /\ sz mod 8 = 0 /\ 16 <= sz /\ sz0 <= sz /\
  align mod align0 = 0 /\ 0 < align0.
Proof.
  intros (k & Hk & Ha0 & Hsz0 & Hmax & Hal & Hsz). unfold adjust_layout, NODE_ALIGN, NODE_SIZE, ISIZE_MAX.
  rewrite <-Hal. destruct (_ >? _) eqn:Hc; [lia|]. rewrite <-Hsz.
  assert (Hk2 : align = 2 ^ Z.max k 3).
  { rewrite Hal, Ha0. change 8 with (2 ^ 3). destruct (Z.le_ge_cases k 3).
    - rewrite (Z.max_r k 3), Z.max_r by (done || apply Z.pow_le_mono_r; lia). done.
    - rewrite (Z.max_l k 3), Z.max_l by (done || apply Z.pow_le_mono_r; lia). done. }
  assert (H8 : align mod 8 = 0).
  { rewrite Hk2. replace (Z.max k 3) with (Z.max k 3 - 3 + 3) by lia. rewrite Z.pow_add_r by lia.
    change (2 ^ 3) with 8. apply Z.mod_mul. lia. }
  assert (Hpos : 0 < align) by lia. split; [done|]. split; [exists (Z.max k 3); split; [lia|done]|].
  assert (Hpad : (div_ceil sz0 align * align) mod 8 = 0).
  { rewrite Zmult_mod, H8, Z.mul_0_r. done. }
  split.
  { rewrite Hsz. destruct (Z.max_spec (div_ceil sz0 align * align) 16) as [[_ ->]|[_ ->]]; done. }
  split; [lia|]. pose proof (proj1 (div_ceil_le sz0 align _ Hpos) (Z.le_refl _)). split; [lia|].
  assert (Hp0 : 0 < align0) by (rewrite Ha0; apply Z.pow_pos_nonneg; lia). split; [|done].
  rewrite Hk2, Ha0. replace (Z.max k 3) with (Z.max k 3 - k + k) by lia. rewrite Z.pow_add_r by lia.
  apply Z.mod_mul. rewrite <-Ha0. lia.
Qed.

Lemma mod_trans p align align0 : 0 < align0 -> 0 < align -> align mod align0 = 0 -> p mod align = 0 -> p mod align0 = 0.
Proof.
  intros H0 H1 Ha Hp. apply Z.mod_divide; [lia|]. apply Z.mod_divide in Ha; [|lia]. apply Z.mod_divide in Hp; [|lia].
  by etrans.
Qed.

(** Giving back part of a block that was taken out. *)
Lemma give_back lo l addr sz :
  0 <= lo -> chain (lo - 1) l -> lo <= addr -> addr + 8 <= U64_MAX -> node_ok (block addr sz) ->
  apart (block addr sz) l ->
  exists l', add_free_region addr sz l = Ok l' /\ chain (lo - 1) l' /\
    (forall x, covers l' x <-> covers l x \/ addr <= x < addr + sz) /\ sum_size l' = sz + sum_size l.
Proof.
  intros Hlo Hc Ha Hov Hok Hap. pose proof Hok as (Hm & _ & Hs). simpl in Hm, Hs.
  eexists. split; [by eapply add_free_region_insert; [lia| | | |exact Hc]|].
  destruct (insert_node_chain (block addr sz) Hok l (lo - 1)) as [Hc' Hcov]; [done|simpl; lia|done|].
  split; [done|]. split; [exact Hcov|]. apply insert_node_sum.
Qed.

Lemma chain_nodes low l n : chain low l -> n ∈ l -> node_ok n /\ low < n_start n.
Proof.
  revert low. induction l as [|m l IH]; intros low Hc Hn; [by apply elem_of_nil in Hn|].
  destruct Hc as (Hl & Hok & Hc). apply elem_of_cons in Hn as [->|Hn]; [done|].
  destruct (IH _ Hc Hn) as [Hn' Hlow]. split; [done|]. destruct Hok as (_ & _ & ?). unfold n_end, NODE_SIZE in *. lia.
Qed.

Lemma node_end_bound low l n hi :
  chain low l -> n ∈ l -> (forall x, covers l x -> x < hi) -> n_end n <= hi.
Proof.
  intros Hc Hn Hb. destruct (chain_nodes _ _ _ Hc Hn) as [(_ & _ & Hs) _]. unfold NODE_SIZE, n_end in *.
  assert (n_start n + n_size n - 1 < hi); [|lia]. apply Hb. exists n. split; [done|]. unfold in_node, n_end. lia.
Qed.

Lemma sum_size_nonneg low l : chain low l -> 0 <= sum_size l.
Proof.
  revert low. induction l as [|n l IH]; intros low Hc; simpl; [lia|]. destruct Hc as (_ & (_ & _ & Hs) & Hc).
  specialize (IH _ Hc). unfold NODE_SIZE in Hs. lia.
Qed.

Lemma carve_back_spec lo hi region p sz rest :
  0 <= lo -> hi + 8 <= U64_MAX -> chain (lo - 1) rest -> node_ok region -> lo <= n_start region ->
  n_end region <= hi -> apart region rest -> p mod 8 = 0 -> sz mod 8 = 0 -> 0 < sz ->
  n_start region <= p -> (p + sz = n_end region \/ p + sz + NODE_SIZE <= n_end region) ->
  exists l, carve_back region p sz rest = Ok l /\ chain (lo - 1) l /\
    (forall x, covers l x <-> covers rest x \/
       (NODE_SIZE <= p - n_start region /\ n_start region <= x < p) \/ p + sz <= x < n_end region) /\
    sum_size l + sz <= sum_size rest + n_size region.
Proof.
  intros Hlo Hhi Hc Hok Hrs Hre Hap Hp Hsz Hpos Hle Hexc. destruct Hok as (Ho1 & Ho2 & Ho3).
  unfold carve_back. cbv zeta. assert (Hfm : (p - n_start region) mod 8 = 0) by (rewrite Zminus_mod, Hp, Ho1; done).
  assert (Hfront : exists l, (if NODE_SIZE <=? p - n_start region then add_free_region (n_start region) (p - n_start region) rest
                              else mret rest) = Ok l /\ chain (lo - 1) l /\
    (forall x, covers l x <-> covers rest x \/ (NODE_SIZE <= p - n_start region /\ n_start region <= x < p)) /\
    sum_size l <= sum_size rest + (p - n_start region)).
  { destruct (NODE_SIZE <=? p - n_start region) eqn:Hf.
    - apply Z.leb_le in Hf. destruct (give_back lo rest (n_start region) (p - n_start region)) as (l & Hl & Hcl & Hcov & Hsum);
        [done|done|done|unfold n_end, NODE_SIZE in *; lia|done| |].
      { intros x [Hx1 Hx2]. apply Hap. unfold in_node, n_end in *. simpl in *. unfold NODE_SIZE in *. lia. }
      exists l. split; [done|]. split; [done|]. split; [|lia]. intros x. rewrite Hcov. intuition lia.
    - apply Z.leb_gt in Hf. exists rest. split; [done|]. split; [done|]. split; [|lia].
      intros x. intuition lia. }
  destruct Hfront as (l & -> & Hcl & Hcov & Hsum). cbn [mbind result_bind].
  unfold n_end, NODE_SIZE in *. destruct (_ >? 0) eqn:He.
  - destruct (give_back lo l (p + sz) (n_start region + n_size region - (p + sz))) as (l2 & Hl2 & Hcl2 & Hcov2 & Hsum2);
      [done|done|lia|lia| | |].
    { repeat split; simpl; [rewrite Zplus_mod, Hp, Hsz; done| |unfold NODE_SIZE; lia].
      rewrite Zminus_mod, (Zplus_mod (n_start region)), (Zplus_mod p), Ho1, Ho2, Hp, Hsz. done. }
    { intros x [Hx1 Hx2]. unfold n_end in *. simpl in *. rewrite Hcov. intros [Hx|Hx]; [|lia].
      eapply Hap; [|exact Hx]. unfold in_node, n_end. lia. }
    exists l2. split; [done|]. split; [done|]. split; [|lia]. intros x. rewrite Hcov2, Hcov. intuition lia.
  - exists l. split; [done|]. split; [done|]. split; [|lia]. intros x. rewrite Hcov. intuition lia.
Qed.

(** What a request for memory ends in. *)
Definition allocates_block (lo hi : Z) (h : allocator) (live : gmap Z Z) (align0 sz align : Z)
    (r : partial (option Z * allocator)) : Prop :=
  match r with
  | Ok (Some p, h') => p mod align0 = 0 /\ live !! p = None /\ heap_inv lo hi h' (<[p := sz]> live) /\
      (align0 <= 8 -> no_loss lo hi h live -> no_loss lo hi h' (<[p := sz]> live)) /\
      allocated h' = allocated h + sz
  | Ok (None, h') => h' = h /\ Forall (fun n => try_carve n sz align = Ok None) (free h)
  | _ => False
  end.

Lemma alloc_step lo hi h live sz0 align0 sz align :
  heap_inv lo hi h live -> layout sz0 align0 sz align -> hi + align <= U64_MAX ->
  allocates_block lo hi h live align0 sz align (alloc sz0 align0 h).
Proof.
  intros [Hb Hc Hfree Hlive Hdis Hall Hcnt Htot] Hlay Hhi.
  destruct (layout_adjust _ _ _ _ Hlay) as (Hadj & (k & Hk & Hal) & Hsz8 & Hsz16 & Hsz0 & Hdiv & Ha0).
  unfold alloc. rewrite Hadj. cbn [mbind result_bind].
  assert (Hends : Forall (fun n => n_end n + align <= U64_MAX) (free h)).
  { apply Forall_forall. intros n Hn. pose proof (node_end_bound _ _ _ _ Hc Hn Hfree). lia. }
  pose proof (find_region_spec sz align k (free h) _ (lo - 1) Hal ltac:(lia) ltac:(lia) Hsz8 ltac:(lia) Hc Hends eq_refl) as Hf.
  destruct (find_region sz align (free h)) as [[[[region p] rest]|]|e|]; [|done|done|done].
  destruct Hf as (l1 & l2 & Hl & -> & Hcarve). rewrite Hl in Hc.
  destruct (chain_remove _ _ _ _ Hc) as (Hcr & Hrok & Hrlow & Hrcov).
  assert (Hrend : n_end region <= hi) by (eapply node_end_bound; [exact Hc|set_solver|by rewrite <-Hl]).
  pose proof (try_carve_spec region sz align k _ Hal ltac:(lia) ltac:(lia) ltac:(lia) Hsz8 Hrok ltac:(lia) Hcarve)
    as (Hpm & Hp1 & Hp2 & Hp3 & Hp4).
  assert (Hapart : apart region (l1 ++ l2)) by (intros x Hx; by eapply chain_apart).
  assert (Halpos : 0 < align) by (rewrite Hal; apply Z.pow_pos_nonneg; lia).
  assert (Hal8 : align mod 8 = 0).
  { rewrite Hal. replace k with (k - 3 + 3) by lia. rewrite Z.pow_add_r by lia. apply Z.mod_mul. lia. }
  assert (H8 : 8 <= align) by (apply Z.mod_divide in Hal8 as [q Hq]; lia).
  assert (Hp8 : p mod 8 = 0) by (by eapply mod_trans; [| |exact Hal8|exact Hpm]).
  destruct (carve_back_spec lo hi region p sz (l1 ++ l2)) as (l & Hback & Hcl & Hcov & Hsum);
    try done; try lia.
  cbn [mbind result_bind]. rewrite Hback. cbn [mbind result_bind].
  assert (Hsub : forall x, covers l x -> covers (free h) x).
  { intros x Hx. rewrite Hl. apply Hrcov. apply Hcov in Hx as [Hx|Hx]; [by left|right].
    unfold in_node, n_end, NODE_SIZE in *. lia. }
  assert (Hin : forall x, p <= x < p + sz -> covers (free h) x /\ ~ covers l x).
  { intros x Hx. assert (Hxr : in_node region x) by (unfold in_node, n_end in *; lia).
    split; [rewrite Hl; apply Hrcov; by right|]. intros Hcx. apply Hcov in Hcx as [Hcx|Hcx]; [by eapply Hapart|lia]. }
  assert (Hsep : forall p2 sz2, live !! p2 = Some sz2 -> p + sz <= p2 \/ p2 + sz2 <= p).
  { intros p2 sz2 Hp2'. destruct (Hlive _ _ Hp2') as ((_ & _ & Hs2) & _ & _ & Hap2). simpl in Hs2. unfold NODE_SIZE in Hs2.
    destruct (Z.le_gt_cases (p + sz) p2); [by left|right]. destruct (Z.le_gt_cases (p2 + sz2) p); [done|exfalso].
    apply (Hap2 (Z.max p p2)); [unfold in_node, n_end; simpl; lia|]. apply Hin. lia. }
  assert (Hnone : live !! p = None).
  { destruct (live !! p) as [sz2|] eqn:Hpl; [|done]. destruct (Hlive _ _ Hpl) as ((_ & _ & Hs2) & _).
    simpl in Hs2. unfold NODE_SIZE in Hs2. destruct (Hsep _ _ Hpl); lia. }
  pose proof (sum_size_nonneg _ _ Hcl) as Hnn. rewrite Hl, sum_size_app in Htot. simpl in Htot. rewrite sum_size_app in Hsum.
  destruct (_ >? U64_MAX) eqn:Hov; [lia|]. split; [by eapply mod_trans|]. split; [done|]. split; [|split; [|done]].
  - split; simpl; try done.
    + intros x Hx. by apply Hfree, Hsub.
    + intros p2 sz2. rewrite lookup_insert. case_decide as Heq; [intros [= <-]; subst p2|intros Hp2'].
      * split; [by repeat split|]. split; [lia|]. split; [lia|]. intros x [Hx1 Hx2]. apply Hin. unfold n_end in *. simpl in *. lia.
      * destruct (Hlive _ _ Hp2') as (? & ? & ? & Hap2). repeat (split; [done|]). intros x Hx Hcx. eapply Hap2; eauto.
    + intros p1 sz1 p2 sz2. rewrite !lookup_insert. intros Hq1 Hq2 Hne.
      case_decide; case_decide; subst; simplify_eq; eauto. apply Hsep in Hq1. lia.
    + rewrite total_insert by done. lia.
    + rewrite map_size_insert_None by done. lia.
    + rewrite total_insert by done. lia.
  - intros Ha8 Hnl x Hx. simpl. destruct (decide (p <= x < p + sz)) as [Hxp|Hxp].
    { right. exists p, sz. by rewrite lookup_insert_eq. }
    destruct (Hnl x Hx) as [Hcx|(p2 & sz2 & Hp2' & Hx2)].
    + left. apply Hcov. rewrite Hl in Hcx. apply Hrcov in Hcx as [Hcx|Hcx]; [by left|right; right].
      assert (align = 8) by (destruct Hlay as (? & _ & _ & _ & _ & -> & _); lia). unfold in_node, n_end, NODE_SIZE in *.
      destruct Hrok as (Hr1 & _). assert (p = n_start region); [|lia].
      apply Z.mod_divide in Hr1 as [q1 Hq1]; [|lia]. apply Z.mod_divide in Hp8 as [q2 Hq2]; [|lia]. lia.
    + right. exists p2, sz2. rewrite lookup_insert_ne; [done|]. intros ->. congruence.
Qed.

Lemma dealloc_step lo hi h live p sz0 align0 sz align :
  heap_inv lo hi h live -> layout sz0 align0 sz align -> hi + 8 <= U64_MAX -> live !! p = Some sz ->
  exists h', dealloc p sz0 align0 h = Ok h' /\ heap_inv lo hi h' (delete p live) /\
    (no_loss lo hi h live -> no_loss lo hi h' (delete p live)) /\
    forall x, covers (free h') x <-> covers (free h) x \/ p <= x < p + sz.
Proof.
  intros [Hb Hc Hfree Hlive Hdis Hall Hcnt Htot] Hlay Hhi Hp.
  destruct (layout_adjust _ _ _ _ Hlay) as (Hadj & _). unfold dealloc. rewrite Hadj. cbn [mbind result_bind].
  destruct (Hlive _ _ Hp) as (Hok & Hlo & Hend & Hap). pose proof Hok as (_ & _ & Hs). simpl in Hs. unfold NODE_SIZE in Hs.
  destruct (give_back lo (free h) p sz) as (l & Hl & Hcl & Hcov & Hsum); [lia|done|done|lia|done|done|].
  rewrite Hl. cbn [mbind result_bind]. pose proof (total_delete live p sz Hp) as Htd.
  assert (Hnn : 0 <= total (delete p live)).
  { assert (Hpos : forall m : gmap Z Z, (forall q s, m !! q = Some s -> 0 <= s) -> 0 <= total m).
    { intros m. induction m as [|q s m Hq IH] using map_ind; intros Hm; [done|].
      rewrite total_insert by done. assert (0 <= s) by (apply (Hm q); apply lookup_insert_eq).
      assert (0 <= total m); [|lia]. apply IH. intros q' s' Hq'. apply (Hm q').
      rewrite lookup_insert_ne; [done|]. intros ->. congruence. }
    apply Hpos. intros q s Hq. apply lookup_delete_Some in Hq as [_ Hq]. destruct (Hlive _ _ Hq) as ((_ & _ & Hs') & _).
    simpl in Hs'. unfold NODE_SIZE in Hs'. lia. }
  assert (Hsize : base.size live = S (base.size (delete p live))).
  { rewrite <-(insert_delete_id live p sz Hp) at 1. rewrite map_size_insert_None; [done|apply lookup_delete_eq]. }
  destruct (_ || _) eqn:Hpan; [apply orb_true_iff in Hpan as [?|?]; lia|].
  eexists. split; [done|]. simpl. split; [|split; [|exact Hcov]].
  - split; simpl; try done; try lia.
    + intros x Hx. apply Hcov in Hx as [Hx|Hx]; [by apply Hfree|lia].
    + intros q s Hq. apply lookup_delete_Some in Hq as [Hne Hq]. destruct (Hlive _ _ Hq) as (? & ? & ? & Hap2).
      repeat (split; [done|]). intros x Hx Hcx. apply Hcov in Hcx as [Hcx|Hcx]; [by eapply Hap2|].
      destruct Hx as [Hx1 Hx2]. unfold n_end in Hx2. simpl in *. destruct (Hdis _ _ _ _ Hp Hq); lia || done.
    + intros p1 s1 p2 s2 [_ H1]%lookup_delete_Some [_ H2]%lookup_delete_Some. by apply Hdis.
  - intros Hnl x Hx. simpl. destruct (Hnl x Hx) as [Hcx|(q & s & Hq & Hxq)]; [left; apply Hcov; by left|].
    destruct (decide (q = p)) as [->|Hne].
    + left. apply Hcov. right. assert (s = sz) as -> by congruence. done.
    + right. exists q, s. split; [|done]. by rewrite lookup_delete_ne.
Qed.

(** A set of bytes has one free list. *)
Lemma chain_unique l1 : forall l2 low, chain low l1 -> chain low l2 ->
  (forall x, covers l1 x <-> covers l2 x) -> l1 = l2.
Proof.
  assert (Hhead : forall n l low, chain low (n :: l) -> covers (n :: l) (n_start n) /\ ~ covers (n :: l) (n_end n) /\
    forall x, covers (n :: l) x -> n_start n <= x).
  { intros n l low (Hl & (_ & _ & Hs) & Hc). unfold NODE_SIZE, n_end in *. split; [|split].
    - apply covers_cons. left. unfold in_node, n_end. lia.
    - rewrite covers_cons. intros [[? ?]|Hx]; [unfold n_end in *; lia|]. apply (chain_covers _ _ _ Hc) in Hx. lia.
    - intros x. rewrite covers_cons. intros [[? ?]|Hx]; [lia|]. apply (chain_covers _ _ _ Hc) in Hx. lia. }
  induction l1 as [|n l1 IH]; intros [|m l2] low Hc1 Hc2 Heq; [done|..].
  - destruct (Hhead _ _ _ Hc2) as [Hm _]. apply Heq in Hm. by apply covers_nil in Hm.
  - destruct (Hhead _ _ _ Hc1) as [Hn _]. apply Heq in Hn. by apply covers_nil in Hn.
  - destruct (Hhead _ _ _ Hc1) as (Hn1 & Hn2 & Hn3). destruct (Hhead _ _ _ Hc2) as (Hm1 & Hm2 & Hm3).
    assert (Hstart : n_start n = n_start m).
    { apply Heq in Hm1 as Hx. apply Hn3 in Hx. apply Heq in Hn1 as Hy. apply Hm3 in Hy. lia. }
    destruct Hc1 as (Hl1 & Hok1 & Hc1). destruct Hc2 as (Hl2 & Hok2 & Hc2).
    pose proof Hok1 as (_ & _ & Hs1). pose proof Hok2 as (_ & _ & Hs2). unfold NODE_SIZE in *.
    assert (Hend : n_end n = n_end m).
    { destruct (Z.lt_trichotomy (n_end n) (n_end m)) as [Hlt|[He|Hgt]]; [exfalso|done|exfalso].
      - apply Hn2. apply Heq. apply covers_cons. left. unfold in_node, n_end in *. lia.
      - apply Hm2. apply Heq. apply covers_cons. left. unfold in_node, n_end in *. lia. }
    assert (n = m) as <- by (destruct n, m; unfold n_end in *; simpl in *; f_equal; lia).
    f_equal. apply (IH _ (n_end n)); [done|done|]. intros x. specialize (Heq x). rewrite !covers_cons in Heq.
    split; intros Hx.
    + pose proof (chain_covers _ _ _ Hc1 Hx). destruct (proj1 Heq (or_intror Hx)) as [[? ?]|]; [lia|done].
    + pose proof (chain_covers _ _ _ Hc2 Hx). destruct (proj2 Heq (or_intror Hx)) as [[? ?]|]; [lia|done].
Qed.

Lemma init_step lo size0 :
  0 <= lo -> lo mod 8 = 0 -> size0 mod 8 = 0 -> 16 <= size0 -> lo + 8 <= U64_MAX ->
  exists h, init lo size0 new = Ok h /\ heap_inv lo (lo + size0) h ∅ /\ no_loss lo (lo + size0) h ∅ /\
    free h = [block lo size0].
Proof.
  intros Hlo Hm Hs H16 Hov. unfold init. change (free new) with (@nil ListNode).
  rewrite (add_free_region_insert lo size0 [] 0) by (done || (unfold NODE_SIZE; lia)). cbn [mbind result_bind].
  eexists. split; [done|]. split; [|split; [|done]].
  - split; simpl; try done; try lia.
    + split; [lia|]. by repeat split.
    + intros x. rewrite covers_cons, covers_nil. unfold in_node, n_end. simpl. lia.
    + unfold total. rewrite map_fold_empty. lia.
  - intros x Hx. left. simpl. apply covers_cons. left. unfold in_node, n_end. simpl. lia.
Qed.

(** C8: memory handed out is aligned, lies in the heap and overlaps nothing that is
    free or already handed out; a request that is refused changes nothing and no
    free block could have met it; nothing panics. *)
Theorem heap_alloc_sound lo hi h live sz0 align0 sz align :
  heap_inv lo hi h live -> layout sz0 align0 sz align -> hi + align <= U64_MAX ->
  allocates_block lo hi h live align0 sz align (alloc sz0 align0 h).
Proof. apply alloc_step. Qed.

(** memory given back is free again, merged with its neighbours. *)
Theorem heap_dealloc_sound lo hi h live p sz0 align0 sz align :
  heap_inv lo hi h live -> layout sz0 align0 sz align -> hi + 8 <= U64_MAX -> live !! p = Some sz ->
  exists h', dealloc p sz0 align0 h = Ok h' /\ heap_inv lo hi h' (delete p live) /\
    (no_loss lo hi h live -> no_loss lo hi h' (delete p live)) /\
    forall x, covers (free h') x <-> covers (free h) x \/ p <= x < p + sz.
Proof. apply dealloc_step. Qed.

(** allocating and giving back leaves the free list as it was, block for block,
    for alignments up to eight. *)
Theorem heap_alloc_dealloc lo hi h live sz0 align0 sz align p h' :
  heap_inv lo hi h live -> no_loss lo hi h live -> layout sz0 align0 sz align -> align0 <= 8 ->
  hi + align <= U64_MAX -> alloc sz0 align0 h = Ok (Some p, h') ->
  exists h'', dealloc p sz0 align0 h' = Ok h'' /\ free h'' = free h /\ allocated h'' = allocated h.
Proof.
  intros Hinv Hnl Hlay Ha8 Hhi Halloc. pose proof (alloc_step _ _ _ _ _ _ _ _ Hinv Hlay Hhi) as Hs.
  rewrite Halloc in Hs. destruct Hs as (_ & Hnone & Hinv' & Hnl' & Hal'). specialize (Hnl' Ha8 Hnl).
  assert (Hal8 : align = 8) by (destruct Hlay as (? & _ & _ & _ & _ & -> & _); lia).
  destruct (dealloc_step lo hi h' (<[p := sz]> live) p sz0 align0 sz align) as (h'' & Hd & Hinv'' & Hnl'' & _);
    [done|done|lia|apply lookup_insert_eq|].
  rewrite delete_insert_id in * by done. specialize (Hnl'' Hnl'). exists h''. split; [done|].
  split; [|by rewrite (hi_allocated _ _ _ _ Hinv''), (hi_allocated _ _ _ _ Hinv)].
  apply (chain_unique _ _ (lo - 1)); [apply Hinv''|apply Hinv|].
  assert (Hcov : forall g, heap_inv lo hi g live -> no_loss lo hi g live -> forall x, covers (free g) x <->
    lo <= x < hi /\ ~ exists q s, live !! q = Some s /\ q <= x < q + s).
  { intros g Hg Hng x. split.
    - intros Hx. split; [split; [pose proof (chain_covers _ _ _ (hi_chain _ _ _ _ Hg) Hx); lia|by apply (hi_free _ _ _ _ Hg)]|].
      intros (q & s & Hq & Hxq). destruct (hi_live _ _ _ _ Hg _ _ Hq) as (_ & _ & _ & Hap). by eapply (Hap x).
    - intros [Hx Hno]. destruct (Hng x Hx) as [?|Hl]; [done|]. by destruct Hno. }
  intros x. rewrite (Hcov h''), (Hcov h) by done. done.
Qed.

(** a heap from which everything was given back, and that lost nothing to
    padding, is one free block. *)
Theorem heap_emptied lo hi h :
  heap_inv lo hi h ∅ -> no_loss lo hi h ∅ -> lo mod 8 = 0 -> hi mod 8 = 0 -> lo + 16 <= hi ->
  free h = [block lo (hi - lo)] /\ free_region_count h = 1.
Proof.
  intros Hinv Hnl Hlo Hhi H16. assert (Hfree : free h = [block lo (hi - lo)]).
  { apply (chain_unique _ _ (lo - 1)); [apply Hinv| |].
    - simpl. split; [lia|]. split; [|done]. split; [done|]. split; [simpl; rewrite Zminus_mod, Hlo, Hhi; done|].
      simpl. unfold NODE_SIZE. lia.
    - intros x. rewrite covers_cons, covers_nil. unfold in_node, n_end. simpl. split.
      + intros Hx. pose proof (chain_covers _ _ _ (hi_chain _ _ _ _ Hinv) Hx). pose proof (hi_free _ _ _ _ Hinv x Hx). lia.
      + intros [Hx|[]]. destruct (Hnl x) as [?|(q & s & Hq & _)]; [lia|done|]. by rewrite lookup_empty in Hq. }
  split; [done|]. unfold free_region_count. by rewrite Hfree.
Qed.

End LinkedListSpec.

(** ** The bump allocator hands out ascending blocks *)

Module BumpSpec.
Import Bump.

(** The blocks handed out since the last reset all lie below [next]. *)
Record bump_inv (b : allocator) (live : list ListNode) : Prop := {
  bi_bounds : 0 <= heap_start b <= next b /\ next b <= heap_end b;
  bi_live : Forall (fun n => heap_start b <= n_start n /\ n_end n <= next b /\ 0 <= n_size n) live;
  bi_count : allocations b = Z.of_nat (length live);
}.

(** the bump allocator never hands out a byte twice: a new block starts past
    every live one, and giving blocks back frees nothing until none is left. *)
Theorem bump_sound b live sz align k :
  bump_inv b live -> align = 2 ^ k -> 0 <= k <= 62 -> 0 <= sz -> next b + align <= U64_MAX ->
  match alloc sz align b with
  | Ok (Some p, b') => p mod align = 0 /\ Forall (fun n => n_end n <= p) live /\ p + sz <= heap_end b /\
      bump_inv b' ({| n_start := p; n_size := sz |} :: live)
  | Ok (None, b') => b' = b
  | _ => False
  end /\
  (forall n l1 l2, live = l1 ++ n :: l2 ->
     exists b', dealloc b = Ok b' /\ bump_inv b' (l1 ++ l2) /\
       next b' = if decide (l1 ++ l2 = []) then heap_start b else next b).
Proof.
  intros [Hb Hl Hc] Hal Hk Hsz Hov. split.
  - unfold alloc. destruct (align_up_spec (next b) align k) as (p & -> & Hpm & Hp); [done|lia|lia|done|].
    cbn [mbind result_bind]. unfold checked_add. destruct (_ <=? U64_MAX); [|done].
    destruct (_ >? heap_end b) eqn:He; [done|]. simpl. split; [done|]. split; [|split; [lia|]].
    + eapply Forall_impl; [exact Hl|]. simpl. lia.
    + split; simpl; [lia| |lia]. constructor; [unfold n_end; simpl; lia|].
      eapply Forall_impl; [exact Hl|]. simpl. lia.
  - intros n l1 l2 ->. rewrite length_app in Hc. simpl in Hc. unfold dealloc.
    destruct (_ <? 1) eqn:H1; [lia|]. eexists. split; [done|]. simpl.
    apply Forall_app in Hl as [Hl1 Hl2]. apply Forall_cons in Hl2 as [_ Hl2].
    destruct (allocations b - 1 =? 0) eqn:Hz.
    + assert (length (l1 ++ l2) = 0%nat) as Hnil by (rewrite length_app; lia). apply length_zero_iff_nil in Hnil.
      rewrite Hnil. rewrite decide_True by done. split; [|done]. split; simpl; [lia|constructor|lia].
    + rewrite decide_False.
      * split; [|done]. split; simpl; [lia|by apply Forall_app|rewrite length_app; lia].
      * intros Hnil. apply (f_equal length) in Hnil. rewrite length_app in Hnil. simpl in Hnil. lia.
Qed.

Definition fresh : allocator := init 65536 4096 new.

Lemma bump_sound_witness :
  match alloc 24 8 fresh with
  | Ok (Some p, b') => p mod 8 = 0 /\ Forall (fun n => n_end n <= p) [] /\ p + 24 <= heap_end fresh /\
      bump_inv b' [{| n_start := p; n_size := 24 |}]
  | Ok (None, b') => b' = fresh
  | _ => False
  end.
Proof.
  refine (proj1 (bump_sound fresh [] 24 8 3 _ eq_refl _ _ _)); try (vm_compute; done); try lia.
Defined.

End BumpSpec.

(** ** Runs *)

Module HeapRuns.
Import LinkedList LinkedListSpec.

Definition must {A} (r : partial A) (default : A) : A := match r with Ok a => a | _ => default end.

(** A page of heap at 64 KiB. *)
Definition page : allocator := must (init 65536 4096 new) new.
Definition first : option Z * allocator := must (alloc 24 8 page) (None, page).
Definition second : option Z * allocator := must (alloc 16 16 (snd first)) (None, page).

Lemma page_inv : heap_inv 65536 69632 page ∅ /\ no_loss 65536 69632 page ∅.
Proof.
  destruct (init_step 65536 4096) as (h & Hi & Hinv & Hnl & _); try (vm_compute; done); try lia.
  unfold page. rewrite Hi. done.
Qed.

Lemma layouts : layout 24 8 24 8 /\ layout 16 16 16 16.
Proof. split; [exists 3|exists 4]; vm_compute; repeat split; discriminate. Qed.

Lemma heap_alloc_sound_witness : allocates_block 65536 69632 page ∅ 8 24 8 (alloc 24 8 page).
Proof. apply (heap_alloc_sound 65536 69632 page ∅ 24 8 24 8); [apply page_inv|apply layouts|vm_compute; discriminate]. Defined.

Lemma first_inv : heap_inv 65536 69632 (snd first) {[65536 := 24]}.
Proof.
  pose proof (alloc_step 65536 69632 page ∅ 24 8 24 8 (proj1 page_inv) (proj1 layouts) ltac:(vm_compute; discriminate)) as Ha.
  unfold first. assert (Hp : exists h, alloc 24 8 page = Ok (Some 65536, h)) by (vm_compute; eauto).
  destruct Hp as [h Hp]. rewrite Hp in *. apply Ha.
Qed.

Lemma heap_dealloc_sound_witness :
  exists h', dealloc 65536 24 8 (snd first) = Ok h' /\ heap_inv 65536 69632 h' (delete 65536 {[65536 := 24]}).
Proof.
  destruct (heap_dealloc_sound 65536 69632 (snd first) {[65536 := 24]} 65536 24 8 24 8 first_inv (proj1 layouts))
    as (h' & Hd & Hi & _); [vm_compute; discriminate|apply lookup_singleton_eq|]. by exists h'.
Defined.

Lemma heap_alloc_dealloc_witness :
  exists h'', dealloc 65536 24 8 (snd first) = Ok h'' /\ free h'' = free page /\ allocated h'' = allocated page.
Proof.
  apply (heap_alloc_dealloc 65536 69632 page ∅ 24 8 24 8 65536 (snd first));
    [apply page_inv|apply page_inv|apply layouts|lia|vm_compute; discriminate|vm_compute; reflexivity].
Defined.

Lemma heap_emptied_witness : free page = [block 65536 (69632 - 65536)] /\ free_region_count page = 1.
Proof. apply (heap_emptied 65536 69632); [apply page_inv|apply page_inv|reflexivity|reflexivity|lia]. Defined.

(** Both blocks given back. *)
Definition emptied : allocator := must (dealloc 65536 24 8 (must (dealloc 65568 16 16 (snd second)) new)) new.

(** eight bytes of alignment padding in front of a block are not given back with
    it, nor with its neighbours: with everything freed the heap is still in two
    pieces. *)
Theorem heap_padding_lost :
  fst first = Some 65536 /\ fst second = Some 65568 /\ allocations emptied = 0 /\ allocated emptied = 0 /\
  free emptied = [block 65536 24; block 65568 4064] /\ free_region_count emptied = 2 /\
  sum_size (free emptied) = 4096 - 8.
Proof. vm_compute. repeat split. Qed.

End HeapRuns.
