(* ===== verification/Frame.v ===== *)
(** * The physical frame allocator (kernel/src/memory/frame.rs)

    A bitmap with one bit per 4 KiB frame, a count of the bits set and a hint for
    where the next search starts.  Bitmap accesses out of range panic. *)

From stdpp Require Import base list gmap numbers list_numbers.
From Stdlib Require Import Lia.
From S2P Require Import Prelude.

Abbreviation partial A := (result Empty_set A).

Definition PAGE_SIZE : Z := 4096.

Record BitmapFrameAllocator : Type := {
  bitmap : list Z;
  total_frames : Z;
  used_frames : Z;
  next_hint : Z;
}.

Definition set_frames (a : BitmapFrameAllocator) (bm : list Z) (used : Z) : BitmapFrameAllocator :=
  {| bitmap := bm; total_frames := total_frames a; used_frames := used; next_hint := next_hint a |}.
Definition set_hint (a : BitmapFrameAllocator) (hint : Z) : BitmapFrameAllocator :=
  {| bitmap := bitmap a; total_frames := total_frames a; used_frames := used_frames a; next_hint := hint |}.

(** [self.bitmap[frame / 8] & (1 << (frame % 8)) != 0] *)
Definition is_used (a : BitmapFrameAllocator) (frame : Z) : partial bool :=
  match bitmap a !! Z.to_nat (frame / 8) with
  | Some _ => Ok (bm_get (bitmap a) frame)
  | None => Panic
  end.

Definition mark_used (frame : Z) (a : BitmapFrameAllocator) : partial BitmapFrameAllocator :=
  if frame >=? total_frames a then Ok a
  else
    used ← is_used a frame;
    if used : bool then Ok a
    else Ok (set_frames a (bm_set (bitmap a) frame) (used_frames a + 1)).

Definition mark_free (frame : Z) (a : BitmapFrameAllocator) : partial BitmapFrameAllocator :=
  if frame >=? total_frames a then Ok a
  else
    used ← is_used a frame;
    if negb used then Ok a
    else if used_frames a <? 1 then Panic
    else Ok (set_frames a (bm_clear (bitmap a) frame) (used_frames a - 1)).

(** [(from..from + n).find(|&f| self.is_used(f) == used)] *)
Fixpoint find_frame (used : bool) (a : BitmapFrameAllocator) (from : Z) (n : nat) : partial (option Z) :=
  match n with
  | O => Ok None
  | S n' =>
      u ← is_used a from;
      if Bool.eqb u used then Ok (Some from) else find_frame used a (from + 1) n'
  end.

Definition find_free (a : BitmapFrameAllocator) (from to : Z) : partial (option Z) :=
  find_frame false a from (Z.to_nat (Z.min to (total_frames a) - from)).

Definition frame_at (index : Z) : Z := index * PAGE_SIZE.

Definition allocate (a : BitmapFrameAllocator) : partial (option Z * BitmapFrameAllocator) :=
  found ← find_free a (next_hint a) (total_frames a);
  found ← (match found with Some f => Ok (Some f) | None => find_free a 0 (next_hint a) end);
  match found with
  | None => mret (None, a)
  | Some found =>
      a ← mark_used found a;
      mret (Some (frame_at found), set_hint a (found + 1))
  end.

(** [for frame in from..from + n { f(frame) }] *)
Fixpoint each_frame (f : Z -> BitmapFrameAllocator -> partial BitmapFrameAllocator) (from : Z) (n : nat)
    (a : BitmapFrameAllocator) : partial BitmapFrameAllocator :=
  match n with
  | O => Ok a
  | S n' => a ← f from a; each_frame f (from + 1) n' a
  end.

(** The search loop of [allocate_contiguous]; each round moves [start] up. *)
Fixpoint contiguous_from (fuel : nat) (start count : Z) (a : BitmapFrameAllocator)
  : partial (option Z * BitmapFrameAllocator) :=
  match fuel with
  | O => mret (None, a)
  | S fuel' =>
      if U64_MAX <? start + count then Panic
      else if start + count <=? total_frames a then
        blocked ← find_frame true a start (Z.to_nat count);
        match blocked with
        | Some blocked => contiguous_from fuel' (blocked + 1) count a
        | None =>
            a ← each_frame mark_used start (Z.to_nat count) a;
            mret (Some (frame_at start), a)
        end
      else mret (None, a)
  end.

Definition allocate_contiguous (count : Z) (a : BitmapFrameAllocator)
  : partial (option Z * BitmapFrameAllocator) :=
  if count =? 0 then mret (None, a)
  else contiguous_from (S (Z.to_nat (total_frames a))) 0 count a.

(** The [debug_assert] is checked in the profile the kernel is built with. *)
Definition deallocate (address : Z) (a : BitmapFrameAllocator) : partial BitmapFrameAllocator :=
  let index := address / PAGE_SIZE in
  used ← is_used a index;
  if negb used then Panic
  else
    a ← mark_free index a;
    mret (set_hint a (Z.min (next_hint a) index)).

Definition free_frames (a : BitmapFrameAllocator) : Z := total_frames a - used_frames a.

(** ** Start-up *)

Inductive MemoryRegionKind : Type := Usable | Reserved.

Record MemoryRegion : Type := {
  r_start : Z;
  r_end : Z;
  r_kind : MemoryRegionKind;
}.

Definition is_usable (r : MemoryRegion) : bool := match r_kind r with Usable => true | Reserved => false end.

Definition usable_regions (regions : list MemoryRegion) : list MemoryRegion :=
  filter (fun r => is_usable r = true) regions.

Definition highest_usable (regions : list MemoryRegion) : Z :=
  fold_left (fun m r => Z.max m (r_end r)) (usable_regions regions) 0.

(** [max_by_key]: the last of the largest. *)
Definition largest (regions : list MemoryRegion) : option MemoryRegion :=
  fold_left (fun best r =>
    match best with
    | None => Some r
    | Some b => if r_end b - r_start b <=? r_end r - r_start r then Some r else Some b
    end) regions None.

Definition LOW_MEMORY_FRAMES : Z := 256.

(** Release every whole frame of one region. *)
Definition release_region (r : MemoryRegion) (a : BitmapFrameAllocator) : partial BitmapFrameAllocator :=
  let first := div_ceil (r_start r) PAGE_SIZE in
  let last := r_end r / PAGE_SIZE in
  each_frame mark_free first (Z.to_nat (last - first)) a.

Fixpoint release_regions (rs : list MemoryRegion) (a : BitmapFrameAllocator) : partial BitmapFrameAllocator :=
  match rs with
  | [] => Ok a
  | r :: rest => a ← release_region r a; release_regions rest a
  end.

Definition init (regions : list MemoryRegion) : partial BitmapFrameAllocator :=
  let total := highest_usable regions / PAGE_SIZE in
  let bitmap_bytes := div_ceil total 8 in
  if existsb (fun r => r_end r <? r_start r) (usable_regions regions) then Panic
  else match largest (filter (fun r => bitmap_bytes <= r_end r - r_start r) (usable_regions regions)) with
  | None => Panic
  | Some host =>
      let a := {| bitmap := replicate (Z.to_nat bitmap_bytes) 255; total_frames := total;
                  used_frames := total; next_hint := 0 |} in
      a ← release_regions (usable_regions regions) a;
      let bitmap_first := r_start host / PAGE_SIZE in
      let bitmap_last := div_ceil (r_start host + bitmap_bytes) PAGE_SIZE in
      a ← each_frame mark_used bitmap_first (Z.to_nat (bitmap_last - bitmap_first)) a;
      each_frame mark_used 0 (Z.to_nat (Z.min LOW_MEMORY_FRAMES total)) a
  end.

(** ** The invariant *)

Definition used_at (a : BitmapFrameAllocator) (f : Z) : bool := bm_get (bitmap a) f.

Definition count_used (u : Z -> bool) (total : Z) : Z :=
  Z.of_nat (length (filter (fun f => u f = true) (seqZ 0 total))).

Record frames_ok (a : BitmapFrameAllocator) : Prop := {
  fo_total : 0 <= total_frames a <= 8 * Z.of_nat (length (bitmap a));
  fo_count : used_frames a = count_used (used_at a) (total_frames a);
  fo_hint : 0 <= next_hint a;
}.

Lemma count_ext (u v : Z -> bool) (l : list Z) : (forall f, f ∈ l -> u f = v f) ->
  length (filter (fun f => u f = true) l) = length (filter (fun f => v f = true) l).
Proof.
  induction l as [|x l IH]; intros Heq; [done|]. rewrite !filter_cons, Heq by left.
  case_decide; simpl; rewrite IH by (intros; apply Heq; by right); done.
Qed.

Lemma count_flip (u v : Z -> bool) (l : list Z) x :
  NoDup l -> x ∈ l -> u x = false -> v x = true -> (forall f, f <> x -> v f = u f) ->
  length (filter (fun f => v f = true) l) = S (length (filter (fun f => u f = true) l)).
Proof.
  induction l as [|y l IH]; intros Hnd Hin Hu Hv Heq; [by apply elem_of_nil in Hin|].
  apply NoDup_cons in Hnd as [Hy Hnd]. rewrite !filter_cons. apply elem_of_cons in Hin as [->|Hin].
  - rewrite decide_True, decide_False by congruence. simpl. f_equal.
    apply count_ext. intros f Hf. apply Heq. intros ->. done.
  - assert (Hyx : y <> x) by (intros ->; done). rewrite (Heq y Hyx). case_decide; simpl; rewrite IH; auto.
Qed.

Lemma count_used_set u v total x :
  0 <= x < total -> u x = false -> v x = true -> (forall f, f <> x -> v f = u f) ->
  count_used v total = count_used u total + 1.
Proof.
  intros Hx Hu Hv Heq. unfold count_used. rewrite (count_flip u v (seqZ 0 total) x); [lia|..|done|done|done].
  - apply NoDup_seqZ.
  - apply elem_of_seqZ. lia.
Qed.

Lemma count_used_range u total : 0 <= total -> 0 <= count_used u total <= total.
Proof.
  intros Ht. unfold count_used. pose proof (length_filter (fun f => u f = true) (seqZ 0 total)) as Hl.
  rewrite length_seqZ in Hl. lia.
Qed.

Lemma is_used_ok a f : frames_ok a -> 0 <= f < total_frames a -> is_used a f = Ok (used_at a f).
Proof.
  intros [Ht _ _] Hf. unfold is_used. destruct (bitmap a !! Z.to_nat (f / 8)) eqn:Hb; [done|].
  apply lookup_ge_None in Hb. pose proof (Z.mul_div_le f 8). assert (f / 8 < Z.of_nat (length (bitmap a))).
  { apply Z.div_lt_upper_bound; lia. }
  pose proof (Z.div_pos f 8). lia.
Qed.

(** Marking sets one bit, counts it, and touches no other. *)
Lemma mark_used_ok a f : frames_ok a -> 0 <= f < total_frames a ->
  exists a', mark_used f a = Ok a' /\ frames_ok a' /\ total_frames a' = total_frames a /\
    next_hint a' = next_hint a /\
    (forall g, 0 <= g -> used_at a' g = bool_decide (g = f) || used_at a g) /\
    used_frames a' = used_frames a + (if used_at a f then 0 else 1).
Proof.
  intros Hok Hf. unfold mark_used. destruct (_ >=? _) eqn:Hc; [apply Z.geb_le in Hc; lia|].
  rewrite is_used_ok by done. cbn [mbind result_bind]. destruct (used_at a f) eqn:Hu.
  - exists a. repeat (split; [done|]). split; [|lia]. intros g Hg. case_bool_decide; subst; done.
  - eexists. split; [done|]. pose proof Hok as [Ht Hcnt Hh].
    assert (Hget : forall g, 0 <= g -> bm_get (bm_set (bitmap a) f) g = bool_decide (g = f) || used_at a g).
    { intros g Hg. rewrite bm_get_set by lia. f_equal. apply bool_decide_ext. naive_solver. }
    split; [|repeat (split; [done|]); simpl; done]. split; simpl; [by rewrite length_bm_set| |done].
    unfold used_at at 1. simpl. rewrite Hcnt. symmetry.
    assert (Hext : count_used (bm_get (bm_set (bitmap a) f)) (total_frames a)
                   = count_used (fun g => bool_decide (g = f) || used_at a g) (total_frames a)).
    { unfold count_used. f_equal. apply count_ext. intros g Hg%elem_of_seqZ. apply Hget. lia. }
    etrans; [exact Hext|]. apply (count_used_set _ _ _ f); [lia|done|by rewrite bool_decide_true|].
    intros g Hg. by rewrite bool_decide_false.
Qed.

Lemma mark_free_ok a f : frames_ok a -> 0 <= f < total_frames a ->
  exists a', mark_free f a = Ok a' /\ frames_ok a' /\ total_frames a' = total_frames a /\
    next_hint a' = next_hint a /\
    (forall g, 0 <= g -> used_at a' g = negb (bool_decide (g = f)) && used_at a g) /\
    used_frames a' = used_frames a - (if used_at a f then 1 else 0).
Proof.
  intros Hok Hf. unfold mark_free. destruct (_ >=? _) eqn:Hc; [apply Z.geb_le in Hc; lia|].
  rewrite is_used_ok by done. cbn [mbind result_bind]. destruct (used_at a f) eqn:Hu; cbn [negb].
  - pose proof Hok as [Ht Hcnt Hh].
    assert (Hget : forall g, 0 <= g -> bm_get (bm_clear (bitmap a) f) g = negb (bool_decide (g = f)) && used_at a g).
    { intros g Hg. rewrite bm_get_clear by lia. do 2 f_equal. apply bool_decide_ext. naive_solver. }
    assert (Hone : count_used (used_at a) (total_frames a) =
                   count_used (bm_get (bm_clear (bitmap a) f)) (total_frames a) + 1).
    { assert (Hext : count_used (bm_get (bm_clear (bitmap a) f)) (total_frames a)
                     = count_used (fun g => negb (bool_decide (g = f)) && used_at a g) (total_frames a)).
      { unfold count_used. f_equal. apply count_ext. intros g Hg%elem_of_seqZ. apply Hget. lia. }
      rewrite Hext. apply (count_used_set _ _ _ f); [lia|by rewrite bool_decide_true|done|].
      intros g Hg. by rewrite bool_decide_false. }
    pose proof (count_used_range (bm_get (bm_clear (bitmap a) f)) (total_frames a) ltac:(lia)).
    destruct (_ <? 1) eqn:H1; [lia|]. eexists. split; [done|]. split; [|repeat (split; [done|]); simpl; lia || done].
    split; simpl; [by rewrite length_bm_clear|change (used_frames a - 1 = count_used (bm_get (bm_clear (bitmap a) f)) (total_frames a)); lia|done].
  - exists a. repeat (split; [done|]). split; [|lia]. intros g Hg. case_bool_decide; subst; simpl; done.
Qed.

(** Out of range, nothing happens. *)
Lemma mark_beyond a f : total_frames a <= f -> mark_used f a = Ok a /\ mark_free f a = Ok a.
Proof. intros Hf. unfold mark_used, mark_free. by rewrite (proj2 (Z.geb_le _ _)). Qed.

Lemma find_frame_spec u a n : forall from, frames_ok a -> 0 <= from -> from + Z.of_nat n <= total_frames a ->
  exists r, find_frame u a from n = Ok r /\
    match r with
    | Some f => from <= f < from + Z.of_nat n /\ used_at a f = u /\ forall g, from <= g < f -> used_at a g = negb u
    | None => forall g, from <= g < from + Z.of_nat n -> used_at a g = negb u
    end.
Proof.
  induction n as [|n IH]; intros from Hok Hf Hn; [exists None; split; [done|lia]|].
  cbn [find_frame]. rewrite is_used_ok by (done || lia). cbn [mbind result_bind].
  destruct (Bool.eqb (used_at a from) u) eqn:He.
  - apply Bool.eqb_prop in He. exists (Some from). split; [done|]. split; [lia|]. split; [done|lia].
  - assert (Hne : used_at a from = negb u) by (by destruct (used_at a from), u).
    destruct (IH (from + 1)) as (r & -> & Hr); [done|lia|lia|]. exists r. split; [done|]. destruct r as [f|].
    + destruct Hr as (Hf' & Hu & Hg). split; [lia|]. split; [done|]. intros g Hg'.
      destruct (decide (g = from)) as [->|]; [done|]. apply Hg. lia.
    + intros g Hg'. destruct (decide (g = from)) as [->|]; [done|]. apply Hr. lia.
Qed.

(** ** One frame at a time *)

(** a frame that is handed out was free, is in range and is marked; the others
    keep their state and the count follows; none is handed out only when every
    frame is in use, however the hint stands. *)
Theorem allocate_sound a :
  frames_ok a ->
  match allocate a with
  | Ok (Some address, a') => exists f, address = frame_at f /\ 0 <= f < total_frames a /\
      used_at a f = false /\ frames_ok a' /\ used_frames a' = used_frames a + 1 /\
      total_frames a' = total_frames a /\
      forall g, 0 <= g -> used_at a' g = bool_decide (g = f) || used_at a g
  | Ok (None, a') => a' = a /\ free_frames a = 0 /\ forall f, 0 <= f < total_frames a -> used_at a f = true
  | _ => False
  end.
Proof.
  intros Hok. pose proof Hok as [Ht Hcnt Hh]. unfold allocate, find_free.
  assert (Hfind : forall from to, 0 <= from -> exists r,
    find_frame false a from (Z.to_nat (Z.min to (total_frames a) - from)) = Ok r /\
    match r with
    | Some f => 0 <= f < total_frames a /\ used_at a f = false
    | None => forall g, from <= g < Z.min to (total_frames a) -> used_at a g = true
    end).
  { intros from to Hfrom. destruct (Z.le_gt_cases (Z.min to (total_frames a)) from) as [Hle|Hgt].
    - replace (Z.to_nat _) with 0%nat by lia. exists None. split; [done|lia].
    - destruct (find_frame_spec false a (Z.to_nat (Z.min to (total_frames a) - from)) from) as (r & -> & Hr); [done|lia|lia|].
      exists r. split; [done|]. destruct r as [f|]; [split; [lia|tauto]|]. intros g Hg. apply Hr. lia. }
  assert (Hsome : forall f, 0 <= f < total_frames a -> used_at a f = false ->
    match (a' ← mark_used f a; mret (Some (frame_at f), set_hint a' (f + 1)) : partial (option Z * BitmapFrameAllocator)) with
    | Ok (Some address, a') => exists f, address = frame_at f /\ 0 <= f < total_frames a /\
        used_at a f = false /\ frames_ok a' /\ used_frames a' = used_frames a + 1 /\
        total_frames a' = total_frames a /\
        forall g, 0 <= g -> used_at a' g = bool_decide (g = f) || used_at a g
    | _ => False
    end).
  { intros f Hf Hu. destruct (mark_used_ok a f Hok Hf) as (a' & -> & Hok' & Htot & _ & Hget & Hused).
    cbn [mbind result_bind]. simpl. exists f. rewrite Hu in Hused. split; [done|]. split; [done|]. split; [done|].
    split; [|by repeat split]. destruct Hok'. split; simpl; [done|done|lia]. }
  destruct (Hfind (next_hint a) (total_frames a) Hh) as (r & -> & Hr). cbn [mbind result_bind].
  destruct r as [f|].
  { cbn [mbind result_bind]. specialize (Hsome f ltac:(tauto) ltac:(tauto)).
    destruct (a' ← mark_used f a; _) as [[[?|] ?]|?|]; done. }
  destruct (Hfind 0 (next_hint a) ltac:(lia)) as (r2 & -> & Hr2). cbn [mbind result_bind].
  destruct r2 as [f|].
  { specialize (Hsome f ltac:(tauto) ltac:(tauto)). destruct (a' ← mark_used f a; _) as [[[?|] ?]|?|]; done. }
  assert (Hall : forall f, 0 <= f < total_frames a -> used_at a f = true).
  { intros f Hf. destruct (Z.lt_ge_cases f (next_hint a)); [apply Hr2|apply Hr]; lia. }
  split; [done|]. split; [|done]. unfold free_frames. rewrite Hcnt. unfold count_used.
  rewrite filter_all; [rewrite length_seqZ; lia|]. apply Forall_seqZ. intros f Hf. apply Hall. lia.
Qed.

(** giving back a frame that was handed out makes it free again and nothing
    else; giving back one that is free is caught. *)
Theorem deallocate_sound a f :
  frames_ok a -> 0 <= f < total_frames a ->
  match deallocate (frame_at f) a with
  | Ok a' => used_at a f = true /\ frames_ok a' /\ used_frames a' = used_frames a - 1 /\
      total_frames a' = total_frames a /\
      forall g, 0 <= g -> used_at a' g = negb (bool_decide (g = f)) && used_at a g
  | Panic => used_at a f = false
  | Err _ => False
  end.
Proof.
  intros Hok Hf. unfold deallocate, frame_at, PAGE_SIZE. rewrite Z.div_mul by lia. cbv zeta.
  rewrite is_used_ok by done. cbn [mbind result_bind]. destruct (used_at a f) eqn:Hu; cbn [negb]; [|done].
  destruct (mark_free_ok a f Hok Hf) as (a' & -> & Hok' & Htot & Hhint & Hget & Hused).
  cbn [mbind result_bind]. rewrite Hu in Hused. split; [done|]. split; [|by repeat split].
  destruct Hok'. pose proof (fo_hint _ Hok). split; simpl; [done|done|lia].
Qed.

(** ** Runs of frames *)

Lemma each_mark_used a n : forall from, frames_ok a -> 0 <= from ->
  exists a', each_frame mark_used from n a = Ok a' /\ frames_ok a' /\ total_frames a' = total_frames a /\
    next_hint a' = next_hint a /\
    forall g, 0 <= g -> used_at a' g =
      bool_decide (from <= g < from + Z.of_nat n /\ g < total_frames a) || used_at a g.
Proof.
  revert a. induction n as [|n IH]; intros a from Hok Hf.
  { exists a. repeat (split; [done|]). intros g Hg. rewrite bool_decide_false by lia. done. }
  cbn [each_frame].
  assert (Hstep : exists a1, mark_used from a = Ok a1 /\ frames_ok a1 /\ total_frames a1 = total_frames a /\
    next_hint a1 = next_hint a /\
    forall g, 0 <= g -> used_at a1 g = bool_decide (g = from /\ g < total_frames a) || used_at a g).
  { destruct (Z.lt_ge_cases from (total_frames a)).
    - destruct (mark_used_ok a from Hok) as (a1 & H1 & H2 & H3 & H4 & H5 & _); [lia|].
      exists a1. repeat (split; [done|]). intros g Hg. rewrite H5 by done. f_equal. apply bool_decide_ext. lia.
    - destruct (mark_beyond a from) as [H1 _]; [lia|]. exists a. repeat (split; [done|]).
      intros g Hg. rewrite bool_decide_false by lia. done. }
  destruct Hstep as (a1 & -> & Hok1 & Ht1 & Hh1 & Hg1). cbn [mbind result_bind].
  destruct (IH a1 (from + 1) Hok1 ltac:(lia)) as (a2 & -> & Hok2 & Ht2 & Hh2 & Hg2).
  exists a2. split; [done|]. split; [done|]. split; [congruence|]. split; [congruence|].
  intros g Hg. rewrite Hg2, Hg1, orb_assoc, Ht1 by done. f_equal.
  repeat case_bool_decide; simpl; try done; lia.
Qed.

Lemma contiguous_spec count a : frames_ok a -> 0 < count -> total_frames a + count <= U64_MAX ->
  forall fuel start, 0 <= start <= total_frames a -> total_frames a - start < Z.of_nat fuel ->
  (forall s, 0 <= s < start -> s + count <= total_frames a ->
     exists f, s <= f < s + count /\ used_at a f = true) ->
  match contiguous_from fuel start count a with
  | Ok (Some address, a') => exists s, address = frame_at s /\ 0 <= s /\ s + count <= total_frames a /\
      (forall f, s <= f < s + count -> used_at a f = false) /\ frames_ok a' /\ total_frames a' = total_frames a /\
      forall g, 0 <= g -> used_at a' g = bool_decide (s <= g < s + count) || used_at a g
  | Ok (None, a') => a' = a /\ forall s, 0 <= s -> s + count <= total_frames a ->
      exists f, s <= f < s + count /\ used_at a f = true
  | _ => False
  end.
Proof.
  intros Hok Hc Hmax. induction fuel as [|fuel IH]; intros start Hs Hfuel Hpre.
  { split; [done|]. intros s Hs0 Hs1. apply Hpre; lia. }
  cbn [contiguous_from]. destruct (U64_MAX <? start + count) eqn:Hov; [lia|].
  destruct (start + count <=? total_frames a) eqn:Hle.
  - apply Z.leb_le in Hle. destruct (find_frame_spec true a (Z.to_nat count) start Hok (proj1 Hs)) as (r & -> & Hr); [lia|].
    cbn [mbind result_bind]. rewrite Z2Nat.id in Hr by lia. destruct r as [blocked|].
    + destruct Hr as (Hb & Hub & _). apply IH; [lia|lia|]. intros s Hs0 Hs1.
      destruct (Z.lt_ge_cases s start); [apply Hpre; lia|]. exists blocked. split; [lia|done].
    + destruct (each_mark_used a (Z.to_nat count) start Hok (proj1 Hs)) as (a' & -> & Hok' & Ht' & _ & Hg').
      cbn [mbind result_bind]. simpl. exists start. split; [done|]. split; [lia|]. split; [done|].
      split; [exact Hr|]. split; [done|]. split; [done|]. intros g Hg. rewrite Hg', Z2Nat.id by lia. f_equal.
      apply bool_decide_ext. lia.
  - apply Z.leb_gt in Hle. split; [done|]. intros s Hs0 Hs1. apply Hpre; lia.
Qed.

(** a contiguous request gets a run of frames that were all free, and is refused
    only when there is no such run: skipping past each obstacle misses none. *)
Theorem allocate_contiguous_sound a count :
  frames_ok a -> 0 < count -> total_frames a + count <= U64_MAX ->
  match allocate_contiguous count a with
  | Ok (Some address, a') => exists s, address = frame_at s /\ 0 <= s /\ s + count <= total_frames a /\
      (forall f, s <= f < s + count -> used_at a f = false) /\ frames_ok a' /\ total_frames a' = total_frames a /\
      forall g, 0 <= g -> used_at a' g = bool_decide (s <= g < s + count) || used_at a g
  | Ok (None, a') => a' = a /\ forall s, 0 <= s -> s + count <= total_frames a ->
      exists f, s <= f < s + count /\ used_at a f = true
  | _ => False
  end.
Proof.
  intros Hok Hc Hmax. unfold allocate_contiguous. destruct (count =? 0) eqn:H0; [lia|].
  pose proof (fo_total _ Hok). apply contiguous_spec; [done|done|done|lia|lia|]. lia.
Qed.

(** ** Start-up *)

Lemma each_mark_free a n : forall from, frames_ok a -> 0 <= from ->
  exists a', each_frame mark_free from n a = Ok a' /\ frames_ok a' /\ total_frames a' = total_frames a /\
    next_hint a' = next_hint a /\
    forall g, 0 <= g -> used_at a' g =
      negb (bool_decide (from <= g < from + Z.of_nat n /\ g < total_frames a)) && used_at a g.
Proof.
  revert a. induction n as [|n IH]; intros a from Hok Hf.
  { exists a. repeat (split; [done|]). intros g Hg. rewrite bool_decide_false by lia. done. }
  cbn [each_frame].
  assert (Hstep : exists a1, mark_free from a = Ok a1 /\ frames_ok a1 /\ total_frames a1 = total_frames a /\
    next_hint a1 = next_hint a /\
    forall g, 0 <= g -> used_at a1 g = negb (bool_decide (g = from /\ g < total_frames a)) && used_at a g).
  { destruct (Z.lt_ge_cases from (total_frames a)).
    - destruct (mark_free_ok a from Hok) as (a1 & H1 & H2 & H3 & H4 & H5 & _); [lia|].
      exists a1. repeat (split; [done|]). intros g Hg. rewrite H5 by done. do 2 f_equal. apply bool_decide_ext. lia.
    - destruct (mark_beyond a from) as [_ H1]; [lia|]. exists a. repeat (split; [done|]).
      intros g Hg. rewrite bool_decide_false by lia. done. }
  destruct Hstep as (a1 & -> & Hok1 & Ht1 & Hh1 & Hg1). cbn [mbind result_bind].
  destruct (IH a1 (from + 1) Hok1 ltac:(lia)) as (a2 & -> & Hok2 & Ht2 & Hh2 & Hg2).
  exists a2. split; [done|]. split; [done|]. split; [congruence|]. split; [congruence|].
  intros g Hg. rewrite Hg2, Hg1, andb_assoc, Ht1 by done. f_equal.
  repeat case_bool_decide; simpl; try done; lia.
Qed.

(** Frame [g] lies entirely inside the region. *)
Definition inside (r : MemoryRegion) (g : Z) : Prop :=
  r_start r <= frame_at g /\ frame_at (g + 1) <= r_end r.
#[global] Instance inside_dec r g : Decision (inside r g) := _.

Lemma release_regions_ok rs : Forall (fun r => 0 <= r_start r) rs -> forall a, frames_ok a ->
  exists a', release_regions rs a = Ok a' /\ frames_ok a' /\ total_frames a' = total_frames a /\
    next_hint a' = next_hint a /\
    forall g, 0 <= g < total_frames a -> used_at a' g =
      negb (bool_decide (Exists (fun r => inside r g) rs)) && used_at a g.
Proof.
  induction 1 as [|r rs Hr Hrs IH]; intros a Hok.
  { exists a. repeat (split; [done|]). intros g Hg. rewrite bool_decide_false by (intros Hx; inversion Hx). done. }
  cbn [release_regions]. unfold release_region.
  set (first := div_ceil (r_start r) PAGE_SIZE).
  assert (0 <= first) by (apply div_ceil_nonneg; unfold PAGE_SIZE; lia).
  destruct (each_mark_free a (Z.to_nat (r_end r / PAGE_SIZE - first)) first Hok) as (a1 & -> & Hok1 & Ht1 & Hh1 & Hg1); [done|].
  cbn [mbind result_bind]. destruct (IH a1 Hok1) as (a2 & -> & Hok2 & Ht2 & Hh2 & Hg2).
  exists a2. split; [done|]. split; [done|]. split; [congruence|]. split; [congruence|].
  intros g Hg. rewrite Hg2, Hg1, andb_assoc by lia. f_equal. rewrite <-negb_orb. f_equal.
  rewrite <-bool_decide_or. apply bool_decide_ext. rewrite Exists_cons.
  assert (Hin : first <= g < first + Z.of_nat (Z.to_nat (r_end r / PAGE_SIZE - first)) /\ g < total_frames a
                <-> inside r g); [|tauto].
  unfold inside, frame_at. rewrite <-(div_ceil_le (r_start r) PAGE_SIZE g) by (unfold PAGE_SIZE; lia). fold first.
  assert (g + 1 <= r_end r / PAGE_SIZE <-> (g + 1) * PAGE_SIZE <= r_end r); [|lia].
  unfold PAGE_SIZE. split; intros Hd.
  - pose proof (Z.mul_div_le (r_end r) 4096). lia.
  - apply Z.div_le_lower_bound; lia.
Qed.

Lemma all_used total :
  0 <= total ->
  frames_ok {| bitmap := replicate (Z.to_nat (div_ceil total 8)) 255; total_frames := total;
               used_frames := total; next_hint := 0 |} /\
  forall g, 0 <= g < total -> bm_get (replicate (Z.to_nat (div_ceil total 8)) 255) g = true.
Proof.
  intros Ht. assert (Hlen : total <= 8 * div_ceil total 8) by (pose proof (proj1 (div_ceil_le total 8 (div_ceil total 8) ltac:(lia))); lia).
  pose proof (div_ceil_nonneg total 8 Ht ltac:(lia)).
  assert (Hget : forall g, 0 <= g < total -> bm_get (replicate (Z.to_nat (div_ceil total 8)) 255) g = true).
  { intros g Hg. rewrite bm_get_testbit by lia. pose proof (Z.div_pos g 8).
    assert (g / 8 < div_ceil total 8) by (apply Z.div_lt_upper_bound; lia).
    rewrite lookup_replicate_2 by lia. apply testbit_255, Z.mod_pos_bound. lia. }
  split; [|done]. split; simpl; [rewrite length_replicate; lia| |done].
  unfold count_used, used_at. simpl. rewrite filter_all; [rewrite length_seqZ; lia|].
  apply Forall_seqZ. intros g Hg. apply Hget. lia.
Qed.

Lemma largest_elem rs : forall acc host,
  fold_left (fun best r =>
    match best with
    | None => Some r
    | Some b => if r_end b - r_start b <=? r_end r - r_start r then Some r else Some b
    end) rs acc = Some host -> acc = Some host \/ host ∈ rs.
Proof.
  induction rs as [|r rs IH]; intros acc host; simpl; [by left|]. intros [He|He]%IH; [|right; by right].
  destruct acc as [b|]; [destruct (_ <=? _)|]; simplify_eq; auto using list_elem_of_here.
Qed.

Lemma fold_max_nonneg rs : forall m, 0 <= m -> 0 <= fold_left (fun m r => Z.max m (r_end r)) rs m.
Proof. induction rs as [|r rs IH]; intros m Hm; simpl; [done|]. apply IH. lia. Qed.

(** A frame outside the frames of a byte range does not meet the range. *)
Lemma frame_outside start bytes g : 0 <= start -> 0 <= bytes ->
  (frame_at (g + 1) <= start \/ start + bytes <= frame_at g) <->
  ~ (start / PAGE_SIZE <= g < div_ceil (start + bytes) PAGE_SIZE).
Proof.
  intros Hs Hb. unfold frame_at. rewrite <-(div_ceil_le (start + bytes) PAGE_SIZE g) by (unfold PAGE_SIZE; lia).
  assert ((g + 1) * PAGE_SIZE <= start <-> g < start / PAGE_SIZE); [|lia].
  unfold PAGE_SIZE. split; intros Hd.
  - enough (g + 1 <= start / 4096) by lia. apply Z.div_le_lower_bound; lia.
  - pose proof (Z.mul_div_le start 4096). lia.
Qed.


(** ** A small machine *)

Module FrameRuns.

Definition machine : list MemoryRegion :=
  [ {| r_start := 0; r_end := 651264; r_kind := Usable |};
    {| r_start := 651264; r_end := 1048576; r_kind := Reserved |};
    {| r_start := 1048577; r_end := 1082000; r_kind := Usable |} ].

Definition booted : BitmapFrameAllocator :=
  match init machine with
  | Ok a => a
  | _ => {| bitmap := []; total_frames := 0; used_frames := 0; next_hint := 0 |}
  end.

Lemma machine_frames_ok : frames_ok booted.
Proof. split; vm_compute; [split; discriminate|reflexivity|discriminate]. Qed.


Lemma allocate_sound_witness :
  exists address a', allocate booted = Ok (Some address, a') /\ address = 1052672 /\ used_at a' 257 = true.
Proof.
  pose proof (allocate_sound booted machine_frames_ok) as H.
  assert (Hx : exists a', allocate booted = Ok (Some 1052672, a')) by (eexists; vm_compute; reflexivity).
  destruct Hx as [a' Hx]. rewrite Hx in H. destruct H as (f & Hf & _ & _ & _ & _ & _ & Hg).
  exists 1052672, a'. split; [exact Hx|]. split; [reflexivity|]. rewrite Hg by lia.
  assert (f = 257) as -> by (unfold frame_at, PAGE_SIZE in Hf; lia). reflexivity.
Defined.

Lemma deallocate_sound_witness :
  exists a', deallocate (frame_at 0) booted = Ok a' /\ used_frames a' = used_frames booted - 1.
Proof.
  pose proof (deallocate_sound booted 0 machine_frames_ok ltac:(vm_compute; split; [discriminate|reflexivity])) as H.
  assert (Hx : exists a', deallocate (frame_at 0) booted = Ok a') by (eexists; vm_compute; reflexivity).
  destruct Hx as [a' Hx]. rewrite Hx in H. destruct H as (_ & _ & Hu & _).
  exists a'. split; [exact Hx|exact Hu].
Defined.

Lemma allocate_contiguous_sound_witness :
  exists a', allocate_contiguous 3 booted = Ok (Some (frame_at 257), a') /\ frames_ok a'.
Proof.
  pose proof (allocate_contiguous_sound booted 3 machine_frames_ok ltac:(lia) ltac:(vm_compute; discriminate)) as H.
  assert (Hx : exists a', allocate_contiguous 3 booted = Ok (Some (frame_at 257), a'))
    by (eexists; vm_compute; reflexivity).
  destruct Hx as [a' Hx]. rewrite Hx in H. destruct H as (s & _ & _ & _ & _ & Hok & _).
  exists a'. split; [exact Hx|exact Hok].
Defined.

End FrameRuns.
