(* ===== verification/Quota.v ===== *)
(** * Per-process limits and error codes (kernel/src/quota.rs, kernel/src/syscall.rs)

    What one thread may hold at once, who may say so, and the errors a system call
    returns. *)

From stdpp Require Import base list gmap numbers.
From Stdlib Require Import Lia.
From S2P Require Import Prelude Block FsLayout.

(** ** Errors *)

Inductive Error : Type :=
| UnknownCall | BadPointer | NoCapability | QueueFull | NoSuchEndpoint | InvalidArgument | OutOfMemory
| QuotaExceeded | NoFileSystem | ErrNotFound | AlreadyExists | NoSpace | ErrWrongType | ErrNotEmpty
| PermissionDenied.
#[global] Instance Error_eq_dec : EqDecision Error.
Proof. solve_decision. Defined.

(** [error as i64] *)
Definition Error_code (e : Error) : Z :=
  match e with
  | UnknownCall => -1 | BadPointer => -2 | NoCapability => -3 | QueueFull => -4 | NoSuchEndpoint => -5
  | InvalidArgument => -6 | OutOfMemory => -7 | QuotaExceeded => -8 | NoFileSystem => -9 | ErrNotFound => -10
  | AlreadyExists => -11 | NoSpace => -12 | ErrWrongType => -13 | ErrNotEmpty => -14 | PermissionDenied => -15
  end.

Definition Error_of_FsError (e : FsError) : Error :=
  match e with
  | NotFound => ErrNotFound
  | Exists => AlreadyExists
  | Full | TooLarge => NoSpace
  | WrongType => ErrWrongType
  | NotEmpty => ErrNotEmpty
  | Denied => PermissionDenied
  | BadName => InvalidArgument
  | Device _ | Corrupt | NotFormatted | WrongVersion => NoFileSystem
  end.

(** ** Quotas *)

Record Quota : Type := {
  q_endpoints : Z;
  q_capabilities : Z;
  q_buffers : Z;
  q_buffer_bytes : Z;
}.

Definition QUOTA_DEFAULT : Quota :=
  {| q_endpoints := 32; q_capabilities := 128; q_buffers := 16; q_buffer_bytes := 64 * 1024 * 1024 |}.
Definition QUOTA_NOTHING : Quota :=
  {| q_endpoints := 0; q_capabilities := 0; q_buffers := 0; q_buffer_bytes := 0 |}.

Definition narrow_to (self requested : Quota) : Quota :=
  {| q_endpoints := Z.min (q_endpoints requested) (q_endpoints self);
     q_capabilities := Z.min (q_capabilities requested) (q_capabilities self);
     q_buffers := Z.min (q_buffers requested) (q_buffers self);
     q_buffer_bytes := Z.min (q_buffer_bytes requested) (q_buffer_bytes self) |}.

(** [ASSIGNED], the threads with a quota of their own. *)
Abbreviation assignments := (list (nat * Quota)).

Fixpoint assigned_to (thread : nat) (l : assignments) : option Quota :=
  match l with
  | [] => None
  | (id, q) :: rest => if decide (id = thread) then Some q else assigned_to thread rest
  end.

Definition quota_of (l : assignments) (thread : nat) : Quota :=
  match assigned_to thread l with Some q => q | None => QUOTA_DEFAULT end.

(** [iter_mut().find(..)] and assign, or push. *)
Fixpoint assign_quota (target : nat) (q : Quota) (l : assignments) : assignments :=
  match l with
  | [] => [(target, q)]
  | (id, old) :: rest => if decide (id = target) then (id, q) :: rest else (id, old) :: assign_quota target q rest
  end.

Definition quota_grant (granter target : nat) (requested : Quota) (l : assignments) : Quota * assignments :=
  let allowed := narrow_to (quota_of l granter) requested in
  (allowed, assign_quota target allowed l).

Definition quota_release (thread : nat) (l : assignments) : assignments :=
  filter (fun e => fst e <> thread) l.

(** ** What the limits promise *)

Record quota_le (a b : Quota) : Prop := {
  ql_endpoints : q_endpoints a <= q_endpoints b;
  ql_capabilities : q_capabilities a <= q_capabilities b;
  ql_buffers : q_buffers a <= q_buffers b;
  ql_buffer_bytes : q_buffer_bytes a <= q_buffer_bytes b;
}.

#[global] Instance quota_le_preorder : PreOrder quota_le.
Proof. split; [intros a; split; lia|]. intros a b c [] []. split; lia. Qed.

Lemma narrow_le self requested : quota_le (narrow_to self requested) self /\ quota_le (narrow_to self requested) requested.
Proof. split; split; simpl; lia. Qed.

Lemma assigned_assign target q l t :
  assigned_to t (assign_quota target q l) = if decide (t = target) then Some q else assigned_to t l.
Proof.
  induction l as [|[id old] l IH]; simpl; [repeat case_decide; congruence|].
  destruct (decide (id = target)); simpl; rewrite ?IH; repeat case_decide; congruence.
Qed.

Lemma quota_of_assign target q l t :
  quota_of (assign_quota target q l) t = if decide (t = target) then q else quota_of l t.
Proof. unfold quota_of. rewrite assigned_assign. by case_decide. Qed.

Lemma quota_of_release thread l t :
  quota_of (quota_release thread l) t = if decide (t = thread) then QUOTA_DEFAULT else quota_of l t.
Proof.
  unfold quota_of, quota_release. induction l as [|[id q] l IH]; simpl; [by case_decide|].
  rewrite filter_cons. simpl. destruct (decide (id = thread)) as [->|Hne].
  - rewrite decide_False by tauto. rewrite IH. destruct (decide (t = thread)); [done|].
    by rewrite decide_False by congruence.
  - rewrite decide_True by done. simpl. destruct (decide (id = t)) as [->|]; [by rewrite decide_False|exact IH].
Qed.

(** What can happen to the assignments. *)
Inductive quota_step : assignments -> assignments -> Prop :=
| qs_grant l granter target requested : quota_step l (snd (quota_grant granter target requested l))
| qs_release l thread : quota_step l (quota_release thread l).

(** Everything descends from the default. *)
Definition within_default (l : assignments) : Prop := forall t, quota_le (quota_of l t) QUOTA_DEFAULT.

Lemma quota_step_default l l' : quota_step l l' -> within_default l -> within_default l'.
Proof.
  intros [l0 granter target requested|l0 thread] Hl t; simpl.
  - rewrite quota_of_assign. case_decide; [|apply Hl]. etrans; [apply (proj1 (narrow_le _ _))|apply Hl].
  - rewrite quota_of_release. case_decide; [reflexivity|apply Hl].
Qed.
