(* ===== verification/Paging.v ===== *)
(** * Page tables (kernel/src/memory/paging.rs)

    Tables of 512 entries in physical memory, reached from a level 4 frame.  The crate
    that edits single entries ([OffsetPageTable]) is not part of the repository: its
    operations are the class [Mapper], with what its documentation promises in
    [MapperLaws].  Everything the kernel writes around it is here. *)

From stdpp Require Import base list gmap numbers list_numbers.
From Stdlib Require Import Lia.
From S2P Require Import Prelude Frame.

(** ** Entries and tables *)

(** The bits of [PageTableFlags] the kernel uses. *)
Definition PRESENT : Z := 0.
Definition WRITABLE : Z := 1.
Definition USER_ACCESSIBLE : Z := 2.
Definition WRITE_THROUGH : Z := 3.
Definition NO_CACHE : Z := 4.
Definition HUGE_PAGE : Z := 7.
Definition NO_EXECUTE : Z := 63.

Definition bit (k : Z) : Z := Z.shiftl 1 k.
Definition has (flags k : Z) : bool := Z.testbit flags k.

(** What [addr()] and [flags()] read from an entry. *)
Record PageTableEntry : Type := { e_addr : Z; e_flags : Z }.
#[global] Instance PageTableEntry_eq_dec : EqDecision PageTableEntry.
Proof. solve_decision. Defined.

Definition UNUSED : PageTableEntry := {| e_addr := 0; e_flags := 0 |}.
Definition is_unused (e : PageTableEntry) : bool := (e_addr e =? 0) && (e_flags e =? 0).
Definition entry (addr flags : Z) : PageTableEntry := {| e_addr := addr; e_flags := flags |}.
Definition present (e : PageTableEntry) : bool := has (e_flags e) PRESENT.
Definition huge (e : PageTableEntry) : bool := has (e_flags e) HUGE_PAGE.

Abbreviation PageTable := (list PageTableEntry).
Abbreviation memory := (gmap Z PageTable).

Definition ENTRIES : nat := 512.

Definition table_is_empty (t : PageTable) : bool := forallb is_unused t.
Definition zero_table : PageTable := replicate ENTRIES UNUSED.

(** [p4_index] to [p1_index]: which entry of a level's table covers an address. *)
Definition index (level : nat) (va : Z) : nat := Z.to_nat ((va / 2 ^ (12 + 9 * (Z.of_nat level - 1))) mod 512).
(** How much one entry of a level's table covers. *)
Definition span (level : nat) : Z := 2 ^ (12 + 9 * (Z.of_nat level - 1)).

Definition USER_BASE : Z := 0x2000_0000_0000.
Definition USER_L4_INDEX : nat := Z.to_nat (Z.land (Z.shiftr USER_BASE 39) 0x1FF).

(** ** What the processor does with the tables *)

(** A translation: where, how large a page, the leaf's other flags, the rights the
    whole path leaves, and those the links above the leaf would allow. *)
Record Translation : Type := {
  tr_start : Z;
  tr_size : Z;
  tr_offset : Z;
  tr_attributes : Z;
  tr_writable : bool;
  tr_user : bool;
  tr_no_execute : bool;
  tr_link_writable : bool;
  tr_link_user : bool;
}.

Definition leaf (level : nat) (e : PageTableEntry) (va : Z) : Translation :=
  {| tr_start := e_addr e;
     tr_size := span level;
     tr_offset := va mod span level;
     tr_attributes := if Nat.eqb level 1 then e_flags e else Z.clearbit (e_flags e) HUGE_PAGE;
     tr_writable := has (e_flags e) WRITABLE;
     tr_user := has (e_flags e) USER_ACCESSIBLE;
     tr_no_execute := has (e_flags e) NO_EXECUTE;
     tr_link_writable := true;
     tr_link_user := true |}.

(** Read, write and Ring 3 rights are the AND of every level, [NO_EXECUTE] the OR. *)
Definition through (e : PageTableEntry) (t : Translation) : Translation :=
  {| tr_start := tr_start t;
     tr_size := tr_size t;
     tr_offset := tr_offset t;
     tr_attributes := tr_attributes t;
     tr_writable := has (e_flags e) WRITABLE && tr_writable t;
     tr_user := has (e_flags e) USER_ACCESSIBLE && tr_user t;
     tr_no_execute := has (e_flags e) NO_EXECUTE || tr_no_execute t;
     tr_link_writable := has (e_flags e) WRITABLE && tr_link_writable t;
     tr_link_user := has (e_flags e) USER_ACCESSIBLE && tr_link_user t |}.

Fixpoint walk_from (mem : memory) (level : nat) (frame va : Z) : option Translation :=
  match level with
  | O => None
  | S below =>
      table ← mem !! frame;
      e ← table !! index level va;
      if negb (present e) then None
      else if Nat.eqb level 1 then Some (leaf level e va)
      else if huge e then (if Nat.leb level 3 then Some (leaf level e va) else None)
      else through e <$> walk_from mem below (e_addr e) va
  end.

Definition walk (mem : memory) (root va : Z) : option Translation := walk_from mem 4 root va.

(** The byte an access reaches, whatever the size of the page. *)
Definition physical (t : Translation) : Z := tr_start t + tr_offset t.

(** What an access can observe: the address it reaches and the rights and memory type
    it has, but not the size of the page. *)
Definition observe (t : Translation) : Z * Z * bool * bool * bool :=
  (physical t, tr_attributes t, tr_writable t, tr_user t, tr_no_execute t).

(** ** State and the crate's mapper *)

(** What the hardware is told, and what goes back to the frame allocator, in order. *)
Inductive Effect : Type :=
| FlushLocal (page : Z)
| FlushAllLocal
| ShootPage (page : Z)
| ShootAll
| Freed (frame : Z).
#[global] Instance Effect_eq_dec : EqDecision Effect.
Proof. solve_decision. Defined.

Record Paging : Type := {
  tables : memory;
  frames : BitmapFrameAllocator;
  cr3 : Z;
  KERNEL_SPACE : option Z;
  PHYSICAL_OFFSET : option Z;
  effects : list Effect;
}.

Definition set_tables (s : Paging) (m : memory) : Paging :=
  {| tables := m; frames := frames s; cr3 := cr3 s; KERNEL_SPACE := KERNEL_SPACE s;
     PHYSICAL_OFFSET := PHYSICAL_OFFSET s; effects := effects s |}.
Definition set_allocator (s : Paging) (a : BitmapFrameAllocator) : Paging :=
  {| tables := tables s; frames := a; cr3 := cr3 s; KERNEL_SPACE := KERNEL_SPACE s;
     PHYSICAL_OFFSET := PHYSICAL_OFFSET s; effects := effects s |}.
Definition set_cr3 (s : Paging) (root : Z) : Paging :=
  {| tables := tables s; frames := frames s; cr3 := root; KERNEL_SPACE := KERNEL_SPACE s;
     PHYSICAL_OFFSET := PHYSICAL_OFFSET s; effects := effects s |}.
Definition add_effect (s : Paging) (e : Effect) : Paging :=
  {| tables := tables s; frames := frames s; cr3 := cr3 s; KERNEL_SPACE := KERNEL_SPACE s;
     PHYSICAL_OFFSET := PHYSICAL_OFFSET s; effects := effects s ++ [e] |}.

Inductive MapToError : Type := FrameAllocationFailed | PageAlreadyMapped | ParentEntryHugePage.
Inductive UnmapError : Type := UnmapParentHuge | PageNotMapped | InvalidFrameAddress.
Inductive FlagUpdateError : Type := FlagPageNotMapped | FlagParentHuge.
Inductive TranslateResult : Type :=
| Mapped (frame size offset flags : Z)
| NotMapped.

(** [OffsetPageTable] over the tables under a level 4 frame.  [map_to] takes frames for
    the tables it creates, and keeps them when it fails later. *)
Class Mapper : Type := {
  map_to : memory -> BitmapFrameAllocator -> Z -> Z -> Z -> Z ->
           result MapToError unit * (memory * BitmapFrameAllocator);
  unmap_page : memory -> Z -> Z -> result UnmapError (memory * Z);
  update_flags : memory -> Z -> Z -> Z -> result FlagUpdateError memory;
  mapper_translate : memory -> Z -> Z -> TranslateResult;
}.

(** ** The code's own operations *)

Inductive MapError : Type := OutOfFrames | AlreadyMapped | HugePageInTheWay.
Inductive SplitError : Type := SplitNotMapped | SplitOutOfFrames.

Definition MapError_from (e : MapToError) : MapError :=
  match e with
  | FrameAllocationFailed => OutOfFrames
  | PageAlreadyMapped => AlreadyMapped
  | ParentEntryHugePage => HugePageInTheWay
  end.

(** [Page::containing_address] *)
Definition page_at (address : Z) : Z := address - address mod PAGE_SIZE.

Section Operations.
Context {E : Type}.
Abbreviation P := (M Paging E).

Definition emit (e : Effect) : P unit := modify (fun s => add_effect s e).

(** [frame::with(|allocator| allocator.allocate())] *)
Definition frame_allocate : P (option Z) := fun s =>
  match allocate (frames s) with
  | Ok (f, a) => (Ok f, set_allocator s a)
  | _ => (Panic, s)
  end.

Definition frame_deallocate (f : Z) : P unit := fun s =>
  match deallocate f (frames s) with
  | Ok a => (Ok tt, add_effect (set_allocator s a) (Freed f))
  | _ => (Panic, s)
  end.

(** A table through the physical window.  Memory that holds no table has no meaning
    here: reaching it ends the run. *)
Definition table_at (frame : Z) : P PageTable := fun s =>
  match tables s !! frame with Some t => (Ok t, s) | None => (Panic, s) end.

Definition put_table (frame : Z) (t : PageTable) : P unit := modify (fun s => set_tables s (<[frame := t]> (tables s))).

(** [table[index]]: out of range panics. *)
Definition entry_at (t : PageTable) (i : nat) : P PageTableEntry :=
  match t !! i with Some e => mret e | None => panic end.

Definition set_entry (frame : Z) (i : nat) (e : PageTableEntry) : P unit :=
  table ← table_at frame; _ ← entry_at table i; put_table frame (<[i := e]> table).

(** [entry.frame()] *)
Definition entry_frame (e : PageTableEntry) : option Z :=
  if negb (present e) then None else if huge e then None else Some (e_addr e).

Fixpoint for_each {A} (f : A -> P unit) (l : list A) : P unit :=
  match l with
  | [] => mret tt
  | x :: rest => f x ;; for_each f rest
  end.

Definition require {A} (o : option A) : P A := match o with Some a => mret a | None => panic end.

Definition kernel_space : P Z := s ← get; require (KERNEL_SPACE s).
Definition physical_offset : P Z := s ← get; require (PHYSICAL_OFFSET s).

(** *** Address spaces *)

Definition clone_kernel (source : PageTable) : PageTable :=
  imap (fun i e => if Nat.eqb i USER_L4_INDEX then UNUSED else e) source.

Definition new_user : P (option Z) :=
  s ← get;
  match PHYSICAL_OFFSET s with
  | None => mret None
  | Some _ =>
      found ← frame_allocate;
      match found with
      | None => mret None
      | Some frame =>
          source ← table_at (cr3 s);
          put_table frame (clone_kernel source) ;;
          mret (Some frame)
      end
  end.

Definition activate (space : Z) : P unit :=
  s ← get;
  if cr3 s =? space then mret tt else modify (fun s => set_cr3 s space).

Fixpoint free_table_tree (level : nat) (frame : Z) : P unit :=
  match level with
  | O => mret tt
  | S below =>
      table ← table_at frame;
      for_each (fun e =>
        if negb (present e) || huge e then mret tt
        else match entry_frame e with
             | None => mret tt
             | Some child => if Nat.ltb 1 level then free_table_tree below child else frame_deallocate child
             end) table ;;
      frame_deallocate frame
  end.

Definition release (space : Z) : P unit :=
  s ← get;
  (match PHYSICAL_OFFSET s with
   | None => mret tt
   | Some _ =>
       table ← table_at space;
       user_entry ← entry_at table USER_L4_INDEX;
       if present user_entry then
         match entry_frame user_entry with
         | Some p3 => free_table_tree 3 p3
         | None => mret tt
         end
       else mret tt
   end) ;;
  frame_deallocate space.

(** *** Reclaiming empty tables *)

(** At most one P2 and one P1. *)
Record Detached : Type := { d_p2 : option Z; d_p1 : option Z }.
Definition NONE : Detached := {| d_p2 := None; d_p1 := None |}.
Definition any (d : Detached) : bool := bool_decide (is_Some (d_p2 d)) || bool_decide (is_Some (d_p1 d)).

(** One turn of the walk down: the child an entry leads to. *)
Definition descend (current : Z) (i : nat) : P (option Z) :=
  table ← table_at current;
  e ← entry_at table i;
  if negb (present e) || huge e then mret None else mret (entry_frame e).

(** One turn of the walk up: unlink the child if nothing is left in it. *)
Definition detach (parent : Z) (i : nat) (child : Z) : P bool :=
  table ← table_at child;
  if table_is_empty table then set_entry parent i UNUSED ;; mret true else mret false.

Definition reclaim_empty_tables (space page : Z) : P Detached :=
  p3 ← descend space (index 4 page);
  match p3 with
  | None => mret NONE
  | Some p3 =>
      p2 ← descend p3 (index 3 page);
      match p2 with
      | None => mret NONE
      | Some p2 =>
          p1 ← descend p2 (index 2 page);
          match p1 with
          | None => mret NONE
          | Some p1 =>
              gone ← detach p2 (index 2 page) p1;
              if gone : bool then
                gone ← detach p3 (index 3 page) p2;
                mret {| d_p2 := if gone : bool then Some p2 else None; d_p1 := Some p1 |}
              else mret NONE
          end
      end
  end.

Definition Detached_free (d : Detached) : P unit :=
  match d_p2 d with Some t => frame_deallocate t | None => mret tt end ;;
  match d_p1 d with Some t => frame_deallocate t | None => mret tt end.

Definition reclaim_tables_for (space page : Z) : P Detached :=
  s ← get;
  match PHYSICAL_OFFSET s with
  | None => mret NONE
  | Some _ =>
      detached ← reclaim_empty_tables space page;
      (if any detached then emit FlushAllLocal else mret tt) ;;
      mret detached
  end.

Definition shoot_down_if_shared (space page : Z) : P unit :=
  s ← get; if bool_decide (KERNEL_SPACE s = Some space) then emit (ShootPage page) else mret tt.

Definition shoot_down_all_if_shared (space : Z) : P unit :=
  s ← get; if bool_decide (KERNEL_SPACE s = Some space) then emit ShootAll else mret tt.

Definition shoot_down_and_free (space page : Z) (detached : Detached) : P unit :=
  (if any detached then shoot_down_all_if_shared space else shoot_down_if_shared space page) ;;
  Detached_free detached.

End Operations.

Section WithMapper.
Context `{Mapper}.

(** [with_space]: the mapper over a space's tables; the window must be set up. *)
Definition with_space {E A} (f : M Paging E A) : M Paging E A :=
  s ← get; _ ← require (PHYSICAL_OFFSET s); f.

(** [mapper.map_to(page, target, flags, allocator)] then [flush.flush()] *)
Definition mapper_map_to (space page target flags : Z) : M Paging MapError unit := fun s =>
  match map_to (tables s) (frames s) space page target flags with
  | (Ok tt, (m, a)) => (Ok tt, add_effect (set_allocator (set_tables s m) a) (FlushLocal page))
  | (Err e, (m, a)) => (Err (MapError_from e), set_allocator (set_tables s m) a)
  | (Panic, (m, a)) => (Panic, set_allocator (set_tables s m) a)
  end.

(** Map the frame just taken, or give it back. *)
Definition map_or_return (space page target flags : Z) : M Paging MapError Z := fun s =>
  match mapper_map_to space page target flags s with
  | (Ok tt, s') => (Ok target, s')
  | (Err e, s') => (frame_deallocate target ;; fail e) s'
  | (Panic, s') => (Panic, s')
  end.

Definition map_in (space page flags : Z) : M Paging MapError Z :=
  with_space (
    found ← frame_allocate;
    match found with
    | None => fail OutOfFrames
    | Some target => map_or_return space page target flags
    end).

(** [map]: the same in the space that is loaded. *)
Definition map (page flags : Z) : M Paging MapError Z := s ← get; map_in (cr3 s) page flags.

Definition map_to_frame_in (space page target flags : Z) : M Paging MapError unit :=
  with_space (mapper_map_to space page target flags).

Definition map_to_frame (page target flags : Z) : M Paging MapError unit :=
  s ← get; map_to_frame_in (cr3 s) page target flags.

(** [mapper.unmap(page)] then [flush.flush()] *)
Definition mapper_unmap (space page : Z) : M Paging UnmapError Z := fun s =>
  match unmap_page (tables s) space page with
  | Ok (m, frame) => (Ok frame, add_effect (set_tables s m) (FlushLocal page))
  | Err e => (Err e, s)
  | Panic => (Panic, s)
  end.

Definition unmap_in (space page : Z) : M Paging UnmapError Z :=
  frame ← with_space (mapper_unmap space page);
  detached ← reclaim_tables_for space page;
  shoot_down_and_free space page detached ;;
  mret frame.

Definition unmap (page : Z) : M Paging UnmapError Z := s ← get; unmap_in (cr3 s) page.

Definition unmap_and_free_in (space page : Z) : M Paging UnmapError unit :=
  released ← unmap_in space page; frame_deallocate released.

Definition unmap_and_free (page : Z) : M Paging UnmapError unit :=
  released ← unmap page; frame_deallocate released.

(** The loop of [unmap_kernel_range]: [n] pages from [page], the detached tables. *)
Definition unmap_one (space page : Z) : M Paging UnmapError (list Detached) := fun s =>
  match with_space (mapper_unmap space page) s with
  | (Ok _, s') => (d ← reclaim_tables_for space page; mret [d]) s'
  | (Err _, s') => (Ok [], s')
  | (Panic, s') => (Panic, s')
  end.

Fixpoint unmap_pages (space page : Z) (n : nat) : M Paging UnmapError (list Detached) :=
  match n with
  | O => mret []
  | S n' =>
      detached ← unmap_one space page;
      rest ← unmap_pages space (page + PAGE_SIZE) n';
      mret (detached ++ rest)
  end.

Definition unmap_kernel_range (first : Z) (count : nat) : M Paging UnmapError unit :=
  space ← kernel_space;
  detached ← unmap_pages space first count;
  shoot_down_all_if_shared space ;;
  for_each Detached_free detached.

Definition translate_in {E} (space address : Z) : M Paging E TranslateResult :=
  with_space (s ← get; mret (mapper_translate (tables s) space address)).

Definition translate {E} (address : Z) : M Paging E (option Z) :=
  s ← get;
  r ← translate_in (cr3 s) address;
  mret (match r with Mapped frame _ offset _ => Some (frame + offset) | NotMapped => None end).

Definition flags_in {E} (space address : Z) : M Paging E (option Z) :=
  r ← translate_in space address;
  mret (match r with Mapped _ _ _ flags => Some flags | NotMapped => None end).

Definition flags {E} (address : Z) : M Paging E (option Z) := s ← get; flags_in (cr3 s) address.

Definition mapping_size {E} (address : Z) : M Paging E (option Z) :=
  s ← get;
  r ← translate_in (cr3 s) address;
  mret (match r with Mapped _ size _ _ => Some size | NotMapped => None end).

Definition mapper_update (space page new : Z) : M Paging FlagUpdateError unit := fun s =>
  match update_flags (tables s) space page new with
  | Ok m => (Ok tt, add_effect (set_tables s m) (FlushLocal page))
  | Err e => (Err e, s)
  | Panic => (Panic, s)
  end.

(** No shootdown here, unlike [set_flags_in]. *)
Definition set_flags (page new : Z) : M Paging FlagUpdateError unit :=
  s ← get; with_space (mapper_update (cr3 s) page new).

Definition set_flags_in (space page new : Z) : M Paging FlagUpdateError unit :=
  with_space (mapper_update space page new) ;;
  shoot_down_if_shared space page.

(** *** Splitting a huge page *)

(** [flags.remove(HUGE_PAGE)] *)
Definition remove_huge (flags : Z) : Z := Z.clearbit flags HUGE_PAGE.

(** A [PhysAddr] has 52 bits; adding past them panics. *)
Definition PHYS_LIMIT : Z := 2 ^ 52.

(** [base + index * step] for each of the 512 entries *)
Definition split_entries (base step child_flags : Z) : PageTable :=
  (fun i => entry (base + i * step) child_flags) <$> seqZ 0 512.

Definition parent_flags (flags : Z) : Z :=
  let p := Z.lor (bit PRESENT) (bit WRITABLE) in
  if has flags USER_ACCESSIBLE then Z.lor p (bit USER_ACCESSIBLE) else p.

Definition populate_split (parent : Z) (i : nat) (base flags step : Z) (children_are_huge : bool)
  : M Paging SplitError unit :=
  found ← frame_allocate;
  match found with
  | None => fail SplitOutOfFrames
  | Some table_frame =>
      put_table table_frame zero_table ;;
      (if PHYS_LIMIT <=? base + 511 * step then panic else mret tt) ;;
      put_table table_frame
        (split_entries base step (if children_are_huge then flags else remove_huge flags)) ;;
      set_entry parent i (entry table_frame (parent_flags flags))
  end.

(** One turn of the loop, under the lock. *)
Definition split_once (address : Z) : M Paging SplitError unit :=
  s ← get;
  level_4 ← table_at (cr3 s);
  e4 ← entry_at level_4 (index 4 address);
  if negb (present e4) then fail SplitNotMapped else
  l3_frame ← lift (ok_or SplitNotMapped (entry_frame e4));
  level_3 ← table_at l3_frame;
  e3 ← entry_at level_3 (index 3 address);
  if negb (present e3) then fail SplitNotMapped
  else if huge e3 then
    populate_split l3_frame (index 3 address) (e_addr e3) (e_flags e3) (2 * 1024 * 1024) true
  else
    l2_frame ← lift (ok_or SplitNotMapped (entry_frame e3));
    level_2 ← table_at l2_frame;
    e2 ← entry_at level_2 (index 2 address);
    if negb (present e2) then fail SplitNotMapped
    else if negb (huge e2) then mret tt
    else populate_split l2_frame (index 2 address) (e_addr e2) (e_flags e2) 4096 false.

Fixpoint split_rounds (rounds : nat) (address : Z) : M Paging SplitError unit :=
  match rounds with
  | O => panic
  | S rounds' =>
      size ← mapping_size address;
      match size with
      | None => fail SplitNotMapped
      | Some size =>
          if size =? 4096 then mret tt
          else
            _ ← physical_offset;
            split_once address ;;
            emit FlushAllLocal ;;
            emit ShootAll ;;
            split_rounds rounds' address
      end
  end.

(** Two splits at most, then the turn that finds 4 KiB. *)
Definition split_huge_page (address : Z) : M Paging SplitError unit := split_rounds 3 address.

End WithMapper.
