(* ===== verification/PagingInv.v ===== *)
(** * Page tables: what a well-formed memory is, and what a change leaves alone

    Every table has one level, entries of a table lead to tables one level down,
    below level 4 a table hangs from one entry only, and level 4 tables share level 3
    tables at the same index.  A change to one table is then
    invisible to a walk that does not pass through the changed entry. *)

From stdpp Require Import base list gmap numbers list_numbers.
From Stdlib Require Import Lia.
From S2P Require Import Prelude Frame Paging.

(** The level each table in use has. *)
Abbreviation levels := (gmap Z nat).

(** Entry [i] of the level [l] table at [f] is [e]. *)
Definition entry_in (mem : memory) (lvl : levels) (f : Z) (l i : nat) (e : PageTableEntry) : Prop :=
  lvl !! f = Some l /\ exists t, mem !! f = Some t /\ t !! i = Some e.

(** [e] leads from a level [l] table to another table. *)
Definition leads (l : nat) (e : PageTableEntry) : Prop :=
  (1 < l)%nat /\ present e = true /\ huge e = false.

Record tables_ok (mem : memory) (lvl : levels) : Prop := {
  to_table : forall f l, lvl !! f = Some l ->
    (1 <= l <= 4)%nat /\ exists t, mem !! f = Some t /\ length t = ENTRIES;
  to_child : forall f l i e, entry_in mem lvl f l i e -> leads l e -> lvl !! e_addr e = Some (pred l);
  to_clean : forall f l i e, entry_in mem lvl f l i e -> present e = false -> e = UNUSED;
  to_huge : forall f l i e, entry_in mem lvl f l i e -> present e = true -> huge e = true -> (1 < l)%nat ->
    (l <= 3)%nat /\ e_addr e + span l <= PHYS_LIMIT;
  to_unique : forall f l i e g k j d, entry_in mem lvl f l i e -> entry_in mem lvl g k j d ->
    (l <= 3)%nat -> (k <= 3)%nat -> leads l e -> leads k d -> e_addr e = e_addr d -> f = g /\ i = j;
  to_shared : forall f i e g j d, entry_in mem lvl f 4 i e -> entry_in mem lvl g 4 j d ->
    leads 4 e -> leads 4 d -> e_addr e = e_addr d -> i = j;
}.

(** Tables are never free, and those an unmap may give back are the allocator's. *)
Definition tables_used (a : BitmapFrameAllocator) (lvl : levels) : Prop :=
  forall f l, lvl !! f = Some l -> exists n, f = frame_at n /\ 0 <= n /\
    (n < total_frames a -> used_at a n = true) /\ ((l <= 2)%nat -> n < total_frames a).

Record paging_ok (s : Paging) (lvl : levels) : Prop := {
  po_tables : tables_ok (tables s) lvl;
  po_frames : frames_ok (frames s);
  po_used : tables_used (frames s) lvl;
  po_root : lvl !! cr3 s = Some 4%nat;
  po_window : is_Some (PHYSICAL_OFFSET s);
}.

(** The registers and boot constants, which editing tables leaves alone. *)
Definition same_rest (s s' : Paging) : Prop :=
  cr3 s' = cr3 s /\ KERNEL_SPACE s' = KERNEL_SPACE s /\ PHYSICAL_OFFSET s' = PHYSICAL_OFFSET s.

#[global] Instance same_rest_preorder : PreOrder same_rest.
Proof. split; [done|]. intros s1 s2 s3 (? & ? & ?) (? & ? & ?). unfold same_rest. split_and!; congruence. Qed.

(** ** Locality of a walk *)

Section Locality.
Context (R : option Translation -> option Translation -> Prop) `{!Reflexive R}.
Context (R_through : forall e o o', R o o' -> R (through e <$> o) (through e <$> o')).
Context (mem mem' : memory) (lvl : levels) (Hok : tables_ok mem lvl).

(** The walks of one level agree. *)
Definition agree (l : nat) : Prop :=
  forall f va, lvl !! f = Some l -> R (walk_from mem' l f va) (walk_from mem l f va).

Lemma walk_unchanged l f va : agree (pred l) -> lvl !! f = Some l -> mem' !! f = mem !! f ->
  R (walk_from mem' l f va) (walk_from mem l f va).
Proof.
  intros Hag Hl Hf. destruct l as [|l]; [done|]. simpl. rewrite Hf.
  destruct (mem !! f) as [t|] eqn:Ht; [|done]. simpl. destruct (t !! index (S l) va) as [e|] eqn:He; [|done]. simpl.
  destruct (present e) eqn:Hp; simpl; [|done]. destruct (Nat.eqb l 0) eqn:H1; [done|].
  destruct (huge e) eqn:Hh; [done|]. apply R_through, Hag.
  apply Nat.eqb_neq in H1.
  apply (to_child _ _ Hok f (S l) (index (S l) va) e); [by split; eauto|]. unfold leads. split; [lia|done].
Qed.

(** A table either did not change, or its own walks agree once those below do. *)
Lemma walk_local :
  (forall f l va, lvl !! f = Some l -> mem' !! f = mem !! f \/
     (agree (pred l) -> R (walk_from mem' l f va) (walk_from mem l f va))) ->
  forall l, agree l.
Proof.
  intros Hch l. induction l as [|l IH]; intros f va Hf; [done|].
  destruct (Hch f (S l) va Hf) as [Hsame|Hag]; [by apply walk_unchanged|by apply Hag].
Qed.

(** One entry replaced in one table, and tables of no level written freely. *)
Lemma walk_one_entry F L t i e' :
  lvl !! F = Some L -> mem !! F = Some t -> mem' !! F = Some (<[i := e']> t) ->
  (forall f l, lvl !! f = Some l -> f <> F -> mem' !! f = mem !! f) ->
  (forall va, index L va = i -> agree (pred L) -> R (walk_from mem' L F va) (walk_from mem L F va)) ->
  forall l, agree l.
Proof.
  intros HF Ht Ht' Hrest Hsame. apply walk_local. intros f l va Hf.
  destruct (decide (f = F)) as [->|Hne]; [|left; eauto]. right. intros Hag. simplify_eq.
  destruct (decide (index L va = i)) as [Hi|Hi]; [by apply Hsame|].
  destruct L as [|L]; [done|]. cbn [walk_from]. rewrite Ht, Ht'. cbn [mbind option_bind].
  rewrite list_lookup_insert_ne by done.
  destruct (t !! index (S L) va) as [e|] eqn:He; [|done]. cbn [mbind option_bind].
  destruct (present e) eqn:Hp; simpl; [|done]. destruct (Nat.eqb L 0) eqn:H1; [done|].
  destruct (huge e) eqn:Hh; [done|]. apply R_through, Hag. apply Nat.eqb_neq in H1.
  apply (to_child _ _ Hok F (S L) (index (S L) va) e); [by split; eauto|]. unfold leads. split; [lia|done].
Qed.

End Locality.

(** ** What a program can observe *)

(** Two translations an access cannot tell apart. *)
Definition same_view (o o' : option Translation) : Prop := observe <$> o = observe <$> o'.

#[global] Instance same_view_equiv : Equivalence same_view.
Proof. unfold same_view. split; repeat intro; congruence. Qed.

Lemma same_view_through e o o' : same_view o o' -> same_view (through e <$> o) (through e <$> o').
Proof.
  unfold same_view. destruct o as [t|], o' as [t'|]; simpl; try done. unfold observe. intros Heq. simplify_eq.
  unfold through, physical in *. simpl in *. congruence.
Qed.

Lemma eq_through e (o o' : option Translation) : o = o' -> through e <$> o = through e <$> o'.
Proof. by intros ->. Qed.

Lemma index_lt l va : (index l va < ENTRIES)%nat.
Proof. unfold index, ENTRIES. pose proof (Z.mod_pos_bound (va / 2 ^ (12 + 9 * (Z.of_nat l - 1))) 512 ltac:(lia)). lia. Qed.

Lemma span_next l : (1 <= l)%nat -> span (S l) = 512 * span l /\ 0 < span l.
Proof.
  intros Hl. unfold span. split; [|apply Z.pow_pos_nonneg; lia].
  replace (12 + 9 * (Z.of_nat (S l) - 1)) with (9 + (12 + 9 * (Z.of_nat l - 1))) by lia.
  rewrite Z.pow_add_r by lia. done.
Qed.

(** An address splits into an index and an offset one level down. *)
Lemma offset_split l va : (1 <= l)%nat ->
  va mod span (S l) = Z.of_nat (index l va) * span l + va mod span l.
Proof.
  intros Hl. destruct (span_next l Hl) as [-> Hpos]. unfold index. fold (span l).
  rewrite Z2Nat.id by (apply Z.mod_pos_bound; lia). rewrite (Z.mul_comm 512). rewrite Z.rem_mul_r by lia. lia.
Qed.

Lemma lookup_split_entries base step f i : (i < ENTRIES)%nat ->
  split_entries base step f !! i = Some (entry (base + Z.of_nat i * step) f).
Proof.
  intros Hi. unfold split_entries. rewrite list_lookup_fmap, lookup_seqZ_lt by (unfold ENTRIES in Hi; lia). done.
Qed.

Lemma length_split_entries base step f : length (split_entries base step f) = ENTRIES.
Proof. unfold split_entries. by rewrite length_fmap, length_seqZ. Qed.

(** ** The flags of a split *)

Lemma has_parent_flags f :
  has (parent_flags f) PRESENT = true /\ has (parent_flags f) WRITABLE = true /\
  has (parent_flags f) USER_ACCESSIBLE = has f USER_ACCESSIBLE /\ has (parent_flags f) NO_EXECUTE = false /\
  has (parent_flags f) HUGE_PAGE = false.
Proof. unfold parent_flags. destruct (has f USER_ACCESSIBLE) eqn:Hu; rewrite ?Hu; repeat split; reflexivity. Qed.

Lemma has_remove_huge f k : 0 <= k -> k <> HUGE_PAGE -> has (remove_huge f) k = has f k.
Proof.
  intros Hk Hne. unfold has, remove_huge. rewrite Z.clearbit_neq; [done|unfold HUGE_PAGE in *; lia].
Qed.

Definition child_flags (L : nat) (f : Z) : Z := if Nat.eqb L 3 then f else remove_huge f.

(** The new parent over a new child says what the huge entry said. *)
Lemma split_leaf L e tf va : (L = 3 \/ L = 2)%nat -> present e = true -> huge e = true ->
  observe (through (entry tf (parent_flags (e_flags e)))
    (leaf (pred L) (entry (e_addr e + Z.of_nat (index (pred L) va) * span (pred L)) (child_flags L (e_flags e))) va))
  = observe (leaf L e va).
Proof.
  intros HL Hp Hh. destruct (has_parent_flags (e_flags e)) as (H1 & H2 & H3 & H4 & H5).
  assert (Hoff : va mod span L = Z.of_nat (index (pred L) va) * span (pred L) + va mod span (pred L)).
  { destruct HL as [-> | ->]; apply offset_split; lia. }
  unfold observe, through, leaf, physical, entry.
  cbn [e_addr e_flags tr_start tr_offset tr_attributes tr_writable tr_user tr_no_execute]. rewrite H2, H3, H4.
  assert (Hc : forall k, 0 <= k -> k <> HUGE_PAGE -> has (child_flags L (e_flags e)) k = has (e_flags e) k).
  { intros k ??. unfold child_flags. destruct (Nat.eqb L 3); [done|by apply has_remove_huge]. }
  rewrite !Hc by (unfold WRITABLE, USER_ACCESSIBLE, NO_EXECUTE, HUGE_PAGE; lia).
  assert (Hu : forall b : bool, b && b = b) by (by intros []). rewrite Hu, Hoff, Z.add_assoc. cbn [andb orb].
  destruct HL as [-> | ->]; done.
Qed.

(** The level 3 table a space uses for an address. *)
Definition next (mem : memory) (root va : Z) : option Z :=
  table ← mem !! root; e ← table !! index 4 va; if present e && negb (huge e) then Some (e_addr e) else None.

(** Two spaces whose tables for an address are the same from level 3 down. *)
Definition shares (mem : memory) (root root' va : Z) : Prop :=
  root = root' \/ exists c, next mem root va = Some c /\ next mem root' va = Some c.

(** ** One step of a walk *)

Lemma walk_into (m : memory) l f t e va : m !! f = Some t -> t !! index (S l) va = Some e -> present e = true ->
  huge e = false -> l <> 0%nat -> walk_from m (S l) f va = through e <$> walk_from m l (e_addr e) va.
Proof.
  intros Ht He Hp Hh Hl. cbn [walk_from]. rewrite Ht. cbn [mbind option_bind]. rewrite He. cbn [mbind option_bind].
  rewrite Hp, Hh. by destruct l.
Qed.

Lemma walk_inv (m : memory) l f va r : walk_from m (S l) f va = Some r ->
  exists t e, m !! f = Some t /\ t !! index (S l) va = Some e /\ present e = true /\
    ((l = 0%nat /\ r = leaf 1 e va) \/
     (l <> 0%nat /\ huge e = true /\ (S l <= 3)%nat /\ r = leaf (S l) e va) \/
     (l <> 0%nat /\ huge e = false /\ exists r', walk_from m l (e_addr e) va = Some r' /\ r = through e r')).
Proof.
  cbn [walk_from]. destruct (m !! f) as [t|] eqn:Ht; [|done]. cbn [mbind option_bind].
  destruct (t !! index (S l) va) as [e|] eqn:He; [|done]. cbn [mbind option_bind].
  destruct (present e) eqn:Hp; [|done]. cbn [negb]. intros Hr. exists t, e. split_and!; try done.
  destruct l as [|l]; cbn [Nat.eqb] in Hr; [left; split; [done|congruence]|]. right.
  destruct (huge e) eqn:Hh; [|right].
  - left. destruct (Nat.leb (S (S l)) 3) eqn:Hle; [|done]. apply Nat.leb_le in Hle. split_and!; [done|done|lia|congruence].
  - split; [done|]. split; [done|]. destruct (walk_from m (S l) (e_addr e) va) as [r'|]; [|done].
    exists r'. split; [done|]. cbn in Hr. congruence.
Qed.

Lemma entry_in_intro mem lvl f l t i e : lvl !! f = Some l -> mem !! f = Some t -> t !! i = Some e ->
  entry_in mem lvl f l i e.
Proof. intros. split; eauto. Qed.
