(* ===== verification/PagingSplit.v ===== *)
(** * Splitting a huge page changes no translation

    [populate_split] hangs a table of 512 smaller entries where the huge one was.  Every
    address keeps the byte it reaches, its rights and its memory type, in every space. *)

From stdpp Require Import base list gmap numbers list_numbers.
From Stdlib Require Import Lia.
From S2P Require Import Prelude Frame Paging PagingInv.

Lemma frame_at_inj m n : frame_at m = frame_at n -> m = n.
Proof. unfold frame_at, PAGE_SIZE. lia. Qed.

(** A frame the allocator hands out holds no table. *)
Lemma fresh_frame a lvl n : tables_used a lvl -> 0 <= n < total_frames a -> used_at a n = false ->
  lvl !! frame_at n = None.
Proof.
  intros Hu Hn Hfree. destruct (lvl !! frame_at n) as [l|] eqn:Hl; [|done].
  destruct (Hu _ _ Hl) as (m & Hm & _ & Hused & _). apply frame_at_inj in Hm as <-. rewrite Hused in Hfree; [done|lia].
Qed.

Lemma tables_used_grow a a' lvl n l : tables_used a lvl -> 0 <= n < total_frames a ->
  total_frames a' = total_frames a -> (forall g, 0 <= g -> used_at a' g = bool_decide (g = n) || used_at a g) ->
  tables_used a' (<[frame_at n := l]> lvl).
Proof.
  intros Hu Hn Ht Hg f k Hf. apply lookup_insert_Some in Hf as [[<- <-]|[Hne Hf]].
  - exists n. split; [done|]. split; [lia|]. split; [|lia]. intros _. rewrite Hg by lia. by rewrite bool_decide_true.
  - destruct (Hu _ _ Hf) as (m & -> & Hm & Hused & Hlow). exists m. split; [done|]. split; [done|]. rewrite Ht.
    split; [|done]. intros Hlt. rewrite Hg by lia. rewrite Hused by lia. apply orb_true_r.
Qed.

(** A walk that meets a huge entry, and one that goes through a table to a leaf. *)
Lemma walk_huge (m : memory) L F T e va : (L = 3 \/ L = 2)%nat -> m !! F = Some T -> T !! index L va = Some e ->
  present e = true -> huge e = true -> walk_from m L F va = Some (leaf L e va).
Proof.
  intros HL HT He Hp Hh. destruct HL as [-> | ->]; cbn [walk_from]; rewrite HT; cbn [mbind option_bind]; rewrite He;
    cbn [mbind option_bind]; rewrite Hp, Hh; done.
Qed.

Lemma walk_step (m : memory) L F tf T C pe d va : (L = 3 \/ L = 2)%nat -> m !! F = Some T ->
  T !! index L va = Some pe -> present pe = true -> huge pe = false -> e_addr pe = tf ->
  m !! tf = Some C -> C !! index (pred L) va = Some d -> present d = true -> (huge d = true \/ L = 2%nat) ->
  walk_from m L F va = Some (through pe (leaf (pred L) d va)).
Proof.
  intros HL HT Hpe Hp Hh <- HC Hd Hdp Hdh. destruct HL as [-> | ->]; cbn [walk_from pred] in *; rewrite HT;
    cbn [mbind option_bind]; rewrite Hpe; cbn [mbind option_bind]; rewrite Hp, Hh; cbn [negb Nat.eqb];
    rewrite HC; cbn [mbind option_bind]; rewrite Hd; cbn [mbind option_bind]; rewrite Hdp; cbn [negb Nat.eqb Nat.leb].
  - destruct Hdh as [->|?]; [done|lia].
  - done.
Qed.

Section Split.
Context (mem : memory) (lvl : levels) (Hok : tables_ok mem lvl).
Context (L : nat) (HL : (L = 3 \/ L = 2)%nat).
Context (F : Z) (t : PageTable) (i : nat) (e : PageTableEntry) (tf : Z).
Context (HF : lvl !! F = Some L) (Ht : mem !! F = Some t) (Hi : t !! i = Some e).
Context (Hp : present e = true) (Hh : huge e = true) (Htf : lvl !! tf = None).

Definition split_parent : PageTableEntry := entry tf (parent_flags (e_flags e)).
Definition split_child : PageTable := split_entries (e_addr e) (span (pred L)) (child_flags L (e_flags e)).
Definition split_memory : memory := <[F := <[i := split_parent]> t]> (<[tf := split_child]> mem).

Lemma split_F : F <> tf.
Proof. intros ->. congruence. Qed.

Lemma split_lookup_tf : split_memory !! tf = Some split_child.
Proof. unfold split_memory. rewrite lookup_insert_ne by apply split_F. by rewrite lookup_insert_eq. Qed.

Lemma split_lookup_F : split_memory !! F = Some (<[i := split_parent]> t).
Proof. unfold split_memory. by rewrite lookup_insert_eq. Qed.

Lemma split_lookup_other f l : lvl !! f = Some l -> f <> F -> split_memory !! f = mem !! f.
Proof. intros Hf Hne. unfold split_memory. rewrite !lookup_insert_ne; [done|congruence|done]. Qed.

Lemma child_has k : 0 <= k -> k <> HUGE_PAGE -> has (child_flags L (e_flags e)) k = has (e_flags e) k.
Proof. intros. unfold child_flags. destruct (Nat.eqb L 3); [done|by apply has_remove_huge]. Qed.

Lemma split_walk_F va : index L va = i ->
  walk_from split_memory L F va = Some (through split_parent
    (leaf (pred L) (entry (e_addr e + Z.of_nat (index (pred L) va) * span (pred L)) (child_flags L (e_flags e))) va)).
Proof.
  intros Hva. destruct (has_parent_flags (e_flags e)) as (H1 & _ & _ & _ & H5).
  apply (walk_step _ L F tf _ split_child split_parent _ va HL split_lookup_F); try done.
  - rewrite Hva. apply list_lookup_insert_eq. by apply lookup_lt_Some in Hi.
  - apply split_lookup_tf.
  - apply lookup_split_entries, index_lt.
  - unfold present. cbn [entry e_flags]. rewrite child_has by done. exact Hp.
  - unfold huge. cbn [entry e_flags]. unfold child_flags. destruct HL as [E|E]; [left|by right]. rewrite E. exact Hh.
Qed.

Lemma split_old_F va : index L va = i -> walk_from mem L F va = Some (leaf L e va).
Proof. intros Hva. apply (walk_huge _ L F t); try done. by rewrite Hva. Qed.

(** No access in any space can tell. *)
Lemma split_agree l : agree same_view mem split_memory lvl l.
Proof.
  apply (walk_one_entry same_view same_view_through mem split_memory lvl Hok F L t i split_parent); try done.
  - apply split_lookup_F.
  - intros f k Hf Hne. by apply (split_lookup_other f k).
  - intros va Hva _. rewrite split_walk_F, split_old_F by done. unfold same_view. cbn [fmap option_fmap option_map].
    f_equal. by apply split_leaf.
Qed.

Lemma entry_in_split f l j d : entry_in split_memory (<[tf := pred L]> lvl) f l j d ->
  (f = tf /\ l = pred L /\ exists k, 0 <= k < 512 /\ d = entry (e_addr e + k * span (pred L)) (child_flags L (e_flags e))) \/
  (f = F /\ l = L /\ j = i /\ d = split_parent) \/
  (entry_in mem lvl f l j d /\ f <> tf /\ ~ (f = F /\ j = i)).
Proof.
  intros [Hl (tb & Htb & Hd)]. apply lookup_insert_Some in Hl as [[<- <-]|[Hne Hl]].
  - left. rewrite split_lookup_tf in Htb. simplify_eq. split; [done|]. split; [done|]. exists (Z.of_nat j).
    assert (Hj : (j < ENTRIES)%nat) by (rewrite <- (length_split_entries (e_addr e) (span (pred L)) (child_flags L (e_flags e)));
      by apply lookup_lt_Some in Hd). unfold split_child in Hd.
    rewrite lookup_split_entries in Hd by done. unfold ENTRIES in Hj. split; [lia|by simplify_eq].
  - right. destruct (decide (f = F)) as [->|HfF].
    + rewrite split_lookup_F in Htb. simplify_eq. destruct (decide (j = i)) as [->|Hji].
      * left. rewrite list_lookup_insert_eq in Hd by (by apply lookup_lt_Some in Hi). by simplify_eq.
      * right. rewrite list_lookup_insert_ne in Hd by done. split; [|naive_solver]. split; eauto.
    + right. rewrite (split_lookup_other f l) in Htb by done. split; [|naive_solver]. split; eauto.
Qed.

Lemma split_child_leads k : ~ leads (pred L) (entry k (child_flags L (e_flags e))).
Proof.
  unfold leads, huge, child_flags. cbn [entry e_flags]. intros (Hlt & _ & Hn). unfold huge in Hh.
  destruct HL as [Heq|Heq]; rewrite Heq in Hn, Hlt; simpl in *; [congruence|lia].
Qed.

Lemma split_child_present k : present (entry k (child_flags L (e_flags e))) = true.
Proof. unfold present. cbn [entry e_flags]. rewrite child_has by done. exact Hp. Qed.

Lemma split_parent_huge : huge split_parent = false /\ present split_parent = true.
Proof. destruct (has_parent_flags (e_flags e)) as (H1 & _ & _ & _ & H5). done. Qed.

Lemma leads_old_new f l j d : entry_in mem lvl f l j d -> leads l d -> e_addr d <> tf.
Proof. intros Hd Hl Heq. pose proof (to_child _ _ Hok _ _ _ _ Hd Hl) as Hc. rewrite Heq in Hc. congruence. Qed.

Lemma split_tables_ok : tables_ok split_memory (<[tf := pred L]> lvl).
Proof.
  destruct split_parent_huge as [Hph Hpp]. split.
  - intros f l Hf. apply lookup_insert_Some in Hf as [[<- <-]|[Hne Hf]].
    + split; [lia|]. exists split_child. split; [apply split_lookup_tf|apply length_split_entries].
    + destruct (to_table _ _ Hok f l Hf) as [Hr (tb & Htb & Hlen)]. split; [done|].
      destruct (decide (f = F)) as [->|HfF]; [|rewrite (split_lookup_other f l) by done; eauto].
      rewrite split_lookup_F. simplify_eq. eexists. split; [done|]. by rewrite length_insert.
  - intros f l j d Hd Hlead. destruct (entry_in_split _ _ _ _ Hd) as [(-> & -> & k & _ & ->)|[(-> & -> & -> & ->)|(Hold & _)]].
    + by apply split_child_leads in Hlead.
    + simpl. by rewrite lookup_insert_eq.
    + rewrite lookup_insert_ne by (symmetry; by eapply leads_old_new). by eapply (to_child _ _ Hok).
  - intros f l j d Hd Hnp. destruct (entry_in_split _ _ _ _ Hd) as [(-> & -> & k & _ & ->)|[(-> & -> & -> & ->)|(Hold & _)]].
    + by rewrite split_child_present in Hnp.
    + congruence.
    + by eapply (to_clean _ _ Hok).
  - intros f l j d Hd Hdp Hdh Hlt. destruct (entry_in_split _ _ _ _ Hd) as [(-> & -> & k & Hk & ->)|[(-> & -> & -> & ->)|(Hold & _)]].
    + split; [lia|]. destruct (to_huge _ _ Hok F L i e) as [_ Hb]; [by split; eauto|done|done|lia|].
      cbn [entry e_addr]. destruct (span_next (pred L) ltac:(lia)) as [Hs Hs0].
      replace (S (pred L)) with L in Hs by lia. nia.
    + congruence.
    + by eapply (to_huge _ _ Hok).
  - intros f l j d g k j' d' Hd Hd' Hl3 Hk3 Hlead Hlead' Heq.
    destruct (entry_in_split _ _ _ _ Hd) as [(-> & -> & c & _ & ->)|[(-> & -> & -> & ->)|(Hold & _)]];
      [by apply split_child_leads in Hlead| |];
    (destruct (entry_in_split _ _ _ _ Hd') as [(-> & -> & c' & _ & ->)|[(-> & -> & -> & ->)|(Hold' & _)]];
      [by apply split_child_leads in Hlead'| |]).
    + done.
    + simpl in Heq. symmetry in Heq. exfalso. by eapply leads_old_new in Hold'.
    + simpl in Heq. exfalso. by eapply leads_old_new in Hold.
    + by eapply (to_unique _ _ Hok).
  - intros f j d g j' d' Hd Hd' Hlead Hlead' Heq.
    destruct (entry_in_split _ _ _ _ Hd) as [(_ & ? & _)|[(_ & ? & _)|(Hold & _)]]; [lia|lia|].
    destruct (entry_in_split _ _ _ _ Hd') as [(_ & ? & _)|[(_ & ? & _)|(Hold' & _)]]; [lia|lia|].
    by eapply (to_shared _ _ Hok).
Qed.

End Split.

(** What the crate documents of [translate]: the page that maps an address, with the
    flags of its lowest entry. *)
Class TranslateLaw `{Mapper} : Prop := {
  translate_walk : forall mem lvl root va, tables_ok mem lvl -> lvl !! root = Some 4%nat ->
    mapper_translate mem root va =
    match walk mem root va with
    | Some t => Mapped (tr_start t) (tr_size t) (tr_offset t)
                  (if tr_size t =? 4096 then tr_attributes t else Z.setbit (tr_attributes t) HUGE_PAGE)
    | None => NotMapped
    end;
}.

(** The tables grew, and no space that was there sees a difference. *)
Definition view_kept (s s' : Paging) (lvl : levels) : Prop :=
  exists lvl', paging_ok s' lvl' /\ lvl ⊆ lvl' /\ cr3 s' = cr3 s /\
    forall root va, lvl !! root = Some 4%nat -> same_view (walk (tables s') root va) (walk (tables s) root va).

Lemma populate_split_ok s lvl L F t i e :
  paging_ok s lvl -> (L = 3 \/ L = 2)%nat -> lvl !! F = Some L -> tables s !! F = Some t -> t !! i = Some e ->
  present e = true -> huge e = true ->
  match populate_split F i (e_addr e) (e_flags e) (span (pred L)) (Nat.eqb L 3) s with
  | (Ok _, s') => view_kept s s' lvl /\
      (forall f l, lvl !! f = Some l -> f <> F -> tables s' !! f = tables s !! f) /\
      forall va, index L va = i -> exists r, walk_from (tables s') L F va = Some r /\ tr_size r = span (pred L)
  | (Err SplitOutOfFrames, s') => s' = s /\ free_frames (frames s) = 0
  | _ => False
  end.
Proof.
  intros [Hok Hfr Hus Hroot Hwin] HL HF Ht Hi Hp Hh. unfold populate_split, frame_allocate.
  cbv beta iota delta [mbind M_bind].
  pose proof (allocate_sound _ Hfr) as Ha. destruct (allocate (frames s)) as [[[tf|] a]|?|]; [|..]; [|..|done|done].
  2:{ destruct Ha as (-> & Hfree & _). split; [|done]. by destruct s. }
  destruct Ha as (n & -> & Hn & Hfree & Hfr' & _ & Htot & Hg).
  assert (Htf : lvl !! frame_at n = None) by (by eapply fresh_frame).
  assert (Hlim : PHYS_LIMIT <=? e_addr e + 511 * span (pred L) = false).
  { apply Z.leb_gt. destruct (to_huge _ _ Hok F L i e) as [_ Hb]; [by split; eauto|done|done|lia|].
    destruct (span_next (pred L) ltac:(lia)) as [Hs Hs0]. replace (S (pred L)) with L in Hs by lia. lia. }
  assert (HFn : F <> frame_at n) by congruence.
  cbn [put_table modify]. rewrite Hlim. cbn [mret M_ret].
  unfold set_entry, table_at, entry_at. cbv beta iota delta [mbind M_bind].
  cbn [tables set_tables set_allocator]. rewrite !lookup_insert_ne by done. rewrite Ht, Hi. cbn [mret M_ret].
  rewrite insert_insert_eq.
  assert (Hcf : (if Nat.eqb L 3 then e_flags e else remove_huge (e_flags e)) = child_flags L (e_flags e)) by done.
  rewrite Hcf. cbn [put_table modify set_tables tables set_allocator].
  split_and!.
  - exists (<[frame_at n := pred L]> lvl). split; [|split; [by apply insert_subseteq|split; [done|]]].
    + split; simpl; [|done| |by rewrite lookup_insert_ne by congruence|done].
      * by apply (split_tables_ok _ _ Hok L HL F t i e).
      * by eapply tables_used_grow.
    + intros root va Hr. by apply (split_agree _ _ Hok L HL F t i e (frame_at n)).
  - intros f l Hf Hne. by apply (split_lookup_other _ lvl L F t i e (frame_at n) Htf f l).
  - intros va Hva. eexists. split; [by apply (split_walk_F _ lvl L HL F t i e (frame_at n))|done].
Qed.

Lemma split_once_ok s lvl address r :
  paging_ok s lvl -> walk (tables s) (cr3 s) address = Some r -> tr_size r <> 4096 ->
  match split_once address s with
  | (Ok _, s') => view_kept s s' lvl /\
      exists r' k, walk (tables s') (cr3 s') address = Some r' /\ (k = 1 \/ k = 2)%nat /\
        tr_size r = span (S k) /\ tr_size r' = span k
  | (Err SplitOutOfFrames, s') => s' = s /\ free_frames (frames s) = 0
  | _ => False
  end.
Proof.
  intros Hpo Hw Hsz. pose proof Hpo as [Hok _ _ Hroot _].
  destruct (walk_inv _ _ _ _ _ Hw) as (t4 & e4 & Ht4 & He4 & Hp4 & [[? _]|[(_ & _ & ? & _)|(_ & Hh4 & r3 & Hw3 & ->)]]); [lia|lia|].
  pose proof (to_child _ _ Hok _ _ _ _ (entry_in_intro _ _ _ _ _ _ _ Hroot Ht4 He4) ltac:(unfold leads; split_and!; [lia|done|done])) as Hl3.
  cbn [pred] in Hl3.
  destruct (walk_inv _ _ _ _ _ Hw3) as (t3 & e3 & Ht3 & He3 & Hp3 & Hc3).
  unfold split_once, table_at, entry_at, entry_frame. cbv beta iota delta [mbind M_bind get]. rewrite Ht4, He4.
  cbn [mret M_ret]. rewrite Hp4, Hh4. cbn [negb ok_or lift]. rewrite Ht3, He3. cbn [mret M_ret]. rewrite Hp3. cbn [negb].
  destruct Hc3 as [[? _]|[(_ & Hh3 & _ & ->)|(_ & Hh3 & r2 & Hw2 & ->)]]; [done| |]; rewrite Hh3.
  - pose proof (populate_split_ok s lvl 3 (e_addr e4) t3 (index 3 address) e3 Hpo ltac:(by left) Hl3 Ht3 He3 Hp3 Hh3) as H.
    change (span (pred 3)) with (2 * 1024 * 1024) in H. cbn [Nat.eqb] in H.
    destruct (populate_split _ _ _ _ _ _ s) as [[[]|[]|] s']; [|done|done|done].
    destruct H as (Hv & Hrest & Hnew). split; [done|]. destruct (Hnew address eq_refl) as (r' & Hr' & Hs').
    exists (through e4 r'), 2%nat. split_and!; [|by right|done|done].
    destruct Hv as (? & _ & _ & -> & _). unfold walk. rewrite (walk_into _ 3 _ t4 e4); [by rewrite Hr'| |done..].
    rewrite (Hrest _ _ Hroot); [done|]. congruence.
  - pose proof (to_child _ _ Hok _ _ _ _ (entry_in_intro _ _ _ _ _ _ _ Hl3 Ht3 He3) ltac:(unfold leads; split_and!; [lia|done|done])) as Hl2.
    cbn [pred] in Hl2. destruct (walk_inv _ _ _ _ _ Hw2) as (t2 & e2 & Ht2 & He2 & Hp2 & Hc2).
    cbn [negb ok_or lift]. rewrite Ht2, He2. cbn [mret M_ret]. rewrite Hp2. cbn [negb].
    destruct Hc2 as [[? _]|[(_ & Hh2 & _ & ->)|(_ & Hh2 & r1 & Hw1 & ->)]]; [done| |]; rewrite Hh2.
    2:{ destruct (walk_inv _ _ _ _ _ Hw1) as (t1 & e1 & _ & _ & _ & [[_ ->]|[[? _]|[? _]]]); done. }
    cbn [negb].
    pose proof (populate_split_ok s lvl 2 (e_addr e3) t2 (index 2 address) e2 Hpo ltac:(by right) Hl2 Ht2 He2 Hp2 Hh2) as H.
    change (span (pred 2)) with 4096 in H. cbn [Nat.eqb] in H.
    destruct (populate_split _ _ _ _ _ _ s) as [[[]|[]|] s']; [|done|done|done].
    destruct H as (Hv & Hrest & Hnew). split; [done|]. destruct (Hnew address eq_refl) as (r' & Hr' & Hs').
    exists (through e4 (through e3 r')), 1%nat. split_and!; [|by left|done|done].
    destruct Hv as (? & _ & _ & -> & _). unfold walk. rewrite (walk_into _ 3 _ t4 e4); [|rewrite (Hrest _ _ Hroot); [done|congruence]|done..].
    rewrite (walk_into _ 2 _ t3 e3); [by rewrite Hr'|rewrite (Hrest _ _ Hl3); [done|congruence]|done..].
Qed.

Lemma paging_ok_effect s lvl e : paging_ok s lvl -> paging_ok (add_effect s e) lvl.
Proof. by intros []. Qed.

Lemma view_kept_effect s s' lvl e : view_kept s s' lvl -> view_kept s (add_effect s' e) lvl.
Proof. intros (lvl' & Hpo & H). exists lvl'. split; [by apply paging_ok_effect|done]. Qed.

Lemma view_kept_refl s lvl : paging_ok s lvl -> view_kept s s lvl.
Proof. intros Hpo. exists lvl. split_and!; try done. Qed.

Lemma view_kept_trans s s' s'' lvl lvl' : lvl ⊆ lvl' ->
  cr3 s' = cr3 s -> (forall root va, lvl !! root = Some 4%nat -> same_view (walk (tables s') root va) (walk (tables s) root va)) ->
  view_kept s' s'' lvl' -> view_kept s s'' lvl.
Proof.
  intros Hsub Hcr Hv (lvl'' & Hpo & Hsub' & Hcr' & Hv'). exists lvl''. split_and!; [done|by trans lvl'|congruence|].
  intros root va Hr. trans (walk (tables s') root va); [|by apply Hv]. apply Hv'. by eapply lookup_weaken.
Qed.

(** Sizes a walk can report. *)
Lemma walk_size (m : memory) l f va r : walk_from m l f va = Some r -> (l <= 4)%nat ->
  exists k, (1 <= k <= 3)%nat /\ tr_size r = span k.
Proof.
  revert f r. induction l as [|l IH]; intros f r Hw Hl; [done|].
  destruct (walk_inv _ _ _ _ _ Hw) as (t & e & _ & _ & _ & [[-> ->]|[(Hn & _ & Hle & ->)|(_ & _ & r' & Hr' & ->)]]).
  - exists 1%nat. split; [lia|done].
  - exists (S l). split; [lia|done].
  - destruct (IH _ _ Hr' ltac:(lia)) as (k & Hk & Hs). exists k. split; [done|]. exact Hs.
Qed.

Lemma span_inj k k' : (1 <= k <= 3)%nat -> (1 <= k' <= 3)%nat -> span k = span k' -> k = k'.
Proof. intros Hk Hk'. destruct k as [|[|[|[]]]], k' as [|[|[|[]]]]; try lia; done. Qed.

Section Rounds.
Context `{TranslateLaw}.

Lemma mapping_size_walk {E} s lvl address : paging_ok s lvl ->
  mapping_size (E:=E) address s = (Ok (tr_size <$> walk (tables s) (cr3 s) address), s).
Proof.
  intros [Hok _ _ Hroot [o Ho]]. unfold mapping_size, translate_in, with_space, require.
  cbv beta iota delta [mbind M_bind get]. rewrite Ho. cbn [mret M_ret].
  rewrite (translate_walk _ _ _ _ Hok Hroot). by destruct (walk _ _ _).
Qed.

(** What [split_huge_page] leaves, whichever way it ends. *)
Definition split_outcome (address : Z) (s : Paging) (lvl : levels) (out : result SplitError unit * Paging) : Prop :=
  match out with
  | (Ok _, s') => view_kept s s' lvl /\
      exists t, walk (tables s') (cr3 s') address = Some t /\ tr_size t = 4096
  | (Err SplitNotMapped, s') => s' = s /\ walk (tables s) (cr3 s) address = None
  | (Err SplitOutOfFrames, s') => view_kept s s' lvl /\ free_frames (frames s') = 0
  | (Panic, _) => False
  end.

Lemma split_rounds_S n address : split_rounds (S n) address =
  size ← mapping_size address;
  match size with
  | None => fail SplitNotMapped
  | Some size =>
      if size =? 4096 then mret tt
      else _ ← physical_offset; split_once address ;; emit FlushAllLocal ;; emit ShootAll ;; split_rounds n address
  end.
Proof. done. Qed.

Lemma split_rounds_ok address n : forall s lvl, paging_ok s lvl ->
  (forall r, walk (tables s) (cr3 s) address = Some r -> exists k, (1 <= k <= 3)%nat /\ tr_size r = span k /\ (k <= S n)%nat) ->
  split_outcome address s lvl (split_rounds (S n) address s).
Proof.
  induction n as [|n IH]; intros s lvl Hpo Hk; rewrite split_rounds_S; cbv beta iota delta [mbind M_bind];
    rewrite (mapping_size_walk s lvl) by done;
    (destruct (walk (tables s) (cr3 s) address) as [r|] eqn:Hw; cbn [fmap option_fmap option_map]; [|done]);
    destruct (tr_size r =? 4096) eqn:Hsz.
  - apply Z.eqb_eq in Hsz. split; [by apply view_kept_refl|eauto].
  - destruct (Hk r eq_refl) as (k & Hk1 & Hs & Hk2). assert (k = 1%nat) as -> by lia. rewrite Hs in Hsz. done.
  - apply Z.eqb_eq in Hsz. split; [by apply view_kept_refl|eauto].
  - apply Z.eqb_neq in Hsz. pose proof Hpo as [_ _ _ _ [o Ho]].
    unfold physical_offset, require. cbv beta iota delta [mbind M_bind get]. rewrite Ho. cbn [mret M_ret].
    pose proof (split_once_ok s lvl address r Hpo Hw Hsz) as H1.
    destruct (split_once address s) as [[[]|[]|] s1]; [|done| |done].
    + destruct H1 as ((lvl1 & Hpo1 & Hsub & Hcr & Hv) & r1 & k & Hw1 & Hk1 & Hs & Hs1).
      cbn [emit modify]. set (s2 := add_effect (add_effect s1 _) _).
      assert (Hpo2 : paging_ok s2 lvl1) by (by do 2 apply paging_ok_effect).
      assert (Hkn : (k <= S n)%nat).
      { destruct (Hk r eq_refl) as (k' & Hk1' & Hs' & Hk2'). assert (k' = S k); [|lia]. apply span_inj; [lia|lia|congruence]. }
      specialize (IH s2 lvl1 Hpo2).
      assert (Hpre : forall r0, walk (tables s2) (cr3 s2) address = Some r0 ->
        exists k0, (1 <= k0 <= 3)%nat /\ tr_size r0 = span k0 /\ (k0 <= S n)%nat).
      { intros r0 Hr0. change (walk (tables s1) (cr3 s1) address = Some r0) in Hr0. simplify_eq. exists k. split; [lia|done]. }
      specialize (IH Hpre). destruct (split_rounds (S n) address s2) as [[[]|[]|] s3]; cbn [split_outcome] in IH |- *; [| | |done].
      * destruct IH as [Hv2 Hd]. split; [|done]. by eapply view_kept_trans.
      * destruct IH as [_ Hn]. exfalso. change (walk (tables s1) (cr3 s1) address = None) in Hn. congruence.
      * destruct IH as [Hv2 Hd]. split; [|done]. by eapply view_kept_trans.
    + destruct H1 as [-> Hfree]. split; [by apply view_kept_refl|done].
Qed.

(** Splitting the huge page over an address is invisible: afterwards every address of
    every space reaches the same byte with the same rights and memory type, and the
    address is mapped by a 4 KiB page; running out of frames leaves that true too (a
    first split may have happened), an address nothing maps is refused with nothing
    changed, and the loop ends. *)
Theorem split_transparent s lvl address :
  paging_ok s lvl -> split_outcome address s lvl (split_huge_page address s).
Proof.
  intros Hpo. apply split_rounds_ok; [done|]. intros r Hr. destruct (walk_size _ _ _ _ _ Hr ltac:(lia)) as (k & Hk & Hs).
  exists k. split; [done|]. split; [done|]. lia.
Qed.

End Rounds.
