(* ===== verification/PagingUnmap.v ===== *)
(** * Unmapping, and giving back the tables it empties

    Clearing a leaf changes one page's translation and no other.  A table with nothing
    in it can then be unlinked: no walk notices, nothing leads to it any more, and it is
    freed only after every processor was told. *)

From stdpp Require Import base list gmap numbers list_numbers.
From Stdlib Require Import Lia.
From S2P Require Import Prelude Frame Paging PagingInv PagingSplit.

(** ** The tables a walk passes *)

Fixpoint reach (mem : memory) (level : nat) (f va F : Z) : Prop :=
  match level with
  | O => False
  | S below => f = F \/ exists t e, mem !! f = Some t /\ t !! index level va = Some e /\
                 leads level e /\ reach mem below (e_addr e) va F
  end.

(** A walk that does not pass the changed entry is unchanged. *)
Lemma walk_avoid mem mem' lvl F L t i e' :
  tables_ok mem lvl -> lvl !! F = Some L -> mem !! F = Some t -> mem' !! F = Some (<[i := e']> t) ->
  (forall f l, lvl !! f = Some l -> f <> F -> mem' !! f = mem !! f) ->
  forall l f va, lvl !! f = Some l -> (reach mem l f va F -> index L va <> i) ->
  walk_from mem' l f va = walk_from mem l f va.
Proof.
  intros Hok HF Ht Ht' Hrest l. induction l as [|l IH]; intros f va Hf Hr; [done|].
  assert (Hsame : forall T e, mem !! f = Some T -> T !! index (S l) va = Some e -> leads (S l) e ->
    through e <$> walk_from mem' l (e_addr e) va = through e <$> walk_from mem l (e_addr e) va).
  { intros T e HT He Hl. apply eq_through. apply IH.
    - by apply (to_child _ _ Hok f (S l) (index (S l) va) e (entry_in_intro _ _ _ _ _ _ _ Hf HT He)).
    - intros Hreach. apply Hr. right. eauto 10. }
  assert (Hlook : exists T, mem !! f = Some T /\ exists T', mem' !! f = Some T' /\ T' !! index (S l) va = T !! index (S l) va).
  { destruct (decide (f = F)) as [->|Hne].
    - simplify_eq. exists t. split; [done|]. eexists. split; [done|]. apply list_lookup_insert_ne. intros Heq. by apply (Hr (or_introl eq_refl)).
    - destruct (to_table _ _ Hok _ _ Hf) as [_ (T & HT & _)]. exists T. split; [done|]. exists T. rewrite (Hrest f (S l)) by done. done. }
  destruct Hlook as (T & HT & T' & HT' & Heq). cbn [walk_from]. rewrite HT, HT'. cbn [mbind option_bind]. rewrite Heq.
  destruct (T !! index (S l) va) as [e|] eqn:He; [|done]. cbn [mbind option_bind].
  destruct (present e) eqn:Hp; cbn [negb]; [|done]. destruct (Nat.eqb (S l) 1) eqn:H1; [done|]. apply Nat.eqb_neq in H1.
  destruct (huge e) eqn:Hh; [done|]. apply (Hsame T); [done|done|]. unfold leads. split_and!; [lia|done|done].
Qed.

Lemma reach_level mem lvl l f va F k : tables_ok mem lvl -> lvl !! f = Some l -> lvl !! F = Some k ->
  reach mem l f va F -> (k <= l)%nat /\ (k = l -> f = F).
Proof.
  intros Hok. revert f. induction l as [|l IH]; intros f Hf HF Hr; [done|].
  destruct Hr as [->|(t & e & Ht & He & Hl & Hr)]; [simplify_eq; done|].
  assert (Hc : lvl !! e_addr e = Some l) by (by apply (to_child _ _ Hok f (S l) _ e (entry_in_intro _ _ _ _ _ _ _ Hf Ht He))).
  destruct (IH _ Hc HF Hr) as [Hle _]. split; [lia|]. lia.
Qed.

Lemma reach_step mem lvl l h vc F : tables_ok mem lvl -> lvl !! F = Some 1%nat -> lvl !! h = Some (S l) -> l <> 0%nat ->
  reach mem (S l) h vc F -> exists e, entry_in mem lvl h (S l) (index (S l) vc) e /\ leads (S l) e /\
    lvl !! e_addr e = Some l /\ reach mem l (e_addr e) vc F.
Proof.
  intros Hok HF Hh Hl [->|(t & e & Ht & He & Hld & Hrr)]; [simplify_eq; lia|]. exists e.
  pose proof (entry_in_intro _ _ _ _ _ _ _ Hh Ht He) as Hin. split_and!; [done|done| |done].
  by apply (to_child _ _ Hok h (S l) (index (S l) vc) e).
Qed.

(** Two walks that meet in a table came down the same entries. *)
Lemma reach_same mem lvl F : tables_ok mem lvl -> lvl !! F = Some 1%nat -> forall l f g va vb,
  (l <= 4)%nat -> lvl !! f = Some l -> lvl !! g = Some l -> reach mem l f va F -> reach mem l g vb F ->
  (forall k, (2 <= k <= l)%nat -> index k va = index k vb) /\ ((l <= 3)%nat -> f = g).
Proof.
  intros Hok HF l. induction l as [|l IH]; intros f g va vb Hl4 Hf Hg Hr Hr'; [done|].
  destruct (decide (l = 0%nat)) as [->|Hl].
  { destruct (reach_level _ _ _ _ _ _ _ Hok Hf HF Hr) as [_ Hfe].
    destruct (reach_level _ _ _ _ _ _ _ Hok Hg HF Hr') as [_ Hge]. split; [lia|]. intros _. by rewrite Hfe, Hge. }
  destruct (reach_step _ _ _ _ _ _ Hok HF Hf Hl Hr) as (e & He & Hle & Hce & Hre).
  destruct (reach_step _ _ _ _ _ _ Hok HF Hg Hl Hr') as (d & Hd & Hld & Hcd & Hrd).
  destruct (IH _ _ _ _ ltac:(lia) Hce Hcd Hre Hrd) as [Hidx Heq]. specialize (Heq ltac:(lia)).
  destruct (decide (S l <= 3)%nat) as [H3|H3].
  - destruct (to_unique _ _ Hok _ _ _ _ _ _ _ _ He Hd ltac:(lia) ltac:(lia) Hle Hld Heq) as [-> Hi].
    split; [|done]. intros k Hk. destruct (decide (k = S l)) as [->|]; [done|]. apply Hidx. lia.
  - assert (l = 3%nat) as -> by lia. pose proof (to_shared _ _ Hok _ _ _ _ _ _ He Hd Hle Hld Heq) as Hi.
    split; [|lia]. intros k Hk. destruct (decide (k = 4%nat)) as [->|]; [done|]. apply Hidx. lia.
Qed.

Lemma next_entry mem lvl root va e : entry_in mem lvl root 4 (index 4 va) e -> leads 4 e -> next mem root va = Some (e_addr e).
Proof.
  intros [_ (t & Ht & He)] (_ & Hp & Hh). unfold next. rewrite Ht. cbn [mbind option_bind]. rewrite He. cbn [mbind option_bind].
  by rewrite Hp, Hh.
Qed.

(** Two spaces whose walks meet share the tables from level 3 down. *)
Lemma reach_shares mem lvl F r r' va vb : tables_ok mem lvl -> lvl !! F = Some 1%nat ->
  lvl !! r = Some 4%nat -> lvl !! r' = Some 4%nat -> reach mem 4 r va F -> reach mem 4 r' vb F ->
  (forall k, (2 <= k <= 4)%nat -> index k va = index k vb) /\ shares mem r' r vb.
Proof.
  intros Hok HF Hr Hr' Hre Hre'. destruct (reach_same _ _ _ Hok HF 4 r r' va vb ltac:(lia) Hr Hr' Hre Hre') as [Hidx _].
  split; [done|]. destruct (reach_step _ _ _ _ _ _ Hok HF Hr ltac:(lia) Hre) as (e & He & Hle & Hce & Hse).
  destruct (reach_step _ _ _ _ _ _ Hok HF Hr' ltac:(lia) Hre') as (d & Hd & Hld & Hcd & Hsd).
  destruct (reach_same _ _ _ Hok HF 3 _ _ va vb ltac:(lia) Hce Hcd Hse Hsd) as [_ Heq]. specialize (Heq ltac:(lia)).
  right. exists (e_addr d). split; [by apply (next_entry _ lvl)|]. rewrite <- Heq. rewrite (Hidx 4%nat) in He by lia.
  by apply (next_entry _ lvl).
Qed.

(** The four indices are a page. *)
Lemma indices_page va vb : 0 <= va < 2 ^ 48 -> 0 <= vb < 2 ^ 48 ->
  (forall k, (1 <= k <= 4)%nat -> index k va = index k vb) -> page_at va = page_at vb.
Proof.
  intros Ha Hb Hidx.
  assert (Hi : forall k, (1 <= k <= 4)%nat -> (va / span k) mod 512 = (vb / span k) mod 512).
  { intros k Hk. specialize (Hidx k Hk). unfold index in Hidx. fold (span k) in Hidx.
    pose proof (Z.mod_pos_bound (va / span k) 512 ltac:(lia)). pose proof (Z.mod_pos_bound (vb / span k) 512 ltac:(lia)). lia. }
  assert (Hq : va / 4096 = vb / 4096).
  { pose proof (Hi 1%nat ltac:(lia)) as H1. pose proof (Hi 2%nat ltac:(lia)) as H2.
    pose proof (Hi 3%nat ltac:(lia)) as H3. pose proof (Hi 4%nat ltac:(lia)) as H4.
    change (span 1) with 4096 in H1. change (span 2) with (4096 * 512) in H2.
    change (span 3) with (4096 * 512 * 512) in H3. change (span 4) with (4096 * 512 * 512 * 512) in H4.
    rewrite <- !Z.div_div in * by lia.
    assert (0 <= va / 4096 < 2 ^ 36) by (split; [apply Z.div_pos|apply Z.div_lt_upper_bound]; lia).
    assert (0 <= vb / 4096 < 2 ^ 36) by (split; [apply Z.div_pos|apply Z.div_lt_upper_bound]; lia).
    revert H1 H2 H3 H4. generalize dependent (va / 4096). generalize dependent (vb / 4096). intros y Hy x Hx.
    intros. clear -Hx Hy H1 H2 H3 H4. Z.div_mod_to_equations. lia. }
  unfold page_at, PAGE_SIZE. pose proof (Z.div_mod va 4096 ltac:(lia)). pose proof (Z.div_mod vb 4096 ltac:(lia)). lia.
Qed.

(** ** Clearing an entry *)

Section Clear.
Context (mem : memory) (lvl : levels) (Hok : tables_ok mem lvl).
Context (F : Z) (L : nat) (t : PageTable) (i : nat) (HF : lvl !! F = Some L) (Ht : mem !! F = Some t).

Definition cleared : memory := <[F := <[i := UNUSED]> t]> mem.

Lemma cleared_F : cleared !! F = Some (<[i := UNUSED]> t).
Proof. apply lookup_insert_eq. Qed.

Lemma cleared_other (f : Z) (l : nat) : lvl !! f = Some l -> f <> F -> cleared !! f = mem !! f.
Proof. intros _ Hne. apply lookup_insert_ne. congruence. Qed.

Lemma entry_in_cleared f l j d : entry_in cleared lvl f l j d ->
  d = UNUSED \/ (entry_in mem lvl f l j d /\ ~ (f = F /\ j = i)).
Proof.
  intros [Hl (tb & Htb & Hd)]. destruct (decide (f = F)) as [->|Hne].
  - rewrite cleared_F in Htb. simplify_eq. destruct (decide (j = i)) as [->|Hji].
    + left. apply list_lookup_insert_Some in Hd. naive_solver.
    + right. rewrite list_lookup_insert_ne in Hd by done. split; [|naive_solver]. split; eauto.
  - right. rewrite (cleared_other f l) in Htb by done. split; [|naive_solver]. split; eauto.
Qed.

Lemma cleared_ok : tables_ok cleared lvl.
Proof.
  split.
  - intros f l Hf. destruct (to_table _ _ Hok f l Hf) as [Hr (tb & Htb & Hlen)]. split; [done|].
    destruct (decide (f = F)) as [->|Hne]; [|rewrite (cleared_other f l) by done; eauto].
    rewrite cleared_F. simplify_eq. eexists. split; [done|]. by rewrite length_insert.
  - intros f l j d Hd (Hl & Hp & Hh). destruct (entry_in_cleared _ _ _ _ Hd) as [->|[Hold _]]; [done|]. by eapply (to_child _ _ Hok).
  - intros f l j d Hd Hp. destruct (entry_in_cleared _ _ _ _ Hd) as [->|[Hold _]]; [done|]. by eapply (to_clean _ _ Hok).
  - intros f l j d Hd Hp Hh Hl. destruct (entry_in_cleared _ _ _ _ Hd) as [->|[Hold _]]; [done|]. by eapply (to_huge _ _ Hok).
  - intros f l j d g k j' d' Hd Hd' Hl3 Hk3 Hlead Hlead' Heq.
    destruct (entry_in_cleared _ _ _ _ Hd) as [->|[Hold _]]; [by destruct Hlead as (_ & ? & _)|].
    destruct (entry_in_cleared _ _ _ _ Hd') as [->|[Hold' _]]; [by destruct Hlead' as (_ & ? & _)|]. by eapply (to_unique _ _ Hok).
  - intros f j d g j' d' Hd Hd' Hlead Hlead' Heq.
    destruct (entry_in_cleared _ _ _ _ Hd) as [->|[Hold _]]; [by destruct Hlead as (_ & ? & _)|].
    destruct (entry_in_cleared _ _ _ _ Hd') as [->|[Hold' _]]; [by destruct Hlead' as (_ & ? & _)|]. by eapply (to_shared _ _ Hok).
Qed.

End Clear.

Lemma entry_in_weaken mem (lvl lvl' : levels) f l i e : lvl' ⊆ lvl -> entry_in mem lvl' f l i e -> entry_in mem lvl f l i e.
Proof. intros Hsub [Hl He]. split; [by eapply lookup_weaken|done]. Qed.

(** A table nothing leads to can be forgotten. *)
Lemma drop_ok mem lvl C : tables_ok mem lvl ->
  (forall f l i e, entry_in mem lvl f l i e -> leads l e -> e_addr e <> C) -> tables_ok mem (delete C lvl).
Proof.
  intros Hok Hno. assert (Hw : forall f l i e, entry_in mem (delete C lvl) f l i e -> entry_in mem lvl f l i e).
  { intros. eapply entry_in_weaken; [apply delete_subseteq|done]. }
  split.
  - intros f l Hf. apply lookup_delete_Some in Hf as [_ Hf]. by apply (to_table _ _ Hok).
  - intros f l i e He Hl. apply lookup_delete_Some. split; [symmetry; by eapply Hno; eauto|by eapply (to_child _ _ Hok); eauto].
  - intros f l i e He. by eapply (to_clean _ _ Hok), Hw.
  - intros f l i e He. by eapply (to_huge _ _ Hok), Hw.
  - intros f l i e g k j d He Hd. by eapply (to_unique _ _ Hok); apply Hw.
  - intros f i e g j d He Hd. by eapply (to_shared _ _ Hok); apply Hw.
Qed.

Lemma empty_entry t i e : table_is_empty t = true -> t !! i = Some e -> present e = false.
Proof.
  intros Hem He. unfold table_is_empty in Hem. rewrite forallb_forall in Hem.
  specialize (Hem e (proj1 (list_elem_of_In _ _) (list_elem_of_lookup_2 _ _ _ He))).
  unfold is_unused in Hem. apply andb_true_iff in Hem as [_ Hf%Z.eqb_eq]. unfold present, has. rewrite Hf. done.
Qed.

Lemma walk_empty (m : memory) l f t va : m !! f = Some t -> table_is_empty t = true -> walk_from m l f va = None.
Proof.
  intros Ht Hem. destruct l as [|l]; [done|]. cbn [walk_from]. rewrite Ht. cbn [mbind option_bind].
  destruct (t !! index (S l) va) as [e|] eqn:He; [|done]. cbn [mbind option_bind]. by rewrite (empty_entry t _ e Hem He).
Qed.

(** Unlinking an empty table: no walk notices, and nothing leads to it. *)
Lemma unlink_ok mem lvl F L t i e tc : tables_ok mem lvl -> lvl !! F = Some L -> (L <= 3)%nat -> mem !! F = Some t ->
  t !! i = Some e -> leads L e -> mem !! e_addr e = Some tc -> table_is_empty tc = true ->
  tables_ok (cleared mem F t i) (delete (e_addr e) lvl) /\ forall l, agree eq mem (cleared mem F t i) lvl l.
Proof.
  intros Hok HF HL Ht He Hl Htc Hem. pose proof Hl as (HL1 & Hp & Hh).
  pose proof (entry_in_intro _ _ _ _ _ _ _ HF Ht He) as Hin. pose proof (to_child _ _ Hok _ _ _ _ Hin Hl) as Hchild. split.
  - apply drop_ok; [by apply (cleared_ok _ _ Hok F L)|]. intros f l j d Hd Hld Heq.
    destruct (entry_in_cleared _ _ F L t i HF Ht _ _ _ _ Hd) as [->|[Hold Hne]]; [by destruct Hld as (_ & ? & _)|].
    pose proof (to_child _ _ Hok _ _ _ _ Hold Hld) as Hc. rewrite Heq, Hchild in Hc.
    destruct (to_unique _ _ Hok _ _ _ _ _ _ _ _ Hold Hin) as [-> ->]; try done; [|by apply Hne].
    destruct Hld as (? & _ & _). assert (pred l = pred L) by congruence. lia.
  - apply (walk_one_entry eq eq_through mem _ lvl Hok F L t i UNUSED); try done.
    + apply cleared_F.
    + intros f l. apply cleared_other.
    + intros va Hva _. destruct L as [|L]; [done|]. rewrite (walk_into mem L F t e va); [|done|by rewrite Hva|done|done|lia].
      rewrite (walk_empty mem L _ tc) by done. cbn [walk_from]. rewrite cleared_F. cbn [mbind option_bind]. rewrite Hva.
      rewrite list_lookup_insert_eq by (by apply lookup_lt_Some in He). done.
Qed.

(** ** The path to a 4 KiB page *)

Record table_path (mem : memory) (lvl : levels) (root va : Z) (t4 t3 t2 t1 : PageTable) (e4 e3 e2 : PageTableEntry)
  : Prop := {
  tp_l4 : lvl !! root = Some 4%nat; tp_t4 : mem !! root = Some t4; tp_e4 : t4 !! index 4 va = Some e4; tp_d4 : leads 4 e4;
  tp_l3 : lvl !! e_addr e4 = Some 3%nat; tp_t3 : mem !! e_addr e4 = Some t3; tp_e3 : t3 !! index 3 va = Some e3; tp_d3 : leads 3 e3;
  tp_l2 : lvl !! e_addr e3 = Some 2%nat; tp_t2 : mem !! e_addr e3 = Some t2; tp_e2 : t2 !! index 2 va = Some e2; tp_d2 : leads 2 e2;
  tp_l1 : lvl !! e_addr e2 = Some 1%nat; tp_t1 : mem !! e_addr e2 = Some t1;
}.

Lemma walk_down mem lvl l f va r : tables_ok mem lvl -> lvl !! f = Some (S l) -> walk_from mem (S l) f va = Some r ->
  tr_size r = 4096 -> l <> 0%nat ->
  exists t e r', mem !! f = Some t /\ t !! index (S l) va = Some e /\ leads (S l) e /\ lvl !! e_addr e = Some l /\
    walk_from mem l (e_addr e) va = Some r' /\ tr_size r' = 4096 /\ tr_start r' = tr_start r.
Proof.
  intros Hok Hf Hw Hs Hl.
  destruct (walk_inv _ _ _ _ _ Hw) as (t & e & Ht & He & Hp & [[? _]|[(_ & _ & Hle & ->)|(_ & Hh & r' & Hw' & ->)]]); [done| |].
  - exfalso. cbn [leaf tr_size] in Hs. change 4096 with (span 1) in Hs. apply span_inj in Hs; lia.
  - assert (Hld : leads (S l) e) by (unfold leads; split_and!; [lia|done|done]).
    exists t, e, r'. split_and!; try done. by apply (to_child _ _ Hok f (S l) _ e (entry_in_intro _ _ _ _ _ _ _ Hf Ht He)).
Qed.

Lemma walk_table_path mem lvl root va r : tables_ok mem lvl -> lvl !! root = Some 4%nat -> walk mem root va = Some r ->
  tr_size r = 4096 -> exists t4 t3 t2 t1 e4 e3 e2 e1, table_path mem lvl root va t4 t3 t2 t1 e4 e3 e2 /\
    t1 !! index 1 va = Some e1 /\ tr_start r = e_addr e1.
Proof.
  intros Hok H4 Hw Hs. destruct (walk_down _ _ _ _ _ _ Hok H4 Hw Hs) as (t4 & e4 & r3 & Ht4 & He4 & Hd4 & Hl3 & Hw3 & Hs3 & Hr3); [lia|].
  destruct (walk_down _ _ _ _ _ _ Hok Hl3 Hw3 Hs3) as (t3 & e3 & r2 & Ht3 & He3 & Hd3 & Hl2 & Hw2 & Hs2 & Hr2); [lia|].
  destruct (walk_down _ _ _ _ _ _ Hok Hl2 Hw2 Hs2) as (t2 & e2 & r1 & Ht2 & He2 & Hd2 & Hl1 & Hw1 & Hs1 & Hr1); [lia|].
  destruct (walk_inv _ _ _ _ _ Hw1) as (t1 & e1 & Ht1 & He1 & Hp1 & [[_ ->]|[[? _]|[? _]]]); [|done|done].
  exists t4, t3, t2, t1, e4, e3, e2, e1. split; [by split|]. split; [done|]. by rewrite <- Hr3, <- Hr2, <- Hr1.
Qed.

Lemma table_path_reach mem lvl root va t4 t3 t2 t1 e4 e3 e2 :
  table_path mem lvl root va t4 t3 t2 t1 e4 e3 e2 -> reach mem 4 root va (e_addr e2).
Proof.
  intros []. right. exists t4, e4. split_and!; try done. right. exists t3, e3. split_and!; try done.
  right. exists t2, e2. split_and!; try done. by left.
Qed.

(** ** The crate's [unmap] *)

(** The level 1 table under a table, for an address. *)
Fixpoint leaf_table (mem : memory) (level : nat) (f va : Z) : option Z :=
  match level with
  | O => None
  | S O => Some f
  | S below =>
      table ← mem !! f;
      e ← table !! index level va;
      if present e && negb (huge e) then leaf_table mem below (e_addr e) va else None
  end.

Definition clear_leaf (mem : memory) (root page : Z) : memory :=
  match leaf_table mem 4 root page with
  | Some p1 => match mem !! p1 with Some t => cleared mem p1 t (index 1 page) | None => mem end
  | None => mem
  end.

(** It removes a 4 KiB mapping, returns the frame, and deallocates nothing. *)
Class UnmapLaw `{Mapper} : Prop := {
  unmap_walk : forall mem lvl root page, tables_ok mem lvl -> lvl !! root = Some 4%nat -> page mod PAGE_SIZE = 0 ->
    match walk mem root page with
    | Some r => if tr_size r =? 4096 then unmap_page mem root page = Ok (clear_leaf mem root page, tr_start r)
                else exists e, unmap_page mem root page = Err e
    | None => exists e, unmap_page mem root page = Err e
    end;
}.

Lemma clear_leaf_path mem lvl root va t4 t3 t2 t1 e4 e3 e2 :
  table_path mem lvl root va t4 t3 t2 t1 e4 e3 e2 ->
  clear_leaf mem root va = cleared mem (e_addr e2) t1 (index 1 va).
Proof.
  intros [H4 Ht4 He4 (_ & Hp4 & Hh4) H3 Ht3 He3 (_ & Hp3 & Hh3) H2 Ht2 He2 (_ & Hp2 & Hh2) H1 Ht1].
  unfold clear_leaf. cbn [leaf_table]. rewrite Ht4. cbn [mbind option_bind]. rewrite He4. cbn [mbind option_bind].
  rewrite Hp4, Hh4, Ht3. cbn [negb andb mbind option_bind]. rewrite He3. cbn [mbind option_bind].
  rewrite Hp3, Hh3, Ht2. cbn [negb andb mbind option_bind]. rewrite He2. cbn [mbind option_bind]. rewrite Hp2, Hh2.
  cbn [negb andb]. by rewrite Ht1.
Qed.

Lemma page_div va vb : page_at va = page_at vb -> va / 4096 = vb / 4096.
Proof. unfold page_at, PAGE_SIZE. Z.div_mod_to_equations. lia. Qed.

Lemma index_page va vb k : page_at va = page_at vb -> (1 <= k)%nat -> index k va = index k vb.
Proof.
  intros Hpg Hk. apply page_div in Hpg. unfold index. f_equal. f_equal.
  replace (12 + 9 * (Z.of_nat k - 1)) with (12 + (9 * (Z.of_nat k - 1))) by lia.
  rewrite Z.pow_add_r by lia. change (2 ^ 12) with 4096. rewrite <- !Z.div_div by (try apply Z.pow_nonzero; lia || (apply Z.pow_pos_nonneg; lia)).
  by rewrite Hpg.
Qed.

(** Clearing the leaf: one page goes, in the spaces that share the table. *)
Lemma clear_leaf_walks mem lvl root page t4 t3 t2 t1 e4 e3 e2 e1 :
  tables_ok mem lvl -> 0 <= page < 2 ^ 48 -> page_at page = page ->
  table_path mem lvl root page t4 t3 t2 t1 e4 e3 e2 -> t1 !! index 1 page = Some e1 ->
  (forall va, page_at va = page -> walk (clear_leaf mem root page) root va = None) /\
  (forall root' va, lvl !! root' = Some 4%nat -> 0 <= va < 2 ^ 48 ->
     page_at va <> page \/ ~ shares mem root root' page -> walk (clear_leaf mem root page) root' va = walk mem root' va).
Proof.
  intros Hok Hrange Hpg Hlp He1. rewrite (clear_leaf_path _ _ _ _ _ _ _ _ _ _ _ Hlp).
  pose proof (table_path_reach _ _ _ _ _ _ _ _ _ _ _ Hlp) as Hreach.
  destruct Hlp as [H4 Ht4 He4 (_ & Hp4 & Hh4) H3 Ht3 He3 (_ & Hp3 & Hh3) H2 Ht2 He2 (_ & Hp2 & Hh2) H1 Ht1].
  split.
  - intros va Hva. assert (Hix : forall k, (1 <= k)%nat -> index k va = index k page) by (intros; apply index_page; congruence).
    unfold walk.
    rewrite (walk_into _ 3 root t4 e4), (walk_into _ 2 (e_addr e4) t3 e3), (walk_into _ 1 (e_addr e3) t2 e2);
      try done; rewrite ?Hix by lia; try done; try (unfold cleared; rewrite lookup_insert_ne by congruence; done).
    cbn [walk_from]. rewrite cleared_F. cbn [mbind option_bind]. rewrite Hix by lia.
    rewrite list_lookup_insert_eq by (by apply lookup_lt_Some in He1). done.
  - intros root' va Hr' Hvr Hne. apply (walk_avoid mem _ lvl (e_addr e2) 1 t1 (index 1 page) UNUSED); try done.
    + apply cleared_F.
    + intros f l. apply cleared_other.
    + intros Hreach' Hi1. destruct (reach_shares _ _ _ root' root va page Hok H1 Hr' H4 Hreach' Hreach) as [Hidx Hsh].
      destruct Hne as [Hne|Hne]; [|done]. apply Hne. rewrite <- Hpg. apply indices_page; [done|done|].
      intros k Hk. destruct (decide (k = 1%nat)) as [->|]; [done|]. apply Hidx. lia.
Qed.

(** ** Reclaiming *)

Lemma table_path_cleared mem lvl root va t4 t3 t2 t1 e4 e3 e2 i :
  table_path mem lvl root va t4 t3 t2 t1 e4 e3 e2 ->
  table_path (cleared mem (e_addr e2) t1 i) lvl root va t4 t3 t2 (<[i := UNUSED]> t1) e4 e3 e2.
Proof. intros []. split; try done; unfold cleared; try (rewrite lookup_insert_ne by congruence; done). apply lookup_insert_eq. Qed.

Lemma descend_ok {E} s l f t i e : tables s !! f = Some t -> t !! i = Some e -> leads l e ->
  descend (E:=E) f i s = (Ok (Some (e_addr e)), s).
Proof.
  intros Ht He (_ & Hp & Hh). unfold descend, table_at, entry_at, entry_frame. cbv beta iota delta [mbind M_bind].
  rewrite Ht, He. cbn [mret M_ret]. by rewrite Hp, Hh.
Qed.

Lemma detach_ok {E} s parent tp i e child tc : tables s !! child = Some tc -> tables s !! parent = Some tp -> tp !! i = Some e ->
  detach (E:=E) parent i child s =
  if table_is_empty tc then (Ok true, set_tables s (cleared (tables s) parent tp i)) else (Ok false, s).
Proof.
  intros Hc Hpt He. unfold detach, set_entry, table_at, entry_at. cbv beta iota delta [mbind M_bind]. rewrite Hc.
  destruct (table_is_empty tc); [|done]. rewrite Hpt, He. done.
Qed.

(** The tables left once the detached ones are forgotten. *)
Definition without (d : Detached) (lvl : levels) : levels :=
  let lvl1 := match d_p1 d with Some f => delete f lvl | None => lvl end in
  match d_p2 d with Some f => delete f lvl1 | None => lvl1 end.

(** What was detached was a table of its level. *)
Definition detached_from (d : Detached) (lvl : levels) : Prop :=
  (forall f, d_p1 d = Some f -> lvl !! f = Some 1%nat) /\ (forall f, d_p2 d = Some f -> lvl !! f = Some 2%nat).

Lemma lookup_without d lvl f l : detached_from d lvl -> lvl !! f = Some l -> (3 <= l)%nat -> without d lvl !! f = Some l.
Proof.
  intros [H1 H2] Hf Hl.
  assert (Hn1 : forall p, d_p1 d = Some p -> p <> f) by (intros p Hp ->; specialize (H1 _ Hp); simplify_eq; lia).
  assert (Hn2 : forall p, d_p2 d = Some p -> p <> f) by (intros p Hp ->; specialize (H2 _ Hp); simplify_eq; lia).
  unfold without. destruct (d_p2 d) as [p2|], (d_p1 d) as [p1|]; rewrite ?lookup_delete_ne; auto.
Qed.

Lemma reclaim_ok {E} s lvl root page t4 t3 t2 t1 e4 e3 e2 :
  tables_ok (tables s) lvl -> table_path (tables s) lvl root page t4 t3 t2 t1 e4 e3 e2 ->
  exists d m, reclaim_empty_tables (E:=E) root page s = (Ok d, set_tables s m) /\ detached_from d lvl /\
    tables_ok m (without d lvl) /\ (forall r, lvl !! r = Some 4%nat -> m !! r = tables s !! r) /\
    forall r va, lvl !! r = Some 4%nat -> walk m r va = walk (tables s) r va.
Proof.
  intros Hok [H4 Ht4 He4 Hd4 H3 Ht3 He3 Hd3 H2 Ht2 He2 Hd2 H1 Ht1]. unfold reclaim_empty_tables. cbv beta iota delta [mbind M_bind].
  rewrite (descend_ok s 4 root t4 _ e4) by done. rewrite (descend_ok s 3 _ t3 _ e3) by done. rewrite (descend_ok s 2 _ t2 _ e2) by done.
  rewrite (detach_ok s _ t2 _ e2 _ t1) by done. destruct (table_is_empty t1) eqn:Hem1.
  2:{ exists NONE, (tables s). split; [by destruct s|]. split; [by split|]. done. }
  destruct (unlink_ok _ _ _ _ _ _ _ _ Hok H2 ltac:(lia) Ht2 He2 Hd2 Ht1 Hem1) as [Hok2 Hag2].
  set (m2 := cleared (tables s) (e_addr e3) t2 (index 2 page)) in *.
  assert (Hm3 : m2 !! e_addr e4 = Some t3) by (unfold m2, cleared; rewrite lookup_insert_ne by congruence; done).
  assert (Hm2 : m2 !! e_addr e3 = Some (<[index 2 page := UNUSED]> t2)) by apply lookup_insert_eq.
  rewrite (detach_ok (set_tables s m2) _ t3 _ e3 _ (<[index 2 page := UNUSED]> t2)) by done.
  assert (Hr2 : forall r, lvl !! r = Some 4%nat -> m2 !! r = tables s !! r).
  { intros r Hr. unfold m2, cleared. rewrite lookup_insert_ne; [done|congruence]. }
  assert (Hn1 : forall f, Some (e_addr e2) = Some f -> lvl !! f = Some 1%nat) by (intros f [= <-]; done).
  destruct (table_is_empty (<[index 2 page := UNUSED]> t2)) eqn:Hem2; cbn [mret M_ret].
  2:{ exists {| d_p2 := None; d_p1 := Some (e_addr e2) |}, m2. split; [done|]. split; [by split|]. split; [done|].
      split; [done|]. intros r va Hr. by apply Hag2. }
  assert (H3' : delete (e_addr e2) lvl !! e_addr e4 = Some 3%nat) by (rewrite lookup_delete_ne by congruence; done).
  destruct (unlink_ok _ _ _ _ _ _ _ _ Hok2 H3' ltac:(lia) Hm3 He3 Hd3 Hm2 Hem2) as [Hok3 Hag3].
  exists {| d_p2 := Some (e_addr e3); d_p1 := Some (e_addr e2) |}, (cleared m2 (e_addr e4) t3 (index 3 page)).
  split; [done|]. split; [split; [done|by intros f [= <-]]|]. split; [done|]. split.
  { intros r Hr. unfold cleared. rewrite lookup_insert_ne by congruence. by apply Hr2. }
  intros r va Hr. etrans; [apply Hag3|by apply Hag2]. rewrite lookup_delete_ne by congruence. done.
Qed.

(** ** Giving the tables back *)

Definition freed_list (d : Detached) : list Z := option_list (d_p2 d) ++ option_list (d_p1 d).

Lemma free_table {E} s lvl f l : frames_ok (frames s) -> tables_used (frames s) lvl -> lvl !! f = Some l -> (l <= 2)%nat ->
  exists a, frame_deallocate (E:=E) f s = (Ok tt, add_effect (set_allocator s a) (Freed f)) /\ frames_ok a /\
    total_frames a = total_frames (frames s) /\ tables_used a (delete f lvl) /\
    forall n, 0 <= n -> used_at a n = negb (bool_decide (frame_at n = f)) && used_at (frames s) n.
Proof.
  intros Hfr Hus Hf Hl. destruct (Hus _ _ Hf) as (n & -> & Hn & Hused & Hlow). specialize (Hlow Hl). specialize (Hused Hlow).
  pose proof (deallocate_sound (frames s) n Hfr ltac:(lia)) as Hd. unfold frame_deallocate.
  destruct (deallocate (frame_at n) (frames s)) as [a|[]|]; [|congruence].
  destruct Hd as (_ & Hfr' & _ & Htot & Hg). exists a. split_and!; try done.
  - intros g k Hg'. apply lookup_delete_Some in Hg' as [Hne Hg']. destruct (Hus _ _ Hg') as (m & -> & Hm & Hmu & Hml).
    exists m. split; [done|]. split; [done|]. rewrite Htot. split; [|done]. intros Hlt. rewrite Hg by done.
    rewrite bool_decide_false by congruence. by rewrite Hmu.
  - intros m Hm. rewrite Hg by done. f_equal. f_equal. apply bool_decide_ext. split; [congruence|apply frame_at_inj].
Qed.

Lemma detached_free_ok {E} s lvl d : frames_ok (frames s) -> tables_used (frames s) lvl -> detached_from d lvl ->
  exists s', Detached_free (E:=E) d s = (Ok tt, s') /\ tables s' = tables s /\ cr3 s' = cr3 s /\
    PHYSICAL_OFFSET s' = PHYSICAL_OFFSET s /\ KERNEL_SPACE s' = KERNEL_SPACE s /\ frames_ok (frames s') /\
    tables_used (frames s') (without d lvl) /\ effects s' = effects s ++ (Freed <$> freed_list d) /\
    total_frames (frames s') = total_frames (frames s) /\
    forall n, 0 <= n -> used_at (frames s') n = negb (bool_decide (frame_at n ∈ freed_list d)) && used_at (frames s) n.
Proof.
  intros Hfr Hus [H1 H2]. destruct d as [[p2|] [p1|]]; unfold Detached_free, without, freed_list in *; cbn [d_p2 d_p1] in *;
    cbv beta iota delta [mbind M_bind mret M_ret].
  - specialize (H1 _ eq_refl). specialize (H2 _ eq_refl).
    destruct (free_table (E:=E) s lvl p2 2 Hfr Hus H2 ltac:(lia)) as (a & -> & Hfr2 & Htot2 & Hus2 & Hg2).
    assert (H1' : delete p2 lvl !! p1 = Some 1%nat) by (rewrite lookup_delete_ne by congruence; done).
    destruct (free_table (E:=E) (add_effect (set_allocator s a) (Freed p2)) _ p1 1 Hfr2 Hus2 H1' ltac:(lia)) as (a' & -> & Hfr3 & Htot3 & Hus3 & Hg3).
    eexists. split; [done|]. simpl. split_and!; try done.
    + by rewrite delete_delete.
    + by rewrite <- app_assoc.
    + simpl in Htot3. congruence.
    + intros n Hn. rewrite Hg3 by done. simpl. rewrite Hg2 by done. rewrite andb_assoc. f_equal. rewrite <- negb_orb. f_equal.
      rewrite <- bool_decide_or. apply bool_decide_ext. set_solver.
  - specialize (H2 _ eq_refl). destruct (free_table (E:=E) s lvl p2 2 Hfr Hus H2 ltac:(lia)) as (a & -> & Hfr2 & Htot2 & Hus2 & Hg2).
    eexists. split; [done|]. simpl. split_and!; try done. intros n Hn. rewrite Hg2 by done. f_equal. f_equal.
    apply bool_decide_ext. set_solver.
  - specialize (H1 _ eq_refl). destruct (free_table (E:=E) s lvl p1 1 Hfr Hus H1 ltac:(lia)) as (a & -> & Hfr2 & Htot2 & Hus2 & Hg2).
    eexists. split; [done|]. simpl. split_and!; try done. intros n Hn. rewrite Hg2 by done. f_equal. f_equal.
    apply bool_decide_ext. set_solver.
  - exists s. split; [done|]. split_and!; try done. simpl. by rewrite app_nil_r.
Qed.

(** ** The whole of [unmap_in] *)

(** No table is given back before the other processors were told to forget it. *)
Definition told_before_freed (new : list Effect) : Prop :=
  forall before f after, new = before ++ Freed f :: after -> ShootAll ∈ before.

Definition unmap_outcome (space page : Z) (s : Paging) (lvl : levels) (out : result UnmapError Z * Paging) : Prop :=
  match out with
  | (Ok f, s') => exists r d new,
      walk (tables s) space page = Some r /\ tr_size r = 4096 /\ f = tr_start r /\
      detached_from d lvl /\ paging_ok s' (without d lvl) /\ same_rest s s' /\
      (forall root, lvl !! root = Some 4%nat -> tables s' !! root = tables s !! root) /\
      (forall va, page_at va = page -> walk (tables s') space va = None) /\
      (forall root va, lvl !! root = Some 4%nat -> 0 <= va < 2 ^ 48 ->
         page_at va <> page \/ ~ shares (tables s) space root page ->
         walk (tables s') root va = walk (tables s) root va) /\
      (forall n, 0 <= n -> used_at (frames s') n = negb (bool_decide (frame_at n ∈ freed_list d)) && used_at (frames s) n) /\
      total_frames (frames s') = total_frames (frames s) /\
      effects s' = effects s ++ new /\ (KERNEL_SPACE s = Some space -> told_before_freed new)
  | (Err _, s') => s' = s /\ forall r, walk (tables s) space page = Some r -> tr_size r <> 4096
  | (Panic, _) => False
  end.

Lemma set_tables_twice s m m' : set_tables (set_tables s m) m' = set_tables s m'.
Proof. done. Qed.

Lemma told_before_intro (pre : list Effect) fs : (forall f, Freed f ∉ pre) -> (fs <> [] -> ShootAll ∈ pre) ->
  told_before_freed (pre ++ (Freed <$> fs)).
Proof.
  intros Hpre Hfs before f after Heq. destruct (decide (fs = [])) as [->|Hne].
  - rewrite app_nil_r in Heq. exfalso. apply (Hpre f). rewrite Heq. set_solver.
  - specialize (Hfs Hne). apply app_eq_inv in Heq as [(k & -> & Heq)|(k & -> & Heq)].
    + destruct k as [|x k]; [by rewrite app_nil_r in Hfs|].
      exfalso. simplify_list_eq. apply (Hpre f). set_solver.
    + set_solver.
Qed.

Lemma shoot_ok {E} s space page d : exists pre,
  (if any d then shoot_down_all_if_shared (E:=E) space else shoot_down_if_shared space page) s =
    (Ok tt, {| tables := tables s; frames := frames s; cr3 := cr3 s; KERNEL_SPACE := KERNEL_SPACE s;
               PHYSICAL_OFFSET := PHYSICAL_OFFSET s; effects := effects s ++ pre |}) /\
  (forall f, Freed f ∉ pre) /\ (KERNEL_SPACE s = Some space -> freed_list d <> [] -> ShootAll ∈ pre).
Proof.
  assert (Hany : freed_list d <> [] -> any d = true) by (destruct d as [[] []]; done).
  unfold shoot_down_all_if_shared, shoot_down_if_shared, emit. cbv beta iota delta [mbind M_bind get].
  destruct (any d), (bool_decide (KERNEL_SPACE s = Some space)) eqn:Hk; cbn [modify mret M_ret].
  - exists [ShootAll]. split; [done|]. split; [set_solver|]. set_solver.
  - exists []. split; [rewrite app_nil_r; by destruct s|]. split; [set_solver|]. by apply bool_decide_eq_false in Hk.
  - exists [ShootPage page]. split; [done|]. split; [set_solver|]. intros _ Hne. specialize (Hany Hne). done.
  - exists []. split; [rewrite app_nil_r; by destruct s|]. split; [set_solver|]. by apply bool_decide_eq_false in Hk.
Qed.

Section UnmapIn.
Context `{UnmapLaw}.

(** What [unmap_in] leaves behind, whichever way it ends. *)
Lemma unmap_in_correct s lvl space page :
  paging_ok s lvl -> lvl !! space = Some 4%nat -> 0 <= page < 2 ^ 48 -> page_at page = page ->
  unmap_outcome space page s lvl (unmap_in space page s).
Proof.
  intros [Hok Hfr Hus Hroot Hwin] H4 Hrange Hpg. unfold unmap_in, with_space, require.
  pose proof (unmap_walk (tables s) lvl space page Hok H4) as Hlaw.
  assert (Hmod : page mod PAGE_SIZE = 0) by (unfold page_at in Hpg; lia). specialize (Hlaw Hmod).
  destruct Hwin as [o Ho]. cbv beta iota delta [mbind M_bind get]. rewrite Ho. cbn [mret M_ret]. unfold mapper_unmap.
  destruct (walk (tables s) space page) as [r|] eqn:Hw; [destruct (tr_size r =? 4096) eqn:Hsz|].
  2:{ destruct Hlaw as [e ->]. split; [done|]. intros r' Hr'. rewrite Hw in Hr'. simplify_eq. by apply Z.eqb_neq. }
  2:{ destruct Hlaw as [e ->]. split; [done|]. intros r' Hr'. congruence. }
  rewrite Hlaw. apply Z.eqb_eq in Hsz.
  destruct (walk_table_path _ _ _ _ _ Hok H4 Hw Hsz) as (t4 & t3 & t2 & t1 & e4 & e3 & e2 & e1 & Hpath & He1 & Hstart).
  destruct (clear_leaf_walks _ _ _ _ _ _ _ _ _ _ _ _ Hok Hrange Hpg Hpath He1) as [Hgone Hrest].
  rewrite (clear_leaf_path _ _ _ _ _ _ _ _ _ _ _ Hpath) in *. set (m1 := cleared _ _ _ _) in *.
  set (s1 := add_effect (set_tables s m1) (FlushLocal page)).
  assert (Hok1 : tables_ok (tables s1) lvl) by (apply (cleared_ok _ _ Hok _ 1); apply Hpath).
  pose proof (table_path_cleared _ _ _ _ _ _ _ _ _ _ _ (index 1 page) Hpath) as Hpath1.
  destruct (reclaim_ok (E:=UnmapError) s1 lvl space page _ _ _ _ _ _ _ Hok1 Hpath1) as (d & m & Hrec & Hdet & Hokm & Hroots & Hsame).
  unfold reclaim_tables_for. cbv beta iota delta [mbind M_bind get]. change (PHYSICAL_OFFSET s1) with (PHYSICAL_OFFSET s). rewrite Ho, Hrec.
  set (s2 := set_tables s1 m).
  assert (Hflush : exists pre, (if any d then emit FlushAllLocal else mret tt : M Paging UnmapError unit) s2 =
    (Ok tt, {| tables := m; frames := frames s; cr3 := cr3 s; KERNEL_SPACE := KERNEL_SPACE s;
               PHYSICAL_OFFSET := PHYSICAL_OFFSET s; effects := effects s ++ pre |}) /\ forall f, Freed f ∉ pre).
  { destruct (any d); [exists [FlushLocal page; FlushAllLocal]|exists [FlushLocal page]]; (split; [|set_solver]); [|done].
    unfold emit, modify, s2, s1, add_effect. simpl. by rewrite <- app_assoc. }
  destruct Hflush as (pre & -> & Hpre). cbn [mret M_ret]. unfold shoot_down_and_free. cbv beta iota delta [mbind M_bind].
  destruct (shoot_ok (E:=UnmapError) {| tables := m; frames := frames s; cr3 := cr3 s; KERNEL_SPACE := KERNEL_SPACE s;
    PHYSICAL_OFFSET := PHYSICAL_OFFSET s; effects := effects s ++ pre |} space page d) as (pre2 & -> & Hpre2 & Hshoot).
  cbn [tables frames cr3 KERNEL_SPACE PHYSICAL_OFFSET effects] in *.
  match goal with |- context [Detached_free d ?st] => set (s3 := st) end.
  destruct (detached_free_ok (E:=UnmapError) s3 lvl d Hfr Hus Hdet) as (s4 & -> & Ht & Hc & Hph & Hk & Hfr4 & Hus4 & Heff & Htot4 & Hg).
  cbn [mret M_ret unmap_outcome]. exists r, d, ((pre ++ pre2) ++ (Freed <$> freed_list d)).
  assert (Hwalks : forall r va, lvl !! r = Some 4%nat -> walk (tables s4) r va = walk m1 r va).
  { intros rt va Hr. rewrite Ht. by apply Hsame. }
  split_and!; try done.
  - split; [by rewrite Ht|done|done| |by rewrite Hph; eauto]. rewrite Hc. apply lookup_without; [done|exact Hroot|lia].
  - intros rt Hr. rewrite Ht. cbn [tables]. rewrite Hroots by done. unfold s1, m1, cleared. cbn [tables add_effect set_tables].
    rewrite lookup_insert_ne; [done|]. pose proof (tp_l1 _ _ _ _ _ _ _ _ _ _ _ Hpath). congruence.
  - intros va Hva. rewrite Hwalks by done. by apply Hgone.
  - intros rt va Hr Hv Hne. rewrite Hwalks by done. by apply Hrest.
  - rewrite Heff. simpl. by rewrite !app_assoc.
  - intros Hks. apply told_before_intro; [set_solver|]. intros Hne. specialize (Hshoot Hks Hne). set_solver.
Qed.


End UnmapIn.
