(* ===== verification/PagingSpace.v ===== *)
(** * Making and destroying an address space

    A new space sees what the loaded one sees except the user region, where it sees
    nothing.  Destroying one gives back its private tables and the pages they map, each
    once, and leaves every other space alone. *)

From stdpp Require Import base list gmap numbers list_numbers.
From Stdlib Require Import Lia.
From S2P Require Import Prelude Frame Paging PagingInv PagingSplit PagingUnmap.

(** ** A new space *)

Lemma lookup_clone (t : PageTable) i : clone_kernel t !! i = (fun e => if Nat.eqb i USER_L4_INDEX then UNUSED else e) <$> t !! i.
Proof. unfold clone_kernel. by rewrite list_lookup_imap. Qed.

Section NewUser.
Context (mem : memory) (lvl : levels) (Hok : tables_ok mem lvl) (root : Z) (t : PageTable) (f : Z).
Context (Hroot : lvl !! root = Some 4%nat) (Ht : mem !! root = Some t) (Hf : lvl !! f = None).

Definition with_clone : memory := <[f := clone_kernel t]> mem.

Lemma entry_in_clone g l i e : entry_in with_clone (<[f := 4%nat]> lvl) g l i e ->
  entry_in mem lvl g l i e \/ (g = f /\ l = 4%nat /\ (e = UNUSED \/ entry_in mem lvl root 4 i e)).
Proof.
  unfold with_clone. intros [Hl (tb & Htb & He)]. destruct (decide (g = f)) as [->|Hne].
  - right. rewrite lookup_insert_eq in Hl. rewrite lookup_insert_eq in Htb. simplify_eq. split; [done|]. split; [done|].
    rewrite lookup_clone in He. destruct (t !! i) as [d|] eqn:Hd; [|done]. cbn in He. injection He as <-.
    destruct (Nat.eqb i USER_L4_INDEX); [by left|]. right. split; eauto.
  - left. rewrite lookup_insert_ne in Hl by done. rewrite lookup_insert_ne in Htb by done. split; eauto.
Qed.

(** A leading entry of the new memory is an old one, at the same level and index. *)
Lemma clone_leads g l i e : entry_in with_clone (<[f := 4%nat]> lvl) g l i e -> leads l e ->
  entry_in mem lvl g l i e \/ (g = f /\ l = 4%nat /\ entry_in mem lvl root 4 i e).
Proof.
  intros He Hl. destruct (entry_in_clone _ _ _ _ He) as [Hold|(-> & -> & [->|Hr])]; [by left| |by right].
  by destruct Hl as (_ & ? & _).
Qed.

Lemma clone_ok : tables_ok with_clone (<[f := 4%nat]> lvl).
Proof.
  split.
  - intros g l Hg. unfold with_clone. destruct (decide (g = f)) as [->|Hne].
    + rewrite lookup_insert_eq in Hg. rewrite lookup_insert_eq. simplify_eq. split; [lia|]. eexists. split; [done|].
      unfold clone_kernel. rewrite length_imap. destruct (to_table _ _ Hok _ _ Hroot) as [_ (t' & Ht' & Hlen)]. by simplify_eq.
    + rewrite lookup_insert_ne in Hg by done. rewrite lookup_insert_ne by done. by apply (to_table _ _ Hok).
  - intros g l i e He Hl.
    assert (Hc : lvl !! e_addr e = Some (pred l)).
    { destruct (clone_leads _ _ _ _ He Hl) as [Hold|(-> & -> & Hr)]; by eapply (to_child _ _ Hok). }
    rewrite lookup_insert_ne; [done|]. intros Heq. rewrite <- Heq in Hc. congruence.
  - intros g l i e He Hp. destruct (entry_in_clone _ _ _ _ He) as [Hold|(-> & -> & [->|Hr])]; [|done|]; by eapply (to_clean _ _ Hok).
  - intros g l i e He Hp Hh Hlt. destruct (entry_in_clone _ _ _ _ He) as [Hold|(-> & -> & [->|Hr])]; [|done|]; by eapply (to_huge _ _ Hok).
  - intros g l i e h k j d He Hd Hl3 Hk3 Hl Hk Heq. destruct (clone_leads _ _ _ _ He Hl) as [Hold|(-> & -> & Hr)]; [|lia].
    destruct (clone_leads _ _ _ _ Hd Hk) as [Hold'|(-> & -> & Hr)]; [|lia]. by eapply (to_unique _ _ Hok).
  - intros g i e h j d He Hd Hl Hk Heq. destruct (clone_leads _ _ _ _ He Hl) as [Hold|(-> & _ & Hold)];
      (destruct (clone_leads _ _ _ _ Hd Hk) as [Hold'|(-> & _ & Hold')]); by eapply (to_shared _ _ Hok).
Qed.

Lemma clone_agree l : agree eq mem with_clone lvl l.
Proof.
  apply walk_local; [apply _|apply eq_through|done|]. intros g k va Hg. left. unfold with_clone.
  rewrite lookup_insert_ne; [done|]. congruence.
Qed.

Lemma clone_walk va : walk with_clone f va = if Nat.eqb (index 4 va) USER_L4_INDEX then None else walk mem root va.
Proof.
  assert (Hc : with_clone !! f = Some (clone_kernel t)) by apply lookup_insert_eq.
  unfold walk. cbn [walk_from]. rewrite Hc, Ht. cbn [mbind option_bind].
  rewrite lookup_clone. destruct (t !! index 4 va) as [e|] eqn:He; cbn [fmap option_fmap option_map mbind option_bind];
    [|by destruct (Nat.eqb _ _)]. destruct (Nat.eqb (index 4 va) USER_L4_INDEX); [done|].
  destruct (present e) eqn:Hp; cbn [negb]; [|done]. cbn [Nat.eqb]. destruct (huge e) eqn:Hh; [done|].
  apply eq_through. apply (clone_agree 3). apply (to_child _ _ Hok root 4 (index 4 va) e); [split; eauto|].
  unfold leads. split_and!; [lia|done|done].
Qed.

End NewUser.

(** A new space has every mapping of the loaded one outside the user region and none
    inside it; no other space changes; without a free frame nothing happens. *)
Theorem new_user_sound E s lvl :
  paging_ok s lvl ->
  match new_user (E:=E) s with
  | (Ok (Some f), s') => lvl !! f = None /\ paging_ok s' (<[f := 4%nat]> lvl) /\
      (forall va, walk (tables s') f va =
         if Nat.eqb (index 4 va) USER_L4_INDEX then None else walk (tables s) (cr3 s) va) /\
      forall root va, lvl !! root = Some 4%nat -> walk (tables s') root va = walk (tables s) root va
  | (Ok None, s') => s' = s /\ free_frames (frames s) = 0
  | _ => False
  end.
Proof.
  intros [Hok Hfr Hus Hroot [o Ho]]. unfold new_user, frame_allocate. cbv beta iota delta [mbind M_bind get]. rewrite Ho.
  pose proof (allocate_sound _ Hfr) as Ha. destruct (allocate (frames s)) as [[[f|] a]|?|]; [|..]; [|..|done|done].
  2:{ destruct Ha as (-> & Hfree & _). split; [by destruct s|done]. }
  destruct Ha as (n & -> & Hn & Hfree & Hfr' & _ & Htot & Hg). pose proof (fresh_frame _ _ _ Hus Hn Hfree) as Hnew.
  destruct (to_table _ _ Hok _ _ Hroot) as [_ (t & Ht & Hlen)]. unfold table_at. cbn [tables set_allocator]. rewrite Ht.
  cbn [put_table modify mret M_ret]. split; [done|]. split_and!.
  - split; simpl; [by apply (clone_ok _ _ Hok (cr3 s))|done|by eapply tables_used_grow| |eauto].
    rewrite lookup_insert_ne; [done|]. congruence.
  - intros va. by apply (clone_walk _ lvl).
  - intros root va Hr. by apply (clone_agree _ lvl Hok t (frame_at n) Hnew 4).
Qed.

(** ** What a space owns *)

Definition child_of (e : PageTableEntry) : bool := present e && negb (huge e).

(** The tables of a subtree and the pages it maps, children first. *)
Fixpoint subtree (mem : memory) (level : nat) (f : Z) : list Z :=
  match level with
  | O => []
  | S below =>
      match mem !! f with
      | None => []
      | Some t =>
          flat_map (fun e => if child_of e
                             then (if Nat.ltb 1 level then subtree mem below (e_addr e) else [e_addr e])
                             else []) t ++ [f]
      end
  end.

(** What belongs to a space alone: its user subtree and its level 4 table. *)
Definition owned (mem : memory) (space : Z) : list Z :=
  match mem !! space with
  | None => []
  | Some t =>
      match t !! USER_L4_INDEX with
      | Some e => if child_of e then subtree mem 3 (e_addr e) else []
      | None => []
      end ++ [space]
  end.

Section Release.
Context {E : Type}.
Abbreviation dealloc_all := (for_each (E:=E) frame_deallocate).

Lemma deallocate_tables f s r s' : frame_deallocate (E:=E) f s = (r, s') -> tables s' = tables s.
Proof. unfold frame_deallocate. destruct (deallocate f (frames s)); intros [= <- <-]; done. Qed.

Lemma dealloc_all_tables fs : forall s r s', dealloc_all fs s = (r, s') -> tables s' = tables s.
Proof.
  induction fs as [|f fs IH]; intros s r s'; cbn [for_each]; [by intros [= <- <-]|]. cbv beta iota delta [mbind M_bind].
  destruct (frame_deallocate f s) as [[[]|?|] s1] eqn:Hd; pose proof (deallocate_tables _ _ _ _ Hd) as Ht.
  - intros Hr. rewrite (IH _ _ _ Hr). done.
  - by intros [= <- <-].
  - by intros [= <- <-].
Qed.

Lemma dealloc_all_app fs gs s : dealloc_all (fs ++ gs) s = (dealloc_all fs ;; dealloc_all gs) s.
Proof.
  revert s. induction fs as [|f fs IH]; intros s; cbn [for_each app]; [done|]. cbv beta iota delta [mbind M_bind].
  destruct (frame_deallocate f s) as [[[]|?|] s1]; [|done|done]. by rewrite IH.
Qed.

(** A loop over entries that frees what each entry owns frees the concatenation. *)
Lemma for_each_dealloc (mem : memory) (body : PageTableEntry -> M Paging E unit) (own : PageTableEntry -> list Z) (t : PageTable) :
  (forall e s, e ∈ t -> tables s = mem -> body e s = dealloc_all (own e) s) ->
  forall s, tables s = mem -> for_each body t s = dealloc_all (flat_map own t) s.
Proof.
  induction t as [|e t IH]; intros Hb s Hs; [done|]. cbn [for_each flat_map]. rewrite dealloc_all_app.
  cbv beta iota delta [mbind M_bind]. rewrite Hb by (by left || done).
  destruct (dealloc_all (own e) s) as [[[]|?|] s1] eqn:Hd; [|done|done].
  apply IH; [|by rewrite (dealloc_all_tables _ _ _ _ Hd)]. intros e' s' He'. apply Hb. by right.
Qed.

Lemma free_tree_eq mem lvl : tables_ok mem lvl -> forall l f s, tables s = mem -> lvl !! f = Some l ->
  free_table_tree (E:=E) l f s = dealloc_all (subtree mem l f) s.
Proof.
  intros Hok l. induction l as [|l IH]; intros f s Hs Hf; [done|].
  destruct (to_table _ _ Hok _ _ Hf) as [_ (t & Ht & _)]. cbn [free_table_tree subtree]. rewrite Ht, dealloc_all_app.
  unfold table_at at 1. cbv beta iota delta [mbind M_bind]. rewrite Hs, Ht.
  rewrite (for_each_dealloc mem _ (fun e => if child_of e
             then (if Nat.ltb 1 (S l) then subtree mem l (e_addr e) else [e_addr e]) else []) t); [|clear s Hs|done].
  - destruct (dealloc_all (flat_map _ t) s) as [[[]|?|] s1]; [|done|done]. cbn [for_each]. cbv beta iota delta [mbind M_bind].
    destruct (frame_deallocate f s1) as [[[]|?|] s2]; done.
  - intros e s He Hs. apply list_elem_of_lookup in He as [i He]. unfold child_of, entry_frame.
    destruct (present e) eqn:Hp; cbn [negb orb andb]; [|done]. destruct (huge e) eqn:Hh; cbn [negb]; [done|].
    destruct (Nat.ltb 1 (S l)) eqn:Hlt.
    + apply Nat.ltb_lt in Hlt. apply IH; [done|].
      apply (to_child _ _ Hok f (S l) i e); [split; eauto|]. unfold leads. split_and!; [lia|done|done].
    + cbn [for_each]. cbv beta iota delta [mbind M_bind]. destruct (frame_deallocate (e_addr e) s) as [[[]|?|] s2]; done.
Qed.

Lemma release_eq s lvl space : paging_ok s lvl -> lvl !! space = Some 4%nat ->
  release (E:=E) space s = dealloc_all (owned (tables s) space) s.
Proof.
  intros [Hok _ _ _ [o Ho]] H4. destruct (to_table _ _ Hok _ _ H4) as [_ (t & Ht & Hlen)].
  assert (Hlt : (USER_L4_INDEX < length t)%nat) by (rewrite Hlen; vm_compute; lia).
  destruct (lookup_lt_is_Some_2 _ _ Hlt) as [e He]. unfold release, owned, table_at, entry_at. rewrite Ht, He, dealloc_all_app.
  cbv beta iota delta [mbind M_bind get]. rewrite Ho, Ht, He. cbn [mret M_ret]. unfold child_of, entry_frame.
  destruct (present e) eqn:Hp; cbn [negb andb].
  2:{ cbn [for_each mret M_ret]. cbv beta iota delta [mbind M_bind]. destruct (frame_deallocate space s) as [[[]|?|] s2]; done. }
  destruct (huge e) eqn:Hh; cbn [negb].
  { cbn [for_each mret M_ret]. cbv beta iota delta [mbind M_bind]. destruct (frame_deallocate space s) as [[[]|?|] s2]; done. }
  rewrite (free_tree_eq (tables s) lvl); [|done|done|].
  - destruct (dealloc_all (subtree _ _ _) s) as [[[]|?|] s1]; [|done|done]. cbn [for_each]. cbv beta iota delta [mbind M_bind].
    destruct (frame_deallocate space s1) as [[[]|?|] s2]; done.
  - apply (to_child _ _ Hok space 4 USER_L4_INDEX e); [split; eauto|]. unfold leads. split_and!; [lia|done|done].
Qed.

(** A frame in use that the allocator manages. *)
Definition held (a : BitmapFrameAllocator) (f : Z) : Prop :=
  exists n, f = frame_at n /\ 0 <= n < total_frames a /\ used_at a n = true.

Lemma dealloc_all_ok fs : forall s, frames_ok (frames s) -> NoDup fs -> Forall (held (frames s)) fs ->
  exists s', dealloc_all fs s = (Ok tt, s') /\ cr3 s' = cr3 s /\ PHYSICAL_OFFSET s' = PHYSICAL_OFFSET s /\
    tables s' = tables s /\ frames_ok (frames s') /\ total_frames (frames s') = total_frames (frames s) /\
    forall n, 0 <= n -> used_at (frames s') n = negb (bool_decide (frame_at n ∈ fs)) && used_at (frames s) n.
Proof.
  induction fs as [|f fs IH]; intros s Hfr Hnd Hall.
  { exists s. split; [done|]. split_and!; try done. }
  apply NoDup_cons in Hnd as [Hf Hnd]. apply Forall_cons in Hall as [(n & -> & Hn & Hu) Hall].
  cbn [for_each]. cbv beta iota delta [mbind M_bind]. pose proof (deallocate_sound (frames s) n Hfr Hn) as Hd.
  destruct (deallocate (frame_at n) (frames s)) as [a|[]|] eqn:Ha; [|congruence]. destruct Hd as (_ & Hfr1 & _ & Htot & Hg).
  assert (Hfd : frame_deallocate (E:=E) (frame_at n) s = (Ok tt, add_effect (set_allocator s a) (Freed (frame_at n)))).
  { unfold frame_deallocate. by rewrite Ha. }
  rewrite Hfd.
  destruct (IH (add_effect (set_allocator s a) (Freed (frame_at n)))) as (s' & -> & Hc & Hp & Ht & Hfr' & Htot' & Hg'); [done|done| |].
  - rewrite list.Forall_forall in Hall |- *. intros f Hin. destruct (Hall f Hin) as (m & -> & Hm & Hmu). exists m. cbn [frames add_effect set_allocator].
    rewrite Htot. split; [done|]. split; [done|]. rewrite Hg by lia. rewrite bool_decide_false; [done|]. by intros ->.
  - exists s'. split; [done|]. split_and!; try done; [by rewrite Htot'|]. intros m Hm. rewrite Hg' by done.
    cbn [frames add_effect set_allocator]. rewrite Hg by done. rewrite andb_assoc, <- negb_orb, <- bool_decide_or. f_equal. f_equal.
    apply bool_decide_ext. rewrite elem_of_cons. split; [naive_solver|]. intros [->%frame_at_inj|]; naive_solver.
Qed.
End Release.

Lemma child_leads l e : child_of e = true -> (1 < l)%nat -> leads l e.
Proof. unfold child_of. intros [Hp Hh%negb_true_iff]%andb_true_iff Hl. done. Qed.

(** A table or page of a subtree is its root or hangs from one of its tables. *)
Lemma subtree_parent mem lvl l : tables_ok mem lvl -> forall f C, lvl !! f = Some l -> C ∈ subtree mem l f ->
  C = f \/ exists g k i e, g ∈ subtree mem l f /\ entry_in mem lvl g k i e /\ (k <= l)%nat /\ child_of e = true /\ e_addr e = C.
Proof.
  intros Hok. induction l as [|l IH]; intros f C Hf HC; [by apply elem_of_nil in HC|].
  destruct (to_table _ _ Hok _ _ Hf) as [_ (t & Ht & _)]. cbn [subtree] in HC |- *. rewrite Ht in HC |- *.
  apply elem_of_app in HC as [HC|HC]; [|left; by apply list_elem_of_singleton in HC].
  right. rewrite list_elem_of_In, in_flat_map in HC. destruct HC as (e & He & HC).
  rewrite <- list_elem_of_In in He. pose proof He as Hin. apply list_elem_of_lookup in He as [i He]. rewrite <- list_elem_of_In in HC.
  destruct (child_of e) eqn:Hce; [|by apply elem_of_nil in HC].
  assert (Hent : entry_in mem lvl f (S l) i e) by (split; eauto).
  assert (Hfin : forall x, x ∈ (if Nat.ltb 1 (S l) then subtree mem l (e_addr e) else [e_addr e]) -> x ∈ flat_map (fun e =>
    if child_of e then (if Nat.ltb 1 (S l) then subtree mem l (e_addr e) else [e_addr e]) else []) t ++ [f]).
  { intros x Hx. apply elem_of_app. left. rewrite list_elem_of_In, in_flat_map. exists e. rewrite <- !list_elem_of_In, Hce. done. }
  assert (Hself : f ∈ flat_map (fun e =>
    if child_of e then (if Nat.ltb 1 (S l) then subtree mem l (e_addr e) else [e_addr e]) else []) t ++ [f]) by (apply elem_of_app; right; set_solver).
  destruct (Nat.ltb 1 (S l)) eqn:Hlt.
  - apply Nat.ltb_lt in Hlt. assert (Hc : lvl !! e_addr e = Some l) by (by apply (to_child _ _ Hok f (S l) i e Hent), child_leads).
    destruct (IH (e_addr e) C Hc HC) as [->|(g & k & j & d & Hg & Hd & Hk & Hcd & <-)].
    + exists f, (S l), i, e. split_and!; try done.
    + exists g, k, j, d. split_and!; try done; [|lia]. by apply Hfin.
  - apply list_elem_of_singleton in HC as ->. exists f, (S l), i, e. split_and!; try done.
Qed.

(** What a space owns is its own: no other level 4 table leads into it, and the pages it
    maps in the user region are not tables and appear once. *)
Record private (s : Paging) (lvl : levels) (space : Z) : Prop := {
  pv_roots : forall root i e, root <> space -> entry_in (tables s) lvl root 4 i e -> leads 4 e -> e_addr e ∉ owned (tables s) space;
  pv_pages : forall g i e, g ∈ owned (tables s) space -> entry_in (tables s) lvl g 1 i e -> child_of e = true -> lvl !! e_addr e = None;
  pv_once : NoDup (owned (tables s) space);
  pv_held : Forall (held (frames s)) (owned (tables s) space);
}.

(** The tables left. *)
Definition survivors (lvl : levels) (gone : list Z) : levels := filter (fun p => p.1 ∉ gone) lvl.

Lemma lookup_survivors lvl gone f l : survivors lvl gone !! f = Some l <-> lvl !! f = Some l /\ f ∉ gone.
Proof. unfold survivors. rewrite map_lookup_filter_Some. done. Qed.

Lemma drop_many_ok mem lvl gone : tables_ok mem lvl ->
  (forall f l i e, entry_in mem lvl f l i e -> f ∉ gone -> leads l e -> e_addr e ∉ gone) -> tables_ok mem (survivors lvl gone).
Proof.
  intros Hok Hno. assert (Hw : forall f l i e, entry_in mem (survivors lvl gone) f l i e -> entry_in mem lvl f l i e /\ f ∉ gone).
  { intros f l i e [Hf He]. apply lookup_survivors in Hf as [Hf Hn]. done. }
  split.
  - intros f l Hf. apply lookup_survivors in Hf as [Hf _]. by apply (to_table _ _ Hok).
  - intros f l i e He Hl. destruct (Hw _ _ _ _ He) as [He' Hn]. apply lookup_survivors. split; [by eapply (to_child _ _ Hok)|by eapply Hno].
  - intros f l i e He. by eapply (to_clean _ _ Hok), Hw.
  - intros f l i e He. by eapply (to_huge _ _ Hok), Hw.
  - intros f l i e g k j d He Hd. eapply (to_unique _ _ Hok); by apply Hw.
  - intros f i e g j d He Hd. eapply (to_shared _ _ Hok); by apply Hw.
Qed.

Lemma space_owned s lvl space : paging_ok s lvl -> lvl !! space = Some 4%nat -> space ∈ owned (tables s) space.
Proof.
  intros [Hok _ _ _ _] H4. destruct (to_table _ _ Hok _ _ H4) as [_ (t & Ht & _)]. unfold owned. rewrite Ht. set_solver.
Qed.

(** A table a space owns is its level 4 table or hangs from it or from another one. *)
Lemma owned_parent s lvl space C k : paging_ok s lvl -> lvl !! space = Some 4%nat -> private s lvl space ->
  C ∈ owned (tables s) space -> lvl !! C = Some k ->
  C = space \/ exists g l j d, entry_in (tables s) lvl g l j d /\ leads l d /\ e_addr d = C /\
    (l = 4%nat \/ (g ∈ owned (tables s) space /\ (l <= 3)%nat)).
Proof.
  intros [Hok _ _ _ _] H4 [_ Hpages _ _] Hin Hk. unfold owned in *.
  destruct (to_table _ _ Hok _ _ H4) as [_ (t & Ht & _)]. rewrite Ht in *.
  apply elem_of_app in Hin as [Hin|Hin]; [right|left; by apply list_elem_of_singleton in Hin].
  destruct (t !! USER_L4_INDEX) as [e4|] eqn:He4; [|by apply elem_of_nil in Hin].
  destruct (child_of e4) eqn:Hc4; [|by apply elem_of_nil in Hin].
  assert (He : entry_in (tables s) lvl space 4 USER_L4_INDEX e4) by (split; eauto).
  assert (Hl4 : leads 4 e4) by (apply child_leads; [done|lia]). pose proof (to_child _ _ Hok _ _ _ _ He Hl4) as Hp3.
  destruct (subtree_parent _ _ _ Hok _ _ Hp3 Hin) as [->|(g & l & j & d & Hg & Hd & Hl & Hcd & <-)].
  { exists space, 4%nat, USER_L4_INDEX, e4. by split_and!; [..|left]. }
  assert (Hgo : g ∈ subtree (tables s) 3 (e_addr e4) ++ [space]) by set_solver.
  destruct (decide (l = 1%nat)) as [->|Hl1]; [rewrite (Hpages g j d Hgo Hd Hcd) in Hk; done|].
  exists g, l, j, d. destruct Hd as [Hgl Hgt]. pose proof (to_table _ _ Hok _ _ Hgl) as [Hr _].
  split_and!; [by split|by apply child_leads; [|lia]|done|by right].
Qed.

(** Nothing that stays leads into what goes. *)
Lemma private_closed s lvl space f l i e : paging_ok s lvl -> lvl !! space = Some 4%nat -> private s lvl space ->
  entry_in (tables s) lvl f l i e -> f ∉ owned (tables s) space -> leads l e -> e_addr e ∉ owned (tables s) space.
Proof.
  intros Hpo H4 Hpv He Hf Hl Hin. pose proof (po_tables _ _ Hpo) as Hok. pose proof (to_child _ _ Hok _ _ _ _ He Hl) as Hc.
  destruct (to_table _ _ Hok _ _ (proj1 He)) as [Hr _].
  destruct (decide (l = 4%nat)) as [->|Hl4].
  { apply (pv_roots _ _ _ Hpv f i e); try done. intros ->. by eapply Hf, space_owned. }
  destruct (owned_parent _ _ _ _ _ Hpo H4 Hpv Hin Hc) as [Heq|(g & k & j & d & Hd & Hk & Heq & Hg)].
  { rewrite Heq, H4 in Hc. simplify_eq. lia. }
  pose proof (to_child _ _ Hok _ _ _ _ Hd Hk) as Hc'. rewrite Heq, Hc in Hc'. destruct Hl as (Hl1 & ?). pose proof Hk as (Hk1 & _).
  assert (k = l) as -> by (simplify_eq; lia). destruct Hg as [?|[Hg Hk3]]; [lia|].
  destruct (to_unique _ _ Hok f l i e g l j d) as [-> _]; done.
Qed.

(** C19: Destroying a space that is not loaded and is [private] (no other level 4 table leads
    into its tables; the pages it maps in the user region are held, hold no table, and
    none is mapped twice).  It gives back its user tables, the pages they map and its
    level 4 table, each exactly once and nothing else: the pages too, which the
    documentation of the function says it leaves to their owners.  What is left is
    well-formed, with every table still in use, and every other space translates as
    before. *)
Theorem release_sound E s lvl space :
  paging_ok s lvl -> lvl !! space = Some 4%nat -> cr3 s <> space -> private s lvl space ->
  exists s', release (E:=E) space s = (Ok tt, s') /\
    (forall n, 0 <= n -> used_at (frames s') n = negb (bool_decide (frame_at n ∈ owned (tables s) space)) && used_at (frames s) n) /\
    paging_ok s' (survivors lvl (owned (tables s) space)) /\
    forall root va, walk (tables s') root va = walk (tables s) root va.
Proof.
  intros Hpo H4 Hcr Hpv. pose proof Hpo as [Hok Hfr Hus Hroot Hwin]. rewrite (release_eq _ lvl) by done.
  destruct (dealloc_all_ok (E:=E) _ s Hfr (pv_once _ _ _ Hpv) (pv_held _ _ _ Hpv)) as (s' & -> & Hc & Hp & Ht & Hfr' & Htot & Hg).
  exists s'. split; [done|]. split; [done|]. split; [|by rewrite Ht]. split.
  - rewrite Ht. apply drop_many_ok; [done|]. intros f l i e. by apply (private_closed s lvl).
  - done.
  - intros f l Hf. apply lookup_survivors in Hf as [Hf Hn]. destruct (Hus _ _ Hf) as (n & -> & Hn0 & Hu & Hlow).
    exists n. rewrite Htot. split; [done|]. split; [done|]. split; [|done]. intros Hlt. rewrite Hg by done.
    by rewrite bool_decide_false, Hu.
  - rewrite Hc. apply lookup_survivors. split; [done|]. intros Hin.
    destruct (owned_parent _ _ _ _ _ Hpo H4 Hpv Hin Hroot) as [Heq|(g & k & j & d & Hd & Hk & Heq & _)]; [done|].
    pose proof (to_child _ _ Hok _ _ _ _ Hd Hk) as Hch. destruct (to_table _ _ Hok _ _ (proj1 Hd)) as [Hr _].
    rewrite Heq, Hroot in Hch. simplify_eq. lia.
  - by rewrite Hp.
Qed.
