(* ===== verification/PagingMap.v ===== *)
(** * Mapping pages

    What the crate's [map_to] and [update_flags] are relied on for, and what the kernel's
    own [map_in], [map_to_frame_in] and [set_flags_in] promise their callers from it. *)

From stdpp Require Import base list gmap numbers list_numbers.
From Stdlib Require Import Lia.
From S2P Require Import Prelude Frame Paging PagingInv PagingSplit PagingUnmap PagingSpace.

(** ** What an edit may change *)

(** Where a page leads, with the flags of its lowest entry: what [translate] reports. *)
Definition info (t : Translation) : Z * Z * Z * Z := (tr_start t, tr_size t, tr_offset t, tr_attributes t).

(** The same, and no right lost: links on the way may have been given more. *)
Definition same_info (o' o : option Translation) : Prop :=
  match o', o with
  | Some t', Some t => info t' = info t /\ (tr_link_writable t = true -> tr_link_writable t' = true) /\
      (tr_link_user t = true -> tr_link_user t' = true) /\ tr_no_execute t' = tr_no_execute t
  | None, None => True
  | _, _ => False
  end.

#[global] Instance same_info_preorder : PreOrder same_info.
Proof.
  split; [by intros [t|]|]. intros [t|] [t'|] [t''|]; try done. intros (? & ? & ? & ?) (? & ? & ? & ?). split_and!; [congruence|auto|auto|congruence].
Qed.

Lemma same_info_through e o' o : same_info o' o -> same_info (through e <$> o') (through e <$> o).
Proof.
  destruct o' as [t'|], o as [t|]; try done. intros (Hi & Hw & Hu & Hx). split_and!.
  - exact Hi.
  - cbn [through tr_link_writable]. intros [-> ?]%andb_true_iff. by rewrite Hw.
  - cbn [through tr_link_user]. intros [-> ?]%andb_true_iff. by rewrite Hu.
  - cbn [through tr_no_execute]. by rewrite Hx.
Qed.

Lemma same_info_eq o' o : o' = o -> same_info o' o.
Proof. by intros ->. Qed.

(** The tables grew by frames the allocator gave out, level 4 tables and sharing apart. *)
Record grown (mem mem' : memory) (a a' : BitmapFrameAllocator) (lvl lvl' : levels) : Prop := {
  gr_sub : lvl ⊆ lvl';
  gr_tables : tables_ok mem' lvl';
  gr_frames : frames_ok a';
  gr_used : tables_used a' lvl';
  gr_total : total_frames a' = total_frames a;
  gr_taken : forall n, 0 <= n -> used_at a' n = used_at a n || bool_decide (lvl !! frame_at n = None /\ is_Some (lvl' !! frame_at n));
  gr_free : forall n, 0 <= n -> lvl !! frame_at n = None -> is_Some (lvl' !! frame_at n) -> used_at a n = false;
  gr_roots : forall f, lvl' !! f = Some 4%nat -> lvl !! f = Some 4%nat;
  gr_shares : forall r r' va, lvl !! r = Some 4%nat -> lvl !! r' = Some 4%nat -> shares mem' r r' va -> shares mem r r' va;
}.

(** ** The crate's promises *)

Class MapLaw `{Mapper} : Prop := {
  map_walk : forall mem lvl a root page target flags r mem' a',
    tables_ok mem lvl -> frames_ok a -> tables_used a lvl -> lvl !! root = Some 4%nat ->
    0 <= page < 2 ^ 48 -> page_at page = page -> has flags PRESENT = true -> has flags HUGE_PAGE = false ->
    map_to mem a root page target flags = (r, (mem', a')) ->
    exists lvl', grown mem mem' a a' lvl lvl' /\
      (forall root' va, lvl !! root' = Some 4%nat -> 0 <= va < 2 ^ 48 ->
         page_at va <> page \/ ~ shares mem root root' page -> same_info (walk mem' root' va) (walk mem root' va)) /\
      match r with
      | Ok _ => walk mem root page = None /\
          exists t, walk mem' root page = Some t /\ info t = (target, 4096, 0, flags) /\
            tr_writable t = has flags WRITABLE /\ tr_user t = has flags USER_ACCESSIBLE
      | Err e => same_info (walk mem' root page) (walk mem root page) /\
          match e with
          | FrameAllocationFailed => free_frames a' = 0
          | PageAlreadyMapped => walk mem root page <> None
          | ParentEntryHugePage => True
          end
      | Panic => False
      end;
}.

Class UpdateLaw `{Mapper} : Prop := {
  update_walk : forall mem lvl root page flags,
    tables_ok mem lvl -> lvl !! root = Some 4%nat -> 0 <= page < 2 ^ 48 -> page_at page = page ->
    has flags PRESENT = true -> has flags HUGE_PAGE = false ->
    match update_flags mem root page flags with
    | Ok mem' => tables_ok mem' lvl /\
        (forall r r' va, lvl !! r = Some 4%nat -> lvl !! r' = Some 4%nat -> shares mem' r r' va -> shares mem r r' va) /\
        (forall root' va, lvl !! root' = Some 4%nat -> 0 <= va < 2 ^ 48 ->
           page_at va <> page \/ ~ shares mem root root' page -> same_info (walk mem' root' va) (walk mem root' va)) /\
        exists t t', walk mem root page = Some t /\ tr_size t = 4096 /\ walk mem' root page = Some t' /\
          info t' = (tr_start t, 4096, tr_offset t, flags) /\
          tr_link_writable t' = tr_link_writable t /\ tr_link_user t' = tr_link_user t
    | Err _ => forall t, walk mem root page = Some t -> tr_size t <> 4096
    | Panic => False
    end;
}.

(** ** The kernel's promises *)

(** The frame and flags of a page, as [flags_in] and [unmap_in] report them. *)
Definition page_of (s : Paging) (space page : Z) : option (Z * Z) :=
  (fun t => (tr_start t, tr_attributes t)) <$> walk (tables s) space page.

Lemma same_info_page s s' space page :
  same_info (walk (tables s') space page) (walk (tables s) space page) -> page_of s' space page = page_of s space page.
Proof.
  unfold same_info, page_of. destruct (walk (tables s') space page) as [t|], (walk (tables s) space page) as [t'|]; try done.
  cbn [fmap option_fmap option_map]. unfold info. intros [Heq _]. injection Heq. congruence.
Qed.

(** A 4 KiB page whose rights are what its own flags say. *)
Definition plain (t : Translation) : Prop :=
  tr_size t = 4096 /\ tr_writable t = has (tr_attributes t) WRITABLE /\ tr_user t = has (tr_attributes t) USER_ACCESSIBLE.

(** The rights of a walk are its links' and its leaf's. *)
Lemma walk_rights (mem : memory) l f va t : walk_from mem l f va = Some t ->
  tr_writable t = tr_link_writable t && has (tr_attributes t) WRITABLE /\ tr_user t = tr_link_user t && has (tr_attributes t) USER_ACCESSIBLE.
Proof.
  revert f t. induction l as [|l IH]; intros f t Hw; [done|].
  destruct (walk_inv _ _ _ _ _ Hw) as (tb & e & _ & _ & _ & [[-> ->]|[(Hn & _ & _ & ->)|(_ & _ & r & Hr & ->)]]).
  - done.
  - cbn [leaf tr_writable tr_user tr_attributes tr_link_writable tr_link_user andb]. destruct l as [|l]; [done|]. cbn [Nat.eqb].
    change (Z.clearbit (e_flags e) HUGE_PAGE) with (remove_huge (e_flags e)).
    rewrite !has_remove_huge; [done|unfold USER_ACCESSIBLE; lia|done|unfold WRITABLE; lia|done].
  - destruct (IH _ _ Hr) as [IHw IHu]. cbn [through tr_writable tr_user tr_attributes tr_link_writable tr_link_user].
    by rewrite IHw, IHu, !andb_assoc.
Qed.

Lemma walk_present (mem : memory) l f va t : walk_from mem l f va = Some t -> has (tr_attributes t) PRESENT = true.
Proof.
  revert f t. induction l as [|l IH]; intros f t Hw; [done|].
  destruct (walk_inv _ _ _ _ _ Hw) as (tb & e & _ & _ & Hp & [[-> ->]|[(Hn & _ & _ & ->)|(_ & _ & r & Hr & ->)]]).
  - exact Hp.
  - cbn [leaf tr_attributes]. destruct l as [|l]; [done|]. cbn [Nat.eqb]. change (Z.clearbit (e_flags e) HUGE_PAGE) with (remove_huge (e_flags e)).
    rewrite has_remove_huge; [exact Hp|done|done].
  - exact (IH _ _ Hr).
Qed.

(** A page is plain when its links allow what its flags say. *)
Lemma plain_links (mem : memory) f va t : walk mem f va = Some t ->
  plain t <-> tr_size t = 4096 /\ (has (tr_attributes t) WRITABLE = true -> tr_link_writable t = true) /\
    (has (tr_attributes t) USER_ACCESSIBLE = true -> tr_link_user t = true).
Proof.
  intros Hw. destruct (walk_rights _ _ _ _ _ Hw) as [Hrw Hru]. unfold plain. rewrite Hrw, Hru.
  destruct (tr_link_writable t), (tr_link_user t), (has (tr_attributes t) WRITABLE), (has (tr_attributes t) USER_ACCESSIBLE); cbn; naive_solver.
Qed.

Lemma same_info_plain (mem mem' : memory) f va t : same_info (walk mem' f va) (walk mem f va) -> walk mem' f va = Some t ->
  (forall t0, walk mem f va = Some t0 -> plain t0) -> plain t.
Proof.
  intros Hs Hw Hall. rewrite Hw in Hs. destruct (walk mem f va) as [t0|] eqn:Hw0; [|done].
  pose proof (Hall t0 eq_refl) as Hp. apply (plain_links _ _ _ _ Hw0) in Hp as (Hz & Hpw & Hpu). destruct Hs as (Hi & Hlw & Hlu & _).
  unfold info in Hi. injection Hi as _ Hsz _ Ha. apply (plain_links _ _ _ _ Hw). rewrite Ha. split; [congruence|]. split; auto.
Qed.

(** Nothing above the leaf of a page withholds a right. *)
Definition page_open (s : Paging) (space page : Z) : Prop :=
  exists t, walk (tables s) space page = Some t /\ tr_link_writable t = true /\ tr_link_user t = true.

Lemma same_info_open s s' space page :
  same_info (walk (tables s') space page) (walk (tables s) space page) -> page_open s space page -> page_open s' space page.
Proof.
  intros Hs (t & Ht & Hw & Hu). rewrite Ht in Hs. unfold page_open. destruct (walk (tables s') space page) as [t'|]; [|done].
  destruct Hs as (_ & Hlw & Hlu & _). exists t'. auto.
Qed.

(** One gibibyte, under one level 4 entry. *)
Definition USER_REGION_END : Z := USER_BASE + 16 * 0x400_0000.
Definition user_page (page : Z) : Prop := USER_BASE <= page < USER_REGION_END /\ page_at page = page.

Lemma user_page_range page : user_page page -> 0 <= page < 2 ^ 48.
Proof. intros [H _]. change USER_REGION_END with 35185445830656 in H. change USER_BASE with 35184372088832 in H. lia. Qed.

Lemma user_page_index page : user_page page -> index 4 page = index 4 USER_BASE.
Proof.
  intros [H _]. change USER_REGION_END with 35185445830656 in H. change USER_BASE with 35184372088832 in *.
  unfold index. change (2 ^ _) with 549755813888. f_equal. f_equal.
  assert (page / 549755813888 = 64) as -> by (symmetry; apply (Z.div_unique_pos _ _ _ (page - 64 * 549755813888)); lia). done.
Qed.

Lemma user_page_shares mem r r' page : user_page page -> shares mem r r' page <-> shares mem r r' USER_BASE.
Proof. intros Hu. unfold shares, next. by rewrite (user_page_index page Hu). Qed.

(** No two spaces have user tables in common. *)
Definition separate (mem : memory) (lvl : levels) : Prop :=
  forall r r', lvl !! r = Some 4%nat -> lvl !! r' = Some 4%nat -> shares mem r r' USER_BASE -> r = r'.

Record spaces_ok (s : Paging) (lvl : levels) : Prop := {
  so_paging : paging_ok s lvl;
  so_separate : separate (tables s) lvl;
  so_plain : forall root page t, lvl !! root = Some 4%nat -> user_page page -> walk (tables s) root page = Some t -> plain t;
}.

(** An edit of the user region: the spaces stay, and what pages lead to changes as said. *)
Record edited (s s' : Paging) (lvl lvl' : levels) (change : Z -> Z -> option (Z * Z) -> option (Z * Z)) : Prop := {
  ed_ok : spaces_ok s' lvl';
  ed_rest : same_rest s s';
  ed_roots : forall f, lvl' !! f = Some 4%nat <-> lvl !! f = Some 4%nat;
  ed_pages : forall space page, lvl !! space = Some 4%nat -> user_page page ->
    page_of s' space page = change space page (page_of s space page);
  ed_open : forall space page, lvl !! space = Some 4%nat -> user_page page -> page_open s space page ->
    page_of s' space page <> None -> page_open s' space page;
}.

(** At one page of one space, and nowhere else. *)
Definition at_page (space page : Z) (v : option (Z * Z)) (sp pg : Z) (old : option (Z * Z)) : option (Z * Z) :=
  if decide (sp = space /\ pg = page) then v else old.
Definition unchanged (_ _ : Z) (old : option (Z * Z)) : option (Z * Z) := old.

Section Promises.
Context `{MapLaw}.

(** What [map_to_frame_in] does to the mapper's tables, whichever way it ends. *)
Lemma mapper_map_to_sound s lvl space page target flags :
  spaces_ok s lvl -> lvl !! space = Some 4%nat -> user_page page -> has flags PRESENT = true -> has flags HUGE_PAGE = false ->
  exists r s' lvl', mapper_map_to space page target flags s = (r, s') /\
    grown (tables s) (tables s') (frames s) (frames s') lvl lvl' /\
    match r with
    | Ok _ => page_of s space page = None /\ edited s s' lvl lvl' (at_page space page (Some (target, flags)))
    | Err e => edited s s' lvl lvl' unchanged /\
        match e with
        | OutOfFrames => free_frames (frames s') = 0
        | AlreadyMapped => page_of s space page <> None
        | HugePageInTheWay => True
        end
    | Panic => False
    end.
Proof.
  intros [[Hok Hfr Hus Hroot Hwin] Hsep Hsmall] H4 Hpg Hp Hh. unfold mapper_map_to.
  destruct (map_to (tables s) (frames s) space page target flags) as [r [m a]] eqn:Hm.
  destruct (map_walk _ _ _ _ _ _ _ _ _ _ Hok Hfr Hus H4 (user_page_range _ Hpg) (proj2 Hpg) Hp Hh Hm) as (lvl' & Hgr & Hother & Hres).
  pose proof Hgr as [Hsub Htab Hfr' Hus' Htot _ _ Hroots Hsh].
  assert (Hpo : forall e, paging_ok (add_effect (set_allocator (set_tables s m) a) e) lvl').
  { intros e. split; try done. by eapply lookup_weaken. }
  assert (Hpo' : paging_ok (set_allocator (set_tables s m) a) lvl') by (split; try done; by eapply lookup_weaken).
  assert (Hsep' : separate m lvl').
  { intros r1 r2 H1 H2 Hs. apply Hroots in H1. apply Hroots in H2. apply Hsep; [done|done|]. by apply Hsh. }
  assert (Hrt : forall f, lvl' !! f = Some 4%nat <-> lvl !! f = Some 4%nat) by (intros f; split; [apply Hroots|intros; by eapply lookup_weaken]).
  assert (Hinf : forall sp pg, lvl !! sp = Some 4%nat -> user_page pg -> ~ (sp = space /\ pg = page) ->
    same_info (walk m sp pg) (walk (tables s) sp pg)).
  { intros sp pg Hsp Hpgu Hne. apply Hother; [done|by apply user_page_range|].
    destruct (decide (pg = page)) as [->|]; [right|left; by rewrite (proj2 Hpgu)]. intros Hs. apply Hne. split; [|done].
    symmetry. apply Hsep; [done|done|]. by apply (user_page_shares _ _ _ page). }
  assert (Hoth : forall st sp pg, tables st = m -> lvl !! sp = Some 4%nat -> user_page pg -> ~ (sp = space /\ pg = page) ->
    page_of st sp pg = page_of s sp pg) by (intros st sp pg Hst Hsp Hpgu Hne; apply same_info_page; rewrite Hst; by apply Hinf).
  assert (Hsmall' : forall root pg t, lvl' !! root = Some 4%nat -> user_page pg -> walk m root pg = Some t -> plain t).
  { intros rt pg t Hrt' Hpgu Hw. apply Hroots in Hrt'. destruct (decide (rt = space /\ pg = page)) as [[-> ->]|Hne].
    - destruct r as [[]|e|]; [| |done].
      + destruct Hres as (_ & t' & Ht' & Hi & Hwr & Hur). rewrite Hw in Ht'. injection Ht' as ->. unfold info in Hi.
        assert (Ha : tr_attributes t' = flags) by (by injection Hi). unfold plain. rewrite Ha. split_and!; [by injection Hi|done|done].
      + destruct Hres as [Hs _]. apply (same_info_plain _ _ _ _ _ Hs Hw). intros t'. by apply Hsmall.
    - apply (same_info_plain _ _ _ _ _ (Hinf _ _ Hrt' Hpgu Hne) Hw). intros t'. by apply Hsmall. }
  destruct r as [[]|e|]; [| |done].
  - exists (Ok tt). eexists _, lvl'. split; [done|]. split; [done|]. destruct Hres as (Hnone & t & Ht & Hinfo & _).
    split; [unfold page_of; by rewrite Hnone|]. split; [by split|done|done| |].
    2:{ intros sp pg Hsp Hpgu Hopen _. destruct (decide (sp = space /\ pg = page)) as [[-> ->]|Hd].
        - destruct Hopen as (x & Hx & _). congruence.
        - revert Hopen. apply same_info_open. by apply Hinf. }
    intros sp pg Hsp Hpgu. unfold at_page. case_decide as Hd; [|by apply Hoth].
    destruct Hd as [-> ->]. unfold page_of. cbn [tables add_effect set_allocator set_tables]. rewrite Ht.
    unfold info in Hinfo. cbn. injection Hinfo. congruence.
  - exists (Err (MapError_from e)). eexists _, lvl'. split; [done|]. split; [done|]. destruct Hres as [Hsame He]. split.
    + split; [by split|done|done| |].
      2:{ intros sp pg Hsp Hpgu Hopen _. revert Hopen. apply same_info_open.
          destruct (decide (sp = space /\ pg = page)) as [[-> ->]|Hd]; [done|by apply Hinf]. }
      intros sp pg Hsp Hpgu. unfold unchanged.
      destruct (decide (sp = space /\ pg = page)) as [[-> ->]|Hd]; [by apply same_info_page|by apply Hoth].
    + destruct e; simpl; [done| |done]. unfold page_of. by destruct (walk (tables s) space page).
Qed.

Lemma with_space_run {E A} (f : M Paging E A) s lvl : paging_ok s lvl -> with_space f s = f s.
Proof. intros [_ _ _ _ [o Ho]]. unfold with_space, require. cbv beta iota delta [mbind M_bind get]. by rewrite Ho. Qed.

(** Frames that became used: the ones named, and new tables. *)
Definition took (s s' : Paging) (lvl lvl' : levels) (extra : list Z) : Prop :=
  total_frames (frames s') = total_frames (frames s) /\
  forall m, 0 <= m -> used_at (frames s') m =
    used_at (frames s) m || bool_decide (frame_at m ∈ extra) || bool_decide (lvl !! frame_at m = None /\ is_Some (lvl' !! frame_at m)).

(** What a caller of [map_to_frame_in] may rely on. *)
Lemma map_to_frame_in_sound s lvl space page target flags :
  spaces_ok s lvl -> lvl !! space = Some 4%nat -> user_page page -> has flags PRESENT = true -> has flags HUGE_PAGE = false ->
  exists r s' lvl', map_to_frame_in space page target flags s = (r, s') /\ lvl ⊆ lvl' /\ took s s' lvl lvl' [] /\
    (forall n, 0 <= n -> lvl !! frame_at n = None -> is_Some (lvl' !! frame_at n) -> used_at (frames s) n = false) /\
    match r with
    | Ok _ => page_of s space page = None /\ edited s s' lvl lvl' (at_page space page (Some (target, flags)))
    | Err _ => edited s s' lvl lvl' unchanged
    | Panic => False
    end.
Proof.
  intros Hs H4 Hpg Hp Hh. unfold map_to_frame_in. rewrite (with_space_run _ s lvl) by apply Hs.
  destruct (mapper_map_to_sound s lvl space page target flags Hs H4 Hpg Hp Hh) as (r & s' & lvl' & -> & Hgr & Hr).
  exists r, s', lvl'. split; [done|]. split; [apply Hgr|]. split; [|split; [apply Hgr|by destruct r; [|destruct Hr|]]].
  split; [apply Hgr|]. intros m Hm. rewrite (gr_taken _ _ _ _ _ _ Hgr) by done. rewrite (bool_decide_false (frame_at m ∈ [])) by set_solver.
  by rewrite orb_false_r.
Qed.

Lemma deallocate_spaces {E} s lvl f n : spaces_ok s lvl -> f = frame_at n -> 0 <= n < total_frames (frames s) ->
  used_at (frames s) n = true -> lvl !! f = None ->
  exists a, frame_deallocate (E:=E) f s = (Ok tt, add_effect (set_allocator s a) (Freed f)) /\
    spaces_ok (add_effect (set_allocator s a) (Freed f)) lvl /\ total_frames a = total_frames (frames s) /\
    forall m, 0 <= m -> used_at a m = negb (bool_decide (m = n)) && used_at (frames s) m.
Proof.
  intros [[Hok Hfr Hus Hroot Hwin] Hsep Hsmall] -> Hn Hu Hl. unfold frame_deallocate.
  pose proof (deallocate_sound (frames s) n Hfr Hn) as Hd. destruct (deallocate (frame_at n) (frames s)) as [a|[]|]; [|congruence].
  destruct Hd as (_ & Hfr' & _ & Htot & Hg). exists a. split; [done|]. split; [|done]. split; [|done|done]. split; try done.
  intros g l Hgl. destruct (Hus _ _ Hgl) as (m & -> & Hm & Hmu & Hml). exists m. cbn [frames add_effect set_allocator]. rewrite Htot.
  split; [done|]. split; [done|]. split; [|done]. intros Hlt. rewrite Hg by done. rewrite bool_decide_false by congruence. by apply Hmu.
Qed.

(** Taking a frame keeps every space. *)
Lemma allocate_spaces {E} s lvl : spaces_ok s lvl ->
  match frame_allocate (E:=E) s with
  | (Ok (Some f), s') => exists n, f = frame_at n /\ 0 <= n < total_frames (frames s) /\ used_at (frames s) n = false /\
      lvl !! f = None /\ spaces_ok s' lvl /\ tables s' = tables s /\ same_rest s s' /\
      total_frames (frames s') = total_frames (frames s) /\
      forall m, 0 <= m -> used_at (frames s') m = bool_decide (m = n) || used_at (frames s) m
  | (Ok None, s') => s' = s /\ free_frames (frames s) = 0
  | _ => False
  end.
Proof.
  intros [[Hok Hfr Hus Hroot Hwin] Hsep Hsmall]. unfold frame_allocate.
  pose proof (allocate_sound _ Hfr) as Ha. destruct (allocate (frames s)) as [[[f|] a]|?|]; [|..]; [|..|done|done].
  2:{ destruct Ha as (-> & Hfree & _). split; [by destruct s|done]. }
  destruct Ha as (n & -> & Hn & Hfree & Hfr' & _ & Htot & Hg). pose proof (fresh_frame _ _ _ Hus Hn Hfree) as Hnew.
  exists n. split_and!; try done; [lia|lia|]. split; [|done|done]. split; try done.
  intros g l Hgl. destruct (Hus _ _ Hgl) as (m & -> & Hm & Hmu & Hml). exists m. cbn [frames set_allocator]. rewrite Htot.
  split; [done|]. split; [done|]. split; [|done]. intros Hlt. rewrite Hg by done. rewrite Hmu by done. apply orb_true_r.
Qed.

Lemma took_grown s s1 s2 lvl lvl' n : total_frames (frames s1) = total_frames (frames s) ->
  (forall m, 0 <= m -> used_at (frames s1) m = bool_decide (m = n) || used_at (frames s) m) ->
  grown (tables s1) (tables s2) (frames s1) (frames s2) lvl lvl' -> took s s2 lvl lvl' [frame_at n].
Proof.
  intros Htot Hg Hgr. split; [by rewrite (gr_total _ _ _ _ _ _ Hgr)|]. intros m Hm. rewrite (gr_taken _ _ _ _ _ _ Hgr), Hg by done.
  f_equal. rewrite orb_comm. f_equal. apply bool_decide_ext. rewrite list_elem_of_singleton. split; [congruence|apply frame_at_inj].
Qed.

(** New tables came from free frames. *)
Definition new_from_free (s : Paging) (lvl lvl' : levels) : Prop :=
  forall n, 0 <= n -> lvl !! frame_at n = None -> is_Some (lvl' !! frame_at n) -> used_at (frames s) n = false.

(** What [map_in] leaves behind, whichever way it ends. *)
Definition map_in_outcome (s : Paging) (lvl : levels) (space page flags : Z) (out : result MapError Z * Paging) : Prop :=
  match out with
  | (Ok f, s') => exists n lvl', f = frame_at n /\ 0 <= n < total_frames (frames s) /\ used_at (frames s) n = false /\
      page_of s space page = None /\ lvl ⊆ lvl' /\ lvl' !! f = None /\ new_from_free s lvl lvl' /\ took s s' lvl lvl' [f] /\
      edited s s' lvl lvl' (at_page space page (Some (f, flags)))
  | (Err e, s') => exists lvl', lvl ⊆ lvl' /\ new_from_free s lvl lvl' /\ took s s' lvl lvl' [] /\ edited s s' lvl lvl' unchanged /\
      (e = AlreadyMapped -> page_of s space page <> None)
  | (Panic, _) => False
  end.

Lemma map_in_correct s lvl space page flags :
  spaces_ok s lvl -> lvl !! space = Some 4%nat -> user_page page -> has flags PRESENT = true -> has flags HUGE_PAGE = false ->
  map_in_outcome s lvl space page flags (map_in space page flags s).
Proof.
  intros Hs H4 Hpg Hp Hh. unfold map_in_outcome, map_in. rewrite (with_space_run _ s lvl) by apply Hs. cbv beta iota delta [mbind M_bind].
  pose proof (allocate_spaces (E:=MapError) s lvl Hs) as Ha. destruct (frame_allocate s) as [[[f|]|?|] s1]; [|..]; [|..|done|done].
  2:{ destruct Ha as [-> _]. exists lvl. split; [done|]. split; [intros m _ -> [? ?]; done|]. split; [|split; [by split|done]]. split; [done|]. intros m Hm.
      rewrite (bool_decide_false (frame_at m ∈ [])) by set_solver. rewrite (bool_decide_false (_ /\ _)) by (by intros [-> [? ?]]).
      by rewrite !orb_false_r. }
  destruct Ha as (n & -> & Hn & Hfree & Hnew & Hs1 & Htab & Hrest & Htot & Hg). unfold map_or_return.
  destruct (mapper_map_to_sound s1 lvl space page (frame_at n) flags Hs1 H4 Hpg Hp Hh) as (r & s2 & lvl' & -> & Hgr & Hr).
  assert (Hview : forall sp pg, page_of s1 sp pg = page_of s sp pg) by (intros; unfold page_of; by rewrite Htab).
  pose proof (took_grown s s1 s2 lvl lvl' n Htot Hg Hgr) as Htook.
  assert (Hu1 : used_at (frames s1) n = true) by (rewrite Hg by lia; by rewrite bool_decide_true).
  assert (Hnew' : lvl' !! frame_at n = None).
  { destruct (lvl' !! frame_at n) as [l|] eqn:Hl; [|done]. pose proof (gr_free _ _ _ _ _ _ Hgr n ltac:(lia) Hnew ltac:(eauto)). congruence. }
  assert (Hnf : new_from_free s lvl lvl').
  { intros m Hm Hl1 Hl2. pose proof (gr_free _ _ _ _ _ _ Hgr m Hm Hl1 Hl2) as Hmu. rewrite Hg in Hmu by done. by apply orb_false_iff in Hmu as [_ ?]. }
  assert (Hed : forall c, edited s1 s2 lvl lvl' c -> edited s s2 lvl lvl' c).
  { intros c [He1 (? & ? & ?) He3 He4 He5]. destruct Hrest as (? & ? & ?). split; [done|split_and!; congruence|done| |].
    - intros sp pg Hsp Hpgu. rewrite <- (Hview sp pg). by apply He4.
    - intros sp pg Hsp Hpgu Hopen. apply He5; [done|done|]. unfold page_open. by rewrite Htab. }
  destruct r as [[]|e|]; [| |done].
  - destruct Hr as [Hnone He]. exists n, lvl'. split_and!; try done; [lia|lia|by rewrite <- Hview|apply Hgr|by apply Hed].
  - destruct Hr as [He Herr]. cbv beta iota delta [mbind M_bind]. pose proof (gr_total _ _ _ _ _ _ Hgr) as Htot2.
    destruct (deallocate_spaces (E:=MapError) s2 lvl' (frame_at n) n (ed_ok _ _ _ _ _ He) eq_refl) as (a & -> & Hs3 & Htot3 & Hg3);
      [lia|rewrite (gr_taken _ _ _ _ _ _ Hgr) by lia; by rewrite Hu1|done|].
    cbn [fail]. exists lvl'. split; [apply Hgr|]. split; [exact Hnf|]. split; [|split].
    + split; [cbn [frames add_effect set_allocator]; lia|]. intros m Hm. cbn [frames add_effect set_allocator]. rewrite Hg3 by done.
      rewrite (proj2 Htook) by done. rewrite (bool_decide_false (frame_at m ∈ [])) by set_solver. rewrite orb_false_r.
      destruct (decide (m = n)) as [->|Hne].
      * rewrite (bool_decide_true (n = n)) by done. rewrite Hfree. cbn [negb andb orb].
        rewrite bool_decide_false; [done|]. rewrite Hnew'. by intros [_ [? ?]].
      * rewrite (bool_decide_false (m = n)) by done. rewrite (bool_decide_false (frame_at m ∈ _)); [by rewrite orb_false_r|].
        rewrite list_elem_of_singleton. intros Heq%frame_at_inj. done.
    + destruct (Hed _ He) as [_ He2 He3 He4 He5]. by split.
    + intros ->. cbv beta iota in Herr. by rewrite <- Hview.
Qed.

(** Mapping a fresh frame.  On success the page had nothing, and now has the frame with
    the flags asked for; a refusal gives the frame back.  Nothing else any space sees in
    the user region changes, and the only frames taken are that one and new tables. *)
Theorem map_in_sound s lvl space page flags :
  spaces_ok s lvl -> lvl !! space = Some 4%nat -> user_page page -> has flags PRESENT = true -> has flags HUGE_PAGE = false ->
  map_in_outcome s lvl space page flags (map_in space page flags s).
Proof. apply map_in_correct. Qed.

End Promises.

(** ** Unmapping, flags *)

Lemma shares_same (mem mem' : memory) (lvl : levels) r r' va : (forall root, lvl !! root = Some 4%nat -> mem' !! root = mem !! root) ->
  lvl !! r = Some 4%nat -> lvl !! r' = Some 4%nat -> shares mem' r r' va -> shares mem r r' va.
Proof. intros Hsame Hr Hr'. unfold shares, next. by rewrite !Hsame. Qed.

(** Removing a page returns its frame and frees tables only. *)
Lemma unmap_in_edit `{UnmapLaw} s lvl space page :
  spaces_ok s lvl -> lvl !! space = Some 4%nat -> user_page page ->
  exists r s' lvl', unmap_in space page s = (r, s') /\ lvl' ⊆ lvl /\ total_frames (frames s') = total_frames (frames s) /\
    (forall n, 0 <= n -> used_at (frames s') n = true -> used_at (frames s) n = true) /\
    (forall n, 0 <= n -> used_at (frames s) n = true -> used_at (frames s') n = false -> is_Some (lvl !! frame_at n)) /\
    match r with
    | Ok f => (exists flags, page_of s space page = Some (f, flags)) /\ edited s s' lvl lvl' (at_page space page None)
    | Err _ => s' = s /\ lvl' = lvl /\ page_of s space page = None
    | Panic => False
    end.
Proof.
  intros [Hpo Hsep Hsmall] H4 Hpg.
  pose proof (unmap_in_correct s lvl space page Hpo H4 (user_page_range _ Hpg) (proj2 Hpg)) as Hout.
  destruct (unmap_in space page s) as [[f|e|] s'] eqn:Hrun; cbn [unmap_outcome] in Hout; [| |done].
  2:{ destruct Hout as [-> Hn]. exists (Err e), s, lvl. split_and!; try done; [congruence|].
      unfold page_of. destruct (walk (tables s) space page) as [t|] eqn:Hw; [|done]. by destruct (Hn t eq_refl), (Hsmall space page t H4 Hpg Hw). }
  destruct Hout as (r & d & new & Hw & Hsz & -> & Hdet & Hpo' & Hsr & Hroots & Hgone & Hrest & Hused & Htot & Heff & _).
  assert (Hsub : without d lvl ⊆ lvl).
  { unfold without. destruct (d_p2 d), (d_p1 d); try done; repeat (etrans; [apply delete_subseteq|]); done. }
  exists (Ok (tr_start r)), s', (without d lvl). split; [done|]. split; [done|]. split; [done|]. split; [|split; [|split]].
  - intros n Hn. rewrite Hused by done. by intros [_ ?]%andb_true_iff.
  - intros n Hn Hu. rewrite Hused, Hu by done. rewrite andb_true_r. intros Hd%negb_false_iff%bool_decide_eq_true.
    destruct Hdet as [H1 H2]. unfold freed_list in Hd. apply elem_of_app in Hd as [Hd|Hd].
    + destruct (d_p2 d) as [p|] eqn:Hp; [|by apply elem_of_nil in Hd]. apply list_elem_of_singleton in Hd as ->. rewrite (H2 _ eq_refl). eauto.
    + destruct (d_p1 d) as [p|] eqn:Hp; [|by apply elem_of_nil in Hd]. apply list_elem_of_singleton in Hd as ->. rewrite (H1 _ eq_refl). eauto.
  - unfold page_of. rewrite Hw. by exists (tr_attributes r).
  - assert (Hrt : forall f, without d lvl !! f = Some 4%nat <-> lvl !! f = Some 4%nat).
    { intros f. split; [intros; by eapply lookup_weaken|]. intros. apply lookup_without; [done|done|lia]. }
    assert (Hother : forall sp pg, lvl !! sp = Some 4%nat -> user_page pg -> ~ (sp = space /\ pg = page) ->
      walk (tables s') sp pg = walk (tables s) sp pg).
    { intros sp pg Hsp Hpgu Hd. apply Hrest; [done|by apply user_page_range|].
      destruct (decide (pg = page)) as [->|Hne]; [right|left; by rewrite (proj2 Hpgu)]. intros Hs. apply Hd. split; [|done].
      symmetry. apply Hsep; [done|done|]. by apply (user_page_shares _ _ _ page). }
    split; [split; [done| |]| |done| |].
    + intros r1 r2 H1 H2 Hs. apply Hrt in H1. apply Hrt in H2. apply Hsep; [done|done|]. by eapply shares_same.
    + intros rt pg t Hrt' Hpgu Hwt. apply Hrt in Hrt'. destruct (decide (rt = space /\ pg = page)) as [[-> ->]|Hd].
      * rewrite Hgone in Hwt; [done|]. apply Hpg.
      * rewrite Hother in Hwt by done. by apply (Hsmall rt pg).
    + done.
    + intros sp pg Hsp Hpgu. unfold at_page. case_decide as Hd.
      * destruct Hd as [-> ->]. unfold page_of. rewrite Hgone; [done|]. apply Hpg.
      * unfold page_of. by rewrite Hother.
    + intros sp pg Hsp Hpgu Hopen Hpage. destruct (decide (sp = space /\ pg = page)) as [[-> ->]|Hd].
      * destruct Hpage. unfold page_of. rewrite Hgone; [done|]. apply Hpg.
      * revert Hopen. apply same_info_open, same_info_eq. by apply Hother.
Qed.

(** Changing the flags of a page changes nothing else, and takes or frees no frame. *)
Lemma set_flags_in_edit `{UpdateLaw} s lvl space page new :
  spaces_ok s lvl -> lvl !! space = Some 4%nat -> user_page page -> has new PRESENT = true -> has new HUGE_PAGE = false ->
  (page_of s space page <> None -> page_open s space page) ->
  exists r s', set_flags_in space page new s = (r, s') /\ frames s' = frames s /\
    match r with
    | Ok _ => exists f old, page_of s space page = Some (f, old) /\ edited s s' lvl lvl (at_page space page (Some (f, new)))
    | Err _ => s' = s /\ page_of s space page = None
    | Panic => False
    end.
Proof.
  intros Hs H4 Hpg Hp Hh Hopened. pose proof Hs as [[Hok Hfr Hus Hroot Hwin] Hsep Hsmall]. unfold set_flags_in. cbv beta iota delta [mbind M_bind].
  rewrite (with_space_run _ s lvl) by apply Hs. unfold mapper_update.
  pose proof (update_walk (tables s) lvl space page new Hok H4 (user_page_range _ Hpg) (proj2 Hpg) Hp Hh) as Hlaw.
  destruct (update_flags (tables s) space page new) as [m|e|]; [| |done].
  2:{ exists (Err e), s. split; [done|]. split; [done|]. split; [done|]. unfold page_of.
      destruct (walk (tables s) space page) as [t|] eqn:Hw; [|done]. by destruct (Hlaw t eq_refl), (Hsmall space page t H4 Hpg Hw). }
  destruct Hlaw as (Hok' & Hsh & Hother & t & t' & Hw & Hsz & Hw' & Hi & Hlw & Hlu).
  set (s1 := add_effect (set_tables s m) (FlushLocal page)).
  assert (Hshoot : exists pre, shoot_down_if_shared (E:=FlagUpdateError) space page s1 =
    (Ok tt, {| tables := m; frames := frames s; cr3 := cr3 s; KERNEL_SPACE := KERNEL_SPACE s;
               PHYSICAL_OFFSET := PHYSICAL_OFFSET s; effects := pre |})).
  { unfold shoot_down_if_shared, emit. cbv beta iota delta [mbind M_bind get]. destruct (bool_decide _); eexists; done. }
  destruct Hshoot as [pre ->]. eexists (Ok tt), _. split; [done|]. split; [done|]. exists (tr_start t), (tr_attributes t).
  split; [unfold page_of; by rewrite Hw|].
  assert (Hinf : forall sp pg, lvl !! sp = Some 4%nat -> user_page pg -> ~ (sp = space /\ pg = page) ->
    same_info (walk m sp pg) (walk (tables s) sp pg)).
  { intros sp pg Hsp Hpgu Hne. apply Hother; [done|by apply user_page_range|].
    destruct (decide (pg = page)) as [->|]; [right|left; by rewrite (proj2 Hpgu)]. intros Hsr. apply Hne. split; [|done].
    symmetry. apply Hsep; [done|done|]. by apply (user_page_shares _ _ _ page). }
  assert (Hop : page_open s space page) by (apply Hopened; unfold page_of; by rewrite Hw). pose proof Hop as (? & Hx & Hxw & Hxu).
  rewrite Hw in Hx. injection Hx as <-. rewrite <- Hlw in Hxw. rewrite <- Hlu in Hxu.
  split; [split; [by split| |]|done|done| |].
  - intros r r' Hr Hr' Hsr. apply Hsep; [done|done|]. by apply Hsh.
  - intros rt pg x Hrt Hpgu Hwx. cbn [tables] in Hwx. destruct (decide (rt = space /\ pg = page)) as [[-> ->]|Hne].
    + rewrite Hw' in Hwx. injection Hwx as <-. apply (plain_links _ _ _ _ Hw'). split; [unfold info in Hi; by injection Hi|done].
    + apply (same_info_plain _ _ _ _ _ (Hinf _ _ Hrt Hpgu Hne) Hwx). intros x'. by apply Hsmall.
  - intros sp pg Hsp Hpgu. unfold at_page. case_decide as Hd.
    + destruct Hd as [-> ->]. unfold page_of. cbn [tables]. rewrite Hw'. unfold info in Hi. cbn. injection Hi. congruence.
    + apply same_info_page. by apply Hinf.
  - intros sp pg Hsp Hpgu Hopen _. destruct (decide (sp = space /\ pg = page)) as [[-> ->]|Hd]; [by exists t'|].
    revert Hopen. apply same_info_open. by apply Hinf.
Qed.

(** The flags of a user page are those it was mapped with. *)
Lemma flags_in_page `{TranslateLaw} {E} s lvl space page : spaces_ok s lvl -> lvl !! space = Some 4%nat -> user_page page ->
  flags_in (E:=E) space page s = (Ok (snd <$> page_of s space page), s).
Proof.
  intros Hs H4 Hpg. unfold flags_in, translate_in. cbv beta iota delta [mbind M_bind]. rewrite (with_space_run _ s lvl) by apply Hs.
  cbv beta iota delta [mbind M_bind get]. rewrite (translate_walk _ lvl) by (apply Hs || done). unfold page_of.
  destruct (walk (tables s) space page) as [t|] eqn:Hw; [|done]. by rewrite (proj1 (so_plain _ _ Hs space page t H4 Hpg Hw)).
Qed.

(** ** Bytes of a page *)

(** The same page seen from another byte of it. *)
Definition at_offset (o : Z) (t : Translation) : Translation :=
  {| tr_start := tr_start t; tr_size := tr_size t; tr_offset := o; tr_attributes := tr_attributes t;
     tr_writable := tr_writable t; tr_user := tr_user t; tr_no_execute := tr_no_execute t;
     tr_link_writable := tr_link_writable t; tr_link_user := tr_link_user t |}.

Lemma page_at_idem va : page_at (page_at va) = page_at va.
Proof. unfold page_at, PAGE_SIZE. Z.div_mod_to_equations. lia. Qed.

Lemma walk_page (mem : memory) l f va : (l <= 4)%nat ->
  match walk_from mem l f (page_at va) with
  | Some t => walk_from mem l f va = Some (at_offset (va mod tr_size t) t)
  | None => walk_from mem l f va = None
  end.
Proof.
  revert f. induction l as [|l IH]; intros f Hl; [done|]. cbn [walk_from].
  rewrite (index_page va (page_at va) (S l)) by (rewrite ?page_at_idem; lia).
  destruct (mem !! f) as [t|]; [|done]. cbn [mbind option_bind]. destruct (t !! index (S l) (page_at va)) as [e|]; [|done].
  cbn [mbind option_bind]. destruct (present e); cbn [negb]; [|done].
  destruct (Nat.eqb (S l) 1) eqn:H1; [done|]. destruct (huge e); [by destruct (Nat.leb (S l) 3)|].
  specialize (IH (e_addr e) ltac:(lia)). destruct (walk_from mem l (e_addr e) (page_at va)) as [r|]; rewrite IH; done.
Qed.

(** Where a byte of the user region is, and with what rights. *)
Lemma walk_user s lvl space va : spaces_ok s lvl -> lvl !! space = Some 4%nat -> user_page (page_at va) ->
  match page_of s space (page_at va) with
  | Some (f, fl) => exists t, walk (tables s) space va = Some t /\ physical t = f + va mod 4096 /\ tr_attributes t = fl /\
      tr_writable t = has fl WRITABLE /\ tr_user t = has fl USER_ACCESSIBLE
  | None => walk (tables s) space va = None
  end.
Proof.
  intros Hs H4 Hpg. pose proof (walk_page (tables s) 4 space va ltac:(lia)) as Hw. unfold page_of, walk.
  destruct (walk_from (tables s) 4 space (page_at va)) as [t|] eqn:Ht; cbn [fmap option_fmap option_map]; [|done].
  destruct (so_plain _ _ Hs space _ t H4 Hpg Ht) as (Hz & Hwr & Hus). eexists. split; [exact Hw|].
  unfold physical. cbn [at_offset tr_start tr_offset tr_attributes tr_writable tr_user]. by rewrite Hz.
Qed.
