(* ===== verification/PagingRef.v ===== *)
(** * A reference for the page-table crate

    An implementation of [Mapper] that keeps the promises the kernel relies on: it shows
    they can be kept together, and runs the concrete examples. *)

From stdpp Require Import base list gmap numbers list_numbers.
From Stdlib Require Import Lia.
From S2P Require Import Prelude Frame Paging PagingInv PagingSplit PagingUnmap PagingSpace PagingMap.

(** Follow an entry to the next table, making one if it is unused. *)
Definition ref_next (mem : memory) (a : BitmapFrameAllocator) (f : Z) (i : nat) (flags : Z)
  : result MapToError Z * (memory * BitmapFrameAllocator) :=
  match mem !! f with
  | None => (Panic, (mem, a))
  | Some t =>
      match t !! i with
      | None => (Panic, (mem, a))
      | Some e =>
          if is_unused e then
            match allocate a with
            | Ok (Some n, a') =>
                (Ok n, (<[n := zero_table]> (<[f := <[i := entry n (Z.land flags 7)]> t]> mem), a'))
            | Ok (None, a') => (Err FrameAllocationFailed, (mem, a'))
            | _ => (Panic, (mem, a))
            end
          else if huge e then (Err ParentEntryHugePage, (mem, a))
          else (Ok (e_addr e), (<[f := <[i := entry (e_addr e) (Z.lor (e_flags e) (Z.land flags 7))]> t]> mem, a))
      end
  end.

Fixpoint ref_tables (levels : list nat) (mem : memory) (a : BitmapFrameAllocator) (f page flags : Z)
  : result MapToError Z * (memory * BitmapFrameAllocator) :=
  match levels with
  | [] => (Ok f, (mem, a))
  | l :: rest =>
      match ref_next mem a f (index l page) flags with
      | (Ok child, (mem', a')) => ref_tables rest mem' a' child page flags
      | (Err e, s) => (Err e, s)
      | (Panic, s) => (Panic, s)
      end
  end.

Definition ref_map_to (mem : memory) (a : BitmapFrameAllocator) (root page frame flags : Z)
  : result MapToError unit * (memory * BitmapFrameAllocator) :=
  match ref_tables [4; 3; 2]%nat mem a root page flags with
  | (Ok p1, (mem', a')) =>
      match mem' !! p1 with
      | Some t =>
          match t !! index 1 page with
          | Some e => if is_unused e then (Ok tt, (<[p1 := <[index 1 page := entry frame flags]> t]> mem', a'))
                      else (Err PageAlreadyMapped, (mem', a'))
          | None => (Panic, (mem', a'))
          end
      | None => (Panic, (mem', a'))
      end
  | (Err e, s) => (Err e, s)
  | (Panic, s) => (Panic, s)
  end.

Definition ref_unmap (mem : memory) (root page : Z) : result UnmapError (memory * Z) :=
  match walk mem root page with
  | Some r => if tr_size r =? 4096 then Ok (clear_leaf mem root page, tr_start r) else Err UnmapParentHuge
  | None => Err PageNotMapped
  end.

Definition ref_update (mem : memory) (root page flags : Z) : result FlagUpdateError memory :=
  match leaf_table mem 4 root page with
  | Some p1 =>
      match mem !! p1 with
      | Some t =>
          match t !! index 1 page with
          | Some e => if is_unused e then Err FlagPageNotMapped
                      else Ok (<[p1 := <[index 1 page := entry (e_addr e) flags]> t]> mem)
          | None => Panic
          end
      | None => Panic
      end
  | None => Err FlagParentHuge
  end.

Definition ref_translate (mem : memory) (root va : Z) : TranslateResult :=
  match walk mem root va with
  | Some t => Mapped (tr_start t) (tr_size t) (tr_offset t)
                (if tr_size t =? 4096 then tr_attributes t else Z.setbit (tr_attributes t) HUGE_PAGE)
  | None => NotMapped
  end.

#[global] Instance RefMapper : Mapper :=
  {| map_to := ref_map_to; unmap_page := ref_unmap; update_flags := ref_update; mapper_translate := ref_translate |}.

#[global] Instance RefMapper_translate : TranslateLaw.
Proof. by split. Qed.

#[global] Instance RefMapper_unmap : UnmapLaw.
Proof.
  split. intros mem lvl root page _ _ _. cbn [unmap_page RefMapper]. unfold ref_unmap.
  destruct (walk mem root page) as [r|]; [destruct (tr_size r =? 4096)|]; eauto.
Qed.

(** ** Editing one entry *)

Section Replace.
Context (mem : memory) (lvl : levels) (Hok : tables_ok mem lvl).
Context (F : Z) (L : nat) (t : PageTable) (i : nat) (e' : PageTableEntry) (HF : lvl !! F = Some L) (Ht : mem !! F = Some t).

Definition replaced : memory := <[F := <[i := e']> t]> mem.

Lemma replaced_other f : f <> F -> replaced !! f = mem !! f.
Proof. intros Hne. apply lookup_insert_ne. congruence. Qed.

Lemma entry_in_replaced f l j d : entry_in replaced lvl f l j d ->
  (f = F /\ l = L /\ j = i /\ d = e') \/ (entry_in mem lvl f l j d /\ ~ (f = F /\ j = i)).
Proof.
  intros [Hl (tb & Htb & Hd)]. destruct (decide (f = F)) as [->|Hne].
  - unfold replaced in Htb. rewrite lookup_insert_eq in Htb. simplify_eq. destruct (decide (j = i)) as [->|Hji].
    + left. apply list_lookup_insert_Some in Hd. naive_solver.
    + right. rewrite list_lookup_insert_ne in Hd by done. split; [|naive_solver]. split; eauto.
  - right. rewrite replaced_other in Htb by done. split; [|naive_solver]. split; eauto.
Qed.

(** A leaf may lead anywhere; a link must lead where it led. *)
Lemma replaced_ok : present e' = true ->
  (L = 1%nat \/ exists e, t !! i = Some e /\ leads L e /\ leads L e' /\ e_addr e' = e_addr e) -> tables_ok replaced lvl.
Proof.
  intros Hp Hcase.
  assert (Hlead : forall f l j d, entry_in replaced lvl f l j d -> leads l d ->
    exists d', entry_in mem lvl f l j d' /\ leads l d' /\ e_addr d' = e_addr d).
  { intros f l j d Hd Hl. destruct (entry_in_replaced _ _ _ _ Hd) as [(-> & -> & -> & ->)|[Hold _]]; [|by exists d].
    destruct Hcase as [->|(e & He & Hle & _ & Heq)]; [by destruct Hl; lia|]. exists e. split; [by split; eauto|done]. }
  split.
  - intros f l Hf. destruct (to_table _ _ Hok f l Hf) as [Hr (tb & Htb & Hlen)]. split; [done|].
    destruct (decide (f = F)) as [->|Hne]; [|rewrite replaced_other by done; eauto].
    unfold replaced. rewrite lookup_insert_eq. simplify_eq. eexists. split; [done|]. by rewrite length_insert.
  - intros f l j d Hd Hl. destruct (Hlead _ _ _ _ Hd Hl) as (d' & Hd' & Hl' & <-). by eapply (to_child _ _ Hok).
  - intros f l j d Hd Hnp. destruct (entry_in_replaced _ _ _ _ Hd) as [(-> & -> & -> & ->)|[Hold _]]; [congruence|by eapply (to_clean _ _ Hok)].
  - intros f l j d Hd Hdp Hh Hl. destruct (entry_in_replaced _ _ _ _ Hd) as [(-> & -> & -> & ->)|[Hold _]]; [|by eapply (to_huge _ _ Hok)].
    destruct Hcase as [->|(e & _ & _ & (_ & _ & Hn) & _)]; [lia|congruence].
  - intros f l j d g k j' d' Hd Hd' Hl3 Hk3 Hl Hk Heq. destruct (Hlead _ _ _ _ Hd Hl) as (x & Hx & Hlx & Hex).
    destruct (Hlead _ _ _ _ Hd' Hk) as (y & Hy & Hly & Hey). eapply (to_unique _ _ Hok _ _ _ x _ _ _ y); try done. congruence.
  - intros f j d g j' d' Hd Hd' Hl Hk Heq. destruct (Hlead _ _ _ _ Hd Hl) as (x & Hx & Hlx & Hex).
    destruct (Hlead _ _ _ _ Hd' Hk) as (y & Hy & Hly & Hey). eapply (to_shared _ _ Hok _ _ x _ _ y); try done. congruence.
Qed.

End Replace.

(** ** Hanging a new empty table from an unused entry *)

Lemma lookup_zero i e : zero_table !! i = Some e -> e = UNUSED.
Proof. intros [-> _]%lookup_replicate. done. Qed.

Lemma zero_empty : table_is_empty zero_table = true.
Proof. vm_compute. reflexivity. Qed.

Section Link.
Context (mem : memory) (lvl : levels) (Hok : tables_ok mem lvl).
Context (F : Z) (L : nat) (t : PageTable) (i : nat) (n fl : Z) (HF : lvl !! F = Some L) (HL : (1 < L)%nat).
Context (Ht : mem !! F = Some t) (Hi : t !! i = Some UNUSED) (Hn : lvl !! n = None).
Context (Hp : has fl PRESENT = true) (Hh : has fl HUGE_PAGE = false).

Definition linked : memory := <[n := zero_table]> (<[F := <[i := entry n fl]> t]> mem).

Lemma link_ne : n <> F.
Proof. congruence. Qed.

Lemma linked_F : linked !! F = Some (<[i := entry n fl]> t).
Proof. unfold linked. rewrite lookup_insert_ne by apply link_ne. apply lookup_insert_eq. Qed.

Lemma linked_other f l : lvl !! f = Some l -> f <> F -> linked !! f = mem !! f.
Proof. intros Hf Hne. unfold linked. rewrite !lookup_insert_ne; congruence. Qed.

Lemma entry_in_linked f l j d : entry_in linked (<[n := pred L]> lvl) f l j d ->
  d = UNUSED \/ (f = F /\ l = L /\ j = i /\ d = entry n fl) \/ entry_in mem lvl f l j d.
Proof.
  intros [Hl (tb & Htb & Hd)]. apply lookup_insert_Some in Hl as [[<- <-]|[Hne Hl]].
  - left. unfold linked in Htb. rewrite lookup_insert_eq in Htb. simplify_eq. by eapply lookup_zero.
  - right. destruct (decide (f = F)) as [->|HfF].
    + rewrite linked_F in Htb. simplify_eq. destruct (decide (j = i)) as [->|Hji].
      * left. apply list_lookup_insert_Some in Hd. naive_solver.
      * right. rewrite list_lookup_insert_ne in Hd by done. split; eauto.
    + right. rewrite (linked_other f l) in Htb by done. split; eauto.
Qed.

Lemma linked_leads f l j d : entry_in linked (<[n := pred L]> lvl) f l j d -> leads l d ->
  (f = F /\ l = L /\ j = i /\ d = entry n fl) \/ (entry_in mem lvl f l j d /\ e_addr d <> n).
Proof.
  intros Hd Hl. destruct (entry_in_linked _ _ _ _ Hd) as [->|[H|H]]; [by destruct Hl as (_ & ? & _)|by left|right].
  split; [done|]. intros Heq. pose proof (to_child _ _ Hok _ _ _ _ H Hl) as Hc. congruence.
Qed.

Lemma linked_ok : tables_ok linked (<[n := pred L]> lvl).
Proof.
  destruct (to_table _ _ Hok _ _ HF) as [HLr _]. split.
  - intros f l Hf. apply lookup_insert_Some in Hf as [[<- <-]|[Hne Hf]].
    + split; [lia|]. unfold linked. rewrite lookup_insert_eq. eexists. split; [done|]. apply length_replicate.
    + destruct (to_table _ _ Hok f l Hf) as [Hr (tb & Htb & Hlen)]. split; [done|].
      destruct (decide (f = F)) as [->|HfF]; [|rewrite (linked_other f l) by done; eauto].
      rewrite linked_F. simplify_eq. eexists. split; [done|]. by rewrite length_insert.
  - intros f l j d Hd Hl. destruct (linked_leads _ _ _ _ Hd Hl) as [(-> & -> & -> & ->)|[Hold Hne]].
    + apply lookup_insert_eq.
    + rewrite lookup_insert_ne by done. by eapply (to_child _ _ Hok).
  - intros f l j d Hd Hnp. destruct (entry_in_linked _ _ _ _ Hd) as [->|[(-> & -> & -> & ->)|H]]; [done|change (has fl PRESENT = false) in Hnp; congruence|].
    by eapply (to_clean _ _ Hok).
  - intros f l j d Hd Hdp Hdh Hl. destruct (entry_in_linked _ _ _ _ Hd) as [->|[(-> & -> & -> & ->)|H]]; [done|change (has fl HUGE_PAGE = true) in Hdh; congruence|].
    by eapply (to_huge _ _ Hok).
  - intros f l j d g k j' d' Hd Hd' Hl3 Hk3 Hl Hk Heq.
    destruct (linked_leads _ _ _ _ Hd Hl) as [(-> & -> & -> & ->)|[Ho Hne]]; destruct (linked_leads _ _ _ _ Hd' Hk) as [(-> & -> & -> & ->)|[Ho' Hne']];
      try done; simpl in Heq; try congruence. by eapply (to_unique _ _ Hok).
  - intros f j d g j' d' Hd Hd' Hl Hk Heq.
    destruct (linked_leads _ _ _ _ Hd Hl) as [(-> & HL4 & -> & ->)|[Ho Hne]]; destruct (linked_leads _ _ _ _ Hd' Hk) as [(-> & _ & -> & ->)|[Ho' Hne']];
      try done; simpl in Heq; try congruence. by eapply (to_shared _ _ Hok).
Qed.

Lemma linked_agree l : agree eq mem linked lvl l.
Proof.
  apply (walk_one_entry eq eq_through mem linked lvl Hok F L t i (entry n fl)); try done.
  - apply linked_F.
  - intros f k Hf Hne. by apply (linked_other f k).
  - intros va Hva _. assert (Hlt : (i < length t)%nat) by (by apply lookup_lt_Some in Hi).
    assert (HL' : exists L', L = S (S L')) by (exists (L - 2)%nat; lia). destruct HL' as [L' HL']. rewrite HL' in Hva |- *.
    rewrite (walk_into linked (S L') F (<[i := entry n fl]> t) (entry n fl) va); [|apply linked_F|by rewrite Hva, list_lookup_insert_eq|done|done|lia].
    rewrite (walk_empty linked (S L') (e_addr (entry n fl)) zero_table) by (try apply zero_empty; apply lookup_insert_eq).
    cbn [walk_from fmap option_fmap option_map]. rewrite Ht. cbn [mbind option_bind]. by rewrite Hva, Hi.
Qed.

End Link.

(** ** Growth *)

Lemma grown_refl mem a lvl mem' : tables_ok mem' lvl -> frames_ok a -> tables_used a lvl ->
  (forall r r' va, lvl !! r = Some 4%nat -> lvl !! r' = Some 4%nat -> shares mem' r r' va -> shares mem r r' va) ->
  grown mem mem' a a lvl lvl.
Proof.
  intros Hok Hfr Hus Hsh. split; try done.
  - intros n Hn. rewrite bool_decide_false; [by rewrite orb_false_r|]. by intros [-> [? ?]].
  - intros n Hn Hl [? ?]. congruence.
Qed.

Lemma grown_trans m1 m2 m3 a1 a2 a3 l1 l2 l3 : grown m1 m2 a1 a2 l1 l2 -> grown m2 m3 a2 a3 l2 l3 -> grown m1 m3 a1 a3 l1 l3.
Proof.
  intros [S1 T1 F1 U1 N1 K1 E1 R1 H1] [S2 T2 F2 U2 N2 K2 E2 R2 H2].
  assert (Hnew : forall f, (l1 !! f = None /\ is_Some (l3 !! f)) <->
    (l1 !! f = None /\ is_Some (l2 !! f)) \/ (l2 !! f = None /\ is_Some (l3 !! f))).
  { intros f. split.
    - intros [Hn Hs]. destruct (l2 !! f) eqn:H; [left|right]; split; eauto.
    - intros [[Hn [x Hx]]|[Hn Hs]].
      + split; [done|]. exists x. by eapply lookup_weaken.
      + split; [|done]. destruct (l1 !! f) eqn:H; [|done]. exfalso. rewrite (lookup_weaken _ _ _ _ H S1) in Hn. done. }
  split; try done.
  - by etrans.
  - congruence.
  - intros n Hn. rewrite K2, K1 by done. rewrite <- orb_assoc. f_equal. rewrite <- bool_decide_or. apply bool_decide_ext. by rewrite Hnew.
  - intros n Hn Hl Hs. destruct (proj1 (Hnew (frame_at n)) (conj Hl Hs)) as [[_ Ha]|[Ha Hb]]; [by apply E1|].
    specialize (E2 n Hn Ha Hb). rewrite K1 in E2 by done. by apply orb_false_iff in E2 as [? _].
  - intros f Hf. by apply R1, R2.
  - intros r r' va Hr Hr' Hs. apply H1; [done|done|]. apply H2; [by eapply lookup_weaken|by eapply lookup_weaken|done].
Qed.

Lemma next_typed mem lvl r va c : tables_ok mem lvl -> lvl !! r = Some 4%nat -> next mem r va = Some c -> lvl !! c = Some 3%nat.
Proof.
  intros Hok Hr. unfold next. destruct (mem !! r) as [t|] eqn:Ht; [|done]. cbn [mbind option_bind].
  destruct (t !! index 4 va) as [e|] eqn:He; [|done]. cbn [mbind option_bind].
  destruct (present e) eqn:Hp; [|done]. destruct (huge e) eqn:Hh; [done|]. intros [= <-].
  apply (to_child _ _ Hok r 4 (index 4 va) e); [by split; eauto|]. unfold leads. split_and!; [lia|done|done].
Qed.

(** Sharing after one link changed: no more than before, if a new link is fresh. *)
Lemma shares_edit mem mem' lvl F i e' t : tables_ok mem lvl -> mem !! F = Some t -> mem' !! F = Some (<[i := e']> t) ->
  (forall f l, lvl !! f = Some l -> f <> F -> mem' !! f = mem !! f) ->
  (lvl !! e_addr e' = None \/ exists e, t !! i = Some e /\ child_of e = child_of e' /\ e_addr e = e_addr e') ->
  forall r r' va, lvl !! r = Some 4%nat -> lvl !! r' = Some 4%nat -> shares mem' r r' va -> shares mem r r' va.
Proof.
  intros Hok Ht Ht' Hother Hcase.
  assert (Hnext : forall r va, lvl !! r = Some 4%nat ->
    next mem' r va = next mem r va \/ (r = F /\ lvl !! e_addr e' = None /\ (next mem' r va = None \/ next mem' r va = Some (e_addr e')))).
  { intros r va Hr. destruct (decide (r = F)) as [->|Hne]; [|left; unfold next; by rewrite (Hother r 4%nat) by done].
    unfold next. rewrite Ht, Ht'. cbn [mbind option_bind]. destruct (decide (index 4 va = i)) as [Hi|Hi].
    - destruct (decide (i < length t)%nat) as [Hlt|Hge].
      + rewrite Hi, list_lookup_insert_eq by done. cbn [mbind option_bind]. destruct Hcase as [Hfresh|(e & He & Hc & Ha)].
        * right. split; [done|]. split; [done|]. destruct (present e' && negb (huge e')); [by right|by left].
        * left. rewrite He. cbn [mbind option_bind]. unfold child_of in Hc. by rewrite Hc, Ha.
      + left. rewrite list_insert_ge by lia. done.
    - left. by rewrite list_lookup_insert_ne by done. }
  intros r r' va Hr Hr' [->|(c & Hc & Hc')]; [by left|].
  destruct (Hnext r va Hr) as [E1|(-> & Hf1 & [E1|E1])]; [|congruence|];
    (destruct (Hnext r' va Hr') as [E2|(-> & Hf2 & [E2|E2])]; [|congruence|]).
  - right. exists c. split; congruence.
  - exfalso. rewrite E1 in Hc. rewrite E2 in Hc'. injection Hc' as <-. pose proof (next_typed _ _ _ _ _ Hok Hr Hc). congruence.
  - exfalso. rewrite E2 in Hc'. rewrite E1 in Hc. injection Hc as <-. pose proof (next_typed _ _ _ _ _ Hok Hr' Hc'). congruence.
  - by left.
Qed.

(** ** One table down *)

Lemma has_low flags k : 0 <= k < 3 -> has (Z.land flags 7) k = has flags k.
Proof.
  intros Hk. unfold has. rewrite Z.land_spec. assert (k = 0 \/ k = 1 \/ k = 2) as [Hk0|[Hk0|Hk0]] by lia; subst k; apply andb_true_r.
Qed.

Lemma has_high flags k : 3 <= k -> has (Z.land flags 7) k = false.
Proof.
  intros Hk. unfold has. rewrite Z.land_spec. change 7 with (Z.ones 3). rewrite Z.ones_spec_high by lia. apply andb_false_r.
Qed.

Lemma has_lor f g k : has (Z.lor f g) k = has f k || has g k.
Proof. apply Z.lor_spec. Qed.

Lemma unused_eq e : is_unused e = true -> e = UNUSED.
Proof. destruct e as [ad fl]. unfold is_unused. simpl. intros [H1%Z.eqb_eq H2%Z.eqb_eq]%andb_true_iff. by subst. Qed.

Definition covers (flags : Z) (e : PageTableEntry) : Prop := forall k, 0 <= k < 3 -> has flags k = true -> has (e_flags e) k = true.

(** A link given more rights. *)
Lemma same_info_widened e e' o' o : (forall k, has (e_flags e) k = true -> has (e_flags e') k = true) ->
  has (e_flags e') NO_EXECUTE = has (e_flags e) NO_EXECUTE ->
  same_info o' o -> same_info (through e' <$> o') (through e <$> o).
Proof.
  intros Hmore Hnx. destruct o' as [t'|], o as [t|]; try done. intros (Hi & Hw & Hu & Hx). split_and!.
  - exact Hi.
  - cbn [through tr_link_writable]. intros [H1 H2]%andb_true_iff. by rewrite Hmore, Hw.
  - cbn [through tr_link_user]. intros [H1 H2]%andb_true_iff. by rewrite Hmore, Hu.
  - cbn [through tr_no_execute]. by rewrite Hnx, Hx.
Qed.

Lemma ref_next_ok mem lvl a f l i flags :
  tables_ok mem lvl -> frames_ok a -> tables_used a lvl -> lvl !! f = Some l -> (1 < l)%nat -> (i < ENTRIES)%nat ->
  has flags PRESENT = true ->
  exists r mem' a' lvl', ref_next mem a f i flags = (r, (mem', a')) /\ grown mem mem' a a' lvl lvl' /\
    (forall k, agree same_info mem mem' lvl k) /\ (forall g, g <> f -> is_Some (lvl !! g) -> mem' !! g = mem !! g) /\
    match r with
    | Ok c => exists t e, mem' !! f = Some t /\ t !! i = Some e /\ leads l e /\ e_addr e = c /\ lvl' !! c = Some (pred l) /\ covers flags e
    | Err FrameAllocationFailed => free_frames a' = 0
    | Err ParentEntryHugePage => True
    | _ => False
    end.
Proof.
  intros Hok Hfr Hus Hf Hl Hi Hp. destruct (to_table _ _ Hok _ _ Hf) as [Hr (t & Ht & Hlen)].
  destruct (lookup_lt_is_Some_2 t i ltac:(lia)) as [e He]. unfold ref_next. rewrite Ht, He.
  assert (Hsame : grown mem mem a a lvl lvl) by (by apply grown_refl).
  assert (Hag0 : forall k, agree same_info mem mem lvl k) by (intros k g va _; reflexivity).
  destruct (is_unused e) eqn:Hu; [|destruct (huge e) eqn:Hh].
  - apply unused_eq in Hu as ->.
    pose proof (allocate_sound _ Hfr) as Ha. destruct (allocate a) as [[[n|] a']|?|]; [|..]; [|..|done|done].
    2:{ destruct Ha as (-> & Hfree & _). exists (Err FrameAllocationFailed), mem, a, lvl. split_and!; done. }
    destruct Ha as (m & -> & Hm & Hfree & Hfr' & _ & Htot & Hg). pose proof (fresh_frame _ _ _ Hus Hm Hfree) as Hnew.
    assert (Hp7 : has (Z.land flags 7) PRESENT = true) by (by rewrite has_low).
    assert (Hh7 : has (Z.land flags 7) HUGE_PAGE = false) by (by apply has_high).
    eexists (Ok (frame_at m)), (linked mem f t i (frame_at m) (Z.land flags 7)), a', (<[frame_at m := pred l]> lvl). split; [done|].
    assert (Hok' := linked_ok mem lvl Hok f l t i (frame_at m) (Z.land flags 7) Hf Hl Ht Hnew Hp7 Hh7).
    split; [|split; [|split]].
    + split; try done.
      * by apply insert_subseteq.
      * by eapply tables_used_grow.
      * intros n Hn. rewrite Hg by done. rewrite orb_comm. f_equal. apply bool_decide_ext.
        destruct (decide (frame_at n = frame_at m)) as [Heq|Hne].
        -- rewrite Heq, lookup_insert_eq. apply frame_at_inj in Heq. naive_solver.
        -- rewrite lookup_insert_ne by done. split; [congruence|]. intros [Hx [y Hy]]. congruence.
      * intros n Hn Hx [y Hy]. apply lookup_insert_Some in Hy as [[Heq%frame_at_inj _]|[_ Hy]]; [by subst|congruence].
      * intros g Hg4. apply lookup_insert_Some in Hg4 as [[_ ?]|[_ ?]]; [lia|done].
      * apply (shares_edit mem _ lvl f i (entry (frame_at m) (Z.land flags 7)) t Hok Ht); [|by intros; eapply linked_other|by left].
        by apply (linked_F mem lvl f l).
    + intros k g va Hg'. apply same_info_eq. by apply (linked_agree mem lvl Hok f l t i (frame_at m)).
    + intros g Hne [k Hk]. by eapply linked_other.
    + exists (<[i := entry (frame_at m) (Z.land flags 7)]> t), (entry (frame_at m) (Z.land flags 7)).
      split_and!; [by apply (linked_F mem lvl f l)|apply list_lookup_insert_eq; lia|by split|done|apply lookup_insert_eq|].
      intros k Hk Hf'. cbn [entry e_flags]. by rewrite has_low.
  - exists (Err ParentEntryHugePage), mem, a, lvl. split_and!; done.
  - assert (Hpe : present e = true).
    { destruct (present e) eqn:Hpe; [done|]. rewrite (to_clean _ _ Hok f l i e) in Hu; [done|by split; eauto|done]. }
    set (e' := entry (e_addr e) (Z.lor (e_flags e) (Z.land flags 7))).
    assert (Hpe' : present e' = true) by (unfold present, e'; cbn [entry e_flags]; rewrite has_lor; unfold present in Hpe; by rewrite Hpe).
    assert (Hhe' : huge e' = false).
    { unfold huge, e'. cbn [entry e_flags]. rewrite has_lor. unfold huge in Hh. rewrite Hh. by apply has_high. }
    assert (Hok' : tables_ok (replaced mem f t i e') lvl).
    { apply (replaced_ok mem lvl Hok f l t i e' Hf Ht Hpe'). right. exists e. by split_and!. }
    exists (Ok (e_addr e)), (replaced mem f t i e'), a, lvl. split; [done|]. split; [|split; [|split]].
    + apply grown_refl; try done. apply (shares_edit mem _ lvl f i e' t Hok Ht); [apply lookup_insert_eq|by intros; apply replaced_other|].
      right. exists e. split; [done|]. unfold child_of. by rewrite Hpe, Hh, Hpe', Hhe'.
    + apply (walk_one_entry same_info same_info_through mem _ lvl Hok f l t i e'); try done.
      * apply lookup_insert_eq.
      * intros. by apply replaced_other.
      * intros va Hva Hag. destruct l as [|l']; [lia|].
        rewrite (walk_into _ l' f (<[i := e']> t) e'); [|apply lookup_insert_eq|rewrite Hva; apply list_lookup_insert_eq; lia|done|done|lia].
        rewrite (walk_into mem l' f t e); [|done|by rewrite Hva|done|done|lia].
        assert (Hc : lvl !! e_addr e = Some l') by (apply (to_child _ _ Hok f (S l') i e); [by split; eauto|by split]).
        pose proof (Hag (e_addr e) va Hc) as Hs. cbn [pred] in Hs. change (e_addr e') with (e_addr e).
        apply (same_info_widened e e'); [| |done]; unfold e'; cbn [entry e_flags].
        -- intros k Hk. rewrite has_lor, Hk. done.
        -- rewrite has_lor, has_high by done. apply orb_false_r.
    + intros g Hne _. by apply replaced_other.
    + exists (<[i := e']> t), e'. split_and!; [apply lookup_insert_eq|apply list_lookup_insert_eq; lia|by split|done| |].
      * apply (to_child _ _ Hok f l i e); [by split; eauto|by split].
      * intros k Hk Hfk. unfold e'. cbn [entry e_flags]. rewrite has_lor, has_low by done. rewrite Hfk. apply orb_true_r.
Qed.

(** ** The whole of [map_to] *)

Lemma ref_tables_ok mem lvl a root page flags :
  tables_ok mem lvl -> frames_ok a -> tables_used a lvl -> lvl !! root = Some 4%nat -> has flags PRESENT = true ->
  exists r mem' a' lvl', ref_tables [4; 3; 2]%nat mem a root page flags = (r, (mem', a')) /\ grown mem mem' a a' lvl lvl' /\
    (forall root' va, lvl !! root' = Some 4%nat -> same_info (walk mem' root' va) (walk mem root' va)) /\
    match r with
    | Ok p1 => exists t4 t3 t2 t1 e4 e3 e2, table_path mem' lvl' root page t4 t3 t2 t1 e4 e3 e2 /\ e_addr e2 = p1 /\
        covers flags e4 /\ covers flags e3 /\ covers flags e2
    | Err FrameAllocationFailed => free_frames a' = 0
    | Err ParentEntryHugePage => True
    | _ => False
    end.
Proof.
  intros Hok Hfr Hus H4 Hp. cbn [ref_tables].
  destruct (ref_next_ok mem lvl a root 4 (index 4 page) flags) as (r1 & m1 & a1 & l1 & -> & G1 & A1 & O1 & R1); try done; [lia|apply index_lt|].
  destruct r1 as [p3|e|]; [| |done].
  2:{ exists (Err e), m1, a1, l1. split; [done|]. split; [done|]. split; [intros; by apply A1|by destruct e]. }
  destruct R1 as (t4 & e4 & Ht4 & He4 & Hd4 & <- & H3 & C4).
  destruct (ref_next_ok m1 l1 a1 (e_addr e4) 3 (index 3 page) flags) as (r2 & m2 & a2 & l2 & -> & G2 & A2 & O2 & R2);
    try done; [apply G1|apply G1|apply G1|lia|apply index_lt|].
  pose proof (grown_trans _ _ _ _ _ _ _ _ _ G1 G2) as G12.
  assert (Hw12 : forall root' va, lvl !! root' = Some 4%nat -> same_info (walk m2 root' va) (walk mem root' va)).
  { intros root' va Hr. trans (walk m1 root' va); [apply A2; eapply lookup_weaken; [done|apply G1]|by apply A1]. }
  destruct r2 as [p2|e|]; [| |done].
  2:{ exists (Err e), m2, a2, l2. split; [done|]. split; [done|]. split; [done|by destruct e]. }
  destruct R2 as (t3 & e3 & Ht3 & He3 & Hd3 & <- & H2 & C3).
  destruct (ref_next_ok m2 l2 a2 (e_addr e3) 2 (index 2 page) flags) as (r3 & m3 & a3 & l3 & -> & G3 & A3 & O3 & R3);
    try done; [apply G2|apply G2|apply G2|lia|apply index_lt|].
  pose proof (grown_trans _ _ _ _ _ _ _ _ _ G12 G3) as G123.
  assert (Hw : forall root' va, lvl !! root' = Some 4%nat -> same_info (walk m3 root' va) (walk mem root' va)).
  { intros root' va Hr. trans (walk m2 root' va); [apply A3; eapply lookup_weaken; [done|apply G12]|by apply Hw12]. }
  destruct r3 as [p1|e|]; [| |done].
  2:{ exists (Err e), m3, a3, l3. split; [done|]. split; [done|]. split; [done|by destruct e]. }
  destruct R3 as (t2 & e2 & Ht2 & He2 & Hd2 & <- & H1 & C2).
  cbn [pred] in H3, H2, H1.
  assert (K4 : l2 !! root = Some 4%nat) by (eapply lookup_weaken; [done|apply G12]).
  assert (K3 : l2 !! e_addr e4 = Some 3%nat) by (eapply lookup_weaken; [done|apply G2]).
  assert (L1 : l1 !! root = Some 4%nat) by (eapply lookup_weaken; [exact H4|apply G1]).
  destruct (to_table _ _ (gr_tables _ _ _ _ _ _ G3) _ _ H1) as [_ (t1 & Ht1 & _)].
  exists (Ok (e_addr e2)), m3, a3, l3. split; [done|]. split; [done|]. split; [done|].
  exists t4, t3, t2, t1, e4, e3, e2. split; [|done]. split; try done.
  - eapply lookup_weaken; [exact K4|apply G3].
  - rewrite O3; [|congruence|eauto]. rewrite O2; [done|congruence|eauto].
  - eapply lookup_weaken; [exact K3|apply G3].
  - rewrite O3; [done|congruence|eauto].
  - eapply lookup_weaken; [exact H2|apply G3].
Qed.

Lemma path_walk mem lvl root page t4 t3 t2 t1 e4 e3 e2 : table_path mem lvl root page t4 t3 t2 t1 e4 e3 e2 ->
  walk mem root page = through e4 <$> (through e3 <$> (through e2 <$> walk_from mem 1 (e_addr e2) page)).
Proof.
  intros [H4 Ht4 He4 (_ & Hp4 & Hh4) H3 Ht3 He3 (_ & Hp3 & Hh3) H2 Ht2 He2 (_ & Hp2 & Hh2) H1 Ht1]. unfold walk.
  by rewrite (walk_into _ 3 root t4 e4), (walk_into _ 2 (e_addr e4) t3 e3), (walk_into _ 1 (e_addr e3) t2 e2).
Qed.

Lemma path_replaced mem lvl root page t4 t3 t2 t1 e4 e3 e2 i e' : table_path mem lvl root page t4 t3 t2 t1 e4 e3 e2 ->
  table_path (replaced mem (e_addr e2) t1 i e') lvl root page t4 t3 t2 (<[i := e']> t1) e4 e3 e2.
Proof. intros []. split; try done; try (rewrite replaced_other by congruence; done). apply lookup_insert_eq. Qed.

(** Setting the leaf of a page: that page in the spaces that share the table, no other. *)
Lemma leaf_set mem lvl root page t4 t3 t2 t1 e4 e3 e2 e' : tables_ok mem lvl -> 0 <= page < 2 ^ 48 -> page_at page = page ->
  table_path mem lvl root page t4 t3 t2 t1 e4 e3 e2 -> present e' = true ->
  tables_ok (replaced mem (e_addr e2) t1 (index 1 page) e') lvl /\
  (forall root' va, lvl !! root' = Some 4%nat -> 0 <= va < 2 ^ 48 -> page_at va <> page \/ ~ shares mem root root' page ->
     walk (replaced mem (e_addr e2) t1 (index 1 page) e') root' va = walk mem root' va) /\
  (forall r r' va, lvl !! r = Some 4%nat -> lvl !! r' = Some 4%nat ->
     shares (replaced mem (e_addr e2) t1 (index 1 page) e') r r' va -> shares mem r r' va) /\
  walk (replaced mem (e_addr e2) t1 (index 1 page) e') root page = Some (through e4 (through e3 (through e2 (leaf 1 e' page)))).
Proof.
  intros Hok Hrange Hpg Hpath Hp. pose proof Hpath as [H4 Ht4 He4 Hd4 H3 Ht3 He3 Hd3 H2 Ht2 He2 Hd2 H1 Ht1].
  split; [apply (replaced_ok mem lvl Hok _ 1); [done|done|done|by left]|]. split; [|split].
  - intros root' va Hr' Hva Hne. apply (walk_avoid mem _ lvl (e_addr e2) 1 t1 (index 1 page) e'); try done.
    + apply lookup_insert_eq.
    + intros. by apply replaced_other.
    + intros Hreach Hi1. destruct (reach_shares _ _ _ root' root va page Hok H1 Hr' H4 Hreach
        (table_path_reach _ _ _ _ _ _ _ _ _ _ _ Hpath)) as [Hidx Hsh].
      destruct Hne as [Hne|Hne]; [|done]. apply Hne. rewrite <- Hpg. apply indices_page; [done|done|].
      intros k Hk. destruct (decide (k = 1%nat)) as [->|]; [done|]. apply Hidx. lia.
  - intros r r' va Hr Hr'. apply (shares_same mem _ lvl); [|done|done]. intros rt Hrt. apply replaced_other. congruence.
  - rewrite (path_walk _ _ _ _ _ _ _ _ _ _ _ (path_replaced _ _ _ _ _ _ _ _ _ _ _ _ e' Hpath)). cbn [walk_from].
    unfold replaced. rewrite lookup_insert_eq. cbn [mbind option_bind].
    rewrite list_lookup_insert_eq by (destruct (to_table _ _ Hok _ _ H1) as [_ (t & ? & Hlen)]; simplify_eq; rewrite Hlen; apply index_lt).
    cbn [mbind option_bind]. rewrite Hp. done.
Qed.

Lemma covered_rights flags e4 e3 e2 target page : covers flags e4 -> covers flags e3 -> covers flags e2 ->
  let t := through e4 (through e3 (through e2 (leaf 1 (entry target flags) page))) in
  tr_writable t = has flags WRITABLE /\ tr_user t = has flags USER_ACCESSIBLE.
Proof.
  intros C4 C3 C2. unfold through, leaf. cbn [tr_writable tr_user entry e_flags]. split.
  - destruct (has flags WRITABLE) eqn:Hw; [|by rewrite !andb_false_r]. rewrite (C4 WRITABLE), (C3 WRITABLE), (C2 WRITABLE); done || (unfold WRITABLE; lia).
  - destruct (has flags USER_ACCESSIBLE) eqn:Hw; [|by rewrite !andb_false_r].
    rewrite (C4 USER_ACCESSIBLE), (C3 USER_ACCESSIBLE), (C2 USER_ACCESSIBLE); done || (unfold USER_ACCESSIBLE; lia).
Qed.

#[global] Instance RefMapper_map : MapLaw.
Proof.
  split. intros mem lvl a root page target flags r mem' a' Hok Hfr Hus H4 Hrange Hpg Hp Hh. cbn [map_to RefMapper]. unfold ref_map_to.
  destruct (ref_tables_ok mem lvl a root page flags Hok Hfr Hus H4 Hp) as (r1 & m1 & a1 & lvl' & -> & Hg & Hw & Hr).
  destruct r1 as [p1|e|]; [| |done].
  2:{ intros [= <- <- <-]. exists lvl'. split; [done|]. split; [intros; by apply Hw|]. destruct e; [|done|]; (split; [by apply Hw|done]). }
  destruct Hr as (t4 & t3 & t2 & t1 & e4 & e3 & e2 & Hpath & <- & C4 & C3 & C2). pose proof (tp_t1 _ _ _ _ _ _ _ _ _ _ _ Hpath) as Ht1.
  pose proof (gr_tables _ _ _ _ _ _ Hg) as Hok1. rewrite Ht1.
  destruct (to_table _ _ Hok1 _ _ (tp_l1 _ _ _ _ _ _ _ _ _ _ _ Hpath)) as [_ (t & Ht & Hlen)]. simplify_eq.
  destruct (lookup_lt_is_Some_2 t1 (index 1 page)) as [e1 He1]; [rewrite Hlen; apply index_lt|]. rewrite He1.
  assert (Hleaf : walk_from m1 1 (e_addr e2) page = if present e1 then Some (leaf 1 e1 page) else None).
  { cbn [walk_from]. rewrite Ht1. cbn [mbind option_bind]. rewrite He1. cbn [mbind option_bind]. by destruct (present e1). }
  pose proof (path_walk _ _ _ _ _ _ _ _ _ _ _ Hpath) as Hpw. rewrite Hleaf in Hpw. pose proof (Hw root page H4) as Hroot.
  destruct (is_unused e1) eqn:Hu; intros [= <- <- <-].
  - apply unused_eq in Hu as ->. change (present UNUSED) with false in Hpw. cbn [fmap option_fmap option_map] in Hpw. rewrite Hpw in Hroot.
    destruct (leaf_set m1 lvl' root page _ _ _ _ _ _ _ (entry target flags) Hok1 Hrange Hpg Hpath Hp) as (Hok2 & Hoth & Hsh & Hnew).
    exists lvl'. split; [|split].
    + eapply grown_trans; [exact Hg|]. apply grown_refl; [done|apply Hg|apply Hg|done].
    + intros root' va Hr' Hva Hne. trans (walk m1 root' va); [|by apply Hw]. apply same_info_eq.
      apply Hoth; [eapply lookup_weaken; [done|apply Hg]|done|]. destruct Hne as [?|Hne]; [by left|right]. intros Hs. apply Hne.
      by apply (gr_shares _ _ _ _ _ _ Hg).
    + split; [unfold same_info in Hroot; by destruct (walk mem root page)|]. eexists. split; [exact Hnew|]. split.
      * unfold info, through, leaf. cbn [tr_start tr_size tr_offset tr_attributes entry e_addr e_flags Nat.eqb]. f_equal. f_equal.
        change (span 1) with 4096. unfold page_at, PAGE_SIZE in Hpg. lia.
      * by apply covered_rights.
  - exists lvl'. split; [done|]. split; [intros; by apply Hw|]. split; [done|].
    destruct (present e1) eqn:Hpe.
    + intros Hn. rewrite Hpw, Hn in Hroot. done.
    + rewrite (to_clean _ _ Hok1 (e_addr e2) 1 (index 1 page) e1) in Hu; [done| |done]. apply (entry_in_intro _ _ _ _ t1); try done. apply Hpath.
Qed.


(** A leaf table found by following links is one a path leads to. *)
Lemma leaf_table_path mem lvl root page p1 : tables_ok mem lvl -> lvl !! root = Some 4%nat ->
  leaf_table mem 4 root page = Some p1 ->
  exists t4 t3 t2 t1 e4 e3 e2, table_path mem lvl root page t4 t3 t2 t1 e4 e3 e2 /\ e_addr e2 = p1.
Proof.
  intros Hok H4. assert (Hstep : forall l f, lvl !! f = Some (S (S l)) -> forall x, leaf_table mem (S (S l)) f page = Some x ->
    exists t e, mem !! f = Some t /\ t !! index (S (S l)) page = Some e /\ leads (S (S l)) e /\ lvl !! e_addr e = Some (S l) /\
      leaf_table mem (S l) (e_addr e) page = Some x).
  { intros l f Hf x. cbn [leaf_table]. destruct (mem !! f) as [t|] eqn:Ht; [|done]. cbn [mbind option_bind].
    destruct (t !! index (S (S l)) page) as [e|] eqn:He; [|done]. cbn [mbind option_bind].
    destruct (present e) eqn:Hp; [|done]. destruct (huge e) eqn:Hh; [done|]. cbn [negb andb]. intros Hx.
    assert (Hl : leads (S (S l)) e) by (unfold leads; split_and!; [lia|done|done]).
    exists t, e. split_and!; try done. by apply (to_child _ _ Hok f (S (S l)) (index (S (S l)) page) e); [split; eauto|]. }
  intros Hx. destruct (Hstep 2%nat root H4 _ Hx) as (t4 & e4 & Ht4 & He4 & Hd4 & H3 & Hx3).
  destruct (Hstep 1%nat _ H3 _ Hx3) as (t3 & e3 & Ht3 & He3 & Hd3 & H2 & Hx2).
  destruct (Hstep 0%nat _ H2 _ Hx2) as (t2 & e2 & Ht2 & He2 & Hd2 & H1 & Hx1). simpl in Hx1. simplify_eq.
  destruct (to_table _ _ Hok _ _ H1) as [_ (t1 & Ht1 & _)]. exists t4, t3, t2, t1, e4, e3, e2. by split; [split|].
Qed.

Lemma no_leaf_table mem lvl root page t : tables_ok mem lvl -> lvl !! root = Some 4%nat -> leaf_table mem 4 root page = None ->
  walk mem root page = Some t -> tr_size t <> 4096.
Proof.
  intros Hok H4 Hx Hw Hs. destruct (walk_table_path _ _ _ _ _ Hok H4 Hw Hs) as (t4 & t3 & t2 & t1 & e4 & e3 & e2 & e1 & Hpath & _).
  destruct Hpath as [_ Ht4 He4 (_ & Hp4 & Hh4) H3 Ht3 He3 (_ & Hp3 & Hh3) H2 Ht2 He2 (_ & Hp2 & Hh2) H1 Ht1].
  cbn [leaf_table] in Hx. rewrite Ht4 in Hx. cbn [mbind option_bind] in Hx. rewrite He4 in Hx. cbn [mbind option_bind] in Hx.
  rewrite Hp4, Hh4, Ht3 in Hx. cbn [negb andb mbind option_bind] in Hx. rewrite He3 in Hx. cbn [mbind option_bind] in Hx.
  rewrite Hp3, Hh3, Ht2 in Hx. cbn [negb andb mbind option_bind] in Hx. rewrite He2 in Hx. cbn [mbind option_bind] in Hx.
  rewrite Hp2, Hh2 in Hx. done.
Qed.

#[global] Instance RefMapper_update : UpdateLaw.
Proof.
  split. intros mem lvl root page flags Hok H4 Hrange Hpg Hp Hh. cbn [update_flags RefMapper]. unfold ref_update.
  destruct (leaf_table mem 4 root page) as [p1|] eqn:Hlt; [|intros t Ht; by eapply no_leaf_table].
  destruct (leaf_table_path _ _ _ _ _ Hok H4 Hlt) as (t4 & t3 & t2 & t1 & e4 & e3 & e2 & Hpath & <-).
  pose proof (tp_t1 _ _ _ _ _ _ _ _ _ _ _ Hpath) as Ht1. rewrite Ht1. pose proof (tp_l1 _ _ _ _ _ _ _ _ _ _ _ Hpath) as H1.
  destruct (to_table _ _ Hok _ _ H1) as [_ (t & Ht & Hlen)]. simplify_eq.
  destruct (lookup_lt_is_Some_2 t1 (index 1 page)) as [e1 He1]; [rewrite Hlen; apply index_lt|]. rewrite He1.
  pose proof (path_walk _ _ _ _ _ _ _ _ _ _ _ Hpath) as Hpw.
  assert (Hleaf : walk_from mem 1 (e_addr e2) page = if present e1 then Some (leaf 1 e1 page) else None).
  { cbn [walk_from]. rewrite Ht1. cbn [mbind option_bind]. rewrite He1. cbn [mbind option_bind]. by destruct (present e1). }
  rewrite Hleaf in Hpw. destruct (is_unused e1) eqn:Hu.
  - apply unused_eq in Hu as ->. change (present UNUSED) with false in Hpw. intros t Hw. rewrite Hpw in Hw. done.
  - assert (Hpe : present e1 = true).
    { destruct (present e1) eqn:Hpe; [done|]. rewrite (to_clean _ _ Hok (e_addr e2) 1 (index 1 page) e1) in Hu; [done| |done].
      by apply (entry_in_intro _ _ _ _ t1). }
    rewrite Hpe in Hpw.
    destruct (leaf_set mem lvl root page _ _ _ _ _ _ _ (entry (e_addr e1) flags) Hok Hrange Hpg Hpath Hp) as (Hok2 & Hoth & Hsh & Hnew).
    split; [done|]. split; [done|]. split; [intros; by apply same_info_eq, Hoth|].
    eexists _, _. split; [exact Hpw|]. split; [done|]. split; [exact Hnew|]. done.
Qed.
