(* ===== verification/PagingRuns.v ===== *)
(** * Page tables: a concrete machine

    A decision procedure for well-formed tables, and runs on small memories that show the hypotheses of the theorems hold together. *)

From stdpp Require Import base list gmap numbers list_numbers.
From Stdlib Require Import Lia.
From S2P Require Import Prelude Frame Paging PagingInv PagingSplit PagingUnmap PagingSpace PagingMap PagingRef.

(** ** Deciding that tables are well-formed *)

Abbreviation located := (Z * nat * nat * PageTableEntry)%type.

Definition entries_of (mem : memory) (p : Z * nat) : list located :=
  match mem !! p.1 with
  | Some t => imap (fun i e => (p.1, p.2, i, e)) t
  | None => []
  end.

Definition all_entries (mem : memory) (lvl : levels) : list located := flat_map (entries_of mem) (map_to_list lvl).

Definition leadsb (x : located) : bool := let '(_, l, _, e) := x in Nat.ltb 1 l && present e && negb (huge e).
Definition target (x : located) : Z := let '(_, _, _, e) := x in e_addr e.
Definition low (x : located) : bool := let '(_, l, _, _) := x in Nat.leb l 3.
Definition top (x : located) : bool := let '(_, l, _, _) := x in Nat.eqb l 4.
Definition slot (x : located) : nat := let '(_, _, i, _) := x in i.

Definition entry_okb (lvl : levels) (x : located) : bool :=
  let '(_, l, _, e) := x in
  if present e then
    if Nat.ltb 1 l then
      if huge e then Nat.leb l 3 && (e_addr e + span l <=? PHYS_LIMIT)
      else bool_decide (lvl !! e_addr e = Some (pred l))
    else true
  else bool_decide (e = UNUSED).

Definition tables_okb (mem : memory) (lvl : levels) : bool :=
  let all := all_entries mem lvl in
  let leading := List.filter leadsb all in
  let tops := List.filter top leading in
  forallb (fun p : Z * nat => Nat.leb 1 p.2 && Nat.leb p.2 4 &&
    match mem !! p.1 with Some t => Nat.eqb (length t) ENTRIES | None => false end) (map_to_list lvl) &&
  forallb (entry_okb lvl) all &&
  bool_decide (NoDup (target <$> List.filter low leading)) &&
  forallb (fun x => forallb (fun y => negb (target x =? target y) || Nat.eqb (slot x) (slot y)) tops) tops.

Lemma all_entries_in mem lvl f l i e : entry_in mem lvl f l i e -> In (f, l, i, e) (all_entries mem lvl).
Proof.
  intros [Hl (t & Ht & He)]. apply in_flat_map. exists (f, l). split.
  - apply list_elem_of_In. by apply elem_of_map_to_list.
  - unfold entries_of. simpl. rewrite Ht. apply list_elem_of_In, elem_of_lookup_imap. exists i, e. done.
Qed.

Lemma NoDup_fmap_inj {A B} (g : A -> B) (l : list A) x y : NoDup (g <$> l) -> x ∈ l -> y ∈ l -> g x = g y -> x = y.
Proof.
  intros Hnd Hx Hy Heq. apply list_elem_of_lookup in Hx as [i Hi]. apply list_elem_of_lookup in Hy as [j Hj].
  assert (i = j) as ->.
  { eapply (NoDup_lookup (g <$> l)); [done|by rewrite list_lookup_fmap, Hi|]. rewrite list_lookup_fmap, Hj. cbn. by rewrite Heq. }
  by simplify_eq.
Qed.

Lemma tables_okb_sound mem lvl : tables_okb mem lvl = true -> tables_ok mem lvl.
Proof.
  unfold tables_okb. intros Hb. repeat rewrite andb_true_iff in Hb. destruct Hb as [[[H1 H2] H3] H4].
  rewrite forallb_forall in H1. rewrite forallb_forall in H2. apply bool_decide_eq_true in H3. rewrite forallb_forall in H4.
  assert (Hent : forall f l i e, entry_in mem lvl f l i e -> entry_okb lvl (f, l, i, e) = true) by (intros; apply H2; by apply all_entries_in).
  assert (Hlead : forall f l i e, entry_in mem lvl f l i e -> leads l e -> In (f, l, i, e) (List.filter leadsb (all_entries mem lvl))).
  { intros f l i e He (Hl & Hp & Hh). apply filter_In. split; [by apply all_entries_in|]. cbn [leadsb]. rewrite Hp, Hh.
    by apply Nat.ltb_lt in Hl as ->. }
  split.
  - intros f l Hf. specialize (H1 (f, l)). rewrite <- list_elem_of_In, elem_of_map_to_list in H1. specialize (H1 Hf).
    cbn [fst snd] in H1. repeat rewrite andb_true_iff in H1. destruct H1 as [[Ha%Nat.leb_le Hb%Nat.leb_le] Hc]. split; [lia|].
    destruct (mem !! f) as [t|]; [|done]. apply Nat.eqb_eq in Hc. eauto.
  - intros f l i e He (Hl & Hp & Hh). specialize (Hent _ _ _ _ He). cbn [entry_okb] in Hent. rewrite Hp, Hh in Hent.
    apply Nat.ltb_lt in Hl. rewrite Hl in Hent. by apply bool_decide_eq_true in Hent.
  - intros f l i e He Hp. specialize (Hent _ _ _ _ He). cbn [entry_okb] in Hent. rewrite Hp in Hent. by apply bool_decide_eq_true in Hent.
  - intros f l i e He Hp Hh Hl. specialize (Hent _ _ _ _ He). cbn [entry_okb] in Hent. rewrite Hp, Hh in Hent. apply Nat.ltb_lt in Hl.
    rewrite Hl in Hent. apply andb_true_iff in Hent as [Ha%Nat.leb_le Hb%Z.leb_le]. done.
  - intros f l i e g k j d He Hd Hl3 Hk3 Hl Hk Heq.
    assert (Heqx : (f, l, i, e) = (g, k, j, d)); [|by simplify_eq].
    apply (NoDup_fmap_inj target (List.filter low (List.filter leadsb (all_entries mem lvl)))); [done| | |done];
      apply list_elem_of_In, filter_In; (split; [by apply Hlead|by apply Nat.leb_le]).
  - intros f i e g j d He Hd Hl Hk Heq. assert (Ht : forall f i e, entry_in mem lvl f 4 i e -> leads 4 e ->
      In (f, 4%nat, i, e) (List.filter top (List.filter leadsb (all_entries mem lvl)))) by (intros; apply filter_In; split; [by apply Hlead|done]).
    specialize (H4 _ (Ht _ _ _ He Hl)). rewrite forallb_forall in H4. specialize (H4 _ (Ht _ _ _ Hd Hk)).
    cbn [target slot] in H4. rewrite Heq, Z.eqb_refl in H4. by apply Nat.eqb_eq in H4.
Qed.

(** ** Deciding the rest *)

Definition tables_usedb (a : BitmapFrameAllocator) (lvl : levels) : bool :=
  forallb (fun p : Z * nat =>
    let n := p.1 / PAGE_SIZE in
    (p.1 =? frame_at n) && (0 <=? n) && (negb (n <? total_frames a) || used_at a n) &&
    (negb (Nat.leb p.2 2) || (n <? total_frames a))) (map_to_list lvl).

Lemma tables_usedb_sound a lvl : tables_usedb a lvl = true -> tables_used a lvl.
Proof.
  unfold tables_usedb. rewrite forallb_forall. intros Hb f l Hf. specialize (Hb (f, l)).
  rewrite <- list_elem_of_In, elem_of_map_to_list in Hb. specialize (Hb Hf). cbn [fst snd] in Hb.
  repeat rewrite andb_true_iff in Hb. destruct Hb as [[[H1%Z.eqb_eq H2%Z.leb_le] H3] H4]. exists (f / PAGE_SIZE).
  split; [done|]. split; [done|]. split.
  - intros Hlt%Z.ltb_lt. by rewrite Hlt in H3.
  - intros Hl%Nat.leb_le. rewrite Hl in H4. by apply Z.ltb_lt.
Qed.

Definition heldb (a : BitmapFrameAllocator) (f : Z) : bool :=
  let n := f / PAGE_SIZE in (f =? frame_at n) && (0 <=? n) && (n <? total_frames a) && used_at a n.

Lemma heldb_sound a f : heldb a f = true -> held a f.
Proof.
  unfold heldb. intros Hb. repeat rewrite andb_true_iff in Hb. destruct Hb as [[[H1%Z.eqb_eq H2%Z.leb_le] H3%Z.ltb_lt] H4].
  exists (f / PAGE_SIZE). split; [done|]. split; [lia|done].
Qed.

Definition privateb (s : Paging) (lvl : levels) (space : Z) : bool :=
  let all := all_entries (tables s) lvl in
  let own := owned (tables s) space in
  forallb (fun x : located => let '(f, l, _, e) := x in
    negb (Nat.eqb l 4 && negb (f =? space) && leadsb x) || negb (bool_decide (e_addr e ∈ own))) all &&
  forallb (fun x : located => let '(f, l, _, e) := x in
    negb (Nat.eqb l 1 && bool_decide (f ∈ own) && child_of e) || bool_decide (lvl !! e_addr e = None)) all &&
  bool_decide (NoDup own) && forallb (heldb (frames s)) own.

Lemma privateb_sound s lvl space : privateb s lvl space = true -> private s lvl space.
Proof.
  unfold privateb. intros Hb. repeat rewrite andb_true_iff in Hb. destruct Hb as [[[H1 H2] H3] H4].
  rewrite forallb_forall in H1. rewrite forallb_forall in H2. rewrite forallb_forall in H4. split.
  - intros root i e Hne He (Hl & Hp & Hh). specialize (H1 _ (all_entries_in _ _ _ _ _ _ He)). cbn [leadsb] in H1.
    rewrite Hp, Hh in H1. apply Z.eqb_neq in Hne. rewrite Hne in H1. cbn in H1. by apply negb_true_iff, bool_decide_eq_false in H1.
  - intros g i e Hg He Hc. specialize (H2 _ (all_entries_in _ _ _ _ _ _ He)). cbv beta iota in H2.
    rewrite Hc, bool_decide_true in H2 by done. cbn in H2. by apply bool_decide_eq_true in H2.
  - by apply bool_decide_eq_true in H3.
  - rewrite list.Forall_forall. intros f Hf. apply heldb_sound, H4. by apply list_elem_of_In.
Qed.

Definition separateb (mem : memory) (lvl : levels) : bool :=
  let roots := fst <$> List.filter (fun p : Z * nat => Nat.eqb p.2 4) (map_to_list lvl) in
  forallb (fun r => forallb (fun r' =>
    (r =? r') || bool_decide (next mem r USER_BASE = None) || negb (bool_decide (next mem r USER_BASE = next mem r' USER_BASE))) roots) roots.

Lemma separateb_sound mem lvl : separateb mem lvl = true -> separate mem lvl.
Proof.
  unfold separateb. rewrite forallb_forall. intros Hb r r' Hr Hr' [->|(c & Hc & Hc')]; [done|].
  assert (Hin : forall x, lvl !! x = Some 4%nat -> In x (fst <$> List.filter (fun p : Z * nat => Nat.eqb p.2 4) (map_to_list lvl))).
  { intros x Hx. apply list_elem_of_In, list_elem_of_fmap. exists (x, 4%nat). split; [done|]. apply list_elem_of_In, filter_In.
    split; [|done]. apply list_elem_of_In. by apply elem_of_map_to_list. }
  specialize (Hb r (Hin _ Hr)). rewrite forallb_forall in Hb. specialize (Hb r' (Hin _ Hr')).
  rewrite Hc, Hc' in Hb. apply orb_true_iff in Hb as [[->%Z.eqb_eq|Hb]%orb_true_iff|Hb]; [done| |].
  - by apply bool_decide_eq_true in Hb.
  - by rewrite bool_decide_true in Hb.
Qed.

(** Where no entry is huge and every link allows everything, pages are plain. *)
Definition plainb (mem : memory) (lvl : levels) : bool :=
  forallb (fun x : located => let '(_, l, _, e) := x in
    negb (Nat.ltb 1 l && present e) || (negb (huge e) && has (e_flags e) WRITABLE && has (e_flags e) USER_ACCESSIBLE)) (all_entries mem lvl).

Lemma plainb_sound mem lvl : tables_ok mem lvl -> plainb mem lvl = true ->
  forall l f va t, lvl !! f = Some l -> walk_from mem l f va = Some t -> plain t.
Proof.
  unfold plainb. rewrite forallb_forall. intros Hok Hb l. induction l as [|l IH]; intros f va t Hf Hw; [done|].
  destruct (walk_inv _ _ _ _ _ Hw) as (tb & e & Ht & He & Hp & Hcase).
  specialize (Hb _ (all_entries_in _ _ _ _ _ _ (entry_in_intro _ _ _ _ _ _ _ Hf Ht He))). cbv beta iota in Hb. rewrite Hp in Hb.
  destruct Hcase as [[-> ->]|[(Hl & Hh & _ & ->)|(Hl & Hh & r & Hr & ->)]].
  - done.
  - destruct l as [|l]; [done|]. rewrite Hh in Hb. done.
  - destruct (IH (e_addr e) va r) as (Hs & H1 & H2); [|done|].
    + apply (to_child _ _ Hok f (S l) (index (S l) va) e); [by apply (entry_in_intro _ _ _ _ tb)|]. unfold leads. split_and!; [lia|done|done].
    + destruct l as [|l]; [done|]. change (Nat.ltb 1 (S (S l)) && true) with true in Hb. cbn [negb orb] in Hb. apply andb_true_iff in Hb as [[_ Hw']%andb_true_iff Hu'].
      unfold plain. cbn [through tr_size tr_writable tr_user tr_attributes]. by rewrite Hw', Hu'.
Qed.

(** ** A machine with two spaces

    Sixteen frames, the first ten in use: the kernel's tables in frames 1 to 4, a
    process's in 5 to 8 and its one page in 9.  The kernel has a page at [0x7000] and a
    1 GiB page at 5 GiB. *)

Module PagingRuns.

Definition booted : BitmapFrameAllocator :=
  {| bitmap := [255; 3]; total_frames := 16; used_frames := 10; next_hint := 0 |}.

Definition rw : Z := Z.lor (bit PRESENT) (bit WRITABLE).
Definition rwu : Z := Z.lor rw (bit USER_ACCESSIBLE).
Definition rwx_huge : Z := Z.lor (Z.lor rw (bit HUGE_PAGE)) (bit NO_CACHE).

Definition row (l : list (nat * PageTableEntry)) : PageTable := foldr (fun p t => <[p.1 := p.2]> t) zero_table l.

Definition boot_tables : memory := list_to_map [
  (frame_at 1, row [(0%nat, entry (frame_at 2) rw)]);
  (frame_at 2, row [(0%nat, entry (frame_at 3) rw); (5%nat, entry 0x4000_0000 rwx_huge)]);
  (frame_at 3, row [(0%nat, entry (frame_at 4) rw)]);
  (frame_at 4, row [(7%nat, entry 0x10_0000 rw)]);
  (frame_at 5, row [(0%nat, entry (frame_at 2) rw); (64%nat, entry (frame_at 6) rwu)]);
  (frame_at 6, row [(0%nat, entry (frame_at 7) rwu)]);
  (frame_at 7, row [(0%nat, entry (frame_at 8) rwu)]);
  (frame_at 8, row [(0%nat, entry (frame_at 9) rwu)])].

Definition boot_levels : levels := list_to_map [
  (frame_at 1, 4); (frame_at 2, 3); (frame_at 3, 2); (frame_at 4, 1);
  (frame_at 5, 4); (frame_at 6, 3); (frame_at 7, 2); (frame_at 8, 1)]%nat.

Definition machine : Paging :=
  {| tables := boot_tables; frames := booted; cr3 := frame_at 1; KERNEL_SPACE := Some (frame_at 1);
     PHYSICAL_OFFSET := Some 0x18_0000_0000; effects := [] |}.

Lemma machine_ok : paging_ok machine boot_levels.
Proof.
  split.
  - apply tables_okb_sound. vm_compute. reflexivity.
  - split; [split; vm_compute; discriminate|vm_compute; reflexivity|vm_compute; discriminate].
  - apply tables_usedb_sound. vm_compute. reflexivity.
  - vm_compute. reflexivity.
  - eexists. reflexivity.
Qed.

Lemma machine_private : private machine boot_levels (frame_at 5).
Proof. apply privateb_sound. vm_compute. reflexivity. Qed.

Definition in_huge : Z := 5 * 2 ^ 30 + 0x12345.

(** Two splits, the address where it was, uncached as it was, now on a 4 KiB page. *)
Lemma split_transparent_witness :
  exists s' t, split_huge_page in_huge machine = (Ok tt, s') /\
    walk (tables s') (cr3 s') in_huge = Some t /\ tr_size t = 4096 /\
    physical t = 0x4001_2345 /\ has (tr_attributes t) NO_CACHE = true.
Proof.
  pose proof (split_transparent machine boot_levels in_huge machine_ok) as H.
  assert (Hx : exists s', split_huge_page in_huge machine = (Ok tt, s')) by (eexists; vm_compute; reflexivity).
  destruct Hx as [s' Hx]. rewrite Hx in H. destruct H as [(lvl' & _ & _ & Hc & Hv) (t & Ht & Hs)].
  exists s', t. split; [exact Hx|]. split; [exact Ht|]. split; [exact Hs|].
  assert (Hroot : boot_levels !! cr3 machine = Some 4%nat) by (vm_compute; reflexivity).
  specialize (Hv (cr3 machine) in_huge Hroot). rewrite Hc in Ht. rewrite Ht in Hv. unfold same_view in Hv.
  assert (Hold : observe <$> walk (tables machine) (cr3 machine) in_huge = Some (0x4001_2345, Z.clearbit rwx_huge HUGE_PAGE, true, false, false))
    by (vm_compute; reflexivity).
  rewrite Hold in Hv. unfold observe in Hv. cbn [fmap option_fmap option_map] in Hv. injection Hv as Hp Ha _ _ _.
  split; [exact Hp|]. rewrite Ha. reflexivity.
Defined.


Lemma new_user_sound_witness :
  exists s', new_user (E:=MapError) machine = (Ok (Some (frame_at 10)), s') /\
    walk (tables s') (frame_at 10) 0x7000 = walk (tables machine) (frame_at 1) 0x7000 /\
    walk (tables s') (frame_at 10) USER_BASE = None.
Proof.
  pose proof (new_user_sound MapError machine boot_levels machine_ok) as H.
  assert (Hx : exists s', new_user (E:=MapError) machine = (Ok (Some (frame_at 10)), s')) by (eexists; vm_compute; reflexivity).
  destruct Hx as [s' Hx]. rewrite Hx in H. destruct H as (_ & _ & Hw & _).
  exists s'. split; [exact Hx|]. rewrite !Hw. split; reflexivity.
Defined.

Lemma release_sound_witness :
  exists s', release (E:=MapError) (frame_at 5) machine = (Ok tt, s') /\
    used_at (frames s') 9 = false /\ used_at (frames s') 5 = false /\ used_at (frames s') 2 = true.
Proof.
  destruct (release_sound MapError machine boot_levels (frame_at 5) machine_ok ltac:(vm_compute; reflexivity)
    ltac:(vm_compute; discriminate) machine_private) as (s' & Hx & Hg & _).
  exists s'. split; [exact Hx|]. rewrite !Hg by lia. vm_compute. repeat split.
Defined.

(** The same machine without the huge page, every link allowing everything. *)
Definition small_tables : memory := list_to_map [
  (frame_at 1, row [(0%nat, entry (frame_at 2) rwu)]);
  (frame_at 2, row [(0%nat, entry (frame_at 3) rwu)]);
  (frame_at 3, row [(0%nat, entry (frame_at 4) rwu)]);
  (frame_at 4, row [(7%nat, entry 0x10_0000 rw)]);
  (frame_at 5, row [(0%nat, entry (frame_at 2) rwu); (64%nat, entry (frame_at 6) rwu)]);
  (frame_at 6, row [(0%nat, entry (frame_at 7) rwu)]);
  (frame_at 7, row [(0%nat, entry (frame_at 8) rwu)]);
  (frame_at 8, row [(0%nat, entry (frame_at 9) rwu)])].
Definition small_machine : Paging := set_tables machine small_tables.

Lemma small_machine_ok : spaces_ok small_machine boot_levels.
Proof.
  assert (Hok : tables_ok small_tables boot_levels) by (apply tables_okb_sound; vm_compute; reflexivity).
  split.
  - destruct machine_ok as [_ Hfr Hus Hroot Hwin]. split; done.
  - apply separateb_sound. vm_compute. reflexivity.
  - intros root page t Hr _. apply (plainb_sound _ _ Hok); [vm_compute; reflexivity|done].
Qed.

Lemma user_page_intro page : (USER_BASE <=? page) && (page <? USER_REGION_END) && (page_at page =? page) = true -> user_page page.
Proof. intros [[H1%Z.leb_le H2%Z.ltb_lt]%andb_true_iff H3%Z.eqb_eq]%andb_true_iff. done. Qed.

Lemma map_in_sound_witness :
  exists s', map_in (frame_at 5) (USER_BASE + 0x1000) rwu small_machine = (Ok (frame_at 10), s') /\
    page_of s' (frame_at 5) (USER_BASE + 0x1000) = Some (frame_at 10, rwu) /\
    page_of s' (frame_at 5) USER_BASE = page_of small_machine (frame_at 5) USER_BASE.
Proof.
  assert (H5 : boot_levels !! frame_at 5 = Some 4%nat) by (vm_compute; reflexivity).
  assert (Hpg : user_page (USER_BASE + 0x1000)) by (apply user_page_intro; vm_compute; reflexivity).
  assert (Hpg0 : user_page USER_BASE) by (apply user_page_intro; vm_compute; reflexivity).
  pose proof (map_in_sound small_machine boot_levels (frame_at 5) (USER_BASE + 0x1000) rwu small_machine_ok H5 Hpg
    ltac:(reflexivity) ltac:(reflexivity)) as H.
  assert (Hx : exists s', map_in (frame_at 5) (USER_BASE + 0x1000) rwu small_machine = (Ok (frame_at 10), s'))
    by (eexists; vm_compute; reflexivity).
  destruct Hx as [s' Hx]. rewrite Hx in H. destruct H as (n & lvl' & _ & _ & _ & _ & _ & _ & _ & _ & [_ _ _ Hp _]).
  exists s'. split; [exact Hx|]. rewrite !Hp by assumption. unfold at_page. rewrite decide_True by done. split; [done|].
  rewrite decide_False; [done|]. by intros [_ Heq].
Defined.

(** The same machine while the process's tables are loaded. *)
Definition in_process : Paging := set_cr3 machine (frame_at 5).

(** Unmapping a kernel page while a process's tables are loaded takes it from the
    kernel's space too, since the tables are shared, and gives both emptied tables back
    to the allocator, but no other processor is told to forget them. *)
Theorem process_unmap_untold :
  exists s', unmap 0x7000 in_process = (Ok 0x10_0000, s') /\
    walk (tables in_process) (frame_at 1) 0x7000 <> None /\ walk (tables s') (frame_at 1) 0x7000 = None /\
    effects s' = [FlushLocal 0x7000; FlushAllLocal; Freed (frame_at 3); Freed (frame_at 4)].
Proof. eexists. vm_compute. split; [reflexivity|]. split; [discriminate|]. split; reflexivity. Qed.

End PagingRuns.
