(* ===== verification/Userspace.v ===== *)
(** * User address regions (kernel/src/userspace.rs)

    The slots threads take their region from, the check of a pointer that came from
    Ring 3, and giving back what a process had. *)

From stdpp Require Import base list gmap numbers list_numbers.
From Stdlib Require Import Lia.
From S2P Require Import Prelude Frame Paging PagingInv PagingSplit PagingUnmap PagingSpace PagingMap PagingRef PagingRuns.

Definition SLOT_SIZE : Z := 0x400_0000.
Definition MAX_SLOTS : Z := 16.
Definition CODE_OFFSET : Z := 0.
Definition DATA_OFFSET : Z := 0x1000.
Definition STACK_BOTTOM_OFFSET : Z := 0x1_0000.
Definition STACK_PAGES : nat := 16.
Definition BUFFER_AREA_OFFSET : Z := 0x10_0000.

(** ** Slots *)

Abbreviation Slots := (list (option nat)).
Definition SLOTS : Slots := replicate 16 None.

(** [iter().position(|slot| *slot == Some(owner))] *)
Fixpoint position (f : option nat -> bool) (slots : Slots) (i : Z) : option Z :=
  match slots with
  | [] => None
  | x :: rest => if f x then Some i else position f rest (i + 1)
  end.

Definition held_by (owner : nat) (x : option nat) : bool := bool_decide (x = Some owner).
Definition is_none (x : option nat) : bool := bool_decide (x = None).

Definition slot_of (owner : nat) (slots : Slots) : option Z := position (held_by owner) slots 0.

Definition claim_slot (owner : nat) (slots : Slots) : option Z * Slots :=
  match position (held_by owner) slots 0 with
  | Some index => (Some index, slots)
  | None =>
      match position is_none slots 0 with
      | None => (None, slots)
      | Some index => (Some index, <[Z.to_nat index := Some owner]> slots)
      end
  end.

Definition ensure_slot (owner : nat) (slots : Slots) : option Z * Slots := claim_slot owner slots.

Definition slots_in_use (slots : Slots) : nat := length (List.filter (fun x => negb (is_none x)) slots).

(** [slots.get_mut(slot)], then [None] *)
Definition free_slot (slot : Z) (slots : Slots) : Slots := <[Z.to_nat slot := None]> slots.

Definition slot_base (slot : Z) : Z := USER_BASE + slot * SLOT_SIZE.
Definition slot_base_of (slot : Z) : Z := slot_base slot.

(** ** Checking a pointer from Ring 3 *)

Section Validate.
Context `{Mapper} {E : Type}.

(** The loop: [n] pages from [address]. *)
Fixpoint check_pages (n : nat) (address : Z) (need_write : bool) : M Paging E bool :=
  match n with
  | O => mret true
  | S n' =>
      found ← flags address;
      match found with
      | None => mret false
      | Some f =>
          if negb (has f PRESENT && has f USER_ACCESSIBLE) then mret false
          else if need_write && negb (has f WRITABLE) then mret false
          else check_pages n' (address + PAGE_SIZE) need_write
      end
  end.

Definition validate_user_buffer (pointer length : Z) (need_write : bool) : M Paging E bool :=
  if length =? 0 then mret true
  else match checked_add U64_MAX pointer length with
       | None => mret false
       | Some end_ =>
           if (pointer <? USER_BASE) || (USER_REGION_END <? end_) then mret false
           else
             let address := page_at pointer in
             check_pages (Z.to_nat (div_ceil (end_ - address) PAGE_SIZE)) address need_write
       end.
End Validate.

(** What Ring 3 may do to a byte of the space that is loaded. *)
Definition may_touch (s : Paging) (need_write : bool) (va : Z) : Prop :=
  USER_BASE <= va < USER_REGION_END /\
  exists t, walk (tables s) (cr3 s) va = Some t /\ tr_user t = true /\ (need_write = true -> tr_writable t = true).

Section ValidateSound.
Context `{TranslateLaw} {E : Type}.

(** Flags of a page that is mapped say it is present. *)
Lemma page_present s space page f fl : page_of s space page = Some (f, fl) -> has fl PRESENT = true.
Proof.
  unfold page_of. destruct (walk (tables s) space page) as [t|] eqn:Hw; [|done]. cbn. intros [= <- <-]. by eapply walk_present.
Qed.

(** One page of the loop is one page of bytes. *)
Lemma may_touch_page s lvl need_write va : spaces_ok s lvl -> user_page (page_at va) -> USER_BASE <= va < USER_REGION_END ->
  may_touch s need_write va <->
  exists f fl, page_of s (cr3 s) (page_at va) = Some (f, fl) /\ has fl USER_ACCESSIBLE = true /\
    (need_write = true -> has fl WRITABLE = true).
Proof.
  intros Hs Hpg Hva. pose proof (walk_user s lvl (cr3 s) va Hs (po_root _ _ (so_paging _ _ Hs)) Hpg) as Hw. unfold may_touch.
  destruct (page_of s (cr3 s) (page_at va)) as [[f fl]|].
  - destruct Hw as (t & Ht & _ & _ & Hwr & Hus). split.
    + intros (_ & t' & Ht' & Hu' & Hw'). rewrite Ht in Ht'. injection Ht' as <-. exists f, fl. rewrite <- Hwr, <- Hus. done.
    + intros (f' & fl' & Heq & Hu' & Hw'). injection Heq as <- <-. split; [done|]. exists t. by rewrite Hwr, Hus.
  - split; [intros (_ & t' & Ht' & _); congruence|]. by intros (? & ? & ? & _).
Qed.

Lemma check_pages_sound s lvl need_write n : forall address, spaces_ok s lvl ->
  (forall i, 0 <= i < Z.of_nat n -> user_page (address + i * PAGE_SIZE)) ->
  exists b, check_pages (E:=E) n address need_write s = (Ok b, s) /\
    (b = true <-> forall i, 0 <= i < Z.of_nat n -> exists f fl, page_of s (cr3 s) (address + i * PAGE_SIZE) = Some (f, fl) /\
       has fl USER_ACCESSIBLE = true /\ (need_write = true -> has fl WRITABLE = true)).
Proof.
  induction n as [|n IH]; intros address Hs Hpg; cbn [check_pages].
  { exists true. split; [done|]. split; [lia|done]. }
  pose proof (Hpg 0 ltac:(lia)) as Hpg0. rewrite Z.mul_0_l, Z.add_0_r in Hpg0.
  cbv beta iota delta [mbind M_bind]. unfold flags. cbv beta iota delta [mbind M_bind get].
  rewrite (flags_in_page s lvl (cr3 s) address Hs (po_root _ _ (so_paging _ _ Hs)) Hpg0).
  assert (Hno : forall P : Z -> Prop, ~ P address -> false = true <-> (forall i, 0 <= i < Z.of_nat (S n) -> P (address + i * PAGE_SIZE))).
  { intros P HP. split; [done|]. intros Hall. exfalso. apply HP. specialize (Hall 0 ltac:(lia)). by rewrite Z.mul_0_l, Z.add_0_r in Hall. }
  destruct (page_of s (cr3 s) address) as [[f fl]|] eqn:Hp; cbn [fmap option_fmap option_map snd].
  2:{ exists false. split; [done|]. apply (Hno (fun a => exists f fl, page_of s (cr3 s) a = Some (f, fl) /\ _)). rewrite Hp. by intros (? & ? & ? & _). }
  rewrite (page_present _ _ _ _ _ Hp). cbn [andb]. destruct (has fl USER_ACCESSIBLE) eqn:Hu; cbn [negb].
  2:{ exists false. split; [done|]. apply (Hno (fun a => exists f fl, page_of s (cr3 s) a = Some (f, fl) /\ _)). rewrite Hp.
      intros (f' & fl' & [= <- <-] & Hx & _). congruence. }
  destruct (need_write && negb (has fl WRITABLE)) eqn:Hwr.
  { exists false. split; [done|]. apply (Hno (fun a => exists f fl, page_of s (cr3 s) a = Some (f, fl) /\ _)). rewrite Hp.
    apply andb_true_iff in Hwr as [Hw1 Hw2%negb_true_iff]. intros (f' & fl' & [= <- <-] & _ & Hx). rewrite Hx in Hw2; done. }
  destruct (IH (address + PAGE_SIZE) Hs) as (b & -> & Hb).
  { intros i Hi. replace (address + PAGE_SIZE + i * PAGE_SIZE) with (address + (i + 1) * PAGE_SIZE) by lia. apply Hpg. lia. }
  exists b. split; [done|]. rewrite Hb. split.
  - intros Hall i Hi. destruct (decide (i = 0)) as [->|Hne].
    + rewrite Z.mul_0_l, Z.add_0_r. exists f, fl. split; [done|]. split; [done|]. intros ->. cbn in Hwr. by apply negb_false_iff in Hwr.
    + specialize (Hall (i - 1) ltac:(lia)). by replace (address + PAGE_SIZE + (i - 1) * PAGE_SIZE) with (address + i * PAGE_SIZE) in Hall by lia.
  - intros Hall i Hi. replace (address + PAGE_SIZE + i * PAGE_SIZE) with (address + (i + 1) * PAGE_SIZE) by lia. apply Hall. lia.
Qed.

Lemma user_page_at va : USER_BASE <= va < USER_REGION_END -> user_page (page_at va).
Proof.
  intros Hva. split; [|apply page_at_idem]. unfold page_at, PAGE_SIZE. change USER_BASE with (8589934592 * 4096) in *.
  pose proof (Z.mod_pos_bound va 4096 ltac:(lia)). split; [|lia]. pose proof (Z.div_mod va 4096 ltac:(lia)).
  assert (8589934592 <= va / 4096) by (apply Z.div_le_lower_bound; lia). lia.
Qed.

(** C20: A buffer from Ring 3 passes exactly when every byte of it lies in the user region
    and Ring 3 itself could read it, or write it when that is needed, in the space that
    is loaded; the check reads the tables and changes nothing, for any two 64-bit
    numbers. *)
Theorem validate_exact s lvl pointer length need_write :
  spaces_ok s lvl -> 0 <= pointer <= U64_MAX -> 0 <= length <= U64_MAX ->
  exists b, validate_user_buffer (E:=E) pointer length need_write s = (Ok b, s) /\
    (b = true <-> forall va, pointer <= va < pointer + length -> va <= U64_MAX /\ may_touch s need_write va).
Proof.
  intros Hs Hp Hl. unfold validate_user_buffer, checked_add. destruct (length =? 0) eqn:Hz.
  { apply Z.eqb_eq in Hz. exists true. split; [done|]. split; [lia|done]. }
  apply Z.eqb_neq in Hz. destruct (pointer + length <=? U64_MAX) eqn:Hov.
  2:{ apply Z.leb_gt in Hov. exists false. split; [done|]. split; [done|]. intros Hall. exfalso.
      destruct (Hall (pointer + length - 1) ltac:(lia)) as (_ & Hr & _). change USER_REGION_END with 35185445830656 in Hr. unfold U64_MAX in Hov. lia. }
  apply Z.leb_le in Hov. destruct ((pointer <? USER_BASE) || (USER_REGION_END <? pointer + length)) eqn:Hreg.
  { exists false. split; [done|]. split; [done|]. intros Hall. exfalso. apply orb_true_iff in Hreg as [Hr%Z.ltb_lt|Hr%Z.ltb_lt].
    - destruct (Hall pointer ltac:(lia)) as (_ & Hx & _). lia.
    - destruct (Hall (pointer + length - 1) ltac:(lia)) as (_ & Hx & _). lia. }
  apply orb_false_iff in Hreg as [H1%Z.ltb_ge H2%Z.ltb_ge].
  pose proof (user_page_at pointer ltac:(lia)) as [Hfirst _].
  assert (Hpa : page_at pointer <= pointer < page_at pointer + 4096 /\ exists q, page_at pointer = q * 4096).
  { unfold page_at, PAGE_SIZE. pose proof (Z.mod_pos_bound pointer 4096 ltac:(lia)). split; [lia|]. exists (pointer / 4096).
    pose proof (Z.div_mod pointer 4096 ltac:(lia)). lia. }
  destruct Hpa as [Hpa [q Hq]]. set (n := div_ceil (pointer + length - page_at pointer) PAGE_SIZE).
  assert (Hn : forall i, i < n <-> i * 4096 < pointer + length - page_at pointer).
  { intros i. pose proof (div_ceil_le (pointer + length - page_at pointer) PAGE_SIZE i ltac:(done)) as Hd. unfold PAGE_SIZE in *. fold n in Hd. lia. }
  assert (Hin : forall i, 0 <= i < Z.of_nat (Z.to_nat n) -> USER_BASE <= page_at pointer + i * PAGE_SIZE < USER_REGION_END).
  { intros i Hi. assert (i < n) as Hi'%Hn by lia. unfold PAGE_SIZE. lia. }
  assert (Hself : forall i, page_at (page_at pointer + i * PAGE_SIZE) = page_at pointer + i * PAGE_SIZE).
  { intros i. unfold page_at at 1. rewrite Hq. unfold PAGE_SIZE. replace (q * 4096 + i * 4096) with ((q + i) * 4096) by lia. rewrite Z.mod_mul by lia. lia. }
  destruct (check_pages_sound s lvl need_write (Z.to_nat n) (page_at pointer) Hs) as (b & -> & Hb); [intros i Hi; by split; [apply Hin|apply Hself]|].
  exists b. split; [done|]. rewrite Hb. split.
  - intros Hall va Hva. split; [lia|]. assert (Hur : USER_BASE <= va < USER_REGION_END) by lia.
    apply (may_touch_page s lvl); [done|by apply user_page_at|done|].
    set (i := (va - page_at pointer) / 4096). assert (Hi : 0 <= i /\ i * 4096 <= va - page_at pointer < i * 4096 + 4096).
    { unfold i. pose proof (Z.div_mod (va - page_at pointer) 4096 ltac:(lia)). pose proof (Z.mod_pos_bound (va - page_at pointer) 4096 ltac:(lia)).
      pose proof (Z.div_pos (va - page_at pointer) 4096). lia. }
    assert (Hin' : i < n) by (apply Hn; lia).
    assert (Hpv : page_at va = page_at pointer + i * PAGE_SIZE).
    { unfold page_at at 1. unfold PAGE_SIZE. assert (va mod 4096 = va - (q + i) * 4096); [|lia]. symmetry. apply (Z.mod_unique_pos _ _ (q + i)); lia. }
    rewrite Hpv. apply Hall. lia.
  - intros Hall i Hi. assert (i < n) as Hi'%Hn by lia.
    set (va := Z.max pointer (page_at pointer + i * PAGE_SIZE)).
    assert (Hva : pointer <= va < pointer + length) by (unfold va, PAGE_SIZE; lia).
    destruct (Hall va Hva) as [_ Ht]. apply (may_touch_page s lvl) in Ht; [|done|apply user_page_at; lia|lia].
    assert (Hpv : page_at va = page_at pointer + i * PAGE_SIZE); [|by rewrite Hpv in Ht].
    unfold va. destruct (decide (i = 0)) as [->|]; [rewrite Z.max_l by lia; lia|]. rewrite Z.max_r by (unfold PAGE_SIZE; lia). apply Hself.
Qed.

End ValidateSound.

Module UserspaceRuns.
Import PagingRuns.

(** The process's own tables are loaded. *)
Definition process : Paging := set_cr3 small_machine (frame_at 5).

Lemma process_ok : spaces_ok process boot_levels.
Proof.
  destruct small_machine_ok as [[Hok Hfr Hus _ Hwin] Hsep Hplain]. split; [split; try done; vm_compute; reflexivity|done|done].
Qed.

(** The one page the process has passes for its last byte and not for two. *)
Lemma validate_exact_witness :
  may_touch process true (USER_BASE + 0xFFF) /\ ~ may_touch process true (USER_BASE + 0x1000).
Proof.
  assert (Hb : 0 <= USER_BASE + 0xFFF <= U64_MAX) by (vm_compute; split; discriminate).
  destruct (validate_exact (E:=MapError) process boot_levels (USER_BASE + 0xFFF) 1 true process_ok Hb ltac:(vm_compute; split; discriminate))
    as (b & Hr & Hiff).
  assert (Hv : validate_user_buffer (E:=MapError) (USER_BASE + 0xFFF) 1 true process = (Ok true, process)) by (vm_compute; reflexivity).
  assert (b = true) as -> by congruence. split; [apply Hiff; [done|lia]|]. intros (_ & t & Ht & _).
  vm_compute in Ht. discriminate.
Defined.
End UserspaceRuns.
