(* ===== verification/Elf.v ===== *)
(** * The program loader (kernel/src/elf.rs)

    Reads an ELF64 image, maps every [PT_LOAD] segment, copies it in and then narrows
    the pages to the permissions asked for. *)

From stdpp Require Import base list gmap numbers list_numbers.
From Stdlib Require Import Lia.
From S2P Require Import Prelude Frame Paging.

Definition ELF_MAGIC : list Z := [0x7F; 0x45; 0x4C; 0x46].
Definition CLASS_64 : Z := 2.
Definition DATA_LITTLE_ENDIAN : Z := 1.
Definition MACHINE_X86_64 : Z := 0x3E.
Definition PT_LOAD : Z := 1.
Definition PF_X : Z := 1.
Definition PF_W : Z := 2.

Inductive ElfError : Type := NotSupported | Malformed | OutOfBounds | Mapping.
#[global] Instance ElfError_eq_dec : EqDecision ElfError.
Proof. solve_decision. Defined.

Record LoadedImage : Type := { li_entry : Z; li_end : Z }.

(** ** Reading the image *)

(** [a + b] on [usize] *)
Definition usize_add (a b : Z) : result ElfError Z := if a + b <=? U64_MAX then Ok (a + b) else Panic.

(** [image.get(offset..offset + n)] *)
Definition get_range (image : list Z) (offset n : Z) : result ElfError (list Z) :=
  end_ ← usize_add offset n;
  if end_ <=? Z.of_nat (length image) then Ok (slice image (Z.to_nat offset) (Z.to_nat n)) else Err Malformed.

Definition read_u16 (image : list Z) (offset : Z) : result ElfError Z :=
  bytes ← get_range image offset 2; mret (from_le_bytes bytes).
Definition read_u32 (image : list Z) (offset : Z) : result ElfError Z :=
  bytes ← get_range image offset 4; mret (from_le_bytes bytes).
Definition read_u64 (image : list Z) (offset : Z) : result ElfError Z :=
  bytes ← get_range image offset 8; mret (from_le_bytes bytes).

(** A field of a header: [read(image, header + k)] *)
Definition field (read : list Z -> Z -> result ElfError Z) (image : list Z) (header k : Z) : result ElfError Z :=
  offset ← usize_add header k; read image offset.

(** ** Memory the loader writes *)

(** The tables, and the bytes of frames that hold no table, by physical address. *)
Record Loader : Type := { ld_paging : Paging; ld_bytes : gmap Z Z }.

Abbreviation L A := (M Loader ElfError A).

Definition on_paging {E A} (f : E -> ElfError) (m : M Paging E A) : L A := fun st =>
  match m (ld_paging st) with
  | (Ok a, s) => (Ok a, {| ld_paging := s; ld_bytes := ld_bytes st |})
  | (Err e, s) => (Err (f e), {| ld_paging := s; ld_bytes := ld_bytes st |})
  | (Panic, s) => (Panic, {| ld_paging := s; ld_bytes := ld_bytes st |})
  end.

(** [let _ = ...] *)
Definition ignored {E A} (m : M Paging E A) : L unit := fun st =>
  match m (ld_paging st) with
  | (Panic, s) => (Panic, {| ld_paging := s; ld_bytes := ld_bytes st |})
  | (_, s) => (Ok tt, {| ld_paging := s; ld_bytes := ld_bytes st |})
  end.

(** A byte written through the tables that are loaded.  A page that is absent or not
    writable faults. *)
Definition write_byte (va b : Z) : L unit := fun st =>
  match walk (tables (ld_paging st)) (cr3 (ld_paging st)) va with
  | Some t =>
      if tr_writable t then (Ok tt, {| ld_paging := ld_paging st; ld_bytes := <[physical t := b]> (ld_bytes st) |})
      else (Panic, st)
  | None => (Panic, st)
  end.

(** [copy_nonoverlapping] and [write_bytes] *)
Fixpoint write_bytes (va : Z) (bs : list Z) : L unit :=
  match bs with
  | [] => mret tt
  | b :: rest => write_byte va b ;; write_bytes (va + 1) rest
  end.

Definition read_byte (st : Loader) (va : Z) : option Z :=
  t ← walk (tables (ld_paging st)) (cr3 (ld_paging st)) va;
  Some (default 0 (ld_bytes st !! physical t)).

(** ** Loading *)

Section Load.
Context `{Mapper}.

Definition staging : Z := Z.lor (Z.lor (bit PRESENT) (bit WRITABLE)) (bit USER_ACCESSIBLE).

(** [while address < last], a page at a time *)
Fixpoint map_pages (n : nat) (space address : Z) : L unit :=
  match n with
  | O => mret tt
  | S n' =>
      found ← on_paging (fun e : ElfError => e) (flags_in space address);
      (match found with
       | None => _ ← on_paging (fun _ => Mapping) (map_in space (page_at address) staging); mret tt
       | Some _ => mret tt
       end) ;;
      map_pages n' space (address + PAGE_SIZE)
  end.

Definition page_count (first last : Z) : nat := Z.to_nat (div_ceil (last - first) PAGE_SIZE).

(** [(a + PAGE_SIZE - 1) & !(PAGE_SIZE - 1)] *)
Definition page_up (a : Z) : Z := page_at (a + PAGE_SIZE - 1).

(** The body of the first loop: map and fill one segment.  The new highest address. *)
Definition load_segment (space : Z) (image : list Z) (region_start region_end header highest : Z) : L Z :=
  kind ← lift (read_u32 image header);
  if negb (kind =? PT_LOAD) then mret highest else
  file_offset ← lift (field read_u64 image header 8);
  virtual_address ← lift (field read_u64 image header 16);
  file_size ← lift (field read_u64 image header 32);
  memory_size ← lift (field read_u64 image header 40);
  if memory_size =? 0 then mret highest else
  guard_err (memory_size <? file_size) Malformed ;;
  segment_end ← lift (ok_or Malformed (checked_add U64_MAX virtual_address memory_size));
  guard_err ((virtual_address <? region_start) || (region_end <? segment_end)) OutOfBounds ;;
  source ← lift (get_range image file_offset file_size);
  let first := page_at virtual_address in
  _ ← lift (usize_add segment_end PAGE_SIZE);
  let last := page_up segment_end in
  map_pages (page_count first last) space first ;;
  write_bytes virtual_address source ;;
  write_bytes (virtual_address + file_size) (replicate (Z.to_nat (memory_size - file_size)) 0) ;;
  mret (Z.max highest last).

Definition header_at (program_header_offset program_header_size index : Z) : option Z :=
  checked_add U64_MAX program_header_offset (index * program_header_size).

(** [for index in index..index + n] *)
Fixpoint load_segments (n : nat) (index : Z) (space : Z) (image : list Z) (region_start region_end : Z)
    (offset size : Z) (highest : Z) : L Z :=
  match n with
  | O => mret highest
  | S n' =>
      header ← lift (ok_or Malformed (header_at offset size index));
      highest ← load_segment space image region_start region_end header highest;
      load_segments n' (index + 1) space image region_start region_end offset size highest
  end.

Definition final_flags (p_flags : Z) : Z :=
  let f := Z.lor (bit PRESENT) (bit USER_ACCESSIBLE) in
  let f := if negb (Z.land p_flags PF_W =? 0) then Z.lor f (bit WRITABLE) else f in
  if Z.land p_flags PF_X =? 0 then Z.lor f (bit NO_EXECUTE) else f.

Fixpoint protect_pages (n : nat) (space address new : Z) : L unit :=
  match n with
  | O => mret tt
  | S n' => ignored (set_flags_in space (page_at address) new) ;; protect_pages n' space (address + PAGE_SIZE) new
  end.

(** The body of the second loop. *)
Definition protect_segment (space : Z) (image : list Z) (header : Z) : L unit :=
  kind ← lift (read_u32 image header);
  if negb (kind =? PT_LOAD) then mret tt else
  p_flags ← lift (field read_u32 image header 4);
  virtual_address ← lift (field read_u64 image header 16);
  memory_size ← lift (field read_u64 image header 40);
  if memory_size =? 0 then mret tt else
  segment_end ← lift (usize_add virtual_address memory_size);
  _ ← lift (usize_add segment_end PAGE_SIZE);
  let first := page_at virtual_address in
  let last := page_up segment_end in
  protect_pages (page_count first last) space first (final_flags p_flags).

Fixpoint protect_segments (n : nat) (index : Z) (space : Z) (image : list Z) (offset size : Z) : L unit :=
  match n with
  | O => mret tt
  | S n' =>
      header ← lift (usize_add offset (index * size));
      protect_segment space image header ;;
      protect_segments n' (index + 1) space image offset size
  end.

Definition load (space : Z) (image : list Z) (region_start region_end : Z) : L LoadedImage :=
  guard_err (negb (bool_decide (take 4 image = ELF_MAGIC))) NotSupported ;;
  guard_err (negb (bool_decide (image !! 4%nat = Some CLASS_64)) ||
             negb (bool_decide (image !! 5%nat = Some DATA_LITTLE_ENDIAN))) NotSupported ;;
  machine ← lift (read_u16 image 18);
  guard_err (negb (machine =? MACHINE_X86_64)) NotSupported ;;
  entry ← lift (read_u64 image 24);
  program_header_offset ← lift (read_u64 image 32);
  program_header_size ← lift (read_u16 image 54);
  program_header_count ← lift (read_u16 image 56);
  guard_err (program_header_size <? 56) Malformed ;;
  highest ← load_segments (Z.to_nat program_header_count) 0 space image region_start region_end
              program_header_offset program_header_size region_start;
  protect_segments (Z.to_nat program_header_count) 0 space image program_header_offset program_header_size ;;
  guard_err ((entry <? region_start) || (highest <=? entry)) OutOfBounds ;;
  mret {| li_entry := entry; li_end := highest |}.

End Load.
