(* ===== verification/ElfSpec.v ===== *)
(** * What loading a program means

    An image is a list of segments; what the processor sees afterwards is a fold over
    them.  The second half relates the loader's state to such a view. *)

From stdpp Require Import base list gmap numbers list_numbers.
From Stdlib Require Import Lia ZifyBool.
From S2P Require Import Prelude Frame Paging PagingInv PagingSplit PagingUnmap PagingSpace PagingMap Userspace Elf.

(** ** Segments *)

Record Segment : Type := { sg_flags : Z; sg_va : Z; sg_size : Z; sg_source : list Z }.

Definition sg_end (sg : Segment) : Z := sg_va sg + sg_size sg.

(** The pages a segment touches. *)
Definition touches (sg : Segment) (page : Z) : bool := (page_at (sg_va sg) <=? page) && (page <? page_up (sg_end sg)).

(** Where two segments share a page the later one decides. *)
Definition segment_flags (segs : list Segment) (page : Z) : option Z :=
  fold_left (fun fl sg => if touches sg page then Some (final_flags (sg_flags sg)) else fl) segs None.

Definition touched (segs : list Segment) (page : Z) : bool := existsb (fun sg => touches sg page) segs.

(** The bytes of the file, then zeros. *)
Definition segment_byte (sg : Segment) (va : Z) : Z := default 0 (sg_source sg !! Z.to_nat (va - sg_va sg)).

Definition overlay (m : Z -> option Z) (sg : Segment) (va : Z) : option Z :=
  if (sg_va sg <=? va) && (va <? sg_end sg) then Some (segment_byte sg va) else m va.

Definition segment_bytes (segs : list Segment) : Z -> option Z := fold_left overlay segs (fun _ => None).

Definition segments_end (region_start : Z) (segs : list Segment) : Z :=
  fold_left (fun h sg => Z.max h (page_up (sg_end sg))) segs region_start.

(** ** The segments an image names *)

Definition read_segment (image : list Z) (region_start region_end header : Z) : result ElfError (option Segment) :=
  kind ← read_u32 image header;
  if negb (kind =? PT_LOAD) then Ok None else
  file_offset ← field read_u64 image header 8;
  virtual_address ← field read_u64 image header 16;
  file_size ← field read_u64 image header 32;
  memory_size ← field read_u64 image header 40;
  if memory_size =? 0 then Ok None else
  if memory_size <? file_size then Err Malformed else
  if U64_MAX <? virtual_address + memory_size then Err Malformed else
  if (virtual_address <? region_start) || (region_end <? virtual_address + memory_size) then Err OutOfBounds else
  source ← get_range image file_offset file_size;
  p_flags ← field read_u32 image header 4;
  Ok (Some {| sg_flags := p_flags; sg_va := virtual_address; sg_size := memory_size; sg_source := source |}).

Fixpoint read_segments (image : list Z) (region_start region_end : Z) (n : nat) (index offset size : Z) : result ElfError (list Segment) :=
  match n with
  | O => Ok []
  | S n' =>
      header ← ok_or Malformed (header_at offset size index);
      found ← read_segment image region_start region_end header;
      rest ← read_segments image region_start region_end n' (index + 1) offset size;
      Ok (match found with Some sg => sg :: rest | None => rest end)
  end.

Definition check (b : bool) (e : ElfError) : result ElfError unit := if b then Err e else Ok tt.

(** The entry point and the segments, when the headers are in order. *)
Definition read_image (image : list Z) (region_start region_end : Z) : result ElfError (Z * list Segment) :=
  check (negb (bool_decide (take 4 image = ELF_MAGIC))) NotSupported ;;
  check (negb (bool_decide (image !! 4%nat = Some CLASS_64)) || negb (bool_decide (image !! 5%nat = Some DATA_LITTLE_ENDIAN))) NotSupported ;;
  machine ← read_u16 image 18;
  check (negb (machine =? MACHINE_X86_64)) NotSupported ;;
  entry ← read_u64 image 24;
  offset ← read_u64 image 32;
  size ← read_u16 image 54;
  count ← read_u16 image 56;
  check (size <? 56) Malformed ;;
  segs ← read_segments image region_start region_end (Z.to_nat count) 0 offset size;
  check ((entry <? region_start) || (segments_end region_start segs <=? entry)) OutOfBounds ;;
  Ok (entry, segs).

(** A segment that passed the checks. *)
Record segment_in (region_start region_end : Z) (sg : Segment) : Prop := {
  si_start : region_start <= sg_va sg;
  si_end : sg_end sg <= region_end;
  si_size : 0 < sg_size sg;
  si_source : Z.of_nat (length (sg_source sg)) <= sg_size sg;
}.

(** ** Bounds on what headers hold *)

Definition image_ok (image : list Z) : Prop := Forall is_byte image /\ Z.of_nat (length image) <= U64_MAX.

(** ** The loader's view of a space *)

Section View.
Context (space : Z) (st0 : Loader) (lvl0 : levels).

(** What never depends on how far loading got: the other spaces, and the bytes of every
    frame that was in use before. *)
Record untouched (st : Loader) (lvl : levels) : Prop := {
  un_ok : spaces_ok (ld_paging st) lvl;
  un_rest : same_rest (ld_paging st0) (ld_paging st);
  un_roots : forall f, lvl !! f = Some 4%nat <-> lvl0 !! f = Some 4%nat;
  un_total : total_frames (frames (ld_paging st)) = total_frames (frames (ld_paging st0));
  un_used : forall n, 0 <= n -> used_at (frames (ld_paging st0)) n = true -> used_at (frames (ld_paging st)) n = true;
  un_others : forall sp page, lvl0 !! sp = Some 4%nat -> user_page page -> sp <> space ->
    page_of (ld_paging st) sp page = page_of (ld_paging st0) sp page;
  un_bytes : forall pa, used_at (frames (ld_paging st0)) (pa / 4096) = true -> ld_bytes st !! pa = ld_bytes st0 !! pa;
}.

(** The pages of the space have the flags [fl], each page a frame of its own that was
    free before, and hold the bytes [contents]. *)
Record view (st : Loader) (lvl : levels) (fl : Z -> option Z) (contents : Z -> option Z) : Prop := {
  vw_untouched : untouched st lvl;
  vw_flags : forall page, user_page page -> snd <$> page_of (ld_paging st) space page = fl page;
  vw_open : forall page, user_page page -> page_of (ld_paging st) space page <> None -> page_open (ld_paging st) space page;
  vw_frame : forall page f x, user_page page -> page_of (ld_paging st) space page = Some (f, x) ->
    exists n, f = frame_at n /\ 0 <= n < total_frames (frames (ld_paging st0)) /\ used_at (frames (ld_paging st0)) n = false /\
      used_at (frames (ld_paging st)) n = true /\ lvl !! f = None;
  vw_own : forall page page' f x x', user_page page -> user_page page' -> page_of (ld_paging st) space page = Some (f, x) ->
    page_of (ld_paging st) space page' = Some (f, x') -> page = page';
  vw_bytes : forall va b, contents va = Some b -> user_page (page_at va) /\
    exists f x, page_of (ld_paging st) space (page_at va) = Some (f, x) /\ ld_bytes st !! (f + va mod 4096) = Some b;
}.

Lemma view_ext st lvl fl fl' contents contents' : (forall page, user_page page -> fl page = fl' page) ->
  (forall va, contents va = contents' va) -> view st lvl fl contents -> view st lvl fl' contents'.
Proof.
  intros Hf Hc [Hu Hfl Ho Hfr Hown Hb]. split; try done.
  - intros page Hp. rewrite Hfl by done. auto.
  - intros va b. rewrite <- Hc. apply Hb.
Qed.

Context (Hroot : lvl0 !! space = Some 4%nat).

(** *** Mapping one page *)

Lemma edited_untouched st lvl lvl' s' (c : Z -> Z -> option (Z * Z) -> option (Z * Z)) : untouched st lvl ->
  edited (ld_paging st) s' lvl lvl' c -> (forall sp page old, sp <> space -> c sp page old = old) ->
  total_frames (frames s') = total_frames (frames (ld_paging st)) ->
  (forall n, 0 <= n -> used_at (frames (ld_paging st)) n = true -> used_at (frames s') n = true) ->
  untouched {| ld_paging := s'; ld_bytes := ld_bytes st |} lvl'.
Proof.
  intros [Hok (Hr1 & Hr2 & Hr3) Hroots Htot Hused Hoth Hb] [He1 (He2 & He2' & He2'') He3 He4 _] Hc Ht Hu. split; cbn [ld_paging ld_bytes].
  - done.
  - split_and!; congruence.
  - intros f. by rewrite He3.
  - lia.
  - intros n Hn Hx. apply Hu; [done|]. by apply Hused.
  - intros sp page H4 Hp Hne. rewrite He4 by (done || by apply Hroots). rewrite Hc by done. by apply Hoth.
  - done.
Qed.

Lemma took_mono s s' lvl lvl' extra : took s s' lvl lvl' extra ->
  total_frames (frames s') = total_frames (frames s) /\
  forall n, 0 <= n -> used_at (frames s) n = true -> used_at (frames s') n = true.
Proof. intros [Ht Hu]. split; [done|]. intros n Hn Hx. by rewrite Hu, Hx. Qed.

Lemma map_page_view `{MapLaw} st lvl fl contents page flags :
  view st lvl fl contents -> user_page page -> has flags PRESENT = true -> has flags HUGE_PAGE = false ->
  has flags WRITABLE = true -> has flags USER_ACCESSIBLE = true ->
  match map_in space page flags (ld_paging st) with
  | (Ok f, s') => exists lvl', view {| ld_paging := s'; ld_bytes := ld_bytes st |} lvl' (fun p => if decide (p = page) then Some flags else fl p) contents
  | (Err e, s') => exists lvl', untouched {| ld_paging := s'; ld_bytes := ld_bytes st |} lvl'
  | (Panic, _) => False
  end.
Proof.
  intros Hv Hpg Hp Hh Hw Hu. pose proof Hv as [Hun Hfl Ho Hfr Hown Hb]. pose proof Hun as [Hok _ Hroots Htot Hused Hoth _].
  assert (H4 : lvl !! space = Some 4%nat) by (by apply Hroots).
  pose proof (map_in_correct (ld_paging st) lvl space page flags Hok H4 Hpg Hp Hh) as Hm.
  destruct (map_in space page flags (ld_paging st)) as [[f|e|] s']; cbn [map_in_outcome] in Hm; [| |done].
  2:{ destruct Hm as (lvl' & _ & _ & Ht & He & _). exists lvl'. destruct (took_mono _ _ _ _ _ Ht) as [Ht1 Ht2].
      by eapply (edited_untouched _ _ _ _ unchanged). }
  destruct Hm as (n & lvl' & -> & Hn & Hnu & Hnone & Hsub & Hnl & Hnf & Ht & He). exists lvl'. destruct (took_mono _ _ _ _ _ Ht) as [Ht1 Ht2].
  assert (Hun' : untouched {| ld_paging := s'; ld_bytes := ld_bytes st |} lvl').
  { eapply edited_untouched; [done|exact He| |done|done]. intros sp pg old Hne. unfold at_page. case_decide as Hd; [|done]. by destruct Hd. }
  pose proof He as [He1 _ He3 He4 He5].
  assert (Hview : forall pg, user_page pg -> page_of s' space pg = if decide (pg = page) then Some (frame_at n, flags) else page_of (ld_paging st) space pg).
  { intros pg Hpgu. rewrite He4 by done. unfold at_page. destruct (decide (pg = page)) as [->|Hne]; [by rewrite decide_True|].
    rewrite decide_False; [done|]. by intros [_ ?]. }
  assert (Hfresh : forall pg f x, user_page pg -> page_of (ld_paging st) space pg = Some (f, x) -> f <> frame_at n).
  { intros pg f x Hpgu Hx ->. destruct (Hfr _ _ _ Hpgu Hx) as (m & Heq%frame_at_inj & _ & _ & Hmu & _). congruence. }
  split; cbn [ld_paging ld_bytes].
  - done.
  - intros pg Hpgu. rewrite Hview by done. case_decide; [done|by apply Hfl].
  - intros pg Hpgu Hx. destruct (decide (pg = page)) as [->|Hne].
    + pose proof (He1.(so_plain _ _) space page) as Hplain. specialize (Hview page Hpg). rewrite decide_True in Hview by done.
      unfold page_of in Hview. destruct (walk (tables s') space page) as [t|] eqn:Hwk; [|done]. cbn in Hview. injection Hview as _ Hat.
      assert (plain t) as (_ & Hpw & Hpu) by (by apply (Hplain t); [apply He3|..]).
      destruct (walk_rights _ _ _ _ _ Hwk) as [Hrw Hru]. rewrite Hat, Hw in Hpw, Hrw. rewrite Hat, Hu in Hpu, Hru. exists t. split; [done|].
      rewrite Hpw in Hrw. rewrite Hpu in Hru. split; [by destruct (tr_link_writable t)|by destruct (tr_link_user t)].
    + rewrite Hview, decide_False in Hx by done. apply He5; [done|done|by apply Ho|]. by rewrite Hview, decide_False.
  - intros pg f x Hpgu. rewrite Hview by done. case_decide as Hd.
    + intros [= <- <-]. exists n. split; [done|]. split; [lia|]. split; [|split; [|done]].
      * destruct (used_at (frames (ld_paging st0)) n) eqn:Hx; [|done]. rewrite Hused in Hnu; [done|lia|done].
      * destruct Ht as [_ Htk]. rewrite Htk by lia. rewrite (bool_decide_true (frame_at n ∈ _)) by set_solver. by rewrite orb_true_r.
    + intros Hx. destruct (Hfr _ _ _ Hpgu Hx) as (m & -> & Hm & Hm0 & Hmu & Hml). exists m. split_and!; try done; [lia|lia|apply Ht2; [lia|done]|].
      destruct (lvl' !! frame_at m) as [l|] eqn:Hl; [|done]. rewrite (Hnf m) in Hmu; [done|lia|done|eauto].
  - intros pg pg' f x x' Hpgu Hpgu'. rewrite !Hview by done. case_decide as Hd; case_decide as Hd'.
    + congruence.
    + intros [= <- <-] Hx. by destruct (Hfresh _ _ _ Hpgu' Hx).
    + intros Hx [= <- <-]. by destruct (Hfresh _ _ _ Hpgu Hx).
    + by apply Hown.
  - intros va b Hc. destruct (Hb va b Hc) as (Hpgu & f & x & Hx & Hbyte). split; [done|]. exists f, x. split; [|done].
    rewrite Hview by done. case_decide as Hd; [|done]. rewrite Hd in Hx. congruence.
Qed.

(** *** Writing bytes *)

Context (Hactive : cr3 (ld_paging st0) = space).

Lemma frame_of_byte n va : 0 <= n -> (frame_at n + va mod 4096) / 4096 = n.
Proof.
  intros Hn. unfold frame_at, PAGE_SIZE. pose proof (Z.mod_pos_bound va 4096 ltac:(lia)).
  symmetry. apply (Z.div_unique_pos _ _ _ (va mod 4096)); lia.
Qed.

Lemma same_byte va va' : page_at va = page_at va' -> va mod 4096 = va' mod 4096 -> va = va'.
Proof. unfold page_at, PAGE_SIZE. lia. Qed.

Lemma write_byte_view st lvl fl contents va b x :
  view st lvl fl contents -> user_page (page_at va) -> fl (page_at va) = Some x -> has x WRITABLE = true ->
  exists st', write_byte va b st = (Ok tt, st') /\ view st' lvl fl (fun a => if decide (a = va) then Some b else contents a).
Proof.
  intros [Hun Hfl Ho Hfr Hown Hb] Hpg Hx Hw. pose proof Hun as [Hok (Hcr & Hr2 & Hr3) Hroots Htot Hused Hoth Hkept].
  pose proof (Hfl _ Hpg) as Hf. rewrite Hx in Hf. destruct (page_of (ld_paging st) space (page_at va)) as [[f y]|] eqn:Hpo; [|done].
  cbn in Hf. injection Hf as ->. assert (H4 : lvl !! space = Some 4%nat) by (by apply Hroots).
  pose proof (walk_user (ld_paging st) lvl space va Hok H4 Hpg) as Hwk. rewrite Hpo in Hwk. destruct Hwk as (t & Ht & Hphys & _ & Hwr & _).
  unfold write_byte. assert (cr3 (ld_paging st) = space) as -> by congruence. rewrite Ht, Hwr, Hw, Hphys.
  destruct (Hfr _ _ _ Hpg Hpo) as (n & -> & Hn & Hn0 & _).
  eexists. split; [done|]. split; cbn [ld_paging ld_bytes]; try done.
  - split; cbn [ld_paging ld_bytes]; try done. intros pa Hpa. rewrite lookup_insert_ne; [by apply Hkept|]. intros <-.
    rewrite frame_of_byte in Hpa by lia. congruence.
  - intros a c. case_decide as Hd.
    + intros [= <-]. subst a. split; [done|]. exists (frame_at n), x. split; [done|]. by rewrite lookup_insert_eq.
    + intros Hc. destruct (Hb a c Hc) as (Hpga & f & y & Hy & Hbyte). split; [done|]. exists f, y. split; [done|].
      rewrite lookup_insert_ne; [done|]. intros Heq. destruct (Hfr _ _ _ Hpga Hy) as (m & -> & Hm & _).
      pose proof (frame_of_byte n va ltac:(lia)) as Hnv. rewrite Heq, frame_of_byte in Hnv by lia. subst m.
      apply Hd. apply same_byte; [by apply (Hown _ _ (frame_at n) y x)|lia].
Qed.

(** [bs] laid over [contents] from [va]. *)
Definition overwrite (va : Z) (bs : list Z) (contents : Z -> option Z) (a : Z) : option Z :=
  if (va <=? a) && (a <? va + Z.of_nat (length bs)) then Some (default 0 (bs !! Z.to_nat (a - va))) else contents a.

Lemma write_bytes_view lvl fl bs : forall st contents va,
  view st lvl fl contents ->
  (forall a, va <= a < va + Z.of_nat (length bs) -> user_page (page_at a) /\ exists x, fl (page_at a) = Some x /\ has x WRITABLE = true) ->
  exists st', write_bytes va bs st = (Ok tt, st') /\ view st' lvl fl (overwrite va bs contents).
Proof.
  induction bs as [|b bs IH]; intros st contents va Hv Hall; cbn [write_bytes].
  { exists st. split; [done|]. apply (view_ext st lvl fl fl contents); [done| |done]. intros a. unfold overwrite.
    destruct (_ && _) eqn:Hc; [|done]. apply andb_true_iff in Hc as [?%Z.leb_le ?%Z.ltb_lt]. simpl in *. lia. }
  destruct (Hall va ltac:(simpl; lia)) as [Hpg (x & Hx & Hw)].
  destruct (write_byte_view st lvl fl contents va b x Hv Hpg Hx Hw) as (st1 & Hrun & Hv1). cbv beta iota delta [mbind M_bind]. rewrite Hrun.
  destruct (IH st1 _ (va + 1) Hv1) as (st2 & -> & Hv2); [intros a Ha; apply Hall; simpl; lia|]. exists st2. split; [done|].
  eapply view_ext; [done| |exact Hv2]. intros a. unfold overwrite. cbn [length]. case_decide as Hd.
  - subst a. destruct ((va + 1 <=? va) && _) eqn:Hc0; [lia|]. destruct ((va <=? va) && _) eqn:Hc; [by rewrite Z.sub_diag|].
    apply andb_false_iff in Hc as [Hc%Z.leb_gt|Hc%Z.ltb_ge]; lia.
  - destruct (decide (va < a < va + 1 + Z.of_nat (length bs))) as [Hin|Hout].
    + rewrite !(proj2 (andb_true_iff _ _)) by (split; [apply Z.leb_le|apply Z.ltb_lt]; lia).
      by replace (Z.to_nat (a - va)) with (S (Z.to_nat (a - (va + 1)))) by lia.
    + destruct ((va + 1 <=? a) && _) eqn:Hc; [lia|]. destruct ((va <=? a) && _) eqn:Hc'; [lia|done].
Qed.

(** *** Changing a page's flags *)

Lemma protect_page_view `{UpdateLaw} st lvl fl contents page new :
  view st lvl fl contents -> user_page page -> fl page <> None -> has new PRESENT = true -> has new HUGE_PAGE = false ->
  exists st', ignored (set_flags_in space page new) st = (Ok tt, st') /\
    view st' lvl (fun p => if decide (p = page) then Some new else fl p) contents.
Proof.
  intros [Hun Hfl Ho Hfr Hown Hb] Hpg Hmapped Hp Hh. pose proof Hun as [Hok _ Hroots _ _ _ _].
  assert (H4 : lvl !! space = Some 4%nat) by (by apply Hroots).
  destruct (set_flags_in_edit (ld_paging st) lvl space page new Hok H4 Hpg Hp Hh (Ho page Hpg)) as (r & s' & Hrun & Hfr' & Hr).
  unfold ignored. rewrite Hrun. destruct r as [[]|e|]; [| |done].
  2:{ destruct Hr as [_ Hnone]. pose proof (Hfl page Hpg) as Hf. rewrite Hnone in Hf. by destruct Hmapped. }
  destruct Hr as (f & old & Hold & He). eexists. split; [done|]. pose proof He as [He1 _ He3 He4 He5].
  assert (Hview : forall pg, user_page pg -> page_of s' space pg = if decide (pg = page) then Some (f, new) else page_of (ld_paging st) space pg).
  { intros pg Hpgu. rewrite He4 by done. unfold at_page. destruct (decide (pg = page)) as [->|Hne]; [by rewrite decide_True|].
    rewrite decide_False; [done|]. by intros [_ ?]. }
  assert (Hback : forall pg g x, user_page pg -> page_of s' space pg = Some (g, x) -> exists y, page_of (ld_paging st) space pg = Some (g, y)).
  { intros pg g x Hpgu. rewrite Hview by done. case_decide as Hd; [|eauto]. intros [= <- <-]. subst pg. eauto. }
  split; cbn [ld_paging ld_bytes].
  - eapply edited_untouched; [done|exact He| |by rewrite Hfr'|by rewrite Hfr']. intros sp pg o Hne. unfold at_page. case_decide as Hd; [|done]. by destruct Hd.
  - intros pg Hpgu. rewrite Hview by done. case_decide; [done|by apply Hfl].
  - intros pg Hpgu Hx. apply He5; [done|done| |done]. apply Ho; [done|]. destruct (page_of s' space pg) as [[g x]|] eqn:Hy; [|done].
    destruct (Hback _ _ _ Hpgu Hy) as [y ->]. done.
  - intros pg g x Hpgu Hx. destruct (Hback _ _ _ Hpgu Hx) as [y Hy]. rewrite Hfr'. by apply (Hfr pg g y).
  - intros pg pg' g x x' Hpgu Hpgu' Hx Hx'. destruct (Hback _ _ _ Hpgu Hx) as [y Hy]. destruct (Hback _ _ _ Hpgu' Hx') as [y' Hy'].
    by apply (Hown pg pg' g y y').
  - intros va b Hc. destruct (Hb va b Hc) as (Hpgu & g & x & Hx & Hbyte). split; [done|]. rewrite Hview by done. case_decide as Hd.
    + rewrite Hd in Hx. assert (g = f) as -> by congruence. eauto.
    + eauto.
Qed.
End View.
