(* ===== verification/ElfTheorems.v ===== *)
(** * The loader does what the headers say

    Both loops of [load] against the segments [read_image] finds. *)

From stdpp Require Import base list gmap numbers list_numbers.
From Stdlib Require Import Lia ZifyBool.
From S2P Require Import Prelude Frame Paging PagingInv PagingSplit PagingUnmap PagingSpace PagingMap PagingRef PagingRuns Userspace Elf ElfSpec.

(** ** Page arithmetic *)

Lemma page_at_bounds a : page_at a <= a < page_at a + 4096 /\ page_at a mod 4096 = 0.
Proof. unfold page_at, PAGE_SIZE. Z.div_mod_to_equations. lia. Qed.

Lemma page_up_bounds a : a <= page_up a < a + 4096 /\ page_up a mod 4096 = 0.
Proof. unfold page_up. pose proof (page_at_bounds (a + PAGE_SIZE - 1)). unfold PAGE_SIZE in *. lia. Qed.

Lemma page_aligned p : page_at p = p <-> p mod 4096 = 0.
Proof. unfold page_at, PAGE_SIZE. lia. Qed.

Lemma page_count_exact first last : first mod 4096 = 0 -> last mod 4096 = 0 -> first <= last ->
  first + Z.of_nat (page_count first last) * 4096 = last.
Proof. intros H1 H2 H3. unfold page_count, div_ceil, PAGE_SIZE. Z.div_mod_to_equations. lia. Qed.

(** A page touches a segment when a byte of it does. *)
Lemma touches_byte sg va : sg_va sg <= va < sg_end sg -> touches sg (page_at va) = true.
Proof.
  intros Hva. unfold touches. pose proof (page_at_bounds va). pose proof (page_at_bounds (sg_va sg)). pose proof (page_up_bounds (sg_end sg)).
  unfold PAGE_SIZE in *. apply andb_true_iff. split; [apply Z.leb_le|apply Z.ltb_lt]; Z.div_mod_to_equations; lia.
Qed.

Definition in_user_region (region_start region_end : Z) : Prop := USER_BASE <= region_start /\ region_end <= USER_REGION_END.

Lemma touches_user region_start region_end sg p : in_user_region region_start region_end -> segment_in region_start region_end sg ->
  touches sg p = true -> p mod 4096 = 0 -> user_page p.
Proof.
  intros [H1 H2] [Hs He _ _] [Ht1%Z.leb_le Ht2%Z.ltb_lt]%andb_true_iff Hp. split; [|by apply page_aligned].
  pose proof (page_at_bounds (sg_va sg)). pose proof (page_up_bounds (sg_end sg)).
  change USER_REGION_END with (8590196736 * 4096) in *. change USER_BASE with (8589934592 * 4096) in *. unfold PAGE_SIZE in *.
  Z.div_mod_to_equations. lia.
Qed.

(** ** Reading headers *)

Lemma get_range_ok image o n bs : 0 <= o -> 0 <= n -> get_range image o n = Ok bs -> length bs = Z.to_nat n.
Proof.
  intros Ho Hn. unfold get_range, usize_add. destruct (o + n <=? U64_MAX); [|done]. cbn [mbind result_bind].
  destruct (o + n <=? Z.of_nat (length image)) eqn:Hc; [|done]. intros [= <-]. apply length_slice. lia.
Qed.

Lemma get_range_bytes image o n bs : Forall is_byte image -> get_range image o n = Ok bs -> Forall is_byte bs.
Proof.
  intros Hb. unfold get_range, usize_add. destruct (o + n <=? U64_MAX); [|done]. cbn [mbind result_bind].
  destruct (o + n <=? _); [|done]. intros [= <-]. unfold slice. by apply Forall_take, Forall_drop.
Qed.

(** A number read from the image fits its width. *)
Lemma read_bound image o (n v : Z) : Forall is_byte image -> 0 <= o -> 0 <= n ->
  (bytes ← get_range image o n; mret (from_le_bytes bytes)) = Ok v -> 0 <= v < 256 ^ n.
Proof.
  intros Hb Ho Hn. destruct (get_range image o n) as [bs|e|] eqn:Hg; cbn [mbind result_bind]; [|done|done]. intros [= <-].
  pose proof (from_le_bytes_bound bs (get_range_bytes _ _ _ _ Hb Hg)) as Hv. rewrite (get_range_ok _ _ _ _ Ho Hn Hg), Z2Nat.id in Hv by lia. done.
Qed.

Lemma read_u64_bound image o v : Forall is_byte image -> 0 <= o -> read_u64 image o = Ok v -> 0 <= v <= U64_MAX.
Proof. intros Hb Ho Hr. pose proof (read_bound image o 8 v Hb Ho ltac:(lia) Hr) as Hv. change (256 ^ 8) with (U64_MAX + 1) in Hv. lia. Qed.

Lemma read_u16_bound image o v : Forall is_byte image -> 0 <= o -> read_u16 image o = Ok v -> 0 <= v <= U16_MAX.
Proof. intros Hb Ho Hr. pose proof (read_bound image o 2 v Hb Ho ltac:(lia) Hr) as Hv. change (256 ^ 2) with (U16_MAX + 1) in Hv. lia. Qed.

Lemma field_bound image header k v : Forall is_byte image -> 0 <= header -> 0 <= k -> field read_u64 image header k = Ok v -> 0 <= v <= U64_MAX.
Proof.
  intros Hb Hh Hk. unfold field, usize_add. destruct (header + k <=? U64_MAX); [|done]. cbn [mbind result_bind].
  apply read_u64_bound; [done|lia].
Qed.

(** A header whose last field can be read has its flags too. *)
Lemma field_flags image header v : 0 <= header -> field read_u64 image header 40 = Ok v -> exists f, field read_u32 image header 4 = Ok f.
Proof.
  intros Hh. unfold field, read_u64, read_u32, get_range, usize_add. destruct (header + 40 <=? U64_MAX) eqn:H1; [|done]. cbn [mbind result_bind].
  destruct (header + 40 + 8 <=? U64_MAX) eqn:H2; [|done]. cbn [mbind result_bind].
  destruct (header + 40 + 8 <=? Z.of_nat (length image)) eqn:H3; [|done]. intros _.
  destruct (header + 4 <=? U64_MAX) eqn:H4; [|lia]. cbn [mbind result_bind].
  destruct (header + 4 + 4 <=? U64_MAX) eqn:H5; [|lia]. cbn [mbind result_bind].
  destruct (header + 4 + 4 <=? Z.of_nat (length image)) eqn:H6; [|lia]. eauto.
Qed.

(** ** The first loop *)

Definition staged (m : Z -> bool) (p : Z) : option Z := if m p then Some staging else None.

Section Load.
Context `{!Mapper, !TranslateLaw, !MapLaw, !UpdateLaw}.
Context (space : Z) (st0 : Loader) (lvl0 : levels).
Context (Hroot : lvl0 !! space = Some 4%nat) (Hactive : cr3 (ld_paging st0) = space).

Abbreviation view := (view space st0 lvl0).
Abbreviation untouched := (untouched space st0 lvl0).

Definition pages_from (address : Z) (n : nat) (p : Z) : bool := (address <=? p) && (p <? address + Z.of_nat n * 4096).

Lemma map_pages_view n : forall st lvl m c address, view st lvl (staged m) c ->
  (forall i, 0 <= i < Z.of_nat n -> user_page (address + i * 4096)) ->
  match map_pages n space address st with
  | (Ok _, st') => exists lvl', view st' lvl' (staged (fun p => m p || pages_from address n p)) c
  | (Err e, st') => e = Mapping /\ exists lvl', untouched st' lvl'
  | (Panic, _) => False
  end.
Proof.
  induction n as [|n IH]; intros st lvl m c address Hv Hpg; cbn [map_pages].
  { exists lvl. eapply view_ext; [|done|exact Hv]. intros p _. unfold staged, pages_from.
    destruct (m p); [done|]. destruct (_ && _) eqn:Hc; [lia|done]. }
  pose proof (Hpg 0 ltac:(lia)) as Hpg0. rewrite Z.mul_0_l, Z.add_0_r in Hpg0.
  assert (Hnext : forall i, 0 <= i < Z.of_nat n -> user_page (address + PAGE_SIZE + i * 4096)).
  { intros i Hi. specialize (Hpg (i + 1) ltac:(lia)). unfold PAGE_SIZE. by replace (address + 4096 + i * 4096) with (address + (i + 1) * 4096) by lia. }
  assert (Hsplit : forall p, user_page p -> pages_from address (S n) p = bool_decide (p = address) || pages_from (address + PAGE_SIZE) n p).
  { intros p [_ Hp%page_aligned]. destruct Hpg0 as [_ Ha%page_aligned]. unfold pages_from, PAGE_SIZE.
    case_bool_decide; Z.div_mod_to_equations; lia. }
  pose proof (vw_untouched _ _ _ _ _ _ _ Hv) as Hun. cbv beta iota delta [mbind M_bind]. unfold on_paging.
  rewrite (flags_in_page (ld_paging st) lvl space address (un_ok _ _ _ _ _ Hun)) by (done || by apply (un_roots _ _ _ _ _ Hun)).
  rewrite (vw_flags _ _ _ _ _ _ _ Hv) by done. unfold staged at 1.
  replace {| ld_paging := ld_paging st; ld_bytes := ld_bytes st |} with st by (by destruct st). destruct (m address) eqn:Hm.
  - cbn [mret M_ret]. specialize (IH st lvl m c (address + PAGE_SIZE) Hv Hnext).
    destruct (map_pages n space (address + PAGE_SIZE) st) as [[u|e|] st']; [|done..].
    destruct IH as [lvl' IH]. exists lvl'. eapply view_ext; [|done|exact IH]. intros p Hp. unfold staged. rewrite Hsplit by done.
    case_bool_decide as Hd; [|done]. subst p. by rewrite Hm.
  - rewrite (proj2 Hpg0). pose proof (map_page_view space st0 lvl0 Hroot st lvl _ c address staging Hv Hpg0 ltac:(done) ltac:(done) ltac:(done) ltac:(done)) as Hmap.
    destruct (map_in space address staging (ld_paging st)) as [[f|e|] s']; [| |done]; [|done].
    destruct Hmap as [lvl' Hv']. cbn [mret M_ret].
    assert (Hv2 : view {| ld_paging := s'; ld_bytes := ld_bytes st |} lvl' (staged (fun p => m p || bool_decide (p = address))) c).
    { eapply view_ext; [|done|exact Hv']. intros p Hp. unfold staged. case_decide; [subst; by rewrite bool_decide_true, orb_true_r|].
      by rewrite bool_decide_false, orb_false_r. }
    specialize (IH _ _ _ _ _ Hv2 Hnext). destruct (map_pages n space (address + PAGE_SIZE) _) as [[u|e|] st']; [|done..].
    destruct IH as [lvl2 IH]. exists lvl2. eapply view_ext; [|done|exact IH]. intros p Hp. unfold staged. by rewrite Hsplit, orb_assoc.
Qed.

(** Filling a segment: the file's bytes, then zeros, over pages that are writable. *)
Lemma fill_view st lvl m c sg :
  view st lvl (staged m) c -> Z.of_nat (length (sg_source sg)) <= sg_size sg ->
  (forall va, sg_va sg <= va < sg_end sg -> user_page (page_at va) /\ m (page_at va) = true) ->
  exists st1 st2, write_bytes (sg_va sg) (sg_source sg) st = (Ok tt, st1) /\
    write_bytes (sg_va sg + Z.of_nat (length (sg_source sg))) (replicate (Z.to_nat (sg_size sg - Z.of_nat (length (sg_source sg)))) 0) st1 = (Ok tt, st2) /\
    view st2 lvl (staged m) (overlay c sg).
Proof.
  intros Hv Hlen Hmap. set (fs := Z.of_nat (length (sg_source sg))) in *.
  assert (Hok : forall va, sg_va sg <= va < sg_end sg -> user_page (page_at va) /\ exists x, staged m (page_at va) = Some x /\ has x WRITABLE = true).
  { intros va Hva. destruct (Hmap va Hva) as [Hp Hm]. split; [done|]. exists staging. unfold staged. by rewrite Hm. }
  unfold sg_end in *.
  destruct (write_bytes_view space st0 lvl0 Hroot Hactive lvl (staged m) (sg_source sg) st c (sg_va sg) Hv) as (st1 & Hr1 & Hv1).
  { intros a Ha. apply Hok. lia. }
  destruct (write_bytes_view space st0 lvl0 Hroot Hactive lvl (staged m) (replicate (Z.to_nat (sg_size sg - fs)) 0) st1 _ (sg_va sg + fs) Hv1) as (st2 & Hr2 & Hv2).
  { rewrite length_replicate. intros a Ha. apply Hok. lia. }
  exists st1, st2. split; [done|]. split; [done|]. eapply view_ext; [done| |exact Hv2]. intros a. unfold overwrite, overlay, segment_byte, sg_end.
  rewrite length_replicate. fold fs. destruct ((sg_va sg <=? a) && (a <? sg_va sg + sg_size sg)) eqn:Hin.
  - destruct (decide (a < sg_va sg + fs)) as [Hlt|Hge].
    + destruct ((sg_va sg + fs <=? a) && _) eqn:Hc; [lia|]. destruct ((sg_va sg <=? a) && (a <? sg_va sg + fs)) eqn:Hc'; [done|lia].
    + destruct ((sg_va sg + fs <=? a) && _) eqn:Hc; [|lia]. rewrite lookup_replicate_2 by lia. cbn [default].
      rewrite lookup_ge_None_2; [done|]. lia.
  - destruct ((sg_va sg + fs <=? a) && _) eqn:Hc; [lia|]. destruct ((sg_va sg <=? a) && (a <? sg_va sg + fs)) eqn:Hc'; [lia|done].
Qed.

Context (image : list Z) (region_start region_end : Z).
Context (Himage : Forall is_byte image) (Hregion : in_user_region region_start region_end).

Lemma segment_pages sg : segment_in region_start region_end sg ->
  let n := page_count (page_at (sg_va sg)) (page_up (sg_end sg)) in
  (forall p, pages_from (page_at (sg_va sg)) n p = touches sg p) /\
  (forall i, 0 <= i < Z.of_nat n -> user_page (page_at (sg_va sg) + i * 4096) /\ touches sg (page_at (sg_va sg) + i * 4096) = true).
Proof.
  intros Hsg n. pose proof Hsg as [Hs He Hz _]. pose proof (page_at_bounds (sg_va sg)) as [Hb Hba]. pose proof (page_up_bounds (sg_end sg)) as [Hu Hua].
  unfold sg_end in *. pose proof (page_count_exact _ _ Hba Hua ltac:(lia)) as Hn. fold n in Hn.
  assert (Hpf : forall p, pages_from (page_at (sg_va sg)) n p = touches sg p) by (intros p; unfold pages_from, touches, sg_end; by rewrite Hn).
  split; [done|]. intros i Hi.
  assert (Ht : touches sg (page_at (sg_va sg) + i * 4096) = true) by (rewrite <- Hpf; unfold pages_from; lia).
  split; [|done]. apply (touches_user region_start region_end sg); [done|done|done|]. Z.div_mod_to_equations. lia.
Qed.

Lemma touched_app segs sg p : touched (segs ++ [sg]) p = touched segs p || touches sg p.
Proof. unfold touched. rewrite existsb_app. cbn [existsb]. by rewrite orb_false_r. Qed.

Definition segment_outcome (st : Loader) (segs : list Segment) (highest : Z) (found : result ElfError (option Segment)) (out : result ElfError Z * Loader) : Prop :=
  match found, out with
  | Ok None, (Ok h, st') => h = highest /\ st' = st
  | Ok (Some sg), (Ok h, st') => segment_in region_start region_end sg /\ h = Z.max highest (page_up (sg_end sg)) /\
      exists lvl', view st' lvl' (staged (touched (segs ++ [sg]))) (segment_bytes (segs ++ [sg]))
  | Ok (Some sg), (Err Mapping, st') => segment_in region_start region_end sg /\ exists lvl', untouched st' lvl'
  | Err e, (Err e', st') => e' = e /\ st' = st
  | Panic, (Panic, st') => st' = st
  | _, _ => False
  end.

Lemma load_segment_view st lvl segs header highest : 0 <= header -> view st lvl (staged (touched segs)) (segment_bytes segs) ->
  segment_outcome st segs highest (read_segment image region_start region_end header)
    (load_segment space image region_start region_end header highest st).
Proof.
  intros Hh Hv. unfold read_segment, load_segment. cbv beta iota delta [mbind M_bind result_bind lift].
  destruct (read_u32 image header) as [kind|e|]; [|done..]. destruct (negb (kind =? PT_LOAD)); [done|]. cbv beta iota delta [mbind M_bind result_bind lift].
  destruct (field read_u64 image header 8) as [offset|e|] eqn:Ho; [|done..].
  destruct (field read_u64 image header 16) as [va|e|] eqn:Hva; [|done..].
  destruct (field read_u64 image header 32) as [fs|e|] eqn:Hfs; [|done..].
  destruct (field read_u64 image header 40) as [ms|e|] eqn:Hms; [|done..].
  apply field_bound in Ho; [|done|lia|lia]. apply field_bound in Hva; [|done|lia|lia]. apply field_bound in Hfs; [|done|lia|lia].
  pose proof (field_bound image header 40 ms Himage Hh ltac:(lia) Hms) as Hmb. destruct (field_flags _ _ _ Hh Hms) as [pf ->].
  destruct (ms =? 0) eqn:Hz; [done|]. unfold guard_err. destruct (ms <? fs) eqn:Hsz; [done|]. cbv beta iota delta [mbind M_bind result_bind lift mret M_ret].
  unfold checked_add. destruct (U64_MAX <? va + ms) eqn:Hov.
  { destruct (va + ms <=? U64_MAX) eqn:Hov'; [lia|]. done. }
  destruct (va + ms <=? U64_MAX) eqn:Hov'; [|lia]. cbn [ok_or]. destruct (_ || _) eqn:Hreg; [done|].
  destruct (get_range image offset fs) as [source|e|] eqn:Hsrc; [|done..].
  pose proof (get_range_ok image offset fs source ltac:(lia) ltac:(lia) Hsrc) as Hlen. pose proof Hregion as [Hr1 Hr2].
  unfold usize_add. change USER_REGION_END with 35185445830656 in Hr2. unfold PAGE_SIZE in *.
  destruct (va + ms + 4096 <=? U64_MAX) eqn:Hov2; [|unfold U64_MAX in *; lia].
  set (sg := {| sg_flags := pf; sg_va := va; sg_size := ms; sg_source := source |}).
  assert (Hsg : segment_in region_start region_end sg) by (split; unfold sg_end; cbn; lia).
  change (page_count (page_at va) (page_up (va + ms))) with (page_count (page_at (sg_va sg)) (page_up (sg_end sg))).
  destruct (segment_pages sg Hsg) as [Hpf Hpg].
  pose proof (map_pages_view (page_count (page_at (sg_va sg)) (page_up (sg_end sg))) st lvl (touched segs) _ (page_at (sg_va sg)) Hv ltac:(intros i Hi; by apply Hpg)) as Hmap.
  change (page_at va) with (page_at (sg_va sg)).
  destruct (map_pages _ space _ st) as [[u|e|] st1]; [| |done]; [|by destruct Hmap as [-> ?]].
  destruct Hmap as [lvl' Hv1].
  assert (Hv1' : view st1 lvl' (staged (touched (segs ++ [sg]))) (segment_bytes segs)).
  { eapply view_ext; [|done|exact Hv1]. intros p _. unfold staged. by rewrite touched_app, Hpf. }
  destruct (fill_view st1 lvl' _ _ sg Hv1') as (st2 & st3 & Hw1 & Hw2 & Hv3).
  - cbn. lia.
  - intros a Ha. pose proof (touches_byte sg a Ha) as Ht. rewrite touched_app, Ht, orb_true_r. split; [|done].
    apply (touches_user region_start region_end sg); [done|done|done|]. by apply page_at_bounds.
  - cbn [sg_va sg_source sg_size sg] in Hw1, Hw2. rewrite Hlen, Z2Nat.id in Hw2 by lia. rewrite Hw1, Hw2. cbn.
    split; [done|]. split; [done|]. exists lvl'. unfold segment_bytes. by rewrite fold_left_app.
Qed.

(** A run of the loader against what the headers say: only a page that cannot be had
    may end it otherwise, and nothing outside the space changes either way. *)
Definition agrees {A B} (want : result ElfError A) (out : result ElfError B * Loader) (P : A -> B -> Loader -> Prop) : Prop :=
  (exists lvl, untouched (snd out) lvl) /\
  match want, fst out with
  | Ok a, Ok b => P a b (snd out)
  | _, Err Mapping => True
  | Err e, Err e' => e' = e
  | Panic, Panic => True
  | _, _ => False
  end.

Lemma segments_end_cons h sg segs : segments_end h (sg :: segs) = segments_end (Z.max h (page_up (sg_end sg))) segs.
Proof. done. Qed.

Lemma load_segments_view offset size n : 0 <= offset -> 0 <= size -> forall index st lvl segs highest, 0 <= index ->
  view st lvl (staged (touched segs)) (segment_bytes segs) ->
  agrees (read_segments image region_start region_end n index offset size)
    (load_segments n index space image region_start region_end offset size highest st)
    (fun new h st' => Forall (segment_in region_start region_end) new /\ h = segments_end highest new /\
       exists lvl', view st' lvl' (staged (touched (segs ++ new))) (segment_bytes (segs ++ new))).
Proof.
  intros Hoff Hsz. induction n as [|n IH]; intros index st lvl segs highest Hi Hv; cbn [read_segments load_segments].
  { split; [exists lvl; apply Hv|]. cbn. split; [done|]. split; [done|]. exists lvl. by rewrite app_nil_r. }
  cbv beta iota delta [mbind M_bind result_bind lift]. unfold header_at, checked_add.
  destruct (offset + index * size <=? U64_MAX); cbn [ok_or]; [|split; [exists lvl; apply Hv|done]].
  pose proof (load_segment_view st lvl segs (offset + index * size) highest ltac:(nia) Hv) as Hseg.
  destruct (read_segment image region_start region_end (offset + index * size)) as [[sg|]|e|];
    destruct (load_segment space image region_start region_end (offset + index * size) highest st) as [[h|e'|] st1]; try done.
  - destruct Hseg as (Hin & -> & lvl1 & Hv1). destruct (IH (index + 1) st1 lvl1 (segs ++ [sg]) (Z.max highest (page_up (sg_end sg))) ltac:(lia) Hv1) as [Hun Hag].
    split; [done|]. destruct (read_segments image region_start region_end n (index + 1) offset size) as [new|e|];
      destruct (load_segments _ _ _ _ _ _ _ _ _ _) as [[h'|e'|] st2]; cbn [fst snd] in *; try done.
    destruct Hag as (Hall & -> & lvl2 & Hv2). split; [by constructor|]. split; [done|]. exists lvl2.
    by rewrite <- app_assoc in Hv2.
  - destruct e'; [done..|]. destruct Hseg as (_ & Hun). split; [done|]. by destruct (read_segments _ _ _ _ _ _ _).
  - destruct Hseg as [-> ->]. destruct (IH (index + 1) st lvl segs highest ltac:(lia) Hv) as [Hun Hag].
    split; [done|]. destruct (read_segments image region_start region_end n (index + 1) offset size) as [new|e|]; done.
  - destruct Hseg as [-> ->]. split; [exists lvl; apply Hv|]. by destruct e.
  - cbn in Hseg. subst st1. split; [exists lvl; apply Hv|done].
Qed.

(** ** The second loop *)

Definition refine_flags (sg : Segment) (fl : Z -> option Z) (p : Z) : option Z :=
  if touches sg p then Some (final_flags (sg_flags sg)) else fl p.

Lemma final_flags_bits p : has (final_flags p) PRESENT = true /\ has (final_flags p) HUGE_PAGE = false.
Proof. unfold final_flags. by destruct (negb _), (_ =? 0). Qed.

Lemma protect_pages_view new n : has new PRESENT = true -> has new HUGE_PAGE = false -> forall st lvl fl c address,
  view st lvl fl c -> (forall i, 0 <= i < Z.of_nat n -> user_page (address + i * 4096) /\ fl (address + i * 4096) <> None) ->
  exists st', protect_pages n space address new st = (Ok tt, st') /\
    view st' lvl (fun p => if pages_from address n p then Some new else fl p) c.
Proof.
  intros Hp Hh. induction n as [|n IH]; intros st lvl fl c address Hv Hpg; cbn [protect_pages].
  { exists st. split; [done|]. eapply view_ext; [|done|exact Hv]. intros p _. unfold pages_from. destruct (_ && _) eqn:Hc; [lia|done]. }
  destruct (Hpg 0 ltac:(lia)) as [Hpg0 Hmapped]. rewrite Z.mul_0_l, Z.add_0_r in Hpg0, Hmapped. rewrite (proj2 Hpg0).
  destruct (protect_page_view space st0 lvl0 Hroot st lvl fl c address new Hv Hpg0 Hmapped Hp Hh) as (st1 & Hrun & Hv1).
  cbv beta iota delta [mbind M_bind]. rewrite Hrun.
  destruct (IH st1 lvl _ c (address + PAGE_SIZE) Hv1) as (st2 & -> & Hv2).
  { intros i Hi. unfold PAGE_SIZE. replace (address + 4096 + i * 4096) with (address + (i + 1) * 4096) by lia.
    destruct (Hpg (i + 1) ltac:(lia)) as [Hu Hm]. split; [done|]. by case_decide. }
  exists st2. split; [done|]. eapply view_ext; [|done|exact Hv2]. intros p [_ Hpa%page_aligned]. destruct Hpg0 as [_ Ha%page_aligned].
  unfold pages_from, PAGE_SIZE. cbv beta. case_decide as Hd.
  - subst p. destruct (_ && _) eqn:Hc; destruct ((address <=? address) && _) eqn:Hc'; try done; lia.
  - destruct ((address + 4096 <=? p) && _) eqn:Hc; destruct ((address <=? p) && _) eqn:Hc'; try done; Z.div_mod_to_equations; lia.
Qed.

Lemma protect_segment_view st lvl fl c header found : 0 <= header -> view st lvl fl c ->
  read_segment image region_start region_end header = Ok found ->
  match found with
  | None => protect_segment space image header st = (Ok tt, st)
  | Some sg => segment_in region_start region_end sg -> (forall p, user_page p -> touches sg p = true -> fl p <> None) ->
      exists st', protect_segment space image header st = (Ok tt, st') /\ view st' lvl (refine_flags sg fl) c
  end.
Proof.
  intros Hh Hv. unfold read_segment, protect_segment. cbv beta iota delta [mbind M_bind result_bind lift].
  destruct (read_u32 image header) as [kind|e|]; [|done..]. destruct (negb (kind =? PT_LOAD)); [by intros [= <-]|].
  cbv beta iota delta [mbind M_bind result_bind lift].
  destruct (field read_u64 image header 8) as [offset|e|]; [|done..].
  destruct (field read_u64 image header 16) as [va|e|]; [|done..].
  destruct (field read_u64 image header 32) as [fs|e|]; [|done..].
  destruct (field read_u64 image header 40) as [ms|e|] eqn:Hms; [|done..].
  destruct (field_flags _ _ _ Hh Hms) as [pf ->].
  destruct (ms =? 0); [by intros [= <-]|]. destruct (ms <? fs); [done|]. destruct (U64_MAX <? va + ms) eqn:Hov; [done|].
  destruct (_ || _) eqn:Hreg; [done|]. destruct (get_range image offset fs) as [source|e|]; [|done..]. intros [= <-] Hsg Hmapped.
  unfold usize_add. destruct (va + ms <=? U64_MAX) eqn:Hov'; [|lia]. pose proof Hregion as [Hr1 Hr2].
  change USER_REGION_END with 35185445830656 in Hr2. unfold PAGE_SIZE in *.
  destruct (va + ms + 4096 <=? U64_MAX) eqn:Hov2; [|unfold U64_MAX in *; lia].
  set (sg := {| sg_flags := pf; sg_va := va; sg_size := ms; sg_source := source |}) in *.
  change (page_count (page_at va) (page_up (va + ms))) with (page_count (page_at (sg_va sg)) (page_up (sg_end sg))).
  destruct (segment_pages sg Hsg) as [Hpf Hpg]. destruct (final_flags_bits pf) as [Hp1 Hp2].
  destruct (protect_pages_view (final_flags pf) (page_count (page_at (sg_va sg)) (page_up (sg_end sg))) Hp1 Hp2 st lvl fl c (page_at (sg_va sg)) Hv) as (st1 & Hrun & Hv1).
  - intros i Hi. destruct (Hpg i Hi) as [Hu Ht]. auto.
  - exists st1. split; [exact Hrun|]. eapply view_ext; [|done|exact Hv1]. intros p _. unfold refine_flags. by rewrite Hpf.
Qed.

Lemma refine_flags_all sg fl p : refine_flags sg fl p <> None \/ refine_flags sg fl p = fl p.
Proof. unfold refine_flags. destruct (touches sg p); [by left|by right]. Qed.

Lemma protect_segments_view offset size n : 0 <= offset -> 0 <= size -> forall index st lvl fl c new, 0 <= index ->
  read_segments image region_start region_end n index offset size = Ok new -> view st lvl fl c ->
  Forall (segment_in region_start region_end) new ->
  (forall sg p, sg ∈ new -> user_page p -> touches sg p = true -> fl p <> None) ->
  exists st', protect_segments n index space image offset size st = (Ok tt, st') /\
    view st' lvl (fold_left (fun fl sg => refine_flags sg fl) new fl) c.
Proof.
  intros Hoff Hsz. induction n as [|n IH]; intros index st lvl fl c new Hi; cbn [read_segments protect_segments].
  { intros [= <-] Hv _ _. by exists st. }
  cbv beta iota delta [mbind M_bind result_bind lift]. unfold header_at, checked_add, usize_add.
  destruct (offset + index * size <=? U64_MAX); cbn [ok_or]; [|done].
  destruct (read_segment image region_start region_end (offset + index * size)) as [found|e|] eqn:Hfound; [|done..].
  destruct (read_segments image region_start region_end n (index + 1) offset size) as [rest|e|] eqn:Hrest; [|done..].
  intros [= <-] Hv Hall Hmapped. pose proof (protect_segment_view st lvl fl c (offset + index * size) found ltac:(nia) Hv Hfound) as Hone.
  destruct found as [sg|].
  - inversion Hall as [|? ? Hsg Hall']; subst. destruct (Hone Hsg) as (st1 & -> & Hv1).
    { intros p Hp Ht. apply (Hmapped sg); [by left|done|done]. }
    destruct (IH (index + 1) st1 lvl _ c rest ltac:(lia) Hrest Hv1 Hall') as (st2 & -> & Hv2); [|by exists st2].
    intros sg' p Hin Hp Ht. destruct (refine_flags_all sg fl p) as [Hne| ->]; [done|]. apply (Hmapped sg'); [by right|done|done].
  - rewrite Hone. by apply (IH (index + 1) st lvl fl c rest ltac:(lia)).
Qed.

Lemma fold_refine segs fl p : fold_left (fun fl sg => refine_flags sg fl) segs fl p =
  fold_left (fun o sg => if touches sg p then Some (final_flags (sg_flags sg)) else o) segs (fl p).
Proof. revert fl. induction segs as [|sg segs IH]; intros fl; [done|]. cbn [fold_left]. by rewrite IH. Qed.

(** Once every page was staged, the last segment over it decides. *)
Lemma fold_staged segs p : fold_left (fun fl sg => refine_flags sg fl) segs (staged (touched segs)) p = segment_flags segs p.
Proof.
  rewrite fold_refine. unfold segment_flags, staged. destruct (touched segs p) eqn:Ht; [|done].
  assert (Hany : forall o, touched segs p = true ->
    fold_left (fun o sg => if touches sg p then Some (final_flags (sg_flags sg)) else o) segs o =
    fold_left (fun o sg => if touches sg p then Some (final_flags (sg_flags sg)) else o) segs None); [|by apply Hany].
  clear Ht. induction segs as [|sg segs IH]; intros o; [done|]. cbn [touched existsb fold_left]. destruct (touches sg p) eqn:Hs; [done|].
  intros Ht. by apply IH.
Qed.

(** ** The whole loader *)

Context (Hok : spaces_ok (ld_paging st0) lvl0) (Hempty : forall page, user_page page -> page_of (ld_paging st0) space page = None).

Lemma initial_untouched : untouched st0 lvl0.
Proof. by split. Qed.

Lemma initial_view : view st0 lvl0 (staged (touched [])) (segment_bytes []).
Proof.
  split; [apply initial_untouched|..].
  - intros page Hp. by rewrite Hempty.
  - intros page Hp Hx. by destruct (Hx (Hempty page Hp)).
  - intros page f x Hp. by rewrite Hempty.
  - intros page page' f x x' Hp _. by rewrite Hempty.
  - done.
Qed.

Lemma touched_elem segs sg p : sg ∈ segs -> touches sg p = true -> touched segs p = true.
Proof. intros Hin Ht. apply existsb_exists. exists sg. split; [by apply list_elem_of_In|done]. Qed.

Lemma load_view :
  agrees (read_image image region_start region_end) (load space image region_start region_end st0)
    (fun '(entry, segs) img st' => img = {| li_entry := entry; li_end := segments_end region_start segs |} /\
       Forall (segment_in region_start region_end) segs /\ exists lvl', view st' lvl' (segment_flags segs) (segment_bytes segs)).
Proof.
  assert (Hsame : exists lvl, untouched st0 lvl) by (exists lvl0; apply initial_untouched).
  unfold read_image, load, check, guard_err. cbv beta iota delta [mbind M_bind result_bind lift mret M_ret].
  destruct (negb _); [done|]. destruct (_ || _); [done|].
  destruct (read_u16 image 18) as [machine|e|] eqn:H18; [|by split; [|destruct e]|done]. destruct (negb _); [done|].
  destruct (read_u64 image 24) as [entry|e|]; [|by split; [|destruct e]|done].
  destruct (read_u64 image 32) as [offset|e|] eqn:H32; [|by split; [|destruct e]|done]. apply read_u64_bound in H32; [|done|lia].
  destruct (read_u16 image 54) as [size|e|] eqn:H54; [|by split; [|destruct e]|done]. apply read_u16_bound in H54; [|done|lia].
  destruct (read_u16 image 56) as [count|e|]; [|by split; [|destruct e]|done]. destruct (size <? 56); [done|].
  destruct (load_segments_view offset size (Z.to_nat count) ltac:(lia) ltac:(lia) 0 st0 lvl0 [] region_start ltac:(lia) initial_view) as [Hun Hag].
  destruct (load_segments _ _ _ _ _ _ _ _ _ _) as [[h|e'|] st1]; cbn [fst snd] in Hun, Hag.
  2:{ split; [done|]. cbn [fst snd]. destruct (read_segments _ _ _ _ _ _ _) as [segs|e|]; [|by destruct e'|by destruct e'].
      destruct e'; [done..|]. by destruct (_ || _). }
  2:{ split; [done|]. by destruct (read_segments _ _ _ _ _ _ _). }
  destruct (read_segments _ _ _ _ _ _ _) as [segs|e|] eqn:Hsegs; [|done..].
  destruct Hag as (Hall & -> & lvl1 & Hv1). cbn [app] in Hv1.
  destruct (protect_segments_view offset size (Z.to_nat count) ltac:(lia) ltac:(lia) 0 st1 lvl1 _ _ segs ltac:(lia) Hsegs Hv1 Hall) as (st2 & -> & Hv2).
  { intros sg p Hin Hp Ht. unfold staged. by rewrite (touched_elem segs sg). }
  assert (Hv3 : view st2 lvl1 (segment_flags segs) (segment_bytes segs)) by (eapply view_ext; [|done|exact Hv2]; intros p _; apply fold_staged).
  assert (Hun2 : exists lvl, untouched st2 lvl) by (exists lvl1; apply Hv3).
  destruct (_ || _); [done|]. split; [done|]. cbn [fst snd]. eauto.
Qed.
End Load.

Lemma segments_end_bound region_start region_end h segs : Forall (segment_in region_start region_end) segs ->
  h <= page_up region_end -> h <= segments_end h segs <= page_up region_end.
Proof.
  intros Hall. revert h. induction Hall as [|sg segs Hsg Hall IH]; intros h Hh; [by cbn|]. rewrite segments_end_cons.
  assert (page_up (sg_end sg) <= page_up region_end).
  { pose proof (si_end _ _ _ Hsg). pose proof (page_up_bounds (sg_end sg)). pose proof (page_up_bounds region_end). Z.div_mod_to_equations. lia. }
  pose proof (IH (Z.max h (page_up (sg_end sg))) ltac:(lia)). lia.
Qed.

Lemma read_image_entry image region_start region_end entry segs : read_image image region_start region_end = Ok (entry, segs) ->
  region_start <= entry < segments_end region_start segs.
Proof.
  unfold read_image, check. cbv beta iota delta [mbind result_bind].
  repeat (destruct (negb _) || destruct (_ && _) || destruct (_ <? 56) || destruct (read_u16 _ _) || destruct (read_u64 _ _)); try done;
    (destruct (_ || _); [done|]); try done;
    repeat (destruct (negb _) || destruct (_ <? 56) || destruct (read_u16 _ _) || destruct (read_u64 _ _)); try done;
    (destruct (read_segments _ _ _ _ _ _ _); [|done..]); (destruct (_ || _) eqn:Hc; [done|]); intros [= <- <-]; lia.
Qed.

(** ** Offsets that overflow *)

(** A program header, named by the file, whose kind cannot be read without running off the
    address space, or one whose segment's bytes would end past it: the sums the loader does
    not check. *)
Definition overflows (image : list Z) : Prop := exists offset size count i header,
  read_u64 image 32 = Ok offset /\ read_u16 image 54 = Ok size /\ read_u16 image 56 = Ok count /\
  0 <= i < count /\ header = offset + i * size /\
  (U64_MAX < header + 4 \/
   exists file_offset file_size, field read_u64 image header 8 = Ok file_offset /\ field read_u64 image header 32 = Ok file_size /\
     U64_MAX < file_offset + file_size).

Lemma get_range_panic image offset n : get_range image offset n = Panic -> U64_MAX < offset + n.
Proof. unfold get_range, usize_add. destruct (_ <=? U64_MAX) eqn:Ho; cbn [mbind result_bind]; [by destruct (_ <=? Z.of_nat _)|lia]. Qed.

Lemma read_u32_cases image offset : read_u32 image offset = Panic /\ U64_MAX < offset + 4 \/ (exists e, read_u32 image offset = Err e) \/
  (exists v, read_u32 image offset = Ok v) /\ offset + 4 <= Z.of_nat (length image).
Proof.
  unfold read_u32, get_range, usize_add. destruct (_ <=? U64_MAX) eqn:Ho; cbn [mbind result_bind]; [|left; split; [done|lia]].
  destruct (_ <=? Z.of_nat _) eqn:Hl; cbn [mbind result_bind]; [|eauto]. right. right. split; [eauto|lia].
Qed.

Lemma field_panic image header k (read : list Z -> Z -> result ElfError Z) n : (forall at_, read image at_ = Panic -> U64_MAX < at_ + n) ->
  field read image header k = Panic -> U64_MAX < header + k \/ U64_MAX < header + k + n.
Proof. intros Hr. unfold field, usize_add. destruct (_ <=? U64_MAX) eqn:Ho; cbn [mbind result_bind]; [intros Hp%Hr; by right|lia]. Qed.

Lemma read_u64_panic image at_ : read_u64 image at_ = Panic -> U64_MAX < at_ + 8.
Proof. unfold read_u64. cbn. destruct (get_range image at_ 8) eqn:Hg; cbn; [done..|]. intros _. by apply get_range_panic in Hg. Qed.

Lemma read_u32_panic image at_ : read_u32 image at_ = Panic -> U64_MAX < at_ + 4.
Proof. unfold read_u32. cbn. destruct (get_range image at_ 4) eqn:Hg; cbn; [done..|]. intros _. by apply get_range_panic in Hg. Qed.

Lemma read_segment_panic image region_start region_end header : Z.of_nat (length image) < 2 ^ 63 ->
  read_segment image region_start region_end header = Panic -> U64_MAX < header + 4 \/
  exists file_offset file_size, field read_u64 image header 8 = Ok file_offset /\ field read_u64 image header 32 = Ok file_size /\ U64_MAX < file_offset + file_size.
Proof.
  intros Hlen. unfold read_segment. destruct (read_u32_cases image header) as [[-> Ho]|[[e ->]|[[v ->] Hin]]]; [by left|done|]. cbn [mbind result_bind].
  destruct (negb _); [done|]. unfold U64_MAX in *.
  destruct (field read_u64 image header 8) as [fo| |] eqn:Hfo; [|done|apply (field_panic _ _ _ _ 8 (read_u64_panic image)) in Hfo; unfold U64_MAX in Hfo; lia]. cbn [mbind result_bind].
  destruct (field read_u64 image header 16) as [va| |] eqn:Hva; [|done|apply (field_panic _ _ _ _ 8 (read_u64_panic image)) in Hva; unfold U64_MAX in Hva; lia]. cbn [mbind result_bind].
  destruct (field read_u64 image header 32) as [fsz| |] eqn:Hfs; [|done|apply (field_panic _ _ _ _ 8 (read_u64_panic image)) in Hfs; unfold U64_MAX in Hfs; lia]. cbn [mbind result_bind].
  destruct (field read_u64 image header 40) as [ms| |] eqn:Hms; [|done|apply (field_panic _ _ _ _ 8 (read_u64_panic image)) in Hms; unfold U64_MAX in Hms; lia]. cbn [mbind result_bind].
  destruct (ms =? 0); [done|]. destruct (ms <? fsz); [done|]. destruct (_ <? va + ms); [done|]. destruct (_ || _); [done|].
  destruct (get_range image fo fsz) as [src| |] eqn:Hg; cbn [mbind result_bind]; [|done|intros _; right; exists fo, fsz; apply get_range_panic in Hg; by unfold U64_MAX in Hg].
  destruct (field read_u32 image header 4) as [fl| |] eqn:Hfl; [done|done|apply (field_panic _ _ _ _ 4 (read_u32_panic image)) in Hfl; unfold U64_MAX in Hfl; lia].
Qed.

Lemma read_segments_panic image region_start region_end n : Z.of_nat (length image) < 2 ^ 63 -> forall index offset size,
  read_segments image region_start region_end n index offset size = Panic -> exists i header, index <= i < index + Z.of_nat n /\ header = offset + i * size /\
  (U64_MAX < header + 4 \/
   exists file_offset file_size, field read_u64 image header 8 = Ok file_offset /\ field read_u64 image header 32 = Ok file_size /\ U64_MAX < file_offset + file_size).
Proof.
  intros Hlen. induction n as [|n IH]; intros index offset size; [done|]. cbn [read_segments]. unfold header_at, checked_add.
  destruct (_ <=? U64_MAX); [|done]. cbn [ok_or mbind result_bind].
  destruct (read_segment image region_start region_end (offset + index * size)) as [found| |] eqn:Hs; cbn [mbind result_bind]; [|done|].
  - destruct (read_segments image region_start region_end n (index + 1) offset size) eqn:Hr; cbn [mbind result_bind]; [done|done|]. intros _.
    destruct (IH _ _ _ Hr) as (i & header & Hi & Hh & Hc). exists i, header. split; [lia|done].
  - intros _. exists index, (offset + index * size). split; [lia|]. split; [done|]. by eapply read_segment_panic.
Qed.

Lemma read_fixed_total image k : 0 <= k < 64 -> read_u16 image k <> Panic /\ read_u64 image k <> Panic.
Proof.
  intros Hk. split; [|intros Hp%read_u64_panic; unfold U64_MAX in Hp; lia]. unfold read_u16. cbn. destruct (get_range image k 2) eqn:Hg; cbn; [done..|].
  apply get_range_panic in Hg. unfold U64_MAX in Hg. lia.
Qed.

(** The only panics the headers can cause. *)
Lemma read_image_panic image region_start region_end : Z.of_nat (length image) < 2 ^ 63 -> Forall is_byte image ->
  read_image image region_start region_end = Panic -> overflows image.
Proof.
  intros Hlen Hb. unfold read_image, check. destruct (negb (bool_decide (take 4 image = ELF_MAGIC))); cbn [mbind result_bind]; [done|].
  destruct (_ || _); cbn [mbind result_bind]; [done|].
  destruct (read_u16 image 18) eqn:E1; cbn [mbind result_bind]; [|done|by destruct (read_fixed_total image 18)].
  destruct (negb _); cbn [mbind result_bind]; [done|].
  destruct (read_u64 image 24) eqn:E2; cbn [mbind result_bind]; [|done|by destruct (read_fixed_total image 24)].
  destruct (read_u64 image 32) as [offset| |] eqn:E3; cbn [mbind result_bind]; [|done|by destruct (read_fixed_total image 32)].
  destruct (read_u16 image 54) as [size| |] eqn:E4; cbn [mbind result_bind]; [|done|by destruct (read_fixed_total image 54)].
  destruct (read_u16 image 56) as [count| |] eqn:E5; cbn [mbind result_bind]; [|done|by destruct (read_fixed_total image 56)].
  destruct (size <? 56); cbn [mbind result_bind]; [done|].
  destruct (read_segments _ _ _ _ _ _ _) eqn:Hs; cbn [mbind result_bind]; [by destruct (_ || _); cbn [mbind result_bind]|done|]. intros _.
  apply read_segments_panic in Hs as (i & header & Hi & Hh & Hc); [|done]. exists offset, size, count, i, header. split_and!; try done; lia.
Qed.


Module ElfRuns.
Import PagingRuns.

(** A space with nothing in the user region, loaded: the kernel's tables in frames 1 to
    4, the level 4 table of the new space in 5, ten frames free. *)
Definition fresh_tables : memory := list_to_map [
  (frame_at 1, row [(0%nat, entry (frame_at 2) rwu)]);
  (frame_at 2, row [(0%nat, entry (frame_at 3) rwu)]);
  (frame_at 3, row [(0%nat, entry (frame_at 4) rwu)]);
  (frame_at 4, row [(7%nat, entry 0x10_0000 rw)]);
  (frame_at 5, row [(0%nat, entry (frame_at 2) rwu)])].

Definition fresh_levels : levels := list_to_map [
  (frame_at 1, 4); (frame_at 2, 3); (frame_at 3, 2); (frame_at 4, 1); (frame_at 5, 4)]%nat.

Definition fresh : Loader :=
  {| ld_paging := {| tables := fresh_tables;
                     frames := {| bitmap := [63; 0]; total_frames := 16; used_frames := 6; next_hint := 0 |};
                     cr3 := frame_at 5; KERNEL_SPACE := Some (frame_at 1); PHYSICAL_OFFSET := Some 0x18_0000_0000; effects := [] |};
     ld_bytes := ∅ |}.

Lemma fresh_ok : spaces_ok (ld_paging fresh) fresh_levels.
Proof.
  assert (Hok : tables_ok fresh_tables fresh_levels) by (apply tables_okb_sound; vm_compute; reflexivity).
  split.
  - split; [done| |apply tables_usedb_sound; vm_compute; reflexivity|vm_compute; reflexivity|eexists; reflexivity].
    split; [split; vm_compute; discriminate|vm_compute; reflexivity|vm_compute; discriminate].
  - apply separateb_sound. vm_compute. reflexivity.
  - intros root page t Hr _. apply (plainb_sound _ _ Hok); [vm_compute; reflexivity|done].
Qed.

Lemma fresh_empty page : user_page page -> page_of (ld_paging fresh) (frame_at 5) page = None.
Proof.
  intros Hp. unfold page_of, walk. cbn [walk_from]. rewrite (user_page_index page Hp).
  assert (Ht : tables (ld_paging fresh) !! frame_at 5 = Some (row [(0%nat, entry (frame_at 2) rwu)])) by (vm_compute; reflexivity).
  rewrite Ht. cbn [mbind option_bind].
  assert (He : row [(0%nat, entry (frame_at 2) rwu)] !! index 4 USER_BASE = Some UNUSED) by (vm_compute; reflexivity).
  rewrite He. reflexivity.
Qed.

(** A file header for [count] program headers at byte 64. *)
Definition file_header (entry offset count : Z) : list Z :=
  ELF_MAGIC ++ [CLASS_64; DATA_LITTLE_ENDIAN] ++ replicate 12 0 ++ to_le_bytes 2 MACHINE_X86_64 ++ replicate 4 0 ++
  to_le_bytes 8 entry ++ to_le_bytes 8 offset ++ replicate 14 0 ++ to_le_bytes 2 56 ++ to_le_bytes 2 count ++ replicate 6 0.

Definition program_header (flags offset va file_size memory_size : Z) : list Z :=
  to_le_bytes 4 PT_LOAD ++ to_le_bytes 4 flags ++ to_le_bytes 8 offset ++ to_le_bytes 8 va ++ to_le_bytes 8 va ++
  to_le_bytes 8 file_size ++ to_le_bytes 8 memory_size ++ replicate 8 0.

(** Three bytes of code that may be run but not written, then two bytes of data and two
    zeros in the same page, that may be written but not run. *)
Definition image : list Z :=
  file_header USER_BASE 64 2 ++ program_header 5 176 USER_BASE 3 3 ++ program_header 6 179 (USER_BASE + 8) 2 4 ++ [10; 11; 12; 20; 21].

Definition image_segments : list Segment :=
  [{| sg_flags := 5; sg_va := USER_BASE; sg_size := 3; sg_source := [10; 11; 12] |};
   {| sg_flags := 6; sg_va := USER_BASE + 8; sg_size := 4; sg_source := [20; 21] |}].

Lemma image_bytes : Forall is_byte image.
Proof.
  assert (Hb : forallb (fun b => (0 <=? b) && (b <? 256)) image = true) by (vm_compute; reflexivity).
  rewrite forallb_forall in Hb. apply List.Forall_forall. intros b Hin. specialize (Hb b Hin). unfold is_byte. lia.
Qed.

Lemma user_region : in_user_region USER_BASE (USER_BASE + SLOT_SIZE).
Proof. split; vm_compute; discriminate. Qed.

Definition run : result ElfError LoadedImage * Loader := load (frame_at 5) image USER_BASE (USER_BASE + SLOT_SIZE) fresh.


(** The offset of the program headers is added to without a check: an image that names
    the end of the address space stops the kernel instead of being refused. *)
Theorem huge_offset_panics :
  fst (load (frame_at 5) (file_header USER_BASE (U64_MAX - 1) 1) USER_BASE (USER_BASE + SLOT_SIZE) fresh) = Panic.
Proof. vm_compute. reflexivity. Qed.

End ElfRuns.
