(* ===== verification/UserLoad.v ===== *)
(** * Starting and ending a user program (kernel/src/userspace.rs)

    Claiming a slot, building the address space, loading the image, mapping the stack
    and the parameter page; and giving everything back when the thread exits. *)

From stdpp Require Import base list gmap numbers list_numbers.
From Stdlib Require Import Lia ZifyBool.
From S2P Require Import Prelude Frame Paging PagingInv PagingSplit PagingUnmap PagingSpace PagingMap PagingRef PagingRuns Userspace Elf ElfSpec ElfTheorems.

Inductive LoadError : Type :=
| NoFreeSlot
| TooLarge
| LoadMapping (e : MapError)
| LoadElf (e : ElfError).

Record UserImage : Type := { ui_entry : Z; ui_stack_top : Z; ui_data : Z }.

(** The machine's memory, the slots, and the space of each thread there is. *)
Record User : Type := { us_loader : Loader; us_slots : Slots; us_threads : gmap nat (option Z) }.

Abbreviation U A := (M User LoadError A).

Definition on_loader {E A} (f : E -> LoadError) (m : M Loader E A) : U A := fun st =>
  match m (us_loader st) with
  | (r, l) => (match r with Ok a => Ok a | Err e => Err (f e) | Panic => Panic end,
               {| us_loader := l; us_slots := us_slots st; us_threads := us_threads st |})
  end.

Definition in_paging {E A} (f : E -> LoadError) (m : M Paging E A) : U A := fun st =>
  match m (ld_paging (us_loader st)) with
  | (r, s) => (match r with Ok a => Ok a | Err e => Err (f e) | Panic => Panic end,
               {| us_loader := {| ld_paging := s; ld_bytes := ld_bytes (us_loader st) |}; us_slots := us_slots st; us_threads := us_threads st |})
  end.

Definition on_slots {A} (f : Slots -> A * Slots) : U A := fun st =>
  let '(a, sl) := f (us_slots st) in (Ok a, {| us_loader := us_loader st; us_slots := sl; us_threads := us_threads st |}).

(** A thread that no longer exists has no space to set or take. *)
Definition set_address_space (id : nat) (space : Z) : U unit := fun st =>
  (Ok tt, {| us_loader := us_loader st; us_slots := us_slots st; us_threads := alter (fun _ => Some space) id (us_threads st) |}).
Definition take_address_space (id : nat) : U (option Z) := fun st =>
  (Ok (default None (us_threads st !! id)), {| us_loader := us_loader st; us_slots := us_slots st; us_threads := alter (fun _ => None) id (us_threads st) |}).
Definition address_space_of (id : nat) (st : User) : option Z := default None (us_threads st !! id).

Section Programs.
Context `{Mapper}.

(** For operations that report no error of their own. *)
Definition quiet (e : MapError) : LoadError := LoadMapping e.

Definition user_rw : Z := staging.
Definition user_data : Z := Z.lor user_rw (bit NO_EXECUTE).
Definition user_ro : Z := Z.lor (bit PRESENT) (bit USER_ACCESSIBLE).

(** [for index in 0..STACK_PAGES] *)
Fixpoint map_stack (n : nat) (space address : Z) : U unit :=
  match n with
  | O => mret tt
  | S n' => _ ← in_paging LoadMapping (map_in space (page_at address) user_data); map_stack n' space (address + PAGE_SIZE)
  end.

(** [claim_slot], [new_user], [set_address_space] and [activate], as both loaders do. *)
Definition enter_new_space (owner : nat) : U (Z * Z) :=
  slot ← on_slots (claim_slot owner);
  match slot with
  | None => fail NoFreeSlot
  | Some slot =>
      space ← in_paging quiet new_user;
      match space with
      | None => fail NoFreeSlot
      | Some space =>
          set_address_space owner space ;;
          in_paging quiet (activate space) ;;
          mret (slot, space)
      end
  end.

Definition load_elf (owner : nat) (image : list Z) : U UserImage :=
  '(_, space) ← enter_new_space owner;
  loaded ← on_loader LoadElf (load space image USER_BASE (USER_BASE + SLOT_SIZE));
  let stack_bottom := li_end loaded + PAGE_SIZE in
  map_stack STACK_PAGES space stack_bottom ;;
  let data := stack_bottom + Z.of_nat STACK_PAGES * PAGE_SIZE in
  _ ← in_paging LoadMapping (map_in space (page_at data) user_data);
  mret {| ui_entry := li_entry loaded; ui_stack_top := stack_bottom + Z.of_nat STACK_PAGES * PAGE_SIZE; ui_data := data |}.

Definition load_program (owner : nat) (code : list Z) : U UserImage :=
  guard_err (PAGE_SIZE <? Z.of_nat (length code)) TooLarge ;;
  '(slot, space) ← enter_new_space owner;
  let base := slot_base slot in
  let code_page := page_at (base + CODE_OFFSET) in
  let data_page := page_at (base + DATA_OFFSET) in
  _ ← in_paging LoadMapping (map_in space code_page user_rw);
  _ ← in_paging LoadMapping (map_in space data_page user_data);
  map_stack STACK_PAGES space (base + STACK_BOTTOM_OFFSET) ;;
  on_loader LoadElf (write_bytes (base + CODE_OFFSET) code) ;;
  on_loader LoadElf (ignored (set_flags code_page user_ro)) ;;
  mret {| ui_entry := base + CODE_OFFSET;
          ui_stack_top := base + STACK_BOTTOM_OFFSET + Z.of_nat STACK_PAGES * PAGE_SIZE;
          ui_data := base + DATA_OFFSET |}.

(** Little-endian words, one after another; more than a page of them panics. *)
Definition write_parameters (data : Z) (values : list Z) : U unit :=
  if PAGE_SIZE <? Z.of_nat (length values) * 8 then panic
  else on_loader LoadElf (write_bytes data (concat (List.map (to_le_bytes 8) values))).

Definition load_probe (owner : nat) (probe : list Z) (mode argument : Z) : U UserImage :=
  image ← load_elf owner probe;
  write_parameters (ui_data image) [mode; argument; argument] ;;
  mret image.

Definition release_slot (owner : nat) : U unit :=
  slot ← on_slots (fun sl => (slot_of owner sl, sl));
  match slot with
  | None => mret tt
  | Some slot =>
      space ← take_address_space owner;
      (match space with
       | None => mret tt
       | Some space =>
           st ← get;
           (if cr3 (ld_paging (us_loader st)) =? space
            then (k ← in_paging quiet kernel_space; in_paging quiet (activate k)) else mret tt) ;;
           in_paging quiet (release space)
       end) ;;
      on_slots (fun sl => (tt, free_slot slot sl))
  end.

End Programs.

(** ** A new space among the others *)

Lemma new_user_spaces {E} s lvl : spaces_ok s lvl ->
  match new_user (E:=E) s with
  | (Ok (Some f), s') => lvl !! f = None /\ spaces_ok s' (<[f := 4%nat]> lvl) /\ same_rest s s' /\
      total_frames (frames s') = total_frames (frames s) /\
      (forall n, 0 <= n -> used_at (frames s) n = true -> used_at (frames s') n = true) /\
      (forall page, user_page page -> page_of s' f page = None) /\
      (forall root page, lvl !! root = Some 4%nat -> page_of s' root page = page_of s root page)
  | (Ok None, s') => s' = s
  | _ => False
  end.
Proof.
  intros [[Hok Hfr Hus Hroot [o Ho]] Hsep Hplain]. unfold new_user, frame_allocate. cbv beta iota delta [mbind M_bind get]. rewrite Ho.
  pose proof (allocate_sound _ Hfr) as Ha. destruct (allocate (frames s)) as [[[f|] a]|?|]; [|..]; [|..|done|done].
  2:{ destruct Ha as (-> & Hfree & _). by destruct s. }
  destruct Ha as (n & -> & Hn & Hfree & Hfr' & _ & Htot & Hg). pose proof (fresh_frame _ _ _ Hus Hn Hfree) as Hnew.
  destruct (to_table _ _ Hok _ _ Hroot) as [_ (t & Ht & Hlen)]. unfold table_at. cbn [tables set_allocator]. rewrite Ht.
  cbn [put_table modify mret M_ret]. set (s' := set_tables _ _).
  assert (Hold : forall root va, lvl !! root = Some 4%nat -> walk (tables s') root va = walk (tables s) root va).
  { intros root va Hr. by apply (clone_agree _ lvl Hok t (frame_at n) Hnew 4). }
  assert (Hgone : forall page, user_page page -> walk (tables s') (frame_at n) page = None).
  { intros page Hp. unfold s'. cbn [tables set_tables set_allocator].
    pose proof (clone_walk (tables s) lvl Hok (cr3 s) t (frame_at n) Hroot Ht Hnew page) as Hw. unfold with_clone in Hw. rewrite Hw.
    rewrite (user_page_index page Hp). reflexivity. }
  assert (Hnext : next (tables s') (frame_at n) USER_BASE = None).
  { unfold next, s'. cbn [tables set_tables set_allocator]. rewrite lookup_insert_eq. cbn [mbind option_bind]. rewrite lookup_clone.
    change (index 4 USER_BASE) with USER_L4_INDEX. rewrite Nat.eqb_refl. by destruct (t !! USER_L4_INDEX). }
  assert (Hkeep : forall root, lvl !! root = Some 4%nat -> tables s' !! root = tables s !! root).
  { intros root Hr. unfold s'. cbn [tables set_tables set_allocator]. rewrite lookup_insert_ne; [done|congruence]. }
  split; [done|]. split; [split|].
  - split; simpl; [by apply (clone_ok _ _ Hok (cr3 s))|done|by eapply tables_used_grow| |eauto].
    rewrite lookup_insert_ne; [done|]. congruence.
  - intros r r' Hr Hr' [->|(c & Hc & Hc')]; [done|]. destruct (decide (r = frame_at n)) as [->|Hne]; [congruence|].
    destruct (decide (r' = frame_at n)) as [->|Hne']; [congruence|]. rewrite lookup_insert_ne in Hr, Hr' by done.
    apply Hsep; [done|done|]. right. exists c. unfold next in *. rewrite Hkeep in Hc by done. rewrite Hkeep in Hc' by done. done.
  - intros root page x Hr Hp Hw. destruct (decide (root = frame_at n)) as [->|Hne]; [by rewrite Hgone in Hw|].
    rewrite lookup_insert_ne in Hr by done. rewrite Hold in Hw by done. by apply (Hplain root page).
  - split_and!; try done.
    + intros m Hm Hu. unfold s'. cbn [frames set_tables set_allocator]. rewrite Hg, Hu by done. apply orb_true_r.
    + intros page Hp. unfold page_of. by rewrite Hgone.
    + intros root page Hr. unfold page_of. by rewrite Hold.
Qed.

(** ** Starting a program *)

Section Start.
Context `{!Mapper, !TranslateLaw, !MapLaw, !UpdateLaw}.

Lemma user_data_bits : has user_data PRESENT = true /\ has user_data HUGE_PAGE = false /\ has user_data WRITABLE = true /\ has user_data USER_ACCESSIBLE = true.
Proof. done. Qed.

(** One page mapped for a user, through the state the program loader threads. *)
Lemma in_paging_view space st0 lvl0 st lvl fl c page flags : lvl0 !! space = Some 4%nat ->
  view space st0 lvl0 (us_loader st) lvl fl c -> user_page page -> has flags PRESENT = true -> has flags HUGE_PAGE = false ->
  has flags WRITABLE = true -> has flags USER_ACCESSIBLE = true ->
  match in_paging LoadMapping (map_in space page flags) st with
  | (r, st') => us_slots st' = us_slots st /\ us_threads st' = us_threads st /\
      match r with
      | Ok _ => exists lvl', view space st0 lvl0 (us_loader st') lvl' (fun p => if decide (p = page) then Some flags else fl p) c
      | Err e => (exists e', e = LoadMapping e') /\ exists lvl', untouched space st0 lvl0 (us_loader st') lvl'
      | Panic => False
      end
  end.
Proof.
  intros H4 Hv Hpg Hp Hh Hw Hu. pose proof (map_page_view space st0 lvl0 H4 (us_loader st) lvl fl c page flags Hv Hpg Hp Hh Hw Hu) as Hm.
  unfold in_paging. destruct (map_in space page flags (ld_paging (us_loader st))) as [[f|e|] s']; [| |done]; cbn [us_slots us_threads us_loader]; eauto.
Qed.

Lemma map_stack_view space st0 lvl0 c n : lvl0 !! space = Some 4%nat -> forall st lvl fl address,
  view space st0 lvl0 (us_loader st) lvl fl c -> (forall i, 0 <= i < Z.of_nat n -> user_page (address + i * 4096)) ->
  match map_stack n space address st with
  | (r, st') => us_slots st' = us_slots st /\ us_threads st' = us_threads st /\
      match r with
      | Ok _ => exists lvl', view space st0 lvl0 (us_loader st') lvl' (fun p => if pages_from address n p then Some user_data else fl p) c
      | Err e => (exists e', e = LoadMapping e') /\ exists lvl', untouched space st0 lvl0 (us_loader st') lvl'
      | Panic => False
      end
  end.
Proof.
  intros H4. induction n as [|n IH]; intros st lvl fl address Hv Hpg; cbn [map_stack].
  { split; [done|]. split; [done|]. exists lvl. eapply view_ext; [|done|exact Hv]. intros p _. unfold pages_from. destruct (_ && _) eqn:Hc; [lia|done]. }
  pose proof (Hpg 0 ltac:(lia)) as Hpg0. rewrite Z.mul_0_l, Z.add_0_r in Hpg0. rewrite (proj2 Hpg0).
  destruct user_data_bits as (Hb1 & Hb2 & Hb3 & Hb4). cbv beta iota delta [mbind M_bind].
  pose proof (in_paging_view space st0 lvl0 st lvl fl c address user_data H4 Hv Hpg0 Hb1 Hb2 Hb3 Hb4) as Hone.
  destruct (in_paging LoadMapping (map_in space address user_data) st) as [[f|e|] st1]; [|done|by destruct Hone as (_ & _ & [])].
  destruct Hone as (Hsl & Hth & lvl1 & Hv1).
  specialize (IH st1 lvl1 _ (address + PAGE_SIZE) Hv1). destruct (map_stack n space (address + PAGE_SIZE) st1) as [r st2].
  destruct IH as (Hsl2 & Hth2 & IH).
  { intros i Hi. unfold PAGE_SIZE. replace (address + 4096 + i * 4096) with (address + (i + 1) * 4096) by lia. apply Hpg. lia. }
  split; [congruence|]. split; [congruence|]. destruct r as [[]|e|]; [|done..]. destruct IH as [lvl2 Hv2]. exists lvl2.
  eapply view_ext; [|done|exact Hv2]. intros p [_ Hpa%page_aligned]. destruct Hpg0 as [_ Ha%page_aligned].
  unfold pages_from, PAGE_SIZE. cbv beta. case_decide as Hd.
  - subst p. destruct (_ && _) eqn:Hc; destruct ((address <=? address) && _) eqn:Hc'; try done; lia.
  - destruct ((address + 4096 <=? p) && _) eqn:Hc; destruct ((address <=? p) && _) eqn:Hc'; try done; Z.div_mod_to_equations; lia.
Qed.

(** A slot, a space of its own with nothing in the user region, loaded. *)
Lemma enter_new_space_sound owner st lvl : spaces_ok (ld_paging (us_loader st)) lvl ->
  match enter_new_space owner st with
  | (Ok (slot, space), st') => lvl !! space = None /\ spaces_ok (ld_paging (us_loader st')) (<[space := 4%nat]> lvl) /\
      cr3 (ld_paging (us_loader st')) = space /\
      total_frames (frames (ld_paging (us_loader st'))) = total_frames (frames (ld_paging (us_loader st))) /\
      (forall n, 0 <= n -> used_at (frames (ld_paging (us_loader st))) n = true -> used_at (frames (ld_paging (us_loader st'))) n = true) /\
      (forall page, user_page page -> page_of (ld_paging (us_loader st')) space page = None) /\
      (forall root page, lvl !! root = Some 4%nat -> page_of (ld_paging (us_loader st')) root page = page_of (ld_paging (us_loader st)) root page) /\
      ld_bytes (us_loader st') = ld_bytes (us_loader st) /\
      claim_slot owner (us_slots st) = (Some slot, us_slots st') /\ us_threads st' = alter (fun _ => Some space) owner (us_threads st)
  | (Err e, st') => e = NoFreeSlot /\ us_loader st' = us_loader st /\ us_threads st' = us_threads st
  | (Panic, _) => False
  end.
Proof.
  intros Hs. unfold enter_new_space, on_slots. cbv beta iota delta [mbind M_bind]. destruct (claim_slot owner (us_slots st)) as [[slot|] sl]; [|done].
  unfold in_paging at 1. cbn [us_loader ld_paging]. pose proof (new_user_spaces (E:=MapError) _ _ Hs) as Hn.
  destruct (new_user (ld_paging (us_loader st))) as [[[f|]|e|] s']; [|..|done|done]; cbn [us_loader us_slots us_threads ld_bytes].
  2:{ subst s'. split; [done|]. split; [|done]. by destruct (us_loader st). }
  destruct Hn as (Hnew & Hs' & (Hcr & Hr2 & Hr3) & Htot & Hused & Hempty & Hold).
  cbv beta iota delta [set_address_space in_paging us_loader us_slots us_threads ld_paging ld_bytes activate mbind M_bind get].
  assert (Hend : spaces_ok (set_cr3 s' f) (<[f := 4%nat]> lvl)).
  { destruct Hs' as [[Hp1 Hp2 Hp3 Hp4 Hp5] Hsep Hpl]. split; [|done|done]. split; try done. cbn. by rewrite lookup_insert_eq. }
  destruct (cr3 s' =? f) eqn:Hc.
  - apply Z.eqb_eq in Hc. destruct Hs as [[_ _ _ Hroot _] _ _]. congruence.
  - cbn [modify mret M_ret us_loader ld_paging]. done.
Qed.

Lemma segment_flags_above segs h page : segments_end h segs <= page -> segment_flags segs page = None.
Proof.
  revert h. unfold segment_flags. induction segs as [|sg segs IH]; intros h Hp; [done|]. rewrite segments_end_cons in Hp. cbn [fold_left].
  assert (Hmono : forall l k, k <= segments_end k l).
  { intros l. induction l as [|x l IHl]; intros k; [done|]. rewrite segments_end_cons. specialize (IHl (Z.max k (page_up (sg_end x)))). lia. }
  assert (touches sg page = false) as ->.
  { unfold touches. pose proof (Hmono segs (Z.max h (page_up (sg_end sg)))). apply andb_false_iff. right. lia. }
  by apply (IH (Z.max h (page_up (sg_end sg)))).
Qed.

Lemma segments_end_aligned h segs : h mod 4096 = 0 -> segments_end h segs mod 4096 = 0.
Proof.
  revert h. induction segs as [|sg segs IH]; intros h Hh; [done|]. rewrite segments_end_cons. apply IH.
  destruct (page_up_bounds (sg_end sg)) as [_ Hu]. destruct (Z.max_spec h (page_up (sg_end sg))) as [[_ ->]|[_ ->]]; done.
Qed.

(** What every way of starting a program leaves alone: the other spaces, and the bytes of
    frames in use. *)
Definition others_kept (lvl : levels) (st st' : User) : Prop :=
  (forall root page, lvl !! root = Some 4%nat -> user_page page ->
     page_of (ld_paging (us_loader st')) root page = page_of (ld_paging (us_loader st)) root page) /\
  (forall pa, 0 <= pa -> used_at (frames (ld_paging (us_loader st))) (pa / 4096) = true ->
     ld_bytes (us_loader st') !! pa = ld_bytes (us_loader st) !! pa).

Lemma others_kept_from st st1 st' lvl lvl' space : lvl !! space = None ->
  (forall n, 0 <= n -> used_at (frames (ld_paging (us_loader st))) n = true -> used_at (frames (ld_paging (us_loader st1))) n = true) ->
  (forall root page, lvl !! root = Some 4%nat -> page_of (ld_paging (us_loader st1)) root page = page_of (ld_paging (us_loader st)) root page) ->
  ld_bytes (us_loader st1) = ld_bytes (us_loader st) ->
  untouched space (us_loader st1) (<[space := 4%nat]> lvl) (us_loader st') lvl' -> others_kept lvl st st'.
Proof.
  intros Hnew Hused Hold Hb Hun. split.
  - intros root page Hr Hp. assert (root <> space) by congruence. rewrite <- Hold by done.
    apply (un_others _ _ _ _ _ Hun); [by rewrite lookup_insert_ne|done|done].
  - intros pa Hpa Hu. rewrite <- Hb. apply (un_bytes _ _ _ _ _ Hun). apply Hused; [apply Z.div_pos; lia|done].
Qed.

(** Where the pieces of a started program are: the image below a page that is not mapped,
    the stack above it, the parameter page on top. *)
Definition started (st' : User) (space : Z) (image : list Z) (ui : UserImage) : Prop :=
  exists segs, read_image image USER_BASE (USER_BASE + SLOT_SIZE) = Ok (ui_entry ui, segs) /\
    let guard := segments_end USER_BASE segs in
    USER_BASE <= ui_entry ui < guard /\ ui_stack_top ui = guard + 17 * 4096 /\ ui_data ui = ui_stack_top ui /\
    (forall page, user_page page -> snd <$> page_of (ld_paging (us_loader st')) space page =
       if (guard <? page) && (page <=? ui_data ui) then Some user_data else segment_flags segs page) /\
    page_of (ld_paging (us_loader st')) space guard = None /\
    (forall va b, segment_bytes segs va = Some b -> read_byte (us_loader st') va = Some b).

Lemma view_read space st0 lvl0 st lvl fl c va b : lvl0 !! space = Some 4%nat -> cr3 (ld_paging st0) = space ->
  view space st0 lvl0 st lvl fl c -> c va = Some b -> read_byte st va = Some b.
Proof.
  intros H4 Hcr Hv Hb. destruct (vw_bytes _ _ _ _ _ _ _ Hv va b Hb) as (Hpg & f & x & Hx & Hbyte).
  pose proof (vw_untouched _ _ _ _ _ _ _ Hv) as [Hok (Hcr' & _) Hroots _ _ _ _].
  pose proof (walk_user (ld_paging st) lvl space va Hok ltac:(by apply Hroots) Hpg) as Hw. rewrite Hx in Hw. destruct Hw as (t & Ht & Hphys & _).
  unfold read_byte. assert (cr3 (ld_paging st) = space) as -> by congruence. rewrite Ht. cbn [mbind option_bind]. by rewrite Hphys, Hbyte.
Qed.

Lemma guard_pages segs : Forall (segment_in USER_BASE (USER_BASE + SLOT_SIZE)) segs ->
  let guard := segments_end USER_BASE segs in guard mod 4096 = 0 /\ forall i, 0 <= i < 18 -> user_page (guard + i * 4096).
Proof.
  intros Hall guard. pose proof (segments_end_bound USER_BASE (USER_BASE + SLOT_SIZE) USER_BASE segs Hall ltac:(vm_compute; discriminate)) as Hguard. fold guard in Hguard.
  assert (Halign : guard mod 4096 = 0) by (apply segments_end_aligned; reflexivity). split; [done|].
  change (page_up (USER_BASE + SLOT_SIZE)) with 35184439197696 in Hguard. change USER_BASE with 35184372088832 in Hguard.
  intros i Hi. split; [change USER_REGION_END with 35185445830656; change USER_BASE with 35184372088832; lia|]. apply page_aligned. Z.div_mod_to_equations. lia.
Qed.

(** The view that starting ends in says where everything is. *)
Lemma started_view space st0 lvl0 st lvl image entry segs :
  let guard := segments_end USER_BASE segs in
  let data := guard + PAGE_SIZE + Z.of_nat STACK_PAGES * PAGE_SIZE in
  lvl0 !! space = Some 4%nat -> cr3 (ld_paging st0) = space -> Forall (segment_in USER_BASE (USER_BASE + SLOT_SIZE)) segs ->
  read_image image USER_BASE (USER_BASE + SLOT_SIZE) = Ok (entry, segs) ->
  view space st0 lvl0 (us_loader st) lvl
    (fun p => if decide (p = data) then Some user_data else if pages_from (guard + PAGE_SIZE) STACK_PAGES p then Some user_data else segment_flags segs p)
    (segment_bytes segs) ->
  started st space image {| ui_entry := entry; ui_stack_top := data; ui_data := data |}.
Proof.
  intros guard data H4 Hcr Hall Himg Hv. destruct (guard_pages segs Hall) as [Halign Hupg]. fold guard in Halign, Hupg.
  assert (Hdata : data = guard + 17 * 4096) by (unfold data, STACK_PAGES, PAGE_SIZE; lia).
  exists segs. cbn [ui_entry ui_stack_top ui_data]. fold guard. split; [done|]. split; [by apply (read_image_entry _ _ _ _ _ Himg)|].
  split; [exact Hdata|]. split; [done|].
  assert (Hfl : forall page, user_page page -> snd <$> page_of (ld_paging (us_loader st)) space page =
     if (guard <? page) && (page <=? data) then Some user_data else segment_flags segs page).
  { intros page Hpage. rewrite (vw_flags _ _ _ _ _ _ _ Hv) by done. cbv beta. pose proof (proj2 Hpage) as Hpa%page_aligned.
    unfold pages_from, STACK_PAGES, PAGE_SIZE. destruct ((guard <? page) && (page <=? data)) eqn:Hc.
    - case_decide; [done|]. destruct ((guard + 4096 <=? page) && _) eqn:Hc'; [done|]. exfalso. Z.div_mod_to_equations. lia.
    - rewrite decide_False by lia. destruct ((guard + 4096 <=? page) && _) eqn:Hc'; [lia|done]. }
  split; [exact Hfl|]. split.
  - pose proof (Hupg 0 ltac:(lia)) as Hpg0. rewrite Z.mul_0_l, Z.add_0_r in Hpg0. specialize (Hfl guard Hpg0).
    rewrite (segment_flags_above segs USER_BASE) in Hfl by (unfold guard; lia). destruct (page_of _ space guard); [|done].
    destruct (guard <? guard) eqn:Hc; [lia|]. done.
  - intros va b. by apply (view_read space st0 lvl0 (us_loader st) lvl _ _ va b H4 Hcr Hv).
Qed.

(** Starting a program from an image.  On success the thread has a slot, and a space that
    was not there before is loaded: the image in it as its headers say, one unmapped page
    above it, then a stack of sixteen pages and the parameter page, writable and not
    executable, and nothing else.  A failure is the one the headers call for, or that a
    slot or memory could not be had.  Whatever happens no other space changes, nor does
    any byte of memory that was in use. *)
Theorem load_elf_sound owner image st lvl :
  spaces_ok (ld_paging (us_loader st)) lvl -> Forall is_byte image ->
  exists r st', load_elf owner image st = (r, st') /\ others_kept lvl st st' /\
    match r with
    | Ok ui => exists slot space lvl', lvl !! space = None /\ spaces_ok (ld_paging (us_loader st')) lvl' /\
        (forall f, lvl' !! f = Some 4%nat <-> f = space \/ lvl !! f = Some 4%nat) /\
        cr3 (ld_paging (us_loader st')) = space /\ claim_slot owner (us_slots st) = (Some slot, us_slots st') /\
        us_threads st' = alter (fun _ => Some space) owner (us_threads st) /\ started st' space image ui
    | Err (LoadElf e) => e = Mapping \/ read_image image USER_BASE (USER_BASE + SLOT_SIZE) = Err e
    | Err e => e <> TooLarge
    | Panic => read_image image USER_BASE (USER_BASE + SLOT_SIZE) = Panic
    end.
Proof.
  intros Hs Himage. unfold load_elf. cbv beta iota delta [mbind M_bind]. pose proof (enter_new_space_sound owner st lvl Hs) as Henter.
  destruct (enter_new_space owner st) as [[[slot space]|e|] st1]; [| |done].
  2:{ destruct Henter as (-> & Hl & _). exists (Err NoFreeSlot), st1. split; [done|]. split; [|done]. unfold others_kept. by rewrite Hl. }
  destruct Henter as (Hnew & Hs1 & Hcr1 & Htot1 & Hused1 & Hempty1 & Hold1 & Hb1 & Hsl1 & Hth1).
  set (lvl1 := <[space := 4%nat]> lvl) in *. assert (H4 : lvl1 !! space = Some 4%nat) by (by unfold lvl1; rewrite lookup_insert_eq).
  pose proof (fun st' lvl' => others_kept_from st st1 st' lvl lvl' space Hnew Hused1 Hold1 Hb1) as Hkept. fold lvl1 in Hkept.
  assert (Hregion : in_user_region USER_BASE (USER_BASE + SLOT_SIZE)) by (split; vm_compute; discriminate).
  destruct (load_view space (us_loader st1) lvl1 H4 Hcr1 image USER_BASE (USER_BASE + SLOT_SIZE) Himage Hregion Hs1 Hempty1) as [[lvl2 Hun2] Hag].
  unfold on_loader at 1. destruct (load space image USER_BASE (USER_BASE + SLOT_SIZE) (us_loader st1)) as [r l]; cbn [fst snd] in Hun2, Hag.
  set (st2 := {| us_loader := l; us_slots := us_slots st1; us_threads := us_threads st1 |}).
  destruct r as [img|e|].
  2:{ exists (Err (LoadElf e)), st2. split; [done|]. split; [by eapply (Hkept st2)|].
      destruct (read_image _ _ _) as [[entry segs]|e'|]; destruct e; auto; try done; right; congruence. }
  2:{ exists Panic, st2. split; [done|]. split; [by eapply (Hkept st2)|]. by destruct (read_image _ _ _). }
  destruct (read_image image USER_BASE (USER_BASE + SLOT_SIZE)) as [[entry segs]|e'|] eqn:Himg; [|done..].
  destruct Hag as (-> & Hall & lvl3 & Hv3). cbn [li_end li_entry]. set (guard := segments_end USER_BASE segs) in *.
  destruct (guard_pages segs Hall) as [Halign Hupg]. fold guard in Halign, Hupg.
  pose proof (map_stack_view space (us_loader st1) lvl1 _ STACK_PAGES H4 st2 lvl3 _ (guard + PAGE_SIZE) Hv3) as Hstack.
  destruct (map_stack STACK_PAGES space (guard + PAGE_SIZE) st2) as [r st3]. destruct Hstack as (Hsl3 & Hth3 & Hstack).
  { intros i Hi. unfold STACK_PAGES in Hi. replace (guard + PAGE_SIZE + i * 4096) with (guard + (i + 1) * 4096) by (unfold PAGE_SIZE; lia). apply Hupg. lia. }
  destruct r as [[]|e|]; [| |done].
  2:{ destruct Hstack as [[e' ->] [lvl4 Hun4]]. exists (Err (LoadMapping e')), st3. split; [done|]. split; [by eapply (Hkept st3)|done]. }
  destruct Hstack as [lvl4 Hv4]. set (data := guard + PAGE_SIZE + Z.of_nat STACK_PAGES * PAGE_SIZE).
  assert (Hdata : data = guard + 17 * 4096) by (unfold data, STACK_PAGES, PAGE_SIZE; lia).
  pose proof (Hupg 17 ltac:(lia)) as Hpgd. rewrite <- Hdata in Hpgd. rewrite (proj2 Hpgd). destruct user_data_bits as (Hd1 & Hd2 & Hd3 & Hd4).
  pose proof (in_paging_view space (us_loader st1) lvl1 st3 lvl4 _ _ data user_data H4 Hv4 Hpgd Hd1 Hd2 Hd3 Hd4) as Hone.
  destruct (in_paging LoadMapping (map_in space data user_data) st3) as [r st4]. destruct Hone as (Hsl4 & Hth4 & Hone).
  destruct r as [f|e|]; [| |done].
  2:{ destruct Hone as [[e' ->] [lvl5 Hun5]]. exists (Err (LoadMapping e')), st4. split; [done|]. split; [by eapply (Hkept st4)|done]. }
  destruct Hone as [lvl5 Hv5]. eexists (Ok _), st4. split; [done|]. pose proof (vw_untouched _ _ _ _ _ _ _ Hv5) as Hun5.
  split; [by eapply (Hkept st4)|]. exists slot, space, lvl5. split; [done|]. split; [apply Hun5|].
  split; [|split; [|split; [|split]]].
  - intros f'. rewrite (un_roots _ _ _ _ _ Hun5). unfold lvl1. destruct (decide (f' = space)) as [->|Hne]; [rewrite lookup_insert_eq; naive_solver|].
    rewrite lookup_insert_ne by done. naive_solver.
  - destruct (un_rest _ _ _ _ _ Hun5) as (Hcr5 & _). congruence.
  - rewrite Hsl4, Hsl3. exact Hsl1.
  - rewrite Hth4, Hth3. exact Hth1.
  - by apply (started_view space (us_loader st1) lvl1 st4 lvl5).
Qed.

End Start.

Module UserLoadRuns.
Import PagingRuns ElfRuns.

(** Sixty-four frames, the first five in use by the kernel's tables. *)
Definition idle_tables : memory := list_to_map [
  (frame_at 1, row [(0%nat, entry (frame_at 2) rwu)]);
  (frame_at 2, row [(0%nat, entry (frame_at 3) rwu)]);
  (frame_at 3, row [(0%nat, entry (frame_at 4) rwu)]);
  (frame_at 4, row [(7%nat, entry 0x10_0000 rw)])].

Definition idle_levels : levels := list_to_map [(frame_at 1, 4); (frame_at 2, 3); (frame_at 3, 2); (frame_at 4, 1)]%nat.

Definition idle_paging : Paging :=
  {| tables := idle_tables;
     frames := {| bitmap := 31 :: replicate 7 0; total_frames := 64; used_frames := 5; next_hint := 0 |};
     cr3 := frame_at 1; KERNEL_SPACE := Some (frame_at 1); PHYSICAL_OFFSET := Some 0x18_0000_0000; effects := [] |}.

Definition idle : User :=
  {| us_loader := {| ld_paging := idle_paging; ld_bytes := ∅ |}; us_slots := SLOTS; us_threads := {[3%nat := None]} |}.

Lemma idle_ok : spaces_ok idle_paging idle_levels.
Proof.
  assert (Hok : tables_ok idle_tables idle_levels) by (apply tables_okb_sound; vm_compute; reflexivity).
  split.
  - split; [done| |apply tables_usedb_sound; vm_compute; reflexivity|vm_compute; reflexivity|eexists; reflexivity].
    split; [split; vm_compute; discriminate|vm_compute; reflexivity|vm_compute; discriminate].
  - apply separateb_sound. vm_compute. reflexivity.
  - intros root page t Hr _. apply (plainb_sound _ _ Hok); [vm_compute; reflexivity|done].
Qed.

(** Code at the bottom of the region, the guard page, then stack and parameters. *)
Lemma load_elf_sound_witness :
  exists ui st', load_elf 3 image idle = (Ok ui, st') /\ ui_entry ui = USER_BASE /\ ui_stack_top ui = USER_BASE + 0x12000 /\
    snd <$> page_of (ld_paging (us_loader st')) (frame_at 5) (USER_BASE + 0x11000) = Some user_data /\
    page_of (ld_paging (us_loader st')) (frame_at 5) (USER_BASE + 0x1000) = None /\
    read_byte (us_loader st') (USER_BASE + 2) = Some 12.
Proof.
  destruct (load_elf_sound 3 image idle idle_levels idle_ok image_bytes) as (r & st' & Hrun & _ & Hr).
  assert (Hx : exists ui, fst (load_elf 3 image idle) = Ok ui /\ ui_entry ui = USER_BASE /\ ui_stack_top ui = USER_BASE + 0x12000)
    by (eexists; vm_compute; repeat split; reflexivity).
  destruct Hx as (ui & Hui & Hentry & Htop). rewrite Hrun in Hui. cbn in Hui. subst r.
  destruct Hr as (slot & space & lvl' & _ & _ & _ & Hcr & _ & _ & segs & Hsegs & _ & _ & Hd & Hfl & Hguard & Hb).
  assert (Hcr5 : cr3 (ld_paging (us_loader (snd (load_elf 3 image idle)))) = frame_at 5) by (vm_compute; reflexivity).
  rewrite Hrun in Hcr5. cbn [snd] in Hcr5. rewrite Hcr5 in Hcr. subst space.
  assert (Hread : read_image image USER_BASE (USER_BASE + SLOT_SIZE) = Ok (USER_BASE, image_segments)) by (vm_compute; reflexivity).
  rewrite Hsegs in Hread. injection Hread as _ ->. exists ui, st'. split; [exact Hrun|]. split; [exact Hentry|]. split; [exact Htop|].
  split; [rewrite Hfl by (apply user_page_intro; vm_compute; reflexivity); rewrite Hd, Htop; reflexivity|].
  split; [exact Hguard|]. by apply Hb.
Defined.

Definition used_after (m : M User LoadError unit) : Z := used_frames (frames (ld_paging (us_loader (snd (m idle))))).
Definition start : M User LoadError unit := _ ← load_elf 3 image; mret tt.

(** A program that was started once gives every frame back when its thread exits; a
    second program loaded by the same thread replaces the record of the first one's space,
    whose twenty-two frames are then never given back. *)
Theorem second_load_leaks :
  used_after start = 27 /\ used_after (start ;; release_slot 3) = 5 /\ used_after (start ;; start ;; release_slot 3) = 27.
Proof. vm_compute. repeat split; reflexivity. Qed.

End UserLoadRuns.
