(* ===== verification/Sharing.v ===== *)
(** * Memory shared between processes

    Graphics buffers and rings are frames of their own that several spaces map.  What
    keeps both safe is the same: a page that leads to such a frame is on record, so that
    a frame whose records are gone is mapped nowhere and may be given back. *)

From stdpp Require Import base list gmap numbers list_numbers.
From Stdlib Require Import Lia ZifyBool.
From S2P Require Import Prelude Frame Paging PagingInv PagingSplit PagingUnmap PagingSpace PagingMap Userspace Elf ElfSpec ElfTheorems.

(** ** A map by id

    The registries keep their entries in a [BTreeMap] by a number that grows with every
    new entry, so that the order of the map is the order of creation. *)

Fixpoint lookup_id {A} (id : Z) (l : list (Z * A)) : option A :=
  match l with
  | [] => None
  | (k, b) :: rest => if k =? id then Some b else lookup_id id rest
  end.

Definition update_id {A} (id : Z) (f : A -> A) (l : list (Z * A)) : list (Z * A) := (fun '(k, b) => (k, if k =? id then f b else b)) <$> l.

Definition remove_id {A} (id : Z) (l : list (Z * A)) : list (Z * A) := filter (fun '(k, _) => k <> id) l.


Lemma lookup_id_split {A} id (l : list (Z * A)) b : lookup_id id l = Some b -> exists before after, l = before ++ (id, b) :: after.
Proof.
  induction l as [|[k x] l IH]; cbn [lookup_id]; [done|]. destruct (k =? id) eqn:Hk.
  - intros [= ->]. apply Z.eqb_eq in Hk as ->. by exists [], l.
  - intros (before & after & ->)%IH. by exists ((k, x) :: before), after.
Qed.

Lemma lookup_id_elem {A} id (l : list (Z * A)) b : NoDup l.*1 -> (id, b) ∈ l -> lookup_id id l = Some b.
Proof.
  induction l as [|[k x] l IH]; cbn [lookup_id]; [by intros _ ?%elem_of_nil|]. cbn [fmap list_fmap fst]. rewrite NoDup_cons. intros [Hk Hnd].
  intros [[= -> ->]|Hin]%elem_of_cons; [by rewrite Z.eqb_refl|]. destruct (k =? id) eqn:Hkid; [|by apply IH].
  apply Z.eqb_eq in Hkid as ->. exfalso. apply Hk. apply list_elem_of_fmap. by exists (id, b).
Qed.

Section Split.
Context {A : Type} (id : Z) (before after : list (Z * A)) (b : A) (Hnd : NoDup (before ++ (id, b) :: after).*1).

Lemma split_others : (forall x, (id, x) ∉ before) /\ (forall x, (id, x) ∉ after).
Proof.
  rewrite fmap_app in Hnd. cbn [fmap list_fmap fst] in Hnd. apply NoDup_app in Hnd as (_ & Hdis & Hc). apply NoDup_cons in Hc as [Ha _].
  split; intros x Hx.
  - apply (Hdis id); [apply list_elem_of_fmap; by exists (id, x)|by left].
  - apply Ha. apply list_elem_of_fmap. by exists (id, x).
Qed.

Lemma update_other f l : (forall x : A, (id, x) ∉ l) -> update_id id f l = l.
Proof.
  unfold update_id. induction l as [|[k x] l IH]; intros Hno; [done|]. cbn [fmap list_fmap]. rewrite IH by (intros y Hy; apply (Hno y); by right).
  destruct (k =? id) eqn:Hk; [|done]. apply Z.eqb_eq in Hk as ->. exfalso. apply (Hno x). by left.
Qed.

Lemma update_split f : update_id id f (before ++ (id, b) :: after) = before ++ (id, f b) :: after.
Proof.
  destruct split_others as [Hb Ha]. unfold update_id. rewrite fmap_app. cbn [fmap list_fmap]. rewrite Z.eqb_refl.
  change (fmap _ before) with (update_id id f before). rewrite update_other by done. f_equal. f_equal. by apply update_other.
Qed.

Lemma remove_other l : (forall x : A, (id, x) ∉ l) -> remove_id id l = l.
Proof.
  unfold remove_id. induction l as [|[k x] l IH]; intros Hno; [done|]. rewrite filter_cons.
  rewrite decide_True by (intros ->; apply (Hno x); by left). f_equal. apply IH. intros y Hy. apply (Hno y). by right.
Qed.

Lemma remove_split : remove_id id (before ++ (id, b) :: after) = before ++ after.
Proof.
  destruct split_others as [Hb Ha]. pose proof (remove_other before Hb) as Eb. pose proof (remove_other after Ha) as Ea.
  unfold remove_id in *. rewrite filter_app, filter_cons, Eb, Ea. by rewrite decide_False by (intros Hx; by apply Hx).
Qed.

Lemma lookup_split : lookup_id id (before ++ (id, b) :: after) = Some b.
Proof. apply lookup_id_elem; [done|]. apply elem_of_app. right. by left. Qed.
End Split.

(** ** Objects in shared memory *)

(** Frames, whether the allocator gave them, and which thread maps them where, with the
    flags of each page. *)
Record Shared : Type := { sh_frames : list Z; sh_owned : bool; sh_maps : list (nat * Z * (nat -> Z)) }.

Definition own_frames (o : Shared) : list Z := if sh_owned o then sh_frames o else [].
Definition owned_frames (objs : list Shared) : list Z := flat_map own_frames objs.

(** The pages a record accounts for. *)
Definition recorded (target : nat -> Z) (o : Shared) (root page f x : Z) : Prop :=
  exists t a fl i, (t, a, fl) ∈ sh_maps o /\ root = target t /\ page = a + Z.of_nat i * 4096 /\ sh_frames o !! i = Some f /\ x = fl i.

(** A frame the allocator gave out, that is neither free nor a table. *)
Definition in_use (s : Paging) (lvl : levels) (f : Z) : Prop :=
  exists n, f = frame_at n /\ 0 <= n < total_frames (frames s) /\ used_at (frames s) n = true /\ lvl !! f = None.

(** Beyond what the allocator manages. *)
Definition foreign (s : Paging) (f : Z) : Prop := forall n, f = frame_at n -> ~ (0 <= n < total_frames (frames s)).

Record sharing_ok (target : nat -> Z) (s : Paging) (lvl : levels) (objs : list Shared) : Prop := {
  sk_spaces : spaces_ok s lvl;
  sk_target : forall t, lvl !! target t = Some 4%nat;
  sk_owned : forall f, f ∈ owned_frames objs -> in_use s lvl f;
  sk_foreign : forall o f, o ∈ objs -> sh_owned o = false -> f ∈ sh_frames o -> foreign s f;
  sk_once : NoDup (owned_frames objs);
  sk_recorded : forall o root page f x, o ∈ objs -> f ∈ own_frames o -> lvl !! root = Some 4%nat -> user_page page ->
    page_of s root page = Some (f, x) -> recorded target o root page f x;
  sk_mapped : forall root page f x, lvl !! root = Some 4%nat -> user_page page -> page_of s root page = Some (f, x) ->
    foreign s f \/ in_use s lvl f;
}.

Section Sharing.
Context (target : nat -> Z).

Abbreviation ok := (sharing_ok target).

Lemma owned_elem objs f : f ∈ owned_frames objs <-> exists o, o ∈ objs /\ f ∈ own_frames o.
Proof. unfold owned_frames. rewrite list_elem_of_In, in_flat_map. setoid_rewrite list_elem_of_In. naive_solver. Qed.

(** A frame belongs to one object. *)
Lemma owned_unique objs o o' f : NoDup (owned_frames objs) -> o ∈ objs -> o' ∈ objs -> f ∈ own_frames o -> f ∈ own_frames o' -> o = o'.
Proof.
  unfold owned_frames. induction objs as [|x objs IH]; [by intros _ ?%elem_of_nil|]. cbn [flat_map]. rewrite NoDup_app. intros (_ & Hdis & Hnd).
  assert (Hno : forall y, y ∈ objs -> f ∈ own_frames x -> f ∈ own_frames y -> False).
  { intros y Hy Hx Hfy. apply (Hdis f Hx). apply (owned_elem objs). eauto. }
  intros [->|Ho]%elem_of_cons [->|Ho']%elem_of_cons Hf Hf'; [done|exfalso; eauto|exfalso; eauto|by apply IH].
Qed.

Lemma foreign_not_in_use s lvl f : foreign s f -> in_use s lvl f -> False.
Proof. intros Hf (n & Hn & Hr & _). by apply (Hf n). Qed.

(** ** Edits of the tables *)

(** In use stays in use while only tables come and go. *)
Lemma in_use_step s s' lvl lvl' f : total_frames (frames s') = total_frames (frames s) ->
  (forall n, 0 <= n -> used_at (frames s) n = true -> lvl !! frame_at n = None -> used_at (frames s') n = true /\ lvl' !! frame_at n = None) ->
  in_use s lvl f -> in_use s' lvl' f.
Proof.
  intros Ht Hu (n & -> & Hn & Hused & Hl). destruct (Hu n ltac:(lia) Hused Hl) as [Hu' Hl']. exists n. rewrite Ht. done.
Qed.

Lemma foreign_step s s' f : total_frames (frames s') = total_frames (frames s) -> foreign s f -> foreign s' f.
Proof. intros Ht Hf n. rewrite Ht. apply Hf. Qed.

(** What an edit must do to keep shared memory safe: frames keep their standing, and a page
    that changed now leads nowhere or is on record. *)
Lemma sharing_step s s' lvl lvl' objs (c : Z -> Z -> option (Z * Z) -> option (Z * Z)) : ok s lvl objs ->
  edited s s' lvl lvl' c -> total_frames (frames s') = total_frames (frames s) ->
  (forall n, 0 <= n -> used_at (frames s) n = true -> lvl !! frame_at n = None -> used_at (frames s') n = true /\ lvl' !! frame_at n = None) ->
  (forall root page f x, lvl !! root = Some 4%nat -> user_page page -> c root page (page_of s root page) = Some (f, x) ->
     page_of s root page = Some (f, x) \/
     ((foreign s f \/ in_use s lvl f) /\ forall o, o ∈ objs -> f ∈ own_frames o -> recorded target o root page f x)) ->
  ok s' lvl' objs.
Proof.
  intros [Hs Ht Ho Hf Hn Hr Hm] [He1 _ He3 He4 _] Htot Hu Hc. split; try done.
  - intros t. apply He3, Ht.
  - intros f Hin. by eapply in_use_step, Ho.
  - intros o f Hin Hno Hfin. by eapply foreign_step, Hf.
  - intros o root page f x Hin Hfin H4 Hp. apply He3 in H4. rewrite He4 by done. intros Hx.
    destruct (Hc root page f x H4 Hp Hx) as [Hold|[_ Hrec]]; [by eapply Hr|by apply Hrec].
  - intros root page f x H4 Hp. apply He3 in H4. rewrite He4 by done. intros Hx.
    assert (Hst : foreign s f \/ in_use s lvl f) by (destruct (Hc root page f x H4 Hp Hx) as [Hold|[Hst _]]; [by eapply Hm|done]).
    destruct Hst as [Hst|Hst]; [left; by eapply foreign_step|right; by eapply in_use_step].
Qed.

(** The pages a record accounts for lead nowhere. *)
Definition dangling (s : Paging) (o : Shared) (t : nat) (a : Z) : Prop :=
  forall i, 0 <= i < Z.of_nat (length (sh_frames o)) -> user_page (a + i * 4096) -> page_of s (target t) (a + i * 4096) = None.

(** Records may be added freely, and may go once their pages lead nowhere. *)
Definition relabels (s : Paging) (o o' : Shared) : Prop :=
  sh_frames o' = sh_frames o /\ sh_owned o' = sh_owned o /\
  forall t a fl, (t, a, fl) ∈ sh_maps o -> (t, a, fl) ∈ sh_maps o' \/ dangling s o t a.

Lemma relabels_refl s o : relabels s o o.
Proof. split; [done|]. split; [done|]. auto. Qed.

Lemma sharing_relabel s lvl objs objs' : ok s lvl objs -> Forall2 (relabels s) objs objs' -> ok s lvl objs'.
Proof.
  intros [Hs Ht Ho Hf Hn Hr Hm] Hall.
  assert (Hown : owned_frames objs' = owned_frames objs).
  { clear - Hall. unfold owned_frames. induction Hall as [|o o' l l' (Hfr & Hw & _) _ IH]; [done|]. cbn [flat_map]. rewrite IH. unfold own_frames. by rewrite Hfr, Hw. }
  assert (Hback : forall o', o' ∈ objs' -> exists o, o ∈ objs /\ relabels s o o').
  { intros o' Hin. apply list_elem_of_lookup in Hin as [k Hk]. destruct (Forall2_lookup_r _ _ _ _ _ Hall Hk) as (o & Hk' & Hrel).
    exists o. split; [by eapply list_elem_of_lookup_2|done]. }
  split; try done; rewrite ?Hown; try done.
  - intros o' f Hin Hw Hfin. destruct (Hback o' Hin) as (o & Hino & Hfr & Hw' & _). rewrite Hfr in Hfin. rewrite Hw' in Hw. by apply (Hf o).
  - intros o' root page f x Hin Hfin H4 Hp Hx. destruct (Hback o' Hin) as (o & Hino & Hfr & Hw' & Hmaps).
    unfold own_frames in Hfin. rewrite Hfr, Hw' in Hfin. destruct (Hr o root page f x Hino Hfin H4 Hp Hx) as (t & a & fl & i & Hta & -> & -> & Hi & Hfl).
    destruct (Hmaps t a fl Hta) as [Hkeep|Hnone]; [exists t, a, fl, i; by rewrite Hfr|]. apply lookup_lt_Some in Hi. rewrite (Hnone (Z.of_nat i)) in Hx by (done || lia). done.
Qed.

(** The same for one object. *)
Lemma sharing_relabel_one s lvl before o o' after : ok s lvl (before ++ o :: after) -> relabels s o o' -> ok s lvl (before ++ o' :: after).
Proof.
  intros Hok Hrel. eapply sharing_relabel; [exact Hok|]. apply Forall2_app; [|constructor; [done|]]; apply Forall_Forall2_diag, Forall_forall; intros; apply relabels_refl.
Qed.

(** ** Mapping an object *)

(** [for (index, frame) in frames.iter().enumerate()] *)
Fixpoint map_frames `{Mapper} (space address : Z) (flags_at : nat -> Z) (index : nat) (fs : list Z) : M Paging MapError unit :=
  match fs with
  | [] => mret tt
  | f :: rest =>
      map_to_frame_in space (page_at (address + Z.of_nat index * PAGE_SIZE)) f (flags_at index) ;;
      map_frames space address flags_at (S index) rest
  end.

(** The address is reserved: whole pages of the user region. *)
Definition span_ok (address : Z) (pages : nat) : Prop := forall i, 0 <= i < Z.of_nat pages -> user_page (address + i * 4096).

(** One frame of an object mapped where its record says. *)
Lemma map_frame_sharing `{MapLaw} s lvl objs o t a i f flags_at : ok s lvl objs -> o ∈ objs -> (t, a, flags_at) ∈ sh_maps o ->
  sh_frames o !! i = Some f -> user_page (a + Z.of_nat i * 4096) -> has (flags_at i) PRESENT = true -> has (flags_at i) HUGE_PAGE = false ->
  exists r s' lvl', map_to_frame_in (target t) (a + Z.of_nat i * 4096) f (flags_at i) s = (r, s') /\ ok s' lvl' objs /\ same_rest s s' /\
    total_frames (frames s') = total_frames (frames s) /\ (forall g, lvl' !! g = Some 4%nat <-> lvl !! g = Some 4%nat) /\
    match r with
    | Ok _ => forall root page, lvl !! root = Some 4%nat -> user_page page ->
        page_of s' root page = at_page (target t) (a + Z.of_nat i * 4096) (Some (f, flags_at i)) root page (page_of s root page)
    | Err _ => forall root page, lvl !! root = Some 4%nat -> user_page page -> page_of s' root page = page_of s root page
    | Panic => False
    end.
Proof.
  intros Hok Ho Hrec Hf Hpg Hp Hh. pose proof Hok as [Hs Ht Hown Hfor Hnd Hrc Hm].
  destruct (map_to_frame_in_sound s lvl (target t) _ f (flags_at i) Hs (Ht t) Hpg Hp Hh) as (r & s' & lvl' & Hrun & Hsub & [Htot Htk] & Hnf & Hr).
  exists r, s', lvl'. split; [done|].
  assert (Hu : forall n, 0 <= n -> used_at (frames s) n = true -> lvl !! frame_at n = None -> used_at (frames s') n = true /\ lvl' !! frame_at n = None).
  { intros n Hn Hu Hl. rewrite Htk, Hu by done. split; [done|]. destruct (lvl' !! frame_at n) eqn:Hx; [|done]. rewrite (Hnf n) in Hu; [done|done|done|eauto]. }
  destruct r as [[]|e|]; [| |done].
  - destruct Hr as [_ He]. split; [|split; [apply He|split; [done|split; [apply He|apply He]]]]. eapply sharing_step; [done|exact He|done|done|].
    intros root page g x H4 Hpage. unfold at_page. case_decide as Hd; [|by left]. intros [= <- <-]. right. destruct Hd as [-> ->].
    assert (Hin : f ∈ sh_frames o) by (by eapply list_elem_of_lookup_2).
    assert (Hlen : (i < length (sh_frames o))%nat) by (by eapply lookup_lt_Some). split.
    + destruct (sh_owned o) eqn:Howned; [right; apply Hown, owned_elem; exists o; split; [done|]; unfold own_frames; by rewrite Howned|left; by apply (Hfor o)].
    + intros o2 Ho2 Hfin. assert (o2 = o) as ->; [|by exists t, a, flags_at, i].
      destruct (sh_owned o) eqn:Howned.
      * apply (owned_unique objs o2 o f); [done..|]. unfold own_frames. by rewrite Howned.
      * destruct (foreign_not_in_use s lvl f); [by apply (Hfor o)|]. apply Hown, owned_elem. eauto.
  - split; [|split; [apply Hr|split; [done|split; [apply Hr|apply Hr]]]]. eapply sharing_step; [done|exact Hr|done|done|]. intros root page g x H4 Hpage. unfold unchanged. by left.
Qed.

(** Mapping a whole object, or as much of it as memory for tables allows. *)
Lemma map_frames_sharing `{MapLaw} objs o t a flags_at rest : o ∈ objs -> (t, a, flags_at) ∈ sh_maps o -> span_ok a (length (sh_frames o)) ->
  (forall i, has (flags_at i) PRESENT = true /\ has (flags_at i) HUGE_PAGE = false) -> forall s lvl done_,
  sh_frames o = done_ ++ rest -> ok s lvl objs ->
  exists r s' lvl', map_frames (target t) a flags_at (length done_) rest s = (r, s') /\ ok s' lvl' objs /\ same_rest s s' /\
    total_frames (frames s') = total_frames (frames s) /\ (forall g, lvl' !! g = Some 4%nat <-> lvl !! g = Some 4%nat) /\
    (forall root page, lvl !! root = Some 4%nat -> user_page page -> ~ (root = target t /\ a + Z.of_nat (length done_) * 4096 <= page < a + Z.of_nat (length (sh_frames o)) * 4096) ->
       page_of s' root page = page_of s root page) /\
    match r with
    | Ok _ => forall i f, (length done_ <= i)%nat -> sh_frames o !! i = Some f -> page_of s' (target t) (a + Z.of_nat i * 4096) = Some (f, flags_at i)
    | Err _ => True
    | Panic => False
    end.
Proof.
  intros Ho Hrec Hspan Hfl. induction rest as [|f rest IH]; intros s lvl done_ Hsplit Hok; cbn [map_frames].
  { exists (Ok tt), s, lvl. split_and!; try done. intros i f Hi Hf. apply lookup_lt_Some in Hf. rewrite Hsplit, app_nil_r in Hf. lia. }
  assert (Hf : sh_frames o !! length done_ = Some f) by (rewrite Hsplit; by apply list_lookup_middle).
  assert (Hlen : (length done_ < length (sh_frames o))%nat) by (by eapply lookup_lt_Some).
  pose proof (Hspan (Z.of_nat (length done_)) ltac:(lia)) as Hpg. destruct (Hfl (length done_)) as [Hp Hh]. unfold PAGE_SIZE. rewrite (proj2 Hpg).
  destruct (map_frame_sharing s lvl objs o t a (length done_) f flags_at Hok Ho Hrec Hf Hpg Hp Hh) as (r & s1 & lvl1 & Hrun & Hok1 & Hrest1 & Htot1 & Hr1 & Hres).
  cbv beta iota delta [mbind M_bind]. rewrite Hrun. destruct r as [[]|e|]; [| |done].
  2:{ exists (Err e), s1, lvl1. split_and!; try done. intros. by apply Hres. }
  destruct (IH s1 lvl1 (done_ ++ [f])) as (r2 & s2 & lvl2 & Hrun2 & Hok2 & Hrest2 & Htot2 & Hr2 & Hoth2 & Hres2); [by rewrite <- app_assoc|done|].
  rewrite length_app in Hrun2, Hoth2, Hres2. cbn [length] in Hrun2, Hoth2, Hres2. rewrite Nat.add_1_r in Hrun2, Hoth2, Hres2.
  exists r2, s2, lvl2. split; [exact Hrun2|]. split; [done|].
  split; [destruct Hrest1 as (? & ? & ?), Hrest2 as (? & ? & ?); split_and!; congruence|]. split; [congruence|].
  split; [intros g; by rewrite Hr2, Hr1|]. split.
  - intros root page H4 Hpage Hnot. rewrite Hoth2 by (done || (by apply Hr1) || (intros [? ?]; apply Hnot; split; [done|lia])).
    rewrite Hres by done. unfold at_page. rewrite decide_False; [done|]. intros [-> ->]. apply Hnot. split; [done|lia].
  - destruct r2 as [[]|e|]; [|done|done]. intros i g Hi Hg. destruct (decide (i = length done_)) as [->|Hne]; [|apply Hres2; [lia|done]].
    rewrite Hf in Hg. injection Hg as <-. rewrite Hoth2; [|apply Hr1, (sk_target _ _ _ _ Hok)|done|lia].
    rewrite Hres by (done || apply (sk_target _ _ _ _ Hok)). unfold at_page. by rewrite decide_True.
Qed.

(** ** Unmapping *)

(** [for index in 0..pages { let _ = unmap_in(..) }] *)
Fixpoint unmap_pages `{Mapper} (space address : Z) (n : nat) : M Paging UnmapError unit :=
  match n with
  | O => mret tt
  | S n' => fun s =>
      match unmap_in space (page_at address) s with
      | (Panic, s') => (Panic, s')
      | (_, s') => unmap_pages space (address + PAGE_SIZE) n' s'
      end
  end.

Lemma unmap_pages_sharing `{UnmapLaw} objs space n : forall s lvl a, ok s lvl objs -> lvl !! space = Some 4%nat -> span_ok a n ->
  exists s' lvl', unmap_pages space a n s = (Ok tt, s') /\ ok s' lvl' objs /\ same_rest s s' /\
    total_frames (frames s') = total_frames (frames s) /\ (forall g, lvl' !! g = Some 4%nat <-> lvl !! g = Some 4%nat) /\
    forall root page, lvl !! root = Some 4%nat -> user_page page ->
      page_of s' root page = if decide (root = space /\ a <= page < a + Z.of_nat n * 4096) then None else page_of s root page.
Proof.
  induction n as [|n IH]; intros s lvl a Hok H4 Hspan; cbn [unmap_pages].
  { exists s, lvl. split_and!; try done. intros root page _ _. rewrite decide_False; [done|lia]. }
  pose proof (Hspan 0 ltac:(lia)) as Hpg. rewrite Z.mul_0_l, Z.add_0_r in Hpg. rewrite (proj2 Hpg). unfold PAGE_SIZE.
  destruct (unmap_in_edit s lvl space a (sk_spaces _ _ _ _ Hok) H4 Hpg) as (r & s1 & lvl1 & Hrun & Hsub & Htot & Hless & Hfreed & Hr). rewrite Hrun.
  assert (Hstep : ok s1 lvl1 objs /\ same_rest s s1 /\ (forall g, lvl1 !! g = Some 4%nat <-> lvl !! g = Some 4%nat) /\
    forall root page, lvl !! root = Some 4%nat -> user_page page -> page_of s1 root page = at_page space a None root page (page_of s root page)).
  { destruct r as [f|e|]; [| |done].
    - destruct Hr as [_ He]. split; [|split; [apply He|split; [apply He|apply He]]]. eapply sharing_step; [done|exact He|done| |].
      + intros m Hm Hu Hl. split; [|eapply lookup_weaken_None; [exact Hl|done]].
        destruct (used_at (frames s1) m) eqn:Hx; [done|]. destruct (Hfreed m Hm Hu Hx). congruence.
      + intros root page f' x _ _. unfold at_page. case_decide; [done|by left].
    - destruct Hr as (-> & -> & Hnone). split; [done|]. split; [done|]. split; [done|]. intros root page H4' Hp. unfold at_page.
      case_decide as Hd; [|done]. destruct Hd as [-> ->]. done. }
  destruct Hstep as (Hok1 & Hrest1 & Hr1 & Hv1).
  destruct (IH s1 lvl1 (a + 4096) Hok1 ltac:(by apply Hr1)) as (s2 & lvl2 & Hrun2 & Hok2 & Hrest2 & Htot2 & Hr2 & Hv2).
  { intros i Hi. replace (a + 4096 + i * 4096) with (a + (i + 1) * 4096) by lia. apply Hspan. lia. }
  exists s2, lvl2. split; [by destruct r|]. split; [done|].
  split; [destruct Hrest1 as (? & ? & ?), Hrest2 as (? & ? & ?); split_and!; congruence|]. split; [congruence|].
  split; [intros g; by rewrite Hr2, Hr1|]. intros root page H4' Hpage. rewrite Hv2 by (done || by apply Hr1). rewrite Hv1 by done.
  unfold at_page. destruct Hpage as [_ Hpa%page_aligned]. destruct Hpg as [_ Haa%page_aligned].
  destruct (decide (root = space /\ a <= page < a + Z.of_nat (S n) * 4096)) as [[-> Hin]|Hout].
  - destruct (decide (page = a)) as [->|Hne]; [case_decide; [done|]; by rewrite decide_True|].
    rewrite decide_True; [done|]. split; [done|]. Z.div_mod_to_equations. lia.
  - rewrite decide_False by (intros [-> ?]; apply Hout; split; [done|lia]). rewrite decide_False; [done|]. intros [-> ->]. apply Hout. split; [done|lia].
Qed.

(** Objects may be forgotten; their frames stay in use. *)
Lemma sharing_forget s lvl objs objs' : ok s lvl objs -> objs' `sublist_of` objs -> ok s lvl objs'.
Proof.
  intros [Hs Ht Ho Hf Hn Hr Hm] Hsub.
  assert (Hin : forall o, o ∈ objs' -> o ∈ objs) by (intros o Hx; by eapply elem_of_sublist).
  assert (Hown : owned_frames objs' `sublist_of` owned_frames objs).
  { clear - Hsub. unfold owned_frames. induction Hsub as [|x l1 l2 _ IH|x l1 l2 _ IH]; cbn [flat_map]; [done|by apply sublist_app|by apply sublist_inserts_l]. }
  split; try done; [| | |intros; eapply Hr; [by apply Hin|done..]].
  - intros f Hx. apply Ho. by eapply elem_of_sublist.
  - intros o f Hx. apply Hf. by apply Hin.
  - by eapply sublist_NoDup.
Qed.

(** The order of the objects does not matter. *)
Lemma sharing_perm s lvl objs objs' : ok s lvl objs -> objs ≡ₚ objs' -> ok s lvl objs'.
Proof.
  intros [Hs Ht Ho Hf Hn Hr Hm] Hp. assert (Hown : owned_frames objs ≡ₚ owned_frames objs') by (unfold owned_frames; by rewrite Hp).
  split; try done; setoid_rewrite <- Hown || setoid_rewrite <- Hp; done.
Qed.

(** ** Giving frames back *)

Fixpoint give_back {E} (fs : list Z) : M Paging E unit :=
  match fs with
  | [] => mret tt
  | f :: rest => frame_deallocate f ;; give_back rest
  end.

(** Frames that no object has and no page leads to are given back. *)
Lemma give_back_sharing {E} objs lvl fs : forall s, ok s lvl objs -> NoDup fs ->
  (forall f, f ∈ fs -> in_use s lvl f /\ f ∉ owned_frames objs /\
     forall root page x, lvl !! root = Some 4%nat -> user_page page -> page_of s root page <> Some (f, x)) ->
  exists s', give_back (E:=E) fs s = (Ok tt, s') /\ ok s' lvl objs /\ same_rest s s' /\ tables s' = tables s /\
    total_frames (frames s') = total_frames (frames s) /\
    forall n, 0 <= n -> used_at (frames s') n = negb (bool_decide (frame_at n ∈ fs)) && used_at (frames s) n.
Proof.
  induction fs as [|f fs IH]; intros s Hok Hnd Hall; cbn [give_back].
  { by exists s. }
  apply NoDup_cons in Hnd as [Hnew Hnd]. destruct (Hall f ltac:(left)) as ((n & -> & Hn & Hu & Hl) & Hno & Hun).
  pose proof Hok as [Hs Ht Ho Hf Hn1 Hr Hm].
  destruct (deallocate_spaces (E:=E) s lvl (frame_at n) n Hs eq_refl Hn Hu Hl) as (a & Hrun & Hs' & Htot & Hg).
  cbv beta iota delta [mbind M_bind]. rewrite Hrun. set (s1 := add_effect (set_allocator s a) (Freed (frame_at n))) in *.
  assert (Hkeep : forall g, g <> frame_at n -> in_use s lvl g -> in_use s1 lvl g).
  { intros g Hne (m & -> & Hmr & Hmu & Hml). exists m. unfold s1. cbn [frames add_effect set_allocator]. rewrite Htot. split_and!; try done; try lia.
    rewrite Hg by lia. rewrite bool_decide_false by congruence. by rewrite Hmu. }
  assert (Hpo : forall root page, page_of s1 root page = page_of s root page) by done.
  assert (Hok1 : ok s1 lvl objs).
  { split; try done.
    - intros g Hin. apply Hkeep; [by intros ->|by apply Ho].
    - intros o g Hin Hno' Hg'. apply (foreign_step s); [done|by apply (Hf o)].
    - intros root page g x H4 Hp Hx. rewrite Hpo in Hx. destruct (Hm root page g x H4 Hp Hx) as [Hst|Hst]; [left; by apply (foreign_step s)|right].
      apply Hkeep; [|done]. intros ->. by apply (Hun root page x). }
  destruct (IH s1 Hok1 Hnd) as (s2 & -> & Hok2 & Hrest2 & Htab2 & Htot2 & Hg2).
  { intros g Hin. destruct (Hall g ltac:(by right)) as (Hg1 & Hg2 & Hg3). split; [apply Hkeep; [by intros ->|done]|done]. }
  exists s2. split; [done|]. split; [done|]. split; [done|]. split; [done|]. split; [rewrite Htot2; done|].
  intros m Hmn. rewrite Hg2 by done. unfold s1. cbn [frames add_effect set_allocator]. rewrite Hg by done. rewrite andb_assoc. f_equal.
  rewrite <- negb_orb. f_equal. rewrite <- bool_decide_or. apply bool_decide_ext. rewrite elem_of_cons. split; [intros [?| ->]; auto|].
  intros [Heq%frame_at_inj|?]; auto.
Qed.

Lemma owned_frames_perm objs objs' : objs ≡ₚ objs' -> owned_frames objs ≡ₚ owned_frames objs'.
Proof. unfold owned_frames. intros Hp. by rewrite Hp. Qed.

(** Several objects on no record at once. *)
Lemma free_objects_sharing {E} s lvl objs alive dead : ok s lvl objs -> objs ≡ₚ dead ++ alive -> alive `sublist_of` objs ->
  (forall o, o ∈ dead -> sh_maps o = []) ->
  exists s', give_back (E:=E) (owned_frames dead) s = (Ok tt, s') /\ ok s' lvl alive /\ same_rest s s' /\ tables s' = tables s /\
    total_frames (frames s') = total_frames (frames s) /\
    forall n, 0 <= n -> used_at (frames s') n = negb (bool_decide (frame_at n ∈ owned_frames dead)) && used_at (frames s) n.
Proof.
  intros Hok Hperm Hsub Hmaps. pose proof Hok as [Hs Ht Ho Hf Hn Hr Hm].
  assert (Hsplit : NoDup (owned_frames dead ++ owned_frames alive)).
  { unfold owned_frames. rewrite <- flat_map_app. by rewrite <- (owned_frames_perm _ _ Hperm). }
  apply NoDup_app in Hsplit as (Hnd & Hdis & _). apply give_back_sharing; [by eapply sharing_forget|done|].
  intros f Hin. pose proof Hin as (o & Hod & Hfo)%owned_elem. assert (Hoo : o ∈ objs) by (rewrite Hperm; set_solver).
  split; [apply Ho, owned_elem; eauto|]. split; [by apply Hdis|]. intros root page x H4 Hp Hx.
  destruct (Hr o root page f x Hoo Hfo H4 Hp Hx) as (t & a & fl & i & Hta & _). rewrite (Hmaps o Hod) in Hta. by apply elem_of_nil in Hta.
Qed.

(** One object on no record: no page of any space leads to it. *)
Lemma free_object_sharing {E} s lvl before o after : ok s lvl (before ++ o :: after) -> sh_maps o = [] ->
  exists s', give_back (E:=E) (own_frames o) s = (Ok tt, s') /\ ok s' lvl (before ++ after) /\ same_rest s s' /\ tables s' = tables s.
Proof.
  intros Hok Hmaps. destruct (free_objects_sharing (E:=E) s lvl _ (before ++ after) [o] Hok) as (s' & Hrun & Hok' & Hrest & Htab & _).
  - by rewrite <- Permutation_middle.
  - apply sublist_app; [done|by constructor].
  - intros x Hx. by apply list_elem_of_singleton in Hx as ->.
  - exists s'. unfold owned_frames in Hrun. cbn [flat_map] in Hrun. by rewrite app_nil_r in Hrun.
Qed.

(** ** A new object *)

Definition fresh_object (fs : list Z) : Shared := {| sh_frames := fs; sh_owned := true; sh_maps := [] |}.

(** An object without frames changes nothing. *)
Lemma sharing_add s lvl objs o : ok s lvl objs -> own_frames o = [] -> (sh_owned o = false -> forall f, f ∈ sh_frames o -> foreign s f) ->
  ok s lvl (objs ++ [o]).
Proof.
  intros [Hs Ht Ho Hf Hn Hr Hm] Hnil Hfo.
  assert (Hown : owned_frames (objs ++ [o]) = owned_frames objs) by (unfold owned_frames; rewrite flat_map_app; cbn [flat_map]; by rewrite Hnil, !app_nil_r).
  split; try done; rewrite ?Hown; try done.
  - intros x f [Hin|Hin]%elem_of_app; [by apply Hf|]. apply list_elem_of_singleton in Hin as ->. intros Hno. by apply Hfo.
  - intros x root page f y [Hin|Hin]%elem_of_app Hfin; [by eapply Hr|]. apply list_elem_of_singleton in Hin as ->. rewrite Hnil in Hfin. by apply elem_of_nil in Hfin.
Qed.

(** One more frame for the object that is being made. *)
Lemma allocate_sharing {E} s lvl objs fs : ok s lvl (objs ++ [fresh_object fs]) ->
  match frame_allocate (E:=E) s with
  | (Ok (Some f), s') => ok s' lvl (objs ++ [fresh_object (fs ++ [f])]) /\ same_rest s s' /\ tables s' = tables s /\
      total_frames (frames s') = total_frames (frames s) /\
      exists n, f = frame_at n /\ 0 <= n /\ forall m, 0 <= m -> used_at (frames s') m = bool_decide (m = n) || used_at (frames s) m
  | (Ok None, s') => s' = s
  | _ => False
  end.
Proof.
  intros Hok. pose proof Hok as [Hs Ht Ho Hf Hn Hr Hm]. pose proof (allocate_spaces (E:=E) s lvl Hs) as Ha.
  destruct (frame_allocate s) as [[[f|]|?|] s']; [|by destruct Ha|done|done].
  destruct Ha as (n & -> & Hnr & Hfree & Hnew & Hs' & Htab & Hrest & Htot & Hg).
  assert (Hown : owned_frames (objs ++ [fresh_object (fs ++ [frame_at n])]) = owned_frames (objs ++ [fresh_object fs]) ++ [frame_at n]).
  { unfold owned_frames. rewrite !flat_map_app. cbn [flat_map own_frames fresh_object sh_owned sh_frames]. by rewrite !app_nil_r, app_assoc. }
  assert (Hkeep : forall g, in_use s lvl g -> in_use s' lvl g).
  { intros g (m & -> & Hmr & Hmu & Hml). exists m. rewrite Htot. split_and!; try done; try lia. rewrite Hg by lia. by rewrite Hmu, orb_true_r. }
  assert (Hnotused : ~ in_use s lvl (frame_at n)) by (intros (m & Heq%frame_at_inj & _ & Hmu & _); congruence).
  assert (Hpo : forall root page, page_of s' root page = page_of s root page) by (intros; unfold page_of; by rewrite Htab).
  assert (Hnowhere : forall root page x, lvl !! root = Some 4%nat -> user_page page -> page_of s root page <> Some (frame_at n, x)).
  { intros root page x H4 Hp Hx. destruct (Hm root page _ x H4 Hp Hx) as [Hfo|]; [by apply (Hfo n)|done]. }
  split; [|split; [done|split; [done|split; [done|exists n; split_and!; [done|lia|done]]]]]. split; try done; rewrite ?Hown.
  - intros g [Hin|Hin]%elem_of_app; [by apply Hkeep, Ho|]. apply list_elem_of_singleton in Hin as ->. exists n. rewrite Htot. split_and!; try done; try lia.
    rewrite Hg by lia. by rewrite bool_decide_true.
  - intros o g [Hin|Hin]%elem_of_app; [|apply list_elem_of_singleton in Hin as ->; done].
    intros Hno Hgin. apply (foreign_step s); [done|]. apply (Hf o); [set_solver|done|done].
  - apply NoDup_app. split; [done|]. split; [|apply NoDup_singleton]. intros g Hin Hx. apply list_elem_of_singleton in Hx as ->. by apply Hnotused, Ho.
  - intros o root page g x [Hin|Hin]%elem_of_app Hgin H4 Hp; rewrite Hpo; intros Hx; [eapply Hr; [set_solver|done..]|].
    apply list_elem_of_singleton in Hin as ->. unfold own_frames in Hgin. cbn [fresh_object sh_owned sh_frames] in Hgin.
    apply elem_of_app in Hgin as [Hgin|Hgin].
    + destruct (Hr (fresh_object fs) root page g x ltac:(set_solver) Hgin H4 Hp Hx) as (t & a & fl & i & Hta & _). by apply elem_of_nil in Hta.
    + apply list_elem_of_singleton in Hgin as ->. by destruct (Hnowhere root page x).
  - intros root page g x H4 Hp. rewrite Hpo. intros Hx. destruct (Hm root page g x H4 Hp Hx) as [Hst|Hst]; [left; by apply (foreign_step s)|right; by apply Hkeep].
Qed.
End Sharing.
