(* ===== verification/Gbm.v ===== *)
(** * Shared graphics buffers (kernel/src/gbm.rs)

    The registry of buffers and every operation on it, over the page tables, the slots
    and the spaces of threads. *)

From stdpp Require Import base list gmap numbers list_numbers.
From Stdlib Require Import Lia ZifyBool.
From S2P Require Import Prelude Frame Quota Paging PagingInv PagingSplit PagingUnmap PagingSpace PagingMap Userspace Elf ElfSpec ElfTheorems UserLoad Sharing.

Definition MAX_BUFFER_BYTES : Z := 32 * 1024 * 1024.

Record BufferInfo : Type := { bi_width : Z; bi_height : Z; bi_stride : Z; bi_bytes_per_pixel : Z; bi_size : Z }.

Record Buffer : Type := {
  b_info : BufferInfo;
  b_frames : list Z;
  b_owns_frames : bool;
  b_owner : nat;
  b_shared_with : list nat;
  b_mappings : list (nat * Z);
  b_orphaned : bool;
}.

(** [Buffer::may_access] *)
Definition b_may_access (b : Buffer) (thread : nat) : bool := bool_decide (b_owner b = thread) || bool_decide (thread ∈ b_shared_with b).

(** A [BTreeMap] by increasing id: new ids are the largest. *)
Record Registry : Type := {
  buffers : list (Z * Buffer);
  next_id : Z;
  next_offset : gmap nat Z;
  r_scanout : option Z;
  display_servers : list nat;
}.

Definition Registry_new : Registry :=
  {| buffers := []; next_id := 1; next_offset := ∅; r_scanout := None; display_servers := [] |}.

(** What [console::framebuffer] knows of the screen. *)
Record Display : Type := { d_width : Z; d_height : Z; d_stride : Z; d_bytes_per_pixel : Z; d_byte_len : Z; d_address : Z }.

Record Gbm : Type := { gb_user : User; gb_registry : Registry; gb_quotas : assignments; gb_display : option Display }.

Abbreviation G A := (M Gbm Error A).

Definition gb_paging (g : Gbm) : Paging := ld_paging (us_loader (gb_user g)).

Definition set_registry (g : Gbm) (r : Registry) : Gbm :=
  {| gb_user := gb_user g; gb_registry := r; gb_quotas := gb_quotas g; gb_display := gb_display g |}.
Definition set_user (g : Gbm) (u : User) : Gbm :=
  {| gb_user := u; gb_registry := gb_registry g; gb_quotas := gb_quotas g; gb_display := gb_display g |}.
Definition set_paging (u : User) (s : Paging) : User :=
  {| us_loader := {| ld_paging := s; ld_bytes := ld_bytes (us_loader u) |}; us_slots := us_slots u; us_threads := us_threads u |}.
Definition set_slots (u : User) (sl : Slots) : User :=
  {| us_loader := us_loader u; us_slots := sl; us_threads := us_threads u |}.

(** [with(|registry| ..)] *)
Definition registry : G Registry := fun g => (Ok (gb_registry g), g).
Definition put_registry (r : Registry) : G unit := fun g => (Ok tt, set_registry g r).

Definition paged {E A} (f : E -> Error) (m : M Paging E A) : G A := fun g =>
  match m (gb_paging g) with
  | (r, s) => (match r with Ok a => Ok a | Err e => Err (f e) | Panic => Panic end, set_user g (set_paging (gb_user g) s))
  end.

(** *** Changes of the registry *)

Definition with_buffers (r : Registry) (l : list (Z * Buffer)) : Registry :=
  {| buffers := l; next_id := next_id r; next_offset := next_offset r; r_scanout := r_scanout r; display_servers := display_servers r |}.
Definition insert_buffer (r : Registry) (b : Buffer) : Registry :=
  {| buffers := buffers r ++ [(next_id r, b)]; next_id := next_id r + 1; next_offset := next_offset r; r_scanout := r_scanout r;
     display_servers := display_servers r |}.
Definition with_offset (r : Registry) (thread : nat) (offset : Z) : Registry :=
  {| buffers := buffers r; next_id := next_id r; next_offset := <[thread := offset]> (next_offset r); r_scanout := r_scanout r;
     display_servers := display_servers r |}.

Definition with_shares (b : Buffer) (l : list nat) : Buffer :=
  {| b_info := b_info b; b_frames := b_frames b; b_owns_frames := b_owns_frames b; b_owner := b_owner b;
     b_shared_with := l; b_mappings := b_mappings b; b_orphaned := b_orphaned b |}.
Definition with_mappings (b : Buffer) (l : list (nat * Z)) : Buffer :=
  {| b_info := b_info b; b_frames := b_frames b; b_owns_frames := b_owns_frames b; b_owner := b_owner b;
     b_shared_with := b_shared_with b; b_mappings := l; b_orphaned := b_orphaned b |}.
Definition with_orphaned (b : Buffer) (o : bool) : Buffer :=
  {| b_info := b_info b; b_frames := b_frames b; b_owns_frames := b_owns_frames b; b_owner := b_owner b;
     b_shared_with := b_shared_with b; b_mappings := b_mappings b; b_orphaned := o |}.

(** [.iter().find(|(id, _)| *id == thread)] *)
Fixpoint mapping_of (thread : nat) (l : list (nat * Z)) : option Z :=
  match l with
  | [] => None
  | (t, a) :: rest => if bool_decide (t = thread) then Some a else mapping_of thread rest
  end.

(** [position] then [remove(index)] *)
Fixpoint remove_mapping (thread : nat) (l : list (nat * Z)) : list (nat * Z) :=
  match l with
  | [] => []
  | (t, a) :: rest => if bool_decide (t = thread) then rest else (t, a) :: remove_mapping thread rest
  end.

Section Gbm.
Context `{Mapper}.

Definition pages_of (info : BufferInfo) : Z := div_ceil (bi_size info) PAGE_SIZE.

Definition bytes_per_pixel (g : Gbm) : Z := match gb_display g with Some d => d_bytes_per_pixel d | None => 4 end.

Definition checked_mul (limit a b : Z) : option Z := if a * b <=? limit then Some (a * b) else None.

(** How many buffers a thread owns, and their bytes. *)
Definition holdings (owner : nat) (r : Registry) : Z * Z :=
  fold_left (fun '(count, bytes) '(_, b) => if bool_decide (b_owner b = owner) then (count + 1, bytes + bi_size (b_info b)) else (count, bytes))
    (buffers r) (0, 0).

Definition check_quota (owner : nat) (size : Z) : G unit := fun g =>
  let '(count, bytes) := holdings owner (gb_registry g) in
  let allowance := quota_of (gb_quotas g) owner in
  if (q_buffers allowance <=? count) || (q_buffer_bytes allowance <? saturating_add U64_MAX bytes size) then (Err QuotaExceeded, g) else (Ok tt, g).

(** [for _ in 0..pages]: a failure gives back what was taken. *)
Fixpoint take_frames (n : nat) (taken : list Z) : M Paging Error (list Z) :=
  match n with
  | O => mret taken
  | S n' =>
      found ← frame_allocate;
      match found with
      | Some f => take_frames n' (taken ++ [f])
      | None => give_back taken ;; fail OutOfMemory
      end
  end.

Definition same_error (e : Error) : Error := e.

Definition create (owner : nat) (width height : Z) : G Z :=
  guard_err ((width =? 0) || (height =? 0)) InvalidArgument ;;
  g ← get;
  let depth := bytes_per_pixel g in
  stride ← lift (ok_or InvalidArgument (checked_mul U32_MAX width depth));
  size ← lift (ok_or InvalidArgument (checked_mul U64_MAX stride height));
  guard_err (MAX_BUFFER_BYTES <? size) InvalidArgument ;;
  check_quota owner size ;;
  fs ← paged same_error (take_frames (Z.to_nat (div_ceil size PAGE_SIZE)) []);
  r ← registry;
  put_registry (insert_buffer r
    {| b_info := {| bi_width := width; bi_height := height; bi_stride := stride; bi_bytes_per_pixel := depth; bi_size := size |};
       b_frames := fs; b_owns_frames := true; b_owner := owner; b_shared_with := []; b_mappings := []; b_orphaned := false |}) ;;
  mret (next_id r).

Definition allow_display_server (thread : nat) : G unit :=
  r ← registry;
  put_registry {| buffers := buffers r; next_id := next_id r; next_offset := next_offset r; r_scanout := r_scanout r;
                  display_servers := if bool_decide (thread ∈ display_servers r) then display_servers r else display_servers r ++ [thread] |}.

Definition is_display_server (thread : nat) (r : Registry) : bool := bool_decide (thread ∈ display_servers r).

Definition share_buffer (target : nat) (b : Buffer) : Buffer :=
  if bool_decide (target ∈ b_shared_with b) then b else with_shares b (b_shared_with b ++ [target]).

(** [physical_base + index * PAGE_SIZE] for each page *)
Definition display_frames (physical_base : Z) (pages : nat) : list Z :=
  (fun i : nat => page_at (physical_base + Z.of_nat i * PAGE_SIZE)) <$> seq 0 pages.

Definition scanout (owner : nat) : G Z :=
  r ← registry;
  guard_err (negb (is_display_server owner r)) NoCapability ;;
  g ← get;
  info ← lift (ok_or NoSuchEndpoint (gb_display g));
  found ← paged same_error (translate (d_address info));
  physical_base ← lift (ok_or BadPointer found);
  let size := d_byte_len info in
  let fs := display_frames physical_base (Z.to_nat (div_ceil size PAGE_SIZE)) in
  r ← registry;
  match r_scanout r with
  | Some existing =>
      put_registry (with_buffers r (update_id existing
        (fun b => if b_may_access b owner then b else with_shares b (b_shared_with b ++ [owner])) (buffers r))) ;;
      mret existing
  | None =>
      let id := next_id r in
      let r := insert_buffer r
        {| b_info := {| bi_width := d_width info mod 2 ^ 32; bi_height := d_height info mod 2 ^ 32;
                        bi_stride := (d_stride info * d_bytes_per_pixel info) mod 2 ^ 32;
                        bi_bytes_per_pixel := d_bytes_per_pixel info mod 2 ^ 32; bi_size := size |};
           b_frames := fs; b_owns_frames := false; b_owner := owner; b_shared_with := []; b_mappings := []; b_orphaned := false |} in
      put_registry {| buffers := buffers r; next_id := next_id r; next_offset := next_offset r; r_scanout := Some id; display_servers := display_servers r |} ;;
      mret id
  end.

Definition share (owner target : nat) (buffer : Z) : G unit :=
  r ← registry;
  entry ← lift (ok_or NoSuchEndpoint (lookup_id buffer (buffers r)));
  guard_err (negb (bool_decide (b_owner entry = owner))) NoCapability ;;
  put_registry (with_buffers r (update_id buffer (share_buffer target) (buffers r))).

(** [Registry::reserve] *)
Definition reserve (thread : nat) (span : Z) : G Z := fun g =>
  let '(slot, sl) := ensure_slot thread (us_slots (gb_user g)) in
  let g := set_user g (set_slots (gb_user g) sl) in
  match slot with
  | None => (Err OutOfMemory, g)
  | Some slot =>
      let r := gb_registry g in
      let offset := default BUFFER_AREA_OFFSET (next_offset r !! thread) in
      let g := set_registry g (with_offset r thread offset) in
      if SLOT_SIZE <? offset + span then (Err OutOfMemory, g)
      else (Ok (slot_base_of slot + offset), set_registry g (with_offset r thread (offset + span)))
  end.

Definition reserve_address (thread : nat) (span : Z) : G Z := reserve thread span.

Definition pixels : Z := user_data.

(** [address_space_of(thread).unwrap_or_else(kernel_space)] *)
Definition target_space (thread : nat) : G Z := fun g =>
  match address_space_of thread (gb_user g) with
  | Some space => (Ok space, g)
  | None => paged same_error kernel_space g
  end.

Definition to_out_of_memory (e : MapError) : Error := OutOfMemory.

Definition map (thread : nat) (buffer : Z) : G Z :=
  r ← registry;
  entry ← lift (ok_or NoSuchEndpoint (lookup_id buffer (buffers r)));
  guard_err (negb (b_may_access entry thread)) NoCapability ;;
  match mapping_of thread (b_mappings entry) with
  | Some existing => mret existing
  | None =>
      address ← reserve thread (pages_of (b_info entry) * PAGE_SIZE);
      r ← registry;
      put_registry (with_buffers r (update_id buffer (fun b => with_mappings b (b_mappings b ++ [(thread, address)])) (buffers r))) ;;
      if bi_size (b_info entry) =? 0 then mret address else
      target ← target_space thread;
      paged to_out_of_memory (map_frames target address (fun _ => pixels) 0 (b_frames entry)) ;;
      mret address
  end.

(** The pages of a mapping, whatever becomes of each. *)
Definition unmap_span (target address pages : Z) : G unit := paged (fun _ : UnmapError => InvalidArgument) (unmap_pages target address (Z.to_nat pages)).

Fixpoint unmap_spans (target : Z) (l : list (Z * Z)) : G unit :=
  match l with
  | [] => mret tt
  | (address, pages) :: rest => unmap_span target address pages ;; unmap_spans target rest
  end.

Definition is_scanout (r : Registry) (id : Z) : bool := bool_decide (r_scanout r = Some id).

(** [paging::unmap]: in the space that is loaded. *)
Definition destroy (owner : nat) (buffer : Z) : G unit :=
  r ← registry;
  entry ← lift (ok_or NoSuchEndpoint (lookup_id buffer (buffers r)));
  guard_err (negb (bool_decide (b_owner entry = owner))) NoCapability ;;
  guard_err (is_scanout r buffer) InvalidArgument ;;
  put_registry (with_buffers r (remove_id buffer (buffers r))) ;;
  g ← get;
  unmap_spans (cr3 (gb_paging g)) ((fun '(_, address) => (address, pages_of (b_info entry))) <$> b_mappings entry) ;;
  paged same_error (give_back (if b_owns_frames entry then b_frames entry else [])).

(** What the first loop of [release_thread] does to one buffer. *)
Definition withdraw (thread : nat) (is_screen : bool) (b : Buffer) : Buffer :=
  let b := with_mappings b (remove_mapping thread (b_mappings b)) in
  let b := with_shares b (filter (fun t => t <> thread) (b_shared_with b)) in
  if bool_decide (b_owner b = thread) && negb is_screen then with_orphaned b true else b.

Definition withdrawn_span (thread : nat) (b : Buffer) : list (Z * Z) :=
  match mapping_of thread (b_mappings b) with Some address => [(address, pages_of (b_info b))] | None => [] end.

Definition is_unreferenced (r : Registry) (id : Z) (b : Buffer) : bool :=
  b_orphaned b && bool_decide (b_mappings b = []) && bool_decide (b_shared_with b = []) && negb (is_scanout r id).

Definition kept_frames (b : Buffer) : list Z := if b_owns_frames b then b_frames b else [].

Definition release_thread (thread : nat) : G unit :=
  r ← registry;
  let spans := flat_map (fun '(_, b) => withdrawn_span thread b) (buffers r) in
  let l := (fun '(id, b) => (id, withdraw thread (is_scanout r id) b)) <$> buffers r in
  let dead := filter (fun '(id, b) => is_unreferenced r id b = true) l in
  let alive := filter (fun '(id, b) => is_unreferenced r id b = false) l in
  put_registry {| buffers := alive; next_id := next_id r; next_offset := delete thread (next_offset r); r_scanout := r_scanout r;
                  display_servers := filter (fun t => t <> thread) (display_servers r) |} ;;
  target ← target_space thread;
  unmap_spans target spans ;;
  paged same_error (give_back (flat_map (fun '(_, b) => kept_frames b) dead)).

Definition drop_reference (thread : nat) (b : Buffer) : Buffer :=
  with_shares (with_mappings b (filter (fun m => m.1 <> thread) (b_mappings b))) (filter (fun t => t <> thread) (b_shared_with b)).

Definition unmap (thread : nat) (buffer : Z) : G unit :=
  r ← registry;
  entry ← lift (ok_or NoSuchEndpoint (lookup_id buffer (buffers r)));
  address ← lift (ok_or InvalidArgument (mapping_of thread (b_mappings entry)));
  target ← target_space thread;
  unmap_span target address (pages_of (b_info entry)) ;;
  r ← registry;
  match lookup_id buffer (buffers r) with
  | None => mret tt
  | Some entry =>
      let entry := drop_reference thread entry in
      if is_unreferenced r buffer entry
      then put_registry (with_buffers r (remove_id buffer (buffers r))) ;; paged same_error (give_back (kept_frames entry))
      else put_registry (with_buffers r (update_id buffer (drop_reference thread) (buffers r)))
  end.

Definition buffer_info (thread : nat) (buffer : Z) : G BufferInfo :=
  r ← registry;
  entry ← lift (ok_or NoSuchEndpoint (lookup_id buffer (buffers r)));
  guard_err (negb (b_may_access entry thread)) NoCapability ;;
  mret (b_info entry).

Definition may_access (thread : nat) (buffer : Z) (r : Registry) : bool :=
  match lookup_id buffer (buffers r) with Some entry => b_may_access entry thread | None => false end.

Definition count (r : Registry) : nat := length (buffers r).

Definition buffers_owned_by (owner : nat) (r : Registry) : list (Z * BufferInfo) :=
  (fun '(id, b) => (id, b_info b)) <$> filter (fun '(_, b) => b_owner b = owner) (buffers r).

(** *** System calls, with the thread that makes them *)

Definition caller (current : option nat) : G nat := lift (ok_or InvalidArgument current).

Definition sys_buf_create (current : option nat) (width height : Z) : G Z :=
  guard_err (U32_MAX <? width) InvalidArgument ;;
  guard_err (U32_MAX <? height) InvalidArgument ;;
  owner ← caller current;
  create owner width height.

Definition sys_buf_scanout (current : option nat) : G Z := owner ← caller current; scanout owner.
Definition sys_buf_map (current : option nat) (buffer : Z) : G Z := thread ← caller current; map thread buffer.
Definition sys_buf_unmap (current : option nat) (buffer : Z) : G Z := thread ← caller current; unmap thread buffer ;; mret 0.
Definition sys_buf_share (current : option nat) (buffer target : Z) : G Z :=
  owner ← caller current; share owner (Z.to_nat target) buffer ;; mret 0.

(** The layout of [BufferInfo]: four words and a double word. *)
Definition info_bytes (i : BufferInfo) : list Z :=
  to_le_bytes 4 (bi_width i) ++ to_le_bytes 4 (bi_height i) ++ to_le_bytes 4 (bi_stride i) ++ to_le_bytes 4 (bi_bytes_per_pixel i) ++ to_le_bytes 8 (bi_size i).

Definition copy_out (pointer : Z) (bs : list Z) : G unit := fun g =>
  match write_bytes pointer bs (us_loader (gb_user g)) with
  | (Ok _, l) => (Ok tt, set_user g {| us_loader := l; us_slots := us_slots (gb_user g); us_threads := us_threads (gb_user g) |})
  | (_, l) => (Panic, set_user g {| us_loader := l; us_slots := us_slots (gb_user g); us_threads := us_threads (gb_user g) |})
  end.

Definition sys_buf_info (current : option nat) (buffer pointer : Z) : G Z :=
  ok ← paged same_error (validate_user_buffer pointer 24 true);
  guard_err (negb ok) BadPointer ;;
  thread ← caller current;
  info ← buffer_info thread buffer;
  copy_out pointer (info_bytes info) ;;
  mret 0.

End Gbm.
