(* ===== verification/GbmTheorems.v ===== *)
(** * Shared buffers are safe

    Whatever sequence of operations threads ask for: no frame of a buffer is free or in
    two buffers, and every page of every space that leads to one is a mapping on record,
    of a thread that owns the buffer or that its owner shared it with. *)

From stdpp Require Import base list gmap numbers list_numbers.
From Stdlib Require Import Lia ZifyBool.
From S2P Require Import Prelude Frame Quota Paging PagingInv PagingSplit PagingUnmap PagingSpace PagingMap PagingRef PagingRuns Userspace Elf ElfSpec ElfTheorems UserLoad Sharing Gbm.

(** ** The invariant *)

Definition record_of : nat * Z -> nat * Z * (nat -> Z) := fun '(t, a) => (t, a, fun _ => pixels).
Definition object_of (b : Buffer) : Shared := {| sh_frames := b_frames b; sh_owned := b_owns_frames b; sh_maps := record_of <$> b_mappings b |}.
Definition objects (l : list (Z * Buffer)) : list Shared := (fun '(_, b) => object_of b) <$> l.

Record buffer_ok (b : Buffer) : Prop := {
  bk_frames : Z.of_nat (length (b_frames b)) = pages_of (b_info b);
  bk_once : NoDup (b_mappings b).*1;
  bk_span : forall t a, (t, a) ∈ b_mappings b -> span_ok a (length (b_frames b));
  bk_access : forall t a, (t, a) ∈ b_mappings b -> b_may_access b t = true;
}.

Lemma record_elem b t a fl : (t, a, fl) ∈ sh_maps (object_of b) <-> (t, a) ∈ b_mappings b /\ fl = fun _ => pixels.
Proof.
  cbn. rewrite list_elem_of_fmap. split; [intros ([t' a'] & [= -> -> ->] & Hin); done|]. intros [Hin ->]. by exists (t, a).
Qed.

Lemma buffer_relabels target s b b' : b_frames b' = b_frames b -> b_owns_frames b' = b_owns_frames b ->
  (forall t a, (t, a) ∈ b_mappings b -> (t, a) ∈ b_mappings b' \/ dangling target s (object_of b) t a) -> relabels target s (object_of b) (object_of b').
Proof.
  intros Hf Ho Hm. split; [done|]. split; [done|]. intros t a fl [Hin ->]%record_elem. destruct (Hm t a Hin); [left; by apply record_elem|by right].
Qed.

(** The space a thread maps shared memory into. *)
Definition space_of (g : Gbm) (thread : nat) : option Z :=
  match address_space_of thread (gb_user g) with Some s => Some s | None => KERNEL_SPACE (gb_paging g) end.

Record registry_ok (r : Registry) : Prop := {
  rk_ids : NoDup (buffers r).*1;
  rk_below : forall id b, (id, b) ∈ buffers r -> id < next_id r;
  rk_buffers : forall id b, (id, b) ∈ buffers r -> buffer_ok b;
  rk_offsets : forall t o, next_offset r !! t = Some o -> 0 <= o <= SLOT_SIZE /\ o mod 4096 = 0;
}.

(** Buffers beside other objects in shared memory. *)
Record gbm_ok (target : nat -> Z) (others : list Shared) (g : Gbm) (lvl : levels) : Prop := {
  gk_sharing : sharing_ok target (gb_paging g) lvl (others ++ objects (buffers (gb_registry g)));
  gk_target : forall t, space_of g t = Some (target t);
  gk_registry : registry_ok (gb_registry g);
  gk_slots : length (us_slots (gb_user g)) = 16%nat;
}.

Lemma target_space_run g t space : space_of g t = Some space -> target_space t g = (Ok space, g).
Proof.
  intros Ht. unfold space_of in Ht. unfold target_space. destruct (address_space_of t (gb_user g)) as [s|]; [congruence|].
  unfold paged, kernel_space, require. cbv beta iota delta [mbind M_bind get]. rewrite Ht. cbn [mret M_ret].
  destruct g as [[[]] ? ? ?]. done.
Qed.

(** Only the tables and the other objects changed. *)
Lemma gbm_repaged target others others' g lvl s lvl' : gbm_ok target others g lvl ->
  sharing_ok target s lvl' (others' ++ objects (buffers (gb_registry g))) -> same_rest (gb_paging g) s ->
  gbm_ok target others' (set_user g (set_paging (gb_user g) s)) lvl'.
Proof.
  intros [Hs Ht Hr Hsl] Hs' (_ & Hk & _). split; try done. intros t. rewrite <- (Ht t). unfold space_of, gb_paging in *.
  cbn [gb_user set_user set_paging us_loader ld_paging us_threads address_space_of] in *. unfold address_space_of in *. cbn [us_threads]. by rewrite Hk.
Qed.

Lemma gbm_paged target others g lvl s lvl' : gbm_ok target others g lvl ->
  sharing_ok target s lvl' (others ++ objects (buffers (gb_registry g))) -> same_rest (gb_paging g) s ->
  gbm_ok target others (set_user g (set_paging (gb_user g) s)) lvl'.
Proof. apply gbm_repaged. Qed.

Lemma gbm_beside target others others' g lvl : gbm_ok target others g lvl ->
  sharing_ok target (gb_paging g) lvl (others' ++ objects (buffers (gb_registry g))) -> gbm_ok target others' g lvl.
Proof. intros [Hs Ht Hr Hsl] Hs'. by split. Qed.

(** ** Making a buffer *)

Section Operations.
Context `{!Mapper, !TranslateLaw, !MapLaw, !UnmapLaw} (target : nat -> Z) (others : list Shared).

(** [n] more frames for an object, or none and those there were given back. *)
Lemma take_frames_sharing lvl objs n : forall s taken, sharing_ok target s lvl (objs ++ [fresh_object taken]) ->
  match take_frames n taken s with
  | (Ok fs, s') => sharing_ok target s' lvl (objs ++ [fresh_object fs]) /\ same_rest s s' /\ length fs = (length taken + n)%nat
  | (Err e, s') => e = OutOfMemory /\ sharing_ok target s' lvl objs /\ same_rest s s'
  | (Panic, _) => False
  end.
Proof.
  induction n as [|n IH]; intros s taken Hok; cbn [take_frames]; [split_and!; try done; lia|].
  cbv beta iota delta [mbind M_bind]. pose proof (allocate_sharing (E:=Error) target s lvl objs taken Hok) as Ha.
  destruct (frame_allocate s) as [[[f|]|e|] s1]; [|..|done|done].
  - destruct Ha as (Hok1 & Hrest1 & _). specialize (IH s1 (taken ++ [f]) Hok1). destruct (take_frames n (taken ++ [f]) s1) as [[fs|e|] s2]; [| |done].
    + destruct IH as (Hok2 & Hrest2 & Hlen). rewrite length_app in Hlen. cbn [length] in Hlen. split; [done|]. split; [by etrans|lia].
    + destruct IH as (-> & Hok2 & Hrest2). split; [done|]. split; [done|by etrans].
  - subst s1. destruct (free_object_sharing (E:=Error) target s lvl objs (fresh_object taken) [] Hok eq_refl) as (s2 & Hrun & Hok2 & Hrest & _).
    change (own_frames (fresh_object taken)) with taken in Hrun. rewrite Hrun. cbn [fail]. rewrite app_nil_r in Hok2. done.
Qed.

Lemma new_registry_ok r b : registry_ok r -> buffer_ok b -> registry_ok (insert_buffer r b).
Proof.
  intros [Hid Hbelow Hb Ho] Hnew. split; cbn [insert_buffer buffers next_id next_offset]; try done.
  - rewrite fmap_app. apply NoDup_app. split; [done|]. split; [|apply NoDup_singleton]. intros id Hin Hx. apply list_elem_of_singleton in Hx as ->.
    apply list_elem_of_fmap in Hin as ([k x] & Heq & Hin). apply Hbelow in Hin. cbn in Heq. lia.
  - intros id x [Hin|Hin]%elem_of_app; [apply Hbelow in Hin; lia|]. apply list_elem_of_singleton in Hin as [= -> ->]. lia.
  - intros id x [Hin|Hin]%elem_of_app; [by eapply Hb|]. by apply list_elem_of_singleton in Hin as [= -> ->].
Qed.

Lemma gbm_new_registry g lvl r' : gbm_ok target others g lvl -> sharing_ok target (gb_paging g) lvl (others ++ objects (buffers r')) -> registry_ok r' ->
  gbm_ok target others (set_registry g r') lvl.
Proof. intros [Hs Ht Hr Hsl] Hs' Hr'. by split. Qed.

Lemma fresh_buffer_ok info fs owned owner : Z.of_nat (length fs) = pages_of info ->
  buffer_ok {| b_info := info; b_frames := fs; b_owns_frames := owned; b_owner := owner; b_shared_with := []; b_mappings := []; b_orphaned := false |}.
Proof. intros Hlen. split; cbn; [done|apply NoDup_nil_2|..]; intros t a Hin; by apply elem_of_nil in Hin. Qed.

Lemma check_quota_run owner size g : check_quota owner size g = (Ok tt, g) \/ check_quota owner size g = (Err QuotaExceeded, g).
Proof. unfold check_quota. destruct (holdings owner (gb_registry g)) as [c n]. destruct (_ || _); auto. Qed.

(** Making a buffer keeps everything safe and never panics. *)
Lemma buffer_create_ok g lvl owner width height : gbm_ok target others g lvl -> 0 <= width -> 0 <= height -> 0 <= bytes_per_pixel g ->
  let '(r, g') := create owner width height g in r <> Panic /\ gbm_ok target others g' lvl.
Proof.
  intros Hok Hw Hh Hbpp. unfold create, guard_err. cbv beta iota delta [mbind M_bind get]. destruct (_ || _); [done|]. cbn [mret M_ret].
  unfold lift, checked_mul. destruct (width * bytes_per_pixel g <=? U32_MAX); cbn [ok_or]; [|done].
  destruct (width * bytes_per_pixel g * height <=? U64_MAX); cbn [ok_or]; [|done]. destruct (MAX_BUFFER_BYTES <? _); [done|]. cbn [mret M_ret].
  set (size := width * bytes_per_pixel g * height). destruct (check_quota_run owner size g) as [-> | ->]; [|done].
  unfold paged. pose proof (gk_sharing _ _ _ _ Hok) as Hsh.
  pose proof (take_frames_sharing lvl (others ++ objects (buffers (gb_registry g))) (Z.to_nat (div_ceil size PAGE_SIZE)) (gb_paging g) []
    (sharing_add target _ _ _ (fresh_object []) Hsh eq_refl ltac:(done))) as Ht.
  destruct (take_frames _ [] (gb_paging g)) as [[fs|e|] s']; [| |done].
  - destruct Ht as (Hs' & Hrest & Hlen). split; [done|]. cbn [registry put_registry gb_registry set_user mret M_ret].
    set (b := {| b_info := _ |}). set (g1 := set_user g _).
    assert (Hsh1 : sharing_ok target s' lvl (others ++ objects (buffers (insert_buffer (gb_registry g) b)))).
    { unfold objects. cbn [insert_buffer buffers]. by rewrite fmap_app, app_assoc. }
    pose proof (sharing_forget target s' lvl _ (others ++ objects (buffers (gb_registry g))) Hs' (sublist_inserts_r _ _ _ ltac:(done))) as Hsh0.
    apply (gbm_new_registry g1 lvl); [by apply (gbm_paged target others g lvl)|done|]. apply new_registry_ok; [apply Hok|]. apply fresh_buffer_ok.
    unfold pages_of. cbn [bi_size]. assert (0 <= div_ceil size PAGE_SIZE) by (apply div_ceil_nonneg; [unfold size; nia|done]). cbn [length] in Hlen. unfold size in *. lia.
  - destruct Ht as (-> & Hs' & Hrest). split; [done|]. by apply (gbm_paged target others g lvl).
Qed.

(** ** Sharing and the screen *)

(** One buffer changed, its memory and its mappings not. *)
Lemma registry_update r id b f before after : registry_ok r -> buffers r = before ++ (id, b) :: after -> buffer_ok (f b) ->
  registry_ok (with_buffers r (before ++ (id, f b) :: after)).
Proof.
  intros [Hid Hbelow Hb Ho] Heq Hnew. split; cbn [with_buffers buffers next_id next_offset]; try done.
  - rewrite Heq in Hid. by rewrite fmap_app in *.
  - intros k x Hin. rewrite Heq in Hbelow. apply elem_of_app in Hin as [Hin|[Hin|Hin]%elem_of_cons]; [apply (Hbelow k x); set_solver| |apply (Hbelow k x); set_solver].
    injection Hin as -> ->. apply (Hbelow id b). set_solver.
  - intros k x Hin. rewrite Heq in Hb. apply elem_of_app in Hin as [Hin|[Hin|Hin]%elem_of_cons]; [apply (Hb k x); set_solver| |apply (Hb k x); set_solver].
    by injection Hin as -> ->.
Qed.

Lemma gbm_update g lvl id b f : gbm_ok target others g lvl -> lookup_id id (buffers (gb_registry g)) = Some b ->
  object_of (f b) = object_of b -> buffer_ok (f b) ->
  gbm_ok target others (set_registry g (with_buffers (gb_registry g) (update_id id f (buffers (gb_registry g))))) lvl.
Proof.
  intros Hok Hl Hobj Hnew. destruct (lookup_id_split _ _ _ Hl) as (before & after & Heq).
  pose proof (rk_ids _ (gk_registry _ _ _ _ Hok)) as Hid. rewrite Heq in Hid.
  rewrite Heq, (update_split id before after b Hid). apply (gbm_new_registry g lvl); [done| |].
  - pose proof (gk_sharing _ _ _ _ Hok) as Hs. rewrite Heq in Hs. unfold objects in *. cbn [with_buffers buffers]. rewrite fmap_app in *. cbn [fmap list_fmap] in *. by rewrite Hobj.
  - by apply (registry_update _ _ b f); [apply Hok|..].
Qed.

Lemma shares_ok b l : buffer_ok b -> (forall t, t ∈ b_shared_with b -> t ∈ l) -> buffer_ok (with_shares b l).
Proof.
  intros [Hf Ho Hs Ha] Hsub. split; try done. intros t a Hin. specialize (Ha t a Hin). unfold b_may_access in *. cbn [with_shares b_owner b_shared_with].
  apply orb_true_iff in Ha as [->|Hx%bool_decide_eq_true]; [done|]. rewrite (bool_decide_true (t ∈ l)) by auto. apply orb_true_r.
Qed.

Lemma lookup_id_ok g lvl id b : gbm_ok target others g lvl -> lookup_id id (buffers (gb_registry g)) = Some b -> buffer_ok b.
Proof.
  intros Hok Hl. destruct (lookup_id_split _ _ _ Hl) as (before & after & Heq). apply (rk_buffers _ (gk_registry _ _ _ _ Hok) id). rewrite Heq. set_solver.
Qed.

Lemma share_ok g lvl owner thread buffer : gbm_ok target others g lvl ->
  let '(r, g') := share owner thread buffer g in r <> Panic /\ gbm_ok target others g' lvl.
Proof.
  intros Hok. unfold share, registry, put_registry, lift, guard_err. cbv beta iota delta [mbind M_bind].
  destruct (lookup_id buffer (buffers (gb_registry g))) as [b|] eqn:Hl; cbn [ok_or]; [|done]. destruct (negb _); [done|]. cbn [mret M_ret].
  split; [done|]. apply (gbm_update g lvl buffer b); [done|done| |].
  - unfold share_buffer. by destruct (bool_decide _).
  - pose proof (lookup_id_ok _ _ _ _ Hok Hl) as Hb. unfold share_buffer. destruct (bool_decide _); [done|]. apply shares_ok; [done|set_solver].
Qed.

Lemma allow_ok g lvl thread : gbm_ok target others g lvl -> let '(r, g') := allow_display_server thread g in r <> Panic /\ gbm_ok target others g' lvl.
Proof. intros Hok. split; [done|]. apply (gbm_new_registry g lvl); [done|apply Hok|]. destruct Hok as [_ _ [] _]. by split. Qed.

(** The screen's memory lies beyond what the allocator manages. *)
Definition screen_outside (g : Gbm) : Prop :=
  forall d pa, gb_display g = Some d -> fst (translate (E:=Error) (d_address d) (gb_paging g)) = Ok (Some pa) ->
    forall f, f ∈ display_frames pa (Z.to_nat (div_ceil (d_byte_len d) PAGE_SIZE)) -> foreign (gb_paging g) f.

Lemma translate_run {E} s lvl va : paging_ok s lvl -> exists o, translate (E:=E) va s = (Ok o, s).
Proof.
  intros [Hok _ _ Hroot [w Hw]]. unfold translate, translate_in, with_space, require. cbv beta iota delta [mbind M_bind get]. rewrite Hw. cbn [mret M_ret]. by eexists.
Qed.

Lemma scanout_ok g lvl owner : gbm_ok target others g lvl -> screen_outside g -> (forall d, gb_display g = Some d -> 0 <= d_byte_len d) ->
  let '(r, g') := scanout owner g in r <> Panic /\ gbm_ok target others g' lvl.
Proof.
  intros Hok Hout Hlen. unfold scanout, registry, put_registry, lift, guard_err. cbv beta iota delta [mbind M_bind get].
  destruct (negb _); [done|]. cbn [mret M_ret]. destruct (gb_display g) as [d|] eqn:Hd; cbn [ok_or]; [|done]. specialize (Hlen d eq_refl).
  destruct (translate_run (E:=Error) (gb_paging g) lvl (d_address d)) as [o Ho]; [apply Hok|]. unfold paged. rewrite Ho.
  assert (set_user g (set_paging (gb_user g) (gb_paging g)) = g) as -> by (by destruct g as [[[]] ? ? ?]).
  destruct o as [pa|]; cbn [ok_or]; [|done]. specialize (Hout d pa Hd ltac:(by rewrite Ho)).
  destruct (r_scanout (gb_registry g)) as [existing|] eqn:Hsc; (split; [done|]).
  - destruct (lookup_id existing (buffers (gb_registry g))) as [b|] eqn:Hl.
    + apply (gbm_update g lvl existing b); [done|done| |]; destruct (b_may_access b owner); try done; [by eapply lookup_id_ok|].
      apply shares_ok; [by eapply lookup_id_ok|set_solver].
    + rewrite update_other; [by destruct Hok as [? ? [] ?]; split|]. intros x Hx.
      rewrite (lookup_id_elem existing _ x) in Hl; [done|apply Hok|done].
  - set (b := {| b_info := _ |}). set (r := insert_buffer (gb_registry g) b).
    assert (Hro : registry_ok r).
    { apply new_registry_ok; [apply Hok|]. apply fresh_buffer_ok. unfold display_frames. rewrite length_fmap, length_seq. unfold pages_of. cbn [bi_size].
      pose proof (div_ceil_nonneg (d_byte_len d) PAGE_SIZE Hlen ltac:(done)). lia. }
    apply (gbm_new_registry g lvl); [done| |destruct Hro; by split]. cbn [buffers]. unfold objects, r. cbn [insert_buffer buffers]. rewrite fmap_app, app_assoc.
    apply sharing_add; [apply Hok|done|]. intros _ f Hf. by apply Hout.
Qed.

(** ** Mapping *)

Lemma position_range f sl i j : position f sl i = Some j -> i <= j < i + Z.of_nat (length sl).
Proof.
  revert i. induction sl as [|x sl IH]; intros i; cbn [position]; [done|]. destruct (f x); [intros [= <-]; cbn; lia|].
  intros Hj%IH. cbn [length]. lia.
Qed.

Lemma claim_slot_range t sl : let '(o, sl') := claim_slot t sl in
  length sl' = length sl /\ forall k, o = Some k -> 0 <= k < Z.of_nat (length sl).
Proof.
  unfold claim_slot. destruct (position (held_by t) sl 0) as [k|] eqn:Hk; [split; [done|]; intros ? [= <-]; apply position_range in Hk; lia|].
  destruct (position is_none sl 0) as [k|] eqn:Hk'; [|done]. rewrite length_insert. split; [done|]. intros ? [= <-]. apply position_range in Hk'. lia.
Qed.

(** An address reserved lies in the thread's slot, above everything reserved before. *)
Lemma reserve_ok g lvl thread (n : nat) : gbm_ok target others g lvl ->
  let '(r, g') := reserve thread (Z.of_nat n * PAGE_SIZE) g in
  gbm_ok target others g' lvl /\ gb_paging g' = gb_paging g /\ buffers (gb_registry g') = buffers (gb_registry g) /\
  match r with
  | Ok a => span_ok a n /\ exists slot, 0 <= slot < 16 /\
      let old := default BUFFER_AREA_OFFSET (next_offset (gb_registry g) !! thread) in
      a = slot_base slot + old /\ next_offset (gb_registry g') !! thread = Some (old + Z.of_nat n * PAGE_SIZE)
  | Err e => e = OutOfMemory
  | Panic => False
  end.
Proof.
  intros [Hs Ht [Hid Hbelow Hb Ho] Hsl]. unfold reserve, ensure_slot. pose proof (claim_slot_range thread (us_slots (gb_user g))) as Hc.
  destruct (claim_slot thread (us_slots (gb_user g))) as [slot sl]. destruct Hc as [Hlen Hk].
  destruct slot as [slot|]; [|split; [split; try done; cbn; congruence|done]]. specialize (Hk slot eq_refl). rewrite Hsl in Hk.
  cbn [set_user gb_registry]. set (old := default BUFFER_AREA_OFFSET (next_offset (gb_registry g) !! thread)).
  assert (Hold : 0 <= old <= SLOT_SIZE /\ old mod 4096 = 0).
  { unfold old. destruct (next_offset (gb_registry g) !! thread) as [o|] eqn:Hx; [by apply (Ho thread)|]. split; [split; vm_compute; discriminate|reflexivity]. }
  assert (Hnew : forall o, 0 <= o <= SLOT_SIZE -> o mod 4096 = 0 ->
    gbm_ok target others (set_registry (set_user g (set_slots (gb_user g) sl)) (with_offset (gb_registry g) thread o)) lvl).
  { intros o Ho1 Ho2. split; try done; [|cbn; congruence]. split; try done. cbn [gb_registry set_registry with_offset next_offset].
    intros t x Hx. apply lookup_insert_Some in Hx as [[_ <-]|[_ Hx]]; [done|by apply (Ho t)]. }
  assert (Hon : (old + Z.of_nat n * PAGE_SIZE) mod 4096 = 0) by (unfold PAGE_SIZE; Z.div_mod_to_equations; lia).
  destruct (SLOT_SIZE <? old + Z.of_nat n * PAGE_SIZE) eqn:Hfit.
  - split; [by apply Hnew; apply Hold|done].
  - split; [apply Hnew; [unfold PAGE_SIZE in *; lia|done]|]. split; [done|]. split; [done|]. split.
    + intros i Hi. split.
      * change USER_REGION_END with (USER_BASE + 16 * SLOT_SIZE). unfold slot_base_of, slot_base, PAGE_SIZE in *. change SLOT_SIZE with 67108864 in *. lia.
      * apply page_aligned. unfold slot_base_of, slot_base. change SLOT_SIZE with (16384 * 4096). change USER_BASE with (8589934592 * 4096). Z.div_mod_to_equations. lia.
    + exists slot. split; [lia|]. split; [done|]. cbn [gb_registry set_registry with_offset next_offset]. apply lookup_insert_eq.
Qed.

(** What [map] leaves behind. *)
Definition map_outcome (g : Gbm) (lvl : levels) (thread : nat) (buffer : Z) (out : result Error Z * Gbm) : Prop :=
  exists lvl', gbm_ok target others (snd out) lvl' /\ (forall f, lvl' !! f = Some 4%nat <-> lvl !! f = Some 4%nat) /\
  match fst out with
  | Ok a => exists b, lookup_id buffer (buffers (gb_registry g)) = Some b /\ b_may_access b thread = true /\
      (mapping_of thread (b_mappings b) = Some a /\ snd out = g \/
       mapping_of thread (b_mappings b) = None /\ span_ok a (length (b_frames b)) /\
       (forall i f, bi_size (b_info b) <> 0 -> b_frames b !! i = Some f -> page_of (gb_paging (snd out)) (target thread) (a + Z.of_nat i * 4096) = Some (f, pixels)) /\
       forall root page, lvl !! root = Some 4%nat -> user_page page ->
         ~ (root = target thread /\ a <= page < a + Z.of_nat (length (b_frames b)) * 4096) ->
         page_of (gb_paging (snd out)) root page = page_of (gb_paging g) root page)
  | Err _ => True
  | Panic => False
  end.

Lemma mapping_of_none thread l : mapping_of thread l = None -> thread ∉ l.*1.
Proof.
  induction l as [|[t a] l IH]; cbn [mapping_of fmap list_fmap fst]; [intros _; apply not_elem_of_nil|]. case_bool_decide as Hd; [done|].
  intros Hx%IH [Heq|Hin]%elem_of_cons; [by apply Hd|done].
Qed.

Lemma new_mapping_ok b thread a : buffer_ok b -> b_may_access b thread = true -> mapping_of thread (b_mappings b) = None ->
  span_ok a (length (b_frames b)) -> buffer_ok (with_mappings b (b_mappings b ++ [(thread, a)])).
Proof.
  intros [Hf Ho Hs Ha] Hacc Hnone Hspan. split; cbn [with_mappings b_mappings b_frames b_info]; try done.
  - rewrite fmap_app. apply NoDup_app. split; [done|]. split; [|apply NoDup_singleton]. intros t Hin Hx. apply list_elem_of_singleton in Hx as ->.
    by apply (mapping_of_none _ _ Hnone).
  - intros t x [Hin|Hin]%elem_of_app; [by apply (Hs t)|]. by apply list_elem_of_singleton in Hin as [= -> ->].
  - intros t x [Hin|Hin]%elem_of_app; [by apply (Ha t x)|]. by apply list_elem_of_singleton in Hin as [= -> ->].
Qed.

Lemma map_correct g lvl thread buffer : gbm_ok target others g lvl -> map_outcome g lvl thread buffer (map thread buffer g).
Proof.
  intros Hok. unfold map, registry, put_registry, lift, guard_err. cbv beta iota delta [mbind M_bind].
  destruct (lookup_id buffer (buffers (gb_registry g))) as [b|] eqn:Hl; cbn [ok_or]; [|by exists lvl].
  destruct (b_may_access b thread) eqn:Hacc; cbn [negb]; [|by exists lvl]. cbn [mret M_ret].
  destruct (mapping_of thread (b_mappings b)) as [a|] eqn:Hm; [exists lvl; split; [done|]; split; [done|]; exists b; split_and!; auto|].
  pose proof (lookup_id_ok _ _ _ _ Hok Hl) as Hb. rewrite <- (bk_frames _ Hb).
  pose proof (reserve_ok g lvl thread (length (b_frames b)) Hok) as Hres. destruct (reserve thread _ g) as [[a|e|] g1]; [| |by destruct Hres as (_ & _ & _ & [])].
  2:{ destruct Hres as (Hok1 & _). by exists lvl. }
  destruct Hres as (Hok1 & Hp1 & Hb1 & Hspan & _). rewrite <- Hb1 in Hl. destruct (lookup_id_split _ _ _ Hl) as (before & after & Heq).
  set (b' := with_mappings b (b_mappings b ++ [(thread, a)])).
  pose proof (rk_ids _ (gk_registry _ _ _ _ Hok1)) as Hid. rewrite Heq in Hid.
  rewrite Heq, (update_split buffer before after b Hid). fold b'. set (g2 := set_registry g1 _).
  assert (Hok2 : gbm_ok target others g2 lvl).
  { apply (gbm_new_registry g1 lvl); [done| |].
    - pose proof (gk_sharing _ _ _ _ Hok1) as Hs. rewrite Heq in Hs. unfold objects in *. cbn [with_buffers buffers]. rewrite fmap_app, app_assoc in *. cbn [fmap list_fmap] in *.
      apply (sharing_relabel_one target _ _ _ (object_of b)); [done|]. apply buffer_relabels; [done|done|]. cbn. set_solver.
    - apply (registry_update _ _ b (fun _ => b')); [apply Hok1|done|]. by apply new_mapping_ok. }
  assert (Hpag2 : gb_paging g2 = gb_paging g) by (by rewrite <- Hp1).
  destruct (bi_size (b_info b) =? 0) eqn:Hz.
  { exists lvl. split; [done|]. split; [done|]. exists b. rewrite <- Hb1, Hl. split_and!; try done. right. split_and!; try done; [lia|].
    intros root page _ _ _. change (page_of (gb_paging g2) root page = page_of (gb_paging g) root page). by rewrite Hpag2. }
  rewrite (target_space_run g2 thread (target thread)) by apply Hok2. unfold paged.
  assert (Hin : object_of b' ∈ others ++ objects (buffers (gb_registry g2))) by (unfold objects; cbn; rewrite fmap_app; set_solver).
  destruct (map_frames_sharing target _ (object_of b') thread a (fun _ => pixels) (b_frames b) Hin ltac:(apply record_elem; cbn; set_solver) Hspan ltac:(done)
    (gb_paging g2) lvl [] eq_refl (gk_sharing _ _ _ _ Hok2)) as (r & s3 & lvl3 & Hrun & Hok3 & Hrest3 & _ & Hr3 & Hoth & Hmap).
  cbn [length] in Hrun. rewrite Hrun. exists lvl3. cbn [fst snd length] in *.
  destruct r as [[]|e|]; [| |done]; (split; [by apply (gbm_paged target others g2 lvl)|]); (split; [done|]); [|done].
  exists b. rewrite <- Hb1, Hl. split_and!; try done. right. split_and!; try done.
  - intros i f _ Hf. apply Hmap; [lia|done].
  - intros root page H4 Hp Hnot. rewrite <- Hpag2. apply Hoth; [done|done|]. intros [-> ?]. apply Hnot. split; [done|]. cbn in *. lia.
Qed.

(** ** Unmapping and giving back *)

Lemma set_paging_id g : set_user g (set_paging (gb_user g) (gb_paging g)) = g.
Proof. by destruct g as [[[]] ? ? ?]. Qed.

Definition spans_cover (spans : list (Z * Z)) (page : Z) : bool := existsb (fun '(a, p) => (a <=? page) && (page <? a + p * 4096)) spans.

(** The pages of some spans of a space are gone, and no other. *)
Lemma unmap_spans_run objs space spans : forall g lvl, sharing_ok target (gb_paging g) lvl objs -> lvl !! space = Some 4%nat ->
  (forall a p, (a, p) ∈ spans -> 0 <= p /\ span_ok a (Z.to_nat p)) ->
  exists s' lvl', unmap_spans space spans g = (Ok tt, set_user g (set_paging (gb_user g) s')) /\ sharing_ok target s' lvl' objs /\
    same_rest (gb_paging g) s' /\ (forall f, lvl' !! f = Some 4%nat <-> lvl !! f = Some 4%nat) /\
    forall root page, lvl !! root = Some 4%nat -> user_page page ->
      page_of s' root page = if bool_decide (root = space) && spans_cover spans page then None else page_of (gb_paging g) root page.
Proof.
  induction spans as [|[a p] spans IH]; intros g lvl Hok H4 Hall; cbn [unmap_spans].
  { exists (gb_paging g), lvl. rewrite set_paging_id. split_and!; try done. intros. by rewrite andb_false_r. }
  destruct (Hall a p ltac:(left)) as [Hp Hspan]. unfold unmap_span, paged. cbv beta iota delta [mbind M_bind].
  destruct (unmap_pages_sharing target objs space (Z.to_nat p) (gb_paging g) lvl a Hok H4 Hspan) as (s1 & lvl1 & -> & Hok1 & Hrest1 & _ & Hr1 & Hv1).
  rewrite Z2Nat.id in Hv1 by lia. set (g1 := set_user g (set_paging (gb_user g) s1)).
  destruct (IH g1 lvl1 Hok1) as (s2 & lvl2 & -> & Hok2 & Hrest2 & Hr2 & Hv2); [by apply Hr1|intros; apply Hall; by right|].
  exists s2, lvl2. split; [done|]. split; [done|]. split; [etrans; [exact Hrest1|exact Hrest2]|]. split; [intros f; by rewrite Hr2, Hr1|].
  intros root page Hroot Hpage. rewrite Hv2 by (done || by apply Hr1). change (gb_paging g1) with s1. rewrite Hv1 by done. cbn [spans_cover existsb].
  fold (spans_cover spans page). case_bool_decide as Hd; cbn [andb]; [|rewrite decide_False by tauto; done].
  destruct (spans_cover spans page); [by rewrite orb_true_r|]. rewrite orb_false_r.
  destruct ((a <=? page) && (page <? a + p * 4096)) eqn:Hc; [rewrite decide_True; [done|split; [done|lia]]|rewrite decide_False; [done|lia]].
Qed.

Lemma mapping_of_elem thread l a : mapping_of thread l = Some a -> (thread, a) ∈ l.
Proof. induction l as [|[t x] l IH]; cbn [mapping_of]; [done|]. case_bool_decide as Hd; [intros [= ->]; subst; by left|]. intros Hx%IH. by right. Qed.

Lemma mapping_of_only thread l a a' : NoDup l.*1 -> mapping_of thread l = Some a -> (thread, a') ∈ l -> a' = a.
Proof.
  induction l as [|[t x] l IH]; cbn [mapping_of fmap list_fmap fst]; [done|]. rewrite NoDup_cons. intros [Hno Hnd]. case_bool_decide as Hd.
  - subst t. intros [= ->] [Hin|Hin]%elem_of_cons; [congruence|]. exfalso. apply Hno. apply list_elem_of_fmap. by exists (thread, a').
  - intros Hm [Hin|Hin]%elem_of_cons; [congruence|]. by apply IH.
Qed.

(** The spans of a thread's mapping of a buffer. *)
Lemma withdrawn_span_ok b thread a p : buffer_ok b -> (a, p) ∈ withdrawn_span thread b -> 0 <= p /\ span_ok a (Z.to_nat p).
Proof.
  intros Hb. unfold withdrawn_span. destruct (mapping_of thread (b_mappings b)) as [x|] eqn:Hm; [|by intros ?%elem_of_nil].
  intros [= -> ->]%list_elem_of_singleton. rewrite <- (bk_frames _ Hb), Nat2Z.id. split; [lia|]. by apply (bk_span _ Hb thread), mapping_of_elem.
Qed.

(** Once its span is unmapped, a thread's record may go. *)
Lemma dangling_span s b thread spans : buffer_ok b ->
  (forall page, user_page page -> spans_cover spans page = true -> page_of s (target thread) page = None) ->
  (forall x, x ∈ withdrawn_span thread b -> x ∈ spans) ->
  forall a, (thread, a) ∈ b_mappings b -> dangling target s (object_of b) thread a.
Proof.
  intros Hb Hgone Hsub a Hin i Hi Hpg. apply Hgone; [done|]. unfold spans_cover. apply existsb_exists.
  destruct (mapping_of thread (b_mappings b)) as [x|] eqn:Hm; [|by destruct (mapping_of_none _ _ Hm); apply list_elem_of_fmap; exists (thread, a)].
  assert (a = x) as -> by (by eapply mapping_of_only; [apply (bk_once _ Hb)|..]). exists (x, pages_of (b_info b)).
  split; [apply list_elem_of_In, Hsub; unfold withdrawn_span; rewrite Hm; by left|]. rewrite <- (bk_frames _ Hb). cbn in Hi. lia.
Qed.

Lemma drop_reference_ok b thread : buffer_ok b -> buffer_ok (drop_reference thread b).
Proof.
  intros [Hf Ho Hs Ha]. unfold drop_reference. split; cbn [with_shares with_mappings b_info b_frames b_mappings]; [done| | |].
  - eapply sublist_NoDup; [exact Ho|]. apply fmap_sublist, sublist_filter.
  - intros t a [_ Hin]%list_elem_of_filter. by apply (Hs t).
  - intros t a [Hne Hin]%list_elem_of_filter. specialize (Ha t a Hin). unfold b_may_access in *. cbn [with_shares with_mappings b_owner b_shared_with].
    apply orb_true_iff in Ha as [->|Hx%bool_decide_eq_true]; [done|]. rewrite (bool_decide_true (t ∈ filter _ _)); [apply orb_true_r|].
    apply list_elem_of_filter. done.
Qed.

Lemma drop_reference_relabels s b thread : (forall a, (thread, a) ∈ b_mappings b -> dangling target s (object_of b) thread a) ->
  relabels target s (object_of b) (object_of (drop_reference thread b)).
Proof.
  intros Hd. apply buffer_relabels; [done|done|]. cbn. intros t a Hin. destruct (decide (t = thread)) as [->|Hne]; [right; by apply Hd|left].
  by apply list_elem_of_filter.
Qed.

(** Giving up a mapping. *)
Lemma unmap_ok g lvl thread buffer : gbm_ok target others g lvl ->
  let '(r, g') := unmap thread buffer g in r <> Panic /\ exists lvl', gbm_ok target others g' lvl'.
Proof.
  intros Hok. unfold unmap, registry, put_registry, lift. cbv beta iota delta [mbind M_bind].
  destruct (lookup_id buffer (buffers (gb_registry g))) as [b|] eqn:Hl; cbn [ok_or]; [|by split; [|exists lvl]].
  destruct (mapping_of thread (b_mappings b)) as [a|] eqn:Hm; cbn [ok_or]; [|by split; [|exists lvl]].
  pose proof (lookup_id_ok _ _ _ _ Hok Hl) as Hb. rewrite (target_space_run g thread (target thread)) by apply Hok.
  destruct (unmap_spans_run _ (target thread) (withdrawn_span thread b) g lvl (gk_sharing _ _ _ _ Hok) (sk_target _ _ _ _ (gk_sharing _ _ _ _ Hok) thread))
    as (s1 & lvl1 & Hrun & Hok1 & Hrest1 & Hr1 & Hv1); [intros; by eapply withdrawn_span_ok|].
  unfold withdrawn_span in Hrun. rewrite Hm in Hrun. cbn [unmap_spans] in Hrun. cbv beta iota delta [mbind M_bind] in Hrun.
  destruct (unmap_span (target thread) a (pages_of (b_info b)) g) as [[[]|e|] g1]; [|done..]. injection Hrun as ->.
  set (g1 := set_user g (set_paging (gb_user g) s1)). change (gb_registry g1) with (gb_registry g). rewrite Hl.
  assert (Hok1' : gbm_ok target others g1 lvl1) by (by apply (gbm_paged target others g lvl)).
  destruct (lookup_id_split _ _ _ Hl) as (before & after & Heq). pose proof (rk_ids _ (gk_registry _ _ _ _ Hok)) as Hid. rewrite Heq in Hid.
  assert (Hs1 : sharing_ok target s1 lvl1 (others ++ objects (before ++ (buffer, drop_reference thread b) :: after))).
  { pose proof (gk_sharing _ _ _ _ Hok1') as Hs. change (gb_registry g1) with (gb_registry g) in Hs. rewrite Heq in Hs. unfold objects in *. rewrite fmap_app, app_assoc in *. cbn [fmap list_fmap] in *.
    apply (sharing_relabel_one target _ _ _ (object_of b)); [done|]. apply drop_reference_relabels. apply (dangling_span s1 b thread (withdrawn_span thread b)); [done| |done].
    intros page Hpage Hc. rewrite Hv1 by (done || apply (sk_target _ _ _ _ (gk_sharing _ _ _ _ Hok))). by rewrite bool_decide_true, Hc. }
  destruct (is_unreferenced (gb_registry g) buffer (drop_reference thread b)) eqn:Hun.
  - rewrite Heq, (remove_split buffer before after b Hid). unfold paged.
    unfold objects in Hs1. rewrite fmap_app, app_assoc in Hs1. cbn [fmap list_fmap] in Hs1.
    destruct (free_object_sharing (E:=Error) target s1 lvl1 _ _ _ Hs1) as (s2 & Hfree & Hok2 & Hrest2 & _).
    { unfold is_unreferenced in Hun. apply andb_true_iff in Hun as [[[_ Hx]%andb_true_iff _]%andb_true_iff _]. apply bool_decide_eq_true in Hx. unfold object_of. by rewrite Hx. }
    change (own_frames (object_of (drop_reference thread b))) with (kept_frames (drop_reference thread b)) in Hfree.
    change (gb_paging (set_registry g1 _)) with s1. rewrite Hfree. split; [done|]. exists lvl1.
    rewrite <- app_assoc, <- fmap_app in Hok2. set (g2 := set_registry g1 _).
    assert (Hreg2 : registry_ok (gb_registry g2)).
    { destruct (gk_registry _ _ _ _ Hok) as [_ Hbelow Hbs Hoff]. cbn. rewrite Heq in Hbelow, Hbs. split; cbn [with_buffers buffers next_id next_offset]; try done.
      - rewrite fmap_app in *. cbn [fmap list_fmap fst] in Hid. eapply sublist_NoDup; [exact Hid|]. apply sublist_app; [done|by constructor].
      - intros k x Hin. apply (Hbelow k x). set_solver.
      - intros k x Hin. apply (Hbs k x). set_solver. }
    destruct Hok1' as [_ Ht _ Hsl]. split; [exact Hok2| |exact Hreg2|exact Hsl].
    intros t. rewrite <- (Ht t). unfold space_of, address_space_of. cbn. by rewrite (proj1 (proj2 Hrest2)).
  - split; [done|]. exists lvl1. rewrite Heq, (update_split buffer before after b Hid). apply (gbm_new_registry g1 lvl1); [done|done|].
    apply (registry_update _ _ b (drop_reference thread)); [apply Hok|done|]. by apply drop_reference_ok.
Qed.

Lemma remove_mapping_keeps thread l t a : t <> thread -> (t, a) ∈ l -> (t, a) ∈ remove_mapping thread l.
Proof.
  intros Hne. induction l as [|[u x] l IH]; cbn [remove_mapping]; [done|]. case_bool_decide as Hd; intros [Hin|Hin]%elem_of_cons.
  - congruence.
  - done.
  - rewrite Hin. by left.
  - right. by apply IH.
Qed.

Lemma remove_mapping_sub thread l : remove_mapping thread l `sublist_of` l.
Proof. induction l as [|[u x] l IH]; cbn [remove_mapping]; [done|]. case_bool_decide; by constructor. Qed.

Lemma remove_mapping_gone thread l a : NoDup l.*1 -> (thread, a) ∉ remove_mapping thread l.
Proof.
  induction l as [|[u x] l IH]; cbn [remove_mapping fmap list_fmap fst]; [intros _; apply not_elem_of_nil|]. rewrite NoDup_cons. intros [Hno Hnd].
  case_bool_decide as Hd.
  - subst u. intros Hin. apply Hno, list_elem_of_fmap. by exists (thread, a).
  - intros [Hin|Hin]%elem_of_cons; [congruence|by apply IH].
Qed.

(** Withdrawing a thread from a buffer leaves the other threads what they had. *)
Lemma withdraw_fields thread screen b : b_info (withdraw thread screen b) = b_info b /\ b_frames (withdraw thread screen b) = b_frames b /\
  b_owns_frames (withdraw thread screen b) = b_owns_frames b /\ b_owner (withdraw thread screen b) = b_owner b /\
  b_mappings (withdraw thread screen b) = remove_mapping thread (b_mappings b) /\
  b_shared_with (withdraw thread screen b) = filter (fun t => t <> thread) (b_shared_with b).
Proof. unfold withdraw. by destruct (_ && _). Qed.

Lemma withdraw_ok b thread screen : buffer_ok b -> buffer_ok (withdraw thread screen b).
Proof.
  intros [Hf Ho Hs Ha]. destruct (withdraw_fields thread screen b) as (Hi & Hfr & _ & How & Hm & Hsh). split; rewrite ?Hi, ?Hfr, ?Hm; [done| | |].
  - eapply sublist_NoDup; [exact Ho|]. apply fmap_sublist, remove_mapping_sub.
  - intros t a Hin. apply (Hs t). eapply elem_of_sublist; [exact Hin|apply remove_mapping_sub].
  - intros t a Hin. assert (t <> thread) by (intros ->; by apply (remove_mapping_gone thread (b_mappings b) a)).
    specialize (Ha t a ltac:(eapply elem_of_sublist; [exact Hin|apply remove_mapping_sub])). unfold b_may_access in *. rewrite How, Hsh.
    apply orb_true_iff in Ha as [->|Hx%bool_decide_eq_true]; [done|]. rewrite (bool_decide_true (t ∈ filter _ _)); [apply orb_true_r|].
    by apply list_elem_of_filter.
Qed.

Lemma withdraw_relabels s b thread screen : (forall a, (thread, a) ∈ b_mappings b -> dangling target s (object_of b) thread a) ->
  relabels target s (object_of b) (object_of (withdraw thread screen b)).
Proof.
  intros Hd. destruct (withdraw_fields thread screen b) as (_ & Hfr & Hw & _ & Hm & _). apply buffer_relabels; [done|done|]. rewrite Hm. intros t a Hin. destruct (decide (t = thread)) as [->|Hne]; [right; by apply Hd|left].
  by apply remove_mapping_keeps.
Qed.

Lemma flat_map_kept l : flat_map (fun '(_, b) => kept_frames b) l = owned_frames (objects l).
Proof. unfold owned_frames, objects. induction l as [|[k b] l IH]; [done|]. cbn [flat_map fmap list_fmap]. by rewrite IH. Qed.

(** Everything a thread held, when it exits. *)
Lemma buffer_release_ok g lvl thread : gbm_ok target others g lvl ->
  let '(r, g') := release_thread thread g in r = Ok tt /\ (exists lvl', gbm_ok target others g' lvl') /\
    forall id b, (id, b) ∈ buffers (gb_registry g') -> thread ∉ (b_mappings b).*1 /\ thread ∉ b_shared_with b.
Proof.
  intros Hok. unfold release_thread, registry, put_registry. cbv beta iota delta [mbind M_bind]. set (r := gb_registry g).
  set (spans := flat_map _ (buffers r)). set (l := _ <$> buffers r). set (dead := filter (fun '(id, b) => is_unreferenced r id b = true) l).
  set (alive := filter (fun '(id, b) => is_unreferenced r id b = false) l). set (g1 := set_registry g _).
  rewrite (target_space_run g1 thread (target thread)) by apply Hok. pose proof (gk_registry _ _ _ _ Hok) as [Hid Hbelow Hbs Hoff].
  pose proof (sk_target _ _ _ _ (gk_sharing _ _ _ _ Hok)) as Htgt.
  destruct (unmap_spans_run (others ++ objects (buffers r)) (target thread) spans g1 lvl (gk_sharing _ _ _ _ Hok) (Htgt thread)) as (s2 & lvl2 & -> & Hok2 & Hrest2 & _ & Hv2).
  { intros a p Hin. apply list_elem_of_In, in_flat_map in Hin as ([id b] & Hin & Hx). apply (withdrawn_span_ok b thread); [|by apply list_elem_of_In].
    apply (Hbs id). by apply list_elem_of_In. }
  assert (Hok3 : sharing_ok target s2 lvl2 (others ++ objects l)).
  { eapply sharing_relabel; [exact Hok2|]. apply Forall2_app; [apply Forall_Forall2_diag, Forall_forall; intros; apply relabels_refl|]. unfold objects, l. rewrite <- list_fmap_compose. apply Forall2_fmap_l, Forall2_fmap_r, Forall_Forall2_diag, Forall_forall.
    intros [id b] Hin. cbn. apply withdraw_relabels, (dangling_span s2 b thread spans).
    - by apply (Hbs id).
    - intros page Hpage Hc. rewrite Hv2 by done. by rewrite bool_decide_true, Hc.
    - intros x Hx. apply list_elem_of_In, in_flat_map. exists (id, b). split; [by apply list_elem_of_In|by apply list_elem_of_In]. }
  assert (Hin_l : forall id b, (id, b) ∈ l -> exists b0, (id, b0) ∈ buffers r /\ b = withdraw thread (is_scanout r id) b0).
  { intros id b Hin. apply list_elem_of_fmap in Hin as ([id0 b0] & Heq & Hin). injection Heq as -> ->. eauto. }
  assert (Hperm : objects l ≡ₚ objects dead ++ objects alive).
  { unfold objects. rewrite <- fmap_app. apply fmap_Permutation. rewrite <- (filter_app_complement (fun '(id, b) => is_unreferenced r id b = true) l) at 1.
    apply Permutation_app_head. unfold alive. rewrite (list_filter_iff _ (fun '(id, b) => is_unreferenced r id b = false)); [done|]. intros [id b]. apply not_true_iff_false. }
  destruct (free_objects_sharing (E:=Error) target s2 lvl2 (others ++ objects l) (others ++ objects alive) (objects dead) Hok3) as (s3 & Hfree & Hok4 & Hrest3 & _).
  { rewrite Hperm, !app_assoc. by rewrite (Permutation_app_comm others). }
  { apply sublist_app; [done|]. unfold objects. apply fmap_sublist, sublist_filter. }
  { intros o Hin. unfold objects in Hin. apply list_elem_of_fmap in Hin as ([id b] & -> & [Hun _]%list_elem_of_filter). unfold is_unreferenced in Hun.
    apply andb_true_iff in Hun as [[[_ Hx]%andb_true_iff _]%andb_true_iff _]. apply bool_decide_eq_true in Hx. unfold object_of. by rewrite Hx. }
  rewrite flat_map_kept. unfold paged. change (gb_paging (set_user g1 _)) with s2. rewrite Hfree. split; [done|]. split; [exists lvl2; split|].
  - exact Hok4.
  - intros t. rewrite <- (gk_target _ _ _ _ Hok t). unfold space_of, address_space_of. cbn. rewrite (proj1 (proj2 Hrest3)), (proj1 (proj2 Hrest2)). done.
  - assert (Hal : alive.*1 `sublist_of` (buffers r).*1).
    { unfold alive. etrans; [apply fmap_sublist, sublist_filter|]. unfold l. rewrite <- list_fmap_compose.
      assert (fst ∘ (fun '(id, b) => (id, withdraw thread (is_scanout r id) b)) <$> buffers r = (buffers r).*1) as -> by (apply list_fmap_ext; by intros ? [] ?). done. }
    split; cbn [gb_registry set_user g1 set_registry buffers next_id next_offset].
    + by eapply sublist_NoDup.
    + intros id b [_ Hin]%list_elem_of_filter. destruct (Hin_l id b Hin) as (b0 & Hin0 & _). by apply (Hbelow id b0).
    + intros id b [_ Hin]%list_elem_of_filter. destruct (Hin_l id b Hin) as (b0 & Hin0 & ->). apply withdraw_ok. by apply (Hbs id).
    + intros t o Hx. apply lookup_delete_Some in Hx as [_ Hx]. by apply (Hoff t).
  - apply Hok.
  - cbn [gb_registry set_user g1 set_registry buffers]. intros id b [_ Hin]%list_elem_of_filter. destruct (Hin_l id b Hin) as (b0 & Hin0 & ->).
    destruct (withdraw_fields thread (is_scanout r id) b0) as (_ & _ & _ & _ & -> & ->). split.
    + intros Hx. apply list_elem_of_fmap in Hx as ([t a] & Heq & Hx). cbn in Heq. subst t. by apply (remove_mapping_gone thread (b_mappings b0) a); [apply bk_once; by apply (Hbs id)|].
    + intros [Hx _]%list_elem_of_filter. done.
Qed.

(** Whoever maps the buffer maps it in the space that is loaded. *)
Definition mapped_here (g : Gbm) (buffer : Z) : Prop :=
  forall b t a, lookup_id buffer (buffers (gb_registry g)) = Some b -> (t, a) ∈ b_mappings b -> target t = cr3 (gb_paging g).

(** A buffer that only the loaded space maps may be destroyed. *)
Lemma destroy_ok g lvl owner buffer : gbm_ok target others g lvl -> mapped_here g buffer ->
  let '(r, g') := destroy owner buffer g in r <> Panic /\ exists lvl', gbm_ok target others g' lvl'.
Proof.
  intros Hok Hhere. unfold destroy, registry, put_registry, lift, guard_err. cbv beta iota delta [mbind M_bind get].
  destruct (lookup_id buffer (buffers (gb_registry g))) as [b|] eqn:Hl; cbn [ok_or]; [|by split; [|exists lvl]].
  destruct (negb _); [by split; [|exists lvl]|]. cbn [mret M_ret]. destruct (is_scanout _ _); [by split; [|exists lvl]|]. cbn [mret M_ret].
  pose proof (lookup_id_ok _ _ _ _ Hok Hl) as Hb. destruct (lookup_id_split _ _ _ Hl) as (before & after & Heq).
  pose proof (rk_ids _ (gk_registry _ _ _ _ Hok)) as Hid. rewrite Heq in Hid. rewrite Heq, (remove_split buffer before after b Hid).
  set (g1 := set_registry g _). set (spans := _ <$> b_mappings b). pose proof (gk_sharing _ _ _ _ Hok) as Hs. pose proof (sk_spaces _ _ _ _ Hs) as Hsp.
  assert (Hin_span : forall a p, (a, p) ∈ spans -> exists t, (t, a) ∈ b_mappings b /\ p = pages_of (b_info b)).
  { intros a p Hin. apply list_elem_of_fmap in Hin as ([t x] & Hx & Hin). injection Hx as -> ->. eauto. }
  destruct (unmap_spans_run _ (cr3 (gb_paging g)) spans g1 lvl Hs (po_root _ _ (so_paging _ _ Hsp))) as (s2 & lvl2 & Hrun & Hok2 & Hrest2 & _ & Hv2).
  { intros a p Hin. destruct (Hin_span a p Hin) as (t & Ht & ->). rewrite <- (bk_frames _ Hb), Nat2Z.id. split; [lia|by apply (bk_span _ Hb t)]. }
  change (gb_paging g1) with (gb_paging g) in *. rewrite Hrun. unfold paged. change (gb_paging (set_user g1 _)) with s2.
  rewrite Heq in Hok2. unfold objects in Hok2. rewrite fmap_app, app_assoc in Hok2. cbn [fmap list_fmap] in Hok2.
  assert (Hok3 : sharing_ok target s2 lvl2 ((others ++ objects before) ++ object_of (with_mappings b []) :: objects after)).
  { apply (sharing_relabel_one target _ _ _ (object_of b)); [exact Hok2|]. apply buffer_relabels; [done|done|]. intros t a Hin. right. intros i Hi Hpg. cbn in Hi.
    rewrite (Hhere b t a Hl Hin). rewrite Hv2 by (done || apply (so_paging _ _ Hsp)). rewrite bool_decide_true by done. cbn [andb].
    assert (spans_cover spans (a + i * 4096) = true) as ->; [|done]. unfold spans_cover. apply existsb_exists. exists (a, pages_of (b_info b)).
    split; [apply list_elem_of_In, list_elem_of_fmap; by exists (t, a)|]. rewrite <- (bk_frames _ Hb). lia. }
  destruct (free_object_sharing (E:=Error) target s2 lvl2 _ _ _ Hok3 eq_refl) as (s3 & Hfree & Hok4 & Hrest3 & _).
  change (own_frames (object_of (with_mappings b []))) with (if b_owns_frames b then b_frames b else []) in Hfree. rewrite Hfree. split; [done|].
  exists lvl2. destruct (gk_registry _ _ _ _ Hok) as [_ Hbelow Hbs Hoff]. rewrite Heq in Hbelow, Hbs. split.
  - unfold objects in Hok4 |- *. rewrite <- app_assoc, <- fmap_app in Hok4. exact Hok4.
  - intros t. rewrite <- (gk_target _ _ _ _ Hok t). unfold space_of, address_space_of. cbn. rewrite (proj1 (proj2 Hrest3)), (proj1 (proj2 Hrest2)). done.
  - split; cbn [gb_registry set_user g1 set_registry with_buffers buffers next_id next_offset]; try done.
    + rewrite fmap_app in *. cbn [fmap list_fmap fst] in Hid. eapply sublist_NoDup; [exact Hid|]. apply sublist_app; [done|by constructor].
    + intros k x Hin. apply (Hbelow k x). set_solver.
    + intros k x Hin. apply (Hbs k x). set_solver.
  - apply Hok.
Qed.

(** ** Any sequence of requests *)

Inductive Request : Type :=
| BufCreate (owner : nat) (width height : Z)
| BufScanout (owner : nat)
| BufAllow (thread : nat)
| BufShare (owner target : nat) (buffer : Z)
| BufMap (thread : nat) (buffer : Z)
| BufUnmap (thread : nat) (buffer : Z)
| BufDestroy (owner : nat) (buffer : Z)
| BufRelease (thread : nat).

Definition ignoring {A} (m : G A) : G unit := _ ← m; mret tt.

Definition perform (q : Request) : G unit :=
  match q with
  | BufCreate owner width height => ignoring (create owner width height)
  | BufScanout owner => ignoring (scanout owner)
  | BufAllow thread => allow_display_server thread
  | BufShare owner thread buffer => share owner thread buffer
  | BufMap thread buffer => ignoring (map thread buffer)
  | BufUnmap thread buffer => unmap thread buffer
  | BufDestroy owner buffer => destroy owner buffer
  | BufRelease thread => release_thread thread
  end.

Definition display_ok (g : Gbm) : Prop := forall d, gb_display g = Some d -> 0 <= d_byte_len d /\ 0 <= d_bytes_per_pixel d.

(** Numbers from Ring 3 are unsigned; the screen is not the allocator's; [destroy] is for
    buffers the loaded space maps. *)
Definition acceptable (g : Gbm) (q : Request) : Prop :=
  match q with
  | BufCreate _ width height => 0 <= width /\ 0 <= height /\ display_ok g
  | BufScanout _ => screen_outside g /\ display_ok g
  | BufDestroy _ buffer => mapped_here g buffer
  | _ => True
  end.

Inductive gbm_steps : Gbm -> Gbm -> Prop :=
| gs_refl g : gbm_steps g g
| gs_step g q r g1 g2 : acceptable g q -> perform q g = (r, g1) -> gbm_steps g1 g2 -> gbm_steps g g2.

Lemma ignoring_run {A} (m : G A) g : ignoring m g = (match fst (m g) with Ok _ => Ok tt | Err e => Err e | Panic => Panic end, snd (m g)).
Proof. unfold ignoring. cbv beta iota delta [mbind M_bind]. by destruct (m g) as [[] ?]. Qed.

Lemma perform_ok g lvl q : gbm_ok target others g lvl -> acceptable g q ->
  let '(r, g') := perform q g in r <> Panic /\ exists lvl', gbm_ok target others g' lvl'.
Proof.
  intros Hok Ha. destruct q; cbn [perform acceptable] in *; rewrite ?ignoring_run.
  - destruct Ha as (Hw & Hh & Hd). assert (Hbpp : 0 <= bytes_per_pixel g) by (unfold bytes_per_pixel; destruct (gb_display g) as [d|] eqn:Hx; [by apply Hd|lia]).
    pose proof (buffer_create_ok g lvl owner width height Hok Hw Hh Hbpp) as Hc. destruct (create owner width height g) as [[] g']; naive_solver.
  - destruct Ha as [Ha Hd]. pose proof (scanout_ok g lvl owner Hok Ha ltac:(intros d Hx; by apply Hd)) as Hc. destruct (scanout owner g) as [[] g']; naive_solver.
  - pose proof (allow_ok g lvl thread Hok) as Hc. destruct (allow_display_server thread g) as [r g']. naive_solver.
  - pose proof (share_ok g lvl owner target0 buffer Hok) as Hc. destruct (share owner target0 buffer g) as [r g']. naive_solver.
  - destruct (map_correct g lvl thread buffer Hok) as (lvl' & Hm & _ & Hr). destruct (map thread buffer g) as [[] g']; cbn [fst snd] in *; [|..|done]; eauto.
  - pose proof (unmap_ok g lvl thread buffer Hok) as Hc. by destruct (unmap thread buffer g).
  - pose proof (destroy_ok g lvl owner buffer Hok Ha) as Hc. by destruct (destroy owner buffer g).
  - pose proof (buffer_release_ok g lvl thread Hok) as Hc. destruct (release_thread thread g) as [r g']. naive_solver.
Qed.

(** C22: Buffers are safe: however threads make, share, map and unmap buffers and exit, no
    request panics, every frame of a buffer is in use and belongs to it alone, and every
    page of every space that leads to such a frame is the mapping of a thread that owns
    the buffer or that its owner shared it with.  The screen is taken to lie outside the
    allocator's memory with sizes that are not negative, and [destroy], which nothing in
    the kernel calls, is admitted only for a buffer no space but the loaded one maps
    ([acceptable]); a run in which it is called for another is in [RingCases]. *)
Theorem buffers_safe g lvl g' :
  gbm_ok target others g lvl -> gbm_steps g g' ->
  exists lvl', gbm_ok target others g' lvl' /\ (forall q, acceptable g' q -> fst (perform q g') <> Panic) /\
    forall id b f, (id, b) ∈ buffers (gb_registry g') -> b_owns_frames b = true -> f ∈ b_frames b ->
      in_use (gb_paging g') lvl' f /\
      (forall id' b', (id', b') ∈ buffers (gb_registry g') -> b_owns_frames b' = true -> f ∈ b_frames b' -> object_of b' = object_of b) /\
      forall root page x, lvl' !! root = Some 4%nat -> user_page page -> page_of (gb_paging g') root page = Some (f, x) ->
        exists t a i, (t, a) ∈ b_mappings b /\ root = target t /\ b_may_access b t = true /\ b_frames b !! i = Some f /\ page = a + Z.of_nat i * 4096 /\ x = pixels.
Proof.
  intros Hok Hsteps. revert lvl Hok. induction Hsteps as [g|g q r g1 g2 Ha Hp _ IH]; intros lvl Hok.
  2:{ pose proof (perform_ok g lvl q Hok Ha) as Hq. rewrite Hp in Hq. destruct Hq as (_ & lvl' & Hok'). by eapply IH. }
  exists lvl. split; [done|]. split.
  { intros q Ha. pose proof (perform_ok g lvl q Hok Ha) as Hq. by destruct (perform q g) as [r g'], Hq. }
  intros id b f Hin Hown Hf. pose proof (gk_sharing _ _ _ _ Hok) as [_ _ Ho _ Hn Hr _].
  assert (Hobj : forall id b, (id, b) ∈ buffers (gb_registry g) -> object_of b ∈ others ++ objects (buffers (gb_registry g))).
  { intros i x Hx. apply elem_of_app. right. apply list_elem_of_fmap. by exists (i, x). }
  assert (Hfo : f ∈ own_frames (object_of b)) by (unfold own_frames; cbn; by rewrite Hown).
  split; [apply Ho, owned_elem; exists (object_of b); split; [by apply (Hobj id)|done]|]. split.
  - intros id' b' Hin' Hown' Hf'. eapply owned_unique; [exact Hn|by eapply Hobj|by eapply Hobj| |exact Hfo]. unfold own_frames. cbn. by rewrite Hown'.
  - intros root page x H4 Hpage Hx. destruct (Hr (object_of b) root page f x (Hobj id b Hin) Hfo H4 Hpage Hx) as (t & a & fl & i & [Hta ->]%record_elem & -> & Hpg & Hi & Hx2).
    exists t, a, i. split; [done|]. split; [done|]. split; [|done]. by apply (bk_access _ (rk_buffers _ (gk_registry _ _ _ _ Hok) id b Hin) t a).
Qed.

(** Mapping a buffer: only its owner and those it was shared with may.  A first mapping
    has every page of the buffer in order, writable and not executable, at whole pages of
    the user region, and changes nothing else any space sees; a later request is given the
    address on record and changes nothing.  A refusal leaves every buffer safe. *)
Theorem buffer_map_sound g lvl thread buffer : gbm_ok target others g lvl -> map_outcome g lvl thread buffer (map thread buffer g).
Proof. apply map_correct. Qed.
End Operations.
