(* ===== verification/GbmRuns.v ===== *)
(** * Runs of the buffer registry

    Machines on which the theorems about buffers apply, and sequences of requests that
    end badly. *)

From stdpp Require Import base list gmap numbers list_numbers.
From Stdlib Require Import Lia ZifyBool.
From S2P Require Import Prelude Frame Quota Paging PagingInv PagingSplit PagingUnmap PagingSpace PagingMap PagingRef PagingRuns Userspace Elf ElfSpec ElfTheorems UserLoad Sharing Gbm GbmTheorems.

Import PagingRuns ElfRuns UserLoadRuns.

(** ** A machine without user pages *)

Lemma idle_root root : idle_levels !! root = Some 4%nat -> root = frame_at 1.
Proof.
  intros Hr. apply elem_of_list_to_map_2 in Hr. repeat (apply elem_of_cons in Hr as [Hr|Hr]; [by simplify_eq|]). by apply elem_of_nil in Hr.
Qed.

Lemma idle_empty s page : tables s = idle_tables -> user_page page -> page_of s (frame_at 1) page = None.
Proof.
  intros Hs Hp. unfold page_of, walk. rewrite Hs. cbn [walk_from]. rewrite (user_page_index page Hp).
  assert (Ht : idle_tables !! frame_at 1 = Some (row [(0%nat, entry (frame_at 2) rwu)])) by (vm_compute; reflexivity).
  rewrite Ht. cbn [mbind option_bind].
  assert (He : row [(0%nat, entry (frame_at 2) rwu)] !! index 4 USER_BASE = Some UNUSED) by (vm_compute; reflexivity).
  rewrite He. reflexivity.
Qed.

(** Every thread maps into the kernel's space. *)
Definition shared_target (t : nat) : Z := frame_at 1.

Definition gbm_idle : Gbm := {| gb_user := idle; gb_registry := Registry_new; gb_quotas := []; gb_display := None |}.

Lemma gbm_idle_ok : gbm_ok shared_target [] gbm_idle idle_levels.
Proof.
  split.
  - split; [apply idle_ok|by intros t; vm_compute|..].
    + intros f Hf. by apply elem_of_nil in Hf.
    + intros o f Ho. by apply elem_of_nil in Ho.
    + apply NoDup_nil_2.
    + intros o root page f x Ho. by apply elem_of_nil in Ho.
    + intros root page f x Hr%idle_root Hp Hx. subst root. rewrite idle_empty in Hx by done. done.
  - intros t. unfold space_of, address_space_of. cbn. destruct (decide (t = 3%nat)) as [->|Hne]; [by rewrite lookup_singleton_eq|by rewrite lookup_singleton_ne].
  - split; cbn.
    + apply NoDup_nil_2.
    + intros id b Hin. by apply elem_of_nil in Hin.
    + intros id b Hin. by apply elem_of_nil in Hin.
    + intros t o Hx. by rewrite lookup_empty in Hx.
  - reflexivity.
Qed.

Definition after (q : Request) (g : Gbm) : Gbm := snd (perform q g).

(** Thread 3 makes a buffer and shares it with thread 4, which maps it. *)
Definition shared_once : Gbm := after (BufMap 4 1) (after (BufShare 3 4 1) (after (BufCreate 3 16 16) gbm_idle)).

Lemma shared_once_steps : gbm_steps shared_target gbm_idle shared_once.
Proof.
  assert (Hn : forall q g, perform q g = (fst (perform q g), after q g)) by (intros q g; unfold after; by destruct (perform q g)).
  eapply (gs_step _ _ (BufCreate 3 16 16)); [cbn; split; [lia|]; split; [lia|done]|apply Hn|].
  eapply (gs_step _ _ (BufShare 3 4 1)); [done|apply Hn|]. eapply (gs_step _ _ (BufMap 4 1)); [done|apply Hn|]. apply gs_refl.
Qed.

(** The page thread 4 has of the buffer is on record. *)
Lemma buffers_safe_witness :
  exists b, (1, b) ∈ buffers (gb_registry shared_once) /\ b_frames b = [frame_at 5] /\
    page_of (gb_paging shared_once) (frame_at 1) (USER_BASE + 0x10_0000) = Some (frame_at 5, pixels) /\
    exists t a, (t, a) ∈ b_mappings b /\ b_may_access b t = true.
Proof.
  destruct (buffers_safe shared_target [] gbm_idle idle_levels shared_once gbm_idle_ok shared_once_steps) as (lvl' & Hok' & _ & Hall).
  assert (Hb : exists b, buffers (gb_registry shared_once) = [(1, b)] /\ b_frames b = [frame_at 5] /\ b_owns_frames b = true)
    by (eexists; vm_compute; repeat split; reflexivity).
  destruct Hb as (b & Hbuf & Hf & Hown). exists b. rewrite Hbuf in Hall |- *.
  assert (Hpage : page_of (gb_paging shared_once) (frame_at 1) (USER_BASE + 0x10_0000) = Some (frame_at 5, pixels)) by (vm_compute; reflexivity).
  split; [by left|]. split; [exact Hf|]. split; [exact Hpage|].
  destruct (Hall 1 b (frame_at 5) ltac:(by left) Hown ltac:(rewrite Hf; by left)) as (_ & _ & Hrec).
  destruct (Hrec (frame_at 1) (USER_BASE + 0x10_0000) pixels (sk_target _ _ _ _ (gk_sharing _ _ _ _ Hok') 0%nat)
    ltac:(apply user_page_intro; vm_compute; reflexivity) Hpage) as (t & a & i & Hta & _ & Hacc & _). eauto.
Defined.

Lemma buffer_map_sound_witness :
  exists a g', map 4 1 (after (BufShare 3 4 1) (after (BufCreate 3 16 16) gbm_idle)) = (Ok a, g') /\
    page_of (gb_paging g') (frame_at 1) (a + 0 * 4096) = Some (frame_at 5, pixels).
Proof.
  set (g := after (BufShare 3 4 1) (after (BufCreate 3 16 16) gbm_idle)).
  assert (Hok : exists lvl, gbm_ok shared_target [] g lvl).
  { pose proof (perform_ok shared_target [] gbm_idle idle_levels (BufCreate 3 16 16) gbm_idle_ok ltac:(cbn; split; [lia|]; split; [lia|done])) as H1.
    unfold g, after. destruct (perform (BufCreate 3 16 16) gbm_idle) as [r1 g1]. destruct H1 as (_ & lvl1 & H1). cbn [snd].
    pose proof (perform_ok shared_target [] g1 lvl1 (BufShare 3 4 1) H1 I) as H2. destruct (perform (BufShare 3 4 1) g1) as [r2 g2]. destruct H2 as (_ & lvl2 & H2). by exists lvl2. }
  destruct Hok as [lvl Hok]. destruct (buffer_map_sound shared_target [] g lvl 4 1 Hok) as (lvl' & _ & _ & Hr).
  assert (Hx : fst (map 4 1 g) = Ok (USER_BASE + 0x10_0000)) by (vm_compute; reflexivity). rewrite Hx in Hr.
  destruct Hr as (b & Hl & _ & [[Hm _]|(_ & _ & Hpages & _)]).
  - assert (Hnone : exists b0, lookup_id 1 (buffers (gb_registry g)) = Some b0 /\ mapping_of 4 (b_mappings b0) = None) by (eexists; vm_compute; split; reflexivity).
    destruct Hnone as (b0 & Hl0 & Hm0). congruence.
  - exists (USER_BASE + 0x10_0000), (snd (map 4 1 g)). split; [rewrite <- Hx; by destruct (map 4 1 g)|].
    assert (Hb : exists b0, lookup_id 1 (buffers (gb_registry g)) = Some b0 /\ b_frames b0 !! 0%nat = Some (frame_at 5) /\ bi_size (b_info b0) <> 0)
      by (eexists; vm_compute; repeat split; discriminate).
    destruct Hb as (b0 & Hl0 & Hf0 & Hz). rewrite Hl in Hl0. injection Hl0 as ->. exact (Hpages 0%nat (frame_at 5) Hz Hf0).
Defined.

(** ** Requests that end badly *)

(** Three frames are free: one for the buffer, too few for the tables of its page. *)
Definition tight : Gbm :=
  {| gb_user := set_paging idle {| tables := idle_tables; frames := {| bitmap := [31]; total_frames := 8; used_frames := 5; next_hint := 0 |};
       cr3 := frame_at 1; KERNEL_SPACE := Some (frame_at 1); PHYSICAL_OFFSET := Some 0x18_0000_0000; effects := [] |};
     gb_registry := Registry_new; gb_quotas := []; gb_display := None |}.

(** A mapping that ran out of memory stays on record: asking again succeeds at once, with
    the address of a page that was never mapped. *)
Theorem failed_map_reports_success :
  let g1 := after (BufCreate 3 16 16) tight in
  let g2 := snd (map 3 1 g1) in
  fst (map 3 1 g1) = Err OutOfMemory /\ fst (map 3 1 g2) = Ok (USER_BASE + 0x10_0000) /\
  page_of (gb_paging (snd (map 3 1 g2))) (frame_at 1) (USER_BASE + 0x10_0000) = None.
Proof. vm_compute. repeat split; reflexivity. Qed.

Definition used (g : Gbm) : Z := used_frames (frames (gb_paging g)).

(** A buffer shared with a thread that does not exist outlives its owner for good: the
    owner is gone, nobody maps it, and its frame stays in use. *)
Theorem share_to_nobody_leaks :
  let g1 := after (BufCreate 3 16 16) gbm_idle in
  us_threads (gb_user g1) !! 99%nat = None /\
  used (after (BufRelease 3) g1) = used gbm_idle /\
  used (after (BufRelease 3) (after (BufShare 3 99 1) g1)) = used gbm_idle + 1.
Proof. vm_compute. repeat split; reflexivity. Qed.
