(* ===== verification/Sched.v ===== *)
(** * The scheduler (kernel/src/sched/mod.rs, kernel/src/sched/thread.rs)

    Per-processor ready queues, work stealing, parking and waking, sleeping,
    joining and exit, on a machine of [MAX_CPUS] processors.  What the code does
    under a lock is one function here; a context switch is the several critical
    sections the code has, so that the other processors run in between. *)

From stdpp Require Import base list numbers list_numbers functions.
From Stdlib Require Import Lia.
From S2P Require Import Prelude.

(** ** Threads *)

Inductive Priority : Type := Low | Normal | High.
#[global] Instance Priority_eq_dec : EqDecision Priority.
Proof. solve_decision. Defined.

Inductive State : Type := Ready | Running | Blocked | Finished.
#[global] Instance State_eq_dec : EqDecision State.
Proof. solve_decision. Defined.

Abbreviation ThreadId := nat (only parsing).

(** [Slot] and [Thread] in one.  [saved] is the meaning of [stack_pointer]: it holds
    the registers of a thread that is off the processor, and means nothing while
    the thread runs.  [listed] is whether the thread table still holds the thread. *)
Record Thread : Type := {
  state : State;
  priority : Priority;
  joiners : list ThreadId;
  wake_pending : bool;
  on_cpu : bool;
  owner : nat;
  saved : bool;
  stack : bool;
  listed : bool;
}.

Definition set_state (v : State) (t : Thread) : Thread :=
  {| state := v; priority := priority t; joiners := joiners t; wake_pending := wake_pending t;
     on_cpu := on_cpu t; owner := owner t; saved := saved t; stack := stack t; listed := listed t |}.
Definition set_thread_priority (v : Priority) (t : Thread) : Thread :=
  {| state := state t; priority := v; joiners := joiners t; wake_pending := wake_pending t;
     on_cpu := on_cpu t; owner := owner t; saved := saved t; stack := stack t; listed := listed t |}.
Definition set_joiners (v : list ThreadId) (t : Thread) : Thread :=
  {| state := state t; priority := priority t; joiners := v; wake_pending := wake_pending t;
     on_cpu := on_cpu t; owner := owner t; saved := saved t; stack := stack t; listed := listed t |}.
Definition set_wake_pending (v : bool) (t : Thread) : Thread :=
  {| state := state t; priority := priority t; joiners := joiners t; wake_pending := v;
     on_cpu := on_cpu t; owner := owner t; saved := saved t; stack := stack t; listed := listed t |}.
Definition set_on_cpu (v : bool) (t : Thread) : Thread :=
  {| state := state t; priority := priority t; joiners := joiners t; wake_pending := wake_pending t;
     on_cpu := v; owner := owner t; saved := saved t; stack := stack t; listed := listed t |}.
Definition set_owner (v : nat) (t : Thread) : Thread :=
  {| state := state t; priority := priority t; joiners := joiners t; wake_pending := wake_pending t;
     on_cpu := on_cpu t; owner := v; saved := saved t; stack := stack t; listed := listed t |}.
Definition set_saved (v : bool) (t : Thread) : Thread :=
  {| state := state t; priority := priority t; joiners := joiners t; wake_pending := wake_pending t;
     on_cpu := on_cpu t; owner := owner t; saved := v; stack := stack t; listed := listed t |}.
Definition set_stack (v : bool) (t : Thread) : Thread :=
  {| state := state t; priority := priority t; joiners := joiners t; wake_pending := wake_pending t;
     on_cpu := on_cpu t; owner := owner t; saved := saved t; stack := v; listed := listed t |}.
Definition set_listed (v : bool) (t : Thread) : Thread :=
  {| state := state t; priority := priority t; joiners := joiners t; wake_pending := wake_pending t;
     on_cpu := on_cpu t; owner := owner t; saved := saved t; stack := stack t; listed := v |}.

(** A thread that has never run: its stack was made to look saved. *)
Definition Thread_new (p : Priority) (cpu : nat) : Thread :=
  {| state := Ready; priority := p; joiners := []; wake_pending := false; on_cpu := false;
     owner := cpu; saved := true; stack := true; listed := true |}.

(** The context that is already executing. *)
Definition adopt_running (cpu : nat) : Thread :=
  {| state := Running; priority := Normal; joiners := []; wake_pending := false; on_cpu := true;
     owner := cpu; saved := false; stack := false; listed := true |}.

(** ** Processors *)

Definition MAX_CPUS : nat := 16.
Definition TIME_SLICE_TICKS : Z := 1.
Definition STARVATION_GUARD : Z := 8.

(** [Cpu], with the processor's entries of [QUEUED], [CURRENT] and [SLICE]. *)
Record Cpu : Type := {
  ready : Priority -> list ThreadId;
  current : option ThreadId;
  idle : option ThreadId;
  pending : option ThreadId;
  priority_streak : Z;
  boost_level : Z;
  graveyard : list ThreadId;
  reaped : list ThreadId;
  queued : Z;
  current_word : nat;
  slice : Z;
}.

Definition Cpu_new : Cpu :=
  {| ready := fun _ => []; current := None; idle := None; pending := None; priority_streak := 0;
     boost_level := 0; graveyard := []; reaped := []; queued := 0; current_word := 0%nat;
     slice := TIME_SLICE_TICKS |}.

Definition set_queues (q : Priority -> list ThreadId) (n : Z) (me : Cpu) : Cpu :=
  {| ready := q; current := current me; idle := idle me; pending := pending me;
     priority_streak := priority_streak me; boost_level := boost_level me; graveyard := graveyard me;
     reaped := reaped me; queued := n; current_word := current_word me; slice := slice me |}.
Definition set_current (t : option ThreadId) (me : Cpu) : Cpu :=
  {| ready := ready me; current := t; idle := idle me; pending := pending me;
     priority_streak := priority_streak me; boost_level := boost_level me; graveyard := graveyard me;
     reaped := reaped me; queued := queued me;
     current_word := match t with Some id => S id | None => 0%nat end; slice := slice me |}.
Definition set_idle (t : option ThreadId) (me : Cpu) : Cpu :=
  {| ready := ready me; current := current me; idle := t; pending := pending me;
     priority_streak := priority_streak me; boost_level := boost_level me; graveyard := graveyard me;
     reaped := reaped me; queued := queued me; current_word := current_word me; slice := slice me |}.
Definition set_pending (t : option ThreadId) (me : Cpu) : Cpu :=
  {| ready := ready me; current := current me; idle := idle me; pending := t;
     priority_streak := priority_streak me; boost_level := boost_level me; graveyard := graveyard me;
     reaped := reaped me; queued := queued me; current_word := current_word me; slice := slice me |}.
Definition set_guard (streak boost : Z) (me : Cpu) : Cpu :=
  {| ready := ready me; current := current me; idle := idle me; pending := pending me;
     priority_streak := streak; boost_level := boost; graveyard := graveyard me;
     reaped := reaped me; queued := queued me; current_word := current_word me; slice := slice me |}.
Definition set_dead (stacks ids : list ThreadId) (me : Cpu) : Cpu :=
  {| ready := ready me; current := current me; idle := idle me; pending := pending me;
     priority_streak := priority_streak me; boost_level := boost_level me; graveyard := stacks;
     reaped := ids; queued := queued me; current_word := current_word me; slice := slice me |}.
Definition set_slice (n : Z) (me : Cpu) : Cpu :=
  {| ready := ready me; current := current me; idle := idle me; pending := pending me;
     priority_streak := priority_streak me; boost_level := boost_level me; graveyard := graveyard me;
     reaped := reaped me; queued := queued me; current_word := current_word me; slice := n |}.

Definition renew_slice (me : Cpu) : Cpu := set_slice TIME_SLICE_TICKS me.

(** ** Queues *)

Definition queue_insert (p : Priority) (q : list ThreadId) (r : Priority -> list ThreadId)
  : Priority -> list ThreadId := fun p' => if decide (p' = p) then q else r p'.

Definition enqueue (ths : list Thread) (t : ThreadId) (me : Cpu) : Cpu :=
  match ths !! t with
  | Some th =>
      let level := priority th in
      set_queues (queue_insert level (ready me level ++ [t]) (ready me)) (queued me + 1) me
  | None => me
  end.

Definition runnable (ths : list Thread) (t : ThreadId) : bool :=
  match ths !! t with
  | Some th => bool_decide (state th = Ready) && negb (on_cpu th)
  | None => false
  end.

(** [while let Some(slot) = queue.pop_front()], counting what came off. *)
Fixpoint pop_level (ths : list Thread) (q : list ThreadId) (n : Z) : option ThreadId * list ThreadId * Z :=
  match q with
  | [] => (None, [], n)
  | t :: q' => if runnable ths t then (Some t, q', n - 1) else pop_level ths q' (n - 1)
  end.

Fixpoint pop_from (ths : list Thread) (order : list Priority) (me : Cpu) : option ThreadId * Cpu :=
  match order with
  | [] => (None, me)
  | level :: rest =>
      let '(found, q, n) := pop_level ths (ready me level) (queued me) in
      let me := set_queues (queue_insert level q (ready me)) n me in
      match found with
      | Some t => (Some t, me)
      | None => pop_from ths rest me
      end
  end.

Definition by_priority : list Priority := [High; Normal; Low].

Definition order_of (boosting : bool) (boost : Z) : list Priority :=
  if boosting then if boost =? 0 then [Low; Normal; High] else [Normal; Low; High]
  else by_priority.

Definition pop_runnable (ths : list Thread) (me : Cpu) : option ThreadId * Cpu :=
  let boosting := priority_streak me >=? STARVATION_GUARD in
  match pop_from ths (order_of boosting (boost_level me)) me with
  | (None, me) => (None, me)
  | (Some found, me) =>
      if boosting then (Some found, set_guard 0 (Z.lxor (boost_level me) 1) me)
      else (Some found, set_guard (saturating_add U32_MAX (priority_streak me) 1) (boost_level me) me)
  end.

Definition flush_pending (ths : list Thread) (me : Cpu) : list Thread * Cpu :=
  match pending me with
  | None => (ths, me)
  | Some t =>
      let me := set_pending None me in
      let ths := alter (set_on_cpu false) t ths in
      match ths !! t with
      | None => (ths, me)
      | Some th =>
          match state th with
          | Ready => if bool_decide (idle me = Some t) then (ths, me) else (ths, enqueue ths t me)
          | Finished =>
              if stack th then
                (alter (set_stack false) t ths, set_dead (graveyard me ++ [t]) (reaped me ++ [t]) me)
              else (ths, set_dead (graveyard me) (reaped me ++ [t]) me)
          | _ => (ths, me)
          end
      end
  end.

(** The switch decided on: who goes and who comes.  The incoming thread's stack
    pointer is read here, so it must be a saved one. *)
Record Switch : Type := { save_to : ThreadId; load_from : ThreadId; loaded_saved : bool }.

Definition state_of (ths : list Thread) (t : ThreadId) : State :=
  match ths !! t with Some th => state th | None => Finished end.

Definition retire (th : Thread) : Thread :=
  if bool_decide (state th = Running) then set_state Ready th else th.

Definition prepare_switch (ths : list Thread) (me : Cpu) : option Switch * list Thread * Cpu :=
  match current me, idle me with
  | Some cur, Some idl =>
      let '(popped, me) := pop_runnable ths me in
      let next :=
        match popped with
        | Some t => Some t
        | None =>
            if negb (bool_decide (cur = idl)) && bool_decide (state_of ths cur = Running) then None
            else Some idl
        end in
      match next with
      | None => (None, ths, renew_slice me)
      | Some next =>
          if bool_decide (next = cur) then (None, ths, renew_slice me)
          else
            let ths := alter retire cur ths in
            let ok := match ths !! next with Some th => saved th | None => false end in
            let ths := alter (fun th => set_on_cpu true (set_state Running th)) next ths in
            let me := set_pending (Some cur) me in
            let me := set_current (Some next) me in
            (Some {| save_to := cur; load_from := next; loaded_saved := ok |}, ths, renew_slice me)
      end
  | _, _ => (None, ths, me)
  end.

(** ** The whole scheduler *)

Record Scheduler : Type := {
  threads : list Thread;
  cpus : nat -> Cpu;
  sleepers : list (ThreadId * Z);
  next_wake : Z;
  initialised : bool;
}.

Definition set_threads (ths : list Thread) (s : Scheduler) : Scheduler :=
  {| threads := ths; cpus := cpus s; sleepers := sleepers s; next_wake := next_wake s;
     initialised := initialised s |}.
Definition set_cpu (c : nat) (me : Cpu) (s : Scheduler) : Scheduler :=
  {| threads := threads s; cpus := <[c := me]> (cpus s); sleepers := sleepers s; next_wake := next_wake s;
     initialised := initialised s |}.
Definition set_sleepers (l : list (ThreadId * Z)) (next : Z) (s : Scheduler) : Scheduler :=
  {| threads := threads s; cpus := cpus s; sleepers := l; next_wake := next;
     initialised := initialised s |}.
Definition on_thread (t : ThreadId) (f : Thread -> Thread) (s : Scheduler) : Scheduler :=
  set_threads (alter f t (threads s)) s.

(** Nothing set up yet. *)
Definition statics : Scheduler :=
  {| threads := []; cpus := fun _ => Cpu_new; sleepers := []; next_wake := U64_MAX; initialised := false |}.

(** Thread 0 is what is executing; thread 1 is the boot processor's idle thread. *)
Definition init (s : Scheduler) : Scheduler :=
  if initialised s then s
  else
    {| threads := [adopt_running 0; Thread_new Low 0];
       cpus := <[0%nat := set_idle (Some 1%nat) (set_current (Some 0%nat) (cpus s 0%nat))]> (cpus s);
       sleepers := sleepers s; next_wake := next_wake s; initialised := true |}.

Definition lookup_thread (t : ThreadId) (s : Scheduler) : option Thread :=
  match threads s !! t with
  | Some th => if listed th then Some th else None
  | None => None
  end.

Definition adopt_secondary_cpu (c : nat) (s : Scheduler) : Scheduler :=
  match idle (cpus s c) with
  | Some _ => s
  | None =>
      let id := length (threads s) in
      let s := set_threads (threads s ++ [adopt_running c]) s in
      set_cpu c (renew_slice (set_idle (Some id) (set_current (Some id) (cpus s c)))) s
  end.

(** Registering a new thread in the table, and offering it to a processor. *)
Definition spawn_register (c : nat) (p : Priority) (s : Scheduler) : option ThreadId * Scheduler :=
  if initialised s then
    (Some (length (threads s)), set_threads (threads s ++ [Thread_new p c]) s)
  else (None, s).
Definition spawn_enqueue (c : nat) (t : ThreadId) (s : Scheduler) : Scheduler :=
  set_cpu c (enqueue (threads s) t (cpus s c)) s.

(** [max_by_key]: the last of the busiest, by what the loads of [QUEUED] return.  They are
    made without a lock: other processors may be changing their queues meanwhile. *)
Definition busiest (seen : nat -> Z) (c : nat) : option nat :=
  fold_left (fun best other =>
    if bool_decide (other = c) then best
    else match best with
         | None => Some other
         | Some b => if seen b <=? seen other then Some other else Some b
         end) (seq 0 MAX_CPUS) None.

(** [seen] and [again] are what the loads before the locks return, the second of the
    victim's; the rest is under both locks. *)
Definition steal (seen again : nat -> Z) (c : nat) (s : Scheduler) : Scheduler :=
  match busiest seen c with
  | Some victim =>
      if again victim >? 0 then
        if queued (cpus s c) >? 0 then s
        else
          let '(found, theirs) := pop_from (threads s) by_priority (cpus s victim) in
          let s := set_cpu victim theirs s in
          match found with
          | Some t =>
              let s := on_thread t (set_owner c) s in
              set_cpu c (enqueue (threads s) t (cpus s c)) s
          | None => s
          end
      else s
  | None => s
  end.

(** The critical section of [schedule]: release what was switched away from,
    decide, and take what is to be buried. *)
Definition decide_switch (c : nat) (s : Scheduler)
  : option Switch * list ThreadId * list ThreadId * Scheduler :=
  let '(ths, me) := flush_pending (threads s) (cpus s c) in
  let '(switch, ths, me) := prepare_switch ths me in
  (switch, graveyard me, reaped me, set_cpu c (set_dead [] [] me) (set_threads ths s)).

(** Freeing the stacks is the drop of [stacks]; here, the threads leave the table. *)
Definition bury (ids : list ThreadId) (s : Scheduler) : Scheduler :=
  set_threads (fold_left (fun ths t => alter (set_listed false) t ths) ids (threads s)) s.

(** [context_switch] stores the outgoing registers and takes up the incoming ones. *)
Definition context_switch (w : Switch) (s : Scheduler) : Scheduler :=
  on_thread (load_from w) (set_saved false) (on_thread (save_to w) (set_saved true) s).

(** The flush by the incoming thread, in [schedule] or in [trampoline]. *)
Definition arrive (c : nat) (s : Scheduler) : Scheduler :=
  let '(ths, me) := flush_pending (threads s) (cpus s c) in set_cpu c me (set_threads ths s).

(** [schedule] from beginning to end, with nobody else running in between. *)
Definition schedule (c : nat) (s : Scheduler) : Scheduler :=
  if initialised s then
    let hints := fun other => queued (cpus s other) in
    let s := if hints c =? 0 then steal hints hints c s else s in
    let '(switch, _, dead, s) := decide_switch c s in
    let s := bury dead s in
    match switch with
    | None => s
    | Some w => arrive c (context_switch w s)
    end
  else s.

(** ** Parking and waking *)

Definition with_current (c : nat) (f : Thread -> Thread) (s : Scheduler) : Scheduler :=
  match current (cpus s c) with
  | Some t => on_thread t f s
  | None => s
  end.

(** The part of [block_current] under the lock; [true] means the caller goes on to
    [schedule]. *)
Definition park (c : nat) (s : Scheduler) : bool * Scheduler :=
  match current (cpus s c) with
  | None => (false, s)
  | Some t =>
      match threads s !! t with
      | None => (false, s)
      | Some th =>
          if wake_pending th then (false, on_thread t (set_wake_pending false) s)
          else (true, on_thread t (set_state Blocked) s)
      end
  end.

Definition block_current (c : nat) (s : Scheduler) : bool * Scheduler :=
  let '(parked, s) := park c s in
  if parked then (true, schedule c s) else (false, s).

Definition unblock (c : nat) (id : ThreadId) (s : Scheduler) : Scheduler :=
  match lookup_thread id s with
  | None => s
  | Some th =>
      if bool_decide (state th = Blocked) then
        let s := on_thread id (set_state Ready) s in
        if on_cpu th then s
        else
          let s := on_thread id (set_owner c) s in
          set_cpu c (enqueue (threads s) id (cpus s c)) s
      else if bool_decide (state th = Finished) then s
      else on_thread id (set_wake_pending true) s
  end.

Definition sleep_park (c : nat) (now ticks : Z) (s : Scheduler) : Scheduler :=
  match current (cpus s c) with
  | None => s
  | Some t =>
      let deadline := saturating_add U64_MAX now ticks in
      let s := on_thread t (fun th => set_state Blocked (set_wake_pending false th)) s in
      set_sleepers (sleepers s ++ [(t, deadline)]) (Z.min (next_wake s) deadline) s
  end.

Definition sleep_ticks (c : nat) (now ticks : Z) (s : Scheduler) : Scheduler :=
  if ticks =? 0 then schedule c s
  else match current (cpus s c) with
       | None => s
       | Some _ => schedule c (sleep_park c now ticks s)
       end.

Definition sleep_ms (c : nat) (now hz ms : Z) (s : Scheduler) : Scheduler :=
  if hz =? 0 then schedule c s
  else sleep_ticks c now (div_ceil (saturating_mul U64_MAX ms hz) 1000) s.

(** Sorting the sleepers into those due and the rest, with the earliest of the rest. *)
Definition due_sleepers (now : Z) (l : list (ThreadId * Z)) : list ThreadId :=
  map fst (filter (fun e => snd e <= now) l).
Definition not_due (now : Z) (l : list (ThreadId * Z)) : list (ThreadId * Z) :=
  filter (fun e => now < snd e) l.
Definition earliest (l : list (ThreadId * Z)) : Z := fold_right (fun e m => Z.min m (snd e)) U64_MAX l.

Definition collect_due (now : Z) (s : Scheduler) : list ThreadId * Scheduler :=
  let rest := not_due now (sleepers s) in
  (due_sleepers now (sleepers s), set_sleepers rest (earliest rest) s).

Definition wake_due_sleepers (c : nat) (now : Z) (s : Scheduler) : Scheduler :=
  let '(due, s) := collect_due now s in
  fold_left (fun s id => unblock c id s) due s.

(** The part of [join] under the locks. *)
Definition join_park (c : nat) (id : ThreadId) (s : Scheduler) : bool * Scheduler :=
  match lookup_thread id s, current (cpus s c) with
  | Some target, Some me =>
      if bool_decide (me = id) then (false, s)
      else if bool_decide (state target = Finished) then (false, s)
      else
        let s := on_thread id (fun th => set_joiners (joiners th ++ [me]) th) s in
        (true, on_thread me (fun th => set_state Blocked (set_wake_pending false th)) s)
  | _, _ => (false, s)
  end.

Definition join (c : nat) (id : ThreadId) (s : Scheduler) : Scheduler :=
  let '(parked, s) := join_park c id s in
  if parked then schedule c s else s.

(** The part of [exit_current] under the lock. *)
Definition finish (c : nat) (s : Scheduler) : list ThreadId * Scheduler :=
  match current (cpus s c) with
  | None => ([], s)
  | Some t =>
      match threads s !! t with
      | None => ([], s)
      | Some th => (joiners th, on_thread t (fun th => set_joiners [] (set_state Finished th)) s)
      end
  end.

(** After [release_thread_resources], which is not the scheduler's. *)
Definition exit_current (c : nat) (s : Scheduler) : Scheduler :=
  let '(waiting, s) := finish c s in
  schedule c (fold_left (fun s id => unblock c id s) waiting s).

Definition set_priority (id : ThreadId) (p : Priority) (s : Scheduler) : Scheduler :=
  match lookup_thread id s with
  | Some _ => on_thread id (set_thread_priority p) s
  | None => s
  end.

(** The tick: whether a sleeper is due and whether the slice ran out are decided
    first, and acted on in this order.  [timers] is the one-shot timers' tick. *)
Definition on_timer_tick (timers : Z -> Scheduler -> Scheduler) (c : nat) (now : Z) (s : Scheduler) : Scheduler :=
  let sleeper_due := next_wake s <=? now in
  let previous := slice (cpus s c) in
  let s := set_cpu c (set_slice (Z.max 0 (previous - 1)) (cpus s c)) s in
  let s := if sleeper_due then wake_due_sleepers c now s else s in
  let s := timers now s in
  if previous <=? 1 then schedule c s else s.

Definition current_id (c : nat) (s : Scheduler) : option ThreadId :=
  match current_word (cpus s c) with
  | O => None
  | S id => Some id
  end.
