(* ===== verification/SchedInv.v ===== *)
(** * What the scheduler keeps true

    The scheduler as a machine whose processors take turns, a step for each
    critical section, and the invariant of its reachable states: who is on which
    processor, who is queued where, and whose registers are saved. *)

From stdpp Require Import base list numbers list_numbers functions relations.
From Stdlib Require Import Lia.
From S2P Require Import Prelude Sched.

(** ** Steps *)

(** Where a processor is.  Outside [Executing] it runs scheduler code with
    interrupts masked, between two critical sections. *)
Inductive Phase : Type :=
| Executing
| Spawning (t : nat)
| Scheduling
| Burying (w : option Switch) (ids : list nat)
| Switching (w : Switch)
| Arriving.

Record machine : Type := { sched : Scheduler; phase : nat -> Phase }.

(** Thread [t] is running its own code on processor [c]; the idle threads only halt. *)
Definition acts (m : machine) (c t : nat) : Prop :=
  phase m c = Executing /\ current (cpus (sched m) c) = Some t /\
  idle (cpus (sched m) c) <> Some t /\ state_of (threads (sched m)) t = Running.

Inductive label : Type :=
| LSpawn | LParks (t : nat) | LUnblock (t : nat) | LOther.

(** [step_schedule] enters [schedule]: the hints it reads without a lock may be anything. *)
Inductive step : label -> machine -> machine -> Prop :=
| step_adopt m c :
    phase m c = Executing -> initialised (sched m) = true ->
    step LOther m {| sched := adopt_secondary_cpu c (sched m); phase := phase m |}
| step_spawn m c t p id s' :
    acts m c t -> spawn_register c p (sched m) = (Some id, s') ->
    step LSpawn m {| sched := s'; phase := <[c := Spawning id]> (phase m) |}
| step_offer m c id :
    phase m c = Spawning id ->
    step LOther m {| sched := spawn_enqueue c id (sched m); phase := <[c := Executing]> (phase m) |}
| step_schedule m c seen again :
    phase m c = Executing ->
    step LOther m
      {| sched := if seen c =? 0 then steal seen again c (sched m) else sched m;
         phase := <[c := Scheduling]> (phase m) |}
| step_decide m c w stacks ids s' :
    phase m c = Scheduling -> decide_switch c (sched m) = (w, stacks, ids, s') ->
    step LOther m {| sched := s'; phase := <[c := Burying w ids]> (phase m) |}
| step_bury m c w ids :
    phase m c = Burying w ids ->
    step LOther m
      {| sched := bury ids (sched m);
         phase := <[c := match w with Some w => Switching w | None => Executing end]> (phase m) |}
| step_switch m c w :
    phase m c = Switching w ->
    step LOther m {| sched := context_switch w (sched m); phase := <[c := Arriving]> (phase m) |}
| step_arrive m c :
    phase m c = Arriving ->
    step LOther m {| sched := arrive c (sched m); phase := <[c := Executing]> (phase m) |}
| step_park m c t :
    acts m c t ->
    step (LParks t) m {| sched := snd (park c (sched m)); phase := phase m |}
| step_sleep m c t now ticks :
    acts m c t ->
    step (LParks t) m {| sched := sleep_park c now ticks (sched m); phase := phase m |}
| step_join m c t id :
    acts m c t ->
    step (LParks t) m {| sched := snd (join_park c id (sched m)); phase := phase m |}
| step_finish m c t :
    acts m c t ->
    step (LParks t) m {| sched := snd (finish c (sched m)); phase := phase m |}
| step_unblock m c id :
    phase m c = Executing ->
    step (LUnblock id) m {| sched := unblock c id (sched m); phase := phase m |}
| step_collect m c now :
    phase m c = Executing ->
    step LOther m {| sched := snd (collect_due now (sched m)); phase := phase m |}
| step_priority m c id p :
    phase m c = Executing ->
    step LOther m {| sched := set_priority id p (sched m); phase := phase m |}
| step_tick m c n :
    phase m c = Executing ->
    step LOther m {| sched := set_cpu c (set_slice n (cpus (sched m) c)) (sched m); phase := phase m |}.

Definition any_step (m m' : machine) : Prop := exists l, step l m m'.

Definition booted : machine := {| sched := init statics; phase := fun _ => Executing |}.

Definition reachable (m : machine) : Prop := rtc any_step booted m.

(** ** The invariant *)

(** Everybody a processor has queued. *)
Definition qs (me : Cpu) : list nat := ready me High ++ ready me Normal ++ ready me Low.

Definition switching_ok (s : Scheduler) (c : nat) (w : Switch) : Prop :=
  pending (cpus s c) = Some (save_to w) /\ current (cpus s c) = Some (load_from w) /\
  loaded_saved w = true /\ exists th, threads s !! load_from w = Some th /\ saved th = true.

Definition phase_ok (s : Scheduler) (c : nat) (p : Phase) : Prop :=
  match p with
  | Executing | Scheduling => pending (cpus s c) = None
  | Spawning t => pending (cpus s c) = None /\
      (exists th, threads s !! t = Some th /\ state th = Ready /\ on_cpu th = false /\ owner th = c) /\
      t ∉ qs (cpus s c) /\ idle (cpus s c) <> Some t
  | Burying w ids =>
      Forall (fun t => exists th, threads s !! t = Some th /\ state th = Finished /\ on_cpu th = false) ids /\
      match w with Some w => switching_ok s c w | None => pending (cpus s c) = None end
  | Switching w => switching_ok s c w
  | Arriving => exists t th, pending (cpus s c) = Some t /\ threads s !! t = Some th /\ saved th = true
  end.

Record cpu_ok (s : Scheduler) (c : nat) : Prop := {
  co_queued : forall t, t ∈ qs (cpus s c) -> idle (cpus s c) <> Some t /\
    exists th, threads s !! t = Some th /\ state th = Ready /\ on_cpu th = false /\ owner th = c;
  co_nodup : NoDup (qs (cpus s c));
  co_count : queued (cpus s c) = Z.of_nat (length (qs (cpus s c)));
  co_current : forall t, current (cpus s c) = Some t ->
    exists th, threads s !! t = Some th /\ on_cpu th = true /\ owner th = c;
  co_pending : forall t, pending (cpus s c) = Some t -> current (cpus s c) <> Some t /\
    exists th, threads s !! t = Some th /\ on_cpu th = true /\ owner th = c /\ state th <> Running;
  co_idle : forall t, idle (cpus s c) = Some t ->
    exists th, threads s !! t = Some th /\ owner th = c /\ (state th = Ready \/ state th = Running);
  co_adopted : idle (cpus s c) = None -> current (cpus s c) = None;
  co_word : current_id c s = current (cpus s c);
  co_dead : Forall (fun t => exists th, threads s !! t = Some th /\ state th = Finished /\ on_cpu th = false)
              (graveyard (cpus s c) ++ reaped (cpus s c));
}.

Record thread_ok (s : Scheduler) (ph : nat -> Phase) (t : nat) (th : Thread) : Prop := {
  to_cpu : on_cpu th = true ->
    current (cpus s (owner th)) = Some t \/ pending (cpus s (owner th)) = Some t;
  to_running : state th = Running -> current (cpus s (owner th)) = Some t;
  to_saved : on_cpu th = false -> saved th = true;
  to_listed : listed th = false -> state th = Finished /\ on_cpu th = false;
}.

(** A thread that can run and is on no processor is somewhere it will be found. *)
Definition placed (s : Scheduler) (ph : nat -> Phase) (t : nat) (th : Thread) : Prop :=
  state th = Ready -> on_cpu th = false ->
  t ∈ qs (cpus s (owner th)) \/ idle (cpus s (owner th)) = Some t \/ ph (owner th) = Spawning t.

(** The invariant, [placed] not being asked of the thread [e] on its way between two
    places. *)
Record inv (e : option nat) (s : Scheduler) (ph : nat -> Phase) : Prop := {
  inv_cpu : forall c, cpu_ok s c;
  inv_phase : forall c, phase_ok s c (ph c);
  inv_thread : forall t th, threads s !! t = Some th -> thread_ok s ph t th;
  inv_placed : forall t th, threads s !! t = Some th -> e <> Some t -> placed s ph t th;
}.

Definition machine_ok (m : machine) : Prop := inv None (sched m) (phase m).

(** ** Changes to one thread *)

Lemma lookup_on_thread s t f u :
  threads (on_thread t f s) !! u = if decide (u = t) then f <$> threads s !! u else threads s !! u.
Proof.
  unfold on_thread, set_threads. simpl. case_decide as Hu; [subst; apply list_lookup_alter_eq|].
  by apply list_lookup_alter_ne.
Qed.

Lemma cpus_on_thread s t f : cpus (on_thread t f s) = cpus s.
Proof. done. Qed.

(** A fact about a thread survives a change to a thread that keeps it. *)
Lemma on_thread_keeps s t f u (P : Thread -> Prop) :
  (exists th, threads s !! u = Some th /\ P th) ->
  (forall th, threads s !! t = Some th -> P th -> u = t -> P (f th)) ->
  exists th, threads (on_thread t f s) !! u = Some th /\ P th.
Proof.
  intros (th & Hth & HP) Hf. rewrite lookup_on_thread, Hth. case_decide as Hu; subst; simpl; eauto.
Qed.

Section OnThread.
Context (e : option nat) (s : Scheduler) (ph : nat -> Phase) (t : nat) (th : Thread) (f : Thread -> Thread).
Context (Hth : threads s !! t = Some th).
Context (Hown : owner (f th) = owner th) (Hon : on_cpu (f th) = on_cpu th) 
  (Hsav : saved th = true -> saved (f th) = true).
Context (Hrun : state (f th) = Running -> state th = Running).
Context (Hready : state (f th) = Ready -> on_cpu th = false -> state th = Ready \/ e = Some t).
Context (Hkeep : state th = Ready -> on_cpu th = false -> state (f th) = Ready).
Context (Hidle : forall c, idle (cpus s c) = Some t -> state (f th) = Ready \/ state (f th) = Running).
Context (Hfin : state th = Finished -> state (f th) = Finished).
Context (Hlist : listed (f th) = false -> state (f th) = Finished /\ on_cpu th = false).

Lemma phase_ok_on_thread c p : phase_ok s c p -> phase_ok (on_thread t f s) c p.
Proof.
  assert (Hsw : forall w, switching_ok s c w -> switching_ok (on_thread t f s) c w).
  { intros w (H1 & H2 & H3 & H4). split; [done|]. split; [done|]. split; [done|].
    apply on_thread_keeps; [done|]. intros th' ? ? _. simplify_eq. auto. }
  destruct p as [|u| |w ids|w|]; cbn [phase_ok]; auto.
  - intros (H1 & H2 & H3 & H4). split; [done|]. split; [|done].
    apply on_thread_keeps; [done|]. intros th' ? (Hr & Ho & Hw) ->. simplify_eq. naive_solver congruence.
  - intros [H1 H2]. split; [|destruct w; auto]. eapply Forall_impl; [exact H1|]. simpl.
    intros u Hu. apply on_thread_keeps; [done|]. intros th' ? (Hr & Ho) ->. simplify_eq. naive_solver congruence.
  - intros (u & th' & H1 & H2 & H3). exists u.
    destruct (on_thread_keeps s t f u (fun th => saved th = true)) as (th2 & H4 & H5); [eauto| |eauto].
    intros th2 ? ? _. simplify_eq. auto.
Qed.

Lemma inv_on_thread : inv e s ph -> inv e (on_thread t f s) ph.
Proof.
  intros [Hc Hp Ht Hpl]. split.
  - intros c. destruct (Hc c) as [C1 C2 C3 C4 C5 C6 C7 C8 C9]. split; rewrite ?cpus_on_thread; auto.
    + intros u Hu. destruct (C1 u Hu) as [? Hx]. split; [done|]. apply on_thread_keeps; [done|].
      intros th' ? (Hr & Ho & Hw) ->. simplify_eq. naive_solver congruence.
    + intros u Hu. apply on_thread_keeps; [by apply C4|]. intros; simplify_eq. naive_solver congruence.
    + intros u Hu. destruct (C5 u Hu) as [? Hx]. split; [done|]. apply on_thread_keeps; [done|].
      intros th' ? (Ho & Hw & Hr) ->. simplify_eq. split; [congruence|]. split; [congruence|]. auto.
    + intros u Hu. apply on_thread_keeps; [by apply C6|]. intros th' ? (Hw & Hr) ->. simplify_eq.
      split; [congruence|]. by eapply Hidle.
    + eapply Forall_impl; [exact C9|]. simpl. intros u Hu. apply on_thread_keeps; [done|].
      intros th' ? (Hr & Ho) ->. simplify_eq. split; [auto|congruence].
  - intros c. apply phase_ok_on_thread, Hp.
  - intros u th'. rewrite lookup_on_thread. case_decide as Hu; [subst u; rewrite Hth; simpl; intros [= <-]|].
    + destruct (Ht t th Hth) as [T1 T2 T3 T4]. split; rewrite ?cpus_on_thread, ?Hown, ?Hon; auto.
    + intros H'. destruct (Ht u th' H') as [T1 T2 T3 T4]. by split.
  - intros u th'. rewrite lookup_on_thread. case_decide as Hu; [subst u; rewrite Hth; simpl; intros [= <-]|].
    + intros He. unfold placed. rewrite cpus_on_thread, Hown, Hon. intros Hr Ho.
      destruct (Hready Hr Ho) as [Hr'|]; [|done]. by apply (Hpl t th Hth He).
    + intros H' He. exact (Hpl u th' H' He).
Qed.

End OnThread.

(** ** Changes to one processor's queues *)

Lemma lookup_set_cpu s c me d : cpus (set_cpu c me s) d = if decide (d = c) then me else cpus s d.
Proof. unfold set_cpu. simpl. case_decide; subst; [apply fn_lookup_insert|by apply fn_lookup_insert_ne]. Qed.

(** The same processor but for its queues, its guard counters and its slice. *)
Record same_rest (me me' : Cpu) : Prop := {
  sr_current : current me' = current me;
  sr_idle : idle me' = idle me;
  sr_pending : pending me' = pending me;
  sr_graveyard : graveyard me' = graveyard me;
  sr_reaped : reaped me' = reaped me;
  sr_word : current_word me' = current_word me;
}.

Lemma same_rest_refl me : same_rest me me.
Proof. by split. Qed.
Lemma same_rest_trans a b c : same_rest a b -> same_rest b c -> same_rest a c.
Proof. intros [] []. split; congruence. Qed.

Section Requeue.
Context (e e' : option nat) (s : Scheduler) (ph : nat -> Phase) (c : nat) (me' : Cpu).
Context (Hrest : same_rest (cpus s c) me').
Context (Hnd : NoDup (qs me')) (Hcount : queued me' = Z.of_nat (length (qs me'))).
Context (Hin : forall u, u ∈ qs me' -> idle (cpus s c) <> Some u /\
  exists th, threads s !! u = Some th /\ state th = Ready /\ on_cpu th = false /\ owner th = c).
Context (Hstay : forall u, u ∈ qs (cpus s c) -> u ∈ qs me' \/ e' = Some u).
Context (Hplace : forall u th, e = Some u -> e' <> Some u -> threads s !! u = Some th ->
  owner th = c /\ u ∈ qs me').
Context (Hspawn : forall u, ph c = Spawning u -> u ∉ qs me').

Lemma requeue_lookup d : same_rest (cpus s d) (cpus (set_cpu c me' s) d) /\
  (d <> c -> cpus (set_cpu c me' s) d = cpus s d).
Proof. rewrite lookup_set_cpu. case_decide; subst; split; try done. Qed.

Lemma phase_ok_requeue d : phase_ok s d (ph d) -> phase_ok (set_cpu c me' s) d (ph d).
Proof.
  destruct (requeue_lookup d) as [[R1 R2 R3 R4 R5 R6] Rne].
  destruct (ph d) as [|u| |w ids|w|] eqn:Hp; cbn [phase_ok]; unfold switching_ok; rewrite ?R1, ?R2, ?R3; try done.
  intros (H1 & H2 & H3 & H4). split; [done|]. split; [done|]. split; [|done].
  destruct (decide (d = c)) as [->|Hne]; [|by rewrite Rne].
  rewrite lookup_set_cpu, decide_True by done. by apply Hspawn.
Qed.

Lemma inv_requeue : inv e s ph -> inv e' (set_cpu c me' s) ph.
Proof.
  intros [Hc Hp Ht Hpl]. split.
  - intros d. destruct (requeue_lookup d) as [[R1 R2 R3 R4 R5 R6] Rne].
    destruct (Hc d) as [C1 C2 C3 C4 C5 C6 C7 C8 C9].
    split; unfold current_id in *; rewrite ?R1, ?R2, ?R3, ?R4, ?R5, ?R6; auto.
    all: destruct (decide (d = c)) as [->|Hne]; [|rewrite ?Rne by done; auto];
      rewrite lookup_set_cpu, decide_True by done; auto.
  - intros d. apply phase_ok_requeue, Hp.
  - intros u th Hu. destruct (Ht u th Hu) as [T1 T2 T3 T4].
    destruct (requeue_lookup (owner th)) as [[R1 R2 R3 R4 R5 R6] _]. split; rewrite ?R1, ?R3; auto.
  - intros u th Hu He'. unfold placed. intros Hr Ho.
    destruct (requeue_lookup (owner th)) as [[R1 R2 R3 R4 R5 R6] Rne]. rewrite R2.
    destruct (decide (e = Some u)) as [He|He].
    + left. destruct (Hplace u th He He' Hu) as [-> Hq]. by rewrite lookup_set_cpu, decide_True.
    + destruct (Hpl u th Hu He Hr Ho) as [Hq|Hq]; [|by right].
      destruct (decide (owner th = c)) as [Hoc|Hne]; [|rewrite Rne by done; by left].
      left. rewrite Hoc in Hq |- *. rewrite lookup_set_cpu, decide_True by done.
      destruct (Hstay u Hq) as [|]; [done|congruence].
Qed.

End Requeue.

Lemma qs_insert p q me n :
  qs (set_queues (queue_insert p q (ready me)) n me) =
  (if decide (High = p) then q else ready me High) ++ (if decide (Normal = p) then q else ready me Normal) ++
  (if decide (Low = p) then q else ready me Low).
Proof. done. Qed.

Lemma qs_insert_perm p q me n :
  qs (set_queues (queue_insert p (q) (ready me)) n me) ++ ready me p ≡ₚ qs me ++ q.
Proof. rewrite qs_insert. unfold qs. destruct p; simpl; solve_Permutation. Qed.

Lemma enqueue_rest ths t me : same_rest me (enqueue ths t me).
Proof. unfold enqueue. destruct (ths !! t); by split. Qed.

Lemma enqueue_qs ths t th me : ths !! t = Some th ->
  qs (enqueue ths t me) ≡ₚ t :: qs me /\ queued (enqueue ths t me) = queued me + 1.
Proof.
  intros Ht. unfold enqueue. rewrite Ht. split; [|done].
  apply (Permutation_app_inv_r (ready me (priority th))). rewrite qs_insert_perm. solve_Permutation.
Qed.

(** A thread on its way arrives in a queue. *)
Lemma inv_enqueue s ph c t th :
  inv (Some t) s ph -> threads s !! t = Some th ->
  state th = Ready -> on_cpu th = false -> owner th = c ->
  t ∉ qs (cpus s c) -> idle (cpus s c) <> Some t -> ph c <> Spawning t ->
  inv None (set_cpu c (enqueue (threads s) t (cpus s c)) s) ph.
Proof.
  intros Hinv Hth Hr Ho Hown Hnq Hni Hns. destruct (enqueue_qs (threads s) t th (cpus s c) Hth) as [Hq Hn].
  pose proof (inv_cpu _ _ _ Hinv c) as [C1 C2 C3 C4 C5 C6 C7 C8 C9].
  apply (inv_requeue (Some t) None); [apply enqueue_rest|..|done].
  - rewrite Hq. by constructor.
  - rewrite Hn, Hq, C3. simpl. lia.
  - intros u. rewrite Hq, elem_of_cons. intros [->|Hu]; [split; [done|eauto]|by apply C1].
  - intros u Hu. left. rewrite Hq. by right.
  - intros u th' [= <-] _ ?. simplify_eq. split; [done|]. rewrite Hq. by left.
  - intros u Hu. rewrite Hq, elem_of_cons. intros [->|Hin]; [done|].
    pose proof (inv_phase _ _ _ Hinv c) as Hp. rewrite Hu in Hp. cbn [phase_ok] in Hp. tauto.
Qed.

(** ** Taking a thread off a queue *)

Definition all_runnable (ths : list Thread) (me : Cpu) : Prop :=
  forall p, Forall (fun t => runnable ths t = true) (ready me p).

Lemma pop_level_runnable ths q n : Forall (fun t => runnable ths t = true) q ->
  pop_level ths q n = match q with [] => (None, [], n) | t :: q' => (Some t, q', n - 1) end.
Proof. destruct 1 as [|t q Ht Hq]; [done|]. simpl. by rewrite Ht. Qed.

(** What a pop leaves alone. *)
Definition same_guard (me me' : Cpu) : Prop :=
  priority_streak me' = priority_streak me /\ boost_level me' = boost_level me.

(** The first occupied level of the order gives its oldest thread. *)
Definition popped (order : list Priority) (me : Cpu) (r : option nat) (me' : Cpu) : Prop :=
  match r with
  | Some t => exists pre p post, order = pre ++ p :: post /\ Forall (fun p' => ready me p' = []) pre /\
      ready me p = t :: ready me' p /\ (forall p', p' <> p -> ready me' p' = ready me p') /\
      queued me' = queued me - 1
  | None => Forall (fun p => ready me p = []) order /\ (forall p, ready me' p = ready me p) /\
      queued me' = queued me
  end.

Lemma pop_from_spec ths order : forall me, all_runnable ths me ->
  same_rest me (snd (pop_from ths order me)) /\ same_guard me (snd (pop_from ths order me)) /\
  popped order me (fst (pop_from ths order me)) (snd (pop_from ths order me)).
Proof.
  induction order as [|level order IH]; intros me Hall; cbn [pop_from].
  { split; [by split|]. split; [by split|]. split; [constructor|by split]. }
  rewrite pop_level_runnable by apply Hall. destruct (ready me level) as [|t q] eqn:Hq.
  - set (me1 := set_queues _ _ _).
    assert (Hr1 : forall p, ready me1 p = ready me p).
    { intros p. unfold me1, queue_insert. simpl. case_decide; subst; done. }
    assert (Hs1 : same_rest me me1 /\ same_guard me me1 /\ queued me1 = queued me) by (by repeat split).
    clearbody me1. destruct Hs1 as (Hs1 & [Hg1 Hg2] & Hn1).
    assert (Hpre1 : forall ps, Forall (fun p => ready me1 p = []) ps -> Forall (fun p => ready me p = []) ps).
    { intros ps Hps. eapply Forall_impl; [exact Hps|]. intros p. simpl. by rewrite Hr1. }
    destruct (IH me1) as (Hs & Hg & Hp); [intros p; rewrite Hr1; apply Hall|].
    split; [by eapply same_rest_trans|]. split; [destruct Hg; split; congruence|].
    destruct (pop_from ths order me1) as [[t|] me']; simpl in *.
    + destruct Hp as (pre & p & post & -> & Hpre & Hrp & Hoth & Hn). exists (level :: pre), p, post.
      split; [done|]. split; [constructor; auto|].
      rewrite Hr1 in Hrp. split; [done|]. split; [|congruence]. intros p' Hne. by rewrite Hoth, Hr1.
    + destruct Hp as (Hpre & Hoth & Hn). split; [constructor; auto|].
      split; [|congruence]. intros p'. by rewrite Hoth, Hr1.
  - simpl. split; [by split|]. split; [by split|]. exists [], level, order. split; [done|]. split; [constructor|].
    unfold queue_insert. rewrite decide_True by done. split; [done|]. split; [|done].
    intros p' Hne. by rewrite decide_False.
Qed.

Lemma pop_runnable_spec ths me : all_runnable ths me ->
  let boosting := priority_streak me >=? STARVATION_GUARD in
  let r := fst (pop_runnable ths me) in
  let me' := snd (pop_runnable ths me) in
  same_rest me me' /\ popped (order_of boosting (boost_level me)) me r me' /\
  match r with
  | None => same_guard me me'
  | Some _ =>
      if boosting then priority_streak me' = 0 /\ boost_level me' = Z.lxor (boost_level me) 1
      else priority_streak me' = saturating_add U32_MAX (priority_streak me) 1 /\ boost_level me' = boost_level me
  end.
Proof.
  intros Hall boosting. unfold pop_runnable. fold boosting.
  destruct (pop_from_spec ths (order_of boosting (boost_level me)) me Hall) as (Hs & [Hg1 Hg2] & Hp).
  destruct (pop_from ths _ me) as [[t|] me']; simpl in *.
  - destruct boosting; simpl; (split; [destruct Hs; by split|]); (split; [done|]); by rewrite ?Hg1, ?Hg2.
  - by split; [|split].
Qed.

Lemma popped_qs order me r me' : popped order me r me' ->
  match r with
  | Some t => qs me ≡ₚ t :: qs me' /\ queued me' = queued me - 1
  | None => qs me' = qs me /\ queued me' = queued me
  end.
Proof.
  unfold popped, qs. destruct r as [t|].
  - intros (pre & p & post & _ & _ & Hp & Hoth & Hn). split; [|done].
    destruct p; rewrite ?Hp, ?(Hoth High), ?(Hoth Normal), ?(Hoth Low) by done; solve_Permutation.
  - intros (_ & Hoth & Hn). by rewrite !Hoth.
Qed.

Lemma popped_none me me' : popped by_priority me None me' -> qs me = [].
Proof.
  intros (Hall & _). unfold by_priority in Hall. unfold qs.
  by rewrite !Forall_cons in Hall; destruct Hall as (-> & -> & -> & _).
Qed.

Lemma inv_runnable e s ph c : inv e s ph -> all_runnable (threads s) (cpus s c).
Proof.
  intros Hinv p. apply Forall_forall. intros t Ht.
  destruct (co_queued _ _ (inv_cpu _ _ _ Hinv c) t) as (_ & th & Hth & Hr & Ho & _).
  - unfold qs. rewrite !elem_of_app. destruct p; tauto.
  - unfold runnable. rewrite Hth, Ho, bool_decide_true by done. done.
Qed.

(** Taking one off leaves it on its way; nobody else moves. *)
Lemma inv_pop s ph c order r me' :
  inv None s ph -> same_rest (cpus s c) me' -> popped order (cpus s c) r me' ->
  inv r (set_cpu c me' s) ph /\
  match r with
  | None => True
  | Some t => t ∉ qs me' /\ idle (cpus s c) <> Some t /\ ph c <> Spawning t /\
      exists th, threads s !! t = Some th /\ state th = Ready /\ on_cpu th = false /\ owner th = c
  end.
Proof.
  intros Hinv Hrest Hp%popped_qs. pose proof (inv_cpu _ _ _ Hinv c) as [C1 C2 C3 C4 C5 C6 C7 C8 C9].
  pose proof (inv_phase _ _ _ Hinv c) as Hph. destruct r as [t|].
  - destruct Hp as [Hq Hn]. rewrite Hq, NoDup_cons in C2. destruct C2 as [Hnt Hnd].
    assert (Hsub : forall u, u ∈ qs me' -> u ∈ qs (cpus s c)) by (intros u Hu; rewrite Hq; by right).
    assert (Ht : t ∈ qs (cpus s c)) by (rewrite Hq; by left).
    split; [apply (inv_requeue None (Some t)); [done|done|..|done]|].
    + rewrite Hn, C3, Hq. simpl. lia.
    + intros u Hu. by apply C1, Hsub.
    + intros u. rewrite Hq, elem_of_cons. intros [->|]; auto.
    + done.
    + intros u Hu Hin. rewrite Hu in Hph. cbn [phase_ok] in Hph. destruct Hph as (_ & _ & Hx & _). by apply Hx, Hsub.
    + destruct (C1 t Ht) as [Hi Hex]. split; [done|]. split; [done|]. split; [|done].
      intros Hu. rewrite Hu in Hph. cbn [phase_ok] in Hph. tauto.
  - destruct Hp as [Hq Hn]. split; [|done]. apply (inv_requeue None None); rewrite ?Hq, ?Hn; auto; [done|].
    intros u Hu. rewrite Hu in Hph. cbn [phase_ok] in Hph. tauto.
Qed.

(** ** Moving a thread between processors *)

Lemma inv_weaken e s ph : inv None s ph -> inv e s ph.
Proof. intros [? ? ? Hp]. split; auto. Qed.

(** A thread on its way may change hands. *)
Lemma inv_move s ph t th c :
  inv (Some t) s ph -> threads s !! t = Some th -> state th = Ready -> on_cpu th = false ->
  t ∉ qs (cpus s (owner th)) -> idle (cpus s (owner th)) <> Some t -> ph (owner th) <> Spawning t ->
  inv (Some t) (on_thread t (set_owner c) s) ph.
Proof.
  intros [Hc Hp Ht Hpl] Hth Hr Ho Hnq Hni Hns. split.
  - intros d. destruct (Hc d) as [C1 C2 C3 C4 C5 C6 C7 C8 C9]. split; rewrite ?cpus_on_thread; auto.
    + intros u Hu. destruct (C1 u Hu) as [? Hx]. split; [done|]. apply on_thread_keeps; [done|].
      intros th' ? (_ & _ & Hw) ->. simplify_eq.
    + intros u Hu. apply on_thread_keeps; [by apply C4|]. intros; simplify_eq. naive_solver congruence.
    + intros u Hu. destruct (C5 u Hu) as [? Hx]. split; [done|]. apply on_thread_keeps; [done|].
      intros; simplify_eq. naive_solver congruence.
    + intros u Hu. apply on_thread_keeps; [by apply C6|]. intros th' ? (Hw & _) ->. simplify_eq.
    + eapply Forall_impl; [exact C9|]. simpl. intros u Hu. apply on_thread_keeps; [done|].
      intros; simplify_eq. naive_solver congruence.
  - intros d. specialize (Hp d). assert (Hsw : forall w, switching_ok s d w -> switching_ok (on_thread t (set_owner c) s) d w).
    { intros w (H1 & H2 & H3 & H4). split; [done|]. split; [done|]. split; [done|]. by apply on_thread_keeps. }
    destruct (ph d) as [|u| |w ids|w|] eqn:Hd; cbn [phase_ok] in *; auto.
    + destruct Hp as (H1 & H2 & H3). split; [done|]. split; [|done].
      apply on_thread_keeps; [done|]. intros th' ? (_ & _ & Hw) ->. simplify_eq.
    + destruct Hp as [H1 H2]. split; [|destruct w; auto]. eapply Forall_impl; [exact H1|]. simpl.
      intros u Hu. by apply on_thread_keeps.
    + destruct Hp as (u & th' & H1 & H2 & H3). exists u.
      destruct (on_thread_keeps s t (set_owner c) u (fun th => saved th = true)) as (th2 & H4 & H5); eauto.
  - intros u th'. rewrite lookup_on_thread. case_decide as Hu; [subst u; rewrite Hth; simpl; intros [= <-]|].
    + destruct (Ht t th Hth) as [T1 T2 T3 T4]. split; simpl; auto; congruence.
    + intros H'. destruct (Ht u th' H') as [T1 T2 T3 T4]. by split.
  - intros u th'. rewrite lookup_on_thread. case_decide as Hu; [subst u; done|].
    intros H' He. exact (Hpl u th' H' He).
Qed.

(** Moved and queued. *)
Lemma inv_migrate s ph t th c :
  inv (Some t) s ph -> threads s !! t = Some th -> state th = Ready -> on_cpu th = false ->
  t ∉ qs (cpus s (owner th)) -> idle (cpus s (owner th)) <> Some t -> ph (owner th) <> Spawning t ->
  inv None (set_cpu c (enqueue (threads (on_thread t (set_owner c) s)) t (cpus s c)) (on_thread t (set_owner c) s)) ph.
Proof.
  intros Hinv Hth Hr Ho Hnq Hni Hns.
  assert (Hmoved := inv_move s ph t th c Hinv Hth Hr Ho Hnq Hni Hns).
  apply (inv_enqueue (on_thread t (set_owner c) s) ph c t (set_owner c th)); auto.
  - by rewrite lookup_on_thread, decide_True, Hth.
  - rewrite cpus_on_thread. intros Hin. destruct (co_queued _ _ (inv_cpu _ _ _ Hinv c) t Hin) as (_ & th' & ? & _ & _ & <-).
    by simplify_eq.
  - rewrite cpus_on_thread. intros Hi. destruct (co_idle _ _ (inv_cpu _ _ _ Hinv c) t Hi) as (th' & ? & <- & _).
    by simplify_eq.
  - intros Hs. pose proof (inv_phase _ _ _ Hinv c) as Hp. rewrite Hs in Hp.
    destruct Hp as (_ & (th' & ? & _ & _ & <-) & _). by simplify_eq.
Qed.

Lemma busiest_other seen c v : busiest seen c = Some v -> v <> c.
Proof.
  unfold busiest. enough (forall l best, (forall b, best = Some b -> b <> c) -> forall v,
    fold_left (fun best other => if bool_decide (other = c) then best
      else match best with
           | None => Some other
           | Some b => if seen b <=? seen other then Some other else Some b
           end) l best = Some v -> v <> c) as H by (by apply H).
  induction l as [|x l IH]; intros best Hb w; simpl; [auto|]. apply IH. intros b.
  case_bool_decide; [auto|]. destruct best as [b0|]; [destruct (_ <=? _)|]; intros [= <-]; auto.
Qed.

Lemma inv_steal seen again s ph c : inv None s ph -> inv None (steal seen again c s) ph.
Proof.
  intros Hinv. unfold steal. destruct (busiest seen c) as [v|] eqn:Hv; [|done].
  apply busiest_other in Hv. destruct (_ >? 0); [|done]. destruct (_ >? 0); [done|].
  destruct (pop_from_spec (threads s) by_priority (cpus s v) (inv_runnable _ _ _ v Hinv)) as (Hrest & _ & Hp).
  destruct (pop_from (threads s) by_priority (cpus s v)) as [r theirs]; simpl in *.
  destruct (inv_pop s ph v by_priority r theirs Hinv Hrest Hp) as [Hinv' Ht].
  destruct r as [t|]; [|done]. destruct Ht as (Hnq & Hni & Hns & th & Hth & Hr & Ho & Hown).
  apply (inv_migrate (set_cpu v theirs s) ph t th c Hinv' Hth Hr Ho);
    rewrite Hown, ?lookup_set_cpu, ?decide_True, ?(sr_idle _ _ Hrest) by done; done.
Qed.

(** ** Waking *)

Lemma inv_unblock s ph c id : inv None s ph -> inv None (unblock c id s) ph.
Proof.
  intros Hinv. unfold unblock, lookup_thread. destruct (threads s !! id) as [th|] eqn:Hth; [|done].
  destruct (listed th) eqn:Hl; [|done]. pose proof (inv_thread _ _ _ Hinv id th Hth) as [T1 T2 T3 T4].
  case_bool_decide as Hb.
  - assert (Hready : inv (Some id) (on_thread id (set_state Ready) s) ph).
    { apply inv_on_thread with th; simpl; auto; try congruence. by apply inv_weaken. }
    destruct (on_cpu th) eqn:Ho.
    + apply inv_on_thread with th; simpl; auto; congruence.
    + assert (Hnq : id ∉ qs (cpus s (owner th))).
      { intros Hin. destruct (co_queued _ _ (inv_cpu _ _ _ Hinv _) _ Hin) as (_ & th' & ? & ? & _). simplify_eq. congruence. }
      assert (Hni : idle (cpus s (owner th)) <> Some id).
      { intros Hi. destruct (co_idle _ _ (inv_cpu _ _ _ Hinv _) _ Hi) as (th' & ? & _ & [|]); simplify_eq; congruence. }
      assert (Hns : ph (owner th) <> Spawning id).
      { intros Hs. pose proof (inv_phase _ _ _ Hinv (owner th)) as Hp. rewrite Hs in Hp.
        destruct Hp as (_ & (th' & ? & ? & _) & _). simplify_eq. congruence. }
      apply (inv_migrate (on_thread id (set_state Ready) s) ph id (set_state Ready th) c); auto.
      by rewrite lookup_on_thread, decide_True, Hth.
  - case_bool_decide as Hf; [done|]. apply inv_on_thread with th; simpl; auto.
    intros d Hi. destruct (co_idle _ _ (inv_cpu _ _ _ Hinv _) _ Hi) as (th' & ? & _ & ?). by simplify_eq.
Qed.

(** ** Leaving a processor *)

Definition is_dead (s : Scheduler) (t : nat) : Prop :=
  exists th, threads s !! t = Some th /\ state th = Finished /\ on_cpu th = false.

Lemma inv_strengthen s ph t th :
  inv (Some t) s ph -> threads s !! t = Some th -> placed s ph t th -> inv None s ph.
Proof.
  intros [? ? ? Hp] Hth Hpl. split; auto. intros u thu Hu _.
  destruct (decide (u = t)) as [->|Hne]; [by simplify_eq|]. apply Hp; [done|]. congruence.
Qed.

(** A processor whose list of the dead changes. *)
Lemma inv_set_dead e s ph c stacks ids :
  inv e s ph -> Forall (is_dead s) (stacks ++ ids) ->
  inv e (set_cpu c (set_dead stacks ids (cpus s c)) s) ph.
Proof.
  intros [Hc Hp Ht Hpl] Hdead.
  assert (Hd : forall d, exists st id, cpus (set_cpu c (set_dead stacks ids (cpus s c)) s) d = set_dead st id (cpus s d) /\
    Forall (is_dead s) (st ++ id)).
  { intros d. rewrite lookup_set_cpu. case_decide; subst; [eauto|].
    exists (graveyard (cpus s d)), (reaped (cpus s d)). split; [by destruct (cpus s d)|]. apply (co_dead _ _ (Hc d)). }
  split.
  - intros d. destruct (Hd d) as (st & id & Hcpu & Hf). destruct (Hc d) as [C1 C2 C3 C4 C5 C6 C7 C8 C9].
    split; unfold current_id in *; rewrite Hcpu; auto.
  - intros d. specialize (Hp d). destruct (Hd d) as (st & id & Hcpu & _).
    destruct (ph d); cbn [phase_ok] in *; unfold switching_ok in *; rewrite Hcpu; auto.
  - intros u th Hu. destruct (Ht u th Hu) as [T1 T2 T3 T4]. destruct (Hd (owner th)) as (st & id & Hcpu & _).
    split; rewrite ?Hcpu; auto.
  - intros u th Hu He. destruct (Hd (owner th)) as (st & id & Hcpu & _). unfold placed. rewrite Hcpu.
    exact (Hpl u th Hu He).
Qed.

(** The switch away from [t] is complete: nobody stands on its stack any more. *)
Lemma inv_release s ph c t th :
  inv None s ph -> ph c = Arriving -> pending (cpus s c) = Some t -> threads s !! t = Some th -> saved th = true ->
  inv (Some t) (set_cpu c (set_pending None (cpus s c)) (on_thread t (set_on_cpu false) s)) (<[c := Executing]> ph).
Proof.
  intros [Hc Hp Ht Hpl] Hph Hpend Hth Hsav.
  destruct (co_pending _ _ (Hc c) t Hpend) as (Hcur & th0 & ? & Hon & Hown & Hst). simplify_eq.
  set (s1 := on_thread t (set_on_cpu false) s). set (s2 := set_cpu (owner th) _ _).
  assert (Hcp : forall d, exists p, cpus s2 d = set_pending p (cpus s d) /\
    (d = owner th /\ p = None \/ d <> owner th /\ p = pending (cpus s d))).
  { intros d. unfold s2. rewrite lookup_set_cpu. case_decide; subst; [eauto|].
    exists (pending (cpus s d)). split; [by unfold s1; rewrite cpus_on_thread; destruct (cpus s d)|auto]. }
  assert (Hkeep : forall u (P : Thread -> Prop), (exists th, threads s !! u = Some th /\ P th) ->
    (u = t -> P th -> P (set_on_cpu false th)) -> exists th, threads s2 !! u = Some th /\ P th).
  { intros u P HP Hf. unfold s2. apply on_thread_keeps; [done|]. intros th' ? ? ->. simplify_eq. auto. }
  split.
  - intros d. destruct (Hcp d) as (p & Hcpu & Hd). destruct (Hc d) as [C1 C2 C3 C4 C5 C6 C7 C8 C9].
    split; unfold current_id in *; rewrite Hcpu; auto.
    + intros u Hu. destruct (C1 u Hu) as [? Hx]. split; [done|]. apply Hkeep; [done|]. simpl. tauto.
    + intros u Hu. simpl in Hu. apply Hkeep; [by apply C4|]. intros -> [_ Hw]. subst d. by rewrite Hu in Hcur.
    + intros u Hu. simpl in Hu. destruct Hd as [[-> ->]|[Hne ->]]; [done|]. destruct (C5 u Hu) as [? Hx]. split; [done|].
      apply Hkeep; [done|]. intros -> (_ & Hw & _). congruence.
    + eapply Forall_impl; [exact C9|]. simpl. intros u Hu. apply Hkeep; [done|]. simpl. tauto.
  - intros d. destruct (Hcp d) as (p & Hcpu & Hd). destruct Hd as [[-> ->]|[Hne ->]].
    { rewrite fn_lookup_insert. cbn [phase_ok]. by rewrite Hcpu. }
    rewrite fn_lookup_insert_ne by done. specialize (Hp d).
    assert (Hsw : forall w, switching_ok s d w -> switching_ok s2 d w).
    { intros w (H1 & H2 & H3 & H4). unfold switching_ok. rewrite Hcpu. split; [done|]. split; [done|]. split; [done|].
      apply Hkeep; [done|]. auto. }
    destruct (ph d) as [|u| |w ids|w|] eqn:Hd; cbn [phase_ok] in *; rewrite ?Hcpu; auto.
    + destruct Hp as (H1 & H2 & H3). split; [done|]. split; [|done]. apply Hkeep; [done|]. simpl. tauto.
    + destruct Hp as [H1 H2]. split; [|destruct w; auto; by rewrite Hcpu]. eapply Forall_impl; [exact H1|]. simpl.
      intros u Hu. apply Hkeep; [done|]. simpl. tauto.
    + destruct Hp as (u & th' & H1 & H2 & H3). exists u.
      destruct (Hkeep u (fun th => saved th = true)) as (th2 & H4 & H5); eauto.
  - intros u th'. unfold s2. change (threads (set_cpu _ _ s1)) with (threads s1). unfold s1.
    rewrite lookup_on_thread. fold s1 s2. case_decide as Hu; [subst u; rewrite Hth; simpl; intros [= <-]|].
    + destruct (Ht t th Hth) as [T1 T2 T3 T4]. destruct (Hcp (owner th)) as (p & Hcpu & _).
      split; simpl; rewrite ?Hcpu; auto; try done. intros Hl. by destruct (T4 Hl).
    + intros H'. destruct (Ht u th' H') as [T1 T2 T3 T4]. destruct (Hcp (owner th')) as (p & Hcpu & Hd).
      split; rewrite ?Hcpu; simpl; auto. intros Hx. destruct (T1 Hx) as [|Hpd]; [by left|].
      destruct Hd as [[He ->]|[Hne ->]]; [|by right]. rewrite He in Hpd. congruence.
  - intros u th'. unfold s2. change (threads (set_cpu _ _ s1)) with (threads s1). unfold s1.
    rewrite lookup_on_thread. fold s1 s2. case_decide as Hu; [subst u; done|].
    intros H' _. unfold placed. intros Hr Ho. destruct (Hcp (owner th')) as (p & Hcpu & Hd). rewrite Hcpu.
    destruct (Hpl u th' H' ltac:(done) Hr Ho) as [?|[?|Hx]]; [by left|by right; left|]. right. right.
    destruct (decide (owner th' = owner th)) as [He|He]; [rewrite He in Hx; congruence|].
    by rewrite fn_lookup_insert_ne.
Qed.

(** ** States up to pointwise equality of the processors *)

Definition sched_equiv (s s' : Scheduler) : Prop :=
  threads s = threads s' /\ forall c, cpus s c = cpus s' c.

Lemma inv_equiv e s s' ph ph' :
  sched_equiv s s' -> (forall c, ph c = ph' c) -> inv e s ph -> inv e s' ph'.
Proof.
  intros [Hths Hcpus] Hphs [Hc Hp Ht Hpl]. split.
  - intros d. destruct (Hc d) as [C1 C2 C3 C4 C5 C6 C7 C8 C9].
    split; unfold current_id in *; rewrite <-?Hcpus, <-?Hths; auto.
  - intros d. specialize (Hp d). rewrite <-Hphs. destruct (ph d); cbn [phase_ok] in *; unfold switching_ok in *;
      rewrite <-?Hcpus, <-?Hths; auto.
  - intros t th. rewrite <-Hths. intros H'. destruct (Ht t th H') as [T1 T2 T3 T4]. split; rewrite <-?Hcpus; auto.
  - intros t th. rewrite <-Hths. intros H' He. unfold placed. rewrite <-Hcpus, <-Hphs. exact (Hpl t th H' He).
Qed.

Lemma set_cpu_twice c a b s : sched_equiv (set_cpu c b (set_cpu c a s)) (set_cpu c b s).
Proof. split; [done|]. intros d. rewrite !lookup_set_cpu. by case_decide. Qed.

Lemma inv_arrive s ph c :
  inv None s ph -> ph c = Arriving -> inv None (arrive c s) (<[c := Executing]> ph).
Proof.
  intros Hinv Hph. pose proof (inv_phase _ _ _ Hinv c) as Hp. rewrite Hph in Hp.
  destruct Hp as (t & th & Hpend & Hth & Hsav).
  destruct (co_pending _ _ (inv_cpu _ _ _ Hinv c) t Hpend) as (Hcur & th0 & ? & Hon & Hown & Hst). simplify_eq.
  pose proof (inv_release s ph (owner th) t th Hinv Hph Hpend Hth Hsav) as Hrel.
  unfold arrive, flush_pending. rewrite Hpend.
  set (ths1 := alter (set_on_cpu false) t (threads s)). set (me0 := set_pending None (cpus s (owner th))).
  set (s2 := set_cpu (owner th) me0 (on_thread t (set_on_cpu false) s)) in *.
  assert (Hth1 : ths1 !! t = Some (set_on_cpu false th)) by (unfold ths1; by rewrite list_lookup_alter_eq, Hth).
  assert (Hme : cpus s2 (owner th) = me0) by (unfold s2; by rewrite lookup_set_cpu, decide_True).
  assert (Hplace : state th <> Ready \/ idle me0 = Some t -> inv None s2 (<[owner th := Executing]> ph)).
  { intros Hor. apply (inv_strengthen _ _ t (set_on_cpu false th)); [done|exact Hth1|].
    intros Hr _. simpl in Hr. destruct Hor as [|Hi]; [done|]. right. left. change (idle (cpus s2 (owner th)) = Some t). by rewrite Hme. }
  rewrite Hth1. simpl. destruct (state th) eqn:Hs; [|done|by apply Hplace; left|].
  - case_bool_decide as Hi; [by apply Hplace; right|].
    eapply inv_equiv; [apply (set_cpu_twice (owner th) me0)|done|]. fold me0.
    change (inv None (set_cpu (owner th) (enqueue (threads s2) t me0) s2) (<[owner th := Executing]> ph)).
    rewrite <-Hme. apply inv_enqueue with (set_on_cpu false th); auto; [|by rewrite Hme|by rewrite fn_lookup_insert].
    rewrite Hme. change (t ∉ qs (cpus s (owner th))). intros Hin.
    destruct (co_queued _ _ (inv_cpu _ _ _ Hinv _) _ Hin) as (_ & th' & ? & _ & ? & _). simplify_eq. congruence.
  - pose proof (Hplace ltac:(left; done)) as Hinv2.
    assert (Hdead : Forall (is_dead s2) (graveyard me0 ++ reaped me0)).
    { pose proof (co_dead _ _ (inv_cpu _ _ _ Hinv2 (owner th))) as Hd. by rewrite Hme in Hd. }
    assert (Htd : is_dead s2 t) by (exists (set_on_cpu false th); done).
    rewrite Forall_app in Hdead. destruct Hdead as [Hd1 Hd2].
    destruct (stack th).
    + set (s3 := on_thread t (set_stack false) s2).
      assert (Hinv3 : inv None s3 (<[owner th := Executing]> ph)).
      { apply inv_on_thread with (set_on_cpu false th); simpl; auto; try congruence.
        intros d Hi. destruct (co_idle _ _ (inv_cpu _ _ _ Hinv2 _) _ Hi) as (th' & Ht' & _ & ?).
        change (threads s2) with ths1 in Ht'. simplify_eq. naive_solver congruence. }
      assert (Hmono : forall u, is_dead s2 u -> is_dead s3 u) by (intros u Hu; by apply on_thread_keeps).
      eapply inv_equiv; [apply (set_cpu_twice (owner th) me0)|done|].
      change (inv None (set_cpu (owner th) (set_dead (graveyard me0 ++ [t]) (reaped me0 ++ [t]) me0) s3)
        (<[owner th := Executing]> ph)).
      replace me0 with (cpus s3 (owner th)) at 3 by exact Hme. apply inv_set_dead; [done|].
      rewrite !Forall_app, !Forall_singleton.
      split; split; auto; eapply Forall_impl; [exact Hd1| |exact Hd2|]; exact Hmono.
    + eapply inv_equiv; [apply (set_cpu_twice (owner th) me0)|done|].
      change (inv None (set_cpu (owner th) (set_dead (graveyard me0) (reaped me0 ++ [t]) me0) s2)
        (<[owner th := Executing]> ph)).
      replace me0 with (cpus s2 (owner th)) at 3 by exact Hme. apply inv_set_dead; [done|].
      rewrite !Forall_app, !Forall_singleton. auto.
Qed.

(** ** Deciding to switch *)

(** Committing to [next]: it comes from a queue or is the idle thread, and [cur], no
    longer running, is held back until its registers are saved. *)
Section Commit.
Context (e : option nat) (s : Scheduler) (ph : nat -> Phase) (c cur next : nat) (thc thn : Thread).
Context (Hinv : inv e s ph) (Hph : ph c = Scheduling).
Context (Hcur : current (cpus s c) = Some cur) (Hne : next <> cur).
Context (Hthc : threads s !! cur = Some thc) (Hstc : state thc <> Running).
Context (Hthn : threads s !! next = Some thn) (Hr : state thn = Ready) (Ho : on_cpu thn = false).
Context (Hown : owner thn = c) (Hnq : next ∉ qs (cpus s c)) (He : forall u, e = Some u -> u = next).

Let go (th : Thread) : Thread := set_on_cpu true (set_state Running th).
Let s' : Scheduler :=
  set_cpu c (set_current (Some next) (set_pending (Some cur) (cpus s c))) (on_thread next go s).

Lemma commit_cpus d : d <> c -> cpus s' d = cpus s d.
Proof. intros Hd. unfold s'. by rewrite lookup_set_cpu, decide_False. Qed.

Lemma commit_me : cpus s' c = set_current (Some next) (set_pending (Some cur) (cpus s c)).
Proof. unfold s'. by rewrite lookup_set_cpu, decide_True. Qed.

Lemma commit_keeps u (P : Thread -> Prop) :
  (exists th, threads s !! u = Some th /\ P th) -> (u = next -> P thn -> P (go thn)) ->
  exists th, threads s' !! u = Some th /\ P th.
Proof.
  intros HP Hf. unfold s'. apply on_thread_keeps; [done|]. intros th' ? ? ->. simplify_eq. auto.
Qed.

Lemma commit_lookup u : threads s' !! u = if decide (u = next) then Some (go thn) else threads s !! u.
Proof.
  unfold s'. change (threads (set_cpu _ _ ?x)) with (threads x). rewrite lookup_on_thread.
  case_decide; subst; [by rewrite Hthn|done].
Qed.

Lemma commit_dead u : is_dead s u -> is_dead s' u.
Proof. intros Hu. apply commit_keeps; [done|]. intros _ [? _]. congruence. Qed.

Lemma commit_cpu_ok d : cpu_ok s' d.
Proof.
  destruct (inv_cpu _ _ _ Hinv d) as [C1 C2 C3 C4 C5 C6 C7 C8 C9].
  assert (Hq : forall u, u ∈ qs (cpus s d) -> idle (cpus s d) <> Some u /\
    exists th, threads s' !! u = Some th /\ state th = Ready /\ on_cpu th = false /\ owner th = d).
  { intros u Hu. destruct (C1 u Hu) as [? Hx]. split; [done|]. apply commit_keeps; [done|].
    intros -> (_ & _ & Hw). destruct Hnq. congruence. }
  assert (Hi : forall u, idle (cpus s d) = Some u ->
    exists th, threads s' !! u = Some th /\ owner th = d /\ (state th = Ready \/ state th = Running)).
  { intros u Hu. apply commit_keeps; [by apply C6|]. simpl. tauto. }
  assert (Hd : Forall (is_dead s') (graveyard (cpus s d) ++ reaped (cpus s d)))
    by (eapply Forall_impl; [exact C9|]; exact commit_dead).
  destruct (decide (d = c)) as [->|Hdc].
  - destruct (C4 cur Hcur) as (th0 & Hth0 & Hc1 & Hc2). rewrite Hthc in Hth0. injection Hth0 as <-.
    split; unfold current_id; rewrite commit_me; simpl; auto.
    + intros u [= <-]. exists (go thn). rewrite commit_lookup, decide_True by done. done.
    + intros u [= <-]. split; [congruence|]. exists thc. rewrite commit_lookup, decide_False by done. done.
    + intros Hn. rewrite (C7 Hn) in Hcur. done.
  - split; unfold current_id in *; rewrite commit_cpus by done; auto.
    + intros u Hu. apply commit_keeps; [by apply C4|]. simpl. tauto.
    + intros u Hu. destruct (C5 u Hu) as [? Hx]. split; [done|]. apply commit_keeps; [done|]. simpl. naive_solver congruence.
Qed.

Lemma commit_thread_ok ph' u th : threads s' !! u = Some th -> thread_ok s' ph' u th.
Proof.
  rewrite commit_lookup. case_decide as Hu; [intros [= <-]; subst u|intros Hth].
  - destruct (inv_thread _ _ _ Hinv next thn Hthn) as [T1 T2 T3 T4].
    assert (Hc : current (cpus s' (owner (go thn))) = Some next).
    { change (owner (go thn)) with (owner thn). by rewrite Hown, commit_me. }
    split; [by left|done|done|]. intros Hl. destruct (T4 Hl). congruence.
  - destruct (inv_thread _ _ _ Hinv u th Hth) as [T1 T2 T3 T4].
    pose proof (inv_phase _ _ _ Hinv c) as Hp. rewrite Hph in Hp. cbn [phase_ok] in Hp.
    destruct (decide (owner th = c)) as [Hoc|Hoc].
    + split; rewrite ?Hoc, ?commit_me; simpl; auto; rewrite Hoc, Hcur, ?Hp in *.
      * intros Hx. destruct (T1 Hx) as [|]; [by right|done].
      * intros Hx. assert (u = cur) as -> by (specialize (T2 Hx); congruence). congruence.
    + split; rewrite ?commit_cpus by done; auto.
Qed.

Lemma commit_phase_ok d : d <> c -> phase_ok s' d (ph d).
Proof.
  intros Hdc. pose proof (inv_phase _ _ _ Hinv d) as Hp.
  assert (Hsw : forall w, switching_ok s d w -> switching_ok s' d w).
  { intros w (H1 & H2 & H3 & H4). unfold switching_ok. rewrite commit_cpus by done. split; [done|]. split; [done|].
    split; [done|]. apply commit_keeps; auto. }
  destruct (ph d) as [|u| |w ids|w|] eqn:Hd; cbn [phase_ok] in *; rewrite ?commit_cpus by done; auto.
  - destruct Hp as (H1 & H2 & H3). split; [done|]. split; [|done]. apply commit_keeps; [done|].
    intros -> (_ & _ & Hw). congruence.
  - destruct Hp as [H1 H2]. split; [|destruct w; auto; by rewrite commit_cpus].
    eapply Forall_impl; [exact H1|]. exact commit_dead.
  - destruct Hp as (u & th & H1 & H2 & H3). exists u.
    destruct (commit_keeps u (fun th => saved th = true)) as (th2 & H4 & H5); eauto.
Qed.

Lemma inv_commit ids w : Forall (is_dead s) ids ->
  save_to w = cur -> load_from w = next -> loaded_saved w = saved thn ->
  inv None s' (<[c := Burying (Some w) ids]> ph).
Proof.
  intros Hids Hsv Hld Hlo. assert (Hsav : saved thn = true) by (by eapply to_saved; [apply (inv_thread _ _ _ Hinv next)|]).
  split.
  - apply commit_cpu_ok.
  - intros d. destruct (decide (d = c)) as [->|Hdc]; [|rewrite fn_lookup_insert_ne by done; by apply commit_phase_ok].
    rewrite fn_lookup_insert. cbn [phase_ok]. split; [eapply Forall_impl; [exact Hids|]; exact commit_dead|].
    unfold switching_ok. rewrite commit_me, Hsv, Hld, Hlo. split; [done|]. split; [done|]. split; [done|].
    exists (go thn). by rewrite commit_lookup, decide_True.
  - intros u th. apply commit_thread_ok.
  - intros u th. rewrite commit_lookup. case_decide as Hu; [intros [= <-] _ ?; done|]. intros Hth _ Hx Hy.
    assert (Hnot : e <> Some u) by (intros ->; by apply Hu, He).
    destruct (inv_placed _ _ _ Hinv u th Hth Hnot Hx Hy) as [Hq|Hq].
    + left. destruct (decide (owner th = c)) as [Hoc|]; [|by rewrite commit_cpus]. rewrite Hoc in Hq |- *. by rewrite commit_me.
    + right. destruct (decide (owner th = c)) as [Hoc|]; [|rewrite commit_cpus, fn_lookup_insert_ne by done; done].
      rewrite Hoc in Hq |- *. rewrite commit_me, fn_lookup_insert. simpl. destruct Hq; [by left|congruence].
Qed.

End Commit.

Lemma inv_set_phase e s ph c p :
  inv e s ph -> phase_ok s c p -> (forall t, ph c = Spawning t -> e = Some t) -> inv e s (<[c := p]> ph).
Proof.
  intros [Hc Hp Ht Hpl] Hok Hsp. split; auto.
  - intros d. destruct (decide (d = c)) as [->|]; [by rewrite fn_lookup_insert|by rewrite fn_lookup_insert_ne].
  - intros t th Hth. by destruct (Ht t th Hth).
  - intros t th Hth He Hr Ho. destruct (Hpl t th Hth He Hr Ho) as [|[|Hs]]; auto.
    destruct (decide (owner th = c)) as [Hoc|]; [|rewrite fn_lookup_insert_ne by done; auto].
    rewrite Hoc in Hs. by rewrite (Hsp _ Hs) in He.
Qed.

Lemma inv_slice e s ph c n : inv e s ph -> inv e (set_cpu c (set_slice n (cpus s c)) s) ph.
Proof.
  intros Hinv. pose proof (inv_cpu _ _ _ Hinv c) as [C1 C2 C3 C4 C5 C6 C7 C8 C9].
  split.
  2: { intros d. apply phase_ok_requeue; [by split|..|apply (inv_phase _ _ _ Hinv)].
       intros u Hu. pose proof (inv_phase _ _ _ Hinv c) as Hp. rewrite Hu in Hp. cbn [phase_ok] in Hp. tauto. }
  all: assert (Hd : forall d, exists k, cpus (set_cpu c (set_slice n (cpus s c)) s) d = set_slice k (cpus s d))
    by (intros d; rewrite lookup_set_cpu; case_decide; subst; [eauto|]; exists (slice (cpus s d)); by destruct (cpus s d)).
  - intros d. destruct (Hd d) as [k Hk]. destruct (inv_cpu _ _ _ Hinv d). split; unfold current_id in *; rewrite Hk; auto.
  - intros t th Hth. destruct (inv_thread _ _ _ Hinv t th Hth). destruct (Hd (owner th)) as [k Hk].
    split; rewrite ?Hk; auto.
  - intros t th Hth He. destruct (Hd (owner th)) as [k Hk]. unfold placed. rewrite Hk.
    exact (inv_placed _ _ _ Hinv t th Hth He).
Qed.

(** The outgoing thread, about to be held back, stops running. *)
Lemma inv_retire e s ph c cur th :
  inv e s ph -> current (cpus s c) = Some cur -> threads s !! cur = Some th ->
  inv e (on_thread cur retire s) ph /\ threads (on_thread cur retire s) !! cur = Some (retire th) /\
  state (retire th) <> Running.
Proof.
  intros Hinv Hcur Hth. destruct (co_current _ _ (inv_cpu _ _ _ Hinv c) cur Hcur) as (thx & ? & Hon & Hown).
  simplify_eq. destruct (inv_thread _ _ _ Hinv cur th Hth) as [T1 T2 T3 T4].
  assert (Hret : retire th = th \/ state th = Running /\ retire th = set_state Ready th).
  { unfold retire. case_bool_decide; auto. }
  split; [|split].
  - destruct Hret as [Hret|[Hrun Hret]]; (apply inv_on_thread with th; rewrite ?Hret; simpl; auto; try congruence).
    + intros d Hi. destruct (co_idle _ _ (inv_cpu _ _ _ Hinv _) _ Hi) as (th' & ? & _ & ?). by simplify_eq.
    + intros Hl. destruct (T4 Hl). congruence.
  - by rewrite lookup_on_thread, decide_True, Hth.
  - destruct Hret as [Hret|[Hrun Hret]]; rewrite Hret; [|done]. unfold retire in Hret. case_bool_decide; [|done].
    intros Hx. rewrite <-Hret in Hx. done.
Qed.

(** What [prepare_switch] picks can be switched to. *)
Lemma pick_next s ph c cur idl r me1 next :
  inv None s ph -> ph c = Scheduling -> current (cpus s c) = Some cur -> idle (cpus s c) = Some idl ->
  inv r (set_cpu c me1 s) ph -> same_rest (cpus s c) me1 ->
  match r with
  | None => next = idl
  | Some t => next = t /\ t ∉ qs me1 /\
      exists th, threads s !! t = Some th /\ state th = Ready /\ on_cpu th = false /\ owner th = c
  end -> next <> cur ->
  next ∉ qs me1 /\ (forall u, r = Some u -> u = next) /\
  exists th, threads s !! next = Some th /\ state th = Ready /\ on_cpu th = false /\ owner th = c.
Proof.
  intros Hinv Hph Hcur Hidle Hinv1 Hrest Hr Hne. destruct r as [t|]; [naive_solver|]. subst next.
  destruct (co_idle _ _ (inv_cpu _ _ _ Hinv c) idl Hidle) as (th & Hth & Hown & Hst).
  destruct (inv_thread _ _ _ Hinv idl th Hth) as [T1 T2 T3 T4].
  pose proof (inv_phase _ _ _ Hinv c) as Hp. rewrite Hph in Hp. cbn [phase_ok] in Hp.
  rewrite Hown, Hcur, Hp in *. split; [|split; [done|]].
  - intros Hin. destruct (co_queued _ _ (inv_cpu _ _ _ Hinv1 c) idl) as [Hno _].
    { by rewrite lookup_set_cpu, decide_True. }
    rewrite lookup_set_cpu, decide_True, (sr_idle _ _ Hrest) in Hno by done. done.
  - exists th. split; [done|]. split; [destruct Hst as [|Hx]; [done|]; specialize (T2 Hx); congruence|].
    split; [|done]. destruct (on_cpu th); [|done]. destruct (T1 eq_refl); [congruence|done].
Qed.

Lemma inv_switch_to s ph c cur idl r me1 next :
  inv None s ph -> ph c = Scheduling -> current (cpus s c) = Some cur -> idle (cpus s c) = Some idl ->
  inv r (set_cpu c me1 s) ph -> same_rest (cpus s c) me1 ->
  match r with
  | None => next = idl
  | Some t => next = t /\ t ∉ qs me1 /\
      exists th, threads s !! t = Some th /\ state th = Ready /\ on_cpu th = false /\ owner th = c
  end -> next <> cur ->
  let ths := alter retire cur (threads s) in
  let ok := match ths !! next with Some th => saved th | None => false end in
  let me := renew_slice (set_current (Some next) (set_pending (Some cur) me1)) in
  inv None (set_cpu c (set_dead [] [] me)
              (set_threads (alter (fun th => set_on_cpu true (set_state Running th)) next ths) s))
    (<[c := Burying (Some {| save_to := cur; load_from := next; loaded_saved := ok |}) (reaped me)]> ph).
Proof.
  intros Hinv Hph Hcur Hidle Hinv1 Hrest Hr Hne ths ok me.
  destruct (pick_next s ph c cur idl r me1 next) as (Hnq & He & thn & Hthn & Hrn & Hon & Hown); try done.
  pose proof (co_dead _ _ (inv_cpu _ _ _ Hinv c)) as Hdead. rewrite Forall_app in Hdead. destruct Hdead as [_ Hdead].
  destruct (co_current _ _ (inv_cpu _ _ _ Hinv c) cur Hcur) as (thc & Hthc & _).
  set (s1 := set_cpu c me1 s) in *. assert (Hs1 : cpus s1 c = me1) by (unfold s1; by rewrite lookup_set_cpu, decide_True).
  assert (Hcur1 : current (cpus s1 c) = Some cur) by (by rewrite Hs1, (sr_current _ _ Hrest)).
  destruct (inv_retire r s1 ph c cur thc Hinv1 Hcur1 Hthc) as (Hinv2 & Hthc2 & Hstc).
  set (s2 := on_thread cur retire s1) in *.
  assert (Hthn2 : threads s2 !! next = Some thn) by (unfold s2; by rewrite lookup_on_thread, decide_False).
  assert (Hok : ok = saved thn) by (unfold ok; change ths with (threads s2); by rewrite Hthn2).
  assert (Hids : Forall (is_dead s2) (reaped me)).
  { unfold me. simpl. rewrite (sr_reaped _ _ Hrest). eapply Forall_impl; [exact Hdead|]. intros u Hu.
    unfold s2. apply on_thread_keeps; [exact Hu|]. intros th' _ [Hf Ho'] _. unfold retire. rewrite bool_decide_false; [done|congruence]. }
  pose proof (inv_commit r s2 ph c cur next (retire thc) thn Hinv2 Hph Hcur1 Hne Hthc2 Hstc Hthn2 Hrn Hon Hown) as Hcommit.
  replace (cpus s2 c) with me1 in Hcommit by (symmetry; exact Hs1).
  specialize (Hcommit Hnq He (reaped me) {| save_to := cur; load_from := next; loaded_saved := ok |} Hids eq_refl eq_refl Hok).
  apply (inv_slice _ _ _ c TIME_SLICE_TICKS) in Hcommit. rewrite lookup_set_cpu, decide_True in Hcommit by done.
  apply (inv_set_dead _ _ _ c [] []) in Hcommit; [|constructor]. rewrite lookup_set_cpu, decide_True in Hcommit by done.
  eapply inv_equiv; [|done|exact Hcommit]. split; [done|]. intros d. rewrite !lookup_set_cpu.
  case_decide as Hd; [done|]. unfold on_thread, s2, s1. simpl. rewrite !fn_lookup_insert_ne by done. done.
Qed.

Lemma inv_decide s ph c w stacks ids s' :
  inv None s ph -> ph c = Scheduling -> decide_switch c s = (w, stacks, ids, s') ->
  inv None s' (<[c := Burying w ids]> ph).
Proof.
  intros Hinv Hph. pose proof (inv_phase _ _ _ Hinv c) as Hpend. rewrite Hph in Hpend. cbn [phase_ok] in Hpend.
  pose proof (co_dead _ _ (inv_cpu _ _ _ Hinv c)) as Hdead. rewrite Forall_app in Hdead. destruct Hdead as [_ Hdead].
  unfold decide_switch, flush_pending. rewrite Hpend. unfold prepare_switch.
  (* Nothing decided: only the list of the dead and the slice change. *)
  assert (Hstay : forall me, inv None (set_cpu c me s) ph -> pending me = None ->
    inv None (set_cpu c (set_dead [] [] me) (set_threads (threads s) s)) (<[c := Burying None (reaped (cpus s c))]> ph)).
  { intros me Hme Hpm. apply inv_set_phase; [|split; [exact Hdead|]|congruence].
    - eapply inv_equiv; [apply (set_cpu_twice c me)|done|].
      pose proof (inv_set_dead _ _ _ c [] [] Hme ltac:(constructor)) as Hx.
      by rewrite lookup_set_cpu, decide_True in Hx.
    - by rewrite lookup_set_cpu, decide_True. }
  assert (Hself : inv None (set_cpu c (cpus s c) s) ph).
  { eapply inv_equiv; [|done|exact Hinv]. split; [done|]. intros d. rewrite lookup_set_cpu. by case_decide; subst. }
  destruct (current (cpus s c)) as [cur|] eqn:Hcur; [|intros [= <- <- <- <-]; by apply Hstay].
  destruct (idle (cpus s c)) as [idl|] eqn:Hidle; [|intros [= <- <- <- <-]; by apply Hstay].
  destruct (pop_runnable_spec (threads s) (cpus s c) (inv_runnable _ _ _ c Hinv)) as (Hrest & Hp & _).
  destruct (pop_runnable (threads s) (cpus s c)) as [r me1]; simpl in Hrest, Hp.
  destruct (inv_pop s ph c _ r me1 Hinv Hrest Hp) as [Hinv1 Hr].
  assert (Hkeep : r = None -> inv None (set_cpu c (renew_slice me1) s) ph /\ pending (renew_slice me1) = None).
  { intros ->. split; [|by simpl; rewrite (sr_pending _ _ Hrest)]. eapply inv_equiv; [apply (set_cpu_twice c me1)|done|].
    pose proof (inv_slice _ _ _ c TIME_SLICE_TICKS Hinv1) as Hx. by rewrite lookup_set_cpu, decide_True in Hx. }
  assert (Hre : reaped me1 = reaped (cpus s c)) by apply (sr_reaped _ _ Hrest).
  destruct r as [t|].
  - destruct Hr as (Hnq & Hni & Hns & Hth). simpl. rewrite bool_decide_false.
    + intros [= <- <- <- <-]. apply (inv_switch_to s ph c cur idl (Some t) me1 t); try done.
      destruct Hth as (th & Hth & _ & Ho & _). intros ->.
      destruct (co_current _ _ (inv_cpu _ _ _ Hinv c) cur Hcur) as (th' & ? & ? & _). simplify_eq. congruence.
    + destruct Hth as (th & Hth & _ & Ho & _). intros ->.
      destruct (co_current _ _ (inv_cpu _ _ _ Hinv c) cur Hcur) as (th' & ? & ? & _). simplify_eq. congruence.
  - destruct (Hkeep eq_refl) as [Hk1 Hk2]. simpl. destruct (negb _ && _).
    + intros [= <- <- <- <-]. simpl. rewrite Hre. by apply Hstay.
    + case_bool_decide as Hic.
      * intros [= <- <- <- <-]. simpl. rewrite Hre. by apply Hstay.
      * intros [= <- <- <- <-]. by apply (inv_switch_to s ph c cur idl None me1 idl).
Qed.

(** ** The switch itself *)

Lemma inv_unsaved s ph c t th :
  inv None s ph -> ph c = Arriving -> current (cpus s c) = Some t -> threads s !! t = Some th ->
  inv None (on_thread t (set_saved false) s) ph.
Proof.
  intros [Hc Hp Ht Hpl] Hph Hcur Hth.
  destruct (co_current _ _ (Hc c) t Hcur) as (th0 & ? & Hon & Hown). simplify_eq.
  split.
  - intros d. destruct (Hc d) as [C1 C2 C3 C4 C5 C6 C7 C8 C9]. split; rewrite ?cpus_on_thread; auto.
    + intros u Hu. destruct (C1 u Hu) as [? Hx]. split; [done|]. by apply on_thread_keeps.
    + intros u Hu. apply on_thread_keeps; [by apply C4|]. done.
    + intros u Hu. destruct (C5 u Hu) as [? Hx]. split; [done|]. by apply on_thread_keeps.
    + intros u Hu. apply on_thread_keeps; [by apply C6|]. done.
    + eapply Forall_impl; [exact C9|]. simpl. intros u Hu. by apply on_thread_keeps.
  - intros d. specialize (Hp d).
    assert (Hsw : forall w, d <> owner th -> switching_ok s d w -> switching_ok (on_thread t (set_saved false) s) d w).
    { intros w Hd (H1 & H2 & H3 & H4). split; [done|]. split; [done|]. split; [done|].
      apply on_thread_keeps; [done|]. intros th' ? _ Hl. rewrite Hl in H2.
      destruct (co_current _ _ (Hc d) t H2) as (th2 & ? & _ & ?). simplify_eq. }
    destruct (ph d) as [|u| |w ids|w|] eqn:Hd; cbn [phase_ok] in *; auto.
    + destruct Hp as (H1 & H2 & H3). split; [done|]. split; [|done]. by apply on_thread_keeps.
    + destruct Hp as [H1 H2]. split; [|destruct w; auto; apply Hsw; [congruence|done]].
      eapply Forall_impl; [exact H1|]. intros u Hu. by apply on_thread_keeps.
    + apply Hsw; [congruence|done].
    + destruct Hp as (u & thu & H1 & H2 & H3). exists u.
      destruct (on_thread_keeps s t (set_saved false) u (fun th => saved th = true)) as (th2 & H4 & H5); [eauto| |eauto].
      intros th' ? _ ->. destruct (co_pending _ _ (Hc d) t H1) as (Hnc & th2 & ? & _ & ? & _). by simplify_eq.
  - intros u th'. rewrite lookup_on_thread. case_decide as Hu; [subst u; rewrite Hth; simpl; intros [= <-]|].
    + destruct (Ht t th Hth) as [T1 T2 T3 T4]. split; simpl; auto; congruence.
    + intros H'. destruct (Ht u th' H') as [T1 T2 T3 T4]. by split.
  - intros u th'. rewrite lookup_on_thread. case_decide as Hu; [subst u; rewrite Hth; simpl; intros [= <-]|].
    + intros _ _ Ho. simpl in Ho. congruence.
    + intros H' He. exact (Hpl u th' H' He).
Qed.

Lemma inv_context_switch s ph c w :
  inv None s ph -> ph c = Switching w -> inv None (context_switch w s) (<[c := Arriving]> ph).
Proof.
  intros Hinv Hph. pose proof (inv_phase _ _ _ Hinv c) as Hp. rewrite Hph in Hp.
  destruct Hp as (Hpend & Hcur & _ & thl & Hthl & _).
  destruct (co_pending _ _ (inv_cpu _ _ _ Hinv c) _ Hpend) as (Hne & th & Hth & Hon & Hown & Hst).
  destruct (inv_thread _ _ _ Hinv _ th Hth) as [T1 T2 T3 T4].
  assert (Hinv1 : inv None (on_thread (save_to w) (set_saved true) s) (<[c := Arriving]> ph)).
  { apply inv_set_phase; [| |congruence].
    - apply inv_on_thread with th; simpl; auto.
      intros d Hi. destruct (co_idle _ _ (inv_cpu _ _ _ Hinv _) _ Hi) as (th' & ? & _ & ?). by simplify_eq.
    - exists (save_to w), (set_saved true th). split; [done|]. split; [|done]. by rewrite lookup_on_thread, decide_True, Hth. }
  apply (inv_unsaved _ _ c _ thl Hinv1); [by rewrite fn_lookup_insert|done|].
  rewrite lookup_on_thread, decide_False by congruence. done.
Qed.

(** ** The other steps *)

Lemma inv_bury ids : forall s ph, inv None s ph -> Forall (is_dead s) ids -> inv None (bury ids s) ph.
Proof.
  induction ids as [|t ids IH]; intros s ph Hinv Hids; [unfold bury; simpl; by eapply inv_equiv; [|done|exact Hinv]|].
  apply Forall_cons in Hids as [(th & Hth & Hf & Ho) Hids].
  change (bury (t :: ids) s) with (bury ids (on_thread t (set_listed false) s)). apply IH.
  - apply inv_on_thread with th; simpl; auto; try congruence.
    intros d Hi. destruct (co_idle _ _ (inv_cpu _ _ _ Hinv _) _ Hi) as (th' & ? & _ & ?). by simplify_eq.
  - eapply Forall_impl; [exact Hids|]. intros u Hu. by apply on_thread_keeps.
Qed.

(** A new thread at the end of the table. *)
Lemma lookup_append s th u :
  threads (set_threads (threads s ++ [th]) s) !! u =
  if decide (u = length (threads s)) then Some th else threads s !! u.
Proof.
  simpl. case_decide as Hu; [subst; by rewrite lookup_app_r, Nat.sub_diag by lia|].
  destruct (decide (u < length (threads s))%nat); [by rewrite lookup_app_l|].
  rewrite lookup_ge_None_2 by (rewrite length_app; simpl; lia). by rewrite lookup_ge_None_2 by lia.
Qed.

Lemma append_keeps s th u (P : Thread -> Prop) :
  (exists th, threads s !! u = Some th /\ P th) ->
  exists th', threads (set_threads (threads s ++ [th]) s) !! u = Some th' /\ P th'.
Proof.
  intros (thu & Hu & HP). exists thu. rewrite lookup_append, decide_False; [done|].
  apply lookup_lt_Some in Hu. lia.
Qed.

Lemma inv_append s ph th :
  inv None s ph -> thread_ok s ph (length (threads s)) th ->
  inv (Some (length (threads s))) (set_threads (threads s ++ [th]) s) ph.
Proof.
  intros [Hc Hp Ht Hpl] Hok. set (s' := set_threads _ s).
  assert (Hkeep : forall u (P : Thread -> Prop), (exists th, threads s !! u = Some th /\ P th) ->
    exists th', threads s' !! u = Some th' /\ P th') by (intros; by apply append_keeps).
  split.
  - intros d. destruct (Hc d) as [C1 C2 C3 C4 C5 C6 C7 C8 C9]. split; change (cpus s') with (cpus s); auto.
    + intros u Hu. destruct (C1 u Hu) as [? Hx]. auto.
    + intros u Hu. destruct (C5 u Hu) as [? Hx]. auto.
    + eapply Forall_impl; [exact C9|]. simpl. intros u Hu. by apply Hkeep.
  - intros d. specialize (Hp d). destruct (ph d) as [|u| |w ids|w|]; cbn [phase_ok] in *; auto.
    + destruct Hp as (H1 & H2 & H3). auto.
    + destruct Hp as [H1 H2]. split; [eapply Forall_impl; [exact H1|]; intros u Hu; by apply Hkeep|].
      destruct w; [|done]. destruct H2 as (? & ? & ? & ?). unfold switching_ok. auto.
    + destruct Hp as (? & ? & ? & ?). unfold switching_ok. auto.
    + destruct Hp as (u & thu & H1 & H2 & H3). exists u.
      destruct (Hkeep u (fun th => saved th = true)) as (th2 & H4 & H5); eauto.
  - intros u th'. unfold s'. rewrite lookup_append. case_decide as Hu; [intros [= <-]; subst u; by destruct Hok|].
    intros H'. by destruct (Ht u th' H').
  - intros u th'. unfold s'. rewrite lookup_append. case_decide as Hu; [subst u; done|]. intros H' _.
    by apply Hpl.
Qed.

(** A change to fields the invariant does not speak of. *)
Lemma inv_trivial e s ph t f :
  (forall th, state (f th) = state th /\ owner (f th) = owner th /\ on_cpu (f th) = on_cpu th /\
              saved (f th) = saved th /\ listed (f th) = listed th) ->
  inv e s ph -> inv e (on_thread t f s) ph.
Proof.
  intros Hf Hinv. destruct (threads s !! t) as [th|] eqn:Hth.
  - destruct (Hf th) as (H1 & H2 & H3 & H4 & H5). destruct (inv_thread _ _ _ Hinv t th Hth) as [T1 T2 T3 T4].
    apply inv_on_thread with th; rewrite ?H1, ?H4, ?H5; auto.
    intros d Hi. destruct (co_idle _ _ (inv_cpu _ _ _ Hinv _) _ Hi) as (th' & ? & _ & ?). by simplify_eq.
  - eapply inv_equiv; [|done|exact Hinv]. split; [|done]. apply list_eq. intros u. rewrite lookup_on_thread.
    case_decide; subst; by rewrite ?Hth.
Qed.

(** A running thread stops. *)
Lemma inv_stop m c t f :
  machine_ok m -> acts m c t ->
  (forall th, (state (f th) = Blocked \/ state (f th) = Finished) /\ owner (f th) = owner th /\
              on_cpu (f th) = on_cpu th /\ saved (f th) = saved th /\ listed (f th) = listed th) ->
  inv None (on_thread t f (sched m)) (phase m).
Proof.
  intros Hinv (Hph & Hcur & Hni & Hst) Hf.
  destruct (co_current _ _ (inv_cpu _ _ _ Hinv c) t Hcur) as (th & Hth & Hon & Hown).
  unfold state_of in Hst. rewrite Hth in Hst. destruct (Hf th) as (H1 & H2 & H3 & H4 & H5).
  destruct (inv_thread _ _ _ Hinv t th Hth) as [T1 T2 T3 T4].
  apply inv_on_thread with th; rewrite ?H4, ?H5; auto; try (intros; destruct H1; congruence).
  - intros d Hi. destruct (co_idle _ _ (inv_cpu _ _ _ Hinv _) _ Hi) as (th' & ? & ? & _). simplify_eq.
  - intros Hl. destruct (T4 Hl). congruence.
Qed.

Lemma inv_adopt s ph c :
  inv None s ph -> ph c = Executing -> inv None (adopt_secondary_cpu c s) ph.
Proof.
  intros Hinv Hph. unfold adopt_secondary_cpu. destruct (idle (cpus s c)) eqn:Hidle; [done|].
  pose proof (inv_phase _ _ _ Hinv c) as Hpend. rewrite Hph in Hpend. cbn [phase_ok] in Hpend.
  destruct Hinv as [Hc Hp Ht Hpl]. pose proof (co_adopted _ _ (Hc c) Hidle) as Hcur.
  set (id := length (threads s)). set (s1 := set_threads _ s). set (s2 := set_cpu c _ s1).
  assert (Hkeep : forall u (P : Thread -> Prop), (exists th, threads s !! u = Some th /\ P th) ->
    exists th', threads s2 !! u = Some th' /\ P th') by (intros; by apply append_keeps).
  assert (Hnew : threads s2 !! id = Some (adopt_running c)).
  { unfold s2. change (threads (set_cpu _ _ s1)) with (threads s1). unfold s1. by rewrite lookup_append, decide_True. }
  assert (Hold : threads s !! id = None) by (apply lookup_ge_None_2; done).
  assert (Hd : forall d, d <> c -> cpus s2 d = cpus s d) by (intros d Hd; unfold s2; by rewrite lookup_set_cpu, decide_False).
  assert (Hme : cpus s2 c = renew_slice (set_idle (Some id) (set_current (Some id) (cpus s c))))
    by (unfold s2; by rewrite lookup_set_cpu, decide_True).
  split.
  - intros d. destruct (Hc d) as [C1 C2 C3 C4 C5 C6 C7 C8 C9].
    assert (Hdead : Forall (is_dead s2) (graveyard (cpus s d) ++ reaped (cpus s d)))
      by (eapply Forall_impl; [exact C9|]; intros u Hu; by apply Hkeep).
    destruct (decide (d = c)) as [->|Hne].
    + split; unfold current_id; rewrite Hme; simpl; auto; try done.
      * intros u Hu. destruct (C1 u Hu) as [_ (th & Hth & Hx)]. split; [congruence|]. apply Hkeep. eauto.
      * intros u [= <-]. exists (adopt_running c). done.
      * intros u. rewrite Hpend. done.
      * intros u [= <-]. exists (adopt_running c). auto.
    + split; unfold current_id in *; rewrite (Hd d Hne); auto.
      * intros u Hu. destruct (C1 u Hu) as [? Hx]. auto.
      * intros u Hu. destruct (C5 u Hu) as [? Hx]. auto.
  - intros d. destruct (decide (d = c)) as [->|Hne]; [rewrite Hph; cbn [phase_ok]; by rewrite Hme|].
    specialize (Hp d). destruct (ph d) as [|u| |w ids|w|]; cbn [phase_ok] in *; unfold switching_ok in *; rewrite ?(Hd d Hne); auto.
    + destruct Hp as (H1 & H2 & H3). auto.
    + destruct Hp as [H1 H2]. split; [eapply Forall_impl; [exact H1|]; intros u Hu; by apply Hkeep|].
      destruct w; rewrite ?(Hd d Hne); [|done]. destruct H2 as (? & ? & ? & ?). auto.
    + destruct Hp as (? & ? & ? & ?). auto.
    + destruct Hp as (u & thu & H1 & H2 & H3). exists u.
      destruct (Hkeep u (fun th => saved th = true)) as (th2 & H4 & H5); eauto.
  - intros u th. destruct (decide (u = id)) as [->|Hu].
    + rewrite Hnew. intros [= <-]. assert (Hcu : current (cpus s2 c) = Some id) by (by rewrite Hme).
      split; [by left|done|done|done].
    + unfold s2. change (threads (set_cpu _ _ s1)) with (threads s1). unfold s1. rewrite lookup_append, decide_False by done.
      fold s1 s2. intros Hth. destruct (Ht u th Hth) as [T1 T2 T3 T4].
      destruct (decide (owner th = c)) as [Hoc|Hoc]; [|split; rewrite ?(Hd _ Hoc); auto].
      rewrite Hoc, Hcur, ?Hpend in *. split; auto; intros Hx; [destruct (T1 Hx)|specialize (T2 Hx)]; done.
  - intros u th. destruct (decide (u = id)) as [->|Hu]; [rewrite Hnew; by intros [= <-]|].
    unfold s2. change (threads (set_cpu _ _ s1)) with (threads s1). unfold s1. rewrite lookup_append, decide_False by done.
    fold s1 s2. intros Hth _ Hr Ho. destruct (Hpl u th Hth ltac:(done) Hr Ho) as [Hq|[Hq|Hq]];
      (destruct (decide (owner th = c)) as [Hoc|Hoc]; [rewrite Hoc in *|rewrite ?(Hd _ Hoc); auto]).
    + left. by rewrite Hme.
    + congruence.
    + auto.
Qed.

Lemma inv_spawn m c t p id s' :
  machine_ok m -> acts m c t -> spawn_register c p (sched m) = (Some id, s') ->
  inv None s' (<[c := Spawning id]> (phase m)).
Proof.
  intros Hinv (Hph & _) Hs. unfold spawn_register in Hs. destruct (initialised _); [|done].
  injection Hs as <- <-. pose proof (inv_phase _ _ _ Hinv c) as Hpend. rewrite Hph in Hpend. cbn [phase_ok] in Hpend.
  unfold machine_ok in Hinv. destruct m as [s ph]. simpl in *. set (id := length (threads s)).
  assert (Hnone : threads s !! id = None) by (apply lookup_ge_None_2; done).
  assert (Hlook : threads (set_threads (threads s ++ [Thread_new p c]) s) !! id = Some (Thread_new p c))
    by (by rewrite lookup_append, decide_True).
  apply (inv_strengthen _ _ id (Thread_new p c)); [|done|intros _ _; right; right; apply fn_lookup_insert].
  apply inv_set_phase; [apply inv_append; [done|by split]| |congruence].
  split; [done|]. split; [by exists (Thread_new p c)|]. split.
  - intros Hin. destruct (co_queued _ _ (inv_cpu _ _ _ Hinv c) id Hin) as (_ & th & ? & _). congruence.
  - intros Hi. destruct (co_idle _ _ (inv_cpu _ _ _ Hinv c) id Hi) as (th & ? & _). congruence.
Qed.

Lemma inv_offer s ph c id :
  inv None s ph -> ph c = Spawning id -> inv None (spawn_enqueue c id s) (<[c := Executing]> ph).
Proof.
  intros Hinv Hph. pose proof (inv_phase _ _ _ Hinv c) as Hp. rewrite Hph in Hp.
  destruct Hp as (Hpend & (th & Hth & Hr & Ho & Hown) & Hnq & Hni).
  apply inv_enqueue with th; auto; [|by rewrite fn_lookup_insert].
  apply inv_set_phase; [by apply inv_weaken|done|congruence].
Qed.

(** Every step of every processor keeps the invariant. *)
Lemma step_inv l m m' : step l m m' -> machine_ok m -> machine_ok m'.
Proof.
  intros Hstep Hinv. unfold machine_ok in *. destruct Hstep; simpl.
  - by apply inv_adopt.
  - by eapply inv_spawn.
  - by apply inv_offer.
  - assert (Hs : inv None (if seen c =? 0 then steal seen again c (sched m) else sched m) (phase m))
      by (destruct (_ =? 0); [by apply inv_steal|done]).
    apply inv_set_phase; [done| |congruence]. pose proof (inv_phase _ _ _ Hs c) as Hp. by rewrite H in Hp.
  - by eapply inv_decide.
  - pose proof (inv_phase _ _ _ Hinv c) as Hp. rewrite H in Hp. destruct Hp as [Hids Hw].
    assert (Hb := inv_bury ids _ _ Hinv Hids). apply inv_set_phase; [done| |congruence].
    pose proof (inv_phase _ _ _ Hb c) as Hp. rewrite H in Hp. destruct Hp as [_ Hp]. by destruct w.
  - by apply inv_context_switch.
  - by apply inv_arrive.
  - destruct H as (Hph & Hcur & Hni & Hst). unfold park. rewrite Hcur.
    destruct (threads (sched m) !! t) as [th|] eqn:Hth; [|done]. destruct (wake_pending th); simpl.
    + by apply inv_trivial.
    + apply (inv_stop m c t); auto. by repeat split.
  - destruct H as (Hph & Hcur & Hni & Hst). unfold sleep_park. rewrite Hcur.
    apply (inv_equiv None (on_thread t (fun th => set_state Blocked (set_wake_pending false th)) (sched m)) _ (phase m)); [done|done|].
    apply (inv_stop m c t); auto. by repeat split.
  - pose proof H as (Hph & Hcur & Hni & Hst). unfold join_park. rewrite Hcur.
    destruct (lookup_thread id (sched m)); [|done]. case_bool_decide as Hid; [done|]. case_bool_decide; [done|]. simpl.
    set (m1 := {| sched := on_thread id (fun th => set_joiners (joiners th ++ [t]) th) (sched m); phase := phase m |}).
    apply (inv_stop m1 c t); auto.
    + by apply inv_trivial.
    + split; [done|]. split; [done|]. split; [done|]. unfold state_of in *. simpl.
      rewrite list_lookup_alter_ne by congruence. done.
  - pose proof H as (Hph & Hcur & Hni & Hst). unfold finish. rewrite Hcur.
    destruct (threads (sched m) !! t); [|done]. simpl. apply (inv_stop m c t); auto.
  - by apply inv_unblock.
  - by eapply inv_equiv; [|done|exact Hinv].
  - unfold set_priority. destruct (lookup_thread id (sched m)); [|done]. by apply inv_trivial.
  - by apply inv_slice.
Qed.

Lemma booted_ok : machine_ok booted.
Proof.
  split.
  - intros c. unfold booted, init. simpl. split; unfold current_id; simpl;
      (destruct (decide (c = 0%nat)) as [->|Hc]; [rewrite fn_lookup_insert|rewrite fn_lookup_insert_ne by done]); simpl;
      try done; try (by constructor).
    + intros t Ht. by apply elem_of_nil in Ht.
    + intros t Ht. by apply elem_of_nil in Ht.
    + intros t [= <-]. by exists (adopt_running 0).
    + intros t [= <-]. exists (Thread_new Low 0). auto.
  - intros c. cbn [phase_ok booted phase]. unfold booted, init. simpl.
    destruct (decide (c = 0%nat)) as [->|Hc]; [by rewrite fn_lookup_insert|by rewrite fn_lookup_insert_ne].
  - intros [|[|t]] th; simpl; intros [= <-]; split; try done; intros _; first [left; reflexivity|reflexivity].
  - intros [|[|t]] th; simpl; intros [= <-] _ Hr Ho; try done. right. left. reflexivity.
Qed.

Lemma reachable_ok m : reachable m -> machine_ok m.
Proof.
  intros Hr. apply rtc_ind_r with (P := machine_ok) in Hr; [done|apply booted_ok|].
  intros m1 m2 _ [l Hs] Hok. by eapply step_inv.
Qed.
