(* ===== verification/SchedTheorems.v ===== *)
(** * What the scheduler guarantees

    Safety of the reachable states, no runnable thread lost, no wake lost, no
    queue starved, every sleeper woken by the first tick at its deadline. *)

From stdpp Require Import base list numbers list_numbers functions relations.
From Stdlib Require Import Lia.
From S2P Require Import Prelude Sched SchedInv.

(** ** Safety *)

(** Processor [c] is on thread [t]'s stack, or still leaving it. *)
Definition stands_on (s : Scheduler) (c t : nat) : Prop :=
  current (cpus s c) = Some t \/ pending (cpus s c) = Some t.

Lemma stands_on_ok s ph c t : inv None s ph -> stands_on s c t ->
  exists th, threads s !! t = Some th /\ on_cpu th = true /\ owner th = c.
Proof.
  intros Hinv [Hc|Hp]; [by apply (co_current _ _ (inv_cpu _ _ _ Hinv c))|].
  destruct (co_pending _ _ (inv_cpu _ _ _ Hinv c) t Hp) as (_ & th & ? & ? & ? & _). eauto.
Qed.

(** What a processor is about to free. *)
Definition to_free (m : machine) (c t : nat) : Prop :=
  t ∈ graveyard (cpus (sched m) c) \/ t ∈ reaped (cpus (sched m) c) \/
  exists w ids, phase m c = Burying w ids /\ t ∈ ids.

Lemma to_free_dead m c t : machine_ok m -> to_free m c t -> is_dead (sched m) t.
Proof.
  intros Hinv Hf. pose proof (co_dead _ _ (inv_cpu _ _ _ Hinv c)) as Hd. rewrite Forall_app in Hd.
  destruct Hd as [Hd1 Hd2]. destruct Hf as [Hf|[Hf|(w & ids & Hph & Hf)]].
  - by eapply (proj1 (Forall_forall _ _) Hd1).
  - by eapply (proj1 (Forall_forall _ _) Hd2).
  - pose proof (inv_phase _ _ _ Hinv c) as Hp. rewrite Hph in Hp. destruct Hp as [Hp _].
    by eapply (proj1 (Forall_forall _ _) Hp).
Qed.

(** C4: however the processors interleave, no two of them are ever on one thread's
    stack; a queued thread is ready, is in one queue of one processor once, and no
    processor is on its stack; a thread is only ever resumed from registers that
    were saved; and a thread being freed is finished and no processor is on its
    stack. *)
Theorem sched_safe m : reachable m ->
  (forall c d t, stands_on (sched m) c t -> stands_on (sched m) d t -> c = d) /\
  (forall c t, t ∈ qs (cpus (sched m) c) ->
     state_of (threads (sched m)) t = Ready /\ NoDup (qs (cpus (sched m) c)) /\
     (forall d, t ∈ qs (cpus (sched m) d) -> d = c) /\ forall d, ~ stands_on (sched m) d t) /\
  (forall c w, phase m c = Switching w -> loaded_saved w = true) /\
  (forall c t, to_free m c t -> state_of (threads (sched m)) t = Finished /\ forall d, ~ stands_on (sched m) d t).
Proof.
  intros Hr. pose proof (reachable_ok m Hr) as Hinv. split; [|split; [|split]].
  - intros c d t Hc Hd. destruct (stands_on_ok _ _ _ _ Hinv Hc) as (th & ? & _ & <-).
    destruct (stands_on_ok _ _ _ _ Hinv Hd) as (th' & ? & _ & <-). by simplify_eq.
  - intros c t Ht. destruct (co_queued _ _ (inv_cpu _ _ _ Hinv c) t Ht) as (_ & th & Hth & Hs & Ho & Hown).
    split; [unfold state_of; by rewrite Hth|]. split; [apply (inv_cpu _ _ _ Hinv c)|]. split.
    + intros d Hd. destruct (co_queued _ _ (inv_cpu _ _ _ Hinv d) t Hd) as (_ & th' & ? & _ & _ & <-). by simplify_eq.
    + intros d Hd. destruct (stands_on_ok _ _ _ _ Hinv Hd) as (th' & ? & ? & _). simplify_eq. congruence.
  - intros c w Hph. pose proof (inv_phase _ _ _ Hinv c) as Hp. rewrite Hph in Hp. by destruct Hp as (_ & _ & ? & _).
  - intros c t Hf. destruct (to_free_dead m c t Hinv Hf) as (th & Hth & Hs & Ho).
    split; [unfold state_of; by rewrite Hth|]. intros d Hd.
    destruct (stands_on_ok _ _ _ _ Hinv Hd) as (th' & ? & ? & _). simplify_eq. congruence.
Qed.

(** C5: a thread that could run is never lost: it is in its owner's queue, or a
    processor is on it (and queues it again when it has left), or it is on its way
    into its first queue, or it is the idle thread its owner falls back to.  The
    hint other processors steal by is the exact length of the queues. *)
Theorem no_thread_lost m : reachable m ->
  (forall t th, threads (sched m) !! t = Some th -> state th = Ready ->
     t ∈ qs (cpus (sched m) (owner th)) \/ stands_on (sched m) (owner th) t \/
     phase m (owner th) = Spawning t \/ idle (cpus (sched m) (owner th)) = Some t) /\
  (forall c, queued (cpus (sched m) c) = Z.of_nat (length (qs (cpus (sched m) c)))).
Proof.
  intros Hr. pose proof (reachable_ok m Hr) as Hinv. split; [|intros c; apply (inv_cpu _ _ _ Hinv c)].
  intros t th Hth Hs. destruct (on_cpu th) eqn:Ho.
  - right. left. by apply (inv_thread _ _ _ Hinv t th Hth).
  - destruct (inv_placed _ _ _ Hinv t th Hth ltac:(done) Hs Ho) as [|[|]]; auto.
Qed.

(** ** Wakes *)

Definition wake_flag (ths : list Thread) (t : nat) : Prop :=
  exists th, ths !! t = Some th /\ wake_pending th = true.

Lemma alter_wake ths u f t : (forall th, wake_pending (f th) = wake_pending th \/ wake_pending (f th) = true) ->
  wake_flag ths t -> wake_flag (alter f u ths) t.
Proof.
  intros Hf (th & Hth & Hw). destruct (decide (u = t)) as [->|Hne].
  - exists (f th). rewrite list_lookup_alter_eq, Hth. split; [done|]. destruct (Hf th); congruence.
  - exists th. by rewrite list_lookup_alter_ne.
Qed.

Lemma retire_wake th : wake_pending (retire th) = wake_pending th \/ wake_pending (retire th) = true.
Proof. left. unfold retire. by case_bool_decide. Qed.

Lemma append_wake ths th t : wake_flag ths t -> wake_flag (ths ++ [th]) t.
Proof. intros (th' & Hth & Hw). exists th'. by rewrite lookup_app_l by (by eapply lookup_lt_Some). Qed.

(** Through a sequence of changes none of which takes a wake back. *)
Ltac keep_wake :=
  repeat first
    [ done | apply append_wake
    | apply alter_wake; [first [intros ?; left; reflexivity | intros ?; right; reflexivity | exact retire_wake]|] ].

Lemma flush_wake ths me t : wake_flag ths t -> wake_flag (fst (flush_pending ths me)) t.
Proof.
  intros Hw. unfold flush_pending. destruct (pending me) as [u|]; [|done].
  destruct (alter (set_on_cpu false) u ths !! u) as [th|]; [|simpl; keep_wake].
  destruct (state th); [case_bool_decide|..|destruct (stack th)]; simpl; keep_wake.
Qed.

Lemma prepare_wake ths me t : wake_flag ths t -> wake_flag (snd (fst (prepare_switch ths me))) t.
Proof.
  intros Hw. unfold prepare_switch. destruct (current me), (idle me); simpl; auto.
  destruct (pop_runnable ths me) as [[u|] me1]; simpl.
  - case_bool_decide; simpl; keep_wake.
  - destruct (negb _ && _); simpl; [done|]. case_bool_decide; simpl; keep_wake.
Qed.

Lemma bury_wake ids : forall ths t, wake_flag ths t ->
  wake_flag (fold_left (fun ths t => alter (set_listed false) t ths) ids ths) t.
Proof. induction ids as [|u ids IH]; intros ths t Hw; simpl; [done|]. apply IH. keep_wake. Qed.

(** A change to another thread. *)
Lemma wake_other ths u f t : t <> u -> wake_flag ths t -> wake_flag (alter f u ths) t.
Proof. intros Hne (th & Hth & Hw). exists th. by rewrite list_lookup_alter_ne. Qed.

(** Nobody but the thread itself takes a wake back. *)
Lemma step_wake l m m' t : step l m m' -> l <> LParks t -> wake_flag (threads (sched m)) t ->
  wake_flag (threads (sched m')) t.
Proof.
  intros Hstep Hl Hw. destruct Hstep; simpl; try done; try (assert (Hne : t <> t0) by congruence).
  - unfold adopt_secondary_cpu. destruct (idle _); simpl; keep_wake.
  - unfold spawn_register in H0. destruct (initialised _); [|done]. injection H0 as <- <-. simpl. keep_wake.
  - destruct (_ =? 0); [|done]. unfold steal. destruct (busiest _ _); [|done]. destruct (_ >? 0); [|done].
    destruct (_ >? 0); [done|]. destruct (pop_from _ _ _) as [[u|] theirs]; simpl; keep_wake.
  - unfold decide_switch in H0. pose proof (flush_wake _ (cpus (sched m) c) t Hw) as Hf.
    destruct (flush_pending _ _) as [ths me]. simpl in Hf. pose proof (prepare_wake _ me t Hf) as Hp.
    destruct (prepare_switch ths me) as [[sw ths2] me2]. injection H0 as <- <- <- <-. exact Hp.
  - by apply bury_wake.
  - keep_wake.
  - unfold arrive. pose proof (flush_wake _ (cpus (sched m) c) t Hw) as Hf.
    destruct (flush_pending _ _) as [ths me]. exact Hf.
  - destruct H as (_ & Hcur & _). unfold park. rewrite Hcur.
    destruct (threads (sched m) !! t0) as [th|]; [|done]. destruct (wake_pending th); simpl; by apply wake_other.
  - destruct H as (_ & Hcur & _). unfold sleep_park. rewrite Hcur. simpl. by apply wake_other.
  - destruct H as (_ & Hcur & _). unfold join_park. rewrite Hcur. destruct (lookup_thread _ _); [|done].
    do 2 (case_bool_decide; [done|]). simpl. apply wake_other; [done|]. keep_wake.
  - destruct H as (_ & Hcur & _). unfold finish. rewrite Hcur.
    destruct (threads (sched m) !! t0) as [th|]; [|done]. simpl. by apply wake_other.
  - unfold unblock. destruct (lookup_thread _ _) as [th|]; [|done]. case_bool_decide; [destruct (on_cpu th)|case_bool_decide];
      simpl; keep_wake.
  - unfold set_priority. destruct (lookup_thread _ _); [|done]. simpl. keep_wake.
Qed.

Definition step_not_parking (t : nat) (m m' : machine) : Prop := exists l, step l m m' /\ l <> LParks t.

Lemma steps_wake t m m' : rtc (step_not_parking t) m m' -> wake_flag (threads (sched m)) t ->
  wake_flag (threads (sched m')) t.
Proof. induction 1 as [|m1 m2 m3 (l & Hs & Hl) _ IH]; [done|]. intros Hw. by eapply IH, step_wake. Qed.

(** C6: a wake is never lost, whenever it arrives.  A thread that is parked becomes
    ready at once.  One that is not has the wake recorded, and whatever the
    processors do before it next tries to park, it declines to. *)
Theorem wake_not_lost m m1 c t th :
  lookup_thread t (sched m) = Some th -> state th <> Finished ->
  m1 = {| sched := unblock c t (sched m); phase := phase m |} ->
  (state th = Blocked -> state_of (threads (sched m1)) t = Ready) /\
  (state th <> Blocked -> forall m2 d, rtc (step_not_parking t) m1 m2 -> acts m2 d t ->
     fst (park d (sched m2)) = false).
Proof.
  intros Hl Hf ->. unfold unblock. rewrite Hl. unfold lookup_thread in Hl.
  destruct (threads (sched m) !! t) as [th0|] eqn:Hth; [|done].
  destruct (listed th0); [|done]. simplify_eq. simpl. split; intros Hs.
  - rewrite bool_decide_true by done. unfold state_of.
    destruct (on_cpu th); simpl; rewrite ?list_lookup_alter_eq, Hth; done.
  - rewrite !bool_decide_false by done. intros m2 d Hsteps (_ & Hcur & _).
    apply steps_wake in Hsteps; [|exists (set_wake_pending true th); simpl; by rewrite list_lookup_alter_eq, Hth].
    destruct Hsteps as (th2 & Hth2 & Hw). unfold park. by rewrite Hcur, Hth2, Hw.
Qed.

(** ** Fairness *)

(** What can happen to one processor's queues: the processor takes its next thread,
    a thread is queued, an idle processor steals one, or something else changes. *)
Inductive queue_event : Cpu -> list nat -> nat -> Cpu -> Prop :=
| qe_pop ths me : all_runnable ths me ->
    queue_event me (option_list (fst (pop_runnable ths me))) 1 (snd (pop_runnable ths me))
| qe_enqueue ths t me : queue_event me [] 0 (enqueue ths t me)
| qe_steal ths me : all_runnable ths me ->
    queue_event me (option_list (fst (pop_from ths by_priority me))) 0 (snd (pop_from ths by_priority me))
| qe_other me me' : (forall p, ready me' p = ready me p) -> same_guard me me' -> queue_event me [] 0 me'.

(** [n] turns were served in all, and [taken] left the queues. *)
Inductive queue_run : Cpu -> nat -> list nat -> Cpu -> Prop :=
| qr_nil me : queue_run me 0 [] me
| qr_cons me n taken me1 n1 taken1 me2 :
    queue_event me taken n me1 -> queue_run me1 n1 taken1 me2 -> queue_run me (n + n1) (taken ++ taken1) me2.

Definition guard_ok (me : Cpu) : Prop :=
  0 <= priority_streak me <= STARVATION_GUARD /\ (boost_level me = 0 \/ boost_level me = 1).

(** Turns until the level is certain to be served. *)
Definition turns (p : Priority) (me : Cpu) : Z :=
  match p with
  | High => if priority_streak me =? STARVATION_GUARD then 2 else 1
  | Normal => STARVATION_GUARD - priority_streak me + (if boost_level me =? 1 then 1 else 10)
  | Low => STARVATION_GUARD - priority_streak me + (if boost_level me =? 0 then 1 else 10)
  end.

Lemma turns_range p me : guard_ok me -> 1 <= turns p me <= 18.
Proof.
  unfold guard_ok, turns, STARVATION_GUARD. intros [Hs Hb]. destruct p; [destruct (_ =? 0)|destruct (_ =? 1)|destruct (_ =? 8)]; lia.
Qed.

(** A served turn takes from the level, or brings its turn nearer. *)
Lemma pop_turn ths me p : all_runnable ths me -> guard_ok me -> ready me p <> [] ->
  let me' := snd (pop_runnable ths me) in
  guard_ok me' /\
  ((exists t, fst (pop_runnable ths me) = Some t /\ ready me p = t :: ready me' p) \/
   (ready me' p = ready me p /\ turns p me' <= turns p me - 1)).
Proof.
  intros Hall [Hs Hb] Hp. destruct (pop_runnable_spec ths me Hall) as (_ & Hpop & Hg).
  destruct (pop_runnable ths me) as [[t|] me']; simpl in *.
  2: { destruct Hpop as (Hnone & _). exfalso. apply Hp. eapply (proj1 (Forall_forall _ _) Hnone).
       unfold order_of, by_priority. destruct (_ >=? _); [destruct (_ =? 0)|]; destruct p; set_solver. }
  destruct Hpop as (pre & q & post & Hord & Hpre & Hq & Hoth & _).
  unfold saturating_add, U32_MAX, STARVATION_GUARD in *.
  assert (Hguard : guard_ok me').
  { unfold guard_ok, STARVATION_GUARD. destruct (priority_streak me >=? 8) eqn:Hst; destruct Hg as [-> ->].
    - split; [lia|]. destruct Hb as [->| ->]; cbv; auto.
    - rewrite Z.geb_leb in Hst. apply Z.leb_gt in Hst. split; [lia|done]. }
  split; [done|]. destruct (decide (q = p)) as [->|Hne]; [left; eauto|]. right.
  split; [by apply Hoth|].
  assert (Hfirst : p ∉ pre) by (intros Hin; apply Hp; by eapply (proj1 (Forall_forall _ _) Hpre)).
  unfold turns, STARVATION_GUARD. destruct (priority_streak me >=? 8) eqn:Hst; rewrite Z.geb_leb in Hst.
  - apply Z.leb_le in Hst. assert (priority_streak me = 8) as Hs8 by lia. destruct Hg as [-> ->]. rewrite Hs8 in *.
    destruct Hb as [Hb|Hb]; rewrite Hb in *; cbn [order_of] in Hord; simpl in Hord;
      destruct p; simpl; try lia; exfalso;
      (destruct pre as [|x1 pre]; simplify_eq/=; try done; apply Hfirst; by left).
  - apply Z.leb_gt in Hst. destruct Hg as [-> ->]. rewrite Z.min_r by lia.
    destruct p; simpl.
    + destruct (boost_level me =? 0); lia.
    + destruct (boost_level me =? 1); lia.
    + exfalso. unfold order_of, by_priority in Hord.
      destruct pre as [|x1 pre]; simplify_eq/=. apply Hfirst. by left.
Qed.

Lemma event_waits me taken n me' p k t : queue_event me taken n me' -> guard_ok me -> ready me p !! k = Some t ->
  guard_ok me' /\
  (t ∈ taken \/ exists k', ready me' p !! k' = Some t /\
     18 * Z.of_nat k' + turns p me' + Z.of_nat n <= 18 * Z.of_nat k + turns p me).
Proof.
  intros Hev Hg Hk. pose proof (turns_range p me Hg) as Hrange. destruct Hev as [ths me Hall|ths u me|ths me Hall|me me' Hr [Hg1 Hg2]].
  - destruct (pop_turn ths me p Hall Hg) as [Hg' Hor]; [by intros Hx; rewrite Hx in Hk|]. split; [done|].
    destruct Hor as [(u & Hu & Hq)|[Hq Ht]].
    + rewrite Hu. rewrite Hq in Hk. destruct k as [|k]; simpl in Hk; [left; simplify_eq; by left|].
      right. exists k. split; [done|]. pose proof (turns_range p _ Hg'). lia.
    + right. exists k. rewrite Hq. split; [done|lia].
  - unfold enqueue. destruct (ths !! u) as [th|]; [|split; [done|]; right; exists k; split; [done|lia]].
    split; [done|]. right. exists k. split; [|change (turns p (set_queues _ _ me)) with (turns p me); lia].
    simpl. unfold queue_insert. case_decide as Hp; [|done]. rewrite Hp in Hk. rewrite lookup_app_l; [done|]. by eapply lookup_lt_Some.
  - destruct (pop_from_spec ths by_priority me Hall) as (_ & [Hg1 Hg2] & Hpop).
    destruct (pop_from ths by_priority me) as [[u|] me']; simpl in *.
    + assert (Ht : turns p me' = turns p me) by (unfold turns; by rewrite Hg1, Hg2).
      split; [unfold guard_ok; by rewrite Hg1, Hg2|]. destruct Hpop as (pre & q & post & _ & _ & Hq & Hoth & _).
      destruct (decide (p = q)) as [->|Hne].
      * rewrite Hq in Hk. destruct k as [|k]; simpl in Hk; [left; simplify_eq; by left|].
        right. exists k. split; [done|lia].
      * right. exists k. rewrite (Hoth p Hne). split; [done|lia].
    + assert (Ht : turns p me' = turns p me) by (unfold turns; by rewrite Hg1, Hg2).
      split; [unfold guard_ok; by rewrite Hg1, Hg2|]. destruct Hpop as (_ & Hoth & _). right. exists k. rewrite Hoth. split; [done|lia].
  - assert (Ht : turns p me' = turns p me) by (unfold turns; by rewrite Hg1, Hg2).
    split; [unfold guard_ok; by rewrite Hg1, Hg2|]. right. exists k. rewrite Hr. split; [done|lia].
Qed.

(** C7: no queue starves.  Whatever is queued and stolen meanwhile, and however busy
    the higher priorities are, the thread [k] places from the front of its queue has
    been taken by the time the processor has served [18 * (k + 1)] turns. *)
Theorem no_starvation me n taken me' p k t :
  guard_ok me -> ready me p !! k = Some t -> queue_run me n taken me' ->
  18 * (Z.of_nat k + 1) <= Z.of_nat n -> t ∈ taken.
Proof.
  intros Hg Hk Hrun Hn. pose proof (turns_range p me Hg) as Hrange.
  assert (Hm : 18 * Z.of_nat k + turns p me <= Z.of_nat n) by lia. clear Hn Hrange.
  revert k Hg Hk Hm. induction Hrun as [me|me n taken me1 n1 taken1 me2 Hev Hrun IH]; intros k Hg Hk Hm.
  - pose proof (turns_range p me Hg). lia.
  - destruct (event_waits me taken n me1 p k t Hev Hg Hk) as [Hg' [Hin|(k' & Hk' & Hle)]]; apply elem_of_app; [by left|].
    right. apply (IH k'); auto. lia.
Qed.

(** ** Sleep *)

Definition sleep_ok (s : Scheduler) : Prop := Forall (fun e => next_wake s <= snd e) (sleepers s).

Definition same_sleep (s s' : Scheduler) : Prop := sleepers s' = sleepers s /\ next_wake s' = next_wake s.

Lemma unblock_sleep c id s : same_sleep s (unblock c id s).
Proof.
  unfold unblock. destruct (lookup_thread id s) as [th|]; [|done].
  case_bool_decide; [destruct (on_cpu th)|case_bool_decide]; done.
Qed.

Lemma steal_sleep seen again c s : same_sleep s (steal seen again c s).
Proof.
  unfold steal. destruct (busiest seen c); [|done]. destruct (_ >? 0); [|done]. destruct (_ >? 0); [done|].
  by destruct (pop_from _ _ _) as [[u|] theirs].
Qed.

Lemma earliest_le l : Forall (fun e => earliest l <= snd e) l.
Proof.
  induction l as [|e l IH]; [constructor|]. simpl. constructor; [lia|]. eapply Forall_impl; [exact IH|].
  intros e' He. simpl in *. lia.
Qed.

Lemma step_sleep_ok l m m' : step l m m' -> sleep_ok (sched m) -> sleep_ok (sched m').
Proof.
  intros Hstep Hok. assert (Hsame : forall s', same_sleep (sched m) s' -> sleep_ok s')
    by (intros s' [H1 H2]; unfold sleep_ok; by rewrite H1, H2).
  destruct Hstep; simpl; try (by apply Hsame).
  - apply Hsame. unfold adopt_secondary_cpu. by destruct (idle _).
  - apply Hsame. unfold spawn_register in H0. destruct (initialised _); [|done]. by injection H0 as <- <-.
  - destruct (_ =? 0); [apply Hsame, steal_sleep|done].
  - apply Hsame. unfold decide_switch in H0. destruct (flush_pending _ _) as [ths me].
    destruct (prepare_switch ths me) as [[sw ths2] me2]. by injection H0 as <- <- <- <-.
  - apply Hsame. unfold arrive. by destruct (flush_pending _ _).
  - apply Hsame. unfold park. destruct (current _); [|done]. destruct (_ !! _) as [th|]; [|done]. by destruct (wake_pending th).
  - unfold sleep_park. destruct (current _); [|done]. unfold sleep_ok. simpl. apply Forall_app. split.
    + eapply Forall_impl; [exact Hok|]. intros e He. simpl in *. lia.
    + constructor; [simpl; lia|constructor].
  - apply Hsame. unfold join_park. destruct (lookup_thread _ _), (current (cpus (sched m) c)); try done.
    by do 2 (case_bool_decide; [done|]).
  - apply Hsame. unfold finish. destruct (current _); [|done]. by destruct (_ !! _).
  - apply Hsame, unblock_sleep.
  - apply earliest_le.
  - apply Hsame. unfold set_priority. by destruct (lookup_thread _ _).
Qed.

Lemma reachable_sleep m : reachable m -> sleep_ok (sched m).
Proof.
  intros Hr. apply rtc_ind_r with (P := fun m => sleep_ok (sched m)) in Hr; [done|constructor|].
  intros m1 m2 _ [l Hs] Hok. by eapply step_sleep_ok.
Qed.

Lemma unblock_others c id s t : state_of (threads s) t <> Blocked -> state_of (threads (unblock c id s)) t <> Blocked.
Proof.
  unfold unblock, lookup_thread, state_of. intros Hs. destruct (threads s !! id) as [th|] eqn:Hth; [|done].
  destruct (listed th); [|done]. destruct (decide (id = t)) as [->|Hne].
  - rewrite Hth in Hs. rewrite bool_decide_false by done. case_bool_decide; simpl; rewrite ?Hth; [done|].
    by rewrite list_lookup_alter_eq, Hth.
  - case_bool_decide; [destruct (on_cpu th)|case_bool_decide]; simpl; rewrite ?list_lookup_alter_ne by done; done.
Qed.

Lemma unblock_target c s ph t : inv None s ph -> state_of (threads (unblock c t s)) t <> Blocked.
Proof.
  intros Hinv. unfold unblock, lookup_thread, state_of. destruct (threads s !! t) as [th|] eqn:Hth; [|by rewrite Hth].
  destruct (listed th) eqn:Hl.
  - case_bool_decide as Hb; [destruct (on_cpu th)|case_bool_decide]; simpl; rewrite ?list_lookup_alter_eq, Hth; simpl; done.
  - rewrite Hth. destruct (to_listed _ _ _ _ (inv_thread _ _ _ Hinv t th Hth) Hl) as [-> _]. done.
Qed.

Lemma unblock_all c due : forall s ph, inv None s ph ->
  same_sleep s (fold_left (fun s id => unblock c id s) due s) /\
  forall t, t ∈ due \/ state_of (threads s) t <> Blocked ->
    state_of (threads (fold_left (fun s id => unblock c id s) due s)) t <> Blocked.
Proof.
  induction due as [|id due IH]; intros s ph Hinv; simpl.
  - split; [done|]. intros t [Ht|]; [by apply elem_of_nil in Ht|done].
  - destruct (IH (unblock c id s) ph (inv_unblock s ph c id Hinv)) as [[H1 H2] Hst].
    destruct (unblock_sleep c id s) as [H3 H4]. split; [split; congruence|]. intros t Ht. apply Hst.
    destruct Ht as [Ht|Ht]; [apply elem_of_cons in Ht as [->|Ht]|]; [right; by eapply unblock_target|by left|].
    right. by apply unblock_others.
Qed.

(** a sleeper's deadline is never behind the published next wake-up, so the first
    tick at or after it takes the lock; that tick takes the sleeper off the list and
    leaves it not parked.  A tick before the deadline leaves it on the list. *)
Theorem sleeper_woken m c now t d :
  reachable m -> (t, d) ∈ sleepers (sched m) ->
  let s' := wake_due_sleepers c now (sched m) in
  (d <= now -> next_wake (sched m) <= now /\ (t, d) ∉ sleepers s' /\ state_of (threads s') t <> Blocked) /\
  (now < d -> (t, d) ∈ sleepers s').
Proof.
  intros Hr Hin. pose proof (reachable_ok m Hr) as Hinv. pose proof (reachable_sleep m Hr) as Hs.
  unfold wake_due_sleepers, collect_due.
  set (s1 := set_sleepers _ _ _).
  assert (Hinv1 : inv None s1 (phase m)) by (by eapply inv_equiv; [|done|exact Hinv]).
  destruct (unblock_all c (due_sleepers now (sleepers (sched m))) s1 (phase m) Hinv1) as [[Hsl _] Hst].
  simpl. rewrite Hsl. unfold s1 at 1 3. simpl. unfold not_due. rewrite !list_elem_of_filter. simpl. split; intros Hd.
  - split; [unfold sleep_ok in Hs; rewrite Forall_forall in Hs; specialize (Hs _ Hin); simpl in Hs; lia|].
    split; [lia|]. apply Hst. left. unfold due_sleepers. apply list_elem_of_fmap. exists (t, d). split; [done|].
    by apply list_elem_of_filter.
  - done.
Qed.

(** ** A run of the machine *)

Module SchedRuns.

(** The boot thread spawns a thread, which is queued, switched to, and sleeps. *)
Definition spawned : machine :=
  {| sched := snd (spawn_register 0 Normal (sched booted)); phase := <[0%nat := Spawning 2]> (phase booted) |}.
Definition offered : machine :=
  {| sched := spawn_enqueue 0 2 (sched spawned); phase := <[0%nat := Executing]> (phase spawned) |}.
Definition hints (other : nat) : Z := queued (cpus (sched offered) other).
Definition entered : machine :=
  {| sched := if hints 0%nat =? 0 then steal hints hints 0 (sched offered) else sched offered;
     phase := <[0%nat := Scheduling]> (phase offered) |}.
Definition decision := decide_switch 0 (sched entered).
Definition decided : machine :=
  {| sched := snd decision; phase := <[0%nat := Burying (fst (fst (fst decision))) (snd (fst decision))]> (phase entered) |}.
Definition the_switch : Switch := {| save_to := 0; load_from := 2; loaded_saved := true |}.
Definition buried : machine :=
  {| sched := bury [] (sched decided); phase := <[0%nat := Switching the_switch]> (phase decided) |}.
Definition switched : machine :=
  {| sched := context_switch the_switch (sched buried); phase := <[0%nat := Arriving]> (phase buried) |}.
Definition arrived : machine :=
  {| sched := arrive 0 (sched switched); phase := <[0%nat := Executing]> (phase switched) |}.
Definition asleep : machine :=
  {| sched := sleep_park 0 7 5 (sched arrived); phase := phase arrived |}.

Lemma arrived_acts : acts arrived 0 2.
Proof. split; [reflexivity|]. split; [reflexivity|]. split; [discriminate|reflexivity]. Qed.

Lemma buried_reachable : reachable buried.
Proof.
  unfold reachable. eapply rtc_l; [exists LSpawn; apply (step_spawn booted 0 0 Normal 2 (sched spawned))|].
  { split; [reflexivity|]. split; [reflexivity|]. split; [discriminate|reflexivity]. }
  { reflexivity. }
  eapply rtc_l; [exists LOther; apply (step_offer _ 0 2); reflexivity|].
  eapply rtc_l; [exists LOther; apply (step_schedule _ 0); reflexivity|].
  eapply rtc_l; [exists LOther; apply (step_decide entered 0 (fst (fst (fst decision))) (snd (fst (fst decision)))
    (snd (fst decision)) (snd decision)); reflexivity|].
  apply rtc_once. exists LOther. apply (step_bury decided 0 (Some the_switch) []). reflexivity.
Qed.

Lemma arrived_reachable : reachable arrived.
Proof.
  unfold reachable. etrans; [exact buried_reachable|].
  eapply rtc_l; [exists LOther; apply (step_switch _ 0 the_switch); reflexivity|].
  apply rtc_once. exists LOther. apply (step_arrive switched 0). reflexivity.
Qed.

Lemma asleep_reachable : reachable asleep.
Proof.
  unfold reachable. etrans; [exact arrived_reachable|]. apply rtc_once. exists (LParks 2).
  apply (step_sleep arrived 0 2 7 5). exact arrived_acts.
Qed.

(** In the middle of the switch the outgoing thread is in no queue; after it, it is. *)
Lemma sched_safe_witness :
  pending (cpus (sched buried) 0%nat) = Some 0%nat /\ loaded_saved the_switch = true /\
  0%nat ∈ qs (cpus (sched arrived) 0%nat) /\ ~ stands_on (sched arrived) 0 0.
Proof.
  destruct (sched_safe buried buried_reachable) as (_ & _ & Hsw & _).
  destruct (sched_safe arrived arrived_reachable) as (_ & Hq & _).
  assert (Hin : 0%nat ∈ qs (cpus (sched arrived) 0%nat)) by (vm_compute; left).
  split; [reflexivity|]. split; [apply (Hsw 0%nat); reflexivity|]. split; [exact Hin|]. apply (Hq 0%nat 0%nat Hin).
Defined.

Lemma no_thread_lost_witness :
  0%nat ∈ qs (cpus (sched arrived) 0%nat) /\ queued (cpus (sched arrived) 0%nat) = 1.
Proof.
  destruct (no_thread_lost arrived arrived_reachable) as [Hlost Hcount]. split.
  - assert (Hth : exists th, threads (sched arrived) !! 0%nat = Some th /\ state th = Ready /\ owner th = 0%nat)
      by (eexists; vm_compute; repeat split; reflexivity).
    destruct Hth as (th & Hth & Hs & Ho). pose proof (Hlost 0%nat th Hth Hs) as Hl. rewrite Ho in Hl.
    destruct Hl as [Hl|[[Hl|Hl]|[Hl|Hl]]]; [exact Hl|discriminate Hl|discriminate Hl|discriminate Hl|discriminate Hl].
  - rewrite Hcount. reflexivity.
Defined.

(** An interrupt wakes the running thread; its next attempt to park is declined. *)
Definition woken : machine := {| sched := unblock 0 2 (sched arrived); phase := phase arrived |}.

Lemma woken_acts : acts woken 0 2.
Proof. split; [reflexivity|]. split; [reflexivity|]. split; [discriminate|reflexivity]. Qed.

Lemma arrived_thread : exists th, lookup_thread 2 (sched arrived) = Some th /\ state th = Running.
Proof. eexists; vm_compute; repeat split; reflexivity. Qed.

Lemma wake_not_lost_witness : fst (park 0 (sched woken)) = false.
Proof.
  destruct arrived_thread as (th & Hth & Hs).
  assert (Hnf : state th <> Finished) by (rewrite Hs; discriminate).
  assert (Hnb : state th <> Blocked) by (rewrite Hs; discriminate).
  exact (proj2 (wake_not_lost arrived woken 0 2 th Hth Hnf eq_refl) Hnb woken 0%nat (rtc_refl _ woken) woken_acts).
Defined.

Lemma sleeper_woken_witness :
  (2%nat, 12) ∈ sleepers (sched asleep) /\ state_of (threads (sched asleep)) 2 = Blocked /\
  state_of (threads (wake_due_sleepers 0 12 (sched asleep))) 2 <> Blocked.
Proof.
  assert (Hin : (2%nat, 12) ∈ sleepers (sched asleep)) by (vm_compute; left).
  destruct (sleeper_woken asleep 0 12 2 12 asleep_reachable Hin) as [Hw _].
  split; [exact Hin|]. split; [reflexivity|]. apply Hw. lia.
Defined.

(** Twenty threads of high priority and one of low, all ready. *)
Definition busy_threads : list Thread := replicate 20 (Thread_new High 0) ++ [Thread_new Low 0].
Definition busy : Cpu :=
  fold_left (fun me t => enqueue busy_threads t me) (seq 0 21) Cpu_new.

Lemma pops n : forall me, all_runnable busy_threads me -> exists taken me', queue_run me n taken me'.
Proof.
  induction n as [|n IH]; intros me Hall; [exists [], me; constructor|].
  destruct (pop_runnable_spec busy_threads me Hall) as (_ & Hp & _).
  destruct (IH (snd (pop_runnable busy_threads me))) as (taken & me' & Hrun).
  - intros p. unfold popped in Hp. destruct (fst (pop_runnable busy_threads me)) as [t|].
    + destruct Hp as (pre & q & post & _ & _ & Hq & Hoth & _). destruct (decide (p = q)) as [->|Hne].
      * specialize (Hall q). rewrite Hq in Hall. by apply Forall_cons in Hall as [_ Hall].
      * rewrite (Hoth p Hne). apply Hall.
    + destruct Hp as (_ & Hoth & _). rewrite Hoth. apply Hall.
  - exists (option_list (fst (pop_runnable busy_threads me)) ++ taken), me'.
    apply (qr_cons me 1 _ (snd (pop_runnable busy_threads me)) n taken me'); [by apply qe_pop|done].
Qed.

Lemma no_starvation_witness :
  exists taken me', queue_run busy 18 taken me' /\ 20%nat ∈ taken.
Proof.
  destruct (pops 18 busy) as (taken & me' & Hrun); [intros []; vm_compute; repeat constructor|].
  exists taken, me'. split; [exact Hrun|].
  apply (no_starvation busy 18 taken me' Low 0 20); [|reflexivity|exact Hrun|vm_compute; discriminate].
  split; [vm_compute; split; discriminate|left; reflexivity].
Defined.

End SchedRuns.
