(* ===== verification/Ipc.v ===== *)
(** * Capability-mediated messages (kernel/src/ipc.rs) and who a thread is
    (kernel/src/users.rs, the table of users)

    The endpoint registry and its operations, each the critical section under the
    registry's lock.  What a delivery tells the scheduler to wake is returned, and
    waking happens after, as in the code. *)

From stdpp Require Import base list gmap numbers.
From Stdlib Require Import Lia.
From S2P Require Import Prelude Quota.

(** ** Users of threads *)

Definition USER_SYSTEM : Z := 0.

(** [USERS]: absent means the system. *)
Definition user_of (users : gmap nat Z) (thread : nat) : Z :=
  match users !! thread with Some user => user | None => USER_SYSTEM end.

Definition assign_user (thread : nat) (user : Z) (users : gmap nat Z) : gmap nat Z :=
  if user =? USER_SYSTEM then delete thread users else <[thread := user]> users.

Definition inherit (parent : option nat) (child : nat) (users : gmap nat Z) : gmap nat Z :=
  match parent with
  | Some parent => assign_user child (user_of users parent) users
  | None => users
  end.

Definition release_user (thread : nat) (users : gmap nat Z) : gmap nat Z := delete thread users.

(** ** Rights *)

Definition R_NONE : Z := 0.
Definition R_SEND : Z := Z.shiftl 1 0.
Definition R_RECEIVE : Z := Z.shiftl 1 1.
Definition R_GRANT : Z := Z.shiftl 1 2.
Definition ALL_BITS : Z := 7.

Definition r_union (a b : Z) : Z := Z.lor a b.
Definition r_intersection (a b : Z) : Z := Z.land a b.
Definition r_contains (a b : Z) : bool := Z.land a b =? b.
Definition r_is_empty (a : Z) : bool := a =? 0.
Definition from_bits_truncate (bits : Z) : Z := Z.land bits ALL_BITS.

(** ** The registry *)

Definition MAX_MESSAGE_WORDS : nat := 4.
Definition MAX_CAPACITY : Z := 256.
Definition KERNEL_SENDER : Z := U64_MAX.

Record Message : Type := {
  m_tag : Z;
  m_words : list Z;
  m_sender : Z;
  m_sender_user : Z;
}.

Record Endpoint : Type := {
  ep_queue : list Message;
  ep_capacity : Z;
  ep_waiting : list nat;
  ep_owner : nat;
}.

Record Registry : Type := {
  r_endpoints : gmap Z Endpoint;
  r_next_id : Z;
  r_capabilities : gmap nat (list (Z * Z));
}.

Definition Registry_new : Registry := {| r_endpoints := ∅; r_next_id := 1; r_capabilities := ∅ |}.

Definition set_endpoints (m : gmap Z Endpoint) (r : Registry) : Registry :=
  {| r_endpoints := m; r_next_id := r_next_id r; r_capabilities := r_capabilities r |}.
Definition set_capabilities (m : gmap nat (list (Z * Z))) (r : Registry) : Registry :=
  {| r_endpoints := r_endpoints r; r_next_id := r_next_id r; r_capabilities := m |}.

Definition set_queue (q : list Message) (w : list nat) (ep : Endpoint) : Endpoint :=
  {| ep_queue := q; ep_capacity := ep_capacity ep; ep_waiting := w; ep_owner := ep_owner ep |}.

Fixpoint find_capability (endpoint : Z) (l : list (Z * Z)) : option Z :=
  match l with
  | [] => None
  | (id, rights) :: rest => if id =? endpoint then Some rights else find_capability endpoint rest
  end.

Definition capabilities_of (r : Registry) (thread : nat) : list (Z * Z) :=
  match r_capabilities r !! thread with Some l => l | None => [] end.

Definition rights_of (r : Registry) (thread : nat) (endpoint : Z) : Z :=
  match find_capability endpoint (capabilities_of r thread) with Some rights => rights | None => R_NONE end.

Fixpoint widen_capability (endpoint rights : Z) (l : list (Z * Z)) : list (Z * Z) :=
  match l with
  | [] => []
  | (id, existing) :: rest =>
      if id =? endpoint then (id, r_union existing rights) :: rest
      else (id, existing) :: widen_capability endpoint rights rest
  end.

Abbreviation I := (M Registry Error).

(** The thread's entry exists from here on, whatever becomes of the request. *)
Definition add_rights (quotas : assignments) (thread : nat) (endpoint rights : Z) : I unit := fun r =>
  let allowance := q_capabilities (quota_of quotas thread) in
  let list := capabilities_of r thread in
  match find_capability endpoint list with
  | Some _ => (Ok tt, set_capabilities (<[thread := widen_capability endpoint rights list]> (r_capabilities r)) r)
  | None =>
      if Z.of_nat (length list) >=? allowance
      then (Err QuotaExceeded, set_capabilities (<[thread := list]> (r_capabilities r)) r)
      else (Ok tt, set_capabilities (<[thread := list ++ [(endpoint, rights)]]> (r_capabilities r)) r)
  end.

Definition endpoints_owned_by (r : Registry) (thread : nat) : Z :=
  Z.of_nat (size (filter (fun e => ep_owner (snd e) = thread) (r_endpoints r))).

Definition insert_endpoint (owner : nat) (capacity : Z) : I Z := fun r =>
  let id := r_next_id r in
  if id >=? U64_MAX then (Panic, r)
  else
    (Ok id,
     {| r_endpoints := <[id := {| ep_queue := []; ep_capacity := capacity; ep_waiting := []; ep_owner := owner |}]>
                         (r_endpoints r);
        r_next_id := id + 1; r_capabilities := r_capabilities r |}).

Definition ipc_create (quotas : assignments) (owner : nat) (capacity : Z) : I Z :=
  guard_err ((capacity =? 0) || (capacity >? MAX_CAPACITY)) InvalidArgument ;;
  r ← get;
  guard_err (endpoints_owned_by r owner >=? q_endpoints (quota_of quotas owner)) QuotaExceeded ;;
  id ← insert_endpoint owner capacity;
  add_rights quotas owner id (r_union (r_union R_SEND R_RECEIVE) R_GRANT) ;;
  mret id.

Definition ipc_grant (quotas : assignments) (granter target : nat) (endpoint rights : Z) : I unit :=
  r ← get;
  guard_err (bool_decide (r_endpoints r !! endpoint = None)) NoSuchEndpoint ;;
  let held := rights_of r granter endpoint in
  guard_err (negb (r_contains held R_GRANT)) NoCapability ;;
  let effective := r_intersection rights held in
  guard_err (r_is_empty effective) NoCapability ;;
  add_rights quotas target endpoint effective.

Definition stamp (users : gmap nat Z) (sender : option nat) (m : Message) : Message :=
  {| m_tag := m_tag m; m_words := m_words m;
     m_sender := match sender with Some s => Z.of_nat s | None => KERNEL_SENDER end;
     m_sender_user := match sender with Some s => user_of users s | None => KERNEL_SENDER end |}.

(** The critical section of [deliver], with the thread it says to wake. *)
Definition deliver (users : gmap nat Z) (sender : option nat) (endpoint : Z) (m : Message) : I (option nat) :=
  r ← get;
  guard_err (match sender with Some s => negb (r_contains (rights_of r s endpoint) R_SEND) | None => false end)
    NoCapability ;;
  match r_endpoints r !! endpoint with
  | None => fail NoSuchEndpoint
  | Some ep =>
      guard_err (Z.of_nat (length (ep_queue ep)) >=? ep_capacity ep) QueueFull ;;
      let ep' := set_queue (ep_queue ep ++ [stamp users sender m]) (tail (ep_waiting ep)) ep in
      put (set_endpoints (<[endpoint := ep']> (r_endpoints r)) r) ;;
      mret (head (ep_waiting ep))
  end.

Definition ipc_send (users : gmap nat Z) (sender : nat) (endpoint : Z) (m : Message) : I (option nat) :=
  deliver users (Some sender) endpoint m.
Definition notify (users : gmap nat Z) (endpoint : Z) (m : Message) : I (option nat) :=
  deliver users None endpoint m.

(** One round of the loop in [receive]: the next message, or the receiver is
    registered as waiting. *)
Definition receive_once (receiver : nat) (endpoint : Z) : I (option Message) :=
  r ← get;
  guard_err (negb (r_contains (rights_of r receiver endpoint) R_RECEIVE)) NoCapability ;;
  match r_endpoints r !! endpoint with
  | None => fail NoSuchEndpoint
  | Some ep =>
      match ep_queue ep with
      | m :: rest =>
          put (set_endpoints (<[endpoint := set_queue rest (ep_waiting ep) ep]> (r_endpoints r)) r) ;;
          mret (Some m)
      | [] =>
          let waiting :=
            if bool_decide (receiver ∈ ep_waiting ep) then ep_waiting ep else ep_waiting ep ++ [receiver] in
          put (set_endpoints (<[endpoint := set_queue [] waiting ep]> (r_endpoints r)) r) ;;
          mret None
      end
  end.

Definition try_receive (receiver : nat) (endpoint : Z) : I (option Message) :=
  r ← get;
  guard_err (negb (r_contains (rights_of r receiver endpoint) R_RECEIVE)) NoCapability ;;
  match r_endpoints r !! endpoint with
  | None => fail NoSuchEndpoint
  | Some ep =>
      put (set_endpoints (<[endpoint := set_queue (tail (ep_queue ep)) (ep_waiting ep) ep]> (r_endpoints r)) r) ;;
      mret (head (ep_queue ep))
  end.

Definition forget_waiter (thread : nat) (ep : Endpoint) : Endpoint :=
  set_queue (ep_queue ep) (filter (fun w => w <> thread) (ep_waiting ep)) ep.

Definition ipc_release (thread : nat) (r : Registry) : Registry :=
  {| r_endpoints := forget_waiter thread <$> filter (fun e => ep_owner (snd e) <> thread) (r_endpoints r);
     r_next_id := r_next_id r;
     r_capabilities := delete thread (r_capabilities r) |}.

Definition ipc_queued (r : Registry) (endpoint : Z) : Z :=
  match r_endpoints r !! endpoint with Some ep => Z.of_nat (length (ep_queue ep)) | None => 0 end.

(** ** System calls *)

Definition current_or_err (current : option nat) : result Error nat := ok_or InvalidArgument current.

Definition sys_ipc_create (quotas : assignments) (current : option nat) (capacity : Z) : I Z :=
  owner ← lift (current_or_err current);
  ipc_create quotas owner capacity.

Definition sys_ipc_grant (quotas : assignments) (current : option nat) (endpoint target rights : Z) : I Z :=
  granter ← lift (current_or_err current);
  ipc_grant quotas granter (Z.to_nat target) endpoint (from_bits_truncate rights) ;;
  mret 0.
