(* ===== verification/IpcTheorems.v ===== *)
(** * What the message system guarantees

    Runs of every operation by every thread: where authority comes from, what the
    queues and tables are bounded by, and that an endpoint is a first-in first-out
    queue of messages stamped with their real sender. *)

From stdpp Require Import base list gmap numbers.
From Stdlib Require Import Lia.
From S2P Require Import Prelude Quota Ipc.

(** ** Runs *)

Record world : Type := { w_ipc : Registry; w_quotas : assignments; w_users : gmap nat Z }.

Definition start : world := {| w_ipc := Registry_new; w_quotas := []; w_users := ∅ |}.

Inductive call : Type :=
| CCreate (owner : nat) (capacity : N)
| CGrant (granter target : nat) (endpoint rights : Z)
| CSend (sender : nat) (endpoint : Z) (m : Message)
| CNotify (endpoint : Z) (m : Message)
| CReceive (receiver : nat) (endpoint : Z)
| CTryReceive (receiver : nat) (endpoint : Z)
| CQuota (granter target : nat) (requested : Quota)
| CUser (thread : nat) (user : Z)
| CExit (thread : nat).

Inductive answer : Type :=
| AMade (id : Z)
| ADone
| ASent (woken : option nat)
| AGot (m : option Message)
| AErr (e : Error)
| APanic.

Definition answer_of {A} (f : A -> answer) (r : result Error A) : answer :=
  match r with Ok a => f a | Err e => AErr e | Panic => APanic end.

Definition in_ipc {A} (f : A -> answer) (m : M Registry Error A) (w : world) : answer * world :=
  (answer_of f (fst (m (w_ipc w))),
   {| w_ipc := snd (m (w_ipc w)); w_quotas := w_quotas w; w_users := w_users w |}).

Definition exec (c : call) (w : world) : answer * world :=
  match c with
  | CCreate owner capacity => in_ipc AMade (ipc_create (w_quotas w) owner (Z.of_N capacity)) w
  | CGrant granter target endpoint rights =>
      in_ipc (fun _ => ADone) (ipc_grant (w_quotas w) granter target endpoint rights) w
  | CSend sender endpoint m => in_ipc ASent (ipc_send (w_users w) sender endpoint m) w
  | CNotify endpoint m => in_ipc ASent (notify (w_users w) endpoint m) w
  | CReceive receiver endpoint => in_ipc AGot (receive_once receiver endpoint) w
  | CTryReceive receiver endpoint => in_ipc AGot (try_receive receiver endpoint) w
  | CQuota granter target requested =>
      (ADone, {| w_ipc := w_ipc w; w_quotas := snd (quota_grant granter target requested (w_quotas w));
                 w_users := w_users w |})
  | CUser thread user =>
      (ADone, {| w_ipc := w_ipc w; w_quotas := w_quotas w; w_users := assign_user thread user (w_users w) |})
  | CExit thread =>
      (ADone, {| w_ipc := ipc_release thread (w_ipc w); w_quotas := quota_release thread (w_quotas w);
                 w_users := release_user thread (w_users w) |})
  end.

(** What happened, newest first, and the world it led to. *)
Inductive runs : list (call * answer) -> world -> Prop :=
| runs_start : runs [] start
| runs_step h w c a w' : runs h w -> exec c w = (a, w') -> runs ((c, a) :: h) w'.

(** ** Rights *)

Lemma find_app e l l' :
  find_capability e (l ++ l') =
  match find_capability e l with Some v => Some v | None => find_capability e l' end.
Proof. induction l as [|[id v] l IH]; simpl; [done|]. by destruct (id =? e). Qed.

Lemma find_widen e rights l e' :
  find_capability e' (widen_capability e rights l) =
  match find_capability e' l with
  | Some v => Some (if e' =? e then r_union v rights else v)
  | None => None
  end.
Proof.
  induction l as [|[id v] l IH]; simpl; [done|]. destruct (id =? e) eqn:He; simpl.
  - apply Z.eqb_eq in He as ->. destruct (e =? e') eqn:He'; [by rewrite Z.eqb_sym, He'|].
    destruct (find_capability e' l); [|done]. by rewrite Z.eqb_sym, He'.
  - destruct (id =? e') eqn:He'; [|exact IH]. apply Z.eqb_eq in He' as ->. by rewrite He.
Qed.

Lemma capabilities_insert r t l t' :
  capabilities_of (set_capabilities (<[t := l]> (r_capabilities r)) r) t' =
  if decide (t' = t) then l else capabilities_of r t'.
Proof.
  unfold capabilities_of, set_capabilities. simpl. case_decide; subst; [by rewrite lookup_insert_eq|].
  by rewrite lookup_insert_ne.
Qed.

Definition is_ok {E A} (r : result E A) : bool := match r with Ok _ => true | _ => false end.

(** Adding rights adds those and no others, to nobody else. *)
Lemma add_rights_rights quotas t e rights r t' e' b : 0 <= b ->
  let '(o, r') := add_rights quotas t e rights r in
  Z.testbit (rights_of r' t' e') b =
    (is_ok o && bool_decide (t' = t /\ e' = e) && Z.testbit rights b) || Z.testbit (rights_of r t' e') b.
Proof.
  intros Hb. unfold add_rights. destruct (find_capability e (capabilities_of r t)) as [v|] eqn:Hf; [|destruct (_ >=? _)].
  - unfold rights_of. rewrite capabilities_insert. destruct (decide (t' = t)) as [->|Hne].
    + rewrite find_widen. destruct (decide (e' = e)) as [->|He].
      * rewrite Hf, Z.eqb_refl, bool_decide_true by done. unfold r_union. rewrite Z.lor_spec. apply orb_comm.
      * rewrite (proj2 (Z.eqb_neq e' e)) by done. rewrite bool_decide_false by tauto. by destruct (find_capability e' _).
    + by rewrite bool_decide_false by tauto.
  - unfold rights_of. rewrite capabilities_insert. by destruct (decide (t' = t)) as [->|].
  - unfold rights_of. rewrite capabilities_insert. destruct (decide (t' = t)) as [->|Hne]; [|by rewrite bool_decide_false by tauto].
    rewrite find_app. simpl. destruct (decide (e' = e)) as [->|He].
    + rewrite Hf, Z.eqb_refl, bool_decide_true by done. unfold R_NONE. by rewrite Z.bits_0, orb_false_r.
    + rewrite (proj2 (Z.eqb_neq e e')) by done. rewrite bool_decide_false by tauto. by destruct (find_capability e' _).
Qed.

Lemma add_rights_endpoints quotas t e rights r :
  r_endpoints (snd (add_rights quotas t e rights r)) = r_endpoints r /\
  r_next_id (snd (add_rights quotas t e rights r)) = r_next_id r.
Proof. unfold add_rights. destruct (find_capability _ _); [done|]. by destruct (_ >=? _). Qed.

(** A registry whose endpoints change keeps everybody's rights. *)
Lemma rights_set_endpoints m r t e : rights_of (set_endpoints m r) t e = rights_of r t e.
Proof. done. Qed.

(** ** Where authority comes from *)

(** Thread [t] was given right [b] over endpoint [e]: it created the endpoint, or a
    thread that had been given the right, and the right to grant, passed it on. *)
Inductive obtained : list (call * answer) -> nat -> Z -> Z -> Prop :=
| ob_created h t capacity e b : obtained ((CCreate t capacity, AMade e) :: h) t e b
| ob_granted h g t e rights b :
    obtained h g e b -> obtained h g e 2 -> Z.testbit rights b = true ->
    obtained ((CGrant g t e rights, ADone) :: h) t e b
| ob_before x h t e b : obtained h t e b -> obtained (x :: h) t e b.

Create HintDb authority.
#[export] Hint Constructors obtained : authority.

Lemma contains_bit a k : 0 <= k -> r_contains a (Z.shiftl 1 k) = true <-> Z.testbit a k = true.
Proof.
  intros Hk. unfold r_contains. rewrite Z.eqb_eq. split; intros H.
  - apply (f_equal (fun x => Z.testbit x k)) in H. rewrite Z.land_spec, bit1_testbit, bool_decide_true, andb_true_r in H by done. done.
  - apply Z.bits_inj'. intros n Hn. rewrite Z.land_spec, bit1_testbit by done. case_bool_decide; subst; by rewrite ?H, ?andb_false_r.
Qed.

(** ** What each operation does to the registry *)

Ltac unfold_ipc := unfold mbind, M_bind, guard_err, get, put, mret, M_ret, fail; simpl.

Definition taken (o : result Error (option Message)) : list Message :=
  match o with Ok (Some m) => [m] | _ => [] end.

(** What a receive of either kind does: nothing, or the front of the queue is taken
    and only an empty queue answers with nothing. *)
Inductive takes (e : Z) (r : Registry) : result Error (option Message) -> Registry -> Prop :=
| takes_error err : takes e r (Err err) r
| takes_front ep o q w :
    r_endpoints r !! e = Some ep -> ep_queue ep = taken (Ok o) ++ q -> (o = None -> q = []) ->
    (NoDup (ep_waiting ep) -> NoDup w) ->
    takes e r (Ok o) (set_endpoints (<[e := set_queue q w ep]> (r_endpoints r)) r).

Lemma NoDup_snoc {A} (l : list A) x : x ∉ l -> NoDup l -> NoDup (l ++ [x]).
Proof. rewrite list.NoDup_app. pose proof (NoDup_singleton x). set_solver. Qed.

Lemma receive_takes t e r : takes e r (fst (receive_once t e r)) (snd (receive_once t e r)).
Proof.
  unfold receive_once. unfold_ipc. destruct (negb _); simpl; [constructor|].
  destruct (r_endpoints r !! e) as [ep|] eqn:He; simpl; [|constructor].
  destruct (ep_queue ep) as [|m q] eqn:Hq; simpl; econstructor; eauto; try done.
  case_bool_decide; [done|]. by apply NoDup_snoc.
Qed.

Lemma try_receive_takes t e r : takes e r (fst (try_receive t e r)) (snd (try_receive t e r)).
Proof.
  unfold try_receive. unfold_ipc. destruct (negb _); simpl; [constructor|].
  destruct (r_endpoints r !! e) as [ep|] eqn:He; simpl; [|constructor].
  destruct (ep_queue ep) as [|m q] eqn:Hq; simpl; econstructor; eauto; done.
Qed.

(** What a delivery does: nothing, or the stamped message is put at the back of a queue
    that had room and the longest waiter is taken off the list. *)
Inductive delivers (e : Z) (m : Message) (r : Registry) : result Error (option nat) -> Registry -> Prop :=
| delivers_error err : delivers e m r (Err err) r
| delivers_back ep :
    r_endpoints r !! e = Some ep -> Z.of_nat (length (ep_queue ep)) < ep_capacity ep ->
    delivers e m r (Ok (head (ep_waiting ep)))
      (set_endpoints (<[e := set_queue (ep_queue ep ++ [m]) (tail (ep_waiting ep)) ep]> (r_endpoints r)) r).

Lemma deliver_delivers users sender e m r :
  delivers e (stamp users sender m) r (fst (deliver users sender e m r)) (snd (deliver users sender e m r)).
Proof.
  unfold deliver. unfold_ipc. destruct (match sender with Some _ => _ | None => _ end); simpl; [constructor|].
  destruct (r_endpoints r !! e) as [ep|] eqn:He; simpl; [|constructor].
  destruct (_ >=? _) eqn:Hfull; simpl; constructor; [done|lia].
Qed.

(** What a creation does: nothing, or an empty queue under an unused name, whether or
    not the creator could then be given its capability. *)
Definition with_endpoint (owner : nat) (capacity : Z) (r : Registry) : Registry :=
  {| r_endpoints := <[r_next_id r := {| ep_queue := []; ep_capacity := capacity; ep_waiting := []; ep_owner := owner |}]>
       (r_endpoints r);
     r_next_id := r_next_id r + 1; r_capabilities := r_capabilities r |}.

Inductive creates (quotas : assignments) (owner : nat) (capacity : Z) (r : Registry) :
  result Error Z -> Registry -> Prop :=
| creates_error err : creates quotas owner capacity r (Err err) r
| creates_panic : creates quotas owner capacity r Panic r
| creates_endpoint o :
    capacity <> 0 -> capacity <= MAX_CAPACITY ->
    endpoints_owned_by r owner < q_endpoints (quota_of quotas owner) -> r_next_id r < U64_MAX ->
    o = fst (add_rights quotas owner (r_next_id r) (r_union (r_union R_SEND R_RECEIVE) R_GRANT)
               (with_endpoint owner capacity r)) ->
    creates quotas owner capacity r (_ ← o; Ok (r_next_id r))
      (snd (add_rights quotas owner (r_next_id r) (r_union (r_union R_SEND R_RECEIVE) R_GRANT)
              (with_endpoint owner capacity r))).

Lemma create_creates quotas owner capacity r :
  creates quotas owner capacity r (fst (ipc_create quotas owner capacity r)) (snd (ipc_create quotas owner capacity r)).
Proof.
  unfold ipc_create, insert_endpoint. unfold_ipc. destruct (_ || _) eqn:Hc; simpl; [constructor|].
  apply orb_false_iff in Hc as [Hc1 Hc2].
  destruct (endpoints_owned_by _ _ >=? _) eqn:Hq; simpl; [constructor|]. destruct (r_next_id r >=? U64_MAX) eqn:Hid; simpl; [constructor|].
  fold (with_endpoint owner capacity r).
  pose proof (creates_endpoint quotas owner capacity r _ ltac:(lia) ltac:(lia) ltac:(lia) ltac:(lia) eq_refl) as Hcr.
  by destruct (add_rights _ _ _ _ _) as [[[]| |] r2].
Qed.

(** What a grant does: nothing, or the target is given what the granter also holds. *)
Inductive grants (quotas : assignments) (granter target : nat) (e rights : Z) (r : Registry) :
  result Error unit -> Registry -> Prop :=
| grants_error err : grants quotas granter target e rights r (Err err) r
| grants_some o :
    is_Some (r_endpoints r !! e) -> r_contains (rights_of r granter e) R_GRANT = true ->
    o = fst (add_rights quotas target e (r_intersection rights (rights_of r granter e)) r) ->
    grants quotas granter target e rights r o
      (snd (add_rights quotas target e (r_intersection rights (rights_of r granter e)) r)).

Lemma grant_grants quotas granter target e rights r :
  grants quotas granter target e rights r
    (fst (ipc_grant quotas granter target e rights r)) (snd (ipc_grant quotas granter target e rights r)).
Proof.
  unfold ipc_grant. unfold_ipc. case_bool_decide as He; simpl; [constructor|].
  destruct (r_contains _ _) eqn:Hg; simpl; [|constructor]. destruct (r_is_empty _); simpl; [constructor|].
  constructor; [by destruct (r_endpoints r !! e)|done|done].
Qed.

(** One operation: what anybody holds afterwards they held before, or were given by
    this very operation. *)
Lemma exec_rights c w a w' t e b : exec c w = (a, w') -> 0 <= b ->
  Z.testbit (rights_of (w_ipc w') t e) b = true ->
  Z.testbit (rights_of (w_ipc w) t e) b = true \/
  (exists capacity, c = CCreate t capacity /\ a = AMade e) \/
  (exists g rights, c = CGrant g t e rights /\ a = ADone /\ Z.testbit rights b = true /\
     Z.testbit (rights_of (w_ipc w) g e) b = true /\ Z.testbit (rights_of (w_ipc w) g e) 2 = true).
Proof.
  intros Hex Hb Hr. destruct c; simpl in Hex; injection Hex as <- <-; simpl in Hr; auto.
  - revert Hr. destruct (create_creates (w_quotas w) owner (Z.of_N capacity) (w_ipc w)) as [| |o _ _ _ _ ->]; simpl; auto.
    pose proof (add_rights_rights (w_quotas w) owner (r_next_id (w_ipc w)) (r_union (r_union R_SEND R_RECEIVE) R_GRANT)
      (with_endpoint owner (Z.of_N capacity) (w_ipc w)) t e b Hb) as Hadd.
    destruct (add_rights _ _ _ _ _) as [[[]| |] r2] eqn:Ha; simpl; rewrite Hadd; simpl; [|auto|auto].
    rewrite orb_true_iff. intros [Hx|Hx]; [|by left].
    apply andb_true_iff in Hx as [Hx _]. apply bool_decide_eq_true in Hx as [-> ->].
    right. left. by exists capacity.
  - revert Hr. destruct (grant_grants (w_quotas w) granter target endpoint rights (w_ipc w)) as [|o _ Hg ->]; simpl; auto.
    pose proof (add_rights_rights (w_quotas w) target endpoint (r_intersection rights (rights_of (w_ipc w) granter endpoint)) (w_ipc w) t e b Hb) as Hadd.
    destruct (add_rights _ _ _ _ (w_ipc w)) as [o r2]; simpl. rewrite Hadd, orb_true_iff. intros [Hx|Hx]; [|by left].
    apply andb_true_iff in Hx as [Hx Hbit]. apply andb_true_iff in Hx as [Hok Hx]. apply bool_decide_eq_true in Hx as [-> ->].
    destruct o as [[]| |]; [|done|done]. unfold r_intersection in Hbit. rewrite Z.land_spec, andb_true_iff in Hbit. destruct Hbit as [H1 H2].
    right. right. exists granter, rights. apply (contains_bit _ 2) in Hg; [|done]. auto.
  - left. revert Hr. unfold ipc_send. by destruct (deliver_delivers (w_users w) (Some sender) endpoint m (w_ipc w)).
  - left. revert Hr. unfold notify. by destruct (deliver_delivers (w_users w) None endpoint m (w_ipc w)).
  - left. revert Hr. by destruct (receive_takes receiver endpoint (w_ipc w)).
  - left. revert Hr. by destruct (try_receive_takes receiver endpoint (w_ipc w)).
  - left. revert Hr. unfold rights_of, capabilities_of, ipc_release. simpl.
    destruct (decide (thread = t)) as [->|Hne]; [by rewrite lookup_delete_eq; simpl; rewrite Z.bits_0|].
    by rewrite lookup_delete_ne.
Qed.

(** C10: authority has a provenance.  Whatever threads do, in any order, a right over an
    endpoint is held only by the thread that created the endpoint or by one that was
    given that right by a thread which held both it and the right to grant; a right
    nobody passed on cannot be had. *)
Theorem rights_have_provenance h w t e b : runs h w -> 0 <= b ->
  Z.testbit (rights_of (w_ipc w) t e) b = true -> obtained h t e b.
Proof.
  intros Hruns. revert t b. induction Hruns as [|h w c a w' Hruns IH Hex]; intros t b Hb Hr.
  { unfold rights_of, capabilities_of in Hr. simpl in Hr. rewrite lookup_empty in Hr. simpl in Hr. by rewrite Z.bits_0 in Hr. }
  destruct (exec_rights c w a w' t e b Hex Hb Hr) as [Hold|[(capacity & -> & ->)|(g & rights & -> & -> & H1 & H2 & H3)]].
  - auto with authority.
  - constructor.
  - constructor; [by apply IH|by apply IH|done].
Qed.


(** Running a list of operations, oldest first. *)
Fixpoint run_calls (cs : list call) (h : list (call * answer)) (w : world) : list (call * answer) * world :=
  match cs with
  | [] => (h, w)
  | c :: cs => run_calls cs ((c, fst (exec c w)) :: h) (snd (exec c w))
  end.

Lemma run_calls_runs cs h w : runs h w -> runs (fst (run_calls cs h w)) (snd (run_calls cs h w)).
Proof.
  revert h w. induction cs as [|c cs IH]; intros h w Hruns; [done|]. simpl. apply IH.
  eapply runs_step; [exact Hruns|apply surjective_pairing].
Qed.

Definition history (cs : list call) : list (call * answer) := fst (run_calls cs [] start).
Definition outcome (cs : list call) : world := snd (run_calls cs [] start).

Lemma history_runs cs : runs (history cs) (outcome cs).
Proof. apply run_calls_runs. constructor. Qed.

Definition a_grant : list call := [CCreate 1 4; CGrant 1 2 1 R_RECEIVE].

Lemma rights_have_provenance_witness :
  Z.testbit (rights_of (w_ipc (outcome a_grant)) 2 1) 1 = true /\ obtained (history a_grant) 2 1 1.
Proof.
  split; [reflexivity|].
  exact (rights_have_provenance (history a_grant) (outcome a_grant) 2 1 1 (history_runs a_grant) ltac:(lia) eq_refl).
Defined.

(** ** Bounds *)

Definition endpoint_ok (next : Z) (id : Z) (ep : Endpoint) : Prop :=
  0 < id < next /\ 1 <= ep_capacity ep <= MAX_CAPACITY /\ Z.of_nat (length (ep_queue ep)) <= ep_capacity ep /\
  NoDup (ep_waiting ep).

Record ipc_ok (r : Registry) : Prop := {
  io_endpoints : map_Forall (endpoint_ok (r_next_id r)) (r_endpoints r);
  io_next : 0 < r_next_id r <= U64_MAX;
  io_owned : forall t, endpoints_owned_by r t <= q_endpoints QUOTA_DEFAULT;
  io_held : forall t, Z.of_nat (length (capabilities_of r t)) <= q_capabilities QUOTA_DEFAULT;
}.

Lemma owned_insert r m id ep t : r_endpoints r !! id = None -> m = <[id := ep]> (r_endpoints r) ->
  Z.of_nat (size (filter (fun e => ep_owner (snd e) = t) m)) =
  endpoints_owned_by r t + (if decide (ep_owner ep = t) then 1 else 0).
Proof.
  intros Hn ->. unfold endpoints_owned_by. case_decide as Ho.
  - rewrite map_filter_insert_True by done. rewrite map_size_insert_None; [lia|]. rewrite map_lookup_filter, Hn. done.
  - rewrite map_filter_insert_False by done. rewrite delete_id by done. lia.
Qed.

(** Replacing an endpoint by one of the same owner changes nobody's count. *)
Lemma owned_update r id ep ep' t : r_endpoints r !! id = Some ep -> ep_owner ep' = ep_owner ep ->
  endpoints_owned_by (set_endpoints (<[id := ep']> (r_endpoints r)) r) t = endpoints_owned_by r t.
Proof.
  intros Hid Ho. unfold endpoints_owned_by. simpl. f_equal. destruct (decide (ep_owner ep = t)) as [Ht|Ht].
  - rewrite map_filter_insert_True by (simpl; congruence). apply map_size_insert_Some.
    exists ep. by apply map_lookup_filter_Some.
  - rewrite map_filter_insert_False by (simpl; congruence). rewrite map_filter_delete.
    rewrite delete_id; [done|]. rewrite map_lookup_filter, Hid. simpl. by rewrite option_guard_False.
Qed.

Lemma add_rights_held quotas t e rights r t' : within_default quotas ->
  Z.of_nat (length (capabilities_of r t')) <= q_capabilities QUOTA_DEFAULT ->
  Z.of_nat (length (capabilities_of (snd (add_rights quotas t e rights r)) t')) <= q_capabilities QUOTA_DEFAULT.
Proof.
  intros Hq Hl. pose proof (ql_capabilities _ _ (Hq t)) as Hle. unfold add_rights.
  destruct (find_capability e (capabilities_of r t)) as [v|] eqn:Hf; [|destruct (_ >=? _) eqn:Hfull]; simpl in *;
    rewrite capabilities_insert; destruct (decide (t' = t)) as [->|]; try done.
  - enough (length (widen_capability e rights (capabilities_of r t)) = length (capabilities_of r t)) by lia. clear.
    induction (capabilities_of r t) as [|[id v] l IH]; simpl; [done|]. destruct (id =? e); simpl; lia.
  - rewrite length_app. simpl. lia.
Qed.

Lemma add_rights_ok quotas t e rights r : within_default quotas -> ipc_ok r ->
  ipc_ok (snd (add_rights quotas t e rights r)).
Proof.
  intros Hq [H1 H2 H3 H4]. destruct (add_rights_endpoints quotas t e rights r) as [He Hn].
  split; unfold endpoints_owned_by; rewrite ?He, ?Hn; [done|done|exact H3|]. intros t'. by apply add_rights_held.
Qed.

Lemma update_ok r e ep ep' : ipc_ok r -> r_endpoints r !! e = Some ep -> ep_owner ep' = ep_owner ep ->
  (endpoint_ok (r_next_id r) e ep -> endpoint_ok (r_next_id r) e ep') ->
  ipc_ok (set_endpoints (<[e := ep']> (r_endpoints r)) r).
Proof.
  intros [H1 H2 H3 H4] He Ho Hok. split; simpl; [|done| |exact H4].
  - apply map_Forall_insert_2; [|done]. by apply Hok, H1.
  - intros t. by rewrite (owned_update _ _ ep).
Qed.

Lemma create_ok quotas owner capacity r : within_default quotas -> 0 <= capacity -> ipc_ok r ->
  ipc_ok (snd (ipc_create quotas owner capacity r)).
Proof.
  intros Hq Hcap Hr. destruct (create_creates quotas owner capacity r) as [| |o Hc1 Hc2 Hown Hid _]; [done|done|].
  apply add_rights_ok; [done|]. destruct Hr as [H1 H2 H3 H4].
  assert (r_endpoints r !! r_next_id r = None) as Hnew.
  { destruct (r_endpoints r !! r_next_id r) as [ep|] eqn:He; [|done]. apply H1 in He as [He _]. lia. }
  split; simpl; [|lia| |exact H4].
  - apply map_Forall_insert_2.
    + repeat split; simpl; try lia. constructor.
    + intros id ep Hep. destruct (H1 _ _ Hep) as [Hlt Hrest]. split; [lia|done].
  - intros t. unfold endpoints_owned_by. simpl. erewrite owned_insert by done. simpl.
    specialize (H3 t). pose proof (ql_endpoints _ _ (Hq owner)). simpl in *. case_decide; subst; lia.
Qed.

Lemma release_ok t r : ipc_ok r -> ipc_ok (ipc_release t r).
Proof.
  intros [H1 H2 H3 H4]. split; simpl; [|done| |].
  - intros id ep'. rewrite lookup_fmap, fmap_Some. intros (ep & Hep & ->). apply map_lookup_filter_Some in Hep as [Hep _].
    destruct (H1 _ _ Hep) as (Ha & Hb & Hc & Hd). refine (conj Ha (conj Hb (conj Hc _))). by apply list.NoDup_filter.
  - intros t'. etrans; [|apply (H3 t')]. unfold endpoints_owned_by. apply inj_le. simpl.
    rewrite <- !size_dom. apply subseteq_size. intros id. rewrite !elem_of_dom. intros [ep Hep].
    apply map_lookup_filter_Some in Hep as [Hep Ho]. rewrite lookup_fmap, fmap_Some in Hep. destruct Hep as (ep0 & Hep & ->).
    apply map_lookup_filter_Some in Hep as [Hep _]. exists ep0. by apply map_lookup_filter_Some.
  - intros t'. etrans; [|apply (H4 t')]. unfold capabilities_of. simpl. destruct (decide (t = t')) as [->|]; [|by rewrite lookup_delete_ne].
    rewrite lookup_delete_eq. simpl. lia.
Qed.

Lemma deliver_ok users sender e m r : ipc_ok r -> ipc_ok (snd (deliver users sender e m r)).
Proof.
  intros Hr. destruct (deliver_delivers users sender e m r) as [|ep He Hlen]; [done|].
  eapply update_ok; [done|done|done|]. intros (Ha & Hb & _ & Hnd). refine (conj Ha (conj Hb _)). simpl. rewrite length_app. simpl. split; [lia|].
  destruct (ep_waiting ep); [done|]. by inversion Hnd.
Qed.

Lemma takes_ok e r o r' : takes e r o r' -> ipc_ok r -> ipc_ok r'.
Proof.
  intros [|ep o' q w He Hq Hnone Hw] Hr; [done|]. eapply update_ok; [done|done|done|]. intros (Ha & Hb & Hlen & Hnd).
  rewrite Hq, length_app in Hlen. refine (conj Ha (conj Hb _)). simpl. split; [lia|auto].
Qed.

Lemma exec_ok c w : within_default (w_quotas w) -> ipc_ok (w_ipc w) ->
  within_default (w_quotas (snd (exec c w))) /\ ipc_ok (w_ipc (snd (exec c w))).
Proof.
  intros Hq Hr. split; destruct c; simpl; try done.
  - eapply quota_step_default; [constructor|done].
  - eapply quota_step_default; [constructor|done].
  - apply create_ok; [done|lia|done].
  - destruct (grant_grants (w_quotas w) granter target endpoint rights (w_ipc w)); [done|by apply add_rights_ok].
  - by apply deliver_ok.
  - by apply deliver_ok.
  - eapply takes_ok; [apply receive_takes|done].
  - eapply takes_ok; [apply try_receive_takes|done].
  - by apply release_ok.
Qed.

Lemma start_ok : within_default (w_quotas start) /\ ipc_ok (w_ipc start).
Proof.
  split; [intros t; reflexivity|]. split; simpl; [apply map_Forall_empty|done| |]; intros t.
  - unfold endpoints_owned_by. simpl. rewrite map_filter_empty, map_size_empty. done.
  - unfold capabilities_of. simpl. rewrite lookup_empty. done.
Qed.

Lemma runs_ok h w : runs h w -> within_default (w_quotas w) /\ ipc_ok (w_ipc w).
Proof.
  induction 1 as [|h w c a w' Hruns [Hq Hr] Hex]; [apply start_ok|].
  pose proof (exec_ok c w Hq Hr) as Hok. by rewrite Hex in Hok.
Qed.

(** the tables are bounded.  Whatever threads do, every endpoint's capacity is
    between 1 and 256 and its queue never exceeds it, no thread waits on an endpoint
    twice, no thread owns more than 32 endpoints or holds more than 128 capabilities,
    and no quota exceeds the default however it was granted. *)
Theorem ipc_bounded h w : runs h w ->
  map_Forall (fun _ ep => 1 <= ep_capacity ep <= 256 /\ Z.of_nat (length (ep_queue ep)) <= ep_capacity ep /\
                          NoDup (ep_waiting ep)) (r_endpoints (w_ipc w)) /\
  (forall t, endpoints_owned_by (w_ipc w) t <= 32) /\
  (forall t, Z.of_nat (length (capabilities_of (w_ipc w) t)) <= 128) /\
  (forall t, quota_le (quota_of (w_quotas w) t) QUOTA_DEFAULT).
Proof.
  intros Hruns. destruct (runs_ok h w Hruns) as [Hq [H1 _ H3 H4]]. split_and!; [|exact H3|exact H4|exact Hq].
  eapply map_Forall_impl; [exact H1|]. intros id ep (? & ? & ? & ?). done.
Qed.

Definition a_message : Message := {| m_tag := 7; m_words := [1; 2]; m_sender := 99; m_sender_user := 0 |}.

(** Thread 1 makes an endpoint, lets thread 2 send on it, and takes what 2 sends; what
    thread 3 tries is refused. *)
Definition a_talk : list call :=
  [CCreate 1 2; CGrant 1 2 1 R_SEND; CUser 2 5; CSend 2 1 a_message; CSend 3 1 a_message; CNotify 1 a_message;
   CReceive 1 1; CSend 2 1 a_message].

Lemma ipc_bounded_witness :
  ipc_queued (w_ipc (outcome a_talk)) 1 = 2 /\
  forall t, endpoints_owned_by (w_ipc (outcome a_talk)) t <= 32.
Proof.
  split; [reflexivity|]. exact (proj1 (proj2 (ipc_bounded (history a_talk) (outcome a_talk) (history_runs a_talk)))).
Defined.

(** ** First in, first out *)

(** Who everybody is after a history. *)
Fixpoint users_after (h : list (call * answer)) : gmap nat Z :=
  match h with
  | [] => ∅
  | (CUser thread user, _) :: h => assign_user thread user (users_after h)
  | (CExit thread, _) :: h => release_user thread (users_after h)
  | _ :: h => users_after h
  end.

(** A message as its receiver should see it: the sender's words, and who the sender
    really is. *)
Definition from_thread (users : gmap nat Z) (s : nat) (m : Message) : Message :=
  {| m_tag := m_tag m; m_words := m_words m; m_sender := Z.of_nat s; m_sender_user := user_of users s |}.
Definition from_kernel (m : Message) : Message :=
  {| m_tag := m_tag m; m_words := m_words m; m_sender := U64_MAX; m_sender_user := U64_MAX |}.

(** What an event put on endpoint [e], and what it took from it. *)
Definition sends (e : Z) (x : call * answer) (users : gmap nat Z) : list Message :=
  match x with
  | (CSend s e' m, ASent _) => if e' =? e then [from_thread users s m] else []
  | (CNotify e' m, ASent _) => if e' =? e then [from_kernel m] else []
  | _ => []
  end.
Definition gets (e : Z) (x : call * answer) : list Message :=
  match x with
  | (CReceive _ e', AGot (Some m)) | (CTryReceive _ e', AGot (Some m)) => if e' =? e then [m] else []
  | _ => []
  end.

Fixpoint sent (e : Z) (h : list (call * answer)) : list Message :=
  match h with [] => [] | x :: h => sent e h ++ sends e x (users_after h) end.
Fixpoint received (e : Z) (h : list (call * answer)) : list Message :=
  match h with [] => [] | x :: h => received e h ++ gets e x end.

Lemma runs_users h w : runs h w -> w_users w = users_after h.
Proof.
  induction 1 as [|h w c a w' Hruns IH Hex]; [done|].
  destruct c; simpl in Hex; injection Hex as <- <-; simpl; by rewrite ?IH.
Qed.

(** One operation, seen from one endpoint. *)
Inductive passes (e : Z) (w w' : world) (put_in taken_out : list Message) : Prop :=
| passes_live ep ep' :
    r_endpoints (w_ipc w) !! e = Some ep -> r_endpoints (w_ipc w') !! e = Some ep' ->
    ep_queue ep ++ put_in = taken_out ++ ep_queue ep' -> passes e w w' put_in taken_out
| passes_gone :
    r_endpoints (w_ipc w') !! e = None -> put_in = [] -> taken_out = [] -> passes e w w' put_in taken_out
| passes_made ep' :
    e = r_next_id (w_ipc w) -> r_endpoints (w_ipc w') !! e = Some ep' -> ep_queue ep' = [] ->
    put_in = [] -> taken_out = [] -> passes e w w' put_in taken_out.

Lemma passes_same e w w' : r_endpoints (w_ipc w') !! e = r_endpoints (w_ipc w) !! e -> passes e w w' [] [].
Proof.
  intros Heq. destruct (r_endpoints (w_ipc w) !! e) as [ep|] eqn:He.
  - eapply passes_live; [done|done|apply app_nil_r].
  - by apply passes_gone.
Qed.

Lemma passes_update e e' ep ep' w w' put_in taken_out :
  r_endpoints (w_ipc w) !! e' = Some ep -> r_endpoints (w_ipc w') = <[e' := ep']> (r_endpoints (w_ipc w)) ->
  ep_queue ep ++ put_in = taken_out ++ ep_queue ep' ->
  passes e w w' (if e' =? e then put_in else []) (if e' =? e then taken_out else []).
Proof.
  intros He Hw' Hq. destruct (e' =? e) eqn:Hee.
  - apply Z.eqb_eq in Hee as ->. eapply passes_live; [exact He| |exact Hq]. by rewrite Hw', lookup_insert_eq.
  - apply Z.eqb_neq in Hee. apply passes_same. by rewrite Hw', lookup_insert_ne.
Qed.

Lemma takes_passes e e' w w' o : takes e' (w_ipc w) o (w_ipc w') ->
  passes e w w' [] (if e' =? e then taken o else []).
Proof.
  intros Ht. inversion Ht as [err Ho Hw|ep o' q wt He Hq Hnone _ Ho Hw].
  - replace (if e' =? e then taken (Err err) else []) with (@nil Message) by by destruct (e' =? e).
    apply passes_same. by rewrite Hw.
  - pose proof (passes_update e e' ep (set_queue q wt ep) w w' [] (taken (Ok o')) He ltac:(by rewrite <- Hw)) as Hp.
    assert ((if e' =? e then @nil Message else []) = []) as Hnil by by destruct (e' =? e).
    rewrite Hnil in Hp. apply Hp. rewrite app_nil_r. exact Hq.
Qed.

Lemma delivers_passes e e' m w w' o : delivers e' m (w_ipc w) o (w_ipc w') ->
  passes e w w' (if is_ok o && (e' =? e) then [m] else []) [].
Proof.
  intros Hd. inversion Hd as [err Ho Hw|ep He Hlen Ho Hw]; simpl.
  - apply passes_same. by rewrite Hw.
  - pose proof (passes_update e e' ep _ w w' [m] [] He ltac:(by rewrite <- Hw)) as Hp.
    assert ((if e' =? e then @nil Message else []) = []) as Hnil by by destruct (e' =? e).
    rewrite Hnil in Hp. by apply Hp.
Qed.

Lemma exec_passes e c w a w' : exec c w = (a, w') ->
  passes e w w' (sends e (c, a) (w_users w)) (gets e (c, a)).
Proof.
  intros Hex. destruct c; simpl in Hex; injection Hex as <- <-; try by apply passes_same.
  - destruct (create_creates (w_quotas w) owner (Z.of_N capacity) (w_ipc w)) as [| |o _ _ _ _ _]; try by apply passes_same.
    destruct (add_rights_endpoints (w_quotas w) owner (r_next_id (w_ipc w)) (r_union (r_union R_SEND R_RECEIVE) R_GRANT)
      (with_endpoint owner (Z.of_N capacity) (w_ipc w))) as [He _].
    destruct (decide (e = r_next_id (w_ipc w))) as [->|Hne].
    + eapply passes_made; [done|simpl; rewrite He; apply lookup_insert_eq|done|done|done].
    + apply passes_same. simpl. rewrite He. by apply lookup_insert_ne.
  - destruct (grant_grants (w_quotas w) granter target endpoint rights (w_ipc w)); apply passes_same; simpl; [done|].
    by rewrite (proj1 (add_rights_endpoints _ _ _ _ _)).
  - pose proof (deliver_delivers (w_users w) (Some sender) endpoint m (w_ipc w)) as Hd.
    apply (delivers_passes e endpoint _ w (snd (in_ipc ASent (ipc_send (w_users w) sender endpoint m) w))) in Hd.
    revert Hd. unfold in_ipc, ipc_send. by destruct (deliver _ _ _ _ _) as [[| |] r'].
  - pose proof (deliver_delivers (w_users w) None endpoint m (w_ipc w)) as Hd.
    apply (delivers_passes e endpoint _ w (snd (in_ipc ASent (notify (w_users w) endpoint m) w))) in Hd.
    revert Hd. unfold in_ipc, notify. by destruct (deliver _ _ _ _ _) as [[| |] r'].
  - pose proof (receive_takes receiver endpoint (w_ipc w)) as Ht.
    apply (takes_passes e endpoint w (snd (in_ipc AGot (receive_once receiver endpoint) w))) in Ht.
    revert Ht. unfold in_ipc. destruct (receive_once _ _ _) as [[[m|]| |] r']; simpl; by destruct (endpoint =? e).
  - pose proof (try_receive_takes receiver endpoint (w_ipc w)) as Ht.
    apply (takes_passes e endpoint w (snd (in_ipc AGot (try_receive receiver endpoint) w))) in Ht.
    revert Ht. unfold in_ipc. destruct (try_receive _ _ _) as [[[m|]| |] r']; simpl; by destruct (endpoint =? e).
  - simpl. destruct (r_endpoints (w_ipc w) !! e) as [ep|] eqn:He; [destruct (decide (ep_owner ep = thread)) as [Ho|Ho]|].
    + apply passes_gone; [|done|done]. simpl. rewrite lookup_fmap, map_lookup_filter, He. simpl. by rewrite option_guard_False by naive_solver.
    + eapply (passes_live _ _ _ _ _ ep (forget_waiter thread ep)); [done| |simpl; by rewrite app_nil_r].
      simpl. rewrite lookup_fmap, map_lookup_filter, He. simpl. by rewrite option_guard_True by naive_solver.
    + apply passes_gone; [|done|done]. simpl. by rewrite lookup_fmap, map_lookup_filter, He.
Qed.

Lemma exec_next c w : r_next_id (w_ipc w) <= r_next_id (w_ipc (snd (exec c w))).
Proof.
  destruct c; simpl; try done.
  - destruct (create_creates (w_quotas w) owner (Z.of_N capacity) (w_ipc w)); try done.
    rewrite (proj2 (add_rights_endpoints _ _ _ _ _)). simpl. lia.
  - destruct (grant_grants (w_quotas w) granter target endpoint rights (w_ipc w)); [done|].
    by rewrite (proj2 (add_rights_endpoints _ _ _ _ _)).
  - unfold ipc_send. by destruct (deliver_delivers (w_users w) (Some sender) endpoint m (w_ipc w)).
  - unfold notify. by destruct (deliver_delivers (w_users w) None endpoint m (w_ipc w)).
  - by destruct (receive_takes receiver endpoint (w_ipc w)).
  - by destruct (try_receive_takes receiver endpoint (w_ipc w)).
Qed.

(** A name not handed out yet was never used. *)
Lemma runs_fresh h w e : runs h w -> r_next_id (w_ipc w) <= e -> sent e h = [] /\ received e h = [].
Proof.
  intros Hruns. induction Hruns as [|h w c a w' Hruns IH Hex]; [done|]. intros Hfresh. cbn [sent received]. rewrite <- (runs_users _ _ Hruns).
  destruct (runs_ok _ _ (runs_step _ _ _ _ _ Hruns Hex)) as [_ [H1 _ _ _]].
  pose proof (exec_next c w) as Hnext. rewrite Hex in Hnext. simpl in Hnext.
  destruct (exec_passes e c w a w' Hex) as [ep ep' He He' Hq|He' -> ->|ep' Hid He' Hq -> ->].
  - destruct (H1 _ _ He') as [Hlt _]. lia.
  - destruct IH as [-> ->]; [lia|done].
  - destruct (H1 _ _ He') as [Hlt _]. lia.
Qed.

(** C11: an endpoint is a queue.  Whatever threads do, in any order: what has been taken
    from an endpoint is exactly what was put on it, oldest first, each message once, with
    the sender and the sender's user the kernel stamped on it whatever the message
    claimed; while the endpoint exists, what has not been taken is still queued. *)
Theorem endpoint_fifo h w e : runs h w ->
  exists rest, sent e h = received e h ++ rest /\
    forall ep, r_endpoints (w_ipc w) !! e = Some ep -> ep_queue ep = rest.
Proof.
  intros Hruns. induction Hruns as [|h w c a w' Hruns (rest & Hsent & Hlive) Hex].
  { exists []. split; [done|]. intros ep Hep. simpl in Hep. by rewrite lookup_empty in Hep. }
  cbn [sent received]. rewrite <- (runs_users _ _ Hruns).
  destruct (exec_passes e c w a w' Hex) as [ep ep' He He' Hq|He' -> ->|ep' Hid He' Hq -> ->].
  - exists (ep_queue ep'). apply Hlive in He as <-. rewrite Hsent, <- !app_assoc, Hq. split; [done|]. congruence.
  - exists rest. rewrite !app_nil_r. split; [done|]. congruence.
  - exists []. rewrite !app_nil_r. destruct (runs_fresh h w e Hruns) as [-> ->]; [lia|]. split; [done|]. congruence.
Qed.

Lemma endpoint_fifo_witness :
  length (received 1 (history a_talk)) = 1%nat /\
  exists rest, sent 1 (history a_talk) = received 1 (history a_talk) ++ rest /\
    forall ep, r_endpoints (w_ipc (outcome a_talk)) !! 1 = Some ep -> ep_queue ep = rest.
Proof.
  split; [reflexivity|]. exact (endpoint_fifo (history a_talk) (outcome a_talk) 1 (history_runs a_talk)).
Defined.
