(* ===== verification/IpcWait.v ===== *)
(** * Blocking receives (kernel/src/ipc.rs, [receive] over kernel/src/sched/mod.rs,
    [block_current] and [unblock])

    A receive is a loop of two critical sections with a gap between them: look at the
    queue and, finding nothing, register as waiting; then park.  A sender takes a waiter
    off the list in one critical section and wakes it in another.  Here the sections of
    all threads interleave freely, and no message is left beside a sleeping receiver. *)

From stdpp Require Import base list gmap numbers.
From Stdlib Require Import Lia.
From S2P Require Import Prelude Quota Ipc IpcTheorems Sched.

(** ** A thread's view of parking *)

(** What parking and waking look at: whether the thread is blocked, and whether a wake
    it has not seen is recorded. *)
Definition sleep_of (th : Thread) : bool * bool := (bool_decide (state th = Blocked), wake_pending th).
Definition wakes (x : bool * bool) : bool * bool := if fst x then (false, snd x) else (false, true).
Definition parks (x : bool * bool) : bool * bool := if snd x then (fst x, false) else (true, false).

Lemma unblock_sleep_of c t s th : lookup_thread t s = Some th -> state th <> Finished ->
  exists th', lookup_thread t (unblock c t s) = Some th' /\ sleep_of th' = wakes (sleep_of th).
Proof.
  intros Hl Hf. unfold unblock. rewrite Hl. unfold lookup_thread in *.
  destruct (threads s !! t) as [th0|] eqn:Hth; [|done]. destruct (listed th0) eqn:Hli; [|done]. simplify_eq.
  unfold sleep_of, wakes. simpl. destruct (decide (state th = Blocked)) as [Hb|Hb].
  - rewrite (bool_decide_true (state th = Blocked)) by done.
    destruct (on_cpu th); simpl; rewrite ?list_lookup_alter_eq, Hth; simpl; rewrite Hli; eauto.
  - rewrite !(bool_decide_false (state th = _)) by done. simpl. rewrite list_lookup_alter_eq, Hth. simpl. rewrite Hli.
    eexists. split; [done|]. simpl. by rewrite bool_decide_false.
Qed.

Lemma park_sleep_of c t s th : current (cpus s c) = Some t -> threads s !! t = Some th -> state th <> Blocked ->
  exists th', threads (snd (park c s)) !! t = Some th' /\ sleep_of th' = parks (sleep_of th) /\
    fst (park c s) = fst (sleep_of th').
Proof.
  intros Hc Hth Hb. unfold park, sleep_of, parks. rewrite Hc, Hth. simpl.
  destruct (wake_pending th) eqn:Hw; simpl; rewrite list_lookup_alter_eq, Hth; eexists; (split; [done|]); simpl.
  - by rewrite bool_decide_false.
  - by rewrite Hw.
Qed.

(** ** The interleaving *)

(** Where a thread inside [receive] is; a thread in no map is outside it. *)
Inductive Pos : Type :=
| Checking (e : Z)   (** about to look at the queue, at the top of the loop *)
| Parking (e : Z)    (** registered as waiting, and not parked yet *)
| Parked (e : Z).    (** blocked *)

#[global] Instance Pos_eq_dec : EqDecision Pos.
Proof. solve_decision. Defined.

Record system : Type := {
  sw : world;
  pos : gmap nat Pos;
  pend : gset nat;        (** threads with a wake recorded *)
  inflight : list nat;    (** threads taken off a list and not woken yet *)
}.

Definition sys_start : system := {| sw := start; pos := ∅; pend := ∅; inflight := [] |}.

Inductive event : Type :=
| ECall (c : call)             (** a whole operation by a thread outside [receive] *)
| EEnter (t : nat) (e : Z)     (** a call of [receive] *)
| ECheck (t : nat)             (** its first critical section *)
| EBlock (t : nat)             (** its [block_current] *)
| EWake (i : nat)              (** the [unblock] of some delivery that owes it *)
| ESpurious (t : nat).         (** an [unblock] by something else *)

Definition caller (c : call) : option nat :=
  match c with
  | CCreate t _ | CGrant t _ _ _ | CSend t _ _ | CReceive t _ | CTryReceive t _ | CExit t => Some t
  | CNotify _ _ | CQuota _ _ _ | CUser _ _ => None
  end.

Definition is_receive (c : call) : bool := match c with CReceive _ _ => true | _ => false end.

Definition owed (a : answer) : list nat := match a with ASent (Some t) => [t] | _ => [] end.

(** [unblock], on a thread inside [receive] and on any other. *)
Definition unblocks (t : nat) (st : system) : system :=
  match pos st !! t with
  | Some (Parked e) => {| sw := sw st; pos := <[t := Checking e]> (pos st); pend := pend st; inflight := inflight st |}
  | _ => {| sw := sw st; pos := pos st; pend := {[t]} ∪ pend st; inflight := inflight st |}
  end.

Definition outside (c : call) (st : system) : bool :=
  match caller c with Some t => bool_decide (pos st !! t = None) | None => true end.

Definition sys_step (ev : event) (st : system) : option system :=
  match ev with
  | ECall c =>
      if is_receive c then None
      else if outside c st
      then let '(a, w) := exec c (sw st) in
           Some {| sw := w; pos := pos st; pend := pend st; inflight := inflight st ++ owed a |}
      else None
  | EEnter t e =>
      match pos st !! t with
      | None => Some {| sw := sw st; pos := <[t := Checking e]> (pos st); pend := pend st; inflight := inflight st |}
      | Some _ => None
      end
  | ECheck t =>
      match pos st !! t with
      | Some (Checking e) =>
          let '(a, w) := exec (CReceive t e) (sw st) in
          Some {| sw := w; pos := match a with AGot None => <[t := Parking e]> (pos st) | _ => delete t (pos st) end;
                  pend := pend st; inflight := inflight st |}
      | _ => None
      end
  | EBlock t =>
      match pos st !! t with
      | Some (Parking e) =>
          Some (if bool_decide (t ∈ pend st)
                then {| sw := sw st; pos := <[t := Checking e]> (pos st); pend := pend st ∖ {[t]}; inflight := inflight st |}
                else {| sw := sw st; pos := <[t := Parked e]> (pos st); pend := pend st; inflight := inflight st |})
      | _ => None
      end
  | EWake i =>
      match inflight st !! i with
      | Some t =>
          Some (unblocks t {| sw := sw st; pos := pos st; pend := pend st; inflight := delete i (inflight st) |})
      | None => None
      end
  | ESpurious t => Some (unblocks t st)
  end.

Fixpoint sys_run (evs : list event) (st : system) : option system :=
  match evs with
  | [] => Some st
  | ev :: evs => match sys_step ev st with Some st' => sys_run evs st' | None => None end
  end.

Definition spurious (ev : event) : bool := match ev with ESpurious _ => true | _ => false end.

(** ** The invariant *)

Definition may_receive (w : world) (t : nat) (e : Z) : bool := Z.testbit (rights_of (w_ipc w) t e) 1.

(** Thread [t] is on its way to look at the queue of [e]. *)
Definition comes (st : system) (e : Z) (t : nat) (p : Pos) : Prop :=
  (p = Checking e /\ may_receive (sw st) t e = true) \/
  ((p = Parking e \/ p = Parked e) /\ (t ∈ inflight st \/ t ∈ pend st)).

#[global] Instance comes_dec st e t p : Decision (comes st e t p).
Proof. unfold comes. apply _. Defined.

Definition coming (st : system) (e : Z) : gset nat :=
  dom (filter (fun x => comes st e (fst x) (snd x)) (pos st)).

Definition in_wait (st : system) (t : nat) (e : Z) : Prop :=
  pos st !! t = Some (Parking e) \/ pos st !! t = Some (Parked e).

Record wait_inv (st : system) : Prop := {
  wi_world : exists h, runs h (sw st);
  wi_waiting : forall e ep t, r_endpoints (w_ipc (sw st)) !! e = Some ep -> t ∈ ep_waiting ep ->
    in_wait st t e /\ t ∉ inflight st /\ t ∉ pend st;
  wi_inflight : forall t, t ∈ inflight st -> (exists e, in_wait st t e) /\ t ∉ pend st;
  wi_once : NoDup (inflight st);
  wi_pend : forall t, t ∈ pend st -> exists e, pos st !! t = Some (Parking e);
  wi_parked : forall t e, in_wait st t e ->
    may_receive (sw st) t e = true /\ e < r_next_id (w_ipc (sw st)) /\
    forall ep, r_endpoints (w_ipc (sw st)) !! e = Some ep -> t ∈ ep_waiting ep \/ t ∈ inflight st \/ t ∈ pend st;
  wi_enough : forall e ep, r_endpoints (w_ipc (sw st)) !! e = Some ep -> ep_waiting ep <> [] ->
    (length (ep_queue ep) <= size (coming st e))%nat;
}.

Lemma elem_of_coming st e t : t ∈ coming st e <-> exists p, pos st !! t = Some p /\ comes st e t p.
Proof.
  unfold coming. rewrite elem_of_dom. unfold is_Some. setoid_rewrite map_lookup_filter_Some. simpl. done.
Qed.

Lemma coming_mono st st' e : (forall t, t ∈ coming st e -> t ∈ coming st' e) ->
  (size (coming st e) <= size (coming st' e))%nat.
Proof. intros H. by apply subseteq_size. Qed.

Lemma coming_loses t st st' e : (forall t', t' <> t -> t' ∈ coming st e -> t' ∈ coming st' e) ->
  (size (coming st e) <= S (size (coming st' e)))%nat.
Proof.
  intros H. assert (coming st e ⊆ {[t]} ∪ coming st' e) as Hs%subseteq_size.
  { intros t' Ht'. destruct (decide (t' = t)); set_solver. }
  pose proof (size_union_alt {[t]} (coming st' e)) as Hu. rewrite size_singleton in Hu.
  pose proof (subseteq_size (coming st' e ∖ {[t]}) (coming st' e) ltac:(set_solver)). lia.
Qed.

Lemma coming_gains t st st' e : (forall t', t' ∈ coming st e -> t' ∈ coming st' e) ->
  t ∉ coming st e -> t ∈ coming st' e -> (S (size (coming st e)) <= size (coming st' e))%nat.
Proof.
  intros H Hn Ht. assert ({[t]} ∪ coming st e ⊆ coming st' e) as Hs%subseteq_size by set_solver.
  rewrite size_union in Hs by set_solver. rewrite size_singleton in Hs. lia.
Qed.

(** Moving one thread. *)
Definition move (t : nat) (p : Pos) (st : system) : system :=
  {| sw := sw st; pos := <[t := p]> (pos st); pend := pend st; inflight := inflight st |}.

Lemma in_wait_move t p st t' e :
  in_wait (move t p st) t' e <-> if decide (t' = t) then p = Parking e \/ p = Parked e else in_wait st t' e.
Proof.
  unfold in_wait. simpl. case_decide as Ht; subst; [rewrite !lookup_insert_eq|by rewrite !lookup_insert_ne].
  split; intros [H|H]; simplify_eq; auto.
Qed.

Lemma in_wait_unique st t e e' : in_wait st t e -> in_wait st t e' -> e = e'.
Proof. unfold in_wait. intros [|] [|]; congruence. Qed.

Lemma enter_inv t e st : pos st !! t = None -> wait_inv st -> wait_inv (move t (Checking e) st).
Proof.
  intros Hp [Hw Hwait Hin Honce Hpend Hpark Hen].
  assert (forall e', ~ in_wait st t e') as Hout by (unfold in_wait; naive_solver congruence).
  split; simpl; [done| | |done| | |].
  - intros e' ep t' He' Ht'. rewrite in_wait_move. destruct (Hwait _ _ _ He' Ht') as (H1 & H2).
    case_decide; subst; [by destruct (Hout e')|done].
  - intros t' Ht'. destruct (Hin t' Ht') as [(e' & H1) H2]. split; [|done]. exists e'. rewrite in_wait_move.
    case_decide; subst; [by destruct (Hout e')|done].
  - intros t' Ht'. destruct (Hpend _ Ht') as (e' & H1). exists e'. rewrite lookup_insert_ne; [done|]. congruence.
  - intros t' e'. rewrite in_wait_move. case_decide as Ht; [naive_solver congruence|]. apply Hpark.
  - intros e' ep He' Hne. etrans; [by apply Hen|]. apply coming_mono. intros t'. rewrite !elem_of_coming.
    intros (p & Hpos & Hc). exists p. simpl. rewrite lookup_insert_ne; [done|congruence].
Qed.

(** Parking, with no wake recorded. *)
Lemma block_inv t e st : pos st !! t = Some (Parking e) -> t ∉ pend st -> wait_inv st -> wait_inv (move t (Parked e) st).
Proof.
  intros Hp Hnp [Hw Hwait Hin Honce Hpend Hpark Hen].
  assert (forall t' e', in_wait (move t (Parked e) st) t' e' <-> in_wait st t' e') as Hiff.
  { intros t' e'. rewrite in_wait_move. case_decide as Ht; subst; [|done]. unfold in_wait. rewrite Hp. naive_solver congruence. }
  split; simpl; [done| | |done| | |].
  - intros e' ep t' He' Ht'. rewrite Hiff. eauto.
  - intros t' Ht'. setoid_rewrite Hiff. auto.
  - intros t' Ht'. destruct (Hpend _ Ht') as (e' & H1). exists e'. rewrite lookup_insert_ne; [done|]. intros ->. done.
  - intros t' e'. rewrite Hiff. apply Hpark.
  - intros e' ep He' Hne. etrans; [by apply Hen|]. apply coming_mono. intros t'. rewrite !elem_of_coming.
    intros (p & Hpos & Hc). simpl. destruct (decide (t' = t)) as [->|]; [|rewrite lookup_insert_ne by done; eauto].
    rewrite Hp in Hpos. simplify_eq. rewrite lookup_insert_eq. exists (Parked e). split; [done|].
    destruct Hc as [[Hc _]|[Hc Hi]]; [done|]. right. split; [|done]. naive_solver congruence.
Qed.

(** Going round with the wake that was recorded, or being woken: the thread owed a wake
    becomes one that is looking. *)
Lemma collect_inv t e st pend' inflight' :
  in_wait st t e -> t ∈ inflight st \/ t ∈ pend st ->
  (forall x, x <> t -> x ∈ pend' <-> x ∈ pend st) -> (forall x, x <> t -> x ∈ inflight' <-> x ∈ inflight st) ->
  t ∉ pend' -> t ∉ inflight' -> NoDup inflight' -> wait_inv st ->
  wait_inv {| sw := sw st; pos := <[t := Checking e]> (pos st); pend := pend'; inflight := inflight' |}.
Proof.
  intros Hiw Howed Hp' Hi' Hnp Hni Hnd [Hw Hwait Hin Honce Hpend Hpark Hen]. set (st' := {| sw := _ |}).
  assert (forall t' e', in_wait st' t' e' <-> t' <> t /\ in_wait st t' e') as Hiff.
  { intros t' e'. pose proof (in_wait_move t (Checking e) st t' e') as Hm. unfold in_wait in *. simpl in *. rewrite Hm.
    case_decide; naive_solver congruence. }
  split; simpl; [done| | |done| | |].
  - intros e' ep t' He' Ht'. rewrite Hiff. destruct (Hwait _ _ _ He' Ht') as (H1 & H2 & H3).
    assert (t' <> t) as Hne by naive_solver. rewrite (Hp' _ Hne), (Hi' _ Hne). done.
  - intros t' Ht'. assert (t' <> t) as Hne by congruence. rewrite (Hp' _ Hne). setoid_rewrite Hiff.
    apply (Hi' _ Hne), Hin in Ht'. naive_solver.
  - intros t' Ht'. assert (t' <> t) as Hne by congruence. rewrite lookup_insert_ne by done. by apply Hpend, (Hp' _ Hne).
  - intros t' e'. rewrite Hiff. intros [Hne Hiw']. destruct (Hpark _ _ Hiw') as (H1 & H2 & H3).
    split_and!; [done|done|]. intros ep He'. rewrite (Hp' _ Hne), (Hi' _ Hne). by apply H3.
  - intros e' ep He' Hne. etrans; [by apply Hen|]. apply coming_mono. intros t'. rewrite !elem_of_coming.
    intros (p & Hpos & Hc). unfold comes in *. simpl. destruct (decide (t' = t)) as [->|Ht].
    + rewrite lookup_insert_eq. eexists. split; [done|]. left. assert (in_wait st t e') as Hiw'.
      { unfold in_wait in *. naive_solver congruence. }
      pose proof (in_wait_unique _ _ _ _ Hiw' Hiw) as ->. split; [done|]. by apply Hpark.
    + rewrite lookup_insert_ne by done. exists p. split; [done|]. rewrite (Hp' _ Ht), (Hi' _ Ht). done.
Qed.

Lemma wake_inv i t st : inflight st !! i = Some t -> wait_inv st ->
  wait_inv (unblocks t {| sw := sw st; pos := pos st; pend := pend st; inflight := delete i (inflight st) |}).
Proof.
  intros Hi Hst. pose proof (wi_once _ Hst) as Hnd.
  assert (t ∈ inflight st) as Ht by by eapply list_elem_of_lookup_2.
  assert (inflight st ≡ₚ t :: delete i (inflight st)) as Hperm by by apply delete_Permutation.
  assert (forall x, x ∈ inflight st <-> x = t \/ x ∈ delete i (inflight st)) as Hmem.
  { intros x. rewrite <- elem_of_cons. split; intros Hx; [by rewrite <- Hperm|by rewrite Hperm]. }
  assert (NoDup (t :: delete i (inflight st))) as Hnd' by by rewrite <- Hperm.
  apply list.NoDup_cons in Hnd' as [Hni Hnd'].
  destruct (wi_inflight _ Hst t Ht) as [(e & Hiw) Hnp]. unfold unblocks. simpl.
  destruct Hiw as [Hp|Hp]; rewrite Hp.
  - assert (forall x, x ∈ {[t]} ∪ pend st <-> x = t \/ x ∈ pend st) as Hmem' by (intros x; set_solver).
    destruct Hst as [Hw Hwait Hin Honce Hpend Hpark Hen]. split; simpl; [done| | |done| | |].
    + intros e' ep t' He' Ht'. destruct (Hwait _ _ _ He' Ht') as (H1 & H2 & H3). split; [done|].
      rewrite Hmem in H2. rewrite Hmem'. tauto.
    + intros t' Ht'. destruct (Hin t' ltac:(by apply Hmem; right)) as [H2 H3]. split; [done|].
      rewrite Hmem'. intros [->|]; done.
    + intros t'. rewrite Hmem'. intros [->|Ht']; [by exists e|by apply Hpend].
    + intros t' e' Hiw'. destruct (Hpark t' e' Hiw') as (H1 & H2 & H3). split_and!; [done|done|]. intros ep He'.
      specialize (H3 ep He'). rewrite Hmem in H3. rewrite Hmem'. tauto.
    + intros e' ep He' Hne. etrans; [by apply Hen|]. apply coming_mono. intros t'. rewrite !elem_of_coming.
      intros (p & Hpos & Hc). exists p. split; [done|]. unfold comes in *. simpl. rewrite Hmem in Hc. rewrite Hmem'. tauto.
  - eapply (collect_inv t e st); [by right|by left|done| |done|done|done|done].
    intros x Hx. rewrite Hmem. tauto.
Qed.

Lemma block_step_inv t e st : pos st !! t = Some (Parking e) -> wait_inv st ->
  wait_inv (if bool_decide (t ∈ pend st)
            then {| sw := sw st; pos := <[t := Checking e]> (pos st); pend := pend st ∖ {[t]}; inflight := inflight st |}
            else move t (Parked e) st).
Proof.
  intros Hp Hst. case_bool_decide as Ht; [|by apply block_inv].
  eapply (collect_inv t e st); [by left|by right|set_solver|done|set_solver| |apply Hst|done].
  intros Hi. by apply (wi_inflight _ Hst) in Hi as [_ ?].
Qed.

(** An operation that wakes nobody: rights of those inside [receive] are kept, lists of
    waiters stay as they are and queues do not grow. *)
Lemma quiet_inv st w' : wait_inv st -> (exists h, runs h w') ->
  (forall t e, is_Some (pos st !! t) -> may_receive (sw st) t e = true -> may_receive w' t e = true) ->
  r_next_id (w_ipc (sw st)) <= r_next_id (w_ipc w') ->
  (forall e ep', r_endpoints (w_ipc w') !! e = Some ep' ->
     (ep_waiting ep' = [] /\ r_next_id (w_ipc (sw st)) <= e) \/
     exists ep, r_endpoints (w_ipc (sw st)) !! e = Some ep /\ ep_waiting ep' = ep_waiting ep /\
       (ep_waiting ep <> [] -> (length (ep_queue ep') <= length (ep_queue ep))%nat)) ->
  wait_inv {| sw := w'; pos := pos st; pend := pend st; inflight := inflight st |}.
Proof.
  intros [Hw Hwait Hin Honce Hpend Hpark Hen] Hruns Hmay Hnext Heps. split; simpl; try done.
  - intros e ep' t He Ht. destruct (Heps e ep' He) as [[Hnil _]|(ep & He0 & Hsame & _)]; [rewrite Hnil in Ht; by apply elem_of_nil in Ht|].
    rewrite Hsame in Ht. by apply (Hwait e ep).
  - intros t e Hiw. destruct (Hpark t e Hiw) as (H1 & H2 & H3). split_and!; [|lia|].
    + apply Hmay; [|done]. destruct Hiw as [Hp|Hp]; simpl in Hp; rewrite Hp; eauto.
    + intros ep' He. destruct (Heps e ep' He) as [[_ Hge]|(ep & He0 & Hsame & _)]; [lia|]. rewrite Hsame. by apply H3.
  - intros e ep' He Hne. destruct (Heps e ep' He) as [[Hnil _]|(ep & He0 & Hsame & Hlen)]; [done|].
    rewrite Hsame in Hne. specialize (Hlen Hne). etrans; [exact Hlen|]. etrans; [by apply Hen|]. apply coming_mono.
    intros t. rewrite !elem_of_coming. intros (p & Hp & Hc). exists p. split; [done|]. unfold comes in *. simpl in *.
    destruct Hc as [[-> Hm]|Hc]; [|by right]. left. split; [done|]. apply Hmay; [by rewrite Hp|done].
Qed.

(** A delivery: the longest waiter is owed a wake, and is on its way. *)
Lemma deliver_inv e m st ep w' :
  wait_inv st -> (exists h, runs h w') ->
  r_endpoints (w_ipc (sw st)) !! e = Some ep ->
  w_ipc w' = set_endpoints (<[e := set_queue (ep_queue ep ++ [m]) (tail (ep_waiting ep)) ep]>
    (r_endpoints (w_ipc (sw st)))) (w_ipc (sw st)) ->
  wait_inv {| sw := w'; pos := pos st; pend := pend st; inflight := inflight st ++ owed (ASent (head (ep_waiting ep))) |}.
Proof.
  intros Hst Hruns He Hw'.
  assert (forall t e, may_receive w' t e = may_receive (sw st) t e) as Hmay by (intros; unfold may_receive; by rewrite Hw').
  assert (forall e' ep', r_endpoints (w_ipc w') !! e' = Some ep' ->
    if decide (e' = e) then ep' = set_queue (ep_queue ep ++ [m]) (tail (ep_waiting ep)) ep
    else r_endpoints (w_ipc (sw st)) !! e' = Some ep') as Heps.
  { intros e' ep'. rewrite Hw'. simpl. case_decide as Hee; subst; [rewrite lookup_insert_eq|by rewrite lookup_insert_ne].
    congruence. }
  destruct (ep_waiting ep) as [|t ws] eqn:Hwt.
  { simpl. rewrite app_nil_r. apply quiet_inv; [done|done|intros; by rewrite Hmay|by rewrite Hw'|].
    intros e' ep' He'. apply Heps in He'. right. case_decide; subst; [exists ep|exists ep']; simpl; rewrite ?Hwt; done. }
  destruct Hst as [Hw Hwait Hin Honce Hpend Hpark Hen].
  destruct (Hwait e ep t He ltac:(rewrite Hwt; left)) as (Htw & Hti & Htp).
  destruct Hw as [h0 Hh0]. destruct (runs_ok _ _ Hh0) as [_ Hok].
  assert (t ∉ ws /\ NoDup ws) as [Hnd1 Hnd2].
  { destruct (io_endpoints _ Hok e ep He) as (_ & _ & _ & Hnd). rewrite Hwt in Hnd. by apply list.NoDup_cons in Hnd. }
  assert (forall e' ep' t', r_endpoints (w_ipc w') !! e' = Some ep' -> t' ∈ ep_waiting ep' ->
    t' <> t /\ exists ep0, r_endpoints (w_ipc (sw st)) !! e' = Some ep0 /\ t' ∈ ep_waiting ep0) as Hwait'.
  { intros e' ep' t' He' Ht'. apply Heps in He'. case_decide; subst; simpl in Ht'.
    - split; [congruence|]. exists ep. rewrite Hwt. split; [done|by right].
    - split; [|eauto]. intros ->. destruct (Hwait e' ep' t He' Ht') as (Hiw & _).
      by pose proof (in_wait_unique _ _ _ _ Hiw Htw). }
  assert (forall x, x ∈ inflight st ++ [t] <-> x ∈ inflight st \/ x = t) as Hmem.
  { intros x. by rewrite elem_of_app, list_elem_of_singleton. }
  split; simpl; [done| | | |done| |].
  - intros e' ep' t' He' Ht'. destruct (Hwait' e' ep' t' He' Ht') as (Hne & ep0 & He0 & Ht0). rewrite Hmem.
    destruct (Hwait e' ep0 t' He0 Ht0) as (H1 & H2 & H3). tauto.
  - intros t'. rewrite Hmem. intros [Ht'| ->]; [by apply Hin|]. split; [by exists e|done].
  - by apply NoDup_snoc.
  - intros t' e' Hiw. destruct (Hpark t' e' Hiw) as (H1 & H2 & H3). rewrite Hmay, Hw'. split_and!; [done|done|].
    intros ep' He'. rewrite <- Hw' in He'. apply Heps in He'. rewrite Hmem. case_decide; subst; simpl; [|naive_solver].
    specialize (H3 ep He). rewrite Hwt, elem_of_cons in H3. tauto.
  - set (st' := {| sw := w' |}). intros e' ep' He' Hne. apply Heps in He'.
    assert (forall e0 t', t' ∈ coming st e0 -> t' ∈ coming st' e0) as Hmono.
    { intros e0 t'. rewrite !elem_of_coming. intros (p & Hp & Hc). exists p. split; [done|]. unfold comes in *. simpl.
      rewrite Hmay, Hmem. tauto. }
    case_decide; subst; [|etrans; [by eapply Hen|apply coming_mono, Hmono]].
    simpl. rewrite length_app. simpl. etrans; [|apply (coming_gains t st st' e); [apply Hmono| |]].
    + specialize (Hen e ep He ltac:(by rewrite Hwt)). lia.
    + rewrite elem_of_coming. unfold comes. intros (p & Hp & [[-> _]|[_ [?|?]]]); [|done|done].
      unfold in_wait in Htw. rewrite Hp in Htw. by destruct Htw.
    + rewrite elem_of_coming. unfold comes, in_wait in *. simpl.
      destruct Htw as [Hp|Hp]; rewrite Hp; eexists; (split; [done|]); right; rewrite Hmem; auto.
Qed.

(** ** Every event keeps it *)

Lemma may_receive_spec w t e : may_receive w t e = r_contains (rights_of (w_ipc w) t e) R_RECEIVE.
Proof. unfold may_receive. apply Bool.eq_iff_eq_true. by rewrite (contains_bit _ 1). Qed.

(** Only leaving takes rights away. *)
Lemma exec_keeps_rights c w t e b : c <> CExit t -> 0 <= b ->
  Z.testbit (rights_of (w_ipc w) t e) b = true -> Z.testbit (rights_of (w_ipc (snd (exec c w))) t e) b = true.
Proof.
  intros Hc Hb Hr. destruct c; simpl; try done.
  - destruct (create_creates (w_quotas w) owner (Z.of_N capacity) (w_ipc w)); try done.
    pose proof (add_rights_rights (w_quotas w) owner (r_next_id (w_ipc w)) (r_union (r_union R_SEND R_RECEIVE) R_GRANT)
      (with_endpoint owner (Z.of_N capacity) (w_ipc w)) t e b Hb) as Hadd.
    destruct (add_rights _ _ _ _ _) as [o' r']. simpl. rewrite Hadd. apply orb_true_iff. by right.
  - destruct (grant_grants (w_quotas w) granter target endpoint rights (w_ipc w)) as [|o _ _ _]; [done|].
    pose proof (add_rights_rights (w_quotas w) target endpoint (r_intersection rights (rights_of (w_ipc w) granter endpoint)) (w_ipc w) t e b Hb) as Hadd.
    destruct (add_rights _ _ _ _ _) as [o' r']. simpl. rewrite Hadd. apply orb_true_iff. by right.
  - unfold ipc_send. by destruct (deliver_delivers (w_users w) (Some sender) endpoint m (w_ipc w)).
  - unfold notify. by destruct (deliver_delivers (w_users w) None endpoint m (w_ipc w)).
  - by destruct (receive_takes receiver endpoint (w_ipc w)).
  - by destruct (try_receive_takes receiver endpoint (w_ipc w)).
  - unfold rights_of, capabilities_of in *. simpl. rewrite lookup_delete_ne; [done|congruence].
Qed.

Lemma filter_absent (t : nat) (l : list nat) : t ∉ l -> filter (fun x => x <> t) l = l.
Proof.
  induction l as [|x l IH]; [done|]. rewrite elem_of_cons. intros Hn. rewrite filter_cons_True by naive_solver.
  f_equal. apply IH. tauto.
Qed.

(** What an operation by a thread outside [receive] does to the lists of waiters, when it
    is not a delivery. *)
Definition delivery (c : call) : bool := match c with CSend _ _ _ | CNotify _ _ => true | _ => false end.

Lemma quiet_endpoints c w e ep' : is_receive c = false -> delivery c = false ->
  (forall t e ep, c = CExit t -> r_endpoints (w_ipc w) !! e = Some ep -> t ∉ ep_waiting ep) ->
  r_endpoints (w_ipc (snd (exec c w))) !! e = Some ep' ->
  (ep_waiting ep' = [] /\ r_next_id (w_ipc w) <= e) \/
  exists ep, r_endpoints (w_ipc w) !! e = Some ep /\ ep_waiting ep' = ep_waiting ep /\
    (length (ep_queue ep') <= length (ep_queue ep))%nat.
Proof.
  intros Hnr Hnd Hexit He. destruct c; try done; simpl in He; eauto.
  - revert He. destruct (create_creates (w_quotas w) owner (Z.of_N capacity) (w_ipc w)); simpl; eauto.
    rewrite (proj1 (add_rights_endpoints _ _ _ _ _)). simpl. destruct (decide (e = r_next_id (w_ipc w))) as [->|Hne].
    + rewrite lookup_insert_eq. intros [= <-]. left. done.
    + rewrite lookup_insert_ne by done. eauto.
  - revert He. destruct (grant_grants (w_quotas w) granter target endpoint rights (w_ipc w)); simpl; eauto.
    rewrite (proj1 (add_rights_endpoints _ _ _ _ _)). eauto.
  - revert He. unfold try_receive. unfold_ipc. destruct (negb _); simpl; eauto.
    destruct (r_endpoints (w_ipc w) !! endpoint) as [ep|] eqn:Hep; simpl; eauto.
    destruct (decide (e = endpoint)) as [->|Hne]; [|rewrite lookup_insert_ne by done; eauto].
    rewrite lookup_insert_eq. intros [= <-]. right. exists ep. simpl. split_and!; [done|done|]. by destruct (ep_queue ep); simpl; lia.
  - rewrite lookup_fmap, fmap_Some in He. destruct He as (ep & Hep & ->). apply map_lookup_filter_Some in Hep as [Hep _].
    right. exists ep. simpl. split_and!; [done| |done]. eapply filter_absent, Hexit; done.
Qed.

Lemma step_runs c w : (exists h, runs h w) -> exists h, runs h (snd (exec c w)).
Proof. intros [h Hh]. eexists. eapply runs_step; [exact Hh|apply surjective_pairing]. Qed.

Lemma delivers_inv e m o st w' : delivers e m (w_ipc (sw st)) o (w_ipc w') -> (exists h, runs h w') -> wait_inv st ->
  wait_inv {| sw := w'; pos := pos st; pend := pend st; inflight := inflight st ++ owed (answer_of ASent o) |}.
Proof.
  intros Hd Hruns Hst. inversion Hd as [err Ho Hw|ep He Hlen Ho Hw].
  - simpl. rewrite app_nil_r. apply quiet_inv; [done|done| |by rewrite <- Hw|rewrite <- Hw; eauto].
    intros t e' _. unfold may_receive. by rewrite <- Hw.
  - by apply (deliver_inv e m st ep).
Qed.

Lemma call_inv c st : is_receive c = false -> outside c st = true -> wait_inv st ->
  wait_inv {| sw := snd (exec c (sw st)); pos := pos st; pend := pend st;
              inflight := inflight st ++ owed (fst (exec c (sw st))) |}.
Proof.
  intros Hnr Hout Hst. pose proof (step_runs c (sw st) (wi_world _ Hst)) as Hruns.
  assert (forall t e, is_Some (pos st !! t) -> may_receive (sw st) t e = true ->
    may_receive (snd (exec c (sw st))) t e = true) as Hmay.
  { intros t e [p Hp] Hm. apply exec_keeps_rights; [|done|done]. intros ->. simpl in Hout.
    apply bool_decide_eq_true in Hout. congruence. }
  destruct (delivery c) eqn:Hd.
  - destruct c; try done.
    + exact (delivers_inv endpoint _ _ st (snd (exec (CSend sender endpoint m) (sw st)))
        (deliver_delivers (w_users (sw st)) (Some sender) endpoint m (w_ipc (sw st))) Hruns Hst).
    + exact (delivers_inv endpoint _ _ st (snd (exec (CNotify endpoint m) (sw st)))
        (deliver_delivers (w_users (sw st)) None endpoint m (w_ipc (sw st))) Hruns Hst).
  - assert (owed (fst (exec c (sw st))) = []) as ->.
    { destruct c; try done; simpl; by destruct (fst _). }
    rewrite app_nil_r. apply quiet_inv; [done|done|done|apply exec_next|]. intros e ep' He.
    apply quiet_endpoints in He; [naive_solver|done|done|]. intros t e' ep -> Hep Ht.
    apply (wi_waiting _ Hst e' ep) in Ht as [Hiw _]; [|done]. simpl in Hout. apply bool_decide_eq_true in Hout.
    unfold in_wait in Hiw. rewrite Hout in Hiw. by destruct Hiw.
Qed.

(** Leaving [receive], with a message or an error: the thread was coming only if the
    queue it came for has one message less. *)
Lemma leave_inv t e st w' : pos st !! t = Some (Checking e) -> wait_inv st -> (exists h, runs h w') ->
  (forall t' e', may_receive w' t' e' = may_receive (sw st) t' e') ->
  r_next_id (w_ipc w') = r_next_id (w_ipc (sw st)) ->
  (forall e' ep', r_endpoints (w_ipc w') !! e' = Some ep' ->
     exists ep, r_endpoints (w_ipc (sw st)) !! e' = Some ep /\ ep_waiting ep' = ep_waiting ep /\
       (length (ep_queue ep') <= length (ep_queue ep))%nat /\
       (e' = e -> may_receive (sw st) t e = true -> (S (length (ep_queue ep')) <= length (ep_queue ep))%nat)) ->
  wait_inv {| sw := w'; pos := delete t (pos st); pend := pend st; inflight := inflight st |}.
Proof.
  intros Hp [Hw Hwait Hin Honce Hpend Hpark Hen] Hruns Hmay Hnext Heps. set (st' := {| sw := w' |}).
  assert (forall e', ~ in_wait st t e') as Hout by (intros e'; unfold in_wait; rewrite Hp; by intros []).
  assert (forall t' e', in_wait st' t' e' <-> in_wait st t' e') as Hiff.
  { intros t' e'. specialize (Hout e'). unfold in_wait in *. simpl. destruct (decide (t' = t)) as [->|].
    - rewrite lookup_delete_eq, Hp. naive_solver.
    - by rewrite lookup_delete_ne. }
  split; simpl; [done| | |done| | |].
  - intros e' ep' t' He' Ht'. rewrite Hiff. destruct (Heps _ _ He') as (ep & He & Hwt & _). rewrite Hwt in Ht'. by apply (Hwait e' ep).
  - intros t' Ht'. setoid_rewrite Hiff. by apply Hin.
  - intros t' Ht'. destruct (Hpend t' Ht') as (e' & He'). exists e'. rewrite lookup_delete_ne; [done|]. congruence.
  - intros t' e'. rewrite Hiff, Hmay, Hnext. intros Hiw. destruct (Hpark t' e' Hiw) as (H1 & H2 & H3). split_and!; [done|done|].
    intros ep' He'. destruct (Heps _ _ He') as (ep & He & -> & _). by apply H3.
  - intros e' ep' He' Hne. destruct (Heps _ _ He') as (ep & He & Hwt & Hlen & Hless). rewrite Hwt in Hne. specialize (Hen e' ep He Hne).
    assert (forall t', t' <> t -> t' ∈ coming st e' -> t' ∈ coming st' e') as Hmono.
    { intros t' Hne'. rewrite !elem_of_coming. intros (p & Hpos & Hc). exists p. simpl. rewrite lookup_delete_ne by done.
      split; [done|]. unfold comes in *. simpl. by rewrite Hmay. }
    destruct (decide (t ∈ coming st e')) as [Hin'|Hnin].
    + pose proof (coming_loses t st st' e' Hmono). apply elem_of_coming in Hin' as (p & Hpos & Hc). rewrite Hp in Hpos. simplify_eq.
      destruct Hc as [[[= <-] Hm]|[[|] _]]; [|done|done]. specialize (Hless eq_refl Hm). lia.
    + etrans; [exact Hlen|]. etrans; [exact Hen|]. apply coming_mono. intros t' Ht'. apply Hmono; [congruence|done].
Qed.

(** Registering as waiting, the queue being empty. *)
Lemma register_inv t e ep st w' : pos st !! t = Some (Checking e) -> wait_inv st -> (exists h, runs h w') ->
  may_receive (sw st) t e = true -> r_endpoints (w_ipc (sw st)) !! e = Some ep -> ep_queue ep = [] ->
  w_ipc w' = set_endpoints (<[e := set_queue [] (ep_waiting ep ++ [t]) ep]> (r_endpoints (w_ipc (sw st)))) (w_ipc (sw st)) ->
  wait_inv {| sw := w'; pos := <[t := Parking e]> (pos st); pend := pend st; inflight := inflight st |}.
Proof.
  intros Hp [Hw Hwait Hin Honce Hpend Hpark Hen] Hruns Hm He Hq Hw'. set (st' := {| sw := w' |}).
  assert (forall e', ~ in_wait st t e') as Hout by (intros e'; unfold in_wait; rewrite Hp; by intros []).
  assert (forall t e, may_receive w' t e = may_receive (sw st) t e) as Hmay by (intros; unfold may_receive; by rewrite Hw').
  assert (t ∉ inflight st) as Hti by (intros Hti; apply Hin in Hti as [(e' & Hiw) _]; by apply (Hout e')).
  assert (t ∉ pend st) as Htp by (intros Htp; apply Hpend in Htp as [e' He']; congruence).
  assert (forall t' e', in_wait st' t' e' <-> if decide (t' = t) then e' = e else in_wait st t' e') as Hiff.
  { intros t' e'. unfold in_wait. simpl. case_decide; subst; [rewrite lookup_insert_eq; naive_solver|by rewrite lookup_insert_ne]. }
  assert (forall e' ep', r_endpoints (w_ipc w') !! e' = Some ep' ->
    if decide (e' = e) then ep' = set_queue [] (ep_waiting ep ++ [t]) ep
    else r_endpoints (w_ipc (sw st)) !! e' = Some ep') as Heps.
  { intros e' ep'. rewrite Hw'. simpl. case_decide as Hee; subst; [rewrite lookup_insert_eq|by rewrite lookup_insert_ne].
    congruence. }
  destruct Hw as [h0 Hh0]. destruct (runs_ok _ _ Hh0) as [_ Hok].
  split; simpl; [done| | |done| | |].
  - intros e' ep' t' He' Ht'. rewrite Hiff. apply Heps in He'. case_decide as Hee; subst; simpl in Ht'.
    + rewrite elem_of_app, list_elem_of_singleton in Ht'. destruct Ht' as [Ht'| ->]; [|by rewrite decide_True].
      destruct (Hwait e ep t' He Ht') as (H1 & H2). case_decide; subst; [done|done].
    + destruct (Hwait e' ep' t' He' Ht') as (H1 & H2). case_decide; subst; [by destruct (Hout e')|done].
  - intros t' Ht'. destruct (Hin t' Ht') as [(e' & Hiw) H2]. split; [|done]. exists e'. rewrite Hiff. case_decide; subst; done.
  - intros t' Ht'. destruct (Hpend t' Ht') as (e' & He'). exists e'. rewrite lookup_insert_ne; [done|]. congruence.
  - intros t' e'. rewrite Hiff, Hmay, Hw'. case_decide as Ht; [intros ->; subst|intros Hiw].
    + split_and!; [done|by apply (io_endpoints _ Hok e ep He)|]. intros ep' He'. rewrite <- Hw' in He'. apply Heps in He'. rewrite decide_True in He' by done.
      subst. left. simpl. rewrite elem_of_app, list_elem_of_singleton. by right.
    + destruct (Hpark t' e' Hiw) as (H1 & H2 & H3). split_and!; [done|done|]. intros ep' He'. rewrite <- Hw' in He'. apply Heps in He'.
      case_decide; subst; [|by apply H3]. specialize (H3 ep He). simpl. rewrite elem_of_app. tauto.
  - intros e' ep' He' Hne. apply Heps in He'. case_decide; subst; simpl; [lia|]. etrans; [by eapply Hen|]. apply coming_mono.
    intros t'. rewrite !elem_of_coming. intros (p & Hpos & Hc). destruct (decide (t' = t)) as [->|].
    + rewrite Hp in Hpos. simplify_eq. destruct Hc as [[[= <-] _]|[[|] _]]; done.
    + exists p. simpl. rewrite lookup_insert_ne by done. split; [done|]. unfold comes in *. simpl. by rewrite Hmay.
Qed.

Lemma check_inv t e st st' : pos st !! t = Some (Checking e) -> sys_step (ECheck t) st = Some st' -> wait_inv st ->
  wait_inv st'.
Proof.
  intros Hp Hs Hst. simpl in Hs. rewrite Hp in Hs. simplify_eq.
  pose proof (step_runs (CReceive t e) (sw st) (wi_world _ Hst)) as Hruns. simpl in Hruns. revert Hruns.
  unfold receive_once. unfold_ipc. rewrite <- may_receive_spec. destruct (may_receive (sw st) t e) eqn:Hm; simpl; intros Hruns.
  2: { apply (leave_inv t e); [done|done|done|done|done|]. simpl. intros e' ep' He'. exists ep'. split_and!; [done|done|done|congruence]. }
  destruct (r_endpoints (w_ipc (sw st)) !! e) as [ep|] eqn:He; simpl in *.
  2: { apply (leave_inv t e); [done|done|done|done|done|]. simpl. intros e' ep' He'. exists ep'. split_and!; [done|done|done|congruence]. }
  destruct (ep_queue ep) as [|m q] eqn:Hq; simpl in *.
  - assert (t ∉ ep_waiting ep) as Hnw.
    { intros Ht. destruct (wi_waiting _ Hst e ep t He Ht) as [Hiw _]. unfold in_wait in Hiw. rewrite Hp in Hiw. by destruct Hiw. }
    rewrite bool_decide_false in * by done. by apply (register_inv t e ep).
  - apply (leave_inv t e); [done|done|done|done|done|]. simpl. intros e' ep'. destruct (decide (e' = e)) as [->|Hne].
    + rewrite lookup_insert_eq. intros [= <-]. exists ep. simpl. rewrite Hq. simpl. split_and!; [done|done|lia|lia].
    + rewrite lookup_insert_ne by done. intros He'. exists ep'. split_and!; [done|done|done|congruence].
Qed.

Lemma sys_step_inv ev st st' : spurious ev = false -> sys_step ev st = Some st' -> wait_inv st -> wait_inv st'.
Proof.
  intros Hsp Hs Hst. destruct ev; simpl in Hsp; try done; simpl in Hs.
  - destruct (is_receive c) eqn:Hr; [done|]. destruct (outside c st) eqn:Ho; [|done].
    pose proof (call_inv c st Hr Ho Hst) as Hc. destruct (exec c (sw st)) as [a w]. by simplify_eq.
  - destruct (pos st !! t) eqn:Hp; [done|]. simplify_eq. by apply (enter_inv t e).
  - destruct (pos st !! t) as [[]|] eqn:Hp; try done. eapply (check_inv t e st); [done| |done]. simpl. by rewrite Hp.
  - destruct (pos st !! t) as [[]|] eqn:Hp; try done. simplify_eq. by apply block_step_inv.
  - destruct (inflight st !! i) eqn:Hi; [|done]. simplify_eq. by apply wake_inv.
Qed.

Lemma sys_start_inv : wait_inv sys_start.
Proof.
  split; simpl.
  - exists []. constructor.
  - intros e ep t He. by rewrite lookup_empty in He.
  - intros t Ht. by apply elem_of_nil in Ht.
  - constructor.
  - intros t Ht. by apply elem_of_empty in Ht.
  - unfold in_wait. simpl. intros t e. rewrite lookup_empty. by intros [].
  - intros e ep He. by rewrite lookup_empty in He.
Qed.

Lemma sys_run_inv evs st st' : forallb (fun ev => negb (spurious ev)) evs = true ->
  sys_run evs st = Some st' -> wait_inv st -> wait_inv st'.
Proof.
  revert st. induction evs as [|ev evs IH]; simpl; intros st Hsp Hr Hst; [congruence|].
  apply andb_true_iff in Hsp as [Hsp1 Hsp2]. destruct (sys_step ev st) as [st1|] eqn:Hs; [|done].
  eapply IH; [done|done|]. eapply sys_step_inv; [|done|done]. by destruct (spurious ev).
Qed.

(** C12: no message is left beside a sleeping receiver.  However the critical sections of
    senders, receivers and the kernel interleave, as long as every wake is one that a
    delivery sent: a thread asleep on an endpoint that exists is either about to be woken,
    or there are at least as many other threads on their way to look at the queue, all
    with the right to take from it, as there are messages in it. *)
Theorem no_lost_message evs st t e ep :
  forallb (fun ev => negb (spurious ev)) evs = true -> sys_run evs sys_start = Some st ->
  pos st !! t = Some (Parked e) -> r_endpoints (w_ipc (sw st)) !! e = Some ep ->
  t ∈ inflight st \/ (length (ep_queue ep) <= size (coming st e))%nat.
Proof.
  intros Hsp Hr Hp He. pose proof (sys_run_inv _ _ _ Hsp Hr sys_start_inv) as Hst.
  destruct (wi_parked _ Hst t e ltac:(by right)) as (_ & _ & Hwhere).
  destruct (Hwhere ep He) as [Hw|[Hi|Hpd]]; [|by left|].
  - right. eapply wi_enough; [done|done|]. intros Hnil. rewrite Hnil in Hw. by apply elem_of_nil in Hw.
  - apply (wi_pend _ Hst) in Hpd as [e' He']. congruence.
Qed.

(** Threads 2 and 3 are asleep on thread 1's endpoint when two messages arrive at once;
    the second waiter is still asleep while the first is being woken. *)
Definition two_receivers : list event :=
  [ECall (CCreate 1 4); ECall (CGrant 1 2 1 R_RECEIVE); ECall (CGrant 1 3 1 R_RECEIVE);
   EEnter 2 1; ECheck 2; EBlock 2; EEnter 3 1; ECheck 3; EBlock 3].

Definition after (evs : list event) : system := match sys_run evs sys_start with Some st => st | None => sys_start end.

Definition one_message : list event := two_receivers ++ [ECall (CSend 1 1 a_message)].

Lemma no_lost_message_witness :
  exists ep, r_endpoints (w_ipc (sw (after one_message))) !! 1 = Some ep /\ length (ep_queue ep) = 1%nat /\
    (3%nat ∈ inflight (after one_message) \/ (length (ep_queue ep) <= size (coming (after one_message) 1))%nat).
Proof.
  eexists. split; [vm_compute; reflexivity|]. split; [vm_compute; reflexivity|].
  apply (no_lost_message one_message); vm_compute; reflexivity.
Defined.

(** With a wake left over from elsewhere, a receiver takes a message while still listed as
    waiting; the next message then wakes that thread, which is no longer receiving, and
    the one that is stays asleep beside it, with nobody on the way. *)
Definition leftover_wake : list event :=
  [ECall (CCreate 1 4); ECall (CGrant 1 2 1 R_RECEIVE); ECall (CGrant 1 3 1 R_RECEIVE);
   EEnter 2 1; ECheck 2; EBlock 2;
   ESpurious 3; EEnter 3 1; ECheck 3; EBlock 3;
   ECall (CSend 1 1 a_message); ECheck 3; EWake 0; ECheck 2; EBlock 2;
   ECall (CSend 1 1 a_message); EWake 0].

(** with one wake that no delivery sent, a message can be left beside a sleeping
    receiver: it is queued, nothing is in flight, nobody is on the way to the queue,
    and thread 2 sleeps on it. *)
Theorem leftover_wake_strands :
  exists st ep, sys_run leftover_wake sys_start = Some st /\ r_endpoints (w_ipc (sw st)) !! 1 = Some ep /\
    length (ep_queue ep) = 1%nat /\ pos st !! 2%nat = Some (Parked 1) /\ inflight st = [] /\ coming st 1 = ∅.
Proof. eexists _, _. split; [vm_compute; reflexivity|]. split; [vm_compute; reflexivity|]. by vm_compute. Qed.

(** ** A receiver whose endpoint goes away *)

(** Asleep on an endpoint that no longer exists. *)
Definition stuck (st : system) (t : nat) (e : Z) : Prop :=
  wait_inv st /\ pos st !! t = Some (Parked e) /\ r_endpoints (w_ipc (sw st)) !! e = None /\ t ∉ inflight st.

Lemma dead_stays_dead c w e : r_endpoints (w_ipc w) !! e = None -> e < r_next_id (w_ipc w) ->
  r_endpoints (w_ipc (snd (exec c w))) !! e = None.
Proof.
  intros He Hlt. destruct (exec_passes e c w _ _ (surjective_pairing _)) as [ep ep' He0|He'|ep' Hid]; [congruence|done|lia].
Qed.

Lemma owed_waits c w t : t ∈ owed (fst (exec c w)) ->
  exists e ep, r_endpoints (w_ipc w) !! e = Some ep /\ t ∈ ep_waiting ep.
Proof.
  intros Ht. destruct c; simpl in Ht;
    try (match type of Ht with t ∈ owed (answer_of _ ?o) => destruct o end; simpl in Ht; by apply elem_of_nil in Ht);
    try (by apply elem_of_nil in Ht); unfold ipc_send, notify in Ht.
  - revert Ht. destruct (deliver_delivers (w_users w) (Some sender) endpoint m (w_ipc w)) as [|ep He]; simpl; intros Ht; [by apply elem_of_nil in Ht|].
    exists endpoint, ep. split; [done|]. destruct (ep_waiting ep); simpl in Ht; set_solver.
  - revert Ht. destruct (deliver_delivers (w_users w) None endpoint m (w_ipc w)) as [|ep He]; simpl; intros Ht; [by apply elem_of_nil in Ht|].
    exists endpoint, ep. split; [done|]. destruct (ep_waiting ep); simpl in Ht; set_solver.
Qed.

Lemma stuck_step ev st st' t e : spurious ev = false -> sys_step ev st = Some st' -> stuck st t e -> stuck st' t e.
Proof.
  intros Hsp Hs (Hst & Hp & He & Hi). pose proof (sys_step_inv ev st st' Hsp Hs Hst) as Hst'.
  destruct (wi_parked _ Hst t e ltac:(by right)) as (_ & Hlt & _). split; [exact Hst'|]. clear Hst'.
  destruct ev as [c|t' e'|t'|t'|i|t']; simpl in Hsp, Hs; [| | | | |done].
  - destruct (is_receive c); [done|]. destruct (outside c st); [|done].
    pose proof (dead_stays_dead c (sw st) e He Hlt) as Hdead. pose proof (owed_waits c (sw st) t) as Howed.
    destruct (exec c (sw st)) as [a w]. simplify_eq. simpl in *. split_and!; [done|done|]. rewrite elem_of_app. intros [|Ho]; [done|].
    destruct (Howed Ho) as (e' & ep & He' & Ht). destruct (wi_waiting _ Hst e' ep t He' Ht) as ([Hp'|Hp'] & _); congruence.
  - destruct (pos st !! t') eqn:Ht'; [done|]. simplify_eq. simpl. rewrite lookup_insert_ne by congruence. done.
  - destruct (pos st !! t') as [[e'| |]|] eqn:Ht'; try done. pose proof (dead_stays_dead (CReceive t' e') (sw st) e He Hlt) as Hdead.
    simpl in Hdead. simplify_eq. simpl. split; [|done].
    destruct (answer_of _ _) as [| | |[]| |]; rewrite ?lookup_insert_ne, ?lookup_delete_ne by congruence; done.
  - destruct (pos st !! t') as [[| |]|] eqn:Ht'; try done. simplify_eq.
    case_bool_decide; simpl; rewrite lookup_insert_ne by congruence; done.
  - destruct (inflight st !! i) as [t'|] eqn:Ht'; [|done]. simplify_eq. apply list_elem_of_lookup_2 in Ht' as Hin.
    assert (t ∉ delete i (inflight st)) as Hi'.
    { rewrite (delete_Permutation (inflight st) i t' Ht') in Hi. set_solver. }
    unfold unblocks. simpl. destruct (pos st !! t') as [[| |]|]; simpl; try done. rewrite lookup_insert_ne by congruence. done.
Qed.

(** Thread 2 is asleep on thread 1's endpoint when thread 1 exits. *)
Definition owner_exits : list event :=
  [ECall (CCreate 1 4); ECall (CGrant 1 2 1 R_RECEIVE); EEnter 2 1; ECheck 2; EBlock 2; ECall (CExit 1)].

Definition exited : system := after owner_exits.

Lemma exited_run : sys_run owner_exits sys_start = Some exited.
Proof. vm_compute. reflexivity. Qed.

Lemma exited_stuck : stuck exited 2 1.
Proof.
  refine (conj (sys_run_inv owner_exits sys_start exited eq_refl exited_run sys_start_inv) _).
  split; [vm_compute; reflexivity|]. split; [vm_compute; reflexivity|].
  assert (inflight exited = []) as -> by (vm_compute; reflexivity). apply not_elem_of_nil.
Qed.

Lemma sys_run_app evs evs' st st1 st2 : sys_run evs st = Some st1 -> sys_run (evs ++ evs') st = Some st2 ->
  sys_run evs' st1 = Some st2.
Proof.
  revert st. induction evs as [|ev l IH]; simpl; intros st Hr Hr'; [congruence|].
  destruct (sys_step ev st); [by eapply IH|done].
Qed.

Lemma stuck_run evs st st' t e : forallb (fun ev => negb (spurious ev)) evs = true -> sys_run evs st = Some st' ->
  stuck st t e -> stuck st' t e.
Proof.
  revert st. induction evs as [|ev evs IH]; simpl; intros st Hsp Hr Hst; [congruence|].
  apply andb_true_iff in Hsp as [Hsp1 Hsp2]. destruct (sys_step ev st) as [st1|] eqn:Hs; [|done].
  eapply IH; [done|done|]. eapply stuck_step; [|done|done]. by destruct (spurious ev).
Qed.

(** when the owner of an endpoint exits, a thread asleep in a receive on it is not
    woken, then or by anything that any thread does later: it sleeps for good. *)
Theorem owner_exit_strands evs st :
  forallb (fun ev => negb (spurious ev)) evs = true -> sys_run (owner_exits ++ evs) sys_start = Some st ->
  pos st !! 2%nat = Some (Parked 1).
Proof.
  intros Hsp Hr. apply (sys_run_app _ _ _ exited) in Hr; [|exact exited_run].
  by apply (stuck_run evs exited st 2 1 Hsp Hr exited_stuck).
Qed.

Definition afterwards : list event := [ECall (CCreate 3 1); ECall (CSend 3 2 a_message)].

Lemma afterwards_run : sys_run (owner_exits ++ afterwards) sys_start = Some (after (owner_exits ++ afterwards)).
Proof. vm_compute. reflexivity. Qed.

Lemma owner_exit_strands_witness : pos (after (owner_exits ++ afterwards)) !! 2%nat = Some (Parked 1).
Proof. exact (owner_exit_strands afterwards (after (owner_exits ++ afterwards)) eq_refl afterwards_run). Defined.
