(* ===== verification/RingChannel.v ===== *)
(** * Rings: messages without the kernel (kernel/src/ring.rs and the ring module of
    userland/src/lib.rs)

    The two sides of a ring run the user library's code against shared counters, and call
    the kernel only to park and to wake.  Every access to a shared word is a step of its
    own, and the steps of both sides interleave freely; the accesses are the library's
    exchanges and sequentially consistent loads. *)

From stdpp Require Import base list gmap numbers list_numbers.
From Stdlib Require Import Lia ZifyBool.
From S2P Require Import Prelude.

Definition W : Z := 2 ^ 32.
Definition wrapping_sub32 (a b : Z) : Z := (a - b) mod W.
Definition wrapping_add32 (a b : Z) : Z := (a + b) mod W.

Inductive Side : Type := Sender | Receiver.
#[global] Instance Side_eq_dec : EqDecision Side.
Proof. solve_decision. Defined.

Definition other (x : Side) : Side := match x with Sender => Receiver | Receiver => Sender end.

(** Where a side is.  [Try] to [WakeDo] are [try_send] and [try_receive]; [SetFlag] to
    [Clear] are [sleep_until], with the kernel's [wait] in the middle. *)
Inductive Pos : Type :=
| Try | Copy | Publish (m : Z) | ReadFlag | WakeTake | WakeDo
| SetFlag | Look | Check | Park | Parked | Recheck | Clear.
#[global] Instance Pos_eq_dec : EqDecision Pos.
Proof. solve_decision. Defined.

(** One side: its thread's place, its flag in shared memory, its entry in the kernel's
    [sleeping], and what the scheduler knows of its thread. *)
Record Part : Type := { pos : Pos; flag : bool; sleeping : bool; blocked : bool; wake_pending : bool }.

(** The shared words, and what was sent and received so far. *)
Record Chan : Type := {
  slots : Z;
  tail : Z;
  head : Z;
  memory : gmap Z Z;
  parts : Side -> Part;
  sent : list Z;
  got : list Z;
}.

Definition idle_part : Part := {| pos := Try; flag := false; sleeping := false; blocked := false; wake_pending := false |}.
Definition new_chan (n : Z) : Chan :=
  {| slots := n; tail := 0; head := 0; memory := ∅; parts := fun _ => idle_part; sent := []; got := [] |}.

(** [Ring::queued], in the kernel and in the library *)
Definition queued (c : Chan) : option Z :=
  let q := wrapping_sub32 (tail c) (head c) in if q <=? slots c then Some q else None.

(** [Ring::ready_for], and the closures given to [sleep_until] *)
Definition ready (x : Side) (q : Z) (n : Z) : bool := match x with Sender => q <? n | Receiver => 0 <? q end.
Definition ready_for (x : Side) (c : Chan) : bool := match queued c with None => true | Some q => ready x q (slots c) end.

Definition set_part (x : Side) (p : Part) (c : Chan) : Chan :=
  {| slots := slots c; tail := tail c; head := head c; memory := memory c;
     parts := fun y => if decide (y = x) then p else parts c y; sent := sent c; got := got c |}.
Definition at_pos (p : Part) (k : Pos) : Part :=
  {| pos := k; flag := flag p; sleeping := sleeping p; blocked := blocked p; wake_pending := wake_pending p |}.
Definition with_flag (p : Part) (b : bool) : Part :=
  {| pos := pos p; flag := b; sleeping := sleeping p; blocked := blocked p; wake_pending := wake_pending p |}.
Definition with_sleeping (p : Part) (b : bool) : Part :=
  {| pos := pos p; flag := flag p; sleeping := b; blocked := blocked p; wake_pending := wake_pending p |}.
Definition with_thread (p : Part) (b w : bool) : Part :=
  {| pos := pos p; flag := flag p; sleeping := sleeping p; blocked := b; wake_pending := w |}.

Definition goto (x : Side) (k : Pos) (c : Chan) : Chan := set_part x (at_pos (parts c x) k) c.

(** [Ring::slot] *)
Definition slot (c : Chan) (index : Z) : Z := index mod slots c.

(** [try_send] from its check of the queue to its exchange of the counter. *)
Definition send_step (m : Z) (c : Chan) : Chan :=
  match pos (parts c Sender) with
  | Copy => goto Sender (Publish m) {| slots := slots c; tail := tail c; head := head c; memory := <[slot c (tail c) := m]> (memory c);
              parts := parts c; sent := sent c; got := got c |}
  | Publish m => goto Sender ReadFlag {| slots := slots c; tail := wrapping_add32 (tail c) 1; head := head c; memory := memory c;
              parts := parts c; sent := sent c ++ [m]; got := got c |}
  | _ => c
  end.

(** The same of [try_receive]. *)
Definition receive_step (c : Chan) : Chan :=
  match pos (parts c Receiver) with
  | Copy => goto Receiver (Publish (default 0 (memory c !! slot c (head c)))) c
  | Publish m => goto Receiver ReadFlag {| slots := slots c; tail := tail c; head := wrapping_add32 (head c) 1; memory := memory c;
              parts := parts c; sent := sent c; got := got c ++ [m] |}
  | _ => c
  end.

(** The kernel's [unblock] *)
Definition unblock (p : Part) : Part := if blocked p then with_thread p false (wake_pending p) else with_thread p (blocked p) true.

(** [wake_other] and the kernel's [wake]: take the sleeper, then unblock it. *)
Definition wake_step (x : Side) (c : Chan) : Chan :=
  match pos (parts c x) with
  | ReadFlag => goto x (if flag (parts c (other x)) then WakeTake else Try) c
  | WakeTake => let p := parts c (other x) in
      if sleeping p then goto x WakeDo (set_part (other x) (with_sleeping p false) c) else goto x Try c
  | WakeDo => goto x Try (set_part (other x) (unblock (parts c (other x))) c)
  | _ => c
  end.

(** The kernel's [wait]: look and register, park, and look again. *)
Definition wait_step (x : Side) (c : Chan) : Chan :=
  let p := parts c x in
  match pos p with
  | Check => if ready_for x c then goto x Recheck c else set_part x (at_pos (with_sleeping p true) Park) c
  | Park => if wake_pending p then set_part x (at_pos (with_thread p (blocked p) false) Recheck) c
            else set_part x (at_pos (with_thread p true (wake_pending p)) Parked) c
  | Parked => if blocked p then c else goto x Check c
  | Recheck => goto x (if ready_for x c then Clear else Check) c
  | _ => c
  end.

(** [sleep_until] around it.  A broken ring ends the call; both sides here follow the
    library, and the theorems show that [queued] never fails. *)
Definition sleep_step (x : Side) (c : Chan) : Chan :=
  let p := parts c x in
  match pos p with
  | SetFlag => set_part x (at_pos (with_flag p true) Look) c
  | Look => match queued c with
            | None => goto x Clear c
            | Some q => goto x (if ready x q (slots c) then Clear else Check) c
            end
  | Clear => set_part x (at_pos (with_flag p false) Try) c
  | _ => c
  end.

(** The check at the head of an attempt; a failed one is repeated or gives up spinning. *)
Definition try_step (x : Side) (gives_up : bool) (c : Chan) : Chan :=
  match pos (parts c x) with
  | Try => match queued c with
           | Some q => if ready x q (slots c) then goto x Copy c else goto x (if gives_up then SetFlag else Try) c
           | None => goto x (if gives_up then SetFlag else Try) c
           end
  | _ => c
  end.

(** One step of a side, with the message it would send next; or a wake of its thread that
    has nothing to do with the ring. *)
Inductive Event : Type := Step (x : Side) (gives_up : bool) (m : Z) | Stray (x : Side).

Definition side_step (x : Side) (gives_up : bool) (m : Z) (c : Chan) : Chan :=
  match pos (parts c x) with
  | Try => try_step x gives_up c
  | Copy | Publish _ => match x with Sender => send_step m c | Receiver => receive_step c end
  | ReadFlag | WakeTake | WakeDo => wake_step x c
  | Check | Park | Parked | Recheck => wait_step x c
  | SetFlag | Look | Clear => sleep_step x c
  end.

Definition step (e : Event) (c : Chan) : Chan :=
  match e with
  | Step x gives_up m => side_step x gives_up m c
  | Stray x => set_part x (unblock (parts c x)) c
  end.

Definition run (es : list Event) (c : Chan) : Chan := fold_left (fun c e => step e c) es c.

(** ** Parking and waking *)

Definition in_sleep (k : Pos) : bool := match k with Look | Check | Park | Parked | Recheck | Clear => true | _ => false end.
Definition waking (k : Pos) : bool := match k with ReadFlag | WakeTake | WakeDo => true | _ => false end.

(** Parked, or about to be with no wake recorded: only the other side can help. *)
Definition stuck (p : Part) : bool := match pos p with Park => negb (wake_pending p) | Parked => blocked p | _ => false end.

(** A side against the other side, and whether it would find something to do. *)
Record part_ok (p q : Part) (r : bool) : Prop := {
  pt_flag : flag p = in_sleep (pos p);
  pt_blocked : blocked p = true -> pos p = Parked;
  pt_listed : stuck p = true -> sleeping p = true \/ pos q = WakeDo;
  pt_helped : stuck p = true -> r = true -> waking (pos q) = true;
}.

(** What a step of a side does to both: [r] is whether it finds something to do, [g]
    whether a failed attempt gives up. *)
Definition move (p q : Part) (r g : bool) (m : Z) : Part * Part :=
  match pos p with
  | Try => (at_pos p (if r then Copy else if g then SetFlag else Try), q)
  | Copy => (at_pos p (Publish m), q)
  | Publish _ => (at_pos p ReadFlag, q)
  | ReadFlag => (at_pos p (if flag q then WakeTake else Try), q)
  | WakeTake => if sleeping q then (at_pos p WakeDo, with_sleeping q false) else (at_pos p Try, q)
  | WakeDo => (at_pos p Try, unblock q)
  | SetFlag => (at_pos (with_flag p true) Look, q)
  | Look => (at_pos p (if r then Clear else Check), q)
  | Check => if r then (at_pos p Recheck, q) else (at_pos (with_sleeping p true) Park, q)
  | Park => if wake_pending p then (at_pos (with_thread p (blocked p) false) Recheck, q) else (at_pos (with_thread p true (wake_pending p)) Parked, q)
  | Parked => if blocked p then (p, q) else (at_pos p Check, q)
  | Recheck => (at_pos p (if r then Clear else Check), q)
  | Clear => (at_pos (with_flag p false) Try, q)
  end.

(** A side that is not stuck has nothing to ask of the other. *)
Lemma part_ok_free p q r : flag p = in_sleep (pos p) -> (blocked p = true -> pos p = Parked) -> stuck p = false -> part_ok p q r.
Proof. intros Hf Hb Hs. split; [done|done|congruence|congruence]. Qed.

(** While the other side is not on its way to wake it, a stuck side has nothing to do, and
    stays listed. *)
Lemma part_ok_quiet p p' q r : part_ok q p r -> waking (pos p) = false -> part_ok q p' r.
Proof.
  intros [Hf Hb Hl Hh] Hw. split; [done|done| |].
  - intros Hs. destruct (Hl Hs) as [?|Hp]; [by left|]. by rewrite Hp in Hw.
  - intros Hs Hr. rewrite (Hh Hs Hr) in Hw. done.
Qed.

Lemma unblock_free p : flag p = in_sleep (pos p) -> (blocked p = true -> pos p = Parked) ->
  flag (unblock p) = in_sleep (pos (unblock p)) /\ (blocked (unblock p) = true -> pos (unblock p) = Parked) /\ stuck (unblock p) = false.
Proof.
  intros Hf Hb. unfold unblock, stuck. destruct (blocked p) eqn:Hx; cbn.
  - split; [done|]. split; [done|]. by rewrite (Hb eq_refl).
  - split; [done|]. split; [congruence|]. by destruct (pos p).
Qed.

(** The side that moved. *)
Lemma move_own p q r g m r' : part_ok p q r -> (match pos p with Publish _ => True | _ => r' = r end) ->
  part_ok (fst (move p q r g m)) (snd (move p q r g m)) r'.
Proof.
  intros [Hf Hb Hl Hh] Hr. unfold move, stuck in *. destruct (pos p) eqn:Hk; try subst r'; cbn [in_sleep] in Hf;
    try (assert (Hnb : blocked p = false) by (destruct (blocked p); [by specialize (Hb eq_refl)|done])).
  - apply part_ok_free; destruct r, g; cbn; congruence.
  - apply part_ok_free; cbn; congruence.
  - apply part_ok_free; cbn; congruence.
  - apply part_ok_free; destruct (flag q); cbn; congruence.
  - destruct (sleeping q); apply part_ok_free; cbn; congruence.
  - apply part_ok_free; cbn; congruence.
  - apply part_ok_free; cbn; congruence.
  - apply part_ok_free; destruct r; cbn; congruence.
  - destruct r; [apply part_ok_free; cbn; congruence|]. split; cbn; [done|congruence|by left|done].
  - destruct (wake_pending p) eqn:Hw; [apply part_ok_free; cbn; congruence|]. split; cbn; [done|done|by auto|by auto].
  - destruct (blocked p) eqn:Hx; [|apply part_ok_free; cbn; congruence]. cbn [fst snd].
    split; [by rewrite Hk|by rewrite Hk| |]; unfold stuck; rewrite Hk; auto.
  - apply part_ok_free; destruct r; cbn; congruence.
  - apply part_ok_free; cbn; congruence.
Qed.

(** The side that did not. *)
Lemma move_other p q r g m rq rq' : part_ok q p rq -> (match pos p with Publish _ => True | _ => rq' = rq end) ->
  part_ok (snd (move p q r g m)) (fst (move p q r g m)) rq'.
Proof.
  intros Hq Hr. unfold move. destruct (pos p) eqn:Hk; try subst rq';
    try (destruct r); try (destruct g); try (destruct (wake_pending p)); try (destruct (blocked p)); cbn [fst snd];
    try (by apply (part_ok_quiet p); [|rewrite Hk]).
  all: try (destruct Hq as [Hf Hb Hl Hh]; rewrite Hk in Hl; split; [done|done| |done]; intros Hs; destruct (Hl Hs); [by left|done]).
  all: try (destruct Hq as [Hf Hb Hl Hh]; rewrite Hk in Hl, Hh; split; [done|done| |]; intros Hs; [destruct (Hl Hs); [by left|done]|];
    assert (Hin : in_sleep (pos q) = true) by (unfold stuck in Hs; by destruct (pos q)); rewrite Hf, Hin; done).
  all: try (destruct Hq as [Hf Hb Hl Hh]; rewrite Hk in Hl, Hh; destruct (sleeping q) eqn:Hsl; cbn [fst snd];
    [split; [done|done|by right|done]|apply part_ok_free; [done|done|]; destruct (stuck q) eqn:Hs; [|done]; by destruct (Hl eq_refl)]).
  all: destruct Hq as [Hf Hb Hl Hh]; destruct (unblock_free q Hf Hb) as (H1 & H2 & H3); by apply part_ok_free.
Qed.

(** ** The messages *)

Abbreviation T c := (Z.of_nat (length (sent c))).
Abbreviation H c := (Z.of_nat (length (got c))).

Record data_ok (c : Chan) : Prop := {
  dk_slots : 0 < slots c < W;
  dk_divides : (slots c | W);
  dk_tail : tail c = T c mod W;
  dk_head : head c = H c mod W;
  dk_between : H c <= T c <= H c + slots c;
  dk_got : got c = take (length (got c)) (sent c);
  dk_memory : forall k v, (length (got c) <= k)%nat -> sent c !! k = Some v -> memory c !! (Z.of_nat k mod slots c) = Some v;
  dk_sender : match pos (parts c Sender) with
              | Copy => T c < H c + slots c
              | Publish m => T c < H c + slots c /\ memory c !! (T c mod slots c) = Some m
              | _ => True
              end;
  dk_receiver : match pos (parts c Receiver) with
                | Copy => H c < T c
                | Publish m => H c < T c /\ sent c !! length (got c) = Some m
                | _ => True
                end;
}.

Definition backlog (c : Chan) : Z := T c - H c.

Lemma queued_exact c : data_ok c -> queued c = Some (backlog c).
Proof.
  intros [Hs _ Ht Hh Hb _ _ _ _]. unfold queued, wrapping_sub32, backlog. rewrite Ht, Hh.
  assert (Hm : (T c mod W - H c mod W) mod W = T c - H c) by (rewrite <- Zminus_mod; apply Z.mod_small; lia).
  rewrite Hm. destruct (_ <=? _) eqn:Hc; [done|lia].
Qed.

Lemma ready_exact x c : data_ok c -> ready_for x c = ready x (backlog c) (slots c).
Proof. intros Hd. unfold ready_for. by rewrite queued_exact. Qed.

(** The slot of a counter is the slot of the count, for sizes that divide the wrap. *)
Lemma slot_exact c n : data_ok c -> slot c (n mod W) = n mod slots c.
Proof.
  intros [Hs Hd _ _ _ _ _ _ _]. unfold slot. destruct Hd as [k Hk]. rewrite (Z.mod_eq n W) by (unfold W; lia). rewrite Hk.
  replace (n - k * slots c * (n / (k * slots c))) with (n + (- (k * (n / (k * slots c)))) * slots c) by ring. apply Z.mod_add. lia.
Qed.

Lemma wrap_succ n : wrapping_add32 (n mod W) 1 = (n + 1) mod W.
Proof. unfold wrapping_add32. by rewrite Zplus_mod_idemp_l. Qed.

(** Two counts less than a ring apart have different slots. *)
Lemma slots_apart n a b : 0 < n -> a < b < a + n -> a mod n <> b mod n.
Proof.
  intros Hn Hab Heq. pose proof (Z.div_mod a n ltac:(lia)) as Ha. pose proof (Z.div_mod b n ltac:(lia)) as Hb. rewrite Heq in Ha.
  destruct (decide (b / n <= a / n)); nia.
Qed.

Lemma parts_set x p c y : parts (set_part x p c) y = if decide (y = x) then p else parts c y.
Proof. done. Qed.

(** The value a receiver copies out; a sender's is its own. *)
Definition carried (x : Side) (m : Z) (c : Chan) : Z := match x with Sender => m | Receiver => default 0 (memory c !! slot c (head c)) end.

Lemma side_step_parts x g m c : data_ok c ->
  parts (side_step x g m c) x = fst (move (parts c x) (parts c (other x)) (ready_for x c) g (carried x m c)) /\
  parts (side_step x g m c) (other x) = snd (move (parts c x) (parts c (other x)) (ready_for x c) g (carried x m c)).
Proof.
  intros Hd. pose proof (queued_exact c Hd) as Hq. unfold side_step, move, try_step, send_step, receive_step, wake_step, wait_step, sleep_step, ready_for. rewrite Hq.
  destruct x, (pos (parts c _)) eqn:Hk; cbn [other carried]; rewrite ?Hk;
    repeat (match goal with |- context [if ?b then _ else _] => lazymatch b with
            | decide _ => fail | _ => destruct b eqn:? end end); try done.
Qed.

(** Who changes the messages: only copying and publishing. *)
Lemma side_step_data x g m c : data_ok c -> (forall v, pos (parts c x) <> Publish v) -> pos (parts c x) <> Copy ->
  let c' := side_step x g m c in slots c' = slots c /\ tail c' = tail c /\ head c' = head c /\ memory c' = memory c /\ sent c' = sent c /\ got c' = got c.
Proof.
  intros Hd Hp Hc. unfold side_step, try_step, wake_step, wait_step, sleep_step. rewrite (queued_exact c Hd).
  destruct (pos (parts c x)) eqn:Hk; try done; try (by destruct (Hp m0));
    repeat (match goal with |- context [if ?b then _ else _] => lazymatch b with
            | decide _ => fail | _ => destruct b eqn:? end end); done.
Qed.

Lemma move_pos p q r g m : (forall v, pos p <> Publish v) -> pos p <> Copy ->
  pos (snd (move p q r g m)) = pos q /\ (forall v, pos (fst (move p q r g m)) <> Publish v) /\ (pos (fst (move p q r g m)) = Copy -> r = true).
Proof.
  intros Hp Hc. unfold move, unblock. destruct (pos p) eqn:Hk; try done; try (by destruct (Hp m0));
    repeat (match goal with |- context [if ?b then _ else _] => destruct b eqn:? end); cbn; rewrite ?Hk; done.
Qed.

Lemma move_other_pos p q r g m : pos (snd (move p q r g m)) = pos q.
Proof. unfold move, unblock. destruct (pos p); repeat (match goal with |- context [if ?b then _ else _] => destruct b eqn:? end); done. Qed.

(** Steps that copy or publish nothing. *)
Lemma quiet_step_data x g m c : data_ok c -> (forall v, pos (parts c x) <> Publish v) -> pos (parts c x) <> Copy -> data_ok (side_step x g m c).
Proof.
  intros Hd Hp Hc. pose proof (side_step_data x g m c Hd Hp Hc) as (Hs & Ht & Hh & Hm & Hse & Hg).
  destruct (side_step_parts x g m c Hd) as [Hx Hy]. destruct (move_pos (parts c x) (parts c (other x)) (ready_for x c) g (carried x m c) Hp Hc) as (Hpo & Hnp & Hcp).
  rewrite <- Hx in Hnp, Hcp. rewrite <- Hy in Hpo. pose proof (ready_exact x c Hd) as Hr. unfold backlog in Hr.
  destruct Hd as [D1 D2 D3 D4 D5 D6 D7 D8 D9]. split; rewrite ?Hs, ?Ht, ?Hh, ?Hm, ?Hse, ?Hg; try done.
  - destruct x; cbn [other] in Hpo; [|by rewrite Hpo]. destruct (pos (parts (side_step Sender g m c) Sender)) eqn:Hk; try done; [|by destruct (Hnp m0)].
    rewrite Hcp in Hr by done. cbn in Hr. lia.
  - destruct x; cbn [other] in Hpo; [by rewrite Hpo|]. destruct (pos (parts (side_step Receiver g m c) Receiver)) eqn:Hk; try done; [|by destruct (Hnp m0)].
    rewrite Hcp in Hr by done. cbn in Hr. lia.
Qed.

Lemma send_copy_data g m c : data_ok c -> pos (parts c Sender) = Copy -> data_ok (side_step Sender g m c).
Proof.
  intros Hd Hk. pose proof (slot_exact c (T c) Hd) as Hsl. destruct Hd as [D1 D2 D3 D4 D5 D6 D7 D8 D9]. unfold side_step, send_step. rewrite !Hk.
  rewrite D3, Hsl. rewrite Hk in D8. split; cbn [goto set_part slots tail head memory sent got parts]; try done.
  - intros k v Hle Hv. rewrite lookup_insert_ne; [by apply D7|]. apply lookup_lt_Some in Hv. intros Heq. symmetry in Heq. revert Heq. apply slots_apart; lia.
  - cbn. split; [done|]. apply lookup_insert_eq.
Qed.

Lemma send_publish_data g m v c : data_ok c -> pos (parts c Sender) = Publish v -> data_ok (side_step Sender g m c).
Proof.
  intros [D1 D2 D3 D4 D5 D6 D7 D8 D9] Hk. unfold side_step, send_step. rewrite !Hk, D3, wrap_succ. rewrite Hk in D8. destruct D8 as [Hroom Hm].
  split; cbn [goto set_part slots tail head memory sent got parts]; try done; rewrite ?length_app; cbn [length].
  - f_equal. lia.
  - lia.
  - rewrite take_app_le by lia. done.
  - intros k w Hle Hw. apply lookup_app_Some in Hw as [Hw|[Hge Hw]]; [by apply D7|]. apply list_lookup_singleton_Some in Hw as [Hz <-].
    replace k with (length (sent c)) by lia. done.
  - rewrite decide_False by done. destruct (pos (parts c Receiver)); try done; rewrite ?length_app; cbn [length]; [lia|]. destruct D9 as [Hlt Hw]. split; [lia|by apply lookup_app_l_Some].
Qed.

Lemma receive_copy_data g m c : data_ok c -> pos (parts c Receiver) = Copy -> data_ok (side_step Receiver g m c).
Proof.
  intros Hd Hk. pose proof (slot_exact c (H c) Hd) as Hsl. destruct Hd as [D1 D2 D3 D4 D5 D6 D7 D8 D9]. unfold side_step, receive_step. rewrite !Hk.
  rewrite D4, Hsl. rewrite Hk in D9. split; cbn [goto set_part slots tail head memory sent got parts]; try done.
  cbn. split; [done|]. destruct (lookup_lt_is_Some_2 (sent c) (length (got c))) as [v Hv]; [lia|]. by rewrite (D7 (length (got c)) v), Hv.
Qed.

Lemma receive_publish_data g m v c : data_ok c -> pos (parts c Receiver) = Publish v -> data_ok (side_step Receiver g m c).
Proof.
  intros [D1 D2 D3 D4 D5 D6 D7 D8 D9] Hk. unfold side_step, receive_step. rewrite !Hk, D4, wrap_succ. rewrite Hk in D9. destruct D9 as [Hlt Hv].
  split; cbn [goto set_part slots tail head memory sent got parts]; try done; rewrite ?length_app; cbn [length].
  - f_equal. lia.
  - lia.
  - rewrite Nat.add_1_r, (take_S_r _ _ v) by done. by rewrite <- D6.
  - intros k w Hle Hw. apply D7; [lia|done].
  - rewrite decide_False by done. destruct (pos (parts c Sender)); try done; rewrite ?length_app; cbn [length]; [lia|]. destruct D8 as [Hroom Hm]. split; [lia|done].
Qed.

Lemma side_step_data_ok x g m c : data_ok c -> data_ok (side_step x g m c).
Proof.
  intros Hd. destruct (pos (parts c x)) eqn:Hk; try (apply quiet_step_data; [done|by rewrite Hk..]).
  - destruct x; [by apply send_copy_data|by apply receive_copy_data].
  - destruct x; [by eapply send_publish_data|by eapply receive_publish_data].
Qed.

(** ** Both together *)

Record chan_ok (c : Chan) : Prop := {
  ck_data : data_ok c;
  ck_parts : forall x, part_ok (parts c x) (parts c (other x)) (ready_for x c);
}.

Lemma other_other x : other (other x) = x.
Proof. by destruct x. Qed.

Lemma part_ok_pos p p' q r : pos p' = pos p -> part_ok q p r -> part_ok q p' r.
Proof. intros Hp [Hf Hb Hl Hh]. split; rewrite ?Hp; done. Qed.

(** Only publishing changes what a side would find. *)
Lemma ready_step x g m c y : data_ok c -> (forall v, pos (parts c x) <> Publish v) -> ready_for y (side_step x g m c) = ready_for y c.
Proof.
  intros Hd Hp. rewrite !ready_exact by (done || by apply side_step_data_ok). unfold backlog. destruct (decide (pos (parts c x) = Copy)) as [Hc|Hc].
  - unfold side_step, send_step, receive_step. destruct x; by rewrite !Hc.
  - destruct (side_step_data x g m c Hd Hp Hc) as (-> & _ & _ & _ & -> & ->). done.
Qed.

Lemma step_ok e c : chan_ok c -> chan_ok (step e c).
Proof.
  intros [Hd Hp]. destruct e as [x g m|x]; cbn [step].
  - split; [by apply side_step_data_ok|]. destruct (side_step_parts x g m c Hd) as [Hx Hy].
    assert (Hr : forall y, match pos (parts c x) with Publish _ => True | _ => ready_for y (side_step x g m c) = ready_for y c end).
    { intros y. destruct (pos (parts c x)) eqn:Hk; try done; apply ready_step; try done; by rewrite Hk. }
    assert (Hown : part_ok (parts (side_step x g m c) x) (parts (side_step x g m c) (other x)) (ready_for x (side_step x g m c))).
    { rewrite Hx, Hy. apply move_own; [apply Hp|apply Hr]. }
    assert (Hoth : part_ok (parts (side_step x g m c) (other x)) (parts (side_step x g m c) x) (ready_for (other x) (side_step x g m c))).
    { rewrite Hx, Hy. eapply move_other; [|apply (Hr (other x))]. specialize (Hp (other x)). by rewrite other_other in Hp. }
    intros y. destruct (decide (y = x)) as [->|Hne]; [done|]. assert (y = other x) as -> by (by destruct x, y). by rewrite other_other.
  - assert (Hpos : pos (unblock (parts c x)) = pos (parts c x)) by (unfold unblock; by destruct (blocked _)). split.
    + destruct Hd as [D1 D2 D3 D4 D5 D6 D7 D8 D9]. split; try done; cbn [set_part parts].
      * case_decide as Hs; [subst x; by rewrite Hpos|done].
      * case_decide as Hs; [subst x; by rewrite Hpos|done].
    + intros y. rewrite !parts_set. change (ready_for y (set_part _ _ c)) with (ready_for y c). destruct (decide (y = x)) as [->|Hne].
      * rewrite decide_False by (by destruct x). destruct (Hp x) as [Hf Hb _ _]. destruct (unblock_free _ Hf Hb) as (H1 & H2 & H3). by apply part_ok_free.
      * assert (y = other x) as -> by (by destruct x, y). rewrite other_other, decide_True by done.
        apply (part_ok_pos (parts c x)); [done|]. specialize (Hp (other x)). by rewrite other_other in Hp.
Qed.

Lemma run_ok es : forall c, chan_ok c -> chan_ok (run es c).
Proof. induction es as [|e es IH]; intros c Hc; [done|]. apply IH. by apply step_ok. Qed.

Lemma new_chan_ok n : 0 < n < W -> (n | W) -> chan_ok (new_chan n).
Proof.
  intros Hn Hdiv. split; [split; cbn; try done; lia|]. intros x. by apply part_ok_free.
Qed.

Lemma step_slots e c : slots (step e c) = slots c.
Proof.
  destruct e as [x g m|x]; [|done]. cbn [step]. unfold side_step, try_step, send_step, receive_step, wake_step, wait_step, sleep_step.
  destruct x, (pos (parts c _)); repeat (match goal with |- context [match ?b with _ => _ end] => destruct b end); done.
Qed.

Lemma run_slots es : forall c, slots (run es c) = slots c.
Proof. induction es as [|e es IH]; intros c; [done|]. change (run (e :: es) c) with (run es (step e c)). by rewrite IH, step_slots. Qed.

(** C23: A ring whose number of slots divides the wrap of its counters is a reliable queue,
    however its two sides interleave and whatever else wakes their threads: what was
    received is what was sent, in order, with at most a ringful outstanding; the counters
    are never found inconsistent; a side that is parked, or about to be, although it has
    something to do is about to be woken by the other; and never are both parked. *)
Theorem ring_reliable n es : 2 <= n <= 4096 -> (n | W) ->
  let c := run es (new_chan n) in
  (exists rest, sent c = got c ++ rest /\ Z.of_nat (length rest) <= n /\ queued c = Some (Z.of_nat (length rest))) /\
  (forall x, stuck (parts c x) = true -> ready_for x c = true -> waking (pos (parts c (other x))) = true) /\
  ~ (stuck (parts c Sender) = true /\ stuck (parts c Receiver) = true).
Proof.
  intros Hn Hdiv c. destruct (run_ok es (new_chan n)) as [Hd Hp]; [apply new_chan_ok; [unfold W; lia|done]|]. fold c in Hd, Hp.
  pose proof (run_slots es (new_chan n)) as Hslots. fold c in Hslots. cbn [new_chan slots] in Hslots.
  split; [|split].
  - exists (drop (length (got c)) (sent c)). rewrite length_drop. pose proof (dk_between _ Hd). rewrite Hslots in *. split; [|split; [lia|]].
    + rewrite (dk_got _ Hd) at 1. by rewrite take_drop.
    + rewrite queued_exact by done. unfold backlog. f_equal. lia.
  - intros x. apply (pt_helped _ _ _ (Hp x)).
  - intros [Hs Hr].
    assert (Hno : forall x, stuck (parts c x) = true -> stuck (parts c (other x)) = true -> ready_for x c = false).
    { intros x Hx Hy. destruct (ready_for x c) eqn:Hrd; [|done]. pose proof (pt_helped _ _ _ (Hp x) Hx Hrd) as Hw. unfold stuck in Hy. by destruct (pos (parts c (other x))). }
    pose proof (Hno Sender Hs Hr) as H1. pose proof (Hno Receiver Hr Hs) as H2. rewrite ready_exact in H1, H2 by done. cbn in H1, H2. rewrite Hslots in *. lia.
Qed.

(** A parked side that has something to do is woken by the next three steps of the other,
    whatever their other inputs. *)
Theorem ring_wakes n es x g m : 2 <= n <= 4096 -> (n | W) ->
  let c := run es (new_chan n) in
  stuck (parts c x) = true -> ready_for x c = true ->
  exists k, (k <= 3)%nat /\ stuck (parts (run (replicate k (Step (other x) g m)) c) x) = false.
Proof.
  intros Hn Hdiv c Hs Hr. assert (Hok : chan_ok c) by (apply run_ok, new_chan_ok; [unfold W; lia|done]). clearbody c.
  assert (Hstep : forall c, chan_ok c -> waking (pos (parts c (other x))) = true -> stuck (parts c x) = true ->
    let c' := step (Step (other x) g m) c in
    match pos (parts c (other x)) with
    | ReadFlag => pos (parts c' (other x)) = WakeTake /\ stuck (parts c' x) = true
    | WakeTake => pos (parts c' (other x)) = WakeDo
    | _ => stuck (parts c' x) = false
    end).
  { clear c Hs Hr Hok. intros c Hok Hw Hs. destruct (side_step_parts (other x) g m c (ck_data _ Hok)) as [Hx Hy]. rewrite other_other in Hx, Hy.
    destruct (ck_parts _ Hok x) as [Hf Hb Hl Hh]. cbn [step]. rewrite Hx, Hy. unfold move. destruct (pos (parts c (other x))) eqn:Hk; try done.
    - assert (in_sleep (pos (parts c x)) = true) as Hin by (unfold stuck in Hs; by destruct (pos (parts c x))). by rewrite Hf, Hin.
    - destruct (Hl Hs) as [->|?]; done.
    - by apply unblock_free. }
  pose proof (pt_helped _ _ _ (ck_parts _ Hok x) Hs Hr) as Hw.
  pose proof (Hstep c Hok Hw Hs) as H1. pose proof (step_ok (Step (other x) g m) c Hok) as Hok1. set (c1 := step (Step (other x) g m) c) in *.
  assert (Hdo : forall c, chan_ok c -> pos (parts c (other x)) = WakeDo -> stuck (parts (step (Step (other x) g m) c) x) = false).
  { intros c0 Hok0 Hk. destruct (stuck (parts c0 x)) eqn:Hs0.
    - pose proof (Hstep c0 Hok0 ltac:(by rewrite Hk) Hs0) as H0. by rewrite Hk in H0.
    - destruct (side_step_parts (other x) g m c0 (ck_data _ Hok0)) as [_ Hy]. rewrite other_other in Hy. cbn [step]. rewrite Hy. unfold move. rewrite Hk.
      destruct (ck_parts _ Hok0 x) as [Hf Hb _ _]. by apply unblock_free. }
  destruct (pos (parts c (other x))) eqn:Hk; try done.
  - destruct H1 as [Hk1 Hs1]. exists 3%nat. split; [lia|]. pose proof (Hstep c1 Hok1 ltac:(by rewrite Hk1) Hs1) as H2. rewrite Hk1 in H2.
    apply Hdo; [by apply step_ok|exact H2].
  - exists 2%nat. split; [lia|]. by apply Hdo.
  - exists 1%nat. split; [lia|]. exact H1.
Qed.

Module RingRuns.

Definition s (m : Z) : Event := Step Sender false m.
Definition r : Event := Step Receiver true 0.

(** One message sent, and one received. *)
Definition send_one (m : Z) : list Event := replicate 4 (s m).
Definition receive_one : list Event := replicate 4 (Step Receiver false 0).

Lemma four_divides : (4 | W).
Proof. exists (2 ^ 30). reflexivity. Qed.

Lemma ring_reliable_witness :
  let c := run (send_one 7 ++ send_one 8 ++ receive_one) (new_chan 4) in sent c = [7; 8] /\ got c = [7] /\ exists rest, sent c = got c ++ rest.
Proof.
  intros c. destruct (ring_reliable 4 (send_one 7 ++ send_one 8 ++ receive_one) ltac:(lia) four_divides) as [(rest & Heq & _) _].
  split; [reflexivity|]. split; [reflexivity|]. exists rest. exact Heq.
Defined.

(** A receiver that found nothing and parked, and a message published after. *)
Definition parked : list Event := replicate 6 r ++ replicate 3 (s 7).

Lemma ring_wakes_witness :
  let c := run parked (new_chan 4) in stuck (parts c Receiver) = true /\ ready_for Receiver c = true /\
    exists k, (k <= 3)%nat /\ stuck (parts (run (replicate k (Step Sender false 0)) c) Receiver) = false.
Proof.
  intros c. split; [reflexivity|]. split; [reflexivity|].
  exact (ring_wakes 4 parked Receiver false 0 ltac:(lia) four_divides ltac:(reflexivity) ltac:(reflexivity)).
Defined.

(** *** A ring of three slots *)

Lemma run_app es es' c : run (es ++ es') c = run es' (run es c).
Proof. apply fold_left_app. Qed.

(** No side asleep, both between messages. *)
Definition calm (c : Chan) : Prop := forall x, pos (parts c x) = Try /\ flag (parts c x) = false.

Lemma run_cons e es c c' : step e c = c' -> run (e :: es) c = run es c'.
Proof. by intros <-. Qed.

Lemma step_try x g m c q : pos (parts c x) = Try -> queued c = Some q -> ready x q (slots c) = true -> step (Step x g m) c = goto x Copy c.
Proof. intros Hp Hq Hr. cbn [step]. unfold side_step. rewrite Hp. unfold try_step. by rewrite Hp, Hq, Hr. Qed.

Lemma step_quiet x g m c : pos (parts c x) = ReadFlag -> flag (parts c (other x)) = false -> step (Step x g m) c = goto x Try c.
Proof. intros Hp Hf. cbn [step]. unfold side_step. rewrite Hp. unfold wake_step. by rewrite Hp, Hf. Qed.

Lemma step_send g m c k : pos (parts c Sender) = k -> in_sleep k = false -> waking k = false -> k <> Try -> k <> SetFlag ->
  step (Step Sender g m) c = send_step m c.
Proof. intros Hp. cbn [step]. unfold side_step. rewrite Hp. destruct k; done. Qed.

Lemma step_receive g m c k : pos (parts c Receiver) = k -> in_sleep k = false -> waking k = false -> k <> Try -> k <> SetFlag ->
  step (Step Receiver g m) c = receive_step c.
Proof. intros Hp. cbn [step]. unfold side_step. rewrite Hp. destruct k; done. Qed.

Lemma send_one_run c m q : calm c -> queued c = Some q -> q < slots c ->
  let c' := run (send_one m) c in calm c' /\ slots c' = slots c /\ tail c' = wrapping_add32 (tail c) 1 /\ head c' = head c /\
    memory c' = <[slot c (tail c) := m]> (memory c) /\ sent c' = sent c ++ [m] /\ got c' = got c.
Proof.
  intros Hc Hq Hlt. destruct (Hc Sender) as [Hs Hsf], (Hc Receiver) as [Hr Hrf]. unfold send_one, s. cbn [replicate].
  erewrite run_cons by (apply step_try with q; [done|done|apply Z.ltb_lt; done]).
  erewrite run_cons by (by apply (step_send _ _ _ Copy)). unfold send_step at 1. rewrite (eq_refl : pos (parts (goto Sender Copy c) Sender) = Copy).
  erewrite run_cons by (by apply (step_send _ _ _ (Publish m))). unfold send_step. cbn [pos parts goto set_part].
  erewrite run_cons by (by apply step_quiet). split; [|done].
  intros x. destruct x; [split; [done|exact Hsf]|split; [exact Hr|exact Hrf]].
Qed.

Lemma receive_one_run c q : calm c -> queued c = Some q -> 0 < q ->
  let c' := run receive_one c in calm c' /\ slots c' = slots c /\ tail c' = tail c /\ head c' = wrapping_add32 (head c) 1 /\
    memory c' = memory c /\ sent c' = sent c /\ got c' = got c ++ [default 0 (memory c !! slot c (head c))].
Proof.
  intros Hc Hq Hlt. destruct (Hc Sender) as [Hs Hsf], (Hc Receiver) as [Hr Hrf]. unfold receive_one. cbn [replicate].
  erewrite run_cons by (apply step_try with q; [done|done|apply Z.ltb_lt; done]).
  erewrite run_cons by (by apply (step_receive _ _ _ Copy)). unfold receive_step at 1. rewrite (eq_refl : pos (parts (goto Receiver Copy c) Receiver) = Copy).
  erewrite run_cons by (by apply (step_receive _ _ _ (Publish (default 0 (memory c !! slot c (head c)))))). unfold receive_step. cbn [pos parts goto set_part].
  erewrite run_cons by (by apply step_quiet). split; [|done].
  intros x. destruct x; [split; [exact Hs|exact Hsf]|split; [done|exact Hrf]].
Qed.

(** After [k] messages were sent and received one at a time. *)
Lemma cycles k : exists es, let c := run es (new_chan 3) in
  calm c /\ slots c = 3 /\ tail c = Z.of_nat k mod W /\ head c = Z.of_nat k mod W /\ sent c = replicate k 0 /\ got c = replicate k 0.
Proof.
  induction k as [|k [es IH]]; [by exists []|]. exists ((es ++ send_one 0) ++ receive_one). rewrite !run_app. set (c := run es (new_chan 3)) in *.
  destruct IH as (Hc & Hs & Ht & Hh & Hse & Hg).
  assert (Hq : queued c = Some 0) by (unfold queued, wrapping_sub32; rewrite Ht, Hh, Hs, Z.sub_diag; reflexivity).
  destruct (send_one_run c 0 0 Hc Hq ltac:(lia)) as (Hc1 & Hs1 & Ht1 & Hh1 & Hm1 & Hse1 & Hg1). set (c1 := run (send_one 0) c) in *.
  assert (Hq1 : queued c1 = Some 1).
  { unfold queued, wrapping_sub32. rewrite Ht1, Hh1, Hs1, Hs, Ht, Hh, wrap_succ. rewrite <- Zminus_mod. replace (Z.of_nat k + 1 - Z.of_nat k) with 1 by lia. reflexivity. }
  destruct (receive_one_run c1 1 Hc1 Hq1 ltac:(lia)) as (Hc2 & Hs2 & Ht2 & Hh2 & Hm2 & Hse2 & Hg2).
  split_and!; [exact Hc2|congruence|..].
  - rewrite Ht2, Ht1, Ht, wrap_succ. f_equal. lia.
  - rewrite Hh2, Hh1, Hh, wrap_succ. f_equal. lia.
  - rewrite Hse2, Hse1, Hse, replicate_S_end. done.
  - rewrite Hg2, Hg1, Hg, replicate_S_end. f_equal. f_equal. rewrite Hm1, Hh1, Ht, Hh. unfold slot. rewrite Hs1. by rewrite lookup_insert_eq.
Qed.

(** The tail about to wrap: two messages in turn have the same slot. *)
Lemma wrap_at k : Z.of_nat k = W - 1 -> exists es, let c := run es (new_chan 3) in exists old, sent c = old ++ [1; 2] /\ got c = old ++ [2].
Proof.
  intros Hk. destruct (cycles k) as [es Hes]. exists (((es ++ send_one 1) ++ send_one 2) ++ receive_one). rewrite !run_app.
  set (c := run es (new_chan 3)) in *. rewrite Hk in Hes. rewrite Z.mod_small in Hes by (unfold W; lia).
  destruct Hes as (Hc & Hs & Ht & Hh & Hse & Hg). revert Hse Hg. generalize (replicate k 0). intros old Hse Hg. clearbody c.
  assert (Hq : queued c = Some 0) by (unfold queued, wrapping_sub32; rewrite Ht, Hh, Hs, Z.sub_diag; reflexivity).
  destruct (send_one_run c 1 0 Hc Hq ltac:(lia)) as (Hc1 & Hs1 & Ht1 & Hh1 & Hm1 & Hse1 & Hg1). set (c1 := run (send_one 1) c) in *. clearbody c1.
  rewrite Ht in Ht1. change (wrapping_add32 (W - 1) 1) with 0 in Ht1. rewrite Hh in Hh1. rewrite Hs in Hs1.
  assert (Hq1 : queued c1 = Some 1) by (unfold queued, wrapping_sub32; rewrite Ht1, Hh1, Hs1; reflexivity).
  destruct (send_one_run c1 2 1 Hc1 Hq1 ltac:(lia)) as (Hc2 & Hs2 & Ht2 & Hh2 & Hm2 & Hse2 & Hg2). set (c2 := run (send_one 2) c1) in *. clearbody c2.
  rewrite Ht1 in Ht2. change (wrapping_add32 0 1) with 1 in Ht2. rewrite Hh1 in Hh2. rewrite Hs1 in Hs2.
  assert (Hq2 : queued c2 = Some 2) by (unfold queued, wrapping_sub32; rewrite Ht2, Hh2, Hs2; reflexivity).
  destruct (receive_one_run c2 2 Hc2 Hq2 ltac:(lia)) as (_ & _ & _ & _ & _ & Hse3 & Hg3). exists old. rewrite Hse3, Hse2, Hse1, Hse, Hg3, Hg2, Hg1, Hg.
  split; [by rewrite <- app_assoc|]. f_equal. f_equal. rewrite Hm2, Hh2. unfold slot. rewrite Hs2, Hs1, Ht1.
  change ((W - 1) mod 3) with (0 mod 3). by rewrite lookup_insert_eq.
Qed.

(** Three does not divide the wrap of the counters: when the tail wraps, two messages in
    turn have the same slot, and the receiver is given the second in place of the first. *)
Theorem wrap_loses_a_message : exists es, let c := run es (new_chan 3) in
  exists old, sent c = old ++ [1; 2] /\ got c = old ++ [2].
Proof. apply (wrap_at (Z.to_nat (W - 1))), Z2Nat.id. discriminate. Qed.

End RingRuns.
