(* ===== verification/Ring.v ===== *)
(** * The registry of rings (kernel/src/ring.rs)

    A ring is an endpoint with pages attached: making one, mapping its sides, parking and
    waking, and withdrawing a thread, over the endpoints, the buffers and the page tables. *)

From stdpp Require Import base list gmap numbers list_numbers.
From Stdlib Require Import Lia ZifyBool.
From S2P Require Import Prelude Frame Quota Paging PagingInv PagingSplit PagingUnmap PagingSpace PagingMap Userspace Elf ElfSpec ElfTheorems UserLoad Ipc RingChannel Sharing Gbm.

Definition SLOT_BYTES : Z := 64.
Definition MAX_SLOTS : Z := 4096.
Definition SLOT_COUNT : Z := 0.
Definition TAIL : Z := 0.
Definition HEAD : Z := 0.
Definition INFO_PAGE : nat := 0.
Definition SENDER_PAGE : nat := 1.
Definition RECEIVER_PAGE : nat := 2.
Definition FIRST_SLOT_PAGE : nat := 3.

(** [Side::from_raw] and [Side::right] *)
Definition from_raw (raw : Z) : result Error Side :=
  if raw =? 0 then Ok Sender else if raw =? 1 then Ok Receiver else Err InvalidArgument.
Definition right (x : Side) : Z := match x with Sender => R_SEND | Receiver => R_RECEIVE end.

Record Ring : Type := {
  rn_owner : nat;
  rn_owner_gone : bool;
  rn_frames : list Z;
  rn_slots : Z;
  rn_sides : Side -> option (nat * Z);
  rn_sleeping : Side -> option nat;
}.

(** A [BTreeMap] by endpoint id: the ids of new endpoints are the largest. *)
Record Rings : Type := { rs_gbm : Gbm; rs_ipc : Ipc.Registry; rs_rings : list (Z * Ring) }.

Abbreviation K A := (M Rings Error A).

Definition set_gbm (s : Rings) (g : Gbm) : Rings := {| rs_gbm := g; rs_ipc := rs_ipc s; rs_rings := rs_rings s |}.
Definition set_rings (s : Rings) (l : list (Z * Ring)) : Rings := {| rs_gbm := rs_gbm s; rs_ipc := rs_ipc s; rs_rings := l |}.
Definition set_ipc (s : Rings) (r : Ipc.Registry) : Rings := {| rs_gbm := rs_gbm s; rs_ipc := r; rs_rings := rs_rings s |}.

Definition in_gbm {A} (m : M Gbm Error A) : K A := fun s => let '(r, g) := m (rs_gbm s) in (r, set_gbm s g).
Definition in_ipc {A} (m : M Ipc.Registry Error A) : K A := fun s => let '(r, i) := m (rs_ipc s) in (r, set_ipc s i).

(** [with(|rings| ..)] *)
Definition rings : K (list (Z * Ring)) := fun s => (Ok (rs_rings s), s).
Definition put_rings (l : list (Z * Ring)) : K unit := fun s => (Ok tt, set_rings s l).

Definition set_side {A} (x : Side) (v : A) (f : Side -> A) : Side -> A := fun y => if decide (y = x) then v else f y.

Definition with_side (x : Side) (v : option (nat * Z)) (r : Ring) : Ring :=
  {| rn_owner := rn_owner r; rn_owner_gone := rn_owner_gone r; rn_frames := rn_frames r; rn_slots := rn_slots r;
     rn_sides := set_side x v (rn_sides r); rn_sleeping := rn_sleeping r |}.
Definition with_sleeper (x : Side) (v : option nat) (r : Ring) : Ring :=
  {| rn_owner := rn_owner r; rn_owner_gone := rn_owner_gone r; rn_frames := rn_frames r; rn_slots := rn_slots r;
     rn_sides := rn_sides r; rn_sleeping := set_side x v (rn_sleeping r) |}.
Definition with_owner_gone (r : Ring) : Ring :=
  {| rn_owner := rn_owner r; rn_owner_gone := true; rn_frames := rn_frames r; rn_slots := rn_slots r;
     rn_sides := rn_sides r; rn_sleeping := rn_sleeping r |}.

(** *** Memory through the physical window *)

Definition memory_of (s : Rings) : gmap Z Z := ld_bytes (us_loader (gb_user (rs_gbm s))).
Definition set_memory (s : Rings) (m : gmap Z Z) : Rings :=
  let u := gb_user (rs_gbm s) in
  set_gbm s (Gbm.set_user (rs_gbm s) {| us_loader := {| ld_paging := ld_paging (us_loader u); ld_bytes := m |}; us_slots := us_slots u; us_threads := us_threads u |}).

Definition write_physical (address : Z) (bs : list Z) : K unit := fun s =>
  (Ok tt, set_memory s (fold_left (fun m '(i, b) => <[address + Z.of_nat i := b]> m) (imap pair bs) (memory_of s))).

Definition read_physical (s : Rings) (address : Z) (n : nat) : list Z :=
  (fun i : nat => default 0 (memory_of s !! (address + Z.of_nat i))) <$> seq 0 n.

Fixpoint zero_frames (fs : list Z) : K unit :=
  match fs with
  | [] => mret tt
  | f :: rest => write_physical f (replicate 4096 0) ;; zero_frames rest
  end.

(** [Ring::counter] *)
Definition counter (s : Rings) (r : Ring) (page : nat) (offset : Z) : result Error Z :=
  match rn_frames r !! page with
  | Some f => Ok (from_le_bytes (read_physical s (f + offset) 4))
  | None => Panic
  end.

Definition ring_queued (s : Rings) (r : Ring) : result Error (option Z) :=
  tail ← counter s r SENDER_PAGE TAIL;
  head ← counter s r RECEIVER_PAGE HEAD;
  let queued := wrapping_sub32 tail head in
  Ok (if queued <=? rn_slots r then Some queued else None).

Definition ring_ready_for (s : Rings) (r : Ring) (x : Side) : result Error bool :=
  q ← ring_queued s r;
  Ok (match q with None => true | Some q => ready x q (rn_slots r) end).

Section Ring.
Context `{Mapper}.

Definition create (owner : nat) (slots : Z) : K Z :=
  guard_err (negb ((2 <=? slots) && (slots <=? MAX_SLOTS))) InvalidArgument ;;
  s ← get;
  endpoint ← in_ipc (ipc_create (gb_quotas (rs_gbm s)) owner 1);
  let pages := (FIRST_SLOT_PAGE + Z.to_nat (div_ceil (slots * SLOT_BYTES) PAGE_SIZE))%nat in
  frames ← in_gbm (paged same_error (take_frames pages []));
  zero_frames frames ;;
  info ← lift (match frames !! INFO_PAGE with Some f => Ok f | None => Panic end);
  write_physical (info + SLOT_COUNT) (to_le_bytes 4 slots) ;;
  l ← rings;
  put_rings (l ++ [(endpoint, {| rn_owner := owner; rn_owner_gone := false; rn_frames := frames; rn_slots := slots;
                                 rn_sides := fun _ => None; rn_sleeping := fun _ => None |})]) ;;
  mret endpoint.

Definition read_only : Z := Z.lor (Z.lor (bit PRESENT) (bit USER_ACCESSIBLE)) (bit NO_EXECUTE).

Definition writable_page (x : Side) (index : nat) : bool :=
  match x with
  | Sender => (index =? SENDER_PAGE)%nat || (FIRST_SLOT_PAGE <=? index)%nat
  | Receiver => (index =? RECEIVER_PAGE)%nat
  end.

Definition side_flags (x : Side) (index : nat) : Z := if writable_page x index then Z.lor read_only (bit WRITABLE) else read_only.

Definition map (thread : nat) (endpoint : Z) (x : Side) : K Z :=
  s ← get;
  guard_err (negb (r_contains (rights_of (rs_ipc s) thread endpoint) (right x))) NoCapability ;;
  l ← rings;
  ring ← lift (ok_or NoSuchEndpoint (lookup_id endpoint l));
  match rn_sides ring x with
  | Some (holder, address) => if bool_decide (holder = thread) then mret address else fail AlreadyExists
  | None =>
      address ← in_gbm (reserve_address thread (Z.of_nat (length (rn_frames ring)) * PAGE_SIZE));
      put_rings (update_id endpoint (with_side x (Some (thread, address))) l) ;;
      target ← in_gbm (target_space thread);
      in_gbm (paged to_out_of_memory (map_frames target address (side_flags x) 0 (rn_frames ring))) ;;
      mret address
  end.

Definition holds (thread : nat) (v : option (nat * Z)) : bool :=
  match v with Some (holder, _) => bool_decide (holder = thread) | None => false end.

Definition side_of (r : Ring) (thread : nat) : result Error Side :=
  if holds thread (rn_sides r Sender) then Ok Sender else if holds thread (rn_sides r Receiver) then Ok Receiver else Err NoCapability.

(** The look under the lock in [wait]: whether the thread must park. *)
Definition wait_register (thread : nat) (endpoint : Z) : K bool :=
  l ← rings;
  ring ← lift (ok_or NoSuchEndpoint (lookup_id endpoint l));
  x ← lift (side_of ring thread);
  s ← get;
  ready ← lift (ring_ready_for s ring x);
  if ready : bool then mret false
  else put_rings (update_id endpoint (with_sleeper x (Some thread)) l) ;; mret true.

(** The look after a park that did not happen. *)
Definition wait_look (thread : nat) (endpoint : Z) : K bool :=
  l ← rings;
  ring ← lift (ok_or NoSuchEndpoint (lookup_id endpoint l));
  x ← lift (side_of ring thread);
  s ← get;
  lift (ring_ready_for s ring x).

(** [wake]: the thread to unblock, if one is listed. *)
Definition wake (thread : nat) (endpoint : Z) : K (option nat) :=
  l ← rings;
  ring ← lift (ok_or NoSuchEndpoint (lookup_id endpoint l));
  x ← lift (side_of ring thread);
  put_rings (update_id endpoint (with_sleeper (other x) None) l) ;;
  mret (rn_sleeping ring (other x)).

Definition ring_count (s : Rings) : nat := length (rs_rings s).

(** What the loop of [release_thread] does to one ring. *)
Definition leave_side (thread : nat) (x : Side) (r : Ring) : Ring := if holds thread (rn_sides r x) then with_side x None r else r.
Definition leave_sleep (thread : nat) (x : Side) (r : Ring) : Ring :=
  if bool_decide (rn_sleeping r x = Some thread) then with_sleeper x None r else r.
Definition leave (thread : nat) (r : Ring) : Ring :=
  let r := if bool_decide (rn_owner r = thread) then with_owner_gone r else r in
  leave_sleep thread Receiver (leave_sleep thread Sender (leave_side thread Receiver (leave_side thread Sender r))).

Definition left_span (thread : nat) (r : Ring) (x : Side) : list (Z * Z) :=
  match rn_sides r x with
  | Some (holder, address) => if bool_decide (holder = thread) then [(address, Z.of_nat (length (rn_frames r)))] else []
  | None => []
  end.

Definition is_dead (r : Ring) : bool := rn_owner_gone r && bool_decide (rn_sides r Sender = None) && bool_decide (rn_sides r Receiver = None).

Definition release_thread (thread : nat) : K unit :=
  l ← rings;
  let spans := flat_map (fun '(_, r) => left_span thread r Sender ++ left_span thread r Receiver) l in
  let l := (fun '(id, r) => (id, leave thread r)) <$> l in
  let dead := filter (fun '(_, r) => is_dead r = true) l in
  let alive := filter (fun '(_, r) => is_dead r = false) l in
  put_rings alive ;;
  target ← in_gbm (target_space thread);
  in_gbm (unmap_spans target spans) ;;
  in_gbm (paged same_error (give_back (flat_map (fun '(_, r) => rn_frames r) dead))).

(** *** System calls, with the thread that makes them *)

Definition ring_caller (current : option nat) : K nat := lift (ok_or InvalidArgument current).

Definition sys_ring_create (current : option nat) (slots : Z) : K Z :=
  guard_err (U32_MAX <? slots) InvalidArgument ;;
  owner ← ring_caller current;
  create owner slots.

Definition sys_ring_map (current : option nat) (endpoint side : Z) : K Z :=
  thread ← ring_caller current;
  x ← lift (from_raw side);
  map thread endpoint x.

Definition sys_ring_wake (current : option nat) (endpoint : Z) : K (option nat) :=
  thread ← ring_caller current;
  wake thread endpoint.

End Ring.
