(* ===== verification/RingTheorems.v ===== *)
(** * Rings are safe beside buffers

    Whatever sequence of requests threads make of rings and buffers: a ring's frames are
    its own, every page that leads to one is the mapping of a side, and each header page
    is writable to one side only. *)

From stdpp Require Import base list gmap numbers list_numbers.
From Stdlib Require Import Lia ZifyBool.
From S2P Require Import Prelude Frame Quota Paging PagingInv PagingSplit PagingUnmap PagingSpace PagingMap Userspace Elf ElfSpec ElfTheorems UserLoad Ipc IpcTheorems RingChannel Sharing Gbm GbmTheorems Ring.

(** ** The invariant *)

Definition side_record (r : Ring) (x : Side) : list (nat * Z * (nat -> Z)) :=
  match rn_sides r x with Some (t, a) => [(t, a, side_flags x)] | None => [] end.

Definition ring_object (r : Ring) : Shared :=
  {| sh_frames := rn_frames r; sh_owned := true; sh_maps := side_record r Sender ++ side_record r Receiver |}.
Definition ring_objects (l : list (Z * Ring)) : list Shared := (fun '(_, r) => ring_object r) <$> l.

Definition ring_pages (slots : Z) : nat := (FIRST_SLOT_PAGE + Z.to_nat (div_ceil (slots * SLOT_BYTES) PAGE_SIZE))%nat.

Record ring_ok (r : Ring) : Prop := {
  ro_slots : 2 <= rn_slots r <= MAX_SLOTS;
  ro_frames : length (rn_frames r) = ring_pages (rn_slots r);
  ro_span : forall x t a, rn_sides r x = Some (t, a) -> span_ok a (length (rn_frames r));
}.

Record rings_ok (target : nat -> Z) (s : Rings) (lvl : levels) : Prop := {
  rk_gbm : gbm_ok target (ring_objects (rs_rings s)) (rs_gbm s) lvl;
  rk_ring_ids : NoDup (rs_rings s).*1;
  rk_ring_below : forall id r, (id, r) ∈ rs_rings s -> id < r_next_id (rs_ipc s);
  rk_rings : forall id r, (id, r) ∈ rs_rings s -> ring_ok r;
}.

Lemma side_record_elem r t a fl : (t, a, fl) ∈ sh_maps (ring_object r) <-> exists x, rn_sides r x = Some (t, a) /\ fl = side_flags x.
Proof.
  cbn. unfold side_record. rewrite elem_of_app. split.
  - intros [Hin|Hin]; [exists Sender|exists Receiver]; destruct (rn_sides r _) as [[t' a']|]; (by apply elem_of_nil in Hin) || by apply list_elem_of_singleton in Hin as [= -> -> ->].
  - intros ([] & -> & ->); [left|right]; by left.
Qed.

Lemma ring_relabels target s r r' : rn_frames r' = rn_frames r ->
  (forall x t a, rn_sides r x = Some (t, a) -> rn_sides r' x = Some (t, a) \/ dangling target s (ring_object r) t a) ->
  relabels target s (ring_object r) (ring_object r').
Proof.
  intros Hf Hs. split; [done|]. split; [done|]. intros t a fl (x & Hx & ->)%side_record_elem.
  destruct (Hs x t a Hx); [left; apply side_record_elem; by exists x|by right].
Qed.

(** ** Requests that leave memory alone *)

Lemma set_memory_ok target s lvl m : rings_ok target s lvl -> rings_ok target (set_memory s m) lvl.
Proof. intros [[Hs Ht Hr Hsl] Hid Hb Hok]. by split. Qed.

(** A change of one ring that keeps its memory and its sides. *)
Lemma rings_update target s lvl id f : rings_ok target s lvl ->
  (forall r, ring_object (f r) = ring_object r /\ rn_slots (f r) = rn_slots r /\ rn_sides (f r) = rn_sides r) ->
  rings_ok target (set_rings s (update_id id f (rs_rings s))) lvl.
Proof.
  intros [Hg Hid Hb Hok] Hf. unfold update_id.
  assert (Hback : forall k r, (k, r) ∈ (fun '(k, b) => (k, if k =? id then f b else b)) <$> rs_rings s -> exists r0, (k, r0) ∈ rs_rings s /\ (r = r0 \/ r = f r0)).
  { intros k r Hin. apply list_elem_of_fmap in Hin as ([k0 r0] & Heq & Hin). injection Heq as -> ->. exists r0. destruct (k0 =? id); auto. }
  assert (Hobj : ring_objects ((fun '(k, b) => (k, if k =? id then f b else b)) <$> rs_rings s) = ring_objects (rs_rings s)).
  { unfold ring_objects. rewrite <- list_fmap_compose. apply list_fmap_ext. intros i [k r] _. cbn. destruct (k =? id); [apply Hf|done]. }
  split; cbn [set_rings rs_rings rs_gbm rs_ipc].
  - by rewrite Hobj.
  - rewrite <- list_fmap_compose. assert (fst ∘ (fun '(k, b) => (k, if k =? id then f b else b)) <$> rs_rings s = (rs_rings s).*1) as -> by (apply list_fmap_ext; by intros ? [] ?). done.
  - intros k r Hin. destruct (Hback k r Hin) as (r0 & Hr0 & _). by apply (Hb k r0).
  - intros k r Hin. destruct (Hback k r Hin) as (r0 & Hr0 & [-> | ->]); [by apply (Hok k)|]. destruct (Hf r0) as (Ho & Hsl & Hsd). destruct (Hok k r0 Hr0) as [H1 H2 H3].
    assert (Hfr : rn_frames (f r0) = rn_frames r0) by (change (sh_frames (ring_object (f r0)) = sh_frames (ring_object r0)); by rewrite Ho).
    split; rewrite ?Hsl, ?Hfr, ?Hsd; done.
Qed.

Lemma counter_run s r k offset : ring_ok r -> (k < FIRST_SLOT_PAGE)%nat -> exists v, counter s r k offset = Ok v.
Proof.
  intros [Hsl Hf _] Hk. unfold counter. destruct (rn_frames r !! k) as [f|] eqn:Hl; [by eexists|]. apply lookup_ge_None in Hl. rewrite Hf in Hl. unfold ring_pages in Hl. lia.
Qed.

Lemma ready_run s r x : ring_ok r -> exists b, ring_ready_for s r x = Ok b.
Proof.
  intros Hr. unfold ring_ready_for, ring_queued. destruct (counter_run s r SENDER_PAGE TAIL Hr ltac:(unfold SENDER_PAGE, FIRST_SLOT_PAGE; lia)) as [t ->].
  destruct (counter_run s r RECEIVER_PAGE HEAD Hr ltac:(unfold RECEIVER_PAGE, FIRST_SLOT_PAGE; lia)) as [h ->]. by eexists.
Qed.

Lemma side_of_run r t : (exists x, side_of r t = Ok x) \/ side_of r t = Err NoCapability.
Proof. unfold side_of. destruct (holds t _); [eauto|]. destruct (holds t _); eauto. Qed.

Lemma lookup_ring_ok target s lvl id r : rings_ok target s lvl -> lookup_id id (rs_rings s) = Some r -> ring_ok r.
Proof.
  intros Hok Hl. destruct (lookup_id_split _ _ _ Hl) as (before & after & Heq). apply (rk_rings _ _ _ Hok id). rewrite Heq. set_solver.
Qed.

Lemma with_sleeper_same x v r : ring_object (with_sleeper x v r) = ring_object r /\ rn_slots (with_sleeper x v r) = rn_slots r /\ rn_sides (with_sleeper x v r) = rn_sides r.
Proof. done. Qed.

Lemma wait_register_ok target s lvl thread endpoint : rings_ok target s lvl ->
  let '(r, s') := wait_register thread endpoint s in r <> Panic /\ rings_ok target s' lvl.
Proof.
  intros Hok. unfold wait_register, rings, put_rings, lift. cbv beta iota delta [mbind M_bind get].
  destruct (lookup_id endpoint (rs_rings s)) as [r|] eqn:Hl; cbn [ok_or]; [|done]. pose proof (lookup_ring_ok _ _ _ _ _ Hok Hl) as Hr.
  destruct (side_of_run r thread) as [[x ->]| ->]; [|done]. destruct (ready_run s r x Hr) as [[] ->]; [done|]. split; [done|].
  apply rings_update; [done|]. intros. apply with_sleeper_same.
Qed.

Lemma wait_look_ok target s lvl thread endpoint : rings_ok target s lvl ->
  let '(r, s') := wait_look thread endpoint s in r <> Panic /\ s' = s.
Proof.
  intros Hok. unfold wait_look, rings, lift. cbv beta iota delta [mbind M_bind get].
  destruct (lookup_id endpoint (rs_rings s)) as [r|] eqn:Hl; cbn [ok_or]; [|done]. pose proof (lookup_ring_ok _ _ _ _ _ Hok Hl) as Hr.
  destruct (side_of_run r thread) as [[x ->]| ->]; [|done]. by destruct (ready_run s r x Hr) as [b ->].
Qed.

Lemma wake_ok target s lvl thread endpoint : rings_ok target s lvl ->
  let '(r, s') := wake thread endpoint s in r <> Panic /\ rings_ok target s' lvl.
Proof.
  intros Hok. unfold wake, rings, put_rings, lift. cbv beta iota delta [mbind M_bind].
  destruct (lookup_id endpoint (rs_rings s)) as [r|] eqn:Hl; cbn [ok_or]; [|done].
  destruct (side_of_run r thread) as [[x ->]| ->]; [|done]. split; [done|]. apply rings_update; [done|]. intros. apply with_sleeper_same.
Qed.

(** ** Making a ring *)

Lemma write_physical_run address bs s : write_physical address bs s = (Ok tt, snd (write_physical address bs s)).
Proof. done. Qed.

Lemma zero_frames_run fs : forall s, exists m, zero_frames fs s = (Ok tt, set_memory s m).
Proof.
  induction fs as [|f fs IH]; intros s; cbn [zero_frames].
  - exists (memory_of s). destruct s as [[[[]] ? ? ?] ? ?]. done.
  - unfold write_physical. cbv beta iota delta [mbind M_bind]. destruct (IH (set_memory s (fold_left (λ m '(i, b), <[f + Z.of_nat i := b]> m) (imap pair (replicate 4096 0)) (memory_of s)))) as [m Hm].
    exists m. rewrite Hm. done.
Qed.

Section Operations.
Context `{!Mapper, !TranslateLaw, !MapLaw, !UnmapLaw} (target : nat -> Z).

(** Endpoints come and go beside the rings. *)
Lemma rings_ipc s lvl r : rings_ok target s lvl -> r_next_id (rs_ipc s) <= r_next_id r -> rings_ok target (set_ipc s r) lvl.
Proof. intros [Hg Hid Hb Hok] Hle. split; try done. intros id x Hin. specialize (Hb id x Hin). cbn. lia. Qed.

Lemma add_rights_next quotas t e rights r : r_next_id (snd (add_rights quotas t e rights r)) = r_next_id r.
Proof. unfold add_rights. destruct (find_capability _ _); [done|]. by destruct (_ >=? _). Qed.

Lemma add_rights_returns quotas t e rights r : fst (add_rights quotas t e rights r) <> Panic.
Proof. unfold add_rights. destruct (find_capability _ _); [done|]. by destruct (_ >=? _). Qed.

Lemma ipc_create_next quotas owner capacity r : r_next_id r < U64_MAX ->
  let '(o, r') := ipc_create quotas owner capacity r in o <> Panic /\ r_next_id r <= r_next_id r' /\
    forall id, o = Ok id -> id = r_next_id r /\ r_next_id r' = r_next_id r + 1.
Proof.
  intros Hid. unfold ipc_create, insert_endpoint, guard_err. cbv beta iota delta [mbind M_bind get]. destruct (_ || _); [done|]. cbn [mret M_ret].
  destruct (_ >=? q_endpoints _); [done|]. cbn [mret M_ret]. destruct (r_next_id r >=? U64_MAX) eqn:Hx; [lia|].
  set (r1 := {| r_endpoints := _ |}). pose proof (add_rights_next quotas owner (r_next_id r) (r_union (r_union R_SEND R_RECEIVE) R_GRANT) r1) as Hn.
  pose proof (add_rights_returns quotas owner (r_next_id r) (r_union (r_union R_SEND R_RECEIVE) R_GRANT) r1) as Hnp.
  destruct (add_rights _ _ _ _ r1) as [[[]|e|] r2]; cbn [fst snd] in *; [| |done]; change (r_next_id r1) with (r_next_id r + 1) in Hn;
    (split; [done|]); (split; [lia|]); intros id Hx2; simplify_eq; lia.
Qed.

Lemma ring_create_ok s lvl owner slots : rings_ok target s lvl -> r_next_id (rs_ipc s) < U64_MAX ->
  let '(r, s') := create owner slots s in r <> Panic /\ rings_ok target s' lvl.
Proof.
  intros Hok Hnext. unfold create, guard_err. cbv beta iota delta [mbind M_bind get]. destruct ((2 <=? slots) && (slots <=? MAX_SLOTS)) eqn:Hsl; cbn [negb]; [|done]. cbn [mret M_ret].
  unfold in_ipc. pose proof (ipc_create_next (gb_quotas (rs_gbm s)) owner 1 (rs_ipc s) Hnext) as Hc.
  destruct (ipc_create _ owner 1 (rs_ipc s)) as [[id|e|] i]; destruct Hc as (Hp & Hle & Hid); [|split; [done|by apply rings_ipc]|done].
  destruct (Hid id eq_refl) as [-> Hi]. set (s1 := set_ipc s i). pose proof (rings_ipc s lvl i Hok ltac:(lia)) as Hok1. fold s1 in Hok1.
  unfold in_gbm, paged. change (rs_gbm s1) with (rs_gbm s). set (n := (FIRST_SLOT_PAGE + _)%nat).
  pose proof (gk_sharing _ _ _ _ (rk_gbm _ _ _ Hok1)) as Hsh. change (rs_rings s1) with (rs_rings s) in Hsh. change (rs_gbm s1) with (rs_gbm s) in Hsh.
  pose proof (take_frames_sharing target lvl _ n (gb_paging (rs_gbm s)) [] (sharing_add target _ _ _ (fresh_object []) Hsh eq_refl ltac:(done))) as Ht.
  destruct (take_frames n [] (gb_paging (rs_gbm s))) as [[fs|e|] p]; [| |done].
  2:{ destruct Ht as (-> & Hs' & Hrest). split; [done|]. destruct Hok1 as [Hg Hids Hb Hro]. split; try done. by apply (gbm_paged target _ _ lvl). }
  destruct Ht as (Hs' & Hrest & Hlen). cbn [length] in Hlen. set (s2 := set_gbm s1 _). destruct (zero_frames_run fs s2) as [m ->].
  destruct (fs !! INFO_PAGE) as [info|] eqn:Hinfo; [|apply lookup_ge_None in Hinfo; unfold INFO_PAGE, n, FIRST_SLOT_PAGE in *; lia].
  cbn [lift]. unfold rings, put_rings. split; [done|]. set (ring := {| rn_owner := _ |}).
  apply (set_memory_ok target (set_rings s2 (rs_rings s ++ [(r_next_id (rs_ipc s), ring)]))). destruct Hok as [Hg Hids Hb Hro].
  split; cbn [set_rings rs_rings rs_gbm rs_ipc s2 set_gbm s1 set_ipc].
  - apply (gbm_repaged target (ring_objects (rs_rings s)) _ _ lvl); [done| |done].
    eapply sharing_perm; [exact Hs'|]. unfold ring_objects. rewrite fmap_app, <- !app_assoc. apply Permutation_app_head. apply Permutation_app_comm.
  - rewrite fmap_app. apply NoDup_app. split; [done|]. split; [|apply NoDup_singleton]. intros k Hin Hx. apply list_elem_of_singleton in Hx as ->.
    apply list_elem_of_fmap in Hin as ([k x] & Heq & Hin). apply Hb in Hin. cbn in Heq. lia.
  - intros k x [Hin|Hin]%elem_of_app; [apply Hb in Hin; lia|]. apply list_elem_of_singleton in Hin as [= -> ->]. lia.
  - intros k x [Hin|Hin]%elem_of_app; [by apply (Hro k)|]. apply list_elem_of_singleton in Hin as [= -> ->].
    split; cbn; [unfold MAX_SLOTS in *; lia|exact Hlen|done].
Qed.

(** ** Mapping a side *)

Lemma side_flags_present x i : has (side_flags x i) PRESENT = true /\ has (side_flags x i) HUGE_PAGE = false.
Proof. unfold side_flags. by destruct (writable_page x i). Qed.

Lemma set_side_same {A} x (v : A) f : set_side x v f x = v.
Proof. unfold set_side. by rewrite decide_True. Qed.

Lemma set_side_other {A} x y (v : A) f : y <> x -> set_side x v f y = f y.
Proof. intros Hne. unfold set_side. by rewrite decide_False. Qed.

Lemma with_side_ok x t a r : ring_ok r -> span_ok a (length (rn_frames r)) -> ring_ok (with_side x (Some (t, a)) r).
Proof.
  intros [Hsl Hf Hs] Ha. split; try done. intros y t' a'. cbn. unfold set_side. case_decide as Hd; [|apply Hs]. intros [= -> ->]. done.
Qed.

(** A ring in its place among the others. *)
Lemma rings_split s lvl id r : rings_ok target s lvl -> lookup_id id (rs_rings s) = Some r ->
  exists before after, rs_rings s = before ++ (id, r) :: after /\
    forall f, update_id id f (rs_rings s) = before ++ (id, f r) :: after.
Proof.
  intros Hok Hl. destruct (lookup_id_split _ _ _ Hl) as (before & after & Heq). exists before, after. split; [done|].
  intros f. rewrite Heq. apply update_split. rewrite <- Heq. apply Hok.
Qed.

(** One ring replaced, with what its page tables now show. *)
Lemma rings_replace s lvl id r f before after g lvl' : rings_ok target s lvl -> rs_rings s = before ++ (id, r) :: after -> ring_ok (f r) ->
  gbm_ok target (ring_objects (before ++ (id, f r) :: after)) g lvl' ->
  rings_ok target {| rs_gbm := g; rs_ipc := rs_ipc s; rs_rings := before ++ (id, f r) :: after |} lvl'.
Proof.
  intros [Hg Hids Hb Hro] Heq Hf Hg'. rewrite Heq in *. split; cbn [rs_gbm rs_rings rs_ipc]; [done| | |].
  - by rewrite fmap_app in *.
  - intros k x [Hin|[Hin|Hin]%elem_of_cons]%elem_of_app; [apply (Hb k x); set_solver|simplify_eq; apply (Hb id r); set_solver|apply (Hb k x); set_solver].
  - intros k x [Hin|[Hin|Hin]%elem_of_cons]%elem_of_app; [apply (Hro k x); set_solver|by simplify_eq|apply (Hro k x); set_solver].
Qed.

Lemma ring_objects_split before id r after : ring_objects (before ++ (id, r) :: after) = ring_objects before ++ ring_object r :: ring_objects after.
Proof. unfold ring_objects. by rewrite fmap_app. Qed.

(** What mapping a side leaves behind. *)
Definition side_outcome (s : Rings) (lvl : levels) (thread : nat) (endpoint : Z) (x : Side) (out : result Error Z * Rings) : Prop :=
  exists lvl', rings_ok target (snd out) lvl' /\
  match fst out with
  | Ok a => exists r, lookup_id endpoint (rs_rings s) = Some r /\ r_contains (rights_of (rs_ipc s) thread endpoint) (right x) = true /\
      (rn_sides r x = Some (thread, a) /\ snd out = s \/
       rn_sides r x = None /\ span_ok a (length (rn_frames r)) /\
       (forall i f, rn_frames r !! i = Some f ->
          page_of (gb_paging (rs_gbm (snd out))) (target thread) (a + Z.of_nat i * 4096) = Some (f, side_flags x i)) /\
       forall root page, lvl !! root = Some 4%nat -> user_page page ->
         ~ (root = target thread /\ a <= page < a + Z.of_nat (length (rn_frames r)) * 4096) ->
         page_of (gb_paging (rs_gbm (snd out))) root page = page_of (gb_paging (rs_gbm s)) root page)
  | Err _ => True
  | Panic => False
  end.

Lemma ring_map_correct s lvl thread endpoint x : rings_ok target s lvl -> side_outcome s lvl thread endpoint x (map thread endpoint x s).
Proof.
  intros Hok. unfold map, guard_err, rings, put_rings, lift. cbv beta iota delta [mbind M_bind get].
  destruct (r_contains _ (right x)) eqn:Hr; cbn [negb]; [|by exists lvl]. cbn [mret M_ret].
  destruct (lookup_id endpoint (rs_rings s)) as [r|] eqn:Hl; cbn [ok_or]; [|by exists lvl].
  destruct (rn_sides r x) as [[holder address]|] eqn:Hx.
  { case_bool_decide as Hd; [|by exists lvl]. subst holder. exists lvl. split; [done|]. exists r. split_and!; auto. }
  pose proof (lookup_ring_ok _ _ _ _ _ Hok Hl) as Hro. unfold in_gbm, reserve_address.
  pose proof (reserve_ok target _ (rs_gbm s) lvl thread (length (rn_frames r)) (rk_gbm _ _ _ Hok)) as Hres.
  destruct (reserve thread _ (rs_gbm s)) as [[a|e|] g1]; [| |by destruct Hres as (_ & _ & _ & [])].
  2:{ destruct Hres as (Hok1 & _). exists lvl. split; [|done]. destruct Hok. by split. }
  destruct Hres as (Hok1 & Hp1 & Hb1 & Hspan & _). destruct (rings_split s lvl endpoint r Hok Hl) as (before & after & Heq & Hup). rewrite Hup.
  set (f := with_side x (Some (thread, a))). cbn [set_rings rs_gbm set_gbm].
  assert (Hok2 : gbm_ok target (ring_objects (before ++ (endpoint, f r) :: after)) g1 lvl).
  { apply (gbm_beside target (ring_objects (rs_rings s))); [done|]. pose proof (gk_sharing _ _ _ _ Hok1) as Hs. rewrite Heq, ring_objects_split, <- app_assoc in Hs.
    rewrite ring_objects_split, <- app_assoc. apply (sharing_relabel_one target _ _ _ (ring_object r)); [exact Hs|]. apply ring_relabels; [done|].
    intros y t' a' Hy. left. cbn. rewrite set_side_other; [done|]. intros ->. congruence. }
  rewrite (target_space_run g1 thread (target thread)) by apply Hok1. unfold paged. cbn [set_rings rs_gbm set_gbm].
  assert (Hin : ring_object (f r) ∈ ring_objects (before ++ (endpoint, f r) :: after) ++ objects (buffers (gb_registry g1))) by (rewrite ring_objects_split; set_solver).
  destruct (map_frames_sharing target _ (ring_object (f r)) thread a (side_flags x) (rn_frames r) Hin
    ltac:(apply side_record_elem; exists x; split; [cbn; apply set_side_same|done]) Hspan ltac:(apply side_flags_present)
    (gb_paging g1) lvl [] eq_refl (gk_sharing _ _ _ _ Hok2)) as (o & s3 & lvl3 & Hrun & Hok3 & Hrest3 & _ & Hr3 & Hoth & Hmap).
  cbn [length] in Hrun. rewrite Hrun. exists lvl3. cbn [fst snd length] in *.
  assert (Hfin : rings_ok target (set_gbm (set_rings s (before ++ (endpoint, f r) :: after)) (set_user g1 (set_paging (gb_user g1) s3))) lvl3).
  { apply (rings_replace s lvl endpoint r f); [done|done|by apply with_side_ok|]. by apply (gbm_paged target _ g1 lvl). }
  destruct o as [[]|e|]; [|split; done|done]. split; [exact Hfin|]. exists r. split_and!; try done. right. split_and!; try done.
  - intros i g Hg. apply Hmap; [lia|done].
  - intros root page H4 Hp Hnot. cbn. change (page_of s3 root page = page_of (gb_paging (rs_gbm s)) root page). rewrite <- Hp1. apply Hoth; [done|done|].
    intros [-> ?]. apply Hnot. split; [done|]. cbn in *. lia.
Qed.

(** ** Withdrawing a thread *)

Lemma leave_side_sides thread x r y : rn_sides (leave_side thread x r) y = if decide (y = x) then (if holds thread (rn_sides r x) then None else rn_sides r x) else rn_sides r y.
Proof.
  unfold leave_side. destruct (holds thread (rn_sides r x)) eqn:Hh; [cbn; unfold set_side; case_decide; [by subst|done]|]. by case_decide; subst.
Qed.

Lemma leave_fields thread r : rn_frames (leave thread r) = rn_frames r /\ rn_slots (leave thread r) = rn_slots r /\
  forall x, rn_sides (leave thread r) x = if holds thread (rn_sides r x) then None else rn_sides r x.
Proof.
  unfold leave. set (r0 := if bool_decide (rn_owner r = thread) then _ else r).
  assert (Hr0 : rn_frames r0 = rn_frames r /\ rn_slots r0 = rn_slots r /\ rn_sides r0 = rn_sides r) by (unfold r0; by case_bool_decide).
  destruct Hr0 as (<- & <- & <-). clearbody r0.
  assert (Hs : forall x q, rn_frames (leave_sleep thread x q) = rn_frames q /\ rn_slots (leave_sleep thread x q) = rn_slots q /\ rn_sides (leave_sleep thread x q) = rn_sides q)
    by (intros x q; unfold leave_sleep; by case_bool_decide).
  assert (Hl : forall x q, rn_frames (leave_side thread x q) = rn_frames q /\ rn_slots (leave_side thread x q) = rn_slots q) by (intros x q; unfold leave_side; by destruct (holds _ _)).
  set (q2 := leave_side thread Receiver _). destruct (Hs Receiver (leave_sleep thread Sender q2)) as (-> & -> & ->), (Hs Sender q2) as (-> & -> & ->).
  unfold q2. destruct (Hl Receiver (leave_side thread Sender r0)) as [-> ->], (Hl Sender r0) as [-> ->]. split; [done|]. split; [done|].
  intros [|]; rewrite !leave_side_sides; done.
Qed.

Lemma leave_ok thread r : ring_ok r -> ring_ok (leave thread r).
Proof.
  intros [Hsl Hf Hs]. destruct (leave_fields thread r) as (Efr & Esl & Esd). split; rewrite ?Efr, ?Esl; try done.
  intros x t a. rewrite Esd. destruct (holds thread (rn_sides r x)); [done|]. apply Hs.
Qed.

Lemma holds_true thread v : holds thread v = true -> exists a, v = Some (thread, a).
Proof. destruct v as [[t a]|]; cbn; [|done]. intros ->%bool_decide_eq_true. by exists a. Qed.

Lemma left_span_elem thread r x a p : (a, p) ∈ left_span thread r x <-> rn_sides r x = Some (thread, a) /\ p = Z.of_nat (length (rn_frames r)).
Proof.
  unfold left_span. destruct (rn_sides r x) as [[t b]|]; [|split; [by intros ?%elem_of_nil|by intros [? _]]].
  case_bool_decide as Hd; [rewrite list_elem_of_singleton; subst; split; [by intros [= -> ->]|by intros [[= ->] ->]]|].
  split; [by intros ?%elem_of_nil|]. intros [[= ->] _]. done.
Qed.

Lemma dead_records r : is_dead r = true -> sh_maps (ring_object r) = [].
Proof.
  unfold is_dead. intros [[_ Ha%bool_decide_eq_true]%andb_true_iff Hb%bool_decide_eq_true]%andb_true_iff. cbn. unfold side_record. by rewrite Ha, Hb.
Qed.

Lemma flat_map_ring_frames l : flat_map (fun '(_, r) => rn_frames r) l = owned_frames (ring_objects l).
Proof. unfold owned_frames, ring_objects. induction l as [|[k r] l IH]; [done|]. cbn [flat_map fmap list_fmap]. by rewrite IH. Qed.

Lemma ring_release_ok s lvl thread : rings_ok target s lvl ->
  let '(r, s') := release_thread thread s in r = Ok tt /\ (exists lvl', rings_ok target s' lvl') /\
    gb_registry (rs_gbm s') = gb_registry (rs_gbm s) /\
    forall id q x a, (id, q) ∈ rs_rings s' -> rn_sides q x <> Some (thread, a).
Proof.
  intros Hok. unfold release_thread, rings, put_rings. cbv beta iota delta [mbind M_bind]. set (l0 := rs_rings s).
  set (spans := flat_map _ l0). set (l := _ <$> l0). set (dead := filter (fun '(_, r) => is_dead r = true) l).
  set (alive := filter (fun '(_, r) => is_dead r = false) l). pose proof Hok as [Hg Hids Hb Hro]. unfold in_gbm. cbn [set_rings rs_gbm].
  rewrite (target_space_run (rs_gbm s) thread (target thread)) by apply Hg. cbn [set_gbm rs_gbm].
  pose proof (gk_sharing _ _ _ _ Hg) as Hsh. fold l0 in Hsh. pose proof (sk_target _ _ _ _ Hsh) as Htgt.
  assert (Hspan : forall a p, (a, p) ∈ spans -> exists id r x, (id, r) ∈ l0 /\ rn_sides r x = Some (thread, a) /\ p = Z.of_nat (length (rn_frames r))).
  { intros a p Hin. apply list_elem_of_In, in_flat_map in Hin as ([id r] & Hin%list_elem_of_In & Hx%list_elem_of_In).
    apply elem_of_app in Hx as [Hx|Hx]; apply left_span_elem in Hx; eauto. }
  destruct (unmap_spans_run target _ (target thread) spans (rs_gbm s) lvl Hsh (Htgt thread)) as (s2 & lvl2 & -> & Hok2 & Hrest2 & _ & Hv2).
  { intros a p Hin. destruct (Hspan a p Hin) as (id & r & x & Hr & Hx & ->). rewrite Nat2Z.id. split; [lia|]. by apply (ro_span _ (Hro id r Hr) x thread). }
  assert (Hok3 : sharing_ok target s2 lvl2 (ring_objects l ++ objects (buffers (gb_registry (rs_gbm s))))).
  { eapply sharing_relabel; [exact Hok2|]. apply Forall2_app; [|apply Forall_Forall2_diag, Forall_forall; intros; apply relabels_refl].
    unfold ring_objects, l. rewrite <- list_fmap_compose. apply Forall2_fmap_l, Forall2_fmap_r, Forall_Forall2_diag, Forall_forall.
    intros [id r] Hin. cbn. destruct (leave_fields thread r) as (Efr & _ & Esd). apply ring_relabels; [done|]. intros x t a Hx. rewrite Esd, Hx. cbn [holds].
    case_bool_decide as Hd; [right; subst t|by left]. intros i Hi Hpg. cbn in Hi. rewrite Hv2 by done. rewrite bool_decide_true by done. cbn [andb].
    assert (spans_cover spans (a + i * 4096) = true) as ->; [|done]. apply existsb_exists. exists (a, Z.of_nat (length (rn_frames r))). split; [|lia].
    apply in_flat_map. exists (id, r). split; [by apply list_elem_of_In|]. apply list_elem_of_In, elem_of_app.
    destruct x; [left|right]; by apply left_span_elem. }
  assert (Hperm : ring_objects l ≡ₚ ring_objects dead ++ ring_objects alive).
  { unfold ring_objects. rewrite <- fmap_app. apply fmap_Permutation. rewrite <- (filter_app_complement (fun '(_, r) => is_dead r = true) l) at 1.
    apply Permutation_app_head. unfold alive. rewrite (list_filter_iff _ (fun '(_, r) => is_dead r = false)); [done|]. intros [id r]. apply not_true_iff_false. }
  set (bs := objects (buffers (gb_registry (rs_gbm s)))) in *.
  destruct (free_objects_sharing (E:=Error) target s2 lvl2 (ring_objects l ++ bs) (ring_objects alive ++ bs) (ring_objects dead) Hok3) as (s3 & Hfree & Hok4 & Hrest3 & _).
  { by rewrite Hperm, app_assoc. }
  { apply sublist_app; [|done]. unfold ring_objects. apply fmap_sublist, sublist_filter. }
  { intros o Hin. apply list_elem_of_fmap in Hin as ([id r] & -> & [Hd _]%list_elem_of_filter). by apply dead_records. }
  rewrite flat_map_ring_frames. unfold paged. cbn [set_gbm rs_gbm]. change (gb_paging (set_user (rs_gbm s) _)) with s2. rewrite Hfree.
  assert (Hin_l : forall id r, (id, r) ∈ alive -> exists r0, (id, r0) ∈ l0 /\ r = leave thread r0).
  { intros id r [_ Hin]%list_elem_of_filter. apply list_elem_of_fmap in Hin as ([id0 r0] & Heq & Hin). injection Heq as -> ->. eauto. }
  split; [done|]. split; [exists lvl2; split; cbn [set_gbm set_rings rs_gbm rs_rings rs_ipc]|split; [done|]].
  - apply (gbm_repaged target (ring_objects l0) _ (set_user (rs_gbm s) (set_paging (gb_user (rs_gbm s)) s2)) lvl2); [|exact Hok4|exact Hrest3].
    by apply (gbm_paged target _ _ lvl).
  - assert (Hl : alive.*1 `sublist_of` l0.*1).
    { unfold alive. etrans; [apply fmap_sublist, sublist_filter|]. unfold l. rewrite <- list_fmap_compose.
      assert (fst ∘ (fun '(id, r) => (id, leave thread r)) <$> l0 = l0.*1) as -> by (apply list_fmap_ext; by intros ? [] ?). done. }
    by eapply sublist_NoDup.
  - intros id r Hin. destruct (Hin_l id r Hin) as (r0 & Hr0 & _). by apply (Hb id r0).
  - intros id r Hin. destruct (Hin_l id r Hin) as (r0 & Hr0 & ->). apply leave_ok. by apply (Hro id).
  - intros id q x a Hin. destruct (Hin_l id q Hin) as (r0 & Hr0 & ->). destruct (leave_fields thread r0) as (_ & _ & ->).
    destruct (holds thread (rn_sides r0 x)) eqn:Hh; [done|]. intros Hx. rewrite Hx in Hh. cbn in Hh. by rewrite bool_decide_true in Hh.
Qed.

(** ** Any sequence of requests *)

Inductive RingRequest : Type :=
| RgCreate (owner : nat) (slots : Z)
| RgMap (thread : nat) (endpoint : Z) (x : Side)
| RgWait (thread : nat) (endpoint : Z)
| RgLook (thread : nat) (endpoint : Z)
| RgWake (thread : nat) (endpoint : Z)
| RgRelease (thread : nat)
| RgGrant (granter target : nat) (endpoint rights : Z)
| RgForget (thread : nat)
| RgBuffer (q : Request).

Definition quietly {A} (m : M Rings Error A) : M Rings Error unit := _ ← m; mret tt.

Definition ring_perform (q : RingRequest) : M Rings Error unit :=
  match q with
  | RgCreate owner slots => quietly (create owner slots)
  | RgMap thread endpoint x => quietly (map thread endpoint x)
  | RgWait thread endpoint => quietly (wait_register thread endpoint)
  | RgLook thread endpoint => quietly (wait_look thread endpoint)
  | RgWake thread endpoint => quietly (wake thread endpoint)
  | RgRelease thread => release_thread thread
  | RgGrant granter t endpoint rights => s ← get; in_ipc (ipc_grant (gb_quotas (rs_gbm s)) granter t endpoint rights)
  | RgForget thread => fun s => (Ok tt, set_ipc s (ipc_release thread (rs_ipc s)))
  | RgBuffer q => in_gbm (perform q)
  end.

(** Endpoint ids do not run out. *)
Definition ring_acceptable (s : Rings) (q : RingRequest) : Prop :=
  match q with
  | RgCreate _ _ => r_next_id (rs_ipc s) < U64_MAX
  | RgBuffer q => acceptable target (rs_gbm s) q
  | _ => True
  end.

Inductive ring_steps : Rings -> Rings -> Prop :=
| rs_refl s : ring_steps s s
| rs_step s q r s1 s2 : ring_acceptable s q -> ring_perform q s = (r, s1) -> ring_steps s1 s2 -> ring_steps s s2.

Lemma quietly_run {A} (m : M Rings Error A) s : quietly m s = (match fst (m s) with Ok _ => Ok tt | Err e => Err e | Panic => Panic end, snd (m s)).
Proof. unfold quietly. cbv beta iota delta [mbind M_bind]. by destruct (m s) as [[] ?]. Qed.

Lemma grant_next quotas granter t e rights r : let '(o, r') := ipc_grant quotas granter t e rights r in o <> Panic /\ r_next_id r' = r_next_id r.
Proof.
  unfold ipc_grant, guard_err. cbv beta iota delta [mbind M_bind get].
  destruct (bool_decide _); [done|]. cbn [mret M_ret]. destruct (negb _); [done|]. cbn [mret M_ret]. destruct (r_is_empty _); [done|]. cbn [mret M_ret].
  pose proof (add_rights_next quotas t e (r_intersection rights (rights_of r granter e)) r) as Hn.
  pose proof (add_rights_returns quotas t e (r_intersection rights (rights_of r granter e)) r) as Hp. by destruct (add_rights _ _ _ _ r).
Qed.

Lemma ring_perform_ok s lvl q : rings_ok target s lvl -> ring_acceptable s q ->
  let '(r, s') := ring_perform q s in r <> Panic /\ exists lvl', rings_ok target s' lvl'.
Proof.
  intros Hok Ha. destruct q; cbn [ring_perform ring_acceptable] in *; rewrite ?quietly_run.
  - pose proof (ring_create_ok s lvl owner slots Hok Ha) as Hc. destruct (create owner slots s) as [[] s']; naive_solver.
  - destruct (ring_map_correct s lvl thread endpoint x Hok) as (lvl' & Hm & Hr). destruct (map thread endpoint x s) as [[] s']; cbn [fst snd] in *; [|..|done]; eauto.
  - pose proof (wait_register_ok target s lvl thread endpoint Hok) as Hc. destruct (wait_register thread endpoint s) as [[] s']; naive_solver.
  - pose proof (wait_look_ok target s lvl thread endpoint Hok) as Hc. destruct (wait_look thread endpoint s) as [[] s']; naive_solver.
  - pose proof (wake_ok target s lvl thread endpoint Hok) as Hc. destruct (wake thread endpoint s) as [[] s']; naive_solver.
  - pose proof (ring_release_ok s lvl thread Hok) as Hc. destruct (release_thread thread s) as [r s']. naive_solver.
  - unfold in_ipc. cbv beta iota delta [mbind M_bind get]. pose proof (grant_next (gb_quotas (rs_gbm s)) granter target0 endpoint rights (rs_ipc s)) as Hn.
    destruct (ipc_grant _ _ _ _ _ (rs_ipc s)) as [o i]. destruct Hn as [Hp Hn]. split; [done|]. exists lvl. apply rings_ipc; [done|lia].
  - split; [done|]. exists lvl. by apply rings_ipc.
  - unfold in_gbm. pose proof (perform_ok target _ (rs_gbm s) lvl q (rk_gbm _ _ _ Hok) Ha) as Hc. destruct (perform q (rs_gbm s)) as [r g]. destruct Hc as (Hp & lvl' & Hg).
    split; [done|]. exists lvl'. destruct Hok. by split.
Qed.

Lemma ring_steps_ok s s' : ring_steps s s' -> forall lvl, rings_ok target s lvl -> exists lvl', rings_ok target s' lvl'.
Proof.
  induction 1 as [s|s q r s1 s2 Ha Hp _ IH]; intros lvl Hok; [eauto|].
  pose proof (ring_perform_ok s lvl q Hok Ha) as Hq. rewrite Hp in Hq. destruct Hq as (_ & lvl' & Hok'). by eapply IH.
Qed.

Lemma side_flags_writable x i : has (side_flags x i) WRITABLE = true <-> match x with Sender => i = 1%nat \/ (3 <= i)%nat | Receiver => i = 2%nat end.
Proof.
  unfold side_flags. assert (Hw : has (if writable_page x i then Z.lor read_only (bit WRITABLE) else read_only) WRITABLE = writable_page x i) by (by destruct (writable_page x i)).
  rewrite Hw. unfold writable_page, SENDER_PAGE, RECEIVER_PAGE, FIRST_SLOT_PAGE. destruct x; lia.
Qed.

Lemma side_flags_data x i : has (side_flags x i) NO_EXECUTE = true.
Proof. unfold side_flags. by destruct (writable_page x i). Qed.

(** C24: Rings are safe beside buffers: however threads make, map, wait on, wake and give up
    rings, pass on their rights and use buffers, no request panics; every frame of a ring
    is in use and belongs to no other ring and to no buffer; and every page of every space
    that leads to it is in its place in the mapping of the thread that holds a side, not
    executable, and writable exactly if it is the sender's mapping of the page with the
    tail (1) or of a page of slots (from 3), or the receiver's of the page with the head
    (2). *)
Theorem rings_safe s lvl s' :
  rings_ok target s lvl -> ring_steps s s' ->
  exists lvl', rings_ok target s' lvl' /\ (forall q, ring_acceptable s' q -> fst (ring_perform q s') <> Panic) /\
    forall id r f, (id, r) ∈ rs_rings s' -> f ∈ rn_frames r ->
      in_use (gb_paging (rs_gbm s')) lvl' f /\
      (forall id' r', (id', r') ∈ rs_rings s' -> f ∈ rn_frames r' -> ring_object r' = ring_object r) /\
      (forall id' b, (id', b) ∈ buffers (gb_registry (rs_gbm s')) -> f ∉ b_frames b) /\
      forall root page flags, lvl' !! root = Some 4%nat -> user_page page -> page_of (gb_paging (rs_gbm s')) root page = Some (f, flags) ->
        exists x t a i, rn_sides r x = Some (t, a) /\ root = target t /\ rn_frames r !! i = Some f /\ page = a + Z.of_nat i * 4096 /\
          (has flags WRITABLE = true <-> match x with Sender => i = 1%nat \/ (3 <= i)%nat | Receiver => i = 2%nat end) /\ has flags NO_EXECUTE = true.
Proof.
  intros Hok0 Hsteps. destruct (ring_steps_ok s s' Hsteps lvl Hok0) as [lvl' Hok]. clear s lvl Hok0 Hsteps. rename s' into s, lvl' into lvl.
  exists lvl. split; [done|]. split.
  { intros q Ha. pose proof (ring_perform_ok s lvl q Hok Ha) as Hq. by destruct (ring_perform q s) as [r s'], Hq. }
  intros id r f Hin Hf. pose proof (gk_sharing _ _ _ _ (rk_gbm _ _ _ Hok)) as [_ _ Ho Hfo Hn Hr _].
  set (objs := ring_objects (rs_rings s) ++ objects (buffers (gb_registry (rs_gbm s)))) in *.
  assert (Hobj : forall id r, (id, r) ∈ rs_rings s -> ring_object r ∈ objs) by (intros i y Hy; apply elem_of_app; left; apply list_elem_of_fmap; by exists (i, y)).
  assert (Huse : in_use (gb_paging (rs_gbm s)) lvl f) by (apply Ho, owned_elem; exists (ring_object r); split; [by apply (Hobj id)|done]).
  split; [done|]. split; [|split].
  - intros id' r' Hin' Hf'. eapply owned_unique; [exact Hn|by eapply Hobj|by eapply Hobj|done|done].
  - intros id' b Hin' Hb. assert (Hbo : object_of b ∈ objs) by (apply elem_of_app; right; apply list_elem_of_fmap; by exists (id', b)).
    destruct (b_owns_frames b) eqn:Hown.
    + unfold objs, owned_frames in Hn. rewrite flat_map_app in Hn. apply NoDup_app in Hn as (_ & Hdis & _). apply (Hdis f).
      * apply owned_elem. exists (ring_object r). split; [apply list_elem_of_fmap; by exists (id, r)|done].
      * apply owned_elem. exists (object_of b). split; [apply list_elem_of_fmap; by exists (id', b)|]. unfold own_frames. cbn. by rewrite Hown.
    + apply (foreign_not_in_use (gb_paging (rs_gbm s)) lvl f); [|done]. by apply (Hfo (object_of b)).
  - intros root page flags H4 Hpage Hx. destruct (Hr (ring_object r) root page f flags (Hobj id r Hin) Hf H4 Hpage Hx) as (t & a & fl & i & Hta & -> & -> & Hi & ->).
    apply side_record_elem in Hta as (x & Hsx & ->). exists x, t, a, i. split_and!; try done; [apply side_flags_writable|apply side_flags_data].
Qed.

(** Why a thread's buffers and rings are given up before its space is torn down: once they
    are, no page of a space that only it uses leads to a frame of a buffer or of a ring, so
    that freeing what the space maps frees none of them. *)
Theorem exit_unshares s lvl thread :
  rings_ok target s lvl -> (forall u, target u = target thread -> u = thread) ->
  let '(r1, s1) := ring_perform (RgBuffer (BufRelease thread)) s in
  let '(r2, s2) := ring_perform (RgRelease thread) s1 in
  r1 = Ok tt /\ r2 = Ok tt /\ exists lvl', rings_ok target s2 lvl' /\
    forall page f flags, user_page page -> page_of (gb_paging (rs_gbm s2)) (target thread) page = Some (f, flags) ->
      (forall id q, (id, q) ∈ rs_rings s2 -> f ∉ rn_frames q) /\
      forall id b, (id, b) ∈ buffers (gb_registry (rs_gbm s2)) -> b_owns_frames b = true -> f ∉ b_frames b.
Proof.
  intros Hok Hown. cbn [ring_perform perform]. unfold in_gbm. pose proof (buffer_release_ok target _ (rs_gbm s) lvl thread (rk_gbm _ _ _ Hok)) as Hb.
  destruct (Gbm.release_thread thread (rs_gbm s)) as [r1 g1]. destruct Hb as (Hp1 & [lvl1 Hg1] & Hb1).
  set (s1 := set_gbm s g1). assert (Hok1 : rings_ok target s1 lvl1) by (destruct Hok; by split).
  pose proof (ring_release_ok s1 lvl1 thread Hok1) as Hr. destruct (release_thread thread s1) as [r2 s2].
  destruct Hr as (Hp2 & [lvl2 Hok2] & Hreg & Hr2). split; [done|]. split; [done|]. exists lvl2. split; [done|].
  intros page f flags Hpage Hx. pose proof (gk_sharing _ _ _ _ (rk_gbm _ _ _ Hok2)) as [_ Htgt _ _ _ Hrec _].
  set (objs := ring_objects (rs_rings s2) ++ objects (buffers (gb_registry (rs_gbm s2)))) in *. split.
  - intros id q Hin Hf. destruct (Hrec (ring_object q) (target thread) page f flags) as (t & a & fl & i & Hta & Heq & _); try done.
    { apply elem_of_app. left. apply list_elem_of_fmap. by exists (id, q). }
    apply side_record_elem in Hta as (x & Hsx & _). rewrite (Hown t) in Hsx by done. by apply (Hr2 id q x a Hin).
  - intros id b Hin Hob Hf. destruct (Hrec (object_of b) (target thread) page f flags) as (t & a & fl & i & Hta & Heq & _); try done.
    { apply elem_of_app. right. apply list_elem_of_fmap. by exists (id, b). }
    { unfold own_frames. cbn. by rewrite Hob. }
    apply record_elem in Hta as [Hta _]. rewrite (Hown t) in Hta by done. rewrite Hreg in Hin. destruct (Hb1 id b Hin) as [Hno _]. apply Hno, list_elem_of_fmap. by exists (thread, a).
Qed.
End Operations.
