(* ===== verification/RingCases.v ===== *)
(** * Runs of the ring registry

    A machine with a process of its own space on which the theorems about rings apply, and
    requests that end badly. *)

From stdpp Require Import base list gmap numbers list_numbers.
From Stdlib Require Import Lia ZifyBool.
From S2P Require Import Prelude Frame Quota Paging PagingInv PagingSplit PagingUnmap PagingSpace PagingMap PagingRef PagingRuns Userspace Elf ElfSpec ElfTheorems UserLoad Ipc IpcTheorems RingChannel Sharing Gbm GbmTheorems GbmRuns Ring RingTheorems.

Import PagingRuns ElfRuns UserLoadRuns.

(** Thread 3 has a space of its own, with nothing in it yet. *)
Definition two_tables : Paging.memory := <[frame_at 5 := row [(0%nat, entry (frame_at 2) rwu)]]> idle_tables.
Definition two_levels : levels := <[frame_at 5 := 4%nat]> idle_levels.

Definition two_paging : Paging :=
  {| tables := two_tables;
     frames := {| bitmap := 63 :: replicate 7 0; total_frames := 64; used_frames := 6; next_hint := 0 |};
     cr3 := frame_at 1; KERNEL_SPACE := Some (frame_at 1); PHYSICAL_OFFSET := Some 0x18_0000_0000; effects := [] |}.

Definition two_user : User :=
  {| us_loader := {| ld_paging := two_paging; ld_bytes := ∅ |}; us_slots := SLOTS; us_threads := {[3%nat := Some (frame_at 5)]} |}.

Definition two_target (t : nat) : Z := if bool_decide (t = 3%nat) then frame_at 5 else frame_at 1.

Definition two : Rings :=
  {| rs_gbm := {| gb_user := two_user; gb_registry := Gbm.Registry_new; gb_quotas := []; gb_display := None |};
     rs_ipc := Ipc.Registry_new; rs_rings := [] |}.

Lemma two_spaces : spaces_ok two_paging two_levels.
Proof.
  assert (Hok : tables_ok two_tables two_levels) by (apply tables_okb_sound; vm_compute; reflexivity).
  split.
  - split; [done| |apply tables_usedb_sound; vm_compute; reflexivity|vm_compute; reflexivity|eexists; reflexivity].
    split; [split; vm_compute; discriminate|vm_compute; reflexivity|vm_compute; discriminate].
  - apply separateb_sound. vm_compute. reflexivity.
  - intros root page t Hr _. apply (plainb_sound _ _ Hok); [vm_compute; reflexivity|done].
Qed.

Lemma two_empty root page : two_levels !! root = Some 4%nat -> user_page page -> page_of two_paging root page = None.
Proof.
  intros Hr Hp. assert (Hrow : two_tables !! root = Some (row [(0%nat, entry (frame_at 2) rwu)])).
  { unfold two_levels in Hr. apply lookup_insert_Some in Hr as [[<- _]|[Hne Hr]]; [vm_compute; reflexivity|]. apply idle_root in Hr as ->. vm_compute. reflexivity. }
  unfold page_of, walk. cbn [tables two_paging walk_from]. rewrite (user_page_index page Hp), Hrow. cbn [mbind option_bind].
  assert (He : row [(0%nat, entry (frame_at 2) rwu)] !! index 4 USER_BASE = Some UNUSED) by (vm_compute; reflexivity).
  rewrite He. reflexivity.
Qed.

Lemma two_ok : rings_ok two_target two two_levels.
Proof.
  split; cbn [two rs_rings]; [|apply NoDup_nil_2|by intros ? ? ?%elem_of_nil|by intros ? ? ?%elem_of_nil]. split.
  - split; [apply two_spaces| |by intros ? ?%elem_of_nil|by intros ? ? ?%elem_of_nil|apply NoDup_nil_2|by intros ? ? ? ? ? ?%elem_of_nil|].
    + intros t. unfold two_target. case_bool_decide; vm_compute; reflexivity.
    + intros root page f x Hr Hp Hx. rewrite two_empty in Hx by done. done.
  - intros t. unfold space_of, address_space_of, two_target. cbn. case_bool_decide as Hd; [subst; by rewrite lookup_singleton_eq|by rewrite lookup_singleton_ne].
  - split; cbn; [apply NoDup_nil_2|by intros ? ? ?%elem_of_nil|by intros ? ? ?%elem_of_nil|intros t o Hx; by rewrite lookup_empty in Hx].
  - reflexivity.
Qed.

Definition next (q : RingRequest) (s : Rings) : Rings := snd (ring_perform q s).

(** Thread 3 makes a ring of two slots and maps its sending side; thread 4 is given the
    right to receive and maps the other. *)
Definition connected : Rings := next (RgMap 4 1 Receiver) (next (RgGrant 3 4 1 R_RECEIVE) (next (RgMap 3 1 Sender) (next (RgCreate 3 2) two))).

Lemma connected_steps : ring_steps two_target two connected.
Proof.
  assert (Hn : forall q s, ring_perform q s = (fst (ring_perform q s), next q s)) by (intros q s; unfold next; by destruct (ring_perform q s)).
  eapply (rs_step _ _ (RgCreate 3 2)); [cbn; vm_compute; reflexivity|apply Hn|]. eapply (rs_step _ _ (RgMap 3 1 Sender)); [done|apply Hn|].
  eapply (rs_step _ _ (RgGrant 3 4 1 R_RECEIVE)); [done|apply Hn|]. eapply (rs_step _ _ (RgMap 4 1 Receiver)); [done|apply Hn|]. apply rs_refl.
Qed.

(** The page with the tail: thread 4 sees it and cannot write it. *)
Lemma rings_safe_witness :
  exists r f flags, (1, r) ∈ rs_rings connected /\ rn_frames r !! SENDER_PAGE = Some f /\
    page_of (gb_paging (rs_gbm connected)) (frame_at 1) (slot_base 1 + 0x10_0000 + 4096) = Some (f, flags) /\
    exists x t a i, rn_sides r x = Some (t, a) /\ frame_at 1 = two_target t /\ (has flags WRITABLE = true <-> match x with Sender => i = 1%nat \/ (3 <= i)%nat | Receiver => i = 2%nat end).
Proof.
  destruct (rings_safe two_target two two_levels connected two_ok connected_steps) as (lvl' & Hok' & _ & Hall).
  assert (Hb : exists r f flags, rs_rings connected = [(1, r)] /\ rn_frames r !! SENDER_PAGE = Some f /\
    page_of (gb_paging (rs_gbm connected)) (frame_at 1) (slot_base 1 + 0x10_0000 + 4096) = Some (f, flags))
    by (do 3 eexists; split; [vm_compute; reflexivity|]; split; vm_compute; reflexivity).
  destruct Hb as (r & f & flags & Hr & Hf & Hp). exists r, f, flags. rewrite Hr in Hall |- *. split; [by left|]. split; [done|]. split; [done|].
  destruct (Hall 1 r f ltac:(by left) ltac:(by eapply list_elem_of_lookup_2)) as (_ & _ & _ & Hrec).
  destruct (Hrec (frame_at 1) (slot_base 1 + 0x10_0000 + 4096) flags) as (x & t & a & i & Hx & Ht & _ & _ & Hw & _); [|apply user_page_intro; vm_compute; reflexivity|done|eauto 9].
  apply (sk_target _ _ _ _ (gk_sharing _ _ _ _ (rk_gbm _ _ _ Hok')) 0%nat).
Defined.

(** Thread 3 exits: what its space still maps, nothing here, is not the ring's. *)
Lemma exit_unshares_witness :
  let s1 := next (RgBuffer (BufRelease 3)) connected in let s2 := next (RgRelease 3) s1 in
  exists lvl', rings_ok two_target s2 lvl' /\ length (rs_rings s2) = 1%nat.
Proof.
  destruct (ring_steps_ok two_target two connected connected_steps two_levels two_ok) as [lvl Hok].
  pose proof (exit_unshares two_target connected lvl 3 Hok) as Hexit. intros s1 s2. unfold s2, s1, next.
  destruct (ring_perform (RgBuffer (BufRelease 3)) connected) as [r1 s1'] eqn:E1. cbn [snd]. destruct (ring_perform (RgRelease 3) s1') as [r2 s2'] eqn:E2. cbn [snd].
  destruct Hexit as (_ & _ & lvl' & Hok' & _).
  - intros u. unfold two_target. rewrite (bool_decide_true (3%nat = 3%nat)) by done. case_bool_decide; [done|]. intros Hx%frame_at_inj. lia.
  - exists lvl'. split; [done|]. assert (Hlen : length (rs_rings (snd (ring_perform (RgRelease 3) (snd (ring_perform (RgBuffer (BufRelease 3)) connected))))) = 1%nat) by (vm_compute; reflexivity).
    rewrite E1 in Hlen. cbn [snd] in Hlen. by rewrite E2 in Hlen.
Defined.

(** ** Requests that end badly *)

(** Three frames are free, four are needed. *)
Definition scarce : Rings :=
  {| rs_gbm := tight; rs_ipc := Ipc.Registry_new; rs_rings := [] |}.

(** A ring that could not be had still costs its endpoint: the request fails, no ring
    exists, and the endpoint counts against the owner's quota until it exits. *)
Theorem failed_create_keeps_endpoint :
  fst (create 3 2 scarce) = Err OutOfMemory /\ rs_rings (snd (create 3 2 scarce)) = [] /\
  endpoints_owned_by (rs_ipc scarce) 3 = 0 /\ endpoints_owned_by (rs_ipc (snd (create 3 2 scarce))) 3 = 1 /\
  used (rs_gbm (snd (create 3 2 scarce))) = used (rs_gbm scarce).
Proof. vm_compute. repeat split; reflexivity. Qed.

(** Thread 3 maps its buffer into its own space, and it is destroyed while the kernel's space
    is loaded: the frame is given back and thread 3 still reaches it. *)
Example destroyed_still_mapped :
  let g := after (BufMap 3 1) (after (BufCreate 3 16 16) (rs_gbm two)) in
  let g' := after (BufDestroy 3 1) g in
  page_of (gb_paging g) (frame_at 5) (USER_BASE + 0x10_0000) = Some (frame_at 6, pixels) /\
  used_at (frames (gb_paging g)) 6 = true /\
  page_of (gb_paging g') (frame_at 5) (USER_BASE + 0x10_0000) = Some (frame_at 6, pixels) /\
  used_at (frames (gb_paging g')) 6 = false.
Proof. vm_compute. repeat split; reflexivity. Qed.

(** The same rings, their pages read as the zeros they were filled with. *)
Definition blank (s : Rings) : Rings :=
  let g := rs_gbm s in let u := gb_user g in
  {| rs_gbm := {| gb_user := {| us_loader := {| ld_paging := ld_paging (us_loader u); ld_bytes := ∅ |};
                                us_slots := us_slots u; us_threads := us_threads u |};
                  gb_registry := gb_registry g; gb_quotas := gb_quotas g; gb_display := gb_display g |};
     rs_ipc := rs_ipc s; rs_rings := rs_rings s |}.

(** A receiver that waits when the sender exits stays listed as asleep: nobody is woken,
    and its next look finds nothing to do either. *)
Theorem departed_sender_strands :
  let s0 : Rings := blank connected in let s1 : Rings := next (RgWait 4 1) s0 in let s2 : Rings := next (RgRelease 3) s1 in
  fst (wait_register 4 1 s0) = Ok true /\
  (exists r, lookup_id 1 (rs_rings s2) = Some r /\ rn_sides r Sender = None /\ rn_sleeping r Receiver = Some 4%nat) /\
  fst (wait_register 4 1 s2) = Ok true.
Proof.
  intros s0 s1 s2. split; [vm_compute; reflexivity|]. split; [|vm_compute; reflexivity].
  assert (Hr : ((fun r => (rn_sides r Sender, rn_sleeping r Receiver)) <$> lookup_id 1 (rs_rings s2)) = Some (None, Some 4%nat)) by (vm_compute; reflexivity).
  destruct (lookup_id 1 (rs_rings s2)) as [r|]; [|discriminate Hr]. exists r. by injection Hr as -> ->.
Qed.
