(* ===== verification/Request.v ===== *)
(** * Disk requests (kernel/src/block/request.rs)

    A disk's request slots, which any number of threads take, wait for and give back, and
    the answer of one request, which a device's interrupt handler leaves for a thread that
    may be on its way to sleep.  Every critical section and every access to an atomic is a
    step of its own; the steps of all threads interleave freely. *)

From stdpp Require Import base list gmap numbers list_numbers.
From Stdlib Require Import Lia ZifyBool.
From S2P Require Import Prelude.

(** What the scheduler knows of a thread: [sched::unblock] and [sched::block_current]. *)
Record Sleep : Type := { blocked : bool; wake_pending : bool }.

Definition awake : Sleep := {| blocked := false; wake_pending := false |}.

Definition unblock (z : Sleep) : Sleep :=
  if blocked z then {| blocked := false; wake_pending := wake_pending z |} else {| blocked := false; wake_pending := true |}.

(** Whether it parked, or found a wake that came first. *)
Definition block_current (z : Sleep) : bool * Sleep :=
  if wake_pending z then (false, {| blocked := false; wake_pending := false |}) else (true, {| blocked := true; wake_pending := false |}).

(** ** Slots *)

Module Slots.

(** Where a thread is: outside; at the head of the loop of [acquire]; listed and about to
    park; parked; with bits it took, before it is counted, with the count it made [now] and not
    yet entered as the peak, and after; in [release], before the lock; waking those it
    found. *)
Inductive Place : Type :=
| Away
| Ask (exclusive queued : bool)
| Listed (exclusive queued : bool)
| Asleep (exclusive queued : bool)
| Counting (bits : Z)
| Counted (bits now : Z)
| Holding (bits : Z)
| Giving (bits : Z)
| Waking (l : list nat).

Record Slots : Type := {
  count : nat;
  busy : Z;
  exclusive_waiting : Z;
  waiters : list nat;
  in_flight : Z;
  peak : Z;
  place : nat -> Place;
  sleep : nat -> Sleep;
}.

Definition new (n : nat) : Slots :=
  {| count := n; busy := 0; exclusive_waiting := 0; waiters := []; in_flight := 0; peak := 0; place := fun _ => Away; sleep := fun _ => awake |}.

Definition U32 : Z := 2 ^ 32.
Definition wrapping_neg (v : Z) : Z := (- v) mod U32.
Definition not32 (v : Z) : Z := U32 - 1 - v.

(** [(u64::MAX >> (64 - self.count)) as u32] *)
Definition all (n : nat) : Z := Z.shiftr (2 ^ 64 - 1) (64 - Z.of_nat n) mod U32.

Definition upd {A} (t : nat) (v : A) (f : nat -> A) : nat -> A := fun u => if decide (u = t) then v else f u.

Definition goto (t : nat) (p : Place) (s : Slots) : Slots :=
  {| count := count s; busy := busy s; exclusive_waiting := exclusive_waiting s; waiters := waiters s; in_flight := in_flight s; peak := peak s;
     place := upd t p (place s); sleep := sleep s |}.
Definition set_sleep (t : nat) (z : Sleep) (s : Slots) : Slots :=
  {| count := count s; busy := busy s; exclusive_waiting := exclusive_waiting s; waiters := waiters s; in_flight := in_flight s; peak := peak s;
     place := place s; sleep := upd t z (sleep s) |}.
Definition set_taken (b e : Z) (w : list nat) (s : Slots) : Slots :=
  {| count := count s; busy := b; exclusive_waiting := e; waiters := w; in_flight := in_flight s; peak := peak s; place := place s; sleep := sleep s |}.
Definition set_flight (n p : Z) (s : Slots) : Slots :=
  {| count := count s; busy := busy s; exclusive_waiting := exclusive_waiting s; waiters := waiters s; in_flight := n; peak := p;
     place := place s; sleep := sleep s |}.

(** What the critical section of [acquire] would take. *)
Definition claim (s : Slots) (exclusive : bool) : option Z :=
  if exclusive then (if busy s =? 0 then Some (all (count s)) else None)
  else
    let free := Z.land (not32 (busy s)) (all (count s)) in
    if negb (free =? 0) && (exclusive_waiting s =? 0) then Some (Z.land free (wrapping_neg free)) else None.

(** One turn of the loop of [acquire] up to [block_current]; [can_sleep] and [panicking]
    are what the turn finds.  A kernel that panics does not wait: [acquire] returns [None],
    and what it had entered in [exclusive_waiting] stays. *)
Definition try_acquire (t : nat) (exclusive queued can_sleep panicking : bool) (s : Slots) : Slots :=
  match claim s exclusive with
  | Some bits =>
      goto t (Counting bits) (set_taken (Z.lor (busy s) bits) (if queued then exclusive_waiting s - 1 else exclusive_waiting s) (waiters s) s)
  | None =>
      if can_sleep
      then
        let new_queue := exclusive && negb queued in
        goto t (Listed exclusive (queued || new_queue))
          (set_taken (busy s) (if new_queue then exclusive_waiting s + 1 else exclusive_waiting s) (waiters s ++ [t]) s)
      else if panicking then goto t Away s
      else s
  end.

(** [release] under the lock. *)
Definition release (t : nat) (bits : Z) (s : Slots) : Slots :=
  goto t (Waking (waiters s)) (set_taken (Z.land (busy s) (not32 bits)) (exclusive_waiting s) [] s).

Definition step_thread (t : nat) (exclusive can_sleep panicking : bool) (s : Slots) : Slots :=
  match place s t with
  | Away => goto t (Ask exclusive false) s
  | Ask e q => try_acquire t e q can_sleep panicking s
  | Listed e q =>
      let '(parked, z) := block_current (sleep s t) in
      goto t (if parked then Asleep e q else Ask e q) (set_sleep t z s)
  | Asleep e q => if blocked (sleep s t) then s else goto t (Ask e q) s
  | Counting bits => let now := in_flight s + 1 in goto t (Counted bits now) (set_flight now (peak s) s)
  | Counted bits now => goto t (Holding bits) (set_flight (in_flight s) (Z.max (peak s) now) s)
  | Holding bits => goto t (Giving bits) (set_flight (in_flight s - 1) (peak s) s)
  | Giving bits => release t bits s
  | Waking [] => goto t Away s
  | Waking (w :: l) => goto t (Waking l) (set_sleep w (unblock (sleep s w)) s)
  end.

(** A step of a thread, with whether it would take every slot when it next asks and
    whether it may sleep; a step of a thread that finds the kernel panicking, where it may
    not; or a wake of it from elsewhere. *)
Inductive Event : Type := Step (t : nat) (exclusive can_sleep : bool) | Panicking (t : nat) (exclusive : bool) | Stray (t : nat).

Definition step (e : Event) (s : Slots) : Slots :=
  match e with
  | Step t exclusive can_sleep => step_thread t exclusive can_sleep false s
  | Panicking t exclusive => step_thread t exclusive false true s
  | Stray t => set_sleep t (unblock (sleep s t)) s
  end.

Definition run (es : list Event) (s : Slots) : Slots := fold_left (fun s e => step e s) es s.

(** [take]: the number of the slot whose bit was taken. *)
Fixpoint trailing_zeros (fuel : nat) (v : Z) : Z :=
  match fuel with
  | O => 0
  | S n => if Z.odd v then 0 else 1 + trailing_zeros n (v / 2)
  end.
Definition slot_of_bits (bits : Z) : Z := trailing_zeros 32 bits.
Definition bits_of_slot (slot : Z) : Z := Z.shiftl 1 slot.

(** ** What threads hold *)

Definition held (p : Place) : option Z := match p with Counting b | Counted b _ | Holding b | Giving b => Some b | _ => None end.
Definition queued (p : Place) : bool := match p with Ask _ q | Listed _ q | Asleep _ q => q | _ => false end.
Definition waking (p : Place) : list nat := match p with Waking l => l | _ => [] end.

(** Parked, or about to be with no wake recorded. *)
Definition stuck (s : Slots) (t : nat) : bool :=
  match place s t with Listed _ _ => negb (wake_pending (sleep s t)) | Asleep _ _ => blocked (sleep s t) | _ => false end.

(** Somebody is on its way to wake the thread. *)
Definition called (s : Slots) (t : nat) : Prop := exists w, t ∈ waking (place s w).

End Slots.

(** ** The answer of one request *)

Module Completion.

Definition IDLE : Z := 0.
Definition IN_FLIGHT : Z := 1.
Definition DONE : Z := 2.
Definition FAULT : Z := 3.

(** [Ok(())] and [Err(BlockError::DeviceFault)] *)
Inductive Outcome : Type := Answered | DeviceFault.
#[global] Instance Outcome_eq_dec : EqDecision Outcome.
Proof. solve_decision. Defined.

(** Where the thread in [wait] is, and where whoever calls [finish] is. *)
Inductive Waiter : Type := Look | Register | LookAgain | Unregister (o : Outcome) | Park | Parked | Returned (o : Outcome).
Inductive Finisher : Type := Before | Swap | Unblock (waiter : nat) | After.

Record Completion : Type := {
  state : Z;
  waiter : nat;
  at_wait : Waiter;
  asleep : Sleep;
  at_finish : Finisher;
}.

Definition default : Completion := {| state := IDLE; waiter := 0; at_wait := Look; asleep := awake; at_finish := Before |}.

Definition with_wait (c : Completion) (w : Waiter) : Completion :=
  {| state := state c; waiter := waiter c; at_wait := w; asleep := asleep c; at_finish := at_finish c |}.
Definition with_waiter (c : Completion) (n : nat) : Completion :=
  {| state := state c; waiter := n; at_wait := at_wait c; asleep := asleep c; at_finish := at_finish c |}.
Definition with_asleep (c : Completion) (z : Sleep) : Completion :=
  {| state := state c; waiter := waiter c; at_wait := at_wait c; asleep := z; at_finish := at_finish c |}.
Definition with_finish (c : Completion) (f : Finisher) : Completion :=
  {| state := state c; waiter := waiter c; at_wait := at_wait c; asleep := asleep c; at_finish := f |}.
Definition with_state (c : Completion) (v : Z) : Completion :=
  {| state := v; waiter := waiter c; at_wait := at_wait c; asleep := asleep c; at_finish := at_finish c |}.

Definition arm (c : Completion) : Completion := with_state c IN_FLIGHT.

Definition in_flight (c : Completion) : bool := state c =? IN_FLIGHT.

Definition outcome (c : Completion) : option Outcome :=
  if state c =? DONE then Some Answered else if state c =? FAULT then Some DeviceFault else None.

(** The loop of [wait] of thread [me], which may sleep. *)
Definition wait_step (me : nat) (c : Completion) : Completion :=
  match at_wait c with
  | Look => with_wait c (match outcome c with Some o => Returned o | None => Register end)
  | Register => with_wait (with_waiter c (me + 1)) LookAgain
  | LookAgain => with_wait c (match outcome c with Some o => Unregister o | None => Park end)
  | Unregister o => with_wait (with_waiter c 0) (Returned o)
  | Park => let '(parked, z) := block_current (asleep c) in with_wait (with_asleep c z) (if parked then Parked else Look)
  | Parked => if blocked (asleep c) then c else with_wait c Look
  | Returned _ => c
  end.

(** [finish], with what the device said. *)
Definition finish_step (me : nat) (ok : bool) (c : Completion) : Completion :=
  match at_finish c with
  | Before => with_finish (with_state c (if ok then DONE else FAULT)) Swap
  | Swap => with_finish (with_waiter c 0) (if (waiter c =? 0)%nat then After else Unblock (waiter c - 1))
  | Unblock w => with_finish (if decide (w = me) then with_asleep c (unblock (asleep c)) else c) After
  | After => c
  end.

Inductive Event : Type := Wait | Finish (ok : bool) | Stray.

Definition step (me : nat) (e : Event) (c : Completion) : Completion :=
  match e with
  | Wait => wait_step me c
  | Finish ok => finish_step me ok c
  | Stray => with_asleep c (unblock (asleep c))
  end.

Definition run (me : nat) (es : list Event) (c : Completion) : Completion := fold_left (fun c e => step me e c) es c.

(** *** Where it may not sleep *)

Definition TIMEOUT_SPINS : Z := 200000000.

(** The loop that drains the device's completions by hand; [D] is the device, and an
    answer is looked for after each turn. *)
Fixpoint poll {D} (service : D -> D) (answer : D -> option Outcome) (spins : nat) (d : D) : Outcome * D :=
  match spins with
  | O => (DeviceFault, d)
  | S n => let d := service d in match answer d with Some o => (o, d) | None => poll service answer n d end
  end.

Definition wait_polling {D} (service : D -> D) (answer : D -> option Outcome) (d : D) : Outcome * D :=
  poll service answer (Z.to_nat TIMEOUT_SPINS) d.

(** Parked, or about to be with no wake recorded. *)
Definition stuck (c : Completion) : bool :=
  match at_wait c with Park => negb (wake_pending (asleep c)) | Parked => blocked (asleep c) | _ => false end.

End Completion.
