(* ===== verification/RequestTheorems.v ===== *)
(** * Disk requests: slots are exclusive and nobody is forgotten *)

From stdpp Require Import base list gmap numbers list_numbers.
From Stdlib Require Import Lia ZifyBool.
From S2P Require Import Prelude Request.

Import Slots.

(** ** Bits *)

Lemma all_ones n : (1 <= n <= 32)%nat -> all n = Z.ones (Z.of_nat n).
Proof.
  intros Hn. assert (Hall : forallb (fun n => all n =? Z.ones (Z.of_nat n)) (seq 1 32) = true) by (vm_compute; reflexivity).
  rewrite forallb_forall in Hall. apply Z.eqb_eq, Hall, in_seq. lia.
Qed.

Lemma all_bit n i : (1 <= n <= 32)%nat -> Z.testbit (all n) i = true <-> 0 <= i < Z.of_nat n.
Proof.
  intros Hn. rewrite all_ones by done. destruct (decide (0 <= i)); [|rewrite Z.testbit_neg_r by lia; lia].
  rewrite Z.testbit_ones by lia. lia.
Qed.

Lemma not32_bit v i : 0 <= v < U32 -> 0 <= i < 32 -> Z.testbit (not32 v) i = negb (Z.testbit v i).
Proof.
  intros Hv Hi. assert (not32 v = Z.lnot v mod 2 ^ 32) as ->.
  { unfold not32, Z.lnot. change U32 with (2 ^ 32) in *. rewrite <- (Z.mod_small (2 ^ 32 - 1 - v) (2 ^ 32)) by lia.
    replace (2 ^ 32 - 1 - v) with (Z.pred (- v) + 1 * 2 ^ 32) by lia. apply Z.mod_add. lia. }
  rewrite Z.mod_pow2_bits_low by lia. by rewrite Z.lnot_spec by lia.
Qed.

(** The lowest set bit. *)
Lemma low_bit_pos p : exists k, 0 <= k /\ Z.land (Zpos p) (- Zpos p) = 2 ^ k /\ Z.testbit (Zpos p) k = true.
Proof.
  induction p as [p _|p (k & Hk & Heq & Hb)|].
  - exists 0. split; [lia|]. split; [|done]. apply Z.bits_inj'. intros i Hi. rewrite Z.land_spec. change (- Z.pos p~1) with (- (2 * Z.pos p + 1)).
    replace (- (2 * Z.pos p + 1)) with (2 * Z.lnot (Z.pos p) + 1) by (unfold Z.lnot; lia). change (Z.pos p~1) with (2 * Z.pos p + 1).
    destruct (decide (i = 0)) as [->|Hne]; [by rewrite !Z.testbit_odd_0|]. replace i with (Z.succ (i - 1)) by lia. rewrite !Z.testbit_odd_succ by lia.
    rewrite Z.lnot_spec by lia. rewrite andb_negb_r. symmetry. rewrite Z.pow_0_r. change 1 with (2 * 0 + 1). rewrite Z.testbit_odd_succ by lia. apply Z.testbit_0_l.
  - exists (Z.succ k). split; [lia|]. split.
    + change (Z.pos p~0) with (2 * Z.pos p). replace (- (2 * Z.pos p)) with (2 * - Z.pos p) by lia. rewrite Z.pow_succ_r, <- Heq by lia.
      apply Z.bits_inj'. intros i Hi. rewrite Z.land_spec. destruct (decide (i = 0)) as [->|Hne]; [by rewrite !Z.testbit_even_0|].
      replace i with (Z.succ (i - 1)) by lia. rewrite !Z.testbit_even_succ by lia. by rewrite Z.land_spec.
    + change (Z.pos p~0) with (2 * Z.pos p). by rewrite Z.testbit_even_succ.
  - exists 0. done.
Qed.

Lemma low_bit v : 0 < v < U32 -> exists k, 0 <= k < 32 /\ Z.land v (wrapping_neg v) = 2 ^ k /\ Z.testbit v k = true.
Proof.
  intros Hv. destruct v as [|p|p]; [lia| |lia]. destruct (low_bit_pos p) as (k & Hk & Heq & Hb). exists k.
  assert (Hk32 : k < 32). { destruct (decide (k < 32)); [done|]. rewrite Z.bits_above_log2 in Hb; [done|lia|]. apply Z.log2_lt_pow2; [lia|]. unfold U32 in Hv. pose proof (Z.pow_le_mono_r 2 32 k). lia. }
  split; [lia|]. split; [|done]. rewrite <- Heq. unfold wrapping_neg. change U32 with (2 ^ 32) in *. apply Z.bits_inj'. intros i Hi. rewrite !Z.land_spec.
  destruct (decide (i < 32)) as [Hlt|Hge]; [by rewrite Z.mod_pow2_bits_low by lia|].
  rewrite (Z.bits_above_log2 (Z.pos p)); [done|lia|]. assert (Z.log2 (Z.pos p) < 32) by (apply Z.log2_lt_pow2; lia). lia.
Qed.

Lemma positive_bit v : 0 < v -> exists i, 0 <= i /\ Z.testbit v i = true.
Proof. intros Hv. exists (Z.log2 v). split; [apply Z.log2_nonneg|by apply Z.bit_log2]. Qed.

Lemma range_bits v : 0 <= v < U32 -> forall i, Z.testbit v i = true -> 0 <= i < 32.
Proof.
  intros Hv i Hi. destruct (decide (0 <= i)); [|by rewrite Z.testbit_neg_r in Hi by lia]. destruct (decide (i < 32)); [lia|].
  destruct (decide (v = 0)) as [->|]; [by rewrite Z.testbit_0_l in Hi|]. rewrite Z.bits_above_log2 in Hi; [done|lia|].
  assert (Z.log2 v < 32) by (apply Z.log2_lt_pow2; [lia|]; unfold U32 in Hv; lia). lia.
Qed.

Lemma bits_range v : 0 <= v -> (forall i, Z.testbit v i = true -> i < 32) -> v < U32.
Proof.
  intros Hv Hb. destruct (decide (v = 0)) as [->|]; [done|]. unfold U32. apply Z.log2_lt_pow2; [lia|]. apply Hb, Z.bit_log2. lia.
Qed.

(** ** Slots are held by one thread at a time *)

Record held_ok (n : nat) (b : Z) (h : nat -> option Z) : Prop := {
  hk_count : (1 <= n <= 32)%nat;
  hk_nonneg : 0 <= b;
  hk_busy : forall i, Z.testbit b i = true <-> exists t v, h t = Some v /\ Z.testbit v i = true;
  hk_once : forall t u v w i, h t = Some v -> h u = Some w -> Z.testbit v i = true -> Z.testbit w i = true -> t = u;
  hk_bits : forall t v, h t = Some v -> 0 < v /\ forall i, Z.testbit v i = true -> 0 <= i < Z.of_nat n;
}.

Lemma held_range n b h : held_ok n b h -> 0 <= b < U32.
Proof.
  intros [Hn Hb Hbusy _ Hbits]. split; [done|]. apply bits_range; [done|]. intros i (t & v & Ht & Hi)%Hbusy. apply (Hbits t v Ht) in Hi. lia.
Qed.

Lemma held_ext n b h h' : held_ok n b h -> (forall t, h' t = h t) -> held_ok n b h'.
Proof.
  intros [Hn Hb Hbusy Honce Hbits] Heq. split; try done.
  - intros i. rewrite Hbusy. by setoid_rewrite Heq.
  - intros t u v w i. rewrite !Heq. apply Honce.
  - intros t v. rewrite Heq. apply Hbits.
Qed.

(** What a claim takes is free, and lies among the disk's slots. *)
Lemma claim_free s h exclusive bits : held_ok (count s) (busy s) h -> claim s exclusive = Some bits ->
  0 < bits /\ forall i, Z.testbit bits i = true -> 0 <= i < Z.of_nat (count s) /\ Z.testbit (busy s) i = false.
Proof.
  intros Hh Hc. pose proof (held_range _ _ _ Hh) as Hr. pose proof (hk_count _ _ _ Hh) as Hn. unfold claim in Hc. destruct exclusive.
  - destruct (busy s =? 0) eqn:Hz; [|done]. injection Hc as <-. split.
    + rewrite all_ones by done. rewrite Z.ones_equiv. pose proof (Z.pow_gt_1 2 (Z.of_nat (count s))). lia.
    + intros i Hi%all_bit; [|done]. split; [done|]. assert (busy s = 0) as -> by lia. apply Z.testbit_0_l.
  - set (free := Z.land (not32 (busy s)) (all (count s))) in *. destruct (negb (free =? 0) && _) eqn:Hf; [|done]. injection Hc as <-.
    assert (Hfree : forall i, Z.testbit free i = true -> 0 <= i < Z.of_nat (count s) /\ Z.testbit (busy s) i = false).
    { intros i. unfold free. rewrite Z.land_spec. intros [Hi1 Hi2%all_bit]%andb_true_iff; [|done]. split; [done|].
      rewrite not32_bit in Hi1 by lia. by apply negb_true_iff. }
    assert (Hpos : 0 < free). { assert (0 <= free) by (unfold free; apply Z.land_nonneg; right; rewrite all_ones by done; rewrite Z.ones_equiv; pose proof (Z.pow_gt_1 2 (Z.of_nat (count s))); lia). lia. }
    destruct (low_bit free) as (k & Hk & -> & Hb).
    { split; [done|]. apply bits_range; [lia|]. intros i Hi%Hfree. lia. }
    split; [apply Z.pow_pos_nonneg; lia|]. intros i Hi. rewrite Z.pow2_bits_eqb in Hi by lia. apply Z.eqb_eq in Hi as <-. by apply Hfree.
Qed.

Lemma held_claim n b h t bits : held_ok n b h -> h t = None -> 0 < bits ->
  (forall i, Z.testbit bits i = true -> 0 <= i < Z.of_nat n /\ Z.testbit b i = false) -> held_ok n (Z.lor b bits) (upd t (Some bits) h).
Proof.
  intros [Hn Hb Hbusy Honce Hbits] Ht Hpos Hfree. unfold upd.
  assert (Hsep : forall u v i, h u = Some v -> Z.testbit v i = true -> Z.testbit bits i = true -> False).
  { intros u v i Hu Hi Hx. destruct (Hfree i Hx) as [_ Hno]. rewrite (proj2 (Hbusy i)) in Hno; [done|eauto]. }
  split; [done|apply Z.lor_nonneg; lia| | |].
  - intros i. rewrite Z.lor_spec, orb_true_iff, Hbusy. split.
    + intros [(u & v & Hu & Hi)|Hi]; [exists u, v|exists t, bits; by rewrite decide_True]. rewrite decide_False; [done|]. by intros ->; rewrite Ht in Hu.
    + intros (u & v & Hu & Hi). case_decide as Hd; [injection Hu as ->; by right|left; eauto].
  - intros u w v x i Hu Hw Hi Hj. destruct (decide (u = t)) as [Hd1|Hd1], (decide (w = t)) as [Hd2|Hd2]; [congruence| | |by apply (Honce u w v x i)].
    + injection Hu as <-. by destruct (Hsep w x i).
    + injection Hw as <-. by destruct (Hsep u v i).
  - intros u v Hu. case_decide as Hd; [injection Hu as <-; split; [done|]; intros i Hi; by apply Hfree|by apply (Hbits u)].
Qed.

Lemma held_release n b h t bits : held_ok n b h -> h t = Some bits -> held_ok n (Z.land b (not32 bits)) (upd t None h).
Proof.
  intros Hh Ht. pose proof (held_range _ _ _ Hh) as Hr. destruct Hh as [Hn Hb Hbusy Honce Hbits]. unfold upd.
  assert (Hbr : 0 <= bits < U32). { destruct (Hbits t bits Ht) as [Hp Hi]. split; [lia|]. apply bits_range; [lia|]. intros i Hx%Hi. lia. }
  split; [done|apply Z.land_nonneg; by left| | |].
  - intros i. rewrite Z.land_spec, andb_true_iff, Hbusy. split.
    + intros [(u & v & Hu & Hi) Hno]. exists u, v. rewrite decide_False; [done|]. intros ->. rewrite Ht in Hu. injection Hu as <-.
      destruct (Hbits t bits Ht) as [_ Hin]. rewrite not32_bit, Hi in Hno by (done || apply Hin in Hi; lia). done.
    + intros (u & v & Hu & Hi). case_decide as Hd; [done|]. split; [eauto|]. destruct (Hbits u v Hu) as [_ Hin]. rewrite not32_bit by (done || apply Hin in Hi; lia).
      apply negb_true_iff. destruct (Z.testbit bits i) eqn:Hx; [|done]. destruct Hd. by apply (Honce u t v bits i).
  - intros u w v x i Hu Hw. case_decide; [done|]. case_decide; [done|]. by apply Honce.
  - intros u v Hu. case_decide; [done|]. by apply (Hbits u).
Qed.

(** A turn that finds the kernel panicking is a turn that may not sleep, or gives up. *)
Lemma step_panicking t x s : step (Panicking t x) s = step (Step t x false) s \/ exists e q, place s t = Ask e q /\ step (Panicking t x) s = goto t Away s.
Proof.
  cbn [step]. unfold step_thread. destruct (place s t) as [|e q| | | | | | |] eqn:Hp; try by left. unfold try_acquire. destruct (claim s e); [by left|]. right. by exists e, q.
Qed.

Lemma held_step e s : held_ok (count s) (busy s) (fun t => held (place s t)) ->
  held_ok (count (step e s)) (busy (step e s)) (fun t => held (place (step e s) t)).
Proof.
  assert (Hext : forall s' t p, count s' = count s -> busy s' = busy s -> (forall u, place s' u = upd t p (place s) u) -> held p = held (place s t) ->
    held_ok (count s) (busy s) (fun t => held (place s t)) -> held_ok (count s') (busy s') (fun t => held (place s' t))).
  { intros s' t p -> -> Hp Hh Hok. apply (held_ext _ _ (fun t => held (place s t))); [done|]. intros u. rewrite Hp. unfold upd. case_decide; [by subst|done]. }
  assert (Hupd : forall t p u, held (upd t p (place s) u) = upd t (held p) (fun t => held (place s t)) u) by (intros t p u; unfold upd; by case_decide).
  intros Hok. assert (Hstep : forall t x y, held_ok (count (step (Step t x y) s)) (busy (step (Step t x y) s)) (fun u => held (place (step (Step t x y) s) u))).
  2: { destruct e as [t x y|t x|t]; [apply Hstep| |exact Hok]. destruct (step_panicking t x s) as [->|(e & q & Hp & ->)]; [apply Hstep|].
    apply (Hext _ t Away); [done|done|done|by rewrite Hp|done]. }
  clear e. intros t exclusive can_sleep. cbn [step]. unfold step_thread. destruct (place s t) as [|e q|e q|e q|b|b now|b|b|l] eqn:Hp.
  - apply (Hext _ t (Ask exclusive false)); [done|done|done|by rewrite Hp|done].
  - unfold try_acquire. destruct (claim s e) as [bits|] eqn:Hc.
    + destruct (claim_free s _ e bits Hok Hc) as [Hpos Hfree]. cbn [goto set_taken count busy place]. apply (held_ext _ _ (upd t (Some bits) (fun t => held (place s t)))).
      * apply held_claim; [done|by rewrite Hp|done|done].
      * intros u. by rewrite Hupd.
    + destruct can_sleep; [|done]. apply (Hext _ t (Listed e (q || e && negb q))); [done|done|done|by rewrite Hp|done].
  - unfold block_current. destruct (wake_pending _); [apply (Hext _ t (Ask e q))|apply (Hext _ t (Asleep e q))]; try done; by rewrite Hp.
  - destruct (blocked _); [done|]. apply (Hext _ t (Ask e q)); [done|done|done|by rewrite Hp|done].
  - apply (Hext _ t (Counted b (in_flight s + 1))); [done|done|done|by rewrite Hp|done].
  - apply (Hext _ t (Holding b)); [done|done|done|by rewrite Hp|done].
  - apply (Hext _ t (Giving b)); [done|done|done|by rewrite Hp|done].
  - unfold release. cbn [goto set_taken count busy place]. apply (held_ext _ _ (upd t None (fun t => held (place s t)))).
    + apply held_release; [done|by rewrite Hp].
    + intros u. by rewrite Hupd.
  - destruct l as [|w l]; [apply (Hext _ t Away)|apply (Hext _ t (Waking l))]; try done; by rewrite Hp.
Qed.

(** ** Counting threads by place *)

Definition counts (P : Place -> bool) (pl : nat -> Place) (n : Z) : Prop :=
  exists l, NoDup l /\ (forall t, t ∈ l <-> P (pl t) = true) /\ n = Z.of_nat (length l).

Lemma counts_upd P pl n t p : counts P pl n -> counts P (upd t p pl) (n + Z.b2z (P p) - Z.b2z (P (pl t))).
Proof.
  intros (l & Hnd & Hl & ->). unfold upd.
  assert (Hother : forall k : list nat, (forall u, u <> t -> u ∈ k <-> u ∈ l) -> (t ∈ k <-> P p = true) ->
    forall u, u ∈ k <-> P (if decide (u = t) then p else pl u) = true).
  { intros k Hk Ht u. case_decide as Hd; [by subst|]. by rewrite Hk, Hl. }
  destruct (P (pl t)) eqn:Hold; cbn [Z.b2z].
  - apply Hl, elem_of_Permutation in Hold as [k Hk]. pose proof Hnd as Hnd'. rewrite Hk in Hnd'. apply NoDup_cons in Hnd' as [Hnot Hndk].
    assert (Hk' : forall u, u <> t -> u ∈ k <-> u ∈ l) by (intros u Hu; rewrite Hk, elem_of_cons; naive_solver).
    assert (Hlen : length l = S (length k)) by (by rewrite Hk).
    destruct (P p) eqn:Hnew; cbn [Z.b2z].
    + exists l. split; [done|]. split; [|lia]. apply Hother; [done|]. split; [done|]. intros _. rewrite Hk. by left.
    + exists k. split; [done|]. split; [|lia]. apply Hother; [done|]. split; [done|]. done.
  - assert (Hnot : t ∉ l) by (intros Hin%Hl; congruence). destruct (P p) eqn:Hnew; cbn [Z.b2z].
    + exists (t :: l). split; [by apply NoDup_cons|]. split; [|cbn [length]; lia]. apply Hother; [intros u Hu; rewrite elem_of_cons; naive_solver|]. split; [done|]. intros _. by left.
    + exists l. split; [done|]. split; [|lia]. apply Hother; [done|]. split; [done|]. done.
Qed.

Lemma counts_exists P pl n : counts P pl n -> n <> 0 -> exists t, P (pl t) = true.
Proof. intros (l & _ & Hl & ->) Hn. destruct l as [|t l]; [done|]. exists t. apply Hl. by left. Qed.

(** No more threads hold slots than there are. *)
Lemma holders_bound n b h l : held_ok n b h -> NoDup l -> (forall t, t ∈ l -> exists v, h t = Some v) -> (length l <= n)%nat.
Proof.
  intros Hh Hnd Hl. set (f := fun t => Z.log2 (default 0 (h t))).
  assert (Hf : forall t, t ∈ l -> exists v, h t = Some v /\ Z.testbit v (f t) = true /\ 0 <= f t < Z.of_nat n).
  { intros t Ht. destruct (Hl t Ht) as [v Hv]. destruct (hk_bits _ _ _ Hh t v Hv) as [Hpos Hin]. exists v. split; [done|]. unfold f. rewrite Hv. cbn [default].
    pose proof (Z.bit_log2 v Hpos) as Hb. split; [done|by apply Hin]. }
  assert (Hnf : NoDup (f <$> l)).
  { apply NoDup_fmap_2_strong; [|done]. intros t u Ht Hu Heq. destruct (Hf t Ht) as (v & Hv & Hb & _), (Hf u Hu) as (w & Hw & Hc & _).
    rewrite Heq in Hb. by apply (hk_once _ _ _ Hh t u v w (f u)). }
  rewrite <- (length_fmap f l). etrans; [apply submseteq_length, (NoDup_submseteq _ (seqZ 0 (Z.of_nat n)) Hnf)|by rewrite length_seqZ, Nat2Z.id].
  intros i (t & -> & Ht)%list_elem_of_fmap. destruct (Hf t Ht) as (_ & _ & _ & Hr). apply elem_of_seqZ. lia.
Qed.

Definition is_holding (p : Place) : bool := match p with Counted _ _ | Holding _ => true | _ => false end.

Record counts_ok (s : Slots) : Prop := {
  ck_flight : counts is_holding (place s) (in_flight s);
  ck_peak : 0 <= peak s <= Z.of_nat (count s);
  ck_now : forall t b now, place s t = Counted b now -> now <= Z.of_nat (count s);
  ck_entered : in_flight s <= peak s \/ exists t b now, place s t = Counted b now /\ in_flight s <= now;
}.

Lemma flight_bound s n : held_ok (count s) (busy s) (fun t => held (place s t)) -> counts is_holding (place s) n -> n <= Z.of_nat (count s).
Proof.
  intros Hh (l & Hnd & Hl & ->). pose proof (holders_bound _ _ _ l Hh Hnd) as Hb. enough (length l <= count s)%nat by lia. apply Hb.
  intros t Ht%Hl. destruct (place s t); cbn in *; try done; eauto.
Qed.

(** A step that moves one thread, counts and peak as they were. *)
Lemma counts_moved s s' t p : counts_ok s -> place s' = upd t p (place s) -> is_holding p = is_holding (place s t) -> count s' = count s ->
  in_flight s' = in_flight s -> peak s' = peak s ->
  (forall b now, p <> Counted b now) -> (forall b now, place s t <> Counted b now) -> counts_ok s'.
Proof.
  intros [Hf Hp Hn He] Hpl Hhold Hc Hfl Hpk Hnew Hold. split; rewrite ?Hpl, ?Hfl, ?Hpk, ?Hc; [|done| |].
  - pose proof (counts_upd _ _ _ t p Hf) as Hx. rewrite Hhold in Hx. by replace (in_flight s + _ - _) with (in_flight s) in Hx by lia.
  - intros u b now. unfold upd. case_decide; [by intros ?%Hnew|apply Hn].
  - destruct He as [?|(u & b & now & Hu & ?)]; [by left|right]. exists u, b, now. unfold upd. case_decide; [subst; by apply Hold in Hu|done].
Qed.

(** Without a panic, what is entered in [exclusive_waiting] is who waits for every slot. *)
Definition queue_ok (s : Slots) : Prop := counts queued (place s) (exclusive_waiting s).
Definition calm (e : Event) : Prop := match e with Panicking _ _ => False | _ => True end.

Lemma queue_moved s s' t p : queue_ok s -> place s' = upd t p (place s) -> exclusive_waiting s' = exclusive_waiting s + Z.b2z (queued p) - Z.b2z (queued (place s t)) -> queue_ok s'.
Proof. intros Hq Hp Hx. unfold queue_ok. rewrite Hp, Hx. by apply counts_upd. Qed.

Lemma queue_step e s : calm e -> queue_ok s -> queue_ok (step e s).
Proof.
  intros Hcalm Hq. destruct e as [t exclusive can_sleep|t x|t]; [|done|done]. pose proof (fun p s' => queue_moved s s' t p Hq) as Hsame.
  cbn [step]. unfold step_thread. destruct (place s t) as [|e q|e q|e q|b|b now|b|b|[|w l]] eqn:Hpl; try (eapply Hsame; [reflexivity|cbn; lia]).
  - unfold try_acquire. destruct (claim s e) as [bits|]; [|destruct can_sleep; [|done]].
    + apply (Hsame (Counting bits)); [done|]. destruct q; cbn [queued Z.b2z goto set_taken exclusive_waiting]; lia.
    + apply (Hsame (Listed e (q || e && negb q))); [done|]. destruct e, q; cbn [queued andb orb negb Z.b2z goto set_taken exclusive_waiting]; lia.
  - unfold block_current. destruct (wake_pending _); (eapply Hsame; [reflexivity|cbn; lia]).
  - destruct (blocked _); [done|]. eapply Hsame; [reflexivity|cbn; lia].
Qed.

Lemma counts_step e s : held_ok (count s) (busy s) (fun t => held (place s t)) -> counts_ok s -> counts_ok (step e s).
Proof.
  intros Hh Hok. pose proof Hok as [Hf Hp Hnow Hent]. pose proof (held_step e s Hh) as Hh'. assert (Hstep : forall t x y, counts_ok (step (Step t x y) s)).
  2: { destruct e as [t x y|t x|t]; [apply Hstep| |by split]. destruct (step_panicking t x s) as [->|(e & q & Hpl & ->)]; [apply Hstep|].
    apply (counts_moved s _ t Away); cbn; rewrite ?Hpl; done. }
  clear Hh' e. intros t exclusive can_sleep. pose proof (held_step (Step t exclusive can_sleep) s Hh) as Hh'.
  pose proof (fun p s' => counts_moved s s' t p Hok) as Hsame.
  cbn [step] in *. unfold step_thread in *. destruct (place s t) as [|e q|e q|e q|b|b now|b|b|l] eqn:Hpl.
  - apply (Hsame (Ask exclusive false)); cbn; (done || lia).
  - unfold try_acquire in *. destruct (claim s e) as [bits|] eqn:Hc.
    + apply (Hsame (Counting bits)); cbn; done.
    + destruct can_sleep; [|by split]. apply (Hsame (Listed e (q || e && negb q))); cbn; done.
  - unfold block_current in *. destruct (wake_pending _); [apply (Hsame (Ask e q))|apply (Hsame (Asleep e q))]; cbn; (done || lia).
  - destruct (blocked _); [by split|]. apply (Hsame (Ask e q)); cbn; (done || lia).
  - assert (Hn : counts is_holding (upd t (Counted b (in_flight s + 1)) (place s)) (in_flight s + 1)).
    { pose proof (counts_upd _ _ _ t (Counted b (in_flight s + 1)) Hf) as Hx. rewrite Hpl in Hx. cbn [is_holding Z.b2z] in Hx. by rewrite Z.sub_0_r in Hx. }
    pose proof (flight_bound _ _ Hh' Hn) as Hb. cbn in Hb. split; cbn; [done|lia| |].
    + intros u b' n'. unfold upd. case_decide; [by intros [= <- <-]|apply Hnow].
    + right. exists t, b, (in_flight s + 1). split; [unfold upd; by rewrite decide_True|lia].
  - split; cbn; [|pose proof (Hnow t b now Hpl); lia| |].
    + pose proof (counts_upd _ _ _ t (Holding b) Hf) as Hx. rewrite Hpl in Hx. cbn [is_holding Z.b2z] in Hx. by replace (in_flight s + 1 - 1) with (in_flight s) in Hx by lia.
    + intros u b' n'. unfold upd. case_decide; [done|apply Hnow].
    + destruct Hent as [?|(u & b' & n' & Hu & Hle)]; [left; lia|]. destruct (decide (u = t)) as [->|Hne]; [rewrite Hpl in Hu; injection Hu as -> ->; left; lia|].
      right. exists u, b', n'. unfold upd. by rewrite decide_False.
  - split; cbn; [|done| |].
    + pose proof (counts_upd _ _ _ t (Giving b) Hf) as Hx. rewrite Hpl in Hx. cbn [is_holding Z.b2z] in Hx. by rewrite Z.add_0_r in Hx.
    + intros u b' n'. unfold upd. case_decide; [done|apply Hnow].
    + destruct Hent as [?|(u & b' & n' & Hu & Hle)]; [left; lia|]. right. exists u, b', n'. unfold upd. case_decide; [subst; congruence|split; [done|lia]].
  - apply (Hsame (Waking (waiters s))); cbn; (done || lia).
  - destruct l as [|w l]; [apply (Hsame Away)|apply (Hsame (Waking l))]; cbn; (done || lia).
Qed.

(** ** Nobody is forgotten *)

Definition exclusive_of (p : Place) : bool := match p with Ask e _ | Listed e _ | Asleep e _ => e | _ => false end.

(** A thread that waits for every slot and is not parked, or is about to be woken. *)
Definition retrying (s : Slots) (e : nat) : Prop := queued (place s e) = true /\ (stuck s e = false \/ called s e).

Record wake_ok (s : Slots) : Prop := {
  wk_blocked : forall t, blocked (sleep s t) = true -> exists e q, place s t = Asleep e q;
  wk_exclusive : forall t, queued (place s t) = true -> exclusive_of (place s t) = true;
  wk_listed : forall t, stuck s t = true -> t ∈ waiters s \/ called s t;
  wk_reason : waiters s <> [] -> busy s <> 0 \/ exists e, retrying s e;
}.

Lemma upd_same {A} t (v : A) f : upd t v f t = v.
Proof. unfold upd. by rewrite decide_True. Qed.
Lemma upd_other {A} t u (v : A) f : u <> t -> upd t v f u = f u.
Proof. intros Hne. unfold upd. by rewrite decide_False. Qed.

(** A step that moves one thread, which wakes nobody before or after. *)
Lemma wake_moved s s' t p : wake_ok s -> place s' = upd t p (place s) -> (forall u, u <> t -> sleep s' u = sleep s u) ->
  waking (place s t) = [] -> waking p = [] ->
  (blocked (sleep s' t) = true -> exists e q, p = Asleep e q) -> (queued p = true -> exclusive_of p = true) ->
  (forall u, u ∈ waiters s -> u ∈ waiters s') -> (stuck s' t = true -> t ∈ waiters s' \/ called s t) ->
  (waiters s' <> [] -> busy s' <> 0 \/ exists e, retrying s' e) -> wake_ok s'.
Proof.
  intros [Hb He Hl Hr] Hp Hs Hw Hw' Hb' He' Hwait Ht Hreason.
  assert (Hcall : forall u, called s u -> called s' u).
  { intros u [w Hin]. exists w. rewrite Hp. destruct (decide (w = t)) as [->|]; [rewrite Hw in Hin; by apply elem_of_nil in Hin|by rewrite upd_other]. }
  assert (Hst : forall u, u <> t -> stuck s' u = stuck s u) by (intros u Hu; unfold stuck; by rewrite Hp, upd_other, Hs).
  split; [| | |done].
  - intros u Hu. rewrite Hp. destruct (decide (u = t)) as [->|Hne]; [rewrite upd_same; auto|rewrite upd_other by done; apply Hb; by rewrite <- Hs].
  - intros u. rewrite Hp. destruct (decide (u = t)) as [->|Hne]; [rewrite upd_same; auto|rewrite upd_other by done; apply He].
  - intros u Hu. destruct (decide (u = t)) as [->|Hne]; [destruct (Ht Hu); auto|]. rewrite Hst in Hu by done. destruct (Hl u Hu); auto.
Qed.

(** The same step keeps every reason to wait, when the thread moved is free before and
    after, or parks. *)
Lemma retrying_moved s s' t p e : place s' = upd t p (place s) -> (forall u, u <> t -> sleep s' u = sleep s u) ->
  waking (place s t) = [] -> (queued (place s t) = true -> queued p = true /\ (stuck s' t = true -> stuck s t = true)) ->
  retrying s e -> retrying s' e.
Proof.
  intros Hp Hs Hw Ht [Hq Hor].
  assert (Hcall : called s e -> called s' e).
  { intros [w Hin]. exists w. rewrite Hp. destruct (decide (w = t)) as [->|]; [rewrite Hw in Hin; by apply elem_of_nil in Hin|by rewrite upd_other]. }
  destruct (decide (e = t)) as [->|Hne].
  - destruct (Ht Hq) as [Hq' Hst]. split; [by rewrite Hp, upd_same|]. destruct Hor as [Hno|Hc]; [left|right; auto]. destruct (stuck s' t); [|done]. rewrite Hst in Hno; done.
  - split; [by rewrite Hp, upd_other|]. destruct Hor as [Hno|Hc]; [left|right; auto]. unfold stuck in *. by rewrite Hp, upd_other, Hs.
Qed.

Lemma unblock_not_stuck s t : wake_ok s -> stuck (set_sleep t (unblock (sleep s t)) s) t = false.
Proof.
  intros [Hb _ _ _]. unfold stuck. cbn [set_sleep place sleep]. rewrite upd_same. unfold unblock. specialize (Hb t). destruct (blocked (sleep s t)) eqn:Hx; cbn.
  - destruct (Hb eq_refl) as (e & q & ->). done.
  - by destruct (place s t).
Qed.

(** Waking a thread, from the ring of those to wake or from elsewhere. *)
Lemma wake_unblocked s t : wake_ok s -> wake_ok (set_sleep t (unblock (sleep s t)) s).
Proof.
  intros Hok. pose proof (unblock_not_stuck s t Hok) as Hns. destruct Hok as [Hb He Hl Hr]. set (s' := set_sleep t _ s) in *.
  assert (Hst : forall u, u <> t -> stuck s' u = stuck s u) by (intros u Hu; unfold stuck, s'; cbn [set_sleep place sleep]; by rewrite upd_other).
  split; cbn [s' set_sleep place sleep waiters busy].
  - intros u. destruct (decide (u = t)) as [->|Hne]; [rewrite upd_same; unfold unblock; by destruct (blocked (sleep s t))|rewrite upd_other by done; apply Hb].
  - done.
  - intros u Hu. destruct (decide (u = t)) as [->|Hne]; [by rewrite Hns in Hu|]. rewrite Hst in Hu by done. by apply Hl.
  - intros Hw. destruct (Hr Hw) as [Hbusy|(e & Hq & Hor)]; [by left|right]. exists e. split; [done|]. destruct (decide (e = t)) as [->|Hne]; [by left|].
    destruct Hor; [left; by rewrite Hst|by right].
Qed.

(** Why a claim fails. *)
Lemma claim_none s h e : held_ok (count s) (busy s) h -> counts queued (place s) (exclusive_waiting s) -> claim s e = None ->
  busy s <> 0 \/ (e = false /\ exists x, queued (place s x) = true).
Proof.
  intros Hh Hq Hc. destruct (decide (busy s = 0)) as [Hz|]; [right|by left]. pose proof (hk_count _ _ _ Hh) as Hn. unfold claim in Hc. rewrite Hz in Hc. destruct e; [done|]. split; [done|].
  destruct (exclusive_waiting s =? 0) eqn:Hx; [|apply (counts_exists _ _ _ Hq); lia]. exfalso.
  assert (Hfree : Z.testbit (Z.land (not32 0) (all (count s))) 0 = true) by (rewrite Z.land_spec, (proj2 (all_bit (count s) 0 Hn)) by lia; reflexivity).
  destruct (Z.land (not32 0) (all (count s)) =? 0) eqn:Hy; [|done]. apply Z.eqb_eq in Hy. rewrite Hy in Hfree. done.
Qed.

(** Giving slots back makes whoever gives them responsible for everyone listed. *)
Lemma wake_released s t b : wake_ok s -> place s t = Giving b -> wake_ok (release t b s).
Proof.
  intros [Hb He Hl Hr] Hp.
  assert (Hcall : forall u, called s u -> called (release t b s) u).
  { intros u [w Hin]. exists w. cbn. destruct (decide (w = t)) as [->|]; [rewrite Hp in Hin; by apply elem_of_nil in Hin|by rewrite upd_other]. }
  assert (Hst : forall u, stuck (release t b s) u = true -> stuck s u = true).
  { intros u. unfold stuck. cbn. destruct (decide (u = t)) as [->|]; [by rewrite upd_same|by rewrite upd_other]. }
  split; cbn; [| | |done].
  - intros u Hu. destruct (Hb u Hu) as (e & q & Hx). exists e, q. rewrite upd_other; [done|]. intros ->. by rewrite Hp in Hx.
  - intros u. destruct (decide (u = t)) as [->|]; [by rewrite upd_same|rewrite upd_other by done; apply He].
  - intros u Hu%Hst. right. destruct (Hl u Hu) as [Hin|]; [|auto]. exists t. cbn. by rewrite upd_same.
Qed.

(** One of those it found is woken. *)
Lemma wake_popped s t w l : wake_ok s -> place s t = Waking (w :: l) -> wake_ok (goto t (Waking l) (set_sleep w (unblock (sleep s w)) s)).
Proof.
  intros Hok Hp.
  pose proof (unblock_not_stuck s w Hok) as Hns. pose proof (wake_unblocked s w Hok) as Hok2. set (s1 := set_sleep w (unblock (sleep s w)) s) in *.
  assert (Hp1 : place s1 t = Waking (w :: l)) by exact Hp. destruct Hok2 as [Hb1 He1 Hl1 Hr1].
  assert (Hst : forall u, stuck (goto t (Waking l) s1) u = true -> stuck s1 u = true /\ u <> w).
  { intros u. unfold stuck at 1. cbn [goto place sleep]. destruct (decide (u = t)) as [->|]; [by rewrite upd_same|rewrite upd_other by done].
      intros Hx. split; [exact Hx|]. intros ->. unfold stuck in Hns. by rewrite Hns in Hx. }
  assert (Hcall : forall u, u <> w -> called s1 u -> called (goto t (Waking l) s1) u).
  { intros u Hne [x Hin]. exists x. cbn [goto place]. destruct (decide (x = t)) as [->|]; [rewrite upd_same; rewrite Hp1 in Hin; cbn in *; set_solver|by rewrite upd_other]. }
  split; cbn [goto place sleep waiters busy].
  - intros u Hu. destruct (Hb1 u Hu) as (e & q & Hx). exists e, q. rewrite upd_other; [done|]. intros ->. by rewrite Hp1 in Hx.
  - intros u. destruct (decide (u = t)) as [->|]; [by rewrite upd_same|rewrite upd_other by done; apply He1].
  - intros u [Hu Hne]%Hst. destruct (Hl1 u Hu); auto.
  - intros Hne. destruct (Hr1 Hne) as [?|(x & Hqx & Hor)]; [by left|right]. exists x.
    assert (Hxt : x <> t) by (intros ->; by rewrite Hp1 in Hqx). split; [cbn [goto place]; by rewrite upd_other|].
    destruct (stuck (goto t (Waking l) s1) x) eqn:Hsx; [|by left]. destruct (Hst x Hsx) as [Hs1 Hxw]. destruct Hor as [Hno|Hc]; [congruence|right; auto].
Qed.

Lemma wake_step e s : calm e -> held_ok (count s) (busy s) (fun t => held (place s t)) -> queue_ok s -> wake_ok s -> wake_ok (step e s).
Proof.
  intros Hcalm Hh Hq Hok. pose proof Hok as [Hb He Hl Hr]. destruct e as [t exclusive can_sleep|t x|t]; [|done|by apply wake_unblocked]. cbn [step]. unfold step_thread.
  assert (Hnb : forall p, place s t = p -> (forall e q, p <> Asleep e q) -> blocked (sleep s t) = false).
  { intros p Hp Hno. destruct (blocked (sleep s t)) eqn:Hx; [|done]. destruct (Hb t Hx) as (e & q & Hy). by destruct (Hno e q); rewrite <- Hp. }
  assert (Hquiet : forall s' p, place s' = upd t p (place s) -> sleep s' = sleep s -> waiters s' = waiters s -> busy s' = busy s -> waking (place s t) = [] -> waking p = [] ->
    (forall a b, place s t <> Listed a b) -> (forall a b, p <> Listed a b) -> (forall a b, p <> Asleep a b) -> blocked (sleep s t) = false -> queued p = queued (place s t) ->
    (queued p = true -> exclusive_of p = true) -> wake_ok s').
  { intros s' p Hp Hs Hw Hbu Hw1 Hw2 Hn0 Hn1 Hn2 Hbl Hqp Hex.
    assert (Hst : stuck s' t = false) by (unfold stuck; rewrite Hp, upd_same; destruct p; try done; [by destruct (Hn1 exclusive0 queued0)|by destruct (Hn2 exclusive0 queued0)]).
    apply (wake_moved s s' t p); rewrite ?Hs, ?Hw, ?Hbu; try done; [by rewrite Hbl|by rewrite Hst|].
    intros Hne. destruct (Hr Hne) as [?|[x Hx]]; [by left|right]. exists x. apply (retrying_moved s s' t p); rewrite ?Hs; try done. intros Hqq. split; [congruence|by rewrite Hst]. }
  destruct (place s t) as [|e q|e q|e q|b|b now|b|b|l] eqn:Hp.
  - apply (Hquiet _ (Ask exclusive false)); try done. by apply (Hnb Away).
  - unfold try_acquire. assert (Hbl : blocked (sleep s t) = false) by (by apply (Hnb (Ask e q))). destruct (claim s e) as [bits|] eqn:Hc.
    + destruct (claim_free s _ e bits Hh Hc) as [Hpos _]. apply (wake_moved s _ t (Counting bits)); cbn; try done; rewrite ?Hp, ?Hbl; try done.
      * unfold stuck. cbn. by rewrite upd_same.
      * intros _. left. intros Hz%Z.lor_eq_0_iff. lia.
    + destruct can_sleep; [|done]. set (q' := q || e && negb q). apply (wake_moved s _ t (Listed e q')); cbn; try done; rewrite ?Hp, ?Hbl; try done.
      * unfold q'. specialize (He t). rewrite Hp in He. cbn in He. destruct q, e; cbn; auto.
      * set_solver.
      * set_solver.
      * intros _. destruct (claim_none s _ e Hh Hq Hc) as [?|[-> [x Hx]]]; [by left|].
        assert (Hqf : q = false) by (specialize (He t); rewrite Hp in He; cbn in He; destruct q; [by discriminate He|done]). subst q. unfold q'. cbn [andb orb].
        assert (Hret : busy s <> 0 \/ exists y, retrying s y).
        { destruct (stuck s x) eqn:Hsx; [|right; exists x; split; auto]. destruct (Hl x Hsx) as [Hin|Hcx]; [|right; exists x; split; auto]. apply Hr. intros Hnil. rewrite Hnil in Hin. by apply elem_of_nil in Hin. }
        destruct Hret as [?|[y Hy]]; [by left|right]. exists y. apply (retrying_moved s _ t (Listed false false)); cbn; try done; by rewrite Hp.
  - assert (Hbl : blocked (sleep s t) = false) by (by apply (Hnb (Listed e q))). unfold block_current. specialize (He t). rewrite Hp in He. cbn in He. destruct (wake_pending (sleep s t)) eqn:Hw.
    + apply (wake_moved s _ t (Ask e q)); cbn; try done; rewrite ?Hp, ?upd_same; try done; [intros u Hu; by rewrite upd_other|unfold stuck; cbn; by rewrite upd_same|].
      intros Hne. destruct (Hr Hne) as [?|[x Hx]]; [by left|right]. exists x. apply (retrying_moved s _ t (Ask e q)); cbn; try done; rewrite ?Hp; try done; [intros u Hu; by rewrite upd_other|].
      intros Hqq. split; [done|]. unfold stuck. cbn. by rewrite upd_same.
    + assert (Hst : stuck s t = true) by (unfold stuck; rewrite Hp, Hw; done).
      apply (wake_moved s _ t (Asleep e q)); cbn; try done; rewrite ?Hp, ?upd_same; try done; [intros u Hu; by rewrite upd_other|eauto|intros _; by apply Hl|].
      intros Hne. destruct (Hr Hne) as [?|[x Hx]]; [by left|right]. exists x. apply (retrying_moved s _ t (Asleep e q)); cbn; try done; rewrite ?Hp; try done. intros u Hu. by rewrite upd_other.
  - specialize (He t). rewrite Hp in He. cbn in He. destruct (blocked (sleep s t)) eqn:Hbl; [done|]. apply (Hquiet _ (Ask e q)); done.
  - apply (Hquiet _ (Counted b (in_flight s + 1))); try done. by apply (Hnb (Counting b)).
  - apply (Hquiet _ (Holding b)); try done. by apply (Hnb (Counted b now)).
  - apply (Hquiet _ (Giving b)); try done. by apply (Hnb (Holding b)).
  - by apply wake_released.
  - destruct l as [|w l]; [apply (Hquiet _ Away); try done; by apply (Hnb (Waking []))|].
    by apply wake_popped.
Qed.

(** ** Whole runs *)

Record slots_ok (s : Slots) : Prop := {
  sl_held : held_ok (count s) (busy s) (fun t => held (place s t));
  sl_counts : counts_ok s;
}.

Record waits_ok (s : Slots) : Prop := {
  wt_slots : slots_ok s;
  wt_queue : queue_ok s;
  wt_wake : wake_ok s;
}.

Lemma slots_step e s : slots_ok s -> slots_ok (step e s).
Proof. intros [Hh Hc]. split; [by apply held_step|by apply counts_step]. Qed.

Lemma slots_run es s : slots_ok s -> slots_ok (run es s).
Proof. revert s. induction es as [|e es IH]; intros s Hok; [done|]. apply IH. by apply slots_step. Qed.

Lemma waits_step e s : calm e -> waits_ok s -> waits_ok (step e s).
Proof. intros Hcalm [Hs Hq Hw]. split; [by apply slots_step|by apply queue_step|by apply wake_step; [|apply Hs|..]]. Qed.

Lemma waits_run es s : Forall calm es -> waits_ok s -> waits_ok (run es s).
Proof. intros Hall. revert s. induction Hall as [|e es He _ IH]; intros s Hok; [done|]. apply IH. by apply waits_step. Qed.

Lemma waits_new n : (1 <= n <= 32)%nat -> waits_ok (new n).
Proof.
  intros Hn. assert (Hnone : forall P, P Away = false -> counts P (fun _ => Away) 0) by (intros P HP; exists []; split_and!; [apply NoDup_nil_2| |done]; intros t; split; [by intros ?%elem_of_nil|by rewrite HP]).
  split; [split|by apply Hnone|by split].
  - split; cbn; [done|lia| |done|done]. intros i. rewrite Z.testbit_0_l. split; [done|]. by intros (? & ? & ? & _).
  - split; cbn; [by apply Hnone|lia|done|left; lia].
Qed.

Lemma count_step e s : count (step e s) = count s.
Proof.
  destruct e as [t x y|t x|t]; [| |done]; cbn [step]; unfold step_thread, try_acquire, block_current; repeat case_match; done.
Qed.

Lemma count_run es s : count (run es s) = count s.
Proof. revert s. induction es as [|e es IH]; intros s; [done|]. cbn [run fold_left]. fold (run es (step e s)). by rewrite IH, count_step. Qed.

Lemma run_count es n : count (run es (new n)) = n.
Proof. apply count_run. Qed.

Lemma disjoint_land v w : 0 <= v -> 0 <= w -> (forall i, Z.testbit v i = true -> Z.testbit w i = true -> False) -> Z.land v w = 0.
Proof.
  intros Hv Hw Hd. apply Z.bits_inj'. intros i Hi. rewrite Z.land_spec, Z.testbit_0_l. apply andb_false_iff.
  destruct (Z.testbit v i) eqn:Ev; [|by left]. destruct (Z.testbit w i) eqn:Ew; [|by right]. by destruct (Hd i).
Qed.

(** C25: A disk's slots are exclusive: whatever the interleaving, and whether or not the kernel
    panics meanwhile, two requests never have a slot
    in common, each has some of the disk's slots and no others, the busy slots are exactly
    those held, a request that took every slot is alone, and no more requests are counted,
    now or at the peak, than there are slots; the peak is at least what is in flight, unless
    a request that counted itself has still to enter that as the peak. *)
Theorem slots_exclusive n es : (1 <= n <= 32)%nat ->
  let s := run es (new n) in
  (forall t u v w, held (place s t) = Some v -> held (place s u) = Some w -> t <> u -> Z.land v w = 0) /\
  (forall t v, held (place s t) = Some v -> 0 < v /\ Z.land v (all n) = v) /\
  (forall i, Z.testbit (busy s) i = true <-> exists t v, held (place s t) = Some v /\ Z.testbit v i = true) /\
  (forall t u v, held (place s t) = Some (all n) -> held (place s u) = Some v -> u = t) /\
  0 <= in_flight s <= Z.of_nat n /\ 0 <= peak s <= Z.of_nat n /\
  (in_flight s <= peak s \/ exists t v now, place s t = Counted v now /\ in_flight s <= now).
Proof.
  intros Hn s. pose proof (slots_run es _ (wt_slots _ (waits_new n Hn))) as [Hh Hc]. fold s in Hh, Hc. pose proof (run_count es n) as Hcn. fold s in Hcn.
  destruct Hh as [_ Hb Hbusy Honce Hbits]. rewrite Hcn in *. split_and!.
  - intros t u v w Ht Hu Hne. apply disjoint_land; [apply Hbits in Ht; lia|apply Hbits in Hu; lia|]. intros i Hv Hw. by apply Hne, (Honce t u v w i).
  - intros t v Ht. destruct (Hbits t v Ht) as [Hpos Hin]. split; [done|]. apply Z.bits_inj'. intros i Hi. rewrite Z.land_spec.
    destruct (Z.testbit v i) eqn:Hv; [|done]. by rewrite (proj2 (all_bit n i Hn)) by auto.
  - done.
  - intros t u v Ht Hu. destruct (Hbits u v Hu) as [Hpos Hin]. destruct (positive_bit v Hpos) as (i & _ & Hi). apply (Honce u t v (all n) i); try done. by apply all_bit; auto.
  - destruct (ck_flight _ Hc) as (l & _ & _ & ->). lia.
  - rewrite <- Hcn. apply (flight_bound s); [rewrite Hcn; split; done|apply Hc].
  - apply Hc.
  - pose proof (ck_peak _ Hc). lia.
  - apply Hc.
Qed.

(** Stepping a thread through those it wakes reaches everyone on its list. *)
Lemma waking_reaches h t l : forall s, waits_ok s -> place s h = Waking l -> t ∈ l ->
  exists k, (k <= length l)%nat /\ stuck (run (replicate k (Step h false false)) s) t = false.
Proof.
  induction l as [|w l IH]; intros s Hok Hp Hin; [by apply elem_of_nil in Hin|].
  pose proof (waits_step (Step h false false) s ltac:(done) Hok) as Hok1. cbn [step] in Hok1. unfold step_thread in Hok1. rewrite Hp in Hok1.
  assert (Hrun : forall k, run (replicate (S k) (Step h false false)) s = run (replicate k (Step h false false)) (goto h (Waking l) (set_sleep w (unblock (sleep s w)) s))).
  { intros k. cbn [replicate run fold_left step]. unfold step_thread. by rewrite Hp. }
  destruct (decide (t = w)) as [->|Hne].
  - exists 1%nat. split; [cbn; lia|]. rewrite Hrun. cbn [replicate run fold_left]. pose proof (unblock_not_stuck s w (wt_wake _ Hok)) as Hns. unfold stuck in *. cbn [goto place sleep] in *.
    destruct (decide (w = h)) as [->|]; [by rewrite upd_same|by rewrite upd_other].
  - destruct (IH _ Hok1) as (k & Hk & Hst); [cbn [goto place]; apply upd_same|set_solver|]. exists (S k). split; [cbn; lia|]. by rewrite Hrun.
Qed.

(** While the kernel does not panic nobody who waits for a slot is forgotten: a thread that is parked is on the list of one
    that is waking threads, which reaches it in at most as many steps as that list is long;
    or it is listed, and then a slot is held, or somebody who waits for every slot can run;
    and whoever gives a slot back takes over everyone listed. *)
Theorem slots_wake n es t : (1 <= n <= 32)%nat -> Forall calm es ->
  let s := run es (new n) in stuck s t = true ->
  (exists h k, (k <= length (waking (place s h)))%nat /\ stuck (run (replicate k (Step h false false)) s) t = false) \/
  (t ∈ waiters s /\ ((exists h v, held (place s h) = Some v) \/ exists e, retrying s e) /\
   forall h b, place s h = Giving b -> waking (place (run [Step h false false] s) h) = waiters s).
Proof.
  intros Hn Hcalm s Hst. pose proof (waits_run es _ Hcalm (waits_new n Hn)) as Hok. fold s in Hok. destruct (wk_listed _ (wt_wake _ Hok) t Hst) as [Hin|[h Hin]].
  - right. split; [done|]. split.
    + destruct (wk_reason _ (wt_wake _ Hok)) as [Hb|Hr]; [intros Hnil; rewrite Hnil in Hin; by apply elem_of_nil in Hin| |by right]. left.
      pose proof (hk_nonneg _ _ _ (sl_held _ (wt_slots _ Hok))). destruct (positive_bit (busy s)) as (i & _ & Hi); [lia|]. apply (hk_busy _ _ _ (sl_held _ (wt_slots _ Hok))) in Hi as (h & v & Hv & _). eauto.
    + intros h b Hp. cbn. unfold step_thread. rewrite Hp. cbn. by rewrite upd_same.
  - left. destruct (place s h) as [| | | | | | | |l] eqn:Hp; cbn in Hin; try by apply elem_of_nil in Hin. destruct (waking_reaches h t l s Hok Hp Hin) as (k & Hk & Hst'). exists h, k. by rewrite Hp.
Qed.

(** ** Answers are delivered *)

Module Answers.
Import Completion.

Definition armed : Completion := arm Completion.default.

Record answer_ok (me : nat) (c : Completion) : Prop := {
  ak_state : match at_finish c with Before => state c = IN_FLIGHT | _ => state c = DONE \/ state c = FAULT end;
  ak_returned : forall o, at_wait c = Returned o \/ at_wait c = Unregister o -> outcome c = Some o;
  ak_waiter : waiter c = 0%nat \/ waiter c = (me + 1)%nat;
  ak_unblock : forall w, at_finish c = Unblock w -> w = me;
  ak_listed : at_wait c = LookAgain -> at_finish c = Before -> waiter c = (me + 1)%nat;
  ak_blocked : blocked (asleep c) = true -> at_wait c = Parked;
  ak_stuck : stuck c = true -> match at_finish c with Before | Swap => waiter c = (me + 1)%nat | Unblock _ => True | After => False end;
}.

Lemma outcome_in_flight c : state c = IN_FLIGHT -> outcome c = None.
Proof. unfold outcome. by intros ->. Qed.

Lemma unblocked_not_stuck c : (blocked (asleep c) = true -> at_wait c = Parked) -> stuck (with_asleep c (unblock (asleep c))) = false.
Proof.
  intros Hb. unfold stuck, unblock. cbn. destruct (blocked (asleep c)) eqn:Hx; cbn; [by rewrite Hb|]. by destruct (at_wait c).
Qed.

Lemma unblock_answer me c : answer_ok me c -> answer_ok me (with_asleep c (unblock (asleep c))).
Proof.
  intros [H1 H2 H3 H4 H5 H6 H7]. pose proof (unblocked_not_stuck c H6) as Hns. split; cbn [with_asleep state waiter at_wait asleep at_finish]; try done.
  - unfold unblock. by destruct (blocked (asleep c)).
  - by rewrite Hns.
Qed.

Lemma wait_answer me c : answer_ok me c -> answer_ok me (wait_step me c).
Proof.
  intros [H1 H2 H3 H4 H5 H6 H7]. unfold wait_step.
  assert (Hnb : at_wait c <> Parked -> blocked (asleep c) = false) by (intros Hne; destruct (blocked (asleep c)); [by destruct Hne; apply H6|done]).
  destruct (at_wait c) as [| | |o| | |o] eqn:Hw; [| | | | | |by split; rewrite ?Hw].
  - destruct (outcome c) as [o|] eqn:Ho; split; cbn; try done; try (by rewrite Hnb); intros o' [[= <-]|[= ?]]; done.
  - split; cbn; try done; try (by rewrite Hnb); [by intros o [[= ?]|[= ?]]|by right].
  - destruct (outcome c) as [o|] eqn:Ho; split; cbn; try done; try (by rewrite Hnb).
    + by intros o' [[= ?]|[= <-]].
    + by intros o' [[= ?]|[= ?]].
    + intros _. destruct (at_finish c) eqn:Hf; [by apply H5|..]; exfalso; unfold outcome in Ho; destruct H1 as [Hs|Hs]; by rewrite Hs in Ho.
  - split; cbn; try done; try (by rewrite Hnb); [|by left]. intros o' [[= <-]|[= ?]]. apply H2. by right.
  - unfold block_current. destruct (wake_pending (asleep c)) eqn:Hp; split; cbn; try done; try (by intros o [[= ?]|[= ?]]).
    intros _. apply H7. unfold stuck. by rewrite Hw, Hp.
  - destruct (blocked (asleep c)) eqn:Hb; [by split; rewrite ?Hw, ?Hb|]. split; cbn; try done; try (by rewrite Hb). by intros o [[= ?]|[= ?]].
Qed.

Lemma finish_answer me ok c : answer_ok me c -> answer_ok me (finish_step me ok c).
Proof.
  intros Hok. pose proof Hok as [H1 H2 H3 H4 H5 H6 H7]. unfold finish_step. destruct (at_finish c) as [| |w|] eqn:Hf; [| | |done].
  - assert (Hno : forall o, at_wait c = Returned o \/ at_wait c = Unregister o -> False) by (intros o Ho; apply H2 in Ho; by rewrite outcome_in_flight in Ho).
    split; cbn; try done; try (intros o Ho; by destruct (Hno o)). destruct ok; auto.
  - assert (Hw : (waiter c =? 0)%nat = false -> waiter c = (me + 1)%nat) by (intros Hx%Nat.eqb_neq; by destruct H3).
    split; cbn; try done; try (by destruct (waiter c =? 0)%nat); try (by left).
    + intros w. destruct (waiter c =? 0)%nat eqn:Hz; [done|]. intros [= <-]. rewrite Hw by done. lia.
    + intros Hst. destruct (waiter c =? 0)%nat eqn:Hz; [|done]. apply Nat.eqb_eq in Hz. specialize (H7 Hst). lia.
  - assert (w = me) as -> by (by apply H4). rewrite decide_True by done. pose proof (unblocked_not_stuck c H6) as Hns. pose proof (unblock_answer me c Hok) as [G1 G2 G3 G4 G5 G6 G7].
    split; cbn [with_finish state waiter at_wait asleep at_finish]; try done. intros Hst. unfold stuck in *. cbn in *. by rewrite Hns in Hst.
Qed.

Lemma answer_run me es : forall c, answer_ok me c -> answer_ok me (run me es c).
Proof.
  induction es as [|e es IH]; intros c Hok; [done|]. apply IH. destruct e; cbn [step]; [by apply wait_answer|by apply finish_answer|by apply unblock_answer].
Qed.

Lemma answer_armed me : answer_ok me armed.
Proof. split; cbn; try done; [by intros o [?|?]|by left]. Qed.

(** Two steps of the handler after the answer is stored free the waiter, whatever it was
    doing. *)
Lemma handler_frees me ok c : answer_ok me c -> at_finish c <> Before -> at_finish c <> After -> stuck (run me [Finish ok; Finish ok] c) = false.
Proof.
  intros Hok Hb Ha. pose proof Hok as [H1 H2 H3 H4 H5 H6 H7]. cbn. unfold finish_step at 2. destruct (at_finish c) as [| |w|] eqn:Hf; [done| | |done].
  - destruct (stuck c) eqn:Hst.
    + rewrite (H7 eq_refl). replace ((me + 1 =? 0)%nat) with false by (symmetry; apply Nat.eqb_neq; lia). unfold finish_step. cbn [with_finish at_finish with_waiter].
      rewrite decide_True by lia. apply (unblocked_not_stuck (with_waiter c 0)). exact H6.
    + set (c1 := with_finish (with_waiter c 0) _). assert (Hs1 : stuck c1 = false) by exact Hst.
      unfold finish_step. destruct (at_finish c1); [exact Hs1|exact Hs1| |exact Hs1]. case_decide; [|exact Hs1]. apply (unblocked_not_stuck c1). exact H6.
  - assert (w = me) as -> by (by apply H4). rewrite decide_True by done. unfold finish_step. cbn [with_finish at_finish]. exact (unblocked_not_stuck c H6).
Qed.

(** From anywhere but parked, with the answer there, the waiter returns it. *)
Lemma waiter_returns me c o : answer_ok me c -> outcome c = Some o -> stuck c = false -> exists k, (k <= 4)%nat /\ at_wait (run me (replicate k Wait) c) = Returned o.
Proof.
  intros Hok Ho Hst. pose proof Hok as [H1 H2 H3 H4 H5 H6 H7]. destruct (at_wait c) as [| | |o'| | |o'] eqn:Hw.
  - exists 1%nat. split; [lia|]. cbn. unfold wait_step. by rewrite Hw, Ho.
  - exists 3%nat. split; [lia|]. cbn. unfold wait_step at 3. rewrite Hw. unfold wait_step at 2. cbn. change (outcome (with_wait (with_waiter c (me + 1)) LookAgain)) with (outcome c). by rewrite Ho.
  - exists 2%nat. split; [lia|]. cbn. unfold wait_step at 2. rewrite Hw, Ho. done.
  - exists 1%nat. split; [lia|]. cbn. unfold wait_step. rewrite Hw. cbn. specialize (H2 o' (or_intror eq_refl)). congruence.
  - exists 2%nat. split; [lia|]. unfold stuck in Hst. rewrite Hw in Hst. apply negb_false_iff in Hst. cbn. unfold wait_step at 2. rewrite Hw. unfold block_current. rewrite Hst. unfold wait_step. cbn.
    change (outcome (with_wait (with_asleep c _) Look)) with (outcome c). by rewrite Ho.
  - exists 2%nat. split; [lia|]. unfold stuck in Hst. rewrite Hw in Hst. cbn. unfold wait_step at 2. rewrite Hw, Hst. unfold wait_step. cbn.
    change (outcome (with_wait c Look)) with (outcome c). by rewrite Ho.
  - exists 0%nat. split; [lia|]. cbn. rewrite Hw. specialize (H2 o' (or_introl eq_refl)). congruence.
Qed.

(** What the device said, by the first call of [finish] there was; and what [wait] is to
    return for it. *)
Fixpoint said (es : list Event) : option bool :=
  match es with
  | [] => None
  | Finish ok :: _ => Some ok
  | _ :: rest => said rest
  end.
Definition verdict (ok : bool) : Outcome := if ok then Answered else DeviceFault.

Lemma wait_keeps_answer me c : outcome (wait_step me c) = outcome c /\ at_finish (wait_step me c) = at_finish c /\ state (wait_step me c) = state c.
Proof. unfold wait_step, block_current. by destruct (at_wait c); repeat case_match. Qed.

Lemma finish_keeps_answer me ok c : at_finish c <> Before -> outcome (finish_step me ok c) = outcome c /\ at_finish (finish_step me ok c) <> Before.
Proof. intros Hne. unfold finish_step. destruct (at_finish c) eqn:Hf; [done|split; [done|]; cbn; by destruct (waiter c =? 0)%nat|split; [by case_decide|done]|by rewrite Hf]. Qed.

(** Once stored the answer stays. *)
Lemma answer_stays me es : forall c, at_finish c <> Before -> outcome (run me es c) = outcome c /\ at_finish (run me es c) <> Before.
Proof.
  induction es as [|e es IH]; intros c Hb; [done|]. assert (Hs : outcome (step me e c) = outcome c /\ at_finish (step me e c) <> Before).
  { destruct e; cbn [step]; [destruct (wait_keeps_answer me c) as (-> & -> & _); done|by apply finish_keeps_answer|done]. }
  destruct Hs as [Ho Hn]. destruct (IH _ Hn) as [H1 H2]. unfold run in *. cbn [fold_left]. by rewrite H1.
Qed.

(** The answer that is there is the device's. *)
Lemma answer_is_said me es : forall c, at_finish c = Before -> state c = IN_FLIGHT ->
  match said es with
  | Some ok => at_finish (run me es c) <> Before /\ outcome (run me es c) = Some (verdict ok)
  | None => at_finish (run me es c) = Before /\ outcome (run me es c) = None
  end.
Proof.
  induction es as [|e es IH]; intros c Hb Hs; [split; [done|by apply outcome_in_flight]|]. destruct e as [|ok|]; cbn [said].
  - destruct (wait_keeps_answer me c) as (_ & Hf & Hst). by apply (IH (wait_step me c)); congruence.
  - assert (H1 : at_finish (finish_step me ok c) <> Before /\ outcome (finish_step me ok c) = Some (verdict ok)) by (unfold finish_step; rewrite Hb; by destruct ok).
    destruct H1 as [H1 H2]. destruct (answer_stays me es _ H1) as [H3 H4]. unfold run in *. cbn [fold_left step]. by rewrite H3.
  - by apply (IH (with_asleep c (unblock (asleep c)))).
Qed.

(** C26: An answer is delivered: however a thread that goes to sleep on a request, the handler
    that announces its completion and wakes from elsewhere interleave, [wait] returns
    [Ok] or a fault as the device said, and nothing before it has said anything; and once
    it has, at most two more steps of the handler and four of the thread bring it home. *)
Theorem answer_delivered me es :
  let c := run me es armed in
  (forall o, at_wait c = Returned o -> exists ok, said es = Some ok /\ o = verdict ok) /\
  (forall ok, said es = Some ok -> forall again, exists i k, (i <= 2)%nat /\ (k <= 4)%nat /\
     at_wait (run me (replicate i (Finish again) ++ replicate k Wait) c) = Returned (verdict ok)).
Proof.
  intros c. pose proof (answer_run me es armed (answer_armed me)) as Hok. fold c in Hok. pose proof (answer_is_said me es armed eq_refl eq_refl) as Hsaid. fold c in Hsaid. split.
  - intros o Ho. pose proof (ak_returned _ _ Hok o (or_introl Ho)) as Hout. destruct (said es) as [ok|]; [|destruct Hsaid; congruence]. exists ok. split; [done|]. destruct Hsaid. congruence.
  - intros ok Hes again. rewrite Hes in Hsaid. destruct Hsaid as [Hb Ho].
    assert (Hrun : forall i, (i <= 2)%nat -> stuck (run me (replicate i (Finish again)) c) = false ->
      exists i k, (i <= 2)%nat /\ (k <= 4)%nat /\ at_wait (run me (replicate i (Finish again) ++ replicate k Wait) c) = Returned (verdict ok)).
    { intros i Hi Hst. destruct (answer_stays me (replicate i (Finish again)) c Hb) as [Hoi _].
      destruct (waiter_returns me (run me (replicate i (Finish again)) c) (verdict ok)) as (k & Hk & Hret); [by apply answer_run|congruence|done|].
      exists i, k. split_and!; try done. unfold run in *. by rewrite fold_left_app. }
    destruct (stuck c) eqn:Hst; [|apply (Hrun 0%nat); [lia|done]]. apply (Hrun 2%nat); [lia|].
    apply (handler_frees me again c); [done|done|]. intros Hf. pose proof (ak_stuck _ _ Hok Hst) as Hx. by rewrite Hf in Hx.
Qed.

(** Polling finds the first answer within its bound, and otherwise reports a fault with
    the command still in the device's hands. *)
Lemma poll_spec {D} (service : D -> D) answer n : forall d,
  (exists k o, (k < n)%nat /\ answer (Nat.iter (S k) service d) = Some o /\ (forall j, (j < k)%nat -> answer (Nat.iter (S j) service d) = None) /\
     poll service answer n d = (o, Nat.iter (S k) service d)) \/
  (forall j, (j < n)%nat -> answer (Nat.iter (S j) service d) = None) /\ poll service answer n d = (DeviceFault, Nat.iter n service d).
Proof.
  induction n as [|n IH]; intros d; [right; split; [lia|done]|]. cbn [poll].
  assert (Hiter : forall k, Nat.iter (S (S k)) service d = Nat.iter (S k) service (service d)) by (intros k; by rewrite Nat.iter_succ_r).
  destruct (answer (service d)) as [o|] eqn:Ho; [left; exists 0%nat, o; split_and!; [lia|done|lia|done]|].
  assert (Hsplit : forall m, (forall j, (j < m)%nat -> answer (Nat.iter (S j) service (service d)) = None) -> forall j, (j < S m)%nat -> answer (Nat.iter (S j) service d) = None).
  { intros m Hm [|j] Hj; [done|]. rewrite Hiter. apply Hm. lia. }
  destruct (IH (service d)) as [(k & o & Hk & Hans & Hno & Hrun)|[Hno Hrun]].
  - left. exists (S k), o. rewrite Hiter. split_and!; [lia|done|by apply Hsplit|done].
  - right. split; [by apply Hsplit|]. rewrite Hrun. f_equal. by rewrite Nat.iter_succ_r.
Qed.

Lemma answer_delivered_witness : let c := run 5 [Wait; Wait; Wait; Wait; Finish false] armed in
  stuck c = true /\ at_wait c = Parked /\ exists i k, (i <= 2)%nat /\ (k <= 4)%nat /\
    at_wait (run 5 (replicate i (Finish false) ++ replicate k Wait) c) = Returned DeviceFault.
Proof.
  intros c. split; [reflexivity|]. split; [reflexivity|]. destruct (answer_delivered 5 [Wait; Wait; Wait; Wait; Finish false]) as [_ Hd]. exact (Hd false eq_refl false).
Defined.

(** The handler may take the waiter off the request after the thread saw the answer by
    itself: [wait] returns, and a wake it did not need is left for whatever the thread
    sleeps on next. *)
Lemma answer_leaves_wake : let c := run 5 [Wait; Wait; Finish true; Wait; Finish true; Wait; Finish true] armed in
  at_wait c = Returned Answered /\ at_finish c = After /\ wake_pending (asleep c) = true.
Proof. repeat split; reflexivity. Qed.
End Answers.

Module SlotRuns.

Definition s (t : nat) : Slots.Event := Step t false true.
Definition everything (t : nat) : Slots.Event := Step t true true.

(** Threads 1 and 2 take the two slots of a disk; thread 3 wants both and parks; thread 1
    is about to give its slot back. *)
Definition crowded : list Slots.Event := [s 1; s 1; s 1; s 1; s 2; s 2; s 2; s 2; everything 3; everything 3; everything 3; s 1].

Lemma slots_exclusive_witness : let st := run crowded (new 2) in
  held (place st 1) = Some 1 /\ held (place st 2) = Some 2 /\ Z.land 1 2 = 0 /\ in_flight st = 1 /\ peak st = 2 /\ peak st <= 2.
Proof.
  intros st. destruct (slots_exclusive 2 crowded ltac:(lia)) as (Hd & _ & _ & _ & _ & [_ Hp] & _). fold st in Hd, Hp.
  split; [reflexivity|]. split; [reflexivity|]. split; [apply (Hd 1%nat 2%nat); [reflexivity|reflexivity|lia]|]. split; [reflexivity|]. split; [reflexivity|exact Hp].
Defined.

Lemma parked_third : stuck (run crowded (new 2)) 3 = true.
Proof. vm_compute. reflexivity. Qed.

Lemma run_none e st : run (replicate 0 e) st = st.
Proof. reflexivity. Qed.

Lemma slots_wake_witness : let st := run crowded (new 2) in
  stuck st 3 = true /\ 3%nat ∈ waiters st /\ waking (place (run [Step 1 false false] st) 1) = [3%nat].
Proof.
  intros st. split; [exact parked_third|]. destruct (slots_wake 2 crowded 3 ltac:(lia) ltac:(by repeat constructor) parked_third) as [(h & k & Hk & Hs)|(Hin & _ & Hg)].
  - exfalso. assert (Hnone : forall h, waking (place (run crowded (new 2)) h) = []) by (intros [|[|[|[|h']]]]; vm_compute; reflexivity).
    rewrite Hnone in Hk. destruct k as [|k]; [|cbn in Hk; lia]. rewrite run_none, parked_third in Hs. discriminate Hs.
  - split; [exact Hin|]. exact (Hg 1%nat 1 eq_refl).
Defined.
End SlotRuns.
