(* ===== verification/Sync.v ===== *)
(** * Locks (kernel/src/sync.rs)

    The ticket lock with interrupts masked, on processors that interrupts arrive at; values
    made once; and the lock whose waiters sleep.  Every access to an atomic is a step of
    its own, as are masking and unmasking, and the steps of all processors or threads
    interleave freely. *)

From stdpp Require Import base list numbers list_numbers.
From Stdlib Require Import Lia ZifyBool.
From S2P Require Import Prelude Request.

Definition upd {A} (t : nat) (v : A) (f : nat -> A) : nat -> A := fun u => if decide (u = t) then v else f u.

(** ** The ticket lock *)

Module Ticket.

(** [drawn] and [served] keep the processors that took a ticket and those that were let in,
    in order; the code has only the two counters. *)
Record Mutex : Type := { next_ticket : Z; now_serving : Z; drawn : list nat; served : list nat }.
Definition new : Mutex := {| next_ticket := 0; now_serving := 0; drawn := []; served := [] |}.

(** Where a processor is: outside; in [lock] or [try_lock] with interrupts sampled, then
    masked; waiting with a ticket; in [try_lock] with what is being served loaded, or
    refused; in [drop] with the next ticket computed, then stored. *)
Inductive Pc : Type :=
| Running
| Sampled (try : bool) (l : nat) (restore : bool)
| Masked (try : bool) (l : nat) (restore : bool)
| Waiting (l : nat) (restore : bool) (ticket : Z)
| Loaded (l : nat) (restore : bool) (serving : Z)
| Refused (restore : bool)
| Dropping (l : nat) (restore : bool) (next : Z)
| Dropped (restore : bool).

(** What runs on a processor: a thread, or a handler that interrupted it; [guards] are its
    [MutexGuard]s, the latest first; [base] is whether interrupts were on when it began. *)
Record Frame : Type := { pc : Pc; guards : list (nat * bool); base : bool }.
Record Processor : Type := { irq : bool; top : Frame; below : list Frame }.
Record Machine : Type := { mutexes : nat -> Mutex; cpus : nat -> Processor }.

Definition goto (c : Pc) (f : Frame) : Frame := {| pc := c; guards := guards f; base := base f |}.
Definition set_guards (g : list (nat * bool)) (f : Frame) : Frame := {| pc := pc f; guards := g; base := base f |}.
Definition on_top (h : Frame -> Frame) (p : Processor) : Processor := {| irq := irq p; top := h (top p); below := below p |}.
Definition set_irq (b : bool) (p : Processor) : Processor := {| irq := b; top := top p; below := below p |}.
Definition on_cpu (c : nat) (h : Processor -> Processor) (m : Machine) : Machine := {| mutexes := mutexes m; cpus := upd c (h (cpus m c)) (cpus m) |}.
Definition on_mutex (l : nat) (h : Mutex -> Mutex) (m : Machine) : Machine := {| mutexes := upd l (h (mutexes m l)) (mutexes m); cpus := cpus m |}.

Definition wrapping_succ (v : Z) : Z := (v + 1) mod 2 ^ 64.
Definition draw (c : nat) (x : Mutex) : Mutex := {| next_ticket := wrapping_succ (next_ticket x); now_serving := now_serving x; drawn := drawn x ++ [c]; served := served x |}.
Definition let_in (c : nat) (x : Mutex) : Mutex := {| next_ticket := next_ticket x; now_serving := now_serving x; drawn := drawn x; served := served x ++ [c] |}.
Definition serve (n : Z) (x : Mutex) : Mutex := {| next_ticket := next_ticket x; now_serving := n; drawn := drawn x; served := served x |}.

(** The guard made, with whether it is the one that turned interrupts off. *)
Definition enter (l : nat) (restore : bool) (f : Frame) : Frame := {| pc := Running; guards := (l, restore) :: guards f; base := base f |}.
Definition restored (restore : bool) (p : Processor) : Processor := if restore then set_irq true p else p.

(** One more instruction of the code a processor is in. *)
Definition continue (c : nat) (m : Machine) : result unit Machine :=
  let p := cpus m c in
  match pc (top p) with
  | Running => Err tt
  | Sampled try l r => Ok (on_cpu c (fun p => set_irq false (on_top (goto (Masked try l r)) p)) m)
  | Masked false l r => Ok (on_mutex l (draw c) (on_cpu c (on_top (goto (Waiting l r (next_ticket (mutexes m l))))) m))
  | Masked true l r => Ok (on_cpu c (on_top (goto (Loaded l r (now_serving (mutexes m l))))) m)
  | Waiting l r t => if now_serving (mutexes m l) =? t then Ok (on_mutex l (let_in c) (on_cpu c (on_top (enter l r)) m)) else Ok m
  | Loaded l r v =>
      if v =? U64_MAX then Panic
      else if next_ticket (mutexes m l) =? v then Ok (on_mutex l (fun x => let_in c (draw c x)) (on_cpu c (on_top (enter l r)) m))
      else Ok (on_cpu c (on_top (goto (Refused r))) m)
  | Refused r => Ok (on_cpu c (fun p => restored r (on_top (goto Running) p)) m)
  | Dropping l r n => Ok (on_mutex l (serve n) (on_cpu c (on_top (goto (Dropped r))) m))
  | Dropped r => Ok (on_cpu c (fun p => restored r (on_top (goto Running) p)) m)
  end.

(** [Lock]: a call of [lock] or [try_lock]. [Drop i]: the [i]th guard, the latest being the
    first, goes out of scope. [Interrupt], and the return from its handler, which the
    processor masks and unmasks for. *)
Inductive Action : Type := Lock (try : bool) (l : nat) | Drop (i : nat) | Continue | Interrupt | Return.

Definition perform (c : nat) (a : Action) (m : Machine) : result unit Machine :=
  let p := cpus m c in
  match a with
  | Lock try l => match pc (top p) with Running => Ok (on_cpu c (on_top (goto (Sampled try l (irq p)))) m) | _ => Err tt end
  | Drop i =>
      match pc (top p), guards (top p) !! i with
      | Running, Some (l, r) => Ok (on_cpu c (on_top (fun f => goto (Dropping l r (wrapping_succ (now_serving (mutexes m l)))) (set_guards (delete i (guards f)) f))) m)
      | _, _ => Err tt
      end
  | Continue => continue c m
  | Interrupt => if irq p then Ok (on_cpu c (fun p => {| irq := false; top := {| pc := Running; guards := []; base := false |}; below := top p :: below p |}) m) else Err tt
  | Return =>
      match pc (top p), guards (top p), below p with
      | Running, [], f :: rest => Ok (on_cpu c (fun _ => {| irq := true; top := f; below := rest |}) m)
      | _, _, _ => Err tt
      end
  end.

(** A run; what is not possible is skipped. *)
Fixpoint run (acts : list (nat * Action)) (m : Machine) : result unit Machine :=
  match acts with
  | [] => Ok m
  | (c, a) :: rest =>
      match perform c a m with
      | Ok m' => run rest m'
      | Err _ => run rest m
      | Panic => Panic
      end
  end.

Definition start (on : nat -> bool) : Machine :=
  {| mutexes := fun _ => new; cpus := fun c => {| irq := on c; top := {| pc := Running; guards := []; base := on c |}; below := [] |} |}.

(** Guards go out of scope in the opposite order to the one they were made in. *)
Definition nested (a : Action) : Prop := match a with Drop i => i = 0%nat | _ => True end.

End Ticket.

(** ** Made once *)

Module Once.

Definition EMPTY : Z := 0.
Definition MAKING : Z := 1.
Definition MADE : Z := 2.

(** A caller of [call_once]: at the exchange; having won it; with the value written; having
    read the value, or of [get], having found nothing. *)
Inductive Place : Type := Away | Trying | Winner | Written | Got (v : option Z).

Record Once : Type := { state : Z; value : option Z; place : nat -> Place; makes : list nat }.
Definition new : Once := {| state := EMPTY; value := None; place := fun _ => Away; makes := [] |}.

Definition goto (t : nat) (p : Place) (s : Once) : Once := {| state := state s; value := value s; place := upd t p (place s); makes := makes s |}.
Definition set_state (v : Z) (s : Once) : Once := {| state := v; value := value s; place := place s; makes := makes s |}.
Definition write (t : nat) (v : Z) (s : Once) : Once := {| state := state s; value := Some v; place := place s; makes := makes s ++ [t] |}.

Section Once.
(** What a caller's [make] makes. *)
Context (make : nat -> Z).

Inductive Event : Type := Call (t : nat) | Get (t : nat) | Step (t : nat) | Leave (t : nat).

(** [assume_init_ref] of a value that was never written is a panic here. *)
Definition read (t : nat) (s : Once) : option Once := match value s with Some v => Some (goto t (Got (Some v)) s) | None => None end.

Definition step (e : Event) (s : Once) : option Once :=
  match e with
  | Call t => Some (match place s t with Away => goto t Trying s | _ => s end)
  | Get t => match place s t with Away => if state s =? MADE then read t s else Some (goto t (Got None) s) | _ => Some s end
  | Leave t => Some (match place s t with Got _ => goto t Away s | _ => s end)
  | Step t =>
      match place s t with
      | Trying => if state s =? EMPTY then Some (goto t Winner (set_state MAKING s)) else if state s =? MADE then read t s else Some s
      | Winner => Some (goto t Written (write t (make t) s))
      | Written => read t (set_state MADE s)
      | _ => Some s
      end
  end.

Fixpoint run (es : list Event) (s : Once) : option Once :=
  match es with
  | [] => Some s
  | e :: es => s' ← step e s; run es s'
  end.

End Once.
End Once.

(** ** The lock whose waiters sleep *)

Module SleepMutex.

(** A thread: outside; at the head of the loop of [lock]; having failed, and free to park;
    with the waiters' lock, and having failed again; queued and about to park; parked;
    holding; having let go; waking the waiter it took off the queue. *)
Inductive Place : Type := Away | Trying | Failed | Inside | Pushing | Queued | Asleep | Holding | LetGo | Waking (w : nat).

(** [inside] is who has the lock of [waiters]. *)
Record Lock : Type := { held : bool; waiters : list nat; inside : option nat; place : nat -> Place; sleep : nat -> Sleep }.
Definition new : Lock := {| held := false; waiters := []; inside := None; place := fun _ => Away; sleep := fun _ => awake |}.

Definition goto (t : nat) (p : Place) (s : Lock) : Lock := {| held := held s; waiters := waiters s; inside := inside s; place := upd t p (place s); sleep := sleep s |}.
Definition set_held (b : bool) (s : Lock) : Lock := {| held := b; waiters := waiters s; inside := inside s; place := place s; sleep := sleep s |}.
Definition set_waiters (l : list nat) (s : Lock) : Lock := {| held := held s; waiters := l; inside := inside s; place := place s; sleep := sleep s |}.
Definition set_inside (o : option nat) (s : Lock) : Lock := {| held := held s; waiters := waiters s; inside := o; place := place s; sleep := sleep s |}.
Definition set_sleep (t : nat) (z : Sleep) (s : Lock) : Lock := {| held := held s; waiters := waiters s; inside := inside s; place := place s; sleep := upd t z (sleep s) |}.

(** [take] *)
Definition take (s : Lock) : option Lock := if held s then None else Some (set_held true s).

Definition step_thread (t : nat) (can_sleep : bool) (s : Lock) : Lock :=
  match place s t with
  | Away => goto t Trying s
  | Trying =>
      match take s with
      | Some s' => goto t Holding s'
      | None => if can_sleep then goto t Failed s else s
      end
  | Failed => match inside s with None => goto t Inside (set_inside (Some t) s) | Some _ => s end
  | Inside =>
      match take s with
      | Some s' => goto t Holding (set_inside None s')
      | None => goto t Pushing s
      end
  | Pushing => goto t Queued (set_inside None (set_waiters (waiters s ++ [t]) s))
  | Queued => let '(parked, z) := block_current (sleep s t) in goto t (if parked then Asleep else Trying) (set_sleep t z s)
  | Asleep => if blocked (sleep s t) then s else goto t Trying s
  | Holding => goto t LetGo (set_held false s)
  | LetGo =>
      match inside s with
      | Some _ => s
      | None =>
          match waiters s with
          | [] => goto t Away s
          | w :: rest => goto t (Waking w) (set_waiters rest s)
          end
      end
  | Waking w => goto t Away (set_sleep w (unblock (sleep s w)) s)
  end.

(** A step of a thread, with whether it may sleep; or a wake of it from elsewhere. *)
Inductive Event : Type := Step (t : nat) (can_sleep : bool) | Stray (t : nat).

Definition step (e : Event) (s : Lock) : Lock :=
  match e with
  | Step t can_sleep => step_thread t can_sleep s
  | Stray t => set_sleep t (unblock (sleep s t)) s
  end.

Definition run (es : list Event) (s : Lock) : Lock := fold_left (fun s e => step e s) es s.

End SleepMutex.
