(* ===== verification/SyncTheorems.v ===== *)
(** * Locks: what holds of them

    The ticket lock admits one processor at a time, in the order they came, and its holder
    is never interrupted; a value is made once; the sleeping lock admits one thread at a
    time and leaves nobody asleep beside it, unless a thread is woken for another reason. *)

From stdpp Require Import base list numbers list_numbers.
From Stdlib Require Import Lia ZifyBool.
From S2P Require Import Prelude Request Sync.

Lemma upd_eq {A} t (v : A) f : upd t v f t = v.
Proof. unfold upd. by rewrite decide_True. Qed.

Lemma upd_ne {A} t u (v : A) f : u <> t -> upd t v f u = f u.
Proof. intros Hne. unfold upd. by rewrite decide_False. Qed.

(** ** The ticket lock *)

Module TicketInv.
Import Ticket.

(** What one lock sees of a processor: whether it has a guard, and where it is. *)
Inductive Spot : Type := Elsewhere | Waits (ticket : Z) | Loads (serving : Z) | Drops (next : Z).
Definition view : Type := nat -> bool * Spot.

Definition holder (v : view) (c : nat) : Prop := (v c).1 = true \/ exists n, (v c).2 = Drops n.

(** One lock, and what processors have to do with it, after at most [k] steps. *)
Record mutex_ok (x : Mutex) (v : view) (k : nat) : Prop := {
  m_next : next_ticket x = Z.of_nat (length (drawn x));
  m_few : (length (drawn x) <= k)%nat;
  m_serving : 0 <= now_serving x <= Z.of_nat (length (served x)) /\ Z.of_nat (length (served x)) <= now_serving x + 1;
  m_order : served x `prefix_of` drawn x;
  m_holder : forall c, holder v c -> Z.of_nat (length (served x)) = now_serving x + 1 /\ drawn x !! Z.to_nat (now_serving x) = Some c;
  m_held : Z.of_nat (length (served x)) = now_serving x + 1 -> exists c, holder v c;
  m_waits : forall c t, (v c).2 = Waits t -> Z.of_nat (length (served x)) <= t /\ drawn x !! Z.to_nat t = Some c;
  m_waiting : forall i c, (length (served x) <= i)%nat -> drawn x !! i = Some c -> (v c).2 = Waits (Z.of_nat i);
  m_loads : forall c n, (v c).2 = Loads n -> 0 <= n <= now_serving x;
  m_drops : forall c n, (v c).2 = Drops n -> (v c).1 = false /\ n = now_serving x + 1;
}.

Lemma mutex_ok_ext x v v' k : (forall c, v' c = v c) -> mutex_ok x v k -> mutex_ok x v' k.
Proof.
  intros He [H1 H2 H3 H4 H5 H6 H7 H8 H9 H10]. assert (Hh : forall c, holder v' c <-> holder v c) by (intros c; unfold holder; by rewrite He). split; try done.
  - intros c Hc. by apply H5, Hh.
  - intros Hl. destruct (H6 Hl) as (c & Hc). exists c. by apply Hh.
  - intros c t. rewrite He. apply H7.
  - intros i c. rewrite He. apply H8.
  - intros c n. rewrite He. apply H9.
  - intros c n. rewrite He. apply H10.
Qed.

Lemma mutex_ok_later x v k k' : (k <= k')%nat -> mutex_ok x v k -> mutex_ok x v k'.
Proof. intros Hk [H1 H2 H3 H4 H5 H6 H7 H8 H9 H10]. split; try done. lia. Qed.

Section Steps.
Context (x : Mutex) (v : view) (k : nat) (c : nat) (Hok : mutex_ok x v k).

(** A change of where a processor is that this lock does not notice in others. *)
Lemma draw_ok h : v c = (h, Elsewhere) -> Z.of_nat k < 2 ^ 64 - 1 -> mutex_ok (draw c x) (upd c (h, Waits (next_ticket x)) v) (S k).
Proof.
  intros Hv Hk. destruct Hok as [H1 H2 H3 H4 H5 H6 H7 H8 H9 H10].
  assert (Hh : forall c', holder (upd c (h, Waits (next_ticket x)) v) c' <-> holder v c').
  { intros c'. unfold holder. destruct (decide (c' = c)) as [->|Hne]; [rewrite upd_eq, Hv; cbn; naive_solver|by rewrite upd_ne]. }
  pose proof (prefix_length _ _ H4) as Hp. split; cbn [next_ticket now_serving drawn served draw].
  - rewrite length_app. cbn. unfold wrapping_succ. rewrite Z.mod_small; lia.
  - rewrite length_app. cbn. lia.
  - done.
  - by apply prefix_app_r.
  - intros c' Hc'. apply Hh in Hc'. destruct (H5 c' Hc') as [Hs Hd]. split; [done|]. by apply lookup_app_l_Some.
  - intros Hs. destruct (H6 Hs) as (c' & Hc'). exists c'. by apply Hh.
  - intros c' t. destruct (decide (c' = c)) as [->|Hne].
    + rewrite upd_eq. intros [= <-]. split; [lia|]. rewrite H1, Nat2Z.id. by apply list_lookup_middle.
    + rewrite upd_ne by done. intros Ht. destruct (H7 c' t Ht) as [Hs Hd]. split; [done|]. by apply lookup_app_l_Some.
  - intros i c' Hi Hd. apply lookup_app_Some in Hd as [Hd|[Hl Hd]].
    + assert (c' <> c) by (intros ->; pose proof (H8 i c Hi Hd) as Hx; rewrite Hv in Hx; done). rewrite upd_ne by done. by apply H8.
    + apply list_lookup_singleton_Some in Hd as [Hz <-]. rewrite upd_eq. cbn. f_equal. lia.
  - intros c' n. destruct (decide (c' = c)) as [->|Hne]; [by rewrite upd_eq|rewrite upd_ne by done; apply H9].
  - intros c' n. destruct (decide (c' = c)) as [->|Hne]; [by rewrite upd_eq|rewrite upd_ne by done; apply H10].
Qed.

(** With nobody inside, the one whose turn it is goes in. *)
Lemma let_in_ok h : v c = (h, Waits (now_serving x)) -> mutex_ok (let_in c x) (upd c (true, Elsewhere) v) k.
Proof.
  intros Hv. destruct Hok as [H1 H2 H3 H4 H5 H6 H7 H8 H9 H10]. destruct (H7 c (now_serving x)) as [Hs Hd]; [by rewrite Hv|].
  assert (Hfree : Z.of_nat (length (served x)) = now_serving x) by lia. assert (Hnone : forall c', ~ holder v c') by (intros c' Hc'; destruct (H5 c' Hc'); lia).
  assert (Hh : forall c', holder (upd c (true, Elsewhere) v) c' <-> c' = c).
  { intros c'. destruct (decide (c' = c)) as [->|Hne]; [unfold holder; rewrite upd_eq; cbn; naive_solver|]. split; [|done]. intros Hc'. destruct (Hnone c'). unfold holder in *. by rewrite upd_ne in Hc'. }
  destruct H4 as [rest Hrest]. assert (Hlen : length (served x) = Z.to_nat (now_serving x)) by lia. rewrite Hrest in Hd. rewrite lookup_app_r in Hd by lia. rewrite Hlen, Nat.sub_diag in Hd.
  destruct rest as [|c0 rest]; [done|]. cbn in Hd. injection Hd as ->. split; cbn [next_ticket now_serving drawn served let_in]; rewrite ?length_app; cbn [length].
  - done.
  - done.
  - lia.
  - rewrite Hrest. exists rest. by rewrite <- app_assoc.
  - intros c' ->%Hh. split; [lia|]. rewrite Hrest, <- Hlen. by apply list_lookup_middle.
  - intros _. exists c. by apply Hh.
  - intros c' t. destruct (decide (c' = c)) as [->|Hne]; [by rewrite upd_eq|]. rewrite upd_ne by done. intros Ht. destruct (H7 c' t Ht) as [Hs' Hd']. split; [|done].
    destruct (decide (t = now_serving x)) as [->|]; [|lia]. exfalso. apply Hne. rewrite Hrest, <- Hlen in Hd'. rewrite list_lookup_middle in Hd' by done. congruence.
  - intros i c' Hi Hd'. assert (Hc' : (v c').2 = Waits (Z.of_nat i)) by (apply H8; [lia|done]). destruct (decide (c' = c)) as [->|Hne]; [|by rewrite upd_ne]. rewrite Hv in Hc'. injection Hc' as Hx. lia.
  - intros c' n. destruct (decide (c' = c)) as [->|Hne]; [by rewrite upd_eq|rewrite upd_ne by done; apply H9].
  - intros c' n. destruct (decide (c' = c)) as [->|Hne]; [by rewrite upd_eq|rewrite upd_ne by done; apply H10].
Qed.

(** The holder passes the turn on. *)
Lemma serve_ok n : v c = (false, Drops n) -> mutex_ok (serve n x) (upd c (false, Elsewhere) v) k.
Proof.
  intros Hv. destruct Hok as [H1 H2 H3 H4 H5 H6 H7 H8 H9 H10]. assert (Hc : holder v c) by (right; exists n; by rewrite Hv). destruct (H5 c Hc) as [Hs Hd]. destruct (H10 c n) as [_ ->]; [by rewrite Hv|].
  assert (Hh : forall c', ~ holder (upd c (false, Elsewhere) v) c').
  { intros c' Hc'. destruct (decide (c' = c)) as [->|Hne]; unfold holder in Hc'; [rewrite upd_eq in Hc'; cbn in Hc'; naive_solver|]. rewrite upd_ne in Hc' by done. destruct (H5 c' Hc') as [_ Hd']. congruence. }
  split; cbn [next_ticket now_serving drawn served serve]; try done.
  - lia.
  - intros c' Hc'. by destruct (Hh c').
  - lia.
  - intros c' t. destruct (decide (c' = c)) as [->|Hne]; [by rewrite upd_eq|rewrite upd_ne by done; apply H7].
  - intros i c' Hi Hd'. pose proof (H8 i c' Hi Hd') as Hw. assert (c' <> c) by (intros ->; rewrite Hv in Hw; done). by rewrite upd_ne.
  - intros c' m. destruct (decide (c' = c)) as [->|Hne]; [by rewrite upd_eq|rewrite upd_ne by done]. intros Hl. pose proof (H9 c' m Hl). lia.
  - intros c' m. destruct (decide (c' = c)) as [->|Hne]; [by rewrite upd_eq|rewrite upd_ne by done]. intros Hl. destruct (Hh c'). right. exists m. by rewrite upd_ne.
Qed.

(** A step that draws and passes no ticket: loading, being refused, starting to drop. *)
Lemma move_ok h p h' p' : v c = (h, p) -> (forall t, p <> Waits t) -> (forall t, p' <> Waits t) -> (h' = true \/ (exists n, p' = Drops n) <-> h = true \/ exists n, p = Drops n) ->
  (forall n, p' = Loads n -> 0 <= n <= now_serving x) -> (forall n, p' = Drops n -> h' = false /\ n = now_serving x + 1) -> mutex_ok x (upd c (h', p') v) k.
Proof.
  intros Hv Hp Hp' Hsame Hl Hd. destruct Hok as [H1 H2 H3 H4 H5 H6 H7 H8 H9 H10].
  assert (Hh : forall c', holder (upd c (h', p') v) c' <-> holder v c') by (intros c'; unfold holder; destruct (decide (c' = c)) as [->|Hne]; [by rewrite upd_eq, Hv|by rewrite upd_ne]).
  split; try done.
  - intros c' Hc'. apply H5. by apply Hh.
  - intros Hs. destruct (H6 Hs) as (c' & Hc'). exists c'. by apply Hh.
  - intros c' t. destruct (decide (c' = c)) as [->|Hne]; [rewrite upd_eq; cbn; intros ->; by destruct (Hp' t)|rewrite upd_ne by done; apply H7].
  - intros i c' Hi Hd'. pose proof (H8 i c' Hi Hd') as Hw. assert (c' <> c) by (intros ->; rewrite Hv in Hw; cbn in Hw; by destruct (Hp (Z.of_nat i))). by rewrite upd_ne.
  - intros c' n. destruct (decide (c' = c)) as [->|Hne]; [rewrite upd_eq; apply Hl|rewrite upd_ne by done; apply H9].
  - intros c' n. destruct (decide (c' = c)) as [->|Hne]; [rewrite upd_eq; apply Hd|rewrite upd_ne by done; apply H10].
Qed.

End Steps.

Lemma lock_new_ok c v : (forall c', v c' = (false, Elsewhere)) -> mutex_ok new v c.
Proof.
  intros Hv. split; cbn; try done; try lia; try (intros c' n; rewrite Hv; done). intros c' [Hc'|[n Hc']]; by rewrite Hv in Hc'.
Qed.

(** ** Processors *)

Definition spot (l : nat) (c : Pc) : Spot :=
  match c with
  | Waiting l' _ t => if decide (l' = l) then Waits t else Elsewhere
  | Loaded l' _ n => if decide (l' = l) then Loads n else Elsewhere
  | Dropping l' _ n => if decide (l' = l) then Drops n else Elsewhere
  | _ => Elsewhere
  end.
Definition seen (l : nat) (f : Frame) : bool * Spot := (bool_decide (l ∈ (guards f).*1), spot l (pc f)).
Definition view_of (m : Machine) (l : nat) : view := fun c => seen l (top (cpus m c)).

(** Past masking, or with a lock. *)
Definition masked (c : Pc) : bool := match c with Running | Sampled _ _ _ => false | _ => true end.
Definition quiet (f : Frame) : bool := match guards f with [] => negb (masked (pc f)) | _ => false end.

(** The flags of the guards, and of the one being made or dropped: only the oldest may be
    the one that turns interrupts back on. *)
Definition restores (c : Pc) : list bool :=
  match c with
  | Running => []
  | Sampled _ _ r | Masked _ _ r | Waiting _ r _ | Loaded _ r _ | Refused r | Dropping _ r _ | Dropped r => [r]
  end.
Definition chain (f : Frame) : list bool := restores (pc f) ++ (guards f).*2.
Definition chain_ok (b : bool) (l : list bool) : Prop := l = [] \/ exists n, l = replicate n false ++ [b].

Record processor_ok (p : Processor) : Prop := {
  p_chain : chain_ok (base (top p)) (chain (top p));
  p_irq : irq p = if quiet (top p) then base (top p) else false;
  p_once : NoDup (guards (top p)).*1;
  p_below : Forall (fun f => quiet f = true /\ base f = true /\ chain_ok true (chain f)) (below p);
}.

Definition machine_ok (m : Machine) (k : nat) : Prop := (forall c, processor_ok (cpus m c)) /\ forall l, mutex_ok (mutexes m l) (view_of m l) k.

Lemma chain_push b l r : chain_ok b l -> r = (match l with [] => b | _ => false end) -> chain_ok b (r :: l).
Proof. intros [->|[n ->]] ->; right; [by exists 0%nat|]. exists (S n). by destruct n. Qed.

Lemma chain_pop b l r : chain_ok b (r :: l) -> chain_ok b l /\ r = match l with [] => b | _ => false end.
Proof.
  intros [?|[n Hn]]; [done|]. destruct n as [|n]; cbn in Hn; injection Hn as -> ->; [split; [by left|done]|]. split; [right; by exists n|]. by destruct n.
Qed.

Lemma quiet_view f l : quiet f = true -> guards f = [] /\ masked (pc f) = false /\ seen l f = (false, Elsewhere).
Proof.
  unfold quiet, seen. destruct (guards f) eqn:Hg; [|done]. intros Hm%negb_true_iff. split_and!; [done|done|]. f_equal. by destruct (pc f).
Qed.

(** A step of one processor. *)
Lemma machine_step m m' k c p' : machine_ok m k -> cpus m' = upd c p' (cpus m) -> processor_ok p' ->
  (forall l, mutex_ok (mutexes m' l) (upd c (seen l (top p')) (view_of m l)) (S k)) -> machine_ok m' (S k).
Proof.
  intros [Hp Hm] Hc Hp' Hm'. split.
  - intros c'. rewrite Hc. destruct (decide (c' = c)) as [->|Hne]; [by rewrite upd_eq|by rewrite upd_ne].
  - intros l. eapply mutex_ok_ext; [|apply Hm']. intros c'. unfold view_of. rewrite Hc. destruct (decide (c' = c)) as [->|Hne]; [by rewrite !upd_eq|by rewrite !upd_ne].
Qed.

(** A lock that a step has nothing to do with. *)
Lemma unseen m k c l s' : machine_ok m k -> s' = view_of m l c -> mutex_ok (mutexes m l) (upd c s' (view_of m l)) (S k).
Proof.
  intros [_ Hm] ->. eapply mutex_ok_later with (k := k); [lia|]. eapply mutex_ok_ext; [|apply Hm]. intros c'. destruct (decide (c' = c)) as [->|Hne]; [by rewrite upd_eq|by rewrite upd_ne].
Qed.

Lemma move_seen m k c l s' : machine_ok m k -> mutex_ok (mutexes m l) (upd c s' (view_of m l)) k -> mutex_ok (mutexes m l) (upd c s' (view_of m l)) (S k).
Proof. intros _. apply mutex_ok_later. lia. Qed.

Lemma mutex_upd l h m l' : mutexes (on_mutex l h m) l' = if decide (l' = l) then h (mutexes m l) else mutexes m l'.
Proof. unfold on_mutex, upd. cbn. by destruct (decide (l' = l)) as [->|]. Qed.

(** Interrupts are off when a processor is past masking or has a lock. *)
Lemma irq_off p : processor_ok p -> quiet (top p) = false -> irq p = false.
Proof. intros [_ Hi _ _] Hq. by rewrite Hi, Hq. Qed.

(** A step within a frame past masking, that keeps the flags. *)
Lemma busy_ok p f' : processor_ok p -> quiet (top p) = false -> quiet f' = false -> chain f' = chain (top p) -> base f' = base (top p) -> NoDup (guards f').*1 ->
  processor_ok {| irq := irq p; top := f'; below := below p |}.
Proof. intros Hok Hq Hq' Hc Hb Hn. pose proof (irq_off p Hok Hq) as Hi. destruct Hok as [H1 _ _ H4]. split; cbn; [by rewrite Hc, Hb|by rewrite Hq'|done|done]. Qed.

(** Unmasking at the end of [drop] and of a refused [try_lock]. *)
Lemma restored_ok p r : processor_ok p -> restores (pc (top p)) = [r] -> masked (pc (top p)) = true -> processor_ok (restored r (on_top (goto Running) p)).
Proof.
  intros Hok Hr Hm. assert (Hq : quiet (top p) = false) by (unfold quiet; rewrite Hm; by destruct (guards (top p))). pose proof (irq_off p Hok Hq) as Hi. destruct Hok as [H1 _ H3 H4].
  unfold chain in H1. rewrite Hr in H1. apply chain_pop in H1 as [H1 Hv]. assert (Hirq : irq (restored r (on_top (goto Running) p)) = if r then true else false) by (destruct r; [done|exact Hi]).
  split.
  - by destruct r.
  - rewrite Hirq. destruct (guards (top p)) as [|g l] eqn:Hg; cbn in Hv; subst r; unfold restored; [destruct (base (top p)) eqn:Hb; cbn; unfold quiet; cbn; by rewrite Hg|]. cbn. unfold quiet. cbn. by rewrite Hg.
  - by destruct r.
  - by destruct r.
Qed.

Lemma not_self_held m k c l r t : machine_ok m k -> pc (top (cpus m c)) = Waiting l r t -> now_serving (mutexes m l) = t -> l ∉ (guards (top (cpus m c))).*1.
Proof.
  intros [_ Hm] Hpc <- Hin. destruct (m_waits _ _ _ (Hm l) c (now_serving (mutexes m l))) as [Hs _]; [unfold view_of, seen; cbn; rewrite Hpc; cbn; by rewrite decide_True|].
  destruct (m_holder _ _ _ (Hm l) c) as [Hs' _]; [left; unfold view_of, seen; cbn; by rewrite bool_decide_eq_true_2|]. lia.
Qed.

(** A free lock with nobody waiting. *)
Lemma nobody m k c l r v : machine_ok m k -> pc (top (cpus m c)) = Loaded l r v -> next_ticket (mutexes m l) = v -> v = now_serving (mutexes m l) /\ forall c', ~ holder (view_of m l) c'.
Proof.
  intros [_ Hm] Hpc Hv. pose proof (Hm l) as [H1 H2 H3 H4 H5 H6 H7 H8 H9 H10]. destruct (H9 c v) as [Hv0 Hv1]; [unfold view_of, seen; cbn; rewrite Hpc; cbn; by rewrite decide_True|].
  pose proof (prefix_length _ _ H4). split; [lia|]. intros c' Hc'. destruct (H5 c' Hc'). lia.
Qed.

(** Every step but the last ones of [lock] and [drop] moves one processor past one lock. *)
Lemma step_moves m k c l p' s' m' : machine_ok m k -> mutexes m' = mutexes m -> cpus m' = upd c p' (cpus m) -> processor_ok p' -> (forall l', l' <> l -> seen l' (top p') = seen l' (top (cpus m c))) ->
  seen l (top p') = s' -> mutex_ok (mutexes m l) (upd c s' (view_of m l)) k -> machine_ok m' (S k).
Proof.
  intros Hok Hmx Hc Hp Ho Hs Hm. eapply machine_step; [done|done|done|]. intros l'. rewrite Hmx. destruct (decide (l' = l)) as [->|Hne]; [rewrite Hs; eapply mutex_ok_later; [|done]; lia|].
  apply (unseen m k); [done|]. by apply Ho.
Qed.

Lemma seen_goto l f c : spot l c = spot l (pc f) -> seen l (goto c f) = seen l f.
Proof. intros Hs. unfold seen. cbn. by rewrite Hs. Qed.

Lemma seen_enter l l' r f : l' <> l -> spot l' (pc f) = Elsewhere -> seen l' (enter l r f) = seen l' f.
Proof. intros Hne Hs. unfold seen. cbn. rewrite Hs. f_equal. apply bool_decide_ext. rewrite elem_of_cons. naive_solver. Qed.

Lemma seen_entered l r f : seen l (enter l r f) = (true, Elsewhere).
Proof. unfold seen. cbn. by rewrite bool_decide_eq_true_2 by (apply elem_of_cons; by left). Qed.

Ltac not_here Hpc := unfold spot; cbn; rewrite ?Hpc; rewrite ?decide_False by congruence; try done.

(** The last step of [lock]. *)
Lemma turn_ok m k c m' l r t : machine_ok m k -> pc (top (cpus m c)) = Waiting l r t ->
  (if now_serving (mutexes m l) =? t then Ok (on_mutex l (let_in c) (on_cpu c (on_top (enter l r)) m)) else Ok m) = Ok (E := unit) m' -> machine_ok m' (S k).
Proof.
  intros Hok Hpc. pose proof Hok as [Hp Hm]. specialize (Hp c).
  destruct (Z.eqb_spec (now_serving (mutexes m l)) t) as [Ht|Ht]; intros [= <-]; [|split; [apply Hok|intros l'; eapply mutex_ok_later; [|apply Hm]; lia]].
  pose proof (not_self_held m k c l r t Hok Hpc Ht) as Hnot. eapply machine_step; [done|reflexivity| |].
  - apply busy_ok; [done|unfold quiet; rewrite Hpc; by destruct (guards _)|done|unfold chain; cbn; by rewrite Hpc|done|]. cbn. apply NoDup_cons. split; [done|apply (p_once _ Hp)].
  - intros l'. rewrite mutex_upd. destruct (decide (l' = l)) as [->|Hne]; [|apply (unseen m k); [done|]; apply seen_enter; [done|not_here Hpc]].
    cbn [top on_top]. rewrite seen_entered. eapply mutex_ok_later; [|eapply let_in_ok; [apply Hm|]]; [lia|]. unfold view_of, seen. rewrite Hpc. cbn. by rewrite decide_True, Ht.
Qed.

(** The exchange of [try_lock]. *)
Lemma try_ok m k c m' l r v : machine_ok m k -> Z.of_nat k < 2 ^ 64 - 1 -> pc (top (cpus m c)) = Loaded l r v ->
  (if v =? U64_MAX then Panic
   else if next_ticket (mutexes m l) =? v then Ok (on_mutex l (fun x => let_in c (draw c x)) (on_cpu c (on_top (enter l r)) m))
   else Ok (on_cpu c (on_top (goto (Refused r))) m)) = Ok (E := unit) m' -> machine_ok m' (S k).
Proof.
  intros Hok Hk Hpc. pose proof Hok as [Hp Hm]. specialize (Hp c).
  destruct (v =? U64_MAX); [done|]. destruct (Z.eqb_spec (next_ticket (mutexes m l)) v) as [Hv|Hv]; intros [= <-].
  - destruct (nobody m k c l r v Hok Hpc Hv) as [Hserv Hnobody]. assert (Hnot : l ∉ (guards (top (cpus m c))).*1) by (intros Hin; apply (Hnobody c); left; unfold view_of, seen; cbn; by rewrite bool_decide_eq_true_2).
    eapply machine_step; [done|reflexivity| |].
    + apply busy_ok; [done|unfold quiet; rewrite Hpc; by destruct (guards _)|done|unfold chain; cbn; by rewrite Hpc|done|]. cbn. apply NoDup_cons. split; [done|apply (p_once _ Hp)].
    + intros l'. rewrite mutex_upd. destruct (decide (l' = l)) as [->|Hne]; [|apply (unseen m k); [done|]; apply seen_enter; [done|not_here Hpc]]. cbn [top on_top]. rewrite seen_entered.
      assert (Hv0 : view_of m l c = (false, Loads v)) by (unfold view_of, seen; rewrite Hpc, bool_decide_eq_false_2 by done; cbn; by rewrite decide_True).
      assert (Hm1 : mutex_ok (mutexes m l) (upd c (false, Elsewhere) (view_of m l)) k) by (eapply (move_ok _ _ _ _ (Hm l)); [exact Hv0|done|done|split; (intros [Hx|[n Hx]]; done)|done|done]).
      pose proof (draw_ok _ _ _ c Hm1 false (upd_eq _ _ _) Hk) as Hm2. rewrite Hv, Hserv in Hm2.
      pose proof (let_in_ok _ _ _ c Hm2 false (upd_eq _ _ _)) as Hm3. eapply mutex_ok_ext; [|exact Hm3]. intros c'. destruct (decide (c' = c)) as [->|Hne]; [by rewrite !upd_eq|by rewrite !upd_ne].
  - eapply (step_moves m k c l _ (_, Elsewhere)); [done|reflexivity|reflexivity| | |reflexivity|].
    + apply busy_ok; [done|unfold quiet; rewrite Hpc; by destruct (guards _)|unfold quiet; cbn; by destruct (guards _)|unfold chain; cbn; by rewrite Hpc|done|apply (p_once _ Hp)].
    + intros l' Hne. apply seen_goto. not_here Hpc.
    + eapply (move_ok _ _ _ _ (Hm l)); [unfold view_of, seen; rewrite Hpc; cbn; by rewrite decide_True|done|done|split; (intros [Hx|[n Hx]]; [by left|done])|done|done].
Qed.

Lemma continue_ok m k c m' : machine_ok m k -> Z.of_nat k < 2 ^ 64 - 1 -> continue c m = Ok m' -> machine_ok m' (S k).
Proof.
  intros Hok Hk. pose proof Hok as [Hp Hm]. specialize (Hp c). unfold continue. destruct (pc (top (cpus m c))) as [|try l r|[] l r|l r t|l r v|r|l r n|r] eqn:Hpc; [done|..].
  - intros [= <-]. eapply machine_step; [done|reflexivity| |].
    + destruct Hp as [H1 _ H3 H4]. split; cbn; [unfold chain in *; cbn; by rewrite Hpc in H1|unfold quiet; cbn; by destruct (guards _)|done|done].
    + intros l'. apply (unseen m k); [done|]. apply seen_goto. by rewrite Hpc.
  - intros [= <-]. eapply (step_moves m k c l _ (_, Loads (now_serving (mutexes m l)))); [done|reflexivity|reflexivity| | | |].
    + apply busy_ok; [done|unfold quiet; rewrite Hpc; by destruct (guards _)|unfold quiet; cbn; by destruct (guards _)|unfold chain; cbn; by rewrite Hpc|done|apply (p_once _ Hp)].
    + intros l' Hne. apply seen_goto. not_here Hpc.
    + unfold seen. cbn. by rewrite decide_True.
    + eapply (move_ok _ _ _ _ (Hm l)); [unfold view_of, seen; by rewrite Hpc|done|done|split; (intros [Hx|[n Hx]]; [by left|done])| |done]. intros n [= <-]. pose proof (m_serving _ _ _ (Hm l)). lia.
  - intros [= <-]. eapply machine_step; [done|reflexivity| |].
    + apply busy_ok; [done|unfold quiet; rewrite Hpc; by destruct (guards _)|unfold quiet; cbn; by destruct (guards _)|unfold chain; cbn; by rewrite Hpc|done|apply (p_once _ Hp)].
    + intros l'. rewrite mutex_upd. destruct (decide (l' = l)) as [->|Hne]; [|apply (unseen m k); [done|]; apply seen_goto; not_here Hpc].
      cbn [top on_top]. unfold seen at 1. cbn [spot pc goto guards]. rewrite decide_True by done. apply draw_ok; [apply Hm|unfold view_of, seen; by rewrite Hpc|done].
  - by eapply turn_ok.
  - by eapply try_ok.
  - intros [= <-]. eapply machine_step; [done|reflexivity|apply restored_ok; [done|by rewrite Hpc|by rewrite Hpc]|].
    intros l'. apply (unseen m k); [done|]. unfold restored. transitivity (seen l' (goto Running (top (cpus m c)))); [by destruct r|]. apply seen_goto. by rewrite Hpc.
  - intros [= <-]. eapply machine_step; [done|reflexivity| |].
    + apply busy_ok; [done|unfold quiet; rewrite Hpc; by destruct (guards _)|unfold quiet; cbn; by destruct (guards _)|unfold chain; cbn; by rewrite Hpc|done|apply (p_once _ Hp)].
    + intros l'. rewrite mutex_upd. destruct (decide (l' = l)) as [->|Hne]; [|apply (unseen m k); [done|]; apply seen_goto; not_here Hpc].
      assert (Hdr : (view_of m l c).2 = Drops n) by (unfold view_of, seen; rewrite Hpc; cbn; by rewrite decide_True). destruct (m_drops _ _ _ (Hm l) c n Hdr) as [Hf _].
      assert (Hv0 : view_of m l c = (false, Drops n)) by (rewrite (surjective_pairing (view_of m l c)); by rewrite Hf, Hdr).
      cbn [top on_top]. assert (Hsn : seen l (goto (Dropped r) (top (cpus m c))) = (false, Elsewhere)) by (unfold seen; cbn; f_equal; exact Hf). rewrite Hsn.
      eapply mutex_ok_later; [|eapply serve_ok; [apply Hm|exact Hv0]]. lia.
  - intros [= <-]. eapply machine_step; [done|reflexivity|apply restored_ok; [done|by rewrite Hpc|by rewrite Hpc]|].
    intros l'. apply (unseen m k); [done|]. unfold restored. transitivity (seen l' (goto Running (top (cpus m c)))); [by destruct r|]. apply seen_goto. by rewrite Hpc.
Qed.

Lemma continue_no_panic m k c : machine_ok m k -> Z.of_nat k < 2 ^ 64 - 1 -> continue c m <> Panic.
Proof.
  intros [_ Hm] Hk. unfold continue. destruct (pc (top (cpus m c))) as [|try l r|[] l r|l r t|l r v|r|l r n|r] eqn:Hpc; try done; [by destruct (_ =? t)|].
  pose proof (Hm l) as [H1 H2 H3 H4 _ _ _ _ H9 _]. destruct (H9 c v) as [Hv0 Hv1]; [unfold view_of, seen; cbn; rewrite Hpc; cbn; by rewrite decide_True|]. pose proof (prefix_length _ _ H4).
  destruct (Z.eqb_spec v U64_MAX) as [->|_]; [unfold U64_MAX in *; lia|]. by destruct (_ =? v).
Qed.

Lemma lock_drop_ok m k c l r g : machine_ok m k -> Z.of_nat k < 2 ^ 64 - 1 -> pc (top (cpus m c)) = Running -> guards (top (cpus m c)) = (l, r) :: g ->
  machine_ok (on_cpu c (on_top (fun f => goto (Dropping l r (wrapping_succ (now_serving (mutexes m l)))) (set_guards (delete 0%nat (guards f)) f))) m) (S k).
Proof.
  intros Hok Hk Hpc Hg. pose proof Hok as [Hp Hm]. specialize (Hp c). pose proof (p_once _ Hp) as Hn. rewrite Hg in Hn. cbn in Hn. apply NoDup_cons in Hn as [Hnot Hn].
  pose proof (Hm l) as [H1 H2 H3 H4 _ _ _ _ _ _]. pose proof (prefix_length _ _ H4). assert (Hw : wrapping_succ (now_serving (mutexes m l)) = now_serving (mutexes m l) + 1) by (unfold wrapping_succ; rewrite Z.mod_small; lia).
  eapply (step_moves m k c l _ (false, Drops (now_serving (mutexes m l) + 1))); [done|reflexivity|reflexivity| | | |].
  - apply busy_ok; [done|unfold quiet; by rewrite Hg|unfold quiet; cbn; rewrite Hg; by destruct g|unfold chain; cbn; by rewrite Hpc, Hg|done|cbn; by rewrite Hg].
  - intros l' Hne. unfold seen. cbn. rewrite Hg, Hpc. cbn. rewrite decide_False by congruence. f_equal. apply bool_decide_ext. rewrite elem_of_cons. naive_solver.
  - unfold seen. cbn. rewrite Hg. cbn. rewrite decide_True by done. rewrite Hw. f_equal. by apply bool_decide_eq_false_2.
  - eapply (move_ok _ _ _ _ (Hm l)); [unfold view_of, seen; rewrite Hpc, Hg; rewrite bool_decide_eq_true_2 by (cbn; apply elem_of_cons; by left); reflexivity|done|done| |done|by intros n [= <-]].
    split; [by left|]. intros _. right. by eexists.
Qed.

Lemma lock_perform_ok m k c a : machine_ok m k -> Z.of_nat k < 2 ^ 64 - 1 -> nested a -> match perform c a m with Ok m' => machine_ok m' (S k) | Err _ => True | Panic => False end.
Proof.
  intros Hok Hk Hn. pose proof Hok as [Hp Hm]. specialize (Hp c). destruct a as [try l|i| | |]; cbn [perform].
  - destruct (pc (top (cpus m c))) eqn:Hpc; try done. eapply machine_step; [done|reflexivity| |intros l'; apply (unseen m k); [done|]; apply seen_goto; by rewrite Hpc].
    pose proof Hp as [H1 H2 H3 H4]. split; cbn; [|rewrite H2; unfold quiet; cbn; by rewrite Hpc|done|done]. unfold chain in *. cbn. rewrite Hpc in H1. apply chain_push; [done|]. rewrite H2. unfold quiet. rewrite Hpc. by destruct (guards _).
  - cbn in Hn. subst i. destruct (pc (top (cpus m c))) eqn:Hpc; try done. destruct (guards (top (cpus m c))) as [|[l r] g] eqn:Hg; [done|]. cbn [lookup list_lookup]. by eapply lock_drop_ok.
  - destruct (continue c m) as [m'| |] eqn:Hc; [by eapply continue_ok|done|by eapply continue_no_panic].
  - destruct (irq (cpus m c)) eqn:Hi; [|done]. pose proof Hp as [H1 H2 H3 H4]. rewrite Hi in H2. destruct (quiet (top (cpus m c))) eqn:Hq; [|done].
    eapply machine_step; [done|reflexivity| |].
    + split; cbn; [by left|done|constructor|]. apply Forall_cons. rewrite <- H2 in H1. done.
    + intros l'. apply (unseen m k); [done|]. destruct (quiet_view _ l' Hq) as (_ & _ & Hs). unfold view_of. by rewrite Hs.
  - destruct (pc (top (cpus m c))) eqn:Hpc; try done. destruct (guards (top (cpus m c))) eqn:Hg; [|done]. pose proof Hp as [H1 H2 H3 H4]. destruct (below (cpus m c)) as [|f rest] eqn:Hb; [done|].
    apply Forall_cons in H4 as [(Hq & Hbase & Hch) H4]. destruct (quiet_view f 0%nat Hq) as (Hgf & _ & _). eapply machine_step; [done|reflexivity| |].
    + split; cbn; [by rewrite Hbase|by rewrite Hq, Hbase|rewrite Hgf; constructor|done].
    + intros l'. apply (unseen m k); [done|]. destruct (quiet_view f l' Hq) as (_ & _ & Hs). cbn [top]. rewrite Hs. unfold view_of, seen. by rewrite Hpc, Hg.
Qed.

Lemma lock_run_ok acts : forall m k, machine_ok m k -> Forall (fun x => nested x.2) acts -> Z.of_nat k + Z.of_nat (length acts) < 2 ^ 64 - 1 -> exists m' k', run acts m = Ok m' /\ machine_ok m' k'.
Proof.
  induction acts as [|[c a] acts IH]; intros m k Hok Hn Hk; cbn [run]; [by exists m, k|]. apply Forall_cons in Hn as [Ha Hn]. cbn in Ha. rewrite length_cons in Hk.
  pose proof (lock_perform_ok m k c a Hok ltac:(lia) Ha) as Hp. destruct (perform c a m) as [m'| |]; [|by apply (IH m k); [|done|lia]|done]. apply (IH m' (S k)); [done|done|lia].
Qed.

Lemma lock_start_ok on : machine_ok (start on) 0.
Proof.
  split; [|intros l; by apply lock_new_ok]. intros c. split; cbn; [by left|done|constructor|constructor].
Qed.

(** A processor has a lock, in whatever it runs or has interrupted. *)
Definition has_guard (m : Machine) (l c : nat) : Prop := exists f r, f ∈ top (cpus m c) :: below (cpus m c) /\ (l, r) ∈ guards f.

Lemma has_guard_top m k l c : machine_ok m k -> has_guard m l c -> (view_of m l c).1 = true /\ quiet (top (cpus m c)) = false.
Proof.
  intros [Hp _] (f & r & Hf & Hg). apply elem_of_cons in Hf as [->|Hf].
  - split; [unfold view_of, seen; cbn; apply bool_decide_eq_true_2; apply list_elem_of_fmap; by exists (l, r)|]. unfold quiet. by destruct (guards (top (cpus m c))); [apply elem_of_nil in Hg|].
  - pose proof (p_below _ (Hp c)) as Hb. rewrite Forall_forall in Hb. destruct (Hb f Hf) as (Hq & _). destruct (quiet_view f 0%nat Hq) as (Hgf & _). rewrite Hgf in Hg. by apply elem_of_nil in Hg.
Qed.

(** Somebody waits: there is a holder, or one whose turn it is. *)
Lemma next_in_line m k l c r t : machine_ok m k -> pc (top (cpus m c)) = Waiting l r t ->
  (exists c', holder (view_of m l) c') \/ exists c' r' m', pc (top (cpus m c')) = Waiting l r' (now_serving (mutexes m l)) /\ perform c' Continue m = Ok m' /\ has_guard m' l c'.
Proof.
  intros [_ Hm] Hpc. pose proof (Hm l) as [H1 H2 H3 H4 H5 H6 H7 H8 H9 H10]. destruct (H7 c t) as [Hs Hd]; [unfold view_of, seen; cbn; rewrite Hpc; cbn; by rewrite decide_True|].
  destruct (decide (Z.of_nat (length (served (mutexes m l))) = now_serving (mutexes m l) + 1)) as [He|He]; [left; by apply H6|right].
  assert (Hfree : Z.of_nat (length (served (mutexes m l))) = now_serving (mutexes m l)) by lia. apply lookup_lt_Some in Hd.
  destruct (lookup_lt_is_Some_2 (drawn (mutexes m l)) (length (served (mutexes m l)))) as [c0 Hc0]; [lia|]. pose proof (H8 _ c0 ltac:(done) Hc0) as Hw.
  unfold view_of, seen in Hw. cbn in Hw. destruct (pc (top (cpus m c0))) as [| | |l' r' t'| | | |] eqn:Hpc0; try done; cbn in Hw; try (by destruct (decide _)). destruct (decide (l' = l)) as [->|]; [|done]. injection Hw as ->.
  exists c0, r'. eexists. split; [rewrite Hpc0; by rewrite Hfree|]. cbn [perform]. unfold continue. rewrite Hpc0, Hfree, Z.eqb_refl. split; [reflexivity|].
  exists (enter l r' (top (cpus m c0))), r'. split; [|cbn; apply elem_of_cons; by left]. cbn. rewrite upd_eq. cbn. apply elem_of_cons. by left.
Qed.

End TicketInv.

Module Locks.
Import Ticket TicketInv.

(** C38: the ticket lock. However processors call [lock] and [try_lock] on any number of
    locks, drop their guards innermost first and are interrupted in between, for fewer
    than 2^64 steps: nothing panics; a lock has one holder; processors are let in in the
    order they took their tickets, and one that waits is either behind a holder or behind
    one whose turn it is and whose next step lets it in; a holder's interrupts are off and
    it is not under a handler; and when its last guard is gone they are as they were. *)
Theorem ticket_lock on acts : Forall (fun x => nested x.2) acts -> Z.of_nat (length acts) < 2 ^ 64 - 1 -> exists m, run acts (start on) = Ok m /\
  (forall l c c', has_guard m l c -> has_guard m l c' -> c = c') /\
  (forall l, served (mutexes m l) `prefix_of` drawn (mutexes m l)) /\
  (forall l c r t, pc (top (cpus m c)) = Waiting l r t -> Z.of_nat (length (served (mutexes m l))) <= t /\ drawn (mutexes m l) !! Z.to_nat t = Some c /\
    ((exists c', holder (view_of m l) c') \/ exists c' r' m', pc (top (cpus m c')) = Waiting l r' (now_serving (mutexes m l)) /\ perform c' Continue m = Ok m' /\ has_guard m' l c')) /\
  (forall l c, has_guard m l c -> irq (cpus m c) = false /\ exists r, (l, r) ∈ guards (top (cpus m c))) /\
  (forall c, pc (top (cpus m c)) = Running -> guards (top (cpus m c)) = [] -> irq (cpus m c) = base (top (cpus m c))).
Proof.
  intros Hn Hk. destruct (lock_run_ok acts (start on) 0 (lock_start_ok on) Hn ltac:(lia)) as (m & k & Hrun & Hok). exists m. split; [done|]. pose proof Hok as [Hp Hm]. split_and!.
  - intros l c c' Hc Hc'. apply (has_guard_top m k) in Hc as [Hc _]; [|done]. apply (has_guard_top m k) in Hc' as [Hc' _]; [|done].
    destruct (m_holder _ _ _ (Hm l) c (or_introl Hc)) as [_ H1]. destruct (m_holder _ _ _ (Hm l) c' (or_introl Hc')) as [_ H2]. congruence.
  - intros l. apply (m_order _ _ _ (Hm l)).
  - intros l c r t Hpc. destruct (m_waits _ _ _ (Hm l) c t) as [Hs Hd]; [unfold view_of, seen; cbn; rewrite Hpc; cbn; by rewrite decide_True|]. split; [done|]. split; [done|]. by eapply next_in_line.
  - intros l c Hg. destruct (has_guard_top m k l c Hok Hg) as [Hv Hq]. split; [by apply irq_off|]. unfold view_of, seen in Hv. cbn in Hv. apply bool_decide_eq_true in Hv. apply list_elem_of_fmap in Hv as ([l' r] & -> & Hin). by exists r.
  - intros c Hpc Hg. rewrite (p_irq _ (Hp c)). unfold quiet. by rewrite Hg, Hpc.
Qed.

End Locks.

(** ** Made once *)

Module OnceInv.
Import Once.

Definition waits (p : Place) : Prop := p = Away \/ p = Trying \/ p = Got None.

Section OnceInv.
Context (make : nat -> Z).

Inductive once_ok (s : Once) : Prop :=
| is_empty : state s = EMPTY -> value s = None -> makes s = [] -> (forall u, waits (place s u)) -> once_ok s
| is_making t : state s = MAKING -> value s = None -> makes s = [] -> place s t = Winner -> (forall u, u <> t -> waits (place s u)) -> once_ok s
| is_written t : state s = MAKING -> value s = Some (make t) -> makes s = [t] -> place s t = Written -> (forall u, u <> t -> waits (place s u)) -> once_ok s
| is_made t : state s = MADE -> value s = Some (make t) -> makes s = [t] -> (forall u, waits (place s u) \/ place s u = Got (Some (make t))) -> once_ok s.

(** A caller that is not making the value moves. *)
Lemma goto_ok s t p : once_ok s -> (waits (place s t) \/ exists v, place s t = Got v) -> waits p -> once_ok (goto t p s).
Proof.
  intros Hok Ht Hp. assert (Hw : forall Q : Place -> Prop, Q p -> (forall u, Q (place s u)) -> forall u, Q (place (goto t p s) u)) by (intros Q Hq Ha u; cbn [place goto]; destruct (decide (u = t)) as [->|]; [by rewrite upd_eq|by rewrite upd_ne]).
  assert (Hne : forall t0, place s t0 = Winner \/ place s t0 = Written -> t0 <> t) by (intros t0 Ht0 ->; destruct Ht as [[Hx|[Hx|Hx]]|[v Hx]]; rewrite Hx in Ht0; destruct Ht0; done).
  destruct Hok as [H1 H2 H3 H4|t0 H1 H2 H3 H4 H5|t0 H1 H2 H3 H4 H5|t0 H1 H2 H3 H4].
  - apply is_empty; try done. by apply (Hw waits).
  - assert (t0 <> t) by auto. apply (is_making _ t0); try done; [cbn; by rewrite upd_ne|]. intros u Hu. cbn [place goto]. destruct (decide (u = t)) as [->|]; [by rewrite upd_eq|rewrite upd_ne; auto].
  - assert (t0 <> t) by auto. apply (is_written _ t0); try done; [cbn; by rewrite upd_ne|]. intros u Hu. cbn [place goto]. destruct (decide (u = t)) as [->|]; [by rewrite upd_eq|rewrite upd_ne; auto].
  - apply (is_made _ t0); try done. apply (Hw (fun q => waits q \/ q = Got (Some (make t0)))); auto.
Qed.

(** Reading when it is made. *)
Lemma read_ok s t t0 : state s = MADE -> value s = Some (make t0) -> makes s = [t0] -> (forall u, u <> t -> waits (place s u) \/ place s u = Got (Some (make t0))) ->
  exists s', read t s = Some s' /\ once_ok s'.
Proof.
  intros H1 H2 H3 H4. unfold read. rewrite H2. eexists. split; [done|]. apply (is_made _ t0); try done. intros u. cbn [place goto]. destruct (decide (u = t)) as [->|]; [rewrite upd_eq; auto|rewrite upd_ne; auto].
Qed.

Lemma lock_step_ok e s : once_ok s -> exists s', step make e s = Some s' /\ once_ok s'.
Proof.
  intros Hok. assert (Hstay : exists s', Some s = Some s' /\ once_ok s') by (by exists s). destruct e as [t|t|t|t]; cbn [step]; destruct (place s t) eqn:Ht; try exact Hstay.
  - eexists. split; [done|]. apply goto_ok; [done|left; rewrite Ht; by left|by right; left].
  - destruct (Z.eqb_spec (state s) MADE) as [Hm|_]; [|eexists; split; [done|]; apply goto_ok; [done|left; rewrite Ht; by left|by right; right]].
    destruct Hok as [H1 H2 H3 H4|t0 H1 H2 H3 H4 H5|t0 H1 H2 H3 H4 H5|t0 H1 H2 H3 H4]; try (rewrite H1 in Hm; done). apply (read_ok s t t0); auto.
  - destruct Hok as [H1 H2 H3 H4|t0 H1 H2 H3 H4 H5|t0 H1 H2 H3 H4 H5|t0 H1 H2 H3 H4]; rewrite H1; cbn [EMPTY MAKING MADE Z.eqb Pos.eqb].
    + eexists. split; [done|]. apply (is_making _ t); try done; [cbn; by rewrite upd_eq|]. intros u Hu. cbn. rewrite upd_ne by done. apply H4.
    + eexists. split; [done|]. by apply (is_making _ t0).
    + eexists. split; [done|]. by apply (is_written _ t0).
    + apply (read_ok s t t0); auto.
  - destruct Hok as [H1 H2 H3 H4|t0 H1 H2 H3 H4 H5|t0 H1 H2 H3 H4 H5|t0 H1 H2 H3 H4].
    + destruct (H4 t) as [Hx|[Hx|Hx]]; congruence.
    + destruct (decide (t = t0)) as [->|Hne]; [|destruct (H5 t Hne) as [Hx|[Hx|Hx]]; congruence]. eexists. split; [done|]. apply (is_written _ t0); cbn [state value makes place goto write]; [done|done|by rewrite H3|by rewrite upd_eq|]. intros u Hu. rewrite upd_ne by done. auto.
    + destruct (decide (t = t0)) as [->|Hne]; [congruence|destruct (H5 t Hne) as [Hx|[Hx|Hx]]; congruence].
    + destruct (H4 t) as [[Hx|[Hx|Hx]]|Hx]; congruence.
  - destruct Hok as [H1 H2 H3 H4|t0 H1 H2 H3 H4 H5|t0 H1 H2 H3 H4 H5|t0 H1 H2 H3 H4].
    + destruct (H4 t) as [Hx|[Hx|Hx]]; congruence.
    + destruct (decide (t = t0)) as [->|Hne]; [congruence|destruct (H5 t Hne) as [Hx|[Hx|Hx]]; congruence].
    + destruct (decide (t = t0)) as [->|Hne]; [|destruct (H5 t Hne) as [Hx|[Hx|Hx]]; congruence]. apply (read_ok (set_state MADE s) t0 t0); [done..|]. intros u Hu. left. by apply H5.
    + destruct (H4 t) as [[Hx|[Hx|Hx]]|Hx]; congruence.
  - eexists. split; [done|]. apply goto_ok; [done|right; eauto|by left].
Qed.

Lemma run_once_ok es : forall s, once_ok s -> exists s', run make es s = Some s' /\ once_ok s'.
Proof.
  induction es as [|e es IH]; intros s Hok; cbn [run]; [by exists s|]. destruct (lock_step_ok e s Hok) as (s1 & Hs & Hok1). rewrite Hs. cbn [mbind option_bind]. by apply IH.
Qed.

(** C40: a value is made once. However callers of [call_once] and of [get] interleave, nobody
    reads a value that was not written, at most one [make] runs, and everyone that gets a
    value gets the one it made. *)
Theorem made_once es : exists s, run make es new = Some s /\ (length (makes s) <= 1)%nat /\ forall t v, place s t = Got (Some v) -> exists u, makes s = [u] /\ v = make u /\ value s = Some v.
Proof.
  destruct (run_once_ok es new) as (s & Hrun & Hok); [apply is_empty; try done; intros u; by left|]. exists s. split; [done|].
  destruct Hok as [H1 H2 H3 H4|t0 H1 H2 H3 H4 H5|t0 H1 H2 H3 H4 H5|t0 H1 H2 H3 H4]; rewrite H3; (split; [cbn; lia|]); intros t v Ht.
  - destruct (H4 t) as [Hx|[Hx|Hx]]; congruence.
  - destruct (decide (t = t0)) as [->|Hne]; [congruence|destruct (H5 t Hne) as [Hx|[Hx|Hx]]; congruence].
  - destruct (decide (t = t0)) as [->|Hne]; [congruence|destruct (H5 t Hne) as [Hx|[Hx|Hx]]; congruence].
  - destruct (H4 t) as [[Hx|[Hx|Hx]]|Hx]; try congruence. exists t0. rewrite H2. split_and!; congruence.
Qed.

End OnceInv.
End OnceInv.

(** ** The lock whose waiters sleep *)

Module SleepInv.
Import SleepMutex.

(** With the waiters' lock. *)
Definition in_section (p : Place) : bool := match p with Inside | Pushing => true | _ => false end.

(** One holder, who is why the lock is held; and one thread at the waiters. *)
Record exclusive (s : Lock) : Prop := {
  e_one : forall t u, place s t = Holding -> place s u = Holding -> t = u;
  e_held : held s = true <-> exists t, place s t = Holding;
  e_inside : forall t, inside s = Some t <-> in_section (place s t) = true;
}.

(** A thread that was not holding and does not come to hold moves, the waiters' lock
    following it. *)
Lemma exclusive_goto s t p w z : exclusive s -> place s t <> Holding -> p <> Holding -> (in_section p = true -> in_section (place s t) = true \/ inside s = None) ->
  exclusive {| held := held s; waiters := w; inside := if in_section p then Some t else if in_section (place s t) then None else inside s; place := upd t p (place s); sleep := z |}.
Proof.
  intros [H1 H2 H3] Ht Hp Hin. split; cbn [held inside place].
  - intros a b Ha Hb. apply H1; [destruct (decide (a = t)) as [->|]; [by rewrite upd_eq in Ha|by rewrite upd_ne in Ha]|destruct (decide (b = t)) as [->|]; [by rewrite upd_eq in Hb|by rewrite upd_ne in Hb]].
  - rewrite H2. split; intros [a Ha]; exists a; (destruct (decide (a = t)) as [->|]; [rewrite ?upd_eq in *; congruence|by rewrite ?upd_ne in *]).
  - intros a. destruct (decide (a = t)) as [->|Hne].
    + rewrite upd_eq. destruct (in_section p); [done|]. destruct (in_section (place s t)) eqn:Hs; [done|]. rewrite H3, Hs. done.
    + rewrite upd_ne by done. destruct (in_section p) eqn:Hsp.
      * split; [intros [= ->]; done|]. intros Ha. apply H3 in Ha. destruct (Hin eq_refl) as [Hs|Hs]; [apply H3 in Hs|]; congruence.
      * destruct (in_section (place s t)) eqn:Hs; [|apply H3]. split; [done|]. intros Ha. apply H3 in Ha, Hs. congruence.
Qed.

(** Taking the lock. *)
Lemma exclusive_take s t w : exclusive s -> held s = false -> exclusive {| held := true; waiters := w; inside := if in_section (place s t) then None else inside s; place := upd t Holding (place s); sleep := sleep s |}.
Proof.
  intros [H1 H2 H3] Hh. assert (Hno : forall a, place s a <> Holding) by (intros a Ha; assert (held s = true) by (apply H2; by exists a); congruence). split; cbn [held inside place].
  - intros a b Ha Hb. destruct (decide (a = t)) as [->|]; [|rewrite upd_ne in Ha by done; by destruct (Hno a)]. destruct (decide (b = t)) as [->|]; [done|]. rewrite upd_ne in Hb by done. by destruct (Hno b).
  - split; [|done]. intros _. exists t. by rewrite upd_eq.
  - intros a. destruct (decide (a = t)) as [->|Hne].
    + rewrite upd_eq. destruct (in_section (place s t)) eqn:Hs; [done|]. by rewrite H3, Hs.
    + rewrite upd_ne by done. destruct (in_section (place s t)) eqn:Hs; [|apply H3]. split; [done|]. intros Ha. apply H3 in Ha, Hs. congruence.
Qed.

Lemma exclusive_letgo s t : exclusive s -> place s t = Holding -> exclusive (goto t LetGo (set_held false s)).
Proof.
  intros [H1 H2 H3] Ht. assert (Hno : forall a, upd t LetGo (place s) a <> Holding) by (intros a Ha; destruct (decide (a = t)) as [->|Hne]; [by rewrite upd_eq in Ha|rewrite upd_ne in Ha by done; by apply Hne, H1]).
  split; cbn [held inside place goto set_held].
  - intros a b Ha. by destruct (Hno a).
  - split; [done|]. intros [a Ha]. by destruct (Hno a).
  - intros a. rewrite H3. destruct (decide (a = t)) as [->|Hne]; [by rewrite upd_eq, Ht|by rewrite upd_ne].
Qed.

Lemma exclusive_same s s' : exclusive s -> held s' = held s -> inside s' = inside s -> (forall t, place s' t = place s t) -> exclusive s'.
Proof.
  intros [H1 H2 H3] Eh Ei Ep. split.
  - intros a b. rewrite !Ep. apply H1.
  - rewrite Eh, H2. by setoid_rewrite Ep.
  - intros a. rewrite Ei, Ep. apply H3.
Qed.

Lemma exclusive_step e s : exclusive s -> exclusive (step e s).
Proof.
  intros Hok. destruct e as [t cs|t]; cbn [step]; [|by apply (exclusive_same s)]. unfold step_thread, take. destruct (place s t) eqn:Ht.
  - pose proof (exclusive_goto s t Trying (waiters s) (sleep s) Hok) as Hx. rewrite Ht in Hx. by apply Hx.
  - destruct (held s) eqn:Hh; [|pose proof (exclusive_take s t (waiters s) Hok Hh) as Hx; rewrite Ht in Hx; exact Hx]. destruct cs; [|done]. pose proof (exclusive_goto s t Failed (waiters s) (sleep s) Hok) as Hx. rewrite Ht in Hx. by apply Hx.
  - destruct (inside s) as [u|] eqn:Hi; [done|]. pose proof (exclusive_goto s t Inside (waiters s) (sleep s) Hok) as Hx. rewrite Ht in Hx. apply Hx; auto.
  - destruct (held s) eqn:Hh; [|pose proof (exclusive_take s t (waiters s) Hok Hh) as Hx; rewrite Ht in Hx; exact Hx]. pose proof (exclusive_goto s t Pushing (waiters s) (sleep s) Hok) as Hx. rewrite Ht in Hx.
    eapply exclusive_same; [apply Hx; auto|done|cbn; apply (e_inside _ Hok); by rewrite Ht|done].
  - pose proof (exclusive_goto s t Queued (waiters s ++ [t]) (sleep s) Hok) as Hx. rewrite Ht in Hx. by apply Hx.
  - destruct (block_current (sleep s t)) as [parked z]. pose proof (exclusive_goto s t (if parked then Asleep else Trying) (waiters s) (upd t z (sleep s)) Hok) as Hx. rewrite Ht in Hx. destruct parked; by apply Hx.
  - destruct (blocked (sleep s t)); [done|]. pose proof (exclusive_goto s t Trying (waiters s) (sleep s) Hok) as Hx. rewrite Ht in Hx. by apply Hx.
  - by apply exclusive_letgo.
  - destruct (inside s) as [u|] eqn:Hi; [done|]. destruct (waiters s) as [|w rest] eqn:Hw.
    + pose proof (exclusive_goto s t Away (waiters s) (sleep s) Hok) as Hx. rewrite Ht in Hx. eapply exclusive_same; [by apply Hx|done..].
    + pose proof (exclusive_goto s t (Waking w) rest (sleep s) Hok) as Hx. rewrite Ht in Hx. eapply exclusive_same; [by apply Hx|done..].
  - pose proof (exclusive_goto s t Away (waiters s) (upd w (unblock (sleep s w)) (sleep s)) Hok) as Hx. rewrite Ht in Hx. by apply Hx.
Qed.

(** *** Nobody is forgotten *)

Definition dozing (p : Place) : bool := match p with Queued | Asleep => true | _ => false end.
Definition woken (s : Lock) (w : nat) : bool := match place s w with Queued => wake_pending (sleep s w) | Asleep => negb (blocked (sleep s w)) | _ => false end.

(** A thread that sleeps, or is about to, with no wake come for it. *)
Definition expects (s : Lock) (w : nat) : Prop := dozing (place s w) = true /\ woken s w = false.

(** A thread that will try for the lock, or see to the waiters, without being woken. *)
Definition moving (s : Lock) (u : nat) : bool :=
  match place s u with Trying | Failed | Inside | LetGo | Waking _ => true | Queued | Asleep => woken s u | _ => false end.

Record tidy (s : Lock) : Prop := {
  t_once : NoDup (waiters s);
  t_listed : forall w, w ∈ waiters s -> expects s w /\ forall u, place s u <> Waking w;
  t_waking : forall u w, place s u = Waking w -> expects s w /\ forall u', place s u' = Waking w -> u' = u;
  t_owed : forall w, expects s w -> w ∈ waiters s \/ exists u, place s u = Waking w;
  t_sleep : forall w, match place s w with Queued => blocked (sleep s w) = false | Asleep => wake_pending (sleep s w) = false | _ => sleep s w = awake end;
  t_pushing : forall t, place s t = Pushing -> held s = true \/ exists u, place s u = LetGo;
  t_next : waiters s <> [] -> held s = true \/ exists u, moving s u = true;
}.

Definition plain (p : Place) : bool := match p with Queued | Asleep | Waking _ => false | _ => true end.

Lemma expects_other s s' t w : w <> t -> place s' w = place s w -> sleep s' w = sleep s w -> (expects s' w <-> expects s w).
Proof. intros _ Hp Hs. unfold expects, woken. by rewrite Hp, Hs. Qed.

Lemma plain_not_expecting s w : plain (place s w) = true -> ~ expects s w.
Proof. intros Hp [Hd _]. by destruct (place s w). Qed.

(** A thread moves between places where it neither sleeps nor wakes anybody. *)
Lemma tidy_plain s t p h i : tidy s -> plain (place s t) = true -> plain p = true -> let s' := {| held := h; waiters := waiters s; inside := i; place := upd t p (place s); sleep := sleep s |} in
  (forall u, place s' u = Pushing -> h = true \/ exists v, place s' v = LetGo) -> (waiters s <> [] -> h = true \/ exists u, moving s' u = true) -> tidy s'.
Proof.
  intros [H1 H2 H3 H4 H5 H6 H7] Ht Hp s' Hpush Hnext. assert (Hpl : forall u, u <> t -> place s' u = place s u) by (intros u Hu; cbn; by rewrite upd_ne).
  assert (Hpt : place s' t = p) by (cbn; by rewrite upd_eq). assert (Hex : forall w, expects s' w <-> expects s w).
  { intros w. destruct (decide (w = t)) as [->|Hne]; [|by apply (expects_other s s' t); [|apply Hpl|]]. split; intros Hx; exfalso; [apply (plain_not_expecting s' t); [by rewrite Hpt|done]|by apply (plain_not_expecting s t)]. }
  assert (Hwk : forall u w, place s' u = Waking w <-> place s u = Waking w).
  { intros u w. destruct (decide (u = t)) as [->|Hne]; [|by rewrite Hpl]. rewrite Hpt. split; intros Hx; rewrite Hx in *; done. }
  split; try done.
  - intros w Hw. destruct (H2 w Hw) as [He Hu]. split; [by apply Hex|]. intros u. rewrite Hwk. apply Hu.
  - intros u w Hu. apply Hwk in Hu. destruct (H3 u w Hu) as [He Hun]. split; [by apply Hex|]. intros u'. rewrite Hwk. apply Hun.
  - intros w Hw. apply Hex, H4 in Hw as [Hw|[u Hu]]; [by left|]. right. exists u. by apply Hwk.
  - intros w. destruct (decide (w = t)) as [->|Hne]; [|rewrite Hpl by done; apply H5]. rewrite Hpt. specialize (H5 t). cbn [sleep]. assert (Ha : sleep s t = awake) by (destruct (place s t); done). by destruct p.
Qed.

(** Someone else who was moving still is. *)
Lemma moving_other s s' t u : u <> t -> place s' u = place s u -> sleep s' u = sleep s u -> moving s' u = moving s u.
Proof. intros _ Hp Hs. unfold moving, woken. by rewrite Hp, Hs. Qed.

Lemma tidy_push s t : tidy s -> place s t = Pushing -> tidy (goto t Queued (set_inside None (set_waiters (waiters s ++ [t]) s))).
Proof.
  intros [H1 H2 H3 H4 H5 H6 H7] Ht. set (s' := goto t Queued _). assert (Hpl : forall u, u <> t -> place s' u = place s u) by (intros u Hu; cbn; by rewrite upd_ne). assert (Hpt : place s' t = Queued) by (cbn; by rewrite upd_eq).
  assert (Hsl : sleep s t = awake) by (specialize (H5 t); by rewrite Ht in H5). assert (Hno : ~ expects s t) by (apply plain_not_expecting; by rewrite Ht).
  assert (Hex : forall w, w <> t -> expects s' w <-> expects s w) by (intros w Hw; by apply (expects_other s s' t); [|apply Hpl|]).
  assert (Hwk : forall u w, place s' u = Waking w <-> place s u = Waking w).
  { intros u w. destruct (decide (u = t)) as [->|Hne]; [|by rewrite Hpl]. rewrite Hpt, Ht. done. }
  assert (Het : expects s' t) by (unfold expects, woken; rewrite Hpt; cbn [sleep s' goto set_inside set_waiters]; by rewrite Hsl).
  split; cbn [waiters s' goto set_inside set_waiters]; fold s'.
  - apply NoDup_app. split_and!; [done| |apply NoDup_singleton]. intros w Hw ->%list_elem_of_singleton. by destruct (H2 t Hw).
  - intros w [Hw| ->%list_elem_of_singleton]%elem_of_app.
    + destruct (H2 w Hw) as [He Hu]. split; [apply Hex; [intros ->; done|done]|]. intros u. rewrite Hwk. apply Hu.
    + split; [done|]. intros u Hu%Hwk. by destruct (H3 u t Hu).
  - intros u w Hu. apply Hwk in Hu. destruct (H3 u w Hu) as [He Hun]. split; [apply Hex; [intros ->; done|done]|]. intros u'. rewrite Hwk. apply Hun.
  - intros w Hw. destruct (decide (w = t)) as [->|Hne]; [left; apply elem_of_app; right; by apply list_elem_of_singleton|]. apply Hex, H4 in Hw as [Hw|[u Hu]]; [left; apply elem_of_app; by left| |done]. right. exists u. by apply Hwk.
  - intros w. destruct (decide (w = t)) as [->|Hne]; [rewrite Hpt; cbn; by rewrite Hsl|rewrite Hpl by done; apply H5].
  - intros u Hu. assert (Hut : u <> t) by (intros ->; by rewrite Hpt in Hu). rewrite Hpl in Hu by done. destruct (H6 u Hu) as [|[v Hv]]; [by left|]. right. exists v. rewrite Hpl; [done|]. intros ->. by rewrite Ht in Hv.
  - intros _. destruct (H6 t Ht) as [|[v Hv]]; [by left|]. right. exists v. unfold moving. rewrite Hpl by (intros ->; by rewrite Ht in Hv). by rewrite Hv.
Qed.

(** A thread that sleeps, or was about to, moves on: to sleep if no wake came, to try again
    if one did. *)
Lemma tidy_doze s t p z : tidy s -> dozing (place s t) = true -> p = Asleep \/ p = Trying -> let s' := {| held := held s; waiters := waiters s; inside := inside s; place := upd t p (place s); sleep := upd t z (sleep s) |} in
  (expects s' t <-> expects s t) -> match p with Asleep => wake_pending z = false | _ => z = awake end -> (moving s t = true -> moving s' t = true) -> tidy s'.
Proof.
  intros [H1 H2 H3 H4 H5 H6 H7] Ht Hp s' Het Hz Hmv. assert (Hpl : forall u, u <> t -> place s' u = place s u) by (intros u Hu; cbn; by rewrite upd_ne).
  assert (Hsl : forall u, u <> t -> sleep s' u = sleep s u) by (intros u Hu; cbn; by rewrite upd_ne). assert (Hpt : place s' t = p) by (cbn; by rewrite upd_eq).
  assert (Hex : forall w, expects s' w <-> expects s w) by (intros w; destruct (decide (w = t)) as [->|Hne]; [done|by apply (expects_other s s' t); [|apply Hpl|apply Hsl]]).
  assert (Hwk : forall u w, place s' u = Waking w <-> place s u = Waking w).
  { intros u w. destruct (decide (u = t)) as [->|Hne]; [|by rewrite Hpl]. rewrite Hpt. split; intros Hx; [by destruct Hp as [->| ->]|by rewrite Hx in Ht]. }
  assert (Hlg : forall u, place s u = LetGo -> place s' u = LetGo) by (intros u Hu; rewrite Hpl; [done|]; intros ->; by rewrite Hu in Ht).
  split; try done.
  - intros w Hw. destruct (H2 w Hw) as [He Hu]. split; [by apply Hex|]. intros u. rewrite Hwk. apply Hu.
  - intros u w Hu. apply Hwk in Hu. destruct (H3 u w Hu) as [He Hun]. split; [by apply Hex|]. intros u'. rewrite Hwk. apply Hun.
  - intros w Hw. apply Hex, H4 in Hw as [Hw|[u Hu]]; [by left|]. right. exists u. by apply Hwk.
  - intros w. destruct (decide (w = t)) as [->|Hne]; [|rewrite Hpl, Hsl by done; apply H5]. rewrite Hpt. cbn [sleep s']. rewrite upd_eq. by destruct Hp as [->| ->].
  - intros u Hu. assert (Hut : u <> t) by (intros ->; rewrite Hpt in Hu; by destruct Hp as [->| ->]). rewrite Hpl in Hu by done. destruct (H6 u Hu) as [|[v Hv]]; [by left|]. right. exists v. by apply Hlg.
  - intros Hw. destruct (H7 Hw) as [|[u Hu]]; [by left|]. right. exists u. destruct (decide (u = t)) as [->|Hne]; [by apply Hmv|]. by rewrite (moving_other s s' t u Hne (Hpl u Hne) (Hsl u Hne)).
Qed.

Lemma tidy_pop s t w rest : tidy s -> exclusive s -> place s t = LetGo -> inside s = None -> waiters s = w :: rest -> tidy (goto t (Waking w) (set_waiters rest s)).
Proof.
  intros [H1 H2 H3 H4 H5 H6 H7] Hx Ht Hi Hw. set (s' := goto t _ _). assert (Hpl : forall u, u <> t -> place s' u = place s u) by (intros u Hu; cbn; by rewrite upd_ne). assert (Hpt : place s' t = Waking w) by (cbn; by rewrite upd_eq).
  assert (Hex : forall v, expects s' v <-> expects s v).
  { intros v. destruct (decide (v = t)) as [->|Hne]; [|by apply (expects_other s s' t); [|apply Hpl|]]. unfold expects. rewrite Hpt, Ht. cbn. naive_solver. }
  assert (Hwk : forall u v, place s' u = Waking v <-> (u = t /\ v = w) \/ place s u = Waking v).
  { intros u v. destruct (decide (u = t)) as [->|Hne]; [rewrite Hpt, Ht; naive_solver|]. rewrite Hpl by done. naive_solver. }
  rewrite Hw in H1, H2, H4. apply NoDup_cons in H1 as [Hnot H1]. destruct (H2 w) as [Hew Huw]; [apply elem_of_cons; by left|]. split; cbn [waiters s' goto set_waiters]; fold s'.
  - done.
  - intros v Hv. destruct (H2 v) as [He Hu]; [apply elem_of_cons; by right|]. split; [by apply Hex|]. intros u [[_ ->]|Hx']%Hwk; [done|by apply (Hu u)].
  - intros u v [[-> ->]|Hu]%Hwk.
    + split; [by apply Hex|]. intros u' [[-> _]|Hu']%Hwk; [done|by destruct (Huw u')].
    + destruct (H3 u v Hu) as [He Hun]. split; [by apply Hex|]. intros u' [[-> ->]|Hu']%Hwk; [by destruct (Huw u)|by apply Hun].
  - intros v Hv. apply Hex, H4 in Hv as [Hv|[u Hu]]; [|right; exists u; apply Hwk; by right]. apply elem_of_cons in Hv as [->|Hv]; [right; exists t; apply Hwk; by left|by left].
  - intros v. destruct (decide (v = t)) as [->|Hne]; [rewrite Hpt; specialize (H5 t); by rewrite Ht in H5|rewrite Hpl by done; apply H5].
  - intros u Hu. exfalso. assert (Hut : u <> t) by (intros ->; by rewrite Hpt in Hu). rewrite Hpl in Hu by done. assert (inside s = Some u) by (apply (e_inside _ Hx); by rewrite Hu). congruence.
  - intros _. right. exists t. unfold moving. by rewrite Hpt.
Qed.

(** The steps of [tidy_plain] that take or leave nothing: the mover is moving, before and
    after, and holds nothing. *)
Lemma tidy_walk s t p i : tidy s -> plain (place s t) = true -> place s t <> LetGo -> p = Trying \/ p = Failed \/ p = Inside ->
  tidy {| held := held s; waiters := waiters s; inside := i; place := upd t p (place s); sleep := sleep s |}.
Proof.
  intros Hok Ht Hl Hp. apply tidy_plain; [done|done|by destruct Hp as [->|[->| ->]]| |].
  - intros u Hu. cbn in Hu. destruct (decide (u = t)) as [->|Hne]; [rewrite upd_eq in Hu; naive_solver|]. rewrite upd_ne in Hu by done. destruct (t_pushing _ Hok u Hu) as [|[v Hv]]; [by left|]. right. exists v. cbn. rewrite upd_ne; [done|]. congruence.
  - intros _. right. exists t. unfold moving. cbn. rewrite upd_eq. by destruct Hp as [->|[->| ->]].
Qed.

(** A wake reaches the one it is for. *)
Lemma tidy_wake s t w : tidy s -> place s t = Waking w -> tidy (goto t Away (set_sleep w (unblock (sleep s w)) s)).
Proof.
  intros [H1 H2 H3 H4 H5 H6 H7] Ht. destruct (H3 t w Ht) as [[Hd Hw] Hun]. assert (Hwt : w <> t) by (intros ->; by rewrite Ht in Hd). set (s' := goto t Away _).
  assert (Hpl : forall u, u <> t -> place s' u = place s u) by (intros u Hu; cbn; by rewrite upd_ne). assert (Hpt : place s' t = Away) by (cbn; by rewrite upd_eq).
  assert (Hsl : forall u, u <> w -> sleep s' u = sleep s u) by (intros u Hu; cbn; by rewrite upd_ne). assert (Hsw : sleep s' w = unblock (sleep s w)) by (cbn; by rewrite upd_eq).
  assert (Hwoken : woken s' w = true). { unfold woken in *. rewrite Hpl, Hsw by done. specialize (H5 w). destruct (place s w); try done; unfold unblock; [by rewrite H5|]. by destruct (blocked (sleep s w)). }
  assert (Hex : forall v, expects s' v <-> expects s v /\ v <> w).
  { intros v. destruct (decide (v = w)) as [->|Hvw]; [unfold expects; rewrite Hwoken; naive_solver|]. destruct (decide (v = t)) as [->|Hvt]; [unfold expects; rewrite Hpt, Ht; cbn; naive_solver|].
    rewrite (expects_other s s' t v Hvt (Hpl v Hvt) (Hsl v Hvw)). naive_solver. }
  assert (Hwk : forall u v, place s' u = Waking v <-> place s u = Waking v /\ u <> t).
  { intros u v. destruct (decide (u = t)) as [->|Hne]; [rewrite Hpt; naive_solver|]. rewrite Hpl by done. naive_solver. }
  split; cbn [waiters s' goto set_sleep]; fold s'.
  - done.
  - intros v Hv. destruct (H2 v Hv) as [He Hu]. split; [|intros u [Hx _]%Hwk; by apply (Hu u)]. apply Hex. split; [done|]. intros ->. by apply (Hu t).
  - intros u v [Hu Hut]%Hwk. destruct (H3 u v Hu) as [He Hun']. split; [|intros u' [Hu' _]%Hwk; by apply Hun']. apply Hex. split; [done|]. intros ->. by apply Hut, Hun.
  - intros v [Hv Hvw]%Hex. apply H4 in Hv as [Hv|[u Hu]]; [by left|]. right. exists u. apply Hwk. split; [done|]. intros ->. congruence.
  - intros v. destruct (decide (v = t)) as [->|Hvt]; [rewrite Hpt, Hsl by done; specialize (H5 t); by rewrite Ht in H5|]. rewrite Hpl by done. destruct (decide (v = w)) as [->|Hvw]; [|rewrite Hsl by done; apply H5].
    rewrite Hsw. unfold woken in Hw. specialize (H5 w). destruct (place s w); try done; unfold unblock; [by rewrite H5|]. destruct (blocked (sleep s w)); [done|by cbn in Hw].
  - intros u Hu. assert (Hut : u <> t) by (intros ->; by rewrite Hpt in Hu). rewrite Hpl in Hu by done. destruct (H6 u Hu) as [|[v Hv]]; [by left|]. right. exists v. rewrite Hpl; [done|]. intros ->. by rewrite Ht in Hv.
  - intros _. right. exists w. unfold moving. rewrite Hpl by done. by destruct (place s w).
Qed.

Lemma tidy_ext s s' : tidy s -> held s' = held s -> waiters s' = waiters s -> inside s' = inside s -> (forall u, place s' u = place s u) -> (forall u, sleep s' u = sleep s u) -> tidy s'.
Proof.
  intros [H1 H2 H3 H4 H5 H6 H7] Eh Ew _ Ep Es. assert (Hex : forall w, expects s' w <-> expects s w) by (intros w; unfold expects, woken; by rewrite Ep, Es). split.
  - by rewrite Ew.
  - intros w. rewrite Ew, Hex. setoid_rewrite Ep. apply H2.
  - intros u w. rewrite Ep, Hex. setoid_rewrite Ep. apply H3.
  - intros w. rewrite Ew, Hex. setoid_rewrite Ep. apply H4.
  - intros w. rewrite Ep, Es. apply H5.
  - intros u. rewrite Ep, Eh. setoid_rewrite Ep. apply H6.
  - rewrite Ew, Eh. intros Hw. destruct (H7 Hw) as [|[u Hu]]; [by left|]. right. exists u. unfold moving, woken in *. by rewrite Ep, Es.
Qed.

Lemma tidy_step t cs s : tidy s -> exclusive s -> tidy (step_thread t cs s).
Proof.
  intros Hok Hx. assert (Htaken : forall p i, plain p = true -> p <> Pushing -> plain (place s t) = true -> tidy {| held := true; waiters := waiters s; inside := i; place := upd t p (place s); sleep := sleep s |}).
  { intros p i Hp Hn Ht. apply tidy_plain; [done|done|done|by left|by left]. }
  unfold step_thread, take. destruct (place s t) eqn:Ht.
  - apply (tidy_walk s t Trying (inside s)); [done|by rewrite Ht|by rewrite Ht|auto].
  - destruct (held s) eqn:Hh; [|by apply Htaken]. destruct cs; [|done]. pose proof (tidy_walk s t Failed (inside s) Hok) as Hw. rewrite Ht in Hw. apply Hw; auto.
  - destruct (inside s) as [u|] eqn:Hi; [done|]. apply (tidy_walk s t Inside (Some t)); [done|by rewrite Ht|by rewrite Ht|auto].
  - destruct (held s) eqn:Hh; [|by apply Htaken]. pose proof (tidy_plain s t Pushing (held s) (inside s) Hok) as Hp. rewrite Ht in Hp. apply Hp; [done|done|by left|by left].
  - by apply tidy_push.
  - pose proof (t_sleep _ Hok t) as Hz. rewrite Ht in Hz. unfold block_current. destruct (wake_pending (sleep s t)) eqn:Hw.
    + apply (tidy_doze s t Trying awake); [done|by rewrite Ht|by right| |done|intros _; unfold moving; cbn; by rewrite upd_eq]. unfold expects, woken. cbn. rewrite upd_eq, Ht, Hw. naive_solver.
    + apply (tidy_doze s t Asleep {| blocked := true; wake_pending := false |}); [done|by rewrite Ht|by left| |done|unfold moving, woken; cbn; rewrite upd_eq, Ht, Hw; done]. unfold expects, woken. cbn. rewrite !upd_eq, Ht, Hw. done.
  - pose proof (t_sleep _ Hok t) as Hz. rewrite Ht in Hz. destruct (blocked (sleep s t)) eqn:Hb; [done|]. pose proof (tidy_doze s t Trying awake Hok) as Hd. rewrite Ht in Hd.
    assert (Hsame : forall u, upd t awake (sleep s) u = sleep s u). { intros u. destruct (decide (u = t)) as [->|]; [|by rewrite upd_ne]. rewrite upd_eq. destruct (sleep s t). cbn in *. by rewrite Hb, Hz. }
    eapply tidy_ext; [apply Hd; [done|by right| |done|intros _; unfold moving; cbn; by rewrite upd_eq]|done|done|done|done|intros u; cbn; by rewrite Hsame].
    unfold expects, woken. cbn. rewrite upd_eq, Ht, Hb. naive_solver.
  - apply (tidy_plain s t LetGo false (inside s)); [done|by rewrite Ht|done| |].
    + intros u _. right. exists t. cbn. by rewrite upd_eq.
    + intros _. right. exists t. unfold moving. cbn. by rewrite upd_eq.
  - destruct (inside s) as [u|] eqn:Hi; [done|]. destruct (waiters s) as [|w rest] eqn:Hw; [|by apply tidy_pop]. pose proof (tidy_plain s t Away (held s) (inside s) Hok) as Hp. rewrite Ht in Hp.
    apply Hp; [done|done| |by rewrite Hw]. intros u Hu. exfalso. assert (Hut : u <> t) by (intros ->; cbn in Hu; by rewrite upd_eq in Hu). cbn in Hu. rewrite upd_ne in Hu by done.
    assert (inside s = Some u) by (apply (e_inside _ Hx); by rewrite Hu). congruence.
  - by apply tidy_wake.
Qed.

Definition stray (e : Event) : bool := match e with Stray _ => true | _ => false end.

Lemma run_exclusive es : forall s, exclusive s -> exclusive (run es s).
Proof. induction es as [|e es IH]; intros s Hs; [done|]. cbn. apply IH. by apply exclusive_step. Qed.

Lemma run_tidy es : forall s, exclusive s -> tidy s -> Forall (fun e => stray e = false) es -> tidy (run es s).
Proof.
  induction es as [|e es IH]; intros s Hx Hs Hn; [done|]. apply Forall_cons in Hn as [He Hn]. cbn. destruct e as [t cs|t]; [|done]. apply IH; [by apply (exclusive_step (Step t cs))|by apply tidy_step|done].
Qed.

Lemma new_exclusive : exclusive new.
Proof. split; cbn; [done|split; [done|intros [t Ht]; done]|done]. Qed.

Lemma new_tidy : tidy new.
Proof.
  split; cbn; try done; [constructor|intros w Hw; by apply elem_of_nil in Hw|]. intros w [Hd _]. done.
Qed.

End SleepInv.

Module Sleeping.
Import SleepMutex SleepInv.

(** C39: the lock whose waiters sleep. However threads lock and unlock it, parking or
    spinning, at most one holds it, woken from elsewhere or not. And nobody is forgotten:
    with no wake from elsewhere, when a thread sleeps beside a lock that is free, some
    thread is on its way to try for it or to wake the next waiter. *)
Theorem sleep_mutex es : (forall t u, place (run es new) t = Holding -> place (run es new) u = Holding -> t = u) /\
  (Forall (fun e => stray e = false) es -> forall w, place (run es new) w = Asleep -> blocked (sleep (run es new) w) = true -> held (run es new) = false -> exists u, moving (run es new) u = true).
Proof.
  pose proof (run_exclusive es new new_exclusive) as Hx. split; [apply (e_one _ Hx)|]. intros Hn w Hw Hb Hh. pose proof (run_tidy es new new_exclusive new_tidy Hn) as Ht. set (s := run es new) in *. clearbody s.
  destruct (t_owed _ Ht w) as [Hin|[u Hu]]; [split; [by rewrite Hw|unfold woken; by rewrite Hw, Hb]| |exists u; unfold moving; by rewrite Hu].
  destruct (t_next _ Ht) as [Hx'|Hm]; [intros Hnil; rewrite Hnil in Hin; by apply elem_of_nil in Hin|congruence|done].
Qed.

End Sleeping.
