(* ===== verification/SyncRuns.v ===== *)
(** * Locks: concrete runs

    Two processors and an interrupt at one lock, for the theorem's hypotheses; guards that
    go out of scope in the wrong order; and a waiter nobody wakes. *)

From stdpp Require Import base list numbers list_numbers.
From Stdlib Require Import Lia ZifyBool.
From S2P Require Import Prelude Request Sync SyncTheorems.

Module TicketRuns.
Import Ticket TicketInv.

Fixpoint times {A} (n : nat) (a : A) : list A := match n with O => [] | S n => a :: times n a end.

(** Processor 0 takes lock 7, processor 1 queues, and is let in; processor 0 is interrupted
    once it has let go. *)
Definition contended : list (nat * Action) :=
  [(0%nat, Lock false 7)] ++ times 3 (0%nat, Continue) ++ [(1%nat, Lock false 7)] ++ times 4 (1%nat, Continue) ++ [(0%nat, Interrupt); (0%nat, Drop 0)] ++ times 2 (0%nat, Continue) ++ [(1%nat, Continue); (0%nat, Interrupt)].

Lemma ticket_lock_witness : exists m, run contended (start (fun _ => true)) = Ok m /\ has_guard m 7 1 /\ irq (cpus m 1%nat) = false /\ served (mutexes m 7%nat) = [0%nat; 1%nat].
Proof.
  destruct (Locks.ticket_lock (fun _ => true) contended) as (m & Hrun & _ & _ & _ & Hirq & _); [repeat constructor|cbn; lia|]. exists m. split; [done|].
  assert (Hg : has_guard m 7 1).
  { assert (Hv : match run contended (start (fun _ => true)) with Ok m => guards (top (cpus m 1%nat)) | _ => [] end = [(7%nat, true)]) by (vm_compute; reflexivity). rewrite Hrun in Hv.
    exists (top (cpus m 1%nat)), true. split; [apply elem_of_cons; by left|]. rewrite Hv. apply elem_of_cons. by left. }
  split; [done|]. split; [by apply (Hirq 7%nat)|].
  assert (Hv : match run contended (start (fun _ => true)) with Ok m => served (mutexes m 7%nat) | _ => [] end = [0%nat; 1%nat]) by (vm_compute; reflexivity). by rewrite Hrun in Hv.
Defined.

(** Two guards, the first of them dropped first: interrupts are on again while the second
    lock is held, and a handler that wants it waits for the thread it interrupted. *)
Definition crossed : list (nat * Action) :=
  [(0%nat, Lock false 1)] ++ times 3 (0%nat, Continue) ++ [(0%nat, Lock false 2)] ++ times 3 (0%nat, Continue) ++ [(0%nat, Drop 1)] ++ times 2 (0%nat, Continue) ++
  [(0%nat, Interrupt); (0%nat, Lock false 2)] ++ times 9 (0%nat, Continue).

Example guards_crossed : match run crossed (start (fun _ => true)) with
  | Ok m => below (cpus m 0%nat) = [{| pc := Running; guards := [(2%nat, false)]; base := true |}] /\ pc (top (cpus m 0%nat)) = Waiting 2 false 1
  | _ => False
  end.
Proof. vm_compute. split; reflexivity. Qed.

End TicketRuns.

Module SleepRuns.
Import SleepMutex SleepInv.

Definition steps (t : nat) (n : nat) : list Event := TicketRuns.times n (Step t true).

(** One thread holds the lock and two sleep. *)
Definition two_asleep : list Event := steps 0 2 ++ steps 1 6 ++ steps 2 6.

Lemma sleep_mutex_witness : place (run (two_asleep ++ steps 0 1) new) 2 = Asleep /\ exists u, moving (run (two_asleep ++ steps 0 1) new) u = true.
Proof.
  split; [vm_compute; reflexivity|]. apply (proj2 (Sleeping.sleep_mutex (two_asleep ++ steps 0 1))) with (w := 2%nat); [repeat constructor|vm_compute; reflexivity..].
Defined.

(** Thread 1 is woken for another reason while it sleeps, finds the lock held and queues a
    second time. Woken for its first entry it takes the lock, and when it lets go it takes
    its own second entry off the queue: the lock is free, nobody is on the way, and thread
    2 sleeps beside it. *)
Definition stranded : list Event := steps 0 2 ++ steps 1 6 ++ [Stray 1] ++ steps 1 6 ++ steps 2 6 ++ steps 0 3 ++ steps 1 5.

Example waiter_stranded : let s := run stranded new in
  held s = false /\ place s 0 = Away /\ place s 1 = Away /\ place s 2 = Asleep /\ blocked (sleep s 2) = true /\ waiters s = [2%nat].
Proof. vm_compute. split_and!; reflexivity. Qed.

End SleepRuns.
