(* ===== verification/NetBytes.v ===== *)
(** * Bytes of the network daemon (userland/src/bin/net.rs)

    Reading and writing packets, the Internet checksum, and addresses of both families. *)

From stdpp Require Import base list gmap numbers list_numbers.
From Stdlib Require Import Lia ZifyBool.
From S2P Require Import Prelude.

(** The daemon is built without overflow checks and aborts on a panic: an index out of
    range ends the process, arithmetic wraps. *)
Definition MAX_FRAME : nat := 1514.
Definition TCP_MSS : nat := 1460.

(** ** Slices *)

Definition byte_at {S E} (bs : list Z) (i : nat) : M S E Z := match bs !! i with Some b => mret b | None => panic end.

(** [&bs[a..b]] *)
Definition range {S E} (bs : list Z) (a b : nat) : M S E (list Z) :=
  if (a <=? b)%nat && (b <=? length bs)%nat then mret (take (b - a) (drop a bs)) else panic.
Definition from {S E} (bs : list Z) (a : nat) : M S E (list Z) := range bs a (length bs).

(** [buf[at..at + x.len()].copy_from_slice(x)] *)
Definition overwrite (at_ : nat) (x buf : list Z) : list Z := take at_ buf ++ x ++ drop (at_ + length x) buf.
Definition copy_at {S E} (at_ : nat) (x buf : list Z) : M S E (list Z) :=
  if (at_ + length x <=? length buf)%nat then mret (overwrite at_ x buf) else panic.

Fixpoint copies {S E} (l : list (nat * list Z)) (buf : list Z) : M S E (list Z) :=
  match l with
  | [] => mret buf
  | (at_, x) :: rest => buf ← copy_at at_ x buf; copies rest buf
  end.

(** *** Big-endian words *)

Definition be16 (v : Z) : list Z := [v / 256 mod 256; v mod 256].
Definition be32 (v : Z) : list Z := [v / 16777216 mod 256; v / 65536 mod 256; v / 256 mod 256; v mod 256].

Definition word16 (a b : Z) : Z := a * 256 + b.
Definition word32 (a b c d : Z) : Z := ((a * 256 + b) * 256 + c) * 256 + d.

Definition read_u16 {S E} (bs : list Z) (i : nat) : M S E Z := a ← byte_at bs i; b ← byte_at bs (i + 1); mret (word16 a b).
Definition read_u32 {S E} (bs : list Z) (i : nat) : M S E Z :=
  a ← byte_at bs i; b ← byte_at bs (i + 1); c ← byte_at bs (i + 2); d ← byte_at bs (i + 3); mret (word32 a b c d).

(** ** Addresses *)

Definition UNSPECIFIED : list Z := replicate 16 0.
Definition ALL_NODES : list Z := [255; 2; 0; 0; 0; 0; 0; 0; 0; 0; 0; 0; 0; 0; 0; 1].
Definition ALL_ROUTERS : list Z := [255; 2; 0; 0; 0; 0; 0; 0; 0; 0; 0; 0; 0; 0; 0; 2].
Definition BROADCAST : list Z := replicate 6 255.
Definition V4_PREFIX : list Z := [0; 0; 0; 0; 0; 0; 0; 0; 0; 0; 255; 255].

Definition mapped (v4 : Z) : list Z := V4_PREFIX ++ be32 v4.

Definition as_v4 (ip : list Z) : option Z :=
  if bool_decide (take 12 ip = V4_PREFIX)
  then match drop 12 ip with [a; b; c; d] => Some (word32 a b c d) | _ => None end
  else None.

Definition read_ip {S E} (bs : list Z) (i : nat) : M S E (list Z) := range bs i (i + 16).

Definition ip_byte (ip : list Z) (i : nat) : Z := default 0 (ip !! i).

Definition is_link_local (ip : list Z) : bool := (ip_byte ip 0 =? 254) && (Z.land (ip_byte ip 1) 192 =? 128).

Definition solicited_node (ip : list Z) : list Z := [255; 2; 0; 0; 0; 0; 0; 0; 0; 0; 0; 1; 255] ++ drop 13 ip.

(** ** The Internet checksum *)

(** [bytes.chunks(2)], an odd last byte taken as the high one *)
Fixpoint add_words (sum : Z) (bs : list Z) : Z :=
  match bs with
  | [] => sum
  | [a] => sum + word16 a 0
  | a :: b :: rest => add_words (sum + word16 a b) rest
  end.

(** [while sum > 0xFFFF] *)
Fixpoint fold_carries (fuel : nat) (sum : Z) : Z :=
  match fuel with
  | O => sum
  | S n => if 65535 <? sum then fold_carries n (Z.land sum 65535 + Z.shiftr sum 16) else sum
  end.

(** A 64-bit sum folds in five turns; see [fold_carries_bound]. *)
Definition fold (sum : Z) : Z := 65535 - fold_carries 5 sum.

Definition checksum (bs : list Z) : Z := fold (add_words 0 bs).

Definition pseudo_header (protocol : Z) (source destination bs : list Z) : list Z :=
  match as_v4 source, as_v4 destination with
  | Some from, Some to => be32 from ++ be32 to ++ [0; protocol] ++ be16 (Z.of_nat (length bs) mod 65536)
  | _, _ => source ++ destination ++ be32 (Z.of_nat (length bs) mod 2 ^ 32) ++ [0; 0; 0; protocol]
  end.

Definition transport_checksum (protocol : Z) (source destination bs : list Z) : Z :=
  fold (add_words (add_words 0 (pseudo_header protocol source destination bs)) bs).

(** ** Lemmas *)

Lemma length_be16 v : length (be16 v) = 2%nat.
Proof. done. Qed.
Lemma length_be32 v : length (be32 v) = 4%nat.
Proof. done. Qed.
Lemma length_mapped v : length (mapped v) = 16%nat.
Proof. done. Qed.

Lemma be16_bytes v : Forall is_byte (be16 v).
Proof. repeat constructor; apply Z.mod_pos_bound; lia. Qed.
Lemma be32_bytes v : Forall is_byte (be32 v).
Proof. repeat constructor; apply Z.mod_pos_bound; lia. Qed.

Lemma word16_be16 v : 0 <= v < 65536 -> word16 (v / 256 mod 256) (v mod 256) = v.
Proof. intros Hv. unfold word16. rewrite (Z.mod_small (v / 256)) by (split; [apply Z.div_pos|apply Z.div_lt_upper_bound]; lia). Z.div_mod_to_equations. lia. Qed.

Lemma word32_be32 v : u32 v -> word32 (v / 16777216 mod 256) (v / 65536 mod 256) (v / 256 mod 256) (v mod 256) = v.
Proof. unfold u32, word32. intros Hv. Z.div_mod_to_equations. lia. Qed.

Lemma as_v4_mapped v : u32 v -> as_v4 (mapped v) = Some v.
Proof. intros Hv. unfold as_v4, mapped. cbn [take drop app V4_PREFIX be32]. rewrite bool_decide_true by done. by rewrite word32_be32. Qed.

Lemma length_overwrite at_ x buf : (at_ + length x <= length buf)%nat -> length (overwrite at_ x buf) = length buf.
Proof. intros Hl. unfold overwrite. rewrite !length_app, length_take, length_drop. lia. Qed.

Lemma overwrite_bytes at_ x buf : Forall is_byte x -> Forall is_byte buf -> Forall is_byte (overwrite at_ x buf).
Proof. intros Hx Hb. unfold overwrite. rewrite !Forall_app. split_and!; [by apply Forall_take|done|by apply Forall_drop]. Qed.

(** *** Folding *)

Lemma fold_step_mod s : (Z.land s 65535 + Z.shiftr s 16) mod 65535 = s mod 65535.
Proof.
  change (Z.land s 65535) with (Z.land s (Z.ones 16)). rewrite Z.land_ones, Z.shiftr_div_pow2 by lia. change (2 ^ 16) with 65536.
  pose proof (Z.div_mod s 65536 ltac:(lia)) as Hs. rewrite Hs at 3. replace (65536 * (s / 65536) + s mod 65536) with (s mod 65536 + s / 65536 + (s / 65536) * 65535) by lia.
  by rewrite Z.mod_add.
Qed.

Lemma fold_step_bound s : 0 <= s -> 0 <= Z.land s 65535 + Z.shiftr s 16 <= 65535 + s / 65536 /\ (0 < s -> 0 < Z.land s 65535 + Z.shiftr s 16).
Proof.
  intros Hs. change (Z.land s 65535) with (Z.land s (Z.ones 16)). rewrite Z.land_ones, Z.shiftr_div_pow2 by lia. change (2 ^ 16) with 65536.
  pose proof (Z.mod_pos_bound s 65536 ltac:(lia)). pose proof (Z.div_pos s 65536 Hs ltac:(lia)). split; [lia|]. intros Hp. pose proof (Z.div_mod s 65536 ltac:(lia)). lia.
Qed.

Lemma fold_carries_mod n : forall s, fold_carries n s mod 65535 = s mod 65535.
Proof. induction n as [|n IH]; intros s; cbn [fold_carries]; [done|]. destruct (65535 <? s); [|done]. by rewrite IH, fold_step_mod. Qed.

Lemma fold_carries_pos n : forall s, 0 <= s -> 0 <= fold_carries n s /\ (0 < s -> 0 < fold_carries n s).
Proof.
  induction n as [|n IH]; intros s Hs; cbn [fold_carries]; [done|]. destruct (65535 <? s); [|done]. destruct (fold_step_bound s Hs) as [Hb Hp].
  destruct (IH _ (proj1 Hb)) as [H1 H2]. auto.
Qed.

(** The loop ends: five turns bring any 64-bit sum to sixteen bits. *)
Lemma fold_carries_bound s : u64 s -> fold_carries 5 s <= 65535.
Proof.
  assert (Hgo : forall n b b', (forall s, 0 <= s <= b -> fold_carries n s <= 65535) -> 65535 + b' / 65536 <= b -> forall s, 0 <= s <= b' -> fold_carries (S n) s <= 65535).
  { intros n b b' Hn Hb x Hx. cbn [fold_carries]. destruct (65535 <? x) eqn:Hlt; [|lia]. apply Hn. destruct (fold_step_bound x (proj1 Hx)) as [Hr _].
    pose proof (Z.div_le_mono x b' 65536 ltac:(lia) ltac:(lia)). lia. }
  assert (H1 : forall s, 0 <= s <= 65536 -> fold_carries 1 s <= 65535).
  { intros x Hx. destruct (decide (x = 65536)) as [->|]; [vm_compute; discriminate|]. cbn [fold_carries]. destruct (65535 <? x) eqn:Hlt; lia. }
  pose proof (Hgo 1%nat _ 131071 H1 ltac:(vm_compute; discriminate)) as H2. pose proof (Hgo 2%nat _ 4295032831 H2 ltac:(vm_compute; discriminate)) as H3.
  pose proof (Hgo 3%nat _ 281474976776191 H3 ltac:(vm_compute; discriminate)) as H4. pose proof (Hgo 4%nat _ 18446744073709617151 H4 ltac:(vm_compute; discriminate)) as H5.
  intros Hs. unfold u64 in Hs. apply H5. lia.
Qed.

(** *** A sum with its complement in place folds to nothing *)

Lemma fold_multiple s : 0 < s < 2 ^ 64 -> s mod 65535 = 0 -> fold s = 0.
Proof.
  intros Hs Hm. unfold fold. pose proof (fold_carries_bound s ltac:(unfold u64; lia)) as Hb. pose proof (fold_carries_mod 5 s) as Hmod. rewrite Hm in Hmod.
  destruct (fold_carries_pos 5 s ltac:(lia)) as [_ Hp]. specialize (Hp ltac:(lia)).
  destruct (decide (fold_carries 5 s = 65535)); [lia|]. rewrite Z.mod_small in Hmod by lia. lia.
Qed.

Lemma fold_range s : u64 s -> 0 <= fold s <= 65535.
Proof. intros Hs. unfold fold. pose proof (fold_carries_bound s Hs). destruct (fold_carries_pos 5 s ltac:(unfold u64 in Hs; lia)). lia. Qed.

Lemma fold_complement s : 0 <= s < 2 ^ 63 -> fold (s + fold s) = 0.
Proof.
  intros Hs. pose proof (fold_range s ltac:(unfold u64; lia)) as Hr. pose proof (fold_carries_mod 5 s) as Hmod.
  apply fold_multiple.
  - unfold fold in *. destruct (decide (s = 0)) as [->|]; [vm_compute; split; done|lia].
  - unfold fold. replace (s + (65535 - fold_carries 5 s)) with (s - fold_carries 5 s + 1 * 65535) by lia. rewrite Z.mod_add by lia. rewrite Zminus_mod, Hmod, Z.sub_diag. reflexivity.
Qed.

Lemma add_words_start s bs : add_words s bs = s + add_words 0 bs.
Proof.
  revert s. assert (Hgo : forall n bs s, (length bs <= n)%nat -> add_words s bs = s + add_words 0 bs); [|intros s; by apply (Hgo (length bs))].
  induction n as [|n IH]; intros [|a [|b l]] s Hl; cbn [add_words length] in *; try lia. rewrite (IH l (s + _)), (IH l (0 + _)) by lia. lia.
Qed.

Lemma add_words_app a b : Nat.even (length a) = true -> add_words 0 (a ++ b) = add_words 0 a + add_words 0 b.
Proof.
  assert (Hgo : forall n a, (length a <= n)%nat -> Nat.even (length a) = true -> add_words 0 (a ++ b) = add_words 0 a + add_words 0 b); [|by apply (Hgo (length a))].
  induction n as [|n IH]; intros [|x [|y l]] Hl He; cbn [add_words app length] in *; try lia; try discriminate He.
  rewrite (add_words_start _ (l ++ b)), (add_words_start _ l), IH by (lia || done). lia.
Qed.

Lemma add_words_nonneg bs : Forall is_byte bs -> 0 <= add_words 0 bs <= 65535 * Z.of_nat (length bs).
Proof.
  assert (Hgo : forall n bs, (length bs <= n)%nat -> Forall is_byte bs -> 0 <= add_words 0 bs <= 65535 * Z.of_nat (length bs)); [|by apply (Hgo (length bs))].
  induction n as [|n IH]; intros [|x [|y l]] Hl Hb; cbn [add_words length] in *; try lia.
  - apply Forall_cons in Hb as [Hx _]. unfold is_byte, word16 in *. lia.
  - apply Forall_cons in Hb as [Hx [Hy Hb]%Forall_cons]. rewrite add_words_start. specialize (IH l ltac:(lia) Hb). unfold is_byte, word16 in *. lia.
Qed.

Lemma add_words_be16 v : 0 <= v < 65536 -> add_words 0 (be16 v) = v.
Proof. intros Hv. unfold be16. cbn [add_words]. rewrite word16_be16 by done. lia. Qed.

(** Packets with their checksum in place verify, whatever else is summed with them. *)
Lemma checksum_placed start a b : 0 <= start < 2 ^ 62 -> Nat.even (length a) = true -> Forall is_byte (a ++ b) -> Z.of_nat (length (a ++ b)) < 2 ^ 40 ->
  let sum := fold (add_words start (a ++ [0; 0] ++ b)) in
  fold (add_words start (a ++ be16 sum ++ b)) = 0 /\ (sum = 0 -> fold (add_words start (a ++ be16 65535 ++ b)) = 0).
Proof.
  intros Hst He Hb Hl sum. rewrite length_app in Hl. apply Forall_app in Hb as [Ha Hb].
  pose proof (add_words_nonneg a Ha). pose proof (add_words_nonneg b Hb).
  assert (Hsum : forall v, 0 <= v < 65536 -> add_words start (a ++ be16 v ++ b) = start + add_words 0 a + add_words 0 b + v).
  { intros v Hv. rewrite add_words_start, add_words_app, add_words_app, add_words_be16 by done. lia. }
  set (S0 := start + add_words 0 a + add_words 0 b).
  assert (Hz : add_words start (a ++ [0; 0] ++ b) = S0) by (pose proof (Hsum 0 ltac:(lia)) as Hx; unfold be16 in Hx; cbn in Hx; rewrite Z.add_0_r in Hx; exact Hx).
  assert (HS0 : 0 <= S0 < 2 ^ 63) by (unfold S0; lia).
  assert (Hs : sum = fold S0) by (unfold sum; by rewrite Hz). pose proof (fold_range S0 ltac:(unfold u64; lia)) as Hr. rewrite Hs. split.
  - rewrite Hsum by lia. fold S0. by apply fold_complement.
  - intros Hzero. rewrite Hsum by lia. fold S0. pose proof (fold_complement S0 HS0) as Hc. rewrite Hzero, Z.add_0_r in Hc. apply fold_multiple; [lia|].
    rewrite <- (Z.mul_1_l 65535) at 1. rewrite Z.mod_add by lia. unfold fold in Hzero. pose proof (fold_carries_mod 5 S0) as Hm. replace (fold_carries 5 S0) with 65535 in Hm by lia. by rewrite <- Hm.
Qed.
