(* ===== verification/Net.v ===== *)
(** * The network daemon (userland/src/bin/net.rs)

    A TCP/IP stack in a Ring 3 process: every handler of frames, commands and timer ticks,
    over the daemon's tables.  What the daemon asks of the kernel and of its clients is its
    output; what they answer is the environment. *)

From stdpp Require Import base list gmap numbers list_numbers.
From Stdlib Require Import Lia ZifyBool.
From S2P Require Import Prelude NetBytes.

(** ** Constants *)

Definition ETHERTYPE_ARP : Z := 0x0806.
Definition ETHERTYPE_IPV4 : Z := 0x0800.
Definition ETHERTYPE_IPV6 : Z := 0x86DD.
Definition PROTOCOL_ICMPV6 : Z := 58.
Definition PROTOCOL_ICMP : Z := 1.
Definition PROTOCOL_UDP : Z := 17.
Definition PROTOCOL_TCP : Z := 6.
Definition PING_IDENTIFIER : Z := 0x5044.
Definition ARP_ENTRIES : nat := 8.
Definition WAITING_FRAMES : nat := 2.
Definition PINGS : nat := 8.
Definition BINDINGS : nat := 8.
Definition MAPPINGS : nat := 8.
Definition CONNECTIONS : nat := 8.
Definition LISTENERS : nat := 4.
Definition RESOLVERS : nat := 4.
Definition CONFIG_WAITERS : nat := 4.
Definition DHCP_CLIENT_PORT : Z := 68.
Definition DHCP_SERVER_PORT : Z := 67.
Definition DHCP_COOKIE : list Z := [99; 130; 83; 99].
Definition DHCP_DISCOVER : Z := 1.
Definition DHCP_OFFER : Z := 2.
Definition DHCP_REQUEST : Z := 3.
Definition DHCP_ACK : Z := 5.
Definition DHCP_NAK : Z := 6.
Definition REQUEST_TICKS : Z := 10.
Definition DNS_TRIES : Z := 3.
Definition SOLICITATIONS : Z := 3.
Definition TCP_MSS_V6 : nat := 1440.

Definition FIN : Z := 1.
Definition SYN : Z := 2.
Definition RST : Z := 4.
Definition PSH : Z := 8.
Definition ACK : Z := 16.
Definition FIRST_RTO_TICKS : Z := 5.
Definition MAX_RTO_TICKS : Z := 40.
Definition MAX_RETRIES : Z := 6.

Definition IPV6 : Z := U64_MAX.
Definition KERNEL_SENDER : Z := U64_MAX.
Definition TAG_NET_RECEIVED : Z := 0x20000.
Definition TAG_TIMER : Z := 0x30000.
Definition TAG_PING : Z := 1.
Definition TAG_PONG : Z := 2.
Definition TAG_UDP_BIND : Z := 3.
Definition TAG_DATAGRAM : Z := 4.
Definition TAG_UDP_SEND : Z := 5.
Definition TAG_TCP_CONNECT : Z := 6.
Definition TAG_TCP_LISTEN : Z := 7.
Definition TAG_TCP_OPEN : Z := 8.
Definition TAG_TCP_SEND : Z := 9.
Definition TAG_TCP_SENT : Z := 10.
Definition TAG_TCP_DATA : Z := 11.
Definition TAG_TCP_CONSUMED : Z := 12.
Definition TAG_TCP_CLOSE : Z := 13.
Definition TAG_TCP_CLOSED : Z := 14.
Definition CLOSED_PEER_FINISHED : Z := 0.
Definition CLOSED_FINISHED : Z := 1.
Definition CLOSED_RESET : Z := 2.
Definition CLOSED_TIMED_OUT : Z := 3.
Definition CLOSED_NO_ROOM : Z := 4.
Definition TAG_NET_CONFIG : Z := 15.
Definition TAG_NET_CONFIGURED : Z := 16.
Definition TAG_RESOLVE : Z := 17.
Definition TAG_RESOLVED : Z := 18.
Definition RESOLVE_FOUND : Z := 0.
Definition RESOLVE_NO_ADDRESS : Z := 0x100.
Definition RESOLVE_TIMED_OUT : Z := 0x101.
Definition RESOLVE_BAD_NAME : Z := 0x102.
Definition TAG_NET_CONFIG6 : Z := 19.
Definition TAG_NET_CONFIGURED6 : Z := 20.
Definition TAG_RESOLVE6 : Z := 21.

(** ** State *)

Inductive Dhcp : Type := Done | Discovering | Requesting.
#[global] Instance Dhcp_eq_dec : EqDecision Dhcp.
Proof. solve_decision. Defined.

Inductive State : Type := Free | SynSent | SynReceived | Established | FinWait1 | FinWait2 | Closing | CloseWait | LastAck.
#[global] Instance State_eq_dec : EqDecision State.
Proof. solve_decision. Defined.

Record Resolve : Type := { r_id : Z; r_kind : Z; r_reply : Z; r_token : Z; r_base : Z; r_length : Z; r_waited : Z; r_tries : Z }.
Definition Resolve_default : Resolve :=
  {| r_id := 0; r_kind := 0; r_reply := 0; r_token := 0; r_base := 0; r_length := 0; r_waited := 0; r_tries := 0 |}.

Record Listener : Type := { l_port : Z; l_owner : Z; l_reply : Z; l_base : Z; l_size : Z }.
Definition Listener_default : Listener := {| l_port := 0; l_owner := 0; l_reply := 0; l_base := 0; l_size := 0 |}.

Record Waiting : Type := { w_frame : list Z; w_length : nat; w_next_hop : list Z }.

Record Ping : Type := { p_token : Z; p_reply : Z; p_address : list Z; p_sequence : Z }.
Definition Ping_default : Ping := {| p_token := 0; p_reply := 0; p_address := UNSPECIFIED; p_sequence := 0 |}.

Record Binding : Type := { b_port : Z; b_reply : Z; b_base : Z; b_size : Z }.
Definition Binding_default : Binding := {| b_port := 0; b_reply := 0; b_base := 0; b_size := 0 |}.

Record Connection : Type := {
  state : State;
  c_owner : Z;
  c_reply : Z;
  remote : list Z;
  remote_port : Z;
  local_port : Z;
  c_base : Z;
  c_size : Z;
  filled : Z;
  delivered : bool;
  unacknowledged : Z;
  next_send : Z;
  next_receive : Z;
  flight_flags : Z;
  flight_base : Z;
  flight_length : Z;
  close_requested : bool;
  c_waited : Z;
  timeout : Z;
  retries : Z;
}.

Definition set_state (v : State) (s : Connection) : Connection :=
  {| state := v; c_owner := c_owner s; c_reply := c_reply s; remote := remote s; remote_port := remote_port s;
     local_port := local_port s; c_base := c_base s; c_size := c_size s; filled := filled s; delivered := delivered s;
     unacknowledged := unacknowledged s; next_send := next_send s; next_receive := next_receive s;
     flight_flags := flight_flags s; flight_base := flight_base s; flight_length := flight_length s;
     close_requested := close_requested s; c_waited := c_waited s; timeout := timeout s; retries := retries s |}.
Definition set_filled (v : Z) (s : Connection) : Connection :=
  {| state := state s; c_owner := c_owner s; c_reply := c_reply s; remote := remote s; remote_port := remote_port s;
     local_port := local_port s; c_base := c_base s; c_size := c_size s; filled := v; delivered := delivered s;
     unacknowledged := unacknowledged s; next_send := next_send s; next_receive := next_receive s;
     flight_flags := flight_flags s; flight_base := flight_base s; flight_length := flight_length s;
     close_requested := close_requested s; c_waited := c_waited s; timeout := timeout s; retries := retries s |}.
Definition set_delivered (v : bool) (s : Connection) : Connection :=
  {| state := state s; c_owner := c_owner s; c_reply := c_reply s; remote := remote s; remote_port := remote_port s;
     local_port := local_port s; c_base := c_base s; c_size := c_size s; filled := filled s; delivered := v;
     unacknowledged := unacknowledged s; next_send := next_send s; next_receive := next_receive s;
     flight_flags := flight_flags s; flight_base := flight_base s; flight_length := flight_length s;
     close_requested := close_requested s; c_waited := c_waited s; timeout := timeout s; retries := retries s |}.
Definition set_unacknowledged (v : Z) (s : Connection) : Connection :=
  {| state := state s; c_owner := c_owner s; c_reply := c_reply s; remote := remote s; remote_port := remote_port s;
     local_port := local_port s; c_base := c_base s; c_size := c_size s; filled := filled s; delivered := delivered s;
     unacknowledged := v; next_send := next_send s; next_receive := next_receive s; flight_flags := flight_flags s;
     flight_base := flight_base s; flight_length := flight_length s; close_requested := close_requested s;
     c_waited := c_waited s; timeout := timeout s; retries := retries s |}.
Definition set_next_send (v : Z) (s : Connection) : Connection :=
  {| state := state s; c_owner := c_owner s; c_reply := c_reply s; remote := remote s; remote_port := remote_port s;
     local_port := local_port s; c_base := c_base s; c_size := c_size s; filled := filled s; delivered := delivered s;
     unacknowledged := unacknowledged s; next_send := v; next_receive := next_receive s; flight_flags := flight_flags s;
     flight_base := flight_base s; flight_length := flight_length s; close_requested := close_requested s;
     c_waited := c_waited s; timeout := timeout s; retries := retries s |}.
Definition set_next_receive (v : Z) (s : Connection) : Connection :=
  {| state := state s; c_owner := c_owner s; c_reply := c_reply s; remote := remote s; remote_port := remote_port s;
     local_port := local_port s; c_base := c_base s; c_size := c_size s; filled := filled s; delivered := delivered s;
     unacknowledged := unacknowledged s; next_send := next_send s; next_receive := v; flight_flags := flight_flags s;
     flight_base := flight_base s; flight_length := flight_length s; close_requested := close_requested s;
     c_waited := c_waited s; timeout := timeout s; retries := retries s |}.
Definition set_flight_flags (v : Z) (s : Connection) : Connection :=
  {| state := state s; c_owner := c_owner s; c_reply := c_reply s; remote := remote s; remote_port := remote_port s;
     local_port := local_port s; c_base := c_base s; c_size := c_size s; filled := filled s; delivered := delivered s;
     unacknowledged := unacknowledged s; next_send := next_send s; next_receive := next_receive s; flight_flags := v;
     flight_base := flight_base s; flight_length := flight_length s; close_requested := close_requested s;
     c_waited := c_waited s; timeout := timeout s; retries := retries s |}.
Definition set_flight_base (v : Z) (s : Connection) : Connection :=
  {| state := state s; c_owner := c_owner s; c_reply := c_reply s; remote := remote s; remote_port := remote_port s;
     local_port := local_port s; c_base := c_base s; c_size := c_size s; filled := filled s; delivered := delivered s;
     unacknowledged := unacknowledged s; next_send := next_send s; next_receive := next_receive s;
     flight_flags := flight_flags s; flight_base := v; flight_length := flight_length s; close_requested := close_requested s;
     c_waited := c_waited s; timeout := timeout s; retries := retries s |}.
Definition set_flight_length (v : Z) (s : Connection) : Connection :=
  {| state := state s; c_owner := c_owner s; c_reply := c_reply s; remote := remote s; remote_port := remote_port s;
     local_port := local_port s; c_base := c_base s; c_size := c_size s; filled := filled s; delivered := delivered s;
     unacknowledged := unacknowledged s; next_send := next_send s; next_receive := next_receive s;
     flight_flags := flight_flags s; flight_base := flight_base s; flight_length := v; close_requested := close_requested s;
     c_waited := c_waited s; timeout := timeout s; retries := retries s |}.
Definition set_close_requested (v : bool) (s : Connection) : Connection :=
  {| state := state s; c_owner := c_owner s; c_reply := c_reply s; remote := remote s; remote_port := remote_port s;
     local_port := local_port s; c_base := c_base s; c_size := c_size s; filled := filled s; delivered := delivered s;
     unacknowledged := unacknowledged s; next_send := next_send s; next_receive := next_receive s;
     flight_flags := flight_flags s; flight_base := flight_base s; flight_length := flight_length s; close_requested := v;
     c_waited := c_waited s; timeout := timeout s; retries := retries s |}.
Definition set_c_waited (v : Z) (s : Connection) : Connection :=
  {| state := state s; c_owner := c_owner s; c_reply := c_reply s; remote := remote s; remote_port := remote_port s;
     local_port := local_port s; c_base := c_base s; c_size := c_size s; filled := filled s; delivered := delivered s;
     unacknowledged := unacknowledged s; next_send := next_send s; next_receive := next_receive s;
     flight_flags := flight_flags s; flight_base := flight_base s; flight_length := flight_length s;
     close_requested := close_requested s; c_waited := v; timeout := timeout s; retries := retries s |}.
Definition set_timeout (v : Z) (s : Connection) : Connection :=
  {| state := state s; c_owner := c_owner s; c_reply := c_reply s; remote := remote s; remote_port := remote_port s;
     local_port := local_port s; c_base := c_base s; c_size := c_size s; filled := filled s; delivered := delivered s;
     unacknowledged := unacknowledged s; next_send := next_send s; next_receive := next_receive s;
     flight_flags := flight_flags s; flight_base := flight_base s; flight_length := flight_length s;
     close_requested := close_requested s; c_waited := c_waited s; timeout := v; retries := retries s |}.
Definition set_retries (v : Z) (s : Connection) : Connection :=
  {| state := state s; c_owner := c_owner s; c_reply := c_reply s; remote := remote s; remote_port := remote_port s;
     local_port := local_port s; c_base := c_base s; c_size := c_size s; filled := filled s; delivered := delivered s;
     unacknowledged := unacknowledged s; next_send := next_send s; next_receive := next_receive s;
     flight_flags := flight_flags s; flight_base := flight_base s; flight_length := flight_length s;
     close_requested := close_requested s; c_waited := c_waited s; timeout := timeout s; retries := v |}.

Definition Connection_default : Connection :=
  {| state := Free; c_owner := 0; c_reply := 0; remote := UNSPECIFIED; remote_port := 0; local_port := 0; c_base := 0; c_size := 0;
     filled := 0; delivered := false; unacknowledged := 0; next_send := 0; next_receive := 0; flight_flags := 0; flight_base := 0;
     flight_length := 0; close_requested := false; c_waited := 0; timeout := 0; retries := 0 |}.

(** What the daemon asks for: a frame on the wire, a message to an endpoint, a timer, a
    buffer mapped or given up. *)
Inductive Output : Type :=
| Frame (bytes : list Z)
| Tell (endpoint tag : Z) (words : list Z)
| SetTimer
| MapBuffer (handle : Z)
| UnmapBuffer (handle : Z).

(** The tables of the daemon; [memory] holds the clients' buffers that are mapped, by
    address, [drawn] counts the random numbers taken and [output] what was asked for. *)
Record Stack : Type := {
  mac : list Z;
  address : Z;
  gateway : Z;
  netmask : Z;
  arp_table : list (list Z * list Z);
  arp_next : nat;
  waiting : list Waiting;
  pings : list Ping;
  next_sequence : Z;
  bindings : list Binding;
  mappings : list (Z * Z * Z);
  next_identification : Z;
  control : Z;
  connections : list Connection;
  listeners : list Listener;
  timer_armed : bool;
  next_port : Z;
  dhcp : Dhcp;
  dhcp_waited : Z;
  transaction : Z;
  offered : Z;
  dhcp_server : Z;
  offered_dns : Z;
  config_waiters : list Z;
  dns_server : list Z;
  dns_port : Z;
  resolves : list Resolve;
  dns_local_port : Z;
  link_local : list Z;
  global6 : list Z;
  router6 : list Z;
  dns6 : list Z;
  solicited : Z;
  solicit_waited : Z;
  config6_waiters : list Z;
  memory : gmap Z (list Z);
  drawn : nat;
  output : list Output;
}.

Definition set_address (v : Z) (s : Stack) : Stack :=
  {| mac := mac s; address := v; gateway := gateway s; netmask := netmask s; arp_table := arp_table s; arp_next := arp_next s;
     waiting := waiting s; pings := pings s; next_sequence := next_sequence s; bindings := bindings s; mappings := mappings s;
     next_identification := next_identification s; control := control s; connections := connections s;
     listeners := listeners s; timer_armed := timer_armed s; next_port := next_port s; dhcp := dhcp s;
     dhcp_waited := dhcp_waited s; transaction := transaction s; offered := offered s; dhcp_server := dhcp_server s;
     offered_dns := offered_dns s; config_waiters := config_waiters s; dns_server := dns_server s; dns_port := dns_port s;
     resolves := resolves s; dns_local_port := dns_local_port s; link_local := link_local s; global6 := global6 s;
     router6 := router6 s; dns6 := dns6 s; solicited := solicited s; solicit_waited := solicit_waited s;
     config6_waiters := config6_waiters s; memory := memory s; drawn := drawn s; output := output s |}.
Definition set_gateway (v : Z) (s : Stack) : Stack :=
  {| mac := mac s; address := address s; gateway := v; netmask := netmask s; arp_table := arp_table s; arp_next := arp_next s;
     waiting := waiting s; pings := pings s; next_sequence := next_sequence s; bindings := bindings s; mappings := mappings s;
     next_identification := next_identification s; control := control s; connections := connections s;
     listeners := listeners s; timer_armed := timer_armed s; next_port := next_port s; dhcp := dhcp s;
     dhcp_waited := dhcp_waited s; transaction := transaction s; offered := offered s; dhcp_server := dhcp_server s;
     offered_dns := offered_dns s; config_waiters := config_waiters s; dns_server := dns_server s; dns_port := dns_port s;
     resolves := resolves s; dns_local_port := dns_local_port s; link_local := link_local s; global6 := global6 s;
     router6 := router6 s; dns6 := dns6 s; solicited := solicited s; solicit_waited := solicit_waited s;
     config6_waiters := config6_waiters s; memory := memory s; drawn := drawn s; output := output s |}.
Definition set_netmask (v : Z) (s : Stack) : Stack :=
  {| mac := mac s; address := address s; gateway := gateway s; netmask := v; arp_table := arp_table s; arp_next := arp_next s;
     waiting := waiting s; pings := pings s; next_sequence := next_sequence s; bindings := bindings s; mappings := mappings s;
     next_identification := next_identification s; control := control s; connections := connections s;
     listeners := listeners s; timer_armed := timer_armed s; next_port := next_port s; dhcp := dhcp s;
     dhcp_waited := dhcp_waited s; transaction := transaction s; offered := offered s; dhcp_server := dhcp_server s;
     offered_dns := offered_dns s; config_waiters := config_waiters s; dns_server := dns_server s; dns_port := dns_port s;
     resolves := resolves s; dns_local_port := dns_local_port s; link_local := link_local s; global6 := global6 s;
     router6 := router6 s; dns6 := dns6 s; solicited := solicited s; solicit_waited := solicit_waited s;
     config6_waiters := config6_waiters s; memory := memory s; drawn := drawn s; output := output s |}.
Definition set_arp_table (v : list (list Z * list Z)) (s : Stack) : Stack :=
  {| mac := mac s; address := address s; gateway := gateway s; netmask := netmask s; arp_table := v; arp_next := arp_next s;
     waiting := waiting s; pings := pings s; next_sequence := next_sequence s; bindings := bindings s; mappings := mappings s;
     next_identification := next_identification s; control := control s; connections := connections s;
     listeners := listeners s; timer_armed := timer_armed s; next_port := next_port s; dhcp := dhcp s;
     dhcp_waited := dhcp_waited s; transaction := transaction s; offered := offered s; dhcp_server := dhcp_server s;
     offered_dns := offered_dns s; config_waiters := config_waiters s; dns_server := dns_server s; dns_port := dns_port s;
     resolves := resolves s; dns_local_port := dns_local_port s; link_local := link_local s; global6 := global6 s;
     router6 := router6 s; dns6 := dns6 s; solicited := solicited s; solicit_waited := solicit_waited s;
     config6_waiters := config6_waiters s; memory := memory s; drawn := drawn s; output := output s |}.
Definition set_arp_next (v : nat) (s : Stack) : Stack :=
  {| mac := mac s; address := address s; gateway := gateway s; netmask := netmask s; arp_table := arp_table s; arp_next := v;
     waiting := waiting s; pings := pings s; next_sequence := next_sequence s; bindings := bindings s; mappings := mappings s;
     next_identification := next_identification s; control := control s; connections := connections s;
     listeners := listeners s; timer_armed := timer_armed s; next_port := next_port s; dhcp := dhcp s;
     dhcp_waited := dhcp_waited s; transaction := transaction s; offered := offered s; dhcp_server := dhcp_server s;
     offered_dns := offered_dns s; config_waiters := config_waiters s; dns_server := dns_server s; dns_port := dns_port s;
     resolves := resolves s; dns_local_port := dns_local_port s; link_local := link_local s; global6 := global6 s;
     router6 := router6 s; dns6 := dns6 s; solicited := solicited s; solicit_waited := solicit_waited s;
     config6_waiters := config6_waiters s; memory := memory s; drawn := drawn s; output := output s |}.
Definition set_waiting (v : list Waiting) (s : Stack) : Stack :=
  {| mac := mac s; address := address s; gateway := gateway s; netmask := netmask s; arp_table := arp_table s;
     arp_next := arp_next s; waiting := v; pings := pings s; next_sequence := next_sequence s; bindings := bindings s;
     mappings := mappings s; next_identification := next_identification s; control := control s; connections := connections s;
     listeners := listeners s; timer_armed := timer_armed s; next_port := next_port s; dhcp := dhcp s;
     dhcp_waited := dhcp_waited s; transaction := transaction s; offered := offered s; dhcp_server := dhcp_server s;
     offered_dns := offered_dns s; config_waiters := config_waiters s; dns_server := dns_server s; dns_port := dns_port s;
     resolves := resolves s; dns_local_port := dns_local_port s; link_local := link_local s; global6 := global6 s;
     router6 := router6 s; dns6 := dns6 s; solicited := solicited s; solicit_waited := solicit_waited s;
     config6_waiters := config6_waiters s; memory := memory s; drawn := drawn s; output := output s |}.
Definition set_pings (v : list Ping) (s : Stack) : Stack :=
  {| mac := mac s; address := address s; gateway := gateway s; netmask := netmask s; arp_table := arp_table s;
     arp_next := arp_next s; waiting := waiting s; pings := v; next_sequence := next_sequence s; bindings := bindings s;
     mappings := mappings s; next_identification := next_identification s; control := control s; connections := connections s;
     listeners := listeners s; timer_armed := timer_armed s; next_port := next_port s; dhcp := dhcp s;
     dhcp_waited := dhcp_waited s; transaction := transaction s; offered := offered s; dhcp_server := dhcp_server s;
     offered_dns := offered_dns s; config_waiters := config_waiters s; dns_server := dns_server s; dns_port := dns_port s;
     resolves := resolves s; dns_local_port := dns_local_port s; link_local := link_local s; global6 := global6 s;
     router6 := router6 s; dns6 := dns6 s; solicited := solicited s; solicit_waited := solicit_waited s;
     config6_waiters := config6_waiters s; memory := memory s; drawn := drawn s; output := output s |}.
Definition set_next_sequence (v : Z) (s : Stack) : Stack :=
  {| mac := mac s; address := address s; gateway := gateway s; netmask := netmask s; arp_table := arp_table s;
     arp_next := arp_next s; waiting := waiting s; pings := pings s; next_sequence := v; bindings := bindings s;
     mappings := mappings s; next_identification := next_identification s; control := control s; connections := connections s;
     listeners := listeners s; timer_armed := timer_armed s; next_port := next_port s; dhcp := dhcp s;
     dhcp_waited := dhcp_waited s; transaction := transaction s; offered := offered s; dhcp_server := dhcp_server s;
     offered_dns := offered_dns s; config_waiters := config_waiters s; dns_server := dns_server s; dns_port := dns_port s;
     resolves := resolves s; dns_local_port := dns_local_port s; link_local := link_local s; global6 := global6 s;
     router6 := router6 s; dns6 := dns6 s; solicited := solicited s; solicit_waited := solicit_waited s;
     config6_waiters := config6_waiters s; memory := memory s; drawn := drawn s; output := output s |}.
Definition set_bindings (v : list Binding) (s : Stack) : Stack :=
  {| mac := mac s; address := address s; gateway := gateway s; netmask := netmask s; arp_table := arp_table s;
     arp_next := arp_next s; waiting := waiting s; pings := pings s; next_sequence := next_sequence s; bindings := v;
     mappings := mappings s; next_identification := next_identification s; control := control s; connections := connections s;
     listeners := listeners s; timer_armed := timer_armed s; next_port := next_port s; dhcp := dhcp s;
     dhcp_waited := dhcp_waited s; transaction := transaction s; offered := offered s; dhcp_server := dhcp_server s;
     offered_dns := offered_dns s; config_waiters := config_waiters s; dns_server := dns_server s; dns_port := dns_port s;
     resolves := resolves s; dns_local_port := dns_local_port s; link_local := link_local s; global6 := global6 s;
     router6 := router6 s; dns6 := dns6 s; solicited := solicited s; solicit_waited := solicit_waited s;
     config6_waiters := config6_waiters s; memory := memory s; drawn := drawn s; output := output s |}.
Definition set_mappings (v : list (Z * Z * Z)) (s : Stack) : Stack :=
  {| mac := mac s; address := address s; gateway := gateway s; netmask := netmask s; arp_table := arp_table s;
     arp_next := arp_next s; waiting := waiting s; pings := pings s; next_sequence := next_sequence s; bindings := bindings s;
     mappings := v; next_identification := next_identification s; control := control s; connections := connections s;
     listeners := listeners s; timer_armed := timer_armed s; next_port := next_port s; dhcp := dhcp s;
     dhcp_waited := dhcp_waited s; transaction := transaction s; offered := offered s; dhcp_server := dhcp_server s;
     offered_dns := offered_dns s; config_waiters := config_waiters s; dns_server := dns_server s; dns_port := dns_port s;
     resolves := resolves s; dns_local_port := dns_local_port s; link_local := link_local s; global6 := global6 s;
     router6 := router6 s; dns6 := dns6 s; solicited := solicited s; solicit_waited := solicit_waited s;
     config6_waiters := config6_waiters s; memory := memory s; drawn := drawn s; output := output s |}.
Definition set_next_identification (v : Z) (s : Stack) : Stack :=
  {| mac := mac s; address := address s; gateway := gateway s; netmask := netmask s; arp_table := arp_table s;
     arp_next := arp_next s; waiting := waiting s; pings := pings s; next_sequence := next_sequence s; bindings := bindings s;
     mappings := mappings s; next_identification := v; control := control s; connections := connections s;
     listeners := listeners s; timer_armed := timer_armed s; next_port := next_port s; dhcp := dhcp s;
     dhcp_waited := dhcp_waited s; transaction := transaction s; offered := offered s; dhcp_server := dhcp_server s;
     offered_dns := offered_dns s; config_waiters := config_waiters s; dns_server := dns_server s; dns_port := dns_port s;
     resolves := resolves s; dns_local_port := dns_local_port s; link_local := link_local s; global6 := global6 s;
     router6 := router6 s; dns6 := dns6 s; solicited := solicited s; solicit_waited := solicit_waited s;
     config6_waiters := config6_waiters s; memory := memory s; drawn := drawn s; output := output s |}.
Definition set_connections (v : list Connection) (s : Stack) : Stack :=
  {| mac := mac s; address := address s; gateway := gateway s; netmask := netmask s; arp_table := arp_table s;
     arp_next := arp_next s; waiting := waiting s; pings := pings s; next_sequence := next_sequence s; bindings := bindings s;
     mappings := mappings s; next_identification := next_identification s; control := control s; connections := v;
     listeners := listeners s; timer_armed := timer_armed s; next_port := next_port s; dhcp := dhcp s;
     dhcp_waited := dhcp_waited s; transaction := transaction s; offered := offered s; dhcp_server := dhcp_server s;
     offered_dns := offered_dns s; config_waiters := config_waiters s; dns_server := dns_server s; dns_port := dns_port s;
     resolves := resolves s; dns_local_port := dns_local_port s; link_local := link_local s; global6 := global6 s;
     router6 := router6 s; dns6 := dns6 s; solicited := solicited s; solicit_waited := solicit_waited s;
     config6_waiters := config6_waiters s; memory := memory s; drawn := drawn s; output := output s |}.
Definition set_listeners (v : list Listener) (s : Stack) : Stack :=
  {| mac := mac s; address := address s; gateway := gateway s; netmask := netmask s; arp_table := arp_table s;
     arp_next := arp_next s; waiting := waiting s; pings := pings s; next_sequence := next_sequence s; bindings := bindings s;
     mappings := mappings s; next_identification := next_identification s; control := control s; connections := connections s;
     listeners := v; timer_armed := timer_armed s; next_port := next_port s; dhcp := dhcp s; dhcp_waited := dhcp_waited s;
     transaction := transaction s; offered := offered s; dhcp_server := dhcp_server s; offered_dns := offered_dns s;
     config_waiters := config_waiters s; dns_server := dns_server s; dns_port := dns_port s; resolves := resolves s;
     dns_local_port := dns_local_port s; link_local := link_local s; global6 := global6 s; router6 := router6 s;
     dns6 := dns6 s; solicited := solicited s; solicit_waited := solicit_waited s; config6_waiters := config6_waiters s;
     memory := memory s; drawn := drawn s; output := output s |}.
Definition set_timer_armed (v : bool) (s : Stack) : Stack :=
  {| mac := mac s; address := address s; gateway := gateway s; netmask := netmask s; arp_table := arp_table s;
     arp_next := arp_next s; waiting := waiting s; pings := pings s; next_sequence := next_sequence s; bindings := bindings s;
     mappings := mappings s; next_identification := next_identification s; control := control s; connections := connections s;
     listeners := listeners s; timer_armed := v; next_port := next_port s; dhcp := dhcp s; dhcp_waited := dhcp_waited s;
     transaction := transaction s; offered := offered s; dhcp_server := dhcp_server s; offered_dns := offered_dns s;
     config_waiters := config_waiters s; dns_server := dns_server s; dns_port := dns_port s; resolves := resolves s;
     dns_local_port := dns_local_port s; link_local := link_local s; global6 := global6 s; router6 := router6 s;
     dns6 := dns6 s; solicited := solicited s; solicit_waited := solicit_waited s; config6_waiters := config6_waiters s;
     memory := memory s; drawn := drawn s; output := output s |}.
Definition set_next_port (v : Z) (s : Stack) : Stack :=
  {| mac := mac s; address := address s; gateway := gateway s; netmask := netmask s; arp_table := arp_table s;
     arp_next := arp_next s; waiting := waiting s; pings := pings s; next_sequence := next_sequence s; bindings := bindings s;
     mappings := mappings s; next_identification := next_identification s; control := control s; connections := connections s;
     listeners := listeners s; timer_armed := timer_armed s; next_port := v; dhcp := dhcp s; dhcp_waited := dhcp_waited s;
     transaction := transaction s; offered := offered s; dhcp_server := dhcp_server s; offered_dns := offered_dns s;
     config_waiters := config_waiters s; dns_server := dns_server s; dns_port := dns_port s; resolves := resolves s;
     dns_local_port := dns_local_port s; link_local := link_local s; global6 := global6 s; router6 := router6 s;
     dns6 := dns6 s; solicited := solicited s; solicit_waited := solicit_waited s; config6_waiters := config6_waiters s;
     memory := memory s; drawn := drawn s; output := output s |}.
Definition set_dhcp (v : Dhcp) (s : Stack) : Stack :=
  {| mac := mac s; address := address s; gateway := gateway s; netmask := netmask s; arp_table := arp_table s;
     arp_next := arp_next s; waiting := waiting s; pings := pings s; next_sequence := next_sequence s; bindings := bindings s;
     mappings := mappings s; next_identification := next_identification s; control := control s; connections := connections s;
     listeners := listeners s; timer_armed := timer_armed s; next_port := next_port s; dhcp := v;
     dhcp_waited := dhcp_waited s; transaction := transaction s; offered := offered s; dhcp_server := dhcp_server s;
     offered_dns := offered_dns s; config_waiters := config_waiters s; dns_server := dns_server s; dns_port := dns_port s;
     resolves := resolves s; dns_local_port := dns_local_port s; link_local := link_local s; global6 := global6 s;
     router6 := router6 s; dns6 := dns6 s; solicited := solicited s; solicit_waited := solicit_waited s;
     config6_waiters := config6_waiters s; memory := memory s; drawn := drawn s; output := output s |}.
Definition set_dhcp_waited (v : Z) (s : Stack) : Stack :=
  {| mac := mac s; address := address s; gateway := gateway s; netmask := netmask s; arp_table := arp_table s;
     arp_next := arp_next s; waiting := waiting s; pings := pings s; next_sequence := next_sequence s; bindings := bindings s;
     mappings := mappings s; next_identification := next_identification s; control := control s; connections := connections s;
     listeners := listeners s; timer_armed := timer_armed s; next_port := next_port s; dhcp := dhcp s; dhcp_waited := v;
     transaction := transaction s; offered := offered s; dhcp_server := dhcp_server s; offered_dns := offered_dns s;
     config_waiters := config_waiters s; dns_server := dns_server s; dns_port := dns_port s; resolves := resolves s;
     dns_local_port := dns_local_port s; link_local := link_local s; global6 := global6 s; router6 := router6 s;
     dns6 := dns6 s; solicited := solicited s; solicit_waited := solicit_waited s; config6_waiters := config6_waiters s;
     memory := memory s; drawn := drawn s; output := output s |}.
Definition set_transaction (v : Z) (s : Stack) : Stack :=
  {| mac := mac s; address := address s; gateway := gateway s; netmask := netmask s; arp_table := arp_table s;
     arp_next := arp_next s; waiting := waiting s; pings := pings s; next_sequence := next_sequence s; bindings := bindings s;
     mappings := mappings s; next_identification := next_identification s; control := control s; connections := connections s;
     listeners := listeners s; timer_armed := timer_armed s; next_port := next_port s; dhcp := dhcp s;
     dhcp_waited := dhcp_waited s; transaction := v; offered := offered s; dhcp_server := dhcp_server s;
     offered_dns := offered_dns s; config_waiters := config_waiters s; dns_server := dns_server s; dns_port := dns_port s;
     resolves := resolves s; dns_local_port := dns_local_port s; link_local := link_local s; global6 := global6 s;
     router6 := router6 s; dns6 := dns6 s; solicited := solicited s; solicit_waited := solicit_waited s;
     config6_waiters := config6_waiters s; memory := memory s; drawn := drawn s; output := output s |}.
Definition set_offered (v : Z) (s : Stack) : Stack :=
  {| mac := mac s; address := address s; gateway := gateway s; netmask := netmask s; arp_table := arp_table s;
     arp_next := arp_next s; waiting := waiting s; pings := pings s; next_sequence := next_sequence s; bindings := bindings s;
     mappings := mappings s; next_identification := next_identification s; control := control s; connections := connections s;
     listeners := listeners s; timer_armed := timer_armed s; next_port := next_port s; dhcp := dhcp s;
     dhcp_waited := dhcp_waited s; transaction := transaction s; offered := v; dhcp_server := dhcp_server s;
     offered_dns := offered_dns s; config_waiters := config_waiters s; dns_server := dns_server s; dns_port := dns_port s;
     resolves := resolves s; dns_local_port := dns_local_port s; link_local := link_local s; global6 := global6 s;
     router6 := router6 s; dns6 := dns6 s; solicited := solicited s; solicit_waited := solicit_waited s;
     config6_waiters := config6_waiters s; memory := memory s; drawn := drawn s; output := output s |}.
Definition set_dhcp_server (v : Z) (s : Stack) : Stack :=
  {| mac := mac s; address := address s; gateway := gateway s; netmask := netmask s; arp_table := arp_table s;
     arp_next := arp_next s; waiting := waiting s; pings := pings s; next_sequence := next_sequence s; bindings := bindings s;
     mappings := mappings s; next_identification := next_identification s; control := control s; connections := connections s;
     listeners := listeners s; timer_armed := timer_armed s; next_port := next_port s; dhcp := dhcp s;
     dhcp_waited := dhcp_waited s; transaction := transaction s; offered := offered s; dhcp_server := v;
     offered_dns := offered_dns s; config_waiters := config_waiters s; dns_server := dns_server s; dns_port := dns_port s;
     resolves := resolves s; dns_local_port := dns_local_port s; link_local := link_local s; global6 := global6 s;
     router6 := router6 s; dns6 := dns6 s; solicited := solicited s; solicit_waited := solicit_waited s;
     config6_waiters := config6_waiters s; memory := memory s; drawn := drawn s; output := output s |}.
Definition set_offered_dns (v : Z) (s : Stack) : Stack :=
  {| mac := mac s; address := address s; gateway := gateway s; netmask := netmask s; arp_table := arp_table s;
     arp_next := arp_next s; waiting := waiting s; pings := pings s; next_sequence := next_sequence s; bindings := bindings s;
     mappings := mappings s; next_identification := next_identification s; control := control s; connections := connections s;
     listeners := listeners s; timer_armed := timer_armed s; next_port := next_port s; dhcp := dhcp s;
     dhcp_waited := dhcp_waited s; transaction := transaction s; offered := offered s; dhcp_server := dhcp_server s;
     offered_dns := v; config_waiters := config_waiters s; dns_server := dns_server s; dns_port := dns_port s;
     resolves := resolves s; dns_local_port := dns_local_port s; link_local := link_local s; global6 := global6 s;
     router6 := router6 s; dns6 := dns6 s; solicited := solicited s; solicit_waited := solicit_waited s;
     config6_waiters := config6_waiters s; memory := memory s; drawn := drawn s; output := output s |}.
Definition set_config_waiters (v : list Z) (s : Stack) : Stack :=
  {| mac := mac s; address := address s; gateway := gateway s; netmask := netmask s; arp_table := arp_table s;
     arp_next := arp_next s; waiting := waiting s; pings := pings s; next_sequence := next_sequence s; bindings := bindings s;
     mappings := mappings s; next_identification := next_identification s; control := control s; connections := connections s;
     listeners := listeners s; timer_armed := timer_armed s; next_port := next_port s; dhcp := dhcp s;
     dhcp_waited := dhcp_waited s; transaction := transaction s; offered := offered s; dhcp_server := dhcp_server s;
     offered_dns := offered_dns s; config_waiters := v; dns_server := dns_server s; dns_port := dns_port s;
     resolves := resolves s; dns_local_port := dns_local_port s; link_local := link_local s; global6 := global6 s;
     router6 := router6 s; dns6 := dns6 s; solicited := solicited s; solicit_waited := solicit_waited s;
     config6_waiters := config6_waiters s; memory := memory s; drawn := drawn s; output := output s |}.
Definition set_dns_server (v : list Z) (s : Stack) : Stack :=
  {| mac := mac s; address := address s; gateway := gateway s; netmask := netmask s; arp_table := arp_table s;
     arp_next := arp_next s; waiting := waiting s; pings := pings s; next_sequence := next_sequence s; bindings := bindings s;
     mappings := mappings s; next_identification := next_identification s; control := control s; connections := connections s;
     listeners := listeners s; timer_armed := timer_armed s; next_port := next_port s; dhcp := dhcp s;
     dhcp_waited := dhcp_waited s; transaction := transaction s; offered := offered s; dhcp_server := dhcp_server s;
     offered_dns := offered_dns s; config_waiters := config_waiters s; dns_server := v; dns_port := dns_port s;
     resolves := resolves s; dns_local_port := dns_local_port s; link_local := link_local s; global6 := global6 s;
     router6 := router6 s; dns6 := dns6 s; solicited := solicited s; solicit_waited := solicit_waited s;
     config6_waiters := config6_waiters s; memory := memory s; drawn := drawn s; output := output s |}.
Definition set_dns_port (v : Z) (s : Stack) : Stack :=
  {| mac := mac s; address := address s; gateway := gateway s; netmask := netmask s; arp_table := arp_table s;
     arp_next := arp_next s; waiting := waiting s; pings := pings s; next_sequence := next_sequence s; bindings := bindings s;
     mappings := mappings s; next_identification := next_identification s; control := control s; connections := connections s;
     listeners := listeners s; timer_armed := timer_armed s; next_port := next_port s; dhcp := dhcp s;
     dhcp_waited := dhcp_waited s; transaction := transaction s; offered := offered s; dhcp_server := dhcp_server s;
     offered_dns := offered_dns s; config_waiters := config_waiters s; dns_server := dns_server s; dns_port := v;
     resolves := resolves s; dns_local_port := dns_local_port s; link_local := link_local s; global6 := global6 s;
     router6 := router6 s; dns6 := dns6 s; solicited := solicited s; solicit_waited := solicit_waited s;
     config6_waiters := config6_waiters s; memory := memory s; drawn := drawn s; output := output s |}.
Definition set_resolves (v : list Resolve) (s : Stack) : Stack :=
  {| mac := mac s; address := address s; gateway := gateway s; netmask := netmask s; arp_table := arp_table s;
     arp_next := arp_next s; waiting := waiting s; pings := pings s; next_sequence := next_sequence s; bindings := bindings s;
     mappings := mappings s; next_identification := next_identification s; control := control s; connections := connections s;
     listeners := listeners s; timer_armed := timer_armed s; next_port := next_port s; dhcp := dhcp s;
     dhcp_waited := dhcp_waited s; transaction := transaction s; offered := offered s; dhcp_server := dhcp_server s;
     offered_dns := offered_dns s; config_waiters := config_waiters s; dns_server := dns_server s; dns_port := dns_port s;
     resolves := v; dns_local_port := dns_local_port s; link_local := link_local s; global6 := global6 s;
     router6 := router6 s; dns6 := dns6 s; solicited := solicited s; solicit_waited := solicit_waited s;
     config6_waiters := config6_waiters s; memory := memory s; drawn := drawn s; output := output s |}.
Definition set_global6 (v : list Z) (s : Stack) : Stack :=
  {| mac := mac s; address := address s; gateway := gateway s; netmask := netmask s; arp_table := arp_table s;
     arp_next := arp_next s; waiting := waiting s; pings := pings s; next_sequence := next_sequence s; bindings := bindings s;
     mappings := mappings s; next_identification := next_identification s; control := control s; connections := connections s;
     listeners := listeners s; timer_armed := timer_armed s; next_port := next_port s; dhcp := dhcp s;
     dhcp_waited := dhcp_waited s; transaction := transaction s; offered := offered s; dhcp_server := dhcp_server s;
     offered_dns := offered_dns s; config_waiters := config_waiters s; dns_server := dns_server s; dns_port := dns_port s;
     resolves := resolves s; dns_local_port := dns_local_port s; link_local := link_local s; global6 := v;
     router6 := router6 s; dns6 := dns6 s; solicited := solicited s; solicit_waited := solicit_waited s;
     config6_waiters := config6_waiters s; memory := memory s; drawn := drawn s; output := output s |}.
Definition set_router6 (v : list Z) (s : Stack) : Stack :=
  {| mac := mac s; address := address s; gateway := gateway s; netmask := netmask s; arp_table := arp_table s;
     arp_next := arp_next s; waiting := waiting s; pings := pings s; next_sequence := next_sequence s; bindings := bindings s;
     mappings := mappings s; next_identification := next_identification s; control := control s; connections := connections s;
     listeners := listeners s; timer_armed := timer_armed s; next_port := next_port s; dhcp := dhcp s;
     dhcp_waited := dhcp_waited s; transaction := transaction s; offered := offered s; dhcp_server := dhcp_server s;
     offered_dns := offered_dns s; config_waiters := config_waiters s; dns_server := dns_server s; dns_port := dns_port s;
     resolves := resolves s; dns_local_port := dns_local_port s; link_local := link_local s; global6 := global6 s;
     router6 := v; dns6 := dns6 s; solicited := solicited s; solicit_waited := solicit_waited s;
     config6_waiters := config6_waiters s; memory := memory s; drawn := drawn s; output := output s |}.
Definition set_dns6 (v : list Z) (s : Stack) : Stack :=
  {| mac := mac s; address := address s; gateway := gateway s; netmask := netmask s; arp_table := arp_table s;
     arp_next := arp_next s; waiting := waiting s; pings := pings s; next_sequence := next_sequence s; bindings := bindings s;
     mappings := mappings s; next_identification := next_identification s; control := control s; connections := connections s;
     listeners := listeners s; timer_armed := timer_armed s; next_port := next_port s; dhcp := dhcp s;
     dhcp_waited := dhcp_waited s; transaction := transaction s; offered := offered s; dhcp_server := dhcp_server s;
     offered_dns := offered_dns s; config_waiters := config_waiters s; dns_server := dns_server s; dns_port := dns_port s;
     resolves := resolves s; dns_local_port := dns_local_port s; link_local := link_local s; global6 := global6 s;
     router6 := router6 s; dns6 := v; solicited := solicited s; solicit_waited := solicit_waited s;
     config6_waiters := config6_waiters s; memory := memory s; drawn := drawn s; output := output s |}.
Definition set_solicited (v : Z) (s : Stack) : Stack :=
  {| mac := mac s; address := address s; gateway := gateway s; netmask := netmask s; arp_table := arp_table s;
     arp_next := arp_next s; waiting := waiting s; pings := pings s; next_sequence := next_sequence s; bindings := bindings s;
     mappings := mappings s; next_identification := next_identification s; control := control s; connections := connections s;
     listeners := listeners s; timer_armed := timer_armed s; next_port := next_port s; dhcp := dhcp s;
     dhcp_waited := dhcp_waited s; transaction := transaction s; offered := offered s; dhcp_server := dhcp_server s;
     offered_dns := offered_dns s; config_waiters := config_waiters s; dns_server := dns_server s; dns_port := dns_port s;
     resolves := resolves s; dns_local_port := dns_local_port s; link_local := link_local s; global6 := global6 s;
     router6 := router6 s; dns6 := dns6 s; solicited := v; solicit_waited := solicit_waited s;
     config6_waiters := config6_waiters s; memory := memory s; drawn := drawn s; output := output s |}.
Definition set_solicit_waited (v : Z) (s : Stack) : Stack :=
  {| mac := mac s; address := address s; gateway := gateway s; netmask := netmask s; arp_table := arp_table s;
     arp_next := arp_next s; waiting := waiting s; pings := pings s; next_sequence := next_sequence s; bindings := bindings s;
     mappings := mappings s; next_identification := next_identification s; control := control s; connections := connections s;
     listeners := listeners s; timer_armed := timer_armed s; next_port := next_port s; dhcp := dhcp s;
     dhcp_waited := dhcp_waited s; transaction := transaction s; offered := offered s; dhcp_server := dhcp_server s;
     offered_dns := offered_dns s; config_waiters := config_waiters s; dns_server := dns_server s; dns_port := dns_port s;
     resolves := resolves s; dns_local_port := dns_local_port s; link_local := link_local s; global6 := global6 s;
     router6 := router6 s; dns6 := dns6 s; solicited := solicited s; solicit_waited := v;
     config6_waiters := config6_waiters s; memory := memory s; drawn := drawn s; output := output s |}.
Definition set_config6_waiters (v : list Z) (s : Stack) : Stack :=
  {| mac := mac s; address := address s; gateway := gateway s; netmask := netmask s; arp_table := arp_table s;
     arp_next := arp_next s; waiting := waiting s; pings := pings s; next_sequence := next_sequence s; bindings := bindings s;
     mappings := mappings s; next_identification := next_identification s; control := control s; connections := connections s;
     listeners := listeners s; timer_armed := timer_armed s; next_port := next_port s; dhcp := dhcp s;
     dhcp_waited := dhcp_waited s; transaction := transaction s; offered := offered s; dhcp_server := dhcp_server s;
     offered_dns := offered_dns s; config_waiters := config_waiters s; dns_server := dns_server s; dns_port := dns_port s;
     resolves := resolves s; dns_local_port := dns_local_port s; link_local := link_local s; global6 := global6 s;
     router6 := router6 s; dns6 := dns6 s; solicited := solicited s; solicit_waited := solicit_waited s; config6_waiters := v;
     memory := memory s; drawn := drawn s; output := output s |}.
Definition set_memory (v : gmap Z (list Z)) (s : Stack) : Stack :=
  {| mac := mac s; address := address s; gateway := gateway s; netmask := netmask s; arp_table := arp_table s;
     arp_next := arp_next s; waiting := waiting s; pings := pings s; next_sequence := next_sequence s; bindings := bindings s;
     mappings := mappings s; next_identification := next_identification s; control := control s; connections := connections s;
     listeners := listeners s; timer_armed := timer_armed s; next_port := next_port s; dhcp := dhcp s;
     dhcp_waited := dhcp_waited s; transaction := transaction s; offered := offered s; dhcp_server := dhcp_server s;
     offered_dns := offered_dns s; config_waiters := config_waiters s; dns_server := dns_server s; dns_port := dns_port s;
     resolves := resolves s; dns_local_port := dns_local_port s; link_local := link_local s; global6 := global6 s;
     router6 := router6 s; dns6 := dns6 s; solicited := solicited s; solicit_waited := solicit_waited s;
     config6_waiters := config6_waiters s; memory := v; drawn := drawn s; output := output s |}.
Definition set_drawn (v : nat) (s : Stack) : Stack :=
  {| mac := mac s; address := address s; gateway := gateway s; netmask := netmask s; arp_table := arp_table s;
     arp_next := arp_next s; waiting := waiting s; pings := pings s; next_sequence := next_sequence s; bindings := bindings s;
     mappings := mappings s; next_identification := next_identification s; control := control s; connections := connections s;
     listeners := listeners s; timer_armed := timer_armed s; next_port := next_port s; dhcp := dhcp s;
     dhcp_waited := dhcp_waited s; transaction := transaction s; offered := offered s; dhcp_server := dhcp_server s;
     offered_dns := offered_dns s; config_waiters := config_waiters s; dns_server := dns_server s; dns_port := dns_port s;
     resolves := resolves s; dns_local_port := dns_local_port s; link_local := link_local s; global6 := global6 s;
     router6 := router6 s; dns6 := dns6 s; solicited := solicited s; solicit_waited := solicit_waited s;
     config6_waiters := config6_waiters s; memory := memory s; drawn := v; output := output s |}.
Definition set_output (v : list Output) (s : Stack) : Stack :=
  {| mac := mac s; address := address s; gateway := gateway s; netmask := netmask s; arp_table := arp_table s;
     arp_next := arp_next s; waiting := waiting s; pings := pings s; next_sequence := next_sequence s; bindings := bindings s;
     mappings := mappings s; next_identification := next_identification s; control := control s; connections := connections s;
     listeners := listeners s; timer_armed := timer_armed s; next_port := next_port s; dhcp := dhcp s;
     dhcp_waited := dhcp_waited s; transaction := transaction s; offered := offered s; dhcp_server := dhcp_server s;
     offered_dns := offered_dns s; config_waiters := config_waiters s; dns_server := dns_server s; dns_port := dns_port s;
     resolves := resolves s; dns_local_port := dns_local_port s; link_local := link_local s; global6 := global6 s;
     router6 := router6 s; dns6 := dns6 s; solicited := solicited s; solicit_waited := solicit_waited s;
     config6_waiters := config6_waiters s; memory := memory s; drawn := drawn s; output := v |}.

(** *** The environment *)

(** What the kernel answers while a handler runs: random numbers, where and with what
    contents a buffer is mapped beside the ones that are, whether it describes it, whether a
    timer can be had. *)
Class Kernel : Type := {
  random_at : nat -> Z;
  grant : gmap Z (list Z) -> Z -> option (Z * list Z);
  describes : Z -> bool;
  timer_ok : bool;
}.

(** A buffer is mapped at an address of its own, never at zero, within the lower half. *)
Class KernelLaw `{Kernel} : Prop := {
  grant_fresh : forall mem handle base bytes, grant mem handle = Some (base, bytes) -> 0 < base /\ mem !! base = None /\ Z.of_nat (length bytes) < 2 ^ 47;
}.

Abbreviation N := (M Stack Empty_set).

Definition field {A} (f : Stack -> A) : N A := fun s => (Ok (f s), s).
Definition emit (o : Output) : N unit := modify (fun s => set_output (output s ++ [o]) s).

(** [user::net_send] and [user::ipc_send] *)
Definition net_send (bytes : list Z) : N unit := emit (Frame bytes).
Definition ipc_send (endpoint tag : Z) (words : list Z) : N unit := emit (Tell endpoint tag words).

(** [.iter().position(..)] *)
Fixpoint position {A} (P : A -> bool) (l : list A) : option nat :=
  match l with
  | [] => None
  | x :: rest => if P x then Some O else S <$> position P rest
  end.

Definition same_ip (a b : list Z) : bool := bool_decide (a = b).

(** *** Clients' buffers *)

Definition read_buffer (base : Z) (offset len : nat) : N (list Z) := fun s =>
  if (len =? 0)%nat then (Ok [], s)
  else match memory s !! base with
       | Some bytes => if (offset + len <=? length bytes)%nat then (Ok (take len (drop offset bytes)), s) else (Panic, s)
       | None => (Panic, s)
       end.

Definition write_buffer (base : Z) (offset : nat) (x : list Z) : N unit := fun s =>
  if (length x =? 0)%nat then (Ok tt, s)
  else match memory s !! base with
       | Some bytes => if (offset + length x <=? length bytes)%nat then (Ok tt, set_memory (<[base := overwrite offset x bytes]> (memory s)) s) else (Panic, s)
       | None => (Panic, s)
       end.

Section Stack.
Context `{Kernel}.

Definition random_u64 : N Z := fun s => (Ok (random_at (drawn s) mod 2 ^ 64), set_drawn (S (drawn s)) s).

(** ** Sending *)

(** [frame[..frame.len()]] of a free slot's buffer is overwritten; longer frames cannot be. *)
Definition park (frame : list Z) (next_hop : list Z) : N unit :=
  slots ← field waiting;
  match position (fun w => same_ip (w_next_hop w) UNSPECIFIED) slots with
  | Some i =>
      match slots !! i with
      | Some w => bytes ← copy_at 0 frame (w_frame w);
                  modify (set_waiting (<[i := {| w_frame := bytes; w_length := length frame; w_next_hop := next_hop |}]> slots))
      | None => panic
      end
  | None => mret tt
  end.

Definition request_mac (v4 : Z) : N unit :=
  me ← field mac; own ← field address;
  bytes ← copies [(0%nat, BROADCAST); (6%nat, me); (12%nat, be16 ETHERTYPE_ARP); (14%nat, [0; 1; 8; 0; 6; 4; 0; 1]); (22%nat, me);
                  (28%nat, be32 own); (38%nat, be32 v4)] (replicate 42 0);
  net_send bytes.

Definition find_mac (ip : list Z) (table : list (list Z * list Z)) : option (list Z) :=
  i ← position (fun e => same_ip e.1 ip) table; snd <$> table !! i.

(** The IPv4 header, [frame[14..34]]. *)
Definition ipv4_header (identification own destination protocol total : Z) : N (list Z) :=
  ip ← copies [(0%nat, [0x45]); (2%nat, be16 (total mod 65536)); (4%nat, be16 identification); (6%nat, be16 0x4000); (8%nat, [64]); (9%nat, [protocol]);
               (12%nat, be32 own); (16%nat, be32 destination)] (replicate 20 0);
  copy_at 10 (be16 (checksum ip)) ip.

Definition ipv4_next_hop (s : Stack) (destination : Z) : list Z :=
  mapped (if Z.land destination (netmask s) =? Z.land (address s) (netmask s) then destination else gateway s).

Definition send_ipv4 (destination protocol : Z) (payload : list Z) : N unit :=
  let total := (20 + length payload)%nat in
  if (MAX_FRAME <? 14 + total)%nat then mret tt else
  me ← field mac; own ← field address; identification ← field next_identification;
  frame ← copies [(6%nat, me); (12%nat, be16 ETHERTYPE_IPV4)] (replicate MAX_FRAME 0);
  modify (set_next_identification ((identification + 1) mod 65536)) ;;
  ip ← ipv4_header identification own destination protocol (Z.of_nat total);
  frame ← copies [(14%nat, ip); (34%nat, payload)] frame;
  let length := (14 + total)%nat in
  if destination =? U32_MAX then frame ← copy_at 0 BROADCAST frame; bytes ← range frame 0 length; net_send bytes else
  s ← get;
  let next_hop := ipv4_next_hop s destination in
  match find_mac next_hop (arp_table s) with
  | Some to => frame ← copy_at 0 to frame; bytes ← range frame 0 length; net_send bytes
  | None =>
      bytes ← range frame 0 length;
      park bytes next_hop ;;
      match as_v4 next_hop with Some v4 => request_mac v4 | None => mret tt end
  end.

Definition source_for (s : Stack) (destination : list Z) : list Z :=
  if as_v4 destination then mapped (address s)
  else if is_link_local destination || (ip_byte destination 0 =? 255) || same_ip (global6 s) UNSPECIFIED then link_local s
  else global6 s.

(** [send_icmpv6] over a given way to send: the checksum in place. *)
Definition icmpv6_message (s : Stack) (destination message : list Z) : N (list Z) :=
  message ← copy_at 2 [0; 0] message;
  copy_at 2 (be16 (transport_checksum PROTOCOL_ICMPV6 (source_for s destination) destination message)) message.

(** [send_ipv6]; a frame for an unknown neighbour asks for it with another [send_ipv6], to
    a multicast group, which needs no neighbour: two levels are enough. *)
Fixpoint send_ipv6_deep (depth : nat) (destination : list Z) (next_header : Z) (payload : list Z) : N unit :=
  match depth with
  | O => panic
  | S depth =>
      let length := (54 + length payload)%nat in
      if (MAX_FRAME <? length)%nat then mret tt else
      s ← get;
      frame ← copies [(6%nat, mac s); (12%nat, be16 ETHERTYPE_IPV6); (14%nat, [0x60]); (18%nat, be16 (Z.of_nat (List.length payload) mod 65536)); (20%nat, [next_header]);
                      (21%nat, [255]); (22%nat, source_for s destination); (38%nat, destination); (54%nat, payload)] (replicate MAX_FRAME 0);
      if ip_byte destination 0 =? 255 then
        group ← from destination 12;
        frame ← copies [(0%nat, [0x33; 0x33]); (2%nat, group)] frame; bytes ← range frame 0 length; net_send bytes else
      let on_link := is_link_local destination || (negb (same_ip (global6 s) UNSPECIFIED) && bool_decide (take 8 destination = take 8 (global6 s))) in
      let next_hop := if on_link : bool then destination else router6 s in
      if same_ip next_hop UNSPECIFIED then mret tt else
      match find_mac next_hop (arp_table s) with
      | Some to => frame ← copy_at 0 to frame; bytes ← range frame 0 length; net_send bytes
      | None =>
          bytes ← range frame 0 length;
          park bytes next_hop ;;
          (* solicit_neighbour *)
          solicitation ← copies [(0%nat, [135]); (8%nat, next_hop); (24%nat, [1; 1]); (26%nat, mac s)] (replicate 32 0);
          message ← icmpv6_message s (solicited_node next_hop) solicitation;
          send_ipv6_deep depth (solicited_node next_hop) PROTOCOL_ICMPV6 message
      end
  end.

Definition send_ipv6 (destination : list Z) (next_header : Z) (payload : list Z) : N unit := send_ipv6_deep 2 destination next_header payload.

Definition send_icmpv6 (destination message : list Z) : N unit :=
  s ← get; message ← icmpv6_message s destination message; send_ipv6 destination PROTOCOL_ICMPV6 message.

Definition send_ip (destination : list Z) (protocol : Z) (payload : list Z) : N unit :=
  match as_v4 destination with Some v4 => send_ipv4 v4 protocol payload | None => send_ipv6 destination protocol payload end.

Definition send_udp_datagram (destination datagram : list Z) : N unit :=
  datagram ← copy_at 6 [0; 0] datagram;
  s ← get;
  let sum := match transport_checksum PROTOCOL_UDP (source_for s destination) destination datagram with 0 => 65535 | sum => sum end in
  datagram ← copy_at 6 (be16 sum) datagram;
  send_ip destination PROTOCOL_UDP datagram.

Definition send_datagram (destination : list Z) (local remote : Z) (payload : list Z) : N unit :=
  let length := (8 + length payload)%nat in
  datagram ← copies [(0%nat, be16 local); (2%nat, be16 remote); (4%nat, be16 (Z.of_nat length mod 65536)); (8%nat, payload)] (replicate 520 0);
  datagram ← range datagram 0 length;
  send_udp_datagram destination datagram.

Definition solicit_router : N unit :=
  me ← field mac;
  solicitation ← copies [(0%nat, [133]); (8%nat, [1; 1]); (10%nat, me)] (replicate 16 0);
  send_icmpv6 ALL_ROUTERS solicitation.

Definition in_flight (c : Connection) : bool := negb (bool_decide (state c = Free)) && negb (unacknowledged c =? next_send c).

Definition arm_timer : N unit :=
  s ← get;
  let waiting := existsb in_flight (connections s) || negb (bool_decide (dhcp s = Done)) || existsb (fun r => negb (r_id r =? 0)) (resolves s)
                 || (same_ip (global6 s) UNSPECIFIED && (solicited s <? SOLICITATIONS)) in
  if waiting && negb (timer_armed s) && timer_ok then emit SetTimer ;; modify (set_timer_armed true) else mret tt.

(** ** TCP *)

(** [self.connections[index]] *)
Definition connection (index : nat) : N Connection := fun s =>
  match connections s !! index with Some c => (Ok c, s) | None => (Panic, s) end.
Definition on_connection (index : nat) (f : Connection -> Connection) : N unit :=
  c ← connection index; modify (fun s => set_connections (<[index := f c]> (connections s)) s).

Definition has (flags bit : Z) : bool := negb (Z.land flags bit =? 0).
Definition counts (flags : Z) : Z := if has flags (Z.lor SYN FIN) then 1 else 0.
Definition wrapping_add (a b : Z) : Z := (a + b) mod 2 ^ 32.

Definition mss (remote : list Z) : nat := if as_v4 remote then TCP_MSS else TCP_MSS_V6.

Definition segment (destination : list Z) (local_port remote_port sequence acknowledgement flags window : Z) (payload : list Z) : N unit :=
  let header := (if has flags SYN then 24 else 20)%nat in
  segment ← copies [(0%nat, be16 local_port); (2%nat, be16 remote_port); (4%nat, be32 sequence)] (replicate (24 + TCP_MSS) 0);
  segment ← (if has flags ACK then copy_at 8 (be32 acknowledgement) segment else mret segment);
  segment ← copies [(12%nat, [Z.shiftl (Z.of_nat header / 4) 4]); (13%nat, [flags]); (14%nat, be16 window)] segment;
  segment ← (if (header =? 24)%nat then copies [(20%nat, [2; 4]); (22%nat, be16 (Z.of_nat (mss destination)))] segment else mret segment);
  segment ← copy_at header payload segment;
  let length := (header + length payload)%nat in
  s ← get;
  bytes ← range segment 0 length;
  bytes ← copy_at 16 (be16 (transport_checksum PROTOCOL_TCP (source_for s destination) destination bytes)) bytes;
  send_ip destination PROTOCOL_TCP bytes.

(** [c.size as usize - c.filled] wraps. *)
Definition window_of (c : Connection) : Z := if delivered c then 0 else Z.min ((c_size c - filled c) mod 2 ^ 64) 65535.

Definition connection_segment (index : nat) (sequence flags : Z) (payload : list Z) : N unit :=
  c ← connection index;
  segment (remote c) (local_port c) (remote_port c) sequence (next_receive c) flags (window_of c) payload.

Definition send_ack (index : nat) : N unit := c ← connection index; connection_segment index (next_send c) ACK [].
Definition send_reset (index : nat) : N unit := c ← connection index; connection_segment index (next_send c) RST [].

Definition transmit (index : nat) : N unit :=
  c ← connection index;
  let flags := if bool_decide (state c = SynSent) then flight_flags c else Z.lor (flight_flags c) ACK in
  data ← read_buffer (flight_base c) 0 (Z.to_nat (flight_length c));
  payload ← copy_at 0 data (replicate TCP_MSS 0);
  payload ← range payload 0 (length data);
  connection_segment index (unacknowledged c) flags payload.

Definition start_flight (index : nat) (flags base length : Z) : N unit :=
  on_connection index (fun c =>
    set_retries 0 (set_timeout FIRST_RTO_TICKS (set_c_waited 0 (set_flight_length length (set_flight_base base (set_flight_flags flags
      (set_next_send (wrapping_add (next_send c) (length + counts flags)) (set_unacknowledged (next_send c) c)))))))) ;;
  transmit index ;;
  arm_timer.

Definition tell (index : nat) (tag : Z) (words : list Z) : N unit := c ← connection index; ipc_send (c_reply c) tag words.

Definition finish (index : nat) (reason : Z) : N unit :=
  tell index TAG_TCP_CLOSED [Z.of_nat index; reason; 0; 0] ;;
  on_connection index (fun _ => Connection_default).

Definition send_fin (index : nat) : N unit :=
  on_connection index (fun c => set_state (match state c with CloseWait => LastAck | _ => FinWait1 end) c) ;;
  start_flight index FIN 0 0.

Definition flight_landed (index : nat) : N unit :=
  c ← connection index;
  let flags := flight_flags c in let length := flight_length c in
  on_connection index (fun c => set_flight_length 0 (set_flight_flags 0 (set_unacknowledged (next_send c) c))) ;;
  if has flags FIN then
    match state c with
    | FinWait1 => on_connection index (set_state FinWait2)
    | Closing | LastAck => finish index CLOSED_FINISHED
    | _ => mret tt
    end
  else
    (if 0 <? length then tell index TAG_TCP_SENT [Z.of_nat index; length; 0; 0] else mret tt) ;;
    c ← connection index;
    match close_requested c, state c with
    | true, (Established | CloseWait) => on_connection index (set_close_requested false) ;; send_fin index
    | _, _ => mret tt
    end.

Definition word_of (ip : list Z) : Z := match as_v4 ip with Some v4 => v4 | None => IPV6 end.

Definition announce_open (index : nat) : N unit :=
  c ← connection index;
  (if negb (bool_decide (is_Some (as_v4 (remote c)))) && (16 <=? c_size c) then write_buffer (c_base c) 0 (remote c) else mret tt) ;;
  tell index TAG_TCP_OPEN [Z.of_nat index; word_of (remote c); remote_port c; local_port c].

Definition sequence_start : N Z := r ← random_u64; mret (r mod 2 ^ 32).

Definition new_connection (st : State) (owner reply : Z) (remote : list Z) (remote_port local_port base size start receive : Z) : Connection :=
  {| state := st; c_owner := owner; c_reply := reply; remote := remote; remote_port := remote_port; local_port := local_port; c_base := base; c_size := size;
     filled := 0; delivered := false; unacknowledged := start; next_send := start; next_receive := receive; flight_flags := 0; flight_base := 0;
     flight_length := 0; close_requested := false; c_waited := 0; timeout := 0; retries := 0 |}.

Definition is_free (c : Connection) : bool := bool_decide (state c = Free).

Definition accept (source : list Z) (remote_port local_port sequence : Z) : N bool :=
  s ← get;
  match position (fun l => (l_port l =? local_port) && negb (l_base l =? 0)) (listeners s), position is_free (connections s) with
  | Some listener, Some index =>
      match listeners s !! listener with
      | None => panic
      | Some l =>
          modify (set_listeners (<[listener := Listener_default]> (listeners s))) ;;
          start ← sequence_start;
          on_connection index (fun _ => new_connection SynReceived (l_owner l) (l_reply l) source remote_port local_port (l_base l) (l_size l) start (wrapping_add sequence 1)) ;;
          start_flight index SYN 0 0 ;;
          mret true
      end
  | _, _ => mret false
  end.

(** ** DHCP and DNS *)

Definition dhcp_send (kind : Z) : N unit :=
  s ← get;
  let options := [53; 1; kind] ++ (if kind =? DHCP_REQUEST then [50; 4] ++ be32 (offered s) ++ [54; 4] ++ be32 (dhcp_server s) else []) ++ [55; 3; 1; 3; 6; 255] in
  message ← copies [(0%nat, [1; 1; 6; 0]); (4%nat, be32 (transaction s)); (10%nat, be16 0x8000); (28%nat, mac s); (236%nat, DHCP_COOKIE); (240%nat, options)] (replicate 300 0);
  send_datagram (mapped U32_MAX) DHCP_CLIENT_PORT DHCP_SERVER_PORT message.

Definition configured (reply : Z) : N unit :=
  s ← get; ipc_send reply TAG_NET_CONFIGURED [address s; gateway s; netmask s; offered_dns s].

Fixpoint tell_waiters (answer : Z -> N unit) (l : list Z) : N unit :=
  match l with
  | [] => mret tt
  | waiter :: rest => (if waiter =? 0 then mret tt else answer waiter) ;; tell_waiters answer rest
  end.

(** What the options of a DHCP message say: kind, netmask, router, DNS server, server. *)
Record Offer : Type := { o_kind : Z; o_netmask : Z; o_router : Z; o_dns : Z; o_server : Z }.
Definition no_offer : Offer := {| o_kind := 0; o_netmask := 0; o_router := 0; o_dns := 0; o_server := 0 |}.

Definition dhcp_option (message : list Z) (code : Z) (length value : nat) (o : Offer) : N Offer :=
  if (code =? 53) && (length =? 1)%nat then v ← byte_at message value; mret {| o_kind := v; o_netmask := o_netmask o; o_router := o_router o; o_dns := o_dns o; o_server := o_server o |}
  else if (code =? 1) && (length =? 4)%nat then v ← read_u32 message value; mret {| o_kind := o_kind o; o_netmask := v; o_router := o_router o; o_dns := o_dns o; o_server := o_server o |}
  else if (code =? 3) && (4 <=? length)%nat then v ← read_u32 message value; mret {| o_kind := o_kind o; o_netmask := o_netmask o; o_router := v; o_dns := o_dns o; o_server := o_server o |}
  else if (code =? 6) && (4 <=? length)%nat then v ← read_u32 message value; mret {| o_kind := o_kind o; o_netmask := o_netmask o; o_router := o_router o; o_dns := v; o_server := o_server o |}
  else if (code =? 54) && (length =? 4)%nat then v ← read_u32 message value; mret {| o_kind := o_kind o; o_netmask := o_netmask o; o_router := o_router o; o_dns := o_dns o; o_server := v |}
  else mret o.

(** [while at + 1 < message.len() && message[at] != 255]; [None] when an option runs off the
    end.  Each turn advances, so the message's length bounds the turns. *)
Fixpoint dhcp_options (fuel : nat) (message : list Z) (at_ : nat) (o : Offer) : N (option Offer) :=
  match fuel with
  | O => panic
  | S fuel =>
      if (length message <=? at_ + 1)%nat then mret (Some o) else
      code ← byte_at message at_;
      if code =? 255 then mret (Some o) else
      if code =? 0 then dhcp_options fuel message (at_ + 1) o else
      len ← byte_at message (at_ + 1);
      let length := Z.to_nat len in let value := (at_ + 2)%nat in
      if (List.length message <? value + length)%nat then mret None else
      o ← dhcp_option message code length value o;
      dhcp_options fuel message (value + length) o
  end.

(** The last part of [dhcp_reply]. *)
Definition dhcp_act (message : list Z) (o : Offer) : N unit :=
  s ← get;
  match dhcp s with
  | Discovering =>
      if o_kind o =? DHCP_OFFER then
        v ← read_u32 message 16;
        modify (fun s => set_dhcp_waited 0 (set_dhcp Requesting (set_dhcp_server (o_server o) (set_offered v s)))) ;;
        dhcp_send DHCP_REQUEST
      else mret tt
  | Requesting =>
      if o_kind o =? DHCP_ACK then
        modify (fun s => set_offered_dns (o_dns o) (set_gateway (o_router o) (set_netmask (o_netmask o) (set_address (offered s) s)))) ;;
        (if (dns_port s =? 0) && negb (o_dns o =? 0) then modify (fun s => set_dns_port 53 (set_dns_server (mapped (o_dns o)) s)) else mret tt) ;;
        modify (set_dhcp Done) ;;
        waiters ← field config_waiters;
        modify (set_config_waiters (replicate CONFIG_WAITERS 0)) ;;
        tell_waiters configured waiters
      else if o_kind o =? DHCP_NAK then
        r ← random_u64;
        modify (fun s => set_dhcp_waited 0 (set_dhcp Discovering (set_transaction (r mod 2 ^ 32) s))) ;;
        dhcp_send DHCP_DISCOVER
      else mret tt
  | Done => mret tt
  end.

Definition dhcp_reply (message : list Z) : N unit :=
  if (length message <? 240)%nat then mret tt else
  op ← byte_at message 0; id ← read_u32 message 4; chaddr ← range message 28 34; cookie ← range message 236 240; s ← get;
  if negb (op =? 2) || negb (id =? transaction s) || negb (bool_decide (chaddr = mac s)) || negb (bool_decide (cookie = DHCP_COOKIE)) then mret tt else
  o ← dhcp_options (S (length message)) message 240 no_offer;
  match o with None => mret tt | Some o => dhcp_act message o end.

Definition dhcp_tick : N unit :=
  s ← get;
  if bool_decide (dhcp s = Done) then mret tt else
  modify (set_dhcp_waited (dhcp_waited s + 1)) ;;
  if REQUEST_TICKS <=? dhcp_waited s + 1 then
    modify (set_dhcp_waited 0) ;;
    dhcp_send (if bool_decide (dhcp s = Discovering) then DHCP_DISCOVER else DHCP_REQUEST)
  else mret tt.

(** [name.split(|byte| *byte == b'.')] *)
Fixpoint labels (name current : list Z) : list (list Z) :=
  match name with
  | [] => [current]
  | b :: rest => if b =? 46 then current :: labels rest [] else labels rest (current ++ [b])
  end.

(** The question: each label with its length, or [None] if one is not a label. *)
Fixpoint put_labels (l : list (list Z)) (at_ : nat) (query : list Z) : N (option (nat * list Z)) :=
  match l with
  | [] => mret (Some (at_, query))
  | label :: rest =>
      if (length label =? 0)%nat || (63 <? length label)%nat then mret None else
      query ← copies [(at_, [Z.of_nat (length label)]); ((at_ + 1)%nat, label)] query;
      put_labels rest (at_ + 1 + length label) query
  end.

Definition resolve_at (slot : nat) : N Resolve := fun s => match resolves s !! slot with Some r => (Ok r, s) | None => (Panic, s) end.
Definition on_resolve (slot : nat) (r : Resolve) : N unit := modify (fun s => set_resolves (<[slot := r]> (resolves s)) s).

Definition dns_query (slot : nat) : N bool :=
  lookup ← resolve_at slot;
  name ← read_buffer (r_base lookup) 0 (Z.to_nat (r_length lookup));
  query ← copies [(0%nat, be16 (r_id lookup)); (2%nat, be16 0x0100); (4%nat, be16 1)] (replicate 271 0);
  done ← put_labels (labels name []) 12 query;
  match done with
  | None => mret false
  | Some (at_, query) =>
      query ← copies [(at_, [0]); ((at_ + 1)%nat, be16 (r_kind lookup)); ((at_ + 3)%nat, [0; 1])] query;
      s ← get;
      bytes ← range query 0 (at_ + 5);
      send_datagram (dns_server s) ((dns_local_port s + Z.of_nat slot) mod 65536) (dns_port s) bytes ;;
      mret true
  end.

(** Offsets in an answer are numbers: a name that runs off the message leads far past it. *)
Definition FAR : Z := (2 ^ 64 - 1) / 2.

Fixpoint skip_name (fuel : nat) (message : list Z) (at_ : Z) : N Z :=
  match fuel with
  | O => panic
  | S fuel =>
      if Z.of_nat (length message) <=? at_ then mret FAR else
      b ← byte_at message (Z.to_nat at_);
      if b =? 0 then mret (at_ + 1)
      else if Z.land b 192 =? 192 then mret (at_ + 2)
      else skip_name fuel message (at_ + 1 + b)
  end.

Definition skip (message : list Z) (at_ : Z) : N Z := skip_name (S (length message)) message at_.

Fixpoint skip_questions (n : nat) (message : list Z) (at_ : Z) : N Z :=
  match n with
  | O => mret at_
  | S n => at_ ← skip message at_; skip_questions n message (at_ + 4)
  end.

(** The first answer of the kind asked for: its address word, an IPv6 one written to the
    client's buffer. *)
Fixpoint find_answer (n : nat) (lookup : Resolve) (message : list Z) (at_ : Z) : N (option Z) :=
  match n with
  | O => mret None
  | S n =>
      at_ ← skip message at_;
      if Z.of_nat (length message) <? at_ + 10 then mret None else
      let i := Z.to_nat at_ in
      len ← read_u16 message (i + 8); kind ← read_u16 message i; class ← read_u16 message (i + 2);
      let size := if r_kind lookup =? 1 then 4 else 16 in
      if (kind =? r_kind lookup) && (class =? 1) && (len =? size) && (at_ + 10 + size <=? Z.of_nat (length message)) then
        if size =? 4 then v ← read_u32 message (i + 10); mret (Some v)
        else bytes ← range message (i + 10) (i + 26); write_buffer (r_base lookup) 0 bytes ;; mret (Some IPV6)
      else find_answer n lookup message (at_ + 10 + len)
  end.

Definition dns_reply (slot : nat) (message : list Z) : N unit :=
  lookup ← resolve_at slot;
  if (length message <? 12)%nat then mret tt else
  id ← read_u16 message 0; response ← byte_at message 2;
  if negb (id =? r_id lookup) || (Z.land response 128 =? 0) then mret tt else
  flags ← byte_at message 3;
  let code := Z.land flags 15 in
  questions ← read_u16 message 4; answers ← read_u16 message 6;
  at_ ← skip_questions (Z.to_nat questions) message 12;
  found ← find_answer (Z.to_nat answers) lookup message at_;
  let '(v, status) := match found with
                      | Some v => if code =? 0 then (v, RESOLVE_FOUND) else (0, code)
                      | None => if code =? 0 then (0, RESOLVE_NO_ADDRESS) else (0, code)
                      end in
  on_resolve slot Resolve_default ;;
  ipc_send (r_reply lookup) TAG_RESOLVED [r_token lookup; v; status; 0].

Definition waited_more (r : Resolve) (waited tries : Z) : Resolve :=
  {| r_id := r_id r; r_kind := r_kind r; r_reply := r_reply r; r_token := r_token r; r_base := r_base r; r_length := r_length r; r_waited := waited; r_tries := tries |}.

Definition dns_tick_slot (slot : nat) : N unit :=
  r ← resolve_at slot;
  if r_id r =? 0 then mret tt else
  if r_waited r + 1 <? REQUEST_TICKS then on_resolve slot (waited_more r (r_waited r + 1) (r_tries r)) else
  if DNS_TRIES <? r_tries r + 1 then
    on_resolve slot Resolve_default ;;
    ipc_send (r_reply r) TAG_RESOLVED [r_token r; 0; RESOLVE_TIMED_OUT; 0]
  else
    on_resolve slot (waited_more r 0 (r_tries r + 1)) ;;
    _ ← dns_query slot; mret tt.

Fixpoint for_each (f : nat -> N unit) (l : list nat) : N unit :=
  match l with
  | [] => mret tt
  | i :: rest => f i ;; for_each f rest
  end.

Definition dns_tick : N unit := for_each dns_tick_slot (seq 0 RESOLVERS).

(** ** Receiving *)

Definition learn_slot (ip to : list Z) (slot : nat) : N unit :=
  s ← get;
  match waiting s !! slot with
  | None => panic
  | Some w =>
      if same_ip (w_next_hop w) ip then
        frame ← copy_at 0 to (w_frame w);
        bytes ← range frame 0 (w_length w);
        net_send bytes ;;
        modify (fun s => set_waiting (<[slot := {| w_frame := frame; w_length := w_length w; w_next_hop := UNSPECIFIED |}]> (waiting s)) s)
      else mret tt
  end.

Definition learn (ip to : list Z) : N unit :=
  s ← get;
  (match position (fun e => same_ip e.1 ip) (arp_table s) with
   | Some i => modify (set_arp_table (<[i := (ip, to)]> (arp_table s)))
   | None => if (arp_next s <? length (arp_table s))%nat
             then modify (fun s => set_arp_next (Nat.modulo (arp_next s + 1) ARP_ENTRIES) (set_arp_table (<[arp_next s := (ip, to)]> (arp_table s)) s)) else panic
   end) ;;
  for_each (learn_slot ip to) (seq 0 WAITING_FRAMES).

Definition arp (packet : list Z) : N unit :=
  if (length packet <? 28)%nat then mret tt else
  hardware ← read_u16 packet 0; protocol ← read_u16 packet 2; hl ← byte_at packet 4; pl ← byte_at packet 5;
  if negb (hardware =? 1) || negb (protocol =? ETHERTYPE_IPV4) || negb (hl =? 6) || negb (pl =? 4) then mret tt else
  operation ← read_u16 packet 6; sender_mac ← range packet 8 14; sender ← read_u32 packet 14; target ← read_u32 packet 24;
  own ← field address;
  if negb (target =? own) then mret tt else
  learn (mapped sender) sender_mac ;;
  if operation =? 1 then
    me ← field mac; own ← field address;
    reply ← copies [(0%nat, sender_mac); (6%nat, me); (12%nat, be16 ETHERTYPE_ARP); (14%nat, [0; 1; 8; 0; 6; 4; 0; 2]); (22%nat, me); (28%nat, be32 own);
                    (32%nat, sender_mac); (38%nat, be32 sender)] (replicate 42 0);
    net_send reply
  else mret tt.

(** An echo reply that answers a ping of a client's. *)
Definition pong (sequence : Z) (source : list Z) (word : Z) : N unit :=
  s ← get;
  match position (fun p => (p_sequence p =? sequence) && same_ip (p_address p) source) (pings s) with
  | None => mret tt
  | Some i =>
      match pings s !! i with
      | None => panic
      | Some p =>
          ipc_send (p_reply p) TAG_PONG [p_token p; word; 0; 0] ;;
          modify (fun s => set_pings (<[i := {| p_token := p_token p; p_reply := p_reply p; p_address := p_address p; p_sequence := 0 |}]> (pings s)) s)
      end
  end.

Definition icmp (source : Z) (message : list Z) : N unit :=
  if (length message <? 8)%nat || negb (checksum message =? 0) then mret tt else
  kind ← byte_at message 0;
  if kind =? 8 then
    let len := Nat.min (length message) (MAX_FRAME - 34) in
    part ← range message 0 len;
    reply ← copies [(0%nat, part); (0%nat, [0]); (2%nat, [0; 0])] (replicate (MAX_FRAME - 34) 0);
    bytes ← range reply 0 len;
    bytes ← copy_at 2 (be16 (checksum bytes)) bytes;
    send_ipv4 source PROTOCOL_ICMP bytes
  else if kind =? 0 then
    identifier ← read_u16 message 4;
    if identifier =? PING_IDENTIFIER then sequence ← read_u16 message 6; pong sequence (mapped source) source else mret tt
  else mret tt.

(** Where a datagram goes that is not the daemon's own: into the buffer bound to its port. *)
Definition deliver (source : list Z) (source_port port : Z) (payload : list Z) : N unit :=
  s ← get;
  match position (fun b => (b_port b =? port) && negb (b_base b =? 0)) (bindings s) with
  | None => mret tt
  | Some i =>
      match bindings s !! i with
      | None => panic
      | Some b =>
          let skip := (if as_v4 source then 0 else 16)%nat in
          if b_size b <? Z.of_nat skip then mret tt else
          let take := Nat.min (length payload) (Z.to_nat (b_size b - Z.of_nat skip)) in
          write_buffer (b_base b) 0 (firstn skip source) ;;
          write_buffer (b_base b) skip (firstn take payload) ;;
          ipc_send (b_reply b) TAG_DATAGRAM [Z.of_nat take; word_of source; source_port; port]
      end
  end.

Definition udp (source destination datagram : list Z) : N unit :=
  if (length datagram <? 8)%nat then mret tt else
  let v4 := bool_decide (is_Some (as_v4 source)) in
  if negb v4 && negb (transport_checksum PROTOCOL_UDP source destination datagram =? 0) then mret tt else
  source_port ← read_u16 datagram 0; port ← read_u16 datagram 2; len ← read_u16 datagram 4;
  let length := Nat.max 8 (Nat.min (Z.to_nat len) (length datagram)) in
  payload ← range datagram 8 length;
  s ← get;
  if v4 && (port =? DHCP_CLIENT_PORT) && negb (bool_decide (dhcp s = Done)) then dhcp_reply payload else
  if (dns_local_port s <=? port) && (port - dns_local_port s <? Z.of_nat RESOLVERS) then
    let slot := Z.to_nat (port - dns_local_port s) in
    r ← resolve_at slot;
    if negb (r_id r =? 0) && same_ip source (dns_server s) && (source_port =? dns_port s) then dns_reply slot payload else mret tt
  else deliver source source_port port payload.

(** *** TCP segments *)

(** No connection: a listener, or a refusal. *)
Definition tcp_unknown (source : list Z) (remote_port local_port sequence acknowledgement flags : Z) (payload : list Z) : N unit :=
  if has flags RST then mret tt else
  accepted ← (if has flags SYN && negb (has flags ACK) then accept source remote_port local_port sequence else mret false);
  if accepted : bool then mret tt else
  let length := Z.of_nat (length payload) + counts flags in
  if has flags ACK then segment source local_port remote_port acknowledgement 0 RST 0 []
  else segment source local_port remote_port 0 (wrapping_add sequence length) (Z.lor RST ACK) 0 [].

(** A reset, believed only at the expected place. *)
Definition tcp_reset (index : nat) (c : Connection) (sequence acknowledgement flags : Z) : N unit :=
  let expected := match state c with
                  | SynSent => has flags ACK && (acknowledgement =? next_send c)
                  | _ => sequence =? next_receive c
                  end in
  if expected then finish index CLOSED_RESET else mret tt.

(** What the acknowledgement does; [false] if the segment ends there. *)
Definition tcp_acknowledge (index : nat) (c : Connection) (sequence acknowledgement flags : Z) : N bool :=
  match state c with
  | SynSent =>
      (if (Z.land flags (Z.lor SYN ACK) =? Z.lor SYN ACK) && (acknowledgement =? next_send c) then
         on_connection index (fun c => set_state Established (set_next_receive (wrapping_add sequence 1) c)) ;;
         flight_landed index ;; send_ack index ;; announce_open index
       else mret tt) ;;
      mret false
  | SynReceived =>
      if negb (has flags ACK) || negb (acknowledgement =? next_send c) then mret false else
      on_connection index (set_state Established) ;; flight_landed index ;; announce_open index ;; mret true
  | _ =>
      (if has flags ACK && negb (unacknowledged c =? next_send c) && (acknowledgement =? next_send c) then flight_landed index else mret tt) ;;
      mret true
  end.

Definition is_receiving (st : State) : bool := match st with Established | FinWait1 | FinWait2 => true | _ => false end.

(** Data in order, with room and nothing unread, goes to the client; whether the segment's
    data was taken, or it has none. *)
Definition tcp_data (index : nat) (receiving : bool) (sequence : Z) (payload : list Z) : N bool :=
  if (length payload =? 0)%nat then mret true else
  if negb receiving then mret false else
  c ← connection index;
  let len := Z.of_nat (length payload) in
  if (sequence =? next_receive c) && negb (delivered c) && (filled c + len <=? c_size c) then
    write_buffer (c_base c) (Z.to_nat (filled c)) payload ;;
    on_connection index (fun c => set_delivered true (set_next_receive (wrapping_add (next_receive c) len) (set_filled (filled c + len) c))) ;;
    tell index TAG_TCP_DATA [Z.of_nat index; filled c + len; 0; 0] ;;
    mret true
  else mret false.

Definition tcp_finish (index : nat) (receiving accepted : bool) (sequence flags : Z) (payload : list Z) : N unit :=
  c ← connection index;
  let fin_in_order := has flags FIN && accepted && (wrapping_add sequence (Z.of_nat (length payload)) =? next_receive c) in
  if fin_in_order && receiving then
    on_connection index (fun d => set_next_receive (wrapping_add (next_receive c) 1) d) ;;
    send_ack index ;;
    match state c with
    | Established => on_connection index (set_state CloseWait) ;; tell index TAG_TCP_CLOSED [Z.of_nat index; CLOSED_PEER_FINISHED; 0; 0]
    | FinWait1 => on_connection index (set_state Closing)
    | _ => finish index CLOSED_FINISHED
    end
  else if negb (length payload =? 0)%nat || has flags FIN then send_ack index else mret tt.

Definition belongs (source : list Z) (remote_port_ local_port_ : Z) (c : Connection) : bool :=
  negb (is_free c) && same_ip (remote c) source && (remote_port c =? remote_port_) && (local_port c =? local_port_).

Definition tcp_known (index : nat) (sequence acknowledgement flags : Z) (payload : list Z) : N unit :=
  c ← connection index;
  if has flags RST then tcp_reset index c sequence acknowledgement flags else
  go_on ← tcp_acknowledge index c sequence acknowledgement flags;
  if negb go_on then mret tt else
  c ← connection index;
  let receiving := is_receiving (state c) in
  accepted ← tcp_data index receiving sequence payload;
  tcp_finish index receiving accepted sequence flags payload.

Definition tcp (source destination segment : list Z) : N unit :=
  if (length segment <? 20)%nat || negb (transport_checksum PROTOCOL_TCP source destination segment =? 0) then mret tt else
  remote_port ← read_u16 segment 0; local_port ← read_u16 segment 2; sequence ← read_u32 segment 4; acknowledgement ← read_u32 segment 8;
  data_offset ← byte_at segment 12; flags ← byte_at segment 13;
  let offset := (Z.to_nat (Z.shiftr data_offset 4) * 4)%nat in
  if (offset <? 20)%nat || (length segment <? offset)%nat then mret tt else
  payload ← from segment offset;
  s ← get;
  match position (belongs source remote_port local_port) (connections s) with
  | None => tcp_unknown source remote_port local_port sequence acknowledgement flags payload
  | Some index => tcp_known index sequence acknowledgement flags payload
  end.

(** *** The network layer *)

Definition ipv4 (packet : list Z) : N unit :=
  if (length packet <? 20)%nat then mret tt else
  first ← byte_at packet 0;
  if negb (Z.shiftr first 4 =? 4) then mret tt else
  let header := (Z.to_nat (Z.land first 15) * 4)%nat in
  total ← read_u16 packet 2;
  let total := Z.to_nat total in
  if (header <? 20)%nat || (total <? header)%nat || (length packet <? total)%nat then mret tt else
  head ← range packet 0 header;
  if negb (checksum head =? 0) then mret tt else
  fragment ← read_u16 packet 6;
  if negb (Z.land fragment 0x3FFF =? 0) then mret tt else
  destination ← read_u32 packet 16;
  own ← field address;
  if negb (destination =? own) && negb (destination =? U32_MAX) && negb (own =? 0) then mret tt else
  source ← read_u32 packet 12;
  payload ← range packet header total;
  protocol ← byte_at packet 9;
  if protocol =? PROTOCOL_ICMP then icmp source payload
  else if protocol =? PROTOCOL_UDP then udp (mapped source) (mapped destination) payload
  else if protocol =? PROTOCOL_TCP then tcp (mapped source) (mapped destination) payload
  else mret tt.

(** [options]: each option's kind and the whole of it; every one advances by at least eight. *)
Fixpoint nd_options (fuel : nat) (bytes : list Z) : list (Z * list Z) :=
  match fuel with
  | O => []
  | S fuel =>
      match bytes with
      | kind :: len :: _ =>
          let length := (Z.to_nat len * 8)%nat in
          if (length =? 0)%nat || (List.length bytes <? length)%nat then [] else (kind, take length bytes) :: nd_options fuel (drop length bytes)
      | _ => []
      end
  end.
Definition options (bytes : list Z) : list (Z * list Z) := nd_options (length bytes) bytes.

(** What a router advertisement says: a prefix and a DNS server, learning its address on
    the way. *)
Fixpoint advertised (source : list Z) (l : list (Z * list Z)) (prefix : option (list Z)) (dns : list Z) : N (option (list Z) * list Z) :=
  match l with
  | [] => mret (prefix, dns)
  | (kind, option) :: rest =>
      if (kind =? 1) && (8 <=? length option)%nat then to ← range option 2 8; learn source to ;; advertised source rest prefix dns
      else if (kind =? 3) && (32 <=? length option)%nat then
        len ← byte_at option 2;
        if len =? 64 then p ← read_ip option 16; advertised source rest (Some p) dns else advertised source rest prefix dns
      else if (kind =? 25) && (24 <=? length option)%nat then d ← read_ip option 8; advertised source rest prefix d
      else advertised source rest prefix dns
  end.

Definition half (ip : list Z) (at_ : nat) : Z := fold_left (fun acc b => acc * 256 + b) (take 8 (drop at_ ip)) 0.

Definition configured6 (reply : Z) : N unit :=
  s ← get; ipc_send reply TAG_NET_CONFIGURED6 [half (global6 s) 0; half (global6 s) 8; half (dns6 s) 0; half (dns6 s) 8].

Definition router_advertisement (source message : list Z) : N unit :=
  body ← from message 16;
  found ← advertised source (options body) None UNSPECIFIED;
  match found with
  | (None, _) => mret tt
  | (Some prefix, dns) =>
      modify (set_router6 source) ;;
      s ← get;
      (if same_ip (global6 s) UNSPECIFIED then modify (set_global6 (take 8 prefix ++ drop 8 (link_local s))) else mret tt) ;;
      (if same_ip dns UNSPECIFIED then mret tt
       else modify (set_dns6 dns) ;; if dns_port s =? 0 then modify (fun s => set_dns_port 53 (set_dns_server dns s)) else mret tt) ;;
      waiters ← field config6_waiters;
      modify (set_config6_waiters (replicate CONFIG_WAITERS 0)) ;;
      tell_waiters configured6 waiters
  end.

(** The link-layer address option of a kind, if there is one. *)
Definition link_option (kind : Z) (bytes : list Z) : option (list Z) :=
  i ← position (fun o => (o.1 =? kind) && (8 <=? length o.2)%nat) (options bytes); snd <$> options bytes !! i.

Definition neighbour_solicitation (source message : list Z) : N unit :=
  target ← read_ip message 8;
  s ← get;
  if negb (same_ip target (link_local s)) && (negb (same_ip target (global6 s)) || same_ip (global6 s) UNSPECIFIED) then mret tt else
  body ← from message 24;
  (if same_ip source UNSPECIFIED then mret tt
   else match link_option 1 body with Some o => to ← range o 2 8; learn source to | None => mret tt end) ;;
  advert ← copies [(0%nat, [136]); (4%nat, [if same_ip source UNSPECIFIED then 0x20 else 0x60]); (8%nat, target); (24%nat, [2; 1]); (26%nat, mac s)] (replicate 32 0);
  send_icmpv6 (if same_ip source UNSPECIFIED then ALL_NODES else source) advert.

Definition neighbour_advertisement (message : list Z) : N unit :=
  target ← read_ip message 8;
  body ← from message 24;
  match link_option 2 body with Some o => to ← range o 2 8; learn target to | None => mret tt end.

Definition icmpv6 (source destination : list Z) (hop_limit : Z) (message : list Z) : N unit :=
  if (length message <? 8)%nat || negb (transport_checksum PROTOCOL_ICMPV6 source destination message =? 0) then mret tt else
  let from_link := hop_limit =? 255 in
  kind ← byte_at message 0;
  if kind =? 128 then
    let len := Nat.min (length message) (MAX_FRAME - 54) in
    part ← range message 0 len;
    reply ← copies [(0%nat, part); (0%nat, [129])] (replicate (MAX_FRAME - 54) 0);
    bytes ← range reply 0 len;
    send_icmpv6 source bytes
  else if kind =? 129 then
    identifier ← read_u16 message 4;
    if identifier =? PING_IDENTIFIER then sequence ← read_u16 message 6; pong sequence source IPV6 else mret tt
  else if (kind =? 134) && from_link && is_link_local source && (16 <=? length message)%nat then router_advertisement source message
  else if (kind =? 135) && from_link && (24 <=? length message)%nat then neighbour_solicitation source message
  else if (kind =? 136) && from_link && (24 <=? length message)%nat then neighbour_advertisement message
  else mret tt.

Definition ipv6 (packet : list Z) : N unit :=
  if (length packet <? 40)%nat then mret tt else
  first ← byte_at packet 0;
  if negb (Z.shiftr first 4 =? 6) then mret tt else
  len ← read_u16 packet 4;
  let length := Z.to_nat len in
  if (List.length packet <? 40 + length)%nat then mret tt else
  next_header ← byte_at packet 6; hop_limit ← byte_at packet 7;
  source ← read_ip packet 8; destination ← read_ip packet 24;
  s ← get;
  let ours := same_ip destination (link_local s) || (same_ip destination (global6 s) && negb (same_ip (global6 s) UNSPECIFIED))
              || same_ip destination ALL_NODES || same_ip destination (solicited_node (link_local s)) in
  if negb ours then mret tt else
  payload ← range packet 40 (40 + length);
  if next_header =? PROTOCOL_ICMPV6 then icmpv6 source destination hop_limit payload
  else if next_header =? PROTOCOL_UDP then udp source destination payload
  else if next_header =? PROTOCOL_TCP then tcp source destination payload
  else mret tt.

Definition frame (bytes : list Z) : N unit :=
  if (length bytes <? 14)%nat then mret tt else
  kind ← read_u16 bytes 12;
  body ← from bytes 14;
  if kind =? ETHERTYPE_ARP then arp body
  else if kind =? ETHERTYPE_IPV4 then ipv4 body
  else if kind =? ETHERTYPE_IPV6 then ipv6 body
  else mret tt.

(** [drain]: at most 64 of the frames the kernel has, [net_receive] once each; it answers
    zero when there is none. *)
Fixpoint drain_some (turns : nat) (l : list (list Z)) : N unit :=
  match turns, l with
  | S turns, bytes :: rest =>
      if (length bytes =? 0)%nat then mret tt else
      if (MAX_FRAME <? length bytes)%nat then panic else
      frame bytes ;; drain_some turns rest
  | _, _ => mret tt
  end.
Definition drain (l : list (list Z)) : N unit := drain_some 64 l.

(** ** Commands *)

Definition refers_to (s : Stack) (base : Z) : bool :=
  existsb (fun b => b_base b =? base) (bindings s) || existsb (fun l => l_base l =? base) (listeners s)
  || existsb (fun c => negb (is_free c) && ((c_base c =? base) || (flight_base c =? base))) (connections s)
  || existsb (fun r => negb (r_id r =? 0) && (r_base r =? base)) (resolves s).

(** A slot of the table of mappings: a free one, or one that nothing refers to, given up. *)
Definition mapping_slot : N (option nat) :=
  s ← get;
  match position (fun m => m.1.1 =? 0) (mappings s) with
  | Some slot => mret (Some slot)
  | None =>
      match position (fun m => negb (refers_to s m.1.2)) (mappings s) with
      | None => mret None
      | Some slot =>
          match mappings s !! slot with
          | None => panic
          | Some (handle, base, _) =>
              emit (UnmapBuffer handle) ;;
              modify (fun s => set_memory (delete base (memory s)) (set_mappings (<[slot := (0, 0, 0)]> (mappings s)) s)) ;;
              mret (Some slot)
          end
      end
  end.

Definition mapping (buffer : Z) : N (option (Z * Z)) :=
  s ← get;
  match position (fun m => m.1.1 =? buffer) (mappings s) with
  | Some i => mret ((fun m => (m.1.2, m.2)) <$> mappings s !! i)
  | None =>
      slot ← mapping_slot;
      match slot with
      | None => mret None
      | Some slot =>
          emit (MapBuffer buffer) ;;
          mem ← field memory;
          match grant mem buffer with
          | None => mret None
          | Some (base, bytes) =>
              if describes buffer then
                modify (fun s => set_memory (<[base := bytes]> (memory s)) (set_mappings (<[slot := (buffer, base, Z.of_nat (length bytes))]> (mappings s)) s)) ;;
                mret (Some (base, Z.of_nat (length bytes)))
              else emit (UnmapBuffer buffer) ;; mret None
          end
      end
  end.

Definition named_address (word buffer : Z) : N (option (list Z)) :=
  if negb (word =? IPV6) then mret (Some (mapped (word mod 2 ^ 32))) else
  m ← mapping buffer;
  match m with
  | None => mret None
  | Some (base, size) => if 16 <=? size then ip ← read_buffer base 0 16; mret (Some ip) else mret None
  end.

Definition echo_body : list Z := (fun i : nat => 97 + Z.of_nat (Nat.modulo i 26)) <$> seq 0 32.

Definition ping (word reply token buffer : Z) : N unit :=
  named ← named_address word buffer;
  match named with
  | None => mret tt
  | Some ip =>
      s ← get;
      match position (fun p => p_sequence p =? 0) (pings s) with
      | None => mret tt
      | Some slot =>
          let sequence := next_sequence s in
          modify (fun s => set_pings (<[slot := {| p_token := token; p_reply := reply; p_address := ip; p_sequence := sequence |}]> (pings s))
                             (set_next_sequence (Z.max ((sequence + 1) mod 65536) 1) s)) ;;
          echo ← copies [(4%nat, be16 PING_IDENTIFIER); (6%nat, be16 sequence); (8%nat, echo_body)] (replicate 40 0);
          match as_v4 ip with
          | Some v4 =>
              echo ← copy_at 0 [8] echo;
              echo ← copy_at 2 (be16 (checksum echo)) echo;
              send_ipv4 v4 PROTOCOL_ICMP echo
          | None => echo ← copy_at 0 [128] echo; send_icmpv6 ip echo
          end
      end
  end.

Definition bind (port reply buffer : Z) : N unit :=
  m ← mapping buffer;
  match m with
  | None => mret tt
  | Some (base, size) =>
      s ← get;
      match position (fun b => (b_port b =? port) || (b_base b =? 0)) (bindings s) with
      | Some slot => modify (set_bindings (<[slot := {| b_port := port; b_reply := reply; b_base := base; b_size := size |}]> (bindings s)))
      | None => mret tt
      end
  end.

(** The sums wrap: the daemon is built without overflow checks. *)
Definition wrap64 (v : Z) : Z := v mod 2 ^ 64.

Definition send_udp (buffer length word local remote : Z) : N unit :=
  m ← mapping buffer;
  named ← named_address word buffer;
  match m, named with
  | Some (base, size), Some destination =>
      let skip := if word =? IPV6 then 16 else 0 in
      let room := Z.of_nat (if skip =? 0 then MAX_FRAME - 34 else MAX_FRAME - 54) in
      if (size <? wrap64 (skip + length)) || (room <? wrap64 (8 + length)) then mret tt else
      datagram ← copies [(0%nat, be16 local); (2%nat, be16 remote); (4%nat, be16 (wrap64 (8 + length) mod 65536))] (replicate (MAX_FRAME - 34) 0);
      if (Z.of_nat (MAX_FRAME - 34) <? 8 + length) || (size <? skip + length) then panic else
      data ← read_buffer base (Z.to_nat skip) (Z.to_nat length);
      datagram ← copy_at 8 data datagram;
      datagram ← range datagram 0 (Z.to_nat (8 + length));
      send_udp_datagram destination datagram
  | _, _ => mret tt
  end.

Definition connect (owner word local_port remote_port reply buffer : Z) : N unit :=
  m ← mapping buffer;
  named ← named_address word buffer;
  match m, named with
  | Some (base, size), Some ip =>
      s ← get;
      match position is_free (connections s) with
      | None => ipc_send reply TAG_TCP_CLOSED [U64_MAX; CLOSED_NO_ROOM; 0; 0]
      | Some index =>
          local ← (if negb (local_port =? 0) then mret local_port
                   else let p := if next_port s =? 65535 then 49152 else next_port s + 1 in modify (set_next_port p) ;; mret p);
          start ← sequence_start;
          on_connection index (fun _ => new_connection SynSent owner reply ip remote_port local base size start 0) ;;
          start_flight index SYN 0 0
      end
  | _, _ => mret tt
  end.

Definition listen (owner port reply buffer : Z) : N unit :=
  m ← mapping buffer;
  match m with
  | None => mret tt
  | Some (base, size) =>
      s ← get;
      match position (fun l => (l_base l =? 0) || ((l_port l =? port) && (l_owner l =? owner))) (listeners s) with
      | Some slot => modify (set_listeners (<[slot := {| l_port := port; l_owner := owner; l_reply := reply; l_base := base; l_size := size |}]> (listeners s)))
      | None => mret tt
      end
  end.

Definition send_tcp (index : nat) (buffer length : Z) : N unit :=
  c ← connection index;
  let open_ := match state c with Established | CloseWait => true | _ => false end in
  let idle := (unacknowledged c =? next_send c) && negb (close_requested c) in
  m ← mapping buffer;
  match m with
  | Some (base, size) =>
      if open_ && idle && (0 <? length) && (length <=? Z.of_nat (mss (remote c))) && (length <=? size) then start_flight index PSH base length
      else tell index TAG_TCP_SENT [Z.of_nat index; 0; 0; 0]
  | None => tell index TAG_TCP_SENT [Z.of_nat index; 0; 0; 0]
  end.

Definition close (index : nat) : N unit :=
  c ← connection index;
  match state c with
  | SynSent | SynReceived => send_reset index ;; finish index CLOSED_FINISHED
  | Established | CloseWait =>
      if unacknowledged c =? next_send c then send_fin index else on_connection index (set_close_requested true)
  | _ => mret tt
  end.

Definition config (reply : Z) : N unit :=
  s ← get;
  if bool_decide (dhcp s = Done) then configured reply
  else match position (fun w => w =? 0) (config_waiters s) with
       | Some slot => modify (set_config_waiters (<[slot := reply]> (config_waiters s)))
       | None => mret tt
       end.

Definition config6 (reply : Z) : N unit :=
  s ← get;
  if negb (same_ip (global6 s) UNSPECIFIED) then configured6 reply
  else match position (fun w => w =? 0) (config6_waiters s) with
       | Some slot => modify (set_config6_waiters (<[slot := reply]> (config6_waiters s)))
       | None => mret tt
       end.

Definition resolve (buffer length reply token kind : Z) : N unit :=
  let answer status := ipc_send reply TAG_RESOLVED [token; 0; status; 0] in
  m ← mapping buffer;
  match m with
  | None => mret tt
  | Some (base, size) =>
      if (length =? 0) || (253 <? length) || (size <? length) || ((kind =? 28) && (size <? 16)) then answer RESOLVE_BAD_NAME else
      s ← get;
      if dns_port s =? 0 then answer RESOLVE_TIMED_OUT else
      match position (fun r => r_id r =? 0) (resolves s) with
      | None => answer RESOLVE_TIMED_OUT
      | Some slot =>
          r ← random_u64;
          on_resolve slot {| r_id := Z.max (r mod 65536) 1; r_kind := kind; r_reply := reply; r_token := token; r_base := base; r_length := length; r_waited := 0; r_tries := 1 |} ;;
          sent ← dns_query slot;
          if sent : bool then arm_timer else on_resolve slot Resolve_default ;; answer RESOLVE_BAD_NAME
      end
  end.

Definition high_port (d : Z) : Z := Z.shiftr d 16 mod 65536.

(** The commands that name a connection, for its owner alone. *)
Definition connection_command (sender tag a b c_ : Z) : N unit :=
  if Z.of_nat CONNECTIONS <=? a then mret tt else
  let index := Z.to_nat a in
  c ← connection index;
  if is_free c || negb (c_owner c =? sender) then mret tt else
  if tag =? TAG_TCP_SEND then send_tcp index b c_
  else if tag =? TAG_TCP_CONSUMED then on_connection index (fun c => set_delivered false (set_filled 0 c)) ;; send_ack index
  else if tag =? TAG_TCP_CLOSE then close index
  else mret tt.

Definition command (sender tag a b c d : Z) : N unit :=
  (if tag =? TAG_PING then ping a b c d
   else if tag =? TAG_UDP_BIND then bind (a mod 65536) b c
   else if tag =? TAG_UDP_SEND then send_udp a b c (high_port d) (d mod 65536)
   else if tag =? TAG_TCP_CONNECT then connect sender a (high_port b) (b mod 65536) c d
   else if tag =? TAG_TCP_LISTEN then listen sender (a mod 65536) b c
   else if tag =? TAG_NET_CONFIG then config a
   else if tag =? TAG_RESOLVE then resolve a b c d 1
   else if tag =? TAG_RESOLVE6 then resolve a b c d 28
   else if tag =? TAG_NET_CONFIG6 then config6 a
   else mret tt) ;;
  connection_command sender tag a b c.

(** ** Time *)

Definition solicit_tick : N unit :=
  s ← get;
  if negb (same_ip (global6 s) UNSPECIFIED) || (SOLICITATIONS <=? solicited s) then mret tt else
  modify (set_solicit_waited (solicit_waited s + 1)) ;;
  if REQUEST_TICKS <=? solicit_waited s + 1
  then modify (fun s => set_solicited (solicited s + 1) (set_solicit_waited 0 s)) ;; solicit_router
  else mret tt.

Definition connection_tick (index : nat) : N unit :=
  c ← connection index;
  if is_free c || (unacknowledged c =? next_send c) then mret tt else
  on_connection index (set_c_waited (c_waited c + 1)) ;;
  if c_waited c + 1 <? timeout c then mret tt else
  on_connection index (set_retries (retries c + 1)) ;;
  if MAX_RETRIES <? retries c + 1 then send_reset index ;; finish index CLOSED_TIMED_OUT else
  on_connection index (fun c => set_timeout (Z.min (timeout c * 2) MAX_RTO_TICKS) (set_c_waited 0 c)) ;;
  transmit index.

Definition tick : N unit :=
  modify (set_timer_armed false) ;;
  dhcp_tick ;; dns_tick ;; solicit_tick ;;
  for_each connection_tick (seq 0 CONNECTIONS) ;;
  arm_timer.

(** The loop of [main]: what arrives on the control endpoint. *)
Definition message (sender tag a b c d : Z) (frames : list (list Z)) : N unit :=
  if sender =? KERNEL_SENDER then
    if tag =? TAG_NET_RECEIVED then drain frames else if tag =? TAG_TIMER then tick else mret tt
  else command sender tag a b c d.

(** ** Starting *)

Record Parameters : Type := { p_control : Z; p_own : Z; p_gateway : Z; p_netmask : Z; p_dns : Z }.

Definition DNS_PORT_RANGE_START : Z := 49152.
Definition DNS_PORT_RANGE_LEN : Z := 65535 - Z.of_nat RESOLVERS - 49152.

(** fe80::, then the hardware address stretched to 64 bits with its universal bit flipped. *)
Definition link_local_of (m : list Z) : list Z :=
  let b i := default 0 (m !! i) in
  [254; 128; 0; 0; 0; 0; 0; 0; Z.lxor (b 0%nat) 2; b 1%nat; b 2%nat; 255; 254; b 3%nat; b 4%nat; b 5%nat].

Definition initial (p : Parameters) (card : list Z) : Stack :=
  {| mac := card; address := p_own p mod 2 ^ 32; gateway := p_gateway p mod 2 ^ 32; netmask := p_netmask p mod 2 ^ 32;
     arp_table := replicate ARP_ENTRIES (UNSPECIFIED, replicate 6 0); arp_next := 0;
     waiting := replicate WAITING_FRAMES {| w_frame := replicate MAX_FRAME 0; w_length := 0; w_next_hop := UNSPECIFIED |};
     pings := replicate PINGS Ping_default; next_sequence := 1; bindings := replicate BINDINGS Binding_default;
     mappings := replicate MAPPINGS (0, 0, 0); next_identification := 1; control := p_control p;
     connections := replicate CONNECTIONS Connection_default; listeners := replicate LISTENERS Listener_default; timer_armed := false;
     next_port := 49152 + random_at 0 mod 2 ^ 64 mod 8192; dhcp := Done; dhcp_waited := 0; transaction := random_at 1 mod 2 ^ 64 mod 2 ^ 32;
     offered := 0; dhcp_server := 0; offered_dns := 0; config_waiters := replicate CONFIG_WAITERS 0;
     dns_server := mapped (Z.shiftr (p_dns p) 16 mod 2 ^ 32); dns_port := p_dns p mod 65536; resolves := replicate RESOLVERS Resolve_default;
     dns_local_port := DNS_PORT_RANGE_START + random_at 2 mod 2 ^ 64 mod DNS_PORT_RANGE_LEN; link_local := link_local_of card;
     global6 := UNSPECIFIED; router6 := UNSPECIFIED; dns6 := UNSPECIFIED; solicited := 1; solicit_waited := 0;
     config6_waiters := replicate CONFIG_WAITERS 0; memory := ∅; drawn := 3; output := [] |}.

(** [main] up to its loop *)
Definition start (frames : list (list Z)) : N unit :=
  solicit_router ;;
  arm_timer ;;
  own ← field address;
  (if own =? 0 then modify (set_dhcp Discovering) ;; dhcp_send DHCP_DISCOVER ;; arm_timer else mret tt) ;;
  drain frames.

End Stack.
