(* ===== verification/NetSafe.v ===== *)
(** * Memory safety of the network daemon: rules, the invariant, and sending

    The daemon runs on bytes a stranger chose.  [net_ok] is what its tables keep: lengths,
    and for every buffer a table refers to, that it is mapped and as large as the table
    says.  [safe] is a run that neither panics nor touches memory that is not there. *)

From stdpp Require Import base list gmap numbers list_numbers.
From Stdlib Require Import Lia ZifyBool.
From S2P Require Import Prelude NetBytes Net.

(** ** Runs without a panic *)

Definition safe {A} (m : N A) (Q : A -> Stack -> Prop) (s : Stack) : Prop :=
  match m s with
  | (Ok a, s') => Q a s'
  | (Err e, _) => match e with end
  | (Panic, _) => False
  end.

(** A computation that reads nothing of the state. *)
Definition returns {A} (m : N A) (P : A -> Prop) : Prop := forall s, exists a, m s = (Ok a, s) /\ P a.

Section Rules.

Lemma safe_ret {A} (a : A) (Q : A -> Stack -> Prop) s : Q a s -> safe (mret a) Q s.
Proof. done. Qed.

Lemma safe_mono {A} (m : N A) (Q Q' : A -> Stack -> Prop) s : safe m Q s -> (forall a s', Q a s' -> Q' a s') -> safe m Q' s.
Proof. unfold safe. destruct (m s) as [[a|e|] s']; auto. Qed.

Lemma safe_bind {A B} (m : N A) (k : A -> N B) (Q : B -> Stack -> Prop) s : safe m (fun a s' => safe (k a) Q s') s -> safe (mbind k m) Q s.
Proof. unfold safe, mbind, M_bind. destruct (m s) as [[a|e|] s']; auto. Qed.

Lemma safe_get {B} (k : Stack -> N B) (Q : B -> Stack -> Prop) s : safe (k s) Q s -> safe (mbind k get) Q s.
Proof. done. Qed.

Lemma safe_field {A B} (f : Stack -> A) (k : A -> N B) (Q : B -> Stack -> Prop) s : safe (k (f s)) Q s -> safe (mbind k (field f)) Q s.
Proof. done. Qed.

Lemma safe_modify (f : Stack -> Stack) (Q : unit -> Stack -> Prop) s : Q tt (f s) -> safe (modify f) Q s.
Proof. done. Qed.

Lemma safe_returns {A} (m : N A) P (Q : A -> Stack -> Prop) s : returns m P -> (forall a, P a -> Q a s) -> safe m Q s.
Proof. intros Hm HQ. unfold safe. destruct (Hm s) as (a & -> & Ha). auto. Qed.

Lemma returns_ret {A} (a : A) (P : A -> Prop) : P a -> returns (mret a) P.
Proof. intros Ha s. by exists a. Qed.

Lemma returns_bind {A B} (m : N A) (k : A -> N B) P R : returns m P -> (forall a, P a -> returns (k a) R) -> returns (mbind k m) R.
Proof. intros Hm Hk s. destruct (Hm s) as (a & Hr & Ha). unfold mbind, M_bind. rewrite Hr. by apply Hk. Qed.

Lemma returns_mono {A} (m : N A) (P R : A -> Prop) : returns m P -> (forall a, P a -> R a) -> returns m R.
Proof. intros Hm HP s. destruct (Hm s) as (a & Hr & Ha). eauto. Qed.

End Rules.

(** *** Slices *)

Lemma returns_byte bs i : (i < length bs)%nat -> returns (byte_at bs i) (fun b => bs !! i = Some b).
Proof. intros Hi s. unfold byte_at. destruct (lookup_lt_is_Some_2 bs i Hi) as [b Hb]. rewrite Hb. by exists b. Qed.

Lemma returns_range bs a b : (a <= b <= length bs)%nat -> returns (range bs a b) (fun x => x = take (b - a) (drop a bs) /\ length x = (b - a)%nat).
Proof.
  intros Hab s. unfold range. replace ((a <=? b)%nat && (b <=? length bs)%nat) with true by lia. eexists. split; [done|]. split; [done|].
  rewrite length_take, length_drop. lia.
Qed.

Lemma returns_copy at_ x buf : (at_ + length x <= length buf)%nat -> returns (copy_at at_ x buf) (fun b => b = overwrite at_ x buf /\ length b = length buf).
Proof. intros Hl s. unfold copy_at. replace (at_ + length x <=? length buf)%nat with true by lia. eexists. split; [done|]. split; [done|]. by apply length_overwrite. Qed.

Lemma returns_copies l buf : Forall (fun e => e.1 + length e.2 <= length buf)%nat l -> returns (copies l buf) (fun b => length b = length buf).
Proof.
  revert buf. induction l as [|[at_ x] l IH]; intros buf Hl; cbn [copies]; [by apply returns_ret|]. apply Forall_cons in Hl as [Hx Hl].
  apply (returns_bind _ _ _ _ (returns_copy _ _ _ Hx)). intros b [_ Hb]. eapply returns_mono; [apply IH|by intros c ->].
  eapply Forall_impl; [exact Hl|]. intros e He. by rewrite Hb.
Qed.

Lemma returns_u16 bs i : (i + 1 < length bs)%nat -> Forall is_byte bs -> returns (read_u16 bs i) u16.
Proof.
  intros Hi Hb. unfold read_u16. apply (returns_bind _ _ _ _ (returns_byte bs i ltac:(lia))). intros a Ha. apply (returns_bind _ _ _ _ (returns_byte bs (i + 1) ltac:(lia))). intros b Hb'.
  apply returns_ret. rewrite Forall_lookup in Hb. pose proof (Hb _ _ Ha). pose proof (Hb _ _ Hb'). unfold is_byte, word16, u16 in *. lia.
Qed.

Lemma returns_u32 bs i : (i + 3 < length bs)%nat -> Forall is_byte bs -> returns (read_u32 bs i) u32.
Proof.
  intros Hi Hb. unfold read_u32. rewrite Forall_lookup in Hb.
  apply (returns_bind _ _ _ _ (returns_byte bs i ltac:(lia))). intros a Ha%Hb. apply (returns_bind _ _ _ _ (returns_byte bs (i + 1) ltac:(lia))). intros b Hb1%Hb.
  apply (returns_bind _ _ _ _ (returns_byte bs (i + 2) ltac:(lia))). intros c Hc%Hb. apply (returns_bind _ _ _ _ (returns_byte bs (i + 3) ltac:(lia))). intros d Hd%Hb.
  apply returns_ret. unfold is_byte, word32, u32 in *. lia.
Qed.

Lemma position_found {A} (P : A -> bool) l i : position P l = Some i -> exists x, l !! i = Some x /\ P x = true.
Proof.
  revert i. induction l as [|x l IH]; intros i Hp; cbn [position] in Hp; [done|]. destruct (P x) eqn:Hx; [injection Hp as <-; by exists x|].
  destruct (position P l) as [j|]; [|done]. injection Hp as <-. by apply IH.
Qed.

Lemma position_none {A} (P : A -> bool) l x : position P l = None -> x ∈ l -> P x = false.
Proof.
  induction l as [|y l IH]; intros Hp Hx; [set_solver|]. cbn [position] in Hp. destruct (P y) eqn:Hy; [done|].
  apply elem_of_cons in Hx as [-> | Hx]; [done|]. apply IH; [|done]. by destruct (position P l).
Qed.

(** ** The invariant *)

(** A client's buffer as a table remembers it: nothing, or mapped and of that size. *)
Definition held (mem : gmap Z (list Z)) (base size : Z) : Prop :=
  0 <= size < 2 ^ 47 /\ (size = 0 \/ 0 < base /\ exists bytes, mem !! base = Some bytes /\ size = Z.of_nat (length bytes)).

Definition waiting_ok (w : Waiting) : Prop := length (w_frame w) = MAX_FRAME /\ (w_length w <= MAX_FRAME)%nat.

Definition flight_ok (mem : gmap Z (list Z)) (base len : Z) : Prop :=
  0 <= len <= Z.of_nat TCP_MSS /\ exists size, held mem base size /\ len <= size.

Definition conn_ok (mem : gmap Z (list Z)) (c : Connection) : Prop :=
  length (remote c) = 16%nat /\ 0 <= filled c <= c_size c /\ held mem (c_base c) (c_size c) /\ flight_ok mem (flight_base c) (flight_length c) /\
  (state c = Free -> c_size c = 0 /\ flight_length c = 0).

Definition resolve_ok (mem : gmap Z (list Z)) (r : Resolve) : Prop :=
  r_id r <> 0 -> 0 <= r_length r <= 253 /\ exists size, held mem (r_base r) size /\ r_length r <= size /\ (r_kind r <> 1 -> 16 <= size).

Definition out_ok (o : Output) : Prop := match o with Frame bytes => (length bytes <= MAX_FRAME)%nat | _ => True end.

Definition entry_ok (mem : gmap Z (list Z)) (m : Z * Z * Z) : Prop :=
  m.1.2 = 0 /\ m.2 = 0 \/ 0 < m.1.2 /\ exists bytes, mem !! m.1.2 = Some bytes /\ m.2 = Z.of_nat (length bytes) /\ m.2 < 2 ^ 47.

Definition apart (maps : list (Z * Z * Z)) : Prop :=
  forall i j m1 m2, maps !! i = Some m1 -> maps !! j = Some m2 -> m1.1.2 = m2.1.2 -> 0 < m1.1.2 -> i = j.

Record net_ok (s : Stack) : Prop := {
  ok_mac : length (mac s) = 6%nat;
  ok_arp : length (arp_table s) = ARP_ENTRIES /\ Forall (fun e => length e.2 = 6%nat) (arp_table s);
  ok_arp_next : (arp_next s < ARP_ENTRIES)%nat;
  ok_waiting : length (waiting s) = WAITING_FRAMES /\ Forall waiting_ok (waiting s);
  ok_link_local : length (link_local s) = 16%nat;
  ok_global6 : length (global6 s) = 16%nat;
  ok_router6 : length (router6 s) = 16%nat;
  ok_dns_server : length (dns_server s) = 16%nat;
  ok_bindings : Forall (fun b => held (memory s) (b_base b) (b_size b)) (bindings s);
  ok_listeners : Forall (fun l => held (memory s) (l_base l) (l_size l)) (listeners s);
  ok_connections : length (connections s) = CONNECTIONS /\ Forall (conn_ok (memory s)) (connections s);
  ok_resolves : length (resolves s) = RESOLVERS /\ Forall (resolve_ok (memory s)) (resolves s);
  ok_mappings : Forall (entry_ok (memory s)) (mappings s);
  ok_apart : apart (mappings s);
  ok_output : Forall out_ok (output s);
}.

Definition keeps {A} (P : A -> Prop) (m : N A) : Prop := forall s, net_ok s -> safe m (fun a s' => P a /\ net_ok s') s.
Definition fine (m : N unit) : Prop := keeps (fun _ => True) m.

Create HintDb net.

(** A field of the state changed that the invariant knows, or does not. *)
Ltac net_set := match goal with Hok : net_ok ?s |- net_ok _ => destruct Hok; constructor; first [assumption | idtac] end.

(** A handler's next statement: a computation that only returns, one that keeps the
    invariant, or a look at the state. *)
Lemma safe_bind_returns {A B} (m : N A) (k : A -> N B) P (Q : B -> Stack -> Prop) s :
  returns m P -> (forall a, P a -> safe (k a) Q s) -> safe (mbind k m) Q s.
Proof. intros Hm Hk. apply safe_bind. by apply (safe_returns _ P). Qed.

Lemma safe_bind_keeps {A B} (m : N A) (k : A -> N B) P (Q : B -> Stack -> Prop) s :
  keeps P m -> net_ok s -> (forall a s', P a -> net_ok s' -> safe (k a) Q s') -> safe (mbind k m) Q s.
Proof. intros Hm Hs Hk. apply safe_bind. eapply safe_mono; [by apply Hm|]. intros a s' [Ha Hs']. auto. Qed.

Lemma safe_keeps {A} (m : N A) P (Q : A -> Stack -> Prop) s : keeps P m -> net_ok s -> (forall a s', P a -> net_ok s' -> Q a s') -> safe m Q s.
Proof. intros Hm Hs HQ. eapply safe_mono; [by apply Hm|]. intros a s' [Ha Hs']. auto. Qed.

Lemma fine_ret : fine (mret tt).
Proof. by intros s Hs. Qed.

Lemma fine_bind (m : N unit) (k : N unit) : fine m -> fine k -> fine (m ;; k).
Proof. intros Hm Hk s Hs. eapply safe_bind_keeps; [exact Hm|done|]. intros [] s' _ Hs'. by apply Hk. Qed.

Lemma fine_if (b : bool) (m k : N unit) : fine m -> fine k -> fine (if b then m else k).
Proof. by destruct b. Qed.

Lemma net_ok_emit s o : net_ok s -> out_ok o -> net_ok (set_output (output s ++ [o]) s).
Proof. intros Hs Ho. net_set. cbn. apply Forall_app. by rewrite Forall_singleton. Qed.

Lemma fine_emit o : out_ok o -> fine (emit o).
Proof. intros Ho s Hs. apply safe_modify. split; [done|]. by apply net_ok_emit. Qed.

Lemma fine_net_send bytes : (length bytes <= MAX_FRAME)%nat -> fine (net_send bytes).
Proof. intros Hl. by apply fine_emit. Qed.

Lemma fine_tell endpoint tag words : fine (ipc_send endpoint tag words).
Proof. by apply fine_emit. Qed.

#[export] Hint Resolve fine_ret fine_bind fine_if fine_emit fine_net_send fine_tell : net.
#[export] Hint Extern 1 (out_ok _) => exact I : net.

Lemma fine_for_each f l : (forall i, i ∈ l -> fine (f i)) -> fine (for_each f l).
Proof.
  induction l as [|i l IH]; intros Hf; cbn [for_each]; [apply fine_ret|]. apply fine_bind; [apply Hf; set_solver|apply IH]. intros j Hj. apply Hf. set_solver.
Qed.

(** *** Sizes stay *)

Definition same_sizes (mem mem' : gmap Z (list Z)) (bases : Z -> Prop) : Prop :=
  forall base bytes, bases base -> mem !! base = Some bytes -> exists bytes', mem' !! base = Some bytes' /\ length bytes' = length bytes.

Lemma held_mono mem mem' (bases : Z -> Prop) base size : same_sizes mem mem' bases -> (size <> 0 -> bases base) -> held mem base size -> held mem' base size.
Proof.
  intros Hm Hb [Hs [-> | [Hp (bytes & Hl & ->)]]]; split; try done; [by left|].
  destruct (decide (length bytes = 0%nat)) as [Hz|Hz]; [left; lia|]. right. split; [done|].
  destruct (Hm base bytes (Hb ltac:(lia)) Hl) as (bytes' & Hl' & He). exists bytes'. split; [done|]. lia.
Qed.

Lemma held_nothing mem base : held mem base 0.
Proof. split; [lia|]. by left. Qed.
#[export] Hint Resolve held_nothing : net.

Lemma flight_nothing mem base : flight_ok mem base 0.
Proof. split; [unfold TCP_MSS; lia|]. exists 0. split; [apply held_nothing|lia]. Qed.
#[export] Hint Resolve flight_nothing : net.

Lemma conn_default mem : conn_ok mem Connection_default.
Proof. unfold conn_ok. cbn. split_and!; try done; auto with net. Qed.
#[export] Hint Resolve conn_default : net.

(** The contents of buffers change, the sizes of those in use do not. *)
Lemma net_ok_memory s mem' : net_ok s -> same_sizes (memory s) mem' (fun _ => True) -> net_ok (set_memory mem' s).
Proof.
  intros Hok Hm. assert (Hh : forall base size, held (memory s) base size -> held mem' base size) by (intros base size; by apply (held_mono _ _ (fun _ => True))).
  assert (Hf : forall base len, flight_ok (memory s) base len -> flight_ok mem' base len) by (intros base len [Hl (size & Hs & Hle)]; split; eauto).
  destruct Hok; constructor; try assumption; cbn.
  - eapply Forall_impl; [exact ok_bindings0|]. cbn. auto.
  - eapply Forall_impl; [exact ok_listeners0|]. cbn. auto.
  - destruct ok_connections0 as [Hl Hc]. split; [done|]. eapply Forall_impl; [exact Hc|]. intros c (H1 & H2 & H3 & H4 & H5). unfold conn_ok. split_and!; auto; lia.
  - destruct ok_resolves0 as [Hl Hc]. split; [done|]. eapply Forall_impl; [exact Hc|]. intros r Hr Hid. destruct (Hr Hid) as (H1 & size & H2 & H3). eauto.
  - eapply Forall_impl; [exact ok_mappings0|]. intros m [Hz | (Hp & bytes & Hb & He & Hlt)]; [by left|]. right. split; [done|].
    destruct (Hm _ _ I Hb) as (bytes' & Hb' & Hl). exists bytes'. rewrite Hl. done.
Qed.

Lemma safe_read_buffer base offset len size (Q : list Z -> Stack -> Prop) s :
  held (memory s) base size -> Z.of_nat (offset + len) <= size -> (forall data, length data = len -> Q data s) -> safe (read_buffer base offset len) Q s.
Proof.
  intros [_ Hh] Hle HQ. unfold safe, read_buffer. destruct (Nat.eqb_spec len 0) as [->|Hn]; [by apply HQ|].
  destruct Hh as [-> | [_ (bytes & -> & ->)]]; [lia|]. replace (offset + len <=? length bytes)%nat with true by lia. apply HQ.
  rewrite length_take, length_drop. lia.
Qed.

Lemma safe_write_buffer base offset x size s : net_ok s -> held (memory s) base size -> Z.of_nat (offset + length x) <= size ->
  safe (write_buffer base offset x) (fun _ s' => net_ok s' /\ exists mem', s' = set_memory mem' s /\ same_sizes (memory s) mem' (fun _ => True)) s.
Proof.
  assert (Hself : set_memory (memory s) s = s) by (by destruct s).
  intros Hok [_ Hh] Hle. unfold safe, write_buffer. destruct (Nat.eqb_spec (length x) 0) as [Hz|Hn].
  { split; [done|]. exists (memory s). split; [done|]. intros b bytes _ Hb. by exists bytes. }
  destruct Hh as [-> | [_ (bytes & Hb & ->)]]; [lia|]. rewrite Hb. replace (offset + length x <=? length bytes)%nat with true by lia.
  assert (Hm : same_sizes (memory s) (<[base := overwrite offset x bytes]> (memory s)) (fun _ => True)).
  { intros b bytes' _ Hb'. destruct (decide (b = base)) as [->|Hne]; [|rewrite lookup_insert_ne by done; by exists bytes'].
    rewrite lookup_insert_eq. eexists. split; [done|]. rewrite length_overwrite by lia. congruence. }
  split; [by apply net_ok_memory|]. eauto.
Qed.

(** ** Sending *)

(** Lists of given lengths, counted. *)
Ltac lengths := repeat first [rewrite length_app | rewrite length_replicate | rewrite length_take | rewrite length_drop | rewrite length_be16 | rewrite length_be32 | rewrite length_mapped | progress change (length BROADCAST) with 6%nat | progress change (length DHCP_COOKIE) with 4%nat | progress change (length echo_body) with 32%nat | progress cbn [length] ].
Ltac fits := repeat first [apply Forall_nil_2 | apply Forall_cons_2]; cbn [fst snd]; lengths; unfold MAX_FRAME, TCP_MSS in *; try lia.

(** One statement of a handler. *)
Ltac step :=
  lazymatch goal with
  | |- safe (mbind _ get) _ _ => apply safe_get
  | |- safe (mbind _ (field _)) _ _ => apply safe_field
  | |- safe (mbind _ (byte_at _ _)) _ _ => eapply safe_bind_returns; [apply returns_byte|intros ? ?]
  | |- safe (mbind _ (range _ _ _)) _ _ => eapply safe_bind_returns; [apply returns_range|intros ? [? ?]]
  | |- safe (mbind _ (from _ _)) _ _ => eapply safe_bind_returns; [apply returns_range|intros ? [? ?]]
  | |- safe (mbind _ (read_ip _ _)) _ _ => eapply safe_bind_returns; [apply returns_range|intros ? [? ?]]
  | |- safe (mbind _ (copy_at _ _ _)) _ _ => eapply safe_bind_returns; [apply returns_copy|let Hn := fresh "Hlen" in intros ? [_ Hn]; rewrite ?length_replicate in Hn]
  | |- safe (mbind _ (copies _ _)) _ _ => eapply safe_bind_returns; [apply returns_copies|let Hn := fresh "Hlen" in intros ? Hn; cbv beta in Hn; rewrite ?length_replicate in Hn]
  | |- safe (mbind _ (read_u16 _ _)) _ _ => eapply safe_bind_returns; [apply returns_u16|intros ? ?]
  | |- safe (mbind _ (read_u32 _ _)) _ _ => eapply safe_bind_returns; [apply returns_u32|intros ? ?]
  | |- safe (mbind _ (mret _)) _ _ => apply safe_bind, safe_ret
  | |- safe (mret _) _ _ => apply safe_ret
  | |- safe (modify _) _ _ => apply safe_modify
  | |- safe (if ?b then _ else _) _ _ => destruct b eqn:?
  end.

Lemma length_UNSPECIFIED : length UNSPECIFIED = 16%nat.
Proof. done. Qed.

Lemma find_mac_length ip table to : Forall (fun e => length e.2 = 6%nat) table -> find_mac ip table = Some to -> length to = 6%nat.
Proof.
  intros Ht Hf. unfold find_mac in Hf. destruct (position _ table) as [i|] eqn:Hp; cbn in Hf; [|done]. destruct (position_found _ _ _ Hp) as (e & He & _). rewrite He in Hf.
  injection Hf as <-. rewrite Forall_lookup in Ht. by apply (Ht i).
Qed.

Lemma net_ok_waiting s slots : net_ok s -> length slots = WAITING_FRAMES -> Forall waiting_ok slots -> net_ok (set_waiting slots s).
Proof. intros Hok Hl Hw. net_set. done. Qed.

Lemma fine_park frame next_hop : (length frame <= MAX_FRAME)%nat -> fine (park frame next_hop).
Proof.
  intros Hf s Hs. unfold park. step. destruct (position _ (waiting s)) as [i|] eqn:Hp; [|by step]. destruct (position_found _ _ _ Hp) as (w & Hw & _). rewrite Hw.
  destruct (ok_waiting _ Hs) as [Hl Hall]. rewrite Forall_lookup in Hall. destruct (Hall _ _ Hw) as [Hwl Hwn]. rewrite <- Forall_lookup in Hall.
  step; [lia|]. step. split; [done|]. apply net_ok_waiting; [done|by rewrite length_insert|]. apply Forall_insert; [done|]. split; cbn; lia.
Qed.

Lemma fine_request_mac v4 : fine (request_mac v4).
Proof. intros s Hs. pose proof (ok_mac _ Hs) as Hm. unfold request_mac. step. step. step; [fits|]. apply fine_net_send; [fits|done]. Qed.

Lemma returns_ipv4_header id own dst protocol total : returns (ipv4_header id own dst protocol total) (fun ip => length ip = 20%nat).
Proof.
  unfold ipv4_header. eapply returns_bind; [apply returns_copies; fits|]. intros ip Hip. cbv beta in Hip. rewrite length_replicate in Hip.
  eapply returns_mono; [apply returns_copy; lengths; lia|]. intros a [_ Ha]. lia.
Qed.

(** The frame built goes out to a hardware address. *)
Lemma fine_to_wire (to frame : list Z) n : length to = 6%nat -> length frame = MAX_FRAME -> (n <= MAX_FRAME)%nat ->
  fine (frame ← copy_at 0 to frame; bytes ← range frame 0 n; net_send bytes).
Proof. intros Ht Hf Hn s Hs. step; [unfold MAX_FRAME in *; lia|]. step; [lia|]. apply fine_net_send; [lia|done]. Qed.

Lemma fine_send_ipv4 destination protocol payload : fine (send_ipv4 destination protocol payload).
Proof.
  intros s Hs. unfold send_ipv4. step; [by step|]. step. step. step. pose proof (ok_mac _ Hs) as Hm. step; [fits|].
  assert (Hs1 : net_ok (set_next_identification ((next_identification s + 1) mod 65536) s)) by net_set.
  apply safe_bind, safe_modify. revert Hs1. generalize (set_next_identification ((next_identification s + 1) mod 65536) s). intros s1 Hs1.
  eapply safe_bind_returns; [apply returns_ipv4_header|]. intros ip Hip.
  step; [fits|]. step; [apply fine_to_wire; [done|lia|lia|done]|]. step.
  destruct (find_mac _ _) as [to|] eqn:Hf; [apply fine_to_wire; [eapply find_mac_length, Hf; by destruct (ok_arp _ Hs1)|lia|lia|done]|].
  step; [lia|]. eapply safe_bind_keeps; [apply fine_park; lia|done|]. intros [] s2 _ Hs2. destruct (as_v4 _); [by apply fine_request_mac|by step].
Qed.

Lemma length_source_for s destination : net_ok s -> length (source_for s destination) = 16%nat.
Proof. intros Hs. unfold source_for. destruct (as_v4 destination); [done|]. destruct (_ || _); [exact (ok_link_local _ Hs)|exact (ok_global6 _ Hs)]. Qed.

Lemma returns_icmpv6_message s destination message : (4 <= length message)%nat -> returns (icmpv6_message s destination message) (fun m => length m = length message).
Proof.
  intros Hl. unfold icmpv6_message. eapply returns_bind; [apply returns_copy; cbn; lia|]. intros a [_ Ha]. eapply returns_mono; [apply returns_copy; lengths; lia|].
  intros b [_ Hb]. lia.
Qed.

Lemma length_solicited_node ip : length ip = 16%nat -> length (solicited_node ip) = 16%nat.
Proof. intros Hl. unfold solicited_node. lengths. lia. Qed.

(** A multicast frame needs no neighbour: one level. *)
Lemma fine_multicast depth destination next_header payload : length destination = 16%nat -> ip_byte destination 0 = 255 ->
  fine (send_ipv6_deep (S depth) destination next_header payload).
Proof.
  intros Hd Hm s Hs. cbn [send_ipv6_deep]. step; [by step|]. step. pose proof (ok_mac _ Hs). pose proof (length_source_for s destination Hs). step; [fits|].
  rewrite Hm. change (255 =? 255) with true. cbv iota. step; [lia|]. step; [fits|]. step; [lia|]. apply fine_net_send; [lia|done].
Qed.

Lemma fine_send_ipv6 destination next_header payload : length destination = 16%nat -> fine (send_ipv6 destination next_header payload).
Proof.
  intros Hd. destruct (decide (ip_byte destination 0 = 255)) as [Hm|Hm]; [by apply fine_multicast|]. intros s Hs. unfold send_ipv6. cbn [send_ipv6_deep].
  step; [by step|]. step. pose proof (ok_mac _ Hs). pose proof (length_source_for s destination Hs). step; [fits|]. step; [lia|].
  step; [by step|]. set (next_hop := if is_link_local destination || _ then destination else router6 s) in *.
  assert (Hn : length next_hop = 16%nat) by (unfold next_hop; destruct (_ || _); [done|exact (ok_router6 _ Hs)]).
  destruct (find_mac _ _) as [to|] eqn:Hf; [apply fine_to_wire; [eapply find_mac_length, Hf; by destruct (ok_arp _ Hs)|lia|lia|done]|].
  step; [lia|]. eapply safe_bind_keeps; [apply fine_park; lia|done|]. intros [] s2 _ Hs2. step; [fits|].
  eapply safe_bind_returns; [apply returns_icmpv6_message; lia|]. intros message Hl.
  apply (fine_multicast 0); [by apply length_solicited_node|done|done].
Qed.

Lemma fine_send_icmpv6 destination message : length destination = 16%nat -> (4 <= length message)%nat -> fine (send_icmpv6 destination message).
Proof. intros Hd Hl s Hs. unfold send_icmpv6. step. eapply safe_bind_returns; [by apply returns_icmpv6_message|]. intros m Hm. by apply fine_send_ipv6. Qed.

Lemma fine_send_ip destination protocol payload : length destination = 16%nat -> fine (send_ip destination protocol payload).
Proof. intros Hd. unfold send_ip. destruct (as_v4 destination); [apply fine_send_ipv4|by apply fine_send_ipv6]. Qed.

Lemma fine_send_udp_datagram destination datagram : length destination = 16%nat -> (8 <= length datagram)%nat -> fine (send_udp_datagram destination datagram).
Proof. intros Hd Hl s Hs. unfold send_udp_datagram. step; [cbn; lia|]. step. step; [lengths; lia|]. by apply fine_send_ip. Qed.

Lemma fine_send_datagram destination local remote payload : length destination = 16%nat -> (length payload <= 512)%nat ->
  fine (send_datagram destination local remote payload).
Proof. intros Hd Hl s Hs. unfold send_datagram. step; [fits|]. step; [lia|]. apply fine_send_udp_datagram; [done|lia|done]. Qed.

Lemma fine_solicit_router : fine solicit_router.
Proof. intros s Hs. pose proof (ok_mac _ Hs). unfold solicit_router. step. step; [fits|]. apply fine_send_icmpv6; [done|lia|done]. Qed.

#[export] Hint Resolve fine_send_ipv4 fine_send_ip fine_solicit_router : net.

Section Tcp.
Context `{Kernel}.

Lemma fine_arm_timer : fine arm_timer.
Proof. intros s Hs. unfold arm_timer. step. step; [|by step]. eapply safe_bind_keeps; [by apply fine_emit|done|]. intros [] s' _ Hs'. step. split; [done|]. net_set. Qed.

(** ** TCP: sending *)

Lemma keeps_connection index : (index < CONNECTIONS)%nat -> forall s, net_ok s -> safe (connection index) (fun c s' => s' = s /\ connections s !! index = Some c /\ conn_ok (memory s) c) s.
Proof.
  intros Hi s Hs. unfold safe, connection. destruct (ok_connections _ Hs) as [Hl Hall]. destruct (lookup_lt_is_Some_2 (connections s) index) as [c Hc]; [lia|].
  rewrite Hc. split_and!; try done. rewrite Forall_lookup in Hall. by apply (Hall index).
Qed.

(** [self.connections[index]], read *)
Lemma safe_bind_connection {B} index (k : Connection -> N B) (Q : B -> Stack -> Prop) s : (index < CONNECTIONS)%nat -> net_ok s ->
  (forall c, connections s !! index = Some c -> conn_ok (memory s) c -> safe (k c) Q s) -> safe (mbind k (connection index)) Q s.
Proof. intros Hi Hs Hk. apply safe_bind. eapply safe_mono; [by apply keeps_connection|]. intros c s' (-> & Hc & Hok). auto. Qed.

Lemma net_ok_connection s index c : net_ok s -> conn_ok (memory s) c -> net_ok (set_connections (<[index := c]> (connections s)) s).
Proof. intros Hs Hc. net_set. cbn. destruct ok_connections0. split; [by rewrite length_insert|by apply Forall_insert]. Qed.

Lemma safe_on_connection index f (Q : unit -> Stack -> Prop) s : (index < CONNECTIONS)%nat -> net_ok s ->
  (forall c, connections s !! index = Some c -> conn_ok (memory s) c -> conn_ok (memory s) (f c)) ->
  (forall c, connections s !! index = Some c -> conn_ok (memory s) c -> net_ok (set_connections (<[index := f c]> (connections s)) s) -> Q tt (set_connections (<[index := f c]> (connections s)) s)) ->
  safe (on_connection index f) Q s.
Proof. intros Hi Hs Hf HQ. unfold on_connection. apply safe_bind_connection; [done|done|]. intros c Hc Hok. step. apply HQ; [done..|]. apply net_ok_connection; auto. Qed.

Lemma fine_on_connection index f : (index < CONNECTIONS)%nat -> (forall mem c, conn_ok mem c -> conn_ok mem (f c)) -> fine (on_connection index f).
Proof. intros Hi Hf s Hs. apply safe_on_connection; [done|done|auto|]. intros c _ _ Hok. done. Qed.

Lemma fine_segment destination local_port remote_port sequence acknowledgement flags window payload :
  length destination = 16%nat -> (length payload <= TCP_MSS)%nat -> fine (segment destination local_port remote_port sequence acknowledgement flags window payload).
Proof.
  intros Hd Hl s Hs. unfold segment. set (header := (if has flags SYN then 24 else 20)%nat).
  assert (Hh : (20 <= header <= 24)%nat) by (unfold header; destruct (has _ _); lia). clearbody header. step; [fits|].
  eapply (safe_bind_returns _ _ (fun b => length b = 24 + TCP_MSS)%nat); [destruct (has flags ACK); [|by apply returns_ret]; eapply returns_mono; [apply returns_copy; fits|]; intros b [_ Hb]; lia|].
  intros b1 H1. step; [fits|].
  eapply (safe_bind_returns _ _ (fun b => length b = 24 + TCP_MSS)%nat); [destruct (header =? 24)%nat; [|apply returns_ret; lia]; eapply returns_mono; [apply returns_copies; fits|]; cbv beta; intros b Hb; lia|].
  intros b2 H2. step; [lia|]. step. step; [lia|]. step; [lengths; lia|]. by apply fine_send_ip.
Qed.

Lemma fine_connection_segment index sequence flags payload : (index < CONNECTIONS)%nat -> (length payload <= TCP_MSS)%nat -> fine (connection_segment index sequence flags payload).
Proof. intros Hi Hl s Hs. unfold connection_segment. apply safe_bind_connection; [done|done|]. intros c Hc (Hr & _). by apply fine_segment. Qed.

Lemma fine_send_ack index : (index < CONNECTIONS)%nat -> fine (send_ack index).
Proof. intros Hi s Hs. unfold send_ack. apply safe_bind_connection; [done|done|]. intros c _ _. apply fine_connection_segment; [done|cbn; lia|done]. Qed.

Lemma fine_send_reset index : (index < CONNECTIONS)%nat -> fine (send_reset index).
Proof. intros Hi s Hs. unfold send_reset. apply safe_bind_connection; [done|done|]. intros c _ _. apply fine_connection_segment; [done|cbn; lia|done]. Qed.

Lemma fine_transmit index : (index < CONNECTIONS)%nat -> fine (transmit index).
Proof.
  intros Hi s Hs. unfold transmit. apply safe_bind_connection; [done|done|]. intros c _ (_ & _ & _ & ((Hl & Hm) & size & Hh & Hle) & _).
  apply safe_bind. eapply safe_read_buffer; [exact Hh|lia|]. intros data Hd. step; [fits|]. step; [fits|].
  apply fine_connection_segment; [done|lia|done].
Qed.

Lemma fine_tell_client index tag words : (index < CONNECTIONS)%nat -> fine (tell index tag words).
Proof. intros Hi s Hs. unfold tell. apply safe_bind_connection; [done|done|]. intros c _ _. by apply fine_tell. Qed.

Lemma fine_finish index reason : (index < CONNECTIONS)%nat -> fine (finish index reason).
Proof. intros Hi. unfold finish. apply fine_bind; [by apply fine_tell_client|]. apply fine_on_connection; [done|]. auto with net. Qed.

#[local] Hint Resolve fine_arm_timer fine_on_connection fine_segment fine_send_ack fine_send_reset fine_transmit fine_tell_client fine_finish : net.

(** A flight of nothing, or of a client's data on an open connection. *)
Lemma safe_start_flight index flags base len s : (index < CONNECTIONS)%nat -> net_ok s -> flight_ok (memory s) base len ->
  (forall c, connections s !! index = Some c -> state c = Free -> len = 0) ->
  safe (start_flight index flags base len) (fun _ s' => True /\ net_ok s') s.
Proof.
  intros Hi Hs Hf Hfree. unfold start_flight. apply safe_bind, safe_on_connection; [done|done|..].
  - intros c Hc (Hr & Hb & Hh & _ & Hst). unfold conn_ok. cbn. split_and!; try done; try lia. intros Hz. split; [by apply Hst|by apply (Hfree c)].
  - intros c _ _ Hok. apply (fine_bind (transmit index) arm_timer); auto with net.
Qed.

Lemma fine_send_fin index : (index < CONNECTIONS)%nat -> fine (send_fin index).
Proof.
  intros Hi. unfold send_fin. apply fine_bind.
  - apply fine_on_connection; [done|]. intros mem c (Hr & Hb & Hh & Hf & Hst). unfold conn_ok. cbn. split_and!; try done; try lia. by destruct (state c).
  - intros s Hs. apply safe_start_flight; auto with net.
Qed.
#[local] Hint Resolve fine_send_fin : net.

Lemma conn_ok_state mem c st : conn_ok mem c -> st <> Free -> conn_ok mem (set_state st c).
Proof. intros (Hr & Hb & Hh & Hf & _) Hst. unfold conn_ok. cbn. split_and!; try done; lia. Qed.
Lemma conn_ok_close mem c b : conn_ok mem c -> conn_ok mem (set_close_requested b c).
Proof. done. Qed.
#[local] Hint Resolve conn_ok_state conn_ok_close : net.

Lemma fine_flight_landed index : (index < CONNECTIONS)%nat -> fine (flight_landed index).
Proof.
  intros Hi s Hs. unfold flight_landed. apply safe_bind_connection; [done|done|]. intros c _ _.
  eapply safe_bind_keeps; [apply fine_on_connection; [done|]|done|].
  { intros mem d (Hr & Hb & Hh & Hf & Hst). unfold conn_ok. cbn. split_and!; try done; try lia; auto with net. intros Hz. by destruct (Hst Hz). }
  intros [] s1 _ Hs1. step.
  - destruct (state c); try (by apply safe_ret); try (by apply fine_finish). apply fine_on_connection; [done|by auto with net|done].
  - eapply safe_bind_keeps; [apply fine_if; auto with net|done|].
    intros [] s2 _ Hs2. apply safe_bind_connection; [done|done|]. intros d _ _.
    assert (Hgo : fine (on_connection index (set_close_requested false) ;; send_fin index)) by auto 10 with net.
    destruct (close_requested d); [|by step]. destruct (state d); try (by apply safe_ret); by apply Hgo.
Qed.
#[local] Hint Resolve fine_flight_landed : net.

Lemma fine_announce_open index : (index < CONNECTIONS)%nat -> fine (announce_open index).
Proof.
  intros Hi s Hs. unfold announce_open. apply safe_bind_connection; [done|done|]. intros c _ (Hr & _ & Hh & _ & _).
  apply safe_bind. step; [|step; by apply fine_tell_client]. eapply safe_mono; [eapply safe_write_buffer; [done|exact Hh|lia]|].
  intros [] s' [Hs' _]. by apply fine_tell_client.
Qed.

Lemma conn_ok_new mem st owner reply ip rp lp base size start receive : length ip = 16%nat -> held mem base size -> st <> Free ->
  conn_ok mem (new_connection st owner reply ip rp lp base size start receive).
Proof. intros Hi Hh Hst. unfold conn_ok, new_connection. cbn. split_and!; auto with net; try done; destruct Hh; lia. Qed.

Lemma net_ok_drawn s n : net_ok s -> net_ok (set_drawn n s).
Proof. intros Hs. net_set. Qed.

Lemma net_ok_listeners s ls : net_ok s -> Forall (fun l => held (memory s) (l_base l) (l_size l)) ls -> net_ok (set_listeners ls s).
Proof. intros Hs Hl. net_set. Qed.

(** A new connection starts with a flight of its own. *)
Lemma fine_open index c flags s : (index < CONNECTIONS)%nat -> net_ok s -> conn_ok (memory s) c ->
  safe (on_connection index (fun _ => c) ;; start_flight index flags 0 0) (fun _ s' => True /\ net_ok s') s.
Proof.
  intros Hi Hs Hc. apply safe_bind, safe_on_connection; [done|done|done|]. intros d _ _ Hok. apply safe_start_flight; auto with net.
Qed.

Lemma is_free_index s index : net_ok s -> position is_free (connections s) = Some index -> (index < CONNECTIONS)%nat.
Proof. intros Hs Hp. destruct (position_found _ _ _ Hp) as (c & Hc & _). destruct (ok_connections _ Hs) as [Hl _]. apply lookup_lt_Some in Hc. lia. Qed.

Lemma keeps_accept source rp lp sequence : length source = 16%nat -> keeps (fun _ => True) (accept source rp lp sequence).
Proof.
  intros Hl s Hs. unfold accept. step. destruct (position _ (listeners s)) as [i|] eqn:Hp; [|by step]. destruct (position is_free (connections s)) as [index|] eqn:Hf; [|by step].
  destruct (position_found _ _ _ Hp) as (l & Hli & _). rewrite Hli. pose proof (ok_listeners _ Hs) as Hall. pose proof Hall as Hheld. rewrite Forall_lookup in Hheld. specialize (Hheld _ _ Hli).
  pose proof (is_free_index _ _ Hs Hf) as Hi. apply safe_bind, safe_modify. unfold sequence_start. apply safe_bind, safe_bind. unfold random_u64, safe at 1. step.
  apply safe_bind. eapply safe_mono.
  - apply safe_on_connection with (Q := fun _ s1 => net_ok s1); [done|apply net_ok_drawn, net_ok_listeners; [done|apply Forall_insert; auto with net]|..].
    + intros c _ _. apply conn_ok_new; done.
    + done.
  - intros [] s1 Hs1. apply safe_bind. eapply safe_mono; [apply safe_start_flight; auto with net|]. intros [] s2 [_ Hs2]. by step.
Qed.

End Tcp.

#[export] Hint Resolve fine_arm_timer fine_on_connection fine_segment fine_send_ack fine_send_reset fine_transmit fine_tell_client fine_finish fine_send_fin conn_ok_state conn_ok_close fine_flight_landed fine_announce_open : net.
