(* ===== verification/NetReceive.v ===== *)
(** * Memory safety of the network daemon: what arrives

    DHCP and DNS answers, ARP, and every packet of both families up to [frame] and [drain]:
    whatever the bytes of a frame, the handlers keep [net_ok] and do not panic. *)

From stdpp Require Import base list gmap numbers list_numbers.
From Stdlib Require Import Lia ZifyBool.
From S2P Require Import Prelude NetBytes Net NetSafe.

Lemma bytes_at bs i b : Forall is_byte bs -> bs !! i = Some b -> 0 <= b < 256.
Proof. rewrite Forall_lookup. intros Hb Hi. exact (Hb _ _ Hi). Qed.

Lemma part_bytes a n (bs x : list Z) : Forall is_byte bs -> x = take n (drop a bs) -> Forall is_byte x.
Proof. intros Hb ->. by apply Forall_take, Forall_drop. Qed.
#[export] Hint Resolve part_bytes bytes_at : net.

Section Receive.
Context `{Kernel}.

(** ** DHCP *)

Lemma fine_dhcp_send kind : fine (dhcp_send kind).
Proof.
  intros s Hs. pose proof (ok_mac _ Hs). unfold dhcp_send. step. step; [fits; destruct (kind =? DHCP_REQUEST); lengths; lia|].
  apply fine_send_datagram; [done|lia|done].
Qed.

Lemma fine_configured reply : fine (configured reply).
Proof. intros s Hs. unfold configured. step. by apply fine_tell. Qed.

Lemma fine_tell_waiters answer l : (forall w, fine (answer w)) -> fine (tell_waiters answer l).
Proof. intros Ha. induction l as [|w l IH]; cbn [tell_waiters]; auto with net. Qed.

Lemma returns_dhcp_option message code len value o : Forall is_byte message -> (value + len <= length message)%nat -> returns (dhcp_option message code len value o) (fun _ => True).
Proof.
  intros Hb Hl. unfold dhcp_option.
  repeat match goal with |- returns (if ?b then _ else _) _ => destruct b eqn:? end; try (by apply returns_ret);
    (eapply returns_bind; [first [apply returns_byte; lia | apply returns_u32; [lia|done]]|]); intros v _; by apply returns_ret.
Qed.

Lemma returns_dhcp_options message : Forall is_byte message -> forall fuel at_ o, (at_ <= length message < fuel + at_)%nat -> returns (dhcp_options fuel message at_ o) (fun _ => True).
Proof.
  intros Hb fuel. induction fuel as [|fuel IH]; intros at_ o Hf; cbn [dhcp_options].
  - exfalso. lia.
  - destruct (_ <=? _)%nat eqn:He; [by apply returns_ret|]. eapply returns_bind; [apply returns_byte; lia|]. intros code Hc.
    destruct (code =? 255); [by apply returns_ret|]. destruct (code =? 0); [apply IH; lia|].
    eapply returns_bind; [apply returns_byte; lia|]. intros len Hlen. destruct (_ <? _)%nat eqn:Hr; [by apply returns_ret|].
    eapply returns_bind; [apply returns_dhcp_option; [done|lia]|]. intros o' _. apply IH. lia.
Qed.

Lemma net_ok_resolve s slot r : net_ok s -> resolve_ok (memory s) r -> net_ok (set_resolves (<[slot := r]> (resolves s)) s).
Proof. intros Hs Hr. destruct (ok_resolves _ Hs). net_set. cbn. split; [by rewrite length_insert|by apply Forall_insert]. Qed.

Lemma resolve_default mem : resolve_ok mem Resolve_default.
Proof. by intros Hid. Qed.

Lemma net_ok_dns s port server : net_ok s -> length server = 16%nat -> net_ok (set_dns_port port (set_dns_server server s)).
Proof. intros Hs Hl. net_set. Qed.

Lemma safe_random {B} (k : Z -> N B) (Q : B -> Stack -> Prop) s : net_ok s -> (forall r n, net_ok (set_drawn n s) -> safe (k r) Q (set_drawn n s)) -> safe (mbind k random_u64) Q s.
Proof. intros Hs Hk. unfold random_u64, safe, mbind, M_bind. apply Hk. by apply net_ok_drawn. Qed.

Lemma fine_modify f : (forall s, net_ok s -> net_ok (f s)) -> fine (modify f).
Proof. intros Hf s Hs. step. split; [done|auto]. Qed.

Lemma fine_dhcp_act message o : Forall is_byte message -> (240 <= length message)%nat -> fine (dhcp_act message o).
Proof.
  intros Hb Hl s Hs. unfold dhcp_act. step. destruct (dhcp s).
  - by step.
  - step; [|by step]. step; [lia|done|]. apply fine_bind; [|apply fine_dhcp_send|done]. apply fine_modify. intros s1 Hs1. net_set.
  - step.
    + apply fine_bind; [|apply fine_bind; [|apply fine_bind]|done].
      * apply fine_modify. intros s1 Hs1. net_set.
      * apply fine_if; [|apply fine_ret]. apply fine_modify. intros s1 Hs1. by apply net_ok_dns.
      * apply fine_modify. intros s1 Hs1. net_set.
      * intros s1 Hs1. step. apply fine_bind; [|apply fine_tell_waiters, fine_configured|done]. apply fine_modify. intros s2 Hs2. net_set.
    + step; [|by step]. apply safe_random; [done|]. intros r n Hs1. apply fine_bind; [|apply fine_dhcp_send|done]. apply fine_modify. intros s2 Hs2. net_set.
Qed.

Lemma fine_dhcp_reply message : Forall is_byte message -> fine (dhcp_reply message).
Proof.
  intros Hb s Hs. unfold dhcp_reply. step; [by step|]. step; [lia|]. step; [lia|done|]. step; [lia|]. step; [lia|]. step. step; [by step|].
  eapply safe_bind_returns; [apply returns_dhcp_options; [done|lia]|]. intros [o|] _; [|by step]. apply fine_dhcp_act; [done|lia|done].
Qed.

Lemma fine_dhcp_tick : fine dhcp_tick.
Proof.
  intros s Hs. unfold dhcp_tick. step. step; [by step|]. apply fine_bind; [|apply fine_if; [apply fine_bind|]|done].
  - apply fine_modify. intros s1 Hs1. net_set.
  - apply fine_modify. intros s1 Hs1. net_set.
  - apply fine_dhcp_send.
  - apply fine_ret.
Qed.

(** ** DNS *)

(** Written as labels, a name takes one byte more than it has. *)
Lemma labels_total name : forall current, sum_list_with (fun l => 1 + length l)%nat (labels name current) = (1 + length name + length current)%nat.
Proof.
  induction name as [|b name IH]; intros current; cbn [labels sum_list_with length]; [lia|]. destruct (b =? 46); cbn [sum_list_with]; rewrite IH; [cbn; lia|].
  rewrite length_app. cbn. lia.
Qed.

Lemma returns_put_labels l : forall at_ query, (at_ + sum_list_with (fun l => 1 + length l) l <= length query)%nat ->
  returns (put_labels l at_ query) (fun o => match o with Some (n, q) => n = (at_ + sum_list_with (fun l => 1 + length l) l)%nat /\ length q = length query | None => True end).
Proof.
  induction l as [|x l IH]; intros at_ query Hl; cbn [put_labels sum_list_with] in *; [apply returns_ret; lia|]. destruct (_ || _); [by apply returns_ret|].
  eapply returns_bind; [apply returns_copies; fits|]. cbv beta. intros q Hq. eapply returns_mono; [apply IH; lia|]. intros [[n r]|] Hr; [|done]. lia.
Qed.

Lemma safe_resolve_at {B} slot (k : Resolve -> N B) (Q : B -> Stack -> Prop) s : (slot < RESOLVERS)%nat -> net_ok s ->
  (forall r, resolves s !! slot = Some r -> resolve_ok (memory s) r -> safe (k r) Q s) -> safe (mbind k (resolve_at slot)) Q s.
Proof.
  intros Hi Hs Hk. destruct (ok_resolves _ Hs) as [Hl Hall]. destruct (lookup_lt_is_Some_2 (resolves s) slot) as [r Hr]; [lia|].
  unfold resolve_at, safe, mbind, M_bind. rewrite Hr. apply Hk; [done|]. rewrite Forall_lookup in Hall. by apply (Hall slot).
Qed.

(** A question for a name that is really there. *)
Lemma safe_dns_query slot s r : net_ok s -> resolves s !! slot = Some r -> r_id r <> 0 -> (slot < RESOLVERS)%nat -> safe (dns_query slot) (fun _ s' => True /\ net_ok s') s.
Proof.
  intros Hs Hr Hid Hi. unfold dns_query. apply safe_resolve_at; [done|done|]. intros r' Hr' Hok. rewrite Hr in Hr'. injection Hr' as <-.
  destruct (Hok Hid) as ([Hl0 Hl] & size & Hh & Hle & _). apply safe_bind. eapply safe_read_buffer; [exact Hh|lia|]. intros name Hn. step; [fits|].
  eapply safe_bind_returns; [apply returns_put_labels; rewrite labels_total; cbn [length]; lia|]. intros [[at_ q]|] Hq; [|by step]. rewrite labels_total in Hq. cbn [length] in Hq.
  step; [fits|]. step. step; [lia|]. eapply safe_bind_keeps; [apply fine_send_datagram; [exact (ok_dns_server _ Hs)|lia]|done|]. intros [] s' _ Hs'. by step.
Qed.

Lemma fine_on_resolve slot r : (forall mem, resolve_ok mem r) -> fine (on_resolve slot r).
Proof. intros Hr. apply fine_modify. intros s Hs. by apply net_ok_resolve. Qed.

Lemma fine_dns_tick_slot slot : (slot < RESOLVERS)%nat -> fine (dns_tick_slot slot).
Proof.
  intros Hi s Hs. unfold dns_tick_slot. apply safe_resolve_at; [done|done|]. intros r Hr Hok. step; [by step|]. step.
  - unfold on_resolve. step. split; [done|]. by apply net_ok_resolve.
  - step; [apply fine_bind; [apply fine_on_resolve, resolve_default|apply fine_tell|done]|].
    unfold on_resolve. apply safe_bind, safe_modify. set (s1 := set_resolves _ s). assert (Hs1 : net_ok s1) by (by apply net_ok_resolve).
    apply safe_bind. eapply safe_mono; [eapply safe_dns_query; [exact Hs1| |..]|].
    + unfold s1. cbn. apply list_lookup_insert_eq. destruct (ok_resolves _ Hs). lia.
    + cbn. lia.
    + done.
    + intros _ s2 [_ Hs2]. by step.
Qed.

Lemma fine_dns_tick : fine dns_tick.
Proof. unfold dns_tick. apply fine_for_each. intros i Hi%elem_of_seq. apply fine_dns_tick_slot. lia. Qed.

(** *** Answers *)

Lemma returns_skip_name message : Forall is_byte message -> forall fuel at_, 0 <= at_ -> Z.of_nat (length message) < Z.of_nat fuel + at_ -> (0 < fuel)%nat -> returns (skip_name fuel message at_) (fun v => 0 <= v).
Proof.
  intros Hb fuel. induction fuel as [|fuel IH]; intros at_ Ha Hf Hp; [lia|]. cbn [skip_name]. destruct (_ <=? _) eqn:He; [apply returns_ret; unfold FAR; vm_compute; discriminate|].
  eapply returns_bind; [apply returns_byte; lia|]. intros b Hb'. cbv beta in Hb'. pose proof (bytes_at _ _ _ Hb Hb').
  destruct (b =? 0); [apply returns_ret; lia|]. destruct (_ =? 192); [apply returns_ret; lia|]. apply IH; lia.
Qed.

Lemma returns_skip message at_ : Forall is_byte message -> 0 <= at_ -> returns (skip message at_) (fun v => 0 <= v).
Proof. intros Hb Ha. apply returns_skip_name; [done|done|lia|lia]. Qed.

Lemma returns_skip_questions message n : Forall is_byte message -> forall at_, 0 <= at_ -> returns (skip_questions n message at_) (fun v => 0 <= v).
Proof.
  intros Hb. induction n as [|n IH]; intros at_ Ha; cbn [skip_questions]; [by apply returns_ret|]. eapply returns_bind; [by apply returns_skip|]. cbv beta; intros a Hge. apply IH. lia.
Qed.

Lemma safe_find_answer lookup message n s : Forall is_byte message -> net_ok s -> resolve_ok (memory s) lookup -> r_id lookup <> 0 -> forall at_, 0 <= at_ ->
  safe (find_answer n lookup message at_) (fun _ s' => True /\ net_ok s') s.
Proof.
  intros Hb Hs Hr Hid. induction n as [|n IH]; intros at_ Ha; cbn [find_answer]; [by step|]. eapply safe_bind_returns; [by apply returns_skip|]. cbv beta; intros a Hge. step; [by step|].
  step; [lia|done|]. step; [lia|done|]. step; [lia|done|]. destruct (Hr Hid) as (_ & size & Hh & _ & Hsize).
  destruct (_ && (_ <=? _)) eqn:Hcond.
  - destruct (r_kind lookup =? 1) eqn:Hk; cbn [Z.eqb Pos.eqb].
    + step; [lia|done|]. by step.
    + specialize (Hsize ltac:(lia)). step; [lia|]. apply safe_bind. eapply safe_mono; [eapply safe_write_buffer; [done|exact Hh|lia]|]. intros [] s' [Hs' _]. by step.
  - apply IH. unfold u16 in *. lia.
Qed.

Lemma fine_dns_reply slot message s r : (slot < RESOLVERS)%nat -> Forall is_byte message -> net_ok s -> resolves s !! slot = Some r -> r_id r <> 0 ->
  safe (dns_reply slot message) (fun _ s' => True /\ net_ok s') s.
Proof.
  intros Hi Hb Hs Hr Hid. unfold dns_reply. apply safe_resolve_at; [done|done|]. intros r' Hr' Hok. rewrite Hr in Hr'. injection Hr' as <-. step; [by step|].
  step; [lia|done|]. step; [lia|]. step; [by step|]. step; [lia|]. step; [lia|done|]. step; [lia|done|].
  eapply safe_bind_returns; [apply returns_skip_questions; [done|lia]|]. cbv beta; intros at_ Ha. apply safe_bind.
  eapply safe_mono; [by apply safe_find_answer|]. intros found s1 [_ Hs1]. destruct (match found with Some _ => _ | None => _ end) as [v status].
  apply fine_bind; [apply fine_on_resolve, resolve_default|apply fine_tell|done].
Qed.

(** ** The link *)

Lemma fine_learn_slot ip to slot : (slot < WAITING_FRAMES)%nat -> length to = 6%nat -> fine (learn_slot ip to slot).
Proof.
  intros Hi Ht s Hs. unfold learn_slot. step. destruct (ok_waiting _ Hs) as [Hl Hall]. destruct (lookup_lt_is_Some_2 (waiting s) slot) as [w Hw]; [lia|]. rewrite Hw.
  rewrite Forall_lookup in Hall. destruct (Hall _ _ Hw) as [Hwf Hwl]. step; [|by step]. step; [unfold MAX_FRAME in *; lia|]. step; [lia|].
  eapply safe_bind_keeps; [apply fine_net_send; lia|done|]. intros [] s1 _ Hs1. step. split; [done|]. destruct (ok_waiting _ Hs1) as [Hl1 Hall1].
  apply net_ok_waiting; [done|by rewrite length_insert|]. apply Forall_insert; [done|]. split; cbn; lia.
Qed.

Lemma net_ok_arp s i e n : net_ok s -> length e.2 = 6%nat -> (n < ARP_ENTRIES)%nat -> net_ok (set_arp_next n (set_arp_table (<[i := e]> (arp_table s)) s)).
Proof. intros Hs He Hn. destruct (ok_arp _ Hs). net_set. cbn. split; [by rewrite length_insert|by apply Forall_insert]. Qed.

Lemma fine_learn ip to : length to = 6%nat -> fine (learn ip to).
Proof.
  intros Ht. unfold learn. intros s Hs. step. apply fine_bind; [|apply fine_for_each; intros i Hi%elem_of_seq; apply fine_learn_slot; [lia|done]|done].
  destruct (position _ (arp_table s)) as [i|] eqn:Hp.
  - intros s1 Hs1. step. split; [done|]. destruct (ok_arp _ Hs). net_set. cbn. split; [by rewrite length_insert|by apply Forall_insert].
  - pose proof (ok_arp_next _ Hs) as Hn. destruct (ok_arp _ Hs) as [Hl _]. replace (arp_next s <? length (arp_table s))%nat with true by lia.
    intros s1 Hs1. step. split; [done|]. apply net_ok_arp; [done|done|]. apply Nat.mod_upper_bound. done.
Qed.

Lemma fine_arp packet : Forall is_byte packet -> fine (arp packet).
Proof.
  intros Hb s Hs. unfold arp. step; [by step|]. step; [lia|done|]. step; [lia|done|]. step; [lia|]. step; [lia|]. step; [by step|].
  step; [lia|done|]. step; [lia|]. step; [lia|done|]. step; [lia|done|]. step. step; [by step|].
  eapply safe_bind_keeps; [apply fine_learn; lia|done|]. intros [] s1 _ Hs1. step; [|by step]. pose proof (ok_mac _ Hs1). step. step. step; [fits|].
  apply fine_net_send; [unfold MAX_FRAME; lia|done].
Qed.

(** ** ICMP and UDP *)

Lemma fine_pong sequence source word : fine (pong sequence source word).
Proof.
  intros s Hs. unfold pong. step. destruct (position _ (pings s)) as [i|] eqn:Hp; [|by step]. destruct (position_found _ _ _ Hp) as (p & -> & _).
  apply fine_bind; [apply fine_tell| |done]. apply fine_modify. intros s1 Hs1. net_set.
Qed.

Lemma fine_icmp source message : Forall is_byte message -> fine (icmp source message).
Proof.
  intros Hb s Hs. unfold icmp. step; [by step|]. step; [lia|]. step.
  - step; [lia|]. step; [fits|]. step; [lia|]. step; [lengths; unfold MAX_FRAME in *; lia|]. by apply fine_send_ipv4.
  - step; [|by step]. step; [lia|done|]. step; [|by step]. step; [lia|done|]. by apply fine_pong.
Qed.

Lemma fine_deliver source source_port port payload : length source = 16%nat -> fine (deliver source source_port port payload).
Proof.
  intros Hl s Hs. unfold deliver. step. destruct (position _ (bindings s)) as [i|] eqn:Hp; [|by step]. destruct (position_found _ _ _ Hp) as (b & Hb & _). rewrite Hb.
  pose proof (ok_bindings _ Hs) as Hall. rewrite Forall_lookup in Hall. pose proof (Hall _ _ Hb) as Hh. cbv beta in Hh. set (sk := (if as_v4 source then 0 else 16)%nat).
  assert (Hsk : (sk <= 16)%nat) by (unfold sk; destruct (as_v4 source); lia). step; [by step|]. destruct Hh as [Hsize Hh].
  apply safe_bind. eapply safe_mono; [eapply safe_write_buffer; [done|by split|lengths; lia]|]. intros [] s1 [Hs1 (mem' & -> & Hm)].
  apply safe_bind. eapply safe_mono; [eapply safe_write_buffer; [done|eapply (held_mono _ _ _ _ _ Hm); [done|by split]|lengths; lia]|].
  intros [] s2 [Hs2 _]. by apply fine_tell.
Qed.

Lemma fine_udp source destination datagram : length source = 16%nat -> Forall is_byte datagram -> fine (udp source destination datagram).
Proof.
  intros Hl Hb s Hs. unfold udp. step; [by step|]. step; [by step|]. step; [lia|done|]. step; [lia|done|]. step; [lia|done|]. step; [lia|]. step.
  step; [apply fine_dhcp_reply; [eauto with net|done]|]. step; [|by apply fine_deliver].
  apply safe_resolve_at; [lia|done|]. intros r Hr _. step; [|by step]. eapply fine_dns_reply; [lia|eauto with net|done|exact Hr|lia].
Qed.

(** ** TCP *)

Lemma fine_tcp_unknown source rp lp sequence acknowledgement flags payload : length source = 16%nat -> fine (tcp_unknown source rp lp sequence acknowledgement flags payload).
Proof.
  intros Hl s Hs. unfold tcp_unknown. step; [by step|]. eapply (safe_bind_keeps _ _ (fun _ => True)); [|done|].
  - destruct (_ && _); [by apply keeps_accept|]. intros s1 Hs1. by step.
  - intros [] s1 _ Hs1; [by step|]. step; apply fine_segment; cbn; (done || lia).
Qed.

Lemma fine_tcp_reset index c sequence acknowledgement flags : (index < CONNECTIONS)%nat -> fine (tcp_reset index c sequence acknowledgement flags).
Proof. intros Hi. unfold tcp_reset. apply fine_if; auto with net. Qed.

Lemma conn_ok_receive mem c n : conn_ok mem c -> conn_ok mem (set_next_receive n c).
Proof. done. Qed.

Lemma keeps_then (m : N unit) (b : bool) : fine m -> keeps (fun _ => True) (m ;; mret b).
Proof. intros Hm s Hs. eapply safe_bind_keeps; [exact Hm|done|]. intros [] s' _ Hs'. by step. Qed.

Lemma fine_opened index f : (index < CONNECTIONS)%nat -> (forall mem c, conn_ok mem c -> conn_ok mem (f c)) -> fine (on_connection index f ;; flight_landed index ;; announce_open index).
Proof. intros Hi Hf. auto 10 with net. Qed.

Lemma keeps_tcp_acknowledge index c sequence acknowledgement flags : (index < CONNECTIONS)%nat -> keeps (fun _ => True) (tcp_acknowledge index c sequence acknowledgement flags).
Proof.
  intros Hi. assert (Hland : fine (if has flags ACK && negb (unacknowledged c =? next_send c) && (acknowledgement =? next_send c) then flight_landed index else mret tt)) by auto with net.
  unfold tcp_acknowledge. destruct (state c); try (by apply keeps_then).
  - apply keeps_then. apply fine_if; [|apply fine_ret]. apply fine_bind; [|auto 10 with net].
    apply fine_on_connection; [done|]. intros mem d Hd. apply conn_ok_state; [by apply conn_ok_receive|done].
  - intros s Hs. step; [by step|]. eapply safe_bind_keeps; [apply fine_on_connection; [done|auto with net]|done|]. intros [] s1 _ Hs1.
    eapply safe_bind_keeps; [by apply fine_flight_landed|done|]. intros [] s2 _ Hs2. by apply keeps_then; [apply fine_announce_open|].
Qed.

(** Data goes where the client's buffer has room. *)
Lemma keeps_tcp_data index receiving sequence payload : (index < CONNECTIONS)%nat -> keeps (fun _ => True) (tcp_data index receiving sequence payload).
Proof.
  intros Hi s Hs. unfold tcp_data. step; [by step|]. step; [by step|]. apply safe_bind_connection; [done|done|]. intros c Hc (Hr & Hf & Hh & Hfl & Hst).
  step; [|by step]. apply safe_bind. eapply safe_mono; [eapply safe_write_buffer; [done|exact Hh|lia]|]. intros [] s1 [Hs1 (mem' & -> & Hm)].
  apply safe_bind, safe_on_connection; [done|done|..].
  - intros d Hd (Hr' & Hf' & Hh' & Hfl' & Hst'). cbn in Hd. rewrite Hc in Hd. injection Hd as <-. unfold conn_ok. cbn in *. split_and!; try done; lia.
  - intros d _ _ Hs2. by apply keeps_then; [apply fine_tell_client|].
Qed.

Lemma fine_tcp_finish index receiving accepted sequence flags payload : (index < CONNECTIONS)%nat -> fine (tcp_finish index receiving accepted sequence flags payload).
Proof.
  intros Hi s Hs. unfold tcp_finish. apply safe_bind_connection; [done|done|]. intros c _ _. step; [|by apply fine_if; auto with net].
  eapply safe_bind_keeps; [apply fine_on_connection; [done|intros mem d; apply conn_ok_receive]|done|]. intros [] s1 _ Hs1.
  eapply safe_bind_keeps; [by apply fine_send_ack|done|]. intros [] s2 _ Hs2.
  assert (Hset : forall st, st <> Free -> fine (on_connection index (set_state st))) by (intros st Hst; apply fine_on_connection; auto with net).
  destruct (state c); try (by apply fine_finish); [|by apply Hset]. apply fine_bind; [by apply Hset|by apply fine_tell_client|done].
Qed.

Lemma fine_tcp_known index sequence acknowledgement flags payload : (index < CONNECTIONS)%nat -> fine (tcp_known index sequence acknowledgement flags payload).
Proof.
  intros Hi s Hs. unfold tcp_known. apply safe_bind_connection; [done|done|]. intros c _ _. step; [by apply fine_tcp_reset|].
  eapply safe_bind_keeps; [by apply keeps_tcp_acknowledge|done|]. intros go s1 _ Hs1. step; [by step|].
  apply safe_bind_connection; [done|done|]. intros d _ _. eapply safe_bind_keeps; [by apply keeps_tcp_data|done|]. intros acc s2 _ Hs2. by apply fine_tcp_finish.
Qed.

Lemma fine_tcp source destination segment : length source = 16%nat -> Forall is_byte segment -> fine (tcp source destination segment).
Proof.
  intros Hl Hb s Hs. unfold tcp. step; [by step|]. step; [lia|done|]. step; [lia|done|]. step; [lia|done|]. step; [lia|done|]. step; [lia|]. step; [lia|].
  step; [by step|]. step; [lia|]. step. destruct (position _ (connections s)) as [index|] eqn:Hp; [|by apply fine_tcp_unknown].
  destruct (position_found _ _ _ Hp) as (c & Hc & _). apply fine_tcp_known; [|done]. destruct (ok_connections _ Hs). apply lookup_lt_Some in Hc. lia.
Qed.

(** ** The network layer *)

Lemma fine_ipv4 packet : Forall is_byte packet -> fine (ipv4 packet).
Proof.
  intros Hb s Hs. unfold ipv4. step; [by step|]. step; [lia|]. step; [by step|]. step; [lia|done|]. step; [by step|]. step; [lia|]. step; [by step|].
  step; [lia|done|]. step; [by step|]. step; [lia|done|]. step. step; [by step|]. step; [lia|done|]. step; [lia|]. step; [lia|].
  step; [apply fine_icmp; eauto with net|]. step; [apply fine_udp; eauto with net|]. step; [apply fine_tcp; eauto with net|by step].
Qed.

Lemma keeps_advertised source l : forall prefix dns, length dns = 16%nat -> match prefix with Some p => length p = 16%nat | None => True end ->
  keeps (fun r => length r.2 = 16%nat /\ match r.1 with Some p => length p = 16%nat | None => True end) (advertised source l prefix dns).
Proof.
  induction l as [|[kind option] l IH]; intros prefix dns Hd Hp s Hs; cbn [advertised]; [by step|]. step.
  - step; [lia|]. eapply safe_bind_keeps; [apply fine_learn; lia|done|]. intros [] s1 _ Hs1. by apply IH.
  - step; [|step; [|by apply IH]].
    + step; [lia|]. step; [|by apply IH]. step; [lia|]. apply IH; [done|lia|done].
    + step; [lia|]. apply IH; [lia|done|done].
Qed.

Lemma fine_configured6 reply : fine (configured6 reply).
Proof. intros s Hs. unfold configured6. step. by apply fine_tell. Qed.

Lemma fine_router_advertisement source message : length source = 16%nat -> (16 <= length message)%nat -> fine (router_advertisement source message).
Proof.
  intros Hl Hm s Hs. unfold router_advertisement. step; [lia|]. eapply safe_bind_keeps; [by apply keeps_advertised|done|].
  intros [[prefix|] dns] s1 [Hd Hp] Hs1; [|by step]. cbn [fst snd] in *. eapply safe_bind_keeps; [apply fine_modify; intros s2 Hs2; net_set|done|]. intros [] s2 _ Hs2.
  step. apply fine_bind; [|apply fine_bind; [|]|done].
  - apply fine_if; [|apply fine_ret]. apply fine_modify. intros s3 Hs3. pose proof (ok_link_local _ Hs2). net_set. cbn. lengths. lia.
  - apply fine_if; [apply fine_ret|]. apply fine_bind; [apply fine_modify; intros s3 Hs3; net_set|]. apply fine_if; [|apply fine_ret]. apply fine_modify. intros s3 Hs3. by apply net_ok_dns.
  - intros s3 Hs3. step. apply fine_bind; [apply fine_modify; intros s4 Hs4; net_set|apply fine_tell_waiters, fine_configured6|done].
Qed.

Lemma link_option_length kind bytes o : link_option kind bytes = Some o -> (8 <= length o)%nat.
Proof.
  unfold link_option. intros Ho. destruct (position _ (options bytes)) as [i|] eqn:Hp; cbn in Ho; [|done]. destruct (position_found _ _ _ Hp) as (x & Hx & Hc).
  rewrite Hx in Ho. injection Ho as <-. lia.
Qed.

Lemma fine_learn_option kind body ip : fine (match link_option kind body with Some o => to ← range o 2 8; learn ip to | None => mret tt end).
Proof. intros s Hs. destruct (link_option kind body) as [o|] eqn:Ho; [|by step]. apply link_option_length in Ho. step; [lia|]. apply fine_learn; [lia|done]. Qed.

Lemma fine_neighbour_solicitation source message : length source = 16%nat -> (24 <= length message)%nat -> fine (neighbour_solicitation source message).
Proof.
  intros Hl Hm s Hs. unfold neighbour_solicitation. step; [lia|]. step. step; [by step|]. step; [lia|].
  eapply safe_bind_keeps; [apply fine_if; [apply fine_ret|apply fine_learn_option]|done|]. intros [] s1 _ Hs1. pose proof (ok_mac _ Hs). step; [fits|].
  apply fine_send_icmpv6; [destruct (same_ip source UNSPECIFIED); [reflexivity|exact Hl]|lia|done].
Qed.

Lemma fine_neighbour_advertisement message : (24 <= length message)%nat -> fine (neighbour_advertisement message).
Proof. intros Hm s Hs. unfold neighbour_advertisement. step; [lia|]. step; [lia|]. by apply fine_learn_option. Qed.

Lemma fine_icmpv6 source destination hop_limit message : length source = 16%nat -> Forall is_byte message -> fine (icmpv6 source destination hop_limit message).
Proof.
  intros Hl Hb s Hs. unfold icmpv6. step; [by step|]. step; [lia|]. step.
  { step; [lia|]. step; [fits|]. step; [lia|]. apply fine_send_icmpv6; [done|unfold MAX_FRAME in *; lia|done]. }
  step. { step; [lia|done|]. step; [|by step]. step; [lia|done|]. by apply fine_pong. }
  step; [apply fine_router_advertisement; (done || lia)|]. step; [apply fine_neighbour_solicitation; (done || lia)|].
  step; [apply fine_neighbour_advertisement; (done || lia)|by step].
Qed.

Lemma fine_ipv6 packet : Forall is_byte packet -> fine (ipv6 packet).
Proof.
  intros Hb s Hs. unfold ipv6. step; [by step|]. step; [lia|]. step; [by step|]. step; [lia|done|]. step; [by step|]. step; [lia|]. step; [lia|]. step; [lia|]. step; [lia|].
  step. step; [by step|]. step; [lia|]. step; [apply fine_icmpv6; [lia|eauto with net|done]|]. step; [apply fine_udp; [lia|eauto with net|done]|].
  step; [apply fine_tcp; [lia|eauto with net|done]|by step].
Qed.

(** Whatever a frame holds. *)
Lemma fine_frame bytes : Forall is_byte bytes -> fine (frame bytes).
Proof.
  intros Hb s Hs. unfold frame. step; [by step|]. step; [lia|done|]. step; [lia|].
  step; [apply fine_arp; eauto with net|]. step; [apply fine_ipv4; eauto with net|]. step; [apply fine_ipv6; eauto with net|by step].
Qed.

(** [net_receive] fills a buffer of [MAX_FRAME] bytes. *)
Definition frame_ok (bytes : list Z) : Prop := (length bytes <= MAX_FRAME)%nat /\ Forall is_byte bytes.

Lemma fine_drain l : Forall frame_ok l -> fine (drain l).
Proof.
  unfold drain. generalize 64%nat. intros n Hl. revert n. induction l as [|bytes l IH]; intros [|n]; cbn [drain_some]; try apply fine_ret.
  apply Forall_cons in Hl as [[Hm Hb] Hl]. replace (MAX_FRAME <? length bytes)%nat with false by lia. apply fine_if; [apply fine_ret|].
  apply fine_bind; [by apply fine_frame|auto].
Qed.

End Receive.
