(* ===== verification/NetCommands.v ===== *)
(** * Memory safety of the network daemon: what clients ask, and time

    The table of mapped buffers and the commands over it, the ticks of the timer, and the
    daemon's loop as a whole. *)

From stdpp Require Import base list gmap numbers list_numbers.
From Stdlib Require Import Lia ZifyBool.
From S2P Require Import Prelude NetBytes Net NetSafe NetReceive.

Lemma entry_held mem m : entry_ok mem m -> held mem m.1.2 m.2.
Proof. intros [[_ ->] | (Hp & bytes & Hb & He & Hlt)]; [apply held_nothing|]. split; [lia|]. right. eauto. Qed.

Lemma existsb_false {A} (P : A -> bool) l x : existsb P l = false -> x ∈ l -> P x = false.
Proof. intros He Hx. destruct (P x) eqn:HP; [|done]. exfalso. apply Bool.not_true_iff_false in He. apply He, existsb_exists. exists x. split; [by apply list_elem_of_In|done]. Qed.

Lemma position_insert {A} (P : A -> bool) l i x : position P l = None -> (i < length l)%nat -> P x = true -> position P (<[i := x]> l) = Some i.
Proof.
  revert i. induction l as [|y l IH]; intros i Hp Hi Hx; cbn [length] in Hi; [lia|]. cbn [position] in Hp. destruct (P y) eqn:Hy; [done|].
  destruct i as [|i]; cbn; [by rewrite Hx|]. rewrite Hy, IH; [done| |lia|done]. by destruct (position P l).
Qed.

Section Commands.
Context `{KernelLaw}.

(** ** Buffers mapped and given up *)

(** A buffer that nothing refers to goes. *)
Lemma net_ok_unmap s slot handle base size : net_ok s -> mappings s !! slot = Some (handle, base, size) -> refers_to s base = false ->
  net_ok (set_memory (delete base (memory s)) (set_mappings (<[slot := (0, 0, 0)]> (mappings s)) s)).
Proof.
  intros Hs Hslot Hr. unfold refers_to in Hr. rewrite !orb_false_iff in Hr. destruct Hr as [[[Hrb Hrl] Hrc] Hrr].
  assert (Hm : same_sizes (memory s) (delete base (memory s)) (fun b => b <> base)).
  { intros b bytes Hb Hl. exists bytes. by rewrite lookup_delete_ne by done. }
  pose proof (ok_apart _ Hs) as Hap. pose proof (ok_mappings _ Hs) as Hmaps. destruct (ok_connections _ Hs) as [Hcl Hc]. destruct (ok_resolves _ Hs) as [Hrl' Hres].
  pose proof (ok_bindings _ Hs) as Hbs. pose proof (ok_listeners _ Hs) as Hls. rewrite Forall_forall in Hc. rewrite Forall_forall in Hres. rewrite Forall_forall in Hbs. rewrite Forall_forall in Hls. rewrite Forall_lookup in Hmaps.
  destruct Hs; constructor; try assumption; cbn.
  - apply Forall_forall. intros b Hb. eapply held_mono; [exact Hm| |by apply Hbs]. intros _. pose proof (existsb_false _ _ _ Hrb Hb). lia.
  - apply Forall_forall. intros l Hl. eapply held_mono; [exact Hm| |by apply Hls]. intros _. pose proof (existsb_false _ _ _ Hrl Hl). lia.
  - split; [done|]. apply Forall_forall. intros c Hin. destruct (Hc c Hin) as (Hre & Hf & Hh & (Hfl & fs & Hfh & Hfs) & Hst). pose proof (existsb_false _ _ _ Hrc Hin) as Hno.
    unfold conn_ok. destruct (decide (state c = Free)) as [Hfree|Hfree].
    + destruct (Hst Hfree) as [Hz1 Hz2]. rewrite Hz1, Hz2 in *. split_and!; auto with net; lia.
    + unfold is_free in Hno. rewrite bool_decide_false in Hno by done. split_and!; try done; try lia; [eapply held_mono; [exact Hm|lia|done]|].
      split; [done|]. exists fs. split; [|done]. eapply held_mono; [exact Hm|lia|done].
  - split; [done|]. apply Forall_forall. intros r Hin Hid. destruct (Hres r Hin Hid) as (Hl & sz & Hh & Hle). split; [done|]. exists sz. split; [|done].
    eapply held_mono; [exact Hm| |exact Hh]. pose proof (existsb_false _ _ _ Hrr Hin). lia.
  - apply Forall_lookup. intros i m Hi. destruct (decide (i = slot)) as [->|Hne].
    + rewrite list_lookup_insert_eq in Hi by (by eapply lookup_lt_Some). injection Hi as <-. by left.
    + rewrite list_lookup_insert_ne in Hi by done. destruct (Hmaps i m Hi) as [Hz | (Hp & bytes & Hb & He)]; [by left|]. right. split; [done|].
      exists bytes. rewrite lookup_delete_ne; [done|]. intros ->. apply Hne. symmetry. by eapply (Hap slot i).
  - intros i j m1 m2 H1 H2 He Hp. destruct (decide (i = slot)) as [->|Hi].
    { rewrite list_lookup_insert_eq in H1 by (by eapply lookup_lt_Some). injection H1 as <-. cbn in Hp. lia. }
    destruct (decide (j = slot)) as [->|Hj].
    { rewrite list_lookup_insert_eq in H2 by (by eapply lookup_lt_Some). injection H2 as <-. cbn in He. lia. }
    rewrite list_lookup_insert_ne in H1, H2 by done. by eapply Hap.
Qed.

(** A buffer is mapped where none is. *)
Lemma net_ok_map s slot handle base bytes : net_ok s -> 0 < base -> memory s !! base = None -> Z.of_nat (length bytes) < 2 ^ 47 ->
  net_ok (set_memory (<[base := bytes]> (memory s)) (set_mappings (<[slot := (handle, base, Z.of_nat (length bytes))]> (mappings s)) s)).
Proof.
  intros Hs Hp Hn Hlt. assert (Hm : same_sizes (memory s) (<[base := bytes]> (memory s)) (fun _ => True)).
  { intros b x _ Hl. exists x. rewrite lookup_insert_ne; [done|]. intros ->. congruence. }
  pose proof (ok_mappings _ Hs) as Hold. pose proof (ok_apart _ Hs) as Hap. pose proof (net_ok_memory _ _ Hs Hm) as Hs1.
  pose proof (ok_mappings _ Hs1) as Hmaps. cbn in Hmaps. destruct Hs1; constructor; try assumption; cbn.
  - apply Forall_insert; [done|]. right. cbn. split; [done|]. exists bytes. by rewrite lookup_insert_eq.
  - assert (Hfresh : forall i m, mappings s !! i = Some m -> m.1.2 <> base).
    { intros i m Hi He. rewrite Forall_lookup in Hold. destruct (Hold i m Hi) as [[Hz _] | (_ & x & Hx & _)]; [lia|]. congruence. }
    intros i j m1 m2 H1 H2 He Hpos. apply list_lookup_insert_Some in H1, H2.
    destruct H1 as [(<- & <- & _) | [Hi H1]], H2 as [(<- & <- & _) | [Hj H2]]; cbn in *; try done.
    + exfalso. by apply (Hfresh j m2).
    + exfalso. by apply (Hfresh i m1).
    + by eapply Hap.
Qed.

(** What [mapping] leaves: a buffer held, found at once if asked for again. *)
Definition mapped_at (buffer base size : Z) (s : Stack) : Prop :=
  exists i handle, position (fun m => m.1.1 =? buffer) (mappings s) = Some i /\ mappings s !! i = Some (handle, base, size).

Lemma safe_mapping buffer s : net_ok s ->
  safe (mapping buffer) (fun r s' => net_ok s' /\ connections s' = connections s /\ match r with Some (base, size) => held (memory s') base size /\ mapped_at buffer base size s' | None => True end) s.
Proof.
  intros Hs. unfold mapping. step. destruct (position (fun m => m.1.1 =? buffer) (mappings s)) as [i|] eqn:Hp.
  { destruct (position_found _ _ _ Hp) as ([[h b] sz] & Hi & _). rewrite Hi. step. cbn. split; [done|]. split; [done|]. split; [|by exists i, h].
    pose proof (ok_mappings _ Hs) as Hm. rewrite Forall_lookup in Hm. exact (entry_held _ _ (Hm _ _ Hi)). }
  apply safe_bind. eapply (safe_mono _ (fun o s1 => net_ok s1 /\ connections s1 = connections s /\ match o with Some slot => (slot < length (mappings s))%nat /\ exists e, mappings s1 = <[slot := e]> (mappings s) | None => True end)).
  - unfold mapping_slot. step. destruct (position (fun m => m.1.1 =? 0) (mappings s)) as [slot|] eqn:Hz.
    { destruct (position_found _ _ _ Hz) as (e & He & _). step. split_and!; try done; [by eapply lookup_lt_Some|]. exists e. by rewrite list_insert_id. }
    destruct (position (fun m => negb (refers_to s m.1.2)) (mappings s)) as [slot|] eqn:Hr; [|by step]. destruct (position_found _ _ _ Hr) as ([[h b] sz] & He & Hno). rewrite He.
    apply safe_bind, safe_modify, safe_bind, safe_modify. step. split_and!; [|done|by eapply lookup_lt_Some|by eexists].
    refine (net_ok_unmap (set_output _ s) slot h b sz _ He _); [|cbn in Hno; by apply negb_true_iff in Hno].
    by apply net_ok_emit.
  - intros [slot|] s1 (Hs1 & Hc & Hsl); [|by step]. destruct Hsl as [Hslot [e He]]. apply safe_bind, safe_modify. step. set (s2 := set_output _ s1).
    assert (Hs2 : net_ok s2) by (by apply net_ok_emit).
    destruct (grant (memory s2) buffer) as [[base bytes]|] eqn:Hg; [|by step]. destruct (grant_fresh _ _ _ _ Hg) as (Hpos & Hfree & Hlt). step.
    + apply safe_bind, safe_modify. step. split; [by apply net_ok_map|]. split; [done|]. split.
      * cbn. split; [lia|]. right. split; [done|]. exists bytes. by rewrite lookup_insert_eq.
      * exists slot, buffer. cbn. rewrite He, list_insert_insert_eq. split; [|by apply list_lookup_insert_eq].
        apply position_insert; [done|done|]. cbn. lia.
    + apply safe_bind, safe_modify. step. split_and!; try done. by apply net_ok_emit.
Qed.

Lemma mapping_again buffer base size s : mapped_at buffer base size s -> mapping buffer s = (Ok (Some (base, size)), s).
Proof. intros (i & h & Hp & Hi). unfold mapping, mbind, M_bind, get. rewrite Hp, Hi. done. Qed.

Lemma safe_named_address word buffer s : net_ok s ->
  safe (named_address word buffer) (fun o s' => net_ok s' /\ match o with Some ip => length ip = 16%nat | None => True end) s.
Proof.
  intros Hs. unfold named_address. step; [by step|]. apply safe_bind. eapply safe_mono; [by apply safe_mapping|]. intros [[base size]|] s1 (Hs1 & _ & Hm); [|by step].
  destruct Hm as [Hh _]. step; [|by step]. apply safe_bind. eapply safe_read_buffer; [exact Hh|lia|]. intros ip Hip. by step.
Qed.

(** Named through the buffer just mapped, an address is read and nothing changes. *)
Lemma safe_named_again word buffer base size s : net_ok s -> held (memory s) base size -> mapped_at buffer base size s ->
  safe (named_address word buffer) (fun o s' => s' = s /\ match o with Some ip => length ip = 16%nat | None => True end) s.
Proof.
  intros Hs Hh Hm. unfold named_address. step; [by step|]. unfold safe, mbind, M_bind. rewrite (mapping_again _ _ _ _ Hm).
  change (safe (if 16 <=? size then ip ← read_buffer base 0 16; mret (Some ip) else mret None) (fun o s' => s' = s /\ match o with Some ip => length ip = 16%nat | None => True end) s).
  step; [|by step]. apply safe_bind. eapply safe_read_buffer; [exact Hh|lia|]. intros ip Hip. by step.
Qed.

(** A buffer and an address named through it. *)
Lemma safe_mapping_named {B} word buffer (k : option (Z * Z) -> option (list Z) -> N B) (Q : B -> Stack -> Prop) s : net_ok s ->
  (forall m named s', net_ok s' -> match m with Some (base, size) => held (memory s') base size | None => True end -> match named with Some ip => length ip = 16%nat | None => True end ->
    safe (k m named) Q s') ->
  safe (m ← mapping buffer; named ← named_address word buffer; k m named) Q s.
Proof.
  intros Hs Hk. apply safe_bind. eapply safe_mono; [by apply safe_mapping|]. intros [[base size]|] s1 (Hs1 & _ & Hm); apply safe_bind.
  - destruct Hm as [Hh Ha]. eapply safe_mono; [by eapply safe_named_again|]. intros named s2 [-> Hn]. by apply Hk.
  - eapply safe_mono; [by apply safe_named_address|]. intros named s2 [Hs2 Hn]. by apply Hk.
Qed.

(** ** Commands *)

Lemma fine_ping word reply token buffer : fine (ping word reply token buffer).
Proof.
  intros s Hs. unfold ping. apply safe_bind. eapply safe_mono; [by apply safe_named_address|]. intros [ip|] s1 [Hs1 Hip]; [|by step].
  step. destruct (position _ (pings s1)) as [slot|]; [|by step]. eapply safe_bind_keeps; [apply fine_modify; intros s2 Hs2; net_set|done|]. intros [] s2 _ Hs2.
  step; [fits|]. destruct (as_v4 ip).
  - step; [cbn; lia|]. step; [lengths; lia|]. by apply fine_send_ipv4.
  - step; [cbn; lia|]. apply fine_send_icmpv6; [done|lia|done].
Qed.

Lemma fine_bind_port port reply buffer : fine (bind port reply buffer).
Proof.
  intros s Hs. unfold bind. apply safe_bind. eapply safe_mono; [by apply safe_mapping|]. intros [[base size]|] s1 (Hs1 & _ & Hm); [|by step]. destruct Hm as [Hh _].
  step. destruct (position _ (bindings s1)) as [slot|]; [|by step]. step. split; [done|]. pose proof (ok_bindings _ Hs1). net_set. cbn. by apply Forall_insert.
Qed.

(** The one command that can go wrong: the length of a datagram for an IPv6 address, so
    large that both sums wrap. *)
Definition udp_length_ok (length word : Z) : Prop := 0 <= length < 2 ^ 64 /\ (word = IPV6 -> length < 2 ^ 64 - 8).

Lemma fine_send_udp buffer len word local remote : udp_length_ok len word -> fine (send_udp buffer len word local remote).
Proof.
  intros [Hl Hw] s Hs. unfold send_udp. apply safe_mapping_named; [done|]. intros [[base size]|] [ip|] s1 Hs1 Hh Hip; try (by step).
  assert (Hsize : 0 <= size < 2 ^ 47) by (by destruct Hh).
  step; [by step|]. apply orb_false_iff in Heqb as [Hfit Hroom]. apply Z.ltb_ge in Hfit, Hroom.
  assert (Hfits : (if word =? IPV6 then 16 else 0) + len <= size /\ 8 + len <= 1480).
  { destruct (Z.eqb_spec word IPV6) as [->|Hv4]; cbn [Z.eqb] in *.
    - specialize (Hw eq_refl). change (Z.of_nat (MAX_FRAME - 54)) with 1460 in Hroom. unfold wrap64 in *. rewrite (Z.mod_small (8 + len)) in Hroom by lia.
      rewrite Z.mod_small in Hfit by lia. lia.
    - change (Z.of_nat (MAX_FRAME - 34)) with 1480 in Hroom. unfold wrap64 in *. rewrite Z.mod_small in Hfit by lia. rewrite Z.mod_small in Hroom by lia. lia. }
  assert (Hskip : 0 <= (if word =? IPV6 then 16 else 0)) by (destruct (word =? IPV6); lia).
  clear Hfit Hroom. generalize dependent (if word =? IPV6 then 16 else 0). intros sk Hfits Hsk. step; [fits|].
  change (Z.of_nat (MAX_FRAME - 34)) with 1480. replace ((1480 <? 8 + len) || (size <? sk + len)) with false by lia. cbv iota.
  apply safe_bind. eapply safe_read_buffer; [exact Hh|lia|]. intros data Hd. step; [fits|]. step; [fits|]. apply fine_send_udp_datagram; [done|lia|done].
Qed.

Lemma fine_connect owner word lp rp reply buffer : fine (connect owner word lp rp reply buffer).
Proof.
  intros s Hs. unfold connect. apply safe_mapping_named; [done|]. intros [[base size]|] [ip|] s1 Hs1 Hh Hip; try (by step). step.
  destruct (position is_free (connections s1)) as [index|] eqn:Hp; [|by apply fine_tell]. pose proof (is_free_index _ _ Hs1 Hp) as Hi.
  apply safe_bind. eapply (safe_mono _ (fun _ s2 => net_ok s2 /\ memory s2 = memory s1)).
  { step; [by step|]. apply safe_bind, safe_modify. step. split; [net_set|done]. }
  intros local s2 [Hs2 Hm]. unfold sequence_start. apply safe_bind, safe_bind. unfold random_u64, safe at 1. step.
  apply fine_open; [done|by apply net_ok_drawn|]. apply conn_ok_new; [done|cbn; by rewrite Hm|done].
Qed.

Lemma fine_listen owner port reply buffer : fine (listen owner port reply buffer).
Proof.
  intros s Hs. unfold listen. apply safe_bind. eapply safe_mono; [by apply safe_mapping|]. intros [[base size]|] s1 (Hs1 & _ & Hm); [|by step]. destruct Hm as [Hh _].
  step. destruct (position _ (listeners s1)) as [slot|]; [|by step]. step. split; [done|]. pose proof (ok_listeners _ Hs1). apply net_ok_listeners; [done|]. by apply Forall_insert.
Qed.

Lemma fine_send_tcp index buffer len : (index < CONNECTIONS)%nat -> fine (send_tcp index buffer len).
Proof.
  intros Hi s Hs. unfold send_tcp. apply safe_bind_connection; [done|done|]. intros c Hc _. apply safe_bind. eapply safe_mono; [by apply safe_mapping|].
  intros [[base size]|] s1 (Hs1 & Hcs & Hm); [|by apply fine_tell_client]. destruct Hm as [Hh _]. step; [|by apply fine_tell_client].
  apply safe_start_flight; [done|done|..].
  - split; [|by exists size; split; [done|lia]]. assert ((mss (remote c) <= TCP_MSS)%nat) by (unfold mss, TCP_MSS, TCP_MSS_V6; destruct (as_v4 _); lia). lia.
  - intros d Hd Hfree. rewrite Hcs, Hc in Hd. injection Hd as <-. rewrite Hfree in Heqb. done.
Qed.

Lemma fine_close index : (index < CONNECTIONS)%nat -> fine (close index).
Proof.
  intros Hi s Hs. unfold close. apply safe_bind_connection; [done|done|]. intros c _ _.
  assert (Hreset : fine (send_reset index ;; finish index CLOSED_FINISHED)) by auto with net.
  assert (Hfin : fine (if unacknowledged c =? next_send c then send_fin index else on_connection index (set_close_requested true))) by auto with net.
  destruct (state c); try (by apply Hreset); try (by apply Hfin); by step.
Qed.

Lemma fine_config reply : fine (config reply).
Proof.
  intros s Hs. unfold config. step. step; [by apply fine_configured|]. destruct (position _ _); [|by step]. step. split; [done|]. net_set.
Qed.

Lemma fine_config6 reply : fine (config6 reply).
Proof.
  intros s Hs. unfold config6. step. step; [by apply fine_configured6|]. destruct (position _ _); [|by step]. step. split; [done|]. net_set.
Qed.

Lemma fine_resolve buffer len reply token kind : 0 <= len -> (kind = 1 \/ kind = 28) -> fine (resolve buffer len reply token kind).
Proof.
  intros Hlen Hkind s Hs. unfold resolve. apply safe_bind. eapply safe_mono; [by apply safe_mapping|]. intros [[base size]|] s1 (Hs1 & _ & Hm); [|by step]. destruct Hm as [Hh _].
  step; [by apply fine_tell|]. step. step; [by apply fine_tell|]. destruct (position _ (resolves s1)) as [slot|] eqn:Hp; [|by apply fine_tell].
  assert (Hi : (slot < RESOLVERS)%nat) by (destruct (position_found _ _ _ Hp) as (r & Hr & _); destruct (ok_resolves _ Hs1); apply lookup_lt_Some in Hr; lia).
  apply safe_random; [done|]. intros r n Hs2. unfold on_resolve at 1. apply safe_bind, safe_modify. set (entry := {| r_id := _ |}).
  assert (Hs3 : net_ok (set_resolves (<[slot := entry]> (resolves (set_drawn n s1))) (set_drawn n s1))).
  { apply net_ok_resolve; [done|]. intros _. split; [cbn; lia|]. exists size. cbn. split_and!; [done|lia|lia]. }
  apply safe_bind. eapply safe_mono; [eapply safe_dns_query; [exact Hs3|cbn; apply list_lookup_insert_eq; destruct (ok_resolves _ Hs1); lia|cbn; lia|done]|].
  intros [] s3 [_ Hs4]; [by apply fine_arm_timer|]. apply fine_bind; [apply fine_on_resolve, resolve_default|apply fine_tell|done].
Qed.

Lemma fine_connection_command sender tag a b c : 0 <= a -> fine (connection_command sender tag a b c).
Proof.
  intros Ha s Hs. unfold connection_command. step; [by step|]. assert (Hi : (Z.to_nat a < CONNECTIONS)%nat) by lia. apply safe_bind_connection; [done|done|].
  intros d _ _. step; [by step|]. step; [by apply fine_send_tcp|]. step.
  - apply fine_bind; [|by apply fine_send_ack|done]. apply fine_on_connection; [done|]. intros mem e (Hr & Hf & Hh & Hfl & Hst). unfold conn_ok. cbn. split_and!; try done; lia.
  - step; [by apply fine_close|by step].
Qed.

Lemma fine_command sender tag a b c d : u64 a -> u64 b -> (tag = TAG_UDP_SEND -> udp_length_ok b c) -> fine (command sender tag a b c d).
Proof.
  intros Ha Hb Hudp. unfold u64 in *. unfold command. apply fine_bind; [|apply fine_connection_command; lia].
  destruct (tag =? TAG_PING); [apply fine_ping|]. destruct (tag =? TAG_UDP_BIND); [apply fine_bind_port|].
  destruct (Z.eqb_spec tag TAG_UDP_SEND) as [->|_]; [apply fine_send_udp; auto|]. destruct (tag =? TAG_TCP_CONNECT); [apply fine_connect|].
  destruct (tag =? TAG_TCP_LISTEN); [apply fine_listen|]. destruct (tag =? TAG_NET_CONFIG); [apply fine_config|].
  destruct (tag =? TAG_RESOLVE); [apply fine_resolve; [lia|by left]|]. destruct (tag =? TAG_RESOLVE6); [apply fine_resolve; [lia|by right]|].
  destruct (tag =? TAG_NET_CONFIG6); [apply fine_config6|apply fine_ret].
Qed.

(** ** Time *)

Lemma fine_solicit_tick : fine solicit_tick.
Proof.
  intros s Hs. unfold solicit_tick. step. step; [by step|]. apply fine_bind; [|apply fine_if; [apply fine_bind|]|done].
  - apply fine_modify. intros s1 Hs1. net_set.
  - apply fine_modify. intros s1 Hs1. net_set.
  - apply fine_solicit_router.
  - apply fine_ret.
Qed.

Lemma fine_connection_tick index : (index < CONNECTIONS)%nat -> fine (connection_tick index).
Proof.
  intros Hi s Hs. unfold connection_tick. apply safe_bind_connection; [done|done|]. intros c _ _. step; [by step|].
  apply fine_bind; [by apply fine_on_connection| |done]. apply fine_if; [apply fine_ret|]. apply fine_bind; [by apply fine_on_connection|].
  apply fine_if; [auto with net|]. apply fine_bind; [by apply fine_on_connection|auto with net].
Qed.

Lemma fine_tick : fine tick.
Proof.
  unfold tick. apply fine_bind; [apply fine_modify; intros s Hs; net_set|]. apply fine_bind; [apply fine_dhcp_tick|]. apply fine_bind; [apply fine_dns_tick|].
  apply fine_bind; [apply fine_solicit_tick|]. apply fine_bind; [|apply fine_arm_timer]. apply fine_for_each. intros i Hi%elem_of_seq. apply fine_connection_tick. lia.
Qed.

(** ** The daemon *)

(** What can arrive: words of 64 bits, frames of bytes; and not the one length that
    overflows. *)
Record arrives (sender tag a b c d : Z) (frames : list (list Z)) : Prop := {
  word_a : u64 a;
  word_b : u64 b;
  bytes_in_frames : Forall frame_ok frames;
  udp_length : sender <> KERNEL_SENDER -> tag = TAG_UDP_SEND -> c = IPV6 -> b < 2 ^ 64 - 8;
}.

Lemma fine_message sender tag a b c d frames : arrives sender tag a b c d frames -> fine (message sender tag a b c d frames).
Proof.
  intros [Ha Hb Hf Hu]. unfold message. destruct (Z.eqb_spec sender KERNEL_SENDER) as [_|Hne].
  - apply fine_if; [by apply fine_drain|]. apply fine_if; [apply fine_tick|apply fine_ret].
  - apply fine_command; [done|done|]. intros Ht. split; [exact Hb|auto].
Qed.

(** ** The start *)

Lemma net_ok_initial p card : length card = 6%nat -> net_ok (initial p card).
Proof.
  intros Hm. constructor; cbn [initial mac arp_table arp_next waiting link_local global6 router6 dns_server bindings listeners connections resolves mappings output memory];
    try (by rewrite ?length_replicate); try (unfold ARP_ENTRIES; lia).
  - split; [by rewrite length_replicate|]. by apply Forall_replicate.
  - split; [by rewrite length_replicate|]. apply Forall_replicate. split; cbn [w_frame w_length]; [by rewrite length_replicate|lia].
  - apply Forall_replicate, held_nothing.
  - apply Forall_replicate, held_nothing.
  - split; [by rewrite length_replicate|]. apply Forall_replicate, conn_default.
  - split; [by rewrite length_replicate|]. apply Forall_replicate, resolve_default.
  - apply Forall_replicate. by left.
  - intros i j m1 m2 [-> _]%lookup_replicate _ _ Hp. cbn in Hp. lia.
Qed.

Lemma fine_start frames : Forall frame_ok frames -> fine (start frames).
Proof.
  intros Hf s Hs. unfold start. eapply safe_bind_keeps; [apply fine_solicit_router|done|]. intros [] s1 _ Hs1. eapply safe_bind_keeps; [apply fine_arm_timer|done|]. intros [] s2 _ Hs2.
  step. apply fine_bind; [|by apply fine_drain|done]. apply fine_if; [|apply fine_ret]. apply fine_bind; [apply fine_modify; intros s3 Hs3; net_set|].
  apply fine_bind; [apply fine_dhcp_send|apply fine_arm_timer].
Qed.

End Commands.
