(* ===== verification/NetTheorems.v ===== *)
(** * The network daemon: what holds of it

    Every state the daemon can reach keeps its invariant and no message makes it panic or
    touch memory that is not there; a length that wraps is the one exception. *)

From stdpp Require Import base list gmap numbers list_numbers.
From Stdlib Require Import Lia ZifyBool.
From S2P Require Import Prelude NetBytes Net NetSafe NetReceive NetCommands.

Module Daemon.

(** What the daemon does and what happens to it, one step: it starts, it takes a message,
    or clients write to the buffers it has mapped.  What the kernel answers may differ from
    message to message. *)
Inductive reachable : Stack -> Prop :=
| starts `{KernelLaw} p card frames s : length card = 6%nat -> Forall frame_ok frames -> start frames (initial p card) = (Ok tt, s) -> reachable s
| takes `{KernelLaw} sender tag a b c d frames s s' : reachable s -> arrives sender tag a b c d frames -> message sender tag a b c d frames s = (Ok tt, s') -> reachable s'
| clients_write s mem : reachable s -> same_sizes (memory s) mem (fun _ => True) -> reachable (set_memory mem s).

Lemma safe_run {A} (m : N A) Q s : safe m Q s -> exists a s', m s = (Ok a, s') /\ Q a s'.
Proof. unfold safe. destruct (m s) as [[a|[]|] s']; [|done]. eauto. Qed.

Lemma safe_result {A} (m : N A) Q s a s' : safe m Q s -> m s = (Ok a, s') -> Q a s'.
Proof. unfold safe. intros Hs Hm. by rewrite Hm in Hs. Qed.

Lemma daemon_ok s : reachable s -> net_ok s.
Proof.
  induction 1 as [? ? p card frames s Hc Hf Hs | ? ? sender tag a b c d frames s s' _ IH Ha Hm | s mem _ IH Hm].
  - by apply (safe_result _ _ _ _ _ (fine_start frames Hf _ (net_ok_initial p card Hc)) Hs).
  - by apply (safe_result _ _ _ _ _ (fine_message _ _ _ _ _ _ _ Ha _ IH) Hm).
  - by apply net_ok_memory.
Qed.

(** C27: The daemon is memory safe against the network, its clients and its timer, one request
    excepted: a datagram for an IPv6 address whose length is within eight of 2^64
    ([udp_length] in [arrives]; [wrapped_length_crashes] shows what that one does).  It
    starts, and in every state it can reach by any other messages it handles any other
    message to the end, without a panic or an access outside its tables and the buffers
    mapped, into a state whose every frame handed out fits the card and whose every table
    entry names a mapped buffer of the size it says. *)
Theorem daemon_never_panics `{KernelLaw} sender tag a b c d frames :
  arrives sender tag a b c d frames ->
  (forall p card, length card = 6%nat -> exists s, start frames (initial p card) = (Ok tt, s) /\ reachable s) /\
  (forall s, reachable s -> net_ok s /\ exists s', message sender tag a b c d frames s = (Ok tt, s') /\ reachable s' /\ net_ok s').
Proof.
  intros Ha. pose proof (bytes_in_frames _ _ _ _ _ _ _ Ha) as Hf. split.
  - intros p card Hc. destruct (safe_run _ _ _ (fine_start frames Hf _ (net_ok_initial p card Hc))) as ([] & s & Hs & _). exists s. split; [done|]. by eapply starts.
  - intros s Hr. pose proof (daemon_ok s Hr) as Hs. split; [done|]. destruct (safe_run _ _ _ (fine_message _ _ _ _ _ _ _ Ha _ Hs)) as ([] & s' & Hm & _ & Hs').
    exists s'. split_and!; [done| |done]. by eapply takes.
Qed.

(** C32: The exception: asked to send a datagram to an IPv6 address with a length within eight
    of 2^64, the daemon adds its way past both of its checks and copies out of bounds. *)
Theorem wrapped_length_crashes `{KernelLaw} buffer len local remote base size s :
  net_ok s -> mapped_at buffer base size s -> 16 <= size -> 2 ^ 64 - 8 <= len < 2 ^ 64 -> fst (send_udp buffer len IPV6 local remote s) = Panic.
Proof.
  intros Hok Hm Hsize Hlen. pose proof Hm as (i & h & _ & Hi). pose proof (ok_mappings _ Hok) as Hmaps. rewrite Forall_lookup in Hmaps. pose proof (entry_held _ _ (Hmaps _ _ Hi)) as Hh. cbn in Hh.
  pose proof (safe_named_again IPV6 buffer base size s Hok Hh Hm) as Hn. unfold safe in Hn. destruct Hh as [Hb [-> | (_ & bytes & Hmem & ->)]]; [lia|].
  assert (Hname : exists ip, named_address IPV6 buffer s = (Ok (Some ip), s)).
  { unfold named_address, mbind, M_bind. cbn [Z.eqb negb]. rewrite Z.eqb_refl. cbn [negb]. rewrite (mapping_again _ _ _ _ Hm). replace (16 <=? Z.of_nat (length bytes)) with true by lia.
    unfold read_buffer. rewrite Hmem. cbn [Nat.eqb]. replace (0 + 16 <=? length bytes)%nat with true by lia. by eexists. }
  destruct Hname as [ip Hname]. unfold send_udp, mbind, M_bind. rewrite (mapping_again _ _ _ _ Hm), Hname. rewrite Z.eqb_refl. cbn [Z.eqb].
  assert (Hw16 : wrap64 (16 + len) = 16 + len - 2 ^ 64) by (unfold wrap64; rewrite <- (Z.mod_add _ (-1)) by lia; rewrite Z.mod_small by lia; lia).
  assert (Hw8 : wrap64 (8 + len) = 8 + len - 2 ^ 64) by (unfold wrap64; rewrite <- (Z.mod_add _ (-1)) by lia; rewrite Z.mod_small by lia; lia).
  rewrite Hw16. replace (Z.of_nat (length bytes) <? 16 + len - 2 ^ 64) with false by lia. rewrite Hw8. change (Z.of_nat (MAX_FRAME - 54)) with 1460. replace (1460 <? 8 + len - 2 ^ 64) with false by lia. cbn [orb].
  destruct (returns_copies [(0%nat, be16 local); (2%nat, be16 remote); (4%nat, be16 ((8 + len - 2 ^ 64) mod 65536))] (replicate (MAX_FRAME - 34) 0) ltac:(fits) s) as (d & -> & _).
  change (Z.of_nat (MAX_FRAME - 34)) with 1480. replace (1480 <? 8 + len) with true by lia. reflexivity.
Qed.

End Daemon.

(** ** Loops over a stranger's bytes *)

Module Parsers.

Lemma nd_options_enough n : forall m bytes, (length bytes <= n)%nat -> (length bytes <= m)%nat -> nd_options n bytes = nd_options m bytes.
Proof.
  induction n as [|n IH]; intros m bytes Hn Hm.
  - destruct bytes; [|cbn in Hn; lia]. by destruct m.
  - destruct m as [|m]; [destruct bytes; [done|cbn in Hm; lia]|]. cbn [nd_options]. destruct bytes as [|kind [|len rest]]; [done..|].
    destruct (_ || _) eqn:Hg; [done|]. f_equal. apply IH; rewrite length_drop; cbn [length] in *; lia.
Qed.

(** C31: Every loop the daemon runs over bytes from the network ends within the turns the model
    allows it: the options of a DHCP message and names of a DNS message in one turn per
    byte, the options of neighbour discovery likewise whatever more is allowed, and the
    carries of a 64-bit sum in five. *)
Theorem parsers_end (message : list Z) : Forall is_byte message ->
  (forall at_ o s, (at_ <= length message)%nat -> exists r, dhcp_options (S (length message)) message at_ o s = (Ok r, s)) /\
  (forall at_ s, 0 <= at_ -> exists r, skip_name (S (length message)) message at_ s = (Ok r, s)) /\
  (forall turns, (length message <= turns)%nat -> nd_options turns message = options message) /\
  (forall sum, u64 sum -> fold_carries 5 sum <= 65535).
Proof.
  intros Hb. split_and!.
  - intros at_ o s Ha. destruct (returns_dhcp_options message Hb (S (length message)) at_ o ltac:(lia) s) as (r & Hr & _). by exists r.
  - intros at_ s Ha. destruct (returns_skip message at_ Hb Ha s) as (r & Hr & _). by exists r.
  - intros turns Ht. by apply nd_options_enough.
  - apply fold_carries_bound.
Qed.

Lemma parsers_end_witness : Forall is_byte [53; 1; 5; 255] /\ nd_options 9 [53; 1; 5; 255] = options [53; 1; 5; 255].
Proof.
  assert (Hb : Forall is_byte [53; 1; 5; 255]) by (repeat constructor; unfold is_byte; lia). split; [exact Hb|].
  destruct (parsers_end [53; 1; 5; 255] Hb) as (_ & _ & Hn & _). apply Hn. cbn. lia.
Defined.

End Parsers.
