(* ===== verification/NetStream.v ===== *)
(** * The network daemon: a connection's stream

    Whatever order a peer's segments arrive in, repeated or not, what the client reads is
    the peer's stream from its beginning, each byte once. *)

From stdpp Require Import base list gmap numbers list_numbers.
From Stdlib Require Import Lia ZifyBool.
From S2P Require Import Prelude NetBytes Net NetSafe NetReceive NetCommands.

(** ** Sending touches neither connections nor buffers *)

Definition quiet {A} (m : N A) : Prop := forall s a s', m s = (Ok a, s') -> connections s' = connections s /\ memory s' = memory s.

Create HintDb quiet.

Lemma quiet_ret {A} (a : A) : quiet (mret a).
Proof. intros s b s' Hm. by injection Hm as _ <-. Qed.

Lemma quiet_bind {A B} (m : N A) (k : A -> N B) : quiet m -> (forall a, quiet (k a)) -> quiet (mbind k m).
Proof.
  intros Hm Hk s b s' Hr. destruct (bind_ok_inv _ _ _ _ _ Hr) as (a & s1 & H1 & H2). destruct (Hm _ _ _ H1) as [Hc Hmem]. destruct (Hk a _ _ _ H2) as [Hc2 Hmem2]. split; congruence.
Qed.

Lemma quiet_panic {A} : quiet (panic : N A).
Proof. by intros s a s' Hm. Qed.

Lemma quiet_get : quiet (get : N Stack).
Proof. intros s a s' Hm. by injection Hm as _ <-. Qed.

Lemma quiet_field {A} (f : Stack -> A) : quiet (field f).
Proof. intros s a s' Hm. by injection Hm as _ <-. Qed.

Lemma quiet_emit o : quiet (emit o).
Proof. intros s a s' Hm. by injection Hm as _ <-. Qed.

Lemma quiet_byte bs i : quiet (byte_at bs i : N Z).
Proof. unfold byte_at. destruct (bs !! i); [apply quiet_ret|apply quiet_panic]. Qed.

Lemma quiet_range bs a b : quiet (range bs a b : N _).
Proof. unfold range. destruct (_ && _); [apply quiet_ret|apply quiet_panic]. Qed.

Lemma quiet_copy at_ x buf : quiet (copy_at at_ x buf : N _).
Proof. unfold copy_at. destruct (_ <=? _)%nat; [apply quiet_ret|apply quiet_panic]. Qed.

Lemma quiet_copies l : forall buf, quiet (copies l buf : N _).
Proof. induction l as [|[at_ x] l IH]; intros buf; cbn [copies]; [apply quiet_ret|]. apply quiet_bind; [apply quiet_copy|apply IH]. Qed.

Lemma quiet_connection index : quiet (connection index).
Proof. intros s a s' Hm. unfold connection in Hm. destruct (connections s !! index); by simplify_eq. Qed.

Lemma quiet_read_buffer base offset len : quiet (read_buffer base offset len).
Proof. intros s a s' Hm. unfold read_buffer in Hm. repeat case_match; by simplify_eq. Qed.

Lemma quiet_net_send bytes : quiet (net_send bytes).
Proof. apply quiet_emit. Qed.

#[export] Hint Resolve quiet_net_send quiet_ret quiet_bind quiet_panic quiet_get quiet_field quiet_emit quiet_byte quiet_range quiet_copy quiet_copies quiet_connection quiet_read_buffer : quiet.

(** A body of statements, each quiet. *)
Ltac quiet :=
  repeat first
    [ progress auto 2 with quiet
    | progress cbv zeta
    | apply quiet_bind; [|intros ?]
    | match goal with
      | |- quiet (if ?b then _ else _) => destruct b
      | |- quiet (match ?x with _ => _ end) => destruct x
      | |- quiet (modify _) => let Hm := fresh in intros ? ? ? Hm; by injection Hm as _ <-
      end ].

Section Quiet.

Lemma quiet_park frame next_hop : quiet (park frame next_hop).
Proof. unfold park. quiet. Qed.
Lemma quiet_request_mac v4 : quiet (request_mac v4).
Proof. unfold request_mac, net_send. quiet. Qed.
#[local] Hint Resolve quiet_park quiet_request_mac : quiet.

Lemma quiet_send_ipv4 destination protocol payload : quiet (send_ipv4 destination protocol payload).
Proof. unfold send_ipv4, ipv4_header, net_send. quiet. Qed.

Lemma quiet_send_ipv6_deep depth : forall destination next_header payload, quiet (send_ipv6_deep depth destination next_header payload).
Proof. induction depth as [|depth IH]; intros; cbn [send_ipv6_deep]; [apply quiet_panic|]. unfold icmpv6_message, from, net_send. quiet. Qed.
#[local] Hint Resolve quiet_send_ipv4 quiet_send_ipv6_deep : quiet.

Lemma quiet_send_ip destination protocol payload : quiet (send_ip destination protocol payload).
Proof. unfold send_ip, send_ipv6. quiet. Qed.
#[local] Hint Resolve quiet_send_ip : quiet.

Lemma quiet_segment destination lp rp sequence acknowledgement flags window payload : quiet (segment destination lp rp sequence acknowledgement flags window payload).
Proof. unfold segment. quiet. Qed.
#[local] Hint Resolve quiet_segment : quiet.

Lemma quiet_connection_segment index sequence flags payload : quiet (connection_segment index sequence flags payload).
Proof. unfold connection_segment. quiet. Qed.
#[local] Hint Resolve quiet_connection_segment : quiet.

Lemma quiet_send_ack index : quiet (send_ack index).
Proof. unfold send_ack. quiet. Qed.
Lemma quiet_transmit index : quiet (transmit index).
Proof. unfold transmit. quiet. Qed.
Lemma quiet_tell index tag words : quiet (tell index tag words).
Proof. unfold tell, ipc_send. quiet. Qed.

Lemma quiet_arm_timer `{Kernel} : quiet arm_timer.
Proof. unfold arm_timer. quiet. Qed.

End Quiet.

#[export] Hint Resolve quiet_send_ack quiet_transmit quiet_tell quiet_arm_timer : quiet.

(** ** What a connection receives, step by step *)

Definition post {A} (m : N A) (Q : A -> Stack -> Prop) (s : Stack) : Prop := forall a s', m s = (Ok a, s') -> Q a s'.

(** The connection at an index and the contents of its buffer. *)
Definition sees (s : Stack) (index : nat) (c : Connection) (buf : option (list Z)) : Prop := connections s !! index = Some c /\ memory s !! c_base c = buf.

Lemma post_bind {A B} (m : N A) (k : A -> N B) Q s : post m (fun a s' => post (k a) Q s') s -> post (mbind k m) Q s.
Proof. intros Hm b s' Hr. destruct (bind_ok_inv _ _ _ _ _ Hr) as (a & s1 & H1 & H2). by eapply Hm. Qed.

Lemma post_ret {A} (a : A) (Q : A -> Stack -> Prop) s : Q a s -> post (mret a) Q s.
Proof. intros HQ b s' Hr. by injection Hr as <- <-. Qed.

Lemma post_mono {A} (m : N A) (Q Q' : A -> Stack -> Prop) s : post m Q s -> (forall a s', Q a s' -> Q' a s') -> post m Q' s.
Proof. unfold post. eauto. Qed.

Lemma post_quiet {A} (m : N A) (Q : A -> Stack -> Prop) s index c buf : quiet m -> sees s index c buf -> (forall a s', sees s' index c buf -> Q a s') -> post m Q s.
Proof. intros Hm [Hc Hb] HQ a s' Hr. destruct (Hm _ _ _ Hr) as [Hcs Hmem]. apply HQ. unfold sees. by rewrite Hcs, Hmem. Qed.

Lemma post_connection index c buf (Q : Connection -> Stack -> Prop) s : sees s index c buf -> Q c s -> post (connection index) Q s.
Proof. intros [Hc Hb] HQ a s' Hr. unfold connection in Hr. rewrite Hc in Hr. by injection Hr as <- <-. Qed.

Lemma post_on_connection index f c buf (Q : unit -> Stack -> Prop) s : sees s index c buf -> c_base (f c) = c_base c ->
  (forall s', sees s' index (f c) buf -> Q tt s') -> post (on_connection index f) Q s.
Proof.
  intros Hs Hbase HQ. unfold on_connection. apply post_bind. eapply post_connection; [exact Hs|]. intros [] s' Hr. injection Hr as <-. apply HQ. destruct Hs as [Hc Hb].
  split; cbn; [|by rewrite Hbase]. apply list_lookup_insert_eq. by eapply lookup_lt_Some.
Qed.

Definition gone (s : Stack) (index : nat) : Prop := connections s !! index = Some Connection_default.

Inductive Phase : Type := Opening | Receiving | Ended.
Definition phase (st : State) : Phase :=
  match st with SynSent | SynReceived => Opening | Established | FinWait1 | FinWait2 => Receiving | _ => Ended end.

(** The receiving half the same. *)
Definition rx_same (c c' : Connection) : Prop :=
  next_receive c' = next_receive c /\ filled c' = filled c /\ delivered c' = delivered c /\ c_base c' = c_base c /\ c_size c' = c_size c /\ c_owner c' = c_owner c /\
  phase (state c') = phase (state c) /\ (state c' = Free -> state c = Free).

Lemma rx_refl c : rx_same c c.
Proof. by repeat split. Qed.
Lemma rx_trans c1 c2 c3 : rx_same c1 c2 -> rx_same c2 c3 -> rx_same c1 c3.
Proof. unfold rx_same. intuition congruence. Qed.
#[local] Hint Resolve rx_refl : net.

(** As it was on the receiving side. *)
Definition sees_rx (index : nat) (c : Connection) (buf : option (list Z)) (s' : Stack) : Prop := exists c', sees s' index c' buf /\ rx_same c c'.

Lemma quiet_gone {A} (m : N A) s index : quiet m -> gone s index -> post m (fun _ s' => gone s' index) s.
Proof. intros Hm Hg a s' Hr. destruct (Hm _ _ _ Hr) as [Hc _]. unfold gone. by rewrite Hc. Qed.

Lemma post_finish index reason c buf s : sees s index c buf -> post (finish index reason) (fun _ s' => gone s' index) s.
Proof.
  intros Hs. unfold finish. apply post_bind. eapply post_quiet; [apply quiet_tell|exact Hs|]. intros [] s1 Hs1. unfold on_connection. apply post_bind.
  eapply post_connection; [exact Hs1|]. intros [] s' Hr. injection Hr as <-. destruct Hs1 as [Hc _]. unfold gone. cbn. apply list_lookup_insert_eq. by eapply lookup_lt_Some.
Qed.

Section Steps.
Context `{Kernel}.

Lemma post_start_flight index flags base len c buf s : sees s index c buf -> post (start_flight index flags base len) (fun _ s' => sees_rx index c buf s') s.
Proof.
  intros Hs. unfold start_flight. apply post_bind. eapply post_on_connection; [exact Hs|done|]. intros s1 Hs1. eapply post_quiet; [|exact Hs1|].
  - apply quiet_bind; auto with quiet.
  - intros [] s' Hs'. eexists. split; [exact Hs'|]. by repeat split.
Qed.

Lemma post_send_fin index c buf s : sees s index c buf -> state c = Established \/ state c = CloseWait -> post (send_fin index) (fun _ s' => sees_rx index c buf s') s.
Proof.
  intros Hs Hst. unfold send_fin. apply post_bind. eapply post_on_connection; [exact Hs|done|]. intros s1 Hs1. eapply post_mono; [by eapply post_start_flight|].
  intros [] s' (c' & Hs' & Hrx). exists c'. split; [done|]. eapply rx_trans; [|exact Hrx]. unfold rx_same. cbn. by destruct Hst as [Hst | Hst]; rewrite Hst.
Qed.

Lemma post_flight_landed index c buf s : sees s index c buf -> post (flight_landed index) (fun _ s' => sees_rx index c buf s' \/ phase (state c) = Ended /\ gone s' index) s.
Proof.
  intros Hs. unfold flight_landed. apply post_bind. eapply post_connection; [exact Hs|]. apply post_bind. eapply post_on_connection; [exact Hs|done|]. intros s1 Hs1.
  set (c1 := set_flight_length 0 _) in Hs1. assert (Hrx1 : rx_same c c1) by (by repeat split).
  assert (Hstay : sees_rx index c buf s1) by (by exists c1). destruct (has (flight_flags c) FIN).
  - destruct (state c) eqn:Hst; try (apply post_ret; by left).
    + eapply post_on_connection; [exact Hs1|done|]. intros s2 Hs2. left. eexists. split; [exact Hs2|]. unfold rx_same. cbn. by rewrite Hst.
    + eapply post_mono; [by eapply post_finish|]. intros [] s' Hg. by right.
    + eapply post_mono; [by eapply post_finish|]. intros [] s' Hg. by right.
  - apply post_bind. eapply (post_quiet _ _ s1 index c1 buf); [destruct (0 <? flight_length c); auto with quiet|exact Hs1|]. intros [] s2 Hs2.
    apply post_bind. eapply post_connection; [exact Hs2|].
    assert (Hfin : state c = Established \/ state c = CloseWait -> post (on_connection index (set_close_requested false) ;; send_fin index) (fun _ s' => sees_rx index c buf s' \/ phase (state c) = Ended /\ gone s' index) s2).
    { intros Hst. apply post_bind. eapply post_on_connection; [exact Hs2|done|]. intros s3 Hs3. eapply post_mono; [by eapply post_send_fin|].
      intros [] s' (c' & Hs' & Hrx). left. exists c'. split; [done|]. eapply rx_trans; [exact Hrx1|]. exact Hrx. }
    assert (Hend : post (mret tt) (fun _ s' => sees_rx index c buf s' \/ phase (state c) = Ended /\ gone s' index) s2) by (apply post_ret; left; by exists c1).
    cbn [c1 close_requested state set_flight_length set_flight_flags set_unacknowledged]. destruct (close_requested c); [|exact Hend].
    destruct (state c) eqn:Hst; try exact Hend; apply Hfin; auto.
Qed.

Lemma post_tcp_acknowledge index c buf sequence acknowledgement flags s : sees s index c buf -> phase (state c) <> Opening ->
  post (tcp_acknowledge index c sequence acknowledgement flags) (fun go s' => go = true /\ (sees_rx index c buf s' \/ phase (state c) = Ended /\ gone s' index)) s.
Proof.
  intros Hs Hp. unfold tcp_acknowledge.
  assert (Hgo : post ((if has flags ACK && negb (unacknowledged c =? next_send c) && (acknowledgement =? next_send c) then flight_landed index else mret tt) ;; mret true)
    (fun go s' => go = true /\ (sees_rx index c buf s' \/ phase (state c) = Ended /\ gone s' index)) s).
  { apply post_bind. destruct (_ && _); [|apply post_ret, post_ret; split; [done|]; left; exists c; auto with net].
    eapply post_mono; [by eapply post_flight_landed|]. intros [] s' Hs'. by apply post_ret. }
  destruct (state c); try exact Hgo; by exfalso; apply Hp.
Qed.

(** What a segment's data does: nothing, or it goes to the client's buffer. *)
Definition took (c : Connection) (buf : option (list Z)) (sequence : Z) (payload : list Z) (c' : Connection) (buf' : option (list Z)) : Prop :=
  sequence = next_receive c /\ delivered c = false /\ filled c + Z.of_nat (length payload) <= c_size c /\ payload <> [] /\
  delivered c' = true /\ filled c' = filled c + Z.of_nat (length payload) /\ c_base c' = c_base c /\ c_size c' = c_size c /\ c_owner c' = c_owner c /\
  exists bytes, buf = Some bytes /\ (Z.to_nat (filled c) + length payload <= length bytes)%nat /\ buf' = Some (overwrite (Z.to_nat (filled c)) payload bytes).

Definition wanted (c : Connection) (sequence : Z) (payload : list Z) : bool :=
  is_receiving (state c) && negb (length payload =? 0)%nat && (sequence =? next_receive c) && negb (delivered c) && (filled c + Z.of_nat (length payload) <=? c_size c).

Lemma post_tcp_data index c buf sequence payload s : sees s index c buf ->
  post (tcp_data index (is_receiving (state c)) sequence payload) (fun acc s' =>
    if wanted c sequence payload
    then acc = true /\ exists c' buf', sees s' index c' buf' /\ took c buf sequence payload c' buf' /\ state c' = state c /\ next_receive c' = wrapping_add (next_receive c) (Z.of_nat (length payload))
    else sees s' index c buf /\ acc = (length payload =? 0)%nat) s.
Proof.
  intros Hs. unfold tcp_data, wanted. destruct (length payload =? 0)%nat eqn:Hl; [rewrite !andb_false_r; by apply post_ret|].
  destruct (is_receiving (state c)) eqn:Hr; cbn [negb andb]; [|by apply post_ret].
  apply post_bind. eapply post_connection; [exact Hs|]. destruct (_ && _) eqn:Hw; [|by apply post_ret]. apply post_bind. intros [] s1 Hwr.
  unfold write_buffer in Hwr. rewrite Hl in Hwr. destruct Hs as [Hc Hb]. rewrite Hb in Hwr. destruct buf as [bytes|]; [|done].
  destruct (_ <=? _)%nat eqn:Hfit; [|done]. injection Hwr as <-.
  assert (Hs1 : sees (set_memory (<[c_base c := overwrite (Z.to_nat (filled c)) payload bytes]> (memory s)) s) index c (Some (overwrite (Z.to_nat (filled c)) payload bytes))).
  { split; cbn; [done|by rewrite lookup_insert_eq]. }
  apply post_bind. eapply post_on_connection; [exact Hs1|done|]. intros s2 Hs2. apply post_bind. eapply post_quiet; [apply quiet_tell|exact Hs2|]. intros [] s3 Hs3. apply post_ret.
  split; [done|]. do 2 eexists. split; [exact Hs3|]. split; [|done]. unfold took. cbn. apply andb_true_iff in Hw as [[Hseq Hd]%andb_true_iff Hsize].
  split_and!; try done; try lia; [by intros ->|]. exists bytes. split_and!; [done|lia|done].
Qed.

(** A FIN in its place ends the receiving half. *)
Lemma post_tcp_finish index receiving accepted c buf sequence flags payload s : sees s index c buf -> receiving = is_receiving (state c) ->
  post (tcp_finish index receiving accepted sequence flags payload) (fun _ s' =>
    has flags FIN = true /\ gone s' index \/ exists c', sees s' index c' buf /\ filled c' = filled c /\ delivered c' = delivered c /\ c_base c' = c_base c /\ c_size c' = c_size c /\ c_owner c' = c_owner c /\
      (state c' = state c /\ next_receive c' = next_receive c \/ has flags FIN = true /\ phase (state c') = Ended /\ state c' <> Free)) s.
Proof.
  intros Hs ->. unfold tcp_finish. apply post_bind. eapply post_connection; [exact Hs|]. destruct (_ && is_receiving _) eqn:Hfin.
  - apply post_bind. eapply post_on_connection; [exact Hs|done|]. intros s1 Hs1. apply post_bind. eapply post_quiet; [apply quiet_send_ack|exact Hs1|]. intros [] s2 Hs2.
    assert (Hf : has flags FIN = true) by (destruct (has flags FIN); [done|by cbn in Hfin]).
    destruct (state c) eqn:Hst; try (eapply post_mono; [by eapply post_finish|]; intros [] s' Hg; by left).
    + apply post_bind. eapply post_on_connection; [exact Hs2|done|]. intros s3 Hs3. eapply post_quiet; [apply quiet_tell|exact Hs3|]. intros [] s4 Hs4.
      right. eexists. split; [exact Hs4|]. cbn. split_and!; try done. by right.
    + eapply post_on_connection; [exact Hs2|done|]. intros s3 Hs3. right. eexists. split; [exact Hs3|]. cbn. split_and!; try done. by right.
  - eapply (post_quiet _ _ s index c buf); [destruct (_ || _); auto with quiet|exact Hs|]. intros [] s' Hs'. right. exists c. split_and!; try done. by left.
Qed.

Lemma is_receiving_phase st : is_receiving st = true <-> phase st = Receiving.
Proof. by destruct st. Qed.

Lemma wanted_rx c c' sequence payload : rx_same c c' -> wanted c' sequence payload = wanted c sequence payload.
Proof.
  intros (Hn & Hf & Hd & Hb & Hz & Ho & Hp & _). unfold wanted. rewrite Hn, Hf, Hd, Hz. replace (is_receiving (state c')) with (is_receiving (state c)); [done|].
  apply Bool.eq_iff_eq_true. rewrite !is_receiving_phase. by rewrite Hp.
Qed.

Definition unread_same (c c' : Connection) : Prop := filled c' = filled c /\ delivered c' = delivered c /\ c_base c' = c_base c /\ c_size c' = c_size c /\ c_owner c' = c_owner c.

Lemma rx_unread c c' : rx_same c c' -> unread_same c c'.
Proof. intros (Hn & Hf & Hd & Hb & Hz & Ho & Hp & _). by repeat split. Qed.

(** A segment for a connection that is open. *)
Definition received (c : Connection) (buf : option (list Z)) (sequence : Z) (payload : list Z) (c' : Connection) (buf' : option (list Z)) : Prop :=
  if wanted c sequence payload
  then took c buf sequence payload c' buf' /\ (phase (state c') = Receiving -> next_receive c' = wrapping_add (next_receive c) (Z.of_nat (length payload)))
  else buf' = buf /\ unread_same c c' /\ (phase (state c') = Receiving -> phase (state c) = Receiving /\ next_receive c' = next_receive c).

Lemma took_rx c c1 buf sequence payload c' buf' : rx_same c c1 -> took c1 buf sequence payload c' buf' -> took c buf sequence payload c' buf'.
Proof. intros (Hn & Hf & Hd & Hb & Hz & Ho & _) Ht. unfold took in *. by rewrite Hn, Hf, Hd, Hb, Hz, Ho in Ht. Qed.

Lemma took_unread c buf sequence payload c1 buf' c' : took c buf sequence payload c1 buf' -> unread_same c1 c' -> took c buf sequence payload c' buf'.
Proof. intros Ht (Hf & Hd & Hb & Hz & Ho). unfold took in *. by rewrite Hf, Hd, Hb, Hz, Ho. Qed.

Lemma unread_trans c1 c2 c3 : unread_same c1 c2 -> unread_same c2 c3 -> unread_same c1 c3.
Proof. unfold unread_same. intuition congruence. Qed.

(** A FIN or nothing more comes after the data. *)
Lemma post_tcp_rest index c buf c1 buf1 accepted sequence flags payload s : sees s index c1 buf1 -> received c buf sequence payload c1 buf1 -> state c1 <> Free -> phase (state c1) <> Opening ->
  post (tcp_finish index (is_receiving (state c1)) accepted sequence flags payload) (fun _ s' =>
    has flags FIN = true /\ gone s' index \/
    exists c' buf', sees s' index c' buf' /\ received c buf sequence payload c' buf' /\ state c' <> Free /\ phase (state c') <> Opening /\ (has flags FIN = false -> phase (state c') = phase (state c1))) s.
Proof.
  intros Hs Hr Hfree Hop. eapply post_mono; [by eapply post_tcp_finish|]. intros [] s' [Hg | (c' & Hs' & Hf & Hd & Hb & Hz & Ho & Hcase)]; [by left|]. right. exists c', buf1. split; [done|].
  assert (Hun : unread_same c1 c') by (by repeat split). unfold received in *. destruct Hcase as [[Hst Hn] | (HF & He & Hnf)].
  - rewrite Hst. split_and!; try done. destruct (wanted c sequence payload); [destruct Hr as [Ht Hp]; split; [by eapply took_unread|by rewrite Hn]|].
    destruct Hr as (-> & Hu & Hp). split_and!; [done|by eapply unread_trans|by rewrite Hn].
  - rewrite He. split_and!; try done; [|by rewrite HF]. destruct (wanted c sequence payload); [destruct Hr as [Ht _]; split; [by eapply took_unread|done]|].
    destruct Hr as (-> & Hu & _). split_and!; [done|by eapply unread_trans|done].
Qed.

Lemma post_tcp_known index c buf sequence acknowledgement flags payload s : sees s index c buf -> state c <> Free -> phase (state c) <> Opening ->
  post (tcp_known index sequence acknowledgement flags payload) (fun _ s' =>
    (wanted c sequence payload = true -> has flags FIN = true \/ has flags RST = true) /\ gone s' index \/
    exists c' buf', sees s' index c' buf' /\ state c' <> Free /\ phase (state c') <> Opening /\
      (has flags RST = true /\ c' = c /\ buf' = buf \/ received c buf sequence payload c' buf' /\ (has flags FIN = false -> phase (state c') = phase (state c)))) s.
Proof.
  intros Hs Hfree Hop. unfold tcp_known. apply post_bind. eapply post_connection; [exact Hs|]. destruct (has flags RST) eqn:HR.
  - unfold tcp_reset. assert (Hfin : post (finish index CLOSED_RESET) (fun _ s' => gone s' index) s) by (by eapply post_finish).
    destruct (match state c with SynSent => _ | _ => _ end).
    + eapply post_mono; [exact Hfin|]. intros [] s' Hg. left. split; [|done]. by right.
    + apply post_ret. right. exists c, buf. split_and!; try done. by left.
  - apply post_bind. eapply post_mono; [by eapply post_tcp_acknowledge|]. intros go s1 [-> [(c1 & Hs1 & Hrx) | [He Hg]]]; cbn [negb].
    + apply post_bind. eapply post_connection; [exact Hs1|]. apply post_bind. eapply post_mono; [by eapply post_tcp_data|]. cbv beta. intros acc s2 Hd. rewrite (wanted_rx c c1) in Hd by done.
      assert (Hp1 : phase (state c1) = phase (state c)) by apply Hrx. assert (Hf1 : state c1 <> Free) by (intros Hz; apply Hfree; by apply Hrx).
      assert (Hrest : forall c2 buf2, sees s2 index c2 buf2 -> state c2 = state c1 -> received c buf sequence payload c2 buf2 ->
        post (tcp_finish index (is_receiving (state c1)) acc sequence flags payload) (fun _ s' =>
          (wanted c sequence payload = true -> has flags FIN = true \/ false = true) /\ gone s' index \/
          exists c' buf', sees s' index c' buf' /\ state c' <> Free /\ phase (state c') <> Opening /\
            (false = true /\ c' = c /\ buf' = buf \/ received c buf sequence payload c' buf' /\ (has flags FIN = false -> phase (state c') = phase (state c)))) s2).
      { intros c2 buf2 Hs2 Hst Hr. rewrite <- Hst. eapply post_mono; [eapply post_tcp_rest; [exact Hs2|exact Hr|congruence|congruence]|].
        intros [] s' [[HF Hg] | (c' & buf' & Hs' & Hr' & Hnf & Hno & Hph)]; [left; split; [by left|done]|]. right. exists c', buf'. split_and!; try done.
        right. split; [done|]. intros HF. rewrite (Hph HF). congruence. }
      assert (Hcase : exists c2 buf2, sees s2 index c2 buf2 /\ state c2 = state c1 /\ received c buf sequence payload c2 buf2).
      { unfold received. destruct (wanted c sequence payload).
        - destruct Hd as (_ & c2 & buf2 & Hs2 & Ht & Hst & Hn). exists c2, buf2. split_and!; try done; [by eapply took_rx|]. intros _. rewrite Hn. f_equal. apply Hrx.
        - destruct Hd as [Hs2 _]. exists c1, buf. split_and!; try done; try (by apply rx_unread). rewrite Hp1. intros Hp. split; [done|]. apply Hrx. }
      destruct Hcase as (c2 & buf2 & Hs2 & Hst & Hr). exact (Hrest c2 buf2 Hs2 Hst Hr).
    + apply post_bind. unfold gone in Hg. eapply (post_connection _ _ _ _ s1); [by split|]. cbn [is_receiving state Connection_default].
      apply post_bind. assert (Hq : quiet (tcp_data index false sequence payload)) by (unfold tcp_data; cbn [negb]; destruct (_ =? _)%nat; apply quiet_ret).
      eapply post_quiet; [exact Hq|by split|]. intros acc s2 Hs2. unfold tcp_finish. apply post_bind. eapply post_connection; [exact Hs2|]. rewrite andb_false_r.
      eapply post_mono; [eapply (quiet_gone _ _ index); [destruct (_ || _); auto with quiet|by destruct Hs2]|]. intros [] s' Hg'. left. split; [|done].
      unfold wanted. destruct (is_receiving (state c)) eqn:Hrec; [|done]. apply is_receiving_phase in Hrec. congruence.
Qed.

(** The client has read what it was told of. *)
Lemma post_consumed index c buf s : sees s index c buf -> state c <> Free -> (index < CONNECTIONS)%nat ->
  post (connection_command (c_owner c) TAG_TCP_CONSUMED (Z.of_nat index) 0 0) (fun _ s' => sees s' index (set_delivered false (set_filled 0 c)) buf) s.
Proof.
  intros Hs Hst Hi. unfold connection_command. replace (Z.of_nat CONNECTIONS <=? Z.of_nat index) with false by lia. rewrite Nat2Z.id.
  apply post_bind. eapply post_connection; [exact Hs|]. unfold is_free. rewrite bool_decide_false by done. rewrite Z.eqb_refl. cbn -[on_connection send_ack].
  apply post_bind. eapply post_on_connection; [exact Hs|done|]. intros s1 Hs1. eapply post_quiet; [apply quiet_send_ack|exact Hs1|]. done.
Qed.

Lemma post_close index c buf s : sees s index c buf -> phase (state c) <> Opening -> post (close index) (fun _ s' => sees_rx index c buf s') s.
Proof.
  intros Hs Hop. unfold close. apply post_bind. eapply post_connection; [exact Hs|].
  assert (Hstay : post (mret tt) (fun _ s' => sees_rx index c buf s') s) by (apply post_ret; exists c; auto with net).
  assert (Hfin : state c = Established \/ state c = CloseWait -> post (if unacknowledged c =? next_send c then send_fin index else on_connection index (set_close_requested true)) (fun _ s' => sees_rx index c buf s') s).
  { intros Hst. destruct (_ =? _); [by eapply post_send_fin|]. eapply post_on_connection; [exact Hs|done|]. intros s' Hs'. eexists. split; [exact Hs'|]. by repeat split. }
  destruct (state c); try exact Hstay; try (by apply Hfin; auto); by exfalso; apply Hop.
Qed.

Lemma post_connection_tick index c buf s : sees s index c buf -> post (connection_tick index) (fun _ s' => sees_rx index c buf s' \/ gone s' index) s.
Proof.
  intros Hs. unfold connection_tick. apply post_bind. eapply post_connection; [exact Hs|]. destruct (_ || _); [apply post_ret; left; exists c; auto with net|].
  apply post_bind. eapply post_on_connection; [exact Hs|done|]. intros s1 Hs1. destruct (_ <? timeout c); [apply post_ret; left; eexists; split; [exact Hs1|by repeat split]|].
  apply post_bind. eapply post_on_connection; [exact Hs1|done|]. intros s2 Hs2. destruct (MAX_RETRIES <? _).
  - apply post_bind. assert (Hq : quiet (send_reset index)) by (unfold send_reset, connection_segment; apply quiet_bind; [apply quiet_connection|intros d]; apply quiet_bind; [apply quiet_connection|intros e]; apply quiet_segment).
    eapply post_quiet; [exact Hq|exact Hs2|]. intros [] s3 Hs3. eapply post_mono; [by eapply post_finish|]. intros [] s' Hg. by right.
  - apply post_bind. eapply post_on_connection; [exact Hs2|done|]. intros s3 Hs3. eapply post_quiet; [apply quiet_transmit|exact Hs3|]. intros [] s' Hs'.
    left. eexists. split; [exact Hs'|]. by repeat split.
Qed.

End Steps.

(** Mapping another buffer leaves a connection's alone. *)
Lemma post_mapping `{KernelLaw} buffer index c bytes s : sees s index c (Some bytes) -> state c <> Free -> post (mapping buffer) (fun _ s' => sees s' index c (Some bytes)) s.
Proof.
  intros Hs Hst. unfold mapping. apply post_bind. eapply post_quiet; [apply quiet_get|exact Hs|]. intros s0 s1 Hs1.
  destruct (position _ (mappings s0)) as [i|]; [by apply post_ret|]. apply post_bind.
  assert (Hslot : post mapping_slot (fun _ s' => sees s' index c (Some bytes)) s1).
  { unfold mapping_slot. intros o s' Hr. unfold mbind, M_bind, get in Hr. destruct (position (fun m => m.1.1 =? 0) (mappings s1)) as [i|]; [by injection Hr as _ <-|].
    destruct (position (fun m => negb (refers_to s1 m.1.2)) (mappings s1)) as [i|] eqn:Hp; [|by injection Hr as _ <-].
    destruct (position_found _ _ _ Hp) as ([[h b] z] & Hm & Hno). rewrite Hm in Hr. injection Hr as _ <-. destruct Hs1 as [Hc Hb]. split; [done|]. cbn.
    rewrite lookup_delete_ne; [done|]. intros ->. cbn in Hno. apply negb_true_iff in Hno. unfold refers_to in Hno. rewrite !orb_false_iff in Hno. destruct Hno as [[_ Hno] _].
    pose proof (existsb_false _ _ c Hno ltac:(by eapply list_elem_of_lookup_2)) as Hcon. cbv beta in Hcon. unfold is_free in Hcon. rewrite bool_decide_false in Hcon by done. lia. }
  eapply post_mono; [exact Hslot|]. intros [slot|] s2 Hs2; [|by apply post_ret]. apply post_bind. eapply post_quiet; [apply quiet_emit|exact Hs2|]. intros [] s3 Hs3.
  apply post_bind. intros mem s4 Hr. injection Hr as <- <-. destruct (grant (memory s3) buffer) as [[base x]|] eqn:Hg; [|by apply post_ret].
  destruct (describes buffer); [|apply post_bind; eapply post_quiet; [apply quiet_emit|exact Hs3|]; intros [] s5 Hs5; by apply post_ret].
  apply post_bind. intros [] s5 Hr. injection Hr as <-. apply post_ret. destruct (grant_fresh _ _ _ _ Hg) as (_ & Hfresh & _). destruct Hs3 as [Hc Hb].
  split; [done|]. cbn. rewrite lookup_insert_ne; [done|]. intros ->. congruence.
Qed.

Lemma post_send_tcp `{KernelLaw} index buffer len c bytes s : sees s index c (Some bytes) -> state c <> Free -> post (send_tcp index buffer len) (fun _ s' => sees_rx index c (Some bytes) s') s.
Proof.
  intros Hs Hst. unfold send_tcp. apply post_bind. eapply post_connection; [exact Hs|]. apply post_bind. eapply post_mono; [by apply post_mapping|]. cbv beta. intros m s1 Hs1.
  assert (Htell : post (tell index TAG_TCP_SENT [Z.of_nat index; 0; 0; 0]) (fun _ s' => sees_rx index c (Some bytes) s') s1).
  { eapply post_quiet; [apply quiet_tell|exact Hs1|]. intros [] s' Hs'. exists c. split; [done|apply rx_refl]. }
  destruct m as [[base size]|]; [|exact Htell]. destruct (_ && _); [by eapply post_start_flight|exact Htell].
Qed.

(** ** A conversation *)

Definition pending (s : Stack) (c : Connection) : list Z := if delivered c then take (Z.to_nat (filled c)) (default [] (memory s !! c_base c)) else [].

(** A segment of the peer's stream: the bytes that belong at its sequence number. *)
Definition of_stream (stream : list Z) (first : Z) (sequence : Z) (payload : list Z) : Prop :=
  exists k, (k + length payload <= length stream)%nat /\ sequence = (first + Z.of_nat k) mod 2 ^ 32 /\ payload = take (length payload) (drop k stream).

Section Conversation.
Variables (stream : list Z) (first : Z) (index : nat).

(** What can happen to an open connection, and what its client has read: segments of the
    peer in any order, any number of times, with any flags and acknowledgements; reading;
    sending, closing, and the ticks of the timer. *)
Inductive conversation : Stack -> list Z -> Prop :=
| conv_open s c bytes : net_ok s -> sees s index c (Some bytes) -> state c = Established -> next_receive c = first mod 2 ^ 32 -> filled c = 0 -> delivered c = false -> conversation s []
| conv_segment `{KernelLaw} s taken c sequence acknowledgement flags payload s' : conversation s taken -> connections s !! index = Some c -> state c <> Free ->
    of_stream stream first sequence payload -> tcp_known index sequence acknowledgement flags payload s = (Ok tt, s') -> conversation s' taken
| conv_read `{KernelLaw} s taken c s' : conversation s taken -> connections s !! index = Some c -> state c <> Free ->
    connection_command (c_owner c) TAG_TCP_CONSUMED (Z.of_nat index) 0 0 s = (Ok tt, s') -> conversation s' (taken ++ pending s c)
| conv_send `{KernelLaw} s taken c buffer len s' : conversation s taken -> connections s !! index = Some c -> state c <> Free -> send_tcp index buffer len s = (Ok tt, s') -> conversation s' taken
| conv_close `{KernelLaw} s taken c s' : conversation s taken -> connections s !! index = Some c -> state c <> Free -> close index s = (Ok tt, s') -> conversation s' taken
| conv_tick `{KernelLaw} s taken c s' : conversation s taken -> connections s !! index = Some c -> state c <> Free -> connection_tick index s = (Ok tt, s') -> conversation s' taken.

(** What was read and what waits in the buffer are the stream's beginning. *)
Definition in_order (s : Stack) (taken : list Z) (c : Connection) (bytes : list Z) : Prop :=
  sees s index c (Some bytes) /\ state c <> Free /\ phase (state c) <> Opening /\ (delivered c = false -> filled c = 0) /\ 0 <= filled c /\
  exists n, (n <= length stream)%nat /\ (phase (state c) = Receiving -> next_receive c = (first + Z.of_nat n) mod 2 ^ 32) /\ taken ++ pending s c = take n stream.

Definition talk (s : Stack) (taken : list Z) : Prop :=
  net_ok s /\ (gone s index /\ taken `prefix_of` stream \/ exists c bytes, in_order s taken c bytes).

Lemma in_order_prefix s taken c bytes : in_order s taken c bytes -> taken `prefix_of` stream.
Proof. intros (_ & _ & _ & _ & _ & n & Hn & _ & Ht). exists (pending s c ++ drop n stream). rewrite app_assoc, Ht. by rewrite take_drop. Qed.

Lemma pending_same s s' c c' bytes : sees s index c (Some bytes) -> sees s' index c' (Some bytes) -> unread_same c c' -> pending s' c' = pending s c.
Proof. intros [_ Hb] [_ Hb'] (Hf & Hd & _). unfold pending. by rewrite Hb, Hb', Hf, Hd. Qed.

Lemma in_order_rx s taken c bytes s' : in_order s taken c bytes -> sees_rx index c (Some bytes) s' -> exists c', in_order s' taken c' bytes.
Proof.
  intros (Hs & Hf & Hp & Hz & Hnn & n & Hn & Hseq & Ht) (c' & Hs' & Hrx). exists c'. pose proof (rx_unread _ _ Hrx) as Hun. pose proof (pending_same _ _ _ _ _ Hs Hs' Hun) as Hpend.
  destruct Hrx as (Hnr & Hfl & Hd & _ & _ & _ & Hph & Hfree). unfold in_order. rewrite Hfl, Hd, Hph, Hpend, Hnr. split_and!; try done; [by intros Hx; apply Hf, Hfree|]. by exists n.
Qed.


Hypothesis Hshort : Z.of_nat (length stream) < 2 ^ 32.

Lemma same_place k n : (k <= length stream)%nat -> (n <= length stream)%nat -> (first + Z.of_nat k) mod 2 ^ 32 = (first + Z.of_nat n) mod 2 ^ 32 -> k = n.
Proof.
  intros Hk Hn He. assert (Hd : (Z.of_nat k - Z.of_nat n) mod 2 ^ 32 = 0).
  { replace (Z.of_nat k - Z.of_nat n) with ((first + Z.of_nat k) - (first + Z.of_nat n)) by lia. by rewrite Zminus_mod, He, Z.sub_diag. }
  apply Z.mod_divide in Hd as [q Hq]; [|lia]. nia.
Qed.

Lemma overwrite_start x buf : take (length x) (overwrite 0 x buf) = x.
Proof. unfold overwrite. rewrite take_0, app_nil_l. apply take_app_length. Qed.

(** Data taken is the next of the stream. *)
Lemma took_in_order s s' taken c bytes sequence payload c' buf' : in_order s taken c bytes -> of_stream stream first sequence payload -> phase (state c) = Receiving ->
  took c (Some bytes) sequence payload c' buf' -> sees s' index c' buf' -> state c' <> Free -> phase (state c') <> Opening ->
  (phase (state c') = Receiving -> next_receive c' = wrapping_add (next_receive c) (Z.of_nat (length payload))) ->
  exists bytes', in_order s' taken c' bytes' /\ pending s' c' = payload.
Proof.
  intros (Hs & _ & _ & Hz & _ & n & Hn & Hseq & Ht) (k & Hk & Hsk & Hpay) Hrec (Hsq & Hd & _ & _ & Hd' & Hf' & _ & _ & _ & x & Hx & Hlen & ->) Hs' Hfree Hop Hnext.
  injection Hx as <-. specialize (Hz Hd). rewrite Hz in *. change (Z.to_nat 0) with 0%nat in *. rewrite Z.add_0_l in Hf'. specialize (Hseq Hrec). assert (k = n) as -> by (apply same_place; [lia|lia|congruence]).
  assert (Hpend : pending s' c' = payload) by (unfold pending; rewrite Hd', Hf'; destruct Hs' as [_ ->]; rewrite Nat2Z.id; apply overwrite_start).
  exists (overwrite 0 payload bytes). split; [|done]. split_and!; try done; [by rewrite Hd'|lia|]. exists (n + length payload)%nat. split_and!; [done| |].
  - intros Hr. rewrite (Hnext Hr), Hseq. unfold wrapping_add. rewrite Zplus_mod_idemp_l. f_equal. lia.
  - rewrite Hpend. assert (Htk : taken = take n stream) by (rewrite <- Ht; unfold pending; by rewrite Hd, app_nil_r). rewrite Htk. rewrite Hpay at 1. apply take_take_drop.
Qed.

Lemma in_order_unread s s' taken c c' bytes : in_order s taken c bytes -> sees s' index c' (Some bytes) -> unread_same c c' -> state c' <> Free -> phase (state c') <> Opening ->
  (phase (state c') = Receiving -> phase (state c) = Receiving /\ next_receive c' = next_receive c) -> in_order s' taken c' bytes.
Proof.
  intros (Hs & _ & _ & Hz & Hnn & n & Hn & Hseq & Ht) Hs' Hun Hfree Hop Hnext. pose proof (pending_same _ _ _ _ _ Hs Hs' Hun) as Hpend. destruct Hun as (Hf & Hd & _).
  unfold in_order. rewrite Hf, Hd, Hpend. split_and!; try done. exists n. split_and!; try done. intros Hr. destruct (Hnext Hr) as [Hrc ->]. auto.
Qed.

Lemma talk_segment `{KernelLaw} s taken c sequence acknowledgement flags payload s' : talk s taken -> connections s !! index = Some c -> state c <> Free ->
  of_stream stream first sequence payload -> tcp_known index sequence acknowledgement flags payload s = (Ok tt, s') ->
  talk s' taken /\ (wanted c sequence payload = true -> has flags FIN = false -> has flags RST = false ->
    exists c', connections s' !! index = Some c' /\ is_receiving (state c') = true /\ pending s' c' = payload /\ c_owner c' = c_owner c /\ c_size c' = c_size c).
Proof.
  intros [Hok [[Hg _] | (d & bytes & Hin)]] Hc Hst Hof Hr; [unfold gone in Hg; rewrite Hc in Hg; by injection Hg as ->|].
  pose proof Hin as (Hs & _ & Hop & _). assert (d = c) as -> by (destruct Hs as [Hs _]; congruence).
  assert (Hi : (index < CONNECTIONS)%nat) by (destruct (ok_connections _ Hok) as [<- _]; by eapply lookup_lt_Some).
  assert (Hok' : net_ok s') by (pose proof (fine_tcp_known index sequence acknowledgement flags payload Hi s Hok) as Hfine; unfold safe in Hfine; rewrite Hr in Hfine; apply Hfine).
  pose proof (post_tcp_known index c (Some bytes) sequence acknowledgement flags payload s Hs Hst Hop tt s' Hr) as Hpost. cbv beta in Hpost.
  destruct Hpost as [[Hno Hg] | (c' & buf' & Hs' & Hf' & Hop' & [(HR & -> & ->) | [Hrec Hph]])].
  - split; [split; [done|]; left; split; [done|by eapply in_order_prefix]|]. intros Hw HF HR. destruct (Hno Hw); congruence.
  - split; [split; [done|]; right; exists c, bytes; eapply in_order_unread; (done || by repeat split)|]. intros _ _ ?. congruence.
  - unfold received in Hrec. destruct (wanted c sequence payload) eqn:Hw.
    + destruct Hrec as [Ht Hn]. assert (Hp : phase (state c) = Receiving) by (apply is_receiving_phase; unfold wanted in Hw; by destruct (is_receiving (state c))).
      destruct (took_in_order _ _ _ _ _ _ _ _ _ Hin Hof Hp Ht Hs' Hf' Hop' Hn) as (bytes' & Hin' & Hpend). split; [split; [done|]; right; by exists c', bytes'|].
      intros _ HF _. exists c'. split_and!; [apply Hs'|apply is_receiving_phase; by rewrite (Hph HF)|done|apply Ht..].
    + destruct Hrec as (-> & Hun & Hn). split; [split; [done|]; right; exists c', bytes; by eapply in_order_unread|done].
Qed.


Lemma talk_rx s taken c s' : talk s taken -> connections s !! index = Some c -> state c <> Free -> net_ok s' ->
  (forall bytes, sees s index c (Some bytes) -> phase (state c) <> Opening -> sees_rx index c (Some bytes) s' \/ gone s' index) -> talk s' taken.
Proof.
  intros [_ [[Hg _] | (d & bytes & Hin)]] Hc Hst Hok Hkeep; [unfold gone in Hg; rewrite Hc in Hg; by injection Hg as ->|]. split; [done|].
  pose proof Hin as (Hs & _ & Hop & _). assert (d = c) as -> by (destruct Hs as [Hs _]; congruence).
  destruct (Hkeep bytes Hs Hop) as [Hrx | Hg]; [|left; split; [done|by eapply in_order_prefix]]. right. destruct (in_order_rx _ _ _ _ _ Hin Hrx) as [c' Hin']. by exists c', bytes.
Qed.

Lemma talk_read `{KernelLaw} s taken c s' : talk s taken -> connections s !! index = Some c -> state c <> Free ->
  connection_command (c_owner c) TAG_TCP_CONSUMED (Z.of_nat index) 0 0 s = (Ok tt, s') -> talk s' (taken ++ pending s c) /\ connections s' !! index = Some (set_delivered false (set_filled 0 c)).
Proof.
  intros [Hok [[Hg _] | (d & bytes & Hin)]] Hc Hst Hr; [unfold gone in Hg; rewrite Hc in Hg; by injection Hg as ->|].
  pose proof Hin as (Hs & _ & Hop & Hz & _ & n & Hn & Hseq & Ht). assert (d = c) as -> by (destruct Hs as [Hs _]; congruence).
  assert (Hi : (index < CONNECTIONS)%nat) by (destruct (ok_connections _ Hok) as [<- _]; by eapply lookup_lt_Some).
  pose proof (post_consumed index c (Some bytes) s Hs Hst Hi tt s' Hr) as Hs'. cbv beta in Hs'. split; [|apply Hs']. split.
  - pose proof (fine_connection_command (c_owner c) TAG_TCP_CONSUMED (Z.of_nat index) 0 0 ltac:(lia) s Hok) as Hfine. unfold safe in Hfine. rewrite Hr in Hfine. apply Hfine.
  - right. exists (set_delivered false (set_filled 0 c)), bytes. split_and!; try done. exists n. split_and!; [done|done|]. unfold pending at 2. cbn. by rewrite app_nil_r.
Qed.

Lemma keeps_net_ok (m : N unit) s s' : fine m -> net_ok s -> m s = (Ok tt, s') -> net_ok s'.
Proof. intros Hm Hs Hr. pose proof (Hm s Hs) as Hf. unfold safe in Hf. rewrite Hr in Hf. apply Hf. Qed.

Lemma conversation_talk s taken : conversation s taken -> talk s taken.
Proof.
  assert (Hidx : forall s c, net_ok s -> connections s !! index = Some c -> (index < CONNECTIONS)%nat) by (intros s0 c Hok Hc; destruct (ok_connections _ Hok) as [<- _]; by eapply lookup_lt_Some).
  induction 1 as [s c bytes Hok Hs Hst Hn Hf Hd | ? ? s taken c sequence acknowledgement flags payload s' Hcv IH Hc Hst Hof Hr | ? ? s taken c s' Hcv IH Hc Hst Hr
    | ? ? s taken c buffer len s' Hcv IH Hc Hst Hr | ? ? s taken c s' Hcv IH Hc Hst Hr | ? ? s taken c s' Hcv IH Hc Hst Hr].
  - split; [done|]. right. exists c, bytes. split_and!; try done; try (by rewrite Hst); [lia|]. exists 0%nat. split_and!; [lia|intros _; rewrite Z.add_0_r; done|]. unfold pending. by rewrite Hd.
  - by eapply talk_segment.
  - by eapply talk_read.
  - eapply talk_rx; [exact IH|done|done|eapply keeps_net_ok; [apply fine_send_tcp; by eapply Hidx; [apply IH|]|apply IH|exact Hr]|].
    intros bytes Hs _. left. by eapply (post_send_tcp _ _ _ _ _ _ Hs Hst).
  - eapply talk_rx; [exact IH|done|done|eapply keeps_net_ok; [apply fine_close; by eapply Hidx; [apply IH|]|apply IH|exact Hr]|].
    intros bytes Hs Hop. left. by eapply (post_close _ _ _ _ Hs Hop).
  - eapply talk_rx; [exact IH|done|done|eapply keeps_net_ok; [apply fine_connection_tick; by eapply Hidx; [apply IH|]|apply IH|exact Hr]|].
    intros bytes Hs _. by eapply (post_connection_tick _ _ _ _ Hs).
Qed.

(** A segment of the peer's, as it comes: an acknowledgement, flags and data. *)
Record Segment : Type := { sg_acknowledgement : Z; sg_flags : Z; sg_data : list Z }.

(** A segment that carries data and neither resets nor ends the stream. *)
Definition carries (c : Connection) (g : Segment) : Prop :=
  sg_data g <> [] /\ Z.of_nat (length (sg_data g)) <= c_size c /\ has (sg_flags g) FIN = false /\ has (sg_flags g) RST = false.

(** The client takes what waits in its buffer and says so. *)
Definition client_reads `{Kernel} : N (list Z) :=
  c ← connection index;
  s ← get;
  connection_command (c_owner c) TAG_TCP_CONSUMED (Z.of_nat index) 0 0 ;;
  mret (pending s c).

(** The peer sends its segments one after another, each at the place in the sequence the one
    before left off, and the client reads after each; what it read in all. *)
Fixpoint transfer `{Kernel} (sequence : Z) (segments : list Segment) : N (list Z) :=
  match segments with
  | [] => mret []
  | g :: rest =>
      tcp_known index (sequence mod 2 ^ 32) (sg_acknowledgement g) (sg_flags g) (sg_data g) ;;
      got ← client_reads;
      more ← transfer (sequence + Z.of_nat (length (sg_data g))) rest;
      mret (got ++ more)
  end.

(** One segment sent in its place and read. *)
Lemma chunk_read `{KernelLaw} s taken c g : conversation s taken -> connections s !! index = Some c -> is_receiving (state c) = true ->
  delivered c = false -> filled c = 0 -> carries c g -> (taken ++ sg_data g) `prefix_of` stream ->
  exists s1 s' c', tcp_known index ((first + Z.of_nat (length taken)) mod 2 ^ 32) (sg_acknowledgement g) (sg_flags g) (sg_data g) s = (Ok tt, s1) /\ client_reads s1 = (Ok (sg_data g), s') /\
    conversation s' (taken ++ sg_data g) /\ connections s' !! index = Some c' /\ is_receiving (state c') = true /\ delivered c' = false /\ filled c' = 0 /\ c_size c' = c_size c.
Proof.
  destruct g as [acknowledgement flags chunk]. unfold carries. cbn [sg_acknowledgement sg_flags sg_data].
  intros Hcv Hc Hrec Hd Hf (Hne & Hfit & HF & HR) [rest Hst]. pose proof (conversation_talk _ _ Hcv) as Htalk. pose proof Htalk as [Hok [[Hg _] | (d & bytes & Hin)]]; [unfold gone in Hg; rewrite Hc in Hg; by injection Hg as ->|].
  destruct Hin as ((Hd' & _) & Hfree & Hop & _ & _ & n & Hn & Hseq & Ht). assert (d = c) as -> by congruence. specialize (Hseq ltac:(by apply is_receiving_phase)).
  assert (Htk : taken = take n stream) by (rewrite <- Ht; unfold pending; by rewrite Hd, app_nil_r). assert (Hlt : length taken = n) by (rewrite Htk, length_take; lia).
  assert (Hi : (index < CONNECTIONS)%nat) by (destruct (ok_connections _ Hok) as [<- _]; by eapply lookup_lt_Some).
  assert (Hlen : length stream = (n + length chunk + length rest)%nat) by (rewrite Hst, !length_app; lia).
  rewrite Hlt, <- Hseq. assert (Hof : of_stream stream first (next_receive c) chunk).
  { exists n. split_and!; [lia|done|]. rewrite Hst, <- app_assoc, drop_app_length' by done. by rewrite take_app_length. }
  destruct (tcp_known index (next_receive c) acknowledgement flags chunk s) as [r s1] eqn:Hrun. pose proof (fine_tcp_known index (next_receive c) acknowledgement flags chunk Hi s Hok) as Hfine. unfold safe in Hfine. rewrite Hrun in Hfine.
  destruct r as [[]|[]|]; [|done]. destruct (talk_segment _ _ _ _ _ _ _ _ Htalk Hc Hfree Hof Hrun) as [Htalk1 Hgot].
  assert (Hw : wanted c (next_receive c) chunk = true) by (unfold wanted; rewrite Hrec, Hd, Z.eqb_refl; cbn; destruct chunk; [done|cbn in *; lia]).
  destruct (Hgot Hw HF HR) as (c1 & Hc1 & Hrec1 & Hpend & Ho1 & Hz1). assert (Hf1 : state c1 <> Free) by (intros Hx; by rewrite Hx in Hrec1).
  assert (Hcv1 : conversation s1 taken) by (by eapply conv_segment). pose proof (proj1 Htalk1) as Hok1.
  destruct (connection_command (c_owner c1) TAG_TCP_CONSUMED (Z.of_nat index) 0 0 s1) as [r s2] eqn:Hread.
  pose proof (fine_connection_command (c_owner c1) TAG_TCP_CONSUMED (Z.of_nat index) 0 0 ltac:(lia) s1 Hok1) as Hfine2. unfold safe in Hfine2. rewrite Hread in Hfine2. destruct r as [[]|[]|]; [|done].
  destruct (talk_read _ _ _ _ Htalk1 Hc1 Hf1 Hread) as [_ Hc2]. assert (Hcv2 : conversation s2 (taken ++ pending s1 c1)) by (by eapply conv_read). rewrite Hpend in Hcv2.
  exists s1, s2, (set_delivered false (set_filled 0 c1)). split; [done|]. split.
  - unfold client_reads, connection, get, mbind, M_bind. by rewrite Hc1, Hread, Hpend.
  - split_and!; done.
Qed.

End Conversation.

Module Stream.

(** C28: Whatever order the segments of a peer's stream arrive in, repeated or lost, and however
    sending, closing and the timer come between: what the client has read is the beginning
    of the stream, and while the connection receives, what it has read with what waits in
    its buffer is exactly the stream up to the sequence number it acknowledges. *)
Theorem stream_in_order stream first index s taken : Z.of_nat (length stream) < 2 ^ 32 -> conversation stream first index s taken ->
  taken `prefix_of` stream /\
  forall c, connections s !! index = Some c -> is_receiving (state c) = true ->
    exists n, next_receive c = (first + Z.of_nat n) mod 2 ^ 32 /\ taken ++ pending s c = take n stream.
Proof.
  intros Hshort Hcv. destruct (conversation_talk _ _ _ Hshort _ _ Hcv) as [_ [[Hg Hp] | (c & bytes & Hin)]].
  - split; [done|]. intros c Hc Hr. unfold gone in Hg. rewrite Hc in Hg. injection Hg as ->. done.
  - split; [by eapply in_order_prefix|]. intros d Hd Hr. destruct Hin as ((Hc & _) & _ & _ & _ & _ & n & _ & Hseq & Ht). assert (d = c) as -> by congruence.
    exists n. split; [|done]. apply Hseq. by apply is_receiving_phase.
Qed.

(** C29: A peer sends its stream segment by segment, in order, each with data that fits the
    client's buffer and with any acknowledgement and flags that do not reset or end the
    connection, to an established connection whose client reads after each: every segment
    is processed, and what the client has read is exactly what was sent. *)
Theorem stream_complete `{KernelLaw} first index s c bytes segments : net_ok s -> sees s index c (Some bytes) -> state c = Established -> next_receive c = first mod 2 ^ 32 ->
  filled c = 0 -> delivered c = false -> Forall (carries c) segments -> Z.of_nat (length (concat (sg_data <$> segments))) < 2 ^ 32 ->
  exists s', transfer index first segments s = (Ok (concat (sg_data <$> segments)), s') /\ net_ok s' /\
    exists c', connections s' !! index = Some c' /\ is_receiving (state c') = true /\ next_receive c' = (first + Z.of_nat (length (concat (sg_data <$> segments)))) mod 2 ^ 32.
Proof.
  intros Hok Hs Hst Hn Hf Hd Hall Hshort. pose proof (conv_open (concat (sg_data <$> segments)) first index s c bytes Hok Hs Hst Hn Hf Hd) as Hcv.
  remember (concat (sg_data <$> segments)) as stream eqn:Hstream. assert (Hgo : forall todo taken s c', stream = taken ++ concat (sg_data <$> todo) -> Forall (carries c) todo ->
    conversation stream first index s taken -> connections s !! index = Some c' -> is_receiving (state c') = true -> delivered c' = false -> filled c' = 0 -> c_size c' = c_size c ->
    exists s' c2, transfer index (first + Z.of_nat (length taken)) todo s = (Ok (concat (sg_data <$> todo)), s') /\ conversation stream first index s' stream /\
      connections s' !! index = Some c2 /\ is_receiving (state c2) = true /\ delivered c2 = false).
  { clear - Hshort H0. induction todo as [|x todo IH]; intros taken s c' He Hall Hcv Hc Hr Hd Hf Hz; cbn [fmap list_fmap concat] in He; [rewrite app_nil_r in He; subst taken; exists s, c'; by split_and!|].
    apply Forall_cons in Hall as [(Hne & Hle & HF & HR) Hall].
    destruct (chunk_read stream first index Hshort s taken c' x) as (s1 & s2 & c1 & Hsend & Hread & Hcv1 & Hc1 & Hr1 & Hd1 & Hf1 & Hz1); try done; [unfold carries; by rewrite Hz|exists (concat (sg_data <$> todo)); by rewrite <- app_assoc|].
    destruct (IH (taken ++ sg_data x) s2 c1) as (s3 & c2 & Hrun & Hrest); try done; [by rewrite <- app_assoc|congruence|]. exists s3, c2. split; [|done].
    cbn [transfer]. unfold mbind at 1, M_bind at 1. rewrite Hsend. unfold mbind at 1, M_bind at 1. rewrite Hread. unfold mbind at 1, M_bind at 1.
    rewrite length_app, Nat2Z.inj_add, Z.add_assoc in Hrun. by rewrite Hrun. }
  destruct (Hgo segments [] s c) as (s' & c2 & Hrun & Hcv' & Hc2 & Hr2 & Hd2); try done; [by destruct Hs|by rewrite Hst|]. rewrite Z.add_0_r in Hrun.
  exists s'. split; [by rewrite Hstream|]. destruct (conversation_talk _ _ _ Hshort _ _ Hcv') as [Hok' [[Hg _]|(d & b & Hin)]]; [unfold gone in Hg; rewrite Hc2 in Hg; by injection Hg as ->|].
  split; [done|]. exists c2. split; [done|]. split; [done|]. destruct Hin as ((Hc & _) & _ & _ & _ & _ & n & Hle & Hseq & Ht). assert (d = c2) as -> by congruence.
  rewrite Hseq by (by apply is_receiving_phase). unfold pending in Ht. rewrite Hd2, app_nil_r in Ht. assert (Hlen : length stream = n) by (rewrite Ht at 1; rewrite length_take; lia). by rewrite Hlen.
Qed.

End Stream.
