(* ===== verification/NetWire.v ===== *)
(** * The network daemon: from one machine to another

    A TCP segment as [segment] and [send_ipv4] write it, taken apart by [frame], [ipv4] and
    [tcp] of the daemon it is for. *)

From stdpp Require Import base list gmap numbers list_numbers.
From Stdlib Require Import Lia ZifyBool.
From S2P Require Import Prelude NetBytes Net NetSafe.

(** ** Writing *)

Definition lay (l : list (nat * list Z)) (buf : list Z) : list Z := fold_left (fun b e => overwrite e.1 e.2 b) l buf.

Lemma copies_lay l : forall buf (s : Stack), Forall (fun e => e.1 + length e.2 <= length buf)%nat l -> (copies l buf : N _) s = (Ok (lay l buf), s).
Proof.
  induction l as [|[at_ x] l IH]; intros buf s Hl; cbn [copies lay fold_left fst snd]; [done|]. apply Forall_cons in Hl as [Hx Hl]. cbn [fst snd] in Hx.
  unfold mbind, M_bind, copy_at. replace (at_ + length x <=? length buf)%nat with true by lia. cbn. apply IH. eapply Forall_impl; [exact Hl|]. cbv beta. intros e He.
  by rewrite length_overwrite.
Qed.

Lemma copy_run at_ x buf (s : Stack) : (at_ + length x <= length buf)%nat -> (copy_at at_ x buf : N _) s = (Ok (overwrite at_ x buf), s).
Proof. intros Hl. unfold copy_at. by replace (at_ + length x <=? length buf)%nat with true by lia. Qed.

Lemma range_run bs a b (s : Stack) : (a <= b <= length bs)%nat -> (range bs a b : N _) s = (Ok (take (b - a) (drop a bs)), s).
Proof. intros Hl. unfold range. by replace ((a <=? b)%nat && (b <=? length bs)%nat) with true by lia. Qed.

Lemma overwrite_left at_ x a b : (at_ + length x <= length a)%nat -> overwrite at_ x (a ++ b) = overwrite at_ x a ++ b.
Proof. intros Hl. unfold overwrite. rewrite take_app_le, drop_app_le by lia. by rewrite <- !app_assoc. Qed.

Lemma lay_left l : forall a b, Forall (fun e => e.1 + length e.2 <= length a)%nat l -> lay l (a ++ b) = lay l a ++ b.
Proof.
  induction l as [|[at_ x] l IH]; intros a b Hl; cbn [lay fold_left fst snd]; [done|]. apply Forall_cons in Hl as [Hx Hl]. cbn [fst snd] in Hx.
  rewrite overwrite_left by done. apply IH. eapply Forall_impl; [exact Hl|]. cbv beta. intros e He. by rewrite length_overwrite.
Qed.

Lemma overwrite_end a x b : overwrite (length a) x (a ++ b) = a ++ x ++ drop (length x) b.
Proof. unfold overwrite. rewrite take_app_length, drop_app_add' by done. done. Qed.

Lemma bind_run {A B} (m : N A) (k : A -> N B) s a s' : m s = (Ok a, s') -> mbind k m s = k a s'.
Proof. intros Hm. unfold mbind, M_bind. by rewrite Hm. Qed.

Lemma ret_run {A B} (a : A) (k : A -> N B) (s : Stack) : mbind k (mret a) s = k a s.
Proof. done. Qed.

(** Headers spelled out byte by byte. *)
Ltac spell := cbn [lay fold_left overwrite fst snd take drop app length be16 be32 replicate Nat.add].

(** *** A TCP segment *)

Definition tcp_fixed (lp rp sequence acknowledgement flags window : Z) (header : nat) : list Z :=
  be16 lp ++ be16 rp ++ be32 sequence ++ (if has flags ACK then be32 acknowledgement else [0; 0; 0; 0]) ++ [Z.shiftl (Z.of_nat header / 4) 4; flags] ++ be16 window.

Definition tcp_options (flags : Z) (destination : list Z) : list Z := if has flags SYN then [2; 4] ++ be16 (Z.of_nat (mss destination)) else [].
Definition tcp_header_size (flags : Z) : nat := if has flags SYN then 24 else 20.

(** The bytes before the checksum, and after it. *)
Definition tcp_bytes (destination : list Z) (lp rp sequence acknowledgement flags window : Z) (sum : list Z) (payload : list Z) : list Z :=
  tcp_fixed lp rp sequence acknowledgement flags window (tcp_header_size flags) ++ sum ++ [0; 0] ++ tcp_options flags destination ++ payload.

Lemma take_here (a b : list Z) n : n = length a -> take n (a ++ b) = a.
Proof. intros ->. apply take_app_length. Qed.

Lemma segment_run destination lp rp sequence acknowledgement flags window payload s : (length payload <= TCP_MSS)%nat ->
  let bytes sum := tcp_bytes destination lp rp sequence acknowledgement flags window sum payload in
  segment destination lp rp sequence acknowledgement flags window payload s =
  send_ip destination PROTOCOL_TCP (bytes (be16 (transport_checksum PROTOCOL_TCP (source_for s destination) destination (bytes [0; 0])))) s.
Proof.
  intros Hl bytes. unfold segment, bytes, tcp_bytes, tcp_header_size, tcp_options, tcp_fixed. cbv zeta. rewrite (replicate_add 24 TCP_MSS).
  destruct (has flags ACK), (has flags SYN); cbn [Nat.eqb].
  all: erewrite bind_run; [|apply copies_lay; fits]; rewrite lay_left by fits; spell.
  all: lazymatch goal with |- mbind _ (mret _) _ = _ => rewrite ret_run | |- _ => erewrite bind_run; [|apply copy_run; fits]; spell end.
  all: erewrite bind_run; [|apply copies_lay; fits]; spell.
  all: lazymatch goal with |- mbind _ (mret _) _ = _ => rewrite ret_run | |- _ => erewrite bind_run; [|apply copies_lay; fits]; spell end.
  all: erewrite bind_run; [|apply copy_run; fits]; spell.
  all: erewrite bind_run; [|reflexivity].
  all: erewrite bind_run; [|apply range_run; fits]; rewrite ?Nat.sub_0_r; spell; rewrite ?drop_0, ?take_0, ?app_nil_l, take_app_length.
  all: erewrite bind_run; [|apply copy_run; fits]; spell; reflexivity.
Qed.

(** *** An IPv4 packet *)

Definition ipv4_fixed (identification own destination protocol total : Z) (sum : list Z) : list Z :=
  [0x45; 0] ++ be16 (total mod 65536) ++ be16 identification ++ be16 0x4000 ++ [64; protocol] ++ sum ++ be32 own ++ be32 destination.

Lemma ipv4_header_run identification own destination protocol total (s : Stack) :
  ipv4_header identification own destination protocol total s =
  (Ok (ipv4_fixed identification own destination protocol total (be16 (checksum (ipv4_fixed identification own destination protocol total [0; 0])))), s).
Proof. unfold ipv4_header, ipv4_fixed. erewrite bind_run; [|apply copies_lay; fits]. spell. rewrite copy_run by fits. reflexivity. Qed.

(** A payload for a neighbour whose hardware address is known goes out in one frame. *)
Lemma send_ipv4_run destination protocol payload to s : length (mac s) = 6%nat -> length to = 6%nat -> (34 + length payload <= MAX_FRAME)%nat -> destination <> U32_MAX ->
  find_mac (ipv4_next_hop s destination) (arp_table s) = Some to ->
  let header sum := ipv4_fixed (next_identification s) (address s) destination protocol (Z.of_nat (20 + length payload)) sum in
  let out := to ++ mac s ++ be16 ETHERTYPE_IPV4 ++ header (be16 (checksum (header [0; 0]))) ++ payload in
  exists s', send_ipv4 destination protocol payload s = (Ok tt, s') /\ output s' = output s ++ [Frame out].
Proof.
  intros Hm Ht Hl Hd Hf header out. destruct (mac s) as [|m0 [|m1 [|m2 [|m3 [|m4 [|m5 [|]]]]]]] eqn:Hmac; try done. destruct to as [|t0 [|t1 [|t2 [|t3 [|t4 [|t5 [|]]]]]]]; try done.
  unfold send_ipv4. cbv zeta. replace (MAX_FRAME <? 14 + (20 + length payload))%nat with false by lia.
  erewrite bind_run; [|reflexivity]. erewrite bind_run; [|reflexivity]. erewrite bind_run; [|reflexivity]. rewrite Hmac.
  assert (Hz : exists tail : list Z, replicate MAX_FRAME 0 = replicate 34 0 ++ tail /\ length tail = 1480%nat) by (exists (replicate 1480 0); split; [exact (replicate_add 34 1480 0)|apply length_replicate]).
  destruct Hz as (tail & Hz & Htail). rewrite Hz. unfold MAX_FRAME in Hl.
  erewrite bind_run; [|apply copies_lay; fits]. rewrite lay_left by fits. spell. erewrite bind_run; [|reflexivity]. erewrite bind_run; [|apply ipv4_header_run].
  unfold out, header, ipv4_fixed. cbn [app be16 be32]. erewrite bind_run; [|apply copies_lay; fits]. spell. rewrite drop_0, take_0, app_nil_l.
  replace (destination =? U32_MAX) with false by lia. erewrite bind_run; [|reflexivity].
  change (find_mac (ipv4_next_hop (set_next_identification ((next_identification s + 1) mod 65536) s) destination) _) with (find_mac (ipv4_next_hop s destination) (arp_table s)). rewrite Hf.
  erewrite bind_run; [|apply copy_run; fits]. spell. erewrite bind_run; [|apply range_run; fits]. rewrite Nat.sub_0_r. spell. rewrite take_app_length.
  eexists. split; [reflexivity|]. reflexivity.
Qed.

(** ** Reading *)

Lemma byte_run bs i b (s : Stack) : bs !! i = Some b -> (byte_at bs i : N Z) s = (Ok b, s).
Proof. intros Hb. unfold byte_at. by rewrite Hb. Qed.

Lemma u16_run bs i v (s : Stack) : u16 v -> bs !! i = Some (v / 256 mod 256) -> bs !! (i + 1)%nat = Some (v mod 256) -> (read_u16 bs i : N Z) s = (Ok v, s).
Proof. intros Hv Ha Hb. unfold read_u16. erewrite bind_run; [|by apply byte_run]. erewrite bind_run; [|by apply byte_run]. by rewrite word16_be16. Qed.

Lemma u32_run bs i v (s : Stack) : u32 v -> bs !! i = Some (v / 16777216 mod 256) -> bs !! (i + 1)%nat = Some (v / 65536 mod 256) -> bs !! (i + 2)%nat = Some (v / 256 mod 256) ->
  bs !! (i + 3)%nat = Some (v mod 256) -> (read_u32 bs i : N Z) s = (Ok v, s).
Proof. intros Hv Ha Hb Hc Hd. unfold read_u32. do 4 (erewrite bind_run; [|by apply byte_run]). by rewrite word32_be32. Qed.

Section Reading.
Context `{Kernel}.

Lemma frame_ipv4 (to from packet : list Z) t : length to = 6%nat -> length from = 6%nat -> frame (to ++ from ++ be16 ETHERTYPE_IPV4 ++ packet) t = ipv4 packet t.
Proof.
  intros Ht Hf. destruct to as [|t0 [|t1 [|t2 [|t3 [|t4 [|t5 [|]]]]]]]; try done. destruct from as [|m0 [|m1 [|m2 [|m3 [|m4 [|m5 [|]]]]]]]; try done.
  unfold frame. cbn [app be16 length Nat.ltb Nat.leb]. erewrite bind_run; [|apply (u16_run _ _ ETHERTYPE_IPV4); [unfold u16, ETHERTYPE_IPV4; lia|done|done]].
  unfold NetBytes.from. erewrite bind_run; [|apply range_run; cbn; lia]. cbn [drop length Nat.sub]. rewrite Nat.sub_0_r, firstn_all. reflexivity.
Qed.

Lemma ipv4_fixed_bytes id own dst protocol total : is_byte protocol -> Forall is_byte ([0x45; 0] ++ be16 (total mod 65536) ++ be16 id ++ be16 0x4000 ++ [64; protocol] ++ be32 own ++ be32 dst).
Proof. intros Hp. rewrite !Forall_app. split_and!; try apply be16_bytes; try apply be32_bytes; repeat constructor; unfold is_byte in *; lia. Qed.

(** A header carries the sum that makes it add up. *)
Lemma ipv4_fixed_sum id own dst protocol total : is_byte protocol ->
  checksum (ipv4_fixed id own dst protocol total (be16 (checksum (ipv4_fixed id own dst protocol total [0; 0])))) = 0.
Proof.
  intros Hp. pose proof (checksum_placed 0 ([0x45; 0] ++ be16 (total mod 65536) ++ be16 id ++ be16 0x4000 ++ [64; protocol]) (be32 own ++ be32 dst)) as Hc. cbv zeta in Hc.
  destruct Hc as [Hc _]; [lia|done| |done|exact Hc]. pose proof (ipv4_fixed_bytes id own dst protocol total Hp) as Hb. rewrite !Forall_app in *. tauto.
Qed.

(** A guard that does not hold. *)
Ltac passes := match goal with |- (if ?b then _ else _) _ = _ => replace b with false by (cbn [length] in *; lia); cbv iota end.

Lemma ipv4_run id own dst total sum payload t : u32 own -> u32 dst -> total = Z.of_nat (20 + length payload) -> total < 65536 ->
  checksum (ipv4_fixed id own dst PROTOCOL_TCP total (be16 sum)) = 0 -> address t = dst ->
  ipv4 (ipv4_fixed id own dst PROTOCOL_TCP total (be16 sum) ++ payload) t = tcp (mapped own) (mapped dst) payload t.
Proof.
  intros Hown Hdst Htot Hlt Hsum Hadd. unfold ipv4, ipv4_fixed in *. unfold be16, be32 in *. cbn [app] in *. passes.
  erewrite bind_run; [|by apply byte_run]. change (Z.shiftr 69 4) with 4. cbn [Z.eqb Pos.eqb negb].
  change (Z.to_nat (Z.land 69 15) * 4)%nat with 20%nat. erewrite bind_run; [|apply (u16_run _ _ total); [unfold u16; lia|cbn; by rewrite (Z.mod_small total) by lia|cbn; by rewrite (Z.mod_small total) by lia]].
  replace (Z.to_nat total) with (20 + length payload)%nat by lia. passes.
  erewrite bind_run; [|apply range_run; cbn [length]; lia]. cbn [Nat.sub take drop]. rewrite take_0, Hsum. cbn [Z.eqb negb].
  erewrite bind_run; [|apply (u16_run _ _ 16384); [unfold u16; lia|done|done]]. change (Z.land 16384 16383) with 0. cbn [Z.eqb negb].
  erewrite bind_run; [|apply (u32_run _ _ dst); done]. erewrite bind_run; [|reflexivity]. rewrite Hadd, Z.eqb_refl. cbn [negb andb].
  erewrite bind_run; [|apply (u32_run _ _ own); done]. erewrite bind_run; [|apply range_run; cbn [length]; lia]. erewrite bind_run; [|by apply byte_run].
  cbn [drop Nat.add Nat.sub]. rewrite Nat.sub_0_r, firstn_all. reflexivity.
Qed.


(** *** The segment *)

Definition seg_ok (lp rp sequence acknowledgement flags : Z) : Prop := u16 lp /\ u16 rp /\ u32 sequence /\ u32 acknowledgement /\ is_byte flags.

Lemma length_tcp_bytes destination lp rp sequence acknowledgement flags window sum payload : length sum = 2%nat ->
  length (tcp_bytes destination lp rp sequence acknowledgement flags window sum payload) = (tcp_header_size flags + length payload)%nat.
Proof.
  intros Hs. unfold tcp_bytes, tcp_fixed, tcp_header_size, tcp_options. rewrite !length_app, Hs. destruct (has flags ACK), (has flags SYN); cbn; lia.
Qed.

Lemma tcp_fixed_bytes lp rp sequence acknowledgement flags window : is_byte flags -> Forall is_byte (tcp_fixed lp rp sequence acknowledgement flags window (tcp_header_size flags)).
Proof.
  intros Hf. unfold tcp_fixed. rewrite !Forall_app. split_and!; try apply be16_bytes; try apply be32_bytes.
  - destruct (has flags ACK); [apply be32_bytes|]. repeat constructor; unfold is_byte; lia.
  - constructor; [|constructor; [exact Hf|constructor]]. unfold tcp_header_size. destruct (has flags SYN); vm_compute; split; discriminate || reflexivity.
Qed.

Lemma tcp_rest_bytes flags destination payload : Forall is_byte payload -> Forall is_byte ([0; 0] ++ tcp_options flags destination ++ payload).
Proof.
  intros Hp. rewrite !Forall_app. split_and!; [repeat constructor; unfold is_byte; lia| |done]. unfold tcp_options. destruct (has flags SYN); [|constructor].
  apply Forall_app. split; [repeat constructor; unfold is_byte; lia|apply be16_bytes].
Qed.

Lemma pseudo_mapped protocol own dst bs : u32 own -> u32 dst -> pseudo_header protocol (mapped own) (mapped dst) bs = be32 own ++ be32 dst ++ [0; protocol] ++ be16 (Z.of_nat (length bs) mod 65536).
Proof. intros Ho Hd. unfold pseudo_header. by rewrite !as_v4_mapped. Qed.

(** A segment carries the sum that makes it add up between its two addresses. *)
Lemma tcp_sum own dst destination lp rp sequence acknowledgement flags window payload : u32 own -> u32 dst -> is_byte flags -> Forall is_byte payload -> (length payload <= TCP_MSS)%nat ->
  let bytes sum := tcp_bytes destination lp rp sequence acknowledgement flags window sum payload in
  transport_checksum PROTOCOL_TCP (mapped own) (mapped dst) (bytes (be16 (transport_checksum PROTOCOL_TCP (mapped own) (mapped dst) (bytes [0; 0])))) = 0.
Proof.
  intros Ho Hd Hf Hp Hl bytes. unfold transport_checksum, bytes. rewrite !pseudo_mapped by done. rewrite !length_tcp_bytes by done.
  set (start := add_words 0 _). set (sum := fold _). unfold tcp_bytes in *.
  pose proof (tcp_fixed_bytes lp rp sequence acknowledgement flags window Hf) as Ha. pose proof (tcp_rest_bytes flags destination payload Hp) as Hb.
  destruct (checksum_placed start (tcp_fixed lp rp sequence acknowledgement flags window (tcp_header_size flags)) ([0; 0] ++ tcp_options flags destination ++ payload)) as [Hc _]; [| | | |exact Hc].
  - unfold start. assert (Hps : Forall is_byte (be32 own ++ be32 dst ++ [0; PROTOCOL_TCP] ++ be16 (Z.of_nat (tcp_header_size flags + length payload) mod 65536))).
    { rewrite !Forall_app. split_and!; try apply be32_bytes; try apply be16_bytes. repeat constructor; unfold is_byte, PROTOCOL_TCP; lia. }
    pose proof (add_words_nonneg _ Hps) as Hn. rewrite !length_app in Hn. cbn [length be32 be16] in Hn. lia.
  - unfold tcp_fixed. by destruct (has flags ACK).
  - by apply Forall_app.
  - rewrite !length_app. unfold tcp_fixed, tcp_options, TCP_MSS in *. destruct (has flags ACK), (has flags SYN); cbn; lia.
Qed.

(** What the segment asks of the daemon that takes it. *)
Definition taken_segment (source : list Z) (lp rp sequence acknowledgement flags : Z) (payload : list Z) : N unit :=
  s ← get;
  match position (belongs source lp rp) (connections s) with
  | None => tcp_unknown source lp rp sequence acknowledgement flags payload
  | Some index => tcp_known index sequence acknowledgement flags payload
  end.

Lemma tcp_run own dst destination lp rp sequence acknowledgement flags window sum payload t : seg_ok lp rp sequence acknowledgement flags ->
  let bytes := tcp_bytes destination lp rp sequence acknowledgement flags window (be16 sum) payload in
  transport_checksum PROTOCOL_TCP (mapped own) (mapped dst) bytes = 0 ->
  tcp (mapped own) (mapped dst) bytes t = taken_segment (mapped own) lp rp sequence (if has flags ACK then acknowledgement else 0) flags payload t.
Proof.
  intros (Hlp & Hrp & Hseq & Hack & Hf) bytes Hsum. unfold tcp. rewrite Hsum. pose proof (length_tcp_bytes destination lp rp sequence acknowledgement flags window (be16 sum) payload eq_refl) as Hlen.
  fold bytes in Hlen. unfold tcp_header_size in Hlen. assert (Hge : (20 <= length bytes)%nat) by (destruct (has flags SYN); lia). replace (length bytes <? 20)%nat with false by lia. cbn [orb negb Z.eqb].
  unfold bytes, tcp_bytes, tcp_fixed, tcp_header_size, tcp_options, be16, be32 in *. clear Hge Hsum. destruct (has flags ACK), (has flags SYN); cbn [app] in *.
  all: do 2 (erewrite bind_run; [|apply u16_run; [|done|done]; done]); erewrite bind_run; [|apply (u32_run _ _ sequence); done].
  all: first [erewrite bind_run; [|apply (u32_run _ _ acknowledgement); done] | erewrite bind_run; [|apply (u32_run _ _ 0); [unfold u32; lia|done..]]].
  all: erewrite bind_run; [|by apply byte_run]; erewrite bind_run; [|by apply byte_run].
  all: match goal with |- context [(Z.to_nat (Z.shiftr ?v 4) * 4)%nat] => let n := eval vm_compute in (Z.to_nat (Z.shiftr v 4) * 4)%nat in change (Z.to_nat (Z.shiftr v 4) * 4)%nat with n end.
  all: passes; unfold from; erewrite bind_run; [|apply range_run; cbn [length]; lia].
  all: cbn [drop length Nat.sub]; rewrite Nat.sub_0_r, firstn_all; reflexivity.
Qed.
End Reading.

Module Wire.

(** C30: A TCP segment one daemon sends to a neighbour it knows goes out as one frame, and the
    daemon whose address it carries takes it: the header and checksums of both layers
    verify, and ports, sequence, acknowledgement, flags and data arrive as they were sent. *)
Theorem segment_arrives `{Kernel} s t to dst lp rp sequence acknowledgement flags window payload :
  net_ok s -> u32 (address s) -> u32 dst -> dst <> U32_MAX -> address t = dst -> find_mac (ipv4_next_hop s dst) (arp_table s) = Some to ->
  seg_ok lp rp sequence acknowledgement flags -> Forall is_byte payload -> (tcp_header_size flags + length payload <= 1480)%nat ->
  exists s' f, segment (mapped dst) lp rp sequence acknowledgement flags window payload s = (Ok tt, s') /\ output s' = output s ++ [Frame f] /\
    frame f t = taken_segment (mapped (address s)) lp rp sequence (if has flags ACK then acknowledgement else 0) flags payload t.
Proof.
  intros Hok Ho Hd Hb Ht Hf Hs Hp Hl. assert (Hmss : (length payload <= TCP_MSS)%nat) by (unfold tcp_header_size, TCP_MSS in *; destruct (has flags SYN); lia).
  rewrite segment_run by done. unfold send_ip, source_for. rewrite as_v4_mapped by done. set (bytes := tcp_bytes _ _ _ _ _ _ _ _ _).
  assert (Hlen : length bytes = (tcp_header_size flags + length payload)%nat) by (by apply length_tcp_bytes).
  assert (Hto : length to = 6%nat) by (eapply find_mac_length; [by destruct (ok_arp _ Hok)|exact Hf]).
  destruct (send_ipv4_run dst PROTOCOL_TCP bytes to s (ok_mac _ Hok) Hto ltac:(unfold MAX_FRAME; lia) Hb Hf) as (s' & Hrun & Hout). exists s'. eexists. split; [exact Hrun|]. split; [exact Hout|].
  rewrite frame_ipv4 by (done || exact (ok_mac _ Hok)). rewrite ipv4_run; [|done|done|done|lia|apply ipv4_fixed_sum; unfold is_byte, PROTOCOL_TCP; lia|done].
  unfold bytes. rewrite tcp_run; [done|done|]. apply tcp_sum; try done. apply Hs.
Qed.

End Wire.
