(* ===== verification/NetRuns.v ===== *)
(** * The network daemon: runs

    A kernel, two machines on a link, a client and a connection, for which the theorems of
    the network daemon are put to use. *)

From stdpp Require Import base list gmap numbers list_numbers.
From Stdlib Require Import Lia ZifyBool.
From S2P Require Import Prelude NetBytes Net NetSafe NetReceive NetCommands NetTheorems NetStream NetWire.

(** A kernel that maps buffers of 32 bytes, each handle at an address of its own. *)
Definition small_grant (mem : gmap Z (list Z)) (handle : Z) : option (Z * list Z) :=
  if (1 <=? handle) && bool_decide (mem !! (handle * 4096) = None) then Some (handle * 4096, replicate 32 0) else None.

#[local] Instance small_kernel : Kernel := {| random_at := fun i => 2654435761 * Z.of_nat (S i); grant := small_grant; describes := fun _ => true; timer_ok := true |}.

#[local] Instance small_law : KernelLaw.
Proof.
  constructor. intros mem handle base bytes Hg. change (small_grant mem handle = Some (base, bytes)) in Hg. unfold small_grant in Hg. destruct (_ && _) eqn:Hc; [|done]. injection Hg as <- <-.
  apply andb_true_iff in Hc as [Hh Hn]. apply bool_decide_eq_true in Hn. split_and!; [lia|done|cbn; lia].
Qed.

Definition card : list Z := [82; 84; 0; 18; 52; 86].
Definition other_card : list Z := [82; 84; 0; 18; 52; 87].
Definition here : Z := 0x0A000001.
Definition there : Z := 0x0A000002.
Definition fixed (own : Z) : Parameters := {| p_control := 3; p_own := own; p_gateway := 0; p_netmask := 0xFFFFFF00; p_dns := 0 |}.
Definition booted : Stack := initial (fixed here) card.

Lemma daemon_booted : net_ok booted.
Proof. by apply net_ok_initial. Qed.

(** A frame of noise for the daemon to take. *)
Definition noise : list Z := replicate 12 255 ++ be16 ETHERTYPE_ARP ++ replicate 28 1.

Lemma noise_arrives : arrives KERNEL_SENDER TAG_NET_RECEIVED 0 0 0 0 [noise].
Proof.
  split; [unfold u64; lia..| |by intros Hne].
  apply Forall_singleton. split; [vm_compute; lia|]. unfold noise. rewrite !Forall_app. split_and!; [apply Forall_replicate|apply be16_bytes|apply Forall_replicate]; unfold is_byte; lia.
Qed.

Lemma daemon_never_panics_witness : exists s s', start [noise] booted = (Ok tt, s) /\ message KERNEL_SENDER TAG_NET_RECEIVED 0 0 0 0 [noise] s = (Ok tt, s') /\ net_ok s'.
Proof.
  destruct (Daemon.daemon_never_panics KERNEL_SENDER TAG_NET_RECEIVED 0 0 0 0 [noise] noise_arrives) as [Hstart Hmessage].
  destruct (Hstart (fixed here) card eq_refl) as (s & Hs & Hr). destruct (Hmessage s Hr) as [_ (s' & Hm & _ & Hok)]. exists s, s'. done.
Defined.

(** *** A client's buffer *)

(** A client binds a port to its buffer 7. *)
Definition bound : Stack := snd (bind 7000 9 7 booted).

Lemma bound_ok : net_ok bound.
Proof. pose proof (fine_bind_port 7000 9 7 booted daemon_booted) as Hf. unfold safe, bound in *. destruct (bind 7000 9 7 booted) as [[[]|[]|] s']; [|done]. apply Hf. Qed.

Lemma bound_mapped : mapped_at 7 28672 32 bound.
Proof. exists 0%nat, 7. split; vm_compute; reflexivity. Qed.

Lemma wrapped_length_crashes_witness : mapped_at 7 28672 32 bound /\ fst (send_udp 7 (2 ^ 64 - 8) IPV6 1 2 bound) = Panic.
Proof. split; [exact bound_mapped|]. apply (Daemon.wrapped_length_crashes 7 (2 ^ 64 - 8) 1 2 28672 32 bound bound_ok bound_mapped); lia. Defined.

(** *** A connection *)

Definition connected : Connection := new_connection Established 5 9 (mapped there) 80 49152 28672 32 1000 5000.
Definition online : Stack := set_connections (<[0%nat := connected]> (connections bound)) bound.

Lemma bound_memory : memory bound !! 28672 = Some (replicate 32 0).
Proof. vm_compute. reflexivity. Qed.

Lemma online_ok : net_ok online.
Proof.
  apply net_ok_connection; [exact bound_ok|]. apply conn_ok_new; [done| |done]. split; [lia|]. right. split; [lia|]. exists (replicate 32 0). split; [exact bound_memory|done].
Qed.

Lemma online_sees : sees online 0 connected (Some (replicate 32 0)).
Proof. split; [|exact bound_memory]. vm_compute. reflexivity. Qed.

Definition message_text : list Segment :=
  [{| sg_acknowledgement := 1000; sg_flags := Z.lor PSH ACK; sg_data := [104; 101; 108; 108; 111] |};
   {| sg_acknowledgement := 0; sg_flags := PSH; sg_data := [33] |}].

Lemma stream_complete_witness : exists s', transfer 0 5000 message_text online = (Ok [104; 101; 108; 108; 111; 33], s') /\
  exists c', connections s' !! 0%nat = Some c' /\ next_receive c' = 5006.
Proof.
  destruct (Stream.stream_complete 5000 0 online connected (replicate 32 0) message_text online_ok online_sees eq_refl eq_refl eq_refl eq_refl) as (s' & Hrun & _ & c' & Hc & _ & Hn).
  - repeat constructor; (done || vm_compute; discriminate).
  - vm_compute. reflexivity.
  - exists s'. split; [exact Hrun|]. exists c'. split; [exact Hc|]. rewrite Hn. reflexivity.
Defined.

Lemma online_talks : conversation [104; 101; 108; 108; 111] 5000 0 online [].
Proof. apply (conv_open _ _ _ _ connected (replicate 32 0)); [exact online_ok|exact online_sees|done..]. Qed.

Lemma stream_in_order_witness : exists s, conversation [104; 101; 108; 108; 111] 5000 0 s [104; 101] /\ [104; 101] `prefix_of` [104; 101; 108; 108; 111].
Proof.
  destruct (chunk_read [104; 101; 108; 108; 111] 5000 0 ltac:(vm_compute; reflexivity) online [] connected {| sg_acknowledgement := 0; sg_flags := PSH; sg_data := [104; 101] |} online_talks) as (_ & s & c & _ & _ & Hcv & _);
    [exact (proj1 online_sees)|done|done|done|split_and!; (done || vm_compute; discriminate)|by exists [108; 108; 111]|].
  exists s. split; [exact Hcv|]. exact (proj1 (Stream.stream_in_order [104; 101; 108; 108; 111] 5000 0 s [104; 101] ltac:(vm_compute; reflexivity) Hcv)).
Defined.

(** *** Two machines *)

Definition acquainted : Stack := set_arp_next 1 (set_arp_table (<[0%nat := (mapped there, other_card)]> (arp_table booted)) booted).
Definition neighbour : Stack := initial (fixed there) other_card.

Lemma acquainted_ok : net_ok acquainted.
Proof. apply net_ok_arp; [exact daemon_booted|done|unfold ARP_ENTRIES; lia]. Qed.

Lemma segment_arrives_witness : exists s' f, segment (mapped there) 49152 80 1000 0 SYN 32 [] acquainted = (Ok tt, s') /\ output s' = [Frame f] /\
  frame f neighbour = taken_segment (mapped here) 49152 80 1000 0 SYN [] neighbour.
Proof.
  destruct (Wire.segment_arrives acquainted neighbour other_card there 49152 80 1000 0 SYN 32 []) as (s' & f & Hs & Ho & Hf).
  - exact acquainted_ok.
  - vm_compute. split; discriminate || reflexivity.
  - vm_compute. split; discriminate || reflexivity.
  - vm_compute. discriminate.
  - vm_compute. reflexivity.
  - vm_compute. reflexivity.
  - unfold seg_ok, u16, u32, is_byte, SYN. lia.
  - constructor.
  - vm_compute. lia.
  - exists s', f. split; [exact Hs|]. split; [exact Ho|]. exact Hf.
Defined.

(** *** What goes wrong *)

Definition router : list Z := [254; 128; 0; 0; 0; 0; 0; 0; 0; 0; 0; 0; 0; 0; 0; 1].
Definition stranger : list Z := [2; 0; 0; 0; 0; 66].

(** An advertisement of the address of nobody, well formed and from the link. *)
Definition nobody_advert : list Z := [136; 0; 0; 0; 0; 0; 0; 0] ++ UNSPECIFIED ++ [2; 1] ++ stranger.
Definition sealed_advert : list Z := take 2 nobody_advert ++ be16 (transport_checksum PROTOCOL_ICMPV6 router ALL_NODES nobody_advert) ++ drop 4 nobody_advert.

(** The frames a daemon sent, in order. *)
Definition frames_of (s : Stack) : list (list Z) := omap (fun o => match o with Frame b => Some b | _ => None end) (output s).

(** A frame parked for a neighbour, sent when the neighbour answered. *)
Definition sent_once : Stack := snd ((send_ipv4 there PROTOCOL_UDP [1; 2; 3; 4; 5; 6; 7; 8] ;; learn (mapped there) other_card) booted).

Example advertisement_of_nobody :
  let again := snd (icmpv6 router ALL_NODES 255 sealed_advert sent_once) in
  length (frames_of sent_once) = 2%nat /\ length (frames_of again) = 4%nat /\
  (exists old, last (frames_of sent_once) = Some old /\ frames_of again !! 2%nat = Some (stranger ++ drop 6 old)) /\ frames_of again !! 3%nat = Some [].
Proof. vm_compute. split_and!; try reflexivity. eexists. split; reflexivity. Qed.

(** The last acknowledgement of a connection, with a FIN of the peer's again. *)
Definition last_ack : Stack :=
  set_arp_table (<[0%nat := (router, other_card)]> (arp_table bound)) (set_router6 router (set_connections (<[0%nat := set_flight_flags FIN (set_next_send 1001 (set_state LastAck connected))]> (connections bound)) bound)).

Example freed_slot_answers :
  let after := snd (tcp_known 0 5000 1001 (Z.lor FIN ACK) [] last_ack) in
  (state <$> connections after !! 0%nat) = Some Free /\
  exists f, last (frames_of after) = Some f /\ take 16 (drop 38 f) = UNSPECIFIED /\ take 4 (drop 54 f) = [0; 0; 0; 0].
Proof. vm_compute. split; [reflexivity|]. eexists. split_and!; reflexivity. Qed.
