(* ===== verification/Compositor.v ===== *)
(** * The compositor (userland/src/bin/compositor.rs)

    A Ring 3 display server: the table of surfaces, damage as a grid of tiles, composition
    into a back buffer and the copy to the display, the pointer, and who gets the keys. *)

From stdpp Require Import base list gmap numbers list_numbers.
From Stdlib Require Import Lia ZifyBool.
From S2P Require Import Prelude NetBytes.

(** ** Data *)

Definition TAG_PRESENT : Z := 2.
Definition TAG_SHUTDOWN : Z := 0.
Definition TAG_KEY : Z := 1.
Definition TAG_POINTER : Z := 3.
Definition TAG_LISTEN : Z := 4.
Definition TAG_INPUT_SOURCE : Z := 5.
Definition KERNEL_SENDER : Z := U64_MAX.
Definition MAX_SURFACES : nat := 16.

(** The daemon is built without overflow checks: [u64] sums wrap. *)
Definition wrap (v : Z) : Z := v mod 2 ^ 64.
Definition to_i64 (v : Z) : Z := if v <? 2 ^ 63 then v else v - 2 ^ 64.

Record BufferInfo : Type := { i_width : Z; i_height : Z; i_stride : Z; i_bytes_per_pixel : Z; i_size : Z }.

Record Surface : Type := { buffer : Z; base : Z; x : Z; y : Z; width : Z; height : Z; stride : Z; z : Z; owner : Z }.
Definition EMPTY : Surface := {| buffer := 0; base := 0; x := 0; y := 0; width := 0; height := 0; stride := 0; z := 0; owner := 0 |}.
Definition set_z (v : Z) (s : Surface) : Surface :=
  {| buffer := buffer s; base := base s; x := x s; y := y s; width := width s; height := height s; stride := stride s; z := v; owner := owner s |}.

(** The pointer's rows: 1 is outline, 2 is fill, 0 shows what is underneath. *)
Definition CURSOR : list (list Z) :=
  [[1; 0; 0; 0; 0; 0; 0; 0; 0; 0; 0]; [1; 1; 0; 0; 0; 0; 0; 0; 0; 0; 0]; [1; 2; 1; 0; 0; 0; 0; 0; 0; 0; 0]; [1; 2; 2; 1; 0; 0; 0; 0; 0; 0; 0];
   [1; 2; 2; 2; 1; 0; 0; 0; 0; 0; 0]; [1; 2; 2; 2; 2; 1; 0; 0; 0; 0; 0]; [1; 2; 2; 2; 2; 2; 1; 0; 0; 0; 0]; [1; 2; 2; 2; 2; 2; 2; 1; 0; 0; 0];
   [1; 2; 2; 2; 2; 2; 2; 2; 1; 0; 0]; [1; 2; 2; 2; 2; 2; 2; 2; 2; 1; 0]; [1; 2; 2; 2; 2; 2; 1; 1; 1; 1; 1]; [1; 2; 2; 1; 2; 2; 1; 0; 0; 0; 0];
   [1; 2; 1; 0; 1; 2; 2; 1; 0; 0; 0]; [1; 1; 0; 0; 1; 2; 2; 1; 0; 0; 0]; [1; 0; 0; 0; 0; 1; 2; 2; 1; 0; 0]; [0; 0; 0; 0; 0; 1; 1; 1; 1; 0; 0]].
Definition CURSOR_WIDTH : Z := 11.
Definition CURSOR_HEIGHT : Z := 16.

(** *** Rectangles *)

Record Rect : Type := { left : Z; top : Z; right : Z; bottom : Z }.
Definition rect_empty (r : Rect) : bool := (right r <=? left r) || (bottom r <=? top r).
Definition intersect (a b : Rect) : Rect :=
  {| left := Z.max (left a) (left b); top := Z.max (top a) (top b); right := Z.min (right a) (right b); bottom := Z.min (bottom a) (bottom b) |}.

Definition bounds_of (s : Surface) : Rect := {| left := x s; top := y s; right := wrap (x s + width s); bottom := wrap (y s + height s) |}.

(** *** Damage *)

Definition TILE_COLUMNS : Z := 128.
Definition TILE_ROWS : nat := 80.
Definition U128_MAX : Z := 2 ^ 128 - 1.

(** One 128-bit row per row of tiles, and the tile's edge in pixels. *)
Record Damage : Type := { rows : list Z; tile : Z }.

Definition Damage_new (w h : Z) : Damage :=
  {| rows := replicate TILE_ROWS 0; tile := Z.max (Z.max 32 (div_ceil w TILE_COLUMNS)) (div_ceil h (Z.of_nat TILE_ROWS)) |}.

Definition damage_empty (d : Damage) : bool := forallb (fun row => row =? 0) (rows d).

(** Bits [first..=last] of a row. *)
Definition span (first last : Z) : Z := Z.land (Z.shiftl (Z.shiftr U128_MAX (TILE_COLUMNS - 1 - (last - first))) first) U128_MAX.

Fixpoint mark_rows (row : nat) (n : nat) (s : Z) (l : list Z) : list Z :=
  match n with
  | O => l
  | S n => mark_rows (S row) n s (alter (fun r => Z.lor r s) row l)
  end.

Definition damage_add (area : Rect) (d : Damage) : Damage :=
  if rect_empty area then d else
  let last_column := TILE_COLUMNS - 1 in
  let first := Z.min (left area / tile d) last_column in
  let last := Z.min ((right area - 1) / tile d) last_column in
  let last_row := Z.of_nat TILE_ROWS - 1 in
  let t := Z.min (top area / tile d) last_row in
  let b := Z.min ((bottom area - 1) / tile d) last_row in
  {| rows := mark_rows (Z.to_nat t) (Z.to_nat (b - t + 1)) (span first last) (rows d); tile := tile d |}.

(** [trailing_zeros] and [trailing_ones] of a 128-bit number *)
Fixpoint trailing (bit : bool) (n : nat) (v : Z) : Z :=
  match n with
  | O => 0
  | S n => if Bool.eqb (Z.odd v) bit then 1 + trailing bit n (Z.div2 v) else 0
  end.

(** [while remaining != 0]: each turn clears a run of bits, so 128 turns are enough. *)
Fixpoint row_runs (turns : nat) (remaining : Z) : list (Z * Z) :=
  match turns with
  | O => []
  | S turns =>
      if remaining =? 0 then [] else
      let start := trailing false 128 remaining in
      let length := trailing true 128 (Z.shiftr remaining start) in
      (start, length) :: row_runs turns (Z.land remaining (Z.lxor U128_MAX (Z.land (Z.shiftl (Z.shiftr U128_MAX (TILE_COLUMNS - length)) start) U128_MAX)))
  end.

Definition run_rect (t : Z) (row : nat) (run : Z * Z) : Rect :=
  {| left := run.1 * t; top := Z.of_nat row * t; right := (run.1 + run.2) * t; bottom := (Z.of_nat row + 1) * t |}.

Definition drain (d : Damage) : list Rect := concat (imap (fun row v => run_rect (tile d) row <$> row_runs 128 v) (rows d)).

(** ** State *)

(** [memory] holds the clients' buffers by the address they are mapped at, [sent] the key
    events handed out, by endpoint. *)
Record Compositor : Type := {
  scanout : list Z;
  back : list Z;
  screen : BufferInfo;
  surfaces : list Surface;
  damage : Damage;
  cursor_x : Z;
  cursor_y : Z;
  cursor_visible : bool;
  buttons : Z;
  input_source : option Z;
  focus : option Z;
  listeners : list (Z * Z);
  memory : gmap Z (list Z);
  sent : list (Z * list Z);
  exited : bool;
}.

Definition set_scanout (v : list Z) (s : Compositor) : Compositor :=
  {| scanout := v; back := back s; screen := screen s; surfaces := surfaces s; damage := damage s; cursor_x := cursor_x s; cursor_y := cursor_y s; cursor_visible := cursor_visible s; buttons := buttons s; input_source := input_source s; focus := focus s; listeners := listeners s; memory := memory s; sent := sent s; exited := exited s |}.
Definition set_back (v : list Z) (s : Compositor) : Compositor :=
  {| scanout := scanout s; back := v; screen := screen s; surfaces := surfaces s; damage := damage s; cursor_x := cursor_x s; cursor_y := cursor_y s; cursor_visible := cursor_visible s; buttons := buttons s; input_source := input_source s; focus := focus s; listeners := listeners s; memory := memory s; sent := sent s; exited := exited s |}.
Definition set_surfaces (v : list Surface) (s : Compositor) : Compositor :=
  {| scanout := scanout s; back := back s; screen := screen s; surfaces := v; damage := damage s; cursor_x := cursor_x s; cursor_y := cursor_y s; cursor_visible := cursor_visible s; buttons := buttons s; input_source := input_source s; focus := focus s; listeners := listeners s; memory := memory s; sent := sent s; exited := exited s |}.
Definition set_damage (v : Damage) (s : Compositor) : Compositor :=
  {| scanout := scanout s; back := back s; screen := screen s; surfaces := surfaces s; damage := v; cursor_x := cursor_x s; cursor_y := cursor_y s; cursor_visible := cursor_visible s; buttons := buttons s; input_source := input_source s; focus := focus s; listeners := listeners s; memory := memory s; sent := sent s; exited := exited s |}.
Definition set_cursor_x (v : Z) (s : Compositor) : Compositor :=
  {| scanout := scanout s; back := back s; screen := screen s; surfaces := surfaces s; damage := damage s; cursor_x := v; cursor_y := cursor_y s; cursor_visible := cursor_visible s; buttons := buttons s; input_source := input_source s; focus := focus s; listeners := listeners s; memory := memory s; sent := sent s; exited := exited s |}.
Definition set_cursor_y (v : Z) (s : Compositor) : Compositor :=
  {| scanout := scanout s; back := back s; screen := screen s; surfaces := surfaces s; damage := damage s; cursor_x := cursor_x s; cursor_y := v; cursor_visible := cursor_visible s; buttons := buttons s; input_source := input_source s; focus := focus s; listeners := listeners s; memory := memory s; sent := sent s; exited := exited s |}.
Definition set_cursor_visible (v : bool) (s : Compositor) : Compositor :=
  {| scanout := scanout s; back := back s; screen := screen s; surfaces := surfaces s; damage := damage s; cursor_x := cursor_x s; cursor_y := cursor_y s; cursor_visible := v; buttons := buttons s; input_source := input_source s; focus := focus s; listeners := listeners s; memory := memory s; sent := sent s; exited := exited s |}.
Definition set_buttons (v : Z) (s : Compositor) : Compositor :=
  {| scanout := scanout s; back := back s; screen := screen s; surfaces := surfaces s; damage := damage s; cursor_x := cursor_x s; cursor_y := cursor_y s; cursor_visible := cursor_visible s; buttons := v; input_source := input_source s; focus := focus s; listeners := listeners s; memory := memory s; sent := sent s; exited := exited s |}.
Definition set_input_source (v : option Z) (s : Compositor) : Compositor :=
  {| scanout := scanout s; back := back s; screen := screen s; surfaces := surfaces s; damage := damage s; cursor_x := cursor_x s; cursor_y := cursor_y s; cursor_visible := cursor_visible s; buttons := buttons s; input_source := v; focus := focus s; listeners := listeners s; memory := memory s; sent := sent s; exited := exited s |}.
Definition set_focus (v : option Z) (s : Compositor) : Compositor :=
  {| scanout := scanout s; back := back s; screen := screen s; surfaces := surfaces s; damage := damage s; cursor_x := cursor_x s; cursor_y := cursor_y s; cursor_visible := cursor_visible s; buttons := buttons s; input_source := input_source s; focus := v; listeners := listeners s; memory := memory s; sent := sent s; exited := exited s |}.
Definition set_listeners (v : list (Z * Z)) (s : Compositor) : Compositor :=
  {| scanout := scanout s; back := back s; screen := screen s; surfaces := surfaces s; damage := damage s; cursor_x := cursor_x s; cursor_y := cursor_y s; cursor_visible := cursor_visible s; buttons := buttons s; input_source := input_source s; focus := focus s; listeners := v; memory := memory s; sent := sent s; exited := exited s |}.
Definition set_memory (v : gmap Z (list Z)) (s : Compositor) : Compositor :=
  {| scanout := scanout s; back := back s; screen := screen s; surfaces := surfaces s; damage := damage s; cursor_x := cursor_x s; cursor_y := cursor_y s; cursor_visible := cursor_visible s; buttons := buttons s; input_source := input_source s; focus := focus s; listeners := listeners s; memory := v; sent := sent s; exited := exited s |}.
Definition set_sent (v : list (Z * list Z)) (s : Compositor) : Compositor :=
  {| scanout := scanout s; back := back s; screen := screen s; surfaces := surfaces s; damage := damage s; cursor_x := cursor_x s; cursor_y := cursor_y s; cursor_visible := cursor_visible s; buttons := buttons s; input_source := input_source s; focus := focus s; listeners := listeners s; memory := memory s; sent := v; exited := exited s |}.
Definition set_exited (v : bool) (s : Compositor) : Compositor :=
  {| scanout := scanout s; back := back s; screen := screen s; surfaces := surfaces s; damage := damage s; cursor_x := cursor_x s; cursor_y := cursor_y s; cursor_visible := cursor_visible s; buttons := buttons s; input_source := input_source s; focus := focus s; listeners := listeners s; memory := memory s; sent := sent s; exited := v |}.

Abbreviation C := (M Compositor Empty_set).

Definition depth (s : Compositor) : Z := i_bytes_per_pixel (screen s).
Definition screen_rect (s : Compositor) : Rect := {| left := 0; top := 0; right := i_width (screen s); bottom := i_height (screen s) |}.
Definition cursor_rect (s : Compositor) : Rect :=
  {| left := cursor_x s; top := cursor_y s; right := wrap (cursor_x s + CURSOR_WIDTH); bottom := wrap (cursor_y s + CURSOR_HEIGHT) |}.

(** [for i in a..b] *)
Fixpoint for_from (a : Z) (n : nat) (f : Z -> C unit) : C unit :=
  match n with
  | O => mret tt
  | S n => f a ;; for_from (a + 1) n f
  end.
Definition for_range (a b : Z) (f : Z -> C unit) : C unit := for_from a (Z.to_nat (b - a)) f.

Fixpoint for_all {A} (l : list A) (f : A -> C unit) : C unit :=
  match l with
  | [] => mret tt
  | a :: rest => f a ;; for_all rest f
  end.

(** Bytes written outside a buffer are a fault. *)
Definition put (bs : list Z) (offset : Z) (data : list Z) : option (list Z) :=
  if (0 <=? offset) && (offset + Z.of_nat (length data) <=? Z.of_nat (length bs)) then Some (overwrite (Z.to_nat offset) data bs) else None.
Definition fetch (bs : list Z) (offset len : Z) : option (list Z) :=
  if (0 <=? offset) && (0 <=? len) && (offset + len <=? Z.of_nat (length bs)) then Some (take (Z.to_nat len) (drop (Z.to_nat offset) bs)) else None.

Definition faulting {A} (o : option A) : C A := match o with Some a => mret a | None => panic end.

Definition write_back (offset : Z) (data : list Z) : C unit := s ← get; bs ← faulting (put (back s) offset data); modify (set_back bs).
Definition write_screen (offset : Z) (data : list Z) : C unit := s ← get; bs ← faulting (put (scanout s) offset data); modify (set_scanout bs).

(** ** Composition *)

Definition clear (area : Rect) : C unit :=
  for_range (top area) (bottom area) (fun row =>
    s ← get;
    write_back (row * i_stride (screen s) + left area * depth s) (replicate (Z.to_nat ((right area - left area) * depth s)) 0)).

Definition blit (surface : Surface) (area : Rect) : C unit :=
  let visible := intersect (bounds_of surface) area in
  if rect_empty visible then mret tt else
  for_range (top visible) (bottom visible) (fun row =>
    s ← get;
    source ← faulting (memory s !! base surface);
    data ← faulting (fetch source ((row - y surface) * stride surface + (left visible - x surface) * depth s) ((right visible - left visible) * depth s));
    write_back (row * i_stride (screen s) + left visible * depth s) data).

Definition draw_cursor (area : Rect) : C unit :=
  s ← get;
  if negb (cursor_visible s) then mret tt else
  let visible := intersect (cursor_rect s) area in
  for_range (top visible) (bottom visible) (fun row =>
    for_range (left visible) (right visible) (fun column =>
      line ← faulting (CURSOR !! Z.to_nat (row - cursor_y s));
      shape ← faulting (line !! Z.to_nat (column - cursor_x s));
      if shape =? 0 then mret tt
      else write_back (row * i_stride (screen s) + column * depth s) (replicate (Z.to_nat (depth s)) (if shape =? 1 then 0 else 255)))).

(** One pixel to the display: at three bytes, a store of four whose other byte is what the
    display has there already. *)
Definition flush_pixel (row column : Z) : C unit :=
  s ← get;
  let offset := row * i_stride (screen s) + column * depth s in
  if negb (depth s =? 3) then
    pixel ← faulting (fetch (back s) offset (depth s));
    write_screen offset pixel
  else
    pixel ← faulting (fetch (back s) offset 3);
    if offset + 4 <=? i_size (screen s) then
      old ← faulting (fetch (scanout s) offset 4);
      write_screen offset (pixel ++ drop 3 old)
    else
      old ← faulting (fetch (scanout s) (offset - 1) 4);
      write_screen (offset - 1) (take 1 old ++ pixel).

Definition flush (area : Rect) : C unit :=
  for_range (top area) (bottom area) (fun row => for_range (left area) (right area) (fun column => flush_pixel row column)).

(** [order[position]], [self.surfaces[index]] *)
Definition slot {A} (l : list A) (i : nat) : C A := faulting (l !! i).

(** The inner loop of the insertion sort: those further from the viewer move up. *)
Fixpoint sift (position : nat) (depth_of : Z) (order : list nat) : C (nat * list nat) :=
  match position with
  | O => mret (O, order)
  | S p =>
      s ← get;
      i ← slot order p; surface ← slot (surfaces s) i;
      if depth_of <? z surface then
        (if (S p <? length order)%nat then sift p depth_of (<[S p := i]> order) else panic)
      else mret (S p, order)
  end.

Fixpoint sort_from (index n : nat) (count : nat) (order : list nat) : C (nat * list nat) :=
  match n with
  | O => mret (count, order)
  | S n =>
      s ← get;
      surface ← slot (surfaces s) index;
      if buffer surface =? 0 then sort_from (S index) n count order else
      placed ← sift count (z surface) order;
      if (placed.1 <? length order)%nat then sort_from (S index) n (S count) (<[placed.1 := index]> placed.2) else panic
  end.

Definition sorted_by_depth : C (nat * list nat) := sort_from 0 MAX_SURFACES 0 (replicate MAX_SURFACES O).

Definition compose_region (order : list nat) (region : Rect) : C unit :=
  s ← get;
  let area := intersect region (screen_rect s) in
  if rect_empty area then mret tt else
  clear area ;;
  for_all order (fun index => s ← get; surface ← slot (surfaces s) index; blit surface area) ;;
  draw_cursor area ;;
  flush area.

Definition compose : C unit :=
  s ← get;
  if damage_empty (damage s) then mret tt else
  sorted ← sorted_by_depth;
  for_all (drain (damage s)) (compose_region (take sorted.1 sorted.2)) ;;
  modify (set_damage {| rows := replicate TILE_ROWS 0; tile := tile (damage s) |}).

(** ** Surfaces, pointer and keys *)

Definition add_damage (area : Rect) : C unit := modify (fun s => set_damage (damage_add area (damage s)) s).

(** The slot of the surface's handle if there is one, the first free one otherwise. *)
Fixpoint find_slot (handle : Z) (l : list Surface) (index : nat) (found : option nat) : option nat :=
  match l with
  | [] => found
  | e :: rest =>
      if buffer e =? handle then Some index
      else find_slot handle rest (S index) (if (buffer e =? 0) && bool_decide (found = None) then Some index else found)
  end.

Definition track (surface : Surface) : C unit :=
  s ← get;
  match find_slot (buffer surface) (surfaces s) 0 None with
  | None => mret tt
  | Some index =>
      previous ← slot (surfaces s) index;
      (if buffer previous =? 0 then mret tt else add_damage (bounds_of previous)) ;;
      add_damage (bounds_of surface) ;;
      modify (fun s => set_surfaces (<[index := surface]> (surfaces s)) s)
  end.

Definition covers (r : Rect) (px py : Z) : bool := (left r <=? px) && (px <? right r) && (top r <=? py) && (py <? bottom r).

(** [order[..count].iter().rev().find(..)] *)
Fixpoint hit_in (l : list nat) (px py : Z) : C (option nat) :=
  match l with
  | [] => mret None
  | index :: rest =>
      s ← get; surface ← slot (surfaces s) index;
      if covers (bounds_of surface) px py then mret (Some index) else hit_in rest px py
  end.

Definition raise_at (px py : Z) : C unit :=
  sorted ← sorted_by_depth;
  let order := take sorted.1 sorted.2 in
  hit ← hit_in (reverse order) px py;
  match hit with
  | None => modify (set_focus None)
  | Some index =>
      s ← get;
      top_index ← slot order (length order - 1);
      (if (top_index =? index)%nat then mret tt
       else
         above ← slot (surfaces s) top_index; surface ← slot (surfaces s) index;
         modify (fun s => set_surfaces (<[index := set_z (wrap (z above + 1)) surface]> (surfaces s)) s) ;;
         add_damage (bounds_of (set_z (wrap (z above + 1)) surface))) ;;
      surface ← slot (surfaces s) index;
      modify (set_focus (Some (owner surface)))
  end.

(** [.clamp(0, limit - 1)], which insists on an order of its bounds *)
Definition clamp (v limit : Z) : C Z := if limit - 1 <? 0 then panic else mret (Z.max 0 (Z.min v (limit - 1))).

Definition pointer (dx dy pressed_buttons : Z) : C unit :=
  s ← get;
  (if cursor_visible s then add_damage (cursor_rect s) else mret tt) ;;
  cx ← clamp (to_i64 (wrap (cursor_x s + dx))) (i_width (screen s));
  cy ← clamp (to_i64 (wrap (cursor_y s + dy))) (i_height (screen s));
  modify (fun s => set_cursor_visible true (set_cursor_y cy (set_cursor_x cx s))) ;;
  s ← get;
  add_damage (cursor_rect s) ;;
  let pressed := Z.land pressed_buttons (Z.lxor U64_MAX (buttons s)) in
  modify (set_buttons pressed_buttons) ;;
  if Z.land pressed 1 =? 0 then mret tt else raise_at cx cy.

Fixpoint first_such {A} (P : A -> bool) (l : list A) : option nat :=
  match l with
  | [] => None
  | a :: rest => if P a then Some O else S <$> first_such P rest
  end.

Definition endpoint_of (thread : Z) (l : list (Z * Z)) : option Z := i ← first_such (fun e => (e.1 =? thread) && negb (e.2 =? 0)) l; snd <$> l !! i.

Definition key (words : list Z) : C unit :=
  s ← get;
  match focus s with
  | None => mret tt
  | Some thread =>
      match endpoint_of thread (listeners s) with
      | None => mret tt
      | Some endpoint => modify (fun s => set_sent (sent s ++ [(endpoint, words)]) s)
      end
  end.

Definition listen (thread endpoint : Z) : C unit :=
  s ← get;
  let slot := match first_such (fun e => e.1 =? thread) (listeners s) with
              | Some i => Some i
              | None => first_such (fun e => e.2 =? 0) (listeners s)
              end in
  match slot with
  | Some index => modify (set_listeners (<[index := (thread, endpoint)]> (listeners s)))
  | None => mret tt
  end.

(** ** The loop *)

(** What the kernel says of a handle: where it is mapped and what it is. *)
Class Display : Type := { granted : Z -> option (Z * BufferInfo) }.

Section Loop.
Context `{Display}.

Definition adopt (handle px py pz sender : Z) : option Surface :=
  match granted handle with
  | None => None
  | Some (at_, info) =>
      Some {| buffer := handle; base := at_; x := px; y := py; width := i_width info; height := i_height info; stride := i_stride info; z := pz; owner := sender |}
  end.

Definition message (sender tag a b c d : Z) : C unit :=
  s ← get;
  let from_kernel := sender =? KERNEL_SENDER in
  let from_input := from_kernel || bool_decide (input_source s = Some sender) in
  if (tag =? TAG_INPUT_SOURCE) && from_kernel then modify (set_input_source (Some a))
  else if (tag =? TAG_SHUTDOWN) && from_input then modify (set_exited true)
  else if (tag =? TAG_POINTER) && from_input then pointer (to_i64 a) (to_i64 b) c ;; compose
  else if (tag =? TAG_KEY) && from_input then key [a; b; c; d]
  else if tag =? TAG_LISTEN then listen sender a
  else if tag =? TAG_PRESENT then
    match adopt a b c d sender with
    | Some surface => track surface ;; compose
    | None => mret tt
    end
  else mret tt.

(** The loop of [main], over what it receives. *)
Record Message : Type := { m_sender : Z; m_tag : Z; m_words : Z * Z * Z * Z }.

Fixpoint serve (received : list Message) : C unit :=
  match received with
  | [] => mret tt
  | m :: rest =>
      let '(a, b, c, d) := m_words m in
      message (m_sender m) (m_tag m) a b c d ;;
      s ← get;
      if exited s then mret tt else serve rest
  end.

End Loop.

(** What [buffer_create(width, height)] makes: rows with no padding, of the display's depth. *)
Definition back_size (info : BufferInfo) : Z := i_width info * i_bytes_per_pixel info * i_height info.

(** [main] up to its loop: the display mapped and measured, a back buffer of its width and
    height, which holds what was [left] in its frames. [clients] is what the clients'
    buffers hold, none of them its own two. *)
Definition compositor_new (info : BufferInfo) (display : list Z) (left : nat -> Z) (clients : gmap Z (list Z)) : Compositor :=
  {| scanout := display; back := left <$> seq 0 (Z.to_nat (back_size info)); screen := info; surfaces := replicate MAX_SURFACES EMPTY; damage := Damage_new (i_width info) (i_height info);
     cursor_x := i_width info / 2; cursor_y := i_height info / 2; cursor_visible := false; buttons := 0; input_source := None; focus := None;
     listeners := replicate MAX_SURFACES (0, 0); memory := clients; sent := []; exited := false |}.
