(* ===== verification/CompositorOrder.v ===== *)
(** * The compositor: the order surfaces are drawn in

    [sorted_by_depth] lists the live surfaces from the furthest to the nearest, those of
    one depth by their place in the table. *)

From stdpp Require Import base list gmap numbers list_numbers sorting.
From Stdlib Require Import Lia ZifyBool.
From S2P Require Import Prelude NetBytes Compositor.

Lemma crun_bind {A B} (m : C A) (k : A -> C B) s a s' : m s = (Ok a, s') -> mbind k m s = k a s'.
Proof. intros Hm. unfold mbind, M_bind. by rewrite Hm. Qed.

Lemma slot_run {A} (l : list A) i a (s : Compositor) : l !! i = Some a -> slot l i s = (Ok a, s).
Proof. intros Hi. unfold slot. by rewrite Hi. Qed.

Definition z_at (s : Compositor) (i : nat) : Z := default 0 (z <$> surfaces s !! i).
Definition live (s : Compositor) (i : nat) : Prop := exists e, surfaces s !! i = Some e /\ buffer e <> 0.

(** [i] is drawn before [j]. *)
Definition below (s : Compositor) (i j : nat) : Prop := z_at s i < z_at s j \/ z_at s i = z_at s j /\ (i < j)%nat.

Lemma below_trans s i j k : below s i j -> below s j k -> below s i k.
Proof. unfold below. lia. Qed.

Lemma below_total s i j : i = j \/ below s i j \/ below s j i.
Proof. unfold below. lia. Qed.

Lemma below_irrefl s i : ~ below s i i.
Proof. unfold below. lia. Qed.

(** One insertion: those nearer move up by one. *)
Lemma sift_spec s zi p : forall order, (p < length order)%nat -> Forall (fun i => i < length (surfaces s))%nat (take p order) ->
  exists l1 l2 order', sift p zi order s = (Ok (length l1, order'), s) /\ take p order = l1 ++ l2 /\ length order' = length order /\
    Forall (fun i => zi < z_at s i) l2 /\ (forall i, last l1 = Some i -> z_at s i <= zi) /\
    (forall k, (p < k)%nat -> order' !! k = order !! k) /\ (forall index, take (S p) (<[length l1 := index]> order') = l1 ++ [index] ++ l2).
Proof.
  induction p as [|p IH]; intros order Hp Hall.
  - exists [], [], order. cbn [sift length]. split_and!; try done. intros index. destruct order; [cbn in Hp; lia|done].
  - destruct (lookup_lt_is_Some_2 order p ltac:(lia)) as [i Hi]. assert (Htake : take (S p) order = take p order ++ [i]) by (by apply take_S_r).
    rewrite Htake in Hall. apply Forall_app in Hall as [Hall Hone]. rewrite Forall_singleton in Hone.
    destruct (lookup_lt_is_Some_2 (surfaces s) i Hone) as [e He]. assert (Hz : z_at s i = z e) by (unfold z_at; by rewrite He).
    cbn [sift]. erewrite crun_bind; [|reflexivity]. erewrite crun_bind; [|by apply slot_run]. erewrite crun_bind; [|by apply slot_run].
    destruct (Z.ltb_spec zi (z e)) as [Hlt|Hge].
    + replace (S p <? length order)%nat with true by lia. assert (Hsame : take p (<[S p := i]> order) = take p order) by (apply take_insert_ge; lia).
      destruct (IH (<[S p := i]> order)) as (l1 & l2 & order' & Hrun & Hl & Hlen & Hl2 & Hl1 & Hk & Ht); [rewrite length_insert; lia|by rewrite Hsame|].
      rewrite Hsame in Hl. rewrite length_insert in Hlen. exists l1, (l2 ++ [i]), order'. split_and!; try done.
      * by rewrite Htake, Hl, app_assoc.
      * apply Forall_app. split; [done|]. apply Forall_singleton. lia.
      * intros k Hk'. rewrite Hk by lia. by apply list_lookup_insert_ne; lia.
      * intros index. assert (Hlast : <[length l1 := index]> order' !! S p = Some i).
        { assert (length l1 <= p)%nat by (apply (f_equal length) in Hl; rewrite length_take, length_app in Hl; lia). rewrite list_lookup_insert_ne by lia. rewrite Hk by lia. apply list_lookup_insert_eq. lia. }
        rewrite (take_S_r _ _ _ Hlast), Ht. by rewrite <- !app_assoc.
    + exists (take (S p) order), [], order. rewrite length_take, Nat.min_l by lia. split_and!; try done.
      * by rewrite app_nil_r.
      * intros j Hj. rewrite Htake, last_snoc in Hj. injection Hj as <-. lia.
      * intros index. rewrite (take_S_r _ _ index) by (apply list_lookup_insert_eq; lia). by rewrite take_insert_ge by lia.
Qed.

Lemma sorted_insert s l1 l2 index : StronglySorted (below s) (l1 ++ l2) -> Forall (fun i => i < index)%nat (l1 ++ l2) -> Forall (fun i => z_at s index < z_at s i) l2 ->
  (forall i, last l1 = Some i -> z_at s i <= z_at s index) -> StronglySorted (below s) (l1 ++ [index] ++ l2).
Proof.
  intros Hs Hi Hl2 Hl1. assert (Hle : Forall (fun i => z_at s i <= z_at s index) l1).
  { clear Hl2 Hi. destruct l1 as [|a l1' _] using rev_ind; [done|]. rewrite last_snoc in Hl1. specialize (Hl1 _ eq_refl). apply Forall_app. split; [|by apply Forall_singleton].
    apply Forall_forall. intros i Hin. assert (Hb : below s i a).
    { rewrite <- app_assoc in Hs. cbn in Hs. apply (StronglySorted_app_1_elem_of _ _ _ _ _ Hs); [done|apply elem_of_cons; by left]. }
    unfold below in Hb. lia. }
  apply Forall_app in Hi as [Hi1 Hi2]. rewrite Forall_forall in Hi1, Hle, Hl2. apply StronglySorted_app in Hs as (Hcross & Hs1 & Hs2).
  apply StronglySorted_app. split_and!; try done.
  - intros i j Hin Hj. apply elem_of_app in Hj as [->%list_elem_of_singleton | Hj]; [|by apply Hcross]. unfold below. specialize (Hle _ Hin). specialize (Hi1 _ Hin). lia.
  - apply SSorted_cons; [done|]. apply Forall_forall. intros j Hj. left. by apply Hl2.
Qed.

(** What has been placed of the first [index] surfaces. *)
Definition placed (s : Compositor) (index : nat) (l : list nat) : Prop :=
  StronglySorted (below s) l /\ Forall (fun i => i < index)%nat l /\ forall i, i ∈ l <-> (i < index)%nat /\ live s i.

Lemma sort_from_spec s n : forall index count order, length order = MAX_SURFACES -> (index + n = MAX_SURFACES)%nat -> length (surfaces s) = MAX_SURFACES -> (count <= index)%nat ->
  placed s index (take count order) -> exists count' order', sort_from index n count order s = (Ok (count', order'), s) /\ placed s MAX_SURFACES (take count' order').
Proof.
  induction n as [|n IH]; intros index count order Hlen Hn Hsl Hc (Hs & Hlt & Hin); cbn [sort_from].
  - exists count, order. split; [done|]. replace MAX_SURFACES with index by lia. done.
  - erewrite crun_bind; [|reflexivity]. destruct (lookup_lt_is_Some_2 (surfaces s) index ltac:(lia)) as [e He]. erewrite crun_bind; [|by apply slot_run].
    assert (Hlive : forall i, (i < S index)%nat /\ live s i <-> ((i < index)%nat /\ live s i) \/ (i = index /\ buffer e <> 0)).
    { intros i. split.
      - intros [Hi (e' & He' & Hb)]. destruct (decide (i = index)) as [->|]; [right; split; [done|congruence]|left; split; [lia|by exists e']].
      - intros [[Hi Hl] | [-> Hb]]; (split; [lia|]); [done|by exists e]. }
    destruct (Z.eqb_spec (buffer e) 0) as [Hz|Hz].
    + apply IH; try done; [lia|lia|]. split_and!; [done|eapply Forall_impl; [exact Hlt|cbn; lia]|]. intros i. rewrite Hin, Hlive. naive_solver.
    + destruct (sift_spec s (z e) count order) as (l1 & l2 & order' & Hrun & Hl & Hlen' & Hl2 & Hl1 & _ & Ht); [lia|eapply Forall_impl; [exact Hlt|cbn; lia]|].
      erewrite crun_bind; [|exact Hrun]. cbn [fst snd].
      assert (Hll : (length l1 <= count)%nat) by (apply (f_equal length) in Hl; rewrite length_take, length_app in Hl; lia).
      replace (length l1 <? length order)%nat with true by lia. assert (Hze : z_at s index = z e) by (unfold z_at; by rewrite He). rewrite <- Hze in Hl1, Hl2. rewrite Hl in Hs, Hlt, Hin.
      apply IH; [by rewrite length_insert, Hlen'|lia|done|lia|]. rewrite Ht. split_and!.
      * by apply sorted_insert.
      * apply Forall_app in Hlt as [Hlt1 Hlt2]. rewrite !Forall_app, Forall_singleton. split_and!; [eapply Forall_impl; [exact Hlt1|cbn; lia]|lia|eapply Forall_impl; [exact Hlt2|cbn; lia]].
      * intros i. rewrite Hlive, <- Hin. set_solver.
Qed.

Lemma sorted_by_depth_spec s : length (surfaces s) = MAX_SURFACES ->
  exists count order, sorted_by_depth s = (Ok (count, order), s) /\ placed s MAX_SURFACES (take count order).
Proof.
  intros Hl. unfold sorted_by_depth. apply (sort_from_spec s MAX_SURFACES 0 0); [done|done|done|lia|]. split_and!; [constructor|done|]. intros i. cbn. set_solver by lia.
Qed.

(** The nearest of the surfaces with a property is the last of them drawn. *)
Definition nearest (s : Compositor) (P : nat -> Prop) (i : nat) : Prop := live s i /\ P i /\ forall j, live s j -> P j -> j <> i -> below s j i.

Lemma live_bound s i : live s i -> (i < length (surfaces s))%nat.
Proof. intros (e & He & _). by eapply lookup_lt_Some. Qed.
