(* ===== verification/CompositorDamage.v ===== *)
(** * The compositor: damage

    The grid of tiles keeps every pixel that was damaged, and handing it out as runs loses
    none and adds none. *)

From stdpp Require Import base list gmap numbers list_numbers.
From Stdlib Require Import Lia ZifyBool.
From S2P Require Import Prelude NetBytes Compositor.

(** Whether a pixel's tile is marked. *)
Definition damaged (d : Damage) (px py : Z) : bool := Z.testbit (default 0 (rows d !! Z.to_nat (py / tile d))) (px / tile d).

Definition damage_ok (d : Damage) : Prop := 0 < tile d /\ length (rows d) = TILE_ROWS /\ Forall (fun v => 0 <= v < 2 ^ 128) (rows d).

(** A pixel the grid reaches. *)
Definition on_grid (d : Damage) (px py : Z) : Prop := 0 <= px < TILE_COLUMNS * tile d /\ 0 <= py < Z.of_nat TILE_ROWS * tile d.

Lemma bits_max i : Z.testbit U128_MAX i = (0 <=? i) && (i <? 128).
Proof.
  change U128_MAX with (Z.ones 128). destruct (Z.ltb_spec i 0); [rewrite Z.testbit_neg_r by done; lia|].
  destruct (Z.ltb_spec i 128); [rewrite Z.ones_spec_low by lia|rewrite Z.ones_spec_high by lia]; lia.
Qed.

(** [(MAX >> a) << b], cut to 128 bits *)
Lemma bits_shifted a b i : 0 <= a -> 0 <= b -> Z.testbit (Z.land (Z.shiftl (Z.shiftr U128_MAX a) b) U128_MAX) i = (b <=? i) && (i <? b + (128 - a)) && (i <? 128).
Proof.
  intros Ha Hb. rewrite Z.land_spec, bits_max. destruct (Z.ltb_spec i 0); [rewrite !Z.testbit_neg_r by done; lia|]. rewrite Z.shiftl_spec by lia.
  destruct (Z.ltb_spec (i - b) 0); [rewrite Z.testbit_neg_r by done; lia|]. rewrite Z.shiftr_spec, bits_max by lia. lia.
Qed.

Lemma span_bits first last i : 0 <= first <= last -> last < 128 -> Z.testbit (span first last) i = (first <=? i) && (i <=? last).
Proof. intros Hf Hl. unfold span, TILE_COLUMNS. rewrite bits_shifted by lia. lia. Qed.

Lemma land_max_range v : 0 <= Z.land v U128_MAX < 2 ^ 128.
Proof. change U128_MAX with (Z.ones 128). rewrite Z.land_ones by lia. apply Z.mod_pos_bound. lia. Qed.

Lemma land_range v w : 0 <= v < 2 ^ 128 -> 0 <= Z.land v w < 2 ^ 128.
Proof.
  intros Hv. assert (He : Z.land v w = Z.land (Z.land v w) U128_MAX).
  { change U128_MAX with (Z.ones 128). rewrite <- Z.land_assoc, (Z.land_comm w), Z.land_assoc, (Z.land_ones v) by lia. by rewrite Z.mod_small. }
  rewrite He. apply land_max_range.
Qed.

Lemma lor_range a b : 0 <= a < 2 ^ 128 -> 0 <= b < 2 ^ 128 -> 0 <= Z.lor a b < 2 ^ 128.
Proof.
  intros Ha Hb. split; [apply Z.lor_nonneg; lia|]. destruct (decide (Z.lor a b = 0)) as [->|Hn]; [lia|]. apply Z.log2_lt_pow2; [pose proof (proj2 (Z.lor_nonneg a b)); lia|].
  rewrite Z.log2_lor by lia. apply Z.max_lub_lt; [destruct (decide (a = 0)) as [->|]; [cbn; lia|apply Z.log2_lt_pow2; lia]|destruct (decide (b = 0)) as [->|]; [cbn; lia|apply Z.log2_lt_pow2; lia]].
Qed.

Lemma mark_rows_lookup n : forall row s l r, mark_rows row n s l !! r = (if (row <=? r)%nat && (r <? row + n)%nat then (fun v => Z.lor v s) <$> l !! r else l !! r).
Proof.
  induction n as [|n IH]; intros row s l r; cbn [mark_rows].
  - replace ((row <=? r)%nat && (r <? row + 0)%nat) with false by lia. done.
  - rewrite IH. destruct (decide (r = row)) as [->|Hne].
    + replace ((S row <=? row)%nat && (row <? S row + n)%nat) with false by lia. replace ((row <=? row)%nat && (row <? row + S n)%nat) with true by lia. by rewrite list_lookup_alter_eq.
    + rewrite list_lookup_alter_ne by done. replace ((S row <=? r)%nat && (r <? S row + n)%nat) with ((row <=? r)%nat && (r <? row + S n)%nat) by lia. done.
Qed.

Lemma length_mark_rows n : forall row s l, length (mark_rows row n s l) = length l.
Proof. induction n as [|n IH]; intros; cbn [mark_rows]; [done|]. by rewrite IH, length_alter. Qed.

Lemma damage_add_ok area d : damage_ok d -> damage_ok (damage_add area d).
Proof.
  intros (Ht & Hl & Hr). unfold damage_add. destruct (rect_empty area); [done|]. split_and!; cbn; [done|by rewrite length_mark_rows|]. apply Forall_lookup. intros r v Hv.
  rewrite mark_rows_lookup in Hv. rewrite Forall_lookup in Hr. destruct (_ && _); [|by eapply Hr]. destruct (rows d !! r) as [w|] eqn:Hw; [|done]. injection Hv as <-.
  apply lor_range; [by eapply Hr|apply land_max_range].
Qed.

Lemma grid_cell d px py : 0 < tile d -> on_grid d px py -> 0 <= px / tile d < 128 /\ 0 <= py / tile d < 80.
Proof.
  intros Ht [Hx Hy]. unfold TILE_COLUMNS, TILE_ROWS in *. split; (split; [apply Z.div_pos; lia|apply Z.div_lt_upper_bound; lia]).
Qed.

(** Adding an area marks each of its pixels, and unmarks none. *)
Lemma damage_add_spec area d px py : damage_ok d -> on_grid d px py -> 0 <= left area -> 0 <= top area ->
  (damaged d px py = true -> damaged (damage_add area d) px py = true) /\ (covers area px py = true -> damaged (damage_add area d) px py = true).
Proof.
  intros (Ht & Hl & _) Hg Hla Hta. pose proof (grid_cell d px py Ht Hg) as [Hcx Hcy]. destruct (lookup_lt_is_Some_2 (rows d) (Z.to_nat (py / tile d))) as [v Hv]; [unfold TILE_ROWS in Hl; lia|].
  unfold damage_add. destruct (rect_empty area) eqn:He; [split; [done|]; unfold rect_empty, covers in *; lia|]. unfold damaged. cbn [rows tile]. rewrite mark_rows_lookup, Hv. split.
  - intros Hd. destruct (_ && _); [|exact Hd]. cbn in *. rewrite Z.lor_spec. apply orb_true_iff. by left.
  - intros Hc. unfold covers in Hc. unfold rect_empty in He.
    assert (H1 : left area / tile d <= px / tile d <= (right area - 1) / tile d) by (split; apply Z.div_le_mono; lia).
    assert (H2 : top area / tile d <= py / tile d <= (bottom area - 1) / tile d) by (split; apply Z.div_le_mono; lia).
    assert (H3 : 0 <= left area / tile d) by (apply Z.div_pos; lia). assert (H4 : 0 <= top area / tile d) by (apply Z.div_pos; lia).
    unfold TILE_COLUMNS, TILE_ROWS in *. match goal with |- context [if ?b then _ else _] => replace b with true by lia end.
    match goal with |- Z.testbit (default 0 ((fun w => Z.lor w ?sp) <$> Some v)) ?i = true => change (Z.testbit (Z.lor v sp) i = true) end. rewrite Z.lor_spec, span_bits by lia. apply orb_true_iff. right. lia.
Qed.

(** *** Runs *)

Lemma trailing_spec b n : forall v, let t := trailing b n v in 0 <= t <= Z.of_nat n /\ (forall i, 0 <= i < t -> Z.testbit v i = b) /\ (t < Z.of_nat n -> Z.testbit v t = negb b).
Proof.
  induction n as [|n IH]; intros v; cbn [trailing]; cbv zeta; [split_and!; intros; lia|]. destruct (Bool.eqb (Z.odd v) b) eqn:Hb.
  - destruct (IH (Z.div2 v)) as (Hr & Hlow & Hat). set (t := trailing b n (Z.div2 v)) in *. clearbody t. apply Bool.eqb_prop in Hb. split; [lia|split].
    + intros i Hi. destruct (decide (i = 0)) as [->|]; [by rewrite Z.bit0_odd|].
      rewrite <- (Hlow (i - 1)) by lia. rewrite Z.div2_spec, Z.shiftr_spec by lia. f_equal; lia.
    + intros Hlt. rewrite <- Hat by lia. rewrite Z.div2_spec, Z.shiftr_spec by lia. f_equal; lia.
  - split; [lia|split; [intros; lia|]]. intros _. rewrite Z.bit0_odd. by destruct (Z.odd v), b.
Qed.

Lemma nonzero_bit v : 0 <= v < 2 ^ 128 -> v <> 0 -> exists i, 0 <= i < 128 /\ Z.testbit v i = true.
Proof.
  intros Hv Hn. exists (Z.log2 v). split; [|apply Z.bit_log2; lia]. split; [apply Z.log2_nonneg|]. apply Z.log2_lt_pow2; lia.
Qed.

Lemma high_bit v i : 0 <= v < 2 ^ 128 -> 128 <= i -> Z.testbit v i = false.
Proof. intros Hv Hi. destruct (decide (v = 0)) as [->|]; [apply Z.bits_0|]. apply Z.bits_above_log2; [lia|]. assert (Z.log2 v < 128) by (apply Z.log2_lt_pow2; lia). lia. Qed.

Lemma row_runs_spec n : forall v lo, 0 <= v < 2 ^ 128 -> (forall i, 0 <= i < lo -> Z.testbit v i = false) -> 0 <= lo -> 128 <= Z.of_nat n + lo ->
  forall k, 0 <= k -> (Z.testbit v k = true <-> exists st len, (st, len) ∈ row_runs n v /\ st <= k < st + len) /\ Forall (fun r => 0 <= r.1 /\ 0 < r.2 /\ r.1 + r.2 <= 128) (row_runs n v).
Proof.
  induction n as [|n IH]; intros v lo Hv Hlo Hl0 Hn k Hk; cbn [row_runs].
  - split; [|done]. split; [|intros (? & ? & ? & _); set_solver]. intros Hb. destruct (decide (k < 128)); [rewrite Hlo in Hb by lia; done|]. by rewrite high_bit in Hb by lia.
  - destruct (Z.eqb_spec v 0) as [->|Hnz]; [split; [|done]; rewrite Z.bits_0; split; [done|intros (? & ? & ? & _); set_solver]|].
    destruct (trailing_spec false 128 v) as (Hst & Hzeros & Hone). set (st := trailing false 128 v) in *.
    destruct (nonzero_bit v Hv Hnz) as (b & Hb & Hbit). assert (Hst' : st < 128).
    { destruct (decide (st < 128)); [done|]. rewrite Hzeros in Hbit by lia. done. }
    specialize (Hone ltac:(lia)). cbn [negb] in Hone. assert (Hlost : lo <= st). { destruct (decide (lo <= st)); [done|]. rewrite Hlo in Hone by lia. done. }
    destruct (trailing_spec true 128 (Z.shiftr v st)) as (Hlen & Hones & Hend). set (len := trailing true 128 (Z.shiftr v st)) in *.
    assert (Hpos : 0 < len). { destruct (decide (0 < len)); [done|]. assert (len = 0) as Hz by lia. rewrite Hz in Hend. specialize (Hend ltac:(lia)). rewrite Z.shiftr_spec, Z.add_0_l in Hend by lia. cbn [negb] in Hend. congruence. }
    assert (Hones' : forall i, st <= i < st + len -> Z.testbit v i = true). { intros i Hi. rewrite <- (Hones (i - st)) by lia. rewrite Z.shiftr_spec by lia. f_equal. lia. }
    assert (Hfit : st + len <= 128). { destruct (decide (st + len <= 128)); [done|]. pose proof (Hones' 128 ltac:(lia)) as Hx. by rewrite high_bit in Hx by lia. }
    set (v' := Z.land v _). assert (Hv' : forall i, 0 <= i -> Z.testbit v' i = Z.testbit v i && negb ((st <=? i) && (i <? st + len))).
    { intros i Hi. unfold v'. rewrite Z.land_spec, Z.lxor_spec, bits_max. unfold TILE_COLUMNS. rewrite bits_shifted by lia.
      destruct (decide (i < 128)); [|rewrite high_bit by lia; done]. f_equal. replace (128 - (128 - len)) with len by lia. replace ((0 <=? i) && (i <? 128)) with true by lia.
      replace (i <? 128) with true by lia. by rewrite andb_true_r. }
    assert (Hrange : 0 <= v' < 2 ^ 128) by (by apply land_range).
    destruct (IH v' (st + len) Hrange) with (k := k) as [Hiff Hall]; [|lia|lia|done|].
    { intros i Hi. rewrite Hv' by lia. destruct (decide (i < st)); [rewrite Hzeros by lia; done|]. replace ((st <=? i) && (i <? st + len)) with true by lia. apply andb_false_r. }
    clearbody st len v'. split; [|constructor; [cbn [fst snd]; split_and!; [lia|exact Hpos|exact Hfit]|exact Hall]]. rewrite Hv' in Hiff by done. split.
    + intros Hbk. destruct ((st <=? k) && (k <? st + len)) eqn:Hin; [exists st, len; split; [set_solver|lia]|]. rewrite Hbk in Hiff. destruct (proj1 Hiff eq_refl) as (s2 & l2 & Hin2 & Hr2). exists s2, l2. split; [set_solver|done].
    + intros (s2 & l2 & [Heq | Hin2]%elem_of_cons & Hr2); [injection Heq as -> ->; by apply Hones'|]. assert (Hb2 : Z.testbit v k && negb ((st <=? k) && (k <? st + len)) = true) by (apply Hiff; by exists s2, l2).
      by apply andb_true_iff in Hb2 as [-> _].
Qed.

Lemma cell_range t c len px : 0 < t -> (c * t <= px < (c + len) * t <-> c <= px / t < c + len).
Proof.
  intros Ht. split; intros [H1 H2]; split.
  - apply Z.div_le_lower_bound; lia.
  - apply Z.div_lt_upper_bound; lia.
  - pose proof (Z.mul_div_le px t Ht). nia.
  - pose proof (Z.mul_succ_div_gt px t Ht). nia.
Qed.

(** Draining hands out exactly the pixels that were marked. *)
Lemma drain_spec d px py : damage_ok d -> on_grid d px py -> (damaged d px py = true <-> exists r, r ∈ drain d /\ covers r px py = true).
Proof.
  intros (Ht & Hl & Hr) Hg. pose proof (grid_cell d px py Ht Hg) as [Hcx Hcy]. rewrite Forall_lookup in Hr. unfold damaged, drain. split.
  - intros Hb. destruct (rows d !! Z.to_nat (py / tile d)) as [v|] eqn:Hv; [|by rewrite Z.bits_0 in Hb]. change (Z.testbit v (px / tile d) = true) in Hb.
    destruct (row_runs_spec 128 v 0 (Hr _ _ Hv)) with (k := px / tile d) as [Hiff _]; [lia..|]. destruct (proj1 Hiff Hb) as (st & len & Hin & Hrange).
    exists (run_rect (tile d) (Z.to_nat (py / tile d)) (st, len)). split.
    + apply list_elem_of_In, in_concat. exists (run_rect (tile d) (Z.to_nat (py / tile d)) <$> row_runs 128 v). split; apply list_elem_of_In; [|apply list_elem_of_fmap; by exists (st, len)].
      apply elem_of_lookup_imap. by exists (Z.to_nat (py / tile d)), v.
    + unfold covers, run_rect. cbn [left right top bottom fst snd]. pose proof (proj2 (cell_range (tile d) st len px Ht) Hrange).
      pose proof (proj2 (cell_range (tile d) (py / tile d) 1 py Ht) ltac:(lia)). rewrite Z2Nat.id by lia. lia.
  - intros (r & Hin & Hc). apply list_elem_of_In, in_concat in Hin as (l & Hl' & Hin). apply list_elem_of_In in Hl', Hin. apply elem_of_lookup_imap in Hl' as (row & v & -> & Hv).
    apply list_elem_of_fmap in Hin as ([st len] & -> & Hin). unfold covers, run_rect in Hc. cbn [left right top bottom fst snd] in Hc.
    pose proof (proj1 (cell_range (tile d) st len px Ht) ltac:(lia)) as Hx. pose proof (proj1 (cell_range (tile d) (Z.of_nat row) 1 py Ht) ltac:(lia)) as Hy.
    replace (Z.to_nat (py / tile d)) with row by lia. rewrite Hv. change (Z.testbit v (px / tile d) = true).
    destruct (row_runs_spec 128 v 0 (Hr _ _ Hv)) with (k := px / tile d) as [Hiff _]; [lia..|]. apply Hiff. by exists st, len.
Qed.

Lemma drain_nonneg d r : damage_ok d -> r ∈ drain d -> 0 <= left r /\ 0 <= top r.
Proof.
  intros (Ht & Hl & Hr) Hin. rewrite Forall_lookup in Hr. unfold drain in Hin. apply list_elem_of_In, in_concat in Hin as (l & Hl' & Hin). apply list_elem_of_In in Hl', Hin.
  apply elem_of_lookup_imap in Hl' as (row & v & -> & Hv). apply list_elem_of_fmap in Hin as ([st len] & -> & Hin).
  destruct (row_runs_spec 128 v 0 (Hr _ _ Hv)) with (k := 0) as [_ Hall]; [lia..|]. rewrite Forall_forall in Hall. specialize (Hall _ Hin). clear Hin Hv Hr. cbn [fst snd] in Hall. unfold run_rect. cbn [left top fst]. split; apply Z.mul_nonneg_nonneg; lia.
Qed.

Lemma damage_new_ok w h : damage_ok (Damage_new w h).
Proof. unfold damage_ok, Damage_new. cbn [tile rows]. split_and!; [lia|by rewrite length_replicate|apply Forall_replicate; lia]. Qed.

(** A screen is within its grid. *)
Lemma damage_new_grid w h px py : 0 <= w -> 0 <= h -> 0 <= px < w -> 0 <= py < h -> on_grid (Damage_new w h) px py.
Proof.
  intros Hw Hh Hx Hy. unfold on_grid, Damage_new, TILE_COLUMNS, TILE_ROWS, div_ceil. cbn [tile].
  assert (Hd : forall a b, 0 < b -> 0 <= a -> a <= b * ((a + b - 1) / b)) by (intros a b Hb Ha; pose proof (Z.mul_succ_div_gt (a + b - 1) b Hb); nia).
  pose proof (Hd w 128 ltac:(lia) Hw). pose proof (Hd h 80 ltac:(lia) Hh). change (Z.of_nat 80) with 80. nia.
Qed.

Lemma damage_empty_none d px py : damage_empty d = true -> damaged d px py = false.
Proof.
  intros He. unfold damage_empty, damaged in *. destruct (rows d !! Z.to_nat (py / tile d)) as [v|] eqn:Hv; [|apply Z.bits_0]. rewrite forallb_forall in He.
  specialize (He v ltac:(apply list_elem_of_In; by eapply list_elem_of_lookup_2)). apply Z.eqb_eq in He as ->. apply Z.bits_0.
Qed.
