(* ===== verification/CompositorDraw.v ===== *)
(** * The compositor: drawing

    Every drawing loop is a set of pixels given new bytes, [paints]: rows of a rectangle,
    the part of a surface inside it, the pointer, and the copy to the display. No other
    byte of the buffer changes, the padding at the end of a row included. *)

From stdpp Require Import base list gmap numbers list_numbers sorting.
From Stdlib Require Import Lia ZifyBool.
From S2P Require Import Prelude NetBytes Compositor CompositorOrder.

(** ** Pixels and bytes *)

Record geometry (g : BufferInfo) : Prop := {
  g_depth : 0 < i_bytes_per_pixel g;
  g_width : 0 <= i_width g < 2 ^ 32;
  g_height : 0 <= i_height g < 2 ^ 32;
  g_stride : i_width g * i_bytes_per_pixel g <= i_stride g;
}.

Definition fits (g : BufferInfo) (bs : list Z) : Prop := i_stride g * i_height g <= Z.of_nat (length bs).

Definition offset_of (g : BufferInfo) (px py k : Z) : Z := py * i_stride g + px * i_bytes_per_pixel g + k.
Definition pixel (g : BufferInfo) (px py k : Z) : Prop := 0 <= px < i_width g /\ 0 <= py < i_height g /\ 0 <= k < i_bytes_per_pixel g.

Lemma offset_inj g px py k px' py' k' : geometry g -> pixel g px py k -> pixel g px' py' k' -> offset_of g px py k = offset_of g px' py' k' -> px = px' /\ py = py' /\ k = k'.
Proof.
  intros [Hd Hw Hh Hs] (Hx & Hy & Hk) (Hx' & Hy' & Hk') He. unfold offset_of in He. set (d := i_bytes_per_pixel g) in *. set (st := i_stride g) in *. set (w := i_width g) in *.
  assert (Hr : px * d + k < st) by nia. assert (Hr' : px' * d + k' < st) by nia. assert (py = py') as <- by nia. assert (px = px') as <- by nia. lia.
Qed.

Lemma offset_range g px py k : geometry g -> pixel g px py k -> 0 <= offset_of g px py k < i_stride g * i_height g.
Proof.
  intros [Hd Hw Hh Hs] (Hx & Hy & Hk). unfold offset_of. set (d := i_bytes_per_pixel g) in *. set (st := i_stride g) in *. set (w := i_width g) in *.
  assert (Hr : 0 <= px * d + k < st) by nia. nia.
Qed.

(** The bytes of part of a row are those of its pixels. *)
Lemma row_bytes g row l r o : geometry g -> row * i_stride g + l * i_bytes_per_pixel g <= o < row * i_stride g + r * i_bytes_per_pixel g ->
  exists px k, l <= px < r /\ 0 <= k < i_bytes_per_pixel g /\ o = offset_of g px row k.
Proof.
  intros [Hd _ _ _] Ho. unfold offset_of. set (d := i_bytes_per_pixel g) in *. set (st := i_stride g) in *.
  exists ((o - row * st) / d), ((o - row * st) mod d). pose proof (Z.div_mod (o - row * st) d ltac:(lia)). pose proof (Z.mod_pos_bound (o - row * st) d Hd). split_and!; try lia; nia.
Qed.

Lemma lookup_overwrite at_ x buf o : (at_ + length x <= length buf)%nat -> overwrite at_ x buf !! o = (if (at_ <=? o)%nat && (o <? at_ + length x)%nat then x !! (o - at_)%nat else buf !! o).
Proof.
  intros Hl. unfold overwrite. destruct (decide (o < at_)%nat) as [Hlt|Hge].
  - replace ((at_ <=? o)%nat && (o <? at_ + length x)%nat) with false by lia. rewrite lookup_app_l by (rewrite length_take; lia). by apply lookup_take_lt.
  - rewrite lookup_app_r by (rewrite length_take; lia). rewrite length_take, Nat.min_l by lia. destruct (decide (o < at_ + length x)%nat).
    + replace ((at_ <=? o)%nat && (o <? at_ + length x)%nat) with true by lia. by rewrite lookup_app_l by lia.
    + replace ((at_ <=? o)%nat && (o <? at_ + length x)%nat) with false by lia. rewrite lookup_app_r by lia. rewrite lookup_drop. f_equal. lia.
Qed.

(** [bs'] is [bs] with the pixels of [A] showing [src]. *)
Record paints (g : BufferInfo) (A : Z -> Z -> Prop) (src : Z -> Z -> Z -> Z) (bs bs' : list Z) : Prop := {
  paints_length : length bs' = length bs;
  paints_in : forall px py k, pixel g px py k -> A px py -> bs' !! Z.to_nat (offset_of g px py k) = Some (src px py k);
  paints_out : forall o, (forall px py k, pixel g px py k -> A px py -> o <> Z.to_nat (offset_of g px py k)) -> bs' !! o = bs !! o;
}.

Lemma paints_none g (A : Z -> Z -> Prop) src bs : (forall px py k, pixel g px py k -> ~ A px py) -> paints g A src bs bs.
Proof. intros Hn. split; [done| |done]. intros px py k Hp Ha. by destruct (Hn px py k Hp). Qed.

Lemma paints_ext g (A A' : Z -> Z -> Prop) src src' bs bs' : paints g A src bs bs' -> (forall px py k, pixel g px py k -> A px py <-> A' px py) ->
  (forall px py k, pixel g px py k -> A' px py -> src px py k = src' px py k) -> paints g A' src' bs bs'.
Proof.
  intros [Hl Hi Ho] Ha Hs. split; [done| |].
  - intros px py k Hp Hpa. rewrite <- Hs by done. apply Hi; [done|]. by apply (Ha px py k).
  - intros o Hn. apply Ho. intros px py k Hp Hpa. apply Hn; [done|]. by apply (Ha px py k).
Qed.

(** A pixel that is not painted keeps its bytes. *)
Lemma paints_keeps g (A : Z -> Z -> Prop) src bs bs' px py k : geometry g -> paints g A src bs bs' -> pixel g px py k -> ~ A px py -> bs' !! Z.to_nat (offset_of g px py k) = bs !! Z.to_nat (offset_of g px py k).
Proof.
  intros Hg [_ _ Ho] Hp Hn. apply Ho. intros px' py' k' Hp' Ha' He.
  pose proof (offset_range g _ _ _ Hg Hp). pose proof (offset_range g _ _ _ Hg Hp'). destruct (offset_inj g px py k px' py' k') as (-> & -> & _); [done..|lia|done].
Qed.

Lemma paints_over g (A B : Z -> Z -> Prop) f f' f'' bs bs' bs'' : geometry g -> (forall px py, Decision (B px py)) -> paints g A f bs bs' -> paints g B f' bs' bs'' ->
  (forall px py k, pixel g px py k -> B px py -> f'' px py k = f' px py k) -> (forall px py k, pixel g px py k -> A px py -> ~ B px py -> f'' px py k = f px py k) ->
  paints g (fun px py => A px py \/ B px py) f'' bs bs''.
Proof.
  intros Hg Hdec H1 H2 Hb Ha. split.
  - by rewrite (paints_length _ _ _ _ _ H2), (paints_length _ _ _ _ _ H1).
  - intros px py k Hp Hor. destruct (Hdec px py) as [Hin|Hout]; [rewrite Hb by done; by apply (paints_in _ _ _ _ _ H2)|].
    destruct Hor as [Hin|]; [|done]. rewrite (paints_keeps _ _ _ _ _ _ _ _ Hg H2) by done. rewrite Ha by done. by apply (paints_in _ _ _ _ _ H1).
  - intros o Hn. rewrite (paints_out _ _ _ _ _ H2), (paints_out _ _ _ _ _ H1); [done|..]; intros px py k Hp Hin; apply Hn; auto.
Qed.

(** Painting again with what is already there. *)
Lemma paints_again g (A B : Z -> Z -> Prop) f bs bs' bs'' : geometry g -> paints g A f bs bs' -> paints g B f bs' bs'' -> paints g (fun px py => A px py \/ B px py) f bs bs''.
Proof.
  intros Hg H1 H2. split.
  - by rewrite (paints_length _ _ _ _ _ H2), (paints_length _ _ _ _ _ H1).
  - intros px py k Hp Hor. destruct (decide (bs'' !! Z.to_nat (offset_of g px py k) = Some (f px py k))) as [|Hne]; [done|]. exfalso.
    assert (Hnb : ~ B px py) by (intros Hb; apply Hne; by apply (paints_in _ _ _ _ _ H2)). destruct Hor as [Ha|]; [|done].
    apply Hne. rewrite (paints_keeps _ _ _ _ _ _ _ _ Hg H2 Hp Hnb). by apply (paints_in _ _ _ _ _ H1).
  - intros o Hn. rewrite (paints_out _ _ _ _ _ H2), (paints_out _ _ _ _ _ H1); [done|..]; intros px py k Hp Hin; apply Hn; auto.
Qed.

(** One write along a row. *)
Lemma put_row g bs row l r data src : geometry g -> fits g bs -> 0 <= row < i_height g -> 0 <= l <= r -> r <= i_width g -> Z.of_nat (length data) = (r - l) * i_bytes_per_pixel g ->
  (forall px k, l <= px < r -> 0 <= k < i_bytes_per_pixel g -> data !! Z.to_nat ((px - l) * i_bytes_per_pixel g + k) = Some (src px row k)) ->
  exists bs', put bs (row * i_stride g + l * i_bytes_per_pixel g) data = Some bs' /\ paints g (fun px py => py = row /\ l <= px < r) src bs bs'.
Proof.
  intros Hg Hf Hrow Hl Hr Hlen Hdata. pose proof Hg as [Hd Hw Hh Hs]. unfold fits in Hf. unfold put. set (d := i_bytes_per_pixel g) in *. set (st := i_stride g) in *.
  assert (Hend : row * st + r * d <= Z.of_nat (length bs)) by nia. assert (Hpos : 0 <= row * st + l * d) by nia.
  assert (Heq : row * st + l * d + Z.of_nat (length data) = row * st + r * d) by nia.
  replace (0 <=? row * st + l * d) with true by lia. replace (row * st + l * d + Z.of_nat (length data) <=? Z.of_nat (length bs)) with true by lia. cbn [andb].
  eexists. split; [reflexivity|]. assert (Hfit : (Z.to_nat (row * st + l * d) + length data <= length bs)%nat) by lia. split.
  - by apply length_overwrite.
  - intros px py k (Hx & Hy & Hk) [-> Hin]. rewrite lookup_overwrite by done. fold d in Hk. assert (Ho : offset_of g px row k = row * st + l * d + ((px - l) * d + k)) by (unfold offset_of; fold d st; lia).
    assert (0 <= (px - l) * d + k < (r - l) * d) by nia. rewrite Ho. match goal with |- (if ?b then _ else _) = _ => replace b with true by lia end.
    rewrite <- (Hdata px k) by done. f_equal. lia.
  - intros o Hn. rewrite lookup_overwrite by done. match goal with |- (if ?b then _ else _) = _ => destruct b eqn:Hb end; [|done].
    destruct (row_bytes g row l r (Z.of_nat o) Hg) as (px & k & Hpx & Hk & Ho); [fold d st; lia|]. exfalso. apply (Hn px row k); [unfold pixel; lia|done|lia].
Qed.

(** ** Loops *)

Lemma for_from_inv (I : Z -> Compositor -> Prop) f n : forall a s, I a s -> (forall i s, a <= i < a + Z.of_nat n -> I i s -> exists s', f i s = (Ok tt, s') /\ I (i + 1) s') ->
  exists s', for_from a n f s = (Ok tt, s') /\ I (a + Z.of_nat n) s'.
Proof.
  induction n as [|n IH]; intros a s Hi Hstep; cbn [for_from]; [exists s; split; [done|]; by rewrite Z.add_0_r|].
  destruct (Hstep a s ltac:(lia) Hi) as (s1 & Hrun & Hi1). erewrite crun_bind; [|exact Hrun]. destruct (IH (a + 1) s1 Hi1) as (s2 & Hrun2 & Hi2); [intros; apply Hstep; [lia|done]|].
  exists s2. split; [done|]. by replace (a + Z.of_nat (S n)) with (a + 1 + Z.of_nat n) by lia.
Qed.

(** A loop each turn of which paints [A i] paints what is in one of them. *)
Lemma for_paints g (upd : list Z -> Compositor) (A : Z -> Z -> Z -> Prop) (U : Z -> Z -> Prop) src a b f bs : geometry g ->
  (forall i bs', a <= i < b -> length bs' = length bs -> exists bs'', f i (upd bs') = (Ok tt, upd bs'') /\ paints g (A i) src bs' bs'') ->
  (forall px py k, pixel g px py k -> U px py <-> exists i, a <= i < b /\ A i px py) -> exists bs', for_range a b f (upd bs) = (Ok tt, upd bs') /\ paints g U src bs bs'.
Proof.
  intros Hg Hstep HU. unfold for_range.
  destruct (for_from_inv (fun i s => exists bs', s = upd bs' /\ paints g (fun px py => exists j, a <= j < i /\ A j px py) src bs bs') f (Z.to_nat (b - a)) a (upd bs)) as (s' & Hrun & bs' & -> & Hp).
  - exists bs. split; [done|]. apply paints_none. intros px py k _ (j & Hj & _). lia.
  - intros i s Hi (bs1 & -> & Hp1). destruct (Hstep i bs1 ltac:(lia) (paints_length _ _ _ _ _ Hp1)) as (bs2 & Hrun & Hp2). exists (upd bs2). split; [done|]. exists bs2. split; [done|].
    eapply paints_ext; [by eapply paints_again|intros px py k _; cbn beta|done]. split.
    + intros [(j & Hj & Ha) | Ha]; [exists j|exists i]; split; (lia || done).
    + intros (j & Hj & Ha). destruct (decide (j = i)) as [->|]; [by right|left; exists j; split; [lia|done]].
  - exists bs'. split; [done|]. eapply paints_ext; [done| |done]. intros px py k Hpx. rewrite HU by done. split; intros (j & Hj & Ha); exists j; (split; [lia|done]).
Qed.

(** ** Drawing into the back buffer *)

Section Drawing.
Context (s : Compositor) (area : Rect).
Context (Hg : geometry (screen s)) (Hfit : fits (screen s) (back s)).
Context (Harea : 0 <= left area < right area /\ right area <= i_width (screen s) /\ 0 <= top area < bottom area /\ bottom area <= i_height (screen s)).

Let g := screen s.
Let at_back bs := set_back bs s.

Lemma write_back_row bs row l r data src : length bs = length (back s) -> 0 <= row < i_height g -> 0 <= l <= r -> r <= i_width g -> Z.of_nat (length data) = (r - l) * i_bytes_per_pixel g ->
  (forall px k, l <= px < r -> 0 <= k < i_bytes_per_pixel g -> data !! Z.to_nat ((px - l) * i_bytes_per_pixel g + k) = Some (src px row k)) ->
  exists bs', write_back (row * i_stride g + l * i_bytes_per_pixel g) data (at_back bs) = (Ok tt, at_back bs') /\ paints g (fun px py => py = row /\ l <= px < r) src bs bs'.
Proof.
  intros Hl Hrow Hlr Hr Hlen Hdata. destruct (put_row g bs row l r data src Hg) as (bs' & Hput & Hp); [unfold fits in *; by rewrite Hl|done..|].
  exists bs'. split; [|done]. unfold write_back. erewrite crun_bind; [|reflexivity]. change (back (at_back bs)) with bs. rewrite Hput. reflexivity.
Qed.

(** Which byte of part of a row a pixel's is. *)
Lemma in_row l r px k : l <= px < r -> 0 <= k < i_bytes_per_pixel g -> 0 <= (px - l) * i_bytes_per_pixel g + k < (r - l) * i_bytes_per_pixel g.
Proof. intros Hx Hk. nia. Qed.

Lemma clear_paints bs : length bs = length (back s) -> exists bs', clear area (at_back bs) = (Ok tt, at_back bs') /\ paints g (fun px py => covers area px py = true) (fun _ _ _ => 0) bs bs'.
Proof.
  intros Hl. unfold clear. pose proof (g_depth _ Hg) as Hd. fold g in Harea, Hd. eapply (for_paints g at_back (fun row px py => py = row /\ left area <= px < right area)); [done| |].
  - intros row bs' Hrow Hl'. erewrite crun_bind; [|reflexivity]. unfold depth. cbn [screen set_back at_back].
    apply write_back_row; [congruence|lia|lia|lia|rewrite length_replicate; fold g; nia|]. intros px k Hpx Hk. apply lookup_replicate_2. pose proof (in_row _ _ _ _ Hpx Hk). fold g. lia.
  - intros px py k Hp. unfold covers. split; [intros; exists py; lia|intros (i & Hi & -> & Hx); lia].
Qed.

(** A surface whose pixels can be read. *)
Definition readable (e : Surface) : Prop :=
  exists source, memory s !! base e = Some source /\ stride e * height e <= Z.of_nat (length source) /\ width e * i_bytes_per_pixel g <= stride e /\
    0 <= width e < 2 ^ 32 /\ 0 <= height e < 2 ^ 32 /\ 0 <= x e < 2 ^ 64 /\ 0 <= y e < 2 ^ 64.

Definition source_byte (e : Surface) (px py k : Z) : Z :=
  default 0 (source ← memory s !! base e; source !! Z.to_nat ((py - y e) * stride e + (px - x e) * i_bytes_per_pixel g + k)).

Lemma covers_no_wrap e px py : 0 <= width e < 2 ^ 32 -> 0 <= height e < 2 ^ 32 -> 0 <= x e < 2 ^ 64 -> 0 <= y e < 2 ^ 64 -> covers (bounds_of e) px py = true ->
  x e <= px < x e + width e /\ y e <= py < y e + height e.
Proof.
  intros Hw Hh Hx Hy Hc. unfold covers, bounds_of, wrap in Hc. cbn [left right top bottom] in Hc.
  pose proof (Z.div_mod (x e + width e) (2 ^ 64) ltac:(lia)). pose proof (Z.div_mod (y e + height e) (2 ^ 64) ltac:(lia)).
  pose proof (Z.mod_pos_bound (x e + width e) (2 ^ 64) ltac:(lia)). pose proof (Z.mod_pos_bound (y e + height e) (2 ^ 64) ltac:(lia)). nia.
Qed.

Lemma covers_intersect a b px py : covers (intersect a b) px py = covers a px py && covers b px py.
Proof. unfold covers, intersect. cbn [left right top bottom]. lia. Qed.

Lemma blit_paints e bs : length bs = length (back s) -> readable e ->
  exists bs', blit e area (at_back bs) = (Ok tt, at_back bs') /\ paints g (fun px py => covers (bounds_of e) px py = true /\ covers area px py = true) (source_byte e) bs bs'.
Proof.
  intros Hl (source & Hm & Hsize & Hrow & Hw & Hh & Hx & Hy). unfold blit. pose proof (g_depth _ Hg) as Hd. fold g in Harea, Hd. set (v := intersect (bounds_of e) area).
  destruct (rect_empty v) eqn:He.
  - exists bs. split; [done|]. apply paints_none. intros px py k _ Hc. apply andb_true_iff in Hc. rewrite <- covers_intersect in Hc. fold v in Hc. unfold covers, rect_empty in *. lia.
  - assert (Hv : 0 <= left v < right v /\ right v <= i_width g /\ 0 <= top v < bottom v /\ bottom v <= i_height g) by (unfold rect_empty in He; subst v; unfold intersect in *; cbn [left right top bottom] in *; lia).
    assert (Hin : forall px py, left v <= px < right v -> top v <= py < bottom v -> x e <= px < x e + width e /\ y e <= py < y e + height e).
    { intros px py Hpx Hpy. apply covers_no_wrap; try done. assert (Hc : covers v px py = true) by (unfold covers; lia). unfold v in Hc. rewrite covers_intersect in Hc. by apply andb_true_iff in Hc as [-> _]. }
    eapply (for_paints g at_back (fun row px py => py = row /\ left v <= px < right v)); [done| |].
    + intros row bs' Hr Hl'. erewrite crun_bind; [|reflexivity]. unfold depth. cbn [screen set_back at_back memory]. fold g. rewrite Hm. erewrite crun_bind; [|reflexivity].
      pose proof (Hin (left v) row ltac:(lia) ltac:(lia)) as [Hx1 Hy1]. pose proof (Hin (right v - 1) row ltac:(lia) ltac:(lia)) as [Hx2 _].
      set (from := (row - y e) * stride e + (left v - x e) * i_bytes_per_pixel g). set (len := (right v - left v) * i_bytes_per_pixel g).
      assert (Hfrom : 0 <= from) by (unfold from; nia). assert (Hlen : 0 <= len) by (unfold len; nia). assert (Hend : from + len <= Z.of_nat (length source)).
      { assert (from + len <= (row - y e) * stride e + width e * i_bytes_per_pixel g) by (unfold from, len; nia). nia. }
      unfold fetch. replace ((0 <=? from) && (0 <=? len) && (from + len <=? Z.of_nat (length source))) with true by lia. erewrite crun_bind; [|reflexivity].
      apply write_back_row; [congruence|lia|lia|lia|rewrite length_take, length_drop; unfold len; unfold len in Hlen; lia|].
      intros px k Hpx Hk. pose proof (in_row _ _ _ _ Hpx Hk) as Hi. unfold len. rewrite lookup_take_lt by lia. rewrite lookup_drop. unfold source_byte. rewrite Hm. cbn [mbind option_bind].
      assert (Hlt : (Z.to_nat from + Z.to_nat ((px - left v) * i_bytes_per_pixel g + k) < length source)%nat) by (unfold len in Hend; lia).
      destruct (lookup_lt_is_Some_2 source _ Hlt) as [b Hb]. rewrite Hb.
      replace (Z.to_nat _) with (Z.to_nat from + Z.to_nat ((px - left v) * i_bytes_per_pixel g + k))%nat by (rewrite <- Z2Nat.inj_add by lia; f_equal; unfold from; lia). by rewrite Hb.
    + intros px py k Hp. rewrite <- andb_true_iff, <- covers_intersect. fold v. unfold covers. split; [intros; exists py; lia|intros (i & Hi & -> & ?); lia].
Qed.

(** The pointer's shape over a pixel. *)
Definition shape_at (px py : Z) : Z := default 0 (line ← CURSOR !! Z.to_nat (py - cursor_y s); line !! Z.to_nat (px - cursor_x s)).
Definition pointer_at (px py : Z) : bool := cursor_visible s && covers (cursor_rect s) px py && negb (shape_at px py =? 0).
Definition pointer_byte (px py : Z) : Z := if shape_at px py =? 1 then 0 else 255.

Definition cursor_ok : Prop := 0 <= cursor_x s < i_width (screen s) /\ 0 <= cursor_y s < i_height (screen s).

Lemma cursor_rect_eq : cursor_ok -> cursor_rect s = {| left := cursor_x s; top := cursor_y s; right := cursor_x s + 11; bottom := cursor_y s + 16 |}.
Proof. destruct Hg as [_ Hw Hh _]. intros [Hx Hy]. unfold cursor_rect, wrap, CURSOR_WIDTH, CURSOR_HEIGHT. f_equal; apply Z.mod_small; lia. Qed.

Lemma shape_found px py : cursor_x s <= px < cursor_x s + 11 -> cursor_y s <= py < cursor_y s + 16 ->
  exists line, CURSOR !! Z.to_nat (py - cursor_y s) = Some line /\ line !! Z.to_nat (px - cursor_x s) = Some (shape_at px py).
Proof.
  intros Hx Hy. unfold shape_at. assert (Hlines : Forall (fun line => length line = 11%nat) CURSOR) by (apply Forall_forall; intros line Hin; cbn in Hin; set_solver). rewrite Forall_lookup in Hlines.
  destruct (lookup_lt_is_Some_2 CURSOR (Z.to_nat (py - cursor_y s))) as [line Hline]; [cbn; lia|]. exists line. split; [done|].
  specialize (Hlines _ _ Hline). destruct (lookup_lt_is_Some_2 line (Z.to_nat (px - cursor_x s))) as [v Hv]; [lia|]. rewrite Hline. cbn [mbind option_bind]. by rewrite Hv.
Qed.

Lemma draw_cursor_paints bs : length bs = length (back s) -> cursor_ok ->
  exists bs', draw_cursor area (at_back bs) = (Ok tt, at_back bs') /\ paints g (fun px py => pointer_at px py = true /\ covers area px py = true) (fun px py _ => pointer_byte px py) bs bs'.
Proof.
  intros Hl Hc. pose proof (g_depth _ Hg) as Hd. fold g in Harea, Hd. unfold draw_cursor. erewrite crun_bind; [|reflexivity]. change (cursor_visible (at_back bs)) with (cursor_visible s).
  destruct (cursor_visible s) eqn:Hvis; cbn [negb]; [|exists bs; split; [done|apply paints_none; intros px py k _ [Hp _]; unfold pointer_at in Hp; by rewrite Hvis in Hp]].
  change (cursor_rect (at_back bs)) with (cursor_rect s). pose proof (cursor_rect_eq Hc) as Hrect. set (v := intersect (cursor_rect s) area).
  assert (Hv : 0 <= left v /\ right v <= i_width g /\ 0 <= top v /\ bottom v <= i_height g) by (subst v; unfold intersect; rewrite Hrect; cbn [left right top bottom]; unfold cursor_ok in Hc; lia).
  assert (Hin : forall px py, left v <= px < right v -> top v <= py < bottom v -> cursor_x s <= px < cursor_x s + 11 /\ cursor_y s <= py < cursor_y s + 16) by (subst v; unfold intersect; rewrite Hrect; cbn [left right top bottom]; lia).
  eapply (for_paints g at_back (fun row px py => py = row /\ left v <= px < right v /\ shape_at px py <> 0)); [done| |].
  - intros row bs' Hr Hl'. eapply (for_paints g at_back (fun column px py => py = row /\ column <= px < column + 1 /\ shape_at px py <> 0)); [done| |].
    + intros column bs'' Hcol Hl''. destruct (Hin column row Hcol Hr) as [Hcx Hcy]. destruct (shape_found column row Hcx Hcy) as (line & Hline & Hshape).
      change (cursor_y (at_back bs)) with (cursor_y s). change (cursor_x (at_back bs)) with (cursor_x s). rewrite Hline. erewrite crun_bind; [|reflexivity]. rewrite Hshape. erewrite crun_bind; [|reflexivity].
      destruct (Z.eqb_spec (shape_at column row) 0) as [Hz|Hz]; [exists bs''; split; [done|]; apply paints_none; intros px py k _ (-> & Hp & Hn); assert (px = column) as -> by lia; done|].
      change (screen (at_back bs)) with g. change (depth (at_back bs)) with (i_bytes_per_pixel g).
      destruct (write_back_row bs'' row column (column + 1) (replicate (Z.to_nat (i_bytes_per_pixel g)) (if shape_at column row =? 1 then 0 else 255)) (fun px py _ => pointer_byte px py)) as (b & Hrun & Hp); [congruence|lia|lia|lia|rewrite length_replicate; lia| |].
      { intros px k Hpx Hk. assert (px = column) as -> by lia. apply lookup_replicate_2. lia. }
      exists b. split; [done|]. eapply paints_ext; [done| |done]. intros px py k _. cbn beta. split; [intros [-> Hpx]; assert (px = column) as -> by lia; done|tauto].
    + intros px py k _. cbn beta. split; [intros (-> & Hpx & Hn); exists px; split_and!; (lia || done)|intros (i & Hi & -> & Hpx & Hn); split_and!; (lia || done)].
  - intros px py k Hp. cbn beta. pose proof (covers_intersect (cursor_rect s) area px py) as Hci. fold v in Hci. unfold pointer_at. rewrite Hvis, andb_true_l. split.
    + intros [[Hcr Hn]%andb_true_iff Hcov]. rewrite Hcr, Hcov in Hci. unfold covers in Hci. exists py. lia.
    + intros (i & Hi & -> & Hpx & Hn). assert (Hcv : covers v px i = true) by (unfold covers; lia). rewrite Hcv in Hci. symmetry in Hci. apply andb_true_iff in Hci as [-> ->]. lia.
Qed.

End Drawing.

(** ** The copy to the display *)

(** A store of four bytes the last of which is what was there is a store of three. *)
Lemma overwrite_after o p bs : length p = 3%nat -> overwrite o (p ++ drop 3 (take 4 (drop o bs))) bs = overwrite o p bs \/ (length bs < o + 4)%nat.
Proof.
  intros Hp. destruct (decide (length bs < o + 4)%nat) as [|Hl]; [by right|left]. unfold overwrite. rewrite length_app, Hp, length_drop, length_take, length_drop, Nat.min_l by lia.
  f_equal. rewrite <- app_assoc. f_equal. change 4%nat with (3 + 1)%nat at 1. rewrite <- take_drop_commute, drop_drop. replace (o + (3 + (4 - 3)))%nat with (o + 3 + 1)%nat by lia.
  rewrite <- (drop_drop bs 1 (o + 3)). apply take_drop.
Qed.

Lemma overwrite_before o p bs : length p = 3%nat -> (0 < o)%nat -> overwrite (o - 1) (take 1 (take 4 (drop (o - 1) bs)) ++ p) bs = overwrite o p bs \/ (length bs < o + 3)%nat.
Proof.
  intros Hp Ho. destruct (decide (length bs < o + 3)%nat) as [|Hl]; [by right|left]. unfold overwrite. rewrite take_take. change (1 `min` 4)%nat with 1%nat.
  rewrite length_app, length_take, length_drop, Hp, Nat.min_l by lia. rewrite <- app_assoc, app_assoc. f_equal; [|f_equal; f_equal; lia].
  replace o with (o - 1 + 1)%nat at 3 by lia. by rewrite take_take_drop.
Qed.

Record display_ok (s : Compositor) : Prop := {
  d_geometry : geometry (screen s);
  d_back : fits (screen s) (back s);
  d_scanout : fits (screen s) (scanout s);
  d_size : i_size (screen s) = Z.of_nat (length (scanout s));
  d_store : i_bytes_per_pixel (screen s) = 3 -> 4 <= i_size (screen s);
}.

Definition back_byte (s : Compositor) (px py k : Z) : Z := default 0 (back s !! Z.to_nat (offset_of (screen s) px py k)).

Section Flushing.
Context (s : Compositor) (Hok : display_ok s).
Let g := screen s.
Let at_screen sc := set_scanout sc s.

(** A pixel of the back buffer. *)
Lemma fetch_pixel row column : 0 <= column < i_width g -> 0 <= row < i_height g ->
  exists data, fetch (back s) (row * i_stride g + column * i_bytes_per_pixel g) (i_bytes_per_pixel g) = Some data /\ Z.of_nat (length data) = i_bytes_per_pixel g /\
    forall px k, column <= px < column + 1 -> 0 <= k < i_bytes_per_pixel g -> data !! Z.to_nat ((px - column) * i_bytes_per_pixel g + k) = Some (back_byte s px row k).
Proof.
  intros Hc Hr. destruct Hok as [Hg Hb _ _ _]. fold g in Hg, Hb. unfold fits in Hb. pose proof (g_depth _ Hg) as Hd. set (d := i_bytes_per_pixel g) in *.
  assert (Hp : forall k, 0 <= k < d -> 0 <= offset_of g column row k < i_stride g * i_height g) by (intros k Hk; apply offset_range; [done|unfold pixel; fold d; lia]).
  pose proof (Hp 0 ltac:(lia)) as H0. pose proof (Hp (d - 1) ltac:(lia)) as H1. unfold offset_of in H0, H1. fold d in H0, H1. unfold fetch.
  match goal with |- context [if ?b then _ else _] => replace b with true by lia end. eexists. split; [reflexivity|]. split; [rewrite length_take, length_drop; lia|].
  intros px k Hpx Hk. assert (px = column) as -> by lia. rewrite lookup_take_lt by lia. rewrite lookup_drop. unfold back_byte. fold g.
  assert (Ho : (Z.to_nat (row * i_stride g + column * d) + Z.to_nat ((column - column) * d + k))%nat = Z.to_nat (offset_of g column row k)) by (unfold offset_of; fold d; lia).
  rewrite Ho. destruct (lookup_lt_is_Some_2 (back s) (Z.to_nat (offset_of g column row k))) as [v Hv]; [specialize (Hp k Hk); lia|]. by rewrite Hv.
Qed.

Lemma write_screen_run o data data' sc sc' : put sc o data = Some sc' -> put sc o data = put sc o data' -> write_screen o data' (at_screen sc) = (Ok tt, at_screen sc').
Proof. intros Hp He. unfold write_screen. erewrite crun_bind; [|reflexivity]. change (scanout (at_screen sc)) with sc. rewrite <- He, Hp. reflexivity. Qed.

Lemma flush_pixel_paints sc row column : length sc = length (scanout s) -> 0 <= column < i_width g -> 0 <= row < i_height g ->
  exists sc', flush_pixel row column (at_screen sc) = (Ok tt, at_screen sc') /\ paints g (fun px py => py = row /\ column <= px < column + 1) (back_byte s) sc sc'.
Proof.
  intros Hl Hc Hr. destruct (fetch_pixel row column Hc Hr) as (data & Hfetch & Hlen & Hdata). destruct Hok as [Hg _ Hs Hsize Hstore]. fold g in Hg, Hs, Hsize, Hstore.
  destruct (put_row g sc row column (column + 1) data (back_byte s) Hg) as (sc' & Hput & Hp); [unfold fits in *; by rewrite Hl|lia|lia|lia|lia|done|]. exists sc'. split; [|done].
  unfold flush_pixel. erewrite crun_bind; [|reflexivity]. unfold depth. change (screen (at_screen sc)) with g. change (back (at_screen sc)) with (back s). change (scanout (at_screen sc)) with sc.
  set (o := row * i_stride g + column * i_bytes_per_pixel g) in *. destruct (Z.eqb_spec (i_bytes_per_pixel g) 3) as [H3|H3]; cbn [negb].
  2:{ rewrite Hfetch. erewrite crun_bind; [|reflexivity]. by eapply write_screen_run. }
  rewrite H3 in Hfetch, Hlen. rewrite Hfetch. erewrite crun_bind; [|reflexivity]. specialize (Hstore H3).
  assert (Hin : 0 <= o /\ o + 3 <= Z.of_nat (length sc)) by (unfold put in Hput; destruct (_ && _) eqn:Hb in Hput; [lia|done]).
  destruct (Z.leb_spec (o + 4) (i_size g)) as [Hroom|Hlast].
  - unfold fetch at 1. match goal with |- context [if ?b then Some _ else None] => replace b with true by lia end. erewrite crun_bind; [|reflexivity]. change (Z.to_nat 4) with 4%nat.
    eapply write_screen_run; [exact Hput|]. destruct (overwrite_after (Z.to_nat o) data sc) as [He|]; [lia| |lia]. unfold put. rewrite He, length_app, length_drop, length_take, length_drop.
    match goal with |- (if ?b then _ else _) = (if ?b' then _ else _) => replace b with true by lia; replace b' with true by lia end. done.
  - unfold fetch at 1. match goal with |- context [if ?b then Some _ else None] => replace b with true by lia end. erewrite crun_bind; [|reflexivity]. change (Z.to_nat 4) with 4%nat.
    replace (Z.to_nat (o - 1)) with (Z.to_nat o - 1)%nat by lia.
    destruct (overwrite_before (Z.to_nat o) data sc) as [He|]; [lia|lia| |lia]. unfold write_screen. erewrite crun_bind; [|reflexivity]. change (scanout (at_screen sc)) with sc.
    assert (Hput' : put sc (o - 1) (take 1 (take 4 (drop (Z.to_nat o - 1) sc)) ++ data) = Some sc').
    { rewrite <- Hput. unfold put. replace (Z.to_nat (o - 1)) with (Z.to_nat o - 1)%nat by lia. rewrite He, length_app, take_take, length_take, length_drop.
      match goal with |- (if ?b then _ else _) = (if ?b' then _ else _) => replace b with true by lia; replace b' with true by lia end. done. }
    rewrite Hput'. reflexivity.
Qed.

Lemma flush_paints area sc : length sc = length (scanout s) -> 0 <= left area -> right area <= i_width g -> 0 <= top area -> bottom area <= i_height g ->
  exists sc', flush area (at_screen sc) = (Ok tt, at_screen sc') /\ paints g (fun px py => covers area px py = true) (back_byte s) sc sc'.
Proof.
  intros Hl H1 H2 H3 H4. pose proof (d_geometry _ Hok) as Hg. unfold flush. eapply (for_paints g at_screen (fun row px py => py = row /\ left area <= px < right area)); [done| |].
  - intros row sc' Hrow Hl'. eapply (for_paints g at_screen (fun column px py => py = row /\ column <= px < column + 1)); [done| |].
    + intros column sc'' Hcol Hl''. apply flush_pixel_paints; [congruence|lia|lia].
    + intros px py k _. cbn beta. split; [intros [-> Hpx]; exists px; lia|intros (i & Hi & -> & Hpx); lia].
  - intros px py k _. unfold covers. split; [intros; exists py; lia|intros (i & Hi & -> & Hpx); lia].
Qed.

End Flushing.
