(* ===== verification/CompositorPicture.v ===== *)
(** * The compositor: the picture

    [picture] says what a pixel of the screen should show: the pointer where it has ink,
    the nearest surface over the pixel otherwise, and nothing where there is none.
    Composing puts it on every damaged tile and leaves the rest of the display alone. *)

From stdpp Require Import base list gmap numbers list_numbers sorting.
From Stdlib Require Import Lia ZifyBool.
From S2P Require Import Prelude NetBytes Compositor CompositorOrder CompositorDamage CompositorDraw.

Definition covering (s : Compositor) (px py : Z) (i : nat) : bool :=
  match surfaces s !! i with Some e => negb (buffer e =? 0) && covers (bounds_of e) px py | None => false end.

Definition nearer (s : Compositor) (best : option nat) (i : nat) : option nat :=
  match best with Some j => if z_at s j <=? z_at s i then Some i else Some j | None => Some i end.

(** The surface seen at a pixel. *)
Definition front_of (s : Compositor) (px py : Z) (l : list nat) : option nat := foldl (fun best i => if covering s px py i then nearer s best i else best) None l.
Definition front (s : Compositor) (px py : Z) : option nat := front_of s px py (seq 0 MAX_SURFACES).

Definition surface_byte (s : Compositor) (i : nat) (px py k : Z) : Z := match surfaces s !! i with Some e => source_byte s e px py k | None => 0 end.

Definition picture (s : Compositor) (px py k : Z) : Z :=
  if pointer_at s px py then pointer_byte s px py
  else match front s px py with Some i => surface_byte s i px py k | None => 0 end.

(** ** The nearest surface *)

Lemma front_of_spec s px py n : match front_of s px py (seq 0 n) with
  | Some i => (i < n)%nat /\ covering s px py i = true /\ forall j, (j < n)%nat -> covering s px py j = true -> j <> i -> below s j i
  | None => forall j, (j < n)%nat -> covering s px py j = false
  end.
Proof.
  induction n as [|n IH]; [cbn; intros; lia|]. unfold front_of in *. rewrite seq_S, foldl_app. cbn [foldl Nat.add]. set (best := foldl _ _ _) in *. clearbody best.
  assert (Hsplit : forall j, (j < S n)%nat -> j = n \/ (j < n)%nat) by lia. destruct (covering s px py n) eqn:Hn.
  - destruct best as [i|]; cbn [nearer].
    + destruct IH as (Hi & Hci & Hall). destruct (Z.leb_spec (z_at s i) (z_at s n)) as [Hle|Hgt]; split_and!; try lia; try done; intros j Hj Hcj Hne; destruct (Hsplit j Hj) as [->|Hj']; try done.
      * destruct (decide (j = i)) as [->|Hji]; [unfold below; lia|]. eapply below_trans; [by apply Hall|]. unfold below; lia.
      * left. lia.
      * by apply Hall.
    + split_and!; [lia|done|]. intros j Hj Hcj Hne. rewrite IH in Hcj by lia. done.
  - destruct best as [i|].
    + destruct IH as (Hi & Hci & Hall). split_and!; [lia|done|]. intros j Hj Hcj Hne. destruct (Hsplit j Hj) as [->|Hj']; [congruence|by apply Hall].
    + intros j Hj. destruct (Hsplit j Hj) as [->|Hj']; [done|by apply IH].
Qed.

Lemma covering_live s px py i : covering s px py i = true -> live s i.
Proof. unfold covering, live. destruct (surfaces s !! i) as [e|]; [|done]. intros Hc. exists e. split; [done|lia]. Qed.

(** What drawing a list of surfaces in turn leaves at a pixel. *)
Definition layered (s : Compositor) (l : list nat) (init : Z) (px py k : Z) : Z := foldl (fun v i => if covering s px py i then surface_byte s i px py k else v) init l.

Lemma layered_spec s l init px py k : StronglySorted (below s) l ->
  (exists i, i ∈ l /\ covering s px py i = true /\ (forall j, j ∈ l -> covering s px py j = true -> j <> i -> below s j i) /\ layered s l init px py k = surface_byte s i px py k) \/
  ((forall j, j ∈ l -> covering s px py j = false) /\ layered s l init px py k = init).
Proof.
  induction l as [|i l IH] using rev_ind; intros Hs; [right; split; [set_solver|done]|]. apply StronglySorted_app in Hs as (Hcross & Hs & _). unfold layered in *. rewrite foldl_app. cbn [foldl].
  destruct (covering s px py i) eqn:Hc.
  - left. exists i. split_and!; [set_solver|done| |done]. intros j [Hj|Hj%list_elem_of_singleton]%elem_of_app Hcj Hne; [|done]. apply Hcross; [done|set_solver].
  - destruct (IH Hs) as [(j & Hj & Hcj & Hall & He) | [Hnone He]].
    + left. exists j. split_and!; [set_solver|done| |done]. intros j' [Hj'|Hj'%list_elem_of_singleton]%elem_of_app Hcj' Hne; [by apply Hall|congruence].
    + right. split; [|done]. intros j [Hj|Hj%list_elem_of_singleton]%elem_of_app; [by apply Hnone|congruence].
Qed.

Lemma layered_front s l px py k : length (surfaces s) = MAX_SURFACES -> placed s MAX_SURFACES l ->
  layered s l 0 px py k = match front s px py with Some i => surface_byte s i px py k | None => 0 end.
Proof.
  intros Hlen (Hs & _ & Hin). assert (Hmem : forall j, covering s px py j = true -> j ∈ l /\ (j < MAX_SURFACES)%nat).
  { intros j Hc. pose proof (covering_live _ _ _ _ Hc) as Hl. pose proof (live_bound _ _ Hl). split; [apply Hin; split; [lia|done]|lia]. }
  pose proof (front_of_spec s px py MAX_SURFACES) as Hf. fold (front s px py) in Hf.
  destruct (layered_spec s l 0 px py k Hs) as [(i & Hi & Hci & Hall & ->) | [Hnone ->]]; destruct (front s px py) as [i'|].
  - destruct Hf as (Hb & Hc' & Hall'). destruct (decide (i = i')) as [->|Hne]; [done|]. exfalso. pose proof (Hall i' (proj1 (Hmem _ Hc')) Hc' ltac:(done)) as B1.
    pose proof (Hall' i (proj2 (Hmem _ Hci)) Hci Hne) as B2. by destruct (below_irrefl s i (below_trans _ _ _ _ B2 B1)).
  - specialize (Hf i (proj2 (Hmem _ Hci))). congruence.
  - destruct Hf as (Hb & Hc' & _). specialize (Hnone _ (proj1 (Hmem _ Hc'))). congruence.
  - done.
Qed.

(** ** Composing *)

Record compositor_ok (s : Compositor) : Prop := {
  c_display : display_ok s;
  c_cursor : cursor_ok s;
  c_surfaces : length (surfaces s) = MAX_SURFACES;
  c_readable : forall i e, surfaces s !! i = Some e -> buffer e <> 0 -> readable s e;
  c_damage : damage_ok (damage s);
  c_grid : i_width (screen s) <= TILE_COLUMNS * tile (damage s) /\ i_height (screen s) <= Z.of_nat TILE_ROWS * tile (damage s);
}.

Section Composing.
Context (s : Compositor) (Hok : compositor_ok s).
Let g := screen s.
Let at_ (bk sc : list Z) : Compositor := set_scanout sc (set_back bk s).

Lemma good_display bk sc : length bk = length (back s) -> length sc = length (scanout s) -> display_ok (at_ bk sc).
Proof. intros Hb Hs. destruct (c_display _ Hok) as [H1 H2 H3 H4 H5]. unfold fits in *. split; cbn [screen back scanout at_ set_scanout set_back]; unfold fits; rewrite ?Hb, ?Hs; done. Qed.

Section Region.
Context (area : Rect) (Harea : 0 <= left area < right area /\ right area <= i_width g /\ 0 <= top area < bottom area /\ bottom area <= i_height g).
Let inside px py := covers area px py = true.

Lemma blits_paint sc b0 l : length b0 = length (back s) -> length sc = length (scanout s) -> Forall (live s) l -> forall src bs, paints g inside src b0 bs ->
  exists bs', for_all l (fun index => s ← get; surface ← slot (surfaces s) index; blit surface area) (at_ bs sc) = (Ok tt, at_ bs' sc) /\
    paints g inside (fun px py k => layered s l (src px py k) px py k) b0 bs'.
Proof.
  intros Hb0 Hsc Hl. pose proof (d_geometry _ (c_display _ Hok)) as Hg. induction Hl as [|i l (e & He & Hb) _ IH]; intros src bs Hp; cbn [for_all]; [by exists bs|].
  assert (Hlb : length bs = length (back s)) by (rewrite (paints_length _ _ _ _ _ Hp); done). pose proof (d_back _ (good_display (back s) sc eq_refl Hsc)) as Hfit.
  destruct (blit_paints (set_scanout sc s) area Hg Hfit Harea e bs Hlb (c_readable _ Hok _ _ He Hb)) as (bs1 & Hrun & Hp1).
  erewrite crun_bind; [|erewrite crun_bind; [|reflexivity]; erewrite crun_bind; [|apply slot_run; exact He]; exact Hrun].
  destruct (IH (fun px py k => if covering s px py i then surface_byte s i px py k else src px py k) bs1) as (bs2 & Hrun2 & Hp2); [|by exists bs2].
  eapply paints_ext; [eapply paints_over with (f'' := fun px py k => if covering s px py i then surface_byte s i px py k else src px py k); [exact Hg| |exact Hp|exact Hp1| |]| |done].
  - intros px py. apply _.
  - intros px py k _ [Hc _]. unfold covering, surface_byte. rewrite He, Hc. replace (buffer e =? 0) with false by lia. done.
  - intros px py k _ Hin Hn. unfold covering. rewrite He. destruct (covers (bounds_of e) px py) eqn:Hc; [by destruct Hn|]. by rewrite andb_false_r.
  - intros px py k _. cbn beta. unfold inside. tauto.
Qed.

Lemma region_paints region l bk sc : placed s MAX_SURFACES l -> intersect region (screen_rect s) = area -> length bk = length (back s) -> length sc = length (scanout s) ->
  exists bk' sc', compose_region l region (at_ bk sc) = (Ok tt, at_ bk' sc') /\ length bk' = length (back s) /\ paints g inside (picture s) sc sc'.
Proof.
  intros Hpl Ha Hlb Hls. pose proof (d_geometry _ (c_display _ Hok)) as Hg. unfold compose_region. erewrite crun_bind; [|reflexivity]. change (screen_rect (at_ bk sc)) with (screen_rect s). rewrite Ha.
  replace (rect_empty area) with false by (unfold rect_empty; lia). pose proof (d_back _ (good_display (back s) sc eq_refl Hls)) as Hfit.
  destruct (clear_paints (set_scanout sc s) area Hg Hfit Harea bk Hlb) as (b1 & Hrun1 & Hp1). erewrite crun_bind; [|exact Hrun1].
  assert (Hlive : Forall (live s) l) by (apply Forall_forall; intros i Hi; apply Hpl in Hi; tauto).
  destruct (blits_paint sc bk l Hlb Hls Hlive _ _ Hp1) as (b2 & Hrun2 & Hp2). erewrite crun_bind; [|exact Hrun2]. pose proof (paints_length _ _ _ _ _ Hp2) as Hl2.
  destruct (draw_cursor_paints (set_scanout sc s) area Hg Hfit Harea b2 ltac:(by rewrite Hl2) (c_cursor _ Hok)) as (b3 & Hrun3 & Hp3). erewrite crun_bind; [|exact Hrun3].
  assert (Hl3 : length b3 = length (back s)) by (rewrite (paints_length _ _ _ _ _ Hp3), Hl2; done).
  assert (Hp : paints g inside (picture s) bk b3).
  { eapply paints_ext; [eapply paints_over with (f'' := picture s); [exact Hg| |exact Hp2|exact Hp3| |]| |done].
    - intros px py. apply _.
    - intros px py k _ [Hc _]. change (pointer_at s px py = true) in Hc. unfold picture. by rewrite Hc.
    - intros px py k _ Hin Hn. unfold picture. destruct (pointer_at s px py) eqn:Hc; [by destruct Hn|]. symmetry. apply layered_front; [apply (c_surfaces _ Hok)|done].
    - intros px py k _. cbn beta. unfold inside. tauto. }
  destruct (flush_paints (at_ b3 sc) (good_display b3 sc Hl3 Hls) area sc eq_refl) as (sc' & Hrun4 & Hp4); [unfold g in *; cbn [screen at_ set_scanout set_back]; lia..|].
  exists b3, sc'. split_and!; [exact Hrun4|done|]. eapply paints_ext; [exact Hp4|done|]. intros px py k Hpx Hin. change (default 0 (b3 !! Z.to_nat (offset_of g px py k)) = picture s px py k).
  rewrite (paints_in _ _ _ _ _ Hp px py k Hpx Hin). done.
Qed.

End Region.

Lemma regions_paint l regions : placed s MAX_SURFACES l -> Forall (fun r => 0 <= left r /\ 0 <= top r) regions -> forall bk sc, length bk = length (back s) -> length sc = length (scanout s) ->
  exists bk' sc', for_all regions (compose_region l) (at_ bk sc) = (Ok tt, at_ bk' sc') /\ length bk' = length (back s) /\
    paints g (fun px py => exists r, r ∈ regions /\ covers r px py = true) (picture s) sc sc'.
Proof.
  intros Hpl Hr. pose proof (d_geometry _ (c_display _ Hok)) as Hg. induction Hr as [|r regions [Hl Ht] _ IH]; intros bk sc Hlb Hls; cbn [for_all].
  - exists bk, sc. split_and!; [done|done|]. apply paints_none. intros px py k _ (r & Hin & _). set_solver.
  - set (area := intersect r (screen_rect s)). assert (Hcov : forall px py k, pixel g px py k -> covers area px py = covers r px py).
    { intros px py k (Hx & Hy & _). unfold area. rewrite covers_intersect. unfold covers at 2, screen_rect. cbn [left right top bottom]. unfold g in *. lia. }
    assert (Hstep : exists bk' sc', compose_region l r (at_ bk sc) = (Ok tt, at_ bk' sc') /\ length bk' = length (back s) /\ paints g (fun px py => covers area px py = true) (picture s) sc sc').
    { destruct (rect_empty area) eqn:He.
      - exists bk, sc. unfold compose_region. erewrite crun_bind; [|reflexivity]. change (screen_rect (at_ bk sc)) with (screen_rect s). fold area. rewrite He. split_and!; [done|done|].
        apply paints_none. intros px py k _. unfold rect_empty, covers in *. lia.
      - apply (region_paints area); try done. unfold area, rect_empty, intersect, screen_rect in *. cbn [left right top bottom] in *. unfold g. lia. }
    destruct Hstep as (b1 & s1 & Hrun1 & Hlb1 & Hp1). erewrite crun_bind; [|exact Hrun1].
    destruct (IH b1 s1 Hlb1 ltac:(rewrite (paints_length _ _ _ _ _ Hp1); done)) as (b2 & s2 & Hrun2 & Hlb2 & Hp2). exists b2, s2. split_and!; [done|done|].
    eapply paints_ext; [eapply paints_again; [exact Hg|exact Hp1|exact Hp2]| |done]. intros px py k Hpx. cbn beta. rewrite (Hcov _ _ _ Hpx). set_solver.
Qed.

Definition undamaged (d : Damage) : Damage := {| rows := replicate TILE_ROWS 0; tile := tile d |}.

Lemma empty_undamaged d : damage_ok d -> damage_empty d = true -> undamaged d = d.
Proof.
  intros (_ & Hl & _) He. destruct d as [rs t]. unfold undamaged. cbn [rows tile] in *. f_equal. apply replicate_as_Forall. split; [done|]. unfold damage_empty in He. cbn [rows] in He.
  apply Forall_forall. intros v Hv. rewrite forallb_forall in He. specialize (He v (proj1 (list_elem_of_In _ _) Hv)). lia.
Qed.

Lemma pixel_on_grid px py k : pixel g px py k -> on_grid (damage s) px py.
Proof. intros (Hx & Hy & _). destruct (c_grid _ Hok). unfold on_grid. unfold g in *. lia. Qed.

(** Composing: the damaged tiles show the picture, and nothing else of the display changes. *)
Lemma compose_runs : exists bk sc, compose s = (Ok tt, set_damage (undamaged (damage s)) (at_ bk sc)) /\ length bk = length (back s) /\
  paints g (fun px py => damaged (damage s) px py = true) (picture s) (scanout s) sc.
Proof.
  unfold compose. erewrite crun_bind; [|reflexivity]. destruct (damage_empty (damage s)) eqn:He.
  - exists (back s), (scanout s). rewrite empty_undamaged by (done || apply (c_damage _ Hok)). split_and!; [unfold at_; by destruct s|done|]. apply paints_none. intros px py k _. by rewrite damage_empty_none.
  - destruct (sorted_by_depth_spec s (c_surfaces _ Hok)) as (count & order & Hrun & Hpl). erewrite crun_bind; [|exact Hrun]. cbn [fst snd].
    destruct (regions_paint (take count order) (drain (damage s)) Hpl) with (bk := back s) (sc := scanout s) as (bk & sc & Hrun2 & Hlb & Hp); [|done|done|].
    { apply Forall_forall. intros r Hr. apply (drain_nonneg _ _ (c_damage _ Hok) Hr). }
    replace (at_ (back s) (scanout s)) with s in Hrun2 by (unfold at_; by destruct s). erewrite crun_bind; [|exact Hrun2]. exists bk, sc. split_and!; [done|done|].
    eapply paints_ext; [exact Hp| |done]. intros px py k Hpx. symmetry. apply drain_spec; [apply (c_damage _ Hok)|by eapply pixel_on_grid].
Qed.

End Composing.
