(* ===== verification/CompositorEvents.v ===== *)
(** * The compositor: what its events do to the screen

    Presenting a surface, moving the pointer and clicking change what the picture should
    be; [accounts] says the damage recorded covers every pixel that changed. *)

From stdpp Require Import base list gmap numbers list_numbers sorting.
From Stdlib Require Import Lia ZifyBool.
From S2P Require Import Prelude NetBytes Compositor CompositorOrder CompositorDamage CompositorDraw CompositorPicture.

(** [s'] is [s] with changes to the picture that its damage covers. *)
Record accounts (s s' : Compositor) : Prop := {
  a_ok : compositor_ok s';
  a_screen : screen s' = screen s;
  a_scanout : scanout s' = scanout s;
  a_memory : memory s' = memory s;
  a_mono : forall px py k, pixel (screen s) px py k -> damaged (damage s) px py = true -> damaged (damage s') px py = true;
  a_picture : forall px py k, pixel (screen s) px py k -> damaged (damage s') px py = true \/ picture s' px py k = picture s px py k;
}.

Lemma accounts_trans s s' s'' : accounts s s' -> accounts s' s'' -> accounts s s''.
Proof.
  intros [H1 H2 H3 H4 H5 H6] [K1 K2 K3 K4 K5 K6]. rewrite H2 in K2, K5, K6. split; [done|done|congruence|congruence|eauto|]. intros px py k Hp.
  destruct (K6 px py k Hp) as [|He]; [by left|]. destruct (H6 px py k Hp) as [Hd|He']; [left; by eapply K5|right; congruence].
Qed.

(** What the picture and the invariant depend on. *)
Definition same_scene (s s' : Compositor) : Prop :=
  screen s' = screen s /\ back s' = back s /\ scanout s' = scanout s /\ surfaces s' = surfaces s /\ memory s' = memory s /\
  cursor_x s' = cursor_x s /\ cursor_y s' = cursor_y s /\ cursor_visible s' = cursor_visible s.

Lemma same_scene_ok s s' : same_scene s s' -> damage_ok (damage s') -> tile (damage s') = tile (damage s) -> compositor_ok s -> compositor_ok s'.
Proof.
  intros (E1 & E2 & E3 & E4 & E5 & E6 & E7 & E8) Hd Ht [[D1 D2 D3 D4 D5] Hc Hs Hr _ Hgr]. split.
  - split; rewrite ?E1, ?E2, ?E3; done.
  - unfold cursor_ok in *. by rewrite E1, E6, E7.
  - by rewrite E4.
  - intros i e He Hb. rewrite E4 in He. specialize (Hr i e He Hb). unfold readable in *. by rewrite E5, E1.
  - done.
  - by rewrite Ht, E1.
Qed.

Lemma same_scene_picture s s' px py k : same_scene s s' -> picture s' px py k = picture s px py k.
Proof.
  intros (E1 & E2 & E3 & E4 & E5 & E6 & E7 & E8). unfold picture, pointer_at, pointer_byte, shape_at, cursor_rect, front, front_of, nearer, covering, z_at, surface_byte, source_byte.
  by rewrite E1, E4, E5, E6, E7, E8.
Qed.

(** Damage, and whatever the picture does not depend on, may change freely. *)
Lemma accounts_scene s s' : same_scene s s' -> compositor_ok s -> damage s' = damage s -> accounts s s'.
Proof.
  intros Hs Hok Hd. split; [|apply Hs..| |]; [| |].
  - eapply same_scene_ok; [done|rewrite Hd; apply (c_damage _ Hok)|by rewrite Hd|done].
  - intros px py k _. by rewrite Hd.
  - intros px py k _. right. by apply same_scene_picture.
Qed.

(** Adding damage keeps what was there, and covers the area. *)
Lemma damage_covers s area px py k : compositor_ok s -> pixel (screen s) px py k -> 0 <= left area -> 0 <= top area ->
  (damaged (damage s) px py = true -> damaged (damage_add area (damage s)) px py = true) /\ (covers area px py = true -> damaged (damage_add area (damage s)) px py = true).
Proof. intros Hok Hp Hl Ht. apply damage_add_spec; [apply (c_damage _ Hok)|by eapply pixel_on_grid|done|done]. Qed.

Lemma tile_add area d : tile (damage_add area d) = tile d.
Proof. unfold damage_add. by destruct (rect_empty area). Qed.

Lemma accounts_damage s area : compositor_ok s -> 0 <= left area -> 0 <= top area -> accounts s (set_damage (damage_add area (damage s)) s).
Proof.
  intros Hok Hl Ht. assert (Hs : same_scene s (set_damage (damage_add area (damage s)) s)) by done. split; try done.
  - eapply same_scene_ok; [done|apply damage_add_ok, (c_damage _ Hok)|apply tile_add|done].
  - intros px py k Hp. by apply (damage_covers s area px py k).
  - intros px py k Hp. right. by apply same_scene_picture.
Qed.

(** ** The surface at a pixel *)

Lemma front_unique s px py i : length (surfaces s) = MAX_SURFACES -> covering s px py i = true -> (forall j, covering s px py j = true -> j <> i -> below s j i) -> front s px py = Some i.
Proof.
  intros Hl Hc Hall. pose proof (front_of_spec s px py MAX_SURFACES) as Hf. fold (front s px py) in Hf. pose proof (live_bound _ _ (covering_live _ _ _ _ Hc)) as Hb.
  destruct (front s px py) as [i'|]; [|rewrite Hf in Hc by lia; done]. destruct Hf as (Hb' & Hc' & Hall'). destruct (decide (i' = i)) as [->|Hne]; [done|].
  exfalso. eapply (below_irrefl s i), below_trans; [apply Hall'; [lia|done|done]|by apply Hall].
Qed.

Lemma front_some s px py i : front s px py = Some i -> covering s px py i = true /\ forall j, (j < MAX_SURFACES)%nat -> covering s px py j = true -> j <> i -> below s j i.
Proof. intros He. pose proof (front_of_spec s px py MAX_SURFACES) as Hf. fold (front s px py) in Hf. rewrite He in Hf. tauto. Qed.

Lemma front_nothing s px py : length (surfaces s) = MAX_SURFACES -> (front s px py = None <-> forall j, covering s px py j = false).
Proof.
  intros Hl. pose proof (front_of_spec s px py MAX_SURFACES) as Hf. fold (front s px py) in Hf. split.
  - intros He j. rewrite He in Hf. destruct (covering s px py j) eqn:Hc; [|done]. rewrite <- Hc. apply Hf. rewrite <- Hl. apply live_bound. by eapply covering_live.
  - intros Hn. destruct (front s px py) as [i|]; [|done]. destruct Hf as (_ & Hc & _). by rewrite Hn in Hc.
Qed.

Lemma covering_bound s px py i : length (surfaces s) = MAX_SURFACES -> covering s px py i = true -> (i < MAX_SURFACES)%nat.
Proof. intros Hl Hc. rewrite <- Hl. apply live_bound. by eapply covering_live. Qed.

(** A surface that is over a pixel neither before nor after a change to it does not
    change the picture there. *)
Lemma picture_update s e' i px py k : length (surfaces s) = MAX_SURFACES -> let s' := set_surfaces (<[i := e']> (surfaces s)) s in
  covering s px py i = false -> covering s' px py i = false -> picture s' px py k = picture s px py k.
Proof.
  intros Hl s' Hc Hc'. assert (Hlook : forall j, j <> i -> surfaces s' !! j = surfaces s !! j) by (intros j Hj; apply list_lookup_insert_ne; done).
  assert (Hcov : forall j, covering s' px py j = covering s px py j) by (intros j; destruct (decide (j = i)) as [->|Hj]; [congruence|unfold covering; by rewrite Hlook]).
  assert (Hz : forall j, j <> i -> z_at s' j = z_at s j) by (intros j Hj; unfold z_at; by rewrite Hlook).
  assert (Hl' : length (surfaces s') = MAX_SURFACES) by (cbn; by rewrite length_insert).
  assert (Hf : front s' px py = front s px py).
  { destruct (front s px py) as [j|] eqn:He.
    - apply front_some in He as [Hcj Hall]. assert (Hji : j <> i) by (intros ->; congruence). apply front_unique; [done|by rewrite Hcov|]. intros j' Hc1 Hne. rewrite Hcov in Hc1. assert (Hji' : j' <> i) by (intros ->; congruence).
      unfold below. rewrite !Hz by done. apply Hall; [exact (covering_bound s px py j' Hl Hc1)|done|done].
    - rewrite front_nothing in He by done. apply front_nothing; [done|]. intros j. by rewrite Hcov. }
  unfold picture. rewrite Hf. change (pointer_at s' px py) with (pointer_at s px py). change (pointer_byte s' px py) with (pointer_byte s px py). destruct (pointer_at s px py); [done|].
  destruct (front s px py) as [j|] eqn:He; [|done]. apply front_some in He as [Hcj _]. assert (Hji : j <> i) by (intros ->; congruence). unfold surface_byte. by rewrite Hlook.
Qed.

(** A surface put in a slot, with damage over where the old one was and the new one is. *)
Lemma accounts_surface s i e' d : compositor_ok s -> (i < MAX_SURFACES)%nat -> (buffer e' <> 0 -> readable s e') -> damage_ok d -> tile d = tile (damage s) ->
  (forall px py k, pixel (screen s) px py k -> damaged (damage s) px py = true \/ covering s px py i = true \/ covers (bounds_of e') px py = true -> damaged d px py = true) ->
  accounts s (set_damage d (set_surfaces (<[i := e']> (surfaces s)) s)).
Proof.
  intros Hok Hi He Hd Ht Hcov. pose proof Hok as [[D1 D2 D3 D4 D5] Hc Hs Hr _ Hgr]. split; try done.
  - split; [done|done|cbn [surfaces set_damage set_surfaces]; by rewrite length_insert| |done|cbn [damage screen set_damage set_surfaces]; by rewrite Ht].
    intros j e Hj Hb. cbn [surfaces set_damage set_surfaces] in Hj. change (readable s e). destruct (decide (j = i)) as [->|Hne]; [rewrite list_lookup_insert_eq in Hj by lia; injection Hj as <-; by apply He|].
    rewrite list_lookup_insert_ne in Hj by done. by apply (Hr j).
  - intros px py k Hp Hdm. apply (Hcov px py k Hp). by left.
  - intros px py k Hp. destruct (damaged d px py) eqn:Hdm; [by left|right]. assert (Hno : ~ (damaged (damage s) px py = true \/ covering s px py i = true \/ covers (bounds_of e') px py = true)) by (intros Hx; rewrite (Hcov px py k Hp Hx) in Hdm; done).
    transitivity (picture (set_surfaces (<[i := e']> (surfaces s)) s) px py k); [by apply same_scene_picture|]. apply picture_update; [done| |].
    + destruct (covering s px py i); [exfalso; tauto|done].
    + unfold covering. cbn [surfaces set_surfaces]. rewrite list_lookup_insert_eq by lia. destruct (covers (bounds_of e') px py); [exfalso; tauto|apply andb_false_r].
Qed.

(** ** Presenting a surface *)

Lemma find_slot_bound h l : forall index found r, find_slot h l index found = Some r -> found = Some r \/ (index <= r < index + length l)%nat.
Proof.
  induction l as [|e l IH]; intros index found r Hr; cbn [find_slot length] in *; [by left|]. destruct (buffer e =? h); [injection Hr as <-; right; lia|].
  apply IH in Hr as [Hr|]; [|right; lia]. destruct ((buffer e =? 0) && bool_decide (found = None)); [injection Hr as <-; right; lia|by left].
Qed.

Lemma readable_corner s e : readable s e -> 0 <= left (bounds_of e) /\ 0 <= top (bounds_of e).
Proof. intros (source & _ & _ & _ & _ & _ & Hx & Hy). cbn. lia. Qed.

Lemma track_accounts s e : compositor_ok s -> readable s e -> exists s', track e s = (Ok tt, s') /\ accounts s s' /\
  exists d l, s' = set_surfaces l (set_damage d s) /\ forall i e', l !! i = Some e' -> surfaces s !! i = Some e' \/ e' = e.
Proof.
  intros Hok He. unfold track. erewrite crun_bind; [|reflexivity]. destruct (find_slot _ _ _ _) as [i|] eqn:Hf; [|exists s; split_and!; [done|by apply accounts_scene|exists (damage s), (surfaces s); split; [by destruct s|by left]]].
  apply find_slot_bound in Hf as [|Hi]; [done|]. rewrite (c_surfaces _ Hok) in Hi. destruct (lookup_lt_is_Some_2 (surfaces s) i) as [old Hold]; [rewrite (c_surfaces _ Hok); lia|].
  erewrite crun_bind; [|by apply slot_run]. destruct (readable_corner _ _ He) as [Hl Ht].
  set (d := if buffer old =? 0 then damage s else damage_add (bounds_of old) (damage s)). exists (set_surfaces (<[i := e]> (surfaces s)) (set_damage (damage_add (bounds_of e) d) s)). split_and!.
  { unfold d. destruct (buffer old =? 0); (erewrite crun_bind; [|reflexivity]); (erewrite crun_bind; [|reflexivity]); destruct s; reflexivity. }
  2:{ exists (damage_add (bounds_of e) d), (<[i := e]> (surfaces s)). split; [done|]. intros j e' Hj. destruct (decide (j = i)) as [->|]; [rewrite list_lookup_insert_eq in Hj by (rewrite (c_surfaces _ Hok); lia); right; congruence|left; by rewrite list_lookup_insert_ne in Hj]. }
  assert (Hmid : accounts s (set_damage d s)).
  { unfold d. destruct (Z.eqb_spec (buffer old) 0) as [|Hb]; [by apply accounts_scene|]. apply accounts_damage; [done|apply (readable_corner s), (c_readable _ Hok i); done..]. }
  apply (accounts_surface s i e (damage_add (bounds_of e) d)); [done|lia|done|apply damage_add_ok, (c_damage _ (a_ok _ _ Hmid))| |].
  - rewrite tile_add. unfold d. destruct (buffer old =? 0); [done|apply tile_add].
  - intros px py k Hp Hor. destruct (damage_covers (set_damage d s) (bounds_of e) px py k (a_ok _ _ Hmid) Hp Hl Ht) as [Hkeep Hcov]. destruct Hor as [Hd|[Hd|Hd]].
    + apply Hkeep. by apply (a_mono _ _ Hmid px py k Hp).
    + apply Hkeep. unfold covering in Hd. rewrite Hold in Hd. unfold d. cbn [damage set_damage]. destruct (Z.eqb_spec (buffer old) 0) as [|Hb]; [done|]. cbn [negb andb] in Hd.
      apply (damage_covers s (bounds_of old) px py k Hok Hp); [apply (readable_corner s), (c_readable _ Hok i); done..|done].
    + by apply Hcov.
Qed.

(** ** Clicking *)

(** Which surface a click finds: the one seen there. *)
Lemma hit_in_spec s px py l : StronglySorted (below s) l -> Forall (live s) l -> exists hit, hit_in (reverse l) px py s = (Ok hit, s) /\
  match hit with
  | Some i => i ∈ l /\ covering s px py i = true /\ forall j, j ∈ l -> covering s px py j = true -> j <> i -> below s j i
  | None => forall j, j ∈ l -> covering s px py j = false
  end.
Proof.
  induction l as [|i l IH] using rev_ind; intros Hs Hl; [exists None; split; [done|set_solver]|]. apply StronglySorted_app in Hs as (Hcross & Hs & _). apply Forall_app in Hl as [Hl (e & He & Hb)%Forall_singleton].
  rewrite reverse_snoc. cbn [hit_in]. erewrite crun_bind; [|reflexivity]. erewrite crun_bind; [|by apply slot_run].
  assert (Hcov : covering s px py i = covers (bounds_of e) px py) by (unfold covering; rewrite He; replace (buffer e =? 0) with false by lia; done). rewrite <- Hcov. destruct (covering s px py i) eqn:Hc.
  - exists (Some i). split; [done|]. split_and!; [set_solver|done|]. intros j [Hj|Hj%list_elem_of_singleton]%elem_of_app Hcj Hne; [apply Hcross; [done|set_solver]|done].
  - destruct (IH Hs Hl) as ([j|] & Hrun & Hspec); [exists (Some j)|exists None]; (split; [done|]).
    + destruct Hspec as (Hj & Hcj & Hall). split_and!; [set_solver|done|]. intros j' [Hj'|Hj'%list_elem_of_singleton]%elem_of_app Hcj' Hne; [by apply Hall|congruence].
    + intros j [Hj|Hj%list_elem_of_singleton]%elem_of_app; [by apply Hspec|congruence].
Qed.

(** The slot nearest the viewer of all. *)
Definition topmost (s : Compositor) (t : nat) : Prop := live s t /\ forall j, live s j -> j <> t -> below s j t.

(** What a click at a pixel does: the owner of the surface seen there has the keyboard,
    and the surface goes above the topmost one. *)
Definition raised (s : Compositor) (px py : Z) (s' : Compositor) : Prop :=
  match front s px py with
  | None => s' = set_focus None s
  | Some i => exists t e e_top, topmost s t /\ surfaces s !! i = Some e /\ surfaces s !! t = Some e_top /\
      s' = set_focus (Some (owner e)) (if (t =? i)%nat then s else
        let e' := set_z (wrap (z e_top + 1)) e in set_damage (damage_add (bounds_of e') (damage s)) (set_surfaces (<[i := e']> (surfaces s)) s))
  end.

Lemma raise_at_spec s px py : length (surfaces s) = MAX_SURFACES -> exists s', raise_at px py s = (Ok tt, s') /\ raised s px py s'.
Proof.
  intros Hlen. unfold raise_at. destruct (sorted_by_depth_spec s Hlen) as (count & order & Hrun & Hs & _ & Hin). erewrite crun_bind; [|exact Hrun]. cbn [fst snd]. set (l := take count order) in *. clearbody l.
  assert (Hmem : forall j, live s j -> j ∈ l) by (intros j Hj; apply Hin; split; [rewrite <- Hlen; by apply live_bound|done]).
  assert (Hlive : Forall (live s) l) by (apply Forall_forall; intros j Hj; by apply Hin).
  destruct (hit_in_spec s px py l Hs Hlive) as (hit & Hrun2 & Hhit). erewrite crun_bind; [|exact Hrun2]. unfold raised. destruct hit as [i|].
  - destruct Hhit as (Hi & Hc & Hall). rewrite (front_unique s px py i Hlen Hc) by (intros j Hcj; apply Hall; [by eapply Hmem, covering_live|done]).
    destruct l as [|t l' _] using rev_ind; [set_solver|]. apply StronglySorted_app in Hs as (Hcross & _ & _). apply Forall_app in Hlive as [_ Ht]. rewrite Forall_singleton in Ht.
    pose proof Ht as (e_top & Htop & _). destruct (covering_live _ _ _ _ Hc) as (e & He & _).
    erewrite crun_bind; [|reflexivity]. erewrite crun_bind; [|apply slot_run; rewrite length_app, Nat.add_sub; apply list_lookup_middle; done].
    assert (Htm : topmost s t). { split; [done|]. intros j Hj Hne. specialize (Hmem j Hj). apply Hcross; [set_solver|set_solver]. }
    destruct (t =? i)%nat eqn:Hti.
    + eexists. split; [erewrite crun_bind; [|reflexivity]; erewrite crun_bind; [|apply slot_run; exact He]; reflexivity|]. exists t, e, e_top. by rewrite Hti.
    + eexists. split; [erewrite crun_bind; [|erewrite crun_bind; [|apply slot_run; exact Htop]; erewrite crun_bind; [|apply slot_run; exact He]; erewrite crun_bind; [|reflexivity]; reflexivity]; erewrite crun_bind; [|apply slot_run; exact He]; reflexivity|].
      exists t, e, e_top. by rewrite Hti.
  - rewrite (proj2 (front_nothing s px py Hlen)); [by eexists|]. intros j. destruct (covering s px py j) eqn:Hc; [|done]. rewrite <- Hc. apply Hhit. by eapply Hmem, covering_live.
Qed.

Lemma raised_accounts s px py s' : compositor_ok s -> raised s px py s' -> accounts s s'.
Proof.
  intros Hok. unfold raised. destruct (front s px py) as [i|] eqn:Hf; [|intros ->; by apply accounts_scene]. intros (t & e & e_top & _ & He & _ & ->).
  apply front_some in Hf as [Hc _]. assert (Hb : buffer e <> 0) by (unfold covering in Hc; rewrite He in Hc; lia). pose proof (c_readable _ Hok _ _ He Hb) as Hr. destruct (readable_corner _ _ Hr) as [Hl Ht].
  destruct (t =? i)%nat; [by apply accounts_scene|]. cbv zeta. set (e' := set_z _ e).
  assert (Hup : accounts s (set_damage (damage_add (bounds_of e') (damage s)) (set_surfaces (<[i := e']> (surfaces s)) s))).
  { apply accounts_surface; [done|by eapply covering_bound; [apply (c_surfaces _ Hok)|exact Hc]|done|apply damage_add_ok, (c_damage _ Hok)|apply tile_add|].
    intros px' py' k Hp Hor. destruct (damage_covers s (bounds_of e') px' py' k Hok Hp Hl Ht) as [Hkeep Hcov]. destruct Hor as [Hd|[Hd|Hd]]; [by apply Hkeep| |by apply Hcov].
    apply Hcov. unfold covering in Hd. rewrite He in Hd. by apply andb_true_iff in Hd as [_ Hd]. }
  eapply accounts_trans; [exact Hup|]. apply accounts_scene; [done|apply (a_ok _ _ Hup)|done].
Qed.

(** ** The pointer *)

Lemma front_surfaces s s' px py : surfaces s' = surfaces s -> front s' px py = front s px py.
Proof. intros He. unfold front, front_of, nearer, covering, z_at. by rewrite He. Qed.

(** Where neither the old pointer nor the new one is, the picture is the same. *)
Lemma picture_pointer s s' px py k : surfaces s' = surfaces s -> memory s' = memory s -> screen s' = screen s ->
  cursor_visible s && covers (cursor_rect s) px py = false -> covers (cursor_rect s') px py = false -> picture s' px py k = picture s px py k.
Proof.
  intros Hs Hm Hg Hold Hnew. unfold picture, pointer_at. rewrite Hold, Hnew, andb_false_r, !andb_false_l, (front_surfaces s s') by done. destruct (front s px py); [|done].
  unfold surface_byte, source_byte. by rewrite Hs, Hm, Hg.
Qed.

(** The state once the pointer has moved. *)
Definition moved (s : Compositor) (cx cy b : Z) : Compositor :=
  let d := if cursor_visible s then damage_add (cursor_rect s) (damage s) else damage s in
  let s1 := set_cursor_visible true (set_cursor_y cy (set_cursor_x cx (set_damage d s))) in
  set_buttons b (set_damage (damage_add (cursor_rect s1) d) s1).

Lemma moved_accounts s cx cy b : compositor_ok s -> 0 <= cx < i_width (screen s) -> 0 <= cy < i_height (screen s) -> accounts s (moved s cx cy b).
Proof.
  intros Hok Hx Hy. unfold moved. set (d := if cursor_visible s then _ else _). cbv zeta. set (s1 := set_cursor_visible true _).
  assert (Hmid : accounts s (set_damage d s)).
  { unfold d. destruct (cursor_visible s); [|by apply accounts_scene]. destruct (c_cursor _ Hok). apply accounts_damage; [done|cbn; lia|cbn; lia]. }
  pose proof (a_ok _ _ Hmid) as [[D1 D2 D3 D4 D5] _ Hs Hr Hd Hgr].
  assert (Hok1 : compositor_ok s1) by (split; [split; done|split; done|done|done|done|done]).
  assert (Hok2 : accounts s1 (set_damage (damage_add (cursor_rect s1) d) s1)) by (apply (accounts_damage s1 (cursor_rect s1)); [done|cbn; lia|cbn; lia]).
  assert (Hcov : forall px py k, pixel (screen s) px py k -> covers (cursor_rect s1) px py = true -> damaged (damage_add (cursor_rect s1) d) px py = true).
  { intros px py k Hp. apply (damage_covers s1 (cursor_rect s1) px py k Hok1 Hp); cbn; lia. }
  apply (accounts_trans _ (set_damage (damage_add (cursor_rect s1) d) s1)); [|apply accounts_scene; [done|exact (a_ok _ _ Hok2)|done]]. split; [apply (a_ok _ _ Hok2)|done|done|done| |].
  - intros px py k Hp Hdm. apply (a_mono _ _ Hok2 px py k Hp). by apply (a_mono _ _ Hmid px py k Hp).
  - intros px py k Hp. destruct (damaged (damage (set_damage (damage_add (cursor_rect s1) d) s1)) px py) eqn:Hdm; [by left|right]. apply picture_pointer; try done.
    + destruct (cursor_visible s && covers (cursor_rect s) px py) eqn:Hc; [|done]. exfalso. apply andb_true_iff in Hc as [Hv Hc]. assert (Hd1 : damaged d px py = true).
      { unfold d. rewrite Hv. destruct (c_cursor _ Hok). apply (damage_covers s (cursor_rect s) px py k Hok Hp); [cbn; lia|cbn; lia|done]. }
      pose proof (a_mono _ _ Hok2 px py k Hp Hd1) as Hd2. congruence.
    + destruct (covers (cursor_rect s1) px py) eqn:Hc; [|done]. pose proof (Hcov px py k Hp Hc) as Hd2. cbn [damage set_damage] in Hdm. congruence.
Qed.

Definition clamped (v limit : Z) : Z := Z.max 0 (Z.min v (limit - 1)).

Lemma pointer_spec s dx dy b cx cy : compositor_ok s -> cx = clamped (to_i64 (wrap (cursor_x s + dx))) (i_width (screen s)) -> cy = clamped (to_i64 (wrap (cursor_y s + dy))) (i_height (screen s)) ->
  0 <= cx < i_width (screen s) /\ 0 <= cy < i_height (screen s) /\ exists s', pointer dx dy b s = (Ok tt, s') /\
  ((Z.land (Z.land b (Z.lxor U64_MAX (buttons s))) 1 =? 0) = true -> s' = moved s cx cy b) /\
  ((Z.land (Z.land b (Z.lxor U64_MAX (buttons s))) 1 =? 0) = false -> raised (moved s cx cy b) cx cy s').
Proof.
  intros Hok Ecx Ecy. destruct (c_cursor _ Hok) as [Hx Hy]. unfold pointer. assert (Hcx : 0 <= cx < i_width (screen s)) by (subst cx; unfold clamped; lia).
  assert (Hcy : 0 <= cy < i_height (screen s)) by (subst cy; unfold clamped; lia). split; [done|]. split; [done|].
  destruct (raise_at_spec (moved s cx cy b) cx cy) as (s' & Hrun & Hr); [apply (c_surfaces _ (a_ok _ _ (moved_accounts s cx cy b Hok Hcx Hcy)))|].
  set (press := Z.land (Z.land b (Z.lxor U64_MAX (buttons s))) 1 =? 0). exists (if press then moved s cx cy b else s'). split; [|split; intros Hp; rewrite Hp; done].
  erewrite crun_bind; [|reflexivity]. erewrite crun_bind; [|instantiate (1 := set_damage (if cursor_visible s then damage_add (cursor_rect s) (damage s) else damage s) s); instantiate (1 := tt); destruct s as [???????[]???????]; reflexivity].
  unfold clamp. replace (i_width (screen s) - 1 <? 0) with false by lia. replace (i_height (screen s) - 1 <? 0) with false by lia. do 2 (erewrite crun_bind; [|reflexivity]). unfold clamped in Ecx, Ecy. rewrite <- Ecx, <- Ecy.
  do 4 (erewrite crun_bind; [|reflexivity]). change (buttons _) with (buttons s). fold press. destruct press; [reflexivity|exact Hrun].
Qed.

Lemma pointer_accounts s dx dy b : compositor_ok s -> exists s', pointer dx dy b s = (Ok tt, s') /\ accounts s s'.
Proof.
  intros Hok. destruct (pointer_spec s dx dy b _ _ Hok eq_refl eq_refl) as (Hx & Hy & s' & Hrun & Hmv & Hrs). exists s'. split; [done|]. pose proof (moved_accounts s _ _ b Hok Hx Hy) as Hm.
  destruct (Z.land _ 1 =? 0) in Hmv, Hrs; [by rewrite Hmv|]. eapply accounts_trans; [exact Hm|]. eapply raised_accounts; [apply (a_ok _ _ Hm)|by apply Hrs].
Qed.
