(* ===== verification/CompositorTheorems.v ===== *)
(** * The compositor: its results

    Whatever its clients send, the compositor never faults and the display keeps showing
    the picture; a client cannot move the pointer, type, or take the keys of another that
    listens; a click raises the surface seen under it and gives its owner the keyboard. *)

From stdpp Require Import base list gmap numbers list_numbers sorting.
From Stdlib Require Import Lia ZifyBool.
From S2P Require Import Prelude NetBytes Compositor CompositorOrder CompositorDamage CompositorDraw CompositorPicture CompositorEvents.

(** ** The display *)

(** A byte of the display is the picture's. *)
Definition shows (s : Compositor) (px py k : Z) : Prop := scanout s !! Z.to_nat (offset_of (screen s) px py k) = Some (picture s px py k).

(** From [s] to [s'] no pixel goes wrong, one whose picture changes is right, and no byte
    changes but to the picture's. *)
Record tells (s s' : Compositor) : Prop := {
  t_ok : compositor_ok s';
  t_screen : screen s' = screen s;
  t_memory : memory s' = memory s;
  t_keeps : forall px py k, pixel (screen s) px py k -> shows s px py k -> shows s' px py k;
  t_changed : forall px py k, pixel (screen s) px py k -> picture s' px py k <> picture s px py k -> shows s' px py k;
  t_only : forall o, (forall px py k, pixel (screen s) px py k -> shows s' px py k -> o <> Z.to_nat (offset_of (screen s) px py k)) -> scanout s' !! o = scanout s !! o;
}.

Lemma tells_scene s s' : compositor_ok s -> same_scene s s' -> damage s' = damage s -> tells s s'.
Proof.
  intros Hok Hs Hd. pose proof Hs as (E1 & E2 & E3 & E4 & E5 & _). split; try done.
  - apply (a_ok s). by apply accounts_scene.
  - intros px py k _ Hsh. unfold shows in *. by rewrite E1, E3, same_scene_picture with (s := s).
  - intros px py k _ Hne. destruct Hne. by apply same_scene_picture.
  - intros o _. by rewrite E3.
Qed.

Lemma tells_trans s s' s'' : tells s s' -> tells s' s'' -> tells s s''.
Proof.
  intros [H1 H2 H3 H4 H5 H6] [K1 K2 K3 K4 K5 K6]. rewrite H2 in K2, K4, K5, K6. split; [done|done|congruence|eauto| |].
  - intros px py k Hp Hne. destruct (decide (picture s'' px py k = picture s' px py k)) as [He|]; [|by apply K5]. apply K4; [done|]. apply H5; [done|congruence].
  - intros o Hn. rewrite K6 by done. apply H6. intros px py k Hp Hs. apply Hn; [done|by apply K4].
Qed.

(** Composing settles the damage. *)
Lemma compose_tells s s1 : accounts s s1 -> exists s', compose s1 = (Ok tt, s') /\ tells s s' /\ damage_empty (damage s') = true.
Proof.
  intros [A1 A2 A3 A4 A5 A6]. destruct (compose_runs s1 A1) as (bk & sc & Hrun & Hlb & Hp). eexists. split; [exact Hrun|].
  set (s' := set_damage _ _). assert (Hpic : forall px py k, picture s' px py k = picture s1 px py k).
  { intros px py k. unfold picture, pointer_at, pointer_byte, shape_at, cursor_rect, front, front_of, nearer, covering, z_at, surface_byte, source_byte. reflexivity. }
  pose proof (d_geometry _ (c_display _ A1)) as Hg.
  assert (Hdam : forall px py k, pixel (screen s) px py k -> damaged (damage s1) px py = true -> shows s' px py k).
  { intros px py k Hpx Hd. unfold shows. rewrite Hpic. rewrite <- A2 in Hpx. apply (paints_in _ _ _ _ _ Hp); done. }
  assert (Hund : forall px py k, pixel (screen s) px py k -> damaged (damage s1) px py <> true -> scanout s' !! Z.to_nat (offset_of (screen s) px py k) = scanout s !! Z.to_nat (offset_of (screen s) px py k)).
  { intros px py k Hpx Hd. rewrite <- A2 in Hpx |- *. rewrite <- A3. apply (paints_keeps _ _ _ _ _ _ _ _ Hg Hp); done. }
  split; [split|].
  - pose proof A1 as [_ Hc Hs Hr Hd Hgr]. destruct (good_display s1 A1 bk sc Hlb (paints_length _ _ _ _ _ Hp)) as [D1 D2 D3 D4 D5]. split; [by split|done|done|done| |done].
    destruct Hd as (Ht & _ & _). split_and!; [done|apply length_replicate|apply Forall_replicate; lia].
  - done.
  - done.
  - intros px py k Hpx Hsh. destruct (decide (damaged (damage s1) px py = true)) as [Hd|Hd]; [by apply Hdam|]. unfold shows. change (screen s') with (screen s1). rewrite A2, Hund, Hpic by done.
    destruct (A6 px py k Hpx) as [|He]; [done|]. by rewrite He.
  - intros px py k Hpx Hne. rewrite Hpic in Hne. destruct (A6 px py k Hpx) as [Hd|]; [by apply Hdam|done].
  - intros o Hn. rewrite <- A3. apply (paints_out _ _ _ _ _ Hp). intros px py k Hpx Hd. rewrite A2 in Hpx |- *. by apply Hn, Hdam.
  - apply forallb_forall. intros v Hv%list_elem_of_In. cbn [damage set_damage s' rows undamaged] in Hv. by apply elem_of_replicate in Hv as [-> _].
Qed.

(** ** Messages *)

Section Messages.
Context `{Display}.

(** What the kernel grants is mapped, and as large as it says. *)
Definition granted_ok (s : Compositor) : Prop := forall handle at_ info, granted handle = Some (at_, info) -> exists source, memory s !! at_ = Some source /\
  i_stride info * i_height info <= Z.of_nat (length source) /\ i_width info * i_bytes_per_pixel (screen s) <= i_stride info /\ 0 <= i_width info < 2 ^ 32 /\ 0 <= i_height info < 2 ^ 32.

Definition words_ok (m : Message) : Prop := let '(a, b, c, d) := m_words m in Forall (fun v => 0 <= v < 2 ^ 64) [a; b; c; d].

Lemma adopt_readable s handle px py pz sender e : granted_ok s -> 0 <= px < 2 ^ 64 -> 0 <= py < 2 ^ 64 -> adopt handle px py pz sender = Some e -> readable s e.
Proof.
  intros Hgr Hx Hy Ha. unfold adopt in Ha. destruct (granted handle) as [[at_ info]|] eqn:Hg; [|done]. injection Ha as <-. destruct (Hgr _ _ _ Hg) as (source & Hm & H1 & H2 & H3 & H4). by exists source.
Qed.

Lemma key_scene s words : exists s', key words s = (Ok tt, s') /\ same_scene s s' /\ damage s' = damage s.
Proof. unfold key. erewrite crun_bind; [|reflexivity]. destruct (focus s) as [thread|]; [destruct (endpoint_of thread (listeners s))|]; by eexists. Qed.

Lemma listen_scene s thread endpoint : exists s', listen thread endpoint s = (Ok tt, s') /\ same_scene s s' /\ damage s' = damage s.
Proof. unfold listen. erewrite crun_bind; [|reflexivity]. cbv zeta. match goal with |- context [match ?o with Some _ => modify _ | None => _ end] => destruct o end; by eexists. Qed.

Lemma message_tells s m : compositor_ok s -> granted_ok s -> words_ok m -> let '(a, b, c, d) := m_words m in
  exists s', message (m_sender m) (m_tag m) a b c d s = (Ok tt, s') /\ tells s s'.
Proof.
  intros Hok Hgr Hw. unfold words_ok in Hw. destruct (m_words m) as [[[a b] c] d]. rewrite !Forall_cons in Hw. destruct Hw as (Ha & Hb & Hc & Hd & _).
  assert (Hstay : forall s', same_scene s s' -> damage s' = damage s -> tells s s') by (intros; by apply tells_scene).
  unfold message. erewrite crun_bind; [|reflexivity]. cbv zeta. repeat match goal with |- context [if ?b then _ else _] => destruct b end.
  - eexists. split; [reflexivity|by apply Hstay].
  - eexists. split; [reflexivity|by apply Hstay].
  - destruct (pointer_accounts s (to_i64 a) (to_i64 b) c Hok) as (s1 & Hrun & Hacc). erewrite crun_bind; [|exact Hrun]. destruct (compose_tells s s1 Hacc) as (s' & Hrun' & Ht & _). by exists s'.
  - destruct (key_scene s [a; b; c; d]) as (s' & Hrun & Hs & Hdm). exists s'. split; [done|by apply Hstay].
  - destruct (listen_scene s (m_sender m) a) as (s' & Hrun & Hs & Hdm). exists s'. split; [done|by apply Hstay].
  - destruct (adopt a b c d (m_sender m)) as [e|] eqn:He; [|eexists; split; [reflexivity|by apply Hstay]].
    destruct (track_accounts s e Hok (adopt_readable s _ _ _ _ _ _ Hgr Hb Hc He)) as (s1 & Hrun & Hacc & _). erewrite crun_bind; [|exact Hrun].
    destruct (compose_tells s s1 Hacc) as (s' & Hrun' & Ht & _). by exists s'.
  - eexists. split; [reflexivity|by apply Hstay].
Qed.

Lemma granted_ok_same s s' : memory s' = memory s -> screen s' = screen s -> granted_ok s -> granted_ok s'.
Proof. intros Hm Hs Hg. unfold granted_ok in *. by rewrite Hm, Hs. Qed.

Lemma serve_tells received : forall s, compositor_ok s -> granted_ok s -> Forall words_ok received -> exists s', serve received s = (Ok tt, s') /\ tells s s'.
Proof.
  induction received as [|m rest IH]; intros s Hok Hgr Hw; cbn [serve]; [exists s; split; [done|by apply tells_scene]|]. apply Forall_cons in Hw as [Hm Hw].
  pose proof (message_tells s m Hok Hgr Hm) as Hone. destruct (m_words m) as [[[a b] c] d]. destruct Hone as (s1 & Hrun & Ht). erewrite crun_bind; [|exact Hrun]. erewrite crun_bind; [|reflexivity].
  destruct (exited s1); [by exists s1|]. destruct (IH s1) as (s' & Hrun' & Ht'); [apply (t_ok _ _ Ht)|eapply granted_ok_same; [apply (t_memory _ _ Ht)|apply (t_screen _ _ Ht)|done]|done|].
  exists s'. split; [done|]. by eapply tells_trans.
Qed.

End Messages.

(** A display the compositor can work with: it has pixels, its rows follow one another with
    no padding, and its memory holds them. *)
Record plain_display (info : BufferInfo) (display : list Z) : Prop := {
  pd_geometry : geometry info;
  pd_pixels : 0 < i_width info /\ 0 < i_height info;
  pd_rows : i_stride info = i_width info * i_bytes_per_pixel info;
  pd_fits : fits info display;
  pd_size : i_size info = Z.of_nat (length display);
  pd_store : i_bytes_per_pixel info = 3 -> 4 <= i_size info;
}.

(** The compositor as it starts. *)
Lemma new_ok info display left clients : plain_display info display -> compositor_ok (compositor_new info display left clients).
Proof.
  intros [Hg [Hw Hh] Hrow Hd Hs Hst]. pose proof (g_depth _ Hg) as Hdepth. split.
  - split; cbn [compositor_new screen back scanout]; try done. unfold fits, back_size. rewrite length_fmap, length_seq, Hrow. lia.
  - split; cbn [cursor_x cursor_y compositor_new screen]; (split; [apply Z.div_pos; lia|apply Z.div_lt; lia]).
  - apply length_replicate.
  - intros i e He Hb. apply lookup_replicate in He as [-> _]. done.
  - apply damage_new_ok.
  - cbn [damage compositor_new screen]. pose proof (damage_new_grid (i_width info) (i_height info) (i_width info - 1) (i_height info - 1) ltac:(lia) ltac:(lia) ltac:(lia) ltac:(lia)) as [Hx Hy]. lia.
Qed.

Module Screen.
Section Screen.
Context `{Display}.


End Screen.
End Screen.

(** ** Who may do what *)

(** What only input may change. *)
Definition same_input (s s' : Compositor) : Prop :=
  cursor_x s' = cursor_x s /\ cursor_y s' = cursor_y s /\ buttons s' = buttons s /\ focus s' = focus s /\ input_source s' = input_source s /\ sent s' = sent s /\ exited s' = exited s.

Lemma first_such_spec {A} (P : A -> bool) l i : first_such P l = Some i -> exists a, l !! i = Some a /\ P a = true.
Proof.
  revert i. induction l as [|a l IH]; intros i Hi; cbn [first_such] in Hi; [done|]. destruct (P a) eqn:Ha; [injection Hi as <-; by exists a|].
  destruct (first_such P l) as [j|]; [|done]. injection Hi as <-. destruct (IH j eq_refl) as (b & Hb & Hp). by exists b.
Qed.

Lemma endpoint_of_cons thread e l : endpoint_of thread (e :: l) = if (e.1 =? thread) && negb (e.2 =? 0) then Some e.2 else endpoint_of thread l.
Proof. unfold endpoint_of. cbn [first_such]. destruct ((e.1 =? thread) && negb (e.2 =? 0)); [done|]. by destruct (first_such _ l). Qed.

(** An entry that is not a thread's does not decide where its keys go. *)
Lemma endpoint_of_insert thread l i old new : l !! i = Some old -> (old.1 =? thread) && negb (old.2 =? 0) = false -> (new.1 =? thread) && negb (new.2 =? 0) = false ->
  endpoint_of thread (<[i := new]> l) = endpoint_of thread l.
Proof.
  revert i. induction l as [|e l IH]; intros [|i] Hi Ho Hn; try done.
  - injection Hi as ->. cbn [insert list_insert]. by rewrite !endpoint_of_cons, Ho, Hn.
  - change (<[S i := new]> (e :: l)) with (e :: <[i := new]> l). rewrite !endpoint_of_cons. by rewrite (IH i).
Qed.

Lemma listen_others s sender endpoint s' r thread : listen sender endpoint s = (r, s') -> thread <> sender ->
  endpoint_of thread (listeners s') = endpoint_of thread (listeners s) /\ same_input s s' /\ surfaces s' = surfaces s.
Proof.
  intros Hrun Hne. unfold listen in Hrun. rewrite (crun_bind _ _ _ s s) in Hrun by reflexivity. cbv zeta in Hrun.
  match type of Hrun with context [match ?o with Some _ => modify _ | None => _ end] => destruct o as [i|] eqn:Ho end; [|injection Hrun as <- <-; done].
  injection Hrun as <- <-. split; [|done]. cbn [listeners set_listeners].
  destruct (first_such (fun e => e.1 =? sender) (listeners s)) as [j|] eqn:Hj.
  - injection Ho as <-. apply first_such_spec in Hj as (a & Ha & Hp). eapply endpoint_of_insert; [done|lia|cbn; lia].
  - apply first_such_spec in Ho as (a & Ha & Hp). eapply endpoint_of_insert; [done|lia|cbn; lia].
Qed.

(** A message from neither the kernel nor the input daemon. *)
Definition stranger (s : Compositor) (sender : Z) : Prop := sender <> KERNEL_SENDER /\ input_source s <> Some sender.

Lemma present_others s e sender : compositor_ok s -> readable s e -> owner e = sender -> exists s', (track e ;; compose) s = (Ok tt, s') /\ same_input s s' /\ listeners s' = listeners s /\
  forall i e', surfaces s' !! i = Some e' -> surfaces s !! i = Some e' \/ owner e' = sender.
Proof.
  intros Hok He Ho. destruct (track_accounts s e Hok He) as (s1 & Hrun & Hacc & d & l & -> & Hl). destruct (compose_runs _ (a_ok _ _ Hacc)) as (bk & sc & Hrun' & _ & _).
  eexists. split; [erewrite crun_bind; [|exact Hrun]; exact Hrun'|]. split_and!; [done|done|]. intros i e' Hi. destruct (Hl i e' Hi) as [| ->]; auto.
Qed.

Module Authority.
Section Authority.
Context `{Display}.

(** C34: a client cannot type. A message from a thread that is neither the kernel nor the
    input daemon the kernel named moves no pointer, presses no button, changes no focus and
    sends no key, shuts nothing down and names no input daemon; it changes where no other
    thread's keys go, and every surface it changes becomes the sender's own. *)
Theorem client_cannot_type s sender tag a b c d : compositor_ok s -> granted_ok s -> Forall (fun v => 0 <= v < 2 ^ 64) [a; b; c; d] -> stranger s sender ->
  exists s', message sender tag a b c d s = (Ok tt, s') /\ same_input s s' /\ (forall thread, thread <> sender -> endpoint_of thread (listeners s') = endpoint_of thread (listeners s)) /\
    forall i e, surfaces s' !! i = Some e -> surfaces s !! i = Some e \/ owner e = sender.
Proof.
  intros Hok Hgr Hw [Hk Hi]. rewrite !Forall_cons in Hw. destruct Hw as (_ & Hb & Hc & _ & _). unfold message. erewrite crun_bind; [|reflexivity]. cbv zeta.
  replace (sender =? KERNEL_SENDER) with false by lia. rewrite bool_decide_eq_false_2 by done. cbn [orb]. rewrite !andb_false_r.
  destruct (tag =? TAG_LISTEN).
  { destruct (listen_scene s sender a) as (s' & Hrun & _). exists s'. split; [done|]. pose proof (listen_others s sender a s' _ (sender + 1) Hrun ltac:(lia)) as (_ & Hin & Hs).
    split_and!; [done| |intros i e; rewrite Hs; by left]. intros thread Hne. by apply (listen_others s sender a s' (Ok tt) thread). }
  destruct (tag =? TAG_PRESENT); [|exists s; split_and!; auto; done]. destruct (adopt a b c d sender) as [e|] eqn:He; [|exists s; split_and!; auto; done].
  assert (Ho : owner e = sender) by (unfold adopt in He; destruct (granted a) as [[at_ info]|]; [by injection He as <-|done]).
  destruct (present_others s e sender Hok (adopt_readable s _ _ _ _ _ _ Hgr Hb Hc He) Ho) as (s' & Hrun & Hin & Hl & Hs). exists s'. split_and!; [done|done| |done]. intros thread _. by rewrite Hl.
Qed.

End Authority.
End Authority.

(** ** Clicks *)

(** A surface above every other is the one seen wherever it is. *)
Lemma topmost_front s px py i : length (surfaces s) = MAX_SURFACES -> topmost s i -> covering s px py i = true -> front s px py = Some i.
Proof. intros Hl [_ Hall] Hc. apply front_unique; [done|done|]. intros j Hcj Hne. apply Hall; [by eapply covering_live|done]. Qed.

Lemma raised_topmost s px py s' i : length (surfaces s) = MAX_SURFACES -> front s px py = Some i -> (forall j e, surfaces s !! j = Some e -> 0 <= z e < U64_MAX) -> raised s px py s' ->
  topmost s' i /\ covering s' px py i = true.
Proof.
  intros Hl Hf Hz. unfold raised. rewrite Hf. intros (t & e & e_top & Ht & He & Htop & ->). apply front_some in Hf as [Hc _]. destruct (Nat.eqb_spec t i) as [->|Hne]; [split; [exact Ht|exact Hc]|].
  cbv zeta. set (e' := set_z _ e). assert (Hz' : z e' = z e_top + 1) by (unfold e', U64_MAX in *; cbn [z set_z]; unfold wrap; specialize (Hz _ _ Htop); rewrite Z.mod_small; lia).
  set (s' := set_focus _ _). pose proof (live_bound _ _ (covering_live _ _ _ _ Hc)) as Hi. assert (Hsi : surfaces s' !! i = Some e') by (apply list_lookup_insert_eq; done).
  assert (Hso : forall j, j <> i -> surfaces s' !! j = surfaces s !! j) by (intros j Hj; apply list_lookup_insert_ne; done).
  assert (Hcov : covering s' px py i = true) by (unfold covering in Hc |- *; rewrite Hsi; rewrite He in Hc; exact Hc). split; [split; [by eapply covering_live|]|done].
  intros j (ej & Hej & Hb) Hji. rewrite Hso in Hej by done. left. assert (Hzt : z_at s j <= z_at s t).
  { destruct (decide (j = t)) as [->|Hjt]; [lia|]. destruct Ht as [_ Hall]. assert (Hbl : below s j t) by (apply Hall; [by exists ej|done]). unfold below in Hbl. lia. }
  unfold z_at in *. rewrite Hsi, Hso, Hej by done. rewrite Hej, Htop in Hzt. cbn [fmap option_fmap option_map default] in *. unfold default, from_option, id in *. lia.
Qed.

Module Clicks.

(** C35: a click on a surface, where no surface is at the last depth a client can give
    (u64::MAX; the run [click_sinks] in [CompositorRuns] shows what happens then).  It gives
    the owner of the surface the keyboard and brings it to the front: the surface found is
    the one seen at the pixel; it is above every other afterwards and still the one seen
    there, and the next key goes where its owner listens and nowhere else. *)
Theorem click_raises s px py i e words : compositor_ok s -> front s px py = Some i -> surfaces s !! i = Some e -> (forall j e', surfaces s !! j = Some e' -> 0 <= z e' < U64_MAX) ->
  exists s' s'', raise_at px py s = (Ok tt, s') /\ focus s' = Some (owner e) /\ topmost s' i /\ front s' px py = Some i /\ key words s' = (Ok tt, s'') /\
    sent s'' = sent s ++ match endpoint_of (owner e) (listeners s) with Some endpoint => [(endpoint, words)] | None => [] end.
Proof.
  intros Hok Hf He Hz. pose proof (c_surfaces _ Hok) as Hl. destruct (raise_at_spec s px py Hl) as (s' & Hrun & Hr). destruct (raised_topmost s px py s' i Hl Hf Hz Hr) as [Htop Hcov].
  assert (Hsame : focus s' = Some (owner e) /\ listeners s' = listeners s /\ sent s' = sent s).
  { unfold raised in Hr. rewrite Hf in Hr. destruct Hr as (t & e0 & e_top & _ & He0 & _ & ->). assert (e0 = e) as -> by congruence. by destruct (t =? i)%nat. }
  destruct Hsame as (Hfo & Hli & Hse). exists s'. eexists. split_and!; [done|done|done|apply topmost_front; [|done|done]| |].
  - apply (c_surfaces _ (a_ok _ _ (raised_accounts s px py s' Hok Hr))).
  - unfold key. erewrite crun_bind; [|reflexivity]. rewrite Hfo, Hli. instantiate (1 := match endpoint_of (owner e) (listeners s) with Some endpoint => set_sent (sent s' ++ [(endpoint, words)]) s' | None => s' end).
    by destruct (endpoint_of (owner e) (listeners s)).
  - destruct (endpoint_of (owner e) (listeners s)); [cbn [sent set_sent]; by rewrite Hse|by rewrite Hse, app_nil_r].
Qed.

End Clicks.
