(* ===== verification/CompositorRuns.v ===== *)
(** * The compositor: concrete runs

    A small display with two clients, for the hypotheses of the theorems; and three runs
    that go wrong: a display whose rows are padded, a client that presents another's
    buffer, and a surface at the last depth there is. *)

From stdpp Require Import base list gmap numbers list_numbers sorting.
From Stdlib Require Import Lia ZifyBool.
From S2P Require Import Prelude NetBytes Compositor CompositorOrder CompositorDamage CompositorDraw CompositorPicture CompositorEvents CompositorTheorems.

(** Four by three pixels of three bytes; thread 50 has two by two pixels in buffer 7,
    thread 60 one pixel in buffer 8. *)
Definition small : BufferInfo := {| i_width := 4; i_height := 3; i_stride := 12; i_bytes_per_pixel := 3; i_size := 36 |}.
Definition square : BufferInfo := {| i_width := 2; i_height := 2; i_stride := 6; i_bytes_per_pixel := 3; i_size := 12 |}.
Definition dot : BufferInfo := {| i_width := 1; i_height := 1; i_stride := 3; i_bytes_per_pixel := 3; i_size := 3 |}.

#[local] Instance two_clients : Display := {| granted := fun h => if h =? 7 then Some (4096, square) else if h =? 8 then Some (8192, dot) else None |}.

Definition empty_screen : list Z := replicate 36 0.
Definition their_buffers : gmap Z (list Z) := {[ 4096 := replicate 12 5; 8192 := replicate 3 9 ]}.
Definition started : Compositor := compositor_new small empty_screen (fun _ => 0) their_buffers.

Lemma small_plain : plain_display small empty_screen.
Proof. split; [split; cbn; lia|cbn; lia|done|done|done|done]. Qed.

Lemma started_ok : compositor_ok started.
Proof. apply new_ok, small_plain. Qed.

Lemma granted_two s : memory s = memory started -> screen s = small -> granted_ok s.
Proof.
  intros Hm Hs handle at_ info Hg. rewrite Hm, Hs. cbn in Hg. destruct (handle =? 7); [injection Hg as <- <-; exists (replicate 12 5); split; [reflexivity|cbn; lia]|].
  destruct (handle =? 8); [|done]. injection Hg as <- <-. exists (replicate 3 9). split; [reflexivity|cbn; lia].
Qed.

Definition present (thread handle px py pz : Z) : Message := {| m_sender := thread; m_tag := TAG_PRESENT; m_words := (handle, px, py, pz) |}.
Definition listening (thread endpoint : Z) : Message := {| m_sender := thread; m_tag := TAG_LISTEN; m_words := (endpoint, 0, 0, 0) |}.
Definition mouse (dx dy held : Z) : Message := {| m_sender := KERNEL_SENDER; m_tag := TAG_POINTER; m_words := (dx mod 2 ^ 64, dy mod 2 ^ 64, held, 0) |}.
Definition typed (code : Z) : Message := {| m_sender := KERNEL_SENDER; m_tag := TAG_KEY; m_words := (code, 0, 0, 0) |}.

(** The square, the dot over its corner, and the dot again, further down. *)
Definition drawing : list Message := [present 50 7 1 0 1; present 60 8 1 0 2; present 60 8 3 2 2].


(** What the display ends up with. *)
Example drawing_shown : scanout (snd (serve drawing started)) =
  [0; 0; 0; 5; 5; 5; 5; 5; 5; 0; 0; 0;
   0; 0; 0; 5; 5; 5; 5; 5; 5; 0; 0; 0;
   0; 0; 0; 0; 0; 0; 0; 0; 0; 9; 9; 9].
Proof. vm_compute. reflexivity. Qed.

Lemma client_cannot_type_witness : stranger started 50 /\ exists s', message 50 TAG_POINTER 1 1 1 0 started = (Ok tt, s') /\ same_input started s'.
Proof.
  assert (Hst : stranger started 50) by (split; done). split; [done|].
  destruct (Authority.client_cannot_type started 50 TAG_POINTER 1 1 1 0 started_ok) as (s' & Hrun & Hin & _); [by apply granted_two|repeat constructor; lia|done|]. by exists s'.
Defined.

(** Two surfaces over pixel (1, 0), the dot in front. *)
Definition stacked : list Message := [present 60 8 1 0 1; present 50 7 1 0 0; listening 50 3; listening 60 4].
Definition two_up : Compositor := snd (serve stacked started).

Lemma two_up_ok : compositor_ok two_up.
Proof.
  destruct (serve_tells stacked started started_ok) as (s' & Hrun & Ht); [by apply granted_two|repeat constructor; unfold words_ok; cbn; repeat constructor; lia|].
  unfold two_up. rewrite Hrun. apply (t_ok _ _ Ht).
Qed.

Lemma click_raises_witness : front two_up 2 1 = Some 1%nat /\ exists s', raise_at 2 1 two_up = (Ok tt, s') /\ focus s' = Some 50 /\ topmost s' 1%nat.
Proof.
  assert (Hf : front two_up 2 1 = Some 1%nat) by (vm_compute; reflexivity). split; [done|].
  destruct (lookup_lt_is_Some_2 (surfaces two_up) 1) as [e He]; [vm_compute; lia|].
  destruct (Clicks.click_raises two_up 2 1 1%nat e [0; 0; 0; 0] two_up_ok Hf He) as (s' & s'' & Hrun & Hfo & Htop & _).
  - assert (Hall : Forall (fun e' => 0 <= z e' < U64_MAX) (surfaces two_up)) by (assert (Hb : forallb (fun e' => (0 <=? z e') && (z e' <? U64_MAX)) (surfaces two_up) = true) by (vm_compute; reflexivity);
      apply Forall_forall; intros e' Hin; rewrite forallb_forall in Hb; specialize (Hb e' (proj1 (list_elem_of_In _ _) Hin)); lia).
    rewrite Forall_lookup in Hall. exact Hall.
  - exists s'. split_and!; [done| |done]. rewrite Hfo. f_equal. vm_compute in He. by injection He as <-.
Defined.

(** ** Three runs that go wrong *)

(** Sixty-four by thirty-two pixels of four bytes, rows padded from 256 bytes to 260. The
    back buffer is asked for by width and height alone, so its two pages hold rows of 256:
    a surface presented at column 40 makes the compositor write past its end. *)
Definition padded : BufferInfo := {| i_width := 64; i_height := 32; i_stride := 260; i_bytes_per_pixel := 4; i_size := 8320 |}.

Example padded_display_faults : fst (serve [present 50 7 40 0 1] (compositor_new padded (replicate 8320 0) (fun _ => 0) {[ 4096 := replicate 16 5 ]})) = Panic.
Proof. vm_compute. reflexivity. Qed.

(** Thread 60 presents thread 50's buffer where it already is: the surface is now its own,
    and what is typed after a click on it goes to thread 60. *)
Definition stolen : list Message := [present 50 7 1 0 1; listening 50 3; listening 60 4; present 60 7 1 0 1; mouse 0 0 1; typed 65].

Example keys_stolen : sent (snd (serve stolen started)) = [(4, [65; 0; 0; 0])].
Proof. vm_compute. reflexivity. Qed.

(** With a surface at the last depth in front, the one clicked goes to depth zero, behind
    a third it was in front of. *)
Example click_sinks : let s := snd (serve [present 50 7 1 0 U64_MAX; present 60 8 3 2 5; mouse 1 1 1] started) in
  focus s = Some 60 /\ z_at s 1 = 0.
Proof. vm_compute. split; reflexivity. Qed.
