(* ===== verification/Input.v ===== *)
(** * The input daemon (userland/src/bin/input.rs)

    The PS/2 driver, in Ring 3: it sets the controller up, reads what the keyboard and the
    mouse say a byte at a time, and sends key and pointer events to the compositor.  The
    controller is hardware: what its two ports answer is the class [Controller]. *)

From stdpp Require Import base list numbers list_numbers.
From Stdlib Require Import Lia ZifyBool.
From S2P Require Import Prelude Compositor.

Definition DATA : Z := 0x60.
Definition COMMAND : Z := 0x64.
Definition STATUS_OUTPUT_FULL : Z := 1.
Definition STATUS_INPUT_FULL : Z := 2.
Definition STATUS_FROM_MOUSE : Z := 32.
Definition ESCAPE : Z := 1.
Definition POLLS : Z := 100000.
Definition TAG_IRQ : Z := 0x10000.
Definition MODIFIER_SHIFT : Z := 1.
Definition MODIFIER_CTRL : Z := 2.
Definition MODIFIER_ALT : Z := 4.

(** US layout, by scancode. *)
Definition UNSHIFTED : list Z :=
  [0; 27; 49; 50; 51; 52; 53; 54; 55; 56; 57; 48; 45; 61; 8; 9; 113; 119; 101; 114;
   116; 121; 117; 105; 111; 112; 91; 93; 10; 0; 97; 115; 100; 102; 103; 104; 106; 107; 108; 59;
   39; 96; 0; 92; 122; 120; 99; 118; 98; 110; 109; 44; 46; 47; 0; 42; 0; 32].
Definition SHIFTED : list Z :=
  [0; 27; 33; 64; 35; 36; 37; 94; 38; 42; 40; 41; 95; 43; 8; 9; 81; 87; 69; 82;
   84; 89; 85; 73; 79; 80; 123; 125; 10; 0; 65; 83; 68; 70; 71; 72; 74; 75; 76; 58;
   34; 126; 0; 124; 90; 88; 67; 86; 66; 78; 77; 60; 62; 63; 0; 42; 0; 32].

(** ** The decoder *)

Record Decoder : Type := {
  extended : bool;
  left_shift : bool;
  right_shift : bool;
  ctrl : bool;
  alt : bool;
  packet : list Z;
  filled : nat;
}.
Definition Decoder_new : Decoder := {| extended := false; left_shift := false; right_shift := false; ctrl := false; alt := false; packet := [0; 0; 0]; filled := 0 |}.

Definition set_extended (v : bool) (d : Decoder) : Decoder := {| extended := v; left_shift := left_shift d; right_shift := right_shift d; ctrl := ctrl d; alt := alt d; packet := packet d; filled := filled d |}.
Definition set_left_shift (v : bool) (d : Decoder) : Decoder := {| extended := extended d; left_shift := v; right_shift := right_shift d; ctrl := ctrl d; alt := alt d; packet := packet d; filled := filled d |}.
Definition set_right_shift (v : bool) (d : Decoder) : Decoder := {| extended := extended d; left_shift := left_shift d; right_shift := v; ctrl := ctrl d; alt := alt d; packet := packet d; filled := filled d |}.
Definition set_ctrl (v : bool) (d : Decoder) : Decoder := {| extended := extended d; left_shift := left_shift d; right_shift := right_shift d; ctrl := v; alt := alt d; packet := packet d; filled := filled d |}.
Definition set_alt (v : bool) (d : Decoder) : Decoder := {| extended := extended d; left_shift := left_shift d; right_shift := right_shift d; ctrl := ctrl d; alt := v; packet := packet d; filled := filled d |}.
Definition set_packet (v : list Z) (n : nat) (d : Decoder) : Decoder := {| extended := extended d; left_shift := left_shift d; right_shift := right_shift d; ctrl := ctrl d; alt := alt d; packet := v; filled := n |}.

(** [match code { .. }] *)
Definition hold (code : Z) (pressed : bool) (d : Decoder) : Decoder :=
  if code =? 0x2A then set_left_shift pressed d
  else if code =? 0x36 then set_right_shift pressed d
  else if (code =? 0x1D) || (code =? 0x11D) then set_ctrl pressed d
  else if (code =? 0x38) || (code =? 0x138) then set_alt pressed d
  else d.

Definition shift (d : Decoder) : bool := left_shift d || right_shift d.
Definition modifiers (shift ctrl alt : bool) : Z :=
  Z.lor (Z.lor (if shift then MODIFIER_SHIFT else 0) (if ctrl then MODIFIER_CTRL else 0)) (if alt then MODIFIER_ALT else 0).

Definition is_text (ch : Z) : bool := (0x20 <=? ch) && (ch <=? 0x7E) || (ch =? 10) || (ch =? 9) || (ch =? 8).
Definition ascii (shift : bool) (code : Z) (pressed : bool) : Z :=
  match (if shift then SHIFTED else UNSHIFTED) !! Z.to_nat code with
  | Some ch => if pressed && is_text ch then ch else 0
  | None => 0
  end.

(** What the ports of the controller answer. *)
Class Controller (T : Type) : Type := {
  port_read : Z -> T -> Z * T;
  port_write : Z -> Z -> T -> bool * T;
}.

(** The daemon exits on the escape key, and when it cannot start. *)
Inductive Exit : Type := Exited (code : Z).

Section Daemon.
Context {T : Type} `{Controller T}.

(** [events] is what was sent to the consumer, [written] what was written to the ports. *)
Record Daemon : Type := { decoder : Decoder; ports : T; events : list (Z * list Z); written : list (Z * Z) }.
Definition set_decoder (d : Decoder) (s : Daemon) : Daemon := {| decoder := d; ports := ports s; events := events s; written := written s |}.
Definition set_ports (v : T) (s : Daemon) : Daemon := {| decoder := decoder s; ports := v; events := events s; written := written s |}.
Definition set_events (v : list (Z * list Z)) (s : Daemon) : Daemon := {| decoder := decoder s; ports := ports s; events := v; written := written s |}.
Definition set_written (v : list (Z * Z)) (s : Daemon) : Daemon := {| decoder := decoder s; ports := ports s; events := events s; written := v |}.

Definition I (A : Type) : Type := M Daemon Exit A.

Definition send (tag : Z) (words : list Z) : I unit := modify (fun s => set_events (events s ++ [(tag, words)]) s).
Definition on_decoder (f : Decoder -> Decoder) : I unit := modify (fun s => set_decoder (f (decoder s)) s).

Definition key (byte : Z) : I unit :=
  s ← get;
  if byte =? 0xE0 then on_decoder (set_extended true) else
  let pressed := Z.land byte 0x80 =? 0 in
  let code := Z.lor (Z.land byte 0x7F) (if extended (decoder s) then 0x100 else 0) in
  on_decoder (set_extended false) ;;
  on_decoder (hold code pressed) ;;
  (if (code =? ESCAPE) && pressed then send TAG_SHUTDOWN [0; 0; 0; 0] ;; fail (Exited 0) else mret tt) ;;
  s ← get;
  let d := decoder s in
  send TAG_KEY [ascii (shift d) code pressed; code; if pressed then 1 else 0; modifiers (shift d) (ctrl d) (alt d)].

Definition mouse (byte : Z) : I unit :=
  s ← get;
  if (filled (decoder s) =? 0)%nat && (Z.land byte 0x08 =? 0) then mret tt else
  if (filled (decoder s) <? length (packet (decoder s)))%nat then
    let filled' := S (filled (decoder s)) in
    on_decoder (set_packet (<[filled (decoder s) := byte]> (packet (decoder s))) filled') ;;
    if (filled' <? 3)%nat then mret tt else
    s ← get;
    on_decoder (set_packet (packet (decoder s)) 0) ;;
    match packet (decoder s) with
    | [flags; px; py] =>
        if negb (Z.land flags 0xC0 =? 0) then mret tt else
        let dx := px - (if negb (Z.land flags 0x10 =? 0) then 256 else 0) in
        let dy := py - (if negb (Z.land flags 0x20 =? 0) then 256 else 0) in
        send TAG_POINTER [wrap dx; wrap (- dy); Z.land flags 0x07; 0]
    | _ => panic
    end
  else panic.

(** ** The controller *)

(** A read a system call refuses is a negative number, of which the low byte is kept. *)
Definition read_port (port : Z) : I Z := s ← get; let (v, p) := port_read port (ports s) in modify (set_ports p) ;; mret (v mod 256).
Definition write_port (port byte : Z) : I bool :=
  s ← get; let (ok, p) := port_write port byte (ports s) in modify (fun s => set_written (written s ++ [(port, byte)]) (set_ports p s)) ;; mret ok.

Definition status : I Z := read_port COMMAND.

(** [(0..n).any(|_| ..)] over the status *)
Fixpoint poll (n : nat) (P : Z -> bool) : I bool :=
  match n with
  | O => mret false
  | S n => v ← status; if P v then mret true else poll n P
  end.

Definition ready_for_input : I bool := poll (Z.to_nat POLLS) (fun v => Z.land v STATUS_INPUT_FULL =? 0).
Definition command (byte : Z) : I bool := ready ← ready_for_input; if (ready : bool) then write_port COMMAND byte else mret false.
Definition write_data (byte : Z) : I bool := ready ← ready_for_input; if (ready : bool) then write_port DATA byte else mret false.
Definition read_data : I (option Z) :=
  found ← poll (Z.to_nat POLLS) (fun v => negb (Z.land v STATUS_OUTPUT_FULL =? 0));
  if (found : bool) then v ← read_port DATA; mret (Some v) else mret None.

(** [a() && b()] *)
Definition both (a b : I bool) : I bool := x ← a; if (x : bool) then b else mret false.

Fixpoint discard (n : nat) : I unit :=
  match n with
  | O => mret tt
  | S n => v ← status; if Z.land v STATUS_OUTPUT_FULL =? 0 then mret tt else read_port DATA ;; discard n
  end.

Definition configure (config : Z) : Z := Z.land (Z.lor config (Z.lor (Z.lor 0x01 0x02) 0x40)) (255 - 0x30).

Definition init_controller : I bool :=
  off ← both (command 0xAD) (command 0xA7);
  if negb off then mret false else
  discard 16 ;;
  asked ← command 0x20;
  if negb asked then mret false else
  config ← read_data;
  match config with
  | None => mret false
  | Some config =>
      set ← both (command 0x60) (write_data (configure config));
      if negb set then mret false else
      on ← both (command 0xAE) (command 0xA8);
      if negb on then mret false else
      told ← both (command 0xD4) (write_data 0xF4);
      (if (told : bool) then read_data ;; mret tt else mret tt) ;;
      mret true
  end.

(** [for _ in 0..n] *)
Fixpoint drain_some (n : nat) : I unit :=
  match n with
  | O => mret tt
  | S n =>
      v ← status;
      if Z.land v STATUS_OUTPUT_FULL =? 0 then mret tt else
      byte ← read_port DATA;
      (if negb (Z.land v STATUS_FROM_MOUSE =? 0) then mouse byte else key byte) ;;
      drain_some n
  end.
Definition drain : I unit := drain_some 64.

(** [main] up to its loop: whether an endpoint was made and the interrupts bound is what
    the kernel answers. *)
Definition start (endpoint_made bound : bool) : I unit :=
  if negb endpoint_made then fail (Exited 1) else
  ready ← init_controller;
  if negb ready then fail (Exited 1) else
  if negb bound then fail (Exited 1) else
  on_decoder (fun _ => Decoder_new) ;;
  drain.

(** One turn of the loop. *)
Definition hear (sender tag : Z) : I unit := if (sender =? KERNEL_SENDER) && (tag =? TAG_IRQ) then drain else mret tt.

End Daemon.
