(* ===== verification/InputTheorems.v ===== *)
(** * The input daemon: what it makes of the devices' bytes

    However the bytes of the keyboard and of the mouse interleave, the keys pressed come
    out as key events with the characters of the US layout and the modifiers held at the
    time, and the mouse's reports as pointer events, which move the compositor's pointer by
    as much.  [key_step], [mouse_step] and [decode] are the daemon's two handlers as
    functions of the decoder, for the proofs; the results are about the daemon. *)

From stdpp Require Import base list numbers list_numbers sets strings.
From Stdlib Require Import Lia ZifyBool.
From S2P Require Import Prelude Compositor CompositorOrder CompositorDamage CompositorDraw CompositorPicture CompositorEvents CompositorTheorems Input.

(** ** One byte at a time, as functions *)

Definition event : Type := Z * list Z.

Definition key_event (shift ctrl alt : bool) (code : Z) (pressed : bool) : event := (TAG_KEY, [ascii shift code pressed; code; if pressed then 1 else 0; modifiers shift ctrl alt]).

(** The decoder after a byte, what it sends, and whether the daemon exits. *)
Definition key_step (d : Decoder) (byte : Z) : Decoder * list event * bool :=
  if byte =? 0xE0 then (set_extended true d, [], false) else
  let pressed := Z.land byte 0x80 =? 0 in
  let code := Z.lor (Z.land byte 0x7F) (if extended d then 0x100 else 0) in
  let d := hold code pressed (set_extended false d) in
  if (code =? ESCAPE) && pressed then (d, [(TAG_SHUTDOWN, [0; 0; 0; 0])], true)
  else (d, [key_event (shift d) (ctrl d) (alt d) code pressed], false).

Definition pointer_event (flags px py : Z) : list event :=
  if negb (Z.land flags 0xC0 =? 0) then [] else
  [(TAG_POINTER, [wrap (px - (if negb (Z.land flags 0x10 =? 0) then 256 else 0)); wrap (- (py - (if negb (Z.land flags 0x20 =? 0) then 256 else 0))); Z.land flags 0x07; 0])].

Definition mouse_step (d : Decoder) (byte : Z) : Decoder * list event :=
  if (filled d =? 0)%nat && (Z.land byte 0x08 =? 0) then (d, []) else
  let p := <[filled d := byte]> (packet d) in
  if (S (filled d) <? 3)%nat then (set_packet p (S (filled d)) d, [])
  else (set_packet p 0 d, match p with [flags; px; py] => pointer_event flags px py | _ => [] end).

Definition decoder_ok (d : Decoder) : Prop := length (packet d) = 3%nat /\ (filled d < 3)%nat.

(** The devices' bytes, each with whether it is the mouse's. *)
Fixpoint decode (d : Decoder) (l : list (bool * Z)) : Decoder * list event * bool :=
  match l with
  | [] => (d, [], false)
  | (from_mouse, byte) :: rest =>
      let '(d', evs, stop) := if (from_mouse : bool) then (mouse_step d byte, false) else key_step d byte in
      if (stop : bool) then (d', evs, true)
      else let '(d'', evs', stop') := decode d' rest in (d'', evs ++ evs', stop')
  end.

Lemma mouse_step_ok d byte : decoder_ok d -> decoder_ok (mouse_step d byte).1.
Proof.
  intros [Hl Hf]. unfold mouse_step. destruct (_ && _); [done|]. cbv zeta. destruct (Nat.ltb_spec (S (filled d)) 3); cbn [fst]; unfold decoder_ok; cbn [packet filled set_packet]; (split; [by rewrite length_insert|lia]).
Qed.

Lemma hold_parts code p d : packet (hold code p d) = packet d /\ filled (hold code p d) = filled d /\ extended (hold code p d) = extended d.
Proof. unfold hold. repeat case_match; done. Qed.

Lemma key_step_ok d byte d' evs stop : key_step d byte = (d', evs, stop) -> decoder_ok d -> decoder_ok d'.
Proof.
  unfold key_step, decoder_ok. destruct (byte =? 0xE0); [intros [= <- _ _]; done|]. cbv zeta. destruct (_ && _); intros [= <- _ _]; pose proof (hold_parts) as Hh;
    edestruct Hh as (-> & -> & _); done.
Qed.

Section Runs.
Context {T : Type} `{Controller T}.
Implicit Type s : Daemon (T := T).

Lemma irun_bind {A B} (m : I A) (k : A -> I B) s a s' : m s = (Ok a, s') -> mbind k m s = k a s'.
Proof. intros Hm. unfold mbind, M_bind. by rewrite Hm. Qed.

(** [s] with another decoder and more sent *)
Definition after s (d : Decoder) (evs : list event) : Daemon (T := T) := set_events (events s ++ evs) (set_decoder d s).

Lemma key_run s byte : let '(d, evs, stop) := key_step (decoder s) byte in key byte s = ((if stop : bool then Err (Exited 0) else Ok tt), after s d evs).
Proof.
  unfold key_step, key, after. erewrite irun_bind; [|reflexivity]. destruct (byte =? 0xE0); [cbn; by rewrite app_nil_r|]. cbv zeta.
  do 2 (erewrite irun_bind; [|reflexivity]). destruct (_ && _); [reflexivity|]. do 2 (erewrite irun_bind; [|reflexivity]). reflexivity.
Qed.

Lemma mouse_run s byte : decoder_ok (decoder s) -> let '(d, evs) := mouse_step (decoder s) byte in mouse byte s = (Ok tt, after s d evs).
Proof.
  intros [Hl Hf]. unfold mouse_step, mouse, after. erewrite irun_bind; [|reflexivity]. destruct (_ && _); [rewrite app_nil_r; by destruct s|]. cbv zeta.
  replace (filled (decoder s) <? length (packet (decoder s)))%nat with true by lia. erewrite irun_bind; [|reflexivity]. destruct (S (filled (decoder s)) <? 3)%nat; [cbn; rewrite app_nil_r; by destruct s|].
  do 2 (erewrite irun_bind; [|reflexivity]). cbn [decoder set_decoder packet set_packet]. assert (Hp : length (<[filled (decoder s) := byte]> (packet (decoder s))) = 3%nat) by (by rewrite length_insert).
  destruct (<[filled (decoder s) := byte]> (packet (decoder s))) as [|flags [|px [|py [|? ?]]]]; try done. unfold pointer_event. destruct (negb _); [cbn; by rewrite app_nil_r|reflexivity].
Qed.

(** What the i8042 is documented to do: the status says whether a byte waits and whose it
    is, and leaves it; the data port hands it over. *)
Class ControllerLaws : Type := {
  pending : T -> list (bool * Z);
  pending_bytes : forall p, Forall (fun e => 0 <= e.2 < 256) (pending p);
  status_law : forall p v p', port_read COMMAND p = (v, p') -> pending p' = pending p /\
    match pending p with
    | [] => Z.land (v mod 256) STATUS_OUTPUT_FULL = 0
    | (from_mouse, _) :: _ => Z.land (v mod 256) STATUS_OUTPUT_FULL <> 0 /\ (Z.land (v mod 256) STATUS_FROM_MOUSE <> 0 <-> from_mouse = true)
    end;
  data_law : forall p from_mouse byte rest v p', pending p = (from_mouse, byte) :: rest -> port_read DATA p = (v, p') -> v = byte /\ pending p' = rest;
}.

Context `{ControllerLaws}.

Lemma read_port_run s port v p' : port_read port (ports s) = (v, p') -> read_port port s = (Ok (v mod 256), set_ports p' s).
Proof. intros Hr. unfold read_port. erewrite irun_bind; [|reflexivity]. by rewrite Hr. Qed.

Lemma after_after s d evs p d' evs' : after (set_ports p (after s d evs)) d' evs' = after (set_ports p s) d' (evs ++ evs').
Proof. unfold after, set_events, set_ports, set_decoder. cbn [events decoder ports written]. by rewrite app_assoc. Qed.

(** Draining decodes what waits, as far as it goes. *)
Lemma drain_some_run n : forall s, decoder_ok (decoder s) -> let '(d, evs, stop) := decode (decoder s) (take n (pending (ports s))) in
  exists p, drain_some n s = ((if stop : bool then Err (Exited 0) else Ok tt), after (set_ports p s) d evs) /\ (stop = false -> pending p = drop n (pending (ports s))) /\ decoder_ok d.
Proof.
  induction n as [|n IH]; intros s Hd; [exists (ports s); split_and!; [unfold after; cbn; rewrite app_nil_r; by destruct s|done|done]|]. cbn [drain_some]. unfold status.
  destruct (port_read COMMAND (ports s)) as [v p1] eqn:Hv. destruct (status_law _ _ _ Hv) as [Hp1 Hst]. erewrite irun_bind; [|by apply read_port_run].
  destruct (pending (ports s)) as [|[from_mouse byte] rest] eqn:Hpend; cbn [take decode drop].
  { exists p1. rewrite Hst. split_and!; [unfold after; cbn; by rewrite app_nil_r|done|done]. }
  destruct Hst as [Hfull Hfrom]. destruct (Z.eqb_spec (Z.land (v mod 256) STATUS_OUTPUT_FULL) 0) as [|_]; [done|].
  destruct (port_read DATA p1) as [b p2] eqn:Hb. destruct (data_law p1 from_mouse byte rest b p2) as [-> Hrest]; [congruence|done|].
  erewrite irun_bind; [|by apply (read_port_run (set_ports p1 s))]. assert (Hbyte : 0 <= byte < 256) by (pose proof (pending_bytes (ports s)) as Hall; rewrite Hpend in Hall; by apply Forall_cons in Hall as [? _]).
  rewrite (Z.mod_small byte) by done. replace (negb (Z.land (v mod 256) STATUS_FROM_MOUSE =? 0)) with from_mouse by (destruct from_mouse; [symmetry; apply negb_true_iff, Z.eqb_neq; tauto|]; destruct (Z.eqb_spec (Z.land (v mod 256) STATUS_FROM_MOUSE) 0) as [|Hne]; [done|]; by apply Hfrom in Hne).
  set (s2 := set_ports p2 (set_ports p1 s)). change (decoder s) with (decoder s2) in Hd |- *. assert (Hs2 : s2 = set_ports p2 s) by done. assert (Hp2 : pending (ports s2) = rest) by done. clearbody s2. destruct from_mouse.
  - pose proof (mouse_run s2 byte Hd) as Hrun. pose proof (mouse_step_ok (decoder s2) byte Hd) as Hd'. destruct (mouse_step (decoder s2) byte) as [d evs]. erewrite irun_bind; [|exact Hrun].
    specialize (IH (after s2 d evs) Hd'). change (ports (after s2 d evs)) with (ports s2) in IH. change (decoder (after s2 d evs)) with d in IH. rewrite Hp2 in IH.
    destruct (decode d (take n rest)) as [[d2 evs2] stop]. destruct IH as (p & Hrun2 & Hp & Hd2). exists p. split_and!; [|done|done]. by rewrite Hrun2, after_after, Hs2.
  - pose proof (key_run s2 byte) as Hrun. destruct (key_step (decoder s2) byte) as [[d evs] stop] eqn:Hks. pose proof (key_step_ok _ _ _ _ _ Hks Hd) as Hd'. destruct stop.
    { exists p2. split_and!; [|done|done]. unfold mbind, M_bind. by rewrite Hrun, Hs2. }
    erewrite irun_bind; [|exact Hrun]. specialize (IH (after s2 d evs) Hd'). change (ports (after s2 d evs)) with (ports s2) in IH. change (decoder (after s2 d evs)) with d in IH. rewrite Hp2 in IH.
    destruct (decode d (take n rest)) as [[d2 evs2] stop]. destruct IH as (p & Hrun2 & Hp & Hd2). exists p. split_and!; [|done|done]. by rewrite Hrun2, after_after, Hs2.
Qed.

End Runs.

(** ** Interrupts *)

Lemma decode_app l1 l2 : forall d, decode d (l1 ++ l2) = let '(d1, e1, stop) := decode d l1 in if (stop : bool) then (d1, e1, true) else let '(d2, e2, stop2) := decode d1 l2 in (d2, e1 ++ e2, stop2).
Proof.
  induction l1 as [|[m b] l1 IH]; intros d; cbn [app decode]; [by destruct (decode d l2) as [[? ?] ?]|].
  destruct (if m then (mouse_step d b, false) else key_step d b) as [[d1 e1] stop]. destruct stop; [done|]. rewrite IH. destruct (decode d1 l1) as [[d2 e2] stop2]. destruct stop2; [done|].
  destruct (decode d2 l2) as [[d3 e3] stop3]. by rewrite app_assoc.
Qed.

Section Interrupts.
Context {T : Type} `{Controller T} `{!ControllerLaws (T := T)}.

(** So many interrupts, one after another. *)
Fixpoint interrupts (n : nat) : I (T := T) unit :=
  match n with
  | O => mret tt
  | S n => hear KERNEL_SENDER TAG_IRQ ;; interrupts n
  end.

Lemma interrupts_run n : forall s : Daemon (T := T), decoder_ok (decoder s) -> let '(d, evs, stop) := decode (decoder s) (take (64 * n) (pending (ports s))) in
  exists p, interrupts n s = ((if stop : bool then Err (Exited 0) else Ok tt), after (set_ports p s) d evs).
Proof.
  induction n as [|n IH]; intros s Hd; [exists (ports s); unfold after; cbn; rewrite app_nil_r; by destruct s|]. cbn [interrupts].
  replace (64 * S n)%nat with (64 + 64 * n)%nat by lia. rewrite <- take_take_drop, decode_app. pose proof (drain_some_run 64 s Hd) as Hrun. fold (drain (T := T)) in Hrun.
  destruct (decode (decoder s) (take 64 (pending (ports s)))) as [[d evs] stop]. destruct Hrun as (p & Hrun & Hp & Hd').
  assert (Hhear : hear (T := T) KERNEL_SENDER TAG_IRQ s = drain s) by reflexivity. rewrite <- Hhear in Hrun. destruct stop; [exists p; unfold mbind, M_bind; by rewrite Hrun|].
  erewrite irun_bind; [|exact Hrun]. specialize (IH (after (set_ports p s) d evs) Hd'). change (ports (after (set_ports p s) d evs)) with p in IH. change (decoder (after (set_ports p s) d evs)) with d in IH. rewrite Hp in IH by done.
  destruct (decode d (take (64 * n) (drop 64 (pending (ports s))))) as [[d2 evs2] stop2]. destruct IH as (p2 & Hrun2). exists p2. by rewrite Hrun2, after_after.
Qed.

End Interrupts.

(** ** Keyboard and mouse apart *)

Definition keyboard_part (d : Decoder) : bool * bool * bool * bool * bool := (extended d, left_shift d, right_shift d, ctrl d, alt d).
Definition mouse_part (d : Decoder) : list Z * nat := (packet d, filled d).

Definition keyboard_bytes (l : list (bool * Z)) : list (bool * Z) := filter (fun e => e.1 = false) l.
Definition mouse_bytes (l : list (bool * Z)) : list (bool * Z) := filter (fun e => e.1 = true) l.
Definition tagged (tag : Z) (l : list event) : list event := filter (fun e => e.1 = tag) l.

Lemma tagged_app tag l1 l2 : tagged tag (l1 ++ l2) = tagged tag l1 ++ tagged tag l2.
Proof. apply filter_app. Qed.

Lemma key_step_parts d d2 byte d' evs : keyboard_part d2 = keyboard_part d -> key_step d byte = (d', evs, false) ->
  exists d2', key_step d2 byte = (d2', evs, false) /\ keyboard_part d2' = keyboard_part d' /\ mouse_part d2' = mouse_part d2 /\ tagged TAG_KEY evs = evs /\ tagged TAG_POINTER evs = [].
Proof.
  destruct d as [x1 x2 x3 x4 x5 x6 x7], d2 as [y1 y2 y3 y4 y5 y6 y7]. unfold keyboard_part, mouse_part. cbn. intros [= -> -> -> -> ->]. unfold key_step. destruct (byte =? 0xE0); [intros [= <- <-]; by eexists|].
  cbn [extended]. cbv zeta. set (code := Z.lor _ _). set (pressed := Z.land byte 0x80 =? 0). destruct ((code =? ESCAPE) && pressed); [done|]. intros [= <- <-].
  eexists (hold code pressed (set_extended false _)). split; [unfold hold; repeat case_match; reflexivity|unfold hold; repeat case_match; done].
Qed.

Lemma mouse_step_parts d d2 byte d' evs : mouse_part d2 = mouse_part d -> mouse_step d byte = (d', evs) ->
  exists d2', mouse_step d2 byte = (d2', evs) /\ mouse_part d2' = mouse_part d' /\ keyboard_part d2' = keyboard_part d2 /\ tagged TAG_POINTER evs = evs /\ tagged TAG_KEY evs = [].
Proof.
  destruct d as [x1 x2 x3 x4 x5 x6 x7], d2 as [y1 y2 y3 y4 y5 y6 y7]. unfold keyboard_part, mouse_part. cbn [packet filled]. intros [= -> ->]. unfold mouse_step. cbn [packet filled].
  destruct ((x7 =? 0)%nat && _); [intros [= <- <-]; by eexists|]. cbv zeta. destruct (S x7 <? 3)%nat; [intros [= <- <-]; by eexists|]. intros [= <- <-]. eexists. split; [reflexivity|]. split_and!; try done.
  all: repeat case_match; try done; unfold pointer_event; by destruct (negb _).
Qed.

Lemma tagged_all tag l : tagged tag l = l -> Forall (fun e => e.1 = tag) l.
Proof. intros <-. unfold tagged. apply Forall_forall. intros e He. by apply list_elem_of_filter in He as [? _]. Qed.

Definition of_devices (l : list event) : Prop := Forall (fun e => e.1 = TAG_KEY \/ e.1 = TAG_POINTER) l.

(** However the two interleave, each device's bytes mean what they mean alone. *)
Lemma decode_split l : forall d dk dm dk' ek dm' em, keyboard_part d = keyboard_part dk -> mouse_part d = mouse_part dm -> decode dk (keyboard_bytes l) = (dk', ek, false) ->
  decode dm (mouse_bytes l) = (dm', em, false) ->
  exists d' evs, decode d l = (d', evs, false) /\ tagged TAG_KEY evs = ek /\ tagged TAG_POINTER evs = em /\ of_devices evs /\ keyboard_part d' = keyboard_part dk'.
Proof.
  induction l as [|[[] byte] l IH]; intros d dk dm dk' ek dm' em Hk Hm Hdk Hdm.
  - cbn in Hdk, Hdm. injection Hdk as <- <-. injection Hdm as <- <-. exists d, []. split_and!; try done. constructor.
  - unfold keyboard_bytes, mouse_bytes in Hdk, Hdm. rewrite filter_cons_False in Hdk by done. rewrite filter_cons_True in Hdm by done. cbn [decode] in *.
    destruct (mouse_step dm byte) as [dm1 e1] eqn:Hs. fold (mouse_bytes l) in Hdm. destruct (decode dm1 (mouse_bytes l)) as [[dm2 e2] st] eqn:Hd2. injection Hdm as <- <- ->.
    destruct (mouse_step_parts dm d byte dm1 e1 Hm Hs) as (d1 & Hd1 & Hm1 & Hk1 & Ht & Hn). rewrite Hd1. destruct (IH d1 dk dm1 dk' ek dm2 e2) as (d' & evs & -> & Hek & Hem & Hof & Hkd); [congruence|done|done|done|].
    exists d', (e1 ++ evs). split_and!; [done|by rewrite <- Hek; rewrite tagged_app, Hn|by rewrite <- Hem; rewrite tagged_app, Ht| |done].
    apply Forall_app. split; [|done]. eapply Forall_impl; [by apply tagged_all|]. by right.
  - unfold keyboard_bytes, mouse_bytes in Hdk, Hdm. rewrite filter_cons_True in Hdk by done. rewrite filter_cons_False in Hdm by done. cbn [decode] in *.
    destruct (key_step dk byte) as [[dk1 e1] st1] eqn:Hs. destruct st1; [done|]. fold (keyboard_bytes l) in Hdk. destruct (decode dk1 (keyboard_bytes l)) as [[dk2 e2] st] eqn:Hd2. injection Hdk as <- <- ->.
    destruct (key_step_parts dk d byte dk1 e1 Hk Hs) as (d1 & Hd1 & Hk1 & Hm1 & Ht & Hn). rewrite Hd1. destruct (IH d1 dk1 dm dk2 e2 dm' em) as (d' & evs & -> & Hek & Hem & Hof & Hkd); [done|congruence|done|done|].
    exists d', (e1 ++ evs). split_and!; [done|by rewrite <- Hek; rewrite tagged_app, Ht|by rewrite <- Hem; rewrite tagged_app, Hn| |done].
    apply Forall_app. split; [|done]. eapply Forall_impl; [by apply tagged_all|]. by left.
Qed.

(** ** What the keyboard says *)

(** A key going down or up, by its code; set 1 gives the codes from 256 a prefix. *)
Definition stroke : Type := Z * bool.
Definition low (code : Z) : Z := if code <? 256 then code else code - 256.
Definition stroke_bytes (k : stroke) : list Z := (if k.1 <? 256 then [] else [0xE0]) ++ [low k.1 + if k.2 then 0 else 128].

(** Code 96 cannot be told from the prefix when it is let go. *)
Definition key_code (code : Z) : bool := (0 <=? low code) && (low code <? 128) && (0 <=? code) && negb (low code =? 96).
Definition quits (k : stroke) : bool := (k.1 =? ESCAPE) && k.2.

(** *** The US layout *)

Definition chars (s : string) : list Z := (fun c => Z.of_N (Ascii.N_of_ascii c)) <$> String.list_ascii_of_string s.

(** The rows of the keyboard: the code of the first key, what its keys are, and what they
    are with shift held; 34 is the double quote. *)
Definition us_rows : list (Z * list Z * list Z) :=
  [(0x02, chars "1234567890-=", chars "!@#$%^&*()_+");
   (0x10, chars "qwertyuiop[]", chars "QWERTYUIOP{}");
   (0x1E, chars "asdfghjkl;'`", chars "ASDFGHJKL:" ++ [34] ++ chars "~");
   (0x2B, chars "\zxcvbnm,./", chars "|ZXCVBNM<>?");
   (0x39, chars " ", chars " "); (0x37, chars "*", chars "*")].
(** Backspace, tab and enter, which are what they are with shift too. *)
Definition us_controls : list (Z * Z) := [(0x0E, 8); (0x0F, 9); (0x1C, 10)].

Definition in_row (shifted : bool) (code : Z) (row : Z * list Z * list Z) : option Z :=
  let '(first, plain, upper) := row in if first <=? code then (if shifted then upper else plain) !! Z.to_nat (code - first) else None.

(** The character of a key, 0 if it has none. *)
Definition us_char (shifted : bool) (code : Z) : Z :=
  match omap (in_row shifted code) us_rows ++ (snd <$> filter (fun e => e.1 = code) us_controls) with
  | c :: _ => c
  | [] => 0
  end.

(** *** The keys held *)

(** Whether a key is down, after the strokes so far: the last of its own was down. *)
Definition down (past : list stroke) (key : Z) : bool := match last (filter (fun k => k.1 = key) past) with Some k => k.2 | None => false end.

(** The event of a key, after the strokes up to and with it: what it types when it goes
    down, its code, whether it went down, and whether a shift (1), control (2) and alt (4)
    key is held. *)
Definition stroke_event (past : list stroke) (k : stroke) : event :=
  let shifted := down past 0x2A || down past 0x36 in
  let control := down past 0x1D || down past 0x11D in
  let alternate := down past 0x38 || down past 0x138 in
  (TAG_KEY, [if k.2 then us_char shifted k.1 else 0; k.1; if k.2 then 1 else 0; (if shifted then 1 else 0) + (if control then 2 else 0) + (if alternate then 4 else 0)]).
Fixpoint stroke_events (past l : list stroke) : list event :=
  match l with
  | [] => []
  | k :: rest => stroke_event (past ++ [k]) k :: stroke_events (past ++ [k]) rest
  end.

(** Two keys are not used together: when one of them moves, the other is up. *)
Definition one_moves (a b : Z) (past : list stroke) (k : stroke) : bool := if k.1 =? a then negb (down past b) else if k.1 =? b then negb (down past a) else true.
Fixpoint apart (a b : Z) (past l : list stroke) : bool :=
  match l with
  | [] => true
  | k :: rest => one_moves a b past k && apart a b (past ++ [k]) rest
  end.

(** The decoder's flags are what is held. *)
Definition remembers (d : Decoder) (past : list stroke) : Prop :=
  extended d = false /\ left_shift d = down past 0x2A /\ right_shift d = down past 0x36 /\ ctrl d = down past 0x1D || down past 0x11D /\ alt d = down past 0x38 || down past 0x138.

Lemma down_snoc past k key : down (past ++ [k]) key = if k.1 =? key then k.2 else down past key.
Proof.
  unfold down. rewrite filter_app. destruct (Z.eqb_spec k.1 key) as [Hk|Hk].
  - by rewrite filter_cons_True, filter_nil, last_snoc by done.
  - by rewrite filter_cons_False, filter_nil, app_nil_r by done.
Qed.

Lemma remembers_hold d past code p : one_moves 0x1D 0x11D past (code, p) = true -> one_moves 0x38 0x138 past (code, p) = true ->
  remembers d past -> remembers (hold code p d) (past ++ [(code, p)]).
Proof.
  intros Hctl Halt (He & Hl & Hr & Hc & Ha). unfold remembers. rewrite !down_snoc. cbn [fst snd]. unfold one_moves in *. cbn [fst] in *. unfold hold.
  destruct (Z.eqb_spec code 0x2A) as [->|]; [done|]. destruct (Z.eqb_spec code 0x36) as [->|]; [done|].
  destruct (Z.eqb_spec code 0x1D) as [->|]; [apply negb_true_iff in Hctl; cbn; by rewrite Hctl, orb_false_r|].
  destruct (Z.eqb_spec code 0x11D) as [->|]; [apply negb_true_iff in Hctl; cbn; by rewrite Hctl|].
  destruct (Z.eqb_spec code 0x38) as [->|]; [apply negb_true_iff in Halt; cbn; by rewrite Halt, orb_false_r|].
  destruct (Z.eqb_spec code 0x138) as [->|]; [apply negb_true_iff in Halt; cbn; by rewrite Halt|]. done.
Qed.

(** The tables and their filter give the layout's characters. *)
Lemma ascii_us shifted code pressed : 0 <= code < 512 -> ascii shifted code pressed = if pressed then us_char shifted code else 0.
Proof.
  intros Hc. assert (Hall : forallb (fun n => forallb (fun sh : bool => forallb (fun pr : bool => ascii sh (Z.of_nat n) pr =? (if pr then us_char sh (Z.of_nat n) else 0)) [true; false]) [true; false]) (seq 0 512) = true) by (vm_compute; reflexivity).
  rewrite forallb_forall in Hall. specialize (Hall (Z.to_nat code) ltac:(apply in_seq; lia)). rewrite Z2Nat.id in Hall by lia.
  rewrite forallb_forall in Hall. specialize (Hall shifted ltac:(destruct shifted; cbn; tauto)). rewrite forallb_forall in Hall. specialize (Hall pressed ltac:(destruct pressed; cbn; tauto)). lia.
Qed.

Lemma modifiers_sum sh ct al : modifiers sh ct al = (if sh then 1 else 0) + (if ct then 2 else 0) + (if al then 4 else 0).
Proof. by destruct sh, ct, al. Qed.

(** The bits of a scancode, for each of them. *)
Lemma scancode_bits l (p : bool) : 0 <= l < 128 -> l <> 96 ->
  let byte := l + (if p then 0 else 128) in byte <> 0xE0 /\ (Z.land byte 0x80 =? 0) = p /\ Z.land byte 0x7F = l /\ Z.lor l 0 = l /\ Z.lor l 0x100 = l + 256.
Proof.
  intros Hl Hn. assert (Hall : forallb (fun n => let l := Z.of_nat n in forallb (fun p : bool => let byte := l + (if p then 0 else 128) in
    ((l =? 96) || negb (byte =? 0xE0)) && Bool.eqb (Z.land byte 0x80 =? 0) p && (Z.land byte 0x7F =? l) && (Z.lor l 0 =? l) && (Z.lor l 0x100 =? l + 256)) [true; false]) (seq 0 128) = true) by (vm_compute; reflexivity).
  rewrite forallb_forall in Hall. specialize (Hall (Z.to_nat l) ltac:(apply in_seq; lia)). cbv zeta in *. rewrite forallb_forall in Hall. specialize (Hall p ltac:(destruct p; cbn; tauto)).
  rewrite Z2Nat.id in Hall by lia. rewrite !andb_true_iff in Hall. destruct Hall as ((((H1 & H2) & H3) & H4) & H5). apply eqb_prop in H2. split_and!; [lia|done|lia|lia|lia].
Qed.

Definition from_keyboard (bytes : list Z) : list (bool * Z) := (fun b => (false, b)) <$> bytes.
Definition from_mouse (bytes : list Z) : list (bool * Z) := (fun b => (true, b)) <$> bytes.

(** Stroke by stroke: a key, not used with its twin, and not escape going down. *)
Definition plain_strokes (l : list stroke) : Prop := Forall (fun k => key_code k.1 = true /\ quits k = false) l.

Lemma key_code_range code : key_code code = true -> 0 <= code < 512.
Proof. unfold key_code, low. destruct (Z.ltb_spec code 256); lia. Qed.

Lemma stroke_decoded d past k : remembers d past -> one_moves 0x1D 0x11D past k = true -> one_moves 0x38 0x138 past k = true -> key_code k.1 = true -> quits k = false ->
  decode d (from_keyboard (stroke_bytes k)) = (hold k.1 k.2 d, [stroke_event (past ++ [k]) k], false).
Proof.
  intros Hrem Hctl Halt Hcode Hq. destruct k as [code p]. cbn [fst snd] in *. pose proof (key_code_range code Hcode) as Hrange. unfold key_code in Hcode. destruct (scancode_bits (low code) p ltac:(lia) ltac:(lia)) as (Hne & Hp & Hl & H0 & H1).
  pose proof (remembers_hold d past code p Hctl Halt Hrem) as (_ & Hls & Hrs & Hct & Hal). destruct Hrem as (He & _).
  assert (Hkey : forall d', extended d' = negb (code <? 256) -> set_extended false d' = d -> key_step d' (low code + if p then 0 else 128) = (hold code p d, [stroke_event (past ++ [(code, p)]) (code, p)], false)).
  { intros d' Hext Hd'. unfold key_step. destruct (Z.eqb_spec (low code + if p then 0 else 128) 0xE0) as [|_]; [done|]. cbv zeta. rewrite Hp, Hl, Hext, Hd'.
    assert (Hlor : Z.lor (low code) (if negb (code <? 256) then 0x100 else 0) = code) by (destruct (code <? 256) eqn:Hs; cbn [negb]; [rewrite H0|rewrite H1]; unfold low; rewrite Hs; [done|apply Z.sub_add]). rewrite Hlor.
    unfold quits in Hq. cbn [fst snd] in Hq. rewrite Hq. unfold key_event, stroke_event, shift. cbn [fst snd]. cbv zeta.
    rewrite modifiers_sum, ascii_us, Hls, Hrs, Hct, Hal; [done|exact Hrange]. }
  unfold stroke_bytes. cbn [fst snd]. destruct (code <? 256) eqn:Hs.
  - cbn [app from_keyboard fmap list_fmap decode]. rewrite Hkey; [done|done|]. destruct d. cbn in He. by rewrite He.
  - cbn [app from_keyboard fmap list_fmap decode]. change (key_step d 0xE0) with (set_extended true d, @nil event, false). cbv iota beta. rewrite Hkey; [done|done|]. destruct d. cbn in He. by rewrite He.
Qed.

Lemma strokes_decoded l : forall d past, remembers d past -> plain_strokes l -> apart 0x1D 0x11D past l = true -> apart 0x38 0x138 past l = true ->
  exists d', decode d (from_keyboard (concat (stroke_bytes <$> l))) = (d', stroke_events past l, false) /\ extended d' = false.
Proof.
  induction l as [|k l IH]; intros d past Hrem Hall Hctl Halt; [exists d; split; [done|apply Hrem]|]. apply Forall_cons in Hall as [[Hc Hq] Hall]. cbn [apart] in Hctl, Halt. apply andb_true_iff in Hctl as [Hc1 Hctl], Halt as [Ha1 Halt].
  cbn [fmap list_fmap concat]. unfold from_keyboard in *. rewrite fmap_app, decode_app.
  fold (from_keyboard (stroke_bytes k)). rewrite (stroke_decoded d past k) by done. destruct k as [code p]. destruct (IH (hold code p d) (past ++ [(code, p)])) as (d' & Hd & Hx); [by apply remembers_hold|done..|].
  exists d'. cbn [fst snd]. by rewrite Hd.
Qed.

(** ** What the mouse says *)

(** A report: how far it moved, up being positive, and the buttons down. *)
Definition report : Type := Z * Z * Z.
Definition report_bytes (r : report) : list Z :=
  let '(dx, dy, b) := r in [8 + b + (if dx <? 0 then 16 else 0) + (if dy <? 0 then 32 else 0); dx mod 256; dy mod 256].
Definition report_ok (r : report) : Prop := let '(dx, dy, b) := r in -256 <= dx <= 255 /\ -256 <= dy <= 255 /\ 0 <= b < 8.
Definition report_event (r : report) : event := let '(dx, dy, b) := r in (TAG_POINTER, [wrap dx; wrap (- dy); b; 0]).

Lemma flag_bits b (sx sy : bool) : 0 <= b < 8 -> let flags := 8 + b + (if sx then 16 else 0) + (if sy then 32 else 0) in
  Z.land flags 8 <> 0 /\ Z.land flags 0xC0 = 0 /\ negb (Z.land flags 0x10 =? 0) = sx /\ negb (Z.land flags 0x20 =? 0) = sy /\ Z.land flags 7 = b.
Proof. intros Hb. assert (b = 0 \/ b = 1 \/ b = 2 \/ b = 3 \/ b = 4 \/ b = 5 \/ b = 6 \/ b = 7) as Hcase by lia. destruct sx, sy; repeat destruct Hcase as [->|Hcase]; subst; vm_compute; split_and!; done. Qed.

Lemma report_decoded d r : decoder_ok d -> filled d = 0%nat -> report_ok r -> exists d', decode d (from_mouse (report_bytes r)) = (d', [report_event r], false) /\ decoder_ok d' /\ filled d' = 0%nat.
Proof.
  destruct r as [[dx dy] b]. intros [Hl Hf] Hz (Hx & Hy & Hb). destruct d as [x1 x2 x3 x4 x5 p n]. cbn in Hl, Hz. subst n. destruct p as [|p0 [|p1 [|p2 [|? ?]]]]; try done.
  destruct (flag_bits b (dx <? 0) (dy <? 0) Hb) as (F1 & F2 & F3 & F4 & F5). cbn [report_bytes from_mouse fmap list_fmap decode]. set (flags := 8 + b + _ + _) in *. clearbody flags.
  unfold mouse_step at 1. cbn [filled packet Nat.eqb]. rewrite (proj2 (Z.eqb_neq _ _) F1). cbn [andb insert list_insert Nat.ltb Nat.leb set_packet].
  unfold mouse_step at 1. cbn [filled packet Nat.eqb andb insert list_insert Nat.ltb Nat.leb set_packet].
  unfold mouse_step at 1. cbn [filled packet Nat.eqb andb insert list_insert Nat.ltb Nat.leb set_packet app]. 
  assert (Hm : forall v, -256 <= v <= 255 -> v mod 256 - (if v <? 0 then 256 else 0) = v).
  { intros v Hv. destruct (Z.ltb_spec v 0); [|rewrite Z.mod_small; lia]. rewrite <- (Z_mod_plus_full v 1 256), Z.mod_small; lia. }
  unfold pointer_event. rewrite F2, F3, F4, F5, !Hm by done. cbn [Z.eqb negb report_event app]. eexists. split; [reflexivity|]. split; [split; [done|cbn; lia]|done].
Qed.

Lemma reports_decoded l : forall d, decoder_ok d -> filled d = 0%nat -> Forall report_ok l ->
  exists d', decode d (from_mouse (concat (report_bytes <$> l))) = (d', report_event <$> l, false) /\ filled d' = 0%nat.
Proof.
  induction l as [|r l IH]; intros d Hd Hz Hall; [by exists d|]. apply Forall_cons in Hall as [Hr Hall]. cbn [fmap list_fmap concat]. unfold from_mouse in *. rewrite fmap_app, decode_app.
  destruct (report_decoded d r Hd Hz Hr) as (d1 & Hd1 & Hok & Hz1). unfold from_mouse in Hd1. rewrite Hd1. destruct (IH d1 Hok Hz1 Hall) as (d' & Hd' & Hf). exists d'. by rewrite Hd'.
Qed.

(** A report that has only begun says nothing yet. *)
Lemma begun_silent l d : filled d = 0%nat -> (length l < 3)%nat -> exists d', decode d (from_mouse l) = (d', [], false).
Proof.
  intros Hz Hl. destruct l as [|a [|b [|? ?]]]; cbn in Hl; [by eexists|..|lia]; cbn [from_mouse fmap list_fmap decode]; unfold mouse_step at 1; rewrite Hz; cbn [Nat.eqb andb Nat.ltb Nat.leb];
    (destruct (Z.land a 8 =? 0); [|by eexists]); [by eexists|]. unfold mouse_step. rewrite Hz. cbn [Nat.eqb andb Nat.ltb Nat.leb]. destruct (Z.land b 8 =? 0); by eexists.
Qed.

(** Bytes that cannot start a report are passed over. *)
Lemma junk_passed l rest : forall d, filled d = 0%nat -> Forall (fun b => Z.land b 8 = 0) l -> decode d (from_mouse (l ++ rest)) = decode d (from_mouse rest).
Proof.
  induction l as [|b l IH]; intros d Hz Hall; [done|]. apply Forall_cons in Hall as [Hb Hall]. unfold from_mouse. rewrite <- app_comm_cons, fmap_cons. cbn [decode]. unfold mouse_step. rewrite Hz, Hb. cbn [Nat.eqb Z.eqb andb].
  specialize (IH d Hz Hall). unfold from_mouse in *. rewrite IH.
  by destruct (decode d ((fun b => (true, b)) <$> rest)) as [[? ?] ?].
Qed.

(** ** Results *)

Lemma to_i64_wrap v : - 2 ^ 63 <= v < 2 ^ 63 -> to_i64 (wrap v) = v.
Proof.
  intros Hv. unfold to_i64, wrap. destruct (Z.ltb_spec v 0).
  - replace (v mod 2 ^ 64) with (v + 2 ^ 64) by (rewrite <- (Z_mod_plus_full v 1), Z.mod_small; lia). destruct (Z.ltb_spec (v + 2 ^ 64) (2 ^ 63)); lia.
  - rewrite Z.mod_small by lia. destruct (Z.ltb_spec v (2 ^ 63)); lia.
Qed.

(** Who a click at a pixel gives the keyboard to. *)
Definition owner_at (c : Compositor) (px py : Z) : option Z := i ← front c px py; e ← surfaces c !! i; Some (owner e).

Lemma raised_focus c px py c' : raised c px py c' -> focus c' = owner_at c px py /\ cursor_x c' = cursor_x c /\ cursor_y c' = cursor_y c /\ buttons c' = buttons c.
Proof.
  unfold raised, owner_at. destruct (front c px py) as [i|]; [|by intros ->]. intros (t & e & e_top & _ & He & _ & ->). cbn [mbind option_bind]. rewrite He. by destruct (t =? i)%nat.
Qed.

Lemma newly_pressed b old : (Z.land (Z.land b (Z.lxor U64_MAX old)) 1 =? 0) = negb (Z.testbit b 0 && negb (Z.testbit old 0)).
Proof.
  change 1 with (Z.ones 1). rewrite Z.land_ones by lia. change (2 ^ 1) with 2. rewrite <- Z.bit0_mod, !Z.land_spec, Z.lxor_spec. change (Z.testbit U64_MAX 0) with true. by destruct (Z.testbit b 0), (Z.testbit old 0).
Qed.

Lemma owner_at_surfaces c c' px py : surfaces c' = surfaces c -> owner_at c' px py = owner_at c px py.
Proof. intros Hs. unfold owner_at. by rewrite (front_surfaces c c' px py Hs), Hs. Qed.

(** The pointer moved by a report's words. *)
Lemma pointer_moves c dx dy b : compositor_ok c -> -256 <= dx <= 255 -> -256 <= dy <= 256 ->
  let px := clamped (cursor_x c + dx) (i_width (screen c)) in let py := clamped (cursor_y c + dy) (i_height (screen c)) in
  exists s1, pointer dx dy b c = (Ok tt, s1) /\ accounts c s1 /\ cursor_x s1 = px /\ cursor_y s1 = py /\ buttons s1 = b /\
    focus s1 = (if Z.testbit b 0 && negb (Z.testbit (buttons c) 0) then owner_at c px py else focus c).
Proof.
  intros Hok Hx Hy. pose proof (d_geometry _ (c_display _ Hok)) as [_ Hw Hh _]. destruct (c_cursor _ Hok) as [Hxc Hyc]. cbv zeta.
  remember (clamped (cursor_x c + dx) (i_width (screen c))) as px eqn:Epx. remember (clamped (cursor_y c + dy) (i_height (screen c))) as py eqn:Epy.
  destruct (pointer_spec c dx dy b px py Hok) as (Hcx & Hcy & s1 & Hrun & Hmv & Hrs); [by rewrite to_i64_wrap by lia|by rewrite to_i64_wrap by lia|]. rewrite newly_pressed in Hmv, Hrs.
  exists s1. split; [exact Hrun|]. pose proof (moved_accounts c px py b Hok Hcx Hcy) as Hm.
  destruct (Z.testbit b 0 && negb (Z.testbit (buttons c) 0)); [|rewrite (Hmv eq_refl); split_and!; [exact Hm|reflexivity..]]. pose proof (Hrs eq_refl) as Hs. destruct (raised_focus _ _ _ _ Hs) as (Hf & -> & -> & ->).
  split; [eapply accounts_trans; [exact Hm|]; by eapply raised_accounts; [apply (a_ok _ _ Hm)|]|]. split_and!; [reflexivity..|]. rewrite Hf. by apply owner_at_surfaces.
Qed.

(** The input daemon's pointer message. *)
Lemma pointer_message `{Display} c sender dx dy b s1 : input_source c = Some sender -> -256 <= dx <= 255 -> -256 <= dy <= 256 -> pointer dx dy b c = (Ok tt, s1) ->
  message sender TAG_POINTER (wrap dx) (wrap dy) b 0 c = compose s1.
Proof.
  intros Hsrc Hx Hy Hrun. unfold message. erewrite crun_bind; [|reflexivity]. cbv zeta. rewrite (bool_decide_eq_true_2 _ Hsrc), orb_true_r. rewrite !to_i64_wrap by lia.
  change ((TAG_POINTER =? TAG_INPUT_SOURCE)) with false. change (TAG_POINTER =? TAG_SHUTDOWN) with false. change (TAG_POINTER =? TAG_POINTER) with true. cbn [andb]. by erewrite crun_bind.
Qed.

Module Devices.

(** C36: what the devices said is what is sent. A fresh daemon hears enough interrupts, at
    each of which it takes up to 64 bytes from a controller that behaves as documented.
    What waits there, up to the escape key if that goes down, is the two devices' bytes
    interleaved in any way. The keyboard's are any keys (without the code 0x60, whose
    release is the prefix of the others) going down and up, the two control keys not used
    together, nor the two alt keys. The mouse's are bytes whose bit 3 is clear, then any
    whole reports that have not overflowed, then at most two bytes more. The daemon sends
    one event for each stroke, in order: the character the US layout has for the key when
    it goes down, its code, whether it went down, and one bit for each of shift, control
    and alt that is held by then; one event for each report, in order, with its movement
    in screen directions and its buttons; and nothing else. If escape goes down it then
    asks the compositor to shut down and exits, whatever follows. *)
Theorem devices_decoded {T} `{Controller T} `{!ControllerLaws (T := T)} (s : Daemon (T := T)) (before : list (bool * Z)) (escape : option (list (bool * Z))) strokes junk reports begun n :
  decoder s = Decoder_new -> pending (ports s) = before ++ match escape with Some rest => (false, 0x01) :: rest | None => [] end ->
  keyboard_bytes before = from_keyboard (concat (stroke_bytes <$> strokes)) -> mouse_bytes before = from_mouse (junk ++ concat (report_bytes <$> reports) ++ begun) ->
  plain_strokes strokes -> apart 0x1D 0x11D [] strokes = true -> apart 0x38 0x138 [] strokes = true ->
  Forall (fun b => Z.land b 8 = 0) junk -> Forall report_ok reports -> (length begun < 3)%nat -> (length before < 64 * n)%nat ->
  exists s' evs, interrupts n s = (if escape then Err (Exited 0) else Ok tt, s') /\ events s' = events s ++ evs ++ (if escape then [(TAG_SHUTDOWN, [0; 0; 0; 0])] else []) /\
    tagged TAG_KEY evs = stroke_events [] strokes /\ tagged TAG_POINTER evs = report_event <$> reports /\ of_devices evs.
Proof.
  intros Hnew Hpend Hkeys Hmice Hstrokes Hctl Halt Hjunk Hreports Hbegun Hn. assert (Hok : decoder_ok Decoder_new) by (split; cbn; lia).
  destruct (strokes_decoded strokes Decoder_new [] ltac:(done) Hstrokes Hctl Halt) as (dk & Hdk & Hx). destruct (reports_decoded reports Decoder_new Hok eq_refl Hreports) as (dm & Hdm & Hf). destruct (begun_silent begun dm Hf Hbegun) as (dm' & Hdm').
  destruct (decode_split before Decoder_new Decoder_new Decoder_new dk (stroke_events [] strokes) dm' (report_event <$> reports)) as (d & evs & Hd & Hk & Hm & Hof & Hkd); [done|done|by rewrite Hkeys| |].
  { rewrite Hmice, junk_passed by done. unfold from_mouse in *. rewrite fmap_app, decode_app, Hdm, Hdm'. by rewrite app_nil_r. }
  assert (Hext : extended d = false) by (unfold keyboard_part in Hkd; congruence).
  pose proof (interrupts_run n s ltac:(by rewrite Hnew)) as Hrun. rewrite Hpend, take_app_ge, Hnew, decode_app, Hd in Hrun by lia. destruct escape as [rest|].
  - replace (64 * n - length before)%nat with (S (64 * n - length before - 1)) in Hrun by lia. cbn [take decode] in Hrun. unfold key_step in Hrun. rewrite Hext in Hrun. cbn in Hrun.
    destruct Hrun as [p Hrun]. eexists _, evs. split; [exact Hrun|]. done.
  - rewrite take_nil in Hrun. cbn [decode] in Hrun. rewrite app_nil_r in Hrun. destruct Hrun as [p Hrun]. exists (after (set_ports p s) d evs), evs. by rewrite app_nil_r.
Qed.

(** C37: the pointer follows the mouse. An interrupt on which the input daemon, between two
    of the mouse's reports, finds one waiting (one that has not overflowed) makes it send
    one event, and the compositor that was told to believe the daemon, handling that
    event's words, moves the pointer by as much as the mouse moved, up to the edges of the
    screen, and has the buttons it reported; if the left one went down the owner of the
    surface seen under the pointer has the keyboard from then on, and nobody has it if
    there is none. *)
Theorem pointer_follows_mouse {T} `{Controller T} `{!ControllerLaws (T := T)} (s : Daemon (T := T)) c sender dx dy b :
  decoder_ok (decoder s) -> filled (decoder s) = 0%nat -> pending (ports s) = from_mouse (report_bytes (dx, dy, b)) ->
  compositor_ok c -> input_source c = Some sender -> report_ok (dx, dy, b) ->
  exists s' w0 w1 w2 w3, hear KERNEL_SENDER TAG_IRQ s = (Ok tt, s') /\ events s' = events s ++ [(TAG_POINTER, [w0; w1; w2; w3])] /\
  forall `{Display}, exists c', message sender TAG_POINTER w0 w1 w2 w3 c = (Ok tt, c') /\
    let px := clamped (cursor_x c + dx) (i_width (screen c)) in let py := clamped (cursor_y c - dy) (i_height (screen c)) in
    cursor_x c' = px /\ cursor_y c' = py /\ buttons c' = b /\ focus c' = (if Z.testbit b 0 && negb (Z.testbit (buttons c) 0) then owner_at c px py else focus c).
Proof.
  intros Hd Hz Hpend Hok Hsrc Hr. destruct (report_decoded (decoder s) (dx, dy, b) Hd Hz Hr) as (d' & Hdec & _). destruct Hr as (Hx & Hy & Hb).
  pose proof (drain_some_run 64 s Hd) as Hdrain. rewrite Hpend, take_ge, Hdec in Hdrain by (cbn; lia). destruct Hdrain as (p & Hdrain & _).
  exists (after (set_ports p s) d' [report_event (dx, dy, b)]), (wrap dx), (wrap (- dy)), b, 0. split; [exact Hdrain|]. split; [done|]. intros HD.
  destruct (pointer_moves c dx (- dy) b Hok Hx ltac:(lia)) as (s1 & Hrun & Hacc & E1 & E2 & E3 & E4). destruct (compose_runs s1 (a_ok _ _ Hacc)) as (bk & sc & Hrun2 & _ & _).
  exists (set_damage (undamaged (damage s1)) (set_scanout sc (set_back bk s1))). rewrite (pointer_message c sender dx (- dy) b s1 Hsrc Hx ltac:(lia) Hrun). split; [exact Hrun2|]. rewrite <- Z.add_opp_r. cbv zeta.
  split_and!; [exact E1|exact E2|exact E3|exact E4].
Qed.

End Devices.
