(* ===== verification/InputRuns.v ===== *)
(** * The input daemon: start-up, and concrete runs

    Setting the controller up ends whatever the hardware does and writes what it should; a
    controller with a queue of bytes, for the theorems' hypotheses; and a modifier that is
    lost. *)

From stdpp Require Import base list gmap numbers list_numbers sets.
From Stdlib Require Import Lia ZifyBool.
From S2P Require Import Prelude Compositor CompositorOrder CompositorDamage CompositorDraw CompositorPicture CompositorEvents CompositorTheorems CompositorRuns Input InputTheorems.

(** ** Setting the controller up *)

Section Init.
Context {T : Type} `{Controller T}.
Implicit Type s : Daemon (T := T).

(** [m] always returns; what it wrote depends on what it returns. *)
Definition returns_writing {A} (m : I (T := T) A) (P : A -> list (Z * Z) -> Prop) : Prop :=
  forall s, exists a s' w, m s = (Ok a, s') /\ written s' = written s ++ w /\ decoder s' = decoder s /\ events s' = events s /\ P a w.

Lemma rw_ret {A} (a : A) (P : A -> list (Z * Z) -> Prop) : P a [] -> returns_writing (mret a) P.
Proof. intros Hp s. exists a, s, []. split_and!; try done. by rewrite app_nil_r. Qed.

Lemma rw_bind {A B} (m : I (T := T) A) (k : A -> I (T := T) B) P Q : returns_writing m P -> (forall a w, P a w -> returns_writing (k a) (fun b w' => Q b (w ++ w'))) -> returns_writing (m ≫= k) Q.
Proof.
  intros Hm Hk s. destruct (Hm s) as (a & s1 & w & Hrun & Hw & Hd & He & Hp). destruct (Hk a w Hp s1) as (b & s2 & w2 & Hrun2 & Hw2 & Hd2 & He2 & Hq).
  exists b, s2, (w ++ w2). split_and!; [by erewrite irun_bind|by rewrite Hw2, Hw, app_assoc|congruence|congruence|done].
Qed.

Lemma rw_impl {A} (m : I (T := T) A) (P Q : A -> list (Z * Z) -> Prop) : returns_writing m P -> (forall a w, P a w -> Q a w) -> returns_writing m Q.
Proof. intros Hm Hpq s. destruct (Hm s) as (a & s' & w & ? & ? & ? & ? & ?). exists a, s', w. auto 6. Qed.

Lemma rw_read port : returns_writing (read_port port) (fun _ w => w = []).
Proof.
  intros s. destruct (port_read port (ports s)) as [v p] eqn:Hp. exists (v mod 256), (set_ports p s), []. split; [unfold read_port, mbind, M_bind, get; by rewrite Hp|].
  split_and!; [by rewrite app_nil_r|done..].
Qed.

Lemma rw_write port byte : returns_writing (write_port port byte) (fun _ w => w = [(port, byte)]).
Proof.
  intros s. destruct (port_write port byte (ports s)) as [ok p] eqn:Hp. exists ok, (set_written (written s ++ [(port, byte)]) (set_ports p s)), [(port, byte)].
  split; [|done]. unfold write_port, mbind, M_bind, get. by rewrite Hp.
Qed.

Lemma rw_poll n P : returns_writing (poll n P) (fun _ w => w = []).
Proof.
  induction n as [|n IH]; cbn [poll]; [by apply rw_ret|]. eapply rw_bind; [apply rw_read|]. intros v w ->. destruct (P v); [by apply rw_ret|exact IH].
Qed.

(** A write that is reported done was done, and was the only one. *)
Definition wrote (l : list (Z * Z)) (ok : bool) (w : list (Z * Z)) : Prop := ok = true -> w = l.

Lemma rw_command byte : returns_writing (command byte) (wrote [(COMMAND, byte)]).
Proof. unfold command. eapply rw_bind; [apply rw_poll|]. intros [] w ->; [eapply rw_impl; [apply rw_write|]; by intros a w -> _|by apply rw_ret]. Qed.

Lemma rw_write_data byte : returns_writing (write_data byte) (wrote [(DATA, byte)]).
Proof. unfold write_data. eapply rw_bind; [apply rw_poll|]. intros [] w ->; [eapply rw_impl; [apply rw_write|]; by intros a w -> _|by apply rw_ret]. Qed.

Lemma rw_both a b l1 l2 : returns_writing a (wrote l1) -> returns_writing b (wrote l2) -> returns_writing (both a b) (wrote (l1 ++ l2)).
Proof. intros Ha Hb. eapply rw_bind; [exact Ha|]. intros [] w Hw; [|by apply rw_ret]. eapply rw_impl; [exact Hb|]. intros x w2 Hw2 Hx. by rewrite (Hw eq_refl), (Hw2 Hx). Qed.

Lemma rw_discard n : returns_writing (discard n) (fun _ w => w = []).
Proof.
  induction n as [|n IH]; cbn [discard]; [by apply rw_ret|]. eapply rw_bind; [apply rw_read|]. intros v w ->. destruct (Z.land v _ =? 0); [by apply rw_ret|].
  eapply rw_bind; [apply rw_read|]. intros v' w ->. exact IH.
Qed.

Lemma rw_read_data : returns_writing read_data (fun _ w => w = []).
Proof. unfold read_data. eapply rw_bind; [apply rw_poll|]. intros [] w ->; [|by apply rw_ret]. eapply rw_bind; [apply rw_read|]. intros v w ->. by apply rw_ret. Qed.

(** What is written when all goes well, with the configuration byte that was read. *)
Definition setting_up (config : Z) : list (Z * Z) :=
  [(COMMAND, 0xAD); (COMMAND, 0xA7); (COMMAND, 0x20); (COMMAND, 0x60); (DATA, configure config); (COMMAND, 0xAE); (COMMAND, 0xA8)].

(** Setting up ends, whatever the ports answer; when it says the controller is ready, the
    configuration was written, from the byte read, between turning both devices off and on
    again. *)
Lemma init_controller_spec : returns_writing init_controller (fun ok w => ok = true -> exists config rest, w = setting_up config ++ rest).
Proof.
  unfold init_controller. eapply rw_bind; [apply rw_both; apply rw_command|]. intros [] w1 H1; [|by apply rw_ret]. eapply rw_bind; [apply rw_discard|]. intros _ w ->.
  eapply rw_bind; [apply rw_command|]. intros [] w2 H2; [|by apply rw_ret]. eapply rw_bind; [apply rw_read_data|]. intros [config|] w ->; [|by apply rw_ret].
  eapply rw_bind; [apply rw_both; [apply rw_command|apply rw_write_data]|]. intros [] w3 H3; [|by apply rw_ret].
  eapply rw_bind; [apply rw_both; apply rw_command|]. intros [] w4 H4; [|by apply rw_ret]. eapply rw_bind; [apply rw_both; [apply rw_command|apply rw_write_data]|]. intros told w5 _.
  eapply rw_bind with (P := fun _ w => w = []); [destruct told; [eapply rw_bind; [apply rw_read_data|]; intros ? w ->|]; by apply rw_ret|]. intros _ w ->. apply rw_ret. intros _. exists config, w5.
  by rewrite (H1 eq_refl), (H2 eq_refl), (H3 eq_refl), (H4 eq_refl), !app_nil_r.
Qed.

End Init.

(** Both interrupts and the translation are on, neither clock is off, and the other two
    bits are as they were. *)
Lemma configure_bits config i : 0 <= i < 8 -> Z.testbit (configure config) i = if (i =? 4) || (i =? 5) then false else if (i =? 0) || (i =? 1) || (i =? 6) then true else Z.testbit config i.
Proof.
  intros Hi. unfold configure. rewrite Z.land_spec, Z.lor_spec.
  assert (i = 0 \/ i = 1 \/ i = 2 \/ i = 3 \/ i = 4 \/ i = 5 \/ i = 6 \/ i = 7) as Hcase by lia.
  repeat destruct Hcase as [->|Hcase]; subst; cbn; by rewrite ?andb_true_r, ?andb_false_r, ?orb_true_r, ?orb_false_r.
Qed.

(** ** A controller with a queue *)

Definition queue : Type := list (bool * Z).

#[local] Instance queue_controller : Controller queue := {|
  port_read := fun port (q : queue) =>
    if port =? COMMAND then (match q with [] => 0 | (m, _) :: _ => if m then 33 else 1 end, q)
    else match q with [] => (0, []) | (_, b) :: rest => (b mod 256, rest : queue) end;
  port_write := fun _ _ q => (true, q);
|}.

#[local] Instance queue_laws : ControllerLaws (T := queue).
Proof.
  refine {| pending := fun q : queue => (fun e => (e.1, e.2 mod 256)) <$> q |}.
  - intros p. apply Forall_fmap, Forall_forall. intros [m b] _. cbn. apply Z.mod_pos_bound. lia.
  - intros p v p' Hr. cbn in Hr. injection Hr as <- <-. split; [done|]. destruct p as [|[[] b] p]; cbn; [done|split; [done|split; intros Hx; done]..].
  - intros p m b rest v p' Hp Hr. destruct p as [|[m' b'] p]; [done|]. cbn in Hp. injection Hp as -> <- <-. cbn in Hr. by injection Hr as <- <-.
Defined.

(** Shift and a, control let go and pressed on the other side, with the mouse in between,
    starting on a stray byte; then escape, in the middle of another report, and more. *)
Definition said_before : queue := [(true, 0); (false, 0x2A); (true, 9); (false, 0x1E); (true, 5); (true, 3); (false, 0x9E); (false, 0x1D); (false, 0x9D); (false, 0xE0); (true, 8); (false, 0x1D)].
Definition strokes_said : list stroke := [(0x2A, true); (0x1E, true); (0x1E, false); (0x1D, true); (0x1D, false); (0x11D, true)].
Definition idle : Daemon (T := queue) := {| decoder := Decoder_new; ports := said_before ++ (false, 0x01) :: [(false, 0x10)]; events := []; written := [] |}.

Lemma devices_decoded_witness : exists s' evs, interrupts 1 idle = (Err (Exited 0), s') /\ events s' = evs ++ [(TAG_SHUTDOWN, [0; 0; 0; 0])] /\ tagged TAG_POINTER evs = [(TAG_POINTER, [5; 2 ^ 64 - 3; 1; 0])] /\
  tagged TAG_KEY evs = [(TAG_KEY, [0; 0x2A; 1; 1]); (TAG_KEY, [65; 0x1E; 1; 1]); (TAG_KEY, [0; 0x1E; 0; 1]); (TAG_KEY, [0; 0x1D; 1; 3]); (TAG_KEY, [0; 0x1D; 0; 1]); (TAG_KEY, [0; 0x11D; 1; 3])].
Proof.
  destruct (Devices.devices_decoded idle said_before (Some [(false, 0x10)]) strokes_said [0] [(5, 3, 1)] [8] 1) as (s' & evs & Hrun & He & Hk & Hp & _); try (vm_compute; reflexivity).
  - repeat constructor; vm_compute; reflexivity.
  - repeat constructor; vm_compute; reflexivity.
  - repeat constructor; cbn; lia.
  - cbn. lia.
  - cbn. lia.
  - exists s', evs. split_and!; [done|done|rewrite Hp; vm_compute; reflexivity|rewrite Hk; vm_compute; reflexivity].
Defined.

(** The compositor, told that thread 20 is the input daemon. *)
Definition told : Compositor := set_input_source (Some 20) two_up.

Lemma told_ok c v : compositor_ok c -> compositor_ok (set_input_source v c).
Proof. intros Hok. apply (a_ok c). by apply accounts_scene. Qed.

Definition moved_mouse : Daemon (T := queue) := {| decoder := Decoder_new; ports := from_mouse (report_bytes (-1, -1, 1)); events := []; written := [] |}.

Lemma pointer_follows_mouse_witness : exists s' w0 w1 w2 w3, hear KERNEL_SENDER TAG_IRQ moved_mouse = (Ok tt, s') /\ events s' = [(TAG_POINTER, [w0; w1; w2; w3])] /\
  exists c', message (H := two_clients) 20 TAG_POINTER w0 w1 w2 w3 told = (Ok tt, c') /\ cursor_x c' = 1 /\ cursor_y c' = 2 /\ focus c' = None.
Proof.
  destruct (Devices.pointer_follows_mouse moved_mouse told 20 (-1) (-1) 1) as (s' & w0 & w1 & w2 & w3 & Hrun & He & Hc); [split; cbn; lia|done|vm_compute; reflexivity| |done|cbn; lia|].
  - apply told_ok, two_up_ok.
  - exists s', w0, w1, w2, w3. split_and!; [done|done|]. destruct (Hc two_clients) as (c' & Hmsg & Hx & Hy & _ & Hf). exists c'. split; [done|]. rewrite Hx, Hy, Hf. split_and!; vm_compute; reflexivity.
Defined.

(** Both control keys are one flag: letting one of them go while the other is down, the
    letter pressed then is reported without the modifier. *)
Definition both_controls : queue := from_keyboard (concat (stroke_bytes <$> [(0x1D, true); (0x11D, true); (0x11D, false); (0x1E, true)])).

Example control_lost : last (events (snd (interrupts 1 {| decoder := Decoder_new; ports := both_controls; events := []; written := [] |}))) = Some (TAG_KEY, [97; 0x1E; 1; 0]).
Proof. vm_compute. reflexivity. Qed.

(** With no controller every read finds all bits set: the daemon gives up. *)
#[local] Instance absent : Controller unit := {| port_read := fun _ _ => (255, tt); port_write := fun _ _ _ => (true, tt) |}.

Example absent_refused : fst (start (T := unit) true true {| decoder := Decoder_new; ports := tt; events := []; written := [] |}) = Err (Exited 1).
Proof. vm_compute. reflexivity. Qed.
