(* ===== verification/Timer.v ===== *)
(** * One-shot timers (kernel/src/timer.rs) and the clock (kernel/src/time.rs)

    A timer is a message the kernel sends to its owner when a tick finds it due.  A tick
    that is early by the clock kept beside the list does not look at the list at all;
    that no timer is ever missed by it is what is shown. *)

From stdpp Require Import base list gmap numbers.
From Stdlib Require Import Lia.
From S2P Require Import Prelude Quota Ipc IpcTheorems.

(** ** The clock *)

Record Clock : Type := { c_ticks : Z; c_frequency : Z; c_cpu_ticks : list Z }.

(** Counters wrap, as [fetch_add] does. *)
Definition clock_tick (cpu : nat) (c : Clock) : Clock :=
  {| c_ticks := if bool_decide (cpu = 0%nat) then (c_ticks c + 1) mod (U64_MAX + 1) else c_ticks c;
     c_frequency := c_frequency c;
     c_cpu_ticks := alter (fun n => (n + 1) mod (U64_MAX + 1)) cpu (c_cpu_ticks c) |}.

Definition uptime_ms (c : Clock) : Z :=
  if c_frequency c =? 0 then 0 else saturating_mul U64_MAX (c_ticks c) 1000 / c_frequency c.

(** ** Timers *)

Definition TAG_TIMER : Z := 0x3_0000.
Definition PER_THREAD : Z := 8.

Record Timer : Type := {
  t_deadline : Z;
  t_owner : nat;
  t_endpoint : Z;
  t_cookie : Z;
}.

(** [TIMERS] and [NEXT] *)
Record Timers : Type := { t_list : list Timer; t_next : Z }.
Definition no_timers : Timers := {| t_list := []; t_next := U64_MAX |}.

Definition timer_deadline (now hz ms : Z) : Z :=
  saturating_add U64_MAX now (Z.max (div_ceil (saturating_mul U64_MAX ms (Z.max hz 1)) 1000) 1).

Definition other_timer (owner : nat) (endpoint : Z) (t : Timer) : Prop :=
  t_owner t <> owner \/ t_endpoint t <> endpoint.
#[global] Instance other_timer_dec owner endpoint t : Decision (other_timer owner endpoint t).
Proof. unfold other_timer. apply _. Defined.

Definition timers_owned_by (owner : nat) (l : list Timer) : Z :=
  Z.of_nat (length (filter (fun t => t_owner t = owner) l)).

(** [sys_set]; the registry and the clock are only read. *)
Definition sys_timer_set (r : Registry) (clock : Clock) (current : option nat) (endpoint ms cookie : Z) : M Timers Error Z :=
  owner ← lift (ok_or InvalidArgument current);
  guard_err (negb (r_contains (rights_of r owner endpoint) R_RECEIVE)) NoCapability ;;
  let deadline := timer_deadline (c_ticks clock) (c_frequency clock) ms in
  modify (fun s => {| t_list := filter (other_timer owner endpoint) (t_list s); t_next := t_next s |}) ;;
  s ← get;
  guard_err (timers_owned_by owner (t_list s) >=? PER_THREAD) QuotaExceeded ;;
  let t := {| t_deadline := deadline; t_owner := owner; t_endpoint := endpoint; t_cookie := cookie |} in
  put {| t_list := t_list s ++ [t]; t_next := Z.min (t_next s) deadline |} ;;
  mret 0.

Definition due (now : Z) (l : list Timer) : list Timer := filter (fun t => t_deadline t <= now) l.
Definition pending_timers (now : Z) (l : list Timer) : list Timer := filter (fun t => ~ t_deadline t <= now) l.

Definition soonest (l : list Timer) : Z := fold_right (fun t m => Z.min m (t_deadline t)) U64_MAX l.

(** The part of [on_tick] under the lock. *)
Definition timer_collect (now : Z) (s : Timers) : list Timer * Timers :=
  (due now (t_list s),
   {| t_list := pending_timers now (t_list s); t_next := soonest (pending_timers now (t_list s)) |}).

Definition timer_message (t : Timer) : Message :=
  {| m_tag := TAG_TIMER; m_words := [t_cookie t; 0; 0; 0]; m_sender := 0; m_sender_user := 0 |}.

(** Notifying the owners in turn, what goes wrong being ignored; with the threads to wake. *)
Fixpoint fire (users : gmap nat Z) (l : list Timer) (r : Registry) : list nat * Registry :=
  match l with
  | [] => ([], r)
  | t :: rest =>
      let '(o, r1) := notify users (t_endpoint t) (timer_message t) r in
      let '(woken, r2) := fire users rest r1 in
      (match o with Ok (Some w) => w :: woken | _ => woken end, r2)
  end.

Definition on_tick (users : gmap nat Z) (now : Z) (s : Timers) (r : Registry) : list nat * Timers * Registry :=
  if now <? t_next s then ([], s, r)
  else
    let '(l, s') := timer_collect now s in
    let '(woken, r') := fire users l r in
    (woken, s', r').

Definition timer_release (thread : nat) (s : Timers) : Timers :=
  {| t_list := filter (fun t => t_owner t <> thread) (t_list s); t_next := t_next s |}.

(** ** What is kept true *)

Record timers_ok (s : Timers) : Prop := {
  tk_next : Forall (fun t => t_next s <= t_deadline t) (t_list s);
  tk_one : forall owner endpoint,
    (length (filter (fun t => t_owner t = owner /\ t_endpoint t = endpoint) (t_list s)) <= 1)%nat;
  tk_few : forall owner, timers_owned_by owner (t_list s) <= PER_THREAD;
}.

(** What can happen to the timers, whatever the registry and the clock say. *)
Inductive timer_step : Timers -> Timers -> Prop :=
| ts_set s r clock current endpoint ms cookie :
    timer_step s (snd (sys_timer_set r clock current endpoint ms cookie s))
| ts_collect s now : timer_step s (snd (timer_collect now s))
| ts_release s thread : timer_step s (timer_release thread s).

Lemma soonest_le l : Forall (fun t => soonest l <= t_deadline t) l.
Proof.
  induction l as [|t l IH]; constructor; simpl; [lia|]. eapply Forall_impl; [|exact IH]. intros x Hx. simpl in *. lia.
Qed.

(** A shorter list asks for less. *)
Lemma filter_shorter `{forall x : Timer, Decision (P x)} `{forall x : Timer, Decision (Q x)} (l : list Timer) :
  (length (filter P (filter Q l)) <= length (filter P l))%nat.
Proof.
  induction l as [|t l IH]; [done|]. rewrite (filter_cons Q). destruct (decide (Q t)); rewrite !(filter_cons P);
    destruct (decide (P t)); simpl; lia.
Qed.

Lemma shorter_ok s l next : (forall (P : Timer -> Prop) (dec : forall x, Decision (P x)),
    (length (filter P l) <= length (filter P (t_list s)))%nat) ->
  Forall (fun t => next <= t_deadline t) l -> timers_ok s -> timers_ok {| t_list := l; t_next := next |}.
Proof.
  intros Hl Hnext [_ H2 H3]. split; simpl; [done| |].
  - intros owner endpoint. etrans; [apply Hl|apply H2].
  - intros owner. etrans; [|apply (H3 owner)]. unfold timers_owned_by. apply inj_le, Hl.
Qed.

Lemma same_gone owner endpoint (l : list Timer) :
  filter (fun t => t_owner t = owner /\ t_endpoint t = endpoint) (filter (other_timer owner endpoint) l) = [].
Proof.
  unfold other_timer. induction l as [|t l IH]; [done|]. rewrite (filter_cons (other_timer owner endpoint)). unfold other_timer.
  case_decide; [|exact IH]. rewrite filter_cons_False; [exact IH|tauto].
Qed.

Lemma timer_set_ok r clock current endpoint ms cookie s :
  timers_ok s -> timers_ok (snd (sys_timer_set r clock current endpoint ms cookie s)).
Proof.
  intros Hs. unfold sys_timer_set. unfold mbind, M_bind, lift, modify, guard_err, get, put, mret, M_ret, fail. simpl.
  destruct current as [owner|]; simpl; [|done]. destruct (negb _); simpl; [done|].
  assert (timers_ok {| t_list := filter (other_timer owner endpoint) (t_list s); t_next := t_next s |}) as Hf.
  { apply (shorter_ok s); [intros; apply filter_shorter| |done]. apply filter_Forall_keep, Hs. }
  destruct (_ >=? _) eqn:Hq; simpl; [done|]. destruct Hf as [H1 H2 H3]. simpl in *. split; simpl.
  - apply Forall_app. split; [|constructor; [simpl; lia|constructor]]. eapply Forall_impl; [|exact H1]. intros x Hx. simpl in *. lia.
  - intros owner' endpoint'. rewrite list.filter_app, length_app, (filter_cons _ _ []). simpl.
    destruct (decide (owner = owner' /\ endpoint = endpoint')) as [[<- <-]|Hne]; [by rewrite same_gone|].
    specialize (H2 owner' endpoint'). simpl. lia.
  - intros owner'. unfold timers_owned_by in *. rewrite list.filter_app, length_app, (filter_cons _ _ []). specialize (H3 owner'). simpl.
    destruct (decide (owner = owner')) as [->|]; simpl; lia.
Qed.

Lemma timer_step_ok s s' : timer_step s s' -> timers_ok s -> timers_ok s'.
Proof.
  intros [s0 r clock current endpoint ms cookie|s0 now|s0 thread] Hs; [by apply timer_set_ok| |].
  - apply (shorter_ok s0); [intros; apply filter_shorter|apply soonest_le|done].
  - apply (shorter_ok s0); [intros; apply filter_shorter| |done]. apply filter_Forall_keep, Hs.
Qed.

Lemma timers_reachable s : rtc timer_step no_timers s -> timers_ok s.
Proof.
  intros Hr. assert (timers_ok no_timers) as H0 by (split; [constructor|intros ??; simpl; lia|intros ?; done]).
  induction Hr; eauto using timer_step_ok.
Qed.

(** A tick that does not look would have found nothing. *)
Lemma early_tick now s : timers_ok s -> now < t_next s ->
  due now (t_list s) = [] /\ pending_timers now (t_list s) = t_list s.
Proof.
  intros [H1 _ _] Hn. unfold due, pending_timers. induction H1 as [|t l Ht H1 IH]; [done|].
  rewrite filter_cons_False by lia. rewrite filter_cons_True by lia. destruct IH as [-> ->]. done.
Qed.

(** Eight timers of an owner left after dropping those on one endpoint means there were
    none on it. *)
Lemma full_unchanged owner endpoint l : timers_owned_by owner l <= PER_THREAD ->
  timers_owned_by owner (filter (other_timer owner endpoint) l) >= PER_THREAD ->
  filter (other_timer owner endpoint) l = l.
Proof.
  unfold timers_owned_by, PER_THREAD. intros Hle Hge.
  assert (length (filter (fun t => t_owner t = owner) l) <=
    length (filter (fun t => t_owner t = owner) (filter (other_timer owner endpoint) l)))%nat as Hall by lia.
  clear Hle Hge. induction l as [|t l IH]; [done|]. rewrite (filter_cons (other_timer owner endpoint)) in *.
  pose proof (filter_shorter (P := fun t => t_owner t = owner) (Q := other_timer owner endpoint) l) as Hs.
  case_decide as Ho.
  - f_equal. apply IH. rewrite !(filter_cons (fun t => t_owner t = owner)) in Hall. case_decide; simpl in Hall; lia.
  - rewrite filter_cons in Hall. rewrite decide_True in Hall; [simpl in Hall; lia|].
    destruct (decide (t_owner t = owner)) as [|Hno]; [done|]. destruct Ho. by left.
Qed.

(** ** Delivery *)

(** What the owner finds: as many of the messages as there is room for. *)
Lemma fire_queue users l r e ep :
  r_endpoints r !! e = Some ep -> Z.of_nat (length (ep_queue ep)) <= ep_capacity ep ->
  exists ep', r_endpoints (snd (fire users l r)) !! e = Some ep' /\ ep_capacity ep' = ep_capacity ep /\
    ep_queue ep' = ep_queue ep ++
      take (Z.to_nat (ep_capacity ep) - length (ep_queue ep))
        (map (fun t => from_kernel (timer_message t)) (filter (fun t => t_endpoint t = e) l)).
Proof.
  revert r ep. induction l as [|t l IH]; intros r ep He Hroom.
  { exists ep. simpl. by rewrite take_nil, app_nil_r. }
  simpl. pose proof (deliver_delivers users None (t_endpoint t) (timer_message t) r) as Hd. unfold notify.
  destruct (deliver _ _ _ _ _) as [o r1] eqn:Hdel. simpl in Hd. specialize (IH r1).
  destruct (fire users l r1) as [woken r2]. simpl in *. rewrite filter_cons. case_decide as Hte.
  - subst e. revert Hdel. unfold deliver. unfold_ipc. rewrite He. simpl. destruct (_ >=? _) eqn:Hfull; intros [= <- <-].
    + destruct (IH ep He Hroom) as (ep' & ? & ? & Hq). exists ep'. split_and!; [done|done|]. rewrite Hq.
      replace (Z.to_nat (ep_capacity ep) - length (ep_queue ep))%nat with O by lia. done.
    + edestruct (IH (set_queue (ep_queue ep ++ [stamp users None (timer_message t)]) (tail (ep_waiting ep)) ep))
        as (ep' & ? & ? & Hq); [apply lookup_insert_eq|simpl; rewrite length_app; simpl; lia|].
      exists ep'. split_and!; [done|done|]. rewrite Hq. simpl. rewrite length_app, <- app_assoc. f_equal. simpl.
      replace (Z.to_nat (ep_capacity ep) - length (ep_queue ep))%nat
        with (S (Z.to_nat (ep_capacity ep) - (length (ep_queue ep) + 1))) by lia. done.
  - assert (r_endpoints r1 !! e = Some ep) as He1.
    { inversion Hd; subst; simpl; [done|]. by rewrite lookup_insert_ne. }
    destruct (IH ep He1 Hroom) as (ep' & ? & ? & ?). by exists ep'.
Qed.

(** C13: No timer is missed, none fires early and none fires twice.  In whatever order
    timers were set, fired and released, a tick at time [now] sends exactly the timers
    whose deadline has come and keeps exactly the others; every endpoint that exists gets
    the messages of its timers in the order they were set, stamped as the kernel's, as far
    as its queue has room. *)
Theorem timers_fire s users now r woken s' r' :
  rtc timer_step no_timers s -> ipc_ok r -> on_tick users now s r = (woken, s', r') ->
  t_list s' = pending_timers now (t_list s) /\
  forall e ep, r_endpoints r !! e = Some ep ->
    exists ep', r_endpoints r' !! e = Some ep' /\
      ep_queue ep' = ep_queue ep ++
        take (Z.to_nat (ep_capacity ep) - length (ep_queue ep))
          (map (fun t => from_kernel (timer_message t)) (filter (fun t => t_endpoint t = e) (due now (t_list s)))).
Proof.
  intros Hs Hr Ht. apply timers_reachable in Hs as Hok. unfold on_tick in Ht. destruct (now <? t_next s) eqn:Hn.
  - apply Z.ltb_lt in Hn. destruct (early_tick now s Hok Hn) as [Hd Hp]. simplify_eq. split; [done|]. intros e ep He.
    exists ep. rewrite Hd. simpl. by rewrite take_nil, app_nil_r.
  - simpl in Ht. destruct (fire users (due now (t_list s)) r) as [w r1] eqn:Hf. simplify_eq. split; [done|]. intros e ep He.
    destruct (fire_queue users (due now (t_list s)) r e ep He) as (ep' & He' & _ & Hq).
    + by apply (io_endpoints _ Hr e ep He).
    + exists ep'. by rewrite Hf in He'.
Qed.

(** Setting a timer.  It is refused without a right to receive on the endpoint, or when
    the caller has eight others; a refusal leaves every timer as it was.  Otherwise it
    replaces the caller's timer on that endpoint and is due one tick from now or later, and
    no other timer changes.  No thread ever has more than eight. *)
Theorem timer_set_sound s r clock current endpoint ms cookie o s' :
  rtc timer_step no_timers s -> sys_timer_set r clock current endpoint ms cookie s = (o, s') ->
  (forall owner, timers_owned_by owner (t_list s') <= 8) /\
  match o with
  | Ok _ => exists owner t, current = Some owner /\ r_contains (rights_of r owner endpoint) R_RECEIVE = true /\
      t_list s' = filter (other_timer owner endpoint) (t_list s) ++ [t] /\ t_owner t = owner /\
      t_endpoint t = endpoint /\ t_cookie t = cookie /\ (c_ticks clock < U64_MAX -> c_ticks clock < t_deadline t)
  | Err _ => t_list s' = t_list s
  | Panic => False
  end.
Proof.
  intros Hs Hset. apply timers_reachable in Hs as Hok. pose proof (timer_set_ok r clock current endpoint ms cookie s Hok) as Hok'.
  rewrite Hset in Hok'. split; [apply (tk_few _ Hok')|]. clear Hok'. revert Hset. unfold sys_timer_set.
  unfold mbind, M_bind, lift, modify, guard_err, get, put, mret, M_ret, fail. simpl. destruct current as [owner|]; simpl; [|by intros [= <- <-]].
  destruct (r_contains _ _) eqn:Hm; simpl; [|by intros [= <- <-]]. destruct (_ >=? _) eqn:Hq; simpl; intros [= <- <-].
  - apply full_unchanged; [|lia]. apply Hok.
  - exists owner. eexists. split_and!; try done. simpl. unfold timer_deadline, saturating_add. lia.
Qed.

(** ** A run *)

Module TimerRuns.

Definition at_tick (n : Z) : Clock := {| c_ticks := n; c_frequency := 100; c_cpu_ticks := [n] |}.

(** Thread 1 has endpoints 1 and 2; it sets a timer on each, and the first again. *)
Definition reg : Registry := w_ipc (outcome [CCreate 1 4; CCreate 1 1; CNotify 2 a_message]).
Definition set_one : Timers := snd (sys_timer_set reg (at_tick 10) (Some 1%nat) 1 50 7 no_timers).
Definition set_two : Timers := snd (sys_timer_set reg (at_tick 10) (Some 1%nat) 2 20 8 set_one).
Definition set_again : Timers := snd (sys_timer_set reg (at_tick 11) (Some 1%nat) 1 10 9 set_two).

Lemma set_again_reachable : rtc timer_step no_timers set_again.
Proof.
  apply (rtc_l _ _ set_one); [constructor|]. apply (rtc_l _ _ set_two); [constructor|].
  apply (rtc_l _ _ set_again); [constructor|]. apply rtc_refl.
Qed.

Lemma reg_ok : ipc_ok reg.
Proof. exact (proj2 (runs_ok _ _ (history_runs [CCreate 1 4; CCreate 1 1; CNotify 2 a_message]))). Qed.

Definition fired : list nat * Timers * Registry := on_tick ∅ 12 set_again reg.

(** Both are due; the second endpoint has no room. *)
Lemma timers_fire_witness :
  map t_cookie (due 12 (t_list set_again)) = [8; 9] /\
  t_list (snd (fst fired)) = pending_timers 12 (t_list set_again) /\
  exists ep', r_endpoints (snd fired) !! 2 = Some ep' /\ length (ep_queue ep') = 1%nat.
Proof.
  split; [reflexivity|].
  destruct (timers_fire set_again ∅ 12 reg (fst (fst fired)) (snd (fst fired)) (snd fired)
              set_again_reachable reg_ok ltac:(vm_compute; reflexivity)) as [H1 H2].
  split; [exact H1|]. destruct (H2 2 _ ltac:(vm_compute; reflexivity)) as (ep' & He & Hq).
  exists ep'. split; [exact He|]. rewrite Hq. reflexivity.
Defined.

Definition refused : result Error Z * Timers := sys_timer_set reg (at_tick 11) (Some 2%nat) 1 10 9 set_two.

Lemma set_two_reachable : rtc timer_step no_timers set_two.
Proof. apply (rtc_l _ _ set_one); [constructor|]. apply (rtc_l _ _ set_two); [constructor|]. apply rtc_refl. Qed.

Lemma timer_set_sound_witness :
  fst refused = Err NoCapability /\ t_list (snd refused) = t_list set_two /\
  timers_owned_by 1 (t_list set_again) = 2 /\ timers_owned_by 1 (t_list set_again) <= 8.
Proof.
  split; [reflexivity|]. split.
  - exact (proj2 (timer_set_sound set_two reg (at_tick 11) (Some 2%nat) 1 10 9 (Err NoCapability) (snd refused)
      set_two_reachable ltac:(vm_compute; reflexivity))).
  - split; [reflexivity|].
    exact (proj1 (timer_set_sound set_two reg (at_tick 11) (Some 1%nat) 1 10 9 (Ok 0) set_again
      set_two_reachable ltac:(vm_compute; reflexivity)) 1%nat).
Defined.

End TimerRuns.
