(* ===== verification/Sha256.v ===== *)
(** * SHA-256, HMAC and PBKDF2 (kernel/sha256/src/lib.rs)

    The hash as the code computes it, a block buffer filled from whatever pieces the
    caller passes, and as FIPS 180-4, RFC 2104 and RFC 8018 define it, on whole messages.
    Words are 32 bits and wrap; lengths are 64 bits and an overflow panics. *)

From stdpp Require Import base list numbers list_numbers.
From Stdlib Require Import Lia.
From S2P Require Import Prelude.

Abbreviation partial A := (result Empty_set A).

(** ** Words *)

Definition wrap32 (x : Z) : Z := x mod 2 ^ 32.
Definition wrapping_add (a b : Z) : Z := wrap32 (a + b).
Definition rotate_right (x n : Z) : Z := Z.lor (Z.shiftr x n) (wrap32 (Z.shiftl x (32 - n))).
Definition not32 (x : Z) : Z := Z.lxor x U32_MAX.

Fixpoint from_be_bytes (acc : Z) (l : list Z) : Z :=
  match l with [] => acc | b :: l => from_be_bytes (acc * 256 + b) l end.
Definition to_be_bytes (n : nat) (v : Z) : list Z := rev (to_le_bytes n v).

Definition K : list Z :=
  [0x428a_2f98; 0x7137_4491; 0xb5c0_fbcf; 0xe9b5_dba5; 0x3956_c25b; 0x59f1_11f1; 0x923f_82a4; 0xab1c_5ed5;
   0xd807_aa98; 0x1283_5b01; 0x2431_85be; 0x550c_7dc3; 0x72be_5d74; 0x80de_b1fe; 0x9bdc_06a7; 0xc19b_f174;
   0xe49b_69c1; 0xefbe_4786; 0x0fc1_9dc6; 0x240c_a1cc; 0x2de9_2c6f; 0x4a74_84aa; 0x5cb0_a9dc; 0x76f9_88da;
   0x983e_5152; 0xa831_c66d; 0xb003_27c8; 0xbf59_7fc7; 0xc6e0_0bf3; 0xd5a7_9147; 0x06ca_6351; 0x1429_2967;
   0x27b7_0a85; 0x2e1b_2138; 0x4d2c_6dfc; 0x5338_0d13; 0x650a_7354; 0x766a_0abb; 0x81c2_c92e; 0x9272_2c85;
   0xa2bf_e8a1; 0xa81a_664b; 0xc24b_8b70; 0xc76c_51a3; 0xd192_e819; 0xd699_0624; 0xf40e_3585; 0x106a_a070;
   0x19a4_c116; 0x1e37_6c08; 0x2748_774c; 0x34b0_bcb5; 0x391c_0cb3; 0x4ed8_aa4a; 0x5b9c_ca4f; 0x682e_6ff3;
   0x748f_82ee; 0x78a5_636f; 0x84c8_7814; 0x8cc7_0208; 0x90be_fffa; 0xa450_6ceb; 0xbef9_a3f7; 0xc671_78f2].

Definition INITIAL : list Z :=
  [0x6a09_e667; 0xbb67_ae85; 0x3c6e_f372; 0xa54f_f53a; 0x510e_527f; 0x9b05_688c; 0x1f83_d9ab; 0x5be0_cd19].

(** ** Compression *)

(** [w[i]] of an array that is long enough. *)
Definition at_ (w : list Z) (i : nat) : Z := default 0 (w !! i).

Definition expand_step (w : list Z) (i : nat) : list Z :=
  let s0 := Z.lxor (Z.lxor (rotate_right (at_ w (i - 15)) 7) (rotate_right (at_ w (i - 15)) 18)) (Z.shiftr (at_ w (i - 15)) 3) in
  let s1 := Z.lxor (Z.lxor (rotate_right (at_ w (i - 2)) 17) (rotate_right (at_ w (i - 2)) 19)) (Z.shiftr (at_ w (i - 2)) 10) in
  <[i := wrapping_add (wrapping_add (wrapping_add (at_ w (i - 16)) s0) (at_ w (i - 7))) s1]> w.

Definition first_words (block : list Z) : list Z :=
  map (from_be_bytes 0) (chunks 4 block) ++ replicate 48 0.

Definition expand (block : list Z) : list Z := fold_left expand_step (seq 16 48) (first_words block).

Record vars : Type := { va : Z; vb : Z; vc : Z; vd : Z; ve : Z; vf : Z; vg : Z; vh : Z }.

Definition round (k w : Z) (v : vars) : vars :=
  let s1 := Z.lxor (Z.lxor (rotate_right (ve v) 6) (rotate_right (ve v) 11)) (rotate_right (ve v) 25) in
  let ch := Z.lxor (Z.land (ve v) (vf v)) (Z.land (not32 (ve v)) (vg v)) in
  let t1 := wrapping_add (wrapping_add (wrapping_add (wrapping_add (vh v) s1) ch) k) w in
  let s0 := Z.lxor (Z.lxor (rotate_right (va v) 2) (rotate_right (va v) 13)) (rotate_right (va v) 22) in
  let maj := Z.lxor (Z.lxor (Z.land (va v) (vb v)) (Z.land (va v) (vc v))) (Z.land (vb v) (vc v)) in
  let t2 := wrapping_add s0 maj in
  {| va := wrapping_add t1 t2; vb := va v; vc := vb v; vd := vc v;
     ve := wrapping_add (vd v) t1; vf := ve v; vg := vf v; vh := vg v |}.

Definition vars_of (state : list Z) : vars :=
  {| va := at_ state 0; vb := at_ state 1; vc := at_ state 2; vd := at_ state 3;
     ve := at_ state 4; vf := at_ state 5; vg := at_ state 6; vh := at_ state 7 |}.
Definition words_of (v : vars) : list Z := [va v; vb v; vc v; vd v; ve v; vf v; vg v; vh v].

Definition compress (state block : list Z) : list Z :=
  let w := expand block in
  let v := fold_left (fun v i => round (at_ K i) (at_ w i) v) (seq 0 64) (vars_of state) in
  zip_with wrapping_add state (words_of v).

(** ** The buffered hash *)

Record Sha256 : Type := {
  h_state : list Z;
  h_block : list Z;
  h_filled : nat;
  h_length : Z;
}.

Definition Sha256_default : Sha256 :=
  {| h_state := INITIAL; h_block := replicate 64 0; h_filled := 0; h_length := 0 |}.

(** The loop of [update]; every turn takes at least a byte, so as many turns as there are
    bytes are enough. *)
Fixpoint absorb (turns : nat) (bytes : list Z) (h : Sha256) : Sha256 :=
  match turns, bytes with
  | O, _ | _, [] => h
  | S turns, _ =>
      let n := Nat.min (64 - h_filled h) (length bytes) in
      let block := splice (h_block h) (h_filled h) (take n bytes) in
      let filled := (h_filled h + n)%nat in
      absorb turns (drop n bytes)
        (if (filled =? 64)%nat
         then {| h_state := compress (h_state h) block; h_block := block; h_filled := 0; h_length := h_length h |}
         else {| h_state := h_state h; h_block := block; h_filled := filled; h_length := h_length h |})
  end.

Definition update (bytes : list Z) (h : Sha256) : partial Sha256 :=
  let n := h_length h + Z.of_nat (length bytes) in
  if n >? U64_MAX then Panic
  else Ok (absorb (length bytes) bytes {| h_state := h_state h; h_block := h_block h; h_filled := h_filled h; h_length := n |}).

(** [while self.filled != 56]: 64 turns pass every value. *)
Fixpoint fill (turns : nat) (h : Sha256) : partial Sha256 :=
  if (h_filled h =? 56)%nat then Ok h
  else match turns with
       | O => Panic
       | S turns => h ← update [0] h; fill turns h
       end.

Definition finish (h : Sha256) : partial (list Z) :=
  let bits := h_length h * 8 in
  if bits >? U64_MAX then Panic
  else
    h ← update [0x80] h;
    h ← fill 64 h;
    h ← update (to_be_bytes 8 bits) h;
    Ok (concat (map (to_be_bytes 4) (h_state h))).

Definition sha256 (bytes : list Z) : partial (list Z) :=
  h ← update bytes Sha256_default;
  finish h.

(** ** HMAC and PBKDF2 *)

Record Hmac : Type := { hm_inner : Sha256; hm_outer : Sha256 }.

Definition key_block (key : list Z) : partial (list Z) :=
  if (64 <? length key)%nat
  then d ← sha256 key; Ok (splice (replicate 64 0) 0 d)
  else Ok (splice (replicate 64 0) 0 key).

Definition Hmac_new (key : list Z) : partial Hmac :=
  block ← key_block key;
  inner ← update (map (fun b => Z.lxor b 0x36) block) Sha256_default;
  outer ← update (map (fun b => Z.lxor b 0x5c) block) Sha256_default;
  Ok {| hm_inner := inner; hm_outer := outer |}.

Fixpoint update_parts (parts : list (list Z)) (h : Sha256) : partial Sha256 :=
  match parts with
  | [] => Ok h
  | part :: parts => h ← update part h; update_parts parts h
  end.

Definition mac (self : Hmac) (message : list (list Z)) : partial (list Z) :=
  inner ← update_parts message (hm_inner self);
  d ← finish inner;
  outer ← update d (hm_outer self);
  finish outer.

Fixpoint pbkdf2_rounds (n : nat) (hmac : Hmac) (u key : list Z) : partial (list Z) :=
  match n with
  | O => Ok key
  | S n => u ← mac hmac [u]; pbkdf2_rounds n hmac u (zip_with Z.lxor key u)
  end.

Definition pbkdf2 (password salt : list Z) (iterations : Z) : partial (list Z) :=
  hmac ← Hmac_new password;
  u ← mac hmac [salt; to_be_bytes 4 1];
  pbkdf2_rounds (Z.to_nat (iterations - 1)) hmac u u.

(** Equal, looking at every byte. *)
Definition same (a b : list Z) : bool :=
  (length a =? length b)%nat && (fold_left (fun acc xy => Z.lor acc (Z.lxor (fst xy) (snd xy))) (zip a b) 0 =? 0).
