(* ===== verification/Sha256Spec.v ===== *)
(** * SHA-256, HMAC and PBKDF2 against their standards

    The standards' definitions on whole messages, and that the buffered, incremental code
    of kernel/sha256/src/lib.rs computes them whatever pieces it is fed. *)

From stdpp Require Import base list numbers list_numbers.
From Stdlib Require Import Lia.
From S2P Require Import Prelude Sha256.

(** ** FIPS 180-4 *)

Module Fips.

Definition Ch (x y z : Z) : Z := Z.lxor (Z.land x y) (Z.land (not32 x) z).
Definition Maj (x y z : Z) : Z := Z.lxor (Z.lxor (Z.land x y) (Z.land x z)) (Z.land y z).
Definition Sigma0 (x : Z) : Z := Z.lxor (Z.lxor (rotate_right x 2) (rotate_right x 13)) (rotate_right x 22).
Definition Sigma1 (x : Z) : Z := Z.lxor (Z.lxor (rotate_right x 6) (rotate_right x 11)) (rotate_right x 25).
Definition sigma0 (x : Z) : Z := Z.lxor (Z.lxor (rotate_right x 7) (rotate_right x 18)) (Z.shiftr x 3).
Definition sigma1 (x : Z) : Z := Z.lxor (Z.lxor (rotate_right x 17) (rotate_right x 19)) (Z.shiftr x 10).

(** The message schedule, latest word first: each from the 2nd, 7th, 15th and 16th
    before it. *)
Fixpoint schedule (n : nat) (m : list Z) : list Z :=
  match n with
  | O => rev m
  | S n =>
      let w := schedule n m in
      wrap32 (sigma1 (at_ w 1) + at_ w 6 + sigma0 (at_ w 14) + at_ w 15) :: w
  end.

Definition round (v : vars) (kw : Z * Z) : vars :=
  let T1 := wrap32 (vh v + Sigma1 (ve v) + Ch (ve v) (vf v) (vg v) + fst kw + snd kw) in
  let T2 := wrap32 (Sigma0 (va v) + Maj (va v) (vb v) (vc v)) in
  {| va := wrap32 (T1 + T2); vb := va v; vc := vb v; vd := vc v;
     ve := wrap32 (vd v + T1); vf := ve v; vg := vf v; vh := vg v |}.

Definition words (block : list Z) : list Z := map (from_be_bytes 0) (chunks 4 block).

Definition compress (H block : list Z) : list Z :=
  let W := rev (schedule 48 (words block)) in
  zip_with (fun a b => wrap32 (a + b)) H (words_of (fold_left round (zip K W) (vars_of H))).

(** A one bit, zeros up to eight bytes short of a block, and the length in bits. *)
Definition pad (m : list Z) : list Z :=
  m ++ [0x80] ++ replicate (Z.to_nat ((55 - Z.of_nat (length m)) mod 64)) 0 ++ to_be_bytes 8 (8 * Z.of_nat (length m)).

Definition sha256 (m : list Z) : list Z :=
  concat (map (to_be_bytes 4) (fold_left compress (chunks 64 (pad m)) INITIAL)).

End Fips.

(** ** RFC 2104 and RFC 8018 *)

Module Rfc.

Definition key0 (key : list Z) : list Z :=
  let k := if (64 <? length key)%nat then Fips.sha256 key else key in
  k ++ replicate (64 - length k) 0.

Definition hmac (key m : list Z) : list Z :=
  Fips.sha256 (map (fun b => Z.lxor b 0x5c) (key0 key) ++
    Fips.sha256 (map (fun b => Z.lxor b 0x36) (key0 key) ++ m)).

(** [U i] is the standard's U_{i+1}, and [T n] the exclusive or of the first n+1. *)
Fixpoint U (password salt : list Z) (i : nat) : list Z :=
  match i with
  | O => hmac password (salt ++ [0; 0; 0; 1])
  | S i => hmac password (U password salt i)
  end.
Fixpoint T (password salt : list Z) (n : nat) : list Z :=
  match n with
  | O => U password salt 0
  | S n => zip_with Z.lxor (T password salt n) (U password salt (S n))
  end.

End Rfc.

(** ** The schedule *)

Lemma wrap_add_l a b : wrap32 (wrap32 a + b) = wrap32 (a + b).
Proof. unfold wrap32. by rewrite Z.add_mod_idemp_l. Qed.

(** Wrapping at every addition or once at the end. *)
Lemma wrapping_chain4 a b c d : wrapping_add (wrapping_add (wrapping_add a b) c) d = wrap32 (a + b + c + d).
Proof. unfold wrapping_add. by rewrite (wrap_add_l (a + b) c), (wrap_add_l (a + b + c) d). Qed.

Lemma wrapping_chain5 a b c d e :
  wrapping_add (wrapping_add (wrapping_add (wrapping_add a b) c) d) e = wrap32 (a + b + c + d + e).
Proof. rewrite <- (wrap_add_l (a + b + c + d)), <- wrapping_chain4. done. Qed.

Lemma at_app_l l l' i : (i < length l)%nat -> at_ (l ++ l') i = at_ l i.
Proof. intros Hi. unfold at_. by rewrite lookup_app_l. Qed.

Lemma at_rev l i : (i < length l)%nat -> at_ (rev l) i = at_ l (length l - 1 - i).
Proof.
  intros Hi. unfold at_. rewrite <- (rev_involutive l) at 2 3. rewrite length_rev.
  replace (rev (rev l)) with (reverse (rev l)) by (unfold reverse; by rewrite rev_append_rev, app_nil_r).
  rewrite reverse_lookup by (rewrite length_rev; lia). rewrite length_rev. do 2 f_equal. lia.
Qed.

Lemma length_schedule n m : length (Fips.schedule n m) = (n + length m)%nat.
Proof. induction n as [|n IH]; simpl; [apply length_rev|lia]. Qed.

Lemma insert_middle {A} (l : list A) x y l' : <[length l := y]> (l ++ x :: l') = l ++ y :: l'.
Proof. induction l as [|z l IH]; simpl; [done|]. by rewrite IH. Qed.

(** Filling the array from left to right builds the schedule. *)
Lemma expand_schedule m n : length m = 16%nat -> (n <= 48)%nat ->
  fold_left expand_step (seq 16 n) (m ++ replicate 48 0) = rev (Fips.schedule n m) ++ replicate (48 - n) 0.
Proof.
  intros Hm. induction n as [|n IH]; intros Hn; [simpl; by rewrite rev_involutive|].
  rewrite seq_S, fold_left_app, IH by lia. replace (48 - n)%nat with (S (48 - S n)) by lia. simpl.
  set (w := Fips.schedule n m). assert (length w = n + 16)%nat as Hw by (unfold w; rewrite length_schedule; lia).
  unfold expand_step.
  assert (forall k, (1 <= k <= 16)%nat -> at_ (rev w ++ 0 :: replicate (48 - S n) 0) (16 + n - k) = at_ w (k - 1)) as Hat.
  { intros k Hk. rewrite at_app_l by (rewrite length_rev; lia). rewrite at_rev by lia. f_equal. lia. }
  change (S (S (S (S (S (S (S (S (S (S (S (S (S (S (S (S n)))))))))))))))) with (16 + n)%nat.
  rewrite !Hat by lia.
  replace (16 + n)%nat with (length (rev w)) by (rewrite length_rev; lia). rewrite insert_middle, <- app_assoc. simpl.
  do 2 f_equal. rewrite wrapping_chain4. unfold Fips.sigma0, Fips.sigma1. f_equal. simpl. lia.
Qed.

Lemma expand_spec block : length (Fips.words block) = 16%nat -> expand block = rev (Fips.schedule 48 (Fips.words block)).
Proof. intros Hl. unfold expand. change (first_words block) with (Fips.words block ++ replicate 48 0). rewrite (expand_schedule (Fips.words block) 48) by done. apply app_nil_r. Qed.

(** ** The rounds *)

Lemma round_spec k w v : round k w v = Fips.round v (k, w).
Proof.
  unfold round, Fips.round, Fips.Sigma0, Fips.Sigma1, Fips.Ch, Fips.Maj. simpl. rewrite (wrapping_chain5 (vh v)). done.
Qed.

Lemma at_middle pre x l i : length pre = i -> at_ (pre ++ x :: l) i = x.
Proof. intros <-. unfold at_. by rewrite list_lookup_middle. Qed.

Lemma fold_left_same {A B} (f g : A -> B -> A) l v : (forall v x, f v x = g v x) -> fold_left f l v = fold_left g l v.
Proof. intros Hfg. revert v. induction l as [|x l IH]; intros v; simpl; [done|]. by rewrite Hfg. Qed.

(** A loop over indices is a fold over the arrays. *)
Lemma fold_indexed {A} (f : A -> Z * Z -> A) (l l' : list Z) n : length l = n -> length l' = n -> forall v i0 pre pre',
  length pre = i0 -> length pre' = i0 ->
  fold_left (fun v i => f v (at_ (pre ++ l) i, at_ (pre' ++ l') i)) (seq i0 n) v = fold_left f (zip l l') v.
Proof.
  revert l l'. induction n as [|n IH]; intros [|x l] [|x' l'] Hl Hl' v i0 pre pre' Hp Hp'; simpl in *; try done; try lia.
  rewrite (at_middle pre x l i0), (at_middle pre' x' l' i0) by done.
  specialize (IH l l' ltac:(lia) ltac:(lia) (f v (x, x')) (S i0) (pre ++ [x]) (pre' ++ [x'])).
  rewrite <- !app_assoc in IH. apply IH; len.
Qed.

Lemma length_K : length K = 64%nat.
Proof. reflexivity. Qed.
Lemma length_words block : length block = 64%nat -> length (Fips.words block) = 16%nat.
Proof.
  intros Hl. unfold Fips.words. rewrite length_map. pose proof (length_chunks (A := Z) 4 ltac:(lia) block) as Hc.
  rewrite Hl in Hc. change (div_ceil _ _) with 16 in Hc. lia.
Qed.
#[local] Opaque K Fips.schedule expand Fips.words.

Lemma compress_spec state block : length block = 64%nat -> compress state block = Fips.compress state block.
Proof.
  intros Hl. unfold compress, Fips.compress.
  assert (length (Fips.words block) = 16%nat) as Hw.
  { by apply length_words. }
  rewrite expand_spec by done. f_equal. f_equal.
  rewrite <- (fold_indexed Fips.round K (rev (Fips.schedule 48 (Fips.words block))) 64 length_K
    ltac:(rewrite length_rev, length_schedule; lia) (vars_of state) 0 [] [] eq_refl eq_refl).
  apply fold_left_same. intros v i. cbv beta. rewrite !app_nil_l. exact (round_spec _ _ v).
Qed.

(** ** The buffer *)

(** [h] has been given the bytes [m]: whole blocks are compressed, the rest is at the
    front of the buffer. *)
Record absorbed (h : Sha256) (m : list Z) : Prop := {
  ab_length : h_length h = Z.of_nat (length m);
  ab_block : length (h_block h) = 64%nat;
  ab_parts : exists bs p, m = concat bs ++ p /\ Forall (fun b => length b = 64%nat) bs /\ (length p < 64)%nat /\
    h_state h = fold_left Fips.compress bs INITIAL /\ h_filled h = length p /\ take (length p) (h_block h) = p;
}.

Lemma default_absorbed : absorbed Sha256_default [].
Proof. split; [done|done|]. exists [], []. simpl. split_and!; try done. lia. Qed.

(** What the loop keeps: [absorbed] but for the length, which [update] counts first. *)
Definition buffered (h : Sha256) (m : list Z) : Prop :=
  length (h_block h) = 64%nat /\
  exists bs p, m = concat bs ++ p /\ Forall (fun b => length b = 64%nat) bs /\ (length p < 64)%nat /\
    h_state h = fold_left Fips.compress bs INITIAL /\ h_filled h = length p /\ take (length p) (h_block h) = p.

Lemma splice_prefix {A} (l p new : list A) : take (length p) l = p -> (length p + length new <= length l)%nat ->
  take (length p + length new) (splice l (length p) new) = p ++ new.
Proof.
  intros Hp Hlen. unfold splice. rewrite Hp, (take_ge new) by lia.
  rewrite take_app_ge by lia. f_equal. replace (length p + length new - length p)%nat with (length new) by lia.
  apply take_app_length.
Qed.

Lemma absorb_buffered turns : forall bytes h m, (length bytes <= turns)%nat -> buffered h m ->
  buffered (absorb turns bytes h) (m ++ bytes) /\ h_length (absorb turns bytes h) = h_length h.
Proof.
  induction turns as [|turns IH]; intros bytes h m Hb Hh.
  { destruct bytes; [|simpl in Hb; lia]. simpl. by rewrite app_nil_r. }
  destruct bytes as [|b0 bytes0] eqn:Hbytes; [simpl; by rewrite app_nil_r|]. rewrite <- Hbytes in *.
  assert (0 < length bytes)%nat as Hpos by (subst; simpl; lia).
  assert (absorb (S turns) bytes h =
    let n := Nat.min (64 - h_filled h) (length bytes) in
    let block := splice (h_block h) (h_filled h) (take n bytes) in
    let filled := (h_filled h + n)%nat in
    absorb turns (drop n bytes)
      (if (filled =? 64)%nat
       then {| h_state := compress (h_state h) block; h_block := block; h_filled := 0; h_length := h_length h |}
       else {| h_state := h_state h; h_block := block; h_filled := filled; h_length := h_length h |})) as -> by by subst.
  clear Hbytes b0 bytes0. cbv zeta. destruct Hh as (H64 & bs & p & -> & Hbs & Hp & Hst & Hf & Htake). rewrite Hf.
  set (n := Nat.min (64 - length p) (length bytes)). assert (0 < n)%nat as Hn by lia.
  assert (length (take n bytes) = n) as Hlt by (rewrite length_take; lia).
  pose proof (splice_prefix (h_block h) p (take n bytes) Htake ltac:(lia)) as Hpre. rewrite Hlt in Hpre.
  replace ((concat bs ++ p) ++ bytes) with ((concat bs ++ p ++ take n bytes) ++ drop n bytes)
    by (rewrite <- !app_assoc, take_drop; done).
  destruct (Nat.eqb_spec (length p + n) 64) as [Hfull|Hpart].
  - apply (IH (drop n bytes) {| h_length := h_length h |}); [rewrite length_drop; lia|].
    rewrite take_ge in Hpre by (rewrite length_splice; lia). rewrite Hpre.
    split; simpl; [rewrite length_app; lia|]. exists (bs ++ [p ++ take n bytes]), [].
    rewrite concat_app, fold_left_app. simpl. rewrite !app_nil_r, <- Hst.
    split_and!; try done; [|lia|by rewrite compress_spec by (rewrite length_app; lia)].
    apply Forall_app. split; [done|]. constructor; [rewrite length_app; lia|constructor].
  - apply (IH (drop n bytes) {| h_length := h_length h |}); [rewrite length_drop; lia|].
    split; simpl; [rewrite length_splice; lia|]. exists bs, (p ++ take n bytes).
    rewrite length_app, Hlt. split_and!; try done. lia.
Qed.

Lemma update_absorbed bytes h m : absorbed h m -> Z.of_nat (length m + length bytes) <= U64_MAX ->
  exists h', update bytes h = Ok h' /\ absorbed h' (m ++ bytes).
Proof.
  intros [Hl Hb Hp] Hfit. unfold update. rewrite Hl. destruct (_ >? _) eqn:Hover; [lia|]. eexists. split; [done|].
  set (h1 := {| h_length := _ |}).
  destruct (absorb_buffered (length bytes) bytes h1 m ltac:(lia)) as [[Hb' Hp'] Hl']; [split; done|].
  split; [|done|done]. rewrite Hl'. simpl. rewrite length_app. lia.
Qed.

(** ** Padding *)

Ltac mod_lia := Z.div_mod_to_equations; lia.

Lemma absorbed_filled h m : absorbed h m -> Z.of_nat (h_filled h) = Z.of_nat (length m) mod 64.
Proof.
  intros [_ _ (bs & p & -> & Hbs & Hp & _ & Hf & _)]. rewrite Hf, length_app.
  assert (exists k, length (concat bs) = (64 * k)%nat) as [k Hk].
  { clear -Hbs. induction Hbs as [|b bs Hb _ [k IH]]; [by exists O|]. exists (S k). simpl. rewrite length_app. lia. }
  rewrite Hk. rewrite Nat2Z.inj_add, Nat2Z.inj_mul. change (Z.of_nat 64) with 64.
  rewrite Z.add_comm, Z.mul_comm, Z.mod_add, Z.mod_small by lia. done.
Qed.

(** The padding loop: as many zeros as bring the buffer to 56 bytes, and no more. *)
Lemma fill_absorbed turns : forall h m z, absorbed h m -> z = Z.to_nat ((56 - Z.of_nat (length m)) mod 64) ->
  (z <= turns)%nat -> Z.of_nat (length m + z) <= U64_MAX ->
  exists h', fill turns h = Ok h' /\ absorbed h' (m ++ replicate z 0).
Proof.
  induction turns as [|turns IH]; intros h m z Hh Hz Hle Hfit; pose proof (absorbed_filled h m Hh) as Hf;
    simpl; destruct (Nat.eqb_spec (h_filled h) 56) as [He|Hne].
  - assert (z = O) as -> by lia. rewrite app_nil_r. eauto.
  - exfalso. assert (z = O) by lia. mod_lia.
  - assert (z = O) as ->. { rewrite He in Hf. mod_lia. } rewrite app_nil_r. eauto.
  - assert (0 < z)%nat as Hpos.
    { destruct z; [|lia]. mod_lia. }
    destruct (update_absorbed [0] h m Hh ltac:(simpl; lia)) as (h1 & -> & Hh1). simpl.
    destruct (IH h1 (m ++ [0]) (z - 1)%nat Hh1) as (h' & Hfill & Hh'); [rewrite length_app; simpl; mod_lia|lia|rewrite length_app; simpl; lia|].
    exists h'. split; [exact Hfill|]. rewrite <- app_assoc in Hh'. simpl in Hh'.
    replace (replicate z 0) with (0 :: replicate (z - 1) 0); [done|]. destruct z; [lia|]. simpl. by rewrite Nat.sub_0_r.
Qed.

Lemma length_to_be_bytes n v : length (to_be_bytes n v) = n.
Proof. unfold to_be_bytes. by rewrite length_rev, length_to_le_bytes. Qed.

Lemma length_pad m : exists k, length (Fips.pad m) = (64 * k)%nat.
Proof.
  unfold Fips.pad. rewrite !length_app, length_replicate, length_to_be_bytes. simpl.
  pose proof (Z.mod_pos_bound (55 - Z.of_nat (length m)) 64 ltac:(lia)) as Hb.
  pose proof (Z.div_mod (55 - Z.of_nat (length m)) 64 ltac:(lia)) as Hd.
  exists (Z.to_nat (1 - (55 - Z.of_nat (length m)) / 64)). lia.
Qed.

Lemma finish_absorbed h m : absorbed h m -> Z.of_nat (length m) < 2 ^ 61 -> finish h = Ok (Fips.sha256 m).
Proof.
  intros Hh Hlt. unfold finish. rewrite (ab_length _ _ Hh). destruct (_ >? _) eqn:Hover; [unfold U64_MAX in *; lia|].
  set (z := Z.to_nat ((55 - Z.of_nat (length m)) mod 64)).
  pose proof (Z.mod_pos_bound (55 - Z.of_nat (length m)) 64 ltac:(lia)) as Hb.
  destruct (update_absorbed [0x80] h m Hh ltac:(unfold U64_MAX; simpl; lia)) as (h1 & -> & Hh1).
  cbv beta iota delta [mbind result_bind].
  destruct (fill_absorbed 64 h1 (m ++ [0x80]) z Hh1) as (h2 & -> & Hh2).
  { rewrite length_app. simpl. unfold z. do 2 f_equal. lia. }
  { lia. }
  { rewrite length_app. simpl. unfold U64_MAX. lia. }
  destruct (update_absorbed (to_be_bytes 8 (Z.of_nat (length m) * 8)) h2 _ Hh2) as (h3 & -> & Hh3).
  { rewrite !length_app, length_replicate, length_to_be_bytes. simpl. unfold U64_MAX. lia. }
  rewrite <- !app_assoc, (Z.mul_comm _ 8) in Hh3. change (m ++ _) with (Fips.pad m) in Hh3.
  destruct (length_pad m) as [k Hk]. pose proof (absorbed_filled _ _ Hh3) as Hf. rewrite Hk in Hf.
  rewrite Nat2Z.inj_mul, Z.mul_comm, Z.mod_mul in Hf by done.
  destruct Hh3 as [_ _ (bs & p & Hm & Hbs & Hp & Hst & Hf' & _)]. rewrite Hf' in Hf.
  destruct p; [|simpl in Hf; lia]. rewrite app_nil_r in Hm. do 2 f_equal. unfold Fips.sha256.
  rewrite Hst, Hm, chunks_blocks by (done || lia). done.
Qed.

Lemma sha256_buffered bytes : Z.of_nat (length bytes) < 2 ^ 61 -> sha256 bytes = Ok (Fips.sha256 bytes).
Proof.
  intros Hlt. unfold sha256.
  destruct (update_absorbed bytes Sha256_default [] default_absorbed ltac:(unfold U64_MAX; simpl; lia)) as (h & -> & Hh).
  by apply finish_absorbed.
Qed.

Lemma update_parts_absorbed parts : forall h m, absorbed h m -> Z.of_nat (length m + length (concat parts)) <= U64_MAX ->
  exists h', update_parts parts h = Ok h' /\ absorbed h' (m ++ concat parts).
Proof.
  induction parts as [|part parts IH]; intros h m Hh Hfit; simpl; [rewrite app_nil_r; eauto|]. simpl in Hfit. rewrite length_app in Hfit.
  destruct (update_absorbed part h m Hh ltac:(lia)) as (h1 & -> & Hh1). cbv beta iota delta [mbind result_bind].
  rewrite app_assoc. apply IH; [done|]. rewrite length_app. lia.
Qed.

(** C14: The hash is SHA-256.  In whatever pieces a message shorter than 2^61 bytes is
    passed, it hashes, without panicking, to what FIPS 180-4 says: pad the whole message, cut it
    into blocks of 64 bytes, and fold the standard's compression function over them. *)
Theorem sha256_fips pieces : Z.of_nat (length (concat pieces)) < 2 ^ 61 ->
  (h ← update_parts pieces Sha256_default; finish h) = Ok (Fips.sha256 (concat pieces)).
Proof.
  intros Hlt. destruct (update_parts_absorbed pieces Sha256_default [] default_absorbed) as (h & -> & Hh).
  { simpl. unfold U64_MAX. lia. }
  by apply finish_absorbed.
Qed.

(** ** HMAC and PBKDF2 *)

Lemma length_digest (s : list Z) : length (concat (map (to_be_bytes 4) s)) = (4 * length s)%nat.
Proof. induction s as [|x s IH]; [done|]. cbn [map concat]. rewrite length_app, length_to_be_bytes, IH. simpl. lia. Qed.

Lemma length_fips m : length (Fips.sha256 m) = 32%nat.
Proof.
  unfold Fips.sha256. assert (forall bs H, length H = 8%nat -> length (fold_left Fips.compress bs H) = 8%nat) as Hl.
  { induction bs as [|b bs IH]; intros H HH; simpl; [done|]. apply IH. unfold Fips.compress. rewrite length_zip_with, HH. done. }
  specialize (Hl (chunks 64 (Fips.pad m)) INITIAL eq_refl). rewrite length_digest, Hl. done.
Qed.

Lemma splice_front (k : list Z) : (length k <= 64)%nat -> splice (replicate 64 0) 0 k = k ++ replicate (64 - length k) 0.
Proof.
  intros Hk. unfold splice. rewrite take_0, app_nil_l, length_replicate, Nat.sub_0_r, take_ge by lia.
  by rewrite drop_replicate.
Qed.

Lemma length_key0 key : length (Rfc.key0 key) = 64%nat.
Proof.
  unfold Rfc.key0. destruct (Nat.ltb_spec 64 (length key)); rewrite length_app, length_replicate, ?length_fips; lia.
Qed.

Lemma key_block_spec key : Z.of_nat (length key) < 2 ^ 61 -> key_block key = Ok (Rfc.key0 key).
Proof.
  intros Hlt. unfold key_block, Rfc.key0. destruct (Nat.ltb_spec 64 (length key)).
  - rewrite sha256_buffered by done. cbv beta iota delta [mbind result_bind]. rewrite splice_front; [done|]. rewrite length_fips. lia.
  - by rewrite splice_front.
Qed.

(** A keyed hash ready for messages under [key]. *)
Definition keyed (key : list Z) (hm : Hmac) : Prop :=
  absorbed (hm_inner hm) (map (fun b => Z.lxor b 0x36) (Rfc.key0 key)) /\
  absorbed (hm_outer hm) (map (fun b => Z.lxor b 0x5c) (Rfc.key0 key)).

Lemma Hmac_new_keyed key : Z.of_nat (length key) < 2 ^ 61 -> exists hm, Hmac_new key = Ok hm /\ keyed key hm.
Proof.
  intros Hlt. unfold Hmac_new. rewrite key_block_spec by done. cbv beta iota delta [mbind result_bind].
  destruct (update_absorbed (map (fun b => Z.lxor b 0x36) (Rfc.key0 key)) Sha256_default [] default_absorbed) as (i & -> & Hi).
  { rewrite length_map, length_key0. unfold U64_MAX. simpl. lia. }
  destruct (update_absorbed (map (fun b => Z.lxor b 0x5c) (Rfc.key0 key)) Sha256_default [] default_absorbed) as (o & -> & Ho).
  { rewrite length_map, length_key0. unfold U64_MAX. simpl. lia. }
  eexists. split; [done|]. by split.
Qed.

Lemma mac_spec key hm parts : keyed key hm -> Z.of_nat (length (concat parts)) + 64 < 2 ^ 61 ->
  mac hm parts = Ok (Rfc.hmac key (concat parts)).
Proof.
  intros [Hi Ho] Hlt. unfold mac, Rfc.hmac.
  destruct (update_parts_absorbed parts _ _ Hi) as (i & -> & Hi'). { rewrite length_map, length_key0. unfold U64_MAX. lia. }
  cbv beta iota delta [mbind result_bind].
  rewrite (finish_absorbed _ _ Hi') by (rewrite length_app, length_map, length_key0; lia).
  match goal with |- context [update ?d _] => destruct (update_absorbed d _ _ Ho) as (o & -> & Ho') end.
  { rewrite length_map, length_key0, length_fips. unfold U64_MAX. simpl. lia. }
  rewrite (finish_absorbed _ _ Ho') by (rewrite length_app, length_map, length_key0, length_fips; simpl; lia). done.
Qed.

Lemma length_hmac key m : length (Rfc.hmac key m) = 32%nat.
Proof. apply length_fips. Qed.

Lemma rounds_spec password salt hm n i : keyed password hm ->
  pbkdf2_rounds n hm (Rfc.U password salt i) (Rfc.T password salt i) = Ok (Rfc.T password salt (i + n)).
Proof.
  intros Hk. revert i. induction n as [|n IH]; intros i; [by rewrite Nat.add_0_r|]. cbn [pbkdf2_rounds].
  rewrite (mac_spec password hm) by (try done; simpl; rewrite app_nil_r; destruct i; simpl; rewrite length_hmac; lia).
  cbv beta iota delta [mbind result_bind]. simpl concat. rewrite app_nil_r.
  change (Rfc.hmac password (Rfc.U password salt i)) with (Rfc.U password salt (S i)).
  change (zip_with Z.lxor (Rfc.T password salt i) (Rfc.U password salt (S i))) with (Rfc.T password salt (S i)).
  rewrite IH. do 2 f_equal. lia.
Qed.

Lemma pbkdf2_key password salt iterations :
  Z.of_nat (length password) < 2 ^ 61 -> Z.of_nat (length salt) < 2 ^ 61 - 68 -> 1 <= iterations ->
  pbkdf2 password salt iterations = Ok (Rfc.T password salt (Z.to_nat (iterations - 1))).
Proof.
  intros Hp Hs Hi. unfold pbkdf2. destruct (Hmac_new_keyed password Hp) as (hm & -> & Hk).
  cbv beta iota delta [mbind result_bind].
  rewrite (mac_spec password hm) by (try done; simpl; rewrite !length_app; simpl; lia).
  simpl concat. exact (rounds_spec password salt hm (Z.to_nat (iterations - 1)) 0 Hk).
Qed.

(** C15: Password hashing is PBKDF2-HMAC-SHA-256.  With the key's padded states computed
    once and reused, the code returns what RFC 2104 and RFC 8018 define for one block of
    output: the exclusive or of the iterated HMACs of the salt and a block number of one. *)
Theorem pbkdf2_rfc password salt iterations :
  Z.of_nat (length password) < 2 ^ 61 -> Z.of_nat (length salt) < 2 ^ 61 - 68 -> 1 <= iterations ->
  pbkdf2 password salt iterations = Ok (Rfc.T password salt (Z.to_nat (iterations - 1))).
Proof. apply pbkdf2_key. Qed.

Lemma Forall_zip_with_nonneg (a b : list Z) : Forall (Z.le 0) a -> Forall (Z.le 0) b ->
  Forall (fun xy => 0 <= fst xy /\ 0 <= snd xy) (zip a b).
Proof. intros Ha. revert b. induction Ha; intros b Hb; destruct Hb; simpl; constructor; auto. Qed.

(** Comparing every byte is comparing. *)
Lemma same_spec a b : Forall (Z.le 0) a -> Forall (Z.le 0) b -> same a b = true <-> a = b.
Proof.
  intros Ha Hb. unfold same. rewrite andb_true_iff, Nat.eqb_eq, Z.eqb_eq.
  assert (forall l acc, Forall (fun xy => 0 <= fst xy /\ 0 <= snd xy) l -> 0 <= acc ->
    fold_left (fun acc xy => Z.lor acc (Z.lxor (fst xy) (snd xy))) l acc = 0 <-> acc = 0 /\ Forall (fun xy : Z * Z => fst xy = snd xy) l) as Hfold.
  { induction l as [|[x y] l IH]; intros acc Hl Hacc; simpl; [naive_solver|]. inversion Hl as [|? ? [Hx Hy] Hl']; subst. simpl in *.
    rewrite IH; [|done|apply Z.lor_nonneg; split; [done|]; apply Z.lxor_nonneg; tauto].
    rewrite Z.lor_eq_0_iff, Z.lxor_eq_0_iff, list.Forall_cons. simpl. tauto. }
  split.
  - intros [Hlen Hz]. apply Hfold in Hz as [_ Hz]; [|by apply Forall_zip_with_nonneg|done].
    clear -Hlen Hz. revert b Hlen Hz. induction a as [|x a IH]; intros [|y b] Hlen Hz; simpl in *; try done.
    inversion Hz; subst. simpl in *. subst. f_equal. apply IH; [lia|done].
  - intros ->. split; [done|]. apply Hfold; [by apply Forall_zip_with_nonneg|done|]. split; [done|].
    clear. induction b as [|y b IH]; simpl; constructor; done.
Qed.

(** ** Published vectors *)

Module ShaRuns.

(** The digest of the three bytes of [abc], and of the empty message. *)
Definition abc_digest : list Z :=
  [0xba; 0x78; 0x16; 0xbf; 0x8f; 0x01; 0xcf; 0xea; 0x41; 0x41; 0x40; 0xde; 0x5d; 0xae; 0x22; 0x23;
   0xb0; 0x03; 0x61; 0xa3; 0x96; 0x17; 0x7a; 0x9c; 0xb4; 0x10; 0xff; 0x61; 0xf2; 0x00; 0x15; 0xad].

Example empty_digest : sha256 [] = Ok
  [0xe3; 0xb0; 0xc4; 0x42; 0x98; 0xfc; 0x1c; 0x14; 0x9a; 0xfb; 0xf4; 0xc8; 0x99; 0x6f; 0xb9; 0x24;
   0x27; 0xae; 0x41; 0xe4; 0x64; 0x9b; 0x93; 0x4c; 0xa4; 0x95; 0x99; 0x1b; 0x78; 0x52; 0xb8; 0x55].
Proof. vm_compute. reflexivity. Qed.

Lemma sha256_fips_witness :
  (h ← update_parts [[97]; [98; 99]] Sha256_default; finish h) = Ok abc_digest.
Proof.
  transitivity (Ok (E := Empty_set) (Fips.sha256 (concat [[97]; [98; 99]]))).
  - exact (sha256_fips [[97]; [98; 99]] ltac:(vm_compute; reflexivity)).
  - vm_compute. reflexivity.
Defined.

(** The words password and salt, two iterations. *)
Definition a_password : list Z := [112; 97; 115; 115; 119; 111; 114; 100].
Definition a_salt : list Z := [115; 97; 108; 116].

Lemma pbkdf2_rfc_witness :
  pbkdf2 a_password a_salt 2 = Ok (Rfc.T a_password a_salt 1) /\
  Rfc.T a_password a_salt 1 =
    [0xae; 0x4d; 0x0c; 0x95; 0xaf; 0x6b; 0x46; 0xd3; 0x2d; 0x0a; 0xdf; 0xf9; 0x28; 0xf0; 0x6d; 0xd0;
     0x2a; 0x30; 0x3f; 0x8e; 0xf3; 0xc2; 0x51; 0xdf; 0xd6; 0xe2; 0xd8; 0x5a; 0x95; 0x47; 0x4c; 0x43].
Proof.
  split; [exact (pbkdf2_rfc a_password a_salt 2 ltac:(vm_compute; reflexivity) ltac:(vm_compute; reflexivity) ltac:(lia))|].
  vm_compute. reflexivity.
Defined.

End ShaRuns.
