(* ===== verification/Accounts.v ===== *)
(** * The account database (kernel/src/users.rs)

    One line per account in a file of the root file system, `name:user:salt:hash`, the
    last two in hexadecimal.  Logging in makes a thread the user of an account whose
    password it knows.  The random salt is an argument; the wait after a wrong password
    is not modelled. *)

From stdpp Require Import base list gmap numbers list_numbers.
From Stdlib Require Import Lia.
From S2P Require Import Prelude Block FsLayout FsOps Ipc Sha256.

Definition NEWLINE : Z := 10.
Definition RETURN : Z := 13.
Definition COLON : Z := 58.

(** "/users" *)
Definition DATABASE : list Z := [47; 117; 115; 101; 114; 115].
Definition ACCOUNTS : Z := U32_MAX.
Definition ITERATIONS : Z := 10000.
Definition MAX_ACCOUNT_NAME : nat := 32.
Definition MAX_PASSWORD : nat := 128.

Inductive AccountError : Type :=
| NoRootFs | BadAccountName | BadPassword | AccountExists | Incorrect | AccountFs (e : FsError).

Record Account : Type := {
  a_name : list Z;
  a_user : Z;
  a_salt : list Z;
  a_hash : list Z;
}.

(** ** Reading text *)

(** [str::lines] on the pieces between newlines: a carriage return before a newline goes
    with it, and what follows the last newline is a line if there is any of it. *)
Definition strip_return (w : list Z) : list Z :=
  match reverse w with c :: r => if c =? RETURN then reverse r else w | [] => w end.

Fixpoint lines_of (pieces : list (list Z)) : list (list Z) :=
  match pieces with
  | [] => []
  | [last] => if bool_decide (last = []) then [] else [last]
  | w :: ws => strip_return w :: lines_of ws
  end.

Definition str_lines (s : list Z) : list (list Z) := lines_of (split_on NEWLINE s).

Definition digit (radix b : Z) : option Z :=
  let v := if in_range 48 57 b then b - 48
           else if in_range 97 122 b then b - 97 + 10
           else if in_range 65 90 b then b - 65 + 10
           else 36 in
  if v <? radix then Some v else None.

Fixpoint digits (radix limit acc : Z) (l : list Z) : option Z :=
  match l with
  | [] => Some acc
  | b :: l =>
      d ← digit radix b;
      let acc := acc * radix + d in
      if acc >? limit then None else digits radix limit acc l
  end.

(** Rust's [from_str_radix] on an unsigned type: a sign is allowed if something follows. *)
Definition from_str_radix (radix limit : Z) (s : list Z) : option Z :=
  match s with
  | [] => None
  | c :: rest => if c =? 43 then (if bool_decide (rest = []) then None else digits radix limit 0 rest)
                 else digits radix limit 0 s
  end.

(** A pair that is not text has no digit either. *)
Definition unhex (n : nat) (text : list Z) : option (list Z) :=
  if bool_decide (length text = 2 * n)%nat then mapM (from_str_radix 16 U8_MAX) (chunks 2 text) else None.

Definition parse_account (line : list Z) : option Account :=
  match split_on COLON line with
  | [name; user; salt; hash] =>
      user ← from_str_radix 10 U32_MAX user;
      salt ← unhex 16 salt;
      hash ← unhex 32 hash;
      Some {| a_name := name; a_user := user; a_salt := salt; a_hash := hash |}
  | _ => None
  end.

Definition accounts (database : list Z) : list Account :=
  omap parse_account (str_lines (if utf8_valid database then database else [])).

(** ** Writing text *)

(** As many digits as the number has; ten are enough for 32 bits. *)
Fixpoint decimal (places : nat) (n : Z) : list Z :=
  match places with
  | O => []
  | S places => if n <? 10 then [48 + n] else decimal places (n / 10) ++ [48 + n mod 10]
  end.

Definition hex_digit (d : Z) : Z := if d <? 10 then 48 + d else 97 + (d - 10).
Definition hex_byte (b : Z) : list Z := [hex_digit (b / 16); hex_digit (b mod 16)].

Definition account_line (name : list Z) (user : Z) (salt hash : list Z) : list Z :=
  name ++ [COLON] ++ decimal 10 user ++ [COLON] ++ concat (map hex_byte salt) ++ [COLON]
  ++ concat (map hex_byte hash) ++ [NEWLINE].

Definition valid_name_char (c : Z) : bool :=
  in_range 48 57 c || in_range 65 90 c || in_range 97 122 c || (c =? 95) || (c =? 45).

Definition valid_name (name : list Z) : bool :=
  negb (bool_decide (name = [])) && (length name <=? MAX_ACCOUNT_NAME)%nat && forallb valid_name_char name.

Definition valid_password (password : list Z) : bool :=
  negb (bool_decide (password = [])) && (length password <=? MAX_PASSWORD)%nat.

(** ** Operations *)

Section Operations.
Context {D : Type} `{BlockDevice D}.

Abbreviation F := (M (FileSystem D) AccountError).

(** The [?] that turns a file system error into this module's. *)
Definition of_fs {A} (m : M (FileSystem D) FsError A) : F A := fun fs =>
  let '(r, fs') := m fs in
  (match r with Ok a => Ok a | Err e => Err (AccountFs e) | Panic => Panic end, fs').

(** [fs::root().ok_or(NoFileSystem)?] *)
Definition with_root {A} (m : F A) : M (option (FileSystem D)) AccountError A := fun root =>
  match root with
  | None => (Err NoRootFs, None)
  | Some fs => let '(r, fs') := m fs in (r, Some fs')
  end.

Definition hashed (password salt : list Z) : F (list Z) :=
  lift (match pbkdf2 password salt ITERATIONS with Ok h => Ok h | _ => Panic end).

(** [match fs.read_file(DATABASE)] *)
Definition reading_database {A} (k : result FsError (list Z) -> F A) : F A := fun fs =>
  let '(r, fs') := read_file DATABASE fs in k r fs'.

(** The database, made on first use with no permission bits. *)
Definition open_database : F (list Z) :=
  reading_database (fun r =>
    match r with
    | Ok database => mret database
    | Err NotFound =>
        of_fs (create_owned_by DATABASE File ACCOUNTS) ;; of_fs (set_mode_as DATABASE 0 None) ;; mret []
    | Err e => fail (AccountFs e)
    | Panic => panic
    end).

Definition append_account (name : list Z) (user : Z) (password salt : list Z) : F unit :=
  database ← open_database;
  guard_err (existsb (fun a => bool_decide (a_name a = name) || (a_user a =? user)) (accounts database)) AccountExists ;;
  hash ← hashed password salt;
  of_fs (write_file DATABASE (database ++ account_line name user salt hash)).

Definition add_account (name : list Z) (user : Z) (password salt : list Z) : M (option (FileSystem D)) AccountError unit :=
  guard_err (negb (valid_name name)) BadAccountName ;;
  guard_err (negb (valid_password password)) BadPassword ;;
  guard_err (user =? ACCOUNTS) AccountExists ;;
  with_root (append_account name user password salt).

(** Reading the database to log in: none is an empty one. *)
Definition read_database : F (list Z) :=
  reading_database (fun r =>
    match r with
    | Ok database => mret database
    | Err NotFound => mret []
    | Err e => fail (AccountFs e)
    | Panic => panic
    end).

Definition find_account (name : list Z) (l : list Account) : option Account :=
  head (filter (fun a => a_name a = name) l).

Definition check_password (name password : list Z) : F Z :=
  database ← read_database;
  let account := find_account name (accounts database) in
  let '(salt, expected) :=
    match account with Some a => (a_salt a, a_hash a) | None => (replicate 16 0, replicate 32 0) end in
  hash ← hashed password salt;
  match account with
  | Some a =>
      if (length password <=? MAX_PASSWORD)%nat && same hash expected then mret (a_user a) else fail Incorrect
  | None => fail Incorrect
  end.

(** [login], with the table of users it changes. *)
Definition login (thread : nat) (name password : list Z) (users : gmap nat Z)
  : M (option (FileSystem D)) AccountError (Z * gmap nat Z) :=
  user ← with_root (check_password name password);
  mret (user, assign_user thread user users).

End Operations.
