(* ===== verification/AccountText.v ===== *)
(** * The text of the account database

    Printing an account and parsing it again, and appending a line to a database that is
    whole lines. *)

From stdpp Require Import base list gmap numbers list_numbers.
From Stdlib Require Import Lia.
From S2P Require Import Prelude Block FsLayout FsOps FsSpec FsPath FsNames Accounts.

(** ** Numbers *)

Lemma digits_app radix limit l b : forall acc,
  digits radix limit acc (l ++ [b]) =
  match digits radix limit acc l with Some v => digits radix limit v [b] | None => None end.
Proof.
  induction l as [|x l IH]; intros acc; [done|]. cbn [app digits]. destruct (digit radix x) as [d|]; [|done]. simpl.
  destruct (_ >? limit); [done|]. apply IH.
Qed.

Lemma digit_decimal d : 0 <= d < 10 -> digit 10 (48 + d) = Some d.
Proof.
  intros Hd. unfold digit, in_range. destruct (_ && _) eqn:Hr; [|apply andb_false_iff in Hr; lia].
  destruct (_ <? 10) eqn:Hlt; [f_equal; lia|lia].
Qed.

Lemma digits_decimal limit places : forall n, 0 <= n < 10 ^ Z.of_nat places -> n <= limit ->
  digits 10 limit 0 (decimal places n) = Some n.
Proof.
  induction places as [|places IH]; intros n Hn Hl; [change (10 ^ Z.of_nat 0) with 1 in Hn; simpl; f_equal; lia|].
  cbn [decimal]. destruct (n <? 10) eqn:H10.
  - cbn [digits]. rewrite digit_decimal by lia. cbn -[Z.add Z.mul Z.gtb]. replace (0 * 10 + n) with n by lia.
    destruct (n >? limit) eqn:Hg; [lia|]. done.
  - rewrite Nat2Z.inj_succ, Z.pow_succ_r in Hn by lia.
    assert (0 <= n mod 10 < 10) by (apply Z.mod_pos_bound; lia).
    pose proof (Z.div_mod n 10 ltac:(lia)) as Hdm.
    rewrite digits_app, IH; [|split; [apply Z.div_pos; lia|apply Z.div_lt_upper_bound; lia]|lia].
    cbn [digits]. rewrite digit_decimal by done. cbn -[Z.add Z.mul Z.gtb Z.div Z.modulo]. replace (n / 10 * 10 + n mod 10) with n by lia.
    destruct (n >? limit) eqn:Hg; [lia|]. done.
Qed.

Definition is_digit (c : Z) : Prop := 48 <= c <= 57.
Definition is_hex (c : Z) : Prop := 48 <= c <= 57 \/ 97 <= c <= 102.

Lemma decimal_digits places : forall n, 0 <= n -> Forall is_digit (decimal places n).
Proof.
  induction places as [|places IH]; intros n Hn; [constructor|]. cbn [decimal]. destruct (n <? 10) eqn:H10.
  - repeat constructor; unfold is_digit; lia.
  - apply Forall_app. split; [apply IH, Z.div_pos; lia|]. pose proof (Z.mod_pos_bound n 10 ltac:(lia)).
    repeat constructor; unfold is_digit; lia.
Qed.

Lemma decimal_nonempty n : decimal 10 n <> [].
Proof. cbn [decimal]. destruct (n <? 10); [done|]. by destruct (_ ++ _) eqn:H; [destruct (app_eq_nil _ _ H)|]. Qed.

Lemma parse_decimal n : u32 n -> from_str_radix 10 U32_MAX (decimal 10 n) = Some n.
Proof.
  intros Hn. unfold u32 in Hn. pose proof (decimal_digits 10 n ltac:(lia)) as Hd. pose proof (decimal_nonempty n) as Hne.
  assert (digits 10 U32_MAX 0 (decimal 10 n) = Some n) as Hp.
  { apply digits_decimal; [|unfold U32_MAX; lia]. change (10 ^ Z.of_nat 10) with 10000000000. lia. }
  destruct (decimal 10 n) as [|c rest]; [done|]. unfold from_str_radix. inversion Hd; subst.
  destruct (c =? 43) eqn:Hc; [|done]. unfold is_digit in *. lia.
Qed.

(** ** Hexadecimal *)

Lemma hex_byte_all : Forall (fun b => from_str_radix 16 U8_MAX (hex_byte b) = Some b /\ Forall is_hex (hex_byte b)) (seqZ 0 256).
Proof.
  apply list.Forall_forall. intros b Hb.
  assert (forallb (fun b => bool_decide (from_str_radix 16 U8_MAX (hex_byte b) = Some b) &&
    forallb (fun c => in_range 48 57 c || in_range 97 102 c) (hex_byte b)) (seqZ 0 256) = true) as Hall by (vm_compute; reflexivity).
  rewrite forallb_forall in Hall. apply list_elem_of_In, Hall, andb_true_iff in Hb as [H1 H2].
  split; [by apply bool_decide_eq_true in H1|]. apply list.Forall_forall. intros c Hc. rewrite forallb_forall in H2.
  apply list_elem_of_In, H2 in Hc. unfold is_hex, in_range in *.
  apply orb_true_iff in Hc as [Hc|Hc]; apply andb_true_iff in Hc as [? ?]; lia.
Qed.

Lemma hex_byte_parse b : is_byte b -> from_str_radix 16 U8_MAX (hex_byte b) = Some b /\ Forall is_hex (hex_byte b).
Proof.
  intros Hb. pose proof hex_byte_all as Hall. rewrite list.Forall_forall in Hall. apply Hall, elem_of_seqZ. unfold is_byte in Hb. lia.
Qed.

Lemma hex_chars bs : Forall is_byte bs -> Forall is_hex (concat (map hex_byte bs)).
Proof.
  induction 1 as [|b bs Hb Hbs IH]; [constructor|]. cbn [map concat]. apply Forall_app. split; [by apply hex_byte_parse|done].
Qed.

Lemma unhex_hex n bs : Forall is_byte bs -> length bs = n -> unhex n (concat (map hex_byte bs)) = Some bs.
Proof.
  intros Hbs Hn. unfold unhex.
  assert (length (concat (map hex_byte bs)) = 2 * n)%nat as Hl.
  { subst n. clear Hbs. induction bs as [|b bs IH]; [done|]. cbn [map concat]. rewrite length_app, IH. simpl. lia. }
  rewrite bool_decide_true by done. rewrite chunks_blocks; [|lia|].
  - clear Hl Hn. induction Hbs as [|b bs Hb Hbs IH]; [done|]. cbn [map mapM]. destruct (hex_byte_parse b Hb) as [-> _]. simpl.
    by rewrite IH.
  - apply Forall_map. apply list.Forall_forall. done.
Qed.

(** ** A line *)

Lemma absent (P : Z -> Prop) c (l : list Z) : Forall P l -> ~ P c -> c ∉ l.
Proof. intros Hl Hc Hin. rewrite list.Forall_forall in Hl. auto. Qed.

Definition name_char (c : Z) : Prop := valid_name_char c = true.

Lemma name_char_ascii c : name_char c -> 45 <= c <= 122 /\ c <> COLON.
Proof.
  unfold name_char, valid_name_char, in_range, COLON. rewrite !orb_true_iff, !andb_true_iff, !Z.leb_le, !Z.eqb_eq. lia.
Qed.

Lemma valid_name_chars name : valid_name name = true -> Forall name_char name /\ name <> [].
Proof.
  unfold valid_name. rewrite !andb_true_iff, negb_true_iff, bool_decide_eq_false. intros [[Hne _] Hall]. split; [|done].
  apply list.Forall_forall. intros c Hc. rewrite forallb_forall in Hall. by apply Hall, list_elem_of_In.
Qed.

Definition line_of (name : list Z) (user : Z) (salt hash : list Z) : list Z :=
  name ++ COLON :: decimal 10 user ++ COLON :: concat (map hex_byte salt) ++ COLON :: concat (map hex_byte hash).

Lemma account_line_eq name user salt hash : account_line name user salt hash = line_of name user salt hash ++ [NEWLINE].
Proof. unfold account_line, line_of. simpl. rewrite <- !app_assoc. simpl. rewrite <- !app_assoc. simpl. by rewrite <- !app_assoc. Qed.

Section Line.
Context (name : list Z) (user : Z) (salt hash : list Z).
Hypotheses (Hname : Forall name_char name) (Huser : u32 user) (Hsalt : Forall is_byte salt) (Hhash : Forall is_byte hash).
Hypotheses (Hs16 : length salt = 16%nat) (Hh32 : length hash = 32%nat).

Lemma parse_line : parse_account (line_of name user salt hash) =
  Some {| a_name := name; a_user := user; a_salt := salt; a_hash := hash |}.
Proof using Type*.
  unfold parse_account, line_of. unfold u32 in Huser.
  pose proof (decimal_digits 10 user ltac:(lia)) as Hd.
  rewrite split_on_app, (split_on_app COLON (decimal 10 user)), (split_on_app COLON (concat (map hex_byte salt))).
  rewrite !split_on_none; [| | | |].
  - cbv beta iota delta [app]. rewrite parse_decimal by done. simpl. rewrite unhex_hex by done. simpl. rewrite unhex_hex by done. done.
  - apply (absent is_hex); [by apply hex_chars|]. unfold is_hex, COLON. lia.
  - apply (absent is_hex); [by apply hex_chars|]. unfold is_hex, COLON. lia.
  - apply (absent is_digit); [done|]. unfold is_digit, COLON. lia.
  - apply (absent name_char); [done|]. intros Hc. by apply name_char_ascii in Hc as [_ ?].
Qed.

Lemma line_chars : Forall (fun c => 45 <= c < 128) (line_of name user salt hash).
Proof using Type*.
  unfold line_of. unfold u32 in Huser. pose proof (decimal_digits 10 user ltac:(lia)) as Hd.
  pose proof (hex_chars salt Hsalt) as H1. pose proof (hex_chars hash Hhash) as H2.
  repeat first [apply Forall_app; split|apply Forall_cons; split]; unfold COLON; try lia.
  - eapply Forall_impl; [exact Hname|]. intros c Hc. apply name_char_ascii in Hc. lia.
  - eapply Forall_impl; [exact Hd|]. unfold is_digit. intros c Hc. lia.
  - eapply Forall_impl; [exact H1|]. unfold is_hex. intros c Hc. lia.
  - eapply Forall_impl; [exact H2|]. unfold is_hex. intros c Hc. lia.
Qed.

End Line.

(** ** A database of whole lines *)

(** Whole lines of text: what is in the file when there is one. *)
Definition db_ok (db : list Z) : Prop :=
  Forall is_byte db /\ utf8_valid db = true /\ (db = [] \/ exists db0, db = db0 ++ [NEWLINE]).

Lemma strip_return_id w : Forall (fun c => 45 <= c < 128) w -> strip_return w = w.
Proof.
  intros Hw. unfold strip_return. destruct (reverse w) as [|c r] eqn:Hr; [done|]. destruct (c =? RETURN) eqn:Hc; [|done].
  apply (f_equal reverse) in Hr. rewrite reverse_involutive in Hr. subst w. rewrite reverse_cons in Hw.
  apply Forall_app in Hw as [_ Hw]. inversion Hw; subst. unfold RETURN in *. lia.
Qed.

Lemma lines_of_snoc ps w : lines_of ((ps ++ [w]) ++ [[]]) = lines_of (ps ++ [[]]) ++ [strip_return w].
Proof.
  induction ps as [|p ps IH]; [done|]. cbn [app]. assert (forall l, lines_of (p :: l ++ [[]]) = strip_return p :: lines_of (l ++ [[]])) as Hl.
  { intros l. by destruct l. }
  by rewrite !Hl, IH.
Qed.

Lemma lines_append db w : (db = [] \/ exists db0, db = db0 ++ [NEWLINE]) -> NEWLINE ∉ w -> strip_return w = w ->
  str_lines (db ++ w ++ [NEWLINE]) = str_lines db ++ [w].
Proof.
  intros Hdb Hw Hs. unfold str_lines. destruct Hdb as [->|[db0 ->]].
  - simpl app. rewrite split_on_app, split_on_none by done. simpl. by rewrite Hs.
  - rewrite <- app_assoc. simpl app. rewrite split_on_app, split_on_app, (split_on_none _ w), (split_on_app NEWLINE db0 []) by done.
    simpl split_on. rewrite app_assoc, lines_of_snoc, Hs. done.
Qed.

Lemma utf8_app n : forall a b, (length a <= n)%nat -> utf8_valid a = true -> utf8_valid (a ++ b) = utf8_valid b.
Proof.
  induction n as [|n IH]; intros [|b0 r] b Hn Ha; try done; [simpl in Hn; lia|].
  simpl in Hn. cbn [app utf8_valid] in *. destruct (b0 <? 128); [apply IH; [lia|done]|]. destruct (in_range 194 223 b0).
  { destruct r as [|b1 r1]; [done|]. cbn [app]. apply andb_true_iff in Ha as [-> Ha]. apply IH; [simpl in Hn; lia|done]. }
  destruct (in_range 224 239 b0).
  { destruct r as [|b1 [|b2 r2]]; [done|done|]. cbn [app]. rewrite !andb_true_iff in Ha. destruct Ha as [[-> ->] Ha].
    apply IH; [simpl in Hn; lia|done]. }
  destruct (in_range 240 244 b0); [|done]. destruct r as [|b1 [|b2 [|b3 r3]]]; [done|done|done|]. cbn [app].
  rewrite !andb_true_iff in Ha. destruct Ha as [[[-> ->] ->] Ha]. apply IH; [simpl in Hn; lia|done].
Qed.

Lemma ascii_utf8 l : Forall (fun c => 0 <= c < 128) l -> utf8_valid l = true.
Proof. induction 1 as [|c l Hc Hl IH]; [done|]. cbn [utf8_valid]. destruct (c <? 128) eqn:H; [done|lia]. Qed.

(** Appending a line adds its account after the others. *)
Lemma accounts_append db name user salt hash :
  db_ok db -> Forall name_char name -> u32 user -> Forall is_byte salt -> Forall is_byte hash ->
  length salt = 16%nat -> length hash = 32%nat ->
  db_ok (db ++ account_line name user salt hash) /\
  accounts (db ++ account_line name user salt hash) =
    accounts db ++ [{| a_name := name; a_user := user; a_salt := salt; a_hash := hash |}].
Proof.
  intros (Hb & Hu & Hnl) Hn Hus Hsa Hha Hs Hh.
  pose proof (line_chars name user salt hash Hn Hus Hsa Hha Hs Hh) as Hc. rewrite account_line_eq.
  assert (Forall (fun c => 0 <= c < 128) (line_of name user salt hash ++ [NEWLINE])) as Hascii.
  { apply Forall_app. split; [eapply Forall_impl; [exact Hc|]; intros c; simpl; lia|]. repeat constructor; unfold NEWLINE; lia. }
  assert (utf8_valid (db ++ line_of name user salt hash ++ [NEWLINE]) = true) as Hutf.
  { rewrite (utf8_app (length db)) by done. by apply ascii_utf8. }
  split.
  - split_and!; [|done|right; eexists; by rewrite app_assoc]. apply Forall_app. split; [done|].
    eapply Forall_impl; [exact Hascii|]. unfold is_byte. intros c ?. simpl in *. lia.
  - unfold accounts. rewrite Hutf, Hu, lines_append; [|done| |by apply strip_return_id].
    + rewrite omap_app. simpl. by rewrite parse_line.
    + apply (absent (fun c => 45 <= c < 128)); [done|]. unfold NEWLINE. lia.
Qed.

(** ** What parses *)

Lemma digits_nonneg radix limit l : 0 <= radix -> forall acc v, 0 <= acc -> digits radix limit acc l = Some v -> 0 <= v.
Proof.
  intros Hr. induction l as [|b l IH]; intros acc v Hacc; cbn [digits]; [by intros [= <-]|].
  destruct (digit radix b) as [d|] eqn:Hd; [|done]. cbn [mbind option_bind]. destruct (_ >? limit); [done|]. apply IH.
  unfold digit in Hd. destruct (_ <? radix); [|done]. injection Hd as <-. unfold in_range.
  repeat match goal with |- context [if ?c then _ else _] => destruct c eqn:? end; try nia; rewrite !andb_true_iff in *; nia.
Qed.

Lemma from_str_radix_nonneg radix limit s v : 0 <= radix -> from_str_radix radix limit s = Some v -> 0 <= v.
Proof.
  intros Hr. unfold from_str_radix. destruct s as [|c rest]; [done|]. destruct (c =? 43); [destruct (bool_decide _); [done|]|];
    by apply digits_nonneg.
Qed.

Lemma unhex_shape n text bs : unhex n text = Some bs -> length bs = n /\ Forall (Z.le 0) bs.
Proof.
  unfold unhex. case_bool_decide as Hl; [|done]. intros Hm. apply mapM_Some in Hm. split.
  - apply Forall2_length in Hm. rewrite <- Hm. pose proof (length_chunks (A := Z) 2 ltac:(lia) text) as Hc.
    rewrite Hl in Hc. unfold div_ceil in Hc. apply Nat2Z.inj. rewrite Hc. symmetry. apply (Z.div_unique _ _ _ 1); lia.
  - induction Hm as [|c b cs bs Hb _ IH]; [constructor|]. constructor; [|apply IH]. by eapply from_str_radix_nonneg in Hb.
Qed.

Lemma accounts_shape db a : a ∈ accounts db -> length (a_salt a) = 16%nat /\ Forall (Z.le 0) (a_hash a).
Proof.
  unfold accounts. intros Ha. apply list_elem_of_omap in Ha as (line & _ & Hp). unfold parse_account in Hp.
  destruct (split_on COLON line) as [|f1 [|f2 [|f3 [|f4 [|]]]]]; try done. simpl in Hp.
  destruct (from_str_radix 10 U32_MAX f2); [|done]. simpl in Hp. destruct (unhex 16 f3) as [sa|] eqn:Hs; [|done]. simpl in Hp.
  destruct (unhex 32 f4) as [ha|] eqn:Hh; [|done]. simpl in Hp. injection Hp as <-. simpl.
  apply unhex_shape in Hs as [? _]. by apply unhex_shape in Hh as [_ ?].
Qed.
