(* ===== verification/AccountTheorems.v ===== *)
(** * What the account database guarantees

    Over any lawful device: an account that was added can be logged in to with its
    password and keeps the others, the file it is in is closed to every process, and a
    login that succeeds knows a password whose hash is in the database. *)

From stdpp Require Import base list gmap numbers list_numbers.
From Stdlib Require Import Lia.
From S2P Require Import Prelude Block FsLayout FsOps FsSpec FsRep FsCow FsRewrite.
From S2P Require Import FsPath FsCommit FsRefine FsNames FsMount FsTheorems.
From S2P Require Import Ipc Sha256 Sha256Spec Accounts AccountText.

(** ** Hashes *)

Lemma be_bytes n v : Forall is_byte (to_be_bytes n v).
Proof.
  unfold to_be_bytes. apply list.Forall_forall. intros b Hb. rewrite list_elem_of_In, <- in_rev, <- list_elem_of_In in Hb.
  pose proof (to_le_bytes_bytes n v) as Hall. rewrite list.Forall_forall in Hall. auto.
Qed.

Lemma fips_bytes m : Forall is_byte (Fips.sha256 m).
Proof.
  unfold Fips.sha256. induction (fold_left Fips.compress (chunks 64 (Fips.pad m)) INITIAL) as [|w ws IH]; [constructor|].
  cbn [map concat]. apply Forall_app. split; [apply be_bytes|exact IH].
Qed.

Lemma lxor_byte a b : is_byte a -> is_byte b -> is_byte (Z.lxor a b).
Proof.
  rewrite !byte_bits. intros [Ha Ha'] [Hb Hb']. split; [apply Z.lxor_nonneg; tauto|].
  apply Z.bits_inj'. intros i Hi. rewrite Z.land_spec, Z.lxor_spec, <- Ha', <- Hb', !Z.land_spec.
  by destruct (Z.testbit a i), (Z.testbit b i), (Z.testbit 255 i).
Qed.

Lemma T_bytes password salt n : Forall is_byte (Rfc.T password salt n) /\ length (Rfc.T password salt n) = 32%nat.
Proof.
  assert (forall i, Forall is_byte (Rfc.U password salt i) /\ length (Rfc.U password salt i) = 32%nat) as HU.
  { intros [|i]; (split; [apply fips_bytes|apply length_hmac]). }
  induction n as [|n [IH1 IH2]]; [apply HU|].
  change (Rfc.T password salt (S n)) with (zip_with Z.lxor (Rfc.T password salt n) (Rfc.U password salt (S n))).
  destruct (HU (S n)) as [HU1 HU2]. split; [|by rewrite length_zip_with, IH2, HU2].
  revert IH1 HU1. generalize (Rfc.T password salt n), (Rfc.U password salt (S n)). clear. intros l l' Hl. revert l'.
  induction Hl as [|x l Hx Hl IH]; intros l' Hl'; [constructor|]. destruct Hl' as [|y l' Hy Hl']; [constructor|].
  simpl. constructor; [by apply lxor_byte|by apply IH].
Qed.

#[local] Opaque pbkdf2 Rfc.T.

(** What is stored for a password. *)
Definition password_key (password salt : list Z) : list Z := Rfc.T password salt (Z.to_nat (ITERATIONS - 1)).

(** ** The file *)

Abbreviation node_of t := (s_resolve t (components DATABASE) None).

Lemma read_node t db : s_read_file t DATABASE None = Ok db <-> exists o m, node_of t = Ok (TFile o m db).
Proof.
  unfold s_read_file. split.
  - destruct (node_of t) as [[o m data|]| |]; simpl; [|done..]. intros [= ->]. eauto.
  - intros (o & m & ->). done.
Qed.

Lemma resolve_total cs : forall t user, s_resolve t cs user <> Panic.
Proof.
  induction cs as [|n cs IH]; intros t user; simpl; [done|]. destruct t as [|o m es]; [done|].
  destruct (negb _); [done|]. destruct (child n es); [apply IH|done].
Qed.

Lemma read_total t path user : s_read_file t path user <> Panic.
Proof.
  unfold s_read_file. pose proof (resolve_total (components path) t user). destruct (s_resolve _ _ _) as [[o m d|]| |]; simpl; try done.
  by destruct (negb _).
Qed.

Lemma created_node t t' owner : s_create t DATABASE File None owner = Ok t' ->
  node_of t' = Ok (TFile owner DEFAULT_MODE []).
Proof.
  intros Hc. change (s_transact t DATABASE (changing_parent None) (s_create_action File owner) = Ok t') in Hc.
  apply s_rewrite_target in Hc as (before & after & Hact & _ & Haft). destruct before; [done|]. injection Hact as <-. exact Haft.
Qed.

Lemma moded_node t t' o m db : node_of t = Ok (TFile o m db) -> s_set_mode t DATABASE 0 None = Ok t' ->
  node_of t' = Ok (TFile o 0 db).
Proof.
  intros Hn Hc. change (s_transact t DATABASE (within_parent None) (s_set_mode_action 0 None) = Ok t') in Hc.
  apply s_rewrite_target in Hc as (before & after & Hact & Hbef & Haft). rewrite Hn in Hbef.
  destruct before as [b|]; [|done]. injection Hbef as <-. injection Hact as <-. exact Haft.
Qed.

Lemma written_node t t' o m db data : node_of t = Ok (TFile o m db) -> s_write_file t DATABASE data None = Ok t' ->
  node_of t' = Ok (TFile o m data).
Proof.
  intros Hn Hc. unfold s_write_file in Hc. destruct (30720 <? _); [done|].
  change (s_transact t DATABASE (within_parent None) (s_write_action data None)) with
    (s_rewrite (components DATABASE) t (within_parent None) (s_write_action data None)) in Hc.
  apply s_rewrite_target in Hc as (before & after & Hact & Hbef & Haft). rewrite Hn in Hbef.
  destruct before as [b|]; [|done]. injection Hbef as <-. injection Hact as <-. exact Haft.
Qed.

Definition users_name : list Z := [117; 115; 101; 114; 115].

(** No process can read, replace or open up a file of [ACCOUNTS] without permission bits. *)
Definition closed (t : tree) : Prop := forall u,
  s_read_file t DATABASE (Some u) = Err Denied /\
  (forall data, Z.of_nat (length data) <= 30720 -> s_write_file t DATABASE data (Some u) = Err Denied) /\
  (forall mode, u <> ACCOUNTS -> mode <= ALL_PERMISSIONS -> s_set_mode t DATABASE mode (Some u) = Err Denied).

Lemma closed_node t db : node_of t = Ok (TFile ACCOUNTS 0 db) -> closed t.
Proof.
  intros Hn u. change (components DATABASE) with [users_name] in Hn. cbn [s_resolve negb allows] in Hn.
  destruct t as [|o m es]; [done|]. destruct (child users_name es) as [c|] eqn:Hc; [|done].
  injection Hn as ->. split_and!.
  - unfold s_read_file. change (components DATABASE) with [users_name]. cbn [s_resolve].
    destruct (negb _); [done|]. rewrite Hc. simpl. by rewrite Z.bits_0.
  - intros data Hd. unfold s_write_file. destruct (30720 <? _) eqn:Hl; [lia|].
    unfold s_transact. change (components DATABASE) with [users_name]. cbn [s_rewrite]. simpl bool_decide.
    cbn [acc_user within_parent acc_changes_parent]. destruct (negb _); [done|]. cbn [andb]. rewrite Hc. simpl. by rewrite Z.bits_0.
  - intros mode Hu Hm. unfold s_set_mode. destruct (mode <=? ALL_PERMISSIONS) eqn:Hl; [|lia]. cbn [negb].
    unfold s_transact. change (components DATABASE) with [users_name]. cbn [s_rewrite]. simpl bool_decide.
    cbn [acc_user within_parent acc_changes_parent]. destruct (negb _); [done|]. cbn [andb]. rewrite Hc.
    cbn [s_set_mode_action t_owner]. apply Z.eqb_neq in Hu. rewrite Hu. done.
Qed.

Section Accounts.
Context {D : Type} `{BlockLaws D}.
Implicit Types fs : FileSystem D.

Abbreviation F := (M (FileSystem D) AccountError).

Lemma hashed_key password salt fs : Z.of_nat (length password) < 2 ^ 61 -> length salt = 16%nat ->
  hashed password salt fs = (Ok (password_key password salt), fs).
Proof.
  intros Hp Hs. unfold hashed, lift. rewrite pbkdf2_key by (rewrite ?Hs; done). done.
Qed.

(** A file system holding a tree, with room for [n] more changes in its generations. *)
Definition holding fs (t : tree) (n : Z) : Prop :=
  (exists bl, ready fs t bl) /\ sb_generation (st_superblock (fs_state fs)) + n <= U64_MAX.

(** Errors of the file system, and those only the environment causes. *)
Definition account_fs (e : AccountError) : Prop := exists fe, e = AccountFs fe.
Definition account_env (e : AccountError) : Prop := exists fe, e = AccountFs fe /\ env_error fe.

Lemma wp_of_fs {A} (m : M (FileSystem D) FsError A) (Q : result AccountError A -> FileSystem D -> Prop) fs :
  wp m (fun r fs' => Q (match r with Ok a => Ok a | Err e => Err (AccountFs e) | Panic => Panic end) fs') fs ->
  wp (of_fs m) Q fs.
Proof. unfold wp, of_fs. by destruct (m fs). Qed.

(** A change the kernel asks for on its own account. *)
Lemma changes q fs t n : request_ok q -> 1 <= n -> holding fs t n ->
  wp (of_fs (perform q)) (fun r fs' => match r with
    | Ok _ => exists t', s_perform t q = Ok t' /\ holding fs' t' (n - 1)
    | Err e => exists fe, e = AccountFs fe /\ (env_error fe \/ s_perform t q = Err fe)
    | Panic => False
    end) fs.
Proof.
  intros Hq Hn [[bl Hr] Hg]. apply wp_of_fs. eapply wp_mono; [|by apply (perform_settles q fs t bl Hq Hr); lia]. cbv beta.
  intros r fs' (_ & _ & Hres). destruct r as [[]|e|]; [|exists e; split; [done|]; destruct Hres as [[? _]|[? _]]; auto|done].
  destruct Hres as (t' & bl' & Hs & Hr' & _ & Hg'). exists t'. split; [done|]. split; [by exists bl'|]. rewrite Hg'. lia.
Qed.

(** Reading the database: it changes nothing. *)
Lemma database_read {A} fs t n (k : result FsError (list Z) -> F A) (Q : result AccountError A -> FileSystem D -> Prop) :
  holding fs t n ->
  (forall fs', holding fs' t n -> wp (k (s_read_file t DATABASE None)) Q fs') ->
  (forall fs' e, holding fs' t n -> wp (k (Err (Device e))) Q fs') ->
  wp (reading_database k) Q fs.
Proof.
  intros [[bl Hr] Hg] Hk Hd. pose proof (read_file_as_reads fs t bl DATABASE None (r_mounted _ _ _ Hr)) as Hread.
  unfold reads, wp, reading_database in *. change (read_file DATABASE fs) with (read_file_as DATABASE None fs).
  destruct (read_file_as DATABASE None fs) as [r fs1]. simpl in Hread. destruct Hread as [Hsame Hres].
  assert (holding fs1 t n) as Hh.
  { split; [exists bl; by eapply ready_same|]. destruct Hsame as (-> & _). done. }
  destruct Hres as [->|[e ->]]; [by apply Hk|by apply Hd].
Qed.

Lemma database_text : text DATABASE.
Proof. split; [repeat constructor; unfold is_byte; lia|reflexivity]. Qed.

Lemma open_database_wp fs t n : holding fs t n -> 2 <= n ->
  wp open_database (fun r fs' => match r with
    | Ok db => exists t' o m, holding fs' t' (n - 2) /\ node_of t' = Ok (TFile o m db) /\
        ((node_of t = Ok (TFile o m db) /\ t' = t) \/
         (s_read_file t DATABASE None = Err NotFound /\ o = ACCOUNTS /\ m = 0 /\ db = []))
    | Err e => account_fs e
    | Panic => False
    end) fs.
Proof.
  intros Hh Hn.
  apply (database_read fs t n); [done| |by intros; eexists].
  intros fs1 Hh1. destruct (s_read_file t DATABASE None) as [db|e|] eqn:Hread; [| |by apply read_total in Hread].
  - apply read_node in Hread as (o & m & Hnode). apply wp_ret. exists t, o, m. split_and!; [|done|by left].
    destruct Hh1 as [Hb Hg]. split; [done|lia].
  - destruct e; try by eexists.
    apply wp_bind. eapply wp_mono; [|apply (changes (RCreate DATABASE File None ACCOUNTS) fs1 t n); [|lia|done]].
    2: { split; [apply database_text|]. unfold u32, ACCOUNTS, U32_MAX. lia. }
    cbv beta. intros r fs2 Hc. destruct r as [[]|e|]; [|destruct Hc as (fe & -> & _); by eexists|done]. destruct Hc as (t2 & Hs2 & Hh2).
    apply wp_bind. eapply wp_mono; [|apply (changes (RSetMode DATABASE 0 None) fs2 t2 (n - 1)); [|lia|done]].
    2: { split; [apply database_text|]. unfold u16. lia. }
    cbv beta. intros r fs3 Hm. destruct r as [[]|e|]; [|destruct Hm as (fe & -> & _); by eexists|done]. destruct Hm as (t3 & Hs3 & Hh3).
    apply wp_ret. exists t3, ACCOUNTS, 0. simpl in Hs2, Hs3. apply created_node in Hs2 as Hn2.
    split_and!; [by replace (n - 2) with (n - 1 - 1) by lia|by eapply moded_node|by right].
Qed.

(** ** Adding an account *)

Lemma password_length password : valid_password password = true -> (length password <= 128)%nat.
Proof. unfold valid_password, MAX_PASSWORD. rewrite andb_true_iff, Nat.leb_le. tauto. Qed.

Lemma wp_with_root {A} (m : F A) (Q : result AccountError A -> option (FileSystem D) -> Prop) fs :
  wp m (fun r fs' => Q r (Some fs')) fs -> wp (with_root m) Q (Some fs).
Proof. unfold wp, with_root. by destruct (m fs). Qed.

Definition new_account (name : list Z) (user : Z) (password salt : list Z) : Account :=
  {| a_name := name; a_user := user; a_salt := salt; a_hash := password_key password salt |}.

(** The accounts there were before: none when there is no file. *)
Definition database_of (t : tree) (db : list Z) : Prop :=
  s_read_file t DATABASE None = Ok db \/ s_read_file t DATABASE None = Err NotFound /\ db = [].

Definition whole_lines (t : tree) : Prop := forall db, s_read_file t DATABASE None = Ok db -> db_ok db.

(** What adding an account ends in. *)
Definition added fs (t : tree) (n : Z) name user password salt (r : result AccountError unit) (root' : option (FileSystem D)) : Prop :=
  match r with
  | Ok _ => valid_name name = true /\ valid_password password = true /\
      exists fs' t' db db', root' = Some fs' /\ holding fs' t' (n - 3) /\ database_of t db /\
      s_read_file t' DATABASE None = Ok db' /\ db_ok db' /\
      accounts db' = accounts db ++ [new_account name user password salt] /\
      Forall (fun a => a_name a <> name /\ a_user a <> user) (accounts db) /\
      (s_read_file t DATABASE None = Err NotFound -> closed t')
  | Err BadAccountName => valid_name name = false
  | Err BadPassword => valid_password password = false
  | Err AccountExists => user = ACCOUNTS \/
      exists db a, database_of t db /\ a ∈ accounts db /\ (a_name a = name \/ a_user a = user)
  | Err (AccountFs _) => True
  | _ => False
  end.

Section Add.
Context (fs : FileSystem D) (t : tree) (n : Z) (name : list Z) (user : Z) (password salt : list Z).
Hypotheses (Hh : holding fs t n) (Hn : 3 <= n) (Huser : u32 user).
Hypotheses (Hsalt : Forall is_byte salt) (Hs16 : length salt = 16%nat) (Hdb : whole_lines t).

Lemma append_account_wp : valid_name name = true -> valid_password password = true ->
  wp (append_account name user password salt) (fun r fs' => added fs t n name user password salt r (Some fs')) fs.
Proof using Type*.
  intros Hname Hpw. unfold append_account. apply wp_bind. eapply wp_mono; [|apply (open_database_wp fs t n); [done|lia]]. cbv beta.
  intros r fs1 Hopen. destruct r as [db|e|]; [|destruct Hopen as [fe ->]; done|done].
  destruct Hopen as (t1 & o & m & Hh1 & Hnode & Hold).
  assert (database_of t db) as Hof.
  { destruct Hold as [[Hold _]|(Hold & _ & _ & ->)]; [left; apply read_node; eauto|by right]. }
  assert (db_ok db) as Hok.
  { destruct Hof as [Hof|[_ ->]]; [by apply Hdb|]. split_and!; [constructor|done|by left]. }
  apply wp_bind, wp_guard.
  { intros Hex. apply existsb_exists in Hex as (a & Ha & Heq). right. exists db, a. split; [done|]. split; [by apply list_elem_of_In|].
    apply orb_true_iff in Heq as [Heq|Heq]; [left; by apply bool_decide_eq_true in Heq|right; by apply Z.eqb_eq]. }
  intros Hfresh. apply wp_bind. unfold wp at 1. rewrite hashed_key; [|apply password_length in Hpw; lia|done]. simpl.
  destruct (T_bytes password salt (Z.to_nat (ITERATIONS - 1))) as [Hkb Hk32]. destruct (valid_name_chars name Hname) as [Hchars _].
  destruct (accounts_append db name user salt (password_key password salt) Hok Hchars Huser Hsalt Hkb Hs16 Hk32) as [Hok' Happ].
  eapply wp_mono; [|apply (changes (RWrite DATABASE (db ++ account_line name user salt (password_key password salt)) None) fs1 t1 (n - 2));
    [split; [apply database_text|apply Hok']|lia|done]]. cbv beta.
  intros r fs2 Hw. destruct r as [[]|e|]; [|destruct Hw as (fe & -> & _); done|done]. destruct Hw as (t2 & Hs & Hh2). simpl in Hs.
  pose proof (written_node _ _ _ _ _ _ Hnode Hs) as Hnode2.
  split; [done|]. split; [done|]. exists fs2, t2, db, (db ++ account_line name user salt (password_key password salt)). split_and!.
  - done.
  - by replace (n - 3) with (n - 2 - 1) by lia.
  - done.
  - apply read_node. eauto.
  - done.
  - exact Happ.
  - apply list.Forall_forall. intros a Ha. apply list_elem_of_In in Ha.
    assert (~ (bool_decide (a_name a = name) || (a_user a =? user) = true)) as Hne.
    { intros Heq. assert (existsb (fun a => bool_decide (a_name a = name) || (a_user a =? user)) (accounts db) = true); [|congruence].
      apply existsb_exists. eauto. }
    rewrite orb_true_iff, bool_decide_eq_true, Z.eqb_eq in Hne. tauto.
  - intros Hnone. destruct Hold as [[Hold _]|(_ & -> & -> & _)]; [|by eapply closed_node].
    assert (s_read_file t DATABASE None = Ok db) by (apply read_node; eauto). congruence.
Qed.

Lemma add_account_wp : wp (add_account name user password salt) (added fs t n name user password salt) (Some fs).
Proof using Type*.
  unfold add_account. apply wp_bind, wp_guard; [intros Hv; by apply negb_true_iff in Hv|intros Hv%negb_false_iff].
  apply wp_bind, wp_guard; [intros Hp; by apply negb_true_iff in Hp|intros Hp%negb_false_iff].
  apply wp_bind, wp_guard; [intros Hu; left; lia|intros Hu].
  apply wp_with_root. by apply append_account_wp.
Qed.

End Add.

(** ** Logging in *)

(** The account a name stands for, if the password is its own. *)
Definition knows (t : tree) (name password : list Z) (a : Account) : Prop :=
  exists db, s_read_file t DATABASE None = Ok db /\ find_account name (accounts db) = Some a /\
    a_hash a = password_key password (a_salt a) /\ (length password <= 128)%nat.

Lemma find_account_elem name l a : find_account name l = Some a -> a ∈ l /\ a_name a = name.
Proof.
  unfold find_account. intros Hf. apply head_Some in Hf as [l' Hf].
  assert (a ∈ filter (fun a => a_name a = name) l) as Hin by (rewrite Hf; left).
  apply list_elem_of_filter in Hin. tauto.
Qed.

Definition logged_in fs (t : tree) (n : Z) thread name password users
    (r : result AccountError (Z * gmap nat Z)) (root' : option (FileSystem D)) : Prop :=
  (exists fs', root' = Some fs' /\ holding fs' t n) /\
  match r with
  | Ok (u, users') => exists a, knows t name password a /\ u = a_user a /\ users' = assign_user thread u users
  | Err Incorrect => forall a, ~ knows t name password a
  | Err (AccountFs e) => env_error e \/ s_read_file t DATABASE None = Err e
  | _ => False
  end.

Lemma check_password_wp fs t n name password : holding fs t n -> Z.of_nat (length password) < 2 ^ 61 ->
  wp (check_password name password) (fun r fs' => holding fs' t n /\
    match r with
    | Ok u => exists a, knows t name password a /\ u = a_user a
    | Err Incorrect => forall a, ~ knows t name password a
    | Err (AccountFs e) => env_error e \/ s_read_file t DATABASE None = Err e
    | _ => False
    end) fs.
Proof.
  intros Hh Hp. unfold check_password. apply wp_bind, (database_read fs t n); [done| |by intros fs' e Hh'; split; [|left; right; exists e]].
  intros fs1 Hh1. pose proof (read_total t DATABASE None) as Htot.
  assert (forall db, (database_of t db) -> wp (
    let account := find_account name (accounts db) in
    let '(salt, expected) :=
      match account with Some a => (a_salt a, a_hash a) | None => (replicate 16 0, replicate 32 0) end in
    hash ← hashed password salt;
    match account with
    | Some a =>
        if (length password <=? MAX_PASSWORD)%nat && same hash expected then mret (a_user a) else fail Incorrect
    | None => fail Incorrect
    end) (fun r fs' => holding fs' t n /\
      match r with
      | Ok u => exists a, knows t name password a /\ u = a_user a
      | Err Incorrect => forall a, ~ knows t name password a
      | Err (AccountFs e) => env_error e \/ s_read_file t DATABASE None = Err e
      | _ => False
      end) fs1) as Hfound.
  { intros db Hof. cbv zeta. destruct (find_account name (accounts db)) as [a|] eqn:Hf.
    - destruct (find_account_elem _ _ _ Hf) as [Ha _]. destruct (accounts_shape db a Ha) as [Hs Hnn].
      apply wp_bind. unfold wp at 1. rewrite hashed_key by done. simpl.
      assert (same (password_key password (a_salt a)) (a_hash a) = true <-> password_key password (a_salt a) = a_hash a) as Hsame.
      { apply same_spec; [|done]. eapply Forall_impl; [apply (T_bytes password (a_salt a) (Z.to_nat (ITERATIONS - 1)))|]. unfold is_byte. intros b ?. lia. }
      destruct (_ && _) eqn:Hc.
      + apply andb_true_iff in Hc as [Hl%Nat.leb_le Hc%Hsame]. apply wp_ret. split; [done|]. exists a. split; [|done].
        exists db. split_and!; [|done|done|done]. destruct Hof as [Hof|[_ ->]]; [done|]. by apply elem_of_nil in Ha.
      + apply wp_fail. split; [done|]. intros a' (db' & Hr & Hf' & Hk & Hl). destruct Hof as [Hof|[Hof ->]]; [|congruence].
        assert (db' = db) as -> by congruence. assert (a' = a) as -> by congruence. apply andb_false_iff in Hc as [Hc|Hc].
        * apply Nat.leb_gt in Hc. unfold MAX_PASSWORD in Hc. lia.
        * symmetry in Hk. apply Hsame in Hk. congruence.
    - apply wp_bind. unfold wp at 1. rewrite hashed_key by done. simpl. apply wp_fail. split; [done|].
      intros a' (db' & Hr & Hf' & _). destruct Hof as [Hof|[Hof ->]]; congruence. }
  destruct (s_read_file t DATABASE None) as [db|e|] eqn:Hread; [|destruct e; try (by split; [|right])|done].
  - apply wp_ret. apply (Hfound db). by left.
  - apply wp_ret. apply (Hfound []). by right.
Qed.

Lemma login_wp fs t n thread name password users : holding fs t n -> Z.of_nat (length password) < 2 ^ 61 ->
  wp (login thread name password users) (logged_in fs t n thread name password users) (Some fs).
Proof.
  intros Hh Hp. unfold login. apply wp_bind, wp_with_root. eapply wp_mono; [|by apply check_password_wp]. cbv beta.
  intros r fs' [Hh' Hr]. destruct r as [u|e|]; [|split; [by exists fs'|done]|done].
  destruct Hr as (a & Hk & ->). apply wp_ret. split; [by exists fs'|]. exists a. done.
Qed.

(** C17: A thread becomes a user only by an account whose stored hash is PBKDF2 of the
    password it gave, over the account's salt; whatever fails leaves the file system's tree
    and the table of users alone, and a wrong password is not told from a missing name. *)
Theorem login_sound fs t bl thread name password users :
  ready fs t bl -> sb_generation (st_superblock (fs_state fs)) <= U64_MAX -> Z.of_nat (length password) < 2 ^ 61 ->
  wp (login thread name password users) (logged_in fs t 0 thread name password users) (Some fs).
Proof. intros Hr Hg Hp. apply login_wp; [|done]. split; [by exists bl|lia]. Qed.


(** ** What the permissions do not cover *)

(** A root directory as formatting leaves it, with nothing in it but the database. *)
Definition with_database (node : tree) : tree := TDir SYSTEM DEFAULT_MODE [(users_name, node)].

Definition empty_dir : tree := TDir SYSTEM DEFAULT_MODE [].

Lemma remove_database node : match node with TDir _ _ (_ :: _) => False | _ => True end ->
  s_remove (with_database node) DATABASE (Some SYSTEM) = Ok empty_dir.
Proof. destruct node as [o m d|o m []]; done. Qed.

Lemma recreate_database :
  s_create empty_dir DATABASE File (Some SYSTEM) SYSTEM = Ok (with_database (TFile SYSTEM DEFAULT_MODE [])).
Proof. reflexivity. Qed.

Lemma forge_database data : Z.of_nat (length data) <= 30720 ->
  s_write_file (with_database (TFile SYSTEM DEFAULT_MODE [])) DATABASE data (Some SYSTEM) =
  Ok (with_database (TFile SYSTEM DEFAULT_MODE data)).
Proof. intros Hl. unfold s_write_file. destruct (30720 <? _) eqn:H30; [lia|]. reflexivity. Qed.

Lemma length_decimal places : forall n, (length (decimal places n) <= places)%nat.
Proof.
  induction places as [|places IH]; intros n; cbn [decimal]; [done|]. destruct (n <? 10); [simpl; lia|].
  rewrite length_app. simpl. specialize (IH (n / 10)). lia.
Qed.

Lemma length_hex (l : list Z) : length (concat (map hex_byte l)) = (2 * length l)%nat.
Proof. induction l as [|b l IH]; [done|]. cbn [map concat]. rewrite length_app, IH. simpl. lia. Qed.

Lemma length_line name user salt hash : (length name <= 32)%nat -> length salt = 16%nat -> length hash = 32%nat ->
  Z.of_nat (length (account_line name user salt hash)) <= 150.
Proof.
  intros Hn Hs Hh. unfold account_line. rewrite !length_app, !length_hex, Hs, Hh. pose proof (length_decimal 10 user).
  change (length [COLON]) with 1%nat. change (length [NEWLINE]) with 1%nat. lia.
Qed.

(** What a process acting for the system's user asks for: remove the database, create
    it again, and write an account into it. *)
Definition forge (name : list Z) (user : Z) (password salt : list Z) : F unit :=
  of_fs (perform (RRemove DATABASE (Some SYSTEM))) ;;
  of_fs (perform (RCreate DATABASE File (Some SYSTEM) SYSTEM)) ;;
  of_fs (perform (RWrite DATABASE (account_line name user salt (password_key password salt)) (Some SYSTEM))).

(** A process acting for the system's user, as every process does that has not logged in,
    can become any user without a password of theirs.  The database has no permission
    bits and another owner, but the directory it is in is the system's: the process removes
    it, creates its own, writes an account for the user with a password of its choosing, and
    logs in; nothing refuses it, whatever accounts there were. *)
Theorem system_process_forges fs db bl thread name user password salt users :
  ready fs (with_database (TFile ACCOUNTS 0 db)) bl -> sb_generation (st_superblock (fs_state fs)) + 3 <= U64_MAX ->
  valid_name name = true -> valid_password password = true -> u32 user -> Forall is_byte salt -> length salt = 16%nat ->
  wp (with_root (forge name user password salt) ;; login thread name password users)
    (fun r _ => match r with
                | Ok (u, users') => u = user /\ users' = assign_user thread user users
                | Err e => account_env e
                | Panic => False
                end) (Some fs).
Proof.
  intros Hr Hg Hname Hpw Hu Hsalt Hs16.
  destruct (T_bytes password salt (Z.to_nat (ITERATIONS - 1))) as [Hkb Hk32]. destruct (valid_name_chars name Hname) as [Hchars _].
  assert (db_ok []) as Hnil by (split_and!; [constructor|done|by left]).
  destruct (accounts_append [] name user salt (password_key password salt) Hnil Hchars Hu Hsalt Hkb Hs16 Hk32) as [Hok' Happ].
  set (line := account_line name user salt (password_key password salt)) in *. simpl in Hok', Happ.
  assert (Z.of_nat (length line) <= 30720) as Hlen.
  { etrans; [apply length_line; [|done|exact Hk32]|lia]. unfold valid_name, MAX_ACCOUNT_NAME in Hname.
    apply andb_true_iff in Hname as [Hname _]. apply andb_true_iff in Hname as [_ Hname]. by apply Nat.leb_le in Hname. }
  apply wp_bind, wp_with_root. unfold forge. fold line. apply wp_bind.
  eapply wp_mono; [|apply (changes (RRemove DATABASE (Some SYSTEM)) fs (with_database (TFile ACCOUNTS 0 db)) 3);
    [exact database_text|lia|split; [by exists bl|lia]]]. cbv beta.
  cbn [s_perform]. rewrite remove_database by done.
  intros r fs1 H1. destruct r as [[]|e|]; [|destruct H1 as (fe & -> & [?|?]); [by eexists|done]|done]. destruct H1 as (t1 & Hs1 & Hh1). injection Hs1 as <-. apply wp_bind.
  eapply wp_mono; [|apply (changes (RCreate DATABASE File (Some SYSTEM) SYSTEM) fs1 empty_dir (3 - 1));
    [split; [exact database_text|unfold u32, SYSTEM; lia]|lia|done]]. cbv beta.
  cbn [s_perform]. rewrite recreate_database.
  intros r fs2 H2. destruct r as [[]|e|]; [|destruct H2 as (fe & -> & [?|?]); [by eexists|done]|done]. destruct H2 as (t2 & Hs2 & Hh2). injection Hs2 as <-.
  eapply wp_mono; [|apply (changes (RWrite DATABASE line (Some SYSTEM)) fs2 (with_database (TFile SYSTEM DEFAULT_MODE [])) (3 - 1 - 1));
    [split; [exact database_text|apply Hok']|lia|exact Hh2]]. cbv beta.
  cbn [s_perform]. rewrite forge_database by done.
  intros r fs3 H3. destruct r as [[]|e|]; [|destruct H3 as (fe & -> & [?|?]); [by eexists|done]|done]. destruct H3 as (t3 & Hs3 & Hh3). injection Hs3 as <-.
  eapply wp_mono; [|apply (login_wp fs3 _ _ thread name password users Hh3); apply password_length in Hpw; lia]. cbv beta.
  assert (find_account name (accounts line) = Some (new_account name user password salt)) as Hfind.
  { rewrite Happ. unfold find_account. by rewrite filter_cons_True. }
  clearbody line. clear Happ Hok' Hlen Hchars Hkb Hk32 Hnil.
  intros r root [_ Hl]. destruct r as [[u users']|e|]; [| |done].
  - destruct Hl as (a & (db1 & Hr1 & Hf1 & _) & -> & ->). assert (db1 = line) as -> by (by injection Hr1 as <-).
    rewrite Hfind in Hf1. injection Hf1 as <-. split; reflexivity.
  - destruct e; [exfalso; exact Hl..| |destruct Hl as [Hl|Hl]; [by eexists|discriminate Hl]]. exfalso. apply (Hl (new_account name user password salt)). exists line.
    split_and!; [done|done|done|by apply password_length].
Qed.

End Accounts.
