(* ===== verification/AccountRuns.v ===== *)
(** * Accounts on a small disk *)

From stdpp Require Import base list gmap numbers list_numbers.
From Stdlib Require Import Lia.
From S2P Require Import Prelude Block FsLayout FsOps FsSpec FsRep FsCow FsRewrite.
From S2P Require Import FsPath FsCommit FsRefine FsNames FsMount FsTheorems FsRuns.
From S2P Require Import Ipc Sha256 Sha256Spec Accounts AccountText AccountTheorems.

(** "eve", user 1000 *)
Definition eve : list Z := [101; 118; 101].
Definition secret : list Z := [112; 119].
Definition salt : list Z := seqZ 0 16.

Lemma salt_bytes : Forall is_byte salt /\ length salt = 16%nat.
Proof. split; [|reflexivity]. apply list.Forall_forall. intros b Hb. apply elem_of_seqZ in Hb. unfold is_byte. lia. Qed.

Lemma fresh_lines : whole_lines empty_root.
Proof. intros db Hr. by vm_compute in Hr. Qed.

Lemma fresh_generation : sb_generation (st_superblock (fs_state fresh)) = 1.
Proof. destruct runs as ((_ & Hg & _) & _). exact Hg. Qed.


Lemma login_sound_witness : exists bl, ready fresh empty_root bl /\
  wp (login 3 eve secret ∅) (logged_in fresh empty_root 0 3 eve secret ∅) (Some fresh).
Proof.
  destruct fresh_ready as (bl & Hr & _). exists bl. split; [exact Hr|].
  exact (login_sound fresh empty_root bl 3 eve secret ∅ Hr
    ltac:(rewrite fresh_generation; unfold U64_MAX; lia) ltac:(vm_compute; reflexivity)).
Defined.

(** A change that succeeds on a small disk. *)
Lemma performed q (fs : FileSystem MemDisk.disk) t bl t' : ready fs t bl -> request_ok q ->
  sb_generation (st_superblock (fs_state fs)) < U64_MAX -> fst (perform q fs) = Ok tt -> s_perform t q = Ok t' ->
  exists bl', ready (snd (perform q fs)) t' bl'.
Proof.
  intros Hr Hq Hg Hok Hs. pose proof (perform_settles q fs t bl Hq Hr Hg) as Hp. unfold wp in Hp.
  destruct (perform q fs) as [r fs']. simpl in Hok, Hp. subst r. destruct Hp as (_ & _ & t1 & bl' & Ht & Hr' & _).
  rewrite Hs in Ht. injection Ht as <-. by exists bl'.
Qed.

(** The database, created and closed. *)
Definition made : FileSystem MemDisk.disk := snd (perform (RCreate DATABASE File None ACCOUNTS) fresh).
Definition shut : FileSystem MemDisk.disk := snd (perform (RSetMode DATABASE 0 None) made).

Lemma shutting : fst (perform (RCreate DATABASE File None ACCOUNTS) fresh) = Ok tt /\
  sb_generation (st_superblock (fs_state made)) = 2 /\ fst (perform (RSetMode DATABASE 0 None) made) = Ok tt /\
  sb_generation (st_superblock (fs_state shut)) = 3.
Proof. vm_compute. repeat split. Qed.

Lemma shut_ready : exists bl, ready shut (with_database (TFile ACCOUNTS 0 [])) bl.
Proof.
  destruct fresh_ready as (bl & Hr & _). destruct shutting as (Hmade & Hgen & Hshut & _).
  destruct (performed (RCreate DATABASE File None ACCOUNTS) fresh empty_root bl (with_database (TFile ACCOUNTS DEFAULT_MODE [])) Hr)
    as [bl1 Hr1]; [split; [apply database_text|unfold u32, ACCOUNTS, U32_MAX; lia]|by rewrite fresh_generation|exact Hmade|vm_compute; reflexivity|].
  destruct (performed (RSetMode DATABASE 0 None) made _ bl1 (with_database (TFile ACCOUNTS 0 [])) Hr1)
    as [bl2 Hr2]; [split; [apply database_text|unfold u16; lia]|by rewrite Hgen|exact Hshut|vm_compute; reflexivity|]. by exists bl2.
Qed.

Lemma system_process_forges_witness : exists bl, ready shut (with_database (TFile ACCOUNTS 0 [])) bl /\
  wp (with_root (forge eve 1000 secret salt) ;; login 3 eve secret ∅)
    (fun r _ => match r with
                | Ok (u, users') => u = 1000 /\ users' = assign_user 3 1000 ∅
                | Err e => account_env e
                | Panic => False
                end) (Some shut).
Proof.
  destruct shut_ready as (bl & Hr). exists bl. split; [exact Hr|].
  exact (system_process_forges shut [] bl 3 eve 1000 secret salt ∅ Hr
    ltac:(destruct shutting as (_ & _ & _ & ->); vm_compute; discriminate) eq_refl eq_refl ltac:(unfold u32; lia) (proj1 salt_bytes) (proj2 salt_bytes)).
Defined.
